(* ===== verification/_CoqProject ===== *)
-Q . S2P
Prelude.v
RegionUtils.v
RegionPartition.v
Storage.v
StorageInterface.v
Wire.v
ServerTransfer.v
RegionCache.v
RegionCacheSpec.v
MetadataQuery.v
IdInterface.v
TransferPack.v
RequestHandler.v
RequestHandlerSpec.v
RequestData.v
ClientTransfer.v
ClientMemory.v
ClientFrame.v
ClientTransferSpec.v
ClientStartSpec.v
ClientBatch.v
ClientLifecycle.v
Vle.v
Bulki.v
BulkiSpec.v
StringUtils.v
Mercury.v
RpcTypes.v
RpcMessages.v
Dart.v
DartSpec.v
IdiomsIndex.v
IdiomsSpec.v
IdiomsSearch.v
DartClient.v
BloomFilter.v
MetadataTable.v
MetadataTableSpec.v
MetadataDirectory.v
MetadataService.v
MetadataRpc.v
MetadataClient.v
MetadataCluster.v
MetadataClientSpec.v
MetadataClients.v
MetadataQueries.v
Checkpoint.v
CheckpointSpec.v
QueryTree.v
QueryEval.v
QueryEvalSpec.v
ClientObjects.v
ClientObjectsSpec.v
