(* ===== verification/Prelude.v ===== *)
(** * Verification of PDC (Proactive Data Containers)

    PDC is an object store for parallel programs.  A client creates objects and
    reads and writes regions of them: boxes of one to three dimensions in the
    array of an object.  The client splits a region over the data servers, sends
    each server its part, and puts the parts of a read together; a data server
    keeps the regions of an object in a file, with a cache in front of it; a
    metadata server records which data server holds which region.

    ** Files and code

    (Paths are below [src/src/].)

    - [Prelude]: machine integers with their wrap-around, sublists of bytes,
      loops over integers, the tactics and lemmas of the other files.
    - [RegionUtils]: [utils/pdc_region_utils.c], the geometry of regions and the
      copies between row-major buffers.  The specifications are about the points
      of a region ([in_region]) and the byte a buffer stores for a point
      ([reg_get]).
    - [RegionPartition]: [static_region_partition] of
      [api/pdc_region/pdc_region_transfer.c] and the loop that assembles the
      answers: the parts of the servers tile the region.
    - [Storage], [StorageInterface]: the storage engine in
      [server/pdc_server_region/pdc_server_data.c] ([PDC_Server_data_write_out],
      [PDC_Server_data_read_from] and below).  The abstract state is a byte per
      point; [RegionStorage] is the interface it offers.
    - [Wire]: integers as little-endian bytes.
    - [ServerTransfer]: [server/pdc_server_region/pdc_server_region_transfer.c],
      the status list of the requests and the parser of bulk buffers.
    - [RegionCache], [RegionCacheSpec]:
      [server/pdc_server_region/pdc_server_region_cache.c], verified against
      [RegionStorage].
    - [MetadataQuery]:
      [server/pdc_server_region/pdc_server_region_transfer_metadata_query.c].
    - [IdInterface]: [utils/pdc_interface.c] and the linked list it uses.
    - [TransferPack]: the buffers a client packs and unpacks
      ([api/pdc_region/pdc_region_transfer.c]), against the parsers of the
      servers.
    - [RequestHandler], [RequestHandlerSpec], [RequestData]: the RPC handlers of
      [server/pdc_server_region/pdc_server_region_request_handler.h] as a state
      machine whose bulk transfers complete in any order, and the data they
      move.
    - [ClientTransfer]: the life of a transfer request on the client
      ([api/pdc_region/pdc_region_transfer.c], the calls of
      [api/pdc_client_connect.c] it uses, and the end of the transfers in
      [api/pdc_obj/pdc_obj.c]) over an explicit memory.  [ClientMemory] is a
      logic of weakest preconditions for it, with the ownership of blocks and
      shared counters, [ClientFrame] says which functions keep the arrays of IDs;
      [ClientTransferSpec] waits for a batch, [ClientStartSpec] starts one,
      [ClientBatch] does both, [ClientLifecycle] has the theorems.
    - [Vle], [Bulki], [BulkiSpec]: [commons/serde/], numbers of variable length
      and the self-describing entities (BULKI) with their serialisation.
    - [StringUtils]: strings and patterns of [commons/utils/string_utils.c] and
      [commons/utils/query_utils.c].
    - [Mercury], [RpcTypes], [RpcMessages]: the messages of the remote procedures
      ([server/include/pdc_client_server_common.h], its structures and functions
      [hg_proc_*]) and the registrations that pair them
      ([server/pdc_client_server_common.c]).  How the network library writes one
      value is a class of operations of which reading back is relied on.
    - [Dart], [DartSpec]: [commons/index/dart/dart_core.c], which servers have
      the index entries of a key and which are asked for a query.
    - [IdiomsIndex], [IdiomsSpec], [IdiomsSearch]:
      [commons/index/dart/index/idioms/idioms_local_index.c], the metadata index
      of one server, against the relation of keys, values and identifiers that
      it stores.
    - [DartClient]: insertion, deletion and search over all servers
      ([api/pdc_client_connect.c], [server/pdc_server_metadata_index.c]).
    - [BloomFilter]: the counting filter of [server/dablooms/pdc_dablooms.c] with
      the hash of [pdc_murmur.c].
    - [MetadataTable]: the objects, containers and tags of a metadata server
      ([server/pdc_server_metadata.c]).  [MetadataTableSpec] relates the hash
      table of lists to a map from identifiers to objects,
      [MetadataDirectory] the requests to operations of a directory, and
      [MetadataService] has the theorems on a server from its start.
    - [MetadataRpc]: the handlers of the remote procedures on metadata
      ([HG_TEST_RPC_CB] in [server/pdc_client_server_common.c]).
      [MetadataClient]: the functions of [api/pdc_client_connect.c] that call
      them on the server that they compute.  [MetadataCluster] says what the
      servers together hold, [MetadataClientSpec] that a request to the right
      server is a request to all, and [MetadataClients] and [MetadataQueries]
      have the theorems on the operations and the questions of clients.
    - [Checkpoint], [CheckpointSpec]: the checkpoint file of a server and the
      restart from it ([server/pdc_server.c]).
    - [QueryTree]: the conditions on data that a client builds
      ([api/pdc_query/pdc_query.c]) and their message.  [QueryEval]: their
      evaluation ([server/pdc_server_region/pdc_server_data.c]); [QueryEvalSpec]
      has its theorems.
    - [ClientObjects]: the properties, containers, objects and regions that a
      client has identifiers of ([api/pdc.c], [api/pdc_obj/],
      [api/pdc_region/pdc_region.c]) and their requests to the metadata servers;
      [ClientObjectsSpec] has its theorems.

    ** What the theorems show

    The doc comment of each theorem states its conditions; cases that they leave
    out because the code goes wrong there have counterexamples beside them.

    - From the client to the bytes of the objects: the parts of a partition tile
      the region ([static_region_partition_spec], [gather_assembles]); the buffer
      of a start-all call is parsed to the packages that were packed
      ([pack_all_parsed]); the handlers store or deliver exactly these bytes
      ([start_all_write_stored], [start_all_read_delivered],
      [write_then_read_request]); storage and cache implement a map from points
      to bytes ([data_write_out_refines], [data_read_from_refines],
      [cache_write_refines], [cache_read_refines], [cache_flush_preserves]), except
      where its position check refuses a write ([write_1d_rejected]) and where
      the cache keeps old bytes or merges wrongly ([cache_read_stale],
      [merge_requests_unscaled]).
    - Every waiting client is answered, once ([server_books_kept],
      [waiters_answered_once], [completions_terminate], [wait_all_served]).
    - The client's memory: starting and waiting for a batch uses no freed memory,
      frees nothing twice and gives the buffers back ([batch_started],
      [batch_waited], [batch_restores_memory]); the theorems say which arrays of
      IDs are left over ([posix_array_left] is an example).
    - Regions: the record of the regions of known objects is answered
      ([metadata_query_answered]); a restart from it restores objects, counts and
      servers, but neither offsets nor sizes ([restart_from_checkpoint]).
    - Messages: what is encoded is decoded, field by field, for each of the
      structures that are sent ([message_roundtrip]).
    - Objects: every request to a metadata server does what it means on a
      directory of objects by identifier and containers by name
      ([metadata_step_refines]), and queries are answered from that directory, or
      write behind their array when deletions have made it too small
      ([metadata_queries_answered]); the filter of a long list loses no object
      ([bloom_no_false_negative]).
    - Clients and all metadata servers: whichever server a client computes, the
      servers are one directory ([clients_share_directory]), from which look-ups
      and queries for tags are answered ([client_lookups_answered],
      [client_kvtag_query_answered]); what cannot be done changes nothing, and is
      reported by some of the operations ([refused_changes_nothing]).
    - A restart from a checkpoint has the same objects, tags and files, the
      storage regions up to their sizes, and the fields of the containers but
      not their members ([restart_restores]), and reads what was stored before
      ([restart_then_read]).
    - Queries on data: a server has the tree that the client has built
      ([query_received]); it answers conditions that are joined by OR with the
      elements that satisfy one of them, each once ([alternatives_answered], for
      chains of conditions on changing objects).
    - The metadata index: patterns mean what wildcards usually mean
      ([pattern_matches_glob]); DART sends deletions wherever an insertion may
      have gone and queries to a server that has the entry
      ([dart_delete_reaches], [dart_query_reaches]); the index of a server finds
      exactly the values that match ([index_history_answers]); together a search
      returns the objects with matching tags ([dart_search_answers]).
    - Serialisation: BULKI entities are read back as they were written, within
      the size computed before ([bulki_roundtrip], [serialize_in_bounds],
      [bulki_put_get]).
    - Identifiers are counted exactly ([ref_count_spec], [id_register_spec]), so a
      client is a map from identifiers to structures of which an operation changes
      one ([client_is_a_map]), and closing an object that the servers refused is a
      fault; an object of time step 0 that one client creates is the one that
      another opens by its name ([created_is_opened]).

    ** Conventions

    [uint64_t], [int] and the like are [Z] with the wrap-around of each operation
    written out ([+w], [*w], [u32], [i32]); [None] is undefined behaviour (an
    access out of bounds, freed memory, a failed assertion), so a theorem that a
    function returns [Some] excludes it.  Loops are structural or have as fuel a
    bound that is proved or is the length of the list they walk ([remove_loop]:
    the number of nodes; [take_local_requests]: the same).  What the code calls
    but does not define (the network library Mercury, [qsort], files) is an
    argument or a class with laws: a permutation for [qsort], an answer for an
    RPC, the order of traversal of tries and sets; each is instantiated in the
    witnesses.  Adaptive radix trees and hash sets (third-party) are finite maps
    and sets.

    ** Not modelled

    Parts that only move data to libraries or the network are left out: the
    collective variants of the functions of [api/pdc_client_connect.c], which
    broadcast or gather results, its connections, the start-up of servers, MPI,
    threads and locks, timing and logging.  The older buffer mapping and region locks of [pdc_server_data.c], analysis and
    transformations, the tools and third-party code (containers, cJSON, thread
    pool) are not modelled; the manifest lists them.  Of queries on data, FastBit
    and the exchange between several servers are not modelled; AND, ranges and
    regions are modelled as definitions, but have no theorem, because the code
    looks coordinates up at wrong elements (see the findings of [QueryEval]).  Of the
    metadata tables, the SQLite and RocksDB back ends and the locks are not modelled.  Deleting an object
    by its identifier reads it after it is freed ([delete_in_list]); whether
    freed memory keeps its contents is a field of [FreshMemory], and where it
    does not, deleting the last object of a list is a fault
    ([deletion_of_last_faults]).  Theorems on the client's memory cover
    static partitions and objects on one server; dynamic and local partitions and
    merged batches are modelled as definitions.  Of the metadata index, the files
    of its persistence are not modelled, and the trees over numbers are a class
    of operations without laws: the theorems on queries are about strings.
    Routing excepts the queries that are broadcast (short tokens), which the
    code sends to wrong servers (see the findings of [Dart]). *)

From Stdlib Require Export ZArith Lia.
From stdpp Require Export base numbers list option.

Declare Scope pdc_scope.
Delimit Scope pdc_scope with pdc.
#[global] Open Scope Z_scope.
#[global] Open Scope pdc_scope.

(** * Machine integers *)

(** [uint64_t] values are [Z] in [0, W64); every arithmetic operation of the
    code wraps, which is written out with [u64]. *)
Definition W64 : Z := 18446744073709551616.
Definition u64 (z : Z) : Z := z mod W64.

Notation "a +w b" := (u64 (a + b)) (at level 50, left associativity) : pdc_scope.
Notation "a -w b" := (u64 (a - b)) (at level 50, left associativity) : pdc_scope.
Notation "a *w b" := (u64 (a * b)) (at level 40, left associativity) : pdc_scope.

Definition is_u64 (z : Z) : Prop := 0 ≤ z < W64.

(** [uint32_t] and the signed 32-bit [int]. *)
Definition W32 : Z := 4294967296.
Definition u32 (z : Z) : Z := z mod W32.
Definition i32 (z : Z) : Z := (z + 2147483648) mod W32 - 2147483648.

Create HintDb pdc.

Lemma W64_pos : 0 < W64.
Proof. reflexivity. Qed.
Lemma W32_pos : 0 < W32.
Proof. reflexivity. Qed.
Lemma W32_lt_W64 : W32 < W64.
Proof. reflexivity. Qed.
#[export] Hint Resolve W64_pos W32_pos W32_lt_W64 : pdc.

Lemma u64_id z : 0 ≤ z < W64 → u64 z = z.
Proof. apply Z.mod_small. Qed.
Lemma u64_range z : 0 ≤ u64 z < W64.
Proof. apply Z.mod_pos_bound, W64_pos. Qed.
Lemma u64_u64 a : u64 (u64 a) = u64 a.
Proof. apply Zmod_mod. Qed.

(** Congruence modulo 2^64: setoid rewriting removes the inner wrap-arounds of
    an expression. *)
Definition eqm (a b : Z) : Prop := u64 a = u64 b.

#[export] Instance eqm_equiv : Equivalence eqm.
Proof. unfold eqm. split; [done|by intros ???|by intros ??? -> ->]. Qed.
#[export] Instance eqm_add : Proper (eqm ==> eqm ==> eqm) Z.add.
Proof. unfold eqm, u64. intros a a' Ha b b' Hb. by rewrite Zplus_mod, Ha, Hb, <-Zplus_mod. Qed.
#[export] Instance eqm_sub : Proper (eqm ==> eqm ==> eqm) Z.sub.
Proof. unfold eqm, u64. intros a a' Ha b b' Hb. by rewrite Zminus_mod, Ha, Hb, <-Zminus_mod. Qed.
#[export] Instance eqm_mul : Proper (eqm ==> eqm ==> eqm) Z.mul.
Proof. unfold eqm, u64. intros a a' Ha b b' Hb. by rewrite Zmult_mod, Ha, Hb, <-Zmult_mod. Qed.
Lemma u64_eqm a : eqm (u64 a) a.
Proof. apply u64_u64. Qed.

(** Prove an equation between two wrapped expressions, or between a wrapped
    expression and its value when that is in range. *)
Ltac u64_ring :=
  lazymatch goal with
  | |- u64 ?a = u64 ?b =>
      change (eqm a b); rewrite ?u64_eqm; unfold eqm; f_equal; ring
  end.

(** The workhorse that removes all wrap-arounds of an expression whose
    mathematical value is in range. *)
Lemma u64_eq a b : eqm a b → 0 ≤ b < W64 → u64 a = b.
Proof. unfold eqm. intros -> ?. by apply u64_id. Qed.

Ltac u64_side := first [lia | rewrite ?u64_eqm; reflexivity].

Ltac u64_simp_by tac :=
  lazymatch goal with
  | |- u64 ?a = ?b => apply u64_eq; [change (eqm a b); rewrite ?u64_eqm; unfold eqm; f_equal; ring | tac]
  end.

(** * Loops *)

(** [for (i = i0; i < i0 + n; ++i)] with a body that may fail. *)
Fixpoint forZ {S : Type} (n : nat) (i : Z) (f : Z → S → option S) (s : S) : option S :=
  match n with
  | O => Some s
  | Datatypes.S n' => f i s ≫= forZ n' (i + 1) f
  end.

Lemma forZ_inv {S} (P : Z → S → Prop) n i0 f s :
  P i0 s →
  (∀ i s, i0 ≤ i < i0 + Z.of_nat n → P i s → ∃ s', f i s = Some s' ∧ P (i + 1) s') →
  ∃ s', forZ n i0 f s = Some s' ∧ P (i0 + Z.of_nat n) s'.
Proof.
  revert i0 s. induction n as [|n IH]; intros i0 s H0 Hstep; simpl.
  - exists s. split; [done|]. by rewrite Z.add_0_r.
  - destruct (Hstep i0 s) as (s1 & -> & H1); [lia|done|]. simpl.
    destruct (IH (i0 + 1) s1 H1) as (s2 & -> & H2).
    { intros i s' Hi. apply Hstep. lia. }
    exists s2. split; [done|]. by replace (i0 + Z.of_nat (Datatypes.S n)) with (i0 + 1 + Z.of_nat n) by lia.
Qed.

Lemma forZ_ext {S} n i f g (s : S) : (∀ i s, f i s = g i s) → forZ n i f s = forZ n i g s.
Proof.
  intros H. revert i s. induction n as [|n IH]; intros i s; simpl; [done|]. rewrite H.
  destruct (g i s); simpl; auto.
Qed.

(** * Byte buffers *)

Section Buffers.
Context {A : Type}.
Implicit Types (b src dst d : list A).

(** The allocated block a pointer refers to is a list; an access outside it is
    undefined behaviour of the C program and is [None] here. *)
Definition lenZ b : Z := Z.of_nat (length b).

Definition getZ b (k : Z) : option A :=
  if decide (0 ≤ k) then b !! Z.to_nat k else None.

Definition mem_read b (off n : Z) : option (list A) :=
  if decide (0 ≤ off ∧ 0 ≤ n ∧ off + n ≤ lenZ b)
  then Some (take (Z.to_nat n) (drop (Z.to_nat off) b)) else None.

Definition mem_write b (off : Z) d : option (list A) :=
  if decide (0 ≤ off ∧ off + lenZ d ≤ lenZ b)
  then Some (take (Z.to_nat off) b ++ d ++ drop (Z.to_nat off + length d) b) else None.

(** [memcpy(dst + doff, src + soff, n)] between two distinct blocks. *)
Definition memcpy dst (doff : Z) src (soff n : Z) : option (list A) :=
  mem_read src soff n ≫= mem_write dst doff.

Lemma lenZ_nonneg b : 0 ≤ lenZ b.
Proof. unfold lenZ. lia. Qed.

Lemma lenZ_snoc b x : lenZ (b ++ [x]) = lenZ b + 1.
Proof. unfold lenZ. rewrite length_app. simpl. lia. Qed.

Lemma getZ_Some_lt b k x : getZ b k = Some x → 0 ≤ k < lenZ b.
Proof.
  unfold getZ, lenZ. case_decide; [|done]. intros ?%lookup_lt_Some. lia.
Qed.

Lemma getZ_is_Some b k : 0 ≤ k < lenZ b → is_Some (getZ b k).
Proof.
  unfold getZ, lenZ. intros. rewrite decide_True by lia. apply lookup_lt_is_Some. lia.
Qed.

Lemma getZ_None b k : ¬ (0 ≤ k < lenZ b) → getZ b k = None.
Proof.
  unfold getZ, lenZ. intros. case_decide; [|done]. apply lookup_ge_None. lia.
Qed.

Lemma getZ_ext b b' : lenZ b = lenZ b' → (∀ k, 0 ≤ k < lenZ b → getZ b k = getZ b' k) → b = b'.
Proof.
  unfold lenZ. intros Hl H. apply list_eq. intros i.
  destruct (decide (i < length b)%nat).
  - specialize (H (Z.of_nat i)). unfold getZ in H.
    rewrite !decide_True, Nat2Z.id in H by lia. apply H. lia.
  - rewrite !lookup_ge_None_2 by lia. done.
Qed.

Lemma mem_read_Some b off n :
  0 ≤ off → 0 ≤ n → off + n ≤ lenZ b →
  ∃ d, mem_read b off n = Some d ∧ lenZ d = n ∧
       ∀ k, 0 ≤ k < n → getZ d k = getZ b (off + k).
Proof.
  unfold mem_read, lenZ. intros. rewrite decide_True by lia. eexists. split; [done|].
  split. { rewrite length_take, length_drop. lia. }
  intros k Hk. unfold getZ. rewrite !decide_True by lia.
  rewrite lookup_take_lt, lookup_drop by lia. f_equal. lia.
Qed.

Lemma mem_write_Some b off d :
  0 ≤ off → off + lenZ d ≤ lenZ b →
  ∃ b', mem_write b off d = Some b' ∧ lenZ b' = lenZ b ∧
        ∀ k, getZ b' k = if decide (off ≤ k < off + lenZ d) then getZ d (k - off) else getZ b k.
Proof.
  unfold mem_write, lenZ. intros. rewrite decide_True by lia. eexists. split; [done|].
  split. { rewrite !length_app, length_take, length_drop. lia. }
  intros k. unfold getZ.
  destruct (decide (0 ≤ k)); [|rewrite decide_False by lia; done].
  destruct (decide (k < off)).
  { rewrite decide_False by lia. rewrite lookup_app_l by (rewrite length_take; lia).
    by rewrite lookup_take_lt by lia. }
  rewrite lookup_app_r by (rewrite length_take; lia). rewrite length_take.
  replace (Z.to_nat off `min` length b)%nat with (Z.to_nat off) by lia.
  destruct (decide (k < off + Z.of_nat (length d))).
  { rewrite !decide_True by lia. rewrite lookup_app_l by lia. f_equal. lia. }
  rewrite decide_False by lia. rewrite lookup_app_r, lookup_drop by lia. f_equal. lia.
Qed.

(** [copied C src dst dst']: [dst'] is [dst] with every byte [k] that some
    copy of the relation [C] targets replaced by a source byte [C] names. *)
Definition copied (C : Z → Z → Prop) src dst dst' : Prop :=
  lenZ dst' = lenZ dst ∧
  ∀ k, 0 ≤ k < lenZ dst →
    (∃ t, C k t ∧ getZ dst' k = getZ src t) ∨ ((∀ t, ¬ C k t) ∧ getZ dst' k = getZ dst k).

(** The bytes one [memcpy] moves. *)
Definition row_map (doff soff n : Z) (k t : Z) : Prop :=
  doff ≤ k < doff + n ∧ t = soff + (k - doff).

Lemma memcpy_copied dst doff src soff n :
  0 ≤ doff → 0 ≤ soff → 0 ≤ n → doff + n ≤ lenZ dst → soff + n ≤ lenZ src →
  ∃ dst', memcpy dst doff src soff n = Some dst' ∧ copied (row_map doff soff n) src dst dst'.
Proof.
  intros Hd Hs Hn Hdn Hsn. unfold memcpy.
  destruct (mem_read_Some src soff n) as (d & -> & Hld & Hgd); [done..|]. simpl.
  destruct (mem_write_Some dst doff d) as (b' & -> & Hl & Hg); [lia..|].
  exists b'. split; [done|]. split; [done|]. intros k Hk. rewrite Hg, Hld. unfold row_map. case_decide.
  - left. exists (soff + (k - doff)). rewrite Hgd by lia. auto.
  - right. split; [|done]. lia.
Qed.

Lemma memcpy_length dst doff src soff n dst' :
  memcpy dst doff src soff n = Some dst' → length dst' = length dst.
Proof.
  unfold memcpy, mem_read. case_decide; [|done]. simpl. unfold mem_write. case_decide; [|done].
  intros [= <-]. unfold lenZ in *. rewrite !length_app, !length_take, !length_drop in *. lia.
Qed.

#[global] Instance copied_proper :
  Proper (pointwise_relation Z (pointwise_relation Z iff) ==> eq ==> eq ==> eq ==> iff) copied.
Proof.
  intros C C' HC ? ? -> ? ? -> ? ? ->. unfold copied.
  assert (∀ k t, C k t ↔ C' k t) as HC' by (intros; apply HC). by setoid_rewrite HC'.
Qed.

Lemma copied_iff (C C' : Z → Z → Prop) src dst dst' :
  (∀ k t, C k t ↔ C' k t) → copied C src dst dst' → copied C' src dst dst'.
Proof. intros HC. by apply copied_proper. Qed.

Lemma copied_refl src dst : copied (λ _ _, False) src dst dst.
Proof. split; [done|]. intros. right. naive_solver. Qed.

Lemma copied_trans C1 C2 src d0 d1 d2 :
  copied C1 src d0 d1 → copied C2 src d1 d2 → copied (λ k t, C1 k t ∨ C2 k t) src d0 d2.
Proof.
  intros [Hl1 H1] [Hl2 H2]. split; [lia|]. intros k Hk.
  destruct (H2 k) as [(t & Ht & Heq)|[Hn Heq]]; [lia|left; eauto|].
  destruct (H1 k Hk) as [(t & Ht & Heq1)|[Hn1 Heq1]].
  - left. exists t. split; [auto|congruence].
  - right. split; [naive_solver|congruence].
Qed.

(** A loop whose every iteration copies [R i] copies their union. *)
Lemma copied_loop {St} (dst_of : St → list A) (Inv : Z → St → Prop) (R : Z → Z → Z → Prop) src n body s0 :
  Inv 0 s0 →
  (∀ i s, 0 ≤ i < Z.of_nat n → Inv i s → lenZ (dst_of s) = lenZ (dst_of s0) →
     ∃ s', body i s = Some s' ∧ Inv (i + 1) s' ∧ copied (R i) src (dst_of s) (dst_of s')) →
  ∃ s', forZ n 0 body s0 = Some s' ∧ Inv (Z.of_nat n) s' ∧
        copied (λ k t, ∃ i, 0 ≤ i < Z.of_nat n ∧ R i k t) src (dst_of s0) (dst_of s').
Proof.
  intros HI0 Hstep.
  destruct (forZ_inv (λ i s, Inv i s ∧
     copied (λ k t, ∃ j, 0 ≤ j < i ∧ R j k t) src (dst_of s0) (dst_of s)) n 0 body s0)
    as (s' & Hrun & HI & HC).
  - split; [done|]. eapply copied_iff, copied_refl. intros; split; [done|]. intros (? & ? & ?); lia.
  - intros i s Hi [HI HC]. destruct (Hstep i s) as (s' & Hb & HI' & HC'); [lia|done|apply HC|].
    exists s'. split; [done|]. split; [done|].
    eapply copied_iff; [|eapply copied_trans; [exact HC|exact HC']]. intros k t. split.
    + intros [(j & Hj & HR)|HR]; [exists j|exists i]; (split; [lia|done]).
    + intros (j & Hj & HR). destruct (decide (j = i)) as [->|]; [by right|].
      left. exists j. split; [lia|done].
  - exists s'. auto.
Qed.
End Buffers.

#[export] Hint Resolve lenZ_nonneg : pdc.

(** A byte of memory or of a file. *)
Definition byte : Type := Z.

(** Return codes of the library ([perr_t]). *)
Definition perr_t : Type := Z.
Definition SUCCEED : perr_t := 0.
Definition FAIL : perr_t := -1.
(** [pdc_c_var_type_t] *)
Definition PDC_STRING : Z := 16.

(** A fresh block of [n] bytes; [junk] is what it holds. *)
Definition malloc (junk : byte) (n : Z) : list byte := replicate (Z.to_nat n) junk.

Lemma lenZ_malloc junk n : 0 ≤ n → lenZ (malloc junk n) = n.
Proof. unfold lenZ, malloc. intros. rewrite length_replicate. lia. Qed.

Lemma lenZ_app {A} (l l' : list A) : lenZ (l ++ l') = lenZ l + lenZ l'.
Proof. unfold lenZ. rewrite length_app. lia. Qed.

(** * Lists whose elements have distinct keys *)

Section Keys.
Context {A : Type} (key : A → Z).
Implicit Types (l : list A).

Lemma key_lookup_inj l i j x y : NoDup (key <$> l) → l !! i = Some x → l !! j = Some y → key x = key y → i = j.
Proof.
  intros Hnd Hi Hj E. eapply (NoDup_lookup (key <$> l)); [done|by rewrite list_lookup_fmap, Hi|].
  by rewrite list_lookup_fmap, Hj, E.
Qed.

Lemma list_find_key l i x : NoDup (key <$> l) → l !! i = Some x → list_find (λ y, key y = key x) l = Some (i, x).
Proof.
  intros Hnd Hi. apply list_find_Some. split; [done|]. split; [done|]. intros j y Hj Hlt E.
  pose proof (key_lookup_inj _ _ _ _ _ Hnd Hi Hj (eq_sym E)). lia.
Qed.

Lemma list_find_no_key l k : Forall (λ x, key x ≠ k) l → list_find (λ y, key y = k) l = None.
Proof. intros Hl. apply list_find_None. exact Hl. Qed.

Lemma key_insert l i x y : l !! i = Some x → key y = key x → key <$> <[i := y]> l = key <$> l.
Proof. intros Hi E. rewrite list_fmap_insert, E. apply list_insert_id. by rewrite list_lookup_fmap, Hi. Qed.
End Keys.
