(* ===== verification/RegionUtils.v ===== *)
(** The region helpers of [src/src/utils/pdc_region_utils.c]: overlap tests,
    the intersection of two regions, containment, and the three copy routines
    on row-major buffers of one, two and three dimensions.  The specifications
    are stated on the points of a region and on the byte a region buffer
    stores for a point. *)

From S2P Require Export Prelude.

(** * Points and regions *)

(** A region is a list of offsets and a list of sizes (one per dimension);
    [in_region off size p]: the point [p] lies in it. *)
Fixpoint in_region (off size p : list Z) : Prop :=
  match off, size, p with
  | [], [], [] => True
  | o :: off', s :: size', x :: p' => o ≤ x < o + s ∧ in_region off' size' p'
  | _, _, _ => False
  end.

#[global] Instance in_region_dec off size p : Decision (in_region off size p).
Proof.
  revert size p. induction off as [|o off IH]; intros [|s size] [|x p]; simpl; try apply _.
Defined.

(** A region the code handles: [ndim] dimensions, no empty one, and no
    coordinate beyond the range of [uint64_t]. *)
Record wf_region (ndim : nat) (off size : list Z) : Prop := {
  wf_off : length off = ndim;
  wf_size : length size = ndim;
  wf_pos : Forall2 (λ o s, 0 ≤ o ∧ 0 < s ∧ o + s < W64) off size }.

(** Row-major (C order) index of a coordinate in an array of shape [size], and
    the number of elements of the array. *)
Definition lin_from (a : Z) (size c : list Z) : Z :=
  foldl (λ acc sc, acc * sc.1 + sc.2) a (zip size c).
Definition lin : list Z → list Z → Z := lin_from 0.
Definition vol : list Z → Z := foldr Z.mul 1.

Definition psub (p off : list Z) : list Z := zip_with Z.sub p off.
Definition padd (off c : list Z) : list Z := zip_with Z.add off c.

(** A coordinate inside an array (or a box) of the given shape. *)
Definition in_box (size c : list Z) : Prop := Forall2 (λ s x, 0 ≤ x < s) size c.

#[global] Instance in_box_dec size c : Decision (in_box size c).
Proof. apply Forall2_dec. intros; apply _. Defined.

(** The byte [b] of the element at point [p] in the buffer of a region. *)
Definition reg_get {A} (unit : Z) (off size : list Z) (buf : list A) (p : list Z) (b : Z) : option A :=
  getZ buf (lin size (psub p off) * unit + b).

(** * The code *)

(** [pdc_access_t] *)
Inductive pdc_access_t := PDC_NA | PDC_READ | PDC_WRITE.

#[global] Instance pdc_access_t_eq_dec : EqDecision pdc_access_t.
Proof. solve_decision. Defined.

(** [a[i]] for an array of [uint64_t] *)
Definition arr (l : list Z) (i : nat) : Z := l !!! i.

Definition check_overlap (ndim : nat) (offset1 size1 offset2 size2 : list Z) : bool :=
  forallb (λ i,
    (bool_decide (arr offset1 i +w arr size1 i > arr offset2 i) &&
     bool_decide (arr offset2 i >= arr offset1 i)) ||
    (bool_decide (arr offset2 i +w arr size2 i > arr offset1 i) &&
     bool_decide (arr offset1 i >= arr offset2 i))) (seq 0 ndim).

(** [None] is the NULL the code stores in [*output_offset] and [*output_size]. *)
Definition PDC_region_overlap_detect (ndim : nat) (offset1 size1 offset2 size2 : list Z)
    : option (list Z * list Z) :=
  if check_overlap ndim offset1 size1 offset2 size2 then
    let output_offset i :=
      if bool_decide (arr offset2 i < arr offset1 i) then arr offset1 i else arr offset2 i in
    let output_size i :=
      (if bool_decide (arr offset2 i +w arr size2 i < arr offset1 i +w arr size1 i)
       then arr offset2 i +w arr size2 i else arr offset1 i +w arr size1 i) -w output_offset i in
    Some (output_offset <$> seq 0 ndim, output_size <$> seq 0 ndim)
  else None.

Definition detect_region_contained (offset size offset2 size2 : list Z) (ndim : nat) : bool :=
  forallb (λ i,
    negb (bool_decide (arr offset i < arr offset2 i) ||
          bool_decide (arr offset i +w arr size i > arr offset2 i +w arr size2 i))) (seq 0 ndim).

Section Copies.
Context {A : Type}.

(** One [memcpy] of [memcpy_subregion], in the direction of the access. *)
Definition copy_dir (access_type : pdc_access_t) (buf sub_buf : list A) (boff soff n : Z)
    : option (list A * list A) :=
  match access_type with
  | PDC_WRITE => s ← memcpy sub_buf soff buf boff n; Some (buf, s)
  | _ => b ← memcpy buf boff sub_buf soff n; Some (b, sub_buf)
  end.

(** The state of the loops: [buf], [sub_buf] and the running [ptr]. *)
Definition memcpy_subregion (ndim : nat) (unit : Z) (access_type : pdc_access_t)
    (buf : list A) (size : list Z) (sub_buf : list A) (sub_offset sub_size : list Z)
    : option (list A * list A) :=
  match ndim with
  | 1%nat =>
      copy_dir access_type buf sub_buf (arr sub_offset 0 *w unit) 0 (unit *w arr sub_size 0)
  | 2%nat =>
      '(buf, sub_buf, _) ←
        forZ (Z.to_nat (arr sub_size 0)) 0 (λ i '(buf, sub_buf, ptr),
          '(buf, sub_buf) ← copy_dir access_type buf sub_buf
             (((arr sub_offset 0 +w i) *w arr size 1 +w arr sub_offset 1) *w unit)
             ptr (arr sub_size 1 *w unit);
          Some (buf, sub_buf, ptr + (arr sub_size 1 *w unit))) (buf, sub_buf, 0);
      Some (buf, sub_buf)
  | 3%nat =>
      '(buf, sub_buf, _) ←
        forZ (Z.to_nat (arr sub_size 0)) 0 (λ i,
          forZ (Z.to_nat (arr sub_size 1)) 0 (λ j '(buf, sub_buf, ptr),
            '(buf, sub_buf) ← copy_dir access_type buf sub_buf
               (((arr sub_offset 0 +w i) *w arr size 1 *w arr size 2 +w
                 (arr sub_offset 1 +w j) *w arr size 2 +w arr sub_offset 2) *w unit)
               ptr (arr sub_size 2 *w unit);
            Some (buf, sub_buf, ptr + (arr sub_size 2 *w unit)))) (buf, sub_buf, 0);
      Some (buf, sub_buf)
  | _ => Some (buf, sub_buf)
  end.

Definition memcpy_overlap_subregion (ndim : nat) (unit : Z) (buf : list A) (offset size : list Z)
    (buf2 : list A) (offset2 size2 overlap_offset overlap_size : list Z) : option (list A) :=
  match ndim with
  | 1%nat =>
      memcpy buf2 ((arr overlap_offset 0 -w arr offset2 0) *w unit)
             buf ((arr overlap_offset 0 -w arr offset 0) *w unit) (unit *w arr overlap_size 0)
  | 2%nat =>
      forZ (Z.to_nat (arr overlap_size 0)) 0 (λ i buf2,
        let src := ((arr overlap_offset 0 -w arr offset 0 +w i) *w arr size 1
                     +w arr overlap_offset 1 -w arr offset 1) *w unit in
        let target := ((arr overlap_offset 0 -w arr offset2 0 +w i) *w arr size2 1
                     +w arr overlap_offset 1 -w arr offset2 1) *w unit in
        memcpy buf2 target buf src (arr overlap_size 1 *w unit)) buf2
  | 3%nat =>
      forZ (Z.to_nat (arr overlap_size 0)) 0 (λ i,
        forZ (Z.to_nat (arr overlap_size 1)) 0 (λ j buf2,
          let src := (((arr overlap_offset 0 -w arr offset 0 +w i) *w arr size 1 +w
                       (arr overlap_offset 1 -w arr offset 1 +w j)) *w arr size 2
                       +w arr overlap_offset 2 -w arr offset 2) *w unit in
          let target := (((arr overlap_offset 0 -w arr offset2 0 +w i) *w arr size2 1 +w
                       (arr overlap_offset 1 -w arr offset2 1 +w j)) *w arr size2 2
                       +w arr overlap_offset 2 -w arr offset2 2) *w unit in
          memcpy buf2 target buf src (arr overlap_size 2 *w unit))) buf2
  | _ => Some buf2
  end.
End Copies.

(** * Row-major arithmetic *)

Lemma lin_from_bounds size c : in_box size c →
  ∀ a, a * vol size ≤ lin_from a size c < (a + 1) * vol size.
Proof.
  unfold lin_from. induction 1 as [|s x size c Hx _ IH]; intros a; simpl; [lia|].
  specialize (IH (a * s + x)). nia.
Qed.

Lemma lin_bounds size c : in_box size c → 0 ≤ lin size c < vol size.
Proof. intros H. pose proof (lin_from_bounds size c H 0). unfold lin. lia. Qed.

Lemma lin_from_inj size c : in_box size c → ∀ c' a a', in_box size c' →
  lin_from a size c = lin_from a' size c' → a = a' ∧ c = c'.
Proof.
  unfold lin_from. induction 1 as [|s x size c Hx _ IH]; intros c' a a' Hc'.
  - inversion Hc'; subst. auto.
  - inversion Hc' as [|? x' ? c0 Hx' Hc0]; subst. simpl. intros Heq.
    destruct (IH c0 (a * s + x) (a' * s + x') Hc0 Heq) as [Ha ->]. assert (a = a') as -> by nia.
    split; [done|]. f_equal. lia.
Qed.

(** Distinct coordinates of an array have distinct indices. *)
Lemma lin_inj size c c' : in_box size c → in_box size c' → lin size c = lin size c' → c = c'.
Proof. intros H H' Heq. by eapply lin_from_inj. Qed.

Lemma vol_pos size : Forall (λ s, 0 < s) size → 0 < vol size.
Proof. induction 1; simpl; nia. Qed.

Lemma lin_from_lin size c : length size = length c → ∀ a, lin_from a size c = a * vol size + lin size c.
Proof.
  unfold lin, lin_from. revert c. induction size as [|s size IH]; intros [|x c] Hl a; simplify_eq/=; [lia|].
  rewrite (IH c Hl (a * s + x)), (IH c Hl (0 * s + x)). lia.
Qed.

(** Every position of an array is the index of a coordinate. *)
Lemma lin_surj size : Forall (λ s, 0 < s) size → ∀ k, 0 ≤ k < vol size → ∃ c, in_box size c ∧ lin size c = k.
Proof.
  induction 1 as [|s size Hs Hpos IH]; intros k Hk; simpl in Hk.
  - exists []. split; [constructor|]. cbn. lia.
  - pose proof (vol_pos _ Hpos) as Hv.
    destruct (IH (k mod vol size)) as (c & Hc & Hlin); [by apply Z.mod_pos_bound|].
    exists ((k / vol size) :: c). split.
    + constructor; [|done]. split; [apply Z.div_pos; lia|]. apply Z.div_lt_upper_bound; lia.
    + change (lin_from (0 * s + k / vol size) size c = k).
      rewrite lin_from_lin by by apply Forall2_length in Hc. rewrite Hlin.
      pose proof (Z.div_mod k (vol size)). lia.
Qed.

Lemma row_bound a b n s0 s1 :
  0 ≤ a < s0 → 0 ≤ b → 0 ≤ n → b + n ≤ s1 → 0 ≤ a * s1 + b ∧ a * s1 + b + n ≤ s0 * s1.
Proof. nia. Qed.

Lemma scale_bound x n v unit : 0 < unit → 0 ≤ x → 0 ≤ n → x + n ≤ v →
  0 ≤ x * unit ∧ 0 ≤ n * unit ∧ x * unit + n * unit ≤ v * unit.
Proof. nia. Qed.

Lemma elem_split unit x b x' b' :
  0 ≤ b < unit → 0 ≤ b' < unit → x * unit + b = x' * unit + b' → x = x' ∧ b = b'.
Proof. intros. assert (x = x') as -> by nia. lia. Qed.

(** * Copies between boxes *)

(** The bytes a copy of a [cnt]-shaped box moves, from position [soff] of an
    array of shape [ss] to position [doff] of an array of shape [ds]. *)
Definition box_map (unit : Z) (cnt ds doff ss soff : list Z) (k t : Z) : Prop :=
  ∃ c b, in_box cnt c ∧ 0 ≤ b < unit ∧
    k = lin ds (padd doff c) * unit + b ∧ t = lin ss (padd soff c) * unit + b.

(** The box at [off] lies inside the array of shape [size]. *)
Definition fits (cnt size off : list Z) : Prop :=
  Forall3 (λ n s o, 0 ≤ o ∧ 0 ≤ n ∧ o + n ≤ s) cnt size off.

Lemma row_map_box unit x y n k t : 0 < unit → 0 ≤ n →
  row_map (x * unit) (y * unit) (n * unit) k t ↔
  ∃ c b, 0 ≤ c < n ∧ 0 ≤ b < unit ∧ k = (x + c) * unit + b ∧ t = (y + c) * unit + b.
Proof.
  intros Hu Hn. unfold row_map. split.
  - intros [Hk ->]. exists ((k - x * unit) / unit), ((k - x * unit) mod unit).
    pose proof (Z.div_mod (k - x * unit) unit). pose proof (Z.mod_pos_bound (k - x * unit) unit).
    repeat split; try nia.
  - intros (c & b & Hc & Hb & -> & ->). nia.
Qed.

Lemma in_box_1 n c : in_box [n] c ↔ ∃ x, c = [x] ∧ 0 ≤ x < n.
Proof.
  unfold in_box. split.
  - intros (x & ? & ? & ?%Forall2_nil_inv_l & ->)%Forall2_cons_inv_l. subst. eauto.
  - intros (x & -> & ?). repeat (constructor; [done|]); constructor.
Qed.
Lemma in_box_2 n m c : in_box [n; m] c ↔ ∃ x y, c = [x; y] ∧ 0 ≤ x < n ∧ 0 ≤ y < m.
Proof.
  unfold in_box. split.
  - intros (x & ? & ? & (y & -> & ?)%in_box_1 & ->)%Forall2_cons_inv_l. eauto 10.
  - intros (x & y & -> & ? & ?). repeat (constructor; [done|]); constructor.
Qed.
Lemma in_box_3 n m l c :
  in_box [n; m; l] c ↔ ∃ x y z, c = [x; y; z] ∧ 0 ≤ x < n ∧ 0 ≤ y < m ∧ 0 ≤ z < l.
Proof.
  unfold in_box. split.
  - intros (x & ? & ? & (y & z & -> & ? & ?)%in_box_2 & ->)%Forall2_cons_inv_l. eauto 10.
  - intros (x & y & z & -> & ? & ? & ?). repeat (constructor; [done|]); constructor.
Qed.

(** One, two and three nested loops over rows copy a box. *)
Lemma box_map_1 unit n ds doff ss soff k t : 0 < unit → 0 ≤ n →
  row_map (doff * unit) (soff * unit) (n * unit) k t ↔ box_map unit [n] [ds] [doff] [ss] [soff] k t.
Proof.
  intros Hu Hn. rewrite row_map_box by done. unfold box_map. setoid_rewrite in_box_1.
  split.
  - intros (c & b & ? & ? & -> & ->). exists [c], b. split_and!; try lia; eauto.
  - intros (? & b & (c & -> & ?) & ? & -> & ->). exists c, b. cbn. split_and!; lia.
Qed.

Lemma box_map_2 unit n0 n1 d0 d1 x0 x1 s0 s1 y0 y1 k t : 0 < unit → 0 ≤ n1 →
  (∃ i, 0 ≤ i < n0 ∧
     row_map (((x0 + i) * d1 + x1) * unit) (((y0 + i) * s1 + y1) * unit) (n1 * unit) k t) ↔
  box_map unit [n0; n1] [d0; d1] [x0; x1] [s0; s1] [y0; y1] k t.
Proof.
  intros Hu Hn. setoid_rewrite row_map_box; [|done..]. unfold box_map. setoid_rewrite in_box_2.
  unfold lin, lin_from. split.
  - intros (i & ? & c & b & ? & ? & -> & ->). exists [i; c], b. cbn.
    split_and!; try lia. exists i, c. auto.
  - intros (? & b & (i & c & -> & ? & ?) & ? & -> & ->). exists i. split; [done|]. exists c, b. cbn.
    split_and!; lia.
Qed.

Lemma box_map_3 unit n0 n1 n2 d0 d1 d2 x0 x1 x2 s0 s1 s2 y0 y1 y2 k t : 0 < unit → 0 ≤ n2 →
  (∃ i, 0 ≤ i < n0 ∧ ∃ j, 0 ≤ j < n1 ∧
     row_map ((((x0 + i) * d1 + (x1 + j)) * d2 + x2) * unit)
             ((((y0 + i) * s1 + (y1 + j)) * s2 + y2) * unit) (n2 * unit) k t) ↔
  box_map unit [n0; n1; n2] [d0; d1; d2] [x0; x1; x2] [s0; s1; s2] [y0; y1; y2] k t.
Proof.
  intros Hu Hn. setoid_rewrite row_map_box; [|done..]. unfold box_map. setoid_rewrite in_box_3.
  unfold lin, lin_from. split.
  - intros (i & ? & j & ? & c & b & ? & ? & -> & ->). exists [i; j; c], b. cbn.
    split_and!; try lia. exists i, j, c. auto.
  - intros (? & b & (i & j & c & -> & ? & ? & ?) & ? & -> & ->). exists i. split; [done|].
    exists j. split; [done|]. exists c, b. cbn. split_and!; lia.
Qed.

Lemma padd_psub off c : length off = length c → padd off (psub c off) = c.
Proof.
  unfold padd, psub. revert c. induction off as [|o off IH]; intros [|x c] ?; simplify_eq/=; [done|].
  f_equal; [lia|auto].
Qed.
Lemma psub_padd off c : length off = length c → psub (padd off c) off = c.
Proof.
  unfold padd, psub. revert c. induction off as [|o off IH]; intros [|x c] ?; simplify_eq/=; [done|].
  f_equal; [lia|auto].
Qed.

Lemma fits_in_box cnt size off c : fits cnt size off → in_box cnt c → in_box size (padd off c).
Proof.
  intros Hf. revert c. unfold in_box, padd.
  induction Hf as [|n s o cnt size off Hn _ IH]; intros c Hc.
  - inversion Hc; subst. constructor.
  - inversion Hc as [|? x ? c0]; subst. simpl. constructor; [lia|auto].
Qed.

Lemma psub_zeros (size c : list Z) : length size = length c → psub c (replicate (length size) 0) = c.
Proof.
  unfold psub. revert c. induction size as [|s size IH]; intros [|x c] ?; simplify_eq/=; [done|].
  f_equal; [lia|auto].
Qed.
Lemma padd_zeros (size c : list Z) : length size = length c → padd (replicate (length size) 0) c = c.
Proof.
  unfold padd. revert c. induction size as [|s size IH]; intros [|x c] ?; simplify_eq/=; [done|].
  f_equal. auto.
Qed.

Lemma fits_self cnt size off : fits cnt size off → fits cnt cnt (replicate (length cnt) 0).
Proof. unfold fits. induction 1; simpl; constructor; [lia|done]. Qed.

Lemma in_box_length size c : in_box size c → length size = length c.
Proof. apply Forall2_length. Qed.

Lemma fits_length cnt size off : fits cnt size off →
  length cnt = length size ∧ length cnt = length off.
Proof. intros H. apply Forall3_length_lm in H as ?. apply Forall3_length_lr in H as ?. auto. Qed.

Section CopySpecs.
Context {A : Type}.
Implicit Types (src dst d : list A).

(** What a box copy leaves at every element of the destination array. *)
Lemma copied_box_lookup unit cnt ds doff ss soff src dst dst' c b :
  0 < unit → fits cnt ds doff → copied (box_map unit cnt ds doff ss soff) src dst dst' →
  vol ds * unit ≤ lenZ dst → in_box ds c → 0 ≤ b < unit →
  getZ dst' (lin ds c * unit + b) =
    if decide (in_box cnt (psub c doff))
    then getZ src (lin ss (padd soff (psub c doff)) * unit + b)
    else getZ dst (lin ds c * unit + b).
Proof.
  intros Hu Hf [Hl HC] Hv Hc Hb. pose proof (lin_bounds _ _ Hc) as Hlin.
  pose proof (in_box_length _ _ Hc). destruct (fits_length _ _ _ Hf).
  destruct (HC (lin ds c * unit + b)) as [(t & (c' & b' & Hc' & Hb' & Hk & ->) & ->)|[Hn ->]]; [nia|..].
  - apply elem_split in Hk as [Heq <-]; [|done..].
    pose proof (in_box_length _ _ Hc').
    apply lin_inj in Heq as ->; [|done|by eapply fits_in_box].
    rewrite psub_padd by congruence. by rewrite decide_True.
  - rewrite decide_False; [done|]. intros Hin. eapply Hn. exists (psub c doff), b. split_and!; [done|lia|lia| |done].
    by rewrite padd_psub by congruence.
Qed.

(** A [memcpy] whose byte offsets and length the code computes as multiples of
    [unit], with or without wrap-around. *)
Lemma memcpy_row unit dst src x y n vd vs doff soff len :
  0 < unit → 0 ≤ x → 0 ≤ y → 0 ≤ n → x + n ≤ vd → y + n ≤ vs →
  vd * unit ≤ lenZ dst < W64 → vs * unit ≤ lenZ src < W64 →
  (doff = x * unit ∨ doff = u64 (x * unit)) → (soff = y * unit ∨ soff = u64 (y * unit)) →
  (len = n * unit ∨ len = u64 (n * unit)) →
  ∃ dst', memcpy dst doff src soff len = Some dst' ∧
          copied (row_map (x * unit) (y * unit) (n * unit)) src dst dst'.
Proof.
  intros Hu Hx Hy Hn Hxn Hyn Hd Hs Ho Hso Hlen.
  destruct (scale_bound x n vd unit) as (? & ? & ?); [done..|].
  destruct (scale_bound y n vs unit) as (? & ? & ?); [done..|].
  assert (u64 (x * unit) = x * unit) as E1 by (apply u64_id; lia).
  assert (u64 (y * unit) = y * unit) as E2 by (apply u64_id; lia).
  assert (u64 (n * unit) = n * unit) as E3 by (apply u64_id; lia).
  rewrite E1 in Ho. rewrite E2 in Hso. rewrite E3 in Hlen.
  destruct Ho as [->| ->], Hso as [->| ->], Hlen as [->| ->]; apply memcpy_copied; lia.
Qed.
End CopySpecs.

(** Close the side conditions of [memcpy_row]. *)
Ltac row_eq := first [right; u64_ring | left; ring | left; lia].

Ltac solve_row :=
  lazymatch goal with |- _ ∨ _ => row_eq | |- ex _ => idtac | |- _ => first [lia | nia] end.

Lemma fits_1 n0 s0 o0 : fits [n0] [s0] [o0] → 0 ≤ o0 ∧ 0 ≤ n0 ∧ o0 + n0 ≤ s0.
Proof. intros H. by inversion H. Qed.
Lemma fits_2 n0 n1 s0 s1 o0 o1 : fits [n0; n1] [s0; s1] [o0; o1] →
  (0 ≤ o0 ∧ 0 ≤ n0 ∧ o0 + n0 ≤ s0) ∧ (0 ≤ o1 ∧ 0 ≤ n1 ∧ o1 + n1 ≤ s1).
Proof. intros H. inversion H; subst. eauto using fits_1. Qed.
Lemma fits_3 n0 n1 n2 s0 s1 s2 o0 o1 o2 : fits [n0; n1; n2] [s0; s1; s2] [o0; o1; o2] →
  (0 ≤ o0 ∧ 0 ≤ n0 ∧ o0 + n0 ≤ s0) ∧ (0 ≤ o1 ∧ 0 ≤ n1 ∧ o1 + n1 ≤ s1) ∧
  (0 ≤ o2 ∧ 0 ≤ n2 ∧ o2 + n2 ≤ s2).
Proof. intros H. inversion H; subst. eauto using fits_2. Qed.

Lemma box3_row_bound i j n0 n1 n2 o0 o1 o2 d0 d1 d2 :
  0 ≤ i < n0 → 0 ≤ j < n1 → 0 ≤ n2 → (0 ≤ o0 ∧ 0 ≤ n0 ∧ o0 + n0 ≤ d0) ∧
  (0 ≤ o1 ∧ 0 ≤ n1 ∧ o1 + n1 ≤ d1) ∧ (0 ≤ o2 ∧ 0 ≤ n2 ∧ o2 + n2 ≤ d2) →
  0 ≤ ((o0 + i) * d1 + (o1 + j)) * d2 + o2 ∧
  ((o0 + i) * d1 + (o1 + j)) * d2 + o2 + n2 ≤ d0 * (d1 * (d2 * 1)) ∧
  n2 ≤ d0 * (d1 * (d2 * 1)).
Proof.
  intros Hi Hj Hn (H0 & H1 & H2).
  destruct (row_bound (o0 + i) (o1 + j) 1 d0 d1) as [? ?]; [lia..|].
  destruct (row_bound ((o0 + i) * d1 + (o1 + j)) o2 n2 (d0 * d1) d2) as [? ?]; [lia..|]. nia.
Qed.

(** A loop body that is one row copy: the shape every routine's loop has. *)
Section RowLoops.
Context {A St : Type} (dst_of : St → list A) (src : list A).
Context (unit n : Z) (Hunit : 0 < unit).

Definition row_step (x y : Z) (Inv Inv' : St → Prop) (body : St → option St) (s0 s : St) : Prop :=
  Inv s → lenZ (dst_of s) = lenZ (dst_of s0) →
  ∃ s', body s = Some s' ∧ Inv' s' ∧
        copied (row_map (x * unit) (y * unit) (n * unit)) src (dst_of s) (dst_of s').

Lemma row_loop_2 n0 d0 d1 x0 x1 q0 q1 y0 y1 Inv body s0 :
  0 ≤ n0 → 0 ≤ n → Inv 0 s0 →
  (∀ i s, 0 ≤ i < n0 →
     row_step ((x0 + i) * d1 + x1) ((y0 + i) * q1 + y1) (Inv i) (Inv (i + 1)) (body i) s0 s) →
  ∃ s', forZ (Z.to_nat n0) 0 body s0 = Some s' ∧ Inv n0 s' ∧
        copied (box_map unit [n0; n] [d0; d1] [x0; x1] [q0; q1] [y0; y1]) src (dst_of s0) (dst_of s').
Proof.
  intros Hn0 Hn HI Hstep.
  destruct (copied_loop dst_of Inv
    (λ i, row_map (((x0 + i) * d1 + x1) * unit) (((y0 + i) * q1 + y1) * unit) (n * unit))
    src (Z.to_nat n0) body s0) as (s' & ? & HI' & HC); [done| |].
  { intros i s Hi. apply Hstep. lia. }
  rewrite Z2Nat.id in HI', HC by done. exists s'. split_and!; [done..|].
  eapply copied_iff; [|exact HC]. intros k t. by apply box_map_2.
Qed.

Lemma row_loop_3 n0 n1 d0 d1 d2 x0 x1 x2 q0 q1 q2 y0 y1 y2 Inv body s0 :
  0 ≤ n0 → 0 ≤ n1 → 0 ≤ n → Inv 0 s0 →
  (∀ i j s, 0 ≤ i < n0 → 0 ≤ j < n1 →
     row_step (((x0 + i) * d1 + (x1 + j)) * d2 + x2) (((y0 + i) * q1 + (y1 + j)) * q2 + y2)
              (Inv (i * n1 + j)) (Inv (i * n1 + j + 1)) (body i j) s0 s) →
  ∃ s', forZ (Z.to_nat n0) 0 (λ i, forZ (Z.to_nat n1) 0 (body i)) s0 = Some s' ∧ Inv (n0 * n1) s' ∧
        copied (box_map unit [n0; n1; n] [d0; d1; d2] [x0; x1; x2] [q0; q1; q2] [y0; y1; y2])
               src (dst_of s0) (dst_of s').
Proof.
  intros Hn0 Hn1 Hn HI Hstep.
  destruct (copied_loop dst_of (λ i, Inv (i * n1))
    (λ i k t, ∃ j, 0 ≤ j < n1 ∧
       row_map ((((x0 + i) * d1 + (x1 + j)) * d2 + x2) * unit)
               ((((y0 + i) * q1 + (y1 + j)) * q2 + y2) * unit) (n * unit) k t)
    src (Z.to_nat n0) (λ i, forZ (Z.to_nat n1) 0 (body i)) s0) as (s' & ? & HI' & HC).
  - by rewrite Z.mul_0_l.
  - intros i s Hi HIi Hlen.
    destruct (copied_loop dst_of (λ j, Inv (i * n1 + j))
      (λ j, row_map ((((x0 + i) * d1 + (x1 + j)) * d2 + x2) * unit)
                    ((((y0 + i) * q1 + (y1 + j)) * q2 + y2) * unit) (n * unit))
      src (Z.to_nat n1) (body i) s) as (s' & Hrun & HI' & HC).
    + by rewrite Z.add_0_r.
    + intros j s1 Hj HI1 Hl1. rewrite Z.add_assoc. apply (Hstep i j s1); [lia|lia|done|congruence].
    + rewrite Z2Nat.id in HI', HC by done. exists s'. split_and!; [done| |done].
      by replace ((i + 1) * n1) with (i * n1 + n1) by lia.
  - rewrite Z2Nat.id in HI', HC by done. exists s'. split_and!; [done..|].
    eapply copied_iff; [|exact HC]. intros k t. by apply box_map_3.
Qed.
End RowLoops.

(** * Specifications of the copy routines *)

Lemma dims_cases n : (1 ≤ n ≤ 3)%nat → n = 1%nat ∨ n = 2%nat ∨ n = 3%nat.
Proof. lia. Qed.

Lemma length_1 {B} (l : list B) : length l = 1%nat → ∃ a, l = [a].
Proof. destruct l as [|? [|]]; simpl; intros; simplify_eq; eauto. Qed.
Lemma length_2 {B} (l : list B) : length l = 2%nat → ∃ a b, l = [a; b].
Proof. destruct l as [|? [|? [|]]]; simpl; intros; simplify_eq; eauto. Qed.
Lemma length_3 {B} (l : list B) : length l = 3%nat → ∃ a b c, l = [a; b; c].
Proof. destruct l as [|? [|? [|? [|]]]]; simpl; intros; simplify_eq; eauto. Qed.

(** Name the entries of a list whose length is 1, 2 or 3. *)
Ltac dims3 H a b c :=
  lazymatch type of H with
  | length _ = 1%nat => apply length_1 in H as (a & ->)
  | length _ = 2%nat => apply length_2 in H as (a & b & ->)
  | length _ = 3%nat => apply length_3 in H as (a & b & c & ->)
  end.

Section CopyTheorems.
Context {A : Type}.
Implicit Types (buf : list A).

(** The hypotheses of [memcpy_subregion]: the subregion lies inside the region
    and the two buffers hold at least the bytes of their shape. *)
Record subregion_ok (ndim : nat) (unit : Z) (buf : list A) (size : list Z)
    (sub_buf : list A) (sub_offset sub_size : list Z) : Prop := {
  sub_ndim : (1 ≤ ndim ≤ 3)%nat;
  sub_len : length sub_size = ndim;
  sub_unit : 0 < unit;
  sub_fits : fits sub_size size sub_offset;
  sub_buf_len : vol size * unit ≤ lenZ buf < W64;
  sub_sub_len : vol sub_size * unit ≤ lenZ sub_buf < W64 }.

Definition zeros (ndim : nat) : list Z := replicate ndim 0.

(** [memcpy_subregion] for both directions: the copied array [dst_of] is the
    subregion buffer for PDC_WRITE and the region buffer otherwise. *)
Lemma memcpy_subregion_write ndim unit buf size sub_buf sub_offset sub_size :
  subregion_ok ndim unit buf size sub_buf sub_offset sub_size →
  ∃ sub', memcpy_subregion ndim unit PDC_WRITE buf size sub_buf sub_offset sub_size = Some (buf, sub') ∧
    copied (box_map unit sub_size sub_size (zeros ndim) size sub_offset) buf sub_buf sub'.
Proof.
  intros [Hnd Hls Hu Hf Hb Hs]. destruct (fits_length _ _ _ Hf) as [Hl1 Hl2]. rewrite Hls in Hl1, Hl2. symmetry in Hl1, Hl2.
  apply dims_cases in Hnd as [->|[->| ->]]; dims3 Hls n0 n1 n2; dims3 Hl1 d0 d1 d2;
    dims3 Hl2 o0 o1 o2; unfold arr, zeros; cbn -[forZ lenZ Z.to_nat] in *.
  - apply fits_1 in Hf.
    destruct (memcpy_row unit sub_buf buf 0 o0 n0 (n0 * 1) (d0 * 1) 0 (o0 *w unit) (unit *w n0))
      as (s' & -> & HC); try solve_row.
    exists s'. split; [done|]. eapply copied_iff; [|exact HC]. intros k t. by rewrite box_map_1 by lia.
  - apply fits_2 in Hf.
    edestruct (row_loop_2 (λ st : list A * list A * Z, st.1.2) buf unit n1 Hu n0 n0 n1 0 0 d0 d1 o0 o1
      (λ i st, st.1.1 = buf ∧ st.2 = i * (n1 * unit))) as (((b' & s') & ptr) & -> & [? ?] & HC);
      [lia|lia|done| |simpl in *; subst; exists s'; split; [done|exact HC]].
    intros i [[b' s'] ptr] Hi [??] Hlen; simpl in *; subst.
    destruct (memcpy_row unit s' buf ((0 + i) * n1 + 0) ((o0 + i) * d1 + o1) n1 (n0 * (n1 * 1)) (d0 * (d1 * 1))
     (i * (n1 * unit)) (((o0 +w i) *w d1 +w o1) *w unit) (n1 *w unit)) as (s'' & -> & HC); try solve_row.
    eexists; split; [done|]. simpl. split; [|exact HC]. split; [done|]. rewrite u64_id by nia. ring.
  - apply fits_3 in Hf.
    edestruct (row_loop_3 (λ st : list A * list A * Z, st.1.2) buf unit n2 Hu n0 n1 n0 n1 n2 0 0 0
      d0 d1 d2 o0 o1 o2
      (λ i st, st.1.1 = buf ∧ st.2 = i * (n2 * unit))) as (((b' & s') & ptr) & -> & [? ?] & HC);
      [lia|lia|lia|done| |simpl in *; subst; exists s'; split; [done|exact HC]].
    intros i j [[b' s'] ptr] Hi Hj [??] Hlen; simpl in *; subst.
    destruct (box3_row_bound i j n0 n1 n2 o0 o1 o2 d0 d1 d2) as (? & ? & ?); [lia..|].
    destruct (box3_row_bound i j n0 n1 n2 0 0 0 n0 n1 n2) as (? & ? & ?); [lia..|].
    destruct (memcpy_row unit s' buf (((0 + i) * n1 + (0 + j)) * n2 + 0) (((o0 + i) * d1 + (o1 + j)) * d2 + o2)
     n2 (n0 * (n1 * (n2 * 1))) (d0 * (d1 * (d2 * 1))) ((i * n1 + j) * (n2 * unit))
     (((o0 +w i) *w d1 *w d2 +w (o1 +w j) *w d2 +w o2) *w unit) (n2 *w unit)) as (s'' & -> & HC); try solve_row.
    eexists; split; [done|]. simpl. split; [|exact HC]. split; [done|]. rewrite u64_id by nia. ring.
Qed.

Lemma memcpy_subregion_read ndim unit access_type buf size sub_buf sub_offset sub_size :
  access_type ≠ PDC_WRITE →
  subregion_ok ndim unit buf size sub_buf sub_offset sub_size →
  ∃ buf', memcpy_subregion ndim unit access_type buf size sub_buf sub_offset sub_size = Some (buf', sub_buf) ∧
    copied (box_map unit sub_size size sub_offset sub_size (zeros ndim)) sub_buf buf buf'.
Proof.
  intros Hacc [Hnd Hls Hu Hf Hb Hs]. destruct (fits_length _ _ _ Hf) as [Hl1 Hl2].
  assert (∀ (b s : list A) bo so n, copy_dir access_type b s bo so n = b' ← memcpy b bo s so n; Some (b', s)) as Hdir
    by (by destruct access_type).
  rewrite Hls in Hl1, Hl2. symmetry in Hl1, Hl2.
  apply dims_cases in Hnd as [->|[->| ->]]; dims3 Hls n0 n1 n2; dims3 Hl1 d0 d1 d2;
    dims3 Hl2 o0 o1 o2; unfold arr, zeros; cbn -[forZ lenZ Z.to_nat copy_dir] in *.
  - apply fits_1 in Hf. rewrite Hdir.
    destruct (memcpy_row unit buf sub_buf o0 0 n0 (d0 * 1) (n0 * 1) (o0 *w unit) 0 (unit *w n0))
      as (s' & -> & HC); try solve_row.
    exists s'. split; [done|]. eapply copied_iff; [|exact HC]. intros k t. by rewrite box_map_1 by lia.
  - apply fits_2 in Hf.
    edestruct (row_loop_2 (λ st : list A * list A * Z, st.1.1) sub_buf unit n1 Hu n0 d0 d1 o0 o1 n0 n1 0 0
      (λ i st, st.1.2 = sub_buf ∧ st.2 = i * (n1 * unit))) as (((b' & s') & ptr) & -> & [? ?] & HC);
      [lia|lia|done| |simpl in *; subst; exists b'; split; [done|exact HC]].
    intros i [[b' s'] ptr] Hi [??] Hlen; simpl in *; subst. rewrite Hdir.
    destruct (memcpy_row unit b' sub_buf ((o0 + i) * d1 + o1) ((0 + i) * n1 + 0) n1 (d0 * (d1 * 1)) (n0 * (n1 * 1))
     (((o0 +w i) *w d1 +w o1) *w unit) (i * (n1 * unit)) (n1 *w unit)) as (s'' & -> & HC); try solve_row.
    eexists; split; [done|]. simpl. split; [|exact HC]. split; [done|]. rewrite u64_id by nia. ring.
  - apply fits_3 in Hf.
    edestruct (row_loop_3 (λ st : list A * list A * Z, st.1.1) sub_buf unit n2 Hu n0 n1 d0 d1 d2 o0 o1 o2
      n0 n1 n2 0 0 0
      (λ i st, st.1.2 = sub_buf ∧ st.2 = i * (n2 * unit))) as (((b' & s') & ptr) & -> & [? ?] & HC);
      [lia|lia|lia|done| |simpl in *; subst; exists b'; split; [done|exact HC]].
    intros i j [[b' s'] ptr] Hi Hj [??] Hlen; simpl in *; subst. rewrite Hdir.
    destruct (box3_row_bound i j n0 n1 n2 o0 o1 o2 d0 d1 d2) as (? & ? & ?); [lia..|].
    destruct (box3_row_bound i j n0 n1 n2 0 0 0 n0 n1 n2) as (? & ? & ?); [lia..|].
    destruct (memcpy_row unit b' sub_buf (((o0 + i) * d1 + (o1 + j)) * d2 + o2) (((0 + i) * n1 + (0 + j)) * n2 + 0)
     n2 (d0 * (d1 * (d2 * 1))) (n0 * (n1 * (n2 * 1)))
     (((o0 +w i) *w d1 *w d2 +w (o1 +w j) *w d2 +w o2) *w unit) ((i * n1 + j) * (n2 * unit)) (n2 *w unit))
      as (s'' & -> & HC); try solve_row.
    eexists; split; [done|]. simpl. split; [|exact HC]. split; [done|]. rewrite u64_id by nia. ring.
Qed.

(** The hypotheses of [memcpy_overlap_subregion]: the overlap lies inside both
    regions and the two buffers hold the bytes of their regions. *)
Record overlap_ok (ndim : nat) (unit : Z) (buf : list A) (offset size : list Z)
    (buf2 : list A) (offset2 size2 overlap_offset overlap_size : list Z) : Prop := {
  ov_ndim : (1 ≤ ndim ≤ 3)%nat;
  ov_len : length overlap_size = ndim ∧ length overlap_offset = ndim ∧
           length offset = ndim ∧ length offset2 = ndim;
  ov_unit : 0 < unit;
  ov_fits : fits overlap_size size (psub overlap_offset offset);
  ov_fits2 : fits overlap_size size2 (psub overlap_offset offset2);
  ov_buf : vol size * unit ≤ lenZ buf < W64;
  ov_buf2 : vol size2 * unit ≤ lenZ buf2 < W64 }.

Lemma memcpy_overlap_subregion_box ndim unit buf offset size buf2 offset2 size2 ovo ovs :
  overlap_ok ndim unit buf offset size buf2 offset2 size2 ovo ovs →
  ∃ buf2', memcpy_overlap_subregion ndim unit buf offset size buf2 offset2 size2 ovo ovs = Some buf2' ∧
    copied (box_map unit ovs size2 (psub ovo offset2) size (psub ovo offset)) buf buf2 buf2'.
Proof.
  intros [Hnd (Hls & Hlo & Hl1 & Hl2) Hu Hf Hf2 Hb Hb2].
  destruct (fits_length _ _ _ Hf) as [Hl3 _]. destruct (fits_length _ _ _ Hf2) as [Hl4 _].
  rewrite Hls in Hl3, Hl4. symmetry in Hl3, Hl4.
  apply dims_cases in Hnd as [->|[->| ->]]; dims3 Hls n0 n1 n2; dims3 Hlo v0 v1 v2; dims3 Hl1 o0 o1 o2;
    dims3 Hl2 p0 p1 p2; dims3 Hl3 d0 d1 d2; dims3 Hl4 e0 e1 e2;
    unfold arr, psub in *; cbn -[forZ lenZ Z.to_nat memcpy] in *.
  - apply fits_1 in Hf, Hf2.
    destruct (memcpy_row unit buf2 buf (v0 - p0) (v0 - o0) n0 (e0 * 1) (d0 * 1)
      ((v0 -w p0) *w unit) ((v0 -w o0) *w unit) (unit *w n0)) as (s' & -> & HC); try solve_row.
    exists s'. split; [done|]. eapply copied_iff; [|exact HC]. intros k t. by rewrite box_map_1 by lia.
  - apply fits_2 in Hf, Hf2.
    edestruct (row_loop_2 (λ st : list A, st) buf unit n1 Hu n0 e0 e1 (v0 - p0) (v1 - p1)
      d0 d1 (v0 - o0) (v1 - o1) (λ _ _, True)) as (s' & -> & _ & HC);
      [lia|lia|done| |exists s'; split; [done|exact HC]].
    intros i b' Hi _ Hlen. cbv zeta.
    edestruct (memcpy_row unit b' buf ((v0 - p0 + i) * e1 + (v1 - p1)) ((v0 - o0 + i) * d1 + (v1 - o1))
       n1 (e0 * (e1 * 1)) (d0 * (d1 * 1))) as (s'' & -> & HC); try solve_row. by eauto.
  - apply fits_3 in Hf, Hf2.
    edestruct (row_loop_3 (λ st : list A, st) buf unit n2 Hu n0 n1 e0 e1 e2 (v0 - p0) (v1 - p1) (v2 - p2)
      d0 d1 d2 (v0 - o0) (v1 - o1) (v2 - o2) (λ _ _, True)) as (s' & -> & _ & HC);
      [lia|lia|lia|done| |exists s'; split; [done|exact HC]].
    intros i j b' Hi Hj _ Hlen. cbv zeta.
    destruct (box3_row_bound i j n0 n1 n2 (v0 - o0) (v1 - o1) (v2 - o2) d0 d1 d2) as (? & ? & ?); [lia..|].
    destruct (box3_row_bound i j n0 n1 n2 (v0 - p0) (v1 - p1) (v2 - p2) e0 e1 e2) as (? & ? & ?); [lia..|].
    edestruct (memcpy_row unit b' buf (((v0 - p0 + i) * e1 + (v1 - p1 + j)) * e2 + (v2 - p2))
       (((v0 - o0 + i) * d1 + (v1 - o1 + j)) * d2 + (v2 - o2)) n2 (e0 * (e1 * (e2 * 1))) (d0 * (d1 * (d2 * 1))))
      as (s'' & -> & HC); try solve_row. by eauto.
Qed.
End CopyTheorems.

(** * Regions, pointwise *)

Lemma in_region_arr n off size p : length off = n → length size = n →
  in_region off size p ↔
  length p = n ∧ ∀ i, (i < n)%nat → arr off i ≤ arr p i < arr off i + arr size i.
Proof.
  revert off size p. induction n as [|n IH]; intros [|o off] [|s size] p; intros; simplify_eq/=.
  - destruct p; simpl; split; try done; by intros [].
  - destruct p as [|x p]; simpl; [split; [done|by intros []]|]. rewrite IH by done. split.
    + intros (Hx & Hl & Hi). split; [lia|]. intros [|i] ?; [exact Hx|]. apply (Hi i). lia.
    + intros (Hl & Hi). split; [exact (Hi 0%nat ltac:(lia))|]. split; [lia|].
      intros i ?. apply (Hi (S i)). lia.
Qed.

Lemma wf_region_arr n off size : wf_region n off size ↔
  length off = n ∧ length size = n ∧
  ∀ i, (i < n)%nat → 0 ≤ arr off i ∧ 0 < arr size i ∧ arr off i + arr size i < W64.
Proof.
  split.
  - intros [H1 H2 H3]. split_and!; [done..|]. intros i Hi. unfold arr.
    destruct (lookup_lt_is_Some_2 off i) as [o Ho]; [lia|].
    destruct (lookup_lt_is_Some_2 size i) as [s Hs]; [lia|].
    rewrite !(list_lookup_total_correct _ _ _ Ho), !(list_lookup_total_correct _ _ _ Hs).
    by eapply (Forall2_lookup_lr _ _ _ _ _ _ H3).
  - intros (H1 & H2 & H3). split; [done..|]. apply Forall2_same_length_lookup. split; [congruence|].
    intros i o s Ho Hs. specialize (H3 i). unfold arr in H3.
    rewrite (list_lookup_total_correct _ _ _ Ho), (list_lookup_total_correct _ _ _ Hs) in H3.
    apply H3. apply lookup_lt_Some in Ho. lia.
Qed.

Lemma forallb_seq (f : nat → bool) n : forallb f (seq 0 n) = true ↔ ∀ i, (i < n)%nat → f i = true.
Proof. rewrite List.forallb_forall. setoid_rewrite List.in_seq. split; intros H i Hi; apply H; lia. Qed.

Lemma arr_fmap_seq (f : nat → Z) n i : (i < n)%nat → arr (f <$> seq 0 n) i = f i.
Proof.
  intros Hi. unfold arr. apply list_lookup_total_correct. rewrite list_lookup_fmap.
  by rewrite lookup_seq_lt.
Qed.

Ltac prop_bool := rewrite ?negb_true_iff, ?negb_false_iff, ?orb_true_iff, ?orb_false_iff,
  ?andb_true_iff, ?andb_false_iff, ?bool_decide_eq_true, ?bool_decide_eq_false in *.

Section Overlap.
Context (n : nat) (off1 size1 off2 size2 : list Z).
Context (Hwf1 : wf_region n off1 size1) (Hwf2 : wf_region n off2 size2).

Lemma check_overlap_true :
  check_overlap n off1 size1 off2 size2 = true ↔
  ∀ i, (i < n)%nat → arr off1 i < arr off2 i + arr size2 i ∧ arr off2 i < arr off1 i + arr size1 i.
Proof.
  pose proof (proj1 (wf_region_arr _ _ _) Hwf1) as (_ & _ & H1).
  pose proof (proj1 (wf_region_arr _ _ _) Hwf2) as (_ & _ & H2).
  unfold check_overlap. rewrite forallb_seq.
  split; intros H i Hi; specialize (H i Hi); specialize (H1 i Hi); specialize (H2 i Hi); prop_bool.
  - rewrite !u64_id in H by lia. lia.
  - rewrite !u64_id by lia. lia.
Qed.

Definition inter_off (i : nat) : Z := Z.max (arr off1 i) (arr off2 i).
Definition inter_end (i : nat) : Z := Z.min (arr off1 i + arr size1 i) (arr off2 i + arr size2 i).

Lemma overlap_detect_Some oo os :
  PDC_region_overlap_detect n off1 size1 off2 size2 = Some (oo, os) →
  length oo = n ∧ length os = n ∧
  (∀ i, (i < n)%nat → arr oo i = inter_off i ∧ arr os i = inter_end i - inter_off i ∧
     inter_off i < inter_end i).
Proof.
  pose proof (proj1 (wf_region_arr _ _ _) Hwf1) as (_ & _ & H1).
  pose proof (proj1 (wf_region_arr _ _ _) Hwf2) as (_ & _ & H2).
  unfold PDC_region_overlap_detect. destruct (check_overlap _ _ _ _ _) eqn:Hc; [|done].
  rewrite check_overlap_true in Hc. intros [= <- <-].
  split; [by rewrite length_fmap, length_seq|]. split; [by rewrite length_fmap, length_seq|].
  intros i Hi. rewrite !arr_fmap_seq by done.
  specialize (Hc i Hi). specialize (H1 i Hi). specialize (H2 i Hi). unfold inter_off, inter_end.
  rewrite !(u64_id (arr off1 i + arr size1 i)), !(u64_id (arr off2 i + arr size2 i)) by lia.
  repeat case_bool_decide; rewrite u64_id by lia; split_and!; lia.
Qed.

(** The intersection is a well-formed region inside both regions. *)
Lemma overlap_detect_wf oo os :
  PDC_region_overlap_detect n off1 size1 off2 size2 = Some (oo, os) → wf_region n oo os.
Proof.
  pose proof (proj1 (wf_region_arr _ _ _) Hwf1) as (_ & _ & H1).
  pose proof (proj1 (wf_region_arr _ _ _) Hwf2) as (_ & _ & H2).
  intros H. apply overlap_detect_Some in H as (? & ? & H). apply wf_region_arr. split_and!; [done..|].
  intros i Hi. specialize (H i Hi). specialize (H1 i Hi). specialize (H2 i Hi).
  unfold inter_off, inter_end in H. lia.
Qed.

Lemma overlap_detect_in oo os p :
  PDC_region_overlap_detect n off1 size1 off2 size2 = Some (oo, os) →
  in_region oo os p ↔ in_region off1 size1 p ∧ in_region off2 size2 p.
Proof.
  destruct Hwf1, Hwf2. intros H. apply overlap_detect_Some in H as (? & ? & H).
  rewrite !(in_region_arr n) by done. unfold inter_off, inter_end in H.
  split.
  - intros [Hp Hin]. split; split; try done; intros i Hi; specialize (H i Hi); specialize (Hin i Hi); lia.
  - intros [[Hp Ha] [_ Hb]]. split; [done|]. intros i Hi.
    specialize (H i Hi). specialize (Ha i Hi). specialize (Hb i Hi). lia.
Qed.

Lemma overlap_detect_None p :
  PDC_region_overlap_detect n off1 size1 off2 size2 = None →
  in_region off1 size1 p → in_region off2 size2 p → False.
Proof.
  destruct Hwf1, Hwf2. unfold PDC_region_overlap_detect.
  destruct (check_overlap _ _ _ _ _) eqn:Hc; [done|]. intros _.
  rewrite !(in_region_arr n) by done. intros [_ Ha] [_ Hb].
  assert (check_overlap n off1 size1 off2 size2 = true); [|congruence].
  apply check_overlap_true. intros i Hi. specialize (Ha i Hi). specialize (Hb i Hi). lia.
Qed.
End Overlap.

Lemma detect_region_contained_arr n off1 size1 off2 size2 :
  wf_region n off1 size1 → wf_region n off2 size2 →
  detect_region_contained off1 size1 off2 size2 n = true ↔
  ∀ i, (i < n)%nat → arr off2 i ≤ arr off1 i ∧ arr off1 i + arr size1 i ≤ arr off2 i + arr size2 i.
Proof.
  intros Hwf1 Hwf2. pose proof (proj1 (wf_region_arr _ _ _) Hwf1) as (_ & _ & H1).
  pose proof (proj1 (wf_region_arr _ _ _) Hwf2) as (_ & _ & H2).
  unfold detect_region_contained. rewrite forallb_seq.
  split; intros H i Hi; specialize (H i Hi); specialize (H1 i Hi); specialize (H2 i Hi); prop_bool.
  - rewrite !u64_id in H by lia. lia.
  - rewrite !u64_id by lia. lia.
Qed.

Lemma corner_in_region n off size : wf_region n off size → in_region off size off.
Proof.
  intros Hwf. pose proof (proj1 (wf_region_arr _ _ _) Hwf) as (? & ? & H).
  apply (in_region_arr n); [done..|]. split; [done|]. intros i Hi. specialize (H i Hi). lia.
Qed.

(** The last point of a region. *)
Definition top_of (off size : list Z) : list Z := zip_with (λ o s, o + s - 1) off size.

Lemma arr_top_of n off size i : length off = n → length size = n → (i < n)%nat →
  arr (top_of off size) i = arr off i + arr size i - 1.
Proof.
  intros Ho Hs Hi. unfold arr, top_of. destruct (lookup_lt_is_Some_2 off i) as [o Eo]; [lia|].
  destruct (lookup_lt_is_Some_2 size i) as [s Es]; [lia|].
  rewrite (list_lookup_total_correct _ _ _ Eo), (list_lookup_total_correct _ _ _ Es).
  apply list_lookup_total_correct. by rewrite lookup_zip_with, Eo, Es.
Qed.

Lemma top_in_region n off size : wf_region n off size → in_region off size (top_of off size).
Proof.
  intros Hwf. pose proof (proj1 (wf_region_arr _ _ _) Hwf) as (? & ? & H).
  apply (in_region_arr n); [done..|]. split.
  { unfold top_of. rewrite length_zip_with. lia. }
  intros i Hi. rewrite (arr_top_of n) by done. specialize (H i Hi). lia.
Qed.

Lemma arr_ext n (l l' : list Z) : length l = n → length l' = n →
  (∀ i, (i < n)%nat → arr l i = arr l' i) → l = l'.
Proof.
  intros Hl Hl' H. apply list_eq_same_length with n; [done..|]. intros i x y Hi Hx Hy.
  specialize (H i Hi). unfold arr in H.
  by rewrite (list_lookup_total_correct _ _ _ Hx), (list_lookup_total_correct _ _ _ Hy) in H.
Qed.

(** The intersection does not depend on the order of the regions. *)
Lemma overlap_detect_sym n off1 size1 off2 size2 oo os :
  wf_region n off1 size1 → wf_region n off2 size2 →
  PDC_region_overlap_detect n off1 size1 off2 size2 = Some (oo, os) →
  PDC_region_overlap_detect n off2 size2 off1 size1 = Some (oo, os).
Proof.
  intros H1 H2 Hd. destruct (PDC_region_overlap_detect n off2 size2 off1 size1) as [[oo' os']|] eqn:Hd'.
  - apply overlap_detect_Some in Hd as (? & ? & Hi); [|done..].
    apply overlap_detect_Some in Hd' as (? & ? & Hi'); [|done..]. unfold inter_end, inter_off in *.
    f_equal. f_equal; (apply (arr_ext n); [done..|]); intros i Hlt; specialize (Hi i Hlt); specialize (Hi' i Hlt); lia.
  - pose proof (corner_in_region _ _ _ (overlap_detect_wf _ _ _ _ _ H1 H2 _ _ Hd)) as Hc.
    apply (overlap_detect_in _ _ _ _ _ H1 H2 _ _ _ Hd) in Hc as [? ?].
    by destruct (overlap_detect_None _ _ _ _ _ H2 H1 oo Hd').
Qed.

Lemma sub_of_contained n off1 size1 off2 size2 :
  wf_region n off1 size1 → wf_region n off2 size2 →
  (∀ i, (i < n)%nat → arr off2 i ≤ arr off1 i ∧ arr off1 i + arr size1 i ≤ arr off2 i + arr size2 i) →
  ∀ p, in_region off1 size1 p → in_region off2 size2 p.
Proof.
  intros [] [] H p. rewrite !(in_region_arr n) by done. intros [Hp Hi]. split; [done|].
  intros i Hlt. specialize (H i Hlt). specialize (Hi i Hlt). lia.
Qed.

Lemma contained_of_sub n off1 size1 off2 size2 :
  wf_region n off1 size1 → wf_region n off2 size2 →
  (∀ p, in_region off1 size1 p → in_region off2 size2 p) →
  ∀ i, (i < n)%nat → arr off2 i ≤ arr off1 i ∧ arr off1 i + arr size1 i ≤ arr off2 i + arr size2 i.
Proof.
  intros Hwf1 Hwf2 H i Hi.
  pose proof (H _ (corner_in_region _ _ _ Hwf1)) as Hlo. pose proof (H _ (top_in_region _ _ _ Hwf1)) as Hhi.
  pose proof (wf_off _ _ _ Hwf1). pose proof (wf_size _ _ _ Hwf1). destruct Hwf2.
  apply (in_region_arr n) in Hlo as [_ Hlo]; [|done..]. apply (in_region_arr n) in Hhi as [_ Hhi]; [|done..].
  specialize (Hlo i Hi). specialize (Hhi i Hi). rewrite (arr_top_of n) in Hhi by done. lia.
Qed.

Lemma in_region_length n off size p : wf_region n off size → in_region off size p → length p = n.
Proof. intros [] H. by apply (in_region_arr n) in H as [? _]. Qed.

Lemma in_region_in_box off size p : in_region off size p → in_box size (psub p off).
Proof.
  unfold in_box, psub. revert size p. induction off as [|o off IH]; intros [|s size] [|x p]; simpl; try done.
  intros [? ?]. constructor; [lia|auto].
Qed.
Lemma wf_region_lin unit off size p b : in_region off size p → 0 ≤ b < unit →
  0 ≤ lin size (psub p off) * unit + b < vol size * unit.
Proof. intros Hp%in_region_in_box%lin_bounds Hb. nia. Qed.

Lemma in_box_in_region off size p : length p = length off → length size = length off →
  in_box size (psub p off) → in_region off size p.
Proof.
  unfold in_box, psub. revert size p. induction off as [|o off IH]; intros [|s size] [|x p] ? ? H; simplify_eq/=; [done|].
  inversion H; subst. split; [lia|auto].
Qed.

Lemma psub_psub a o p : length o = length a → length p = length a →
  psub (psub p a) (psub o a) = psub p o.
Proof.
  unfold psub. revert o p. induction a as [|x a IH]; intros [|y o] [|z p] ? ?; simplify_eq/=; [done|].
  f_equal; [lia|auto].
Qed.
Lemma padd_psub_psub a o p : length o = length a → length p = length a →
  padd (psub o a) (psub p o) = psub p a.
Proof.
  unfold psub, padd. revert o p. induction a as [|x a IH]; intros [|y o] [|z p] ? ?; simplify_eq/=; [done|].
  f_equal; [lia|auto].
Qed.
Lemma length_psub a o : length o = length a → length (psub o a) = length a.
Proof. intros. unfold psub. rewrite length_zip_with. lia. Qed.

Lemma fits_arr n cnt size off : length cnt = n → length size = n → length off = n →
  (∀ i, (i < n)%nat → 0 ≤ arr off i ∧ 0 ≤ arr cnt i ∧ arr off i + arr cnt i ≤ arr size i) →
  fits cnt size off.
Proof.
  revert cnt size off. induction n as [|n IH]; intros [|c cnt] [|s size] [|o off] ? ? ? H; simplify_eq/=.
  - constructor.
  - constructor; [exact (H 0%nat ltac:(lia))|]. apply IH; [done..|]. intros i Hi. apply (H (S i)). lia.
Qed.

Lemma arr_psub n p o i : length p = n → length o = n → (i < n)%nat →
  arr (psub p o) i = arr p i - arr o i.
Proof.
  intros Hp Ho Hi. unfold arr, psub. destruct (lookup_lt_is_Some_2 p i) as [x Ex]; [lia|].
  destruct (lookup_lt_is_Some_2 o i) as [y Ey]; [lia|].
  rewrite (list_lookup_total_correct _ _ _ Ex), (list_lookup_total_correct _ _ _ Ey).
  apply list_lookup_total_correct. by rewrite lookup_zip_with, Ex, Ey.
Qed.

(** A region contained in another one fits in its array. *)
Lemma sub_region_fits n off size off2 size2 :
  wf_region n off size → wf_region n off2 size2 →
  (∀ p, in_region off size p → in_region off2 size2 p) → fits size size2 (psub off off2).
Proof.
  intros Hwf Hwf2 Hsub. pose proof (corner_in_region _ _ _ Hwf) as Hlo. pose proof (top_in_region _ _ _ Hwf) as Hhi.
  apply Hsub in Hlo, Hhi. destruct (proj1 (wf_region_arr _ _ _) Hwf) as (? & ? & H).
  destruct (proj1 (wf_region_arr _ _ _) Hwf2) as (? & ? & H2).
  apply (in_region_arr n) in Hlo as [_ Hlo]; [|done..]. apply (in_region_arr n) in Hhi as [_ Hhi]; [|done..].
  apply (fits_arr n); [done..|rewrite length_psub; congruence|].
  intros i Hi. rewrite (arr_psub n) by done. specialize (H i Hi). specialize (Hlo i Hi). specialize (Hhi i Hi).
  rewrite (arr_top_of n) in Hhi by done. lia.
Qed.

Lemma psub_padd_region n off size c : wf_region n off size → in_box size c →
  in_region off size (padd off c) ∧ psub (padd off c) off = c.
Proof.
  intros Hwf Hc. apply in_box_length in Hc as Hl. destruct Hwf as [Ho Hs _].
  assert (psub (padd off c) off = c) as E by (apply psub_padd; congruence).
  split; [|done]. apply in_box_in_region; [|congruence|by rewrite E].
  unfold padd. rewrite length_zip_with. lia.
Qed.

Lemma wf_region_sizes n off size : wf_region n off size → Forall (λ s, 0 < s) size.
Proof.
  intros [_ _ H]. apply Forall2_length in H as Hl. apply Forall_lookup. intros i s Hs.
  destruct (lookup_lt_is_Some_2 off i) as [o Ho]; [apply lookup_lt_Some in Hs; lia|].
  by pose proof (Forall2_lookup_lr _ _ _ _ _ _ H Ho Hs) as (_ & ? & _).
Qed.

(** The buffer of a region is determined by the bytes of its points. *)
Lemma region_buf_ext {A} n unit off size (buf buf' : list A) :
  wf_region n off size → 0 < unit → lenZ buf = vol size * unit → lenZ buf' = vol size * unit →
  (∀ p b, in_region off size p → 0 ≤ b < unit → reg_get unit off size buf p b = reg_get unit off size buf' p b) →
  buf = buf'.
Proof.
  intros Hwf Hu Hl Hl' H. apply getZ_ext; [lia|]. intros k Hk.
  pose proof (Z.div_mod k unit ltac:(lia)) as Hdm. pose proof (Z.mod_pos_bound k unit Hu).
  destruct (lin_surj size (wf_region_sizes _ _ _ Hwf) (k / unit)) as (c & Hc & Hlin).
  { split; [apply Z.div_pos; lia|]. apply Z.div_lt_upper_bound; lia. }
  destruct (psub_padd_region _ _ _ _ Hwf Hc) as [Hp E].
  specialize (H (padd off c) (k mod unit) Hp ltac:(lia)). unfold reg_get in H. rewrite E, Hlin in H.
  by replace (k / unit * unit + k mod unit) with k in H by lia.
Qed.

(** A region of one dimension, in numbers. *)
Lemma region_1d n off size : n = 1%nat → wf_region n off size →
  0 ≤ arr off 0 ∧ 0 < arr size 0 ∧ arr off 0 + arr size 0 < W64 ∧ vol size = arr size 0 ∧
  (∀ p, in_region off size p ↔ ∃ x, p = [x] ∧ arr off 0 ≤ x < arr off 0 + arr size 0) ∧
  ∀ x, lin size (psub [x] off) = x - arr off 0.
Proof.
  intros E Hwf. pose proof (proj1 (wf_region_arr _ _ _) Hwf) as (Hlo & Hls & H). specialize (H 0%nat ltac:(lia)).
  rewrite E in *. apply length_1 in Hlo as (o & ->), Hls as (s & ->). unfold arr in *. cbn in *.
  split_and!; try done; try lia. intros p. split.
  - destruct p as [|x [|]]; naive_solver.
  - naive_solver.
Qed.

Lemma scaled_in u o s x b : 0 ≤ b < u →
  o * u ≤ x * u + b < o * u + s * u ↔ o ≤ x < o + s.
Proof. intros. split; nia. Qed.

(** What [memcpy_overlap_subregion] does to the two region buffers when it is
    given the overlap [PDC_region_overlap_detect] computed. *)
Section OverlapCopy.
Context {A : Type} (n : nat) (unit : Z) (off1 size1 off2 size2 : list Z).
Context (Hn : (1 ≤ n ≤ 3)%nat) (Hunit : 0 < unit).
Context (Hwf1 : wf_region n off1 size1) (Hwf2 : wf_region n off2 size2).

Lemma overlap_copy (buf buf2 : list A) oo os :
  vol size1 * unit ≤ lenZ buf < W64 → vol size2 * unit ≤ lenZ buf2 < W64 →
  PDC_region_overlap_detect n off1 size1 off2 size2 = Some (oo, os) →
  ∃ buf2', memcpy_overlap_subregion n unit buf off1 size1 buf2 off2 size2 oo os = Some buf2' ∧
    lenZ buf2' = lenZ buf2 ∧
    ∀ p b, in_region off2 size2 p → 0 ≤ b < unit →
      reg_get unit off2 size2 buf2' p b =
        if decide (in_region off1 size1 p) then reg_get unit off1 size1 buf p b
        else reg_get unit off2 size2 buf2 p b.
Proof.
  intros Hb1 Hb2 Hd. pose proof (overlap_detect_wf _ _ _ _ _ Hwf1 Hwf2 _ _ Hd) as Hwf.
  pose proof (λ p, overlap_detect_in _ _ _ _ _ Hwf1 Hwf2 _ _ p Hd) as Hin.
  destruct Hwf as [Hlo Hls Hpos] eqn:E. clear E. destruct Hwf1 as [Hl1 ? ?] eqn:E1, Hwf2 as [Hl2 ? ?] eqn:E2.
  clear E1 E2. assert (fits os size1 (psub oo off1)) as Hf1
    by (eapply sub_region_fits; [done..|]; intros p Hp; by apply Hin).
  assert (fits os size2 (psub oo off2)) as Hf2
    by (eapply sub_region_fits; [done..|]; intros p Hp; by apply Hin).
  destruct (memcpy_overlap_subregion_box n unit buf off1 size1 buf2 off2 size2 oo os) as (b' & Hrun & HC).
  { by split. }
  exists b'. split; [done|]. split; [apply HC|]. intros p b Hp Hb. unfold reg_get.
  pose proof (in_region_length _ _ _ _ Hwf2 Hp) as Hlp.
  erewrite copied_box_lookup; [|done|exact Hf2|exact HC|lia|by apply in_region_in_box|done].
  rewrite psub_psub by congruence. rewrite padd_psub_psub by congruence.
  assert (in_box os (psub p oo) ↔ in_region off1 size1 p) as Hiff.
  { specialize (Hin p). split; [|intros; apply in_region_in_box; tauto].
    intros. apply Hin, in_box_in_region; congruence. }
  by repeat case_decide; try tauto.
Qed.
End OverlapCopy.

(** A write copies the bytes of the points of a region inside another one. *)
Lemma subregion_write_points {A} n unit off size oo os (buf dst : list A) :
  (1 ≤ n ≤ 3)%nat → 0 < unit → wf_region n off size → wf_region n oo os → (∀ p, in_region oo os p → in_region off size p) →
  vol size * unit ≤ lenZ buf < W64 → vol os * unit ≤ lenZ dst < W64 →
  ∃ b, memcpy_subregion n unit PDC_WRITE buf size dst (psub oo off) os = Some (buf, b) ∧ lenZ b = lenZ dst ∧
    ∀ p i, in_region oo os p → 0 ≤ i < unit → reg_get unit oo os b p i = reg_get unit off size buf p i.
Proof.
  intros Hn Hu Hwf Hwo Hsub Hbuf Hdst. pose proof (sub_region_fits _ _ _ _ _ Hwo Hwf Hsub) as Hf.
  destruct (memcpy_subregion_write n unit buf size dst (psub oo off) os) as (b & Hrun & HC).
  { destruct Hwo. by split. }
  exists b. split; [done|]. split; [apply HC|]. intros p i Hp Hi. unfold reg_get.
  pose proof (wf_size _ _ _ Hwo) as Hls. unfold zeros in HC. rewrite <-Hls in HC.
  pose proof (in_region_in_box _ _ _ Hp) as Hbox.
  erewrite copied_box_lookup; [|done|by eapply fits_self|exact HC|lia|done|done].
  rewrite psub_zeros by by apply in_box_length. rewrite decide_True by done.
  rewrite padd_psub_psub; [done| |]; rewrite ?(in_region_length n off size p) by auto; by rewrite ?(wf_off _ _ _ Hwo), ?(wf_off _ _ _ Hwf).
Qed.

(** * Properties *)

(** C32: [PDC_region_overlap_detect] computes the intersection of two regions:
    when it returns a region, that region is well formed and consists exactly
    of the common points; it returns NULL exactly when there is no common
    point. *)
Theorem PDC_region_overlap_detect_spec n off1 size1 off2 size2 :
  wf_region n off1 size1 → wf_region n off2 size2 →
  match PDC_region_overlap_detect n off1 size1 off2 size2 with
  | Some (oo, os) => wf_region n oo os ∧
      ∀ p, in_region oo os p ↔ in_region off1 size1 p ∧ in_region off2 size2 p
  | None => ∀ p, ¬ (in_region off1 size1 p ∧ in_region off2 size2 p)
  end.
Proof.
  intros Hwf1 Hwf2. destruct (PDC_region_overlap_detect _ _ _ _ _) as [[oo os]|] eqn:Hd.
  - split; [exact (overlap_detect_wf _ _ _ _ _ Hwf1 Hwf2 _ _ Hd)|].
    intros p. exact (overlap_detect_in _ _ _ _ _ Hwf1 Hwf2 _ _ p Hd).
  - intros p [H1 H2]. exact (overlap_detect_None _ _ _ _ _ Hwf1 Hwf2 p Hd H1 H2).
Qed.

(** [detect_region_contained] answers 1 exactly when every point of the
    first region belongs to the second one. *)
Theorem detect_region_contained_spec n off1 size1 off2 size2 :
  wf_region n off1 size1 → wf_region n off2 size2 →
  detect_region_contained off1 size1 off2 size2 n = true ↔
  ∀ p, in_region off1 size1 p → in_region off2 size2 p.
Proof.
  intros Hwf1 Hwf2. rewrite (detect_region_contained_arr n) by done. split.
  - by apply sub_of_contained.
  - by apply contained_of_sub.
Qed.

(** C33: [memcpy_subregion] never accesses memory outside its two buffers; for
    PDC_WRITE it stores in the subregion buffer exactly the bytes of the
    subregion, otherwise it replaces exactly the bytes of the subregion in the
    region buffer and leaves every other element as it was. *)
Theorem memcpy_subregion_spec {A} n unit acc (buf : list A) size sub_buf sub_offset sub_size :
  subregion_ok n unit buf size sub_buf sub_offset sub_size →
  ∃ buf' sub',
    memcpy_subregion n unit acc buf size sub_buf sub_offset sub_size = Some (buf', sub') ∧
    lenZ buf' = lenZ buf ∧ lenZ sub' = lenZ sub_buf ∧
    if decide (acc = PDC_WRITE) then
      buf' = buf ∧ ∀ c b, in_box sub_size c → 0 ≤ b < unit →
        getZ sub' (lin sub_size c * unit + b) = getZ buf (lin size (padd sub_offset c) * unit + b)
    else
      sub' = sub_buf ∧ ∀ c b, in_box size c → 0 ≤ b < unit →
        getZ buf' (lin size c * unit + b) =
          if decide (in_box sub_size (psub c sub_offset))
          then getZ sub_buf (lin sub_size (psub c sub_offset) * unit + b)
          else getZ buf (lin size c * unit + b).
Proof.
  intros Hok. case_decide as Hacc.
  - subst acc. destruct (memcpy_subregion_write _ _ _ _ _ _ _ Hok) as (sub' & Hrun & HC).
    exists buf, sub'. split_and!; [done|done|apply HC|done|]. intros c b Hc Hb. destruct Hok.
    unfold zeros in HC. rewrite <-sub_len0 in HC.
    erewrite copied_box_lookup; [|done|by eapply fits_self|exact HC|lia|done|done].
    rewrite psub_zeros by by apply in_box_length. by rewrite decide_True.
  - destruct (memcpy_subregion_read _ _ _ _ _ _ _ _ Hacc Hok) as (buf' & Hrun & HC).
    exists buf', sub_buf. split_and!; [done|apply HC|done|done|]. intros c b Hc Hb. destruct Hok.
    erewrite copied_box_lookup; [|done|done|exact HC|lia|done|done]. case_decide as Hin; [|done].
    unfold zeros. by rewrite <-sub_len0, padd_zeros by by apply in_box_length.
Qed.

(** [memcpy_overlap_subregion], applied to the overlap computed by
    [PDC_region_overlap_detect], never accesses memory outside the buffers and
    makes the second region's buffer agree with the first one's on the
    elements both regions contain, leaving its other elements unchanged. *)
Theorem memcpy_overlap_subregion_spec {A} n unit (buf buf2 : list A) off1 size1 off2 size2 oo os :
  (1 ≤ n ≤ 3)%nat → 0 < unit → wf_region n off1 size1 → wf_region n off2 size2 →
  vol size1 * unit ≤ lenZ buf < W64 → vol size2 * unit ≤ lenZ buf2 < W64 →
  PDC_region_overlap_detect n off1 size1 off2 size2 = Some (oo, os) →
  ∃ buf2', memcpy_overlap_subregion n unit buf off1 size1 buf2 off2 size2 oo os = Some buf2' ∧
    lenZ buf2' = lenZ buf2 ∧
    ∀ p b, in_region off2 size2 p → 0 ≤ b < unit →
      reg_get unit off2 size2 buf2' p b =
        if decide (in_region off1 size1 p) then reg_get unit off1 size1 buf p b
        else reg_get unit off2 size2 buf2 p b.
Proof. intros. by apply overlap_copy. Qed.

(** * The properties at concrete inputs *)

Ltac wf_concrete := split; [reflexivity|reflexivity|repeat (constructor; [unfold W64; lia|]); constructor].

Lemma PDC_region_overlap_detect_spec_witness :
  PDC_region_overlap_detect 2 [0; 0] [4; 4] [2; 1] [5; 2] = Some ([2; 1], [2; 2]) ∧
  ∀ p, in_region [2; 1] [2; 2] p ↔ in_region [0; 0] [4; 4] p ∧ in_region [2; 1] [5; 2] p.
Proof.
  split; [reflexivity|].
  exact (proj2 (PDC_region_overlap_detect_spec 2 [0; 0] [4; 4] [2; 1] [5; 2] ltac:(wf_concrete) ltac:(wf_concrete))).
Defined.

Lemma detect_region_contained_spec_witness : in_region [0; 0; 0] [4; 4; 1] [3; 2; 0].
Proof.
  refine (proj1 (detect_region_contained_spec 3 [2; 1; 0] [2; 2; 1] [0; 0; 0] [4; 4; 1]
                   ltac:(wf_concrete) ltac:(wf_concrete)) eq_refl [3; 2; 0] _).
  simpl. lia.
Defined.

Lemma memcpy_subregion_spec_witness :
  ∃ buf' sub',
    memcpy_subregion 2 1 PDC_READ [0; 1; 2; 3; 4; 5] [2; 3] [10; 11] [0; 1] [2; 1] = Some (buf', sub') ∧
    buf' = [0; 10; 2; 3; 11; 5] ∧ sub' = [10; 11].
Proof.
  destruct (memcpy_subregion_spec 2 1 PDC_READ [0; 1; 2; 3; 4; 5] [2; 3] [10; 11] [0; 1] [2; 1])
    as (buf' & sub' & Hrun & _).
  { split; [lia|reflexivity|lia|repeat (constructor; [lia|]); constructor|vm_compute; intuition congruence..]. }
  exists buf', sub'. split; [exact Hrun|]. vm_compute in Hrun. injection Hrun as <- <-. split; reflexivity.
Defined.

Lemma memcpy_overlap_subregion_spec_witness :
  ∃ buf2', memcpy_overlap_subregion 2 1 [1; 2; 3; 4] [0; 0] [2; 2] [0; 0; 0; 0] [1; 0] [2; 2] [1; 0] [1; 2] = Some buf2' ∧
    reg_get 1 [1; 0] [2; 2] buf2' [1; 1] 0 = Some 4 ∧ reg_get 1 [1; 0] [2; 2] buf2' [2; 1] 0 = Some 0.
Proof.
  destruct (memcpy_overlap_subregion_spec 2 1 [1; 2; 3; 4] [0; 0; 0; 0] [0; 0] [2; 2] [1; 0] [2; 2] [1; 0] [1; 2])
    as (b & Hrun & _ & Hget); [lia|lia|wf_concrete|wf_concrete|vm_compute; intuition congruence|vm_compute; intuition congruence|reflexivity|].
  exists b. split; [exact Hrun|]. split; (rewrite Hget; [vm_compute; reflexivity|simpl; lia|lia]).
Defined.
