(* ===== verification/RegionPartition.v ===== *)
(** How a client spreads a region over the data servers
    ([src/src/api/pdc_region/pdc_region_transfer.c]): the static partition of an
    object cuts its last long dimension into one slab per server, and a transfer
    sends every server the part of the region that lies in its slab. *)

From S2P Require Export RegionUtils.
From stdpp Require Import list sets.
#[local] Open Scope Z_scope.

(** * The code *)

(** What [static_region_partition] appends to its output arrays for a server;
    [sp_output_buf] is there when [set_output_buf] is. *)
Record server_piece := ServerPiece {
  sp_server : Z;
  sp_output_offset : list Z;
  sp_output_size : list Z;
  sp_sub_offset : list Z;
  sp_output_buf : option (list byte) }.

Section Partition.
Context (pdc_server_num_g : Z).

(** The last dimension that is longer than the number of servers. *)
Definition split_dim_of (ndim : nat) (obj_dims : list Z) : nat :=
  match List.find (λ i, bool_decide (arr obj_dims (ndim - 1 - i) > u64 pdc_server_num_g)) (seq 0 ndim) with
  | Some i => (ndim - 1 - i)%nat
  | None => (ndim - 1)%nat
  end.

(** [static_offset] and [static_size] of server [i] for a dimension of length [d]. *)
Definition static_slab (d i : Z) : Z * Z :=
  let s := d / u64 pdc_server_num_g in
  let s := if decide (s = 0) then 1 else s in
  let x := pdc_server_num_g -w d mod u64 pdc_server_num_g in
  if decide (i < x) then (i *w s, s) else (x *w s +w (i -w x) *w (s +w 1), s +w 1).

(** Whether the region meets the slab. *)
Definition meets_slab (static_offset static_size offset size : Z) : bool :=
  (bool_decide (static_offset +w static_size > offset) && bool_decide (offset >= static_offset)) ||
  (bool_decide (offset +w size > static_offset) && bool_decide (static_offset >= offset)).

(** The entries [output_offsets[j]], [output_sizes[j]], [sub_offsets[j]] for the
    split dimension. *)
Definition slab_overlap (static_offset static_size offset size : Z) : Z * Z * Z :=
  if decide (static_offset < offset) then
    (offset,
     if decide (static_offset +w static_size < offset +w size) then static_offset +w static_size -w offset else size,
     0)
  else
    (static_offset,
     if decide (static_offset +w static_size < offset +w size) then static_size else offset +w size -w static_offset,
     static_offset -w offset).

Definition server_part (ndim : nat) (split_dim : nat) (static_offset static_size : Z) (offset size : list Z)
    : list Z * list Z * list Z :=
  let at_dim (j : nat) :=
    if decide (j = split_dim) then slab_overlap static_offset static_size (arr offset j) (arr size j)
    else (arr offset j, arr size j, 0) in
  ((λ j, (at_dim j).1.1) <$> seq 0 ndim, (λ j, (at_dim j).1.2) <$> seq 0 ndim, (λ j, (at_dim j).2) <$> seq 0 ndim).

(** [output_buf]: zeroed memory, into which a write copies its part of the region. *)
Definition output_buf_of (buf : list byte) (ndim : nat) (unit : Z) (access_type : pdc_access_t) (size : list Z)
    (set_output_buf : bool) (sub_offset output_size : list Z) : option (option (list byte)) :=
  let region_size := foldl (λ r s, r *w s) unit output_size in
  if set_output_buf then
    let output_buf := malloc 0 (region_size *w unit) in
    if decide (access_type = PDC_WRITE) then
      '(_, output_buf) ← memcpy_subregion ndim unit PDC_WRITE buf size output_buf sub_offset output_size;
      Some (Some output_buf)
    else Some (Some output_buf)
  else Some None.

(** The loop over the servers.  [buf] is the memory from the pointer on. *)
Fixpoint partition_loop (buf : list byte) (ndim : nat) (unit : Z) (access_type : pdc_access_t) (split_dim : nat)
    (d : Z) (offset size : list Z) (set_output_buf : bool) (servers : list Z) : option (list server_piece) :=
  match servers with
  | [] => Some []
  | i :: servers =>
    let '(static_offset, static_size) := static_slab d i in
    if meets_slab static_offset static_size (arr offset split_dim) (arr size split_dim) then
      let '(output_offset, output_size, sub_offset) :=
        server_part ndim split_dim static_offset static_size offset size in
      output_buf ← output_buf_of buf ndim unit access_type size set_output_buf sub_offset output_size;
      pieces ← partition_loop buf ndim unit access_type split_dim d offset size set_output_buf servers;
      Some (ServerPiece i output_offset output_size sub_offset output_buf :: pieces)
    else partition_loop buf ndim unit access_type split_dim d offset size set_output_buf servers
  end.

(** The result code is always SUCCEED.  [None]: a division by zero, the index -1
    of [obj_dims], or an access outside a buffer. *)
Definition static_region_partition (buf : list byte) (ndim : nat) (unit : Z) (access_type : pdc_access_t)
    (obj_dims offset size : list Z) (set_output_buf : bool) : option (list server_piece) :=
  if decide (ndim = 0%nat ∨ u64 pdc_server_num_g = 0) then None
  else
    let split_dim := split_dim_of ndim obj_dims in
    partition_loop buf ndim unit access_type split_dim (arr obj_dims split_dim) offset size set_output_buf
      (Z.of_nat <$> seq 0 (Z.to_nat pdc_server_num_g)).
End Partition.

(** The loop of the wait functions that puts the data of the servers together:
    [read_bulk_buf] is the data of each piece. *)
Definition gather_pieces (ndim : nat) (unit : Z) (access_type : pdc_access_t) (size : list Z)
    (pieces : list (list Z * list Z * list byte)) (new_buf : list byte) : option (list byte) :=
  foldl (λ b '(sub_offset, output_size, read_bulk_buf),
    b ← b; '(b, _) ← memcpy_subregion ndim unit access_type b size read_bulk_buf sub_offset output_size; Some b)
    (Some new_buf) pieces.

(** * The slabs of a dimension *)

(** [serves i p]: the point [p] lies in the slab of server [i]. *)
Definition serves (pdc_server_num_g : Z) (ndim : nat) (obj_dims : list Z) (i : Z) (p : list Z) : Prop :=
  let split_dim := split_dim_of pdc_server_num_g ndim obj_dims in
  let '(static_offset, static_size) := static_slab pdc_server_num_g (arr obj_dims split_dim) i in
  static_offset ≤ arr p split_dim < static_offset + static_size.

#[export] Instance serves_dec N ndim obj_dims i p : Decision (serves N ndim obj_dims i p).
Proof. unfold serves. destruct (static_slab _ _ _). apply _. Defined.

Section Slabs.
Context (N d : Z) (HN : 0 < N < 2147483648) (Hd : 0 < d ∧ d + 2 * N < W64).

(** The first coordinate of slab [i], without wrap-arounds. *)
Definition slab_s : Z := if decide (d / N = 0) then 1 else d / N.
Definition slab_x : Z := N - d mod N.
Definition slab_start (i : Z) : Z := i * slab_s + Z.max 0 (i - slab_x).

Lemma slab_facts : 0 < slab_x ≤ N ∧ 0 < slab_s ∧ d ≤ N * slab_s + (N - slab_x) ≤ d + N.
Proof.
  unfold slab_x, slab_s. pose proof (Z.mod_pos_bound d N ltac:(lia)). pose proof (Z.div_mod d N ltac:(lia)).
  pose proof (Z.div_pos d N ltac:(lia) ltac:(lia)). case_decide as E; [rewrite E in *|]; nia.
Qed.

Lemma static_slab_eq i : 0 ≤ i < N → static_slab N d i = (slab_start i, slab_start (i + 1) - slab_start i).
Proof.
  intros Hi. pose proof slab_facts as (Hx & Hs & Hb). unfold static_slab.
  assert (u64 N = N) as -> by (apply u64_id; unfold W64; lia). fold slab_s.
  assert (N -w d mod N = slab_x) as -> by (apply u64_id; unfold slab_x in *; unfold W64; lia).
  unfold slab_start. case_decide.
  - rewrite u64_id by nia. f_equal; [lia|]. rewrite !Z.max_l by lia. lia.
  - rewrite (u64_id (slab_x * slab_s)), (u64_id (i - slab_x)), (u64_id (slab_s + 1)) by nia.
    rewrite (u64_id ((i - slab_x) * (slab_s + 1))), u64_id by nia. rewrite !Z.max_r by lia. f_equal; ring.
Qed.

Lemma slab_start_mono i j : i ≤ j → slab_start i ≤ slab_start j.
Proof. pose proof slab_facts as (? & ? & _). unfold slab_start. intros. nia. Qed.

Lemma slab_start_lt i : slab_start i < slab_start (i + 1).
Proof. pose proof slab_facts as (? & ? & _). unfold slab_start. nia. Qed.

Lemma slab_start_0 : slab_start 0 = 0.
Proof. pose proof slab_facts as (? & ? & _). unfold slab_start. lia. Qed.

Lemma slab_start_N : d ≤ slab_start N ≤ d + N.
Proof. pose proof slab_facts as (? & ? & ?). unfold slab_start. rewrite Z.max_r by lia. lia. Qed.

Lemma slab_start_range i : 0 ≤ i ≤ N → 0 ≤ slab_start i ≤ d + N.
Proof.
  intros Hi. rewrite <-slab_start_0 at 1. pose proof slab_start_N. split; [apply slab_start_mono; lia|].
  etrans; [apply (slab_start_mono i N); lia|lia].
Qed.

Lemma slab_exists c : 0 ≤ c < d → ∃ i, 0 ≤ i < N ∧ slab_start i ≤ c < slab_start (i + 1).
Proof.
  intros Hc. assert (∀ n, 0 ≤ n → c < slab_start n → ∃ i, 0 ≤ i < n ∧ slab_start i ≤ c < slab_start (i + 1)) as H.
  { refine (natlike_ind _ _ _).
    - rewrite slab_start_0. lia.
    - intros n Hn IH Hlt. rewrite <-Z.add_1_r in *. destruct (decide (c < slab_start n)) as [Hc'|Hc'].
      + destruct (IH Hc') as (i & Hi & Hci). exists i. split; [lia|done].
      + exists n. split; [lia|lia]. }
  destruct (H N) as (i & Hi & Hci); [lia|pose proof slab_start_N; lia|]. eauto.
Qed.

Lemma slab_unique i j c : slab_start i ≤ c < slab_start (i + 1) → slab_start j ≤ c < slab_start (j + 1) → i = j.
Proof.
  intros Hi Hj. destruct (Z.lt_trichotomy i j) as [H|[H|H]]; [|done|].
  - pose proof (slab_start_mono (i + 1) j ltac:(lia)). lia.
  - pose proof (slab_start_mono (j + 1) i ltac:(lia)). lia.
Qed.
End Slabs.

(** * The part of a region in a slab *)

Lemma meets_slab_spec so ss o s : 0 ≤ so → 0 < ss → so + ss < W64 → 0 ≤ o → 0 < s → o + s < W64 →
  meets_slab so ss o s = true ↔ Z.max so o < Z.min (so + ss) (o + s).
Proof.
  intros. unfold meets_slab. rewrite !u64_id by lia.
  rewrite orb_true_iff, !andb_true_iff, !bool_decide_eq_true. lia.
Qed.

Lemma slab_overlap_spec so ss o s : 0 ≤ so → 0 < ss → so + ss < W64 → 0 ≤ o → 0 < s → o + s < W64 →
  Z.max so o < Z.min (so + ss) (o + s) →
  slab_overlap so ss o s = (Z.max so o, Z.min (so + ss) (o + s) - Z.max so o, Z.max so o - o).
Proof.
  intros. unfold slab_overlap. rewrite (u64_id (so + ss)), (u64_id (o + s)) by lia.
  case_decide; case_decide; rewrite ?u64_id by lia; repeat f_equal; lia.
Qed.

Section Part.
Context (n k : nat) (so ss : Z) (off size : list Z).
Context (Hk : (k < n)%nat) (Hwf : wf_region n off size).
Context (Hso : 0 ≤ so) (Hss : 0 < ss) (Hslab : so + ss < W64).
Context (Hmeet : meets_slab so ss (arr off k) (arr size k) = true).

Lemma server_part_arr : ∃ oo os sub, server_part n k so ss off size = (oo, os, sub) ∧
  length oo = n ∧ length os = n ∧ length sub = n ∧
  ∀ j, (j < n)%nat → arr sub j = arr oo j - arr off j ∧
    if decide (j = k) then arr oo j = Z.max so (arr off j) ∧ arr oo j + arr os j = Z.min (so + ss) (arr off j + arr size j) ∧ 0 < arr os j
    else arr oo j = arr off j ∧ arr os j = arr size j.
Proof.
  destruct (proj1 (wf_region_arr _ _ _) Hwf) as (_ & _ & Harr). specialize (Harr k Hk) as Hark.
  unfold server_part. eexists _, _, _. split; [done|]. rewrite !length_fmap, !length_seq. split_and!; [done..|].
  intros j Hj. rewrite !arr_fmap_seq by done. specialize (Harr j Hj). case_decide as E; [subst j|].
  - rewrite meets_slab_spec in Hmeet by lia. rewrite slab_overlap_spec by lia. cbn. lia.
  - cbn. lia.
Qed.

Lemma server_part_spec : ∃ oo os, server_part n k so ss off size = (oo, os, psub oo off) ∧ wf_region n oo os ∧
  (∀ p, in_region oo os p ↔ in_region off size p ∧ so ≤ arr p k < so + ss).
Proof.
  destruct server_part_arr as (oo & os & sub & E & Hlo & Hls & Hlsub & H). exists oo, os.
  destruct (proj1 (wf_region_arr _ _ _) Hwf) as (Hlof & Hlsz & Harr). split; [|split].
  - rewrite E. f_equal. apply (arr_ext n); [done|rewrite length_psub; congruence|].
    intros j Hj. rewrite (arr_psub n) by done. by apply H.
  - apply wf_region_arr. split; [done|]. split; [done|]. intros j Hj. specialize (H j Hj). specialize (Harr j Hj).
    case_decide; lia.
  - intros p. rewrite !(in_region_arr n) by done. split.
    + intros [Hp Hin]. split; [split; [done|]|].
      * intros j Hj. specialize (H j Hj). specialize (Hin j Hj). case_decide; [subst j|]; lia.
      * specialize (H k Hk). specialize (Hin k Hk). rewrite decide_True in H by done. lia.
    + intros [[Hp Hin] Hslab']. split; [done|]. intros j Hj. specialize (H j Hj). specialize (Hin j Hj).
      case_decide; [subst j|]; lia.
Qed.
End Part.

(** * The pieces of a region *)

Lemma split_dim_lt N n dims : (0 < n)%nat → (split_dim_of N n dims < n)%nat.
Proof. intros. unfold split_dim_of. destruct (List.find _ _); lia. Qed.

Lemma foldl_mul_vol size : ∀ unit, 0 ≤ unit → Forall (λ s, 0 < s) size → vol size * unit < W64 →
  foldl (λ r s, r *w s) unit size = vol size * unit.
Proof.
  induction size as [|s size IH]; intros unit Hu Hs Hv; [simpl; lia|]. apply list.Forall_cons in Hs as [Hs Hss].
  pose proof (vol_pos size Hss). simpl in *. rewrite u64_id by nia. rewrite IH; [lia|nia|done|lia].
Qed.

Lemma vol_fits cnt size off : fits cnt size off → Forall (λ s, 0 < s) cnt → 0 < vol cnt ≤ vol size.
Proof.
  unfold vol. induction 1 as [|c s o cnt size off H _ IH]; intros Hpos; simpl; [lia|].
  apply list.Forall_cons in Hpos as [Hc Hpos]. specialize (IH Hpos). nia.
Qed.

(** The buffers hold the same bytes for the points of the piece. *)
Definition piece_bytes (unit : Z) (off size : list Z) (buf : list byte) (pc : server_piece) : Prop :=
  ∃ b, sp_output_buf pc = Some b ∧ vol (sp_output_size pc) * unit ≤ lenZ b ∧
    ∀ p i, in_region (sp_output_offset pc) (sp_output_size pc) p → 0 ≤ i < unit →
      reg_get unit (sp_output_offset pc) (sp_output_size pc) b p i = reg_get unit off size buf p i.

(** What holds of the piece of every server. *)
Record piece_ok (n : nat) (off size : list Z) (mine : Z → list Z → Prop) (pc : server_piece) : Prop := {
  po_wf : wf_region n (sp_output_offset pc) (sp_output_size pc);
  po_sub : sp_sub_offset pc = psub (sp_output_offset pc) off;
  po_points p : in_region (sp_output_offset pc) (sp_output_size pc) p ↔ in_region off size p ∧ mine (sp_server pc) p }.

Section Pieces.
Context (N : Z) (n : nat) (unit : Z) (dims off size : list Z) (buf : list byte).
Context (HN : 0 < N < 2147483648) (Hn : (1 ≤ n ≤ 3)%nat) (Hunit : 0 < unit).
Context (Hwf : wf_region n off size) (Hvol : vol size * unit * unit < W64) (Hbuf : vol size * unit ≤ lenZ buf < W64).
Context (Hdims : ∀ j, (j < n)%nat → arr off j + arr size j ≤ arr dims j ∧ arr dims j + 2 * N < W64).

#[local] Abbreviation k := (split_dim_of N n dims).
#[local] Abbreviation d := (arr dims k).

Lemma split_dim_facts : (k < n)%nat ∧ 0 < d ∧ d + 2 * N < W64.
Proof.
  assert ((k < n)%nat) as Hk by (apply split_dim_lt; lia). specialize (Hdims k Hk).
  destruct (proj1 (wf_region_arr _ _ _) Hwf) as (_ & _ & H). specialize (H k Hk). lia.
Qed.

(** The bytes copied for a piece. *)
Lemma piece_write oo os : wf_region n oo os → (∀ p, in_region oo os p → in_region off size p) →
  ∃ b, memcpy_subregion n unit PDC_WRITE buf size (malloc 0 (foldl (λ r s, r *w s) unit os *w unit)) (psub oo off) os = Some (buf, b) ∧
    vol os * unit ≤ lenZ b ∧
    ∀ p i, in_region oo os p → 0 ≤ i < unit → reg_get unit oo os b p i = reg_get unit off size buf p i.
Proof.
  intros Hwo Hsub. pose proof (sub_region_fits _ _ _ _ _ Hwo Hwf Hsub) as Hf.
  pose proof (vol_fits _ _ _ Hf (wf_region_sizes _ _ _ Hwo)) as Hv.
  assert (vol os * unit * unit < W64) as Hvo by nia. assert (vol os * unit < W64) by nia.
  rewrite foldl_mul_vol by (eauto using wf_region_sizes with lia). rewrite u64_id by nia.
  destruct (subregion_write_points n unit off size oo os buf (malloc 0 (vol os * unit * unit))) as (b & Hrun & Hlb & Hb);
    [done|done|done|done|done|done|rewrite lenZ_malloc by nia; nia|].
  exists b. split; [done|]. rewrite lenZ_malloc in Hlb by nia. split; [nia|done].
Qed.

Lemma partition_loop_spec acc set_output_buf servers : Forall (λ i, 0 ≤ i < N) servers →
  ∃ pieces, partition_loop N buf n unit acc k d off size set_output_buf servers = Some pieces ∧
    sublist (sp_server <$> pieces) servers ∧
    Forall (piece_ok n off size (serves N n dims)) pieces ∧
    (∀ i p, i ∈ servers → in_region off size p → serves N n dims i p → i ∈ sp_server <$> pieces) ∧
    (set_output_buf = true → acc = PDC_WRITE → Forall (piece_bytes unit off size buf) pieces).
Proof.
  destruct split_dim_facts as (Hk & Hd & HdN). induction 1 as [|i servers Hi _ (pieces & Hrun & Hsub & Hok & Hall & Hbytes)].
  - exists []. split; [done|]. split; [constructor|]. split; [constructor|]. split; [|constructor]. intros ? ? Hx. by apply elem_of_nil in Hx.
  - cbn [partition_loop]. pose proof (static_slab_eq N d HN (conj Hd HdN) i Hi) as Hslab. rewrite Hslab.
    pose proof (slab_start_lt N d HN (conj Hd HdN) i) as Hlt.
    pose proof (slab_start_range N d HN (conj Hd HdN) i ltac:(lia)) as Hr1.
    pose proof (slab_start_range N d HN (conj Hd HdN) (i + 1) ltac:(lia)) as Hr2.
    set (so := slab_start N d i) in *. set (ss := slab_start N d (i + 1) - so).
    assert (∀ p, serves N n dims i p ↔ so ≤ arr p k < so + ss) as Hserves.
    { intros p. unfold serves. by rewrite Hslab. }
    destruct (proj1 (wf_region_arr _ _ _) Hwf) as (Hlo & Hls & Harr). specialize (Harr k Hk).
    destruct (meets_slab so ss (arr off k) (arr size k)) eqn:Hmeet.
    + destruct (server_part_spec n k so ss off size) as (oo & os & -> & Hwo & Hin); [done|done|lia|lia|lia|done|].
      assert (∃ ob, output_buf_of buf n unit acc size set_output_buf (psub oo off) os = Some ob ∧
               (set_output_buf = true → acc = PDC_WRITE → piece_bytes unit off size buf (ServerPiece i oo os (psub oo off) ob)))
        as (ob & -> & Hob).
      { unfold output_buf_of. destruct set_output_buf; [|by eexists]. case_decide; [|by eexists; split; [done|]].
        destruct (piece_write oo os Hwo) as (b & -> & Hlb & Hb); [intros p; rewrite Hin; tauto|].
        eexists. split; [done|]. intros _ _. exists b. split; [done|]. split; [exact Hlb|exact Hb]. }
      cbn [mbind option_bind]. rewrite Hrun. cbn [mbind option_bind]. eexists. split; [done|]. split; [|split; [|split]].
      * by constructor.
      * constructor; [|done]. split; [done|done|]. intros p. cbn. rewrite Hserves. apply Hin.
      * intros j p [->|Hj]%elem_of_cons Hp Hs; csimpl; [set_solver|]. apply elem_of_cons. right. by eapply Hall.
      * intros Hset Hacc. constructor; auto.
    + eexists. split; [exact Hrun|]. split; [by constructor|]. split; [done|]. split; [|done].
      intros j p [->|Hj]%elem_of_cons Hp Hs; [exfalso|by eapply Hall].
      rewrite Hserves in Hs. apply (in_region_arr n) in Hp as [_ Hp]; [|done..]. specialize (Hp k Hk).
      assert (meets_slab so ss (arr off k) (arr size k) = true) by (apply meets_slab_spec; lia). congruence.
Qed.
End Pieces.

(** A piece has a buffer when [set_output_buf] is set. *)
Lemma partition_bufs N n unit dims off size buf acc set_output_buf pieces :
  static_region_partition N buf n unit acc dims off size set_output_buf = Some pieces →
  Forall (λ pc, if set_output_buf then is_Some (sp_output_buf pc) else sp_output_buf pc = None) pieces.
Proof.
  unfold static_region_partition. case_decide; [done|]. generalize (Z.of_nat <$> seq 0 (Z.to_nat N)). intros servers. revert pieces.
  induction servers as [|i servers IH]; intros pieces; cbn [partition_loop]; [intros [= <-]; constructor|].
  destruct (static_slab N _ i) as [so ss]. destruct (meets_slab _ _ _ _); [|apply IH].
  destruct (server_part _ _ _ _ _ _) as [[oo os] sub]. destruct (output_buf_of _ _ _ _ _ _ _ _) as [ob|] eqn:Eo; [|done]. cbn [mbind option_bind].
  destruct (partition_loop _ _ _ _ _ _ _ _ _ _ _) as [pcs|] eqn:Ep; [|done]. intros [= <-]. constructor; [|by apply IH]. cbn.
  unfold output_buf_of in Eo. destruct set_output_buf; [|by injection Eo]. case_decide; [|injection Eo as <-; by eexists].
  destruct (memcpy_subregion _ _ _ _ _ _ _ _) as [[? ?]|]; [injection Eo as <-; by eexists|done].
Qed.

(** * Putting the pieces together *)

Section Gather.
Context (n : nat) (unit : Z) (off size : list Z) (acc : pdc_access_t) (content : list Z → Z → option byte).
Context (Hn : (1 ≤ n ≤ 3)%nat) (Hunit : 0 < unit) (Hwf : wf_region n off size) (Hacc : acc ≠ PDC_WRITE).

(** The data [b] received for a piece: every byte of the piece is that of [content]. *)
Definition piece_data (pc : server_piece) (b : list byte) : Prop :=
  vol (sp_output_size pc) * unit ≤ lenZ b < W64 ∧
  ∀ p i, in_region (sp_output_offset pc) (sp_output_size pc) p → 0 ≤ i < unit →
    reg_get unit (sp_output_offset pc) (sp_output_size pc) b p i = content p i.

Definition with_data (pc : server_piece) (b : list byte) : list Z * list Z * list byte :=
  (sp_sub_offset pc, sp_output_size pc, b).

Lemma gather_one mine pc b new_buf : piece_ok n off size mine pc → piece_data pc b → vol size * unit ≤ lenZ new_buf < W64 →
  ∃ nb, memcpy_subregion n unit acc new_buf size b (sp_sub_offset pc) (sp_output_size pc) = Some (nb, b) ∧
    lenZ nb = lenZ new_buf ∧
    ∀ p i, in_region off size p → 0 ≤ i < unit →
      reg_get unit off size nb p i =
        if decide (in_region (sp_output_offset pc) (sp_output_size pc) p) then content p i else reg_get unit off size new_buf p i.
Proof.
  intros [Hwo -> Hin] [Hlb Hb] Hnb. set (oo := sp_output_offset pc) in *. set (os := sp_output_size pc) in *.
  assert (fits os size (psub oo off)) as Hf by (eapply sub_region_fits; [done|done|]; intros p; rewrite Hin; tauto).
  destruct (memcpy_subregion_read n unit acc new_buf size b (psub oo off) os Hacc) as (nb & Hrun & HC).
  { destruct Hwo. by split. }
  exists nb. split; [done|]. split; [apply HC|]. intros p i Hp Hi. unfold reg_get at 1.
  pose proof (in_region_length _ _ _ _ Hwf Hp) as Hlp. pose proof (wf_off _ _ _ Hwo) as Hlo. pose proof (wf_off _ _ _ Hwf) as Hlf.
  unfold zeros in HC. rewrite <-(wf_size _ _ _ Hwo) in HC.
  erewrite copied_box_lookup; [|done|exact Hf|exact HC|lia|by apply in_region_in_box|done].
  rewrite psub_psub by congruence.
  destruct (decide (in_region oo os p)) as [Hpo|Hpo].
  - pose proof (in_region_in_box _ _ _ Hpo) as Hbox. rewrite decide_True by done.
    rewrite padd_zeros by by apply in_box_length. by apply Hb.
  - rewrite decide_False; [done|]. intros Hbox. apply Hpo, in_box_in_region; [congruence| |done].
    by rewrite (wf_size _ _ _ Hwo), Hlo.
Qed.

Lemma gather_pieces_spec mine pieces datas : Forall (piece_ok n off size mine) pieces → Forall2 piece_data pieces datas →
  ∀ new_buf, vol size * unit ≤ lenZ new_buf < W64 →
  ∃ nb, gather_pieces n unit acc size (zip_with with_data pieces datas) new_buf = Some nb ∧ lenZ nb = lenZ new_buf ∧
    ∀ p i, in_region off size p → 0 ≤ i < unit →
      reg_get unit off size nb p i =
        if decide (Exists (λ pc, in_region (sp_output_offset pc) (sp_output_size pc) p) pieces)
        then content p i else reg_get unit off size new_buf p i.
Proof.
  intros Hok Hd. revert Hok. induction Hd as [|pc b pieces datas Hb _ IH]; intros Hok new_buf Hl.
  - exists new_buf. split_and!; [done..|]. intros p i _ _. rewrite decide_False; [done|]. by intros ?%Exists_nil.
  - apply list.Forall_cons in Hok as [Hpc Hok]. destruct (gather_one _ _ _ _ Hpc Hb Hl) as (nb1 & Hrun1 & Hl1 & Hg1).
    destruct (IH Hok nb1) as (nb & Hrun & Hl2 & Hg); [lia|]. exists nb. unfold gather_pieces in *. cbn [zip_with foldl].
    cbn [with_data mbind option_bind]. rewrite Hrun1. cbn [mbind option_bind]. split; [exact Hrun|]. split; [lia|].
    intros p i Hp Hi. rewrite Hg, Hg1 by done.
    destruct (decide (Exists _ pieces)) as [He|He].
    + by rewrite decide_True by (apply Exists_cons; auto).
    + destruct (decide (in_region _ _ p)) as [Hx|Hx].
      * by rewrite decide_True by (apply Exists_cons; auto).
      * rewrite decide_False; [done|]. intros [?|?]%Exists_cons; done.
Qed.
End Gather.

(** * Properties *)

(** The hypotheses on a transfer: at most three dimensions, the region lies in
    the object, and none of the products of the code overflows. *)
Record partition_pre (N : Z) (n : nat) (unit : Z) (dims off size : list Z) : Prop := {
  pp_servers : 0 < N < 2147483648;
  pp_ndim : (1 ≤ n ≤ 3)%nat;
  pp_unit : 0 < unit;
  pp_wf : wf_region n off size;
  pp_vol : vol size * unit * unit < W64;
  pp_dims : ∀ j, (j < n)%nat → arr off j + arr size j ≤ arr dims j ∧ arr dims j + 2 * N < W64 }.

Lemma serves_exists N n unit dims off size p : partition_pre N n unit dims off size → in_region off size p →
  ∃ i, 0 ≤ i < N ∧ serves N n dims i p.
Proof.
  intros [HN Hn Hu Hwf Hvol Hd] Hp. destruct (split_dim_facts N n dims off size Hn Hwf Hd) as (Hk & Hdk & HdN).
  set (k := split_dim_of N n dims) in *. destruct (proj1 (wf_region_arr _ _ _) Hwf) as (Hlo & Hls & Harr).
  apply (in_region_arr n) in Hp as [_ Hp]; [|done..]. specialize (Hp k Hk). specialize (Harr k Hk). specialize (Hd k Hk).
  destruct (slab_exists N (arr dims k) HN (conj Hdk HdN) (arr p k)) as (i & Hi & Hc); [lia|].
  exists i. split; [done|]. unfold serves. fold k. rewrite (static_slab_eq N _ HN (conj Hdk HdN) i Hi). lia.
Qed.

Lemma serves_unique N n unit dims off size p i j : partition_pre N n unit dims off size →
  0 ≤ i < N → 0 ≤ j < N → serves N n dims i p → serves N n dims j p → i = j.
Proof.
  intros [HN Hn Hu Hwf Hvol Hd] Hi Hj. destruct (split_dim_facts N n dims off size Hn Hwf Hd) as (Hk & Hdk & HdN).
  unfold serves. rewrite (static_slab_eq N _ HN (conj Hdk HdN) i Hi), (static_slab_eq N _ HN (conj Hdk HdN) j Hj).
  intros H1 H2. eapply (slab_unique N _ HN (conj Hdk HdN)); [instantiate (1 := arr p (split_dim_of N n dims))|]; lia.
Qed.

Lemma partition_runs N n unit dims off size buf acc set_output_buf :
  partition_pre N n unit dims off size → vol size * unit ≤ lenZ buf < W64 →
  ∃ pieces, static_region_partition N buf n unit acc dims off size set_output_buf = Some pieces ∧
    NoDup (sp_server <$> pieces) ∧ Forall (λ pc, 0 ≤ sp_server pc < N) pieces ∧
    Forall (piece_ok n off size (serves N n dims)) pieces ∧
    (∀ p, in_region off size p → Exists (λ pc, in_region (sp_output_offset pc) (sp_output_size pc) p) pieces) ∧
    (set_output_buf = true → acc = PDC_WRITE → Forall (piece_bytes unit off size buf) pieces).
Proof.
  intros Hpre Hbuf. pose proof Hpre as [HN Hn Hu Hwf Hvol Hd].
  assert (∀ i, i ∈ Z.of_nat <$> seq 0 (Z.to_nat N) ↔ 0 ≤ i < N) as Hin.
  { intros i. rewrite list_elem_of_fmap. setoid_rewrite elem_of_seq. split; [intros (? & -> & ?); lia|].
    intros. exists (Z.to_nat i). lia. }
  unfold static_region_partition. rewrite decide_False by (rewrite u64_id by (unfold W64; lia); lia).
  destruct (partition_loop_spec N n unit dims off size buf HN Hn Hu Hwf Hvol Hbuf Hd acc set_output_buf
              (Z.of_nat <$> seq 0 (Z.to_nat N))) as (pieces & -> & Hsub & Hok & Hall & Hbytes).
  { apply list.Forall_forall. intros i. apply Hin. }
  exists pieces. split; [done|]. split; [|split; [|split; [done|split; [|done]]]].
  - eapply sublist_NoDup; [|exact Hsub]. apply NoDup_fmap; [apply _|]. apply NoDup_seq.
  - apply list.Forall_forall. intros pc Hpc. apply Hin. eapply elem_of_sublist; [|exact Hsub]. by apply list_elem_of_fmap_2.
  - intros p Hp. destruct (serves_exists _ _ _ _ _ _ p Hpre Hp) as (i & Hi & Hs).
    destruct (proj1 (list_elem_of_fmap _ _ _) (Hall i p (proj2 (Hin i) Hi) Hp Hs)) as (pc & -> & Hpc).
    apply list.Exists_exists. exists pc. split; [done|]. rewrite list.Forall_forall in Hok. by apply (Hok pc Hpc).
Qed.

(** C28: the static partition of a region has at least one piece, each for a
    different server; a piece is a region that consists of the points of the
    region in the slab of its server, its sub-offset is relative to the region,
    every point of the region lies in exactly one piece, and for a write the
    buffer of a piece holds the bytes of its points. *)
Theorem static_region_partition_spec N n unit dims off size buf acc set_output_buf :
  partition_pre N n unit dims off size → vol size * unit ≤ lenZ buf < W64 →
  ∃ pieces, static_region_partition N buf n unit acc dims off size set_output_buf = Some pieces ∧
    NoDup (sp_server <$> pieces) ∧ pieces ≠ [] ∧
    (∀ pc, pc ∈ pieces → 0 ≤ sp_server pc < N ∧ wf_region n (sp_output_offset pc) (sp_output_size pc) ∧
       sp_sub_offset pc = psub (sp_output_offset pc) off ∧
       ∀ p, in_region (sp_output_offset pc) (sp_output_size pc) p ↔ in_region off size p ∧ serves N n dims (sp_server pc) p) ∧
    (∀ p, in_region off size p → exists! pc, pc ∈ pieces ∧ in_region (sp_output_offset pc) (sp_output_size pc) p) ∧
    (set_output_buf = true → acc = PDC_WRITE → Forall (piece_bytes unit off size buf) pieces).
Proof.
  intros Hpre Hbuf. destruct (partition_runs _ _ _ _ _ _ buf acc set_output_buf Hpre Hbuf) as (pieces & Hrun & Hnd & Hsrv & Hok & Hcov & Hbytes).
  exists pieces. rewrite list.Forall_forall in Hok, Hsrv. split; [done|]. split; [done|]. split; [|split; [|split; [|done]]].
  - intros ->. pose proof (corner_in_region _ _ _ (pp_wf _ _ _ _ _ _ Hpre)) as Hc. by apply Hcov, Exists_nil in Hc.
  - intros pc Hpc. split; [by apply Hsrv|]. destruct (Hok pc Hpc). auto.
  - intros p Hp. destruct (proj1 (list.Exists_exists _ _) (Hcov p Hp)) as (pc & Hpc & Hin). exists pc. split; [done|].
    intros pc' [Hpc' Hin']. apply (po_points _ _ _ _ _ (Hok _ Hpc)) in Hin as [_ Hs]. apply (po_points _ _ _ _ _ (Hok _ Hpc')) in Hin' as [_ Hs'].
    pose proof (serves_unique _ _ _ _ _ _ p _ _ Hpre (Hsrv _ Hpc) (Hsrv _ Hpc') Hs Hs') as E.
    apply list_elem_of_lookup in Hpc as (i & Hi), Hpc' as (j & Hj).
    pose proof (key_lookup_inj sp_server pieces i j pc pc' Hnd Hi Hj E) as ->. congruence.
Qed.

(** C29: assembling the pieces: when the data received for every piece of a
    region holds the bytes of some content at its points, the buffer the wait
    functions assemble holds the bytes of the content at every point of the
    region.  Together with the pieces of a write, this gives the region back. *)
Theorem gather_assembles N n unit dims off size buf acc pieces datas new_buf content :
  partition_pre N n unit dims off size → vol size * unit ≤ lenZ buf < W64 → vol size * unit ≤ lenZ new_buf < W64 →
  static_region_partition N buf n unit acc dims off size true = Some pieces →
  Forall2 (piece_data unit content) pieces datas →
  ∃ nb, gather_pieces n unit PDC_READ size (zip_with with_data pieces datas) new_buf = Some nb ∧ lenZ nb = lenZ new_buf ∧
    ∀ p i, in_region off size p → 0 ≤ i < unit → reg_get unit off size nb p i = content p i.
Proof.
  intros Hpre Hbuf Hnb Hrun Hd. destruct (partition_runs _ _ _ _ _ _ buf acc true Hpre Hbuf) as (pieces' & Hrun' & _ & _ & Hok & Hcov & _).
  rewrite Hrun in Hrun'. injection Hrun' as <-. pose proof Hpre as [HN Hn Hu Hwf _ _].
  destruct (gather_pieces_spec n unit off size PDC_READ content Hn Hu Hwf ltac:(done) _ pieces datas Hok Hd new_buf Hnb) as (nb & ? & ? & Hg).
  exists nb. split; [done|]. split; [done|]. intros p i Hp Hi. by rewrite Hg, decide_True by (done || by apply Hcov).
Qed.

(** * The properties at concrete inputs *)

(** Two servers, an object of shape 2 x 5, and its columns 1 to 3: server 0 has
    columns 0 and 1, server 1 the others. *)
Definition ex_buf : list byte := [11; 12; 13; 21; 22; 23].
Definition ex_pieces : list server_piece :=
  [ServerPiece 0 [0; 1] [2; 1] [0; 0] (Some [11; 21]); ServerPiece 1 [0; 2] [2; 2] [0; 1] (Some [12; 13; 22; 23])].

Lemma ex_partition_pre : partition_pre 2 2 1 [2; 5] [0; 1] [2; 3].
Proof.
  split; try (cbn; unfold W64; lia).
  - split; [done|done|]. repeat constructor; lia.
  - intros [|[|j]] Hj; [cbn; unfold W64; lia..|lia].
Qed.

Lemma static_region_partition_spec_witness :
  static_region_partition 2 ex_buf 2 1 PDC_WRITE [2; 5] [0; 1] [2; 3] true = Some ex_pieces ∧ NoDup (sp_server <$> ex_pieces).
Proof.
  assert (static_region_partition 2 ex_buf 2 1 PDC_WRITE [2; 5] [0; 1] [2; 3] true = Some ex_pieces) as E by (vm_compute; reflexivity).
  split; [exact E|].
  destruct (static_region_partition_spec 2 2 1 [2; 5] [0; 1] [2; 3] ex_buf PDC_WRITE true ex_partition_pre) as (pieces & Hrun & Hnd & _);
    [split; reflexivity || discriminate|]. rewrite E in Hrun. injection Hrun as <-. exact Hnd.
Defined.

Lemma gather_assembles_witness :
  ∃ nb, gather_pieces 2 1 PDC_READ [2; 3] (zip_with with_data ex_pieces [[11; 21]; [12; 13; 22; 23]]) [0; 0; 0; 0; 0; 0] = Some nb ∧
    reg_get 1 [0; 1] [2; 3] nb [1; 3] 0 = Some 23.
Proof.
  destruct (gather_assembles 2 2 1 [2; 5] [0; 1] [2; 3] ex_buf PDC_WRITE ex_pieces [[11; 21]; [12; 13; 22; 23]] [0; 0; 0; 0; 0; 0]
              (reg_get 1 [0; 1] [2; 3] ex_buf) ex_partition_pre) as (nb & Hrun & _ & Hg).
  - split; [discriminate|reflexivity].
  - split; [discriminate|reflexivity].
  - vm_compute. reflexivity.
  - assert (∀ x, 0 ≤ x < 2 → x = 0 ∨ x = 1) as H2 by (intros; lia).
    constructor; [|constructor; [|constructor]]; (split; [split; [discriminate|reflexivity]|]);
      intros [|x [|y [|]]] i Hp Hi; cbn in Hp; try tauto; destruct Hp as (Hx & Hy & _); assert (i = 0) as -> by lia.
    + assert (y = 1) as -> by lia. destruct (H2 x Hx) as [->| ->]; reflexivity.
    + assert (y = 2 ∨ y = 3) as [->| ->] by lia; destruct (H2 x Hx) as [->| ->]; reflexivity.
  - exists nb. split; [exact Hrun|]. rewrite Hg; [reflexivity| |split; reflexivity || discriminate].
    cbn. repeat split; discriminate || reflexivity.
Defined.
