(* ===== verification/Storage.v ===== *)
(** The storage engine of a data server: [PDC_Server_data_write_out] and
    [PDC_Server_data_read_from] of
    [src/src/server/pdc_server_region/pdc_server_data.c], which keep the data
    of an object in one file as a list of stored regions, and the object
    registry they use.  The abstract specification is a byte per point. *)

From stdpp Require Export gmap sorting.
From S2P Require Export RegionUtils.

(** [struct pdc_region_info], the fields the region code uses *)
Record pdc_region_info := RegionInfo {
  ri_ndim : nat;
  ri_offset : list Z;
  ri_size : list Z;
  ri_buf : list byte;
  ri_unit : Z }.

(** [region_list_t], the fields of a stored region *)
Record region_list_t := RegionList {
  rl_ndim : nat;
  rl_start : list Z;
  rl_count : list Z;
  rl_unit_size : Z;
  rl_offset : Z;       (* position in the file *)
  rl_data_size : Z }.

(** [data_server_region_t].  The file descriptor is -1 before the first
    [open], -2 when it was closed, and non-negative while it is open. *)
Record data_server_region_t := DataServerRegion {
  dsr_obj_id : Z;
  dsr_fd : Z;
  dsr_close_flag : Z;
  dsr_storage : list region_list_t }.

(** The server's registry [dataserver_region_g] and the files: the path is a
    function of the object ID ([fill_storage_path]), so files are named by it. *)
Record data_server := DataServer {
  ds_regions : list data_server_region_t;
  ds_files : gmap Z (list byte) }.

(** * POSIX file operations *)

Section Posix.
(** The largest size the file system lets a file have, and the descriptor
    number [open] hands out. *)
Context (file_limit : Z).

(** [write(fd, buf, n)] at position [pos]: as many bytes as there is room for
    are written; the result is their number, or -1 if there is room for none.
    A gap between the end of the file and [pos] reads as zeros. *)
Definition os_write (file : list byte) (pos : Z) (d : list byte) : Z * list byte :=
  let m := Z.min (lenZ d) (file_limit - pos) in
  if decide (lenZ d = 0) then (0, file)
  else if decide (m ≤ 0) then (-1, file)
  else
    let file := file ++ replicate (Z.to_nat (pos - lenZ file)) 0 in
    (m, take (Z.to_nat pos) file ++ take (Z.to_nat m) d ++ drop (Z.to_nat (pos + m)) file).

(** [pread(fd, dst + doff, n, pos)]: the bytes available, at most [n]. *)
Definition os_pread (file : list byte) (pos n : Z) : list byte :=
  take (Z.to_nat n) (drop (Z.to_nat pos) file).

Definition max_write_size : Z := 1073741824.

(** The loop and the last [write] of [PDC_Server_posix_write]; [fuel] bounds the
    iterations (see [posix_fuel]). *)
Fixpoint posix_write_loop (fuel : nat) (file : list byte) (pos : Z) (buf : list byte) (boff write_size : Z)
    : option (perr_t * list byte) :=
  match fuel with
  | O => None
  | S fuel =>
    if decide (write_size > max_write_size) then
      d ← mem_read buf boff max_write_size;
      let '(ret, file) := os_write file pos d in
      if decide (ret < 0 ∨ ret ≠ max_write_size) then Some (FAIL, file)
      else posix_write_loop fuel file (pos + ret) buf (boff + max_write_size) (write_size - max_write_size)
    else
      d ← mem_read buf boff write_size;
      let '(ret, file) := os_write file pos d in
      if decide (ret < 0 ∨ ret ≠ write_size) then Some (FAIL, file) else Some (SUCCEED, file)
  end.

Definition posix_fuel (write_size : Z) : nat := S (Z.to_nat (write_size / max_write_size)).

(** [lseek(fd, pos, SEEK_SET); PDC_Server_posix_write(fd, buf + boff, write_size)] *)
Definition PDC_Server_posix_write (file : list byte) (pos : Z) (buf : list byte) (boff write_size : Z)
    : option (perr_t * list byte) :=
  posix_write_loop (posix_fuel write_size) file pos buf boff write_size.

(** The read loop of the data sieving branch: at most [read_max] bytes per
    [pread] into [tmp_buf]. *)
Definition read_max : Z := 1073741824.

Fixpoint pread_loop (fuel : nat) (file tmp_buf : list byte) (buf_off reg_off leftover read_size : Z)
    : option (list byte) :=
  match fuel with
  | O => None
  | S fuel =>
    if decide (leftover > 0) then
      tmp_buf ← mem_write tmp_buf buf_off (os_pread file reg_off read_size);
      let leftover := leftover - read_size in
      pread_loop fuel file tmp_buf (buf_off + read_size) (reg_off + read_size) leftover
        (if decide (leftover < read_size) then leftover else read_size)
    else Some tmp_buf
  end.

Definition pread_fuel (size : Z) : nat := S (S (Z.to_nat (size / read_max))).
End Posix.

(** * Writing a region *)

Section WriteOut.
Context (file_limit : Z).
(** [data_sieving_g] (1 unless PDC_DATA_SIEVING says otherwise) and the content
    [malloc] leaves in a fresh block. *)
Context (data_sieving_g : bool) (junk : byte).

(** [unit * size[0] * size[1] * size[2]], as far as there are dimensions. *)
Definition region_write_size (ndim : nat) (unit : Z) (size : list Z) : Z :=
  let w := if decide (1 ≤ ndim)%nat then unit *w arr size 0 else 0 in
  let w := if decide (2 ≤ ndim)%nat then w *w arr size 1 else w in
  if decide (3 ≤ ndim)%nat then w *w arr size 2 else w.

#[local] Abbreviation posix_write := (PDC_Server_posix_write file_limit).

(** A loop of row writes in which a failed row ends the loop, and one in which
    the code does not look at the result. *)
Definition write_row_checked (w : list byte → option (perr_t * list byte))
    (st : perr_t * list byte) : option (perr_t * list byte) :=
  if decide (st.1 ≠ SUCCEED) then Some st else w st.2.

Definition write_row_unchecked (w : list byte → option (perr_t * list byte))
    (st : perr_t * list byte) : option (perr_t * list byte) := w st.2.

(** The part of the request that overlaps one stored region, written into the
    file; the result code is what the code checks before the next region. *)
Section WriteOverlap.
Context (req : pdc_region_info) (buf : list byte) (unit write_size : Z).
Context (r : region_list_t) (oo os : list Z).

Definition write_overlap_1d (file : list byte) : option (perr_t * list byte) :=
  let pos := (arr oo 0 -w arr (rl_start r) 0) *w unit in
  if decide (pos > write_size) then Some (-1, file)
  else posix_write file (rl_offset r +w pos) buf
         ((arr oo 0 -w arr (ri_offset req) 0) *w unit) (arr os 0 *w unit).

Definition write_overlap_sieving (file : list byte) : option (perr_t * list byte) :=
  tmp_buf ← mem_write (malloc junk (rl_data_size r)) 0 (os_pread file (rl_offset r) (rl_data_size r));
  tmp_buf ← memcpy_overlap_subregion (ri_ndim req) unit buf (ri_offset req) (ri_size req)
              tmp_buf (rl_start r) (rl_count r) oo os;
  posix_write file (rl_offset r) tmp_buf 0 (rl_data_size r).

Definition write_overlap_2d (file : list byte) : option (perr_t * list byte) :=
  if decide (arr oo 1 = arr (rl_start r) 1 ∧ arr os 1 = arr (rl_count r) 1) then
    let pos := rl_offset r +w (arr oo 0 -w arr (rl_start r) 0) *w arr (rl_count r) 1 *w unit in
    if decide (arr oo 1 = arr (ri_offset req) 1 ∧ arr os 1 = arr (ri_size req) 1) then
      posix_write file pos buf ((arr oo 0 -w arr (ri_offset req) 0) *w arr (ri_size req) 1 *w unit)
        (arr os 0 *w arr os 1 *w unit)
    else
      tmp_buf ← memcpy_overlap_subregion (ri_ndim req) unit buf (ri_offset req) (ri_size req)
                  (malloc junk (arr os 0 *w arr os 1 *w unit)) oo os oo os;
      posix_write file pos tmp_buf 0 (arr os 0 *w arr os 1 *w unit)
  else
    forZ (Z.to_nat (arr os 0)) 0 (λ i, write_row_checked (λ file,
      posix_write file
        (rl_offset r +w ((arr oo 0 -w arr (rl_start r) 0 +w i) *w arr (rl_count r) 1
                         +w arr oo 1 -w arr (rl_start r) 1) *w unit)
        buf (((arr oo 0 -w arr (ri_offset req) 0 +w i) *w arr (ri_size req) 1
              +w arr oo 1 -w arr (ri_offset req) 1) *w unit)
        (arr os 1 *w unit))) (SUCCEED, file).

Definition write_overlap_3d (file : list byte) : option (perr_t * list byte) :=
  if decide (arr oo 2 = arr (rl_start r) 2 ∧ arr os 2 = arr (rl_count r) 2 ∧
             arr oo 1 = arr (rl_start r) 1 ∧ arr os 1 = arr (rl_count r) 1) then
    let pos := rl_offset r +w
      (arr oo 0 -w arr (rl_start r) 0) *w arr (rl_count r) 1 *w arr (rl_count r) 2 *w unit in
    let size := arr os 0 *w arr os 1 *w arr os 2 *w unit in
    if decide (arr oo 2 = arr (ri_offset req) 2 ∧ arr os 2 = arr (ri_size req) 2 ∧
               arr oo 1 = arr (ri_offset req) 1 ∧ arr os 1 = arr (ri_size req) 1) then
      posix_write file pos buf
        ((arr oo 0 -w arr (ri_offset req) 0) *w arr (ri_size req) 1 *w arr (ri_size req) 2 *w unit) size
    else
      tmp_buf ← memcpy_overlap_subregion (ri_ndim req) unit buf (ri_offset req) (ri_size req)
                  (malloc junk size) oo os oo os;
      posix_write file pos tmp_buf 0 size
  else
    forZ (Z.to_nat (arr os 0)) 0 (λ i, forZ (Z.to_nat (arr os 1)) 0 (λ j, write_row_unchecked (λ file,
      posix_write file
        (rl_offset r +w (((arr oo 0 -w arr (rl_start r) 0 +w i) *w arr (rl_count r) 1 +w
                          (arr oo 1 -w arr (rl_start r) 1 +w j)) *w arr (rl_count r) 2
                         +w arr oo 2 -w arr (rl_start r) 2) *w unit)
        buf ((((arr oo 0 -w arr (ri_offset req) 0 +w i) *w arr (ri_size req) 1 +w
               (arr oo 1 -w arr (ri_offset req) 1 +w j)) *w arr (ri_size req) 2
              +w arr oo 2 -w arr (ri_offset req) 2) *w unit)
        (arr os 2 *w unit)))) (SUCCEED, file).

Definition write_overlap (file : list byte) : option (perr_t * list byte) :=
  if decide (ri_ndim req = 1%nat) then write_overlap_1d file
  else if data_sieving_g then write_overlap_sieving file
  else if decide (ri_ndim req = 2%nat) then write_overlap_2d file
  else write_overlap_3d file.

(** Whether a failure ends the loop over the stored regions: the code for three
    dimensions without data sieving does not look at [ret_value]. *)
Definition checks_ret : bool :=
  bool_decide (ri_ndim req = 1%nat) || data_sieving_g || bool_decide (ri_ndim req = 2%nat).
End WriteOverlap.

(** The loop over the stored regions ([DL_FOREACH]): the result says whether a
    failure left it, then [ret_value], the file and [is_contained]. *)
Fixpoint write_overlaps (req : pdc_region_info) (buf : list byte) (unit write_size : Z)
    (regs : list region_list_t) (ret_value : perr_t) (file : list byte) (is_contained : bool)
    : option (bool * perr_t * list byte * bool) :=
  match regs with
  | [] => Some (false, ret_value, file, is_contained)
  | r :: regs =>
    match PDC_region_overlap_detect (ri_ndim req) (ri_offset req) (ri_size req) (rl_start r) (rl_count r) with
    | None => write_overlaps req buf unit write_size regs ret_value file is_contained
    | Some (oo, os) =>
        let is_contained := is_contained ||
          detect_region_contained (ri_offset req) (ri_size req) (rl_start r) (rl_count r) (ri_ndim req) in
        '(ret_value, file) ← write_overlap req buf unit write_size r oo os file;
        if checks_ret req && bool_decide (ret_value ≠ SUCCEED) then Some (true, ret_value, file, is_contained)
        else write_overlaps req buf unit write_size regs ret_value file is_contained
    end
  end.

(** [PDC_Server_data_write_out] once the object's entry and file are at hand:
    the overwrite loop, then the append at the end of the file.  The first
    component tells that the function left through [goto done], without closing
    the file. *)
Definition write_out_file (req : pdc_region_info) (buf : list byte) (unit : Z)
    (regs : list region_list_t) (file : list byte)
    : option (bool * perr_t * list region_list_t * list byte) :=
  let write_size := region_write_size (ri_ndim req) unit (ri_size req) in
  '(failed, ret_value, file, is_contained) ← write_overlaps req buf unit write_size regs SUCCEED file false;
  if failed : bool then Some (true, ret_value, regs, file)
  else if is_contained : bool then Some (false, ret_value, regs, file)
  else
    let offset := lenZ file in
    '(ret_value, file) ← posix_write file offset buf 0 write_size;
    if decide (ret_value ≠ SUCCEED) then Some (true, FAIL, regs, file)
    else Some (false, ret_value,
               regs ++ [RegionList (ri_ndim req) (ri_offset req) (ri_size req) unit offset write_size], file).
End WriteOut.

(** * The registry of the objects' files *)

(** [PDC_Server_get_obj_region]: the position of the entry; the loop has no
    [break], so the last entry with the ID wins. *)
Fixpoint get_obj_region_from (i : nat) (l : list data_server_region_t) (obj_id : Z) (ret : option nat) : option nat :=
  match l with
  | [] => ret
  | e :: l => get_obj_region_from (S i) l obj_id (if decide (dsr_obj_id e = obj_id) then Some i else ret)
  end.
Definition PDC_Server_get_obj_region (ds : data_server) (obj_id : Z) : option nat :=
  get_obj_region_from 0 (ds_regions ds) obj_id None.

(** [open(path, O_RDWR | O_CREAT)]: the file exists afterwards. *)
Definition os_open (ds : data_server) (obj_id : Z) : gmap Z (list byte) :=
  match ds_files ds !! obj_id with
  | Some _ => ds_files ds
  | None => <[obj_id := []]> (ds_files ds)
  end.

Section Registry.
(** What [open] returns: a descriptor, or a negative number when it fails. *)
Context (open_fd : Z).

(** The result is the new value of the pointer argument. *)
Definition PDC_Server_register_obj_region_by_pointer (ds : data_server) (ptr : option nat)
    (obj_id close_flag : Z) : data_server * option nat :=
  match ptr with
  | None =>
      if decide (open_fd < 0) then (ds, None)
      else (DataServer (ds_regions ds ++ [DataServerRegion obj_id open_fd close_flag []]) (os_open ds obj_id),
            Some (length (ds_regions ds)))
  | Some i =>
      match ds_regions ds !! i with
      | Some e =>
          if decide (dsr_fd e < 0)
          then (DataServer (<[i := DataServerRegion (dsr_obj_id e) open_fd close_flag (dsr_storage e)]> (ds_regions ds))
                           (if decide (open_fd < 0) then ds_files ds else os_open ds obj_id), Some i)
          else (ds, Some i)
      | None => (ds, Some i)
      end
  end.

Definition PDC_Server_unregister_obj_region_by_pointer (ds : data_server) (i : nat) (close_flag : Z) : data_server :=
  match ds_regions ds !! i with
  | Some e =>
      if decide (dsr_close_flag e = close_flag)
      then DataServer (<[i := DataServerRegion (dsr_obj_id e) (-2) (dsr_close_flag e) (dsr_storage e)]> (ds_regions ds))
                      (ds_files ds)
      else ds
  | None => ds
  end.
End Registry.

(** * Reading a region *)

Section ReadFrom.
Context (data_sieving_g : bool) (junk : byte).

(** [pread] of [n] bytes at [pos] into [buf + boff]; a short read is logged and
    leaves the rest of the destination as it was. *)
Definition pread_to (buf : list byte) (boff : Z) (file : list byte) (pos n : Z) : option (list byte) :=
  mem_write buf boff (os_pread file pos n).

Section ReadOverlap.
Context (req : pdc_region_info) (file : list byte) (unit : Z).
Context (r : region_list_t) (oo os : list Z).

Definition read_overlap_1d (buf : list byte) : option (list byte) :=
  pread_to buf ((arr oo 0 -w arr (ri_offset req) 0) *w unit) file
    (rl_offset r +w (arr oo 0 -w arr (rl_start r) 0) *w unit) (arr os 0 *w unit).

Definition read_overlap_sieving (buf : list byte) : option (list byte) :=
  let tmp_buf := malloc junk (rl_data_size r) in
  tmp_buf ←
    (if decide (rl_data_size r > read_max)
     then pread_loop (pread_fuel (rl_data_size r)) file tmp_buf 0 (rl_offset r) (rl_data_size r) read_max
     else pread_to tmp_buf 0 file (rl_offset r) (rl_data_size r));
  memcpy_overlap_subregion (ri_ndim req) unit tmp_buf (rl_start r) (rl_count r)
    buf (ri_offset req) (ri_size req) oo os.

Definition read_overlap_2d (buf : list byte) : option (list byte) :=
  if decide (arr oo 1 = arr (rl_start r) 1 ∧ arr os 1 = arr (rl_count r) 1) then
    let pos := (arr oo 0 -w arr (rl_start r) 0) *w arr (rl_count r) 1 *w unit in
    if decide (arr oo 1 = arr (ri_offset req) 1 ∧ arr os 1 = arr (ri_size req) 1) then
      pread_to buf ((arr oo 0 -w arr (ri_offset req) 0) *w arr (ri_size req) 1 *w unit)
        file (rl_offset r +w pos) (arr os 0 *w arr os 1 *w unit)
    else
      tmp_buf ← pread_to (malloc junk (arr os 0 *w arr os 1 *w unit)) 0
                  file (rl_offset r +w pos) (arr os 0 *w arr os 1 *w unit);
      memcpy_overlap_subregion (ri_ndim req) unit tmp_buf oo os buf (ri_offset req) (ri_size req) oo os
  else
    forZ (Z.to_nat (arr os 0)) 0 (λ i buf,
      let pos := ((arr oo 0 -w arr (rl_start r) 0 +w i) *w arr (rl_count r) 1
                  +w arr oo 1 -w arr (rl_start r) 1) *w unit in
      pread_to buf (((arr oo 0 -w arr (ri_offset req) 0 +w i) *w arr (ri_size req) 1
                     +w arr oo 1 -w arr (ri_offset req) 1) *w unit)
        file (rl_offset r +w pos) (arr os 1 *w unit)) buf.

Definition read_overlap_3d (buf : list byte) : option (list byte) :=
  if decide (arr oo 2 = arr (rl_start r) 2 ∧ arr os 2 = arr (rl_count r) 2 ∧
             arr oo 1 = arr (rl_start r) 1 ∧ arr os 1 = arr (rl_count r) 1) then
    let pos := (arr oo 0 -w arr (rl_start r) 0) *w arr (rl_count r) 1 *w arr (rl_count r) 2 *w unit in
    let size := arr os 0 *w arr os 1 *w arr os 2 *w unit in
    if decide (arr oo 2 = arr (ri_offset req) 2 ∧ arr os 2 = arr (ri_size req) 2 ∧
               arr oo 1 = arr (ri_offset req) 1 ∧ arr os 1 = arr (ri_size req) 1) then
      pread_to buf
        ((arr oo 0 -w arr (ri_offset req) 0) *w arr (ri_size req) 1 *w arr (ri_size req) 2 *w unit)
        file (rl_offset r +w pos) size
    else
      tmp_buf ← pread_to (malloc junk size) 0 file (rl_offset r +w pos) size;
      memcpy_overlap_subregion (ri_ndim req) unit tmp_buf oo os buf (ri_offset req) (ri_size req) oo os
  else
    forZ (Z.to_nat (arr os 0)) 0 (λ i, forZ (Z.to_nat (arr os 1)) 0 (λ j buf,
      let pos := (((arr oo 0 -w arr (rl_start r) 0 +w i) *w arr (rl_count r) 1 +w
                   (arr oo 1 -w arr (rl_start r) 1 +w j)) *w arr (rl_count r) 2
                  +w arr oo 2 -w arr (rl_start r) 2) *w unit in
      pread_to buf ((((arr oo 0 -w arr (ri_offset req) 0 +w i) *w arr (ri_size req) 1 +w
                      (arr oo 1 -w arr (ri_offset req) 1 +w j)) *w arr (ri_size req) 2
                     +w arr oo 2 -w arr (ri_offset req) 2) *w unit)
        file (rl_offset r +w pos) (arr os 2 *w unit))) buf.

Definition read_overlap (buf : list byte) : option (list byte) :=
  if decide (ri_ndim req = 1%nat) then read_overlap_1d buf
  else if data_sieving_g then read_overlap_sieving buf
  else if decide (ri_ndim req = 2%nat) then read_overlap_2d buf
  else read_overlap_3d buf.
End ReadOverlap.

Fixpoint read_overlaps (req : pdc_region_info) (file : list byte) (unit : Z)
    (regs : list region_list_t) (buf : list byte) : option (list byte) :=
  match regs with
  | [] => Some buf
  | r :: regs =>
    match PDC_region_overlap_detect (ri_ndim req) (ri_offset req) (ri_size req) (rl_start r) (rl_count r) with
    | None => read_overlaps req file unit regs buf
    | Some (oo, os) => buf ← read_overlap req file unit r oo os buf; read_overlaps req file unit regs buf
    end
  end.
End ReadFrom.

(** * The two entry points *)

(** Both dereference the pointer the registration leaves (a NULL one is [None]
    here, and so is I/O through the negative descriptor of a failed [open]). *)

Section EntryPoints.
Context (file_limit : Z) (data_sieving_g : bool) (junk : byte) (open_fd : Z).

Definition PDC_Server_data_write_out (ds : data_server) (obj_id : Z) (region_info : pdc_region_info)
    (buf : list byte) (unit : Z) : option (perr_t * data_server) :=
  let '(ds, region) := PDC_Server_register_obj_region_by_pointer open_fd ds
                         (PDC_Server_get_obj_region ds obj_id) obj_id 0 in
  i ← region;
  region ← ds_regions ds !! i;
  guard (0 ≤ dsr_fd region);;
  file ← ds_files ds !! obj_id;
  '(failed, ret_value, regs, file) ←
    write_out_file file_limit data_sieving_g junk region_info buf unit (dsr_storage region) file;
  let ds := DataServer
    (<[i := DataServerRegion (dsr_obj_id region) (dsr_fd region) (dsr_close_flag region) regs]> (ds_regions ds))
    (<[obj_id := file]> (ds_files ds)) in
  Some (ret_value, if failed : bool then ds else PDC_Server_unregister_obj_region_by_pointer ds i 0).

Definition PDC_Server_data_read_from (ds : data_server) (obj_id : Z) (region_info : pdc_region_info)
    (buf : list byte) (unit : Z) : option (perr_t * list byte * data_server) :=
  let '(ds, region) := PDC_Server_register_obj_region_by_pointer open_fd ds
                         (PDC_Server_get_obj_region ds obj_id) obj_id 0 in
  i ← region;
  region ← ds_regions ds !! i;
  guard (0 ≤ dsr_fd region);;
  file ← ds_files ds !! obj_id;
  buf ← read_overlaps data_sieving_g junk region_info file unit (dsr_storage region) buf;
  Some (SUCCEED, buf, PDC_Server_unregister_obj_region_by_pointer ds i 0).
End EntryPoints.


(** * File lemmas *)

(** [spliced pos n get file file']: [file'] is [file] with the bytes of
    [pos, pos + n) given by [get]; it grows when they lie beyond its end. *)
Definition spliced (pos n : Z) (get : Z → option byte) (file file' : list byte) : Prop :=
  lenZ file' = Z.max (lenZ file) (pos + n) ∧
  ∀ k, getZ file' k = if decide (pos ≤ k < pos + n) then get k else getZ file k.

Lemma lenZ_take (d : list byte) n : 0 ≤ n ≤ lenZ d → lenZ (take (Z.to_nat n) d) = n.
Proof. unfold lenZ. rewrite length_take. lia. Qed.
Lemma lenZ_drop (d : list byte) n : 0 ≤ n → lenZ (drop (Z.to_nat n) d) = Z.max 0 (lenZ d - n).
Proof. unfold lenZ. rewrite length_drop. lia. Qed.

Lemma getZ_take (d : list byte) n k : 0 ≤ n → getZ (take (Z.to_nat n) d) k = if decide (k < n) then getZ d k else None.
Proof.
  intros. unfold getZ. repeat case_decide; try done; try lia.
  - by rewrite lookup_take_lt by lia.
  - apply lookup_take_ge. lia.
Qed.
Lemma getZ_drop (d : list byte) n k : 0 ≤ n → 0 ≤ k → getZ (drop (Z.to_nat n) d) k = getZ d (n + k).
Proof. intros. unfold getZ. rewrite !decide_True, lookup_drop by lia. f_equal. lia. Qed.
Lemma getZ_app (d e : list byte) k :
  getZ (d ++ e) k = if decide (k < lenZ d) then getZ d k else getZ e (k - lenZ d).
Proof.
  unfold getZ, lenZ. repeat case_decide; try done; try lia.
  - by rewrite lookup_app_l by lia.
  - rewrite lookup_app_r by lia. f_equal. lia.
Qed.

Lemma os_write_spec file_limit file pos d :
  0 ≤ pos ≤ lenZ file → pos + lenZ d ≤ file_limit →
  ∃ file', os_write file_limit file pos d = (lenZ d, file') ∧
           spliced pos (lenZ d) (λ k, getZ d (k - pos)) file file'.
Proof.
  intros Hpos Hlim. unfold os_write. pose proof (lenZ_nonneg d).
  destruct (decide (lenZ d = 0)) as [E|E].
  { exists file. rewrite E. split; [done|]. split; [lia|]. intros k. rewrite decide_False by lia. done. }
  rewrite Z.min_l by lia. rewrite decide_False by lia.
  replace (Z.to_nat (pos - lenZ file)) with 0%nat by lia. simpl. rewrite app_nil_r.
  eexists. split; [done|]. split.
  - rewrite !lenZ_app, !lenZ_take, lenZ_drop by lia. lia.
  - intros k. rewrite !getZ_app, !lenZ_take, !getZ_take by lia. repeat case_decide; try done; try lia.
    + rewrite getZ_drop by lia. f_equal. lia.
Qed.

Lemma posix_write_loop_spec file_limit fuel file pos buf boff n :
  0 ≤ pos ≤ lenZ file → 0 ≤ boff → 0 ≤ n → boff + n ≤ lenZ buf → pos + n ≤ file_limit →
  n / max_write_size < Z.of_nat fuel →
  ∃ file', posix_write_loop file_limit fuel file pos buf boff n = Some (SUCCEED, file') ∧
           spliced pos n (λ k, getZ buf (boff + (k - pos))) file file'.
Proof.
  revert file pos boff n. induction fuel as [|fuel IH]; intros file pos boff n Hpos Hboff Hn Hb Hlim Hf.
  { assert (0 ≤ n / max_write_size) by by apply Z.div_pos. lia. }
  assert (0 < max_write_size) as Hmax by done. simpl. case_decide as Hc.
  - destruct (mem_read_Some buf boff max_write_size) as (d & -> & Hld & Hgd); [lia..|]. simpl.
    destruct (os_write_spec file_limit file pos d) as (file1 & -> & Hl1 & Hg1); [lia..|].
    rewrite Hld in *. rewrite decide_False by lia.
    destruct (IH file1 (pos + max_write_size) (boff + max_write_size) (n - max_write_size))
      as (file2 & -> & Hl2 & Hg2); [lia..| |].
    { replace (n - max_write_size) with (n + (-1) * max_write_size) by ring. rewrite Z.div_add by lia. lia. }
    exists file2. split; [done|]. split; [lia|]. intros k. rewrite Hg2, Hg1.
    repeat case_decide; try done; try lia; [f_equal; lia|]. rewrite Hgd by lia. done.
  - destruct (mem_read_Some buf boff n) as (d & -> & Hld & Hgd); [lia..|]. simpl.
    destruct (os_write_spec file_limit file pos d) as (file1 & -> & Hl1 & Hg1); [lia..|].
    rewrite Hld in *. rewrite decide_False by lia. exists file1. split; [done|]. split; [lia|].
    intros k. rewrite Hg1. case_decide; [|done]. by rewrite Hgd by lia.
Qed.

Lemma posix_write_spec file_limit file pos buf boff n :
  0 ≤ pos ≤ lenZ file → 0 ≤ boff → 0 ≤ n → boff + n ≤ lenZ buf → pos + n ≤ file_limit →
  ∃ file', PDC_Server_posix_write file_limit file pos buf boff n = Some (SUCCEED, file') ∧
           spliced pos n (λ k, getZ buf (boff + (k - pos))) file file'.
Proof.
  intros. apply posix_write_loop_spec; try done. unfold posix_fuel.
  assert (0 ≤ n / max_write_size) by by apply Z.div_pos. lia.
Qed.

(** A write that does not fit the file system's limit fails; the bytes that
    were in the file stay. *)
Lemma posix_write_loop_full file_limit fuel file pos buf boff n :
  pos = lenZ file → pos ≤ file_limit → 0 ≤ boff → 0 ≤ n → boff + n ≤ lenZ buf → file_limit < pos + n →
  n / max_write_size < Z.of_nat fuel →
  ∃ file', posix_write_loop file_limit fuel file pos buf boff n = Some (FAIL, file') ∧
    lenZ file ≤ lenZ file' ≤ file_limit ∧ ∀ k, k < lenZ file → getZ file' k = getZ file k.
Proof.
  revert file pos boff n. induction fuel as [|fuel IH]; intros file pos boff n Hpos Hl Hboff Hn Hb Hlim Hf.
  { assert (0 ≤ n / max_write_size) by by apply Z.div_pos. lia. }
  assert (0 < max_write_size) as Hmax by done. pose proof (lenZ_nonneg file).
  assert (∀ d m, lenZ d = m → 0 < m → file_limit < pos + m →
    ∃ file', os_write file_limit file pos d = (if decide (file_limit - pos ≤ 0) then -1 else file_limit - pos, file') ∧
      lenZ file ≤ lenZ file' ≤ file_limit ∧ ∀ k, k < lenZ file → getZ file' k = getZ file k) as Hshort.
  { intros d m Hd Hm Hsh. unfold os_write. rewrite Hd, decide_False, Z.min_r by lia.
    destruct (decide (file_limit - pos ≤ 0)); [exists file; split; [done|]; split; [lia|done]|].
    replace (Z.to_nat (pos - lenZ file)) with 0%nat by lia. simpl. rewrite app_nil_r.
    eexists. split; [done|]. split.
    - rewrite !lenZ_app, !lenZ_take, lenZ_drop by lia. lia.
    - intros k Hk. rewrite !getZ_app, !lenZ_take by lia. rewrite decide_True by lia. rewrite getZ_take by lia.
      by rewrite decide_True by lia. }
  simpl. destruct (decide (n > max_write_size)) as [Hc|Hc].
  - destruct (mem_read_Some buf boff max_write_size) as (d & -> & Hld & Hgd); [lia..|]. simpl.
    destruct (decide (pos + max_write_size ≤ file_limit)) as [Hfit|Hfit].
    + destruct (os_write_spec file_limit file pos d) as (file1 & -> & Hl1 & Hg1); [lia..|].
      rewrite Hld in *. rewrite decide_False by lia.
      destruct (IH file1 (pos + max_write_size) (boff + max_write_size) (n - max_write_size))
        as (file2 & -> & Hl2 & Hg2); [lia..| |].
      { replace (n - max_write_size) with (n + (-1) * max_write_size) by ring. rewrite Z.div_add by lia. lia. }
      exists file2. split; [done|]. split; [lia|]. intros k Hk. rewrite Hg2, Hg1 by lia.
      by rewrite decide_False by lia.
    + destruct (Hshort d max_write_size) as (file1 & -> & Hf1); [lia..|]. rewrite decide_True; [eauto|].
      destruct (decide (file_limit - pos ≤ 0)); lia.
  - destruct (mem_read_Some buf boff n) as (d & -> & Hld & Hgd); [lia..|]. simpl.
    destruct (Hshort d n) as (file1 & -> & Hf1); [lia..|]. rewrite decide_True; [eauto|].
    destruct (decide (file_limit - pos ≤ 0)); lia.
Qed.

Lemma posix_write_full file_limit file buf boff n :
  lenZ file ≤ file_limit → 0 ≤ boff → 0 ≤ n → boff + n ≤ lenZ buf → file_limit < lenZ file + n →
  ∃ file', PDC_Server_posix_write file_limit file (lenZ file) buf boff n = Some (FAIL, file') ∧
    lenZ file ≤ lenZ file' ≤ file_limit ∧ ∀ k, k < lenZ file → getZ file' k = getZ file k.
Proof.
  intros. apply posix_write_loop_full; try done. unfold posix_fuel.
  assert (0 ≤ n / max_write_size) by by apply Z.div_pos. lia.
Qed.

(** The read loop fetches the whole range, whatever the chunk size. *)
Lemma pread_loop_spec fuel file tmp_buf buf_off reg_off leftover read_size :
  0 ≤ buf_off → 0 ≤ reg_off → 0 ≤ leftover → 0 < read_size ∨ leftover = 0 →
  (read_size ≤ read_max ∧ (read_size = read_max ∨ read_size = leftover)) →
  buf_off + leftover ≤ lenZ tmp_buf → reg_off + leftover ≤ lenZ file → read_size ≤ leftover →
  (leftover + read_max - 1) / read_max < Z.of_nat fuel →
  ∃ tmp_buf', pread_loop fuel file tmp_buf buf_off reg_off leftover read_size = Some tmp_buf' ∧
    lenZ tmp_buf' = lenZ tmp_buf ∧
    ∀ k, getZ tmp_buf' k = if decide (buf_off ≤ k < buf_off + leftover)
                           then getZ file (reg_off + (k - buf_off)) else getZ tmp_buf k.
Proof.
  assert (0 < read_max) as Hmax by done.
  revert tmp_buf buf_off reg_off leftover read_size.
  induction fuel as [|fuel IH]; intros tmp bo ro lo rs Hbo Hro Hlo Hrs Hmx Hbuf Hfile Hle Hfuel.
  { assert (0 ≤ (lo + read_max - 1) / read_max) by (apply Z.div_pos; lia). lia. }
  simpl. case_decide as Hc.
  - destruct (mem_write_Some tmp bo (os_pread file ro rs)) as (tmp1 & -> & Hl1 & Hg1).
    { lia. }
    { unfold os_pread. rewrite lenZ_take by (rewrite lenZ_drop; lia). lia. }
    simpl. unfold os_pread in Hg1. rewrite lenZ_take in Hg1 by (rewrite lenZ_drop; lia).
    assert (lo = read_max + (lo - read_max)) as Hsplit by lia.
    edestruct (IH tmp1 (bo + rs) (ro + rs) (lo - rs) (if decide (lo - rs < rs) then lo - rs else rs))
      as (tmp2 & -> & Hl2 & Hg2); try lia.
    + case_decide; lia.
    + case_decide; lia.
    + case_decide; lia.
    + assert (rs = lo ∨ rs = read_max) as [->| ->] by lia.
      * rewrite Z.sub_diag, Z.div_small by lia.
        assert (1 ≤ (lo + read_max - 1) / read_max) by (apply Z.div_le_lower_bound; lia). lia.
      * replace (lo - read_max + read_max - 1) with (lo + read_max - 1 + (-1) * read_max) by ring.
        rewrite Z.div_add by lia. lia.
    + exists tmp2. split; [done|]. split; [lia|]. intros k. rewrite Hg2, Hg1.
      repeat case_decide; try done; try lia; try (f_equal; lia).
      rewrite getZ_take, getZ_drop by lia. by rewrite decide_True by lia.
  - exists tmp. split; [done|]. split; [done|]. intros k. rewrite decide_False by lia. done.
Qed.

Lemma mem_write_all (b d : list byte) : lenZ b = lenZ d → mem_write b 0 d = Some d.
Proof.
  intros Hl. pose proof (lenZ_nonneg d). destruct (mem_write_Some b 0 d) as (b' & -> & Hl' & Hg); [lia..|].
  f_equal. apply getZ_ext; [lia|]. intros k Hk. rewrite Hg, decide_True by lia. f_equal. lia.
Qed.

Lemma region_write_size_vol n unit size : (1 ≤ n ≤ 3)%nat → 0 < unit → length size = n → Forall (λ s, 0 < s) size → vol size * unit < W64 →
  region_write_size n unit size = vol size * unit.
Proof.
  intros Hn Hunit Hl Hpos Hv. unfold region_write_size, arr. apply dims_cases in Hn as [E|[E|E]]; rewrite E in *;
    dims3 Hl s0 s1 s2; repeat (case_decide; try lia); cbn in *; rewrite ?list.Forall_cons in Hpos;
    (apply u64_eq; [rewrite ?u64_eqm; unfold eqm; f_equal; ring|nia]).
Qed.

(** * The store of one object *)

Section Store.
Context (file_limit : Z) (data_sieving_g : bool) (junk : byte) (n : nat) (unit : Z).
Context (Hn : (1 ≤ n ≤ 3)%nat) (Hunit : 0 < unit) (Hlim : file_limit < W64).
Context (Hsieve : n = 1%nat ∨ data_sieving_g = true).

(** A stored region describes a segment of the file that holds its array. *)
Record wf_stored (file : list byte) (r : region_list_t) : Prop := {
  ws_region : wf_region n (rl_start r) (rl_count r);
  ws_size : rl_data_size r = vol (rl_count r) * unit;
  ws_segment : 0 ≤ rl_offset r ∧ rl_offset r + rl_data_size r ≤ lenZ file }.

(** The byte [b] of the element at [p] in the segment of a stored region. *)
Definition seg_get (file : list byte) (r : region_list_t) (p : list Z) (b : Z) : option byte :=
  getZ file (rl_offset r + (lin (rl_count r) (psub p (rl_start r)) * unit + b)).

Definition in_stored (p : list Z) (r : region_list_t) : Prop := in_region (rl_start r) (rl_count r) p.

Definition seg_before (r r' : region_list_t) : Prop := rl_offset r + rl_data_size r ≤ rl_offset r'.

(** The invariant: the segments are in file order and disjoint, and two stored
    regions that share a point agree on its bytes. *)
Record store_ok (regs : list region_list_t) (file : list byte) : Prop := {
  so_wf : Forall (wf_stored file) regs;
  so_sorted : StronglySorted seg_before regs;
  so_coherent : ∀ r r' p b, r ∈ regs → r' ∈ regs → in_stored p r → in_stored p r' → 0 ≤ b < unit →
                  seg_get file r p b = seg_get file r' p b;
  so_limit : lenZ file ≤ file_limit }.

(** The abstract state: the byte stored for a point, if any. *)
Definition content (regs : list region_list_t) (file : list byte) (p : list Z) (b : Z) : option byte :=
  match list_find (in_stored p) regs with
  | Some (_, r) => seg_get file r p b
  | None => None
  end.

Lemma content_Some regs file p b r : store_ok regs file → r ∈ regs → in_stored p r → 0 ≤ b < unit →
  content regs file p b = seg_get file r p b.
Proof.
  intros Hok Hr Hp Hb. unfold content. destruct (list_find _ _) as [[i r']|] eqn:Hf.
  - apply list_find_Some in Hf as (Hi & Hp' & _). apply list_elem_of_lookup_2 in Hi.
    by apply (so_coherent _ _ Hok).
  - apply list_find_None in Hf. rewrite list.Forall_forall in Hf. by destruct (Hf r).
Qed.

Lemma content_None regs file p b : (∀ r, r ∈ regs → ¬ in_stored p r) → content regs file p b = None.
Proof.
  intros H. unfold content. destruct (list_find _ _) as [[i r']|] eqn:Hf; [|done].
  apply list_find_Some in Hf as (Hi & Hp' & _). apply list_elem_of_lookup_2 in Hi. by destruct (H r').
Qed.

(** A request the code accepts: a region of the object's dimensions and a
    buffer holding it. *)
Record wf_req (req : pdc_region_info) (buf : list byte) : Prop := {
  wr_ndim : ri_ndim req = n;
  wr_region : wf_region n (ri_offset req) (ri_size req);
  wr_buf : vol (ri_size req) * unit ≤ lenZ buf < W64 }.

Definition in_req (req : pdc_region_info) (p : list Z) : Prop := in_region (ri_offset req) (ri_size req) p.
#[local] Instance in_req_dec req p : Decision (in_req req p).
Proof. apply in_region_dec. Defined.

Definition req_get (req : pdc_region_info) (buf : list byte) (p : list Z) (b : Z) : option byte :=
  reg_get unit (ri_offset req) (ri_size req) buf p b.


(** The segment of a stored region, seen as the buffer of the region. *)
Lemma segment_get file r : wf_stored file r →
  lenZ (os_pread file (rl_offset r) (rl_data_size r)) = rl_data_size r ∧
  ∀ p b, in_stored p r → 0 ≤ b < unit →
    reg_get unit (rl_start r) (rl_count r) (os_pread file (rl_offset r) (rl_data_size r)) p b = seg_get file r p b.
Proof.
  intros [Hwf Hsz Hseg]. pose proof (vol_pos _ (wf_region_sizes _ _ _ Hwf)). unfold os_pread. split.
  - apply lenZ_take. rewrite lenZ_drop; nia.
  - intros p b Hp Hb. pose proof (wf_region_lin _ _ _ _ _ Hp Hb). unfold reg_get, seg_get.
    rewrite getZ_take, getZ_drop, decide_True by lia. done.
Qed.

(** What rewriting one stored region does to the file. *)
Definition seg_updated (req : pdc_region_info) (buf : list byte) (r : region_list_t) (file file' : list byte) : Prop :=
  lenZ file' = lenZ file ∧
  (∀ k, ¬ (rl_offset r ≤ k < rl_offset r + rl_data_size r) → getZ file' k = getZ file k) ∧
  ∀ p b, in_stored p r → 0 ≤ b < unit →
    seg_get file' r p b = if decide (in_req req p) then req_get req buf p b else seg_get file r p b.

(** The check of the one-dimensional branch: the position of the overlap in the
    stored region must not exceed the size of the request. *)
Definition pos_ok (req : pdc_region_info) (r : region_list_t) : Prop :=
  n = 1%nat → ∀ oo os,
    PDC_region_overlap_detect n (ri_offset req) (ri_size req) (rl_start r) (rl_count r) = Some (oo, os) →
    (arr oo 0 - arr (rl_start r) 0) * unit ≤ vol (ri_size req) * unit.

Lemma pos_ok_multi req r : n ≠ 1%nat → pos_ok req r.
Proof. intros ? ?. done. Qed.

Lemma wf_stored_get file r p b : wf_stored file r → in_stored p r → 0 ≤ b < unit →
  0 ≤ lin (rl_count r) (psub p (rl_start r)) * unit + b < rl_data_size r.
Proof. intros Hr Hp Hb. rewrite (ws_size _ _ Hr). by apply wf_region_lin. Qed.

Lemma write_overlap_sieving_spec req buf r oo os file :
  wf_req req buf → wf_stored file r → lenZ file ≤ file_limit →
  PDC_region_overlap_detect n (ri_offset req) (ri_size req) (rl_start r) (rl_count r) = Some (oo, os) →
  ∃ file', write_overlap_sieving file_limit junk req buf unit r oo os file = Some (SUCCEED, file') ∧
           seg_updated req buf r file file'.
Proof.
  intros [Hnd Hreg Hbuf] Hr Hfile Hd. destruct (segment_get file r Hr) as [Hlseg Hseg].
  pose proof (vol_pos _ (wf_region_sizes _ _ _ (ws_region _ _ Hr))). pose proof (ws_size _ _ Hr).
  destruct (ws_segment _ _ Hr) as [Hoff Hend].
  unfold write_overlap_sieving. rewrite mem_write_all by (rewrite lenZ_malloc; nia). simpl.
  destruct (overlap_copy n unit (ri_offset req) (ri_size req) (rl_start r) (rl_count r) Hn Hunit Hreg
              (ws_region _ _ Hr) buf (os_pread file (rl_offset r) (rl_data_size r)) oo os)
    as (tmp & Hrun & Hltmp & Hget); [done|lia|done|].
  rewrite Hnd, Hrun. simpl.
  destruct (posix_write_spec file_limit file (rl_offset r) tmp 0 (rl_data_size r))
    as (file' & -> & Hl' & Hg'); [lia|lia|nia|lia|lia|].
  exists file'. split; [done|]. split; [lia|]. split.
  { intros k Hk. rewrite Hg'. by rewrite decide_False by lia. }
  intros p b Hp Hb. pose proof (wf_stored_get _ _ _ _ Hr Hp Hb).
  unfold seg_get at 1. rewrite Hg', decide_True by lia.
  trans (reg_get unit (rl_start r) (rl_count r) tmp p b); [unfold reg_get; f_equal; lia|].
  rewrite Hget, Hseg by done. unfold in_req, req_get. by repeat case_decide.
Qed.

(** The numbers of a one-dimensional overlap. *)
Ltac overlap_1d E1 Hreg Hr Hd req oo os r :=
  pose proof (overlap_detect_Some _ _ _ _ _ Hreg (ws_region _ _ Hr) _ _ Hd) as (Hlo & Hls & Hio);
  specialize (Hio 0%nat ltac:(lia)) as (Hio1 & Hio2 & Hio3); unfold inter_end, inter_off in *;
  destruct (region_1d _ _ _ E1 Hreg) as (Hq1 & Hq2 & Hq3 & Hq4 & Hq5 & Hql);
  destruct (region_1d _ _ _ E1 (ws_region _ _ Hr)) as (Hr1 & Hr2 & Hr3 & Hr4 & Hr5 & Hrl);
  pose proof (ws_size _ _ Hr) as Hsz; destruct (ws_segment _ _ Hr) as [Hoff Hend];
  rewrite Hq4, Hr4 in *;
  set (q0 := arr (ri_offset req) 0) in *; set (qs := arr (ri_size req) 0) in *;
  set (r0 := arr (rl_start r) 0) in *; set (rs := arr (rl_count r) 0) in *;
  set (o := arr oo 0) in *; set (s := arr os 0) in *;
  assert (0 ≤ o - r0 ∧ 0 ≤ o - q0 ∧ 0 < s ∧ o - r0 + s ≤ rs ∧ o - q0 + s ≤ qs) as (? & ? & ? & ? & ?) by lia;
  destruct (scale_bound (o - r0) s rs unit) as (? & ? & ?); [lia..|];
  destruct (scale_bound (o - q0) s qs unit) as (? & ? & ?); [lia..|].

Lemma write_overlap_1d_spec req buf r oo os file :
  n = 1%nat → wf_req req buf → wf_stored file r → lenZ file ≤ file_limit → pos_ok req r →
  PDC_region_overlap_detect n (ri_offset req) (ri_size req) (rl_start r) (rl_count r) = Some (oo, os) →
  ∃ file', write_overlap_1d file_limit req buf unit (vol (ri_size req) * unit) r oo os file = Some (SUCCEED, file') ∧
           seg_updated req buf r file file'.
Proof.
  intros E1 [Hnd Hreg Hbuf] Hr Hfile Hpos Hd. specialize (Hpos E1 _ _ Hd).
  overlap_1d E1 Hreg Hr Hd req oo os r.
  unfold write_overlap_1d. fold o s q0 r0.
  rewrite (u64_eq (u64 (o - r0) * unit) ((o - r0) * unit)) by u64_side.
  rewrite (u64_eq (u64 (o - q0) * unit) ((o - q0) * unit)) by u64_side.
  rewrite (u64_id (s * unit)) by lia. rewrite (u64_id (rl_offset r + _)) by lia.
  rewrite decide_False by lia.
  destruct (posix_write_spec file_limit file (rl_offset r + (o - r0) * unit) buf ((o - q0) * unit) (s * unit))
    as (file' & -> & Hl' & Hg'); [lia..|].
  exists file'. split; [done|]. split; [lia|]. split.
  { intros k Hk. rewrite Hg'. by rewrite decide_False by lia. }
  intros p b Hp Hb. apply Hr5 in Hp as (x & -> & Hx). unfold seg_get. rewrite Hrl, Hg'.
  assert (in_req req [x] ↔ q0 ≤ x < q0 + qs) as Hiff.
  { unfold in_req. rewrite Hq5. naive_solver. }
  unfold req_get, reg_get. rewrite Hql. fold q0 r0.
  pose proof (scaled_in unit (o - r0) s (x - r0) b Hb) as Hsc.
  destruct (decide (in_req req [x])) as [Hi|Hi]; rewrite Hiff in Hi.
  - rewrite decide_True by lia. f_equal. lia.
  - rewrite decide_False by lia. done.
Qed.

Lemma write_overlap_spec req buf r oo os file :
  wf_req req buf → wf_stored file r → lenZ file ≤ file_limit → pos_ok req r →
  PDC_region_overlap_detect n (ri_offset req) (ri_size req) (rl_start r) (rl_count r) = Some (oo, os) →
  ∃ file', write_overlap file_limit data_sieving_g junk req buf unit (vol (ri_size req) * unit) r oo os file
             = Some (SUCCEED, file') ∧ seg_updated req buf r file file'.
Proof.
  intros Hreq Hr Hf Hp Hd. unfold write_overlap. rewrite (wr_ndim _ _ Hreq). case_decide.
  - by apply write_overlap_1d_spec.
  - destruct Hsieve as [|E]; [done|]. rewrite E. by apply write_overlap_sieving_spec.
Qed.

Lemma seg_get_frame file file' r p b : wf_stored file r → in_stored p r → 0 ≤ b < unit →
  (∀ k, rl_offset r ≤ k < rl_offset r + rl_data_size r → getZ file' k = getZ file k) →
  seg_get file' r p b = seg_get file r p b.
Proof. intros Hr Hp Hb H. pose proof (wf_stored_get _ _ _ _ Hr Hp Hb). apply H. lia. Qed.

Lemma is_Some_seg_get file r p b : wf_stored file r → in_stored p r → 0 ≤ b < unit → is_Some (seg_get file r p b).
Proof.
  intros Hr Hp Hb. pose proof (wf_stored_get _ _ _ _ Hr Hp Hb). destruct (ws_segment _ _ Hr).
  apply getZ_is_Some. lia.
Qed.

Lemma wf_stored_mono file file' r : lenZ file ≤ lenZ file' → wf_stored file r → wf_stored file' r.
Proof. intros Hl [? ? ?]. split; [done..|lia]. Qed.

Lemma Forall_stored_mono file file' regs : lenZ file ≤ lenZ file' →
  Forall (wf_stored file) regs → Forall (wf_stored file') regs.
Proof. intros Hl H. eapply list.Forall_impl; [exact H|]. intros r. by apply wf_stored_mono. Qed.

Definition contained_in (req : pdc_region_info) (r : region_list_t) : bool :=
  detect_region_contained (ri_offset req) (ri_size req) (rl_start r) (rl_count r) n.

Lemma contained_in_sub req buf file r : wf_req req buf → wf_stored file r →
  contained_in req r = true → ∀ p, in_req req p → in_stored p r.
Proof.
  intros Hreq Hr. unfold contained_in.
  rewrite (detect_region_contained_arr n) by (apply Hreq || apply Hr).
  destruct (wr_region _ _ Hreq), (ws_region _ _ Hr). intros H p. unfold in_req, in_stored.
  rewrite !(in_region_arr n) by done. intros [? Hi]. split; [done|]. intros i Hlt.
  specialize (H i Hlt). specialize (Hi i Hlt). lia.
Qed.

(** A stored region the request does not meet is not touched. *)
Lemma no_overlap_updated req buf r file : wf_req req buf → wf_stored file r →
  PDC_region_overlap_detect n (ri_offset req) (ri_size req) (rl_start r) (rl_count r) = None →
  seg_updated req buf r file file ∧ contained_in req r = false.
Proof.
  intros Hreq Hr Hd. split.
  - split; [done|]. split; [done|]. intros p b Hp Hb. rewrite decide_False; [done|]. intros Hq.
    by apply (overlap_detect_None _ _ _ _ _ (wr_region _ _ Hreq) (ws_region _ _ Hr) p Hd).
  - apply not_true_iff_false. intros Hc. pose proof (corner_in_region _ _ _ (wr_region _ _ Hreq)) as Hq.
    apply (overlap_detect_None _ _ _ _ _ (wr_region _ _ Hreq) (ws_region _ _ Hr) _ Hd Hq).
    by eapply contained_in_sub.
Qed.

(** What the overwrite loop does to the file. *)
Definition segs_updated (req : pdc_region_info) (buf : list byte) (regs : list region_list_t)
    (file file' : list byte) : Prop :=
  lenZ file' = lenZ file ∧
  (∀ k, Forall (λ r, ¬ (rl_offset r ≤ k < rl_offset r + rl_data_size r)) regs → getZ file' k = getZ file k) ∧
  ∀ r p b, r ∈ regs → in_stored p r → 0 ≤ b < unit →
    seg_get file' r p b = if decide (in_req req p) then req_get req buf p b else seg_get file r p b.

Lemma segs_updated_cons req buf r regs file file1 file2 :
  wf_stored file r → Forall (wf_stored file) regs → Forall (seg_before r) regs →
  seg_updated req buf r file file1 → segs_updated req buf regs file1 file2 →
  segs_updated req buf (r :: regs) file file2.
Proof.
  intros Hr Hregs Hbefore (Hl1 & Hf1 & Hu1) (Hl2 & Hf2 & Hu2). unfold seg_before in *.
  rewrite list.Forall_forall in Hbefore. split; [lia|]. split.
  - intros k [Hk Hks]%list.Forall_cons. rewrite Hf2, Hf1; done.
  - intros r' p b [->|Hr']%elem_of_cons Hp Hb.
    + rewrite <-Hu1 by done. apply seg_get_frame; [|done..|].
      { by eapply wf_stored_mono; [|done]; lia. }
      intros k Hk. apply Hf2. rewrite list.Forall_forall. intros r' Hr'. specialize (Hbefore r' Hr'). lia.
    + rewrite Hu2 by done. case_decide; [done|]. rewrite list.Forall_forall in Hregs.
      apply seg_get_frame; [by apply Hregs|done..|]. intros k Hk. apply Hf1.
      specialize (Hbefore r' Hr'). lia.
Qed.

Lemma write_overlaps_spec req buf regs file ic :
  wf_req req buf → Forall (wf_stored file) regs → StronglySorted seg_before regs →
  lenZ file ≤ file_limit → Forall (pos_ok req) regs →
  ∃ file', write_overlaps file_limit data_sieving_g junk req buf unit (vol (ri_size req) * unit) regs SUCCEED file ic
             = Some (false, SUCCEED, file', ic || existsb (contained_in req) regs) ∧
           segs_updated req buf regs file file'.
Proof.
  intros Hreq. revert file ic. induction regs as [|r regs IH]; intros file ic Hwf Hs Hf Hpos; simpl.
  { exists file. rewrite orb_false_r. split; [done|]. split; [done|]. split; [done|]. intros ? ? ? []%elem_of_nil. }
  apply list.Forall_cons in Hwf as [Hr Hwf], Hpos as [Hp Hpos]. apply StronglySorted_inv in Hs as [Hs Hb].
  rewrite (wr_ndim _ _ Hreq). destruct (PDC_region_overlap_detect _ _ _ _ _) as [[oo os]|] eqn:Hd.
  - destruct (write_overlap_spec req buf r oo os file Hreq Hr Hf Hp Hd) as (file1 & -> & Hu). simpl.
    rewrite andb_false_r. fold (contained_in req r).
    destruct (IH file1 (ic || contained_in req r)) as (file2 & -> & Hu2);
      [by eapply Forall_stored_mono; [|done]; destruct Hu; lia|done|destruct Hu; lia|done|].
    exists file2. rewrite orb_assoc. split; [done|]. by eapply segs_updated_cons.
  - destruct (no_overlap_updated req buf r file Hreq Hr Hd) as [Hu ->]. simpl.
    destruct (IH file ic) as (file2 & -> & Hu2); [done..|]. exists file2. split; [done|].
    by eapply segs_updated_cons.
Qed.

Lemma stored_cases p (regs : list region_list_t) :
  (∃ r, r ∈ regs ∧ in_stored p r) ∨ (∀ r, r ∈ regs → ¬ in_stored p r).
Proof.
  destruct (decide (Exists (in_stored p) regs)) as [H|H].
  - left. by apply list.Exists_exists in H.
  - right. intros r Hr Hp. apply H, list.Exists_exists. eauto.
Qed.

Lemma store_ok_updated req buf regs file file' :
  store_ok regs file → segs_updated req buf regs file file' → store_ok regs file'.
Proof.
  intros [Hwf Hs Hc Hl] (Hl' & _ & Hu). split; [by eapply Forall_stored_mono; [|done]; lia|done| |lia].
  intros r r' p b Hr Hr' Hp Hp' Hb. rewrite !Hu by done. case_decide; [done|]. by apply Hc.
Qed.

Lemma content_updated req buf regs file file' p b :
  store_ok regs file → segs_updated req buf regs file file' → 0 ≤ b < unit →
  (∃ r, r ∈ regs ∧ in_stored p r) →
  content regs file' p b = if decide (in_req req p) then req_get req buf p b else content regs file p b.
Proof.
  intros Hok Hu Hb (r & Hr & Hp). pose proof (store_ok_updated _ _ _ _ _ Hok Hu) as Hok'.
  rewrite !(content_Some _ _ _ _ r) by done. by apply Hu.
Qed.

Definition new_stored (req : pdc_region_info) (file : list byte) : region_list_t :=
  RegionList (ri_ndim req) (ri_offset req) (ri_size req) unit (lenZ file) (vol (ri_size req) * unit).

(** The append at the end of the file. *)
Lemma append_stored req buf regs file file' :
  wf_req req buf → store_ok regs file → lenZ file + vol (ri_size req) * unit ≤ file_limit →
  (∀ r p b, r ∈ regs → in_stored p r → in_req req p → 0 ≤ b < unit → seg_get file r p b = req_get req buf p b) →
  spliced (lenZ file) (vol (ri_size req) * unit) (λ k, getZ buf (0 + (k - lenZ file))) file file' →
  store_ok (regs ++ [new_stored req file]) file' ∧
  (∀ r p b, r ∈ regs → in_stored p r → 0 ≤ b < unit → seg_get file' r p b = seg_get file r p b) ∧
  ∀ p b, in_req req p → 0 ≤ b < unit → seg_get file' (new_stored req file) p b = req_get req buf p b.
Proof.
  intros Hreq [Hwf Hs Hc Hl] Hroom Hagree [Hl' Hg'].
  pose proof (vol_pos _ (wf_region_sizes _ _ _ (wr_region _ _ Hreq))) as Hv. pose proof (lenZ_nonneg file).
  assert (wf_stored file' (new_stored req file)) as Hnew.
  { split; simpl; [apply Hreq|done|nia]. }
  assert (∀ r p b, r ∈ regs → in_stored p r → 0 ≤ b < unit → seg_get file' r p b = seg_get file r p b) as Hold.
  { intros r p b Hr Hp Hb. rewrite list.Forall_forall in Hwf. specialize (Hwf r Hr).
    apply seg_get_frame; [done..|]. intros k Hk. rewrite Hg', decide_False; [done|].
    destruct (ws_segment _ _ Hwf). lia. }
  assert (∀ p b, in_req req p → 0 ≤ b < unit → seg_get file' (new_stored req file) p b = req_get req buf p b) as Hnewg.
  { intros p b Hp Hb. pose proof (wf_region_lin _ _ _ _ _ Hp Hb). unfold seg_get, req_get, reg_get. simpl.
    rewrite Hg', decide_True by lia. f_equal. lia. }
  split; [|done]. split.
  - apply list.Forall_app. split; [by eapply Forall_stored_mono; [|done]; nia|]. by constructor.
  - apply StronglySorted_app_2; [|done|repeat constructor].
    intros r ? Hr ->%list_elem_of_singleton. rewrite list.Forall_forall in Hwf.
    destruct (ws_segment _ _ (Hwf r Hr)). done.
  - intros r r' p b [Hr| ->%list_elem_of_singleton]%elem_of_app [Hr'| ->%list_elem_of_singleton]%elem_of_app Hp Hp' Hb.
    + rewrite !Hold by done. by apply Hc.
    + rewrite Hold, (Hnewg p b Hp' Hb) by done. by apply Hagree.
    + rewrite (Hold r'), (Hnewg p b Hp Hb) by done. symmetry. by apply Hagree.
    + done.
  - nia.
Qed.

(** The write refines "replace the bytes of the request's points". *)
Lemma write_out_file_correct req buf regs file :
  wf_req req buf → store_ok regs file → Forall (pos_ok req) regs →
  lenZ file + vol (ri_size req) * unit ≤ file_limit →
  ∃ regs' file',
    write_out_file file_limit data_sieving_g junk req buf unit regs file = Some (false, SUCCEED, regs', file') ∧
    store_ok regs' file' ∧ lenZ file' ≤ lenZ file + vol (ri_size req) * unit ∧
    ∀ p b, 0 ≤ b < unit →
      content regs' file' p b = if decide (in_req req p) then req_get req buf p b else content regs file p b.
Proof.
  intros Hreq Hok Hpos Hroom. pose proof (wr_buf _ _ Hreq) as Hbuf.
  pose proof (vol_pos _ (wf_region_sizes _ _ _ (wr_region _ _ Hreq))) as Hv.
  unfold write_out_file. rewrite (wr_ndim _ _ Hreq).
  rewrite region_write_size_vol; [|done|done|apply Hreq|apply (wf_region_sizes _ _ _ (wr_region _ _ Hreq))|lia].
  destruct (write_overlaps_spec req buf regs file false) as (file1 & -> & Hu); [done|apply Hok..|done|]. simpl.
  pose proof (store_ok_updated _ _ _ _ _ Hok Hu) as Hok1.
  destruct (existsb (contained_in req) regs) eqn:Hc.
  - exists regs, file1. split; [done|]. split; [done|]. destruct Hu as (Hl1 & Hu). split; [nia|].
    intros p b Hb. destruct (stored_cases p regs) as [Hst|Hst].
    + by apply content_updated.
    + rewrite !content_None by done. rewrite decide_False; [done|]. intros Hp.
      apply existsb_exists in Hc as (r & Hr%list_elem_of_In & Hcr). apply (Hst r Hr).
      pose proof (so_wf _ _ Hok) as Hwf. rewrite list.Forall_forall in Hwf.
      by eapply contained_in_sub; [done|by apply Hwf|..].
  - pose proof Hu as (Hl1 & _ & Hu1).
    destruct (posix_write_spec file_limit file1 (lenZ file1) buf 0 (vol (ri_size req) * unit))
      as (file2 & -> & Hsp); [pose proof (lenZ_nonneg file1); lia|lia|nia|lia|lia|]. simpl.
    destruct (append_stored req buf regs file1 file2) as (Hok2 & Hold & Hnew); [done|done|lia| |done|].
    { intros r p b Hr Hp Hq Hb. rewrite Hu1 by done. by rewrite decide_True. }
    exists (regs ++ [new_stored req file1]), file2. unfold new_stored at 1. rewrite (wr_ndim _ _ Hreq).
    split; [done|]. split; [done|]. split; [destruct Hsp; nia|].
    intros p b Hb. destruct (stored_cases p regs) as [Hst|Hst].
    + destruct Hst as (r & Hr & Hp). rewrite (content_Some _ _ _ _ r); [|done|set_solver|done..].
      rewrite Hold, Hu1, (content_Some regs file p b r) by done. done.
    + rewrite (content_None regs file) by done. case_decide as Hp.
      * rewrite (content_Some _ _ _ _ (new_stored req file1)); [by apply Hnew|done|set_solver|done..].
      * apply content_None. set_solver.
Qed.

(** What reading one stored region does to the request's buffer. *)
Definition buf_read (req : pdc_region_info) (r : region_list_t) (file buf buf' : list byte) : Prop :=
  lenZ buf' = lenZ buf ∧
  ∀ p b, in_req req p → 0 ≤ b < unit →
    req_get req buf' p b = if decide (in_stored p r) then seg_get file r p b else req_get req buf p b.

Lemma pread_to_spec buf boff file pos m : 0 ≤ boff → 0 ≤ m → boff + m ≤ lenZ buf → 0 ≤ pos → pos + m ≤ lenZ file →
  ∃ buf', pread_to buf boff file pos m = Some buf' ∧ lenZ buf' = lenZ buf ∧
    ∀ k, getZ buf' k = if decide (boff ≤ k < boff + m) then getZ file (pos + (k - boff)) else getZ buf k.
Proof.
  intros. unfold pread_to. assert (lenZ (os_pread file pos m) = m) as Hl.
  { unfold os_pread. apply lenZ_take. rewrite lenZ_drop; lia. }
  destruct (mem_write_Some buf boff (os_pread file pos m)) as (buf' & -> & Hlb & Hg); [lia..|].
  exists buf'. split; [done|]. split; [done|]. intros k. rewrite Hg, Hl. case_decide; [|done].
  unfold os_pread. rewrite getZ_take, decide_True, getZ_drop by lia. done.
Qed.

Lemma read_overlap_1d_spec req buf r oo os file :
  n = 1%nat → wf_req req buf → wf_stored file r → lenZ file ≤ file_limit →
  PDC_region_overlap_detect n (ri_offset req) (ri_size req) (rl_start r) (rl_count r) = Some (oo, os) →
  ∃ buf', read_overlap_1d req file unit r oo os buf = Some buf' ∧ buf_read req r file buf buf'.
Proof.
  intros E1 [Hnd Hreg Hbuf] Hr Hfile Hd.
  overlap_1d E1 Hreg Hr Hd req oo os r.
  unfold read_overlap_1d. fold o s q0 r0.
  rewrite (u64_eq (u64 (o - r0) * unit) ((o - r0) * unit)) by u64_side.
  rewrite (u64_eq (u64 (o - q0) * unit) ((o - q0) * unit)) by u64_side.
  rewrite (u64_id (s * unit)) by lia. rewrite (u64_id (rl_offset r + _)) by lia.
  destruct (pread_to_spec buf ((o - q0) * unit) file (rl_offset r + (o - r0) * unit) (s * unit))
    as (buf' & -> & Hl' & Hg'); [lia..|].
  exists buf'. split; [done|]. split; [lia|].
  intros p b Hp Hb. apply Hq5 in Hp as (x & -> & Hx). unfold req_get, reg_get. rewrite Hql, Hg'.
  assert (in_stored [x] r ↔ r0 ≤ x < r0 + rs) as Hiff.
  { unfold in_stored. rewrite Hr5. naive_solver. }
  unfold seg_get. rewrite Hrl. fold q0 r0.
  pose proof (scaled_in unit (o - q0) s (x - q0) b Hb) as Hsc.
  destruct (decide (in_stored [x] r)) as [Hi|Hi]; rewrite Hiff in Hi.
  - rewrite decide_True by lia. f_equal. lia.
  - rewrite decide_False by lia. done.
Qed.

Lemma read_overlap_sieving_spec req buf r oo os file :
  wf_req req buf → wf_stored file r → lenZ file ≤ file_limit →
  PDC_region_overlap_detect n (ri_offset req) (ri_size req) (rl_start r) (rl_count r) = Some (oo, os) →
  ∃ buf', read_overlap_sieving junk req file unit r oo os buf = Some buf' ∧ buf_read req r file buf buf'.
Proof.
  intros [Hnd Hreg Hbuf] Hr Hfile Hd. destruct (segment_get file r Hr) as [Hlseg Hseg].
  pose proof (vol_pos _ (wf_region_sizes _ _ _ (ws_region _ _ Hr))). pose proof (ws_size _ _ Hr).
  destruct (ws_segment _ _ Hr) as [Hoff Hend].
  assert (0 < rl_data_size r) as Hpos by nia.
  assert (∀ tmp, tmp = os_pread file (rl_offset r) (rl_data_size r) →
    ∃ buf', memcpy_overlap_subregion (ri_ndim req) unit tmp (rl_start r) (rl_count r)
      buf (ri_offset req) (ri_size req) oo os = Some buf' ∧ buf_read req r file buf buf') as Hcopy.
  { intros ? ->. apply overlap_detect_sym in Hd; [|apply Hreg|apply Hr].
    destruct (overlap_copy n unit (rl_start r) (rl_count r) (ri_offset req) (ri_size req) Hn Hunit
                (ws_region _ _ Hr) Hreg (os_pread file (rl_offset r) (rl_data_size r)) buf oo os)
      as (buf' & Hrun & Hl & Hget); [lia|done|done|].
    exists buf'. rewrite Hnd. split; [done|]. split; [done|]. intros p b Hp Hb. unfold req_get.
    rewrite Hget by done. unfold in_stored. case_decide; [|done]. by apply Hseg. }
  assert (lenZ (malloc junk (rl_data_size r)) = rl_data_size r) as Hmal by (apply lenZ_malloc; lia).
  unfold read_overlap_sieving. case_decide as Hbig.
  - destruct (pread_loop_spec (pread_fuel (rl_data_size r)) file (malloc junk (rl_data_size r)) 0 (rl_offset r)
                (rl_data_size r) read_max) as (tmp & -> & Hltmp & Hgtmp); try (unfold read_max in *; lia).
    { unfold pread_fuel. assert (0 < read_max) by done.
      assert (0 ≤ rl_data_size r / read_max) by (apply Z.div_pos; lia).
      assert ((rl_data_size r + read_max - 1) / read_max ≤ rl_data_size r / read_max + 1); [|lia].
      rewrite <-Z.div_add by lia. apply Z.div_le_mono; lia. }
    simpl. apply Hcopy. apply getZ_ext; [lia|]. intros k Hk.
    rewrite Hgtmp, decide_True by lia. unfold os_pread. rewrite getZ_take, decide_True, getZ_drop by lia.
    f_equal. lia.
  - unfold pread_to. rewrite mem_write_all by lia. simpl. by apply Hcopy.
Qed.

Lemma read_overlaps_spec req buf regs file :
  wf_req req buf → Forall (wf_stored file) regs → lenZ file ≤ file_limit →
  (∀ r r' p b, r ∈ regs → r' ∈ regs → in_stored p r → in_stored p r' → 0 ≤ b < unit →
     seg_get file r p b = seg_get file r' p b) →
  ∃ buf', read_overlaps data_sieving_g junk req file unit regs buf = Some buf' ∧ lenZ buf' = lenZ buf ∧
    ∀ p b, in_req req p → 0 ≤ b < unit →
      (∀ r, r ∈ regs → in_stored p r → req_get req buf' p b = seg_get file r p b) ∧
      ((∀ r, r ∈ regs → ¬ in_stored p r) → req_get req buf' p b = req_get req buf p b).
Proof.
  revert buf. induction regs as [|r regs IH]; intros buf Hreq Hwf Hf Hc; simpl.
  { exists buf. split_and!; [done..|]. intros p b _ _. split; [set_solver|done]. }
  apply list.Forall_cons in Hwf as [Hr Hwf].
  assert (∃ buf1, (match PDC_region_overlap_detect (ri_ndim req) (ri_offset req) (ri_size req) (rl_start r) (rl_count r) with
                   | Some (oo, os) => read_overlap data_sieving_g junk req file unit r oo os buf
                   | None => Some buf end) = Some buf1 ∧ buf_read req r file buf buf1) as (buf1 & Hrun & Hl1 & Hg1).
  { rewrite (wr_ndim _ _ Hreq). destruct (PDC_region_overlap_detect _ _ _ _ _) as [[oo os]|] eqn:Hd.
    - unfold read_overlap. rewrite (wr_ndim _ _ Hreq). case_decide; [by apply read_overlap_1d_spec|].
      destruct Hsieve as [|E]; [done|]. rewrite E. by apply read_overlap_sieving_spec.
    - exists buf. split; [done|]. split; [done|]. intros p b Hp Hb. rewrite decide_False; [done|]. intros Hs.
      by apply (overlap_detect_None _ _ _ _ _ (wr_region _ _ Hreq) (ws_region _ _ Hr) p Hd). }
  destruct (IH buf1) as (buf2 & Hrun2 & Hl2 & Hg2); [|done|done|set_solver|].
  { destruct Hreq. split; [done..|lia]. }
  exists buf2. split.
  { destruct (PDC_region_overlap_detect _ _ _ _ _) as [[oo os]|]; [by rewrite Hrun|congruence]. }
  split; [lia|]. intros p b Hp Hb. destruct (Hg2 p b Hp Hb) as [Hin Hout]. specialize (Hg1 p b Hp Hb). split.
  - intros r' [->|Hr']%elem_of_cons Hp'; [|by apply Hin].
    destruct (stored_cases p regs) as [(r' & Hr' & Hpr')|Hno].
    + rewrite (Hin r'), (Hc r r') by set_solver. done.
    + rewrite Hout, Hg1 by done. by rewrite decide_True.
  - intros Hno. rewrite Hout, Hg1 by set_solver. rewrite decide_False; [done|]. set_solver.
Qed.

(** The read refines "the stored byte where there is one, the caller's byte
    elsewhere". *)
Lemma read_overlaps_correct req buf regs file :
  wf_req req buf → store_ok regs file →
  ∃ buf', read_overlaps data_sieving_g junk req file unit regs buf = Some buf' ∧ lenZ buf' = lenZ buf ∧
    ∀ p b, in_req req p → 0 ≤ b < unit →
      req_get req buf' p b = match content regs file p b with Some x => Some x | None => req_get req buf p b end.
Proof.
  intros Hreq Hok. destruct (read_overlaps_spec req buf regs file) as (buf' & Hrun & Hl & Hg); [done|apply Hok..|].
  exists buf'. split; [done|]. split; [done|]. intros p b Hp Hb. destruct (Hg p b Hp Hb) as [Hin Hout].
  destruct (stored_cases p regs) as [(r & Hr & Hpr)|Hno].
  - rewrite (Hin r Hr Hpr), (content_Some _ _ _ _ r) by done.
    destruct (is_Some_seg_get file r p b) as [x ->]; [|done..].
    pose proof (so_wf _ _ Hok) as Hwf. rewrite list.Forall_forall in Hwf. by apply Hwf.
  - by rewrite content_None, Hout.
Qed.
(** Growing the file keeps the store. *)
Lemma store_ok_grow regs file file' :
  store_ok regs file → lenZ file ≤ lenZ file' ≤ file_limit →
  (∀ k, k < lenZ file → getZ file' k = getZ file k) →
  store_ok regs file' ∧
  ∀ p b, 0 ≤ b < unit → content regs file' p b = content regs file p b.
Proof.
  intros Hok Hl Hg. pose proof Hok as [Hwf Hs Hc _].
  assert (∀ r p b, r ∈ regs → in_stored p r → 0 ≤ b < unit → seg_get file' r p b = seg_get file r p b) as Hsame.
  { intros r p b Hr Hp Hb. rewrite list.Forall_forall in Hwf. specialize (Hwf r Hr).
    eapply seg_get_frame; [done..|]. intros k Hk. apply Hg. destruct (ws_segment _ _ Hwf). lia. }
  assert (store_ok regs file') as Hok'.
  { split; [eapply Forall_stored_mono; [|done]; lia|done| |lia].
    intros r r' p b Hr Hr' Hp Hp' Hb. rewrite !Hsame by done. by apply Hc. }
  split; [done|]. intros p b Hb. destruct (stored_cases p regs) as [(r & Hr & Hp)|Hno].
  - rewrite (content_Some regs file' p b r), (content_Some regs file p b r) by done.
    by apply Hsame.
  - by rewrite !content_None.
Qed.

Lemma write_out_file_full req buf regs file :
  wf_req req buf → store_ok regs file →
  (∀ r p, r ∈ regs → in_req req p → ¬ in_stored p r) →
  file_limit < lenZ file + vol (ri_size req) * unit →
  ∃ file',
    write_out_file file_limit data_sieving_g junk req buf unit regs file = Some (true, FAIL, regs, file') ∧
    store_ok regs file' ∧
    ∀ p b, 0 ≤ b < unit → content regs file' p b = content regs file p b.
Proof.
  intros Hreq Hok Hdisj Hfull. pose proof (wr_buf _ _ Hreq) as Hbuf.
  pose proof (vol_pos _ (wf_region_sizes _ _ _ (wr_region _ _ Hreq))) as Hv.
  pose proof (so_wf _ _ Hok) as Hwf. rewrite list.Forall_forall in Hwf.
  assert (Forall (pos_ok req) regs) as Hpos.
  { apply list.Forall_forall. intros r Hr _ oo os Hd.
    pose proof (overlap_detect_wf _ _ _ _ _ (wr_region _ _ Hreq) (ws_region _ _ (Hwf r Hr)) _ _ Hd) as Ho.
    apply corner_in_region, (overlap_detect_in _ _ _ _ _ (wr_region _ _ Hreq) (ws_region _ _ (Hwf r Hr)) _ _ _ Hd)
      in Ho as [H1 H2]. by destruct (Hdisj r oo Hr H1). }
  unfold write_out_file. rewrite (wr_ndim _ _ Hreq).
  rewrite region_write_size_vol;
    [|done|done|apply Hreq|apply (wf_region_sizes _ _ _ (wr_region _ _ Hreq))|lia].
  destruct (write_overlaps_spec req buf regs file false)
    as (file1 & -> & Hu); [done|apply Hok..|done|]. simpl.
  pose proof (store_ok_updated _ _ _ _ _ Hok Hu) as Hok1.
  assert (existsb (contained_in req) regs = false) as ->.
  { apply not_true_iff_false. intros (r & Hr%list_elem_of_In & Hc)%existsb_exists.
    pose proof (corner_in_region _ _ _ (wr_region _ _ Hreq)) as Hcor.
    apply (Hdisj r _ Hr Hcor). by eapply contained_in_sub; [done|by apply Hwf|..]. }
  pose proof Hu as (Hl1 & _ & Hu1).
  destruct (posix_write_full file_limit file1 buf 0 (vol (ri_size req) * unit)) as (file2 & -> & Hl2 & Hg2);
    [apply Hok1|lia|nia|lia|lia|]. simpl.
  destruct (store_ok_grow regs file1 file2 Hok1 Hl2 Hg2) as [Hok2 Hc2].
  exists file2. split; [done|]. split; [done|]. intros p b Hb. rewrite Hc2 by done.
  destruct (stored_cases p regs) as [Hst|Hno].
  - rewrite (content_updated req buf regs file file1) by done. rewrite decide_False; [done|]. destruct Hst as (r & Hr & Hp).
    intros Hq. by apply (Hdisj r p).
  - by rewrite !content_None.
Qed.
End Store.

(** * The registry and the entry points *)

Section Server.
Context (file_limit : Z) (data_sieving_g : bool) (junk : byte) (open_fd : Z).
(** The dimensions and the element size of an object, which every request on
    it uses. *)
Context (dim : Z → nat) (unit : Z → Z).
Context (Hdim : ∀ o, (1 ≤ dim o ≤ 3)%nat) (Hunit : ∀ o, 0 < unit o) (Hlim : file_limit < W64).
Context (Hsieve : ∀ o, dim o = 1%nat ∨ data_sieving_g = true) (Hfd : 0 ≤ open_fd).

(** One entry per object, and a well-formed store for each. *)
Record ds_ok (ds : data_server) : Prop := {
  do_nodup : NoDup (dsr_obj_id <$> ds_regions ds);
  do_files : map_Forall (λ _ file, lenZ file ≤ file_limit) (ds_files ds);
  do_stores : Forall (λ e, ∃ file, ds_files ds !! dsr_obj_id e = Some file ∧
                 store_ok file_limit (dim (dsr_obj_id e)) (unit (dsr_obj_id e)) (dsr_storage e) file) (ds_regions ds) }.

(** The entry and the file of an object. *)
Definition entry_of (ds : data_server) (obj : Z) : option (list region_list_t * list byte) :=
  i ← PDC_Server_get_obj_region ds obj; e ← ds_regions ds !! i; file ← ds_files ds !! obj; Some (dsr_storage e, file).

(** The abstract state of a data server: the byte stored for a point of an
    object, if any. *)
Definition ds_content (ds : data_server) (obj : Z) (p : list Z) (b : Z) : option byte :=
  '(regs, file) ← entry_of ds obj; content (unit obj) regs file p b.

(** The stored regions of an object and the length of its file. *)
Definition stored_regions (ds : data_server) (obj : Z) : list region_list_t :=
  from_option fst [] (entry_of ds obj).
Definition file_size (ds : data_server) (obj : Z) : Z := lenZ (default [] (ds_files ds !! obj)).

Lemma get_obj_region_from_spec l obj : ∀ i ret,
  (∀ j, get_obj_region_from i l obj ret = Some j →
     (ret = Some j ∧ Forall (λ e, dsr_obj_id e ≠ obj) l) ∨
     ∃ e, (i ≤ j)%nat ∧ l !! (j - i)%nat = Some e ∧ dsr_obj_id e = obj) ∧
  (get_obj_region_from i l obj ret = None → ret = None ∧ Forall (λ e, dsr_obj_id e ≠ obj) l).
Proof.
  induction l as [|e l IH]; intros i ret; simpl; [naive_solver|].
  destruct (IH (S i) (if decide (dsr_obj_id e = obj) then Some i else ret)) as [IHs IHn]. split.
  - intros j Hj. destruct (IHs j Hj) as [[Hret Hall]|(e' & Hle & Hl & He')].
    + case_decide.
      * simplify_eq. right. exists e. rewrite Nat.sub_diag. auto.
      * left. auto.
    + right. exists e'. split; [lia|]. split; [|done]. by replace (j - i)%nat with (S (j - S i)) by lia.
  - intros Hj. destruct (IHn Hj) as [Hret Hall]. case_decide; [done|]. auto.
Qed.

Lemma get_obj_region_Some ds obj i : PDC_Server_get_obj_region ds obj = Some i →
  ∃ e, ds_regions ds !! i = Some e ∧ dsr_obj_id e = obj.
Proof.
  intros H. destruct (proj1 (get_obj_region_from_spec (ds_regions ds) obj 0 None) i H) as [[? _]|(e & _ & He & ?)]; [done|].
  rewrite Nat.sub_0_r in He. eauto.
Qed.

Lemma get_obj_region_None ds obj : PDC_Server_get_obj_region ds obj = None →
  Forall (λ e, dsr_obj_id e ≠ obj) (ds_regions ds).
Proof. intros H. by apply (proj2 (get_obj_region_from_spec (ds_regions ds) obj 0 None)). Qed.

Lemma get_obj_region_lookup ds obj i e : NoDup (dsr_obj_id <$> ds_regions ds) →
  ds_regions ds !! i = Some e → dsr_obj_id e = obj → PDC_Server_get_obj_region ds obj = Some i.
Proof.
  intros Hnd Hi He. destruct (PDC_Server_get_obj_region ds obj) as [j|] eqn:Hj.
  - apply get_obj_region_Some in Hj as (e' & Hj & He'). f_equal.
    apply (NoDup_lookup _ _ _ obj Hnd); rewrite list_lookup_fmap; [by rewrite Hj; simpl; f_equal|].
    rewrite Hi. simpl. by f_equal.
  - apply get_obj_region_None in Hj. rewrite list.Forall_forall in Hj.
    destruct (Hj e); [by eapply list_elem_of_lookup_2|done].
Qed.

Lemma entry_of_lookup ds obj i e file : NoDup (dsr_obj_id <$> ds_regions ds) →
  ds_regions ds !! i = Some e → dsr_obj_id e = obj → ds_files ds !! obj = Some file →
  entry_of ds obj = Some (dsr_storage e, file).
Proof.
  intros Hnd Hi He Hf. unfold entry_of. rewrite (get_obj_region_lookup _ _ i e) by done. simpl.
  rewrite Hi. simpl. by rewrite Hf.
Qed.

Lemma entry_of_None ds obj : Forall (λ e, dsr_obj_id e ≠ obj) (ds_regions ds) → entry_of ds obj = None.
Proof.
  intros H. unfold entry_of. destruct (PDC_Server_get_obj_region ds obj) eqn:Hi; [|done].
  apply get_obj_region_Some in Hi as (e & He & ?). rewrite list.Forall_forall in H.
  destruct (H e); [by eapply list_elem_of_lookup_2|done].
Qed.

(** Replacing the entry and the file of one object. *)
Lemma ds_update ds i e fd flag regs file :
  ds_ok ds → ds_regions ds !! i = Some e →
  store_ok file_limit (dim (dsr_obj_id e)) (unit (dsr_obj_id e)) regs file →
  let ds' := DataServer (<[i := DataServerRegion (dsr_obj_id e) fd flag regs]> (ds_regions ds))
                        (<[dsr_obj_id e := file]> (ds_files ds)) in
  ds_ok ds' ∧ entry_of ds' (dsr_obj_id e) = Some (regs, file) ∧
  ∀ obj, obj ≠ dsr_obj_id e → entry_of ds' obj = entry_of ds obj.
Proof.
  intros [Hnd Hfs Hst] Hi Hok ds'.
  assert (dsr_obj_id <$> ds_regions ds' = dsr_obj_id <$> ds_regions ds) as Hids.
  { simpl. rewrite list_fmap_insert. simpl. apply list_insert_id. by rewrite list_lookup_fmap, Hi. }
  assert (ds_ok ds') as Hok'.
  { split; [by rewrite Hids| |].
    - simpl. apply map_Forall_insert_2; [apply (so_limit _ _ _ _ _ Hok)|done].
    - apply list.Forall_forall. intros e' (j & Hj)%list_elem_of_lookup. simpl in *.
      destruct (decide (j = i)) as [->|].
      + rewrite list_lookup_insert_eq in Hj by by eapply lookup_lt_Some. simplify_eq. simpl.
        exists file. by rewrite lookup_insert_eq.
      + rewrite list_lookup_insert_ne in Hj by done. rewrite list.Forall_forall in Hst.
        destruct (Hst e') as (f & Hf & ?); [by eapply list_elem_of_lookup_2|]. exists f.
        rewrite lookup_insert_ne; [done|]. intros He. destruct (decide (j = i)); [done|].
        assert (j = i); [|done]. apply (NoDup_lookup _ _ _ (dsr_obj_id e) Hnd).
        * rewrite list_lookup_fmap, Hj. simpl. by f_equal.
        * by rewrite list_lookup_fmap, Hi. }
  split; [done|]. split.
  - apply (entry_of_lookup ds' _ i (DataServerRegion (dsr_obj_id e) fd flag regs)); [apply Hok'| |done|].
    + simpl. apply list_lookup_insert_eq. by eapply lookup_lt_Some.
    + simpl. by rewrite lookup_insert_eq.
  - intros obj Hne. destruct (PDC_Server_get_obj_region ds obj) as [j|] eqn:Hj.
    + apply get_obj_region_Some in Hj as (e' & Hj & He'). rewrite list.Forall_forall in Hst.
      destruct (Hst e') as (f & Hf & _); [by eapply list_elem_of_lookup_2|]. rewrite He' in Hf.
      assert (j ≠ i) by (intros ->; congruence).
      rewrite !(entry_of_lookup _ _ j e' f); simpl; try done; [apply Hok'| |].
      * by rewrite list_lookup_insert_ne.
      * by rewrite lookup_insert_ne.
    + apply get_obj_region_None in Hj. rewrite !entry_of_None; [done..|]. simpl.
      apply list.Forall_insert; [done|]. simpl. congruence.
Qed.

(** Adding an entry for an object that has none. *)
Lemma ds_append ds obj fd flag :
  ds_ok ds → 0 ≤ file_limit → Forall (λ e, dsr_obj_id e ≠ obj) (ds_regions ds) →
  let ds' := DataServer (ds_regions ds ++ [DataServerRegion obj fd flag []]) (os_open ds obj) in
  ds_ok ds' ∧ entry_of ds' obj = Some ([], default [] (ds_files ds !! obj)) ∧
  ∀ obj', obj' ≠ obj → entry_of ds' obj' = entry_of ds obj'.
Proof.
  intros [Hnd Hfs Hst] Hlim0 Hno ds'.
  assert (ds_files ds' !! obj = Some (default [] (ds_files ds !! obj))) as Hfobj.
  { simpl. unfold os_open. destruct (ds_files ds !! obj) eqn:E; [by rewrite E|]. by rewrite lookup_insert_eq. }
  assert (∀ obj', obj' ≠ obj → ds_files ds' !! obj' = ds_files ds !! obj') as Hfne.
  { intros obj' Hne. simpl. unfold os_open. destruct (ds_files ds !! obj); [done|]. by rewrite lookup_insert_ne. }
  assert (ds_ok ds') as Hok'.
  { split.
    - simpl. rewrite fmap_app. apply list.NoDup_app. split; [done|]. split; [|apply NoDup_singleton].
      intros ? (e & -> & He)%list_elem_of_fmap ?%list_elem_of_singleton. rewrite list.Forall_forall in Hno.
      by apply (Hno e).
    - intros o f Hf. destruct (decide (o = obj)) as [->|].
      + rewrite Hfobj in Hf. simplify_eq. destruct (ds_files ds !! obj) eqn:E; [by apply (Hfs obj)|done].
      + rewrite Hfne in Hf by done. by apply (Hfs o).
    - simpl. apply list.Forall_app. split.
      + eapply list.Forall_impl; [exact (proj2 (list.Forall_and _ _) (conj Hno Hst))|]. intros e [Hne (f & Hf & ?)]. exists f.
        split; [|done]. by rewrite <-(Hfne _ Hne) in Hf.
      + apply list.Forall_singleton. simpl. exists (default [] (ds_files ds !! obj)). split; [done|].
        split; [done|constructor|set_solver|].
        destruct (ds_files ds !! obj) eqn:E; [by apply (Hfs obj)|done]. }
  split; [done|]. split.
  - apply (entry_of_lookup ds' _ (length (ds_regions ds)) (DataServerRegion obj fd flag [])); [apply Hok'| |done..].
    simpl. by rewrite lookup_app_r, Nat.sub_diag.
  - intros obj' Hne. destruct (PDC_Server_get_obj_region ds obj') as [j|] eqn:Hj.
    + apply get_obj_region_Some in Hj as (e' & Hj & He'). rewrite list.Forall_forall in Hst.
      destruct (Hst e') as (f & Hf & _); [by eapply list_elem_of_lookup_2|]. rewrite He' in Hf.
      rewrite !(entry_of_lookup _ _ j e' f); try done; [apply Hok'| |by rewrite Hfne].
      simpl. apply lookup_app_l_Some, Hj.
    + apply get_obj_region_None in Hj. rewrite !entry_of_None; [done..|]. simpl.
      apply list.Forall_app. split; [done|]. by constructor.
Qed.

(** Opening an object's entry does not change what is stored. *)
Lemma register_spec ds obj flag : ds_ok ds → 0 ≤ file_limit →
  ∃ ds' i e file,
    PDC_Server_register_obj_region_by_pointer open_fd ds (PDC_Server_get_obj_region ds obj) obj flag = (ds', Some i) ∧
    ds_ok ds' ∧ ds_regions ds' !! i = Some e ∧ 0 ≤ dsr_fd e ∧ dsr_obj_id e = obj ∧ ds_files ds' !! obj = Some file ∧
    dsr_storage e = stored_regions ds obj ∧ lenZ file = file_size ds obj ∧
    (∀ p b, content (unit obj) (dsr_storage e) file p b = ds_content ds obj p b) ∧
    ∀ obj', obj' ≠ obj → entry_of ds' obj' = entry_of ds obj'.
Proof.
  intros Hok Hlim0. destruct (PDC_Server_get_obj_region ds obj) as [i|] eqn:Hget; simpl.
  - apply get_obj_region_Some in Hget as (e & Hi & He). rewrite Hi.
    pose proof (do_stores _ Hok) as Hst. rewrite list.Forall_forall in Hst.
    destruct (Hst e) as (file & Hf & Hse); [by eapply list_elem_of_lookup_2|].
    assert (os_open ds obj = ds_files ds) as Hopen by (unfold os_open; by rewrite <-He, Hf).
    assert (entry_of ds obj = Some (dsr_storage e, file)) as Hent.
    { apply (entry_of_lookup _ _ i); [apply Hok|done..|]. by rewrite <-He. }
    unfold ds_content, stored_regions, file_size. rewrite Hent. simpl.
    case_decide.
    + destruct (ds_update ds i e open_fd flag (dsr_storage e) file Hok Hi Hse) as (Hok' & Hent' & Hne').
      rewrite insert_id in Hok', Hent', Hne' by done.
      exists (DataServer (<[i := DataServerRegion (dsr_obj_id e) open_fd flag (dsr_storage e)]> (ds_regions ds)) (ds_files ds)),
        i, (DataServerRegion (dsr_obj_id e) open_fd flag (dsr_storage e)), file.
      rewrite Hopen, decide_False by lia. split; [done|]. split; [done|]. split.
      { simpl. apply list_lookup_insert_eq. by eapply lookup_lt_Some. }
      rewrite <-He, Hf. split_and!; try done.
    + exists ds, i, e, file. rewrite <-He, Hf. split_and!; try done. lia.
  - apply get_obj_region_None in Hget. destruct (ds_append ds obj open_fd flag Hok Hlim0 Hget) as (Hok' & Hent & Hne).
    eexists _, _, (DataServerRegion obj open_fd flag []), (default [] (ds_files ds !! obj)).
    rewrite decide_False by lia. split; [done|]. split; [done|]. split.
    { simpl. by rewrite lookup_app_r, Nat.sub_diag. }
    split; [done|]. split; [done|]. split.
    { simpl. unfold os_open. destruct (ds_files ds !! obj) eqn:E; [by rewrite E|]. by rewrite lookup_insert_eq. }
    unfold ds_content, stored_regions. rewrite (entry_of_None ds) by done. split_and!; done.
Qed.

(** Closing it neither. *)
Lemma unregister_spec ds i flag : ds_ok ds →
  let ds' := PDC_Server_unregister_obj_region_by_pointer ds i flag in
  ds_ok ds' ∧ ∀ obj, entry_of ds' obj = entry_of ds obj.
Proof.
  intros Hok. unfold PDC_Server_unregister_obj_region_by_pointer.
  destruct (ds_regions ds !! i) as [e|] eqn:Hi; [|done]. case_decide; [|done].
  pose proof (do_stores _ Hok) as Hst. rewrite list.Forall_forall in Hst.
  destruct (Hst e) as (file & Hf & Hse); [by eapply list_elem_of_lookup_2|].
  destruct (ds_update ds i e (-2) (dsr_close_flag e) (dsr_storage e) file Hok Hi Hse) as (Hok' & Hent' & Hne').
  rewrite insert_id in Hok', Hent', Hne' by done. split; [done|]. intros obj.
  destruct (decide (obj = dsr_obj_id e)) as [->|]; [|by apply Hne'].
  rewrite Hent'. symmetry. apply (entry_of_lookup _ _ i); [apply Hok|done..].
Qed.

(** A request on an object. *)
Definition ds_req_ok (obj : Z) (req : pdc_region_info) (buf : list byte) : Prop :=
  wf_req (dim obj) (unit obj) req buf.

(** The position check of the one-dimensional overwrite, for every region
    stored for the object. *)
Definition ds_pos_ok (ds : data_server) (obj : Z) (req : pdc_region_info) : Prop :=
  Forall (pos_ok (dim obj) (unit obj) req) (stored_regions ds obj).

Lemma data_write_out_correct ds obj req buf :
  ds_ok ds → 0 ≤ file_limit → ds_req_ok obj req buf → ds_pos_ok ds obj req →
  file_size ds obj + vol (ri_size req) * unit obj ≤ file_limit →
  ∃ ds', PDC_Server_data_write_out file_limit data_sieving_g junk open_fd ds obj req buf (unit obj) = Some (SUCCEED, ds') ∧
    ds_ok ds' ∧
    ∀ obj' p b, 0 ≤ b < unit obj' →
      ds_content ds' obj' p b =
        if decide (obj' = obj ∧ in_req req p) then req_get (unit obj) req buf p b else ds_content ds obj' p b.
Proof.
  intros Hok Hlim0 Hreq Hpos Hroom. unfold PDC_Server_data_write_out.
  destruct (register_spec ds obj 0 Hok Hlim0)
    as (ds1 & i & e & file & -> & Hok1 & Hi & Hefd & He & Hf & Hst & Hlen & Hcont & Hother).
  simpl. rewrite Hi, Hf. simpl. rewrite option_guard_True by done.
  pose proof (do_stores _ Hok1) as Hstores. rewrite list.Forall_forall in Hstores.
  destruct (Hstores e) as (file' & Hf' & Hse); [by eapply list_elem_of_lookup_2|]. subst obj. simplify_eq.
  destruct (write_out_file_correct file_limit data_sieving_g junk (dim (dsr_obj_id e)) (unit (dsr_obj_id e))
              (Hdim _) (Hunit _) Hlim (Hsieve _) req buf (dsr_storage e) file)
    as (regs2 & file2 & Hrun & Hok2 & _ & Hc2); [done|done|by rewrite Hst|lia|].
  rewrite Hrun. simpl.
  destruct (ds_update ds1 i e (dsr_fd e) (dsr_close_flag e) regs2 file2 Hok1 Hi Hok2) as (Hok3 & Hent3 & Hne3).
  destruct (unregister_spec _ i 0 Hok3) as (Hok4 & Hent4).
  eexists. split; [done|]. split; [done|]. intros obj' p b Hb. unfold ds_content at 1. rewrite Hent4.
  destruct (decide (obj' = dsr_obj_id e)) as [->|Hne].
  - rewrite Hent3. simpl. rewrite Hc2, Hcont by done. repeat case_decide; tauto.
  - rewrite Hne3, Hother by done. rewrite decide_False by tauto. done.
Qed.

Lemma data_read_from_correct ds obj req buf :
  ds_ok ds → 0 ≤ file_limit → ds_req_ok obj req buf →
  ∃ buf' ds', PDC_Server_data_read_from data_sieving_g junk open_fd ds obj req buf (unit obj) = Some (SUCCEED, buf', ds') ∧
    lenZ buf' = lenZ buf ∧
    (∀ p b, in_req req p → 0 ≤ b < unit obj →
      req_get (unit obj) req buf' p b =
        match ds_content ds obj p b with Some x => Some x | None => req_get (unit obj) req buf p b end) ∧
    ds_ok ds' ∧ ∀ obj' p b, ds_content ds' obj' p b = ds_content ds obj' p b.
Proof.
  intros Hok Hlim0 Hreq. unfold PDC_Server_data_read_from.
  destruct (register_spec ds obj 0 Hok Hlim0)
    as (ds1 & i & e & file & -> & Hok1 & Hi & Hefd & He & Hf & Hst & Hlen & Hcont & Hother).
  simpl. rewrite Hi, Hf. simpl. rewrite option_guard_True by done.
  pose proof (do_stores _ Hok1) as Hstores. rewrite list.Forall_forall in Hstores.
  destruct (Hstores e) as (file' & Hf' & Hse); [by eapply list_elem_of_lookup_2|]. subst obj. simplify_eq.
  destruct (read_overlaps_correct file_limit data_sieving_g junk (dim (dsr_obj_id e)) (unit (dsr_obj_id e))
              (Hdim _) (Hunit _) Hlim (Hsieve _) req buf (dsr_storage e) file) as (buf' & Hrun & Hl & Hg); [done|done|].
  rewrite Hrun. simpl. destruct (unregister_spec _ i 0 Hok1) as (Hok4 & Hent4).
  eexists _, _. split; [done|]. split; [done|]. split; [|split; [done|]].
  - intros p b Hp Hb. by rewrite Hg, Hcont.
  - intros obj' p b. unfold ds_content at 1. rewrite Hent4.
    destruct (decide (obj' = dsr_obj_id e)) as [->|Hne].
    + erewrite entry_of_lookup; [simpl; apply Hcont|apply Hok1|done..].
    + by rewrite Hother.
Qed.

Lemma ds_content_same ds ds' obj : entry_of ds' obj = entry_of ds obj →
  ∀ p b, ds_content ds' obj p b = ds_content ds obj p b.
Proof. intros H p b. unfold ds_content. by rewrite H. Qed.

(** ** Properties *)

(** C9: where the position check of one-dimensional objects lets it through,
    [PDC_Server_data_write_out] refines "replace the bytes of the points of
    the request": it succeeds, keeps the server's invariant, stores the
    request's bytes for the points of the region and changes neither another
    point nor another object.  The check ([ds_pos_ok]) is that the request does
    not start further inside a stored region than its own size; objects of two
    and three dimensions have no such check ([write_1d_rejected] is the case
    of a valid request that it refuses).  The file must have room for the
    request. *)
Theorem data_write_out_refines ds obj req buf :
  ds_ok ds → 0 ≤ file_limit → ds_req_ok obj req buf → ds_pos_ok ds obj req →
  file_size ds obj + vol (ri_size req) * unit obj ≤ file_limit →
  ∃ ds', PDC_Server_data_write_out file_limit data_sieving_g junk open_fd ds obj req buf (unit obj) = Some (SUCCEED, ds') ∧
    ds_ok ds' ∧
    ∀ obj' p b, 0 ≤ b < unit obj' →
      ds_content ds' obj' p b =
        if decide (obj' = obj ∧ in_req req p) then req_get (unit obj) req buf p b else ds_content ds obj' p b.
Proof. apply data_write_out_correct. Qed.

(** C10: [PDC_Server_data_read_from] fills the request's buffer with the stored
    byte of every point that has one, leaves the other bytes of the region as
    the caller gave them, and changes nothing on the server. *)
Theorem data_read_from_refines ds obj req buf :
  ds_ok ds → 0 ≤ file_limit → ds_req_ok obj req buf →
  ∃ buf' ds', PDC_Server_data_read_from data_sieving_g junk open_fd ds obj req buf (unit obj) = Some (SUCCEED, buf', ds') ∧
    lenZ buf' = lenZ buf ∧
    (∀ p b, in_req req p → 0 ≤ b < unit obj →
      req_get (unit obj) req buf' p b =
        match ds_content ds obj p b with Some x => Some x | None => req_get (unit obj) req buf p b end) ∧
    ds_ok ds' ∧ ∀ obj' p b, ds_content ds' obj' p b = ds_content ds obj' p b.
Proof. apply data_read_from_correct. Qed.

(** A region that was written is read back: [PDC_Server_data_read_from]
    after [PDC_Server_data_write_out] of the same region returns exactly the
    bytes written, whatever was stored before and however the region overlaps
    the regions already in the file. *)
Theorem write_then_read ds obj req buf buf0 :
  ds_ok ds → 0 ≤ file_limit → ds_req_ok obj req buf → ds_pos_ok ds obj req →
  file_size ds obj + vol (ri_size req) * unit obj ≤ file_limit →
  lenZ buf = vol (ri_size req) * unit obj → lenZ buf0 = lenZ buf →
  ∃ ds' ds'',
    PDC_Server_data_write_out file_limit data_sieving_g junk open_fd ds obj req buf (unit obj) = Some (SUCCEED, ds') ∧
    PDC_Server_data_read_from data_sieving_g junk open_fd ds' obj req buf0 (unit obj) = Some (SUCCEED, buf, ds'').
Proof.
  intros Hok Hlim0 Hreq Hpos Hroom Hl Hl0.
  destruct (data_write_out_correct ds obj req buf) as (ds' & Hw & Hok' & Hc'); [done..|].
  destruct (data_read_from_correct ds' obj req buf0) as (buf' & ds'' & Hr & Hlb & Hg & _); [done|done| |].
  { destruct Hreq. split; [done..|lia]. }
  exists ds', ds''. split; [done|]. rewrite Hr. do 2 f_equal. f_equal.
  apply (region_buf_ext (dim obj) (unit obj) (ri_offset req) (ri_size req)); [apply Hreq|done|lia|lia|].
  intros p b Hp Hb. change (req_get (unit obj) req buf' p b = req_get (unit obj) req buf p b).
  assert (0 ≤ lin (ri_size req) (psub p (ri_offset req)) * unit obj + b < lenZ buf) as Hk.
  { rewrite Hl. by apply wf_region_lin. }
  rewrite Hg, Hc' by done. rewrite decide_True by done.
  by destruct (getZ_is_Some _ _ Hk) as [x E]; unfold req_get, reg_get; rewrite E.
Qed.

(** A write of a region none of whose points is stored, to a file system
    with no room for it, is reported: the function returns FAIL, no region is
    recorded and nothing stored before is lost. *)
Theorem data_write_out_no_room ds obj req buf :
  ds_ok ds → 0 ≤ file_limit → ds_req_ok obj req buf →
  (∀ r p, r ∈ stored_regions ds obj → in_req req p → ¬ in_stored p r) →
  file_limit < file_size ds obj + vol (ri_size req) * unit obj →
  ∃ ds', PDC_Server_data_write_out file_limit data_sieving_g junk open_fd ds obj req buf (unit obj) = Some (FAIL, ds') ∧
    ds_ok ds' ∧ ∀ obj' p b, 0 ≤ b < unit obj' → ds_content ds' obj' p b = ds_content ds obj' p b.
Proof.
  intros Hok Hlim0 Hreq Hdisj Hfull. unfold PDC_Server_data_write_out.
  destruct (register_spec ds obj 0 Hok Hlim0)
    as (ds1 & i & e & file & -> & Hok1 & Hi & Hefd & He & Hf & Hst & Hlen & Hcont & Hother).
  simpl. rewrite Hi, Hf. simpl. rewrite option_guard_True by done.
  pose proof (do_stores _ Hok1) as Hstores. rewrite list.Forall_forall in Hstores.
  destruct (Hstores e) as (file' & Hf' & Hse); [by eapply list_elem_of_lookup_2|]. subst obj. simplify_eq.
  destruct (write_out_file_full file_limit data_sieving_g junk (dim (dsr_obj_id e)) (unit (dsr_obj_id e))
              (Hdim _) (Hunit _) Hlim (Hsieve _) req buf (dsr_storage e) file)
    as (file2 & Hrun & Hok2 & Hc2); [done|done|by rewrite Hst|lia|].
  rewrite Hrun. simpl.
  destruct (ds_update ds1 i e (dsr_fd e) (dsr_close_flag e) (dsr_storage e) file2 Hok1 Hi Hok2) as (Hok3 & Hent3 & Hne3).
  eexists. split; [done|]. split; [done|]. intros obj' p b Hb.
  destruct (decide (obj' = dsr_obj_id e)) as [->|Hne].
  - unfold ds_content at 1. rewrite Hent3. simpl. by rewrite Hc2, Hcont.
  - apply ds_content_same. by rewrite Hne3, Hother.
Qed.
End Server.

(** The chunked write loop of [PDC_Server_posix_write] terminates and puts
    all [n] bytes at the position, in chunks of at most [max_write_size]
    bytes: the rest of the file stays and the file grows when needed. *)
Theorem posix_write_stores file_limit file pos buf boff n :
  0 ≤ pos ≤ lenZ file → 0 ≤ boff → 0 ≤ n → boff + n ≤ lenZ buf → pos + n ≤ file_limit →
  ∃ file', PDC_Server_posix_write file_limit file pos buf boff n = Some (SUCCEED, file') ∧
    lenZ file' = Z.max (lenZ file) (pos + n) ∧
    ∀ k, getZ file' k = if decide (pos ≤ k < pos + n) then getZ buf (boff + (k - pos)) else getZ file k.
Proof. intros. destruct (posix_write_spec file_limit file pos buf boff n) as (f & ? & ?); eauto. Qed.

(** The position check of the one-dimensional branch rejects a valid
    overwrite: a request inside the first stored region that starts further
    from the beginning of that region than its own size is refused with -1 and
    nothing is written. *)
Theorem write_1d_rejected file_limit sieve junk buf unit req regs file r x s x0 s0 :
  0 < unit → 0 ≤ x0 → x0 + s0 < W64 → s0 * unit < W64 →
  ri_ndim req = 1%nat → ri_offset req = [x] → ri_size req = [s] → rl_start r = [x0] → rl_count r = [s0] →
  x0 ≤ x → 0 < s → x + s ≤ x0 + s0 → s < x - x0 →
  write_out_file file_limit sieve junk req buf unit (r :: regs) file = Some (true, -1, r :: regs, file).
Proof.
  intros Hu Hx0 Hs0 Hv Hnd Ho Hs Hr Hc Hlo Hpos Hhi Hfar.
  assert (s * unit ≤ s0 * unit ∧ (x - x0) * unit ≤ s0 * unit ∧ s * unit < (x - x0) * unit) as (? & ? & ?) by nia.
  assert (PDC_region_overlap_detect 1 [x] [s] [x0] [s0] = Some ([x], [s])) as Hd.
  { unfold PDC_region_overlap_detect, check_overlap, arr. cbn -[u64 Z.add].
    rewrite !(u64_id (x + s)), !(u64_id (x0 + s0)) by lia. repeat case_bool_decide; simpl; try lia.
    by replace (x + s - x) with s by lia; rewrite u64_id by lia. }
  unfold write_out_file. cbn [write_overlaps]. rewrite Hnd, Ho, Hs, Hr, Hc, Hd.
  assert (region_write_size 1 unit [s] = s * unit) as ->.
  { unfold region_write_size, arr. repeat (case_decide; try lia). cbn -[u64 Z.mul]. rewrite u64_id; nia. }
  unfold write_overlap, write_overlap_1d, checks_ret. rewrite Hnd, Hr. unfold arr. cbn -[u64 Z.mul Z.sub].
  rewrite (u64_id (x - x0)), (u64_id ((x - x0) * unit)) by lia.
  rewrite (decide_True (P := (x - x0) * unit > s * unit)) by lia. done.
Qed.

(** * The properties at concrete inputs *)

(** A server with one object (7) of one dimension whose elements 4..7 are
    stored. *)
Definition ex_ds : data_server :=
  DataServer [DataServerRegion 7 (-2) 0 [RegionList 1 [4] [4] 1 0 4]] {[ 7 := [10; 11; 12; 13] ]}.
Definition ex_req : pdc_region_info := RegionInfo 1 [6] [4] [] 1.

Lemma ex_store_ok : store_ok 100 1 1 [RegionList 1 [4] [4] 1 0 4] [10; 11; 12; 13].
Proof.
  split.
  - repeat constructor; vm_compute; congruence.
  - repeat constructor.
  - intros r r' p b ->%list_elem_of_singleton ->%list_elem_of_singleton. done.
  - vm_compute. congruence.
Qed.

Lemma ex_ds_ok : ds_ok 100 (λ _, 1%nat) (λ _, 1) ex_ds.
Proof.
  split.
  - apply NoDup_singleton.
  - apply map_Forall_singleton. vm_compute. congruence.
  - apply list.Forall_singleton. exists [10; 11; 12; 13]. split; [done|]. exact ex_store_ok.
Qed.

Lemma ex_req_ok : ds_req_ok (λ _, 1%nat) (λ _, 1) 7 ex_req [1; 2; 3; 4].
Proof. split; [done|wf_concrete|vm_compute; intuition congruence]. Qed.

Lemma ex_pos_ok : ds_pos_ok (λ _, 1%nat) (λ _, 1) ex_ds 7 ex_req.
Proof. apply list.Forall_singleton. intros _ oo os [= <- <-]. vm_compute. congruence. Qed.

Lemma data_write_out_refines_witness :
  ∃ ds', PDC_Server_data_write_out 100 true 0 3 ex_ds 7 ex_req [1; 2; 3; 4] 1 = Some (SUCCEED, ds') ∧
    ds_content (λ _, 1) ds' 7 [6] 0 = Some 1 ∧ ds_content (λ _, 1) ds' 7 [4] 0 = Some 10.
Proof.
  destruct (data_write_out_refines 100 true 0 3 (λ _, 1%nat) (λ _, 1) ltac:(simpl; lia) ltac:(simpl; lia)
              ltac:(reflexivity) ltac:(left; reflexivity) ltac:(lia) ex_ds 7 ex_req [1; 2; 3; 4] ex_ds_ok ltac:(lia) ex_req_ok ex_pos_ok)
    as (ds' & Hrun & _ & Hc); [vm_compute; congruence|].
  exists ds'. split; [exact Hrun|]. split; (rewrite Hc; [reflexivity|lia]).
Defined.

Lemma data_read_from_refines_witness :
  ∃ buf' ds', PDC_Server_data_read_from true 0 3 ex_ds 7 ex_req [1; 2; 3; 4] 1 = Some (SUCCEED, buf', ds') ∧
    buf' = [12; 13; 3; 4].
Proof.
  destruct (data_read_from_refines 100 true 0 3 (λ _, 1%nat) (λ _, 1) ltac:(simpl; lia) ltac:(simpl; lia)
              ltac:(reflexivity) ltac:(left; reflexivity) ltac:(lia) ex_ds 7 ex_req [1; 2; 3; 4] ex_ds_ok ltac:(lia) ex_req_ok)
    as (buf' & ds' & Hrun & _).
  exists buf', ds'. split; [exact Hrun|]. vm_compute in Hrun. by injection Hrun as <- _.
Defined.

Lemma write_then_read_witness :
  ∃ ds' ds'',
    PDC_Server_data_write_out 100 true 0 3 ex_ds 7 ex_req [1; 2; 3; 4] 1 = Some (SUCCEED, ds') ∧
    PDC_Server_data_read_from true 0 3 ds' 7 ex_req [0; 0; 0; 0] 1 = Some (SUCCEED, [1; 2; 3; 4], ds'').
Proof.
  apply (write_then_read 100 true 0 3 (λ _, 1%nat) (λ _, 1) ltac:(simpl; lia) ltac:(simpl; lia)
           ltac:(reflexivity) ltac:(left; reflexivity) ltac:(lia) ex_ds 7 ex_req [1; 2; 3; 4] [0; 0; 0; 0] ex_ds_ok ltac:(lia) ex_req_ok ex_pos_ok);
    vm_compute; congruence.
Defined.

Lemma data_write_out_no_room_witness :
  ∃ ds', PDC_Server_data_write_out 100 true 0 3 ex_ds 7 (RegionInfo 1 [200] [98] [] 1) (replicate 98 5) 1 = Some (FAIL, ds') ∧
    ds_content (λ _, 1) ds' 7 [4] 0 = Some 10.
Proof.
  destruct (data_write_out_no_room 100 true 0 3 (λ _, 1%nat) (λ _, 1) ltac:(simpl; lia) ltac:(simpl; lia)
              ltac:(reflexivity) ltac:(left; reflexivity) ltac:(lia) ex_ds 7 (RegionInfo 1 [200] [98] [] 1) (replicate 98 5) ex_ds_ok ltac:(lia))
    as (ds' & Hrun & _ & Hc).
  - split; [reflexivity|wf_concrete|vm_compute; intuition congruence].
  - intros r p ->%list_elem_of_singleton. unfold in_req, in_stored. simpl. destruct p as [|x [|]]; [tauto| |tauto]. lia.
  - reflexivity.
  - exists ds'. split; [exact Hrun|]. rewrite Hc by lia. reflexivity.
Defined.

Lemma posix_write_stores_witness :
  ∃ file', PDC_Server_posix_write 100 [1; 2; 3] 2 [7; 8; 9] 1 2 = Some (SUCCEED, file') ∧ lenZ file' = 4.
Proof.
  destruct (posix_write_stores 100 [1; 2; 3] 2 [7; 8; 9] 1 2) as (file' & Hrun & Hl & _);
    [vm_compute; intuition congruence..|].
  exists file'. split; [exact Hrun|]. rewrite Hl. reflexivity.
Defined.

Lemma write_1d_rejected_witness :
  write_out_file 100 true 0 (RegionInfo 1 [5] [2] [] 1) [1; 2] 1 [RegionList 1 [0] [10] 1 0 10] (replicate 10 0)
  = Some (true, -1, [RegionList 1 [0] [10] 1 0 10], replicate 10 0).
Proof.
  apply (write_1d_rejected 100 true 0 [1; 2] 1 (RegionInfo 1 [5] [2] [] 1) [] (replicate 10 0)
           (RegionList 1 [0] [10] 1 0 10) 5 2 0 10); solve [reflexivity|lia|vm_compute; congruence].
Defined.
