(* ===== verification/StorageInterface.v ===== *)
(** The interface between the storage of a data server and its clients: what
    [PDC_Server_transfer_request_io] promises about the bytes of an object.  The
    region cache is verified against this interface; [ServerTransfer] proves the
    laws for the storage engine of [Storage]. *)

From S2P Require Export Storage.

(** * The interface of the storage *)

(** [PDC_Server_transfer_request_io] for writes and for reads. *)
Class RegionStorage (St : Type) := {
  transfer_io_write : St → Z → nat → list Z → pdc_region_info → list byte → Z → option St;
  transfer_io_read : St → Z → nat → list Z → pdc_region_info → list byte → Z → option (list byte * St) }.

(** What it promises.  [st_accepts] is the condition under which a write is
    carried out (there is room for it, say). *)
Class RegionStorageLaws (St : Type) `{RegionStorage St} (dim : Z → nat) (unit : Z → Z) := {
  st_ok : St → Prop;
  st_content : St → Z → list Z → Z → option byte;
  st_accepts : St → Z → pdc_region_info → Prop;
  transfer_io_write_ok st obj dims req buf :
    st_ok st → wf_req (dim obj) (unit obj) req buf → st_accepts st obj req →
    ∃ st', transfer_io_write st obj (dim obj) dims req buf (unit obj) = Some st' ∧ st_ok st' ∧
      ∀ obj' p b, 0 ≤ b < unit obj' →
        st_content st' obj' p b =
          if decide (obj' = obj ∧ in_req req p) then req_get (unit obj) req buf p b else st_content st obj' p b;
  transfer_io_read_ok st obj dims req buf :
    st_ok st → wf_req (dim obj) (unit obj) req buf →
    ∃ buf' st', transfer_io_read st obj (dim obj) dims req buf (unit obj) = Some (buf', st') ∧
      lenZ buf' = lenZ buf ∧ st_ok st' ∧ (∀ obj' p b, st_content st' obj' p b = st_content st obj' p b) ∧
      ∀ p b, in_req req p → 0 ≤ b < unit obj →
        req_get (unit obj) req buf' p b =
          match st_content st obj p b with Some x => Some x | None => req_get (unit obj) req buf p b end }.
