(* ===== verification/Wire.v ===== *)
(** The in-memory representation of the integers that requests carry: [n] bytes
    in little-endian order, as on the machines the code runs on.  [uint64_t],
    [size_t] and [pdcid_t] take eight bytes, [int] takes four. *)

From S2P Require Export Prelude.

Fixpoint le_encode (n : nat) (z : Z) : list byte :=
  match n with
  | O => []
  | S n => z mod 256 :: le_encode n (z / 256)
  end.

Fixpoint le_decode (l : list byte) : Z :=
  match l with
  | [] => 0
  | x :: l => x + 256 * le_decode l
  end.

(** [*((uint64_t * )(buf + off))] and [*((int * )(buf + off))] *)
Definition load_u64 (buf : list byte) (off : Z) : option Z := le_decode <$> mem_read buf off 8.
Definition load_int (buf : list byte) (off : Z) : option Z := (λ d, i32 (le_decode d)) <$> mem_read buf off 4.

Definition u64_bytes (z : Z) : list byte := le_encode 8 z.
Definition int_bytes (z : Z) : list byte := le_encode 4 z.
Definition u64s_bytes (l : list Z) : list byte := l ≫= u64_bytes.

(** [memcmp] of two blocks of the same length *)
Fixpoint memcmp (a b : list byte) : Z :=
  match a, b with x :: a, y :: b => if decide (x = y) then memcmp a b else x - y | [], [] => 0 | [], _ => -1 | _, [] => 1 end.

#[global] Arguments u64_bytes : simpl never.
#[global] Arguments int_bytes : simpl never.
#[global] Arguments u64s_bytes : simpl never.

(** An array of [n] [uint64_t] at [off]. *)
Fixpoint load_u64s (buf : list byte) (off : Z) (n : nat) : option (list Z) :=
  match n with
  | O => Some []
  | S n => x ← load_u64 buf off; l ← load_u64s buf (off + 8) n; Some (x :: l)
  end.

Lemma length_le_encode n z : length (le_encode n z) = n.
Proof. revert z. induction n as [|n IH]; intros z; simpl; [done|by rewrite IH]. Qed.

Lemma le_decode_encode n : ∀ z, 0 ≤ z < 256 ^ Z.of_nat n → le_decode (le_encode n z) = z.
Proof.
  induction n as [|n IH]; intros z Hz.
  - simpl in *. lia.
  - rewrite Nat2Z.inj_succ, Z.pow_succ_r in Hz by lia. cbn [le_encode le_decode].
    rewrite IH.
    + pose proof (Z.div_mod z 256). lia.
    + split; [apply Z.div_pos; lia|]. apply Z.div_lt_upper_bound; lia.
Qed.

Lemma u64_roundtrip z : 0 ≤ z < W64 → le_decode (u64_bytes z) = z.
Proof. intros. by apply le_decode_encode. Qed.

Lemma int_roundtrip z : -2147483648 ≤ z < 2147483648 → i32 (le_decode (int_bytes (z mod W32))) = z.
Proof.
  intros. unfold int_bytes. rewrite le_decode_encode by (change (256 ^ Z.of_nat 4) with W32; apply Z.mod_pos_bound; done).
  unfold i32. rewrite Zplus_mod_idemp_l, Z.mod_small by (unfold W32; lia). lia.
Qed.

(** Reading a buffer that is a concatenation. *)
Lemma mem_read_app {A} (pre d post : list A) :
  mem_read (pre ++ d ++ post) (lenZ pre) (lenZ d) = Some d.
Proof.
  unfold mem_read, lenZ. rewrite !length_app. rewrite decide_True by lia. rewrite !Nat2Z.id.
  by rewrite drop_app_length, take_app_length.
Qed.

Lemma mem_read_at {A} (pre d post : list A) off n :
  off = lenZ pre → n = lenZ d → mem_read (pre ++ d ++ post) off n = Some d.
Proof. intros -> ->. apply mem_read_app. Qed.

Lemma load_u64_app pre z post off : 0 ≤ z < W64 → off = lenZ pre → load_u64 (pre ++ u64_bytes z ++ post) off = Some z.
Proof.
  intros Hz ->. unfold load_u64. rewrite mem_read_at by (done || by unfold lenZ; rewrite length_le_encode).
  change (Some (le_decode (u64_bytes z)) = Some z). by rewrite u64_roundtrip.
Qed.

Lemma load_int_app pre z post off : -2147483648 ≤ z < 2147483648 → off = lenZ pre →
  load_int (pre ++ int_bytes (z mod W32) ++ post) off = Some z.
Proof.
  intros Hz ->. unfold load_int. rewrite mem_read_at by (done || by unfold lenZ; rewrite length_le_encode).
  change (Some (i32 (le_decode (int_bytes (z mod W32)))) = Some z). by rewrite int_roundtrip.
Qed.

Lemma lenZ_u64s_bytes l : lenZ (u64s_bytes l) = 8 * lenZ l.
Proof.
  unfold lenZ, u64s_bytes. induction l as [|x l IH]; [done|].
  rewrite bind_cons, length_app. unfold u64_bytes at 1. rewrite length_le_encode. simpl. lia.
Qed.

Lemma load_u64s_app l : ∀ pre post off, Forall is_u64 l → off = lenZ pre →
  load_u64s (pre ++ u64s_bytes l ++ post) off (length l) = Some l.
Proof.
  induction l as [|x l IH]; intros pre post off Hl Hoff; [done|].
  apply list.Forall_cons in Hl as [Hx Hl]. cbn [length load_u64s].
  unfold u64s_bytes. rewrite bind_cons. fold (u64s_bytes l). rewrite <-app_assoc, load_u64_app by done. cbn [mbind option_bind].
  rewrite app_assoc, IH; [done|done|]. unfold lenZ. rewrite length_app.
  unfold u64_bytes. rewrite length_le_encode. unfold lenZ in Hoff. lia.
Qed.

(** [uint32_t] and [uint8_t] *)
Definition load_u32 (buf : list byte) (off : Z) : option Z := le_decode <$> mem_read buf off 4.
Definition load_u8 (buf : list byte) (off : Z) : option Z := le_decode <$> mem_read buf off 1.
Definition u32_bytes (z : Z) : list byte := le_encode 4 z.
Definition u8_bytes (z : Z) : list byte := le_encode 1 z.

#[global] Arguments u32_bytes : simpl never.
#[global] Arguments u8_bytes : simpl never.

Lemma lenZ_le_encode n z : lenZ (le_encode n z) = Z.of_nat n.
Proof. unfold lenZ. by rewrite length_le_encode. Qed.
Lemma lenZ_u64_bytes z : lenZ (u64_bytes z) = 8.
Proof. apply lenZ_le_encode. Qed.
Lemma lenZ_u32_bytes z : lenZ (u32_bytes z) = 4.
Proof. apply lenZ_le_encode. Qed.
Lemma lenZ_int_bytes z : lenZ (int_bytes z) = 4.
Proof. apply lenZ_le_encode. Qed.
Lemma lenZ_u8_bytes z : lenZ (u8_bytes z) = 1.
Proof. apply lenZ_le_encode. Qed.
Lemma lenZ_nil {A} : lenZ (A := A) [] = 0.
Proof. done. Qed.
Lemma lenZ_cons {A} (x : A) l : lenZ (x :: l) = 1 + lenZ l.
Proof. unfold lenZ. simpl. lia. Qed.

Create Rewrite HintDb wire.
#[export] Hint Rewrite @lenZ_app @lenZ_nil lenZ_u64_bytes lenZ_u32_bytes lenZ_int_bytes lenZ_u8_bytes lenZ_u64s_bytes : wire.

Lemma load_u32_app pre z post off : 0 ≤ z < W32 → off = lenZ pre → load_u32 (pre ++ u32_bytes z ++ post) off = Some z.
Proof.
  intros Hz ->. unfold load_u32. rewrite mem_read_at by (done || by rewrite lenZ_u32_bytes).
  change (Some (le_decode (u32_bytes z)) = Some z). f_equal. by apply le_decode_encode.
Qed.

Lemma load_u8_app pre z post off : 0 ≤ z < 256 → off = lenZ pre → load_u8 (pre ++ u8_bytes z ++ post) off = Some z.
Proof.
  intros Hz ->. unfold load_u8. rewrite mem_read_at by (done || by rewrite lenZ_u8_bytes).
  change (Some (le_decode (u8_bytes z)) = Some z). f_equal. by apply le_decode_encode.
Qed.

(** Loading from a buffer whose part behind [off] is known: what is loaded is
    the first field of that part. *)
Definition at_off {A} (buf : list A) (off : Z) (rest : list A) : Prop := ∃ pre, buf = pre ++ rest ∧ off = lenZ pre.

Lemma at_off_0 {A} (buf : list A) : at_off buf 0 buf.
Proof. by exists []. Qed.
Lemma at_off_app {A} (buf d rest : list A) off off' : at_off buf off (d ++ rest) → off' = off + lenZ d → at_off buf off' rest.
Proof. intros (pre & -> & ->) ->. exists (pre ++ d). by rewrite <-app_assoc, lenZ_app. Qed.

Lemma load_u64_at buf off z rest : at_off buf off (u64_bytes z ++ rest) → 0 ≤ z < W64 → load_u64 buf off = Some z.
Proof. intros (pre & -> & ->) ?. by apply load_u64_app. Qed.
Lemma load_u32_at buf off z rest : at_off buf off (u32_bytes z ++ rest) → 0 ≤ z < W32 → load_u32 buf off = Some z.
Proof. intros (pre & -> & ->) ?. by apply load_u32_app. Qed.
Lemma load_u8_at buf off z rest : at_off buf off (u8_bytes z ++ rest) → 0 ≤ z < 256 → load_u8 buf off = Some z.
Proof. intros (pre & -> & ->) ?. by apply load_u8_app. Qed.
Lemma load_int_at buf off z rest :
  at_off buf off (int_bytes (z mod W32) ++ rest) → -2147483648 ≤ z < 2147483648 → load_int buf off = Some z.
Proof. intros (pre & -> & ->) ?. by apply load_int_app. Qed.
Lemma load_u64s_at buf off l n rest :
  at_off buf off (u64s_bytes l ++ rest) → n = length l → Forall is_u64 l → load_u64s buf off n = Some l.
Proof. intros (pre & -> & ->) -> ?. by apply load_u64s_app. Qed.
Lemma mem_read_at_off {A} (buf : list A) off n d rest : at_off buf off (d ++ rest) → n = lenZ d → mem_read buf off n = Some d.
Proof. intros (pre & -> & ->) ->. by apply mem_read_at. Qed.

(** [memcpy(ptr, &d, n); ptr += n;] into an allocated block: the state is the
    block and the position [ptr]. *)
Definition emit (d : list byte) (st : list byte * Z) : option (list byte * Z) :=
  let '(buf, ptr) := st in buf ← mem_write buf ptr d; Some (buf, ptr + lenZ d).

#[global] Arguments emit : simpl never.

(** While a block is filled from its beginning it holds what was written
    followed by the fresh memory that is left. *)
Definition filling (cap : Z) (w : list byte) (st : list byte * Z) : Prop :=
  ∃ rest, st = (w ++ rest, lenZ w) ∧ lenZ w + lenZ rest = cap.

Lemma filling_malloc junk n : 0 ≤ n → filling n [] (malloc junk n, 0).
Proof. intros Hn. exists (malloc junk n). split; [done|]. by rewrite lenZ_malloc by done. Qed.

Lemma emit_filling cap w st d : filling cap w st → lenZ w + lenZ d ≤ cap →
  ∃ st', emit d st = Some st' ∧ filling cap (w ++ d) st'.
Proof.
  intros (rest & -> & Hc) Hd. unfold emit, mem_write. pose proof (lenZ_nonneg w).
  rewrite decide_True by (rewrite lenZ_app; lia). eexists. split; [reflexivity|].
  exists (drop (length d) rest). split.
  - f_equal.
    + unfold lenZ. rewrite Nat2Z.id, take_app_length, drop_app_add, <-app_assoc. done.
    + by rewrite lenZ_app.
  - rewrite lenZ_app. unfold lenZ in *. rewrite length_drop. lia.
Qed.

Lemma emit_overflow cap w st d : filling cap w st → cap < lenZ w + lenZ d → emit d st = None.
Proof.
  intros (rest & -> & Hc) Hd. unfold emit, mem_write. rewrite decide_False; [done|]. rewrite lenZ_app. lia.
Qed.

Lemma filling_full cap w buf ptr : filling cap w (buf, ptr) → lenZ w = cap → buf = w.
Proof.
  intros (rest & [= -> ->] & Hc) Hw. destruct rest; [by rewrite app_nil_r|]. unfold lenZ in *. simpl in *. lia.
Qed.

(** A step that appends [d] while there is room for it. *)
Definition emits (cap : Z) (f : list byte * Z → option (list byte * Z)) (d : list byte) : Prop :=
  ∀ w st, filling cap w st → lenZ w + lenZ d ≤ cap → ∃ st', f st = Some st' ∧ filling cap (w ++ d) st'.

Lemma emits_emit cap d : emits cap (emit d) d.
Proof. intros w st. apply emit_filling. Qed.
Lemma emits_ret cap : emits cap Some [].
Proof. intros w st Hf _. exists st. by rewrite app_nil_r. Qed.
Lemma emits_bind cap f g d d' : emits cap f d → emits cap g d' → emits cap (λ st, st ← f st; g st) (d ++ d').
Proof.
  intros Hf Hg w st Hst Hl. rewrite lenZ_app in Hl. pose proof (lenZ_nonneg d). pose proof (lenZ_nonneg d').
  destruct (Hf w st Hst ltac:(lia)) as (st1 & -> & Hst1). simpl.
  destruct (Hg _ st1 Hst1) as (st2 & -> & Hst2); [rewrite lenZ_app; lia|]. exists st2. split; [done|]. by rewrite app_assoc.
Qed.
Lemma emits_foldl {X} cap (g : option (list byte * Z) → X → option (list byte * Z)) f (bytes : X → list byte) l :
  (∀ st x, g (Some st) x = f x st) → Forall (λ x, emits cap (f x) (bytes x)) l →
  emits cap (λ st, foldl g (Some st) l) (l ≫= bytes).
Proof.
  intros Hg. induction 1 as [|x l Hx _ IH]; [apply emits_ret|]. rewrite bind_cons. intros w st Hst Hl. cbn [foldl]. rewrite Hg.
  rewrite lenZ_app in Hl. pose proof (lenZ_nonneg (l ≫= bytes)).
  destruct (Hx w st Hst ltac:(lia)) as (st1 & -> & Hst1). destruct (IH _ st1 Hst1) as (st2 & -> & Hst2); [rewrite lenZ_app; lia|].
  exists st2. split; [done|]. by rewrite app_assoc.
Qed.

(** A sum in [uint64_t]. *)
Lemma foldl_addw {X} (f : X → Z) l : ∀ a, 0 ≤ a < W64 → foldl (λ t x, t +w f x) a l = u64 (a + foldr (λ x t, f x + t) 0 l).
Proof.
  induction l as [|x l IH]; intros a Ha; cbn [foldl foldr]; [by rewrite Z.add_0_r, u64_id|].
  rewrite IH by apply u64_range. u64_ring.
Qed.

(** * Message formats *)

(** A region of a metadata query: the object, the data server the client
    proposes, how the region is partitioned, the element size, and the region. *)
Record query_region := QueryRegion {
  qr_obj_id : Z;
  qr_data_server_id : Z;
  qr_region_partition : Z;
  qr_unit : Z;
  qr_offset : list Z;
  qr_size : list Z }.

Record query_region_ok (q : query_region) : Prop := {
  qo_obj_id : is_u64 (qr_obj_id q);
  qo_server : 0 ≤ qr_data_server_id q < W32;
  qo_partition : 0 ≤ qr_region_partition q < 256;
  qo_unit : is_u64 (qr_unit q);
  qo_length : length (qr_size q) = length (qr_offset q);
  qo_ndim : lenZ (qr_offset q) < 2147483648;
  qo_offset : Forall is_u64 (qr_offset q);
  qo_size : Forall is_u64 (qr_size q) }.

Definition query_region_bytes (q : query_region) : list byte :=
  u64_bytes (qr_obj_id q) ++ u32_bytes (qr_data_server_id q) ++ u8_bytes (qr_region_partition q) ++
  int_bytes (lenZ (qr_offset q) mod W32) ++ u64_bytes (qr_unit q) ++ u64s_bytes (qr_offset q) ++ u64s_bytes (qr_size q).

(** The answer lists for every region of the query the overlaps: the server,
    the offset and the size. *)
Definition entry_bytes (e : Z * list Z * list Z) : list byte :=
  let '(data_server_id, offset, size) := e in u32_bytes data_server_id ++ u64s_bytes offset ++ u64s_bytes size.
Definition entries_bytes (es : list (Z * list Z * list Z)) : list byte :=
  int_bytes (lenZ es mod W32) ++ (es ≫= entry_bytes).
Definition sum_len {A} (ls : list (list A)) : Z := foldr (λ l t, lenZ l + t) 0 ls.
Definition answer_bytes (ess : list (list (Z * list Z * list Z))) : list byte :=
  int_bytes (sum_len ess mod W32) ++ (ess ≫= entries_bytes).

Lemma lenZ_entry_bytes d oo os n : lenZ oo = n → lenZ os = n → lenZ (entry_bytes (d, oo, os)) = 4 + 8 * n * 2.
Proof. intros. unfold entry_bytes. autorewrite with wire. lia. Qed.

Lemma lenZ_bind_const {A} (f : A → list byte) (l : list A) k : Forall (λ x, lenZ (f x) = k) l → lenZ (l ≫= f) = lenZ l * k.
Proof.
  induction 1 as [|x l Hx _ IH]; [done|]. rewrite bind_cons, lenZ_app, IH, Hx, lenZ_cons. lia.
Qed.

#[global] Arguments query_region_bytes : simpl never.
#[global] Arguments entry_bytes : simpl never.
#[global] Arguments entries_bytes : simpl never.
#[global] Arguments answer_bytes : simpl never.

(** [memcmp] orders blocks. *)
Lemma memcmp_antisym a : ∀ b, memcmp a b ≤ 0 → memcmp b a ≤ 0 → a = b.
Proof.
  induction a as [|x a IH]; intros [|y b]; cbn; try done; try lia. destruct (decide (x = y)) as [->|]; [|rewrite decide_False by done; lia].
  rewrite decide_True by done. intros H1 H2. f_equal. by apply IH.
Qed.
Lemma memcmp_trans a : ∀ b c, memcmp a b ≤ 0 → memcmp b c ≤ 0 → memcmp a c ≤ 0.
Proof.
  induction a as [|x a IH]; intros [|y b] [|z c]; cbn; try done; try lia. specialize (IH b c). repeat case_decide; subst; try lia.
Qed.
Lemma memcmp_total a : ∀ b, memcmp a b ≤ 0 ∨ memcmp b a ≤ 0.
Proof.
  induction a as [|x a IH]; intros [|y b]; cbn; try lia. destruct (decide (x = y)) as [->|]; [rewrite decide_True by done; apply IH|]. rewrite decide_False by done. lia.
Qed.
Lemma le_encode_inj n : ∀ x y, 0 ≤ x < 256 ^ Z.of_nat n → 0 ≤ y < 256 ^ Z.of_nat n → le_encode n x = le_encode n y → x = y.
Proof. intros x y Hx Hy E. rewrite <-(le_decode_encode n x Hx), <-(le_decode_encode n y Hy). by rewrite E. Qed.
