(* ===== verification/ServerTransfer.v ===== *)
(** The transfer requests of a data server
    ([src/src/server/pdc_server_region/pdc_server_region_transfer.c]): the list
    of pending requests and their status, the I/O of a request in the two
    storage layouts (region by region, or one flat file per object), and the
    parser of the buffer that carries the requests of a start-all call. *)

From S2P Require Export StorageInterface Wire.

(** * The status list *)

(** [pdc_transfer_status_t] *)
Inductive pdc_transfer_status_t :=
  | PDC_TRANSFER_STATUS_COMPLETE | PDC_TRANSFER_STATUS_PENDING | PDC_TRANSFER_STATUS_NOT_FOUND.

#[global] Instance status_eq_dec : EqDecision pdc_transfer_status_t.
Proof. solve_decision. Defined.

(** [pdc_transfer_request_status]; [handle_ref] points to a counter that several
    requests may share, so it names a cell of [ts_refs]. *)
Record pdc_transfer_request_status := RequestStatus {
  rs_handle : Z;
  rs_transfer_request_id : Z;
  rs_status : pdc_transfer_status_t;
  rs_handle_ref : option Z;
  rs_out_type : Z }.

(** The status list, the counters, the next ID and the responses sent so far
    (the handle, and whether the answer is that of a wait-all call). *)
Record transfer_state := TransferState {
  ts_list : list pdc_transfer_request_status;
  ts_refs : gmap Z Z;
  ts_transfer_request_id_g : Z;
  ts_responses : list (Z * bool) }.

Definition PDC_server_transfer_request_init : transfer_state := TransferState [] ∅ 1 [].

Definition PDC_transfer_request_id_register (s : transfer_state) : Z * transfer_state :=
  (ts_transfer_request_id_g s,
   TransferState (ts_list s) (ts_refs s) (ts_transfer_request_id_g s +w 1) (ts_responses s)).

Definition PDC_commit_request (s : transfer_state) (transfer_request_id : Z) : transfer_state :=
  TransferState (ts_list s ++ [RequestStatus 0 transfer_request_id PDC_TRANSFER_STATUS_PENDING None (-1)])
    (ts_refs s) (ts_transfer_request_id_g s) (ts_responses s).

(** The loop of [PDC_finish_request]: it ends at the first request with the ID
    that has a handle, which leaves the list. *)
Fixpoint finish_loop (id : Z) (l : list pdc_transfer_request_status) (refs : gmap Z Z) (responses : list (Z * bool))
    : option (list pdc_transfer_request_status * gmap Z Z * list (Z * bool)) :=
  match l with
  | [] => Some ([], refs, responses)
  | r :: l =>
    if decide (rs_transfer_request_id r = id) then
      match rs_handle_ref r with
      | Some h =>
          c ← refs !! h;
          if decide (c - 1 = 0)
          then Some (l, delete h refs, responses ++ [(rs_handle r, negb (bool_decide (rs_out_type r = 0)))])
          else Some (l, <[h := c - 1]> refs, responses)
      | None =>
          '(l, refs, responses) ← finish_loop id l refs responses;
          Some (RequestStatus (rs_handle r) (rs_transfer_request_id r) PDC_TRANSFER_STATUS_COMPLETE None (rs_out_type r) :: l,
                refs, responses)
      end
    else
      '(l, refs, responses) ← finish_loop id l refs responses; Some (r :: l, refs, responses)
  end.

Definition PDC_finish_request (s : transfer_state) (transfer_request_id : Z) : option transfer_state :=
  '(l, refs, responses) ← finish_loop transfer_request_id (ts_list s) (ts_refs s) (ts_responses s);
  Some (TransferState l refs (ts_transfer_request_id_g s) responses).

(** The loop of [PDC_check_request]: the first request with the ID decides. *)
Fixpoint check_loop (id : Z) (l : list pdc_transfer_request_status)
    : pdc_transfer_status_t * list pdc_transfer_request_status :=
  match l with
  | [] => (PDC_TRANSFER_STATUS_NOT_FOUND, [])
  | r :: l =>
    if decide (rs_transfer_request_id r = id) then
      match rs_handle_ref r with
      | Some _ => (PDC_TRANSFER_STATUS_COMPLETE, r :: l)
      | None => (rs_status r, if decide (rs_status r = PDC_TRANSFER_STATUS_COMPLETE) then l else r :: l)
      end
    else let '(ret, l) := check_loop id l in (ret, r :: l)
  end.

Definition PDC_check_request (s : transfer_state) (transfer_request_id : Z) : pdc_transfer_status_t * transfer_state :=
  let '(ret, l) := check_loop transfer_request_id (ts_list s) in
  (ret, TransferState l (ts_refs s) (ts_transfer_request_id_g s) (ts_responses s)).

Fixpoint try_finish_loop (id handle handle_ref out_type : Z) (l : list pdc_transfer_request_status) (refs : gmap Z Z)
    : option (list pdc_transfer_request_status * gmap Z Z) :=
  match l with
  | [] => Some ([], refs)
  | r :: l =>
    if decide (rs_transfer_request_id r = id) then
      c ← refs !! handle_ref;
      Some (RequestStatus handle (rs_transfer_request_id r) (rs_status r) (Some handle_ref) out_type :: l,
            <[handle_ref := c + 1]> refs)
    else '(l, refs) ← try_finish_loop id handle handle_ref out_type l refs; Some (r :: l, refs)
  end.

Definition PDC_try_finish_request (s : transfer_state) (transfer_request_id handle handle_ref out_type : Z)
    : option (pdc_transfer_status_t * transfer_state) :=
  '(l, refs) ← try_finish_loop transfer_request_id handle handle_ref out_type (ts_list s) (ts_refs s);
  Some (PDC_TRANSFER_STATUS_NOT_FOUND, TransferState l refs (ts_transfer_request_id_g s) (ts_responses s)).

(** * The I/O of a request *)

Section IO.
Context (io_by_region_g : bool) (file_limit : Z) (data_sieving_g : bool) (junk : byte) (open_fd : Z).

(** [PDC_POSIX_IO] after the [lseek]: a failure or a short transfer is only
    logged.  The state is the file and the buffer. *)
Definition PDC_POSIX_IO (is_write : bool) (pos boff io_size : Z) (st : list byte * list byte)
    : option (list byte * list byte) :=
  let '(file, buf) := st in
  if is_write then d ← mem_read buf boff io_size; Some ((os_write file_limit file pos d).2, buf)
  else buf ← mem_write buf boff (os_pread file pos io_size); Some (file, buf).

(** A loop that advances [buf] by [io_size] after each transfer. *)
Definition io_rows (n : Z) (is_write : bool) (pos : Z → Z) (io_size : Z) (st : list byte * list byte * Z)
    : option (list byte * list byte * Z) :=
  forZ (Z.to_nat n) 0 (λ i '(st, boff), st ← PDC_POSIX_IO is_write (pos i) boff io_size st; Some (st, boff + io_size)) st.

(** The flat layout: the file is the row-major array of the whole object. *)
Definition flat_io (is_write : bool) (obj_dims : list Z) (region_info : pdc_region_info) (unit : Z)
    (st : list byte * list byte) : option (list byte * list byte) :=
  let off := arr (ri_offset region_info) in
  let size := arr (ri_size region_info) in
  let dims := arr obj_dims in
  match ri_ndim region_info with
  | 1%nat => PDC_POSIX_IO is_write (off 0%nat *w unit) 0 (size 0%nat *w unit) st
  | 2%nat =>
      if decide (off 1%nat = 0 ∧ size 1%nat = dims 1%nat)
      then PDC_POSIX_IO is_write (off 0%nat *w dims 1%nat *w unit) 0 (size 0%nat *w dims 1%nat *w unit) st
      else
        '(st, _) ← io_rows (size 0%nat) is_write (λ i, ((i +w off 0%nat) *w dims 1%nat +w off 1%nat) *w unit)
                     (size 1%nat *w unit) (st, 0);
        Some st
  | 3%nat =>
      if decide (off 1%nat = 0 ∧ size 1%nat = dims 1%nat ∧ off 2%nat = 0 ∧ size 2%nat = dims 2%nat)
      then PDC_POSIX_IO is_write (off 0%nat *w size 1%nat *w size 2%nat *w unit) 0
             (size 0%nat *w size 1%nat *w size 2%nat *w unit) st
      else if decide (off 2%nat = 0 ∧ size 2%nat = dims 2%nat) then
        '(st, _) ← io_rows (size 0%nat) is_write
                     (λ i, ((i +w off 0%nat) *w dims 1%nat *w dims 2%nat +w off 1%nat *w dims 2%nat) *w unit)
                     (size 1%nat *w dims 2%nat *w unit) (st, 0);
        Some st
      else
        '(st, _) ← forZ (Z.to_nat (size 0%nat)) 0 (λ i,
          io_rows (size 1%nat) is_write
            (λ j, ((off 0%nat +w i) *w dims 1%nat *w dims 2%nat +w (off 1%nat +w j) *w dims 2%nat +w off 2%nat) *w unit)
            (size 2%nat *w unit)) (st, 0);
        Some st
  | _ => Some st
  end.

(** The result code is always SUCCEED: the code does not look at that of the
    write.  A failing [open] is not modelled for the flat layout. *)
Definition PDC_Server_transfer_request_io (ds : data_server) (obj_id : Z) (obj_ndim : nat) (obj_dims : list Z)
    (region_info : pdc_region_info) (buf : list byte) (unit : Z) (is_write : bool)
    : option (perr_t * list byte * data_server) :=
  if io_by_region_g || bool_decide (obj_ndim = 0%nat) then
    if is_write then
      '(_, ds) ← PDC_Server_data_write_out file_limit data_sieving_g junk open_fd ds obj_id region_info buf unit;
      Some (SUCCEED, buf, ds)
    else
      '(_, buf, ds) ← PDC_Server_data_read_from data_sieving_g junk open_fd ds obj_id region_info buf unit;
      Some (SUCCEED, buf, ds)
  else if decide (obj_ndim ≠ ri_ndim region_info) then Some (SUCCEED, buf, ds)
  else
    let files := os_open ds obj_id in
    file ← files !! obj_id;
    '(file, buf) ← flat_io is_write obj_dims region_info unit (file, buf);
    Some (SUCCEED, buf, DataServer (ds_regions ds) (<[obj_id := file]> files)).
End IO.

(** * Parsing the requests of a start-all call *)

(** The entry of one object in [transfer_request_all_data]; [data_buf] is a
    position in the buffer. *)
Record request_data := RequestData {
  rd_obj_id : Z;
  rd_obj_ndim : Z;
  rd_remote_ndim : Z;
  rd_unit : Z;
  rd_remote_offset : list Z;
  rd_remote_length : list Z;
  rd_obj_dims : list Z;
  rd_data_buf : option Z }.

Fixpoint parse_headers (buf : list byte) (ptr : Z) (n : nat) : option (list (Z * Z * Z * Z) * Z) :=
  match n with
  | O => Some ([], ptr)
  | S n =>
    obj_id ← load_u64 buf ptr;
    obj_ndim ← load_int buf (ptr + 8);
    remote_ndim ← load_int buf (ptr + 12);
    unit ← load_u64 buf (ptr + 16);
    '(l, ptr) ← parse_headers buf (ptr + 24) n;
    Some ((obj_id, obj_ndim, remote_ndim, unit) :: l, ptr)
  end.

Fixpoint parse_bodies (buf : list byte) (access_type : pdc_access_t) (ptr : Z) (hs : list (Z * Z * Z * Z))
    : option (list request_data) :=
  match hs with
  | [] => Some []
  | (obj_id, obj_ndim, remote_ndim, unit) :: hs =>
    remote_offset ← load_u64s buf ptr (Z.to_nat remote_ndim);
    let ptr := ptr + remote_ndim * 8 in
    remote_length ← load_u64s buf ptr (Z.to_nat remote_ndim);
    let ptr := ptr + remote_ndim * 8 in
    obj_dims ← load_u64s buf ptr (Z.to_nat obj_ndim);
    let ptr := ptr + obj_ndim * 8 in
    let data_size := foldl (λ s j, s *w arr remote_length j) (arr remote_length 0 *w unit)
                       (seq 1 (Z.to_nat remote_ndim - 1)) in
    let '(data_buf, ptr) :=
      if decide (access_type = PDC_WRITE) then (Some ptr, ptr + data_size) else (None, ptr) in
    l ← parse_bodies buf access_type ptr hs;
    Some (RequestData obj_id obj_ndim remote_ndim unit remote_offset remote_length obj_dims data_buf :: l)
  end.

Definition parse_bulk_data (buf : list byte) (n_objs : nat) (access_type : pdc_access_t) : option (list request_data) :=
  '(hs, ptr) ← parse_headers buf 0 n_objs; parse_bodies buf access_type ptr hs.

(** * The status list: lemmas *)

Abbreviation ids_of l := (fmap (M := list) rs_transfer_request_id l).

(** The requests that wait on the counter [h], and the invariant of the
    counters: each holds the number of requests that wait on it. *)
Definition bound_to (h : Z) (l : list pdc_transfer_request_status) : list pdc_transfer_request_status :=
  filter (λ r, rs_handle_ref r = Some h) l.

Record transfer_ok (s : transfer_state) : Prop := {
  to_nodup : NoDup (ids_of (ts_list s));
  to_refs : ∀ h, bound_to h (ts_list s) ≠ [] → ts_refs s !! h = Some (lenZ (bound_to h (ts_list s))) }.

Lemma bound_to_app h l l' : bound_to h (l ++ l') = bound_to h l ++ bound_to h l'.
Proof. apply list.filter_app. Qed.

Lemma finish_loop_absent id l refs resp : id ∉ ids_of l → finish_loop id l refs resp = Some (l, refs, resp).
Proof.
  induction l as [|r l IH]; csimpl; [done|]. intros [Hne Hni]%not_elem_of_cons.
  rewrite decide_False by congruence. by rewrite (IH Hni).
Qed.

Lemma finish_loop_at id l1 r l2 refs resp :
  id ∉ ids_of l1 → id ∉ ids_of l2 → rs_transfer_request_id r = id →
  finish_loop id (l1 ++ r :: l2) refs resp =
    match rs_handle_ref r with
    | Some h =>
        c ← refs !! h;
        if decide (c - 1 = 0)
        then Some (l1 ++ l2, delete h refs, resp ++ [(rs_handle r, negb (bool_decide (rs_out_type r = 0)))])
        else Some (l1 ++ l2, <[h := c - 1]> refs, resp)
    | None =>
        Some (l1 ++ RequestStatus (rs_handle r) id PDC_TRANSFER_STATUS_COMPLETE None (rs_out_type r) :: l2, refs, resp)
    end.
Proof.
  intros H1 H2 Hid. induction l1 as [|r1 l1 IH]; csimpl in *.
  - rewrite decide_True by done. destruct (rs_handle_ref r); [done|]. rewrite finish_loop_absent by done.
    simpl. by rewrite Hid.
  - apply not_elem_of_cons in H1 as [Hne H1]. rewrite decide_False by congruence. rewrite (IH H1). destruct (rs_handle_ref r) as [h|]; [|done].
    destruct (refs !! h) as [c|]; [|done]. simpl. by destruct (decide (c - 1 = 0)).
Qed.

Lemma check_loop_at id l1 r l2 : id ∉ ids_of l1 → rs_transfer_request_id r = id →
  check_loop id (l1 ++ r :: l2) =
    match rs_handle_ref r with
    | Some _ => (PDC_TRANSFER_STATUS_COMPLETE, l1 ++ r :: l2)
    | None => (rs_status r, if decide (rs_status r = PDC_TRANSFER_STATUS_COMPLETE) then l1 ++ l2 else l1 ++ r :: l2)
    end.
Proof.
  intros H1 Hid. induction l1 as [|r1 l1 IH]; csimpl in *.
  - rewrite decide_True by done. destruct (rs_handle_ref r); [done|]. by case_decide.
  - apply not_elem_of_cons in H1 as [Hne H1]. rewrite decide_False by congruence. rewrite (IH H1). destruct (rs_handle_ref r); [done|]. by case_decide.
Qed.

Lemma check_loop_absent id l : id ∉ ids_of l → check_loop id l = (PDC_TRANSFER_STATUS_NOT_FOUND, l).
Proof.
  induction l as [|r l IH]; csimpl; [done|]. intros [Hne Hni]%not_elem_of_cons.
  rewrite decide_False by congruence. by rewrite (IH Hni).
Qed.

Lemma try_finish_loop_at id handle href ot l1 r l2 refs c : id ∉ ids_of l1 → rs_transfer_request_id r = id →
  refs !! href = Some c →
  try_finish_loop id handle href ot (l1 ++ r :: l2) refs =
    Some (l1 ++ RequestStatus handle id (rs_status r) (Some href) ot :: l2, <[href := c + 1]> refs).
Proof.
  intros H1 Hid Hc. induction l1 as [|r1 l1 IH]; csimpl in *.
  - rewrite decide_True by done. rewrite Hc. simpl. by rewrite Hid.
  - apply not_elem_of_cons in H1 as [Hne H1]. rewrite decide_False by congruence. by rewrite (IH H1).
Qed.

(** The loops of the RPC handlers that finish a batch of requests. *)
Definition finish_all (s : transfer_state) (ids : list Z) : option transfer_state :=
  foldl (λ s id, (s ← s; PDC_finish_request s id)) (Some s) ids.

Lemma finish_all_cons s id ids : finish_all s (id :: ids) = (s ← PDC_finish_request s id; finish_all s ids).
Proof.
  unfold finish_all. simpl. destruct (PDC_finish_request s id) as [s'|]; [done|]. simpl.
  induction ids; [done|]. done.
Qed.

Lemma ids_split (l : list pdc_transfer_request_status) r : NoDup (ids_of l) → r ∈ l →
  ∃ l1 l2, l = l1 ++ r :: l2 ∧ (rs_transfer_request_id r ∉ ids_of l1) ∧ (rs_transfer_request_id r ∉ ids_of l2) ∧
    NoDup (ids_of (l1 ++ l2)).
Proof.
  intros Hnd (l1 & l2 & ->)%list_elem_of_split. exists l1, l2. split; [done|].
  rewrite fmap_app in Hnd. simpl in Hnd. rewrite fmap_app.
  apply list.NoDup_app in Hnd as (Hnd1 & Hdis & [Hni Hnd2]%list.NoDup_cons).
  split; [intros Hin; apply (Hdis _ Hin); set_solver|]. split; [done|].
  apply list.NoDup_app. split; [done|]. split; [|done]. intros x Hx Hx2. apply (Hdis x Hx). set_solver.
Qed.

(** Finishing a request that waits on a counter. *)
Lemma finish_bound s r h : transfer_ok s → r ∈ ts_list s → rs_handle_ref r = Some h →
  ∃ s', PDC_finish_request s (rs_transfer_request_id r) = Some s' ∧ transfer_ok s' ∧
    (∃ l1 l2, ts_list s = l1 ++ r :: l2 ∧ ts_list s' = l1 ++ l2) ∧
    ts_responses s' = ts_responses s ++
      (if decide (lenZ (bound_to h (ts_list s)) = 1) then [(rs_handle r, negb (bool_decide (rs_out_type r = 0)))] else []).
Proof.
  intros [Hnd Hrefs] Hr Hh. destruct (ids_split _ _ Hnd Hr) as (l1 & l2 & Hl & H1 & H2 & Hnd').
  assert (bound_to h (ts_list s) = bound_to h l1 ++ r :: bound_to h l2) as Hb.
  { rewrite Hl, bound_to_app. unfold bound_to at 2. by rewrite filter_cons_True. }
  assert (∀ h', h' ≠ h → bound_to h' (ts_list s) = bound_to h' (l1 ++ l2)) as Hb'.
  { intros h' Hne. rewrite Hl, !bound_to_app. unfold bound_to at 2. rewrite filter_cons_False by congruence. done. }
  assert (lenZ (bound_to h (ts_list s)) = lenZ (bound_to h (l1 ++ l2)) + 1) as Hlen.
  { rewrite Hb, bound_to_app. unfold lenZ. rewrite !length_app. simpl. lia. }
  pose proof (Hrefs h) as Hc. rewrite Hb in Hc at 1. specialize (Hc ltac:(by destruct (bound_to h l1))).
  unfold PDC_finish_request. rewrite Hl, finish_loop_at, Hh, Hc by done. simpl. rewrite <-Hl.
  pose proof (lenZ_nonneg (bound_to h (l1 ++ l2))).
  destruct (decide (lenZ (bound_to h (ts_list s)) - 1 = 0)) as [E|E].
  - rewrite decide_True by lia. eexists. split; [done|]. split; [|split; [eauto|done]]. split; [done|]. simpl.
    intros h' Hne. destruct (decide (h' = h)) as [->|].
    + destruct Hne. apply length_zero_iff_nil. unfold lenZ in *. lia.
    + rewrite lookup_delete_ne by done. rewrite <-Hb' by done. apply Hrefs. by rewrite Hb'.
  - rewrite decide_False by lia. rewrite app_nil_r. eexists. split; [done|]. split; [|split; [eauto|done]]. split; [done|].
    simpl. intros h' Hne. destruct (decide (h' = h)) as [->|].
    + rewrite lookup_insert_eq. f_equal. lia.
    + rewrite lookup_insert_ne by done. rewrite <-Hb' by done. apply Hrefs. by rewrite Hb'.
Qed.

Lemma finish_all_responds ids : ∀ s h handle out_type,
  transfer_ok s → (∀ r, r ∈ bound_to h (ts_list s) → rs_handle r = handle ∧ rs_out_type r = out_type) →
  ids ≡ₚ ids_of (bound_to h (ts_list s)) → ids ≠ [] →
  ∃ s', finish_all s ids = Some s' ∧ transfer_ok s' ∧
    ts_responses s' = ts_responses s ++ [(handle, negb (bool_decide (out_type = 0)))] ∧
    (∀ id, id ∈ ids → id ∉ ids_of (ts_list s')) ∧ ids_of (ts_list s') ⊆ ids_of (ts_list s) ∧
    ∀ k, (k < length ids)%nat → ∃ sk, finish_all s (take k ids) = Some sk ∧ ts_responses sk = ts_responses s.
Proof.
  induction ids as [|id ids IH]; intros s h handle out_type Hok Hall Hperm Hne; [done|].
  assert (id ∈ ids_of (bound_to h (ts_list s))) as (r & Hid & Hr)%list_elem_of_fmap by (rewrite <-Hperm; set_solver).
  destruct (Hall r Hr) as [Hhandle Hout]. apply list_elem_of_filter in Hr as Hr'. destruct Hr' as [Hh Hin].
  destruct (finish_bound s r h Hok Hin Hh) as (s1 & Hf & Hok1 & (l1 & l2 & Hl & Hl1) & Hresp). rewrite <-Hid in Hf.
  assert (bound_to h (ts_list s) ≡ₚ r :: bound_to h (ts_list s1)) as Hb.
  { rewrite Hl, Hl1, !bound_to_app. unfold bound_to at 2. rewrite filter_cons_True by done. by rewrite Permutation_middle. }
  assert (ids ≡ₚ ids_of (bound_to h (ts_list s1))) as Hperm1.
  { rewrite Hb in Hperm. csimpl in Hperm. rewrite <-Hid in Hperm. by apply Permutation_cons_inv in Hperm. }
  assert (lenZ (bound_to h (ts_list s)) = lenZ ids + 1) as Hlen.
  { unfold lenZ. rewrite Hb. simpl. rewrite (Permutation_length Hperm1), length_fmap. lia. }
  assert (id ∉ ids_of (ts_list s1)) as Hgone.
  { pose proof (to_nodup _ Hok) as Hnd. rewrite Hl, fmap_app in Hnd. csimpl in Hnd.
    apply list.NoDup_app in Hnd as (_ & Hdis & [Hni _]%list.NoDup_cons). rewrite Hl1, fmap_app, Hid.
    intros [Hx|Hx]%elem_of_app; [|done]. apply (Hdis _ Hx). set_solver. }
  assert (ids_of (ts_list s1) ⊆ ids_of (ts_list s)) as Hsub.
  { rewrite Hl, Hl1, !fmap_app. csimpl. set_solver. }
  rewrite Hlen in Hresp. destruct (decide (ids = [])) as [->|Hne'].
  - exists s1. rewrite finish_all_cons, Hf. split; [done|]. split; [done|]. split; [by rewrite Hresp, Hhandle, Hout|].
    split; [by intros id' ->%list_elem_of_singleton|]. split; [done|].
    intros [|k] Hk; [|simpl in Hk; lia]. by exists s.
  - assert (lenZ ids ≠ 0) by (by destruct ids). rewrite decide_False, app_nil_r in Hresp by lia.
    destruct (IH s1 h handle out_type) as (s' & Hf' & Hok' & Hresp' & Hgone' & Hsub' & Hpre); [done| |done|done|].
    { intros r' Hr'. apply Hall. rewrite Hb. set_solver. }
    exists s'. rewrite finish_all_cons, Hf. split; [done|]. split; [done|]. split; [by rewrite Hresp', Hresp|]. split.
    + intros id' [->|Hid']%elem_of_cons; [|by apply Hgone']. intros Hx. by apply Hgone, Hsub'.
    + split; [set_solver|]. intros [|k] Hk; [by exists s|]. simpl in Hk. destruct (Hpre k) as (sk & Hk1 & Hk2); [lia|].
      exists sk. simpl. rewrite finish_all_cons, Hf. split; [done|]. by rewrite Hk2.
Qed.

Lemma ids_cases (l : list pdc_transfer_request_status) id : NoDup (ids_of l) →
  id ∉ ids_of l ∨ ∃ l1 r l2, l = l1 ++ r :: l2 ∧ rs_transfer_request_id r = id ∧ r ∈ l ∧
    (id ∉ ids_of l1) ∧ (id ∉ ids_of l2) ∧ NoDup (ids_of (l1 ++ l2)).
Proof.
  intros Hnd. destruct (decide (id ∈ ids_of l)) as [(r & Hid & Hr)%list_elem_of_fmap|]; [|by left]. right.
  destruct (ids_split l r Hnd Hr) as (l1 & l2 & Hl & ? & ? & ?). exists l1, r, l2. rewrite Hid. auto 10.
Qed.

(** The counters under each operation on the status list. *)
Lemma transfer_ok_commit s id : transfer_ok s → id ∉ ids_of (ts_list s) → transfer_ok (PDC_commit_request s id).
Proof.
  intros [Hnd Hrefs] Hni. destruct s as [l refs g resp]. split; simpl in *.
  - rewrite fmap_app. apply list.NoDup_app. split; [done|]. split; [|apply NoDup_singleton].
    intros x Hx ->%list_elem_of_singleton. done.
  - intros h. rewrite bound_to_app. unfold bound_to at 2 4. rewrite filter_cons_False by done.
    rewrite filter_nil, app_nil_r. apply Hrefs.
Qed.

Lemma transfer_ok_check s id : transfer_ok s → transfer_ok (PDC_check_request s id).2.
Proof.
  intros Hok. pose proof Hok as [Hnd Hrefs]. destruct s as [l refs g resp]. simpl in *.
  unfold PDC_check_request. simpl. destruct (ids_cases l id Hnd) as [Hni|(l1 & r & l2 & -> & Hid & Hr & H1 & H2 & Hnd')].
  - by rewrite check_loop_absent.
  - rewrite check_loop_at by done. destruct (rs_handle_ref r) as [h|] eqn:Hh; [done|]. simpl. case_decide; [|done].
    split; [done|]. simpl. intros h. specialize (Hrefs h). rewrite !bound_to_app in *.
    unfold bound_to at 2 4 in Hrefs. rewrite filter_cons_False in Hrefs by congruence. done.
Qed.

Lemma transfer_ok_finish s id : transfer_ok s → ∃ s', PDC_finish_request s id = Some s' ∧ transfer_ok s'.
Proof.
  intros Hok. pose proof Hok as [Hnd Hrefs]. destruct s as [l refs g resp]. simpl in *.
  destruct (ids_cases l id Hnd) as [Hni|(l1 & r & l2 & -> & Hid & Hr & H1 & H2 & Hnd')].
  - unfold PDC_finish_request. simpl. rewrite finish_loop_absent by done. simpl. eauto.
  - destruct (rs_handle_ref r) as [h|] eqn:Hh.
    + destruct (finish_bound _ r h Hok Hr Hh) as (s' & Hf & Hok' & _). rewrite Hid in Hf. eauto.
    + unfold PDC_finish_request. simpl. rewrite finish_loop_at, Hh by done. simpl. eexists. split; [done|].
      split; simpl.
      * rewrite fmap_app in *. csimpl in *. by rewrite <-Hid in *.
      * intros h. specialize (Hrefs h). rewrite !bound_to_app in *. unfold bound_to at 2 4 in Hrefs.
        rewrite filter_cons_False in Hrefs by congruence. unfold bound_to at 2 4. by rewrite filter_cons_False.
Qed.

Lemma transfer_ok_try_finish s id handle href out_type r :
  transfer_ok s → r ∈ ts_list s → rs_transfer_request_id r = id → rs_handle_ref r = None →
  ts_refs s !! href = Some (lenZ (bound_to href (ts_list s))) →
  ∃ ret s', PDC_try_finish_request s id handle href out_type = Some (ret, s') ∧ transfer_ok s'.
Proof.
  intros [Hnd Hrefs] Hr Hid Hh Hc. destruct s as [l refs g resp]. simpl in *.
  destruct (ids_split l r Hnd Hr) as (l1 & l2 & -> & H1 & H2 & Hnd'). rewrite Hid in *.
  unfold PDC_try_finish_request. simpl.
  rewrite (try_finish_loop_at id handle href out_type l1 r l2 refs _ H1 Hid Hc). simpl. eexists _, _. split; [done|].
  assert (∀ h, bound_to h (l1 ++ r :: l2) = bound_to h l1 ++ bound_to h l2) as Hb.
  { intros h. rewrite bound_to_app. unfold bound_to at 2. by rewrite filter_cons_False by congruence. }
  split; simpl.
  - rewrite fmap_app in *. csimpl in *. by rewrite <-Hid in *.
  - set (r' := RequestStatus handle id (rs_status r) (Some href) out_type) in *. intros h.
    assert (bound_to h (l1 ++ r' :: l2) = bound_to h l1 ++ (if decide (h = href) then [r'] else []) ++ bound_to h l2) as ->.
    { rewrite bound_to_app. unfold bound_to at 2. case_decide as E.
      * subst h. by rewrite filter_cons_True.
      * by rewrite filter_cons_False by (simpl; congruence). }
    case_decide as E; intros Hne.
    + subst h. rewrite lookup_insert_eq. f_equal. rewrite Hb. unfold lenZ. rewrite !length_app. simpl. lia.
    + rewrite lookup_insert_ne by done. specialize (Hrefs h). rewrite Hb in Hrefs. by apply Hrefs.
Qed.

(** ** Properties *)

(** The life of a transfer request nobody waits for: once committed it is
    pending, once finished it is complete, asking for the status of a complete
    request removes it, and then it is not found. *)
Theorem request_lifecycle s id :
  id ∉ ids_of (ts_list s) →
  let s1 := PDC_commit_request s id in
  PDC_check_request s1 id = (PDC_TRANSFER_STATUS_PENDING, s1) ∧
  ∃ s2, PDC_finish_request s1 id = Some s2 ∧
    PDC_check_request s2 id = (PDC_TRANSFER_STATUS_COMPLETE, s) ∧
    PDC_check_request s id = (PDC_TRANSFER_STATUS_NOT_FOUND, s).
Proof.
  intros Hni s1. destruct s as [l refs g resp]. unfold s1, PDC_check_request, PDC_finish_request, PDC_commit_request.
  simpl in *. rewrite check_loop_at by done. simpl. split; [done|].
  rewrite finish_loop_at by (done || set_solver). simpl. eexists. split; [done|]. simpl.
  rewrite check_loop_at by done. simpl. rewrite app_nil_r. split; [done|]. by rewrite check_loop_absent.
Qed.

(** A wait-all call whose handle is bound to a group of requests is
    answered exactly once, when the last of them finishes, in whatever order
    they finish; no access goes through a freed counter, and the finished
    requests leave the list. *)
Theorem wait_all_responds_once s h handle out_type ids :
  transfer_ok s → (∀ r, r ∈ bound_to h (ts_list s) → rs_handle r = handle ∧ rs_out_type r = out_type) →
  ids ≡ₚ ids_of (bound_to h (ts_list s)) → ids ≠ [] →
  ∃ s', finish_all s ids = Some s' ∧
    ts_responses s' = ts_responses s ++ [(handle, negb (bool_decide (out_type = 0)))] ∧
    (∀ id, id ∈ ids → id ∉ ids_of (ts_list s')) ∧
    ∀ k, (k < length ids)%nat → ∃ sk, finish_all s (take k ids) = Some sk ∧ ts_responses sk = ts_responses s.
Proof.
  intros. destruct (finish_all_responds ids s h handle out_type) as (s' & ? & ? & ? & ? & ? & ?); [done..|].
  exists s'. auto.
Qed.

(** The reference counters stay exact: committing a new request, asking
    for a status, finishing a request and binding a pending request to a handle
    (whose counter is exact) all keep the invariant; finishing never touches a
    freed counter. *)
Theorem transfer_ok_preserved s id :
  transfer_ok s →
  (id ∉ ids_of (ts_list s) → transfer_ok (PDC_commit_request s id)) ∧
  transfer_ok (PDC_check_request s id).2 ∧
  (∃ s', PDC_finish_request s id = Some s' ∧ transfer_ok s') ∧
  ∀ handle href out_type r, r ∈ ts_list s → rs_transfer_request_id r = id → rs_handle_ref r = None →
    ts_refs s !! href = Some (lenZ (bound_to href (ts_list s))) →
    ∃ ret s', PDC_try_finish_request s id handle href out_type = Some (ret, s') ∧ transfer_ok s'.
Proof.
  intros Hok. split; [by apply transfer_ok_commit|]. split; [by apply transfer_ok_check|].
  split; [by apply transfer_ok_finish|]. intros. by eapply transfer_ok_try_finish.
Qed.

(** [PDC_try_finish_request] answers PDC_TRANSFER_STATUS_NOT_FOUND even when it found the
    request and bound it to the handle. *)
Theorem try_finish_not_found s id handle href out_type ret s' :
  PDC_try_finish_request s id handle href out_type = Some (ret, s') → ret = PDC_TRANSFER_STATUS_NOT_FOUND.
Proof.
  unfold PDC_try_finish_request. destruct (try_finish_loop _ _ _ _ _ _) as [[l refs]|]; [|done]. by intros [= <- _].
Qed.

(** * The storage engine implements the interface *)

#[global] Arguments PDC_Server_data_write_out : simpl never.
#[global] Arguments PDC_Server_data_read_from : simpl never.

Section StorageInstance.
Context (file_limit : Z) (data_sieving_g : bool) (junk : byte) (open_fd : Z) (dim : Z → nat) (unit : Z → Z).
Context (Hdim : ∀ o, (1 ≤ dim o ≤ 3)%nat) (Hunit : ∀ o, 0 < unit o) (Hlim : 0 ≤ file_limit < W64).
Context (Hsieve : ∀ o, dim o = 1%nat ∨ data_sieving_g = true) (Hfd : 0 ≤ open_fd).

(** [io_by_region_g] is 1 in the code. *)
#[local] Abbreviation io := (PDC_Server_transfer_request_io true file_limit data_sieving_g junk open_fd).

#[export] Instance data_server_storage : RegionStorage data_server := {
  transfer_io_write ds obj ndim dims req buf unit :=
    '(_, _, ds) ← io ds obj ndim dims req buf unit true; Some ds;
  transfer_io_read ds obj ndim dims req buf unit :=
    '(_, buf, ds) ← io ds obj ndim dims req buf unit false; Some (buf, ds) }.

#[export, refine] Instance data_server_storage_laws : @RegionStorageLaws data_server data_server_storage dim unit := {
  st_ok := ds_ok file_limit dim unit;
  st_content := ds_content unit;
  st_accepts ds obj req :=
    ds_pos_ok dim unit ds obj req ∧ file_size ds obj + vol (ri_size req) * unit obj ≤ file_limit }.
Proof.
  - intros ds obj dims req buf Hok Hreq [Hpos Hroom].
    destruct (data_write_out_correct file_limit data_sieving_g junk open_fd dim unit Hdim Hunit (proj2 Hlim) Hsieve Hfd
                ds obj req buf) as (ds' & Hrun & Hok' & Hc); [done|apply Hlim|done..|].
    exists ds'. split; [|done]. simpl. unfold PDC_Server_transfer_request_io. simpl. by rewrite Hrun.
  - intros ds obj dims req buf Hok Hreq.
    destruct (data_read_from_correct file_limit data_sieving_g junk open_fd dim unit Hdim Hunit (proj2 Hlim) Hsieve Hfd
                ds obj req buf) as (buf' & ds' & Hrun & Hl & Hg & Hok' & Hc); [done|apply Hlim|done|].
    exists buf', ds'. simpl. unfold PDC_Server_transfer_request_io. simpl. rewrite Hrun. auto.
Defined.
End StorageInstance.

(** * The properties at concrete inputs *)

(** Requests 1, 2 and 3; the first two wait on the counter 100 for handle 9. *)
Definition ex_requests : transfer_state :=
  TransferState
    [RequestStatus 9 1 PDC_TRANSFER_STATUS_PENDING (Some 100) 1;
     RequestStatus 0 3 PDC_TRANSFER_STATUS_PENDING None (-1);
     RequestStatus 9 2 PDC_TRANSFER_STATUS_PENDING (Some 100) 1]
    {[ 100 := 2 ]} 4 [].

Lemma ex_requests_ok : transfer_ok ex_requests.
Proof.
  split.
  - apply (bool_decide_unpack (NoDup [1; 3; 2])). reflexivity.
  - intros h. destruct (decide (h = 100)) as [->|Hne]; [reflexivity|].
    intros Hb. destruct Hb. unfold bound_to, ex_requests. cbn [ts_list].
    rewrite !filter_cons_False; [reflexivity|simpl; congruence..].
Qed.

Lemma request_lifecycle_witness :
  ∃ s2, PDC_finish_request (PDC_commit_request ex_requests 7) 7 = Some s2 ∧
    PDC_check_request s2 7 = (PDC_TRANSFER_STATUS_COMPLETE, ex_requests).
Proof.
  destruct (request_lifecycle ex_requests 7) as (_ & s2 & Hf & Hc & _).
  - apply (bool_decide_unpack (7 ∉ [1; 3; 2])). reflexivity.
  - exists s2. split; [exact Hf|exact Hc].
Defined.

Lemma wait_all_responds_once_witness :
  ∃ s', finish_all ex_requests [2; 1] = Some s' ∧ ts_responses s' = [(9, true)].
Proof.
  destruct (wait_all_responds_once ex_requests 100 9 1 [2; 1]) as (s' & Hf & Hr & _).
  - exact ex_requests_ok.
  - intros r Hr. change (r ∈ [RequestStatus 9 1 PDC_TRANSFER_STATUS_PENDING (Some 100) 1;
      RequestStatus 9 2 PDC_TRANSFER_STATUS_PENDING (Some 100) 1]) in Hr.
    apply elem_of_cons in Hr as [->|Hr]; [split; reflexivity|]. apply list_elem_of_singleton in Hr as ->. split; reflexivity.
  - apply Permutation_swap.
  - discriminate.
  - exists s'. split; [exact Hf|exact Hr].
Defined.

Lemma transfer_ok_preserved_witness :
  ∃ s', PDC_finish_request ex_requests 1 = Some s' ∧ ts_refs s' !! 100 = Some 1 ∧ transfer_ok s'.
Proof.
  destruct (transfer_ok_preserved ex_requests 1 ex_requests_ok) as (_ & _ & (s' & Hf & Hok) & _).
  exists s'. split; [exact Hf|]. split; [|exact Hok]. vm_compute in Hf. injection Hf as <-. reflexivity.
Defined.

Lemma try_finish_not_found_witness :
  ∃ ret s', PDC_try_finish_request ex_requests 3 9 100 1 = Some (ret, s') ∧ ret = PDC_TRANSFER_STATUS_NOT_FOUND ∧
    ts_refs s' !! 100 = Some 3.
Proof.
  destruct (PDC_try_finish_request ex_requests 3 9 100 1) as [[ret s']|] eqn:E; [|vm_compute in E; discriminate].
  exists ret, s'. split; [reflexivity|]. split; [exact (try_finish_not_found ex_requests 3 9 100 1 ret s' E)|].
  vm_compute in E. injection E as <- <-. reflexivity.
Defined.
