(* ===== verification/RegionCache.v ===== *)
(** The region cache of a data server
    ([src/src/server/pdc_server_region/pdc_server_region_cache.c]): writes are
    kept in memory, per object a list of regions with their data, and reach the
    storage when the cache is full, idle, or does not hold all of a region that
    is read.  The storage is used through an interface, [RegionStorage], whose
    laws the instance of [TransferIO] proves. *)

From S2P Require Export StorageInterface ServerTransfer.

(** * Relations between regions *)

Inductive region_relation :=
  | PDC_REGION_CONTAINED | PDC_REGION_CONTAINED_BY | PDC_REGION_PARTIAL_OVERLAP | PDC_REGION_NO_OVERLAP.

(** [for (i = 0; i < ndim; ++i) if (c(i)) flag = 0;] *)
Definition clear_flag (ndim : nat) (c : nat → bool) (flag : bool) : bool :=
  foldl (λ flag i, if c i then false else flag) flag (seq 0 ndim).

Definition PDC_check_region_relation (offset size offset2 size2 : list Z) (ndim : nat) : region_relation :=
  let e i := arr offset i +w arr size i in
  let e2 i := arr offset2 i +w arr size2 i in
  let flag := clear_flag ndim (λ i, bool_decide (arr offset2 i > arr offset i) || bool_decide (e2 i < e i)) true in
  if flag then PDC_REGION_CONTAINED
  else
    let flag := clear_flag ndim (λ i, bool_decide (arr offset i > arr offset2 i) || bool_decide (e i < e2 i)) flag in
    if flag then PDC_REGION_CONTAINED_BY
    else
      let flag := clear_flag ndim (λ i, bool_decide (e2 i ≤ arr offset i) || bool_decide (arr offset2 i >= e i)) true in
      if flag then PDC_REGION_PARTIAL_OVERLAP else PDC_REGION_NO_OVERLAP.

Definition extract_overlaping_region (offset size offset2 size2 : list Z) (ndim : nat) : list Z * list Z :=
  ((λ i, if bool_decide (arr offset2 i > arr offset i) then arr offset2 i else arr offset i) <$> seq 0 ndim,
   (λ i, if bool_decide (arr offset2 i > arr offset i)
         then arr offset i +w arr size i -w arr offset2 i
         else arr offset2 i +w arr size2 i -w arr offset i) <$> seq 0 ndim).

(** * Merging two regions *)

(** A pointer into the destination block is a position; the copies append
    there. *)
Definition put (src : list byte) (soff n : Z) (st : list byte * Z) : option (list byte * Z) :=
  let '(dst, pos) := st in dst ← memcpy dst pos src soff n; Some (dst, pos + n).

Definition pdc_region_merge_buf_copy (offset size offset2 size2 : list Z) (buf buf2 : list byte)
    (unit : Z) (connect_flag : nat) (st : list byte * Z) : option (list byte * Z) :=
  let c := connect_flag in
  let unit := foldl (λ unit i, i32 (unit *w arr size i)) unit (seq 0 c) in
  if bool_decide (arr offset c < arr offset2 c) then
    if bool_decide (arr offset c +w arr size c > arr offset2 c +w arr size2 c) then
      st ← put buf 0 (unit *w (arr offset2 c -w arr offset c)) st;
      st ← put buf2 0 (unit *w arr size2 c) st;
      put buf2 0 (unit *w (arr offset c +w arr size c -w (arr offset2 c +w arr size2 c))) st
    else
      st ← put buf 0 (unit *w (arr offset2 c -w arr offset c)) st;
      put buf2 0 (unit *w arr size2 c) st
  else
    if bool_decide (arr offset c +w arr size c > arr offset2 c +w arr size2 c) then
      st ← put buf2 0 (unit *w arr size2 c) st;
      let overlaps := arr offset2 c +w arr size2 c -w arr offset c in
      put buf (overlaps *w unit) (unit *w (arr size c -w overlaps)) st
    else put buf2 0 (unit *w arr size2 c) st.

(** The first loop of [PDC_region_merge]: [None] is PDC_MERGE_FAILED, otherwise
    the connecting dimension, or [None] inside when all are equal. *)
Fixpoint connect_dim (offset size offset2 size2 : list Z) (idxs : list nat) (connect_flag : option nat)
    : option (option nat) :=
  match idxs with
  | [] => Some connect_flag
  | i :: idxs =>
    if bool_decide (arr offset i > arr offset2 i +w arr size2 i) || bool_decide (arr offset2 i > arr offset i +w arr size i)
    then None
    else if negb (bool_decide (arr offset i = arr offset2 i)) || negb (bool_decide (arr size i = arr size2 i)) then
      match connect_flag with
      | None => connect_dim offset size offset2 size2 idxs (Some i)
      | Some _ => None
      end
    else connect_dim offset size offset2 size2 idxs connect_flag
  end.

(** The offsets and sizes of the merged region. *)
Definition merged_region (ndim : nat) (offset size offset2 size2 : list Z) : option (nat * list Z * list Z) :=
  c ← connect_dim offset size offset2 size2 (seq 0 ndim) None;
  let c := default (ndim - 1)%nat c in
  let o := if bool_decide (arr offset c > arr offset2 c) then arr offset2 c else arr offset c in
  let s := if bool_decide (arr offset c +w arr size c > arr offset2 c +w arr size2 c)
           then arr offset c +w arr size c -w o else arr offset2 c +w arr size2 c -w o in
  Some (c, (λ i, if decide (i = c) then o else arr offset i) <$> seq 0 ndim,
           (λ i, if decide (i = c) then s else arr size i) <$> seq 0 ndim).

(** How many times [pdc_region_merge_buf_copy] runs: the bounds are cast to
    [int]. *)
Definition merge_copies (ndim : nat) (size : list Z) (connect_flag : nat) : nat :=
  match ndim, connect_flag with
  | 1%nat, _ => 1
  | 2%nat, O => Z.to_nat (i32 (arr size 1))
  | 2%nat, _ => 1
  | 3%nat, O => Z.to_nat (i32 (arr size 2)) * Z.to_nat (i32 (arr size 1))
  | 3%nat, 1%nat => Z.to_nat (i32 (arr size 2))
  | 3%nat, 2%nat => 1
  | _, _ => 0
  end.

(** [None]: undefined behaviour; [Some None]: PDC_MERGE_FAILED. *)
Definition PDC_region_merge (junk : byte) (buf buf2 : list byte) (offset size offset2 size2 : list Z) (ndim : nat) (unit : Z)
    : option (option (list byte * list Z * list Z)) :=
  match merged_region ndim offset size offset2 size2 with
  | None => Some None
  | Some (c, offset_merged, size_merged) =>
      let tmp_buf_size := foldl (λ t i, t *w arr size_merged i) (arr size_merged 0) (seq 1 (ndim - 1)) in
      '(buf_merged, _) ← forZ (merge_copies ndim size c) 0
         (λ _, pdc_region_merge_buf_copy offset size offset2 size2 buf buf2 unit c) (malloc junk tmp_buf_size, 0);
      Some (Some (buf_merged, offset_merged, size_merged))
  end.

(** * Copies between a request and a cached region *)

Definition PDC_region_cache_copy (buf buf2 : list byte) (offset size offset2 size2 : list Z) (ndim : nat) (unit : Z)
    (direction : bool) : option (list byte * list byte) :=
  let local_offset i := arr offset2 i -w arr offset i in
  (** [memcpy(dst, src, n)] with the two pointers in the direction's order. *)
  let copy (buf buf2 : list byte) (boff boff2 n : Z) :=
    if direction then b ← memcpy buf boff buf2 boff2 n; Some (b, buf2)
    else b2 ← memcpy buf2 boff2 buf boff n; Some (buf, b2) in
  match ndim with
  | 1%nat => copy buf buf2 (local_offset 0%nat *w unit) 0 (unit *w arr size2 0)
  | 2%nat =>
      '(buf, buf2, _) ← forZ (Z.to_nat (arr size2 0)) 0 (λ i '(buf, buf2, ptr),
        '(buf, buf2) ← copy buf buf2 ((local_offset 1%nat +w (local_offset 0%nat +w i) *w arr size 1) *w unit) ptr
                         (unit *w arr size2 1);
        Some (buf, buf2, ptr + (arr size2 1 *w unit))) (buf, buf2, 0);
      Some (buf, buf2)
  | 3%nat =>
      '(buf, buf2, _) ← forZ (Z.to_nat (arr size2 0)) 0 (λ i,
        forZ (Z.to_nat (arr size2 1)) 0 (λ j '(buf, buf2, ptr),
          '(buf, buf2) ← copy buf buf2
             (((local_offset 0%nat +w i) *w arr size 1 *w arr size 2 +w
               (local_offset 1%nat +w j) *w arr size 2 +w local_offset 2%nat) *w unit) ptr (unit *w arr size2 2);
          Some (buf, buf2, ptr + (arr size2 2 *w unit)))) (buf, buf2, 0);
      Some (buf, buf2)
  | _ => Some (buf, buf2)
  end.

(** * Merging the cached regions of a one-dimensional object *)

(** [start[i]], [end[i]] and [buf[i]] of a request. *)
Definition request : Type := Z * Z * list byte.

(** The first loop of [merge_requests]: the number of merged requests and the
    number of elements to allocate. *)
Definition merge_count_step (st : Z * Z * Z) (r : request) : Z * Z * Z :=
  let '(merged_requests, total_data_size, prev_end) := st in
  let '(start, end_, _) := r in
  if bool_decide (prev_end < start)
  then (merged_requests + 1, total_data_size +w (end_ -w start), end_)
  else if bool_decide (end_ > prev_end)
  then (merged_requests, total_data_size +w (end_ -w prev_end), end_)
  else st.

(** The second loop: the requests already merged and the current one, each with
    its start, its end and the position of its data in the block; the block
    and the position [ptr] of its next free byte. *)
Definition merge_state : Type := list (Z * Z * Z) * (Z * Z * Z) * (list byte * Z).

Definition merge_step (unit : Z) (st : merge_state) (r : request) : option merge_state :=
  let '(merged, (new_start, new_end, new_buf), (block, ptr)) := st in
  let '(start, end_, buf) := r in
  if bool_decide (new_end < start) then
    '(block, ptr') ← put buf 0 ((end_ -w start) *w unit) (block, ptr);
    Some (merged ++ [(new_start, new_end, new_buf)], (start, end_, ptr), (block, ptr'))
  else if bool_decide (end_ > new_end) then
    '(block, ptr) ← put buf (new_end -w start) ((end_ -w new_end) *w unit) (block, ptr);
    Some (merged, (new_start, end_, new_buf), (block, ptr))
  else Some st.

Fixpoint merge_loop (unit : Z) (rs : list request) (st : merge_state) : option merge_state :=
  match rs with
  | [] => Some st
  | r :: rs => st ← merge_step unit st r; merge_loop unit rs st
  end.

(** The arrays [new_start], [new_end], [new_buf] (of [merged_requests] entries)
    and the block the buffers point into. *)
Definition merge_requests (junk : byte) (rs : list request) (unit : Z)
    : option (list (Z * Z * Z) * list byte) :=
  match rs with
  | [] => None
  | (start, end_, buf) :: rs =>
    let '(merged_requests, total_data_size, _) := foldl merge_count_step (1, end_ -w start, end_) rs in
    '(block, ptr) ← put buf 0 ((end_ -w start) *w unit) (malloc junk (total_data_size *w unit), 0);
    '(merged, cur, (block, _)) ← merge_loop unit rs ([], (start, end_, 0), (block, ptr));
    (** one entry more than allocated would be written outside the arrays *)
    if decide (lenZ (merged ++ [cur]) ≤ merged_requests) then Some (merged ++ [cur], block) else None
  end.

(** * The cache *)

(** [pdc_obj_cache], without its time stamp *)
Record pdc_obj_cache := ObjCache {
  oc_obj_id : Z;
  oc_ndim : nat;
  oc_dims : list Z;
  oc_region_cache : list pdc_region_info;
  oc_region_cache_size : nat }.

(** The static variables of the file and the storage below. *)
Record cache_state (St : Type) := CacheState {
  cs_objs : list pdc_obj_cache;
  cs_total_cache_size : Z;
  cs_storage : St }.
#[global] Arguments CacheState {_}.
#[global] Arguments cs_objs {_}.
#[global] Arguments cs_total_cache_size {_}.
#[global] Arguments cs_storage {_}.

Definition sort_by_offset (e1 e2 : pdc_region_info) : Z :=
  if bool_decide (arr (ri_offset e1) 0 > arr (ri_offset e2) 0) then 1
  else if bool_decide (arr (ri_offset e1) 0 < arr (ri_offset e2) 0) then -1 else 0.

Section Cache.
Context {St : Type} `{RegionStorage St}.
(** [maximum_cache_size], whether PDC_SERVER_CACHE_NO_FLUSH is set, the
    content of fresh memory, and the library's [qsort] with [sort_by_offset]. *)
Context (maximum_cache_size : Z) (no_flush : bool) (junk : byte).
Context (qsort : list pdc_region_info → list pdc_region_info).

#[local] Abbreviation state := (cache_state St).

(** [region_cache_size] elements of the arrays [start], [end] and [buf]. *)
Definition region_request (r : pdc_region_info) : request :=
  (arr (ri_offset r) 0, arr (ri_offset r) 0 +w arr (ri_size r) 0, ri_buf r).

(** The merged requests override the first nodes of the region list; a buffer
    is a pointer into the block. *)
Definition override (block : list byte) (r : pdc_region_info) (m : Z * Z * Z) : pdc_region_info :=
  let '(new_start, new_end, new_buf) := m in
  RegionInfo (ri_ndim r) (<[0%nat := new_start]> (ri_offset r)) (<[0%nat := new_end -w new_start]> (ri_size r))
    (drop (Z.to_nat new_buf) block) (ri_unit r).

Definition merge_regions (oc : pdc_obj_cache) : option (list pdc_region_info) :=
  first ← head (oc_region_cache oc);
  '(merged, block) ← merge_requests junk (region_request <$> qsort (oc_region_cache oc)) (ri_unit first);
  Some (zip_with (override block) (oc_region_cache oc) merged).

(** The loop that hands the regions to the storage. *)
Fixpoint flush_regions (oc : pdc_obj_cache) (regs : list pdc_region_info) (total : Z) (nflush : Z) (st : St)
    : option (Z * Z * St) :=
  match regs with
  | [] => Some (total, nflush, st)
  | r :: regs =>
    st ← transfer_io_write st (oc_obj_id oc) (oc_ndim oc) (oc_dims oc) r (ri_buf r) (ri_unit r);
    flush_regions oc regs (total -w region_write_size (oc_ndim oc) (ri_unit r) (ri_size r)) (nflush + 1) st
  end.

Definition PDC_region_cache_flush_by_pointer (oc : pdc_obj_cache) (total : Z) (st : St)
    : option (Z * pdc_obj_cache * Z * St) :=
  if no_flush then Some (0, oc, total, st)
  else
    '(regs, nflush) ←
      (if decide (oc_ndim oc = 1%nat ∧ oc_region_cache_size oc ≠ 0%nat)
       then regs ← merge_regions oc; Some (regs, lenZ regs)
       else Some (oc_region_cache oc, 0));
    '(total, nflush, st) ← flush_regions oc regs total nflush st;
    Some (nflush, ObjCache (oc_obj_id oc) (oc_ndim oc) (oc_dims oc) [] 0, total, st).

(** The two searches of the object list: with and without [break]. *)
Fixpoint find_first (objs : list pdc_obj_cache) (obj_id : Z) : option nat :=
  match objs with
  | [] => None
  | oc :: objs => if decide (oc_obj_id oc = obj_id) then Some O else S <$> find_first objs obj_id
  end.

Fixpoint find_last_from (i : nat) (objs : list pdc_obj_cache) (obj_id : Z) (obj_cache : option nat) : option nat :=
  match objs with
  | [] => obj_cache
  | oc :: objs => find_last_from (S i) objs obj_id (if decide (oc_obj_id oc = obj_id) then Some i else obj_cache)
  end.
Definition find_last (objs : list pdc_obj_cache) (obj_id : Z) : option nat := find_last_from 0 objs obj_id None.

(** Flushing one object in place. *)
Definition flush_at (s : state) (i : nat) (oc : pdc_obj_cache) : option (Z * state) :=
  '(nflush, oc, total, st) ← PDC_region_cache_flush_by_pointer oc (cs_total_cache_size s) (cs_storage s);
  Some (nflush, CacheState (<[i := oc]> (cs_objs s)) total st).

(** The result is 1 when the object is not cached. *)
Definition PDC_region_cache_flush (s : state) (obj_id : Z) : option (Z * state) :=
  match find_first (cs_objs s) obj_id with
  | None => Some (1, s)
  | Some i => oc ← cs_objs s !! i; '(_, s) ← flush_at s i oc; Some (0, s)
  end.

Fixpoint flush_all_loop (objs : list pdc_obj_cache) (total : Z) (st : St) : option (Z * St) :=
  match objs with
  | [] => Some (total, st)
  | oc :: objs =>
    '(_, _, total, st) ← PDC_region_cache_flush_by_pointer oc total st; flush_all_loop objs total st
  end.

Definition PDC_region_cache_flush_all (s : state) : option state :=
  '(total, st) ← flush_all_loop (cs_objs s) (cs_total_cache_size s) (cs_storage s); Some (CacheState [] total st).

(** One pass of the recycling thread over the object list: [idle i] tells
    whether the cache is idle when the [i]th object is visited; the pass ends at
    the first object that is not. *)
Fixpoint clock_cycle_pass (idle : nat → bool) (i : nat) (objs : list pdc_obj_cache) (s : state) : option state :=
  match objs with
  | [] => Some s
  | oc :: objs =>
    if idle i then '(_, s) ← flush_at s i oc; clock_cycle_pass idle (S i) objs s else Some s
  end.
Definition PDC_region_cache_clock_cycle (idle : nat → bool) (s : state) : option state :=
  clock_cycle_pass idle 0 (cs_objs s) s.

Definition PDC_region_server_cache_init (st : St) : state := CacheState [] 0 st.
Definition PDC_region_server_cache_finalize (s : state) : option state := PDC_region_cache_flush_all s.

(** The part of [PDC_region_cache_register] under the lock: the object's entry
    is created if need be and the region is appended to it. *)
Definition register_append (s : state) (obj_id : Z) (obj_ndim : nat) (obj_dims : list Z)
    (buf : list byte) (buf_size : Z) (offset size : list Z) (ndim : nat) (unit : Z) : option state :=
  let '(objs, i) :=
    match find_first (cs_objs s) obj_id with
    | Some i => (cs_objs s, i)
    | None => (cs_objs s ++ [ObjCache obj_id obj_ndim obj_dims [] 0], length (cs_objs s))
    end in
  oc ← objs !! i;
  buf ← mem_read buf 0 buf_size;
  let oc := ObjCache (oc_obj_id oc) (oc_ndim oc) (oc_dims oc)
              (oc_region_cache oc ++ [RegionInfo ndim (take ndim offset) (take ndim size) buf unit])
              (S (oc_region_cache_size oc)) in
  Some (CacheState (<[i := oc]> objs) (cs_total_cache_size s +w buf_size) (cs_storage s)).

Definition PDC_region_cache_register (s : state) (obj_id : Z) (obj_ndim : nat) (obj_dims : list Z)
    (buf : list byte) (buf_size : Z) (offset size : list Z) (ndim : nat) (unit : Z) : option (perr_t * state) :=
  if decide (obj_ndim ≠ ndim ∧ (0 < obj_ndim)%nat) then Some (FAIL, s)
  else
    s ← register_append s obj_id obj_ndim obj_dims buf buf_size offset size ndim unit;
    if decide (cs_total_cache_size s > maximum_cache_size)
    then s ← PDC_region_cache_flush_all s; Some (SUCCEED, s)
    else Some (SUCCEED, s).

(** The loop over the cached regions: their new list and [flag]. *)
Fixpoint cache_write_loop (req : pdc_region_info) (buf : list byte) (unit : Z) (regs : list pdc_region_info)
    : option (list pdc_region_info * bool) :=
  match regs with
  | [] => Some ([], false)
  | r :: regs =>
    match PDC_region_overlap_detect (ri_ndim req) (ri_offset req) (ri_size req) (ri_offset r) (ri_size r) with
    | Some (oo, os) =>
        let flag := detect_region_contained (ri_offset req) (ri_size req) (ri_offset r) (ri_size r) (ri_ndim req) in
        rbuf ← memcpy_overlap_subregion (ri_ndim req) unit buf (ri_offset req) (ri_size req)
                 (ri_buf r) (ri_offset r) (ri_size r) oo os;
        let r := RegionInfo (ri_ndim r) (ri_offset r) (ri_size r) rbuf (ri_unit r) in
        if flag then Some (r :: regs, true)
        else '(regs, flag) ← cache_write_loop req buf unit regs; Some (r :: regs, flag)
    | None => '(regs, flag) ← cache_write_loop req buf unit regs; Some (r :: regs, flag)
    end
  end.

Definition PDC_transfer_request_data_write_out (s : state) (obj_id : Z) (obj_ndim : nat) (obj_dims : list Z)
    (region_info : pdc_region_info) (buf : list byte) (unit : Z) : option (perr_t * state) :=
  let write_size := region_write_size (ri_ndim region_info) unit (ri_size region_info) in
  '(objs, flag) ←
    match find_last (cs_objs s) obj_id with
    | None => Some (cs_objs s, false)
    | Some i =>
        oc ← cs_objs s !! i;
        '(regs, flag) ← cache_write_loop region_info buf unit (oc_region_cache oc);
        Some (<[i := ObjCache (oc_obj_id oc) (oc_ndim oc) (oc_dims oc) regs (oc_region_cache_size oc)]> (cs_objs s), flag)
    end;
  let s := CacheState objs (cs_total_cache_size s) (cs_storage s) in
  if flag : bool then Some (SUCCEED, s)
  else
    '(_, s) ← PDC_region_cache_register s obj_id obj_ndim obj_dims buf write_size
                (ri_offset region_info) (ri_size region_info) (ri_ndim region_info) unit;
    Some (SUCCEED, s).

(** The first cached region that contains the request. *)
Fixpoint find_containing (req : pdc_region_info) (regs : list pdc_region_info) : option pdc_region_info :=
  match regs with
  | [] => None
  | r :: regs =>
    if detect_region_contained (ri_offset req) (ri_size req) (ri_offset r) (ri_size r) (ri_ndim req)
    then Some r else find_containing req regs
  end.

Definition PDC_region_fetch (s : state) (obj_id : Z) (obj_ndim : nat) (obj_dims : list Z)
    (region_info : pdc_region_info) (buf : list byte) (unit : Z) : option (list byte * state) :=
  let obj_cache := i ← find_last (cs_objs s) obj_id; oc ← cs_objs s !! i; Some (i, oc) in
  match '(_, oc) ← obj_cache; find_containing region_info (oc_region_cache oc) with
  | Some r =>
      '(oo, os) ← PDC_region_overlap_detect (ri_ndim region_info) (ri_offset region_info) (ri_size region_info)
                    (ri_offset r) (ri_size r);
      buf ← memcpy_overlap_subregion (ri_ndim region_info) unit (ri_buf r) (ri_offset r) (ri_size r)
              buf (ri_offset region_info) (ri_size region_info) oo os;
      Some (buf, s)
  | None =>
      s ← match obj_cache with
          | Some (i, oc) => '(_, s) ← flush_at s i oc; Some s
          | None => Some s
          end;
      '(buf, st) ← transfer_io_read (cs_storage s) obj_id obj_ndim obj_dims region_info buf unit;
      Some (buf, CacheState (cs_objs s) (cs_total_cache_size s) st)
  end.

Definition PDC_transfer_request_data_read_from (s : state) (obj_id : Z) (obj_ndim : nat) (obj_dims : list Z)
    (region_info : pdc_region_info) (buf : list byte) (unit : Z) : option (perr_t * list byte * state) :=
  '(buf, s) ← PDC_region_fetch s obj_id obj_ndim obj_dims region_info buf unit; Some (SUCCEED, buf, s).
End Cache.

(** * Merging: lemmas *)

#[global] Arguments put : simpl never.
#[global] Arguments PDC_region_cache_flush_by_pointer : simpl never.

Section Merge.
Context (unit : Z) (Hunit : 0 < unit).
Implicit Types (r : request) (rs : list request) (m : Z * Z * Z) (block : list byte).

Definition rq_start r : Z := r.1.1.
Definition rq_end r : Z := r.1.2.
Definition rq_buf r : list byte := r.2.

Definition in_request (x : Z) r : Prop := rq_start r ≤ x < rq_end r.
Definition rq_get r (x b : Z) : option byte := getZ (rq_buf r) ((x - rq_start r) * unit + b).

(** A merged request with its data in the block. *)
Definition in_merged (x : Z) m : Prop := m.1.1 ≤ x < m.1.2.
Definition mg_get block m (x b : Z) : option byte := getZ block (m.2 + ((x - m.1.1) * unit + b)).

Record rq_ok r : Prop := {
  rq_ok_range : 0 ≤ rq_start r ∧ rq_start r < rq_end r ∧ rq_end r < W64;
  rq_ok_buf : (rq_end r - rq_start r) * unit ≤ lenZ (rq_buf r) }.

Definition rq_coherent rs : Prop :=
  ∀ r r' x b, r ∈ rs → r' ∈ rs → in_request x r → in_request x r' → 0 ≤ b < unit → rq_get r x b = rq_get r' x b.

(** Requests in the order of their starts; unless the unit is one, they must not
    overlap. *)
Definition rq_sorted rs : Prop :=
  StronglySorted (λ r r', rq_start r ≤ rq_start r' ∧ (unit = 1 ∨ rq_end r ≤ rq_start r')) rs.

Definition rq_total rs : Z := foldr (λ r t, (rq_end r - rq_start r) + t) 0 rs.

Lemma rq_total_nonneg rs : Forall rq_ok rs → 0 ≤ rq_total rs.
Proof. induction 1 as [|r rs [? _] _ IH]; simpl; lia. Qed.

(** Appending to the block keeps what was put before. *)
Lemma put_spec src soff n block ptr :
  0 ≤ soff → 0 ≤ n → soff + n ≤ lenZ src → 0 ≤ ptr → ptr + n ≤ lenZ block →
  ∃ block', put src soff n (block, ptr) = Some (block', ptr + n) ∧ lenZ block' = lenZ block ∧
    (∀ k, k < ptr → getZ block' k = getZ block k) ∧
    ∀ k, 0 ≤ k < n → getZ block' (ptr + k) = getZ src (soff + k).
Proof.
  intros. unfold put, memcpy. destruct (mem_read_Some src soff n) as (d & -> & Hld & Hgd); [done..|]. simpl.
  destruct (mem_write_Some block ptr d) as (b' & -> & Hl & Hg); [lia..|]. simpl.
  exists b'. split; [done|]. split; [done|]. split.
  - intros k Hk. rewrite Hg, decide_False by lia. done.
  - intros k Hk. rewrite Hg, decide_True, <-Hgd by lia. f_equal. lia.
Qed.

(** The invariant of the second loop after the requests [seen]. *)
Record merge_inv (seen : list request) (count total : Z) (st : merge_state) : Prop := {
  mi_sound : let '(merged, cur, (block, ptr)) := st in
    ∀ m x, m ∈ merged ++ [cur] → in_merged x m →
      ∃ r, r ∈ seen ∧ in_request x r ∧ ∀ b, 0 ≤ b < unit → mg_get block m x b = rq_get r x b;
  mi_complete : let '(merged, cur, (block, ptr)) := st in
    ∀ r x, r ∈ seen → in_request x r → ∃ m, m ∈ merged ++ [cur] ∧ in_merged x m;
  mi_wf : let '(merged, cur, (block, ptr)) := st in
    Forall (λ m, 0 ≤ m.1.1 ∧ m.1.1 < m.1.2 ∧ m.1.2 < W64 ∧ 0 ≤ m.2 ∧ m.2 + (m.1.2 - m.1.1) * unit ≤ ptr)
      (merged ++ [cur]);
  mi_cur : let '(merged, cur, (block, ptr)) := st in
    cur.2 + (cur.1.2 - cur.1.1) * unit = ptr ∧
    Forall (λ r, rq_end r ≤ cur.1.2) seen ∧ (∃ r, r ∈ seen ∧ rq_start r = cur.1.1) ∧ ∃ r, r ∈ seen ∧ rq_end r = cur.1.2;
  mi_count : let '(merged, cur, (block, ptr)) := st in
    lenZ (merged ++ [cur]) = count ∧ count ≤ lenZ seen ∧ ptr = total * unit ∧ ptr ≤ lenZ block }.

Lemma mg_get_frame block block' m ptr x b :
  0 ≤ b < unit → in_merged x m → m.2 + (m.1.2 - m.1.1) * unit ≤ ptr →
  (∀ k, k < ptr → getZ block' k = getZ block k) → mg_get block' m x b = mg_get block m x b.
Proof. unfold mg_get, in_merged. intros ? ? ? Hk. apply Hk. nia. Qed.

Definition cur_end (st : merge_state) : Z := st.1.2.1.2.
Definition block_of (st : merge_state) : list byte := st.2.1.

(** The three cases of an iteration. *)
Lemma merge_step_detached seen count total merged ns ne nb block ptr r :
  merge_inv seen count total (merged, (ns, ne, nb), (block, ptr)) → rq_ok r → ne < rq_start r →
  (total + (rq_end r - rq_start r)) * unit ≤ lenZ block < W64 →
  ∃ block', let st' := (merged ++ [(ns, ne, nb)], (rq_start r, rq_end r, ptr),
                        (block', ptr + (rq_end r - rq_start r) * unit)) in
    merge_step unit (merged, (ns, ne, nb), (block, ptr)) r = Some st' ∧ lenZ block' = lenZ block ∧
    merge_inv (seen ++ [r]) (count + 1) (total + (rq_end r - rq_start r)) st'.
Proof.
  intros [Hsound Hcomp Hwf Hcur Hcnt] [Hr Hbuf] Hne Hroom. destruct r as [[start end_] buf].
  unfold rq_start, rq_end, rq_buf in *. simpl in *.
  destruct Hcur as (Hptr & Hmax & Hmin & Hmaxe), Hcnt as (Hc1 & Hc2 & Hc3 & Hc4).
  set (n := (end_ - start) * unit) in *. assert (0 ≤ n) by (unfold n; nia).
  assert (0 ≤ ptr) as Hptr0.
  { apply list.Forall_app in Hwf as [_ Hw%List.Forall_inv]. simpl in Hw.
    pose proof (Z.mul_nonneg_nonneg (ne - ns) unit). lia. }
  destruct (put_spec buf 0 n block ptr) as (block' & Hput & Hl & Hold & Hnew); [lia..|].
  exists block'. rewrite bool_decide_eq_true_2 by lia.
  rewrite (u64_eq (u64 (end_ - start) * unit) n) by u64_side.
  rewrite Hput. simpl. split; [done|]. split; [done|]. split.
  - intros m x [Hm| ->%list_elem_of_singleton]%elem_of_app Hx.
    + destruct (Hsound m x Hm Hx) as (r & Hr' & Hxr & Hg). exists r. split; [set_solver|]. split; [done|].
      intros b Hb. rewrite <-Hg by done. rewrite list.Forall_forall in Hwf. specialize (Hwf m Hm).
      eapply mg_get_frame; [done|done| |exact Hold]. lia.
    + exists (start, end_, buf). split; [set_solver|]. split; [done|]. intros b Hb.
      unfold mg_get, rq_get, in_merged, rq_start, rq_buf in *. simpl in *. rewrite Hnew by (unfold n; nia). done.
  - intros r x [Hr'| ->%list_elem_of_singleton]%elem_of_app Hx.
    + destruct (Hcomp r x Hr' Hx) as (m & Hm & Hxm). exists m. split; [set_solver|done].
    + exists (start, end_, ptr). split; [set_solver|done].
  - apply list.Forall_app. split.
    + eapply list.Forall_impl; [exact Hwf|]. simpl. intros m ?. lia.
    + apply list.Forall_singleton. simpl. unfold n. lia.
  - split; [done|]. split.
    + apply list.Forall_app. split; [|apply list.Forall_singleton; unfold rq_end; simpl; lia].
      eapply list.Forall_impl; [exact Hmax|]. unfold rq_end. simpl. intros r' ?. lia.
    + split; (exists (start, end_, buf); split; [set_solver|done]).
  - rewrite !lenZ_snoc in *. unfold n. split; [lia|]. split; [lia|]. split; [lia|]. rewrite Hl. lia.
Qed.

Lemma merge_step_extend seen count total merged ns ne nb block ptr r :
  merge_inv seen count total (merged, (ns, ne, nb), (block, ptr)) → rq_ok r →
  rq_start r ≤ ne → ne < rq_end r → ns ≤ rq_start r → unit = 1 ∨ ne ≤ rq_start r →
  (total + (rq_end r - ne)) * unit ≤ lenZ block < W64 →
  ∃ block', let st' := (merged, (ns, rq_end r, nb), (block', ptr + (rq_end r - ne) * unit)) in
    merge_step unit (merged, (ns, ne, nb), (block, ptr)) r = Some st' ∧ lenZ block' = lenZ block ∧
    merge_inv (seen ++ [r]) count (total + (rq_end r - ne)) st'.
Proof.
  intros [Hsound Hcomp Hwf Hcur Hcnt] [Hr Hbuf] Hle Hlt Hns Hone Hroom. destruct r as [[start end_] buf].
  unfold rq_start, rq_end, rq_buf in *. simpl in *.
  destruct Hcur as (Hptr & Hmax & Hmin & Hmaxe), Hcnt as (Hc1 & Hc2 & Hc3 & Hc4).
  set (n := (end_ - ne) * unit) in *. assert (0 ≤ n) by (unfold n; nia).
  pose proof Hwf as Hwf0. apply list.Forall_app in Hwf0 as [_ Hw%List.Forall_inv]. simpl in Hw.
  assert (0 ≤ ptr) as Hptr0 by (pose proof (Z.mul_nonneg_nonneg (ne - ns) unit); lia).
  assert ((ne - start) * unit = ne - start) as Hsrc by (destruct Hone as [->|]; [lia|]; replace ne with start by lia; lia).
  destruct (put_spec buf (ne - start) n block ptr) as (block' & Hput & Hl & Hold & Hnew);
    [lia|lia|unfold n; nia|lia|lia|].
  exists block'. rewrite bool_decide_eq_false_2, bool_decide_eq_true_2 by lia.
  rewrite (u64_id (ne - start)) by lia. rewrite (u64_eq (u64 (end_ - ne) * unit) n) by u64_side.
  rewrite Hput. simpl. split; [done|]. split; [done|]. split.
  - intros m x [Hm| ->%list_elem_of_singleton]%elem_of_app Hx.
    + destruct (Hsound m x) as (r & Hr' & Hxr & Hg); [set_solver|done|].
      exists r. split; [set_solver|]. split; [done|]. intros b Hb. rewrite <-Hg by done.
      rewrite list.Forall_forall in Hwf. specialize (Hwf m ltac:(set_solver)).
      eapply mg_get_frame; [done|done| |exact Hold]. lia.
    + unfold in_merged in Hx. simpl in Hx. destruct (decide (x < ne)) as [Hxne|Hxne].
      * destruct (Hsound (ns, ne, nb) x) as (r & Hr' & Hxr & Hg); [set_solver|unfold in_merged; simpl; lia|].
        exists r. split; [set_solver|]. split; [done|]. intros b Hb. rewrite <-Hg by done.
        unfold mg_get. simpl. apply Hold. nia.
      * exists (start, end_, buf). split; [set_solver|]. split; [unfold in_request, rq_start, rq_end; simpl; lia|].
        intros b Hb. unfold mg_get, rq_get, rq_start, rq_buf. simpl.
        replace (nb + ((x - ns) * unit + b)) with (ptr + ((x - ne) * unit + b)) by lia.
        rewrite Hnew by (unfold n; nia). f_equal. lia.
  - intros r x [Hr'| ->%list_elem_of_singleton]%elem_of_app Hx.
    + destruct (Hcomp r x Hr' Hx) as (m & [Hm| ->%list_elem_of_singleton]%elem_of_app & Hxm).
      * exists m. split; [set_solver|done].
      * exists (ns, end_, nb). split; [set_solver|]. unfold in_merged in *. simpl in *. lia.
    + destruct (decide (ns ≤ x)); [|unfold in_request, rq_start in Hx; simpl in Hx; lia].
      exists (ns, end_, nb). split; [set_solver|]. unfold in_merged, in_request, rq_end in *. simpl in *. lia.
  - apply list.Forall_app in Hwf as [Hwm _]. apply list.Forall_app. split.
    + eapply list.Forall_impl; [exact Hwm|]. simpl. intros m ?. lia.
    + apply list.Forall_singleton. simpl. unfold n. nia.
  - split; [simpl; unfold n; lia|]. split.
    + apply list.Forall_app. split; [|apply list.Forall_singleton; unfold rq_end; simpl; lia].
      eapply list.Forall_impl; [exact Hmax|]. unfold rq_end. simpl. intros r' ?. lia.
    + split; [|exists (start, end_, buf); split; [set_solver|done]].
      destruct Hmin as (r & ? & ?). exists r. split; [set_solver|done].
  - rewrite !lenZ_snoc in *. unfold n. split; [lia|]. split; [lia|]. split; [lia|]. rewrite Hl. lia.
Qed.

Lemma merge_step_inside seen count total merged ns ne nb block ptr r :
  merge_inv seen count total (merged, (ns, ne, nb), (block, ptr)) → rq_ok r →
  rq_start r ≤ ne → rq_end r ≤ ne → ns ≤ rq_start r →
  let st := (merged, (ns, ne, nb), (block, ptr)) in
  merge_step unit st r = Some st ∧ merge_inv (seen ++ [r]) count total st.
Proof.
  intros [Hsound Hcomp Hwf Hcur Hcnt] [Hr Hbuf] Hle Hlt Hns. destruct r as [[start end_] buf].
  unfold rq_start, rq_end, rq_buf in *. simpl in *.
  destruct Hcur as (Hptr & Hmax & Hmin & Hmaxe), Hcnt as (Hc1 & Hc2 & Hc3 & Hc4).
  rewrite !bool_decide_eq_false_2 by lia. split; [done|]. split; [| |done| |].
  - intros m x Hm Hx. destruct (Hsound m x Hm Hx) as (r & ? & ?). exists r. split; [set_solver|done].
  - intros r x [Hr'| ->%list_elem_of_singleton]%elem_of_app Hx; [by eapply Hcomp|].
    exists (ns, ne, nb). split; [set_solver|]. unfold in_merged, in_request, rq_start, rq_end in *. simpl in *. lia.
  - split; [done|]. split.
    + apply list.Forall_app. split; [done|]. apply list.Forall_singleton. unfold rq_end. simpl. lia.
    + split; [destruct Hmin as (r & ? & ?)|destruct Hmaxe as (r & ? & ?)]; (exists r; split; [set_solver|done]).
  - rewrite !lenZ_snoc in *. split; [lia|]. split; [lia|]. done.
Qed.

#[local] Arguments merge_count_step : simpl never.
#[local] Arguments merge_step : simpl never.

(** The counting loop without wrap-around. *)
Lemma count_step c t e r : rq_ok r → 0 ≤ t → t + (rq_end r - rq_start r) < W64 → 0 ≤ e →
  merge_count_step (c, t, e) r =
    if decide (e < rq_start r) then (c + 1, t + (rq_end r - rq_start r), rq_end r)
    else if decide (e < rq_end r) then (c, t + (rq_end r - e), rq_end r) else (c, t, e).
Proof.
  intros [Hr _] Ht Hw He. destruct r as [[start end_] buf]. unfold merge_count_step, rq_start, rq_end in *. simpl in *.
  repeat case_bool_decide; repeat case_decide; try lia; try done.
  - rewrite (u64_eq (t + u64 (end_ - start)) (t + (end_ - start))) by u64_side. done.
  - rewrite (u64_eq (t + u64 (end_ - e)) (t + (end_ - e))) by u64_side. done.
Qed.

Lemma count_loop rs : ∀ c t e, Forall rq_ok rs → 0 ≤ t → t + rq_total rs < W64 → 0 ≤ e →
  let '(M, T, _) := foldl merge_count_step (c, t, e) rs in t ≤ T ≤ t + rq_total rs.
Proof.
  induction rs as [|r rs IH]; intros c t e Hok Ht Hw He; simpl; [lia|].
  apply list.Forall_cons in Hok as [Hr Hok]. simpl in Hw. pose proof (rq_total_nonneg _ Hok). pose proof (rq_ok_range _ Hr).
  rewrite count_step by (done || lia).
  case_decide; [|case_decide].
  - specialize (IH (c + 1) (t + (rq_end r - rq_start r)) (rq_end r) Hok). destruct (foldl _ _ _) as [[M T] ?]. lia.
  - specialize (IH c (t + (rq_end r - e)) (rq_end r) Hok). destruct (foldl _ _ _) as [[M T] ?]. lia.
  - specialize (IH c t e Hok). destruct (foldl _ _ _) as [[M T] ?]. lia.
Qed.

Lemma merge_loop_spec rs : ∀ seen count total st,
  merge_inv seen count total st → Forall rq_ok seen → Forall rq_ok rs → rq_sorted (seen ++ rs) →
  0 ≤ total → total + rq_total rs < W64 → lenZ (block_of st) < W64 →
  let '(M, T, _) := foldl merge_count_step (count, total, cur_end st) rs in
  T * unit ≤ lenZ (block_of st) →
  ∃ st', merge_loop unit rs st = Some st' ∧ lenZ (block_of st') = lenZ (block_of st) ∧ merge_inv (seen ++ rs) M T st'.
Proof.
  induction rs as [|r rs IH]; intros seen count total st Hinv Hseen Hok Hsort Ht Hw Hb; simpl.
  { intros _. exists st. by rewrite app_nil_r. }
  apply list.Forall_cons in Hok as [Hr Hok]. simpl in Hw. pose proof (rq_total_nonneg _ Hok).
  pose proof (rq_ok_range _ Hr) as Hrange.
  destruct st as [[merged [[ns ne] nb]] [block ptr]]. unfold cur_end, block_of in *. cbn [fst snd] in *.
  pose proof Hinv as [_ _ _ (_ & _ & (rs0 & Hrs0 & Hns) & (re0 & Hre0 & Hne)) _]. cbn [fst snd] in Hns, Hne.
  assert (∀ r0, r0 ∈ seen → rq_start r0 ≤ rq_start r ∧ (unit = 1 ∨ rq_end r0 ≤ rq_start r)) as Hord.
  { intros r0 Hr0. exact (StronglySorted_app_1_elem_of _ seen (r :: rs) r0 r Hsort Hr0 ltac:(set_solver)). }
  assert (0 ≤ ne) as Hne0.
  { rewrite <-Hne. rewrite list.Forall_forall in Hseen. pose proof (rq_ok_range _ (Hseen _ Hre0)). lia. }
  assert (∀ c t e st1, merge_step unit (merged, (ns, ne, nb), (block, ptr)) r = Some st1 →
    merge_count_step (count, total, ne) r = (c, t, e) → merge_inv (seen ++ [r]) c t st1 → cur_end st1 = e →
    lenZ (block_of st1) = lenZ block → 0 ≤ t → t + rq_total rs < W64 →
    let '(M, T, _) := foldl merge_count_step (merge_count_step (count, total, ne) r) rs in
    T * unit ≤ lenZ block → ∃ st', (merge_step unit (merged, (ns, ne, nb), (block, ptr)) r ≫= merge_loop unit rs) = Some st' ∧
      lenZ (block_of st') = lenZ block ∧ merge_inv (seen ++ r :: rs) M T st') as Hnext.
  { intros c t e st1 Hs Hc Hinv1 He Hl1 Ht1 Hw1. rewrite Hs, Hc. unfold cur_end, block_of in *. simpl.
    specialize (IH (seen ++ [r]) c t st1 Hinv1). rewrite <-app_assoc, He, Hl1 in IH. simpl in IH.
    apply IH; try done; try lia. apply list.Forall_app. by split; [|constructor]. }
  assert (let '(M, T, _) := foldl merge_count_step (merge_count_step (count, total, ne) r) rs in
          let '(_, t, _) := merge_count_step (count, total, ne) r in t ≤ T) as Hmono.
  { rewrite count_step by (done || lia). pose proof (λ c t e, count_loop rs c t e Hok) as Hcl.
    case_decide; [|case_decide].
    - specialize (Hcl (count + 1) (total + (rq_end r - rq_start r)) (rq_end r)). destruct (foldl _ (_, _, _) rs) as [[??]?]. lia.
    - specialize (Hcl count (total + (rq_end r - ne)) (rq_end r)). destruct (foldl _ (_, _, _) rs) as [[??]?]. lia.
    - specialize (Hcl count total ne). destruct (foldl _ (_, _, _) rs) as [[??]?]. lia. }
  destruct (Hord _ Hrs0) as [Hns' _]. destruct (Hord _ Hre0) as [_ Hne']. rewrite Hns in Hns'. rewrite Hne in Hne'.
  destruct (foldl _ _ rs) as [[M T] E] eqn:HF. intros HT.
  rewrite count_step in Hmono, Hnext by (done || lia). destruct (decide (ne < rq_start r)); [|destruct (decide (ne < rq_end r))].
  - edestruct merge_step_detached as (block' & Hs & Hl & Hi); [exact Hinv|done|done|split; [nia|done]|].
    eapply (Hnext _ _ _ _ Hs eq_refl Hi eq_refl Hl); lia.
  - edestruct merge_step_extend as (block' & Hs & Hl & Hi); [exact Hinv|done|lia|lia|done|done|split; [nia|done]|].
    eapply (Hnext _ _ _ _ Hs eq_refl Hi eq_refl Hl); lia.
  - edestruct merge_step_inside as (Hs & Hi); [exact Hinv|done|lia|lia|done|].
    eapply (Hnext _ _ _ _ Hs eq_refl Hi eq_refl eq_refl); lia.
Qed.

(** What the merged requests hold. *)
Record merged_ok (rs : list request) (ms : list (Z * Z * Z)) (block : list byte) : Prop := {
  mo_length : lenZ ms ≤ lenZ rs;
  mo_wf : Forall (λ m, 0 ≤ m.1.1 ∧ m.1.1 < m.1.2 ∧ m.1.2 < W64 ∧ 0 ≤ m.2 ∧
                       m.2 + (m.1.2 - m.1.1) * unit ≤ lenZ block) ms;
  mo_sound : ∀ m x, m ∈ ms → in_merged x m →
    ∃ r, r ∈ rs ∧ in_request x r ∧ ∀ b, 0 ≤ b < unit → mg_get block m x b = rq_get r x b;
  mo_complete : ∀ r x, r ∈ rs → in_request x r → ∃ m, m ∈ ms ∧ in_merged x m }.

Lemma merge_requests_ok junk rs :
  rs ≠ [] → Forall rq_ok rs → rq_sorted rs → rq_total rs * unit < W64 →
  ∃ ms block, merge_requests junk rs unit = Some (ms, block) ∧ lenZ block ≤ rq_total rs * unit ∧ merged_ok rs ms block.
Proof.
  destruct rs as [|[[start end_] buf] rs]; [done|]. intros _ [Hr Hok]%list.Forall_cons Hsort Hw.
  pose proof (rq_total_nonneg _ Hok). pose proof (rq_ok_range _ Hr) as Hrange. pose proof (rq_ok_buf _ Hr) as Hbuf.
  simpl in Hw. unfold merge_requests. unfold rq_start, rq_end, rq_buf in Hrange, Hbuf, Hw. cbn [fst snd] in *.
  assert (end_ - start + rq_total rs < W64) by nia.
  rewrite (u64_id (end_ - start)) by lia.
  pose proof (count_loop rs 1 (end_ - start) end_ Hok ltac:(lia) ltac:(lia) ltac:(lia)) as Hcl.
  destruct (foldl merge_count_step (1, end_ - start, end_) rs) as [[M T] E] eqn:HF.
  set (n := (end_ - start) * unit) in *. assert (0 ≤ n) by (unfold n; nia). assert (n ≤ T * unit) by (unfold n; nia).
  assert (T * unit < W64) by nia. rewrite (u64_id n), (u64_id (T * unit)) by lia.
  assert (lenZ (malloc junk (T * unit)) = T * unit) as Hmal by (apply lenZ_malloc; lia).
  destruct (put_spec buf 0 n (malloc junk (T * unit)) 0) as (block & -> & Hl & _ & Hnew); [lia..|]. simpl.
  rewrite Hmal in Hl.
  pose proof (merge_loop_spec rs [(start, end_, buf)] 1 (end_ - start) ([], (start, end_, 0), (block, n))) as Hloop.
  unfold cur_end, block_of in Hloop. cbn [fst snd] in Hloop. rewrite HF in Hloop.
  destruct Hloop as (st' & Hrun & Hl' & Hinv); [|by constructor|done|done|lia|lia|lia|lia|].
  { split; simpl.
    - intros m x ->%list_elem_of_singleton Hx. exists (start, end_, buf). split; [set_solver|]. split; [done|].
      intros b Hb. unfold mg_get, rq_get, in_merged, rq_start, rq_buf in *. simpl in *. apply Hnew. unfold n. nia.
    - intros r x ->%list_elem_of_singleton Hx. exists (start, end_, 0). split; [set_solver|done].
    - apply list.Forall_singleton. simpl. unfold n. lia.
    - split; [done|]. split; [apply list.Forall_singleton; done|].
      split; (exists (start, end_, buf); split; [set_solver|done]).
    - unfold lenZ in *. simpl. unfold n in *. lia. }
  rewrite Z.add_0_l, Hrun. destruct st' as [[merged cur] [block' ptr']]. simpl in *.
  destruct Hinv as [Hsound Hcomp Hwf _ (Hc1 & Hc2 & Hc3 & Hc4)].
  rewrite decide_True by lia. exists (merged ++ [cur]), block'. split; [done|].
  split; [unfold rq_end, rq_start; simpl; nia|].
  split; [rewrite <-Hc1 in Hc2; exact Hc2| |done|done].
  eapply list.Forall_impl; [exact Hwf|]. simpl. intros m ?. lia.
Qed.
End Merge.

(** * The cached regions of an object *)

(** A cached region of an object of [n] dimensions and elements of [unit] bytes
    carries its own data. *)
Definition wf_cached (n : nat) (unit : Z) (r : pdc_region_info) : Prop :=
  wf_req n unit r (ri_buf r) ∧ ri_unit r = unit.

Definition cached_get (unit : Z) (r : pdc_region_info) (p : list Z) (b : Z) : option byte :=
  req_get unit r (ri_buf r) p b.

(** Cached regions that share a point agree on it. *)
Definition coherent (unit : Z) (regs : list pdc_region_info) : Prop :=
  ∀ r r' p b, r ∈ regs → r' ∈ regs → in_req r p → in_req r' p → 0 ≤ b < unit →
    cached_get unit r p b = cached_get unit r' p b.

#[global] Instance in_req_dec' p : ∀ r, Decision (in_req r p).
Proof. intros r. apply in_region_dec. Defined.

Definition regs_content (unit : Z) (regs : list pdc_region_info) (p : list Z) (b : Z) : option byte :=
  '(_, r) ← list_find (λ r, in_req r p) regs; cached_get unit r p b.

Definition pairwise_disjoint (regs : list pdc_region_info) : Prop :=
  ∀ i j r r' p, regs !! i = Some r → regs !! j = Some r' → i ≠ j → in_req r p → ¬ in_req r' p.

Definition regs_volume (regs : list pdc_region_info) : Z := foldr (λ r t, vol (ri_size r) + t) 0 regs.

Lemma covered_cases p (regs : list pdc_region_info) :
  (∃ r, r ∈ regs ∧ in_req r p) ∨ (∀ r, r ∈ regs → ¬ in_req r p).
Proof.
  destruct (decide (Exists (λ r, in_req r p) regs)) as [H|H].
  - left. by apply list.Exists_exists in H.
  - right. intros r Hr Hp. apply H, list.Exists_exists. eauto.
Qed.

Lemma regs_content_Some unit regs p b r : coherent unit regs → r ∈ regs → in_req r p → 0 ≤ b < unit →
  regs_content unit regs p b = cached_get unit r p b.
Proof.
  intros Hc Hr Hp Hb. unfold regs_content. destruct (list_find _ _) as [[i r']|] eqn:Hf; simpl.
  - apply list_find_Some in Hf as (Hi & Hp' & _). apply list_elem_of_lookup_2 in Hi. by apply Hc.
  - apply list_find_None in Hf. rewrite list.Forall_forall in Hf. by destruct (Hf r).
Qed.

Lemma regs_content_None unit regs p b : (∀ r, r ∈ regs → ¬ in_req r p) → regs_content unit regs p b = None.
Proof.
  intros H. unfold regs_content. destruct (list_find _ _) as [[i r']|] eqn:Hf; [|done].
  apply list_find_Some in Hf as (Hi & Hp' & _). apply list_elem_of_lookup_2 in Hi. by destruct (H r').
Qed.

Lemma cached_get_is_Some n unit r p b : wf_cached n unit r → in_req r p → 0 ≤ b < unit → is_Some (cached_get unit r p b).
Proof.
  intros [Hr _] Hp Hb. pose proof (wf_region_lin _ _ _ _ _ Hp Hb). destruct (wr_buf _ _ _ _ Hr).
  apply getZ_is_Some. lia.
Qed.

Lemma head_cached n unit regs : Forall (wf_cached n unit) regs → regs ≠ [] → ∃ r, head regs = Some r ∧ ri_unit r = unit.
Proof. intros [|r regs' [_ ?] _] ?; [done|]. by exists r. Qed.

(** Two lists that cover the same points with the same bytes. *)
Lemma regs_content_ext unit regs regs' :
  coherent unit regs →
  (∀ r' p, r' ∈ regs' → in_req r' p →
     ∃ r, r ∈ regs ∧ in_req r p ∧ ∀ b, 0 ≤ b < unit → cached_get unit r' p b = cached_get unit r p b) →
  (∀ r p, r ∈ regs → in_req r p → ∃ r', r' ∈ regs' ∧ in_req r' p) →
  coherent unit regs' ∧ ∀ p b, 0 ≤ b < unit → regs_content unit regs' p b = regs_content unit regs p b.
Proof.
  intros Hc Hsound Hcomp. assert (coherent unit regs') as Hc'.
  { intros r1 r2 p b H1 H2 Hp1 Hp2 Hb. destruct (Hsound r1 p H1 Hp1) as (r & Hr & Hp & ->); [|done].
    destruct (Hsound r2 p H2 Hp2) as (r' & Hr' & Hp' & ->); [|done]. by apply Hc. }
  split; [done|]. intros p b Hb. destruct (covered_cases p regs) as [(r & Hr & Hp)|Hno].
  - destruct (Hcomp r p Hr Hp) as (r' & Hr' & Hp'). rewrite (regs_content_Some _ _ _ _ r') by done.
    destruct (Hsound r' p Hr' Hp') as (r2 & Hr2 & Hp2 & ->); [|done]. by rewrite (regs_content_Some _ _ _ _ r2).
  - rewrite !regs_content_None; [done|done|]. intros r' Hr' Hp'.
    destruct (Hsound r' p Hr' Hp') as (r & Hr & Hp & _). by apply (Hno r).
Qed.

(** ** Regions of one dimension as requests *)

Section OneDim.
Context (unit : Z) (Hunit : 0 < unit).

Lemma region_request_1d r : wf_cached 1 unit r →
  rq_ok unit (region_request r) ∧
  rq_end (region_request r) - rq_start (region_request r) = vol (ri_size r) ∧
  rq_start (region_request r) = arr (ri_offset r) 0 ∧
  (∀ p, in_req r p ↔ ∃ x, p = [x] ∧ in_request x (region_request r)) ∧
  ∀ x b, cached_get unit r [x] b = rq_get unit (region_request r) x b.
Proof.
  intros [[Hnd Hreg Hbuf] Hu]. destruct (region_1d 1 _ _ eq_refl Hreg) as (H1 & H2 & H3 & H4 & H5 & H6).
  unfold region_request, in_request, rq_start, rq_end, rq_buf. simpl. rewrite (u64_id (_ + _)) by lia.
  split; [split; unfold rq_start, rq_end, rq_buf; simpl; [lia|]|].
  { replace (arr (ri_offset r) 0 + arr (ri_size r) 0 - arr (ri_offset r) 0) with (vol (ri_size r)) by lia. lia. }
  split; [lia|]. split; [done|]. split; [done|].
  intros x b. unfold cached_get, req_get, reg_get, rq_get, rq_start, rq_buf. by rewrite H6.
Qed.

Lemma override_1d block r s e o :
  wf_cached 1 unit r → 0 ≤ s → s < e → e < W64 → 0 ≤ o → o + (e - s) * unit ≤ lenZ block → lenZ block < W64 →
  wf_cached 1 unit (override block r (s, e, o)) ∧
  (∀ p, in_req (override block r (s, e, o)) p ↔ ∃ x, p = [x] ∧ in_merged x (s, e, o)) ∧
  ∀ x b, in_merged x (s, e, o) → 0 ≤ b → cached_get unit (override block r (s, e, o)) [x] b = mg_get unit block (s, e, o) x b.
Proof.
  intros [[Hnd Hreg Hbuf] Hu] Hs Hse He Ho Hob Hb. destruct r as [nd off size buf u]. simpl in *.
  destruct Hreg as [Hlo Hls Hf]. apply length_1 in Hlo as (o0 & ->), Hls as (s0 & ->). simpl.
  rewrite (u64_id (e - s)) by lia.
  assert (wf_region 1 [s] [e - s]) as Hwf.
  { split; [done|done|]. constructor; [lia|constructor]. }
  split.
  { split; [split; simpl; [done|done|]|done]. rewrite lenZ_drop by lia. rewrite Z.mul_1_r. nia. }
  unfold in_req. simpl. split.
  - intros p. unfold in_merged. simpl. split.
    + destruct p as [|x [|]]; try tauto. intros [Hx _]. exists x. split; [done|lia].
    + intros (x & -> & Hx). split; [lia|done].
  - intros x b Hx Hb0. unfold cached_get, req_get, reg_get, mg_get, in_merged in *. simpl in *.
    unfold lin, lin_from. simpl. rewrite getZ_drop by nia. done.
Qed.

Lemma rq_total_volume regs : Forall (wf_cached 1 unit) regs → rq_total (region_request <$> regs) = regs_volume regs.
Proof.
  induction 1 as [|r regs Hr _ IH]; [done|]. destruct (region_request_1d r Hr) as (_ & Hv & _).
  change (rq_end (region_request r) - rq_start (region_request r) + rq_total (region_request <$> regs) =
          vol (ri_size r) + regs_volume regs). lia.
Qed.
End OneDim.

Lemma regs_volume_perm regs regs' : regs ≡ₚ regs' → regs_volume regs = regs_volume regs'.
Proof. induction 1; simpl; lia. Qed.

Lemma strongly_sorted_lookup {A} (R : relation A) (l : list A) :
  (∀ i j x y, (i < j)%nat → l !! i = Some x → l !! j = Some y → R x y) → StronglySorted R l.
Proof.
  induction l as [|a l IH]; intros H; constructor.
  - apply IH. intros i j x y Hij Hi Hj. apply (H (S i) (S j)); [lia|done..].
  - apply Forall_lookup. intros j y Hj. apply (H 0%nat (S j) a y); [lia|done..].
Qed.

Lemma strongly_sorted_lookup_inv {A} (R : relation A) (l : list A) i j x y :
  StronglySorted R l → (i < j)%nat → l !! i = Some x → l !! j = Some y → R x y.
Proof.
  intros Hs. revert i j. induction Hs as [|a l Hs IH Ha]; intros i j Hij Hi Hj; [done|].
  destruct j as [|j]; [lia|]. destruct i as [|i]; simpl in *.
  - simplify_eq. rewrite list.Forall_forall in Ha. apply Ha. by eapply list_elem_of_lookup_2.
  - apply (IH i j); [lia|done..].
Qed.

(** * The cache against the storage interface *)

Section CacheCorrect.
Context {St : Type} (dim : Z → nat) (unit : Z → Z) `{RegionStorageLaws St dim unit}.
Context (Hdim : ∀ o, (1 ≤ dim o ≤ 3)%nat) (Hunit : ∀ o, 0 < unit o).
Context (maximum_cache_size : Z) (junk : byte) (qsort : list pdc_region_info → list pdc_region_info).
(** [qsort] sorts by the comparison function it is given. *)
Context (qsort_perm : ∀ l, qsort l ≡ₚ l)
        (qsort_sorted : ∀ l, StronglySorted (λ e1 e2, sort_by_offset e1 e2 ≤ 0) (qsort l)).

Record oc_ok (oc : pdc_obj_cache) : Prop := {
  oo_ndim : oc_ndim oc = dim (oc_obj_id oc);
  oo_size : oc_region_cache_size oc = length (oc_region_cache oc);
  oo_regions : Forall (wf_cached (dim (oc_obj_id oc)) (unit (oc_obj_id oc))) (oc_region_cache oc);
  oo_coherent : coherent (unit (oc_obj_id oc)) (oc_region_cache oc) }.

(** When merging before a flush keeps the data: the element size is one byte,
    or no two cached regions overlap. *)
Definition merge_safe (oc : pdc_obj_cache) : Prop :=
  oc_ndim oc = 1%nat →
    (unit (oc_obj_id oc) = 1 ∨ pairwise_disjoint (oc_region_cache oc)) ∧
    regs_volume (oc_region_cache oc) * unit (oc_obj_id oc) < W64.

Lemma sort_by_offset_le e1 e2 : sort_by_offset e1 e2 ≤ 0 ↔ arr (ri_offset e1) 0 ≤ arr (ri_offset e2) 0.
Proof. unfold sort_by_offset. repeat case_bool_decide; lia. Qed.

Lemma sorted_requests u regs :
  0 < u → Forall (wf_cached 1 u) regs → (u = 1 ∨ pairwise_disjoint regs) →
  rq_sorted u (region_request <$> qsort regs).
Proof.
  intros Hu Hwf Hsafe. assert (Forall (wf_cached 1 u) (qsort regs)) as Hwf' by (by rewrite qsort_perm).
  assert (u = 1 ∨ pairwise_disjoint (qsort regs)) as Hsafe'.
  { destruct Hsafe as [|Hd]; [by left|right]. intros i j r r' p Hi Hj Hij.
    destruct (proj1 (Permutation_inj (qsort regs) regs) (qsort_perm regs)) as (_ & f & Hf & Hlook).
    rewrite Hlook in Hi, Hj. apply (Hd (f i) (f j)); [done..|]. intros ?. by apply Hij, Hf. }
  apply strongly_sorted_lookup. intros i j x y Hij Hi Hj.
  rewrite list_lookup_fmap in Hi, Hj. destruct (qsort regs !! i) as [r|] eqn:Hri; [|done].
  destruct (qsort regs !! j) as [r'|] eqn:Hrj; [|done]. simplify_eq/=.
  pose proof (strongly_sorted_lookup_inv _ _ _ _ _ _ (qsort_sorted regs) Hij Hri Hrj) as Hle.
  apply sort_by_offset_le in Hle.
  rewrite list.Forall_forall in Hwf'.
  destruct (region_request_1d u r) as ([Hr _] & _ & Hs & Hin & _); [by apply Hwf'; eapply list_elem_of_lookup_2|].
  destruct (region_request_1d u r') as ([Hr' _] & _ & Hs' & Hin' & _); [by apply Hwf'; eapply list_elem_of_lookup_2|].
  split; [lia|]. destruct Hsafe' as [|Hd]; [by left|right].
  destruct (decide (rq_end (region_request r) ≤ rq_start (region_request r'))) as [|Hno]; [done|exfalso].
  apply (Hd i j r r' [rq_start (region_request r')] Hri Hrj); [lia| |].
  - apply Hin. eexists. split; [done|]. unfold in_request. lia.
  - apply Hin'. eexists. split; [done|]. unfold in_request. lia.
Qed.

(** Merging keeps the cached bytes. *)
Lemma merge_regions_ok oc : oc_ok oc → merge_safe oc → oc_ndim oc = 1%nat → oc_region_cache oc ≠ [] →
  ∃ regs, merge_regions junk qsort oc = Some regs ∧
    Forall (wf_cached 1 (unit (oc_obj_id oc))) regs ∧ coherent (unit (oc_obj_id oc)) regs ∧
    ∀ p b, 0 ≤ b < unit (oc_obj_id oc) →
      regs_content (unit (oc_obj_id oc)) regs p b = regs_content (unit (oc_obj_id oc)) (oc_region_cache oc) p b.
Proof.
  intros [Hnd Hsize Hwf Hcoh] Hsafe H1 Hne. destruct (Hsafe H1) as [Hdisj Hvol].
  set (u := unit (oc_obj_id oc)) in *. assert (0 < u) as Hu by apply Hunit.
  rewrite <-Hnd, H1 in Hwf. set (regs := oc_region_cache oc) in *.
  pose proof (sorted_requests u regs Hu Hwf Hdisj) as Hsort.
  assert (Forall (wf_cached 1 u) (qsort regs)) as Hwf' by (by rewrite qsort_perm).
  assert (Forall (rq_ok u) (region_request <$> qsort regs)) as Hok.
  { apply list.Forall_fmap. eapply list.Forall_impl; [exact Hwf'|]. intros r Hr. by apply region_request_1d. }
  destruct (merge_requests_ok u Hu junk (region_request <$> qsort regs)) as (ms & block & Hrun & Hlb & [Hlen Hmwf Hsound Hcomp]);
    [|done|done|rewrite (rq_total_volume u), (regs_volume_perm _ regs) by done; lia|].
  { intros E%fmap_nil_inv. apply Hne. pose proof (qsort_perm regs) as Hp. rewrite E in Hp. by apply Permutation_nil_l in Hp. }
  rewrite (rq_total_volume u), (regs_volume_perm _ regs) in Hlb by done.
  assert (lenZ ms ≤ lenZ regs) as Hlen'.
  { unfold lenZ in *. rewrite length_fmap, (Permutation_length (qsort_perm regs)) in Hlen. lia. }
  unfold merge_regions. fold regs. destruct (head_cached _ _ _ Hwf Hne) as (r0 & -> & Hu0).
  simpl. rewrite Hu0, Hrun. simpl. eexists. split; [done|].
  assert (∀ i r m, (regs : list _) !! i = Some r → ms !! i = Some m →
    wf_cached 1 u (override block r m) ∧
    (∀ p, in_req (override block r m) p ↔ ∃ x, p = [x] ∧ in_merged x m) ∧
    ∀ x b, in_merged x m → 0 ≤ b → cached_get u (override block r m) [x] b = mg_get u block m x b) as Hov.
  { intros i r [[s e] o] Hi Hm. rewrite list.Forall_forall in Hmwf.
    pose proof (Hmwf (s, e, o) ltac:(by eapply list_elem_of_lookup_2)) as Hm'. simpl in Hm'.
    apply override_1d; try lia. rewrite list.Forall_forall in Hwf. apply Hwf. by eapply list_elem_of_lookup_2. }
  assert (∀ m, m ∈ ms → ∃ i r, regs !! i = Some r ∧ ms !! i = Some m) as Hidx.
  { intros m (i & Hi)%list_elem_of_lookup. destruct (lookup_lt_is_Some_2 regs i) as [r Hr].
    { apply lookup_lt_Some in Hi. unfold lenZ in *. lia. } eauto. }
  split.
  { apply Forall_lookup. intros i r Hi. rewrite lookup_zip_with in Hi.
    destruct (regs !! i) as [r1|] eqn:E1; [|done]. destruct (ms !! i) as [m|] eqn:E2; [|done]. simplify_eq/=.
    by apply (Hov i). }
  assert (∀ r', r' ∈ zip_with (override block) regs ms → ∃ i r m, regs !! i = Some r ∧ ms !! i = Some m ∧ r' = override block r m) as Hz.
  { intros r' (i & Hi)%list_elem_of_lookup. rewrite lookup_zip_with in Hi.
    destruct (regs !! i) as [r1|] eqn:E1; [|done]. destruct (ms !! i) as [m|] eqn:E2; [|done]. simplify_eq/=. eauto 10. }
  apply regs_content_ext; [done| |].
  - intros r' p Hr' Hp. destruct (Hz r' Hr') as (i & r & m & Hi & Hm & ->). destruct (Hov i r m Hi Hm) as (_ & Hin & Hg).
    apply Hin in Hp as (x & -> & Hx). destruct (Hsound m x) as (q & Hq & Hxq & Hgq); [by eapply list_elem_of_lookup_2|done|].
    apply list_elem_of_fmap in Hq as (r2 & -> & Hr2). rewrite qsort_perm in Hr2.
    rewrite list.Forall_forall in Hwf. destruct (region_request_1d u r2 (Hwf r2 Hr2)) as (_ & _ & _ & Hin2 & Hg2).
    exists r2. split; [done|]. split; [apply Hin2; eauto|]. intros b Hb. rewrite Hg, Hgq, Hg2 by (done || lia). done.
  - intros r p Hr Hp. pose proof Hwf as Hwf2. rewrite list.Forall_forall in Hwf2.
    destruct (region_request_1d u r (Hwf2 r Hr)) as (_ & _ & _ & Hin2 & Hg2). apply Hin2 in Hp as (x & -> & Hx).
    destruct (Hcomp (region_request r) x) as (m & Hm & Hxm); [|done|].
    { apply list_elem_of_fmap. exists r. by rewrite qsort_perm. }
    destruct (Hidx m Hm) as (i & r1 & Hi & Hmi). destruct (Hov i r1 m Hi Hmi) as (_ & Hin & _).
    exists (override block r1 m). split; [|apply Hin; eauto].
    eapply list_elem_of_lookup_2. rewrite lookup_zip_with, Hi. simpl. by rewrite Hmi.
Qed.

(** The storage carries out the writes of a flush, one after the other. *)
Fixpoint accepts_all (oc : pdc_obj_cache) (regs : list pdc_region_info) (st : St) : Prop :=
  match regs with
  | [] => True
  | r :: regs =>
      st_accepts st (oc_obj_id oc) r ∧
      ∀ st', transfer_io_write st (oc_obj_id oc) (oc_ndim oc) (oc_dims oc) r (ri_buf r) (ri_unit r) = Some st' →
        accepts_all oc regs st'
  end.

Lemma flush_regions_ok oc regs : ∀ total nflush st,
  oc_ndim oc = dim (oc_obj_id oc) → Forall (wf_cached (dim (oc_obj_id oc)) (unit (oc_obj_id oc))) regs →
  coherent (unit (oc_obj_id oc)) regs → st_ok st → accepts_all oc regs st →
  ∃ total' st', flush_regions oc regs total nflush st = Some (total', nflush + lenZ regs, st') ∧ st_ok st' ∧
    (∀ obj p b, obj ≠ oc_obj_id oc → 0 ≤ b < unit obj → st_content st' obj p b = st_content st obj p b) ∧
    ∀ p b, 0 ≤ b < unit (oc_obj_id oc) →
      (∀ r, r ∈ regs → in_req r p → st_content st' (oc_obj_id oc) p b = cached_get (unit (oc_obj_id oc)) r p b) ∧
      ((∀ r, r ∈ regs → ¬ in_req r p) → st_content st' (oc_obj_id oc) p b = st_content st (oc_obj_id oc) p b).
Proof.
  induction regs as [|r regs IH]; intros total nflush st Hnd Hwf Hcoh Hst Hacc; simpl.
  { exists total, st. unfold lenZ. simpl. rewrite Z.add_0_r. split; [done|]. split; [done|]. split; [done|].
    intros p b Hb. split; [set_solver|done]. }
  apply list.Forall_cons in Hwf as [[Hr Hu] Hwf]. destruct Hacc as [Ha Hacc]. rewrite Hnd, Hu in *.
  destruct (transfer_io_write_ok st (oc_obj_id oc) (oc_dims oc) r (ri_buf r) Hst Hr Ha) as (st1 & Hw & Hst1 & Hc1).
  rewrite Hw. simpl. specialize (Hacc st1 Hw).
  destruct (IH (total -w region_write_size (dim (oc_obj_id oc)) (unit (oc_obj_id oc)) (ri_size r)) (nflush + 1) st1)
    as (total' & st' & Hrun & Hst' & Hother & Hg); [done|done| |done|done|].
  { intros r1 r2 p b H1 H2. apply Hcoh; set_solver. }
  exists total', st'. rewrite Hrun. split.
  { do 3 f_equal. unfold lenZ. simpl. lia. }
  split; [done|]. split.
  { intros obj p b Hne Hb. rewrite Hother, Hc1 by done. by rewrite decide_False by naive_solver. }
  intros p b Hb. destruct (Hg p b Hb) as [Hin Hout]. specialize (Hc1 (oc_obj_id oc) p b Hb). split.
  - intros r' [->|Hr']%elem_of_cons Hp; [|by apply Hin].
    destruct (covered_cases p regs) as [(r' & Hr' & Hp')|Hno].
    + rewrite (Hin r') by done. apply Hcoh; set_solver.
    + rewrite Hout, Hc1 by done. by rewrite decide_True.
  - intros Hno. rewrite Hout, Hc1 by set_solver. rewrite decide_False; [done|]. set_solver.
Qed.

(** The byte an object cache and the storage below hold for a point. *)
Definition overlay (oc : pdc_obj_cache) (st : St) (p : list Z) (b : Z) : option byte :=
  match regs_content (unit (oc_obj_id oc)) (oc_region_cache oc) p b with
  | Some x => Some x
  | None => st_content st (oc_obj_id oc) p b
  end.

(** The condition of a flush: merging is safe and the storage accepts the
    regions written. *)
Definition flush_accepted (oc : pdc_obj_cache) (st : St) : Prop :=
  merge_safe oc ∧
  if decide (oc_ndim oc = 1%nat ∧ oc_region_cache_size oc ≠ 0%nat)
  then ∀ regs, merge_regions junk qsort oc = Some regs → accepts_all oc regs st
  else accepts_all oc (oc_region_cache oc) st.

Definition emptied (oc : pdc_obj_cache) : pdc_obj_cache := ObjCache (oc_obj_id oc) (oc_ndim oc) (oc_dims oc) [] 0.

Lemma emptied_ok oc : oc_ok oc → oc_ok (emptied oc).
Proof. intros [? ? ? ?]. split; simpl; [done|done|constructor|intros ????; set_solver]. Qed.

Lemma flush_by_pointer_ok oc total st :
  oc_ok oc → st_ok st → flush_accepted oc st →
  ∃ nflush total' st',
    PDC_region_cache_flush_by_pointer false junk qsort oc total st = Some (nflush, emptied oc, total', st') ∧
    st_ok st' ∧
    (∀ obj p b, obj ≠ oc_obj_id oc → 0 ≤ b < unit obj → st_content st' obj p b = st_content st obj p b) ∧
    ∀ p b, 0 ≤ b < unit (oc_obj_id oc) → st_content st' (oc_obj_id oc) p b = overlay oc st p b.
Proof.
  intros Hok Hst [Hsafe Hacc]. pose proof Hok as [Hnd Hsize Hwf Hcoh].
  assert (∃ regs n0, (if decide (oc_ndim oc = 1%nat ∧ oc_region_cache_size oc ≠ 0%nat)
       then regs ← merge_regions junk qsort oc; Some (regs, lenZ regs) else Some (oc_region_cache oc, 0)) = Some (regs, n0) ∧
     Forall (wf_cached (dim (oc_obj_id oc)) (unit (oc_obj_id oc))) regs ∧ coherent (unit (oc_obj_id oc)) regs ∧
     accepts_all oc regs st ∧
     ∀ p b, 0 ≤ b < unit (oc_obj_id oc) → regs_content (unit (oc_obj_id oc)) regs p b =
       regs_content (unit (oc_obj_id oc)) (oc_region_cache oc) p b)
    as (regs & n0 & Hregs & Hwf' & Hcoh' & Hacc' & Hcont).
  { case_decide as Hc.
    - destruct Hc as [H1 Hne]. destruct (merge_regions_ok oc) as (regs & Hm & Hw & Hc & Hg); [done|done|done| |].
      { intros E. apply Hne. by rewrite Hsize, E. }
      rewrite Hm. exists regs, (lenZ regs). split; [done|]. rewrite <-Hnd, H1. auto.
    - eauto 10. }
  unfold PDC_region_cache_flush_by_pointer. rewrite Hregs. simpl.
  destruct (flush_regions_ok oc regs total n0 st) as (total' & st' & -> & Hst' & Hother & Hg); [done..|]. simpl.
  eexists _, total', st'. split; [done|]. split; [done|]. split; [done|].
  intros p b Hb. destruct (Hg p b Hb) as [Hin Hout]. unfold overlay. rewrite <-Hcont by done.
  destruct (covered_cases p regs) as [(r & Hr & Hp)|Hno].
  - rewrite (regs_content_Some _ _ _ _ r) by done. rewrite (Hin r) by done.
    rewrite list.Forall_forall in Hwf'. by destruct (cached_get_is_Some _ _ r p b (Hwf' r Hr) Hp Hb) as [x ->].
  - rewrite regs_content_None by done. by apply Hout.
Qed.

(** ** The whole cache *)

Record cache_ok (s : cache_state St) : Prop := {
  co_nodup : NoDup (oc_obj_id <$> cs_objs s);
  co_objs : Forall oc_ok (cs_objs s);
  co_storage : st_ok (cs_storage s) }.

(** The abstract state: the cached byte of a point, or else the stored one. *)
Definition cs_content (s : cache_state St) (obj : Z) (p : list Z) (b : Z) : option byte :=
  match list_find (λ oc, oc_obj_id oc = obj) (cs_objs s) with
  | Some (_, oc) => overlay oc (cs_storage s) p b
  | None => st_content (cs_storage s) obj p b
  end.

Lemma find_first_spec objs obj :
  match find_first objs obj with
  | Some i => ∃ oc, objs !! i = Some oc ∧ oc_obj_id oc = obj
  | None => Forall (λ oc, oc_obj_id oc ≠ obj) objs
  end.
Proof.
  induction objs as [|oc objs IH]; simpl; [done|]. case_decide; simpl; [eauto|].
  destruct (find_first objs obj); simpl; [done|]. by constructor.
Qed.

Lemma find_last_from_spec objs obj : ∀ i ret,
  (∀ j, find_last_from i objs obj ret = Some j →
     (ret = Some j ∧ Forall (λ oc, oc_obj_id oc ≠ obj) objs) ∨
     ∃ oc, (i ≤ j)%nat ∧ objs !! (j - i)%nat = Some oc ∧ oc_obj_id oc = obj) ∧
  (find_last_from i objs obj ret = None → ret = None ∧ Forall (λ oc, oc_obj_id oc ≠ obj) objs).
Proof.
  induction objs as [|oc objs IH]; intros i ret; simpl; [naive_solver|].
  destruct (IH (S i) (if decide (oc_obj_id oc = obj) then Some i else ret)) as [IHs IHn]. split.
  - intros j Hj. destruct (IHs j Hj) as [[Hret Hall]|(oc' & Hle & Hl & He)].
    + case_decide; [|by left; auto]. simplify_eq. right. exists oc. rewrite Nat.sub_diag. auto.
    + right. exists oc'. split; [lia|]. split; [|done]. by replace (j - i)%nat with (S (j - S i)) by lia.
  - intros Hj. destruct (IHn Hj) as [Hret Hall]. case_decide; [done|]. auto.
Qed.

Lemma find_last_spec objs obj :
  match find_last objs obj with
  | Some i => ∃ oc, objs !! i = Some oc ∧ oc_obj_id oc = obj
  | None => Forall (λ oc, oc_obj_id oc ≠ obj) objs
  end.
Proof.
  unfold find_last. destruct (find_last_from_spec objs obj 0 None) as [Hs Hn].
  destruct (find_last_from 0 objs obj None) as [i|] eqn:E.
  - destruct (Hs i eq_refl) as [[? _]|(oc & _ & Hi & ?)]; [done|]. rewrite Nat.sub_0_r in Hi. eauto.
  - by apply Hn.
Qed.

Lemma same_entry objs i j oc oc' : NoDup (oc_obj_id <$> objs) → objs !! i = Some oc → objs !! j = Some oc' →
  oc_obj_id oc = oc_obj_id oc' → i = j.
Proof.
  intros Hnd Hi Hj E. apply (NoDup_lookup _ _ _ (oc_obj_id oc) Hnd); rewrite list_lookup_fmap.
  - by rewrite Hi.
  - rewrite Hj. simpl. by rewrite E.
Qed.

Lemma cs_content_at s i oc p b : NoDup (oc_obj_id <$> cs_objs s) → cs_objs s !! i = Some oc →
  cs_content s (oc_obj_id oc) p b = overlay oc (cs_storage s) p b.
Proof.
  intros Hnd Hi. unfold cs_content. destruct (list_find _ _) as [[j oc']|] eqn:Hf.
  - apply list_find_Some in Hf as (Hj & He & _). assert (i = j) as -> by (eapply same_entry; done).
    rewrite Hi in Hj. by simplify_eq.
  - apply list_find_None in Hf. rewrite list.Forall_forall in Hf.
    destruct (Hf oc); [by eapply list_elem_of_lookup_2|done].
Qed.

Lemma cs_content_none s obj p b : Forall (λ oc, oc_obj_id oc ≠ obj) (cs_objs s) →
  cs_content s obj p b = st_content (cs_storage s) obj p b.
Proof.
  intros Hno. unfold cs_content. destruct (list_find _ _) as [[j oc']|] eqn:Hf; [|done].
  apply list_find_Some in Hf as (Hj & He & _). rewrite list.Forall_forall in Hno.
  destruct (Hno oc'); [by eapply list_elem_of_lookup_2|done].
Qed.

(** Replacing the entry of an object, and the storage. *)
Lemma cs_update s i oc oc' total st :
  cache_ok s → cs_objs s !! i = Some oc → oc_obj_id oc' = oc_obj_id oc → oc_ok oc' → st_ok st →
  (∀ obj p b, obj ≠ oc_obj_id oc → 0 ≤ b < unit obj → st_content st obj p b = st_content (cs_storage s) obj p b) →
  let s' := CacheState (<[i := oc']> (cs_objs s)) total st in
  cache_ok s' ∧
  ∀ obj p b, 0 ≤ b < unit obj →
    cs_content s' obj p b = if decide (obj = oc_obj_id oc) then overlay oc' st p b else cs_content s obj p b.
Proof.
  intros [Hnd Hobjs Hst] Hi Hid Hoc' Hst' Hsame s'.
  assert (oc_obj_id <$> cs_objs s' = oc_obj_id <$> cs_objs s) as Hids.
  { simpl. rewrite list_fmap_insert, Hid. apply list_insert_id. by rewrite list_lookup_fmap, Hi. }
  assert (cs_objs s' !! i = Some oc') as Hi'.
  { simpl. apply list_lookup_insert_eq. by eapply lookup_lt_Some. }
  assert (NoDup (oc_obj_id <$> cs_objs s')) as Hnd' by by rewrite Hids.
  split; [split; [done|by apply list.Forall_insert|done]|].
  intros obj p b Hb. case_decide as E.
  - subst obj. rewrite <-Hid. by apply (cs_content_at s' i).
  - pose proof (find_first_spec (cs_objs s) obj) as Hff. destruct (find_first (cs_objs s) obj) as [j|].
    + destruct Hff as (oc1 & Hj & <-). rewrite (cs_content_at s j) by done.
      rewrite (cs_content_at s' j oc1) by (done || (simpl; rewrite list_lookup_insert_ne; [done|naive_solver])).
      unfold overlay. simpl. by rewrite Hsame.
    + rewrite (cs_content_none s) by done. rewrite cs_content_none; [simpl; by apply Hsame|].
      simpl. apply list.Forall_insert; [done|]. congruence.
Qed.

Lemma flush_at_ok s i oc : cache_ok s → cs_objs s !! i = Some oc → flush_accepted oc (cs_storage s) →
  ∃ nflush s', flush_at false junk qsort s i oc = Some (nflush, s') ∧ cache_ok s' ∧
    (∀ obj p b, 0 ≤ b < unit obj → cs_content s' obj p b = cs_content s obj p b) ∧
    cs_objs s' = <[i := emptied oc]> (cs_objs s) ∧
    ∀ p b, 0 ≤ b < unit (oc_obj_id oc) → st_content (cs_storage s') (oc_obj_id oc) p b = cs_content s (oc_obj_id oc) p b.
Proof.
  intros Hok Hi Hacc. pose proof Hok as [Hnd Hobjs Hst].
  pose proof (list.Forall_lookup_1 _ _ _ _ Hobjs Hi) as Hoc.
  destruct (flush_by_pointer_ok oc (cs_total_cache_size s) (cs_storage s) Hoc Hst Hacc)
    as (nflush & total' & st' & Hrun & Hst' & Hother & Hg).
  unfold flush_at. rewrite Hrun. simpl. eexists _, _. split; [done|].
  destruct (cs_update s i oc (emptied oc) total' st' Hok Hi eq_refl (emptied_ok _ Hoc) Hst' Hother) as [Hok' Hc'].
  split; [exact Hok'|]. split.
  - intros obj p b Hb. rewrite Hc' by done. case_decide; [|done]. subst obj.
    rewrite (cs_content_at s i) by done. unfold overlay at 1. simpl. by apply Hg.
  - split; [done|]. intros p b Hb. rewrite (cs_content_at s i) by done. by apply Hg.
Qed.

(** The condition of a flush of all objects. *)
Fixpoint flush_all_accepted (objs : list pdc_obj_cache) (total : Z) (st : St) : Prop :=
  match objs with
  | [] => True
  | oc :: objs =>
      flush_accepted oc st ∧
      ∀ nflush oc' total' st',
        PDC_region_cache_flush_by_pointer false junk qsort oc total st = Some (nflush, oc', total', st') →
        flush_all_accepted objs total' st'
  end.

Lemma flush_all_loop_ok objs : ∀ total st,
  NoDup (oc_obj_id <$> objs) → Forall oc_ok objs → st_ok st → flush_all_accepted objs total st →
  ∃ total' st', flush_all_loop false junk qsort objs total st = Some (total', st') ∧ st_ok st' ∧
    (∀ oc p b, oc ∈ objs → 0 ≤ b < unit (oc_obj_id oc) → st_content st' (oc_obj_id oc) p b = overlay oc st p b) ∧
    ∀ obj p b, Forall (λ oc, oc_obj_id oc ≠ obj) objs → 0 ≤ b < unit obj → st_content st' obj p b = st_content st obj p b.
Proof.
  induction objs as [|oc objs IH]; intros total st Hnd Hok Hst Hacc; simpl.
  { exists total, st. split; [done|]. split; [done|]. split; [set_solver|done]. }
  apply list.Forall_cons in Hok as [Hoc Hok]. destruct Hacc as [Ha Hacc].
  simpl in Hnd. apply list.NoDup_cons in Hnd as [Hnin Hnd].
  destruct (flush_by_pointer_ok oc total st Hoc Hst Ha) as (nf & total1 & st1 & Hrun & Hst1 & Hother & Hg).
  rewrite Hrun. simpl. destruct (IH total1 st1 Hnd Hok Hst1 (Hacc _ _ _ _ Hrun)) as (total' & st' & Hrun' & Hst' & Hin & Hout).
  exists total', st'. split; [done|]. split; [done|]. split.
  - intros oc' p b [->|Hoc']%elem_of_cons Hb.
    + rewrite Hout by (done || (apply list.Forall_forall; intros oc' Hoc' E; apply Hnin, list_elem_of_fmap; eauto)).
      by apply Hg.
    + rewrite Hin by done. unfold overlay. rewrite Hother; [done| |done].
      intros E. apply Hnin, list_elem_of_fmap. eauto.
  - intros obj p b [Hne Hno]%list.Forall_cons Hb. rewrite Hout by done. by apply Hother.
Qed.

Lemma flush_all_ok s : cache_ok s → flush_all_accepted (cs_objs s) (cs_total_cache_size s) (cs_storage s) →
  ∃ s', PDC_region_cache_flush_all false junk qsort s = Some s' ∧ cache_ok s' ∧ cs_objs s' = [] ∧
    ∀ obj p b, 0 ≤ b < unit obj → cs_content s' obj p b = cs_content s obj p b.
Proof.
  intros [Hnd Hobjs Hst] Hacc.
  destruct (flush_all_loop_ok _ _ _ Hnd Hobjs Hst Hacc) as (total' & st' & Hrun & Hst' & Hin & Hout).
  unfold PDC_region_cache_flush_all. rewrite Hrun. simpl. eexists. split; [done|]. split.
  { split; [constructor|constructor|done]. }
  split; [done|]. intros obj p b Hb. rewrite (cs_content_none (CacheState [] total' st')) by constructor. simpl.
  pose proof (find_first_spec (cs_objs s) obj) as Hff. destruct (find_first (cs_objs s) obj) as [j|].
  - destruct Hff as (oc & Hj & <-). rewrite (cs_content_at s j) by done. apply Hin; [|done].
    by eapply list_elem_of_lookup_2.
  - rewrite (cs_content_none s) by done. by apply Hout.
Qed.

(** ** Writing *)

(** A request for an object. *)
Definition cache_req (obj : Z) (req : pdc_region_info) (buf : list byte) : Prop := wf_req (dim obj) (unit obj) req buf.

(** The loop over the cached regions stops at the first region that contains
    the request; the regions behind it must not overlap the request. *)
Fixpoint no_stale (n : nat) (req : pdc_region_info) (regs : list pdc_region_info) : Prop :=
  match regs with
  | [] => True
  | r :: regs =>
      if detect_region_contained (ri_offset req) (ri_size req) (ri_offset r) (ri_size r) n
      then ∀ r' p, r' ∈ regs → in_req req p → ¬ in_req r' p
      else no_stale n req regs
  end.

(** What the loop does to one region. *)
Definition region_updated (obj : Z) (req : pdc_region_info) (buf : list byte) (r r' : pdc_region_info) : Prop :=
  wf_cached (dim obj) (unit obj) r' ∧ (∀ p, in_req r' p ↔ in_req r p) ∧
  ∀ p b, in_req r p → 0 ≤ b < unit obj →
    cached_get (unit obj) r' p b = if decide (in_req req p) then req_get (unit obj) req buf p b else cached_get (unit obj) r p b.

Lemma region_unchanged obj req buf r : wf_cached (dim obj) (unit obj) r → (∀ p, in_req req p → ¬ in_req r p) →
  region_updated obj req buf r r.
Proof.
  intros Hr Hno. split; [done|]. split; [done|]. intros p b Hp Hb. rewrite decide_False; [done|].
  intros Hq. by apply (Hno p).
Qed.

Lemma contained_sub obj req buf r : cache_req obj req buf → wf_cached (dim obj) (unit obj) r →
  detect_region_contained (ri_offset req) (ri_size req) (ri_offset r) (ri_size r) (dim obj) = true →
  ∀ p, in_req req p → in_req r p.
Proof.
  intros Hreq [Hr _]. rewrite (detect_region_contained_arr (dim obj)) by (apply Hreq || apply Hr).
  destruct (wr_region _ _ _ _ Hreq), (wr_region _ _ _ _ Hr). intros Hc p. unfold in_req.
  rewrite !(in_region_arr (dim obj)) by done. intros [? Hi]. split; [done|]. intros i Hlt.
  specialize (Hc i Hlt). specialize (Hi i Hlt). lia.
Qed.

Lemma no_overlap_disjoint obj req buf r : cache_req obj req buf → wf_cached (dim obj) (unit obj) r →
  PDC_region_overlap_detect (dim obj) (ri_offset req) (ri_size req) (ri_offset r) (ri_size r) = None →
  (∀ p, in_req req p → ¬ in_req r p) ∧
  detect_region_contained (ri_offset req) (ri_size req) (ri_offset r) (ri_size r) (dim obj) = false.
Proof.
  intros Hreq Hr Hd. assert (∀ p, in_req req p → ¬ in_req r p) as Hno.
  { intros p Hp Hrp.
    by apply (overlap_detect_None _ _ _ _ _ (wr_region _ _ _ _ Hreq) (wr_region _ _ _ _ (proj1 Hr)) p Hd). }
  split; [done|]. apply not_true_iff_false. intros Hc.
  pose proof (corner_in_region _ _ _ (wr_region _ _ _ _ Hreq)) as Hcor.
  by apply (Hno _ Hcor), (contained_sub obj req buf r).
Qed.

Lemma cache_write_loop_ok obj req buf regs :
  cache_req obj req buf → Forall (wf_cached (dim obj) (unit obj)) regs → no_stale (dim obj) req regs →
  ∃ regs' flag, cache_write_loop req buf (unit obj) regs = Some (regs', flag) ∧
    Forall2 (region_updated obj req buf) regs regs' ∧
    if flag then ∃ r, r ∈ regs ∧ ∀ p, in_req req p → in_req r p else True.
Proof.
  intros Hreq. induction regs as [|r regs IH]; intros Hwf Hns; simpl.
  { exists [], false. auto. }
  apply list.Forall_cons in Hwf as [Hr Hwf]. simpl in Hns. rewrite (wr_ndim _ _ _ _ Hreq).
  destruct (PDC_region_overlap_detect _ _ _ _ _) as [[oo os]|] eqn:Hd.
  - destruct (overlap_copy (dim obj) (unit obj) (ri_offset req) (ri_size req) (ri_offset r) (ri_size r) (Hdim obj)
      (Hunit obj) (wr_region _ _ _ _ Hreq) (wr_region _ _ _ _ (proj1 Hr)) buf (ri_buf r) oo os)
      as (rbuf & -> & Hl & Hg); [apply Hreq|apply Hr|done|]. simpl.
    set (r' := RegionInfo (ri_ndim r) (ri_offset r) (ri_size r) rbuf (ri_unit r)).
    assert (region_updated obj req buf r r') as Hu.
    { split; [|split; [done|]].
      - destruct Hr as [[? ? ?] ?]. split; [split; [done|done|simpl; lia]|done].
      - intros p b Hp Hb. unfold cached_get at 1, req_get at 1. simpl. rewrite Hg by done.
        unfold in_req. by repeat case_decide. }
    destruct (detect_region_contained _ _ _ _ _) eqn:Hc.
    + exists (r' :: regs), true. split; [done|]. split.
      * constructor; [done|]. apply Forall_Forall2_diag. rewrite list.Forall_forall in Hwf |- *.
        intros r1 Hr1. apply region_unchanged; [by apply Hwf|]. intros p Hp. by apply (Hns r1 p).
      * exists r. split; [set_solver|]. by apply (contained_sub obj req buf r).
    + destruct (IH Hwf Hns) as (regs' & flag & -> & Hf & Hflag). simpl. exists (r' :: regs'), flag.
      split; [done|]. split; [by constructor|]. destruct flag; [|done].
      destruct Hflag as (r1 & ? & ?). exists r1. split; [set_solver|done].
  - destruct (no_overlap_disjoint obj req buf r Hreq Hr Hd) as [Hno Hc]. rewrite Hc in Hns.
    destruct (IH Hwf Hns) as (regs' & flag & -> & Hf & Hflag). simpl. exists (r :: regs'), flag.
    split; [done|]. split; [constructor; [by apply region_unchanged|done]|]. destruct flag; [|done].
    destruct Hflag as (r1 & ? & ?). exists r1. split; [set_solver|done].
Qed.

Lemma updated_regs obj req buf regs regs' :
  coherent (unit obj) regs → Forall2 (region_updated obj req buf) regs regs' →
  Forall (wf_cached (dim obj) (unit obj)) regs' ∧ coherent (unit obj) regs' ∧
  (∀ p, (∃ r, r ∈ regs ∧ in_req r p) ↔ ∃ r', r' ∈ regs' ∧ in_req r' p) ∧
  ∀ r' p b, r' ∈ regs' → in_req r' p → 0 ≤ b < unit obj →
    cached_get (unit obj) r' p b =
      if decide (in_req req p) then req_get (unit obj) req buf p b else regs_content (unit obj) regs p b.
Proof.
  intros Hcoh HF.
  assert (∀ r', r' ∈ regs' → ∃ r, r ∈ regs ∧ region_updated obj req buf r r') as Hback.
  { intros r' (i & Hi)%list_elem_of_lookup. destruct (Forall2_lookup_r _ _ _ _ _ HF Hi) as (r & Hr & Hu).
    exists r. split; [by eapply list_elem_of_lookup_2|done]. }
  assert (∀ r' p b, r' ∈ regs' → in_req r' p → 0 ≤ b < unit obj →
    cached_get (unit obj) r' p b =
      if decide (in_req req p) then req_get (unit obj) req buf p b else regs_content (unit obj) regs p b) as Hget.
  { intros r' p b Hr' Hp Hb. destruct (Hback r' Hr') as (r & Hr & _ & Hin & Hg). apply Hin in Hp.
    rewrite Hg by done. case_decide; [done|]. by rewrite (regs_content_Some _ _ _ _ r). }
  split; [|split; [|split; [|done]]].
  - apply list.Forall_forall. intros r' Hr'. destruct (Hback r' Hr') as (r & _ & Hw & _). done.
  - intros r1 r2 p b H1 H2 Hp1 Hp2 Hb. by rewrite !Hget.
  - intros p. split.
    + intros (r & (i & Hi)%list_elem_of_lookup & Hp). destruct (Forall2_lookup_l _ _ _ _ _ HF Hi) as (r' & Hr' & _ & Hin & _).
      exists r'. split; [by eapply list_elem_of_lookup_2|]. by apply Hin.
    + intros (r' & Hr' & Hp). destruct (Hback r' Hr') as (r & Hr & _ & Hin & _). exists r. split; [done|]. by apply Hin.
Qed.

Lemma overlay_updated oc regs' obj req buf st :
  oc_obj_id oc = obj → coherent (unit obj) (oc_region_cache oc) →
  Forall2 (region_updated obj req buf) (oc_region_cache oc) regs' →
  ∀ p b, 0 ≤ b < unit obj →
    overlay (ObjCache obj (oc_ndim oc) (oc_dims oc) regs' (oc_region_cache_size oc)) st p b =
      if decide (in_req req p ∧ Exists (λ r, in_req r p) (oc_region_cache oc))
      then req_get (unit obj) req buf p b else overlay oc st p b.
Proof.
  intros <- Hcoh HF p b Hb. destruct (updated_regs _ req buf _ _ Hcoh HF) as (Hregs' & Hcoh' & Hcov & Hget).
  unfold overlay. simpl. specialize (Hcov p). rewrite <-list.Exists_exists in Hcov.
  destruct (covered_cases p regs') as [(r' & Hr' & Hp')|Hno].
  - pose proof (proj2 Hcov (ex_intro _ r' (conj Hr' Hp'))) as Hc.
    destruct (cached_get_is_Some _ _ r' p b (proj1 (list.Forall_forall _ _) Hregs' r' Hr') Hp' Hb) as [x Hx].
    rewrite (regs_content_Some _ _ _ _ r'), Hx by done. rewrite (Hget r') in Hx by done.
    repeat case_decide; try tauto; [done|]. by rewrite Hx.
  - assert (¬ Exists (λ r, in_req r p) (oc_region_cache oc)) as Hnc.
    { intros Hc. apply Hcov in Hc as (r' & Hr' & Hp'). by apply (Hno r'). }
    rewrite decide_False by tauto. rewrite !regs_content_None; [done| |done].
    intros r Hr Hp. apply Hnc, list.Exists_exists. eauto.
Qed.

(** The regions cached for an object. *)
Definition regs_of (s : cache_state St) (obj : Z) : list pdc_region_info :=
  match list_find (λ oc, oc_obj_id oc = obj) (cs_objs s) with Some (_, oc) => oc_region_cache oc | None => [] end.

Lemma regs_of_at s i oc : NoDup (oc_obj_id <$> cs_objs s) → cs_objs s !! i = Some oc →
  regs_of s (oc_obj_id oc) = oc_region_cache oc.
Proof.
  intros Hnd Hi. unfold regs_of. destruct (list_find _ _) as [[j oc']|] eqn:Hf.
  - apply list_find_Some in Hf as (Hj & He & _). assert (i = j) as -> by (eapply same_entry; done).
    rewrite Hi in Hj. by simplify_eq.
  - apply list_find_None in Hf. rewrite list.Forall_forall in Hf.
    destruct (Hf oc); [by eapply list_elem_of_lookup_2|done].
Qed.

Lemma regs_of_none s obj : Forall (λ oc, oc_obj_id oc ≠ obj) (cs_objs s) → regs_of s obj = [].
Proof.
  intros Hno. unfold regs_of. destruct (list_find _ _) as [[j oc']|] eqn:Hf; [|done].
  apply list_find_Some in Hf as (Hj & He & _). rewrite list.Forall_forall in Hno.
  destruct (Hno oc'); [by eapply list_elem_of_lookup_2|done].
Qed.

(** Creating the entry of an object. *)
Lemma cs_new_entry s obj dims : cache_ok s → Forall (λ oc, oc_obj_id oc ≠ obj) (cs_objs s) →
  let s' := CacheState (cs_objs s ++ [ObjCache obj (dim obj) dims [] 0]) (cs_total_cache_size s) (cs_storage s) in
  cache_ok s' ∧ ∀ obj' p b, cs_content s' obj' p b = cs_content s obj' p b.
Proof.
  intros [Hnd Hobjs Hst] Hno s'. assert (cache_ok s') as Hok'.
  { split; [|apply list.Forall_app; split; [done|]; apply list.Forall_singleton; split; simpl; [done|done|constructor|intros ????; set_solver]|done].
    simpl. rewrite fmap_app. apply list.NoDup_app. split; [done|]. split; [|apply NoDup_singleton].
    intros ? (e & -> & He)%list_elem_of_fmap ?%list_elem_of_singleton. rewrite list.Forall_forall in Hno. by apply (Hno e). }
  split; [done|]. intros obj' p b. pose proof (co_nodup _ Hok') as Hnd'.
  pose proof (find_first_spec (cs_objs s) obj') as Hff. destruct (find_first (cs_objs s) obj') as [j|].
  - destruct Hff as (oc & Hj & <-). rewrite (cs_content_at s j) by done.
    rewrite (cs_content_at s' j oc); [done..|]. by apply lookup_app_l_Some.
  - rewrite (cs_content_none s) by done. destruct (decide (obj' = obj)) as [->|].
    + replace obj with (oc_obj_id (ObjCache obj (dim obj) dims [] 0)) by done.
      rewrite (cs_content_at s' (length (cs_objs s))); [done|done|]. simpl. by rewrite lookup_app_r, Nat.sub_diag.
    + rewrite cs_content_none; [done|]. simpl. apply list.Forall_app. split; [done|]. by constructor.
Qed.

(** The region the registration appends. *)
Lemma new_region_ok obj req buf :
  cache_req obj req buf →
  ∃ d, mem_read buf 0 (vol (ri_size req) * unit obj) = Some d ∧
    let r := RegionInfo (ri_ndim req) (take (ri_ndim req) (ri_offset req)) (take (ri_ndim req) (ri_size req)) d (unit obj) in
    wf_cached (dim obj) (unit obj) r ∧ (∀ p, in_req r p ↔ in_req req p) ∧
    ∀ p b, in_req req p → 0 ≤ b < unit obj → cached_get (unit obj) r p b = req_get (unit obj) req buf p b.
Proof.
  intros [Hnd Hreg Hbuf]. pose proof (vol_pos _ (wf_region_sizes _ _ _ Hreg)) as Hv. pose proof (Hunit obj).
  destruct (mem_read_Some buf 0 (vol (ri_size req) * unit obj)) as (d & Hd & Hl & Hg); [lia|nia|lia|].
  exists d. split; [done|]. simpl. rewrite Hnd.
  rewrite !take_ge by (rewrite ?(wf_off _ _ _ Hreg), ?(wf_size _ _ _ Hreg); lia).
  split; [split; [split; simpl; [done|done|lia]|done]|]. split; [done|].
  intros p b Hp Hb. unfold cached_get, req_get, reg_get. simpl.
  rewrite Hg; [done|]. by apply wf_region_lin.
Qed.

Lemma register_append_at s i oc obj req buf d :
  cache_ok s → cs_objs s !! i = Some oc → oc_obj_id oc = obj →
  (∀ r p b, r ∈ oc_region_cache oc → in_req r p → in_req req p → 0 ≤ b < unit obj →
     cached_get (unit obj) r p b = req_get (unit obj) req buf p b) →
  let r := RegionInfo (ri_ndim req) (take (ri_ndim req) (ri_offset req)) (take (ri_ndim req) (ri_size req)) d (unit obj) in
  wf_cached (dim obj) (unit obj) r → (∀ p, in_req r p ↔ in_req req p) →
  (∀ p b, in_req req p → 0 ≤ b < unit obj → cached_get (unit obj) r p b = req_get (unit obj) req buf p b) →
  ∀ total, let s' := CacheState (<[i := ObjCache (oc_obj_id oc) (oc_ndim oc) (oc_dims oc) (oc_region_cache oc ++ [r])
                       (S (oc_region_cache_size oc))]> (cs_objs s)) total (cs_storage s) in
  cache_ok s' ∧ r ∈ regs_of s' obj ∧ ∀ obj' p b, 0 ≤ b < unit obj' →
    cs_content s' obj' p b = if decide (obj' = obj ∧ in_req req p) then req_get (unit obj) req buf p b else cs_content s obj' p b.
Proof.
  intros Hok Hi <- Hagree r Hr Hin Hg total. pose proof Hok as [Hnd Hobjs Hst].
  pose proof (list.Forall_lookup_1 _ _ _ _ Hobjs Hi) as [Hnd1 Hsz Hregs Hcoh].
  set (oc' := ObjCache (oc_obj_id oc) (oc_ndim oc) (oc_dims oc) (oc_region_cache oc ++ [r]) (S (oc_region_cache_size oc))).
  assert (oc_ok oc') as Hoc'.
  { split; simpl; [done|rewrite length_app; simpl; lia| |].
    - apply list.Forall_app. split; [done|]. by apply list.Forall_singleton.
    - intros r1 r2 p b [H1| ->%list_elem_of_singleton]%elem_of_app [H2| ->%list_elem_of_singleton]%elem_of_app Hp1 Hp2 Hb.
      + by apply Hcoh.
      + apply Hin in Hp2. rewrite Hg by done. by apply Hagree.
      + apply Hin in Hp1. rewrite Hg by done. symmetry. by apply Hagree.
      + done. }
  destruct (cs_update s i oc oc' total (cs_storage s) Hok Hi eq_refl Hoc' Hst) as [Hok' Hc']; [done|].
  split; [done|]. split.
  { change (oc_obj_id oc) with (oc_obj_id oc'). rewrite (regs_of_at _ i oc'); [simpl; set_solver|apply Hok'|].
    simpl. apply list_lookup_insert_eq. by eapply lookup_lt_Some. }
  intros obj' p b Hb. rewrite Hc' by done.
  destruct (decide (obj' = oc_obj_id oc)) as [->|Hne]; [|by rewrite decide_False by tauto].
  rewrite (cs_content_at s i) by done. unfold overlay. simpl.
  destruct (decide (oc_obj_id oc = oc_obj_id oc ∧ in_req req p)) as [[_ Hp]|Hp].
  - rewrite (regs_content_Some _ _ _ _ r); [|apply Hoc'|simpl; set_solver|by apply Hin|done]. rewrite Hg by done.
    by destruct (cached_get_is_Some _ _ r p b Hr (proj2 (Hin p) Hp) Hb) as [x Hx]; rewrite <-Hg, Hx.
  - destruct (covered_cases p (oc_region_cache oc)) as [(r1 & Hr1 & Hp1)|Hno].
    + rewrite !(regs_content_Some _ _ _ _ r1); try done; [apply Hoc'|simpl; set_solver].
    + rewrite !regs_content_None; [done|done|]. intros r1 [H1| ->%list_elem_of_singleton]%elem_of_app; [by apply Hno|].
      rewrite Hin. tauto.
Qed.

Lemma register_append_ok s obj dims req buf :
  cache_ok s → cache_req obj req buf →
  (∀ r p b, r ∈ regs_of s obj → in_req r p → in_req req p → 0 ≤ b < unit obj →
     cached_get (unit obj) r p b = req_get (unit obj) req buf p b) →
  ∃ s', register_append s obj (dim obj) dims buf (vol (ri_size req) * unit obj) (ri_offset req) (ri_size req)
          (ri_ndim req) (unit obj) = Some s' ∧ cache_ok s' ∧ cs_total_cache_size s' < W64 ∧
    (∃ r, r ∈ regs_of s' obj ∧ ∀ p, in_req req p → in_req r p) ∧
    ∀ obj' p b, 0 ≤ b < unit obj' →
      cs_content s' obj' p b = if decide (obj' = obj ∧ in_req req p) then req_get (unit obj) req buf p b else cs_content s obj' p b.
Proof.
  intros Hok Hreq Hagree. destruct (new_region_ok obj req buf Hreq) as (d & Hd & Hr & Hin & Hg).
  unfold register_append. pose proof (find_first_spec (cs_objs s) obj) as Hff.
  destruct (find_first (cs_objs s) obj) as [i|].
  - destruct Hff as (oc & Hi & Hid). rewrite Hi. simpl. rewrite Hd. simpl.
    rewrite <-Hid, (regs_of_at s i oc) in Hagree by (apply Hok || done).
    destruct (register_append_at s i oc obj req buf d Hok Hi Hid) with (total := cs_total_cache_size s +w vol (ri_size req) * unit obj)
      as (Hok' & Hin' & Hc'); [by rewrite <-Hid|done..|].
    eexists. split; [done|]. split; [done|]. split; [apply u64_range|]. split; [|done].
    eexists. split; [exact Hin'|]. intros p. apply Hin.
  - destruct (cs_new_entry s obj dims Hok Hff) as [Hok0 Hc0].
    set (oc := ObjCache obj (dim obj) dims [] 0) in *.
    assert ((cs_objs s ++ [oc]) !! length (cs_objs s) = Some oc) as Hi by (by rewrite lookup_app_r, Nat.sub_diag).
    rewrite Hi. simpl. rewrite Hd. simpl.
    destruct (register_append_at _ (length (cs_objs s)) oc obj req buf d Hok0 Hi eq_refl)
      with (total := cs_total_cache_size s +w vol (ri_size req) * unit obj) as (Hok' & Hin' & Hc'); [simpl; set_solver|done..|].
    eexists. split; [done|]. split; [exact Hok'|]. split; [apply u64_range|].
    split; [eexists; split; [exact Hin'|]; intros p; apply Hin|].
    intros obj' p b Hb. rewrite Hc' by done. by rewrite Hc0.
Qed.

#[local] Abbreviation write_out max := (PDC_transfer_request_data_write_out max false junk qsort).

(** A write to a cache that is never full. *)
Lemma write_out_unbounded s obj dims req buf :
  cache_ok s → cache_req obj req buf → no_stale (dim obj) req (regs_of s obj) →
  ∃ s', write_out W64 s obj (dim obj) dims req buf (unit obj) = Some (SUCCEED, s') ∧ cache_ok s' ∧
    (∃ r, r ∈ regs_of s' obj ∧ ∀ p, in_req req p → in_req r p) ∧
    ∀ obj' p b, 0 ≤ b < unit obj' →
      cs_content s' obj' p b = if decide (obj' = obj ∧ in_req req p) then req_get (unit obj) req buf p b else cs_content s obj' p b.
Proof.
  intros Hok Hreq Hns. pose proof Hok as [Hnd Hobjs Hst]. pose proof (wr_ndim _ _ _ _ Hreq) as Hrn.
  unfold PDC_transfer_request_data_write_out, PDC_region_cache_register.
  rewrite Hrn, region_write_size_vol;
    [|done|done|apply Hreq|apply (wf_region_sizes _ _ _ (wr_region _ _ _ _ Hreq))|destruct (wr_buf _ _ _ _ Hreq); lia].
  pose proof (find_last_spec (cs_objs s) obj) as Hfl. destruct (find_last (cs_objs s) obj) as [i|].
  - destruct Hfl as (oc & Hi & Hid). rewrite Hi. simpl.
    pose proof (list.Forall_lookup_1 _ _ _ _ Hobjs Hi) as [Hnd1 Hsz Hregs Hcoh]. rewrite Hid in *.
    rewrite <-Hid, (regs_of_at s i oc), Hid in Hns by done.
    destruct (cache_write_loop_ok obj req buf (oc_region_cache oc) Hreq Hregs Hns) as (regs' & flag & -> & HF & Hflag). simpl.
    destruct (updated_regs obj req buf _ _ Hcoh HF) as (Hregs' & Hcoh' & Hcov & Hget).
    set (oc' := ObjCache obj (oc_ndim oc) (oc_dims oc) regs' (oc_region_cache_size oc)).
    assert (oc_ok oc') as Hoc'.
    { split; simpl; [done|rewrite Hsz; by apply Forall2_length in HF|done|done]. }
    destruct (cs_update s i oc oc' (cs_total_cache_size s) (cs_storage s) Hok Hi (eq_sym Hid) Hoc' Hst) as [Hok1 Hc1]; [done|].
    rewrite Hid in Hc1. set (s1 := CacheState (<[i := oc']> (cs_objs s)) (cs_total_cache_size s) (cs_storage s)) in *.
    pose proof (overlay_updated oc regs' obj req buf (cs_storage s) Hid Hcoh HF) as Hov. fold oc' in Hov.
    assert (∀ p b, overlay oc (cs_storage s) p b = cs_content s obj p b) as Hcs.
    { intros p b. by rewrite <-Hid, (cs_content_at s i). }
    destruct flag.
    + destruct Hflag as (r & Hr & Hsub). exists s1. split; [done|]. split; [done|]. split.
      { apply list_elem_of_lookup in Hr as (k & Hk). destruct (Forall2_lookup_l _ _ _ _ _ HF Hk) as (r' & Hr' & _ & Hin' & _).
        exists r'. split; [|intros p Hp; by apply Hin', Hsub].
        change obj with (oc_obj_id oc'). rewrite (regs_of_at s1 i oc'); [by eapply list_elem_of_lookup_2|apply Hok1|].
        simpl. apply list_lookup_insert_eq. by eapply lookup_lt_Some. }
      intros obj' p b Hb. rewrite Hc1 by done.
      destruct (decide (obj' = obj)) as [->|]; [|by rewrite decide_False by tauto].
      assert (in_req req p → Exists (λ r, in_req r p) (oc_region_cache oc)) by (intros; apply list.Exists_exists; eauto).
      rewrite Hov, Hcs by done. repeat case_decide; tauto.
    + destruct (register_append_ok s1 obj dims req buf Hok1 Hreq) as (s2 & Happ & Hok2 & Htot & Hcov2 & Hc2).
      { intros r p b Hr Hp Hq Hb. change obj with (oc_obj_id oc') in Hr. rewrite (regs_of_at s1 i oc') in Hr.
        - rewrite (Hget r) by done. by rewrite decide_True.
        - apply Hok1.
        - simpl. apply list_lookup_insert_eq. by eapply lookup_lt_Some. }
      rewrite Hrn in Happ. rewrite decide_False, Happ by tauto. simpl. rewrite decide_False by lia. simpl. exists s2. split; [done|]. split; [done|]. split; [done|].
      intros obj' p b Hb. rewrite Hc2 by done. rewrite Hc1 by done.
      destruct (decide (obj' = obj)) as [->|]; [|done]. rewrite Hov, Hcs by done. repeat case_decide; tauto.
  - rewrite (regs_of_none s) in Hns by done. simpl.
    destruct (register_append_ok s obj dims req buf Hok Hreq) as (s2 & Happ & Hok2 & Htot & Hcov2 & Hc2).
    { rewrite (regs_of_none s) by done. set_solver. }
    assert (CacheState (cs_objs s) (cs_total_cache_size s) (cs_storage s) = s) as -> by (by destruct s).
    rewrite Hrn in Happ. rewrite decide_False, Happ by tauto. simpl. rewrite decide_False by lia. simpl. exists s2. auto.
Qed.

Lemma register_append_total (s : cache_state St) obj ndim dims buf n off size nd u s' :
  register_append s obj ndim dims buf n off size nd u = Some s' → cs_total_cache_size s' < W64.
Proof.
  unfold register_append. destruct (match find_first _ _ with Some i => _ | None => _ end) as [objs i].
  destruct (objs !! i); [|done]. simpl. destruct (mem_read _ _ _); [|done]. intros [= <-]. apply u64_range.
Qed.

(** A bounded cache does the same, and then flushes everything if it is over
    its limit. *)
Lemma write_out_bounded s obj dims req buf s1 :
  write_out W64 s obj (dim obj) dims req buf (unit obj) = Some (SUCCEED, s1) →
  write_out maximum_cache_size s obj (dim obj) dims req buf (unit obj) = Some (SUCCEED, s1) ∨
  (cs_total_cache_size s1 > maximum_cache_size ∧
   write_out maximum_cache_size s obj (dim obj) dims req buf (unit obj) =
     (s2 ← PDC_region_cache_flush_all false junk qsort s1; Some (SUCCEED, s2))).
Proof.
  unfold PDC_transfer_request_data_write_out, PDC_region_cache_register.
  destruct (match find_last (cs_objs s) obj with Some i => _ | None => _ end) as [[objs flag]|]; [|done]. simpl.
  destruct flag; [by left|]. case_decide; [by left|].
  destruct (register_append _ _ _ _ _ _ _ _ _ _) as [s2|] eqn:Ha; [|done]. apply register_append_total in Ha. simpl.
  rewrite decide_False by lia. simpl. intros [= ->]. case_decide; [|by left]. right. split; [done|].
  by destruct (PDC_region_cache_flush_all _ _ _ s1).
Qed.

Lemma data_write_ok s obj dims req buf :
  cache_ok s → cache_req obj req buf → no_stale (dim obj) req (regs_of s obj) →
  (∀ s1, write_out W64 s obj (dim obj) dims req buf (unit obj) = Some (SUCCEED, s1) →
     cs_total_cache_size s1 > maximum_cache_size →
     flush_all_accepted (cs_objs s1) (cs_total_cache_size s1) (cs_storage s1)) →
  ∃ s', write_out maximum_cache_size s obj (dim obj) dims req buf (unit obj) = Some (SUCCEED, s') ∧ cache_ok s' ∧
    ∀ obj' p b, 0 ≤ b < unit obj' →
      cs_content s' obj' p b = if decide (obj' = obj ∧ in_req req p) then req_get (unit obj) req buf p b else cs_content s obj' p b.
Proof.
  intros Hok Hreq Hns Hfull. destruct (write_out_unbounded s obj dims req buf Hok Hreq Hns) as (s1 & Hrun & Hok1 & _ & Hc1).
  destruct (write_out_bounded _ _ _ _ _ _ Hrun) as [E|[Hbig E]].
  - exists s1. rewrite E. auto.
  - destruct (flush_all_ok s1 Hok1 (Hfull _ Hrun Hbig)) as (s2 & Hf & Hok2 & _ & Hc2). exists s2.
    rewrite E, Hf. split; [done|]. split; [done|]. intros obj' p b Hb. by rewrite Hc2, Hc1.
Qed.

(** ** Reading *)

Lemma find_containing_spec obj req buf regs :
  cache_req obj req buf → Forall (wf_cached (dim obj) (unit obj)) regs →
  match find_containing req regs with
  | Some r => r ∈ regs ∧ ∀ p, in_req req p → in_req r p
  | None => True
  end.
Proof.
  intros Hreq. induction 1 as [|r regs Hr _ IH]; simpl; [done|]. rewrite (wr_ndim _ _ _ _ Hreq).
  destruct (detect_region_contained _ _ _ _ _) eqn:Hc.
  - split; [set_solver|]. by apply (contained_sub obj req buf r).
  - destruct (find_containing req regs); [|done]. destruct IH. split; [set_solver|done].
Qed.

Lemma fetch_storage s obj dims req buf : cache_ok s → cache_req obj req buf →
  (∀ p b, 0 ≤ b < unit obj → st_content (cs_storage s) obj p b = cs_content s obj p b) →
  ∃ buf' s', ('(buf, st) ← transfer_io_read (cs_storage s) obj (dim obj) dims req buf (unit obj);
              Some (buf, CacheState (cs_objs s) (cs_total_cache_size s) st)) = Some (buf', s') ∧
    lenZ buf' = lenZ buf ∧ cache_ok s' ∧
    (∀ obj' p b, cs_content s' obj' p b = cs_content s obj' p b) ∧
    ∀ p b, in_req req p → 0 ≤ b < unit obj →
      req_get (unit obj) req buf' p b =
        match cs_content s obj p b with Some x => Some x | None => req_get (unit obj) req buf p b end.
Proof.
  intros Hok Hreq Hsame. pose proof Hok as [Hnd Hobjs Hst].
  destruct (transfer_io_read_ok (cs_storage s) obj dims req buf Hst Hreq) as (buf' & st' & Hrun & Hl & Hst' & Hc & Hg).
  rewrite Hrun. simpl. eexists _, _. split; [done|]. split; [done|]. split; [by split|]. split.
  - intros obj' p b. unfold cs_content. simpl. destruct (list_find _ _) as [[i oc]|]; [|done].
    unfold overlay. by rewrite Hc.
  - intros p b Hp Hb. by rewrite Hg, Hsame.
Qed.

Lemma fetch_ok s obj dims req buf :
  cache_ok s → cache_req obj req buf →
  (∀ oc, oc ∈ cs_objs s → oc_obj_id oc = obj → find_containing req (oc_region_cache oc) = None →
     flush_accepted oc (cs_storage s)) →
  ∃ buf' s', PDC_region_fetch false junk qsort s obj (dim obj) dims req buf (unit obj) = Some (buf', s') ∧
    lenZ buf' = lenZ buf ∧ cache_ok s' ∧
    (∀ obj' p b, 0 ≤ b < unit obj' → cs_content s' obj' p b = cs_content s obj' p b) ∧
    ∀ p b, in_req req p → 0 ≤ b < unit obj →
      req_get (unit obj) req buf' p b =
        match cs_content s obj p b with Some x => Some x | None => req_get (unit obj) req buf p b end.
Proof.
  intros Hok Hreq Hacc. pose proof Hok as [Hnd Hobjs Hst]. unfold PDC_region_fetch.
  pose proof (find_last_spec (cs_objs s) obj) as Hfl. destruct (find_last (cs_objs s) obj) as [i|]; simpl.
  - destruct Hfl as (oc & Hi & Hid). rewrite Hi. simpl.
    pose proof (list.Forall_lookup_1 _ _ _ _ Hobjs Hi) as [Hnd1 Hsz Hregs Hcoh]. rewrite Hid in *.
    pose proof (find_containing_spec obj req buf (oc_region_cache oc) Hreq Hregs) as Hfc.
    destruct (find_containing req (oc_region_cache oc)) as [r|] eqn:Hfind.
    + destruct Hfc as [Hr Hsub]. pose proof (proj1 (list.Forall_forall _ _) Hregs r Hr) as Hwr.
      rewrite (wr_ndim _ _ _ _ Hreq).
      destruct (PDC_region_overlap_detect _ _ _ _ _) as [[oo os]|] eqn:Hd; simpl.
      2: { pose proof (corner_in_region _ _ _ (wr_region _ _ _ _ Hreq)) as Hcor.
           destruct (no_overlap_disjoint obj req buf r Hreq Hwr Hd) as [Hno _]. by destruct (Hno _ Hcor); apply Hsub. }
      apply overlap_detect_sym in Hd; [|apply Hreq|apply Hwr].
      destruct (overlap_copy (dim obj) (unit obj) (ri_offset r) (ri_size r) (ri_offset req) (ri_size req) (Hdim obj)
        (Hunit obj) (wr_region _ _ _ _ (proj1 Hwr)) (wr_region _ _ _ _ Hreq) (ri_buf r) buf oo os)
        as (buf' & -> & Hl & Hg); [apply Hwr|apply Hreq|done|]. simpl.
      exists buf', s. split; [done|]. split; [done|]. split; [done|]. split; [done|].
      intros p b Hp Hb. unfold req_get at 1. rewrite Hg by done. rewrite decide_True by by apply Hsub.
      rewrite <-Hid, (cs_content_at s i) by done. unfold overlay. rewrite Hid.
      rewrite (regs_content_Some _ _ _ _ r) by (done || by apply Hsub).
      destruct (cached_get_is_Some _ _ r p b Hwr (Hsub p Hp) Hb) as [x Hx]. rewrite Hx. exact Hx.
    + destruct (flush_at_ok s i oc Hok Hi) as (nf & s1 & Hf & Hok1 & Hc1 & _ & Hst1).
      { apply Hacc; [by eapply list_elem_of_lookup_2|done|done]. }
      rewrite Hf. simpl. rewrite Hid in Hst1.
      destruct (fetch_storage s1 obj dims req buf Hok1 Hreq) as (buf' & s2 & Hrun & Hl & Hok2 & Hc2 & Hg).
      { intros p b Hb. by rewrite Hst1, Hc1. }
      rewrite Hrun. exists buf', s2. split; [done|]. split; [done|]. split; [done|]. split.
      * intros obj' p b Hb. by rewrite Hc2, Hc1.
      * intros p b Hp Hb. by rewrite Hg, Hc1.
  - destruct (fetch_storage s obj dims req buf Hok Hreq) as (buf' & s2 & Hrun & Hl & Hok2 & Hc2 & Hg).
    { intros p b Hb. by rewrite cs_content_none. }
    rewrite Hrun. exists buf', s2. auto.
Qed.

Lemma find_containing_found s obj req buf oc :
  cache_ok s → cache_req obj req buf → (∃ r, r ∈ regs_of s obj ∧ ∀ p, in_req req p → in_req r p) →
  oc ∈ cs_objs s → oc_obj_id oc = obj → find_containing req (oc_region_cache oc) ≠ None.
Proof.
  intros Hok Hreq (r & Hr & Hsub) Hoc Hid. pose proof Hok as [Hnd Hobjs Hst].
  apply list_elem_of_lookup in Hoc as (i & Hi).
  pose proof (list.Forall_lookup_1 _ _ _ _ Hobjs Hi) as [_ _ Hregs _]. rewrite Hid in Hregs.
  rewrite <-Hid, (regs_of_at s i oc) in Hr by done. clear -Hr Hregs Hsub Hreq.
  induction (oc_region_cache oc) as [|r1 regs IH]; [set_solver|]. simpl.
  apply list.Forall_cons in Hregs as [Hr1 Hregs]. apply elem_of_cons in Hr as [->|Hr].
  - rewrite (wr_ndim _ _ _ _ Hreq), (proj2 (detect_region_contained_arr _ _ _ _ _ (wr_region _ _ _ _ Hreq)
      (wr_region _ _ _ _ (proj1 Hr1)))); [done|]. apply contained_of_sub; [apply Hreq|apply Hr1|done].
  - destruct (detect_region_contained _ _ _ _ _); [done|auto].
Qed.
End CacheCorrect.
