(* ===== verification/RegionCacheSpec.v ===== *)
(** The properties of the region cache of [RegionCache]: a cached write or read
    has the effect of the same access on the contents of the objects, flushing
    never changes them, and the geometry of the cache's helper functions.  The
    places where the code departs from that are stated as well. *)

From stdpp Require Import sorting.
From S2P Require Export RegionCache.

(** * The cache as a store of bytes *)

Section CacheSpec.
Context {St : Type} (dim : Z → nat) (unit : Z → Z) `{RegionStorageLaws St dim unit}.
Context (Hdim : ∀ o, (1 ≤ dim o ≤ 3)%nat) (Hunit : ∀ o, 0 < unit o).
Context (maximum_cache_size : Z) (junk : byte) (qsort : list pdc_region_info → list pdc_region_info).
Context (qsort_perm : ∀ l, qsort l ≡ₚ l)
        (qsort_sorted : ∀ l, StronglySorted (λ e1 e2, sort_by_offset e1 e2 ≤ 0) (qsort l)).

#[local] Abbreviation content := (cs_content dim unit).
#[local] Abbreviation write_out := (PDC_transfer_request_data_write_out maximum_cache_size false junk qsort).
#[local] Abbreviation read_from := (PDC_transfer_request_data_read_from false junk qsort).

(** The two states hold the same bytes of every object. *)
Definition same_content (s s' : cache_state St) : Prop :=
  ∀ obj p b, 0 ≤ b < unit obj → content s' obj p b = content s obj p b.

#[export] Instance same_content_equiv : Equivalence same_content.
Proof.
  split; [by intros ????|by intros ?? Hs ????; rewrite Hs|].
  intros s1 s2 s3 H12 H23 obj p b Hb. by rewrite H23, H12.
Qed.

(** C11: a write request to the cache succeeds, keeps its invariant and replaces
    exactly the bytes of the points of the request, in the cache and the storage
    taken together, whether the request is merged into cached regions, appended
    as a new region, or makes the cache overflow and be flushed.  This holds
    when no cached region behind the first one that contains the request
    overlaps the request ([no_stale]; otherwise that one keeps old bytes,
    [cache_read_stale]), and when a flush, should the cache overflow, keeps the
    data ([flush_all_accepted], as for the flush). *)
Theorem cache_write_refines s obj dims req buf :
  cache_ok dim unit s → cache_req dim unit obj req buf → no_stale (dim obj) req (regs_of s obj) →
  (∀ s1, PDC_transfer_request_data_write_out W64 false junk qsort s obj (dim obj) dims req buf (unit obj) = Some (SUCCEED, s1) →
     cs_total_cache_size s1 > maximum_cache_size →
     flush_all_accepted dim unit junk qsort (cs_objs s1) (cs_total_cache_size s1) (cs_storage s1)) →
  ∃ s', write_out s obj (dim obj) dims req buf (unit obj) = Some (SUCCEED, s') ∧ cache_ok dim unit s' ∧
    ∀ obj' p b, 0 ≤ b < unit obj' →
      content s' obj' p b =
        if decide (obj' = obj ∧ in_req req p) then req_get (unit obj) req buf p b else content s obj' p b.
Proof. by apply data_write_ok. Qed.

(** C12: a read request to the cache succeeds, returns for every byte of the
    request the cached byte or else the stored one (and leaves the buffer alone
    where there is neither), and does not change the contents, whether one
    cached region holds all of the request or the object is flushed and read
    back from the storage.  Where the object is flushed, the flush must keep
    the data ([flush_accepted]: the regions of a one-dimensional object have
    elements of one byte or do not overlap, and the storage accepts what is
    written). *)
Theorem cache_read_refines s obj dims req buf :
  cache_ok dim unit s → cache_req dim unit obj req buf →
  (∀ oc, oc ∈ cs_objs s → oc_obj_id oc = obj → find_containing req (oc_region_cache oc) = None →
     flush_accepted dim unit junk qsort oc (cs_storage s)) →
  ∃ buf' s', read_from s obj (dim obj) dims req buf (unit obj) = Some (SUCCEED, buf', s') ∧
    lenZ buf' = lenZ buf ∧ cache_ok dim unit s' ∧ same_content s s' ∧
    ∀ p b, in_req req p → 0 ≤ b < unit obj →
      req_get (unit obj) req buf' p b =
        match content s obj p b with Some x => Some x | None => req_get (unit obj) req buf p b end.
Proof.
  intros Hok Hreq Hacc. unfold PDC_transfer_request_data_read_from.
  destruct (fetch_ok dim unit Hdim Hunit junk qsort qsort_perm qsort_sorted s obj dims req buf Hok Hreq Hacc)
    as (buf' & s' & -> & ?). exists buf', s'. auto.
Qed.

Lemma write_out_total s obj dims req buf n s' :
  0 ≤ cs_total_cache_size s → ri_ndim req = dim obj →
  region_write_size (dim obj) (unit obj) (ri_size req) = n → 0 ≤ n →
  PDC_transfer_request_data_write_out W64 false junk qsort s obj (dim obj) dims req buf (unit obj) = Some (SUCCEED, s') →
  cs_total_cache_size s' ≤ cs_total_cache_size s + n.
Proof.
  intros Ht0 Hnd Hn Hn0. unfold PDC_transfer_request_data_write_out, PDC_region_cache_register. rewrite Hnd, Hn.
  destruct (match find_last (cs_objs s) obj with Some i => _ | None => _ end) as [[objs flag]|]; [|done]. simpl.
  destruct flag; [intros [= <-]; simpl; lia|]. rewrite decide_False by tauto.
  destruct (register_append _ _ _ _ _ _ _ _ _ _) as [s2|] eqn:Ha; [|done]. pose proof (register_append_total _ _ _ _ _ _ _ _ _ _ _ Ha).
  simpl. rewrite decide_False by lia. simpl. intros [= <-]. revert Ha. unfold register_append. simpl.
  destruct (match find_first objs obj with Some i => _ | None => _ end) as [objs' i].
  destruct (objs' !! i); [|done]. simpl. destruct (mem_read _ _ _); [|done]. intros [= <-]. simpl.
  unfold u64. apply Z.mod_le; [lia|reflexivity].
Qed.

(** While the cache has room, a region that was written is read back from
    it: the read returns exactly the bytes written, whatever other regions of
    the object are cached, and needs nothing from the storage. *)
Theorem cache_write_then_read s obj dims req buf buf0 :
  cache_ok dim unit s → cache_req dim unit obj req buf → no_stale (dim obj) req (regs_of s obj) →
  0 ≤ cs_total_cache_size s → cs_total_cache_size s + vol (ri_size req) * unit obj ≤ maximum_cache_size →
  lenZ buf = vol (ri_size req) * unit obj → lenZ buf0 = lenZ buf →
  ∃ s' s'', write_out s obj (dim obj) dims req buf (unit obj) = Some (SUCCEED, s') ∧
    read_from s' obj (dim obj) dims req buf0 (unit obj) = Some (SUCCEED, buf, s'').
Proof.
  intros Hok Hreq Hns Ht0 Hroom Hl Hl0.
  destruct (write_out_unbounded dim unit Hdim Hunit junk qsort qsort_perm qsort_sorted s obj dims req buf Hok Hreq Hns)
    as (s1 & Hrun & Hok1 & Hcov & Hc1).
  assert (write_out s obj (dim obj) dims req buf (unit obj) = Some (SUCCEED, s1)) as Hw.
  { destruct (write_out_bounded dim unit maximum_cache_size junk qsort _ _ _ _ _ _ Hrun) as [E|[Hbig _]]; [done|].
    apply (write_out_total _ _ _ _ _ (vol (ri_size req) * unit obj)) in Hrun; [lia|done|apply Hreq| |unfold lenZ in Hl; lia].
    apply region_write_size_vol; [done|done|apply Hreq|apply (wf_region_sizes _ _ _ (wr_region _ _ _ _ Hreq))|].
    destruct (wr_buf _ _ _ _ Hreq). lia. }
  assert (cache_req dim unit obj req buf0) as Hreq0 by (destruct Hreq; split; [done..|lia]).
  destruct (fetch_ok dim unit Hdim Hunit junk qsort qsort_perm qsort_sorted s1 obj dims req buf0 Hok1 Hreq0)
    as (buf' & s2 & Hf & Hlb & _ & _ & Hg).
  { intros oc Hoc Hid Hnone. by destruct (find_containing_found dim unit s1 obj req buf oc Hok1 Hreq Hcov Hoc Hid). }
  exists s1, s2. split; [done|]. unfold PDC_transfer_request_data_read_from. rewrite Hf. simpl. do 2 f_equal. f_equal.
  apply (region_buf_ext (dim obj) (unit obj) (ri_offset req) (ri_size req)); [apply Hreq|done|lia|lia|].
  intros p b Hp Hb. change (req_get (unit obj) req buf' p b = req_get (unit obj) req buf p b).
  rewrite Hg, Hc1 by done. rewrite decide_True by done.
  assert (0 ≤ lin (ri_size req) (psub p (ri_offset req)) * unit obj + b < lenZ buf) as Hk.
  { rewrite Hl. by eapply wf_region_lin. }
  by destruct (getZ_is_Some _ _ Hk) as [x E]; unfold req_get, reg_get; rewrite E.
Qed.

(** C13: flushing one object, flushing everything and closing the cache keep the
    contents; afterwards the storage alone holds the bytes of the flushed
    objects, and nothing of them is cached.  This holds when merging is safe -
    the cached regions of a one-dimensional object have elements of one byte or
    do not overlap (overlapping ones of larger elements are merged wrongly,
    [merge_requests_unscaled]) - and the storage accepts the regions that are
    written. *)
Theorem cache_flush_preserves s obj :
  cache_ok dim unit s →
  (∀ oc, oc ∈ cs_objs s → oc_obj_id oc = obj → flush_accepted dim unit junk qsort oc (cs_storage s)) →
  (∃ ret s', PDC_region_cache_flush false junk qsort s obj = Some (ret, s') ∧ cache_ok dim unit s' ∧
     same_content s s' ∧ regs_of s' obj = [] ∧
     ∀ p b, 0 ≤ b < unit obj → st_content (cs_storage s') obj p b = content s obj p b) ∧
  (flush_all_accepted dim unit junk qsort (cs_objs s) (cs_total_cache_size s) (cs_storage s) →
   ∃ s', PDC_region_server_cache_finalize false junk qsort s = Some s' ∧ cs_objs s' = [] ∧
     ∀ o p b, 0 ≤ b < unit o → st_content (cs_storage s') o p b = content s o p b).
Proof.
  intros Hok Hacc. pose proof Hok as [Hnd _ _]. split.
  - unfold PDC_region_cache_flush. pose proof (find_first_spec (cs_objs s) obj) as Hff.
    destruct (find_first (cs_objs s) obj) as [i|].
    + destruct Hff as (oc & Hi & Hid). rewrite Hi. simpl.
      destruct (flush_at_ok dim unit Hdim Hunit junk qsort qsort_perm qsort_sorted s i oc Hok Hi)
        as (nf & s1 & -> & Hok1 & Hc1 & Hobjs & Hst); [apply Hacc; [by eapply list_elem_of_lookup_2|done]|].
      rewrite Hid in Hst. eexists _, s1. split; [done|]. split; [done|]. split; [done|]. split; [|done].
      rewrite <-Hid. change (oc_obj_id oc) with (oc_obj_id (emptied oc)). rewrite (regs_of_at s1 i (emptied oc)); [done|apply Hok1|].
      rewrite Hobjs. apply list_lookup_insert_eq. by eapply lookup_lt_Some.
    + eexists _, s. split; [done|]. split; [done|]. split; [done|]. split; [by apply regs_of_none|].
      intros p b Hb. by rewrite cs_content_none.
  - intros Hall. unfold PDC_region_server_cache_finalize.
    destruct (flush_all_ok dim unit Hdim Hunit junk qsort qsort_perm qsort_sorted s Hok Hall) as (s' & -> & _ & Hnil & Hc).
    exists s'. split; [done|]. split; [done|]. intros o p b Hb.
    rewrite <-(Hc o p b Hb). rewrite cs_content_none by (rewrite Hnil; constructor). done.
Qed.

(** The flushes of a pass of the recycling thread are carried out. *)
Fixpoint clock_accepted (idle : nat → bool) (i : nat) (objs : list pdc_obj_cache) (s : cache_state St) : Prop :=
  match objs with
  | [] => True
  | oc :: objs =>
      idle i = true → flush_accepted dim unit junk qsort oc (cs_storage s) ∧
      ∀ nf s', flush_at false junk qsort s i oc = Some (nf, s') → clock_accepted idle (S i) objs s'
  end.

Lemma clock_cycle_pass_ok idle objs : ∀ i s, cache_ok dim unit s → drop i (cs_objs s) = objs →
  clock_accepted idle i objs s →
  ∃ s', clock_cycle_pass false junk qsort idle i objs s = Some s' ∧ cache_ok dim unit s' ∧ same_content s s'.
Proof.
  induction objs as [|oc objs IH]; intros i s Hok Hdrop Hacc; simpl; [by exists s|].
  destruct (idle i) eqn:Hidle; [|by exists s]. destruct (Hacc Hidle) as [Hf Hnext].
  assert (cs_objs s !! i = Some oc) as Hi by (rewrite <-(Nat.add_0_r i), <-lookup_drop, Hdrop; done).
  destruct (flush_at_ok dim unit Hdim Hunit junk qsort qsort_perm qsort_sorted s i oc Hok Hi Hf)
    as (nf & s1 & Hrun & Hok1 & Hc1 & Hobjs & _).
  rewrite Hrun. simpl. destruct (IH (S i) s1 Hok1) as (s2 & Hrun2 & Hok2 & Hc2); [|by eapply Hnext|].
  - rewrite Hobjs, drop_insert_lt by lia. apply drop_S in Hi. rewrite Hdrop in Hi. by injection Hi.
  - exists s2. split; [done|]. split; [done|]. by transitivity s1.
Qed.

(** A pass of the recycling thread, whichever objects it finds idle, never
    changes the contents and keeps the invariant. *)
Theorem clock_cycle_preserves idle s :
  cache_ok dim unit s → clock_accepted idle 0 (cs_objs s) s →
  ∃ s', PDC_region_cache_clock_cycle false junk qsort idle s = Some s' ∧ cache_ok dim unit s' ∧ same_content s s'.
Proof. intros. by apply clock_cycle_pass_ok. Qed.
End CacheSpec.

(** * Merging the cached regions of a one-dimensional object *)

(** [merge_requests] keeps the data of the sorted requests of a
    one-dimensional object: it never copies outside its buffers, produces no more
    requests than it is given, every element of a merged request has the bytes
    of an original request that holds it, and every element of an original
    request is in a merged one.  For elements of more than one byte the requests
    must not overlap. *)
Theorem merge_requests_spec unit junk rs :
  0 < unit → rs ≠ [] → Forall (rq_ok unit) rs → rq_sorted unit rs → rq_total rs * unit < W64 →
  ∃ ms block, merge_requests junk rs unit = Some (ms, block) ∧ lenZ ms ≤ lenZ rs ∧
    (∀ m x, m ∈ ms → in_merged x m →
       ∃ r, r ∈ rs ∧ in_request x r ∧ ∀ b, 0 ≤ b < unit → mg_get unit block m x b = rq_get unit r x b) ∧
    ∀ r x, r ∈ rs → in_request x r → ∃ m, m ∈ ms ∧ in_merged x m.
Proof.
  intros Hu Hne Hok Hsort Hw. destruct (merge_requests_ok unit Hu junk rs Hne Hok Hsort Hw) as (ms & block & E & _ & Hm).
  exists ms, block. split; [done|]. split_and!; [apply Hm..].
Qed.

(** Two requests of two-byte elements: [0, 2) and [1, 3), which agree on their
    common element 1. *)
Definition overlapping_requests : list request := [(0, 2, [10; 11; 20; 21]); (1, 3, [20; 21; 30; 31])].

(** With elements of two bytes and requests that overlap, the copy starts at
    the wrong byte: the merged request holds byte 21 where both originals and
    their union hold 30. *)
Theorem merge_requests_unscaled :
  ∃ block, merge_requests 0 overlapping_requests 2 = Some ([(0, 3, 0)], block) ∧
    mg_get 2 block (0, 3, 0) 2 0 = Some 21 ∧ Exists (λ r, rq_get 2 r 2 0 = Some 30) overlapping_requests.
Proof. eexists. split; [vm_compute; reflexivity|]. split; [reflexivity|]. right. left. reflexivity. Qed.

(** * Relations between regions *)

Lemma clear_flag_true n c flag : clear_flag n c flag = true ↔ flag = true ∧ ∀ i, (i < n)%nat → c i = false.
Proof.
  unfold clear_flag. assert (∀ l flag, foldl (λ flag i, if c i then false else flag) flag l = true ↔
    flag = true ∧ ∀ i, i ∈ l → c i = false) as H.
  { induction l as [|j l IH]; intros f; simpl; [set_solver|]. rewrite IH.
    destruct (c j) eqn:Hj; set_solver. }
  rewrite H. setoid_rewrite elem_of_seq. by setoid_rewrite Nat.add_0_l; split; intros [? Hi]; (split; [done|]); intros i ?; apply Hi; lia.
Qed.

(** [PDC_check_region_relation] of two regions: PDC_REGION_CONTAINED exactly when the
    first is a subset of the second, PDC_REGION_NO_OVERLAP exactly when they are disjoint, and
    PDC_REGION_PARTIAL_OVERLAP in all the other cases.  PDC_REGION_CONTAINED_BY is never
    returned: the flag of the second test is not set again. *)
Theorem PDC_check_region_relation_spec n off1 size1 off2 size2 :
  wf_region n off1 size1 → wf_region n off2 size2 →
  match PDC_check_region_relation off1 size1 off2 size2 n with
  | PDC_REGION_CONTAINED => ∀ p, in_region off1 size1 p → in_region off2 size2 p
  | PDC_REGION_CONTAINED_BY => False
  | PDC_REGION_PARTIAL_OVERLAP => (∃ p, in_region off1 size1 p ∧ in_region off2 size2 p) ∧
                       ∃ p, in_region off1 size1 p ∧ ¬ in_region off2 size2 p
  | PDC_REGION_NO_OVERLAP => ∀ p, ¬ (in_region off1 size1 p ∧ in_region off2 size2 p)
  end.
Proof.
  intros Hwf1 Hwf2.
  pose proof (proj1 (wf_region_arr _ _ _) Hwf1) as (_ & _ & H1).
  pose proof (proj1 (wf_region_arr _ _ _) Hwf2) as (_ & _ & H2).
  unfold PDC_check_region_relation.
  destruct (clear_flag n _ true) eqn:Hc.
  { apply clear_flag_true in Hc as [_ Hc]. apply (sub_of_contained n); [done..|]. intros i Hi.
    specialize (Hc i Hi). specialize (H1 i Hi). specialize (H2 i Hi). prop_bool. rewrite !u64_id in Hc by lia. lia. }
  destruct (clear_flag n _ false) eqn:Hf; [by apply clear_flag_true in Hf as [? _]|].
  assert (clear_flag n (λ i, bool_decide (arr off2 i +w arr size2 i ≤ arr off1 i)
            || bool_decide (arr off2 i >= arr off1 i +w arr size1 i)) true = check_overlap n off1 size1 off2 size2) as ->.
  { apply eq_true_iff_eq. rewrite clear_flag_true, check_overlap_true by done. split.
    - intros [_ H] i Hi. specialize (H i Hi). specialize (H1 i Hi). specialize (H2 i Hi). prop_bool.
      rewrite !u64_id in H by lia. lia.
    - intros H. split; [done|]. intros i Hi. specialize (H i Hi). specialize (H1 i Hi). specialize (H2 i Hi). prop_bool.
      rewrite !u64_id by lia. lia. }
  pose proof (overlap_detect_in n off1 size1 off2 size2 Hwf1 Hwf2) as Hin.
  pose proof (overlap_detect_wf n off1 size1 off2 size2 Hwf1 Hwf2) as Hwf.
  pose proof (overlap_detect_None n off1 size1 off2 size2 Hwf1 Hwf2) as Hno.
  unfold PDC_region_overlap_detect in *. destruct (check_overlap n off1 size1 off2 size2).
  - split.
    + eexists. apply (Hin _ _ _ eq_refl). by eapply corner_in_region, Hwf.
    + assert (¬ ∀ i, (i < n)%nat → arr off2 i ≤ arr off1 i ∧ arr off1 i + arr size1 i ≤ arr off2 i + arr size2 i) as Hex.
      { intros H. assert (clear_flag n (λ i, bool_decide (arr off2 i > arr off1 i)
          || bool_decide (arr off2 i +w arr size2 i < arr off1 i +w arr size1 i)) true = true); [|congruence].
        apply clear_flag_true. split; [done|]. intros i Hi. specialize (H i Hi). specialize (H1 i Hi). specialize (H2 i Hi).
        prop_bool. rewrite !u64_id by lia. lia. }
      destruct (decide (in_region off2 size2 off1)) as [Ho|]; [|by exists off1; split; [eapply corner_in_region|]].
      destruct (decide (in_region off2 size2 (top_of off1 size1))) as [Ht|]; [|by exists (top_of off1 size1); split; [eapply top_in_region|]].
      destruct Hex. destruct Hwf1, Hwf2. apply (in_region_arr n) in Ho as [_ Ho], Ht as [_ Ht]; try done.
      intros i Hi. specialize (Ho i Hi). specialize (Ht i Hi). rewrite (arr_top_of n) in Ht by done. lia.
  - intros p [Hp1 Hp2]. by apply (Hno p).
Qed.

(** The offsets of the second region relative to the first. *)
Definition relative_offset (n : nat) (off off2 : list Z) : list Z := (λ i, arr off2 i -w arr off i) <$> seq 0 n.

Lemma arr_relative_offset n off off2 i : (i < n)%nat → arr (relative_offset n off off2) i = arr off2 i -w arr off i.
Proof. intros Hi. unfold relative_offset. by rewrite arr_fmap_seq. Qed.

(** [PDC_region_cache_copy] is [memcpy_subregion] at the relative offset:
    direction 0 copies out of the first buffer, direction 1 into it. *)
Theorem PDC_region_cache_copy_equiv n buf buf2 off size off2 size2 unit direction :
  PDC_region_cache_copy buf buf2 off size off2 size2 n unit direction =
  memcpy_subregion n unit (if direction : bool then PDC_READ else PDC_WRITE) buf size buf2 (relative_offset n off off2) size2.
Proof.
  destruct n as [|[|[|[|n]]]]; [done|..|done].
  - unfold PDC_region_cache_copy, memcpy_subregion. rewrite arr_relative_offset by lia. by destruct direction.
  - unfold PDC_region_cache_copy, memcpy_subregion. rewrite !arr_relative_offset by lia. f_equal.
    apply forZ_ext. intros i [[b b2] ptr]. rewrite (Z.mul_comm unit), (Z.add_comm (arr off2 1 -w _)).
    by destruct direction; cbn [copy_dir]; cbv beta zeta; destruct (memcpy _ _ _ _ _).
  - unfold PDC_region_cache_copy, memcpy_subregion. rewrite !arr_relative_offset by lia. f_equal.
    apply forZ_ext. intros i st. apply forZ_ext. intros j [[b b2] ptr]. rewrite (Z.mul_comm unit).
    by destruct direction; cbn [copy_dir]; cbv beta zeta; destruct (memcpy _ _ _ _ _).
Qed.

(** The scan of [PDC_region_merge] for the connecting dimension. *)
Lemma connect_dim_Some off1 size1 off2 size2 idxs : ∀ c0 c,
  NoDup idxs →
  connect_dim off1 size1 off2 size2 idxs c0 = Some c →
  (∀ i, i ∈ idxs → arr off1 i ≤ arr off2 i +w arr size2 i ∧ arr off2 i ≤ arr off1 i +w arr size1 i) ∧
  (∀ i, i ∈ idxs → c ≠ Some i → arr off1 i = arr off2 i ∧ arr size1 i = arr size2 i) ∧
  (c = c0 ∨ (c0 = None ∧ ∃ i, c = Some i ∧ i ∈ idxs)).
Proof.
  induction idxs as [|i idxs IH]; intros c0 c Hnd; simpl.
  { intros [= <-]. split; [set_solver|]. split; [set_solver|]. by left. }
  apply list.NoDup_cons in Hnd as [Hni Hnd].
  destruct (bool_decide (arr off1 i > _) || bool_decide (arr off2 i > _)) eqn:Hdet; [done|].
  destruct (negb (bool_decide (arr off1 i = arr off2 i)) || negb (bool_decide (arr size1 i = arr size2 i))) eqn:Hdiff.
  - destruct c0 as [|]; [done|]. intros Hc. destruct (IH _ _ Hnd Hc) as (Htouch & Heq & Hcase).
    assert (c = Some i) as -> by (destruct Hcase as [|[? _]]; congruence).
    split; [intros j [->|Hj]%elem_of_cons; [prop_bool; lia|by apply Htouch]|].
    split; [intros j [->|Hj]%elem_of_cons Hne; [done|by apply Heq]|]. right. split; [done|]. exists i. set_solver.
  - intros Hc. destruct (IH _ _ Hnd Hc) as (Htouch & Heq & Hcase).
    split; [intros j [->|Hj]%elem_of_cons; [prop_bool; lia|by apply Htouch]|].
    split; [intros j [->|Hj]%elem_of_cons Hne; [prop_bool; prop_bool; tauto|by apply Heq]|]. set_solver.
Qed.

(** When [PDC_region_merge] finds two regions mergeable, the region it
    computes is well formed and its points are exactly those of the two. *)
Theorem merged_region_union n off1 size1 off2 size2 c off size :
  (0 < n)%nat → wf_region n off1 size1 → wf_region n off2 size2 →
  merged_region n off1 size1 off2 size2 = Some (c, off, size) →
  wf_region n off size ∧ ∀ p, in_region off size p ↔ in_region off1 size1 p ∨ in_region off2 size2 p.
Proof.
  intros Hn Hwf1 Hwf2.
  pose proof (proj1 (wf_region_arr _ _ _) Hwf1) as (_ & _ & H1).
  pose proof (proj1 (wf_region_arr _ _ _) Hwf2) as (_ & _ & H2).
  unfold merged_region. destruct (connect_dim _ _ _ _ _ _) as [co|] eqn:Hco; [|done]. simpl.
  apply connect_dim_Some in Hco as (Htouch & Heq & Hcase); [|apply NoDup_seq].
  set (cc := default (n - 1)%nat co) in *.
  assert (cc < n)%nat as Hcc.
  { destruct Hcase as [->|(_ & i & -> & Hi)]; simpl in cc; [lia|]. apply elem_of_seq in Hi. unfold cc. lia. }
  assert (∀ i, (i < n)%nat → i ≠ cc → arr off1 i = arr off2 i ∧ arr size1 i = arr size2 i) as Hsame.
  { intros i Hi Hne. apply Heq; [apply elem_of_seq; lia|]. intros ->. by apply Hne. }
  specialize (Htouch cc ltac:(apply elem_of_seq; lia)).
  pose proof (H1 cc Hcc) as H1c. pose proof (H2 cc Hcc) as H2c.
  rewrite !(u64_id (arr off1 cc + _)), !(u64_id (arr off2 cc + _)) in * by lia.
  intros [= <- <- <-].
  set (o := if bool_decide (arr off1 cc > arr off2 cc) then arr off2 cc else arr off1 cc).
  set (s := if bool_decide (arr off1 cc + arr size1 cc > arr off2 cc + arr size2 cc)
            then arr off1 cc + arr size1 cc -w o else arr off2 cc + arr size2 cc -w o).
  assert (o = Z.min (arr off1 cc) (arr off2 cc)) as Ho by (unfold o; case_bool_decide; lia).
  assert (o + s = Z.max (arr off1 cc + arr size1 cc) (arr off2 cc + arr size2 cc)) as Hs.
  { unfold s. case_bool_decide; rewrite u64_id; lia. }
  assert (∀ f : nat → Z, length (f <$> seq 0 n) = n) as Hlen by (intros; by rewrite length_fmap, length_seq).
  split.
  - apply wf_region_arr. split; [apply Hlen|]. split; [apply Hlen|]. intros i Hi. rewrite !arr_fmap_seq by done.
    specialize (H1 i Hi). specialize (H2 i Hi). case_decide; [subst i; lia|done].
  - intros p. destruct Hwf1, Hwf2. rewrite !(in_region_arr n) by (done || apply Hlen).
    split.
    + intros [Hp Hi]. pose proof (Hi cc Hcc) as Hc. rewrite !arr_fmap_seq, !decide_True in Hc by done.
      assert (∀ i, (i < n)%nat → i ≠ cc → arr off1 i ≤ arr p i < arr off1 i + arr size1 i) as Hrest.
      { intros i Hlt Hne. specialize (Hi i Hlt). by rewrite !arr_fmap_seq, !decide_False in Hi by done. }
      destruct (decide (arr off1 cc ≤ arr p cc < arr off1 cc + arr size1 cc)); [left|right]; (split; [done|]); intros i Hlt;
        (destruct (decide (i = cc)) as [->|Hne]; [lia|]; specialize (Hrest i Hlt Hne); specialize (Hsame i Hlt Hne); lia).
    + intros [[Hp Hi]|[Hp Hi]]; (split; [done|]); intros i Hlt; specialize (Hi i Hlt); rewrite !arr_fmap_seq by done;
        (case_decide as E; [subst i; lia|specialize (Hsame i Hlt E); lia]).
Qed.

(** * Stale data *)

(** A server with nothing stored and a large cache; requests of the
    one-dimensional object 7, of one-byte elements. *)
Definition empty_server : data_server := DataServer [] ∅.
#[export] Instance ex_storage : RegionStorage data_server := data_server_storage 100 true 0 3.

(** A sorting function for [qsort]. *)
Definition sort_le (e1 e2 : pdc_region_info) : Prop := sort_by_offset e1 e2 ≤ 0.
#[export] Instance sort_le_dec e1 e2 : Decision (sort_le e1 e2).
Proof. unfold sort_le. apply _. Defined.
Definition ex_sort : list pdc_region_info → list pdc_region_info := merge_sort sort_le.

Lemma ex_sort_perm l : ex_sort l ≡ₚ l.
Proof. apply merge_sort_Permutation. Qed.
Lemma ex_sort_sorted l : StronglySorted sort_le (ex_sort l).
Proof.
  apply StronglySorted_merge_sort.
  - intros x y z. unfold sort_le. rewrite !sort_by_offset_le. lia.
  - intros x y. unfold sort_le. rewrite !sort_by_offset_le. lia.
Qed.

Definition ex_region (off size : Z) : pdc_region_info := RegionInfo 1 [off] [size] [] 1.
Definition ex_write (off size : Z) (value : byte) (s : cache_state data_server) : option (cache_state data_server) :=
  '(_, s) ← PDC_transfer_request_data_write_out 1000 false 0 ex_sort
              s 7 1 [100] (ex_region off size) (replicate (Z.to_nat size) value) 1; Some s.
Definition ex_read (off size : Z) (s : cache_state data_server) : option (list byte) :=
  '(_, buf, _) ← PDC_transfer_request_data_read_from false 0 ex_sort
                   s 7 1 [100] (ex_region off size) (replicate (Z.to_nat size) 0) 1; Some buf.

(** The loop over the cached regions stops at the first one that contains
    the request, so another cached region keeps the old bytes and a read it
    serves returns them: after the writes of [0, 10), [5, 15) and [6, 8), in
    this order, the cache answers a read of [6, 8) with the last data (3) but a
    read of [5, 15) with the old data (2) throughout. *)
Theorem cache_read_stale :
  ∃ s, (s ← ex_write 0 10 1 (PDC_region_server_cache_init empty_server); s ← ex_write 5 10 2 s; ex_write 6 2 3 s) = Some s ∧
    ex_read 6 2 s = Some [3; 3] ∧ ex_read 5 10 s = Some (replicate 10 2).
Proof. eexists. split; [vm_compute; reflexivity|]. split; vm_compute; reflexivity. Qed.

(** * The properties at concrete inputs *)

(** The storage holds the elements 4..7 of the object 7, the cache the elements
    6..7. *)
Definition ex_object : pdc_obj_cache := ObjCache 7 1 [100] [RegionInfo 1 [6] [2] [20; 21] 1] 1.
Definition ex_cache : cache_state data_server := CacheState [ex_object] 2 ex_ds.

#[export] Instance ex_storage_laws : RegionStorageLaws data_server (λ _, 1%nat) (λ _, 1) :=
  data_server_storage_laws 100 true 0 3 (λ _, 1%nat) (λ _, 1) ltac:(simpl; lia) ltac:(simpl; lia) ltac:(vm_compute; intuition congruence)
    ltac:(left; reflexivity) ltac:(lia).

Lemma ex_object_ok : oc_ok (λ _, 1%nat) (λ _, 1) ex_object.
Proof.
  split; [reflexivity|reflexivity| |].
  - apply list.Forall_singleton. split; [|reflexivity]. split; [reflexivity|wf_concrete|vm_compute; intuition congruence].
  - intros r r' p b ->%list_elem_of_singleton ->%list_elem_of_singleton. done.
Qed.

Lemma ex_cache_ok : cache_ok (λ _, 1%nat) (λ _, 1) ex_cache.
Proof. split; [apply NoDup_singleton|apply list.Forall_singleton, ex_object_ok|exact ex_ds_ok]. Qed.

Lemma ex_flush_accepted : flush_accepted (λ _, 1%nat) (λ _, 1) 0 ex_sort ex_object ex_ds.
Proof.
  split.
  - intros _. split; [by left|reflexivity].
  - rewrite decide_True by (split; [reflexivity|discriminate]).
    assert (merge_regions 0 ex_sort ex_object = Some [RegionInfo 1 [6] [2] [20; 21] 1]) as -> by (vm_compute; reflexivity).
    intros regs [= <-]. split; [|done]. split.
    + apply list.Forall_singleton. intros _ oo os E. vm_compute in E. injection E as <- <-. vm_compute. congruence.
    + vm_compute. congruence.
Qed.

Lemma ex_cache_flush : flush_all_accepted (λ _, 1%nat) (λ _, 1) 0 ex_sort (cs_objs ex_cache) 2 ex_ds.
Proof. split; [exact ex_flush_accepted|done]. Qed.

Lemma cache_write_refines_witness :
  ∃ s', PDC_transfer_request_data_write_out 1000 false 0 ex_sort ex_cache 7 1 [100] (ex_region 5 2) [31; 32] 1 = Some (SUCCEED, s') ∧
    cs_content (λ _, 1%nat) (λ _, 1) s' 7 [6] 0 = Some 32 ∧ cs_content (λ _, 1%nat) (λ _, 1) s' 7 [7] 0 = Some 21 ∧
    cs_content (λ _, 1%nat) (λ _, 1) s' 7 [4] 0 = Some 10.
Proof.
  destruct (cache_write_refines (λ _, 1%nat) (λ _, 1) ltac:(simpl; lia) ltac:(simpl; lia) 1000 0 ex_sort ex_sort_perm ex_sort_sorted
              ex_cache 7 [100] (ex_region 5 2) [31; 32] ex_cache_ok) as (s' & Hrun & _ & Hc).
  - split; [reflexivity|wf_concrete|vm_compute; intuition congruence].
  - exact I.
  - intros s1 Hrun Hbig. vm_compute in Hrun. injection Hrun as <-. vm_compute in Hbig. discriminate.
  - exists s'. split; [exact Hrun|]. split_and!; (rewrite Hc; [reflexivity|lia]).
Defined.

Lemma cache_read_refines_witness :
  ∃ buf' s', PDC_transfer_request_data_read_from false 0 ex_sort ex_cache 7 1 [100] (ex_region 5 4) [0; 0; 0; 9] 1
               = Some (SUCCEED, buf', s') ∧ buf' = [11; 20; 21; 9] ∧
    cs_content (λ _, 1%nat) (λ _, 1) s' 7 [6] 0 = Some 20.
Proof.
  destruct (cache_read_refines (λ _, 1%nat) (λ _, 1) ltac:(simpl; lia) ltac:(simpl; lia) 0 ex_sort ex_sort_perm ex_sort_sorted
              ex_cache 7 [100] (ex_region 5 4) [0; 0; 0; 9] ex_cache_ok) as (buf' & s' & Hrun & _ & _ & Hsame & _).
  - split; [reflexivity|wf_concrete|vm_compute; intuition congruence].
  - intros oc ->%list_elem_of_singleton _ _. exact ex_flush_accepted.
  - exists buf', s'. split; [exact Hrun|]. split; [vm_compute in Hrun; by injection Hrun as <- _|].
    rewrite (Hsame 7 [6] 0); [reflexivity|lia].
Defined.

Lemma cache_write_then_read_witness :
  ∃ s' s'', PDC_transfer_request_data_write_out 1000 false 0 ex_sort ex_cache 7 1 [100] (ex_region 5 2) [31; 32] 1 = Some (SUCCEED, s') ∧
    PDC_transfer_request_data_read_from false 0 ex_sort s' 7 1 [100] (ex_region 5 2) [0; 0] 1 = Some (SUCCEED, [31; 32], s'').
Proof.
  apply (cache_write_then_read (λ _, 1%nat) (λ _, 1) ltac:(simpl; lia) ltac:(simpl; lia) 1000 0 ex_sort ex_sort_perm ex_sort_sorted
              ex_cache 7 [100] (ex_region 5 2) [31; 32] [0; 0] ex_cache_ok).
  - split; [reflexivity|wf_concrete|vm_compute; intuition congruence].
  - exact I.
  - vm_compute. congruence.
  - vm_compute. congruence.
  - reflexivity.
  - reflexivity.
Defined.

Lemma cache_flush_preserves_witness :
  ∃ s', PDC_region_server_cache_finalize false 0 ex_sort ex_cache = Some s' ∧
    ds_content (λ _, 1) (cs_storage s') 7 [6] 0 = Some 20.
Proof.
  destruct (cache_flush_preserves (λ _, 1%nat) (λ _, 1) ltac:(simpl; lia) ltac:(simpl; lia) 0 ex_sort ex_sort_perm ex_sort_sorted
              ex_cache 7 ex_cache_ok) as [_ Hfin].
  - intros oc ->%list_elem_of_singleton _. exact ex_flush_accepted.
  - destruct (Hfin ex_cache_flush) as (s' & Hrun & _ & Hc). exists s'. split; [exact Hrun|].
    assert (st_content (cs_storage s') 7 [6] 0 = Some 20) as E; [|exact E]. rewrite Hc; [reflexivity|lia].
Defined.

Lemma clock_cycle_preserves_witness :
  ∃ s', PDC_region_cache_clock_cycle false 0 ex_sort (λ _, true) ex_cache = Some s' ∧
    cs_content (λ _, 1%nat) (λ _, 1) s' 7 [6] 0 = Some 20 ∧ cs_total_cache_size s' = 0.
Proof.
  destruct (clock_cycle_preserves (λ _, 1%nat) (λ _, 1) ltac:(simpl; lia) ltac:(simpl; lia) 0 ex_sort ex_sort_perm ex_sort_sorted
              (λ _, true) ex_cache ex_cache_ok) as (s' & Hrun & _ & Hsame).
  - intros _. split; [exact ex_flush_accepted|]. intros; exact I.
  - exists s'. split; [exact Hrun|]. split; [rewrite (Hsame 7 [6] 0); [reflexivity|lia]|].
    vm_compute in Hrun. by injection Hrun as <-.
Defined.

Lemma merge_requests_spec_witness :
  ∃ ms block, merge_requests 0 [(0, 2, [1; 2]); (1, 4, [2; 3; 4]); (7, 8, [5])] 1 = Some (ms, block) ∧
    ms = [(0, 4, 0); (7, 8, 4)] ∧ block = [1; 2; 3; 4; 5].
Proof.
  destruct (merge_requests_spec 1 0 [(0, 2, [1; 2]); (1, 4, [2; 3; 4]); (7, 8, [5])]) as (ms & block & Hrun & _).
  - lia.
  - discriminate.
  - repeat constructor; vm_compute; congruence.
  - repeat constructor; vm_compute; congruence.
  - reflexivity.
  - exists ms, block. split; [exact Hrun|]. vm_compute in Hrun. injection Hrun as <- <-. split; reflexivity.
Defined.

Lemma PDC_check_region_relation_spec_witness :
  PDC_check_region_relation [0; 0] [4; 4] [1; 1] [2; 2] 2 = PDC_REGION_PARTIAL_OVERLAP ∧
  ∃ p, in_region [0; 0] [4; 4] p ∧ ¬ in_region [1; 1] [2; 2] p.
Proof.
  split; [reflexivity|].
  refine (proj2 (PDC_check_region_relation_spec 2 [0; 0] [4; 4] [1; 1] [2; 2] _ _)); wf_concrete.
Defined.

Lemma merged_region_union_witness : in_region [0; 1] [5; 2] [4; 1].
Proof.
  destruct (merged_region_union 2 [0; 1] [2; 2] [2; 1] [3; 2] 0 [0; 1] [5; 2]) as [_ H].
  - lia.
  - wf_concrete.
  - wf_concrete.
  - reflexivity.
  - apply H. right. simpl. lia.
Defined.
