(* ===== verification/MetadataQuery.v ===== *)
(** The metadata server's record of where regions are stored
    ([src/src/server/pdc_server_region/pdc_server_region_transfer_metadata_query.c]):
    for every object the regions that were written and the data server that
    holds each.  A query carries regions of a client's requests; the answer lists
    for each the recorded regions it overlaps, with their servers. *)

From stdpp Require Import sets.
From S2P Require Export RegionUtils Wire.

Definition PDC_REGION_DYNAMIC : Z := 2.

(** * The data *)

Record pdc_region_metadata_pkg := RegionMetadata {
  rm_reg_offset : list Z;
  rm_reg_size : list Z;
  rm_data_server_id : Z }.

Record pdc_obj_metadata_pkg := ObjMetadata {
  om_ndim : nat;
  om_obj_id : Z;
  om_regions : list pdc_region_metadata_pkg }.

(** A region of a query. *)
Record pdc_obj_region_metadata := ObjRegion {
  or_obj_id : Z;
  or_reg_offset : list Z;
  or_reg_size : list Z;
  or_ndim : nat }.

(** The static variables of the file.  [mq_terminated] tells whether the [next]
    field of the last object has been set to NULL; [pdc_server_size] is the length
    of [mq_data_server_bytes]. *)
Record metadata_state := MetadataState {
  mq_objs : list pdc_obj_metadata_pkg;
  mq_terminated : bool;
  mq_data_server_bytes : list Z;
  mq_query_id_g : Z;
  mq_query_bufs : list (Z * list byte) }.

(** The search through the list of objects.  [None]: it runs through a [next]
    that was never set. *)
Fixpoint find_obj (objs : list pdc_obj_metadata_pkg) (terminated : bool) (obj_id : Z) : option (option nat) :=
  match objs with
  | [] => if terminated then Some None else None
  | o :: objs =>
    if decide (om_obj_id o = obj_id) then Some (Some O)
    else i ← find_obj objs terminated obj_id; Some (option_map S i)
  end.

(** * Recording regions *)

(** The server with the fewest bytes: its load and its rank. *)
Definition min_server (data_server_bytes : list Z) : Z * Z :=
  foldl (λ '(min_bytes, min_bytes_server) (i : nat),
    if decide (min_bytes > arr data_server_bytes i) then (arr data_server_bytes i, Z.of_nat i)
    else (min_bytes, min_bytes_server)) (arr data_server_bytes 0, 0) (seq 1 (length data_server_bytes - 1)).

Definition transfer_request_metadata_reg_append (data_server_bytes : list Z) (ndim : nat) (reg_offset reg_size : list Z)
    (unit data_server_id region_partition : Z) : pdc_region_metadata_pkg * list Z :=
  if decide (region_partition = PDC_REGION_DYNAMIC) then
    let '(_, min_bytes_server) := min_server data_server_bytes in
    let total_reg_size := foldl (λ t i, t *w arr reg_size i) unit (seq 0 ndim) in
    (RegionMetadata (take ndim reg_offset) (take ndim reg_size) (u32 min_bytes_server),
     <[Z.to_nat min_bytes_server :=
         arr data_server_bytes (Z.to_nat min_bytes_server) +w total_reg_size]> data_server_bytes)
  else (RegionMetadata (take ndim reg_offset) (take ndim reg_size) data_server_id, data_server_bytes).

(** The first recorded region that contains the region. *)
Fixpoint find_region (regions : list pdc_region_metadata_pkg) (ndim : nat) (reg_offset reg_size : list Z)
    : option pdc_region_metadata_pkg :=
  match regions with
  | [] => None
  | r :: regions =>
    if detect_region_contained reg_offset reg_size (rm_reg_offset r) (rm_reg_size r) ndim then Some r
    else find_region regions ndim reg_offset reg_size
  end.

Definition transfer_request_metadata_query_append (s : metadata_state) (obj_id : Z) (ndim : nat)
    (reg_offset reg_size : list Z) (unit data_server_id region_partition : Z) : option (Z * metadata_state) :=
  i ← find_obj (mq_objs s) (mq_terminated s) obj_id;
  let '(objs, terminated, i) :=
    match i with
    | Some i => (mq_objs s, mq_terminated s, i)
    | None => (mq_objs s ++ [ObjMetadata ndim obj_id []], true, length (mq_objs s))
    end in
  temp ← objs !! i;
  match find_region (om_regions temp) ndim reg_offset reg_size with
  | Some r =>
      Some (rm_data_server_id r,
            MetadataState objs terminated (mq_data_server_bytes s) (mq_query_id_g s) (mq_query_bufs s))
  | None =>
      let '(r, bytes) := transfer_request_metadata_reg_append (mq_data_server_bytes s) ndim reg_offset reg_size
                           unit data_server_id region_partition in
      Some (rm_data_server_id r,
            MetadataState (<[i := ObjMetadata (om_ndim temp) (om_obj_id temp) (om_regions temp ++ [r])]> objs)
              terminated bytes (mq_query_id_g s) (mq_query_bufs s))
  end.

(** * Answering a query *)

Section Answer.
Context (junk : byte).

(** The object of a region of the query. *)
Definition obj_of (s : metadata_state) (req : pdc_obj_region_metadata) : option (option pdc_obj_metadata_pkg) :=
  i ← find_obj (mq_objs s) (mq_terminated s) (or_obj_id req);
  match i with Some i => o ← mq_objs s !! i; Some (Some o) | None => Some None end.

(** [transfer_request_counters[i]] for an object that is found. *)
Definition request_counter (req : pdc_obj_region_metadata) (o : pdc_obj_metadata_pkg) : Z :=
  foldl (λ c r, if check_overlap (or_ndim req) (rm_reg_offset r) (rm_reg_size r) (or_reg_offset req) (or_reg_size req)
                then c + 1 else c) 0 (om_regions o).

(** The first loop: the size of the buffer, the number of entries and the
    counter of each region of the query. *)
Fixpoint count_loop (s : metadata_state) (reqs : list pdc_obj_region_metadata) (total_data_size total : Z)
    : option (Z * Z * list Z) :=
  match reqs with
  | [] => Some (total_data_size, total, [])
  | req :: reqs =>
    temp ← obj_of s req;
    let '(total_data_size, total, c) :=
      match temp with
      | Some o => let c := request_counter req o in
          (total_data_size +w (4 +w c *w (4 + 8 * Z.of_nat (or_ndim req) * 2)), total + c, c)
      | None => (total_data_size, total, 0)
      end in
    '(total_data_size, total, cs) ← count_loop s reqs total_data_size total;
    Some (total_data_size, total, c :: cs)
  end.

Fixpoint fill_regions (req : pdc_obj_region_metadata) (regions : list pdc_region_metadata_pkg) (st : list byte * Z)
    : option (list byte * Z) :=
  match regions with
  | [] => Some st
  | r :: regions =>
    st ← match PDC_region_overlap_detect (or_ndim req) (rm_reg_offset r) (rm_reg_size r)
                 (or_reg_offset req) (or_reg_size req) with
         | Some (overlap_offset, overlap_size) =>
             st ← emit (u32_bytes (rm_data_server_id r)) st;
             st ← emit (u64s_bytes (take (or_ndim req) overlap_offset)) st;
             emit (u64s_bytes (take (or_ndim req) overlap_size)) st
         | None => Some st
         end;
    fill_regions req regions st
  end.

(** The second loop, that fills the buffer. *)
Fixpoint fill_loop (s : metadata_state) (reqs : list pdc_obj_region_metadata) (counters : list Z) (st : list byte * Z)
    : option (list byte * Z) :=
  match reqs, counters with
  | [], _ => Some st
  | req :: reqs, c :: counters =>
    temp ← obj_of s req;
    st ← emit (int_bytes (c mod W32)) st;
    st ← match temp with Some o => fill_regions req (om_regions o) st | None => Some st end;
    fill_loop s reqs counters st
  | _ :: _, [] => None
  end.

(** The ID of the query and the size of its buffer. *)
Definition metadata_query_buf_create (s : metadata_state) (regions : list pdc_obj_region_metadata)
    : option (Z * Z * metadata_state) :=
  '(total_data_size, total, counters) ← count_loop s regions 4 0;
  if decide (total_data_size = 0) then Some (0, total_data_size, s)
  else
    st ← emit (int_bytes (total mod W32)) (malloc junk total_data_size, 0);
    '(buf, _) ← fill_loop s regions counters st;
    Some (mq_query_id_g s, total_data_size,
          MetadataState (mq_objs s) (mq_terminated s) (mq_data_server_bytes s) (mq_query_id_g s +w 1)
            (mq_query_bufs s ++ [(mq_query_id_g s, buf)])).

(** The buffer of a query, which leaves the list. *)
Fixpoint lookup_buf (bufs : list (Z * list byte)) (query_id : Z) : option (list byte) * list (Z * list byte) :=
  match bufs with
  | [] => (None, [])
  | (id, buf) :: bufs =>
    if decide (id = query_id) then (Some buf, bufs)
    else let '(ret, bufs) := lookup_buf bufs query_id in (ret, (id, buf) :: bufs)
  end.
Definition transfer_request_metadata_query_lookup_query_buf (s : metadata_state) (query_id : Z)
    : option (list byte) * metadata_state :=
  let '(ret, bufs) := lookup_buf (mq_query_bufs s) query_id in
  (ret, MetadataState (mq_objs s) (mq_terminated s) (mq_data_server_bytes s) (mq_query_id_g s) bufs).

(** The loop over the regions of a query; for a write each is recorded.  A
    negative number of dimensions makes [ptr] leave the buffer. *)
Fixpoint parse_loop (s : metadata_state) (buf : list byte) (ptr : Z) (n : nat) (is_write : bool)
    : option (list pdc_obj_region_metadata * metadata_state) :=
  match n with
  | O => Some ([], s)
  | S n =>
    obj_id ← load_u64 buf ptr;
    data_server_id ← load_u32 buf (ptr + 8);
    region_partition ← load_u8 buf (ptr + 12);
    ndim ← load_int buf (ptr + 13);
    unit ← load_u64 buf (ptr + 17);
    if decide (ndim < 0) then None
    else
      let ndim := Z.to_nat ndim in
      reg_offset ← load_u64s buf (ptr + 25) ndim;
      reg_size ← load_u64s buf (ptr + 25 + 8 * Z.of_nat ndim) ndim;
      s ← (if is_write
           then '(_, s) ← transfer_request_metadata_query_append s obj_id ndim reg_offset reg_size unit
                            data_server_id region_partition; Some s
           else Some s);
      '(regions, s) ← parse_loop s buf (ptr + 25 + 8 * Z.of_nat ndim + 8 * Z.of_nat ndim) n is_write;
      Some (ObjRegion obj_id reg_offset reg_size ndim :: regions, s)
  end.

(** The ID of the query and the size of its buffer. *)
Definition transfer_request_metadata_query_parse (s : metadata_state) (n_objs : nat) (buf : list byte) (is_write : bool)
    : option (Z * Z * metadata_state) :=
  '(regions, s) ← parse_loop s buf 0 n_objs is_write; metadata_query_buf_create s regions.

(** * Checkpoint and restart *)

Definition checkpoint_size (objs : list pdc_obj_metadata_pkg) : Z :=
  foldl (λ size o, foldl (λ size _, size +w (4 +w 8 *w 2 *w Z.of_nat (om_ndim o)))
                     (size +w (4 * 2 + 8)) (om_regions o)) 4 objs.

(** [raw i j n] is the memory from the address of the field [reg_offset] of the
    [j]th region of the [i]th object on: this, and not what the field points to,
    is what the checkpoint copies. *)
Context (raw : nat → nat → Z → list byte).

Fixpoint checkpoint_regions (i j ndim : nat) (regions : list pdc_region_metadata_pkg) (st : list byte * Z)
    : option (list byte * Z) :=
  match regions with
  | [] => Some st
  | r :: regions =>
    st ← emit (u32_bytes (rm_data_server_id r)) st;
    st ← emit (raw i j (8 * Z.of_nat ndim * 2)) st;
    checkpoint_regions i (S j) ndim regions st
  end.

Fixpoint checkpoint_objs (i : nat) (objs : list pdc_obj_metadata_pkg) (st : list byte * Z) : option (list byte * Z) :=
  match objs with
  | [] => Some st
  | o :: objs =>
    st ← emit (u64_bytes (om_obj_id o)) st;
    st ← emit (int_bytes (Z.of_nat (om_ndim o) mod W32)) st;
    st ← emit (int_bytes (Z.of_nat (length (om_regions o)) mod W32)) st;
    st ← checkpoint_regions i 0 (om_ndim o) (om_regions o) st;
    checkpoint_objs (S i) objs st
  end.

Definition transfer_request_metadata_query_checkpoint (s : metadata_state) : option (list byte) :=
  if mq_terminated s then
    st ← emit (int_bytes (Z.of_nat (length (mq_objs s)) mod W32)) (malloc junk (checkpoint_size (mq_objs s)), 0);
    '(buf, _) ← checkpoint_objs 0 (mq_objs s) st; Some buf
  else None.
End Answer.

Definition init_region (buf : list byte) (ptr : Z) (ndim : nat) : option (pdc_region_metadata_pkg * Z) :=
  data_server_id ← load_u32 buf ptr;
  reg ← load_u64s buf (ptr + 4) (ndim + ndim);
  Some (RegionMetadata (take ndim reg) (drop ndim reg) data_server_id, ptr + 4 + 8 * Z.of_nat ndim * 2).

(** [regions->next] is set and [regions_end->next] followed: from the third
    region of an object on they are different nodes and the latter is NULL. *)
Fixpoint init_regions (buf : list byte) (ptr : Z) (ndim : nat) (regions : list pdc_region_metadata_pkg) (n : nat)
    : option (list pdc_region_metadata_pkg * Z) :=
  match n with
  | O => Some (regions, ptr)
  | S n =>
    match regions with
    | [r0] => '(r, ptr) ← init_region buf ptr ndim; init_regions buf ptr ndim [r0; r] n
    | _ => None
    end
  end.

Fixpoint init_objs (buf : list byte) (ptr : Z) (n_objs : nat) : option (list pdc_obj_metadata_pkg) :=
  match n_objs with
  | O => Some []
  | S n_objs =>
    obj_id ← load_u64 buf ptr;
    ndim ← load_int buf (ptr + 8);
    reg_count ← load_int buf (ptr + 12);
    if decide (ndim < 0) then None
    else
      '(r, ptr) ← init_region buf (ptr + 16) (Z.to_nat ndim);
      '(regions, ptr) ← init_regions buf ptr (Z.to_nat ndim) [r] (Z.to_nat (reg_count - 1));
      objs ← init_objs buf ptr n_objs;
      Some (ObjMetadata (Z.to_nat ndim) obj_id regions :: objs)
  end.

(** The [next] field of an object read from a checkpoint is set when another one
    follows. *)
Definition transfer_request_metadata_query_init (pdc_server_size : nat) (checkpoint : option (list byte))
    : option metadata_state :=
  objs ← match checkpoint with
         | Some buf => n_objs ← load_int buf 0; init_objs buf 4 (Z.to_nat n_objs)
         | None => Some []
         end;
  Some (MetadataState objs (bool_decide (objs = [])) (replicate pdc_server_size 0) 100000 []).

(** The list of objects is freed; the other variables keep their values. *)
Definition transfer_request_metadata_query_finalize (s : metadata_state) : option metadata_state :=
  if mq_terminated s
  then Some (MetadataState [] true (mq_data_server_bytes s) (mq_query_id_g s) (mq_query_bufs s)) else None.

(** * The records: lemmas *)

#[global] Arguments metadata_query_buf_create : simpl never.

Lemma find_obj_spec objs obj :
  match find_obj objs true obj with
  | Some (Some i) => ∃ o, objs !! i = Some o ∧ om_obj_id o = obj
  | Some None => Forall (λ o, om_obj_id o ≠ obj) objs
  | None => False
  end.
Proof.
  induction objs as [|o objs IH]; simpl; [constructor|]. case_decide as E; [by exists o|].
  destruct (find_obj objs true obj) as [[i|]|]; [exact IH|by constructor|done].
Qed.

(** The regions recorded for an object. *)
Definition recorded_in (objs : list pdc_obj_metadata_pkg) (obj : Z) : list pdc_region_metadata_pkg :=
  match list_find (λ o, om_obj_id o = obj) objs with Some (_, o) => om_regions o | None => [] end.
Definition recorded (s : metadata_state) (obj : Z) : list pdc_region_metadata_pkg := recorded_in (mq_objs s) obj.

Lemma recorded_at objs i o : NoDup (om_obj_id <$> objs) → objs !! i = Some o → recorded_in objs (om_obj_id o) = om_regions o.
Proof. intros Hnd Hi. unfold recorded_in. by rewrite (list_find_key om_obj_id _ i o). Qed.

Lemma recorded_none objs obj : Forall (λ o, om_obj_id o ≠ obj) objs → recorded_in objs obj = [].
Proof. intros Hno. unfold recorded_in. by rewrite (list_find_no_key om_obj_id). Qed.

(** Changing one object or adding a new one does not affect the others. *)
Lemma recorded_insert objs i o o' obj : NoDup (om_obj_id <$> objs) → objs !! i = Some o → om_obj_id o' = om_obj_id o →
  recorded_in (<[i := o']> objs) obj = if decide (obj = om_obj_id o) then om_regions o' else recorded_in objs obj.
Proof.
  intros Hnd Hi E. pose proof (key_insert om_obj_id _ _ _ o' Hi E) as Hkeys. case_decide as Hobj.
  - subst obj. rewrite <-E. apply recorded_at with i; [by rewrite Hkeys|].
    apply list_lookup_insert_eq. by eapply lookup_lt_Some.
  - unfold recorded_in. clear Hkeys Hnd. revert i Hi.
    induction objs as [|o1 objs IH]; intros [|i] Hi; simplify_eq/=; [by rewrite !decide_False by congruence|].
    destruct (decide (om_obj_id o1 = obj)); [done|]. specialize (IH i Hi).
    destruct (list_find _ (<[i:=o']> objs)) as [[]|], (list_find _ objs) as [[]|]; done.
Qed.

Lemma recorded_snoc objs o obj : om_regions o = [] → recorded_in (objs ++ [o]) obj = recorded_in objs obj.
Proof.
  intros Ho. unfold recorded_in. induction objs as [|o1 objs IH]; simpl.
  - case_decide; simpl; done.
  - case_decide; simpl; [done|].
    destruct (list_find _ (objs ++ [o])) as [[]|], (list_find _ objs) as [[]|]; done.
Qed.

Lemma min_server_spec bytes : bytes ≠ [] →
  let '(m, k) := min_server bytes in
  0 ≤ k < lenZ bytes ∧ arr bytes (Z.to_nat k) = m ∧ ∀ i, (i < length bytes)%nat → m ≤ arr bytes i.
Proof.
  intros Hne. assert (0 < length bytes)%nat as Hl by (destruct bytes; [done|simpl; lia]).
  unfold min_server. assert (∀ n k0 m k, (k0 + n ≤ length bytes)%nat → 0 ≤ k < Z.of_nat (length bytes) →
    arr bytes (Z.to_nat k) = m → (∀ i, (i < k0)%nat → m ≤ arr bytes i) →
    let '(m, k) := foldl (λ '(min_bytes, min_bytes_server) (i : nat),
      if decide (min_bytes > arr bytes i) then (arr bytes i, Z.of_nat i) else (min_bytes, min_bytes_server)) (m, k) (seq k0 n) in
    0 ≤ k < Z.of_nat (length bytes) ∧ arr bytes (Z.to_nat k) = m ∧ ∀ i, (i < k0 + n)%nat → m ≤ arr bytes i) as H.
  { induction n as [|n IH]; intros k0 m k Hk0 Hk Hm Hmin; simpl.
    { split; [done|]. split; [done|]. intros i Hi. apply Hmin. lia. }
    rewrite Nat.add_succ_r. case_decide; apply (IH (S k0)); try lia; try done.
    - by rewrite Nat2Z.id.
    - intros i Hi. destruct (decide (i = k0)) as [->|]; [lia|]. specialize (Hmin i ltac:(lia)). lia.
    - intros i Hi. destruct (decide (i = k0)) as [->|]; [lia|]. apply Hmin. lia. }
  specialize (H (length bytes - 1)%nat 1%nat (arr bytes 0) 0). destruct (foldl _ _ _) as [m k]. unfold lenZ.
  replace (1 + (length bytes - 1))%nat with (length bytes) in H by lia. apply H; [lia|lia|done|].
  intros i Hi. by replace i with 0%nat by lia.
Qed.

(** [unit * reg_size[0] * ... * reg_size[ndim - 1]] *)
Lemma region_bytes_eqm size : ∀ pre t,
  eqm (foldl (λ t i, t *w arr (pre ++ size) i) t (seq (length pre) (length size))) (t * vol size).
Proof.
  induction size as [|x size IH]; intros pre t; simpl; [by rewrite Z.mul_1_r|].
  assert (arr (pre ++ x :: size) (length pre) = x) as ->.
  { unfold arr. rewrite list_lookup_total_middle; done. }
  specialize (IH (pre ++ [x]) (t *w x)). rewrite <-app_assoc, length_app, Nat.add_comm in IH. simpl in IH.
  rewrite IH, u64_eqm, Z.mul_assoc. done.
Qed.

Section Records.
Context (dim : Z → nat).

Record recorded_ok (n : nat) (r : pdc_region_metadata_pkg) : Prop := {
  ro_region : wf_region n (rm_reg_offset r) (rm_reg_size r);
  ro_server : 0 ≤ rm_data_server_id r < W32 }.

Record metadata_ok (s : metadata_state) : Prop := {
  mk_terminated : mq_terminated s = true;
  mk_nodup : NoDup (om_obj_id <$> mq_objs s);
  mk_objs : Forall (λ o, om_ndim o = dim (om_obj_id o) ∧ Forall (recorded_ok (dim (om_obj_id o))) (om_regions o)) (mq_objs s);
  mk_servers : 0 < lenZ (mq_data_server_bytes s) < W32 ∧ Forall is_u64 (mq_data_server_bytes s);
  mk_ids : NoDup (mq_query_bufs s).*1 ∧ Forall (λ q, q.1 < mq_query_id_g s) (mq_query_bufs s) }.

Lemma recorded_all s obj : metadata_ok s → Forall (recorded_ok (dim obj)) (recorded s obj).
Proof.
  intros [_ _ Hobjs _ _]. unfold recorded, recorded_in. destruct (list_find _ _) as [[i o]|] eqn:E; [|constructor].
  apply list_find_Some in E as (Hi & <- & _). by apply (list.Forall_lookup_1 _ _ _ _ Hobjs Hi).
Qed.

Lemma find_region_spec n off size regions : wf_region n off size → Forall (recorded_ok n) regions →
  match find_region regions n off size with
  | Some r => r ∈ regions ∧ ∀ p, in_region off size p → in_region (rm_reg_offset r) (rm_reg_size r) p
  | None => ∀ r, r ∈ regions → ¬ ∀ p, in_region off size p → in_region (rm_reg_offset r) (rm_reg_size r) p
  end.
Proof.
  intros Hwf. induction 1 as [|r regions Hr _ IH]; simpl; [set_solver|].
  pose proof (detect_region_contained_arr n off size (rm_reg_offset r) (rm_reg_size r) Hwf (ro_region _ _ Hr)) as Hd.
  destruct (detect_region_contained _ _ _ _ _).
  - split; [set_solver|]. apply (sub_of_contained n); [done|apply Hr|by apply Hd].
  - destruct (find_region regions n off size); [set_solver|]. intros r' [->|Hr']%elem_of_cons; [|by apply IH].
    intros Hsub. assert (false = true) by (apply Hd; by apply (contained_of_sub n _ _ _ _ Hwf (ro_region _ _ Hr))). done.
Qed.

(** The object of an append: found, or new and without regions. *)
Lemma find_or_create s obj : metadata_ok s →
  ∃ x objs i o, find_obj (mq_objs s) (mq_terminated s) obj = Some x ∧
    match x with
    | Some i => (mq_objs s, mq_terminated s, i)
    | None => (mq_objs s ++ [ObjMetadata (dim obj) obj []], true, length (mq_objs s))
    end = (objs, true, i) ∧
    objs !! i = Some o ∧ om_obj_id o = obj ∧ om_ndim o = dim obj ∧ om_regions o = recorded s obj ∧
    NoDup (om_obj_id <$> objs) ∧ (∀ obj', recorded_in objs obj' = recorded s obj') ∧
    Forall (λ o, om_ndim o = dim (om_obj_id o) ∧ Forall (recorded_ok (dim (om_obj_id o))) (om_regions o)) objs.
Proof.
  intros [Ht Hnd Hobjs _ _]. rewrite Ht. pose proof (find_obj_spec (mq_objs s) obj) as Hf.
  destruct (find_obj (mq_objs s) true obj) as [[i|]|]; [| |done].
  - destruct Hf as (o & Hi & <-). exists (Some i), (mq_objs s), i, o. split_and!; try done.
    + by apply (list.Forall_lookup_1 _ _ _ _ Hobjs Hi).
    + symmetry. by apply recorded_at with i.
  - exists None, (mq_objs s ++ [ObjMetadata (dim obj) obj []]), (length (mq_objs s)), (ObjMetadata (dim obj) obj []).
    split_and!; try done.
    + by rewrite lookup_app_r, Nat.sub_diag.
    + symmetry. by apply recorded_none.
    + rewrite fmap_app. apply list.NoDup_app. split; [done|]. split; [|apply NoDup_singleton].
      intros k (o & -> & Ho)%list_elem_of_fmap Hk%list_elem_of_singleton.
      by apply (proj1 (list.Forall_forall _ _) Hf o).
    + intros obj'. by apply recorded_snoc.
    + apply list.Forall_app. split; [done|]. apply list.Forall_singleton. done.
Qed.

Lemma take_all {A} (l : list A) n : length l = n → take n l = l.
Proof. intros <-. apply take_ge. lia. Qed.

(** The load of the servers after a region was recorded on [server]. *)
Definition balanced (bytes : list Z) (server : Z) (region_bytes : Z) (bytes' : list Z) : Prop :=
  0 ≤ server < lenZ bytes ∧ (∀ i, (i < length bytes)%nat → arr bytes (Z.to_nat server) ≤ arr bytes i) ∧
  bytes' = <[Z.to_nat server := arr bytes (Z.to_nat server) +w region_bytes]> bytes.

Lemma reg_append_spec bytes n off size unit dsid part :
  0 < lenZ bytes < W32 → Forall is_u64 bytes → wf_region n off size → 0 ≤ dsid < W32 →
  ∃ server bytes', transfer_request_metadata_reg_append bytes n off size unit dsid part
      = (RegionMetadata off size server, bytes') ∧ 0 ≤ server < W32 ∧ length bytes' = length bytes ∧ Forall is_u64 bytes' ∧
    if decide (part = PDC_REGION_DYNAMIC) then balanced bytes server (unit * vol size) bytes' else server = dsid ∧ bytes' = bytes.
Proof.
  intros Hlen Hbytes [Ho Hs _] Hd. unfold transfer_request_metadata_reg_append. rewrite !take_all by done.
  case_decide; [|by exists dsid, bytes].
  pose proof (min_server_spec bytes) as Hm. destruct (min_server bytes) as [m k].
  destruct Hm as (Hk & Hmk & Hmin); [intros ->; unfold lenZ in Hlen; simpl in Hlen; lia|]. unfold u32. rewrite Z.mod_small by lia.
  eexists k, _. split; [done|]. split; [lia|]. split; [apply length_insert|]. split.
  - apply Forall_insert; [done|]. apply u64_range.
  - split; [done|]. split; [by rewrite Hmk|]. f_equal. change (eqm (arr bytes (Z.to_nat k) + foldl (λ t i, t *w arr size i) unit (seq 0 n))
      (arr bytes (Z.to_nat k) + unit * vol size)). rewrite <-Hs. by rewrite (region_bytes_eqm size [] unit).
Qed.

Lemma query_append_ok s obj off size unit dsid part :
  metadata_ok s → wf_region (dim obj) off size → 0 ≤ dsid < W32 →
  ∃ server s', transfer_request_metadata_query_append s obj (dim obj) off size unit dsid part = Some (server, s') ∧
    metadata_ok s' ∧ (∀ obj', obj' ≠ obj → recorded s' obj' = recorded s obj') ∧
    mq_query_bufs s' = mq_query_bufs s ∧ mq_query_id_g s' = mq_query_id_g s ∧
    match find_region (recorded s obj) (dim obj) off size with
    | Some r => server = rm_data_server_id r ∧ recorded s' obj = recorded s obj ∧
        mq_data_server_bytes s' = mq_data_server_bytes s
    | None => recorded s' obj = recorded s obj ++ [RegionMetadata off size server] ∧
        if decide (part = PDC_REGION_DYNAMIC)
        then balanced (mq_data_server_bytes s) server (unit * vol size) (mq_data_server_bytes s')
        else server = dsid ∧ mq_data_server_bytes s' = mq_data_server_bytes s
    end.
Proof.
  intros Hok Hwf Hd. destruct (find_or_create s obj Hok) as (x & objs & i & o & Hf & Hx & Hi & Hid & Hn & Hregs & Hnd & Hrec & Hobjs).
  pose proof Hok as [_ _ _ [Hs1 Hs2] Hq]. unfold transfer_request_metadata_query_append. rewrite Hf. simpl. rewrite Hx, Hi. simpl.
  rewrite Hregs. destruct (find_region (recorded s obj) (dim obj) off size) as [r|] eqn:Hfr.
  - eexists _, _. split; [done|]. split; [by split|]. split; [intros; apply Hrec|]. do 2 (split; [done|]). split; [done|]. split; [apply Hrec|done].
  - destruct (reg_append_spec (mq_data_server_bytes s) (dim obj) off size unit dsid part)
      as (server & bytes' & -> & Hserver & Hlen & Hb & Hcase); [done..|]. simpl.
    set (o' := ObjMetadata (om_ndim o) (om_obj_id o) (recorded s obj ++ [RegionMetadata off size server])).
    assert (∀ obj', recorded_in (<[i := o']> objs) obj' = if decide (obj' = obj) then om_regions o' else recorded s obj') as Hrec'.
    { intros obj'. rewrite (recorded_insert objs i o o') by done. rewrite Hid, Hrec. done. }
    eexists _, _. split; [done|]. split; [|split; [|do 2 (split; [done|]); split; [|done]]].
    + split; simpl; [done| | |unfold lenZ in *; by rewrite Hlen|done].
      * by rewrite (key_insert om_obj_id _ _ _ o' Hi).
      * apply Forall_insert; [done|]. simpl. rewrite Hid. split; [done|]. apply list.Forall_app. split.
        -- by apply recorded_all.
        -- apply list.Forall_singleton. by split.
    + intros obj' Hne. unfold recorded. simpl. by rewrite Hrec', decide_False.
    + unfold recorded at 1. simpl. by rewrite Hrec', decide_True.
Qed.
End Records.

(** * Answers: lemmas *)

(** The overlaps of a region of the query with recorded regions. *)
Definition overlaps (req : pdc_obj_region_metadata) (regions : list pdc_region_metadata_pkg) : list (Z * list Z * list Z) :=
  omap (λ r, '(oo, os) ← PDC_region_overlap_detect (or_ndim req) (rm_reg_offset r) (rm_reg_size r)
                           (or_reg_offset req) (or_reg_size req); Some (rm_data_server_id r, oo, os)) regions.

Lemma overlaps_cons req r regions :
  overlaps req (r :: regions) =
    match PDC_region_overlap_detect (or_ndim req) (rm_reg_offset r) (rm_reg_size r) (or_reg_offset req) (or_reg_size req) with
    | Some (oo, os) => (rm_data_server_id r, oo, os) :: overlaps req regions
    | None => overlaps req regions
    end.
Proof. unfold overlaps. simpl. by destruct (PDC_region_overlap_detect _ _ _ _ _) as [[??]|]. Qed.

Lemma overlap_detect_length n off1 size1 off2 size2 oo os :
  PDC_region_overlap_detect n off1 size1 off2 size2 = Some (oo, os) → length oo = n ∧ length os = n.
Proof.
  unfold PDC_region_overlap_detect. destruct (check_overlap _ _ _ _ _); [|done]. intros [= <- <-].
  by rewrite !length_fmap, !length_seq.
Qed.

Lemma overlaps_length req regions :
  Forall (λ e, length e.1.2 = or_ndim req ∧ length e.2 = or_ndim req) (overlaps req regions).
Proof.
  unfold overlaps. induction regions as [|r regions IH]; simpl; [constructor|].
  destruct (PDC_region_overlap_detect _ _ _ _ _) as [[oo os]|] eqn:E; simpl; [|done].
  constructor; [|done]. by eapply overlap_detect_length.
Qed.

Lemma lenZ_entries_bytes req regions :
  lenZ (entries_bytes (overlaps req regions)) = 4 + lenZ (overlaps req regions) * (4 + 8 * Z.of_nat (or_ndim req) * 2).
Proof.
  unfold entries_bytes. autorewrite with wire. f_equal. apply lenZ_bind_const.
  eapply list.Forall_impl; [apply overlaps_length|]. intros [[d oo] os] [H1 H2]. simpl in *.
  apply lenZ_entry_bytes; unfold lenZ; congruence.
Qed.

Lemma request_counter_overlaps req o : request_counter req o = lenZ (overlaps req (om_regions o)).
Proof.
  unfold request_counter. assert (∀ l c, foldl (λ c r, if check_overlap (or_ndim req) (rm_reg_offset r) (rm_reg_size r)
    (or_reg_offset req) (or_reg_size req) then c + 1 else c) c l = c + lenZ (overlaps req l)) as H.
  { induction l as [|r l IH]; intros c; simpl; [unfold lenZ; simpl; lia|]. rewrite IH. unfold overlaps at 2. simpl.
    unfold PDC_region_overlap_detect at 1. destruct (check_overlap _ _ _ _ _); simpl; [|done].
    rewrite lenZ_cons. unfold overlaps. lia. }
  by rewrite H.
Qed.

Lemma fill_regions_spec req regions : ∀ cap w st,
  filling cap w st → lenZ w + lenZ (overlaps req regions ≫= entry_bytes) ≤ cap →
  ∃ st', fill_regions req regions st = Some st' ∧ filling cap (w ++ (overlaps req regions ≫= entry_bytes)) st'.
Proof.
  induction regions as [|r regions IH]; intros cap w st Hf Hcap; [exists st; by rewrite app_nil_r|].
  rewrite overlaps_cons in *. cbn [fill_regions].
  destruct (PDC_region_overlap_detect _ _ _ _ _) as [[oo os]|] eqn:Hd; [|by apply IH].
  destruct (overlap_detect_length _ _ _ _ _ _ _ Hd) as [Ho Hs]. rewrite !take_all by done. rewrite bind_cons in *.
  unfold entry_bytes at 1 in Hcap. autorewrite with wire in Hcap.
  pose proof (lenZ_nonneg (overlaps req regions ≫= entry_bytes)). pose proof (lenZ_nonneg oo). pose proof (lenZ_nonneg os).
  destruct (emit_filling _ _ _ (u32_bytes (rm_data_server_id r)) Hf) as (st1 & -> & Hf1); [autorewrite with wire; lia|]. simpl.
  destruct (emit_filling _ _ _ (u64s_bytes oo) Hf1) as (st2 & -> & Hf2); [autorewrite with wire; lia|]. simpl.
  destruct (emit_filling _ _ _ (u64s_bytes os) Hf2) as (st3 & -> & Hf3); [autorewrite with wire; lia|]. simpl.
  destruct (IH _ _ _ Hf3) as (st' & -> & Hf'); [autorewrite with wire; lia|]. exists st'. split; [done|].
  unfold entry_bytes at 1. by rewrite <-!app_assoc in *.
Qed.

(** The entries of an answer cover the part of the region that is recorded. *)
Lemma overlaps_cover n req regions p : or_ndim req = n → wf_region n (or_reg_offset req) (or_reg_size req) →
  Forall (recorded_ok n) regions →
  (∃ e, e ∈ overlaps req regions ∧ in_region e.1.2 e.2 p) ↔
  in_region (or_reg_offset req) (or_reg_size req) p ∧ Exists (λ r, in_region (rm_reg_offset r) (rm_reg_size r) p) regions.
Proof.
  intros <- Hwf. induction 1 as [|r regions Hr _ IH].
  { rewrite Exists_nil. split; [intros (e & He & _); by apply elem_of_nil in He|tauto]. }
  rewrite overlaps_cons, Exists_cons. destruct (PDC_region_overlap_detect _ _ _ _ _) as [[oo os]|] eqn:Hd.
  - pose proof (overlap_detect_in _ _ _ _ _ (ro_region _ _ Hr) Hwf _ _ p Hd) as Hin. split.
    + intros (e & [->|He]%elem_of_cons & Hp); [simpl in Hp; tauto|]. assert (∃ e, e ∈ overlaps req regions ∧ in_region e.1.2 e.2 p) by eauto. tauto.
    + intros [Hp [Hrp|Hex]].
      * exists (rm_data_server_id r, oo, os). split; [set_solver|]. simpl. tauto.
      * destruct (proj2 IH (conj Hp Hex)) as (e & He & Hpe). exists e. set_solver.
  - rewrite IH. split; [tauto|]. intros [Hp [Hrp|Hex]]; [|done].
    by destruct (overlap_detect_None _ _ _ _ _ (ro_region _ _ Hr) Hwf p Hd).
Qed.

Definition entry_wf (n : nat) (e : Z * list Z * list Z) : Prop := 0 ≤ e.1.1 < W32 ∧ wf_region n e.1.2 e.2.

Lemma overlaps_wf n req regions : or_ndim req = n → wf_region n (or_reg_offset req) (or_reg_size req) →
  Forall (recorded_ok n) regions → Forall (entry_wf n) (overlaps req regions).
Proof.
  intros <- Hwf. induction 1 as [|r regions [Hr Hs] _ IH]; [constructor|]. rewrite overlaps_cons.
  destruct (PDC_region_overlap_detect _ _ _ _ _) as [[oo os]|] eqn:Hd; [|done]. constructor; [|done]. split; [done|].
  exact (overlap_detect_wf _ _ _ _ _ Hr Hwf _ _ Hd).
Qed.

Section Answers.
Context (dim : Z → nat) (junk : byte).
Implicit Types (s : metadata_state) (req : pdc_obj_region_metadata).

(** The object of the region has been recorded. *)
Definition known s req : Prop := or_obj_id req ∈ om_obj_id <$> mq_objs s.

Definition answer s req : list (Z * list Z * list Z) := overlaps req (recorded s (or_obj_id req)).

Lemma obj_of_known s req : metadata_ok dim s → known s req →
  ∃ o, obj_of s req = Some (Some o) ∧ om_regions o = recorded s (or_obj_id req).
Proof.
  intros [Ht Hnd _ _ _] Hk. unfold obj_of. rewrite Ht. pose proof (find_obj_spec (mq_objs s) (or_obj_id req)) as Hf.
  destruct (find_obj (mq_objs s) true (or_obj_id req)) as [[i|]|]; [| |done]; simpl.
  - destruct Hf as (o & Hi & Hid). rewrite Hi. exists o. split; [done|]. rewrite <-Hid. symmetry. by apply recorded_at with i.
  - apply list_elem_of_fmap in Hk as (o & Hid & Ho). by destruct (proj1 (list.Forall_forall _ _) Hf o Ho).
Qed.

Lemma obj_of_unknown s req : metadata_ok dim s → ¬ known s req → obj_of s req = Some None.
Proof.
  intros [Ht Hnd _ _ _] Hk. unfold obj_of. rewrite Ht. pose proof (find_obj_spec (mq_objs s) (or_obj_id req)) as Hf.
  destruct (find_obj (mq_objs s) true (or_obj_id req)) as [[i|]|]; [|done|done]; simpl.
  destruct Hf as (o & Hi & Hid). destruct Hk. apply list_elem_of_fmap. exists o. split; [done|by eapply list_elem_of_lookup_2].
Qed.

Lemma count_loop_spec s reqs : ∀ t c,
  metadata_ok dim s → Forall (known s) reqs → 0 ≤ t →
  t + lenZ ((answer s <$> reqs) ≫= entries_bytes) < W64 →
  count_loop s reqs t c =
    Some (t + lenZ ((answer s <$> reqs) ≫= entries_bytes), c + sum_len (answer s <$> reqs), lenZ <$> (answer s <$> reqs)).
Proof.
  induction reqs as [|req reqs IH]; intros t c Hok Hk Ht Hw; [unfold lenZ; simpl; by rewrite !Z.add_0_r|].
  apply list.Forall_cons in Hk as [Hr Hk]. rewrite !fmap_cons, bind_cons, lenZ_app in *. cbn [count_loop].
  destruct (obj_of_known s req Hok Hr) as (o & -> & Ho). simpl. rewrite request_counter_overlaps, Ho. fold (answer s req).
  pose proof (lenZ_entries_bytes req (recorded s (or_obj_id req))) as He. fold (answer s req) in He.
  pose proof (lenZ_nonneg (answer s req)). pose proof (lenZ_nonneg ((answer s <$> reqs) ≫= entries_bytes)).
  set (k := lenZ (answer s req) * (4 + 8 * Z.of_nat (or_ndim req) * 2)) in *. assert (0 ≤ k) by (unfold k; nia).
  rewrite (u64_id k), (u64_id (4 + k)), (u64_id (t + (4 + k))) by lia.
  rewrite IH by (done || lia). simpl. do 3 f_equal; [lia|unfold sum_len; simpl; fold (sum_len (answer s <$> reqs)); lia].
Qed.

Lemma fill_loop_spec s reqs : ∀ cap w st,
  metadata_ok dim s → Forall (known s) reqs →
  filling cap w st → lenZ w + lenZ ((answer s <$> reqs) ≫= entries_bytes) ≤ cap →
  ∃ st', fill_loop s reqs (lenZ <$> (answer s <$> reqs)) st = Some st' ∧
    filling cap (w ++ ((answer s <$> reqs) ≫= entries_bytes)) st'.
Proof.
  induction reqs as [|req reqs IH]; intros cap w st Hok Hk Hf Hcap; [exists st; by rewrite app_nil_r|].
  apply list.Forall_cons in Hk as [Hr Hk]. rewrite !fmap_cons, bind_cons in *. cbn [fill_loop].
  destruct (obj_of_known s req Hok Hr) as (o & -> & Ho). cbn [mbind option_bind].
  unfold entries_bytes at 1 in Hcap. autorewrite with wire in Hcap.
  pose proof (lenZ_nonneg ((answer s <$> reqs) ≫= entries_bytes)). pose proof (lenZ_nonneg (answer s req ≫= entry_bytes)).
  destruct (emit_filling _ _ _ (int_bytes (lenZ (answer s req) mod W32)) Hf) as (st1 & -> & Hf1); [autorewrite with wire; lia|].
  cbn [mbind option_bind]. rewrite Ho.
  destruct (fill_regions_spec req (recorded s (or_obj_id req)) _ _ _ Hf1) as (st2 & -> & Hf2);
    [fold (answer s req); autorewrite with wire; lia|].
  fold (answer s req) in Hf2. cbn [mbind option_bind].
  destruct (IH _ _ _ Hok Hk Hf2) as (st3 & -> & Hf3); [autorewrite with wire; lia|]. exists st3. split; [done|].
  unfold entries_bytes at 1. by rewrite <-!app_assoc in *.
Qed.

Lemma buf_create_ok s reqs :
  metadata_ok dim s → Forall (known s) reqs → lenZ (answer_bytes (answer s <$> reqs)) < W64 →
  metadata_query_buf_create junk s reqs =
    Some (mq_query_id_g s, lenZ (answer_bytes (answer s <$> reqs)),
          MetadataState (mq_objs s) (mq_terminated s) (mq_data_server_bytes s) (mq_query_id_g s +w 1)
            (mq_query_bufs s ++ [(mq_query_id_g s, answer_bytes (answer s <$> reqs))])).
Proof.
  intros Hok Hk Hw. assert (lenZ (answer_bytes (answer s <$> reqs)) = 4 + lenZ ((answer s <$> reqs) ≫= entries_bytes)) as Hl.
  { unfold answer_bytes. by autorewrite with wire. }
  pose proof (lenZ_nonneg ((answer s <$> reqs) ≫= entries_bytes)).
  unfold metadata_query_buf_create. rewrite count_loop_spec by (done || lia). cbn [mbind option_bind].
  rewrite decide_False by lia. rewrite Hl, Z.add_0_l.
  set (cap := 4 + lenZ ((answer s <$> reqs) ≫= entries_bytes)) in *.
  destruct (emit_filling _ _ _ (int_bytes (sum_len (answer s <$> reqs) mod W32)) (filling_malloc junk cap ltac:(lia)))
    as (st1 & -> & Hf1); [autorewrite with wire; lia|]. cbn [mbind option_bind].
  destruct (fill_loop_spec s reqs _ _ _ Hok Hk Hf1) as ([buf ptr] & -> & Hf2); [autorewrite with wire; lia|].
  cbn [mbind option_bind]. apply filling_full in Hf2; [|autorewrite with wire; lia].
  rewrite Hf2. done.
Qed.

Lemma metadata_ok_query s buf : metadata_ok dim s → mq_query_id_g s + 1 < W64 → 0 ≤ mq_query_id_g s →
  metadata_ok dim (MetadataState (mq_objs s) (mq_terminated s) (mq_data_server_bytes s) (mq_query_id_g s +w 1)
    (mq_query_bufs s ++ [(mq_query_id_g s, buf)])).
Proof.
  intros [? ? ? ? [Hnd Hlt]] Hw H0. split; simpl; [done..|]. rewrite u64_id by lia. split.
  - rewrite fmap_app. apply list.NoDup_app. split; [done|]. split; [|apply NoDup_singleton].
    intros k ([id b] & -> & Hq)%list_elem_of_fmap Hk%list_elem_of_singleton.
    pose proof (proj1 (list.Forall_forall _ _) Hlt _ Hq). simpl in *. lia.
  - apply list.Forall_app. split; [|apply list.Forall_singleton; simpl; lia].
    eapply list.Forall_impl; [exact Hlt|]. simpl. lia.
Qed.

Lemma lookup_buf_spec bufs id buf rest : id ∉ bufs.*1 → lookup_buf (bufs ++ (id, buf) :: rest) id = (Some buf, bufs ++ rest).
Proof.
  induction bufs as [|[id' b] bufs IH]; simpl; intros Hni; [by rewrite decide_True|].
  apply not_elem_of_cons in Hni as [? ?]. rewrite decide_False by done. by rewrite IH.
Qed.

Lemma lookup_buf_absent bufs id : id ∉ bufs.*1 → lookup_buf bufs id = (None, bufs).
Proof.
  induction bufs as [|[id' b] bufs IH]; simpl; intros Hni; [done|].
  apply not_elem_of_cons in Hni as [? ?]. rewrite decide_False by done. by rewrite IH.
Qed.

(** ** Queries on the wire *)

Definition to_region (q : query_region) : pdc_obj_region_metadata :=
  ObjRegion (qr_obj_id q) (qr_offset q) (qr_size q) (length (qr_offset q)).

(** Recording all regions of a write query. *)
Fixpoint append_all s (qs : list query_region) : option metadata_state :=
  match qs with
  | [] => Some s
  | q :: qs =>
    '(_, s) ← transfer_request_metadata_query_append s (qr_obj_id q) (length (qr_offset q)) (qr_offset q) (qr_size q)
                (qr_unit q) (qr_data_server_id q) (qr_region_partition q);
    append_all s qs
  end.

Lemma parse_loop_spec qs (is_write : bool) : ∀ s buf ptr rest,
  Forall query_region_ok qs → at_off buf ptr ((qs ≫= query_region_bytes) ++ rest) →
  parse_loop s buf ptr (length qs) is_write =
    (s' ← (if is_write then append_all s qs else Some s); Some (to_region <$> qs, s')).
Proof.
  induction qs as [|q qs IH]; intros s buf ptr rest Hqs Hat; [by destruct is_write|].
  apply list.Forall_cons in Hqs as [[Hid Hsv Hpart Hunit Hlen Hnd Ho Hs] Hqs].
  rewrite bind_cons in Hat. unfold query_region_bytes in Hat. rewrite <-!app_assoc in Hat. cbn [length parse_loop].
  rewrite (load_u64_at _ _ _ _ Hat) by done. cbn [mbind option_bind].
  pose proof (at_off_app _ _ _ _ (ptr + 8) Hat ltac:(by rewrite lenZ_u64_bytes)) as H1.
  rewrite (load_u32_at _ _ _ _ H1) by done. cbn [mbind option_bind].
  pose proof (at_off_app _ _ _ _ (ptr + 12) H1 ltac:(rewrite lenZ_u32_bytes; lia)) as H2.
  rewrite (load_u8_at _ _ _ _ H2) by done. cbn [mbind option_bind].
  pose proof (at_off_app _ _ _ _ (ptr + 13) H2 ltac:(rewrite lenZ_u8_bytes; lia)) as H3.
  pose proof (lenZ_nonneg (qr_offset q)).
  rewrite (load_int_at _ _ _ _ H3) by lia. cbn [mbind option_bind].
  pose proof (at_off_app _ _ _ _ (ptr + 17) H3 ltac:(rewrite lenZ_int_bytes; lia)) as H4.
  rewrite (load_u64_at _ _ _ _ H4) by done. cbn [mbind option_bind].
  pose proof (at_off_app _ _ _ _ (ptr + 25) H4 ltac:(rewrite lenZ_u64_bytes; lia)) as H5.
  rewrite decide_False by lia. assert (Z.to_nat (lenZ (qr_offset q)) = length (qr_offset q)) as -> by apply Nat2Z.id.
  rewrite (load_u64s_at _ _ _ _ _ H5) by done. cbn [mbind option_bind].
  pose proof (at_off_app _ _ _ _ (ptr + 25 + 8 * Z.of_nat (length (qr_offset q))) H5 ltac:(by rewrite lenZ_u64s_bytes)) as H6.
  rewrite (load_u64s_at _ _ _ _ _ H6) by done. cbn [mbind option_bind].
  pose proof (at_off_app _ _ _ _ (ptr + 25 + 8 * Z.of_nat (length (qr_offset q)) + 8 * Z.of_nat (length (qr_offset q))) H6
    ltac:(rewrite lenZ_u64s_bytes; unfold lenZ; lia)) as H7.
  destruct is_write; cbn [append_all].
  - destruct (transfer_request_metadata_query_append _ _ _ _ _ _ _ _) as [[? s']|]; cbn [mbind option_bind]; [|done].
    rewrite (IH _ _ _ _ Hqs H7). by destruct (append_all s' qs).
  - cbn [mbind option_bind]. by rewrite (IH _ _ _ _ Hqs H7).
Qed.

(** A point of a recorded region of the object. *)
Definition covers s (obj : Z) (p : list Z) : Prop := Exists (λ r, in_region (rm_reg_offset r) (rm_reg_size r) p) (recorded s obj).

Lemma query_append_covers s obj off size unit dsid part server s' :
  metadata_ok dim s → wf_region (dim obj) off size → 0 ≤ dsid < W32 →
  transfer_request_metadata_query_append s obj (dim obj) off size unit dsid part = Some (server, s') →
  (∀ obj' p, covers s' obj' p ↔ covers s obj' p ∨ (obj' = obj ∧ in_region off size p)) ∧
  (∃ r, r ∈ recorded s' obj ∧ rm_data_server_id r = server ∧ ∀ p, in_region off size p → in_region (rm_reg_offset r) (rm_reg_size r) p) ∧
  (∀ obj', obj' = obj ∨ obj' ∈ om_obj_id <$> mq_objs s → obj' ∈ om_obj_id <$> mq_objs s').
Proof.
  intros Hok Hwf Hd E. destruct (query_append_ok dim s obj off size unit dsid part Hok Hwf Hd)
    as (server1 & s1 & E1 & Hok1 & Hother & _ & _ & Hcase).
  rewrite E1 in E. injection E as -> ->. pose proof (find_region_spec (dim obj) off size (recorded s obj) Hwf (recorded_all dim s obj Hok)) as Hfr.
  split; [|split].
  - intros obj' p. unfold covers. destruct (decide (obj' = obj)) as [->|]; [|rewrite Hother by done; tauto].
    destruct (find_region _ _ _ _) as [r|].
    + destruct Hfr as [Hr Hsub]. destruct Hcase as (_ & -> & _). split; [by left|]. intros [|[_ Hp]]; [done|].
      apply list.Exists_exists. eauto.
    + destruct Hcase as [-> _]. rewrite Exists_app, Exists_cons, Exists_nil. simpl. tauto.
  - destruct (find_region _ _ _ _) as [r|].
    + destruct Hfr as [Hr Hsub], Hcase as (-> & -> & _). by exists r.
    + destruct Hcase as [-> _]. eexists. split; [apply elem_of_app; right; by apply list_elem_of_singleton|]. done.
  - intros obj' Hobj. clear Hcase Hfr Hother. revert E1. unfold transfer_request_metadata_query_append.
    destruct (find_or_create dim s obj Hok) as (x & objs & i & o & -> & Hx & Hi & Hid & _ & _ & _ & _ & _).
    simpl. rewrite Hx, Hi. simpl.
    assert (obj' ∈ om_obj_id <$> objs) as Hin.
    { destruct Hobj as [->|Hobj].
      - apply list_elem_of_fmap. exists o. split; [done|by eapply list_elem_of_lookup_2].
      - apply (f_equal (λ t, t.1.1)) in Hx. destruct x; simpl in Hx; subst objs; [done|]. rewrite fmap_app. set_solver. }
    destruct (find_region _ _ _ _); [by intros [= _ <-]|]. destruct (transfer_request_metadata_reg_append _ _ _ _ _ _ _).
    intros [= _ <-]. simpl. by rewrite (key_insert om_obj_id _ _ _ _ Hi).
Qed.

(** A region of a query for an object of [dim] dimensions. *)
Definition query_ok (q : query_region) : Prop :=
  query_region_ok q ∧ wf_region (dim (qr_obj_id q)) (qr_offset q) (qr_size q).

Lemma append_all_ok qs : ∀ s, metadata_ok dim s → Forall query_ok qs →
  ∃ s', append_all s qs = Some s' ∧ metadata_ok dim s' ∧
    (∀ obj p, covers s' obj p ↔ covers s obj p ∨ ∃ q, q ∈ qs ∧ qr_obj_id q = obj ∧ in_region (qr_offset q) (qr_size q) p) ∧
    (∀ obj, (∃ q, q ∈ qs ∧ qr_obj_id q = obj) ∨ obj ∈ om_obj_id <$> mq_objs s → obj ∈ om_obj_id <$> mq_objs s') ∧
    mq_query_bufs s' = mq_query_bufs s ∧ mq_query_id_g s' = mq_query_id_g s.
Proof.
  induction qs as [|q qs IH]; intros s Hok Hqs; simpl.
  { exists s. split; [done|]. split; [done|]. split; [set_solver|]. split; [set_solver|done]. }
  apply list.Forall_cons in Hqs as [[Hq Hwf] Hqs]. rewrite (wf_off _ _ _ Hwf).
  destruct (query_append_ok dim s (qr_obj_id q) (qr_offset q) (qr_size q) (qr_unit q) (qr_data_server_id q)
    (qr_region_partition q) Hok Hwf (qo_server _ Hq)) as (server & s1 & E & Hok1 & _ & Hb & Hi & _).
  destruct (query_append_covers _ _ _ _ _ _ _ _ _ Hok Hwf (qo_server _ Hq) E) as (Hcov & _ & Hids).
  rewrite E. simpl. destruct (IH s1 Hok1 Hqs) as (s' & Hrun & Hok' & Hcov' & Hids' & Hb' & Hi').
  exists s'. split; [done|]. split; [done|]. split; [|split; [|split; congruence]].
  - intros obj p. rewrite Hcov', Hcov. split.
    + intros [[?|[-> ?]]|(q' & ? & ? & ?)]; [by left|right; exists q; set_solver|right; exists q'; set_solver].
    + intros [?|(q' & [->|Hq']%elem_of_cons & <- & ?)]; [by left; left|left; right; done|right; by exists q'].
  - intros obj Hobj. apply Hids'. destruct Hobj as [(q' & [->|Hq']%elem_of_cons & <-)|Hobj].
    + right. apply Hids. by left.
    + left. by exists q'.
    + right. apply Hids. by right.
Qed.

(** What recording a region of a metadata query does.  *)
Definition updated s (qs : list query_region) (is_write : bool) : option metadata_state :=
  if is_write then append_all s qs else Some s.
End Answers.

(** * Properties *)

Section Properties.
Context (dim : Z → nat) (junk : byte).

(** Recording a written region keeps the invariant of the metadata and makes
    exactly its points covered; if a recorded region of the object contains it
    nothing changes and the server of the first such region is returned,
    otherwise the region is appended: on the server with the least bytes, whose
    load grows by the bytes of the region, for dynamic partitioning, and on the
    server the client names otherwise. *)
Theorem query_append_records s obj off size unit dsid part :
  metadata_ok dim s → wf_region (dim obj) off size → 0 ≤ dsid < W32 →
  ∃ server s', transfer_request_metadata_query_append s obj (dim obj) off size unit dsid part = Some (server, s') ∧
    metadata_ok dim s' ∧
    (∀ obj' p, covers s' obj' p ↔ covers s obj' p ∨ (obj' = obj ∧ in_region off size p)) ∧
    match find_region (recorded s obj) (dim obj) off size with
    | Some r => server = rm_data_server_id r ∧ recorded s' obj = recorded s obj ∧
        mq_data_server_bytes s' = mq_data_server_bytes s
    | None => recorded s' obj = recorded s obj ++ [RegionMetadata off size server] ∧
        if decide (part = PDC_REGION_DYNAMIC)
        then balanced (mq_data_server_bytes s) server (unit * vol size) (mq_data_server_bytes s')
        else server = dsid ∧ mq_data_server_bytes s' = mq_data_server_bytes s
    end.
Proof.
  intros Hok Hwf Hd. destruct (query_append_ok dim s obj off size unit dsid part Hok Hwf Hd)
    as (server & s' & E & Hok' & _ & _ & _ & Hcase).
  destruct (query_append_covers dim _ _ _ _ _ _ _ _ _ Hok Hwf Hd E) as (Hcov & _).
  exists server, s'. auto.
Qed.

(** Parsing, recording and answering a query. *)
Lemma metadata_query_ok s qs is_write :
  metadata_ok dim s → 0 ≤ mq_query_id_g s → mq_query_id_g s + 1 < W64 → Forall (query_ok dim) qs →
  (is_write = true ∨ Forall (λ q, known s (to_region q)) qs) →
  (∀ s', updated s qs is_write = Some s' → lenZ (answer_bytes (answer s' <$> (to_region <$> qs))) < W64) →
  ∃ s' s'' ess,
    transfer_request_metadata_query_parse junk s (length qs) (qs ≫= query_region_bytes) is_write =
      Some (mq_query_id_g s, lenZ (answer_bytes ess), s') ∧ metadata_ok dim s' ∧
    transfer_request_metadata_query_lookup_query_buf s' (mq_query_id_g s) = (Some (answer_bytes ess), s'') ∧
    (transfer_request_metadata_query_lookup_query_buf s'' (mq_query_id_g s)).1 = None ∧
    (∃ s1, updated s qs is_write = Some s1 ∧ ess = (answer s1 <$> (to_region <$> qs))) ∧
    Forall2 (λ q es, Forall (entry_wf (dim (qr_obj_id q))) es ∧ ∀ p, (∃ e, e ∈ es ∧ in_region e.1.2 e.2 p) ↔
      in_region (qr_offset q) (qr_size q) p ∧ (is_write = true ∨ covers s (qr_obj_id q) p)) qs ess.
Proof.
  intros Hok H0 Hlt Hqs Hkn Hw.
  assert (∃ s1, updated s qs is_write = Some s1 ∧ metadata_ok dim s1 ∧ Forall (known s1) (to_region <$> qs) ∧
    mq_query_bufs s1 = mq_query_bufs s ∧ mq_query_id_g s1 = mq_query_id_g s ∧
    ∀ q p, q ∈ qs → in_region (qr_offset q) (qr_size q) p →
      covers s1 (qr_obj_id q) p ↔ is_write = true ∨ covers s (qr_obj_id q) p) as (s1 & Hup & Hok1 & Hkn1 & Hb1 & Hi1 & Hcov1).
  { destruct is_write; simpl.
    - destruct (append_all_ok dim qs s Hok Hqs) as (s1 & ? & ? & Hcov & Hids & ? & ?). exists s1. split_and!; try done.
      + apply Forall_fmap, list.Forall_forall. intros q Hq. apply Hids. left. by exists q.
      + intros q p Hq Hp. rewrite Hcov. split; [by left|]. intros _. right. by exists q.
    - destruct Hkn as [|Hkn]; [done|]. exists s. split_and!; try done; [by apply Forall_fmap|].
      intros q p _ _. split; [by right|]. by intros [|]. }
  specialize (Hw s1 Hup). set (ess := answer s1 <$> (to_region <$> qs)) in *.
  pose proof (parse_loop_spec qs is_write s (qs ≫= query_region_bytes) 0 []) as Hparse.
  rewrite app_nil_r in Hparse. specialize (Hparse ltac:(eapply list.Forall_impl; [exact Hqs|by intros ? []]) (at_off_0 _)).
  unfold updated in Hup. rewrite Hup in Hparse. cbn [mbind option_bind] in Hparse.
  unfold transfer_request_metadata_query_parse. rewrite Hparse. cbn [mbind option_bind].
  rewrite (buf_create_ok dim junk s1 _ Hok1 Hkn1 Hw), Hi1, Hb1. fold ess.
  eexists _, _, ess. split; [reflexivity|]. split; [rewrite <-Hi1, <-Hb1; apply metadata_ok_query; [done|lia|lia]|].
  unfold transfer_request_metadata_query_lookup_query_buf. simpl.
  assert (mq_query_id_g s ∉ (mq_query_bufs s).*1) as Hni.
  { intros ([id b] & Eid & Hq)%list_elem_of_fmap.
    pose proof (proj1 (list.Forall_forall _ _) (proj2 (mk_ids _ _ Hok)) _ Hq). simpl in *. lia. }
  rewrite (lookup_buf_spec _ _ _ [] Hni), app_nil_r. split; [reflexivity|]. simpl. split; [by rewrite (lookup_buf_absent _ _ Hni)|].
  split; [by exists s1|].
  unfold ess. apply Forall2_fmap_r, Forall2_fmap_r, Forall_Forall2_diag, list.Forall_forall. intros q Hq.
  destruct (proj1 (list.Forall_forall _ _) Hqs q Hq) as [_ Hwf].
  split; [unfold answer; apply overlaps_wf; [apply Hwf|done|by apply (recorded_all dim)]|]. intros p.
  unfold answer. rewrite (overlaps_cover (dim (qr_obj_id q))); [|apply Hwf|done|by apply (recorded_all dim)]. simpl.
  specialize (Hcov1 q p Hq). unfold covers in Hcov1 at 1. tauto.
Qed.

(** C16: a metadata query to write regions, or to read regions of objects that have been
    recorded ([known]), is answered: the buffer of the query has the size that is announced,
    is found once under the ID that is returned, and holds for every region of the query
    entries that cover exactly its points (for a write), or exactly its points that are
    recorded (for a read).  (For an object that is not known the size is wrong,
    [query_unknown_overflows].) *)
Theorem metadata_query_answered s qs is_write :
  metadata_ok dim s → 0 ≤ mq_query_id_g s → mq_query_id_g s + 1 < W64 → Forall (query_ok dim) qs →
  (is_write = true ∨ Forall (λ q, known s (to_region q)) qs) →
  (∀ s', updated s qs is_write = Some s' → lenZ (answer_bytes (answer s' <$> (to_region <$> qs))) < W64) →
  ∃ s' s'' ess,
    transfer_request_metadata_query_parse junk s (length qs) (qs ≫= query_region_bytes) is_write =
      Some (mq_query_id_g s, lenZ (answer_bytes ess), s') ∧ metadata_ok dim s' ∧
    transfer_request_metadata_query_lookup_query_buf s' (mq_query_id_g s) = (Some (answer_bytes ess), s'') ∧
    (transfer_request_metadata_query_lookup_query_buf s'' (mq_query_id_g s)).1 = None ∧
    Forall2 (λ q es, ∀ p, (∃ e, e ∈ es ∧ in_region e.1.2 e.2 p) ↔
      in_region (qr_offset q) (qr_size q) p ∧ (is_write = true ∨ covers s (qr_obj_id q) p)) qs ess.
Proof.
  intros. destruct (metadata_query_ok s qs is_write) as (s' & s'' & ess & ? & ? & ? & ? & _ & HF); [done..|].
  exists s', s'', ess. split_and!; try done. eapply Forall2_impl; [|exact HF]. by intros q es [_ ?].
Qed.

(** A query for a region of an object the server does not know runs past
    the end of its buffer: the size computed leaves out the counter that is
    written for it. *)
Theorem query_unknown_overflows s req :
  metadata_ok dim s → ¬ known s req → metadata_query_buf_create junk s [req] = None.
Proof.
  intros Hok Hk. unfold metadata_query_buf_create. cbn [count_loop].
  rewrite (obj_of_unknown dim s req Hok Hk). cbn [mbind option_bind count_loop]. rewrite decide_False by done.
  destruct (emit_filling _ _ _ (int_bytes (0 mod W32)) (filling_malloc junk 4 ltac:(lia))) as (st & -> & Hf);
    [autorewrite with wire; lia|]. cbn [mbind option_bind fill_loop].
  rewrite (obj_of_unknown dim s req Hok Hk). cbn [mbind option_bind].
  rewrite (emit_overflow _ _ _ _ Hf); [done|]. autorewrite with wire. lia.
Qed.
End Properties.

(** * Checkpoint and restart *)

Section Restart.
Context (dim : Z → nat) (junk : byte).
(** The words of memory found at the field [reg_offset] of a region. *)
Context (word : nat → nat → nat → list Z).

Definition raw_words (i j : nat) (n : Z) : list byte := u64s_bytes (word i j (Z.to_nat (n / 8))).

Fixpoint regions_image (i j n : nat) (regions : list pdc_region_metadata_pkg) : list byte :=
  match regions with
  | [] => []
  | r :: regions => u32_bytes (rm_data_server_id r) ++ u64s_bytes (word i j (n + n)) ++ regions_image i (S j) n regions
  end.
Fixpoint objs_image (i : nat) (objs : list pdc_obj_metadata_pkg) : list byte :=
  match objs with
  | [] => []
  | o :: objs =>
    u64_bytes (om_obj_id o) ++ int_bytes (Z.of_nat (om_ndim o) mod W32) ++
    int_bytes (Z.of_nat (length (om_regions o)) mod W32) ++
    regions_image i 0 (om_ndim o) (om_regions o) ++ objs_image (S i) objs
  end.
Definition image (objs : list pdc_obj_metadata_pkg) : list byte :=
  int_bytes (Z.of_nat (length objs) mod W32) ++ objs_image 0 objs.

(** What a restart reads: the regions' offsets and sizes are those words. *)
Fixpoint restored_regions (i j n : nat) (regions : list pdc_region_metadata_pkg) : list pdc_region_metadata_pkg :=
  match regions with
  | [] => []
  | r :: regions =>
    RegionMetadata (take n (word i j (n + n))) (drop n (word i j (n + n))) (rm_data_server_id r) :: restored_regions i (S j) n regions
  end.
Fixpoint restored (i : nat) (objs : list pdc_obj_metadata_pkg) : list pdc_obj_metadata_pkg :=
  match objs with
  | [] => []
  | o :: objs => ObjMetadata (om_ndim o) (om_obj_id o) (restored_regions i 0 (om_ndim o) (om_regions o)) :: restored (S i) objs
  end.

Context (word_ok : ∀ i j n, length (word i j n) = n ∧ Forall is_u64 (word i j n)).

Lemma raw_words_eq i j n : raw_words i j (8 * Z.of_nat n * 2) = u64s_bytes (word i j (n + n)).
Proof.
  unfold raw_words. replace (8 * Z.of_nat n * 2) with (Z.of_nat (n + n) * 8) by lia.
  by rewrite Z.div_mul, Nat2Z.id by lia.
Qed.

Lemma lenZ_word i j n : lenZ (word i j n) = Z.of_nat n.
Proof. unfold lenZ. by rewrite (proj1 (word_ok i j n)). Qed.

Lemma regions_image_size n regions : ∀ size i j, 0 ≤ size → size + lenZ (regions_image i j n regions) < W64 →
  foldl (λ size _, size +w (4 +w 8 *w 2 *w Z.of_nat n)) size regions = size + lenZ (regions_image i j n regions).
Proof.
  induction regions as [|r regions IH]; intros size i j H0 Hw; [unfold lenZ; simpl; lia|].
  cbn [regions_image foldl] in *. autorewrite with wire in *. rewrite lenZ_word in *.
  pose proof (lenZ_nonneg (regions_image i (S j) n regions)).
  assert (size +w (4 +w 8 *w 2 *w Z.of_nat n) = size + (4 + 16 * Z.of_nat n)) as ->.
  { rewrite (u64_id (8 * 2)), (u64_id (8 * 2 * _)), (u64_id (4 + _)), (u64_id (size + _)) by (unfold W64 in *; lia). lia. }
  rewrite (IH _ i (S j)) by lia. lia.
Qed.

Lemma objs_image_size objs : ∀ size i, 0 ≤ size → size + lenZ (objs_image i objs) < W64 →
  foldl (λ size o, foldl (λ size _, size +w (4 +w 8 *w 2 *w Z.of_nat (om_ndim o)))
                     (size +w (4 * 2 + 8)) (om_regions o)) size objs = size + lenZ (objs_image i objs).
Proof.
  induction objs as [|o objs IH]; intros size i H0 Hw; [unfold lenZ; simpl; lia|].
  cbn [objs_image foldl] in *. autorewrite with wire in *.
  pose proof (lenZ_nonneg (objs_image (S i) objs)). pose proof (lenZ_nonneg (regions_image i 0 (om_ndim o) (om_regions o))).
  rewrite (u64_id (size + _)), (regions_image_size _ _ _ i 0) by lia. rewrite (IH _ (S i)) by lia. lia.
Qed.

Lemma checkpoint_regions_spec i n regions : ∀ j cap w st,
  filling cap w st → lenZ w + lenZ (regions_image i j n regions) ≤ cap →
  ∃ st', checkpoint_regions raw_words i j n regions st = Some st' ∧ filling cap (w ++ regions_image i j n regions) st'.
Proof.
  induction regions as [|r regions IH]; intros j cap w st Hf Hcap; [exists st; by rewrite app_nil_r|].
  cbn [checkpoint_regions regions_image] in *. rewrite raw_words_eq. autorewrite with wire in Hcap.
  pose proof (lenZ_nonneg (regions_image i (S j) n regions)). pose proof (lenZ_nonneg (word i j (n + n))).
  destruct (emit_filling _ _ _ (u32_bytes (rm_data_server_id r)) Hf) as (st1 & -> & Hf1); [autorewrite with wire; lia|].
  cbn [mbind option_bind].
  destruct (emit_filling _ _ _ (u64s_bytes (word i j (n + n))) Hf1) as (st2 & -> & Hf2); [autorewrite with wire; lia|].
  cbn [mbind option_bind]. destruct (IH (S j) _ _ _ Hf2) as (st' & -> & Hf'); [autorewrite with wire; lia|].
  exists st'. split; [done|]. by rewrite <-!app_assoc in Hf'.
Qed.

Lemma checkpoint_objs_spec objs : ∀ i cap w st,
  filling cap w st → lenZ w + lenZ (objs_image i objs) ≤ cap →
  ∃ st', checkpoint_objs raw_words i objs st = Some st' ∧ filling cap (w ++ objs_image i objs) st'.
Proof.
  induction objs as [|o objs IH]; intros i cap w st Hf Hcap; [exists st; by rewrite app_nil_r|].
  cbn [checkpoint_objs objs_image] in *. autorewrite with wire in Hcap.
  pose proof (lenZ_nonneg (objs_image (S i) objs)). pose proof (lenZ_nonneg (regions_image i 0 (om_ndim o) (om_regions o))).
  destruct (emit_filling _ _ _ (u64_bytes (om_obj_id o)) Hf) as (st1 & -> & Hf1); [autorewrite with wire; lia|].
  cbn [mbind option_bind].
  destruct (emit_filling _ _ _ (int_bytes (Z.of_nat (om_ndim o) mod W32)) Hf1) as (st2 & -> & Hf2); [autorewrite with wire; lia|].
  cbn [mbind option_bind].
  destruct (emit_filling _ _ _ (int_bytes (Z.of_nat (length (om_regions o)) mod W32)) Hf2) as (st3 & -> & Hf3);
    [autorewrite with wire; lia|]. cbn [mbind option_bind].
  destruct (checkpoint_regions_spec i (om_ndim o) (om_regions o) 0 _ _ _ Hf3) as (st4 & -> & Hf4); [autorewrite with wire; lia|].
  cbn [mbind option_bind]. destruct (IH (S i) _ _ _ Hf4) as (st' & -> & Hf'); [autorewrite with wire; lia|].
  exists st'. split; [done|]. by rewrite <-!app_assoc in Hf'.
Qed.

(** The regions a restart can read: one or two per object. *)
Definition restartable (o : pdc_obj_metadata_pkg) : Prop :=
  (1 ≤ length (om_regions o) ≤ 2)%nat ∧ Z.of_nat (om_ndim o) < 2147483648 ∧ is_u64 (om_obj_id o) ∧
  Forall (λ r, 0 ≤ rm_data_server_id r < W32) (om_regions o).

Lemma init_region_spec buf ptr d i j n rest : at_off buf ptr (u32_bytes d ++ u64s_bytes (word i j (n + n)) ++ rest) → 0 ≤ d < W32 →
  init_region buf ptr n = Some (RegionMetadata (take n (word i j (n + n))) (drop n (word i j (n + n))) d, ptr + 4 + 8 * Z.of_nat n * 2) ∧
  at_off buf (ptr + 4 + 8 * Z.of_nat n * 2) rest.
Proof.
  intros H1 Hd. unfold init_region. rewrite (load_u32_at _ _ _ _ H1) by done. cbn [mbind option_bind].
  pose proof (at_off_app _ _ _ _ (ptr + 4) H1 ltac:(by rewrite lenZ_u32_bytes)) as H2.
  rewrite (load_u64s_at _ _ _ (n + n) _ H2); [|by rewrite (proj1 (word_ok _ _ _))|apply word_ok]. split; [done|].
  eapply at_off_app; [exact H2|]. rewrite lenZ_u64s_bytes, lenZ_word. lia.
Qed.

Lemma init_objs_spec objs : ∀ buf ptr i rest,
  Forall restartable objs → at_off buf ptr (objs_image i objs ++ rest) → init_objs buf ptr (length objs) = Some (restored i objs).
Proof.
  induction objs as [|o objs IH]; intros buf ptr i rest Hr Hat; [done|].
  apply list.Forall_cons in Hr as [(Hlen & Hn & Hid & Hsv) Hr].
  cbn [objs_image length init_objs restored] in *. rewrite <-!app_assoc in Hat.
  rewrite (load_u64_at _ _ _ _ Hat) by done. cbn [mbind option_bind].
  pose proof (at_off_app _ _ _ _ (ptr + 8) Hat ltac:(by rewrite lenZ_u64_bytes)) as H1.
  rewrite (load_int_at _ _ _ _ H1) by lia. cbn [mbind option_bind].
  pose proof (at_off_app _ _ _ _ (ptr + 12) H1 ltac:(rewrite lenZ_int_bytes; lia)) as H2.
  rewrite (load_int_at _ _ _ _ H2) by lia. cbn [mbind option_bind].
  pose proof (at_off_app _ _ _ _ (ptr + 16) H2 ltac:(rewrite lenZ_int_bytes; lia)) as H3.
  rewrite decide_False by lia. rewrite Nat2Z.id.
  destruct (om_regions o) as [|r0 [|r1 [|]]]; simpl in Hlen; [lia| | |lia]; cbn [regions_image length] in *;
    rewrite <-!app_assoc in H3; apply list.Forall_cons in Hsv as [Hd0 Hsv];
    (destruct (init_region_spec _ _ _ _ _ _ _ H3 Hd0) as [-> H4]); cbn [mbind option_bind].
  - change (Z.to_nat (Z.of_nat 1 - 1)) with 0%nat. cbn [init_regions mbind option_bind].
    by rewrite (IH _ _ _ _ Hr H4).
  - change (Z.to_nat (Z.of_nat 2 - 1)) with 1%nat. apply list.Forall_cons in Hsv as [Hd1 _]. cbn [init_regions].
    destruct (init_region_spec _ _ _ _ _ _ _ H4 Hd1) as [-> H5]. cbn [mbind option_bind init_regions].
    by rewrite (IH _ _ _ _ Hr H5).
Qed.

(** A restart from a checkpoint restores every object, the number of its
    regions and their servers; but the offsets and sizes are the words found at
    the address of the field [reg_offset], which holds a pointer, and the end of
    the object list is not marked, so a search for another object runs past
    it. *)
Theorem restart_from_checkpoint s nservers obj :
  metadata_ok dim s → Forall restartable (mq_objs s) → mq_objs s ≠ [] → lenZ (mq_objs s) < 2147483648 →
  lenZ (image (mq_objs s)) < W64 → obj ∉ om_obj_id <$> mq_objs s →
  ∃ buf s', transfer_request_metadata_query_checkpoint junk raw_words s = Some buf ∧
    transfer_request_metadata_query_init nservers (Some buf) = Some s' ∧
    mq_objs s' = restored 0 (mq_objs s) ∧
    find_obj (mq_objs s') (mq_terminated s') obj = None.
Proof.
  intros [Ht _ _ _ _] Hr Hne Hlen Hw Hobj. unfold transfer_request_metadata_query_checkpoint. rewrite Ht.
  unfold lenZ in Hlen. unfold image in Hw. autorewrite with wire in Hw. pose proof (lenZ_nonneg (objs_image 0 (mq_objs s))).
  assert (checkpoint_size (mq_objs s) = 4 + lenZ (objs_image 0 (mq_objs s))) as ->.
  { unfold checkpoint_size. apply objs_image_size; lia. }
  destruct (emit_filling _ _ _ (int_bytes (Z.of_nat (length (mq_objs s)) mod W32)) (filling_malloc junk (4 + lenZ (objs_image 0 (mq_objs s))) ltac:(lia)))
    as (st1 & -> & Hf1); [autorewrite with wire; lia|]. cbn [mbind option_bind].
  destruct (checkpoint_objs_spec (mq_objs s) 0 _ _ _ Hf1) as ([buf ptr] & -> & Hf2); [autorewrite with wire; lia|].
  cbn [mbind option_bind]. apply filling_full in Hf2 as ->; [|autorewrite with wire; lia].
  eexists _, _. split; [reflexivity|]. split.
  - unfold transfer_request_metadata_query_init. rewrite (load_int_at _ 0 (Z.of_nat (length (mq_objs s))) (objs_image 0 (mq_objs s))); [|apply at_off_0|lia].
    cbn [mbind option_bind]. rewrite Nat2Z.id, (init_objs_spec _ _ _ 0 [] Hr); [reflexivity|].
    rewrite app_nil_r. eapply at_off_app; [apply at_off_0|]. autorewrite with wire; lia.
  - split; [reflexivity|]. simpl. rewrite bool_decide_false by (destruct (mq_objs s); done). clear -Hobj. revert Hobj. generalize 0%nat.
    induction (mq_objs s) as [|o objs IH]; intros i Hobj; simpl; [done|].
    apply not_elem_of_cons in Hobj as [? Hobj]. rewrite decide_False by (simpl; congruence). by rewrite IH.
Qed.
End Restart.

(** A checkpoint of an object with three or more regions cannot be read
    back: the server follows a NULL pointer. *)
Theorem restart_three_regions nservers buf obj ndim reg_count :
  load_int buf 0 = Some 1 → load_u64 buf 4 = Some obj → load_int buf 12 = Some ndim → load_int buf 16 = Some reg_count →
  3 ≤ reg_count → transfer_request_metadata_query_init nservers (Some buf) = None.
Proof.
  intros H1 H2 H3 H4 Hc. unfold transfer_request_metadata_query_init. rewrite H1. cbn [mbind option_bind].
  change (Z.to_nat 1) with 1%nat. cbn [init_objs]. change (4 + 8) with 12. change (4 + 12) with 16. rewrite H2. cbn [mbind option_bind]. rewrite H3. cbn [mbind option_bind].
  rewrite H4. cbn [mbind option_bind]. case_decide; [done|].
  destruct (init_region buf (4 + 16) _) as [[r ptr]|]; cbn [mbind option_bind]; [|done].
  replace (Z.to_nat (reg_count - 1)) with (S (S (Z.to_nat (reg_count - 3)))) by lia. cbn [init_regions].
  by destruct (init_region buf ptr _) as [[r1 ptr1]|].
Qed.

(** * The properties at concrete inputs *)

(** Two data servers; of the object 7 the elements 0..9 are recorded, on the
    server 1. *)
Definition ex_metadata : metadata_state :=
  MetadataState [ObjMetadata 1 7 [RegionMetadata [0] [10] 1]] true [50; 20] 100000 [].

Lemma ex_metadata_ok : metadata_ok (λ _, 1%nat) ex_metadata.
Proof.
  split; simpl.
  - reflexivity.
  - apply NoDup_singleton.
  - apply list.Forall_singleton. split; [reflexivity|]. apply list.Forall_singleton. split; [wf_concrete|simpl; unfold W32; lia].
  - split; [vm_compute; intuition congruence|]. repeat constructor; unfold W64; lia.
  - split; [constructor|constructor].
Qed.

(** A write of the elements 5..14, to be placed by the server. *)
Definition ex_query : query_region := QueryRegion 7 0 PDC_REGION_DYNAMIC 4 [5] [10].

Lemma ex_query_ok : query_ok (λ _, 1%nat) ex_query.
Proof.
  split; [|wf_concrete]. split; simpl; try (unfold is_u64, W64, W32, PDC_REGION_DYNAMIC; lia); try reflexivity;
    repeat constructor; unfold W64; lia.
Qed.

Lemma query_append_records_witness :
  ∃ s', transfer_request_metadata_query_append ex_metadata 7 1 [5] [10] 4 0 PDC_REGION_DYNAMIC = Some (1, s') ∧
    covers s' 7 [14] ∧ mq_data_server_bytes s' = [50; 60].
Proof.
  destruct (query_append_records (λ _, 1%nat) ex_metadata 7 [5] [10] 4 0 PDC_REGION_DYNAMIC ex_metadata_ok) as (server & s' & Hrun & _ & Hcov & _).
  - wf_concrete.
  - unfold W32. lia.
  - exists s'. split; [|split].
    + rewrite Hrun. vm_compute in Hrun. injection Hrun as <- _. reflexivity.
    + apply Hcov. right. split; [reflexivity|]. simpl. lia.
    + vm_compute in Hrun. injection Hrun as _ <-. reflexivity.
Defined.

Lemma metadata_query_answered_witness :
  ∃ s' s'' es e, transfer_request_metadata_query_parse 0 ex_metadata 1 ([ex_query] ≫= query_region_bytes) true =
      Some (100000, lenZ (answer_bytes [es]), s') ∧
    transfer_request_metadata_query_lookup_query_buf s' 100000 = (Some (answer_bytes [es]), s'') ∧
    e ∈ es ∧ in_region e.1.2 e.2 [14].
Proof.
  destruct (metadata_query_answered (λ _, 1%nat) 0 ex_metadata [ex_query] true ex_metadata_ok) as (s' & s'' & ess & Hrun & _ & Hl & _ & Hc).
  - vm_compute. congruence.
  - reflexivity.
  - apply list.Forall_singleton, ex_query_ok.
  - left. reflexivity.
  - intros s' Hs'. vm_compute in Hs'. injection Hs' as <-. reflexivity.
  - apply Forall2_cons_inv_l in Hc as (es & ess' & Hes & Hnil & ->). apply Forall2_nil_inv_l in Hnil as ->.
    destruct (proj2 (Hes [14])) as (e & He & Hp); [split; [simpl; lia|by left]|].
    exists s', s'', es, e. split; [exact Hrun|]. split; [exact Hl|]. split; [exact He|exact Hp].
Defined.

Lemma query_unknown_overflows_witness :
  metadata_query_buf_create 0 ex_metadata [ObjRegion 8 [0] [1] 1] = None.
Proof.
  apply (query_unknown_overflows (λ _, 1%nat) 0 ex_metadata (ObjRegion 8 [0] [1] 1) ex_metadata_ok).
  unfold known. simpl. intros H%list_elem_of_singleton. discriminate.
Defined.

Lemma restart_from_checkpoint_witness :
  ∃ buf s', transfer_request_metadata_query_checkpoint 0 (raw_words (λ _ _ n, replicate n 4096)) ex_metadata = Some buf ∧
    transfer_request_metadata_query_init 2 (Some buf) = Some s' ∧
    mq_objs s' = [ObjMetadata 1 7 [RegionMetadata [4096] [4096] 1]].
Proof.
  destruct (restart_from_checkpoint (λ _, 1%nat) 0 (λ _ _ n, replicate n 4096)) with (s := ex_metadata) (nservers := 2%nat) (obj := 8)
    as (buf & s' & Hc & Hi & Hobjs & _).
  - intros i j n. split; [apply length_replicate|]. apply Forall_replicate. unfold is_u64, W64. lia.
  - exact ex_metadata_ok.
  - repeat constructor; simpl; unfold W64, W32; lia.
  - discriminate.
  - vm_compute. reflexivity.
  - vm_compute. reflexivity.
  - intros H%list_elem_of_singleton. discriminate.
  - exists buf, s'. split; [exact Hc|]. split; [exact Hi|]. rewrite Hobjs. reflexivity.
Defined.

Lemma restart_three_regions_witness :
  transfer_request_metadata_query_init 2
    (Some (int_bytes 1 ++ u64_bytes 7 ++ int_bytes 1 ++ int_bytes 3 ++ replicate 60 0)) = None.
Proof. apply (restart_three_regions 2 _ 7 1 3); [reflexivity..|lia]. Defined.
