(* ===== verification/IdInterface.v ===== *)
(** The library's identifiers ([src/src/utils/pdc_interface.c],
    [src/src/commons/utils/include/pdc_id_pkg.h]): a reference-counted object of
    one of a few types is registered in the list of its type and gets an ID that
    carries the type.  Below it the doubly linked list of
    [src/src/commons/utils/include/pdc_linkedlist.h], with its pointers. *)

From S2P Require Export Prelude.
From stdpp Require Import list gmap sets.
#[local] Open Scope Z_scope.

(** * The linked list *)

(** The nodes are in memory.  [prev] is the address of the pointer that points
    to the node: the head of the list, or the field [next] of a node. *)
Inductive link := Head | NextOf (l : Z).

Record node := Node { nd_next : option Z; nd_prev : link }.

Record list_mem := ListMem { lm_head : option Z; lm_nodes : gmap Z node }.

(** [*prev = p] *)
Definition set_link (m : list_mem) (a : link) (p : option Z) : option list_mem :=
  match a with
  | Head => Some (ListMem p (lm_nodes m))
  | NextOf l => n ← lm_nodes m !! l; Some (ListMem (lm_head m) (<[l := Node p (nd_prev n)]> (lm_nodes m)))
  end.

(** [next->prev = a], where [next] may be NULL *)
Definition set_prev (m : list_mem) (p : option Z) (a : link) : option list_mem :=
  match p with
  | None => Some m
  | Some l => n ← lm_nodes m !! l; Some (ListMem (lm_head m) (<[l := Node (nd_next n) a]> (lm_nodes m)))
  end.

Definition PDC_LIST_INIT (nodes : gmap Z node) : list_mem := ListMem None nodes.
Definition PDC_LIST_IS_EMPTY (m : list_mem) : bool := bool_decide (lm_head m = None).

(** The node [entry] has been allocated. *)
Definition PDC_LIST_INSERT_HEAD (m : list_mem) (entry : Z) : option list_mem :=
  n ← lm_nodes m !! entry;
  let m := ListMem (lm_head m) (<[entry := Node (lm_head m) (nd_prev n)]> (lm_nodes m)) in
  m ← set_prev m (lm_head m) (NextOf entry);
  n ← lm_nodes m !! entry;
  Some (ListMem (Some entry) (<[entry := Node (nd_next n) Head]> (lm_nodes m))).

Definition PDC_LIST_REMOVE (m : list_mem) (entry : Z) : option list_mem :=
  n ← lm_nodes m !! entry;
  m ← set_prev m (nd_next n) (nd_prev n);
  set_link m (nd_prev n) (nd_next n).

(** The list the memory holds: a segment starts at the pointer [from], stored at
    [prev], and ends with the pointer [to]. *)
Fixpoint segment (nodes : gmap Z node) (from : option Z) (prev : link) (l : list Z) (to : option Z) : Prop :=
  match l with
  | [] => from = to
  | x :: l => from = Some x ∧ ∃ next, nodes !! x = Some (Node next prev) ∧ segment nodes next (NextOf x) l to
  end.
Definition holds (m : list_mem) (l : list Z) : Prop := NoDup l ∧ segment (lm_nodes m) (lm_head m) Head l None.

(** The address of the pointer behind a segment. *)
Definition last_link (prev : link) (l : list Z) : link := match last l with Some y => NextOf y | None => prev end.

Lemma segment_frame nodes nodes' l : ∀ from prev to,
  (∀ x, x ∈ l → nodes' !! x = nodes !! x) → segment nodes from prev l to → segment nodes' from prev l to.
Proof.
  induction l as [|x l IH]; intros from prev to Hf; simpl; [done|]. intros (-> & next & Hx & Hs).
  split; [done|]. exists next. split; [rewrite Hf; set_solver|]. apply IH; set_solver.
Qed.

Lemma segment_app nodes l1 l2 : ∀ from prev to,
  segment nodes from prev (l1 ++ l2) to ↔
  ∃ mid, segment nodes from prev l1 mid ∧ segment nodes mid (last_link prev l1) l2 to.
Proof.
  induction l1 as [|x l1 IH]; intros from prev to; simpl; [naive_solver|].
  assert (last_link prev (x :: l1) = last_link (NextOf x) l1) as ->.
  { unfold last_link. rewrite last_cons. by destruct (last l1). }
  setoid_rewrite IH. naive_solver.
Qed.

(** Changing the [prev] of the first node of a segment. *)
Lemma segment_set_prev nodes h from prev prev' l :
  NoDup l → segment nodes from prev l None →
  ∃ nodes', set_prev (ListMem h nodes) from prev' = Some (ListMem h nodes') ∧ segment nodes' from prev' l None ∧
    ∀ x, x ∉ l → nodes' !! x = nodes !! x.
Proof.
  destruct l as [|x l]; simpl; intros Hnd; [intros ->; by exists nodes|].
  intros (-> & next & Hx & Hs). unfold set_prev. simpl. rewrite Hx. simpl. eexists. split; [done|]. split.
  - split; [done|]. exists next. split; [apply lookup_insert_eq|].
    apply NoDup_cons in Hnd as [Hni _]. eapply segment_frame; [|exact Hs].
    intros y Hy. rewrite lookup_insert_ne; [done|]. by intros ->.
  - intros y Hy. rewrite lookup_insert_ne; set_solver.
Qed.

Lemma insert_head_holds m l entry : holds m l → entry ∉ l → is_Some (lm_nodes m !! entry) →
  ∃ m', PDC_LIST_INSERT_HEAD m entry = Some m' ∧ holds m' (entry :: l) ∧
    ∀ x, x ∉ entry :: l → lm_nodes m' !! x = lm_nodes m !! x.
Proof.
  intros [Hnd Hseg] Hni [n Hn]. destruct m as [h nodes]. simpl in *. unfold PDC_LIST_INSERT_HEAD. simpl. rewrite Hn. simpl.
  destruct (segment_set_prev (<[entry := Node h (nd_prev n)]> nodes) h h Head (NextOf entry) l Hnd)
    as (nodes' & -> & Hseg' & Hframe).
  { eapply segment_frame; [|exact Hseg]. intros x Hx. rewrite lookup_insert_ne; set_solver. }
  simpl. rewrite (Hframe entry Hni), lookup_insert_eq. simpl. eexists. split; [done|]. split.
  - split; [by apply NoDup_cons|]. simpl. split; [done|]. exists h. split; [apply lookup_insert_eq|].
    eapply segment_frame; [|exact Hseg']. intros x Hx. rewrite lookup_insert_ne; set_solver.
  - simpl. intros x Hx. rewrite lookup_insert_ne, Hframe, lookup_insert_ne; set_solver.
Qed.

Lemma remove_holds m l1 entry l2 : holds m (l1 ++ entry :: l2) →
  ∃ m', PDC_LIST_REMOVE m entry = Some m' ∧ holds m' (l1 ++ l2) ∧
    ∀ x, x ∉ l1 ++ l2 → lm_nodes m' !! x = lm_nodes m !! x.
Proof.
  intros [Hnd Hseg]. destruct m as [h nodes]. simpl in *.
  apply segment_app in Hseg as (mid & H1 & -> & next & He & H2).
  apply NoDup_app in Hnd as (Hnd1 & Hdisj & [Hni Hnd2]%NoDup_cons).
  unfold PDC_LIST_REMOVE. simpl. rewrite He. simpl.
  destruct (segment_set_prev nodes h next (NextOf entry) (last_link Head l1) l2 Hnd2 H2) as (nodes' & -> & H2' & Hframe). simpl.
  assert (segment nodes' h Head l1 (Some entry)) as H1'.
  { eapply segment_frame; [|exact H1]. intros x Hx. apply Hframe. intros Hx2. apply (Hdisj x Hx). set_solver. }
  assert (NoDup (l1 ++ l2)) as Hnd by (apply NoDup_app; split; [done|]; split; [intros x Hx Hx2; apply (Hdisj x Hx); set_solver|done]).
  destruct l1 as [|y l1 _] using rev_ind.
  - simpl in *. eexists. split; [done|]. split; [by split|]. exact Hframe.
  - unfold last_link in *. rewrite last_snoc in *. simpl.
    apply segment_app in H1' as (mid & H1' & -> & next' & Hy & ->). rewrite Hy. simpl.
    rewrite <-app_assoc in *. simpl in *. eexists. split; [done|]. split; [split; [done|]|]; simpl.
    + apply segment_app. exists (Some y). apply NoDup_app in Hnd as (_ & Hdy & [Hy2 _]%NoDup_cons).
      split; [eapply segment_frame; [|exact H1']; intros x Hx; rewrite lookup_insert_ne; [done|]; intros ->; apply (Hdy x Hx); set_solver|].
      split; [done|]. exists next. split; [by rewrite lookup_insert_eq|].
      eapply segment_frame; [|exact H2']. intros x Hx. rewrite lookup_insert_ne; set_solver.
    + intros x Hx. rewrite lookup_insert_ne, Hframe; set_solver.
Qed.

(** * Identifiers *)

(** [pdcid_t] is a [uint64_t]. *)
Definition TYPE_BITS : Z := 8.
Definition TYPE_MASK : Z := Z.shiftl 1 TYPE_BITS - 1.
Definition ID_BITS : Z := 8 * 8 - (TYPE_BITS + 1).
Definition ID_MASK : Z := Z.shiftl 1 ID_BITS - 1.

Definition PDC_TYPE (a : Z) : Z := Z.land (Z.shiftr a ID_BITS) TYPE_MASK.
Definition PDCID_MAKE (g i : Z) : Z := Z.lor (u64 (Z.shiftl (Z.land g TYPE_MASK) ID_BITS)) (Z.land i ID_MASK).

Definition PDC_BADID : Z := -1.
Definition PDC_NTYPES : Z := 8.
Definition PDC_next_type : Z := PDC_NTYPES.
Definition PDC_MAX_NUM_TYPES : Z := TYPE_MASK.

(** [_pdc_id_info] without the list pointers; [obj_ptr] names the object. *)
Record id_info := IdInfo { id_id : Z; id_count : Z; id_obj_ptr : Z }.

(** [PDC_id_type]; [free_func] names the function, [None] for NULL; [ids] is the
    list, its head first. *)
Record id_type := IdType {
  ty_free_func : option Z;
  ty_type_id : Z;
  ty_init_count : Z;
  ty_id_count : Z;
  ty_nextid : Z;
  ty_ids : list id_info }.

(** [PDC_id_type_list_g]: a type that is missing is NULL in the table; [None]
    in the table is a pointer to memory that [PDC_destroy_type] has freed. *)
Abbreviation id_table := (gmap Z (option id_type)).

(** [PDC_LIST_SEARCH] looks at the field of the node before it tests the pointer:
    [None], at the end of the list, is the dereference of NULL. *)
Fixpoint PDC_LIST_SEARCH (ids : list id_info) (value : Z) : option id_info :=
  match ids with
  | [] => None
  | x :: ids => if decide (id_id x ≠ value) then PDC_LIST_SEARCH ids value else Some x
  end.

(** The result of the code is [Some None] for NULL. *)
Definition PDC_find_id (tbl : id_table) (idid : Z) : option (option id_info) :=
  let type := PDC_TYPE idid in
  if decide (type ≤ PDC_BADID ∨ type >= PDC_next_type) then Some None
  else
    match tbl !! type with
    | None => Some None
    | Some None => None
    | Some (Some type_ptr) =>
        if decide (ty_init_count type_ptr ≤ 0) then Some None
        else x ← PDC_LIST_SEARCH (ty_ids type_ptr) idid; Some (Some x)
    end.

(** [None] also for a failing assertion.  [mem]: whether [PDC_calloc] succeeds. *)
Definition PDC_register_type (tbl : id_table) (mem : bool) (type_id : Z) (free_func : option Z) : option (perr_t * id_table) :=
  if decide (type_id > 0 ∧ type_id < PDC_MAX_NUM_TYPES) then
    match tbl !! type_id with
    | Some None => None
    | type_ptr =>
        let type_ptr :=
          match type_ptr with
          | Some (Some t) => Some t
          | _ => if mem then Some (IdType None 0 0 0 0 []) else None
          end in
        match type_ptr with
        | None => Some (FAIL, tbl)
        | Some t =>
            let t := if decide (ty_init_count t = 0)
                     then IdType free_func type_id (ty_init_count t) 0 0 [] else t in
            Some (SUCCEED, <[type_id := Some (IdType (ty_free_func t) (ty_type_id t) (u32 (ty_init_count t + 1))
                                                (ty_id_count t) (ty_nextid t) (ty_ids t))]> tbl)
        end
    end
  else None.

(** The ID is 0 on failure. *)
Definition PDC_id_register (tbl : id_table) (mem : bool) (type : Z) (object : Z) : option (Z * id_table) :=
  if decide (type ≤ PDC_BADID ∨ type >= PDC_next_type) then Some (0, tbl)
  else
    match tbl !! type with
    | None => Some (0, tbl)
    | Some None => None
    | Some (Some t) =>
        if decide (ty_init_count t ≤ 0) then Some (0, tbl)
        else if negb mem then Some (0, tbl)
        else
          let new_id := PDCID_MAKE type (ty_nextid t) in
          let t := IdType (ty_free_func t) (ty_type_id t) (ty_init_count t) (u32 (ty_id_count t + 1))
                     (ty_nextid t +w 1) (IdInfo new_id 1 object :: ty_ids t) in
          if decide (ty_nextid t ≤ ID_MASK) then Some (new_id, <[type := Some t]> tbl) else None
    end.

(** Changing and removing the node that a search finds. *)
Fixpoint set_count (ids : list id_info) (id count : Z) : list id_info :=
  match ids with
  | [] => []
  | x :: ids => if decide (id_id x = id) then IdInfo id count (id_obj_ptr x) :: ids else x :: set_count ids id count
  end.
Fixpoint remove_node (ids : list id_info) (id : Z) : list id_info :=
  match ids with
  | [] => []
  | x :: ids => if decide (id_id x = id) then ids else x :: remove_node ids id
  end.

Section Free.
(** What the free functions return for an object. *)
Context (free_obj : Z → Z → Z).

Definition free_ok (t : id_type) (obj : Z) : bool :=
  match ty_free_func t with None => true | Some f => bool_decide (free_obj f obj >= 0) end.

Definition update_count (t : id_type) (id count : Z) : id_type :=
  IdType (ty_free_func t) (ty_type_id t) (ty_init_count t) (ty_id_count t) (ty_nextid t) (set_count (ty_ids t) id count).

Definition PDC_dec_ref (tbl : id_table) (id : Z) : option (Z * id_table) :=
  id_ptr ← PDC_find_id tbl id;
  match id_ptr with
  | None => Some (FAIL, tbl)
  | Some x =>
      t ← mjoin (tbl !! (PDC_TYPE id));
      let count := i32 (id_count x - 1) in
      let t := update_count t id count in
      if decide (count = 0) then
        if free_ok t (id_obj_ptr x) then
          if bool_decide (ty_ids t = []) then Some (FAIL, <[PDC_TYPE id := Some t]> tbl)
          else
            Some (0, <[PDC_TYPE id := Some (IdType (ty_free_func t) (ty_type_id t) (ty_init_count t) (u32 (ty_id_count t - 1))
                                            (ty_nextid t) (remove_node (ty_ids t) id))]> tbl)
        else Some (FAIL, <[PDC_TYPE id := Some t]> tbl)
      else Some (count, <[PDC_TYPE id := Some t]> tbl)
  end.

Definition PDC_inc_ref (tbl : id_table) (id : Z) : option (Z * id_table) :=
  id_ptr ← PDC_find_id tbl id;
  match id_ptr with
  | None => Some (0, tbl)
  | Some x =>
      t ← mjoin (tbl !! (PDC_TYPE id));
      let count := i32 (id_count x + 1) in
      Some (count, <[PDC_TYPE id := Some (update_count t id count)]> tbl)
  end.

(** [is_name obj]: the name of the container is the one searched for. *)
Definition PDC_find_byname (tbl : id_table) (type : Z) (is_name : Z → bool) : option Z :=
  if decide (type ≤ PDC_BADID ∨ type >= PDC_next_type) then Some 0
  else t ← mjoin (tbl !! type);
       match List.find (λ x, is_name (id_obj_ptr x)) (ty_ids t) with Some x => Some (id_id x) | None => Some 0 end.

Definition PDC_id_list_null (tbl : id_table) (type : Z) : option Z :=
  if decide (type ≤ PDC_BADID ∨ type >= PDC_next_type) then Some FAIL
  else t ← mjoin (tbl !! type); Some (if decide (ty_id_count t ≠ 0) then i32 (ty_id_count t) else 0).

(** [while (!PDC_LIST_IS_EMPTY(&type_ptr->ids))] *)
Fixpoint clear_loop (fuel : nat) (t : id_type) (ret_value : perr_t) : option (perr_t * id_type) :=
  match ty_ids t with
  | [] => Some (ret_value, t)
  | x :: ids =>
    match fuel with
    | O => None
    | S fuel =>
      if free_ok t (id_obj_ptr x)
      then clear_loop fuel (IdType (ty_free_func t) (ty_type_id t) (ty_init_count t) (u32 (ty_id_count t - 1))
                              (ty_nextid t) ids) ret_value
      else clear_loop fuel t FAIL
    end
  end.
Definition PDC_id_list_clear (fuel : nat) (tbl : id_table) (type : Z) : option (perr_t * id_table) :=
  t ← mjoin (tbl !! type);
  '(ret_value, t) ← clear_loop fuel t SUCCEED;
  Some (ret_value, <[type := Some t]> tbl).

(** The table keeps the pointer to the freed type. *)
Definition PDC_destroy_type (tbl : id_table) (type : Z) : option (perr_t * id_table) :=
  match tbl !! type with
  | None => Some (FAIL, tbl)
  | Some None => None
  | Some (Some _) => Some (SUCCEED, <[type := None]> tbl)
  end.
End Free.

(** * Lemmas *)

Lemma lor_shiftl_low g i n : 0 ≤ n → 0 ≤ i < 2 ^ n → Z.lor (Z.shiftl g n) i = g * 2 ^ n + i.
Proof.
  intros Hn Hi. rewrite <-Z.shiftl_mul_pow2 by done.
  assert (Z.land (Z.shiftl g n) i = 0) as Hl.
  { apply Z.bits_inj'. intros k Hk. rewrite Z.land_spec, Z.bits_0. destruct (decide (k < n)).
    - by rewrite Z.shiftl_spec_low.
    - rewrite <-(Z.mod_small i (2 ^ n)), Z.mod_pow2_bits_high, andb_false_r by lia. done. }
  rewrite <-Z.lxor_lor, <-Z.add_nocarry_lxor by done. done.
Qed.

Lemma PDCID_MAKE_eq g i : 0 ≤ g ≤ TYPE_MASK → 0 ≤ i ≤ ID_MASK → PDCID_MAKE g i = g * 2 ^ ID_BITS + i.
Proof.
  intros Hg Hi. unfold PDCID_MAKE.
  assert (Z.land g TYPE_MASK = g) as ->.
  { change TYPE_MASK with (Z.ones 8). rewrite Z.land_ones by done. apply Z.mod_small. exact (conj (proj1 Hg) (Zle_lt_succ _ _ (proj2 Hg))). }
  assert (Z.land i ID_MASK = i) as ->.
  { change ID_MASK with (Z.ones 55). rewrite Z.land_ones by done. apply Z.mod_small. exact (conj (proj1 Hi) (Zle_lt_succ _ _ (proj2 Hi))). }
  rewrite u64_id; [apply lor_shiftl_low; [done|]; exact (conj (proj1 Hi) (Zle_lt_succ _ _ (proj2 Hi)))|].
  rewrite Z.shiftl_mul_pow2 by done. change (2 ^ ID_BITS) with 36028797018963968. change TYPE_MASK with 255 in Hg. unfold W64. lia.
Qed.

Lemma PDC_TYPE_MAKE g i : 0 ≤ g ≤ TYPE_MASK → 0 ≤ i ≤ ID_MASK → PDC_TYPE (PDCID_MAKE g i) = g.
Proof.
  intros Hg Hi. rewrite PDCID_MAKE_eq by done. unfold PDC_TYPE. rewrite Z.shiftr_div_pow2 by done.
  change (2 ^ ID_BITS) with 36028797018963968. change ID_MASK with 36028797018963967 in Hi.
  rewrite Z.div_add_l, (Z.div_small i), Z.add_0_r by lia.
  change TYPE_MASK with (Z.ones 8) in *. rewrite Z.land_ones by done. apply Z.mod_small. change (Z.ones 8) with 255 in Hg.
  change (2 ^ 8) with 256. lia.
Qed.

Lemma PDCID_MAKE_inj g i j : 0 ≤ g ≤ TYPE_MASK → 0 ≤ i ≤ ID_MASK → 0 ≤ j ≤ ID_MASK → PDCID_MAKE g i = PDCID_MAKE g j → i = j.
Proof. intros. rewrite !PDCID_MAKE_eq in * by done. lia. Qed.

(** The state of one type.  *)
Record type_ok (ty : Z) (t : id_type) : Prop := {
  to_init : 0 < ty_init_count t;
  to_type : ty_type_id t = ty;
  to_count : ty_id_count t = lenZ (ty_ids t) ∧ lenZ (ty_ids t) < W32;
  to_next : 0 ≤ ty_nextid t ≤ ID_MASK;
  to_nodup : NoDup (id_id <$> ty_ids t);
  to_ids : Forall (λ x, (∃ k, 0 ≤ k < ty_nextid t ∧ id_id x = PDCID_MAKE ty k) ∧ 0 < id_count x < 2147483648) (ty_ids t) }.

(** Library types have numbers from 0 on; no type has been destroyed. *)
Definition table_ok (tbl : id_table) : Prop :=
  ∀ ty e, tbl !! ty = Some e → 0 ≤ ty < PDC_next_type ∧ ∃ t, e = Some t ∧ type_ok ty t.

(** The abstract state: the objects that are registered. *)
Definition registered (tbl : id_table) (id : Z) : option id_info :=
  match tbl !! PDC_TYPE id with
  | Some (Some t) => snd <$> list_find (λ x, id_id x = id) (ty_ids t)
  | _ => None
  end.

Lemma search_spec ids id : PDC_LIST_SEARCH ids id = snd <$> list_find (λ x, id_id x = id) ids.
Proof.
  induction ids as [|x ids IH]; simpl; [done|]. destruct (decide (id_id x = id)).
  - by rewrite decide_False by tauto.
  - rewrite decide_True by done. rewrite IH. by destruct (list_find _ ids) as [[]|].
Qed.

Lemma list_find_elem ids id x : snd <$> list_find (λ x, id_id x = id) ids = Some x → x ∈ ids ∧ id_id x = id.
Proof.
  destruct (list_find _ ids) as [[i y]|] eqn:E; [|done]. intros [= <-].
  apply list_find_Some in E as (Hi & <- & _). split; [by eapply list_elem_of_lookup_2|done].
Qed.

Lemma list_find_update ids id f id' :
  (∀ x, id_id (f x) = id_id x) → NoDup (id_id <$> ids) →
  snd <$> list_find (λ x, id_id x = id') ((λ x, if decide (id_id x = id) then f x else x) <$> ids) =
    (λ x, if decide (id_id x = id) then f x else x) <$> (snd <$> list_find (λ x, id_id x = id') ids).
Proof.
  intros Hf. induction ids as [|x ids IH]; [done|]. rewrite fmap_cons. intros [_ Hnd]%NoDup_cons. specialize (IH Hnd).
  cbn [fmap list_fmap list_find]. assert (id_id (if decide (id_id x = id) then f x else x) = id_id x) as Hid by (case_decide; auto).
  destruct (decide (id_id x = id')) as [E|E].
  - rewrite decide_True by congruence. done.
  - rewrite decide_False by congruence. fold (fmap (M := list) (λ x, if decide (id_id x = id) then f x else x) ids).
    destruct (list_find _ (_ <$> ids)) as [[]|], (list_find _ ids) as [[]|]; done.
Qed.

Lemma set_count_fmap ids id c : NoDup (id_id <$> ids) →
  set_count ids id c = (λ x, if decide (id_id x = id) then IdInfo (id_id x) c (id_obj_ptr x) else x) <$> ids.
Proof.
  induction ids as [|x ids IH]; [done|]. rewrite !fmap_cons. intros [Hni Hnd]%NoDup_cons. simpl. case_decide as E.
  - subst id. f_equal. symmetry. clear IH Hnd. induction ids as [|y ids IH]; [done|]. rewrite fmap_cons in *.
    apply not_elem_of_cons in Hni as [Hne Hni]. simpl. rewrite decide_False by congruence. f_equal. by apply IH.
  - by rewrite IH.
Qed.

Lemma remove_node_filter ids id : NoDup (id_id <$> ids) → remove_node ids id = filter (λ x, id_id x ≠ id) ids.
Proof.
  induction ids as [|x ids IH]; [done|]. rewrite fmap_cons. intros [Hni Hnd]%NoDup_cons. simpl. case_decide as E.
  - rewrite filter_cons_False by tauto. subst id. symmetry. clear IH Hnd. induction ids as [|y ids IH]; [done|].
    rewrite fmap_cons in Hni. apply not_elem_of_cons in Hni as [Hne Hni]. rewrite filter_cons_True by congruence. f_equal. by apply IH.
  - rewrite filter_cons_True by done. by rewrite IH.
Qed.

Lemma list_find_filter ids id id' :
  snd <$> list_find (λ x, id_id x = id') (filter (λ x, id_id x ≠ id) ids) =
    if decide (id' = id) then None else snd <$> list_find (λ x, id_id x = id') ids.
Proof.
  induction ids as [|x ids IH]; [by case_decide|]. destruct (decide (id_id x = id)) as [E|E].
  - rewrite filter_cons_False by tauto. rewrite IH. case_decide; [done|]. simpl. rewrite decide_False by congruence.
    by destruct (list_find _ ids) as [[]|].
  - rewrite filter_cons_True by done. simpl. destruct (decide (id_id x = id')) as [E'|E'].
    + rewrite decide_False by congruence. done.
    + revert IH. destruct (list_find _ (filter _ ids)) as [[]|], (list_find _ ids) as [[]|]; simpl; done.
Qed.

Lemma registered_insert tbl ty t id :
  registered (<[ty := Some t]> tbl) id =
    if decide (PDC_TYPE id = ty) then snd <$> list_find (λ x, id_id x = id) (ty_ids t) else registered tbl id.
Proof.
  unfold registered. case_decide as E; [by rewrite E, lookup_insert_eq|]. by rewrite lookup_insert_ne.
Qed.

Lemma table_ok_insert tbl ty t : table_ok tbl → 0 ≤ ty < PDC_next_type → type_ok ty t → table_ok (<[ty := Some t]> tbl).
Proof.
  intros Hok Hty Ht ty' e. destruct (decide (ty' = ty)) as [->|Hne].
  - rewrite lookup_insert_eq. intros [= <-]. eauto.
  - rewrite lookup_insert_ne by done. apply Hok.
Qed.

Lemma registered_type tbl id x : table_ok tbl → registered tbl id = Some x →
  ∃ t, tbl !! PDC_TYPE id = Some (Some t) ∧ type_ok (PDC_TYPE id) t ∧ 0 ≤ PDC_TYPE id < PDC_next_type ∧
    x ∈ ty_ids t ∧ id_id x = id ∧ snd <$> list_find (λ x, id_id x = id) (ty_ids t) = Some x.
Proof.
  intros Hok. unfold registered. destruct (tbl !! PDC_TYPE id) as [[t|]|] eqn:E; [|done|done]. intros Hx.
  destruct (Hok _ _ E) as (Hty & ? & [= <-] & Ht). destruct (list_find_elem _ _ _ Hx). exists t. split; [done|]. split; [done|]. auto.
Qed.

Lemma find_id_registered tbl id x : table_ok tbl → registered tbl id = Some x → PDC_find_id tbl id = Some (Some x).
Proof.
  intros Hok Hx. destruct (registered_type tbl id x Hok Hx) as (t & E & Ht & Hty & _ & _ & Hf).
  unfold PDC_find_id. unfold PDC_BADID. rewrite decide_False by lia. rewrite E. rewrite decide_False by (destruct Ht; lia).
  by rewrite search_spec, Hf.
Qed.

(** The count of one object changes. *)
Lemma update_count_ok ty t id c : type_ok ty t → 0 < c < 2147483648 → type_ok ty (update_count t id c).
Proof.
  intros [? ? [? ?] ? Hnd Hids] Hc. unfold update_count. rewrite set_count_fmap by done.
  assert (id_id <$> ((λ x, if decide (id_id x = id) then IdInfo (id_id x) c (id_obj_ptr x) else x) <$> ty_ids t) = id_id <$> ty_ids t) as Hkeys.
  { rewrite <-list_fmap_compose. apply list_fmap_ext. intros i x _. simpl. by case_decide. }
  split; simpl; [done|done| |done|by rewrite Hkeys|].
  - unfold lenZ in *. by rewrite length_fmap.
  - apply Forall_fmap. eapply list.Forall_impl; [exact Hids|]. intros x [Hk Hx]. simpl. case_decide; simpl; [by split|done].
Qed.

Lemma registered_update tbl id c x id' : table_ok tbl → registered tbl id = Some x →
  ∀ t, tbl !! PDC_TYPE id = Some (Some t) →
  registered (<[PDC_TYPE id := Some (update_count t id c)]> tbl) id' =
    if decide (id' = id) then Some (IdInfo id c (id_obj_ptr x)) else registered tbl id'.
Proof.
  intros Hok Hx t E. destruct (registered_type tbl id x Hok Hx) as (t' & E' & Ht & _ & Hin & Hid & Hf).
  rewrite E in E'. injection E' as <-. rewrite registered_insert. unfold update_count. cbn [ty_ids].
  rewrite set_count_fmap by apply Ht. rewrite (list_find_update (ty_ids t) id (λ x, IdInfo (id_id x) c (id_obj_ptr x))) by (done || apply Ht).
  destruct (decide (PDC_TYPE id' = PDC_TYPE id)) as [Et|Et].
  - destruct (decide (id' = id)) as [->|Hne].
    + rewrite Hf. simpl. by rewrite decide_True, Hid.
    + unfold registered. rewrite Et, E. destruct (snd <$> list_find (λ x0, id_id x0 = id') (ty_ids t)) as [y|] eqn:Ey; [|done].
      apply list_find_elem in Ey as [_ Ey]. simpl. rewrite decide_False by congruence. done.
  - rewrite decide_False by congruence. done.
Qed.

(** An object leaves the list. *)
Lemma remove_ok ty t id : type_ok ty t → (∃ x, x ∈ ty_ids t ∧ id_id x = id) →
  type_ok ty (IdType (ty_free_func t) (ty_type_id t) (ty_init_count t) (u32 (ty_id_count t - 1)) (ty_nextid t) (remove_node (ty_ids t) id)).
Proof.
  intros [? ? [Hc Hw] ? Hnd Hids] (x & Hx & Hid). rewrite remove_node_filter by done.
  assert (lenZ (filter (λ x, id_id x ≠ id) (ty_ids t)) = lenZ (ty_ids t) - 1) as Hlen.
  { rewrite <-remove_node_filter by done. clear -Hx Hid. induction (ty_ids t) as [|y ids IH]; [by apply elem_of_nil in Hx|].
    simpl. case_decide; unfold lenZ in *; simpl; [lia|]. apply elem_of_cons in Hx as [->|Hx]; [done|]. specialize (IH Hx).
    destruct ids; [by apply elem_of_nil in Hx|]. simpl in *. lia. }
  pose proof (lenZ_nonneg (filter (λ x, id_id x ≠ id) (ty_ids t))).
  split; simpl; [done|done| |done| |].
  - rewrite Hlen, Hc. unfold u32. rewrite Z.mod_small by (rewrite Hlen in *; lia). lia.
  - eapply sublist_NoDup; [exact Hnd|]. apply fmap_sublist, sublist_filter.
  - apply list.Forall_forall. intros y [_ Hy]%list_elem_of_filter. by apply (proj1 (list.Forall_forall _ _) Hids y).
Qed.

(** * Properties *)

(** The ID of a library object is a positive 63-bit number that carries the
    type and the index: the type is recovered by [PDC_TYPE], and different
    indices give different IDs. *)
Theorem pdcid_encoding g i :
  0 < g < PDC_next_type → 0 ≤ i ≤ ID_MASK →
  0 < PDCID_MAKE g i < 2 ^ 63 ∧ PDC_TYPE (PDCID_MAKE g i) = g ∧
  ∀ j, 0 ≤ j ≤ ID_MASK → PDCID_MAKE g i = PDCID_MAKE g j → i = j.
Proof.
  unfold PDC_next_type, PDC_NTYPES. intros Hg Hi. assert (0 ≤ g ≤ TYPE_MASK) by (change TYPE_MASK with 255; lia).
  split; [|split; [by apply PDC_TYPE_MAKE|intros j Hj; by apply PDCID_MAKE_inj]].
  rewrite PDCID_MAKE_eq by done. change (2 ^ ID_BITS) with 36028797018963968. change ID_MASK with 36028797018963967 in Hi.
  change (2 ^ 63) with 9223372036854775808. lia.
Qed.

(** The pointer operations implement the list operations: inserting at the
    head and removing a node, wherever it is, never follow a wrong pointer,
    leave the memory holding the list with the node added or removed, and touch
    no node of another list. *)
Theorem linked_list_refines m l1 entry l2 :
  (holds m (l1 ++ entry :: l2) →
   ∃ m', PDC_LIST_REMOVE m entry = Some m' ∧ holds m' (l1 ++ l2) ∧
     ∀ x, x ∉ l1 ++ l2 → lm_nodes m' !! x = lm_nodes m !! x) ∧
  (holds m l2 → entry ∉ l2 → is_Some (lm_nodes m !! entry) →
   ∃ m', PDC_LIST_INSERT_HEAD m entry = Some m' ∧ holds m' (entry :: l2) ∧ PDC_LIST_IS_EMPTY m' = false ∧
     ∀ x, x ∉ entry :: l2 → lm_nodes m' !! x = lm_nodes m !! x).
Proof.
  split; [apply remove_holds|]. intros Hm Hni He. destruct (insert_head_holds m l2 entry Hm Hni He) as (m' & Hrun & Hm' & Hf).
  exists m'. split_and!; try done. destruct Hm' as [_ [Hh _]]. unfold PDC_LIST_IS_EMPTY. by rewrite Hh.
Qed.

(** Registering an object of an initialized type gives it an ID that no
    registered object has, with the type in it and one reference; the other
    objects keep theirs and the invariant of the table holds. *)
Theorem id_register_spec tbl ty t obj :
  table_ok tbl → tbl !! ty = Some (Some t) → 0 < ty → ty_nextid t < ID_MASK → ty_id_count t + 1 < W32 →
  ∃ id tbl', PDC_id_register tbl true ty obj = Some (id, tbl') ∧ table_ok tbl' ∧
    PDC_TYPE id = ty ∧ registered tbl id = None ∧
    ∀ id', registered tbl' id' = if decide (id' = id) then Some (IdInfo id 1 obj) else registered tbl id'.
Proof.
  intros Hok E Hty Hn Hc. destruct (Hok _ _ E) as (Hty' & ? & [= <-] & [Hi Ht [Hcnt Hw] Hnext Hnd Hids]).
  assert (0 ≤ ty ≤ TYPE_MASK) as Hmask by (change TYPE_MASK with 255; unfold PDC_next_type, PDC_NTYPES in Hty'; lia).
  set (id := PDCID_MAKE ty (ty_nextid t)).
  assert (PDC_TYPE id = ty) as Hid by (apply PDC_TYPE_MAKE; lia).
  assert (Forall (λ x, id_id x ≠ id) (ty_ids t)) as Hfresh.
  { eapply list.Forall_impl; [exact Hids|]. intros x [(k & Hk & ->) _] Heq. apply PDCID_MAKE_inj in Heq; lia. }
  unfold PDC_id_register. unfold PDC_BADID. rewrite decide_False by lia. rewrite E. rewrite decide_False by lia. cbn [negb].
  fold id. cbn [ty_nextid]. assert (ty_nextid t +w 1 = ty_nextid t + 1) as Hnx.
  { apply u64_id. change ID_MASK with 36028797018963967 in *. unfold W64. lia. }
  rewrite Hnx, decide_True by lia. eexists id, _. split; [done|]. pose proof (lenZ_nonneg (ty_ids t)).
  split; [|split; [done|split]].
  - apply table_ok_insert; [done|done|]. split; simpl; [done|done| |lia| |].
    + unfold u32. rewrite Z.mod_small by lia. unfold lenZ in *. simpl. lia.
    + apply NoDup_cons. split; [|done]. intros (x & Hx & Hin)%list_elem_of_fmap.
      by apply (proj1 (list.Forall_forall _ _) Hfresh x).
    + constructor; [split; simpl; [exists (ty_nextid t); split; [lia|done]|lia]|].
      eapply list.Forall_impl; [exact Hids|]. intros x [(k & Hk & Hx) ?]. split; [exists k; split; [lia|done]|done].
  - unfold registered. rewrite Hid, E. by rewrite (proj2 (list_find_None _ _) Hfresh).
  - intros id'. rewrite registered_insert. cbn [ty_ids list_find id_id].
    destruct (decide (PDC_TYPE id' = ty)) as [Et|Et]; [|rewrite decide_False by congruence; done].
    destruct (decide (id' = id)) as [->|Hne]; [by rewrite decide_True|]. rewrite decide_False by congruence.
    unfold registered. rewrite Et, E. by destruct (list_find _ (ty_ids t)) as [[]|].
Qed.

(** Reference counting: taking a reference adds one and giving one back
    takes one away, for this object only; the object is removed exactly when the
    last reference is given back and its free function succeeds, and no count
    ever falls to zero or below while the object is registered. *)
Theorem ref_count_spec free_obj tbl id x :
  table_ok tbl → registered tbl id = Some x → id_count x + 1 < 2147483648 →
  (∃ tbl', PDC_inc_ref tbl id = Some (id_count x + 1, tbl') ∧ table_ok tbl' ∧
     ∀ id', registered tbl' id' = if decide (id' = id) then Some (IdInfo id (id_count x + 1) (id_obj_ptr x)) else registered tbl id') ∧
  (1 < id_count x → ∃ tbl', PDC_dec_ref free_obj tbl id = Some (id_count x - 1, tbl') ∧ table_ok tbl' ∧
     ∀ id', registered tbl' id' = if decide (id' = id) then Some (IdInfo id (id_count x - 1) (id_obj_ptr x)) else registered tbl id') ∧
  (id_count x = 1 → (∀ f, free_obj f (id_obj_ptr x) >= 0) →
   ∃ tbl', PDC_dec_ref free_obj tbl id = Some (0, tbl') ∧ table_ok tbl' ∧
     ∀ id', registered tbl' id' = if decide (id' = id) then None else registered tbl id').
Proof.
  intros Hok Hx Hw. destruct (registered_type tbl id x Hok Hx) as (t & E & Ht & Hty & Hin & Hid & Hf).
  pose proof (proj2 (proj1 (list.Forall_forall _ _) (to_ids _ _ Ht) x Hin)) as Hc.
  assert (∀ c, -2147483648 ≤ c < 2147483648 → i32 c = c) as Hi32.
  { intros c ?. unfold i32. rewrite Z.mod_small by (unfold W32; lia). lia. }
  split; [|split].
  - unfold PDC_inc_ref. rewrite (find_id_registered tbl id x Hok Hx). cbn [mbind option_bind]. rewrite E. cbn [mjoin option_join mbind option_bind].
    rewrite Hi32 by lia. eexists. split; [done|]. split; [by apply table_ok_insert, update_count_ok; (done || lia)|].
    intros id'. by apply registered_update.
  - intros H1. unfold PDC_dec_ref. rewrite (find_id_registered tbl id x Hok Hx). cbn [mbind option_bind]. rewrite E. cbn [mjoin option_join mbind option_bind].
    rewrite Hi32, decide_False by lia. eexists. split; [done|]. split; [by apply table_ok_insert, update_count_ok; (done || lia)|].
    intros id'. by apply registered_update.
  - intros H1 Hfree. unfold PDC_dec_ref. rewrite (find_id_registered tbl id x Hok Hx). cbn [mbind option_bind]. rewrite E. cbn [mjoin option_join mbind option_bind].
    rewrite Hi32, decide_True by lia. rewrite (H1 : id_count x = 1). change (1 - 1) with 0.
    assert (free_ok free_obj (update_count t id 0) (id_obj_ptr x) = true) as ->.
    { unfold free_ok. destruct (ty_free_func _) as [f|]; [|done]. by apply bool_decide_eq_true. }
    assert (remove_node (set_count (ty_ids t) id 0) id = remove_node (ty_ids t) id) as Hrm.
    { clear. induction (ty_ids t) as [|y ids IH]; simpl; [done|]. case_decide; simpl; [by rewrite decide_True|].
      rewrite decide_False by done. by rewrite IH. }
    rewrite bool_decide_false.
    2: { unfold update_count. simpl. intros Hnil. clear -Hnil Hin. destruct (ty_ids t); [by apply elem_of_nil in Hin|]. simpl in Hnil. by case_decide. }
    eexists. split; [done|]. cbn [update_count ty_free_func ty_type_id ty_init_count ty_id_count ty_nextid ty_ids]. rewrite Hrm. split.
    + apply table_ok_insert; [done|done|]. apply remove_ok; [done|by exists x].
    + intros id'. rewrite registered_insert. cbn [ty_ids]. rewrite remove_node_filter by apply Ht. rewrite list_find_filter.
      destruct (decide (PDC_TYPE id' = PDC_TYPE id)) as [Et|Et]; [|rewrite decide_False by congruence; done].
      case_decide; [done|]. unfold registered. by rewrite Et, E.
Qed.

Lemma clear_loop_ok free_obj ids : ∀ fuel t ret,
  ty_ids t = ids → (∀ x f, x ∈ ids → ty_free_func t = Some f → free_obj f (id_obj_ptr x) >= 0) →
  (length ids ≤ fuel)%nat → ty_id_count t = lenZ ids → lenZ ids < W32 →
  ∃ t', clear_loop free_obj fuel t ret = Some (ret, t') ∧ ty_ids t' = [] ∧ ty_id_count t' = 0 ∧
    ty_init_count t' = ty_init_count t ∧ ty_type_id t' = ty_type_id t ∧ ty_nextid t' = ty_nextid t.
Proof.
  induction ids as [|x ids IH]; intros fuel t ret Hids Hfree Hfuel Hc Hw.
  - exists t. destruct fuel; simpl; rewrite Hids; auto 10.
  - destruct fuel as [|fuel]; [simpl in Hfuel; lia|]. cbn [clear_loop]. rewrite Hids.
    assert (free_ok free_obj t (id_obj_ptr x) = true) as ->.
    { unfold free_ok. destruct (ty_free_func t) as [f|] eqn:Ef; [|done]. apply bool_decide_eq_true. apply Hfree; [set_solver|done]. }
    unfold lenZ in Hc, Hw. simpl in Hfuel, Hc, Hw. edestruct IH with (fuel := fuel) (ret := ret) as (t' & -> & Ht'); [| | | | |].
    6: { exists t'. split; [done|exact Ht']. }
    all: simpl; try done; try lia.
    + intros y f Hy Hf. apply Hfree; [set_solver|done].
    + rewrite Hc. unfold u32, lenZ. rewrite Z.mod_small by lia. lia.
    + unfold lenZ. lia.
Qed.

Lemma clear_loop_stuck free_obj fuel : ∀ t x ids ret,
  ty_ids t = x :: ids → free_ok free_obj t (id_obj_ptr x) = false → clear_loop free_obj fuel t ret = None.
Proof.
  induction fuel as [|fuel IH]; intros t x ids ret Hids Hf; cbn [clear_loop]; rewrite Hids; [done|].
  rewrite Hf. by eapply IH.
Qed.

(** Clearing a type ends after as many rounds as it has objects when every
    free function succeeds, and leaves no object of the type; when that of the
    first object fails, it never ends. *)
Theorem id_list_clear_terminates free_obj tbl ty t :
  table_ok tbl → tbl !! ty = Some (Some t) →
  ((∀ x f, x ∈ ty_ids t → ty_free_func t = Some f → free_obj f (id_obj_ptr x) >= 0) →
   ∃ tbl', PDC_id_list_clear free_obj (length (ty_ids t)) tbl ty = Some (SUCCEED, tbl') ∧ table_ok tbl' ∧
     PDC_id_list_null tbl' ty = Some 0 ∧
     ∀ id, registered tbl' id = if decide (PDC_TYPE id = ty) then None else registered tbl id) ∧
  (∀ x f fuel, head (ty_ids t) = Some x → ty_free_func t = Some f → free_obj f (id_obj_ptr x) < 0 →
   PDC_id_list_clear free_obj fuel tbl ty = None).
Proof.
  intros Hok E. destruct (Hok _ _ E) as (Hty & ? & [= <-] & Ht). unfold PDC_id_list_clear. rewrite E. cbn [mjoin option_join mbind option_bind]. split.
  - intros Hfree. destruct (clear_loop_ok free_obj (ty_ids t) (length (ty_ids t)) t SUCCEED) as (t' & -> & Hids & Hc & Hi & Htt & Hn);
      [done|done|done|apply Ht|apply Ht|]. cbn [mbind option_bind]. eexists. split; [done|]. split; [|split].
    + apply table_ok_insert; [done|done|]. destruct Ht. split; rewrite ?Hids, ?Hi, ?Htt, ?Hn, ?Hc; try done; constructor.
    + unfold PDC_id_list_null. unfold PDC_BADID. rewrite decide_False by lia. rewrite lookup_insert_eq. cbn [mjoin option_join mbind option_bind].
      by rewrite decide_False by tauto.
    + intros id. rewrite registered_insert, Hids. done.
  - intros x f fuel Hx Hf Hneg. destruct (ty_ids t) as [|y ids] eqn:Hids; [done|]. injection Hx as ->.
    rewrite (clear_loop_stuck _ _ _ x ids); [done|done|]. unfold free_ok. rewrite Hf. apply bool_decide_eq_false. lia.
Qed.

(** Looking up an ID that is not registered, of a type that is initialized,
    dereferences NULL: the search reads the node before it tests the pointer. *)
Theorem find_id_unregistered tbl id t :
  table_ok tbl → tbl !! PDC_TYPE id = Some (Some t) → registered tbl id = None → PDC_find_id tbl id = None.
Proof.
  intros Hok E Hr. destruct (Hok _ _ E) as (Hty & ? & [= <-] & Ht). unfold PDC_find_id, PDC_BADID.
  rewrite decide_False by lia. rewrite E, decide_False by (destruct Ht; lia).
  unfold registered in Hr. rewrite E in Hr. by rewrite search_spec, Hr.
Qed.

(** * The properties at concrete inputs *)

Lemma pdcid_encoding_witness : 0 < PDCID_MAKE 5 3 < 2 ^ 63 ∧ PDC_TYPE (PDCID_MAKE 5 3) = 5.
Proof.
  destruct (pdcid_encoding 5 3) as (H1 & H2 & _); [split; reflexivity|split; vm_compute; congruence|].
  split; [exact H1|exact H2].
Defined.

(** The nodes 10, 20, 30 in this order. *)
Definition ex_mem : list_mem :=
  ListMem (Some 10) {[ 10 := Node (Some 20) Head; 20 := Node (Some 30) (NextOf 10); 30 := Node None (NextOf 20) ]}.

Lemma linked_list_refines_witness : ∃ m', PDC_LIST_REMOVE ex_mem 20 = Some m' ∧ holds m' [10; 30].
Proof.
  destruct (proj1 (linked_list_refines ex_mem [10] 20 [30])) as (m' & Hrun & Hm & _).
  - split; [apply (bool_decide_unpack (NoDup [10; 20; 30])); reflexivity|].
    split; [reflexivity|]. eexists. split; [reflexivity|]. split; [reflexivity|]. eexists. split; [reflexivity|].
    split; [reflexivity|]. eexists. split; reflexivity.
  - exists m'. split; [exact Hrun|exact Hm].
Defined.

(** One object, of type PDC_OBJ, with two references. *)
Definition ex_id : Z := PDCID_MAKE 5 0.
Definition ex_type : id_type := IdType (Some 1) 5 1 1 1 [IdInfo ex_id 2 77].
Definition ex_table : gmap Z (option id_type) := {[ 5 := Some ex_type ]}.

Lemma ex_table_ok : table_ok ex_table.
Proof.
  intros ty e He. unfold ex_table in He. apply lookup_singleton_Some in He as [<- <-]. split; [split; [discriminate|reflexivity]|]. exists ex_type. split; [reflexivity|].
  split; simpl.
  - reflexivity.
  - reflexivity.
  - split; reflexivity.
  - split; vm_compute; discriminate.
  - apply NoDup_singleton.
  - apply list.Forall_singleton. split; [exists 0; split; [lia|reflexivity]|simpl; lia].
Qed.

Lemma id_register_spec_witness :
  ∃ id tbl', PDC_id_register ex_table true 5 99 = Some (id, tbl') ∧ registered tbl' id = Some (IdInfo id 1 99) ∧
    registered tbl' ex_id = Some (IdInfo ex_id 2 77).
Proof.
  destruct (id_register_spec ex_table 5 ex_type 99 ex_table_ok) as (id & tbl' & Hrun & _ & _ & Hnew & Hreg).
  - reflexivity.
  - reflexivity.
  - vm_compute. reflexivity.
  - vm_compute. reflexivity.
  - exists id, tbl'. split; [exact Hrun|]. split; [rewrite Hreg, decide_True; reflexivity|].
    rewrite Hreg, decide_False; [vm_compute; reflexivity|]. intros E. rewrite <-E in Hnew. vm_compute in Hnew. discriminate.
Defined.

Lemma ref_count_spec_witness :
  ∃ tbl', PDC_dec_ref (λ _ _, 0) ex_table ex_id = Some (1, tbl') ∧ registered tbl' ex_id = Some (IdInfo ex_id 1 77).
Proof.
  destruct (ref_count_spec (λ _ _, 0) ex_table ex_id (IdInfo ex_id 2 77) ex_table_ok) as (_ & Hdec & _).
  - vm_compute. reflexivity.
  - reflexivity.
  - destruct Hdec as (tbl' & Hrun & _ & Hreg); [reflexivity|]. exists tbl'. split; [exact Hrun|].
    rewrite Hreg, decide_True; reflexivity.
Defined.

Lemma id_list_clear_terminates_witness :
  ∃ tbl', PDC_id_list_clear (λ _ _, 0) 1 ex_table 5 = Some (SUCCEED, tbl') ∧ registered tbl' ex_id = None.
Proof.
  destruct (id_list_clear_terminates (λ _ _, 0) ex_table 5 ex_type ex_table_ok) as [Hclear _]; [reflexivity|].
  destruct Hclear as (tbl' & Hrun & _ & _ & Hreg); [intros; lia|]. exists tbl'. split; [exact Hrun|].
  rewrite Hreg, decide_True by (vm_compute; reflexivity). reflexivity.
Defined.

Lemma find_id_unregistered_witness : PDC_find_id ex_table (PDCID_MAKE 5 9) = None.
Proof.
  apply (find_id_unregistered ex_table (PDCID_MAKE 5 9) ex_type ex_table_ok); vm_compute; reflexivity.
Defined.
