(* ===== verification/TransferPack.v ===== *)
(** The buffers a client builds and reads for a transfer
    ([src/src/api/pdc_region/pdc_region_transfer.c]): the contiguous copy of the
    user's data, the bulk buffer of a start-all call, and the query for the data
    servers of the regions with its answer.  The server's side of these formats
    is in [ServerTransfer] and [MetadataQuery]. *)

From S2P Require Export RegionPartition ServerTransfer MetadataQuery.
From stdpp Require Import list gmap sets.
#[local] Open Scope Z_scope.

(** * Data *)

(** [pdc_region_partition_t]; [PDC_REGION_DYNAMIC] is in [MetadataQuery]. *)
Definition PDC_OBJ_STATIC : Z := 0.
Definition PDC_REGION_STATIC : Z := 1.
Definition PDC_REGION_LOCAL : Z := 3.

(** A part of the region of a request that goes to one data server: the entries
    of [obj_servers], [output_offsets], [output_sizes] and [sub_offsets]. *)
Record obj_part := ObjPart {
  op_obj_server : Z;
  op_output_offset : list Z;
  op_output_size : list Z;
  op_sub_offset : list Z }.

(** The fields of [pdc_transfer_request] that packing reads, and the arrays of
    [n_obj_servers] entries that are filled one entry at a time. *)
Record pdc_transfer_request := TransferRequest {
  tr_obj_id : Z;
  tr_metadata_server_id : Z;
  tr_access_type : pdc_access_t;
  tr_unit : Z;
  tr_region_partition : Z;
  tr_remote_region_ndim : nat;
  tr_remote_region_offset : list Z;
  tr_remote_region_size : list Z;
  tr_obj_ndim : nat;
  tr_obj_dims : list Z;
  tr_obj_parts : list (option obj_part) }.

(** [pdc_transfer_request_start_all_pkg]; [pk_transfer_request] points to the
    request, which several packages share, and [pk_buf] is the data to write. *)
Record start_all_pkg := StartAllPkg {
  pk_data_server_id : Z;
  pk_transfer_request : Z;
  pk_remote_offset : list Z;
  pk_remote_size : list Z;
  pk_index : Z;
  pk_buf : option (list byte) }.

(** The requests in memory, by their address. *)
Abbreviation request_store := (gmap Z pdc_transfer_request).

(** * The contiguous copy of the user's data *)

Section Pack.
Context (junk : byte).

(** [new_buf]: a pointer into the user's buffer, or a block of its own. *)
Inductive new_buf_ptr := InUserBuf (off : Z) | OwnBlock (b : list byte).

(** [None] as the second component: [new_buf] is not set. *)
Definition pack_region_buffer (buf : list byte) (total_data_size : Z) (local_ndim : nat)
    (local_offset local_size : list Z) (unit : Z) (access_type : pdc_access_t) : option (perr_t * option new_buf_ptr) :=
  let off := arr local_offset in
  let size := arr local_size in
  match local_ndim with
  | 1%nat => Some (SUCCEED, Some (InUserBuf (off 0%nat *w unit)))
  | 2%nat =>
      let new_buf := malloc junk total_data_size in
      if decide (access_type = PDC_WRITE) then
        '(new_buf, _) ← forZ (Z.to_nat (size 0%nat)) 0 (λ i '(new_buf, ptr),
          new_buf ← memcpy new_buf ptr buf (((off 0%nat +w i) *w size 1%nat +w off 1%nat) *w unit) (size 1%nat *w unit);
          Some (new_buf, ptr + (size 1%nat *w unit))) (new_buf, 0);
        Some (SUCCEED, Some (OwnBlock new_buf))
      else Some (SUCCEED, Some (OwnBlock new_buf))
  | 3%nat =>
      let new_buf := malloc junk total_data_size in
      if decide (access_type = PDC_WRITE) then
        '(new_buf, _) ← forZ (Z.to_nat (size 0%nat)) 0 (λ i,
          forZ (Z.to_nat (size 1%nat)) 0 (λ j '(new_buf, ptr),
            new_buf ← memcpy new_buf ptr buf
              (((off 0%nat +w i) *w size 1%nat *w size 2%nat +w (off 1%nat +w j) *w size 2%nat +w off 2%nat) *w unit)
              (size 2%nat *w unit);
            Some (new_buf, ptr + (size 2%nat *w unit)))) (new_buf, 0);
        Some (SUCCEED, Some (OwnBlock new_buf))
      else Some (SUCCEED, Some (OwnBlock new_buf))
  | _ => Some (FAIL, None)
  end.

(** The copy of [release_region_buffer] from [new_buf] to the user's buffer. *)
Definition release_copy (buf : list byte) (local_ndim : nat) (local_size : list Z) (unit : Z) (access_type : pdc_access_t)
    (new_buf : list byte) : option (list byte) :=
  let size := arr local_size in
  match local_ndim with
  | 2%nat => if decide (access_type = PDC_READ) then memcpy buf 0 new_buf 0 (size 0%nat *w size 1%nat *w unit) else Some buf
  | 3%nat => if decide (access_type = PDC_READ)
             then memcpy buf 0 new_buf 0 (size 0%nat *w size 1%nat *w size 2%nat *w unit) else Some buf
  | _ => Some buf
  end.

(** * The bulk buffer of a start-all call *)

Definition obj_data_size (r : pdc_transfer_request) (p : start_all_pkg) : Z :=
  foldl (λ s j, s *w arr (pk_remote_size p) j) (arr (pk_remote_size p) 0 *w tr_unit r)
    (seq 1 (tr_remote_region_ndim r - 1)).

(** The loop that computes [data_size] and [total_obj_data_size]. *)
Definition pack_sizes (access_type : pdc_access_t) (pkgs : list (pdc_transfer_request * start_all_pkg)) : Z * Z :=
  foldl (λ '(data_size, total_obj_data_size) '(r, p),
    let meta := 8 *w Z.of_nat (tr_remote_region_ndim r) *w 3 in
    if decide (access_type = PDC_WRITE) then (data_size +w (meta +w obj_data_size r p), total_obj_data_size)
    else (data_size +w meta, total_obj_data_size +w obj_data_size r p)) (0, 0) pkgs.

(** [MEMCPY_INC(a, n * sizeof(uint64_t))] *)
Definition emit_u64s (a : list Z) (n : nat) (st : list byte * Z) : option (list byte * Z) :=
  if decide (n ≤ length a)%nat then emit (u64s_bytes (take n a)) st else None.

Definition pack_header (r : pdc_transfer_request) (st : list byte * Z) : option (list byte * Z) :=
  st ← emit (u64_bytes (tr_obj_id r)) st;
  st ← emit (int_bytes (Z.of_nat (tr_obj_ndim r) mod W32)) st;
  st ← emit (int_bytes (Z.of_nat (tr_remote_region_ndim r) mod W32)) st;
  emit (u64_bytes (tr_unit r)) st.

Definition pack_body (access_type : pdc_access_t) (r : pdc_transfer_request) (p : start_all_pkg) (st : list byte * Z)
    : option (list byte * Z) :=
  st ← emit_u64s (pk_remote_offset p) (tr_remote_region_ndim r) st;
  st ← emit_u64s (pk_remote_size p) (tr_remote_region_ndim r) st;
  st ← emit_u64s (tr_obj_dims r) (tr_obj_ndim r) st;
  if decide (access_type = PDC_WRITE) then
    buf ← pk_buf p; d ← mem_read buf 0 (obj_data_size r p); emit d st
  else Some st.

(** The buffer, its size, and for a read the position in it where the data of
    each package will arrive. *)
Definition PDC_Client_pack_all_requests (access_type : pdc_access_t) (pkgs : list (pdc_transfer_request * start_all_pkg))
    : option (list byte * Z * list Z) :=
  let metadata_size := lenZ pkgs *w (8 + 4 * 2 + 8) in
  let '(data_size, total_obj_data_size) := pack_sizes access_type pkgs in
  let total_buf_size :=
    if decide (access_type = PDC_WRITE) then metadata_size +w data_size
    else if decide (metadata_size +w data_size < total_obj_data_size) then total_obj_data_size
    else metadata_size +w data_size in
  st ← foldl (λ st '(r, _), st ← st; pack_header r st) (Some (malloc junk total_buf_size, 0)) pkgs;
  '(st, ptr2, read_bulk_buf) ←
    foldl (λ acc '(r, p),
      '(st, ptr2, read_bulk_buf) ← acc;
      let '(ptr2, read_bulk_buf) :=
        if decide (access_type = PDC_READ) then (ptr2 + obj_data_size r p, read_bulk_buf ++ [ptr2])
        else (ptr2, read_bulk_buf) in
      st ← pack_body access_type r p st;
      Some (st, ptr2, read_bulk_buf)) (Some (st, 0, [])) pkgs;
  Some (st.1, total_buf_size, read_bulk_buf).

(** * The query for the data servers *)

Definition pack_query_region (r : pdc_transfer_request) (p : start_all_pkg) (st : list byte * Z) : option (list byte * Z) :=
  st ← emit (u64_bytes (tr_obj_id r)) st;
  st ← emit (u32_bytes (pk_data_server_id p)) st;
  st ← emit (u8_bytes (tr_region_partition r mod 256)) st;
  st ← emit (int_bytes (Z.of_nat (tr_remote_region_ndim r) mod W32)) st;
  st ← emit (u64_bytes (tr_unit r)) st;
  st ← emit_u64s (pk_remote_offset p) (tr_remote_region_ndim r) st;
  emit_u64s (pk_remote_size p) (tr_remote_region_ndim r) st.

(** The buffer and its size. *)
Definition pack_region_metadata_query (pkgs : list (pdc_transfer_request * start_all_pkg)) : option (list byte * Z) :=
  let total_buf_size :=
    foldl (λ t '(r, _), t +w (4 +w 8 *w 2 *w Z.of_nat (tr_remote_region_ndim r) +w 8 +w 4 +w 1 +w 8)) 0 pkgs in
  st ← foldl (λ st '(r, p), st ← st; pack_query_region r p st) (Some (malloc junk total_buf_size, 0)) pkgs;
  Some (st.1, total_buf_size).

Definition set_parts (r : pdc_transfer_request) (parts : list (option obj_part)) : pdc_transfer_request :=
  TransferRequest (tr_obj_id r) (tr_metadata_server_id r) (tr_access_type r) (tr_unit r) (tr_region_partition r)
    (tr_remote_region_ndim r) (tr_remote_region_offset r) (tr_remote_region_size r) (tr_obj_ndim r) (tr_obj_dims r) parts.

(** The data of an entry: a write copies its part of the region. *)
Definition entry_buf (r : pdc_transfer_request) (input : start_all_pkg) (sub_offset size : list Z) : option (option (list byte)) :=
  if decide (tr_access_type r = PDC_WRITE) then
    src ← pk_buf input;
    let region_size := foldl (λ t s, t *w s) (tr_unit r) size in
    '(_, dst) ← memcpy_subregion (tr_remote_region_ndim r) (tr_unit r) PDC_WRITE src (tr_remote_region_size r)
                  (malloc junk region_size) sub_offset size;
    Some (Some dst)
  else Some None.

(** The loop over the entries.  [counter] counts the entries left for the region
    [index], whose request is [local_request]; [None] also for a write past the
    end of the arrays of the request. *)
Fixpoint unpack_loop (buf : list byte) (inputs : list start_all_pkg) (n : nat) (ptr counter : Z) (index : nat)
    (local_request : option Z) (store : request_store) : option (list start_all_pkg * request_store) :=
  match n with
  | O => Some ([], store)
  | S n =>
    input ← inputs !! index;
    '(ptr, counter, local_request, store) ←
      (if decide (counter = 0) then
         c ← load_int buf ptr;
         r ← store !! pk_transfer_request input;
         if decide (c < 0) then None
         else Some (ptr + 4, c, Some (pk_transfer_request input),
                    <[pk_transfer_request input := set_parts r (replicate (Z.to_nat c) None)]> store)
       else Some (ptr, counter, local_request, store));
    k ← local_request;
    r ← store !! k;
    let ndim := tr_remote_region_ndim r in
    data_server_id ← load_u32 buf ptr;
    remote_offset ← load_u64s buf (ptr + 4) ndim;
    remote_size ← load_u64s buf (ptr + 4 + 8 * Z.of_nat ndim) ndim;
    let at_index := lenZ (tr_obj_parts r) - counter in
    let sub_offset := zip_with (λ o ro, o -w ro) remote_offset (tr_remote_region_offset r) in
    let part := ObjPart data_server_id remote_offset remote_size sub_offset in
    if decide (0 ≤ at_index < lenZ (tr_obj_parts r)) then
      let store := <[k := set_parts r (<[Z.to_nat at_index := Some part]> (tr_obj_parts r))]> store in
      b ← entry_buf r input sub_offset remote_size;
      let counter := counter - 1 in
      '(pkgs, store) ← unpack_loop buf inputs n (ptr + 4 + 8 * Z.of_nat ndim * 2) counter
                         (if decide (counter = 0) then S index else index) local_request store;
      Some (StartAllPkg data_server_id k remote_offset remote_size at_index b :: pkgs, store)
    else None
  end.

(** The new packages, their number and the requests. *)
Definition unpack_region_metadata_query (buf : list byte) (inputs : list start_all_pkg) (store : request_store)
    : option (list start_all_pkg * Z * request_store) :=
  size ← load_int buf 0;
  '(pkgs, store) ← unpack_loop buf inputs (Z.to_nat size) 4 0 0 None store;
  Some (pkgs, size, store).
End Pack.

(** * The bulk buffer is what the server parses *)

(** A package whose fields are in the range of their types; a package of a write
    has at least its data. *)
Record pkg_ok (access_type : pdc_access_t) (r : pdc_transfer_request) (p : start_all_pkg) : Prop := {
  pk_obj_id : is_u64 (tr_obj_id r);
  pk_unit : is_u64 (tr_unit r);
  pk_ndim : (1 ≤ tr_remote_region_ndim r)%nat ∧ Z.of_nat (tr_remote_region_ndim r) < 2147483648;
  pk_obj_ndim : tr_obj_ndim r = tr_remote_region_ndim r;
  pk_dims : length (tr_obj_dims r) = tr_obj_ndim r ∧ Forall is_u64 (tr_obj_dims r);
  pk_offset : length (pk_remote_offset p) = tr_remote_region_ndim r ∧ Forall is_u64 (pk_remote_offset p);
  pk_size : length (pk_remote_size p) = tr_remote_region_ndim r ∧ Forall is_u64 (pk_remote_size p);
  pk_data : access_type = PDC_WRITE → ∃ b, pk_buf p = Some b ∧ obj_data_size r p ≤ lenZ b }.

(** The data of the package at the start of its buffer. *)
Definition pkg_data (r : pdc_transfer_request) (p : start_all_pkg) : list byte :=
  take (Z.to_nat (obj_data_size r p)) (default [] (pk_buf p)).

Abbreviation pkg := (pdc_transfer_request * start_all_pkg)%type.

Definition header_bytes (x : pkg) : list byte :=
  u64_bytes (tr_obj_id x.1) ++ int_bytes (Z.of_nat (tr_obj_ndim x.1) mod W32) ++
  int_bytes (Z.of_nat (tr_remote_region_ndim x.1) mod W32) ++ u64_bytes (tr_unit x.1).

Definition body_bytes (access_type : pdc_access_t) (x : pkg) : list byte :=
  u64s_bytes (pk_remote_offset x.2) ++ u64s_bytes (pk_remote_size x.2) ++ u64s_bytes (tr_obj_dims x.1) ++
  (if decide (access_type = PDC_WRITE) then pkg_data x.1 x.2 else []).

(** What the server makes of a package whose data is at [data_buf]. *)
Definition parsed_as (x : pkg) (data_buf : option Z) : request_data :=
  RequestData (tr_obj_id x.1) (Z.of_nat (tr_obj_ndim x.1)) (Z.of_nat (tr_remote_region_ndim x.1)) (tr_unit x.1)
    (pk_remote_offset x.2) (pk_remote_size x.2) (tr_obj_dims x.1) data_buf.

Lemma obj_data_size_range r p : 0 ≤ obj_data_size r p < W64.
Proof.
  unfold obj_data_size. assert (∀ l a, 0 ≤ a < W64 → 0 ≤ foldl (λ s j, s *w arr (pk_remote_size p) j) a l < W64) as H.
  { induction l as [|j l IH]; intros a Ha; [done|]. apply IH, u64_range. }
  apply H, u64_range.
Qed.

Lemma lenZ_pkg_data r p : (∃ b, pk_buf p = Some b ∧ obj_data_size r p ≤ lenZ b) → lenZ (pkg_data r p) = obj_data_size r p.
Proof.
  intros (b & Hb & Hl). unfold pkg_data. rewrite Hb. change (default [] (Some b)) with b. pose proof (obj_data_size_range r p).
  unfold lenZ in *. rewrite length_take. lia.
Qed.

Lemma emits_u64s cap a n : length a = n → emits cap (emit_u64s a n) (u64s_bytes a).
Proof. intros <-. unfold emit_u64s. intros w st. rewrite decide_True, firstn_all by done. apply emits_emit. Qed.

Lemma mem_read_all {A} (b : list A) n : lenZ b = n → mem_read b 0 n = Some b.
Proof. intros <-. rewrite <-(app_nil_r b) at 1. by apply (mem_read_at [] b []). Qed.

Lemma emits_header cap x : emits cap (pack_header x.1) (header_bytes x).
Proof. repeat (apply emits_bind; [apply emits_emit|]). apply emits_emit. Qed.

Lemma emits_body cap access_type x : pkg_ok access_type x.1 x.2 → emits cap (pack_body access_type x.1 x.2) (body_bytes access_type x).
Proof.
  intros Hok. repeat (apply emits_bind; [apply emits_u64s; destruct Hok; intuition|]).
  unfold body_bytes, pkg_data. case_decide as E; [|apply emits_ret]. destruct (pk_data _ _ _ Hok E) as (b & Hb & Hl). rewrite Hb.
  cbn [mbind option_bind default]. pose proof (obj_data_size_range x.1 x.2). unfold mem_read. rewrite decide_True by lia. apply emits_emit.
Qed.

(** The sizes. *)
Definition meta_size (x : pkg) : Z := 24 * Z.of_nat (tr_remote_region_ndim x.1).
Definition sum_of (f : pkg → Z) (pkgs : list pkg) : Z := foldr (λ x t, f x + t) 0 pkgs.

Lemma lenZ_body access_type x : pkg_ok access_type x.1 x.2 →
  lenZ (body_bytes access_type x) = meta_size x + if decide (access_type = PDC_WRITE) then obj_data_size x.1 x.2 else 0.
Proof.
  intros [? ? ? ? [? _] [? _] [? _] Hd]. unfold body_bytes, meta_size. autorewrite with wire. unfold lenZ at 1 2 3.
  case_decide as E; [|rewrite lenZ_nil; lia]. rewrite (lenZ_pkg_data _ _ (Hd E)). lia.
Qed.

Lemma sum_of_nonneg f pkgs : (∀ x, 0 ≤ f x) → 0 ≤ sum_of f pkgs.
Proof. intros Hf. induction pkgs as [|x pkgs IH]; simpl; [lia|]. specialize (Hf x). lia. Qed.

Lemma sum_of_bind f (g : pkg → list byte) pkgs : Forall (λ x, lenZ (g x) = f x) pkgs → lenZ (pkgs ≫= g) = sum_of f pkgs.
Proof. induction 1 as [|x pkgs Hx _ IH]; [done|]. rewrite bind_cons, lenZ_app, Hx, IH. done. Qed.

Lemma pack_sizes_eq access_type pkgs : Forall (λ x, Z.of_nat (tr_remote_region_ndim x.1) < 2147483648) pkgs →
  pack_sizes access_type pkgs =
    if decide (access_type = PDC_WRITE)
    then (u64 (sum_of (λ x, meta_size x + obj_data_size x.1 x.2) pkgs), 0)
    else (u64 (sum_of meta_size pkgs), u64 (sum_of (λ x, obj_data_size x.1 x.2) pkgs)).
Proof.
  intros Hn. unfold pack_sizes, sum_of.
  assert (∀ a b, 0 ≤ a < W64 → 0 ≤ b < W64 →
    foldl (λ '(data_size, total_obj_data_size) '(r, p),
      let meta := 8 *w Z.of_nat (tr_remote_region_ndim r) *w 3 in
      if decide (access_type = PDC_WRITE) then (data_size +w (meta +w obj_data_size r p), total_obj_data_size)
      else (data_size +w meta, total_obj_data_size +w obj_data_size r p)) (a, b) pkgs =
    if decide (access_type = PDC_WRITE)
    then (u64 (a + foldr (λ x t, meta_size x + obj_data_size x.1 x.2 + t) 0 pkgs), b)
    else (u64 (a + foldr (λ x t, meta_size x + t) 0 pkgs), u64 (b + foldr (λ x t, obj_data_size x.1 x.2 + t) 0 pkgs))) as H.
  { induction Hn as [|[r p] pkgs Hx _ IH]; intros a b Ha Hb; cbn [foldl foldr].
    - rewrite !Z.add_0_r, !u64_id by done. by case_decide.
    - cbn [fst snd] in *. unfold meta_size at 1 3. cbn [fst]. case_decide; rewrite IH by (done || apply u64_range).
      + f_equal. u64_ring.
      + f_equal; u64_ring. }
  rewrite H by (unfold W64; lia). done.
Qed.

Definition header_of (x : pkg) : Z * Z * Z * Z :=
  (tr_obj_id x.1, Z.of_nat (tr_obj_ndim x.1), Z.of_nat (tr_remote_region_ndim x.1), tr_unit x.1).

Lemma parse_headers_at access_type buf pkgs : Forall (λ x, pkg_ok access_type x.1 x.2) pkgs → ∀ ptr rest,
  at_off buf ptr ((pkgs ≫= header_bytes) ++ rest) →
  parse_headers buf ptr (length pkgs) = Some (header_of <$> pkgs, ptr + 24 * lenZ pkgs).
Proof.
  induction 1 as [|x pkgs [Hid Hu Hn Ho _ _ _ _] _ IH]; intros ptr rest Hat; cbn [length parse_headers].
  - rewrite (lenZ_nil (A := pkg)). do 2 f_equal. lia.
  - rewrite bind_cons in Hat. unfold header_bytes in Hat at 1. rewrite <-!app_assoc in Hat.
    rewrite (load_u64_at _ _ _ _ Hat Hid). cbn [mbind option_bind]. eapply at_off_app in Hat; [|reflexivity]. rewrite lenZ_u64_bytes in Hat.
    rewrite (load_int_at _ _ _ _ Hat) by (rewrite Ho; lia). cbn [mbind option_bind].
    eapply at_off_app with (off' := ptr + 12) in Hat; [|rewrite lenZ_int_bytes; lia].
    rewrite (load_int_at _ _ _ _ Hat) by lia. cbn [mbind option_bind].
    eapply at_off_app with (off' := ptr + 16) in Hat; [|rewrite lenZ_int_bytes; lia].
    rewrite (load_u64_at _ _ _ _ Hat Hu). cbn [mbind option_bind].
    eapply at_off_app with (off' := ptr + 24) in Hat; [|rewrite lenZ_u64_bytes; lia].
    rewrite (IH _ _ Hat). cbn [mbind option_bind]. rewrite lenZ_cons. unfold header_of. cbn. do 2 f_equal. lia.
Qed.

(** The entry [d] the server has for the package [x]. *)
Definition received (access_type : pdc_access_t) (buf : list byte) (x : pkg) (d : request_data) : Prop :=
  if decide (access_type = PDC_WRITE)
  then ∃ data_buf, d = parsed_as x (Some data_buf) ∧ mem_read buf data_buf (obj_data_size x.1 x.2) = Some (pkg_data x.1 x.2)
  else d = parsed_as x None.

Lemma parse_bodies_at access_type buf pkgs : Forall (λ x, pkg_ok access_type x.1 x.2) pkgs → ∀ ptr rest,
  at_off buf ptr ((pkgs ≫= body_bytes access_type) ++ rest) →
  ∃ ds, parse_bodies buf access_type ptr (header_of <$> pkgs) = Some ds ∧ Forall2 (received access_type buf) pkgs ds.
Proof.
  induction 1 as [|x pkgs Hx _ IH]; intros ptr rest Hat; [by exists []|]. pose proof Hx as [Hid Hu Hn Ho [Hd Hd'] [Hf Hf'] [Hs Hs'] Hdata].
  rewrite bind_cons in Hat. unfold body_bytes in Hat at 1. rewrite <-!app_assoc in Hat.
  set (n := tr_remote_region_ndim x.1) in *. unfold header_of. cbn [fmap list_fmap parse_bodies]. fold n. rewrite Ho, Nat2Z.id.
  rewrite (load_u64s_at _ _ _ _ _ Hat) by auto. cbn [mbind option_bind].
  eapply at_off_app with (off' := ptr + Z.of_nat n * 8) in Hat; [|rewrite lenZ_u64s_bytes; unfold lenZ; lia].
  rewrite (load_u64s_at _ _ _ _ _ Hat) by auto. cbn [mbind option_bind].
  eapply at_off_app with (off' := ptr + Z.of_nat n * 8 + Z.of_nat n * 8) in Hat; [|rewrite lenZ_u64s_bytes; unfold lenZ; lia].
  rewrite (load_u64s_at _ _ _ _ _ Hat) by (auto; congruence). cbn [mbind option_bind].
  eapply at_off_app with (off' := ptr + Z.of_nat n * 8 + Z.of_nat n * 8 + Z.of_nat n * 8) in Hat; [|rewrite lenZ_u64s_bytes; unfold lenZ; lia].
  change (foldl _ _ (seq 1 (n - 1))) with (obj_data_size x.1 x.2). fold (header_of).
  set (ptr3 := ptr + Z.of_nat n * 8 + Z.of_nat n * 8 + Z.of_nat n * 8) in *. destruct (decide (access_type = PDC_WRITE)) as [E|E].
  - pose proof (lenZ_pkg_data _ _ (Hdata E)) as Hdl. pose proof Hat as Hrd.
    eapply at_off_app with (off' := ptr3 + obj_data_size x.1 x.2) in Hat; [|lia].
    destruct (IH _ _ Hat) as (ds & Hrun & HF). cbn [fmap] in Hrun. rewrite Hrun. cbn [mbind option_bind]. eexists. split; [reflexivity|].
    constructor; [|done]. unfold received. rewrite decide_True by done. exists ptr3. unfold parsed_as. fold n. rewrite Ho. split; [done|].
    by apply (mem_read_at_off _ _ _ _ _ Hrd).
  - destruct (IH _ _ Hat) as (ds & Hrun & HF). cbn [fmap] in Hrun. rewrite Hrun. cbn [mbind option_bind]. eexists. split; [reflexivity|].
    constructor; [|done]. unfold received, parsed_as. rewrite decide_False by done. fold n. by rewrite Ho.
Qed.

(** Consecutive positions for the data of a read. *)
Fixpoint read_positions (a : Z) (pkgs : list pkg) : list Z :=
  match pkgs with [] => [] | x :: pkgs => a :: read_positions (a + obj_data_size x.1 x.2) pkgs end.

Lemma pack_bodies access_type pkgs cap : Forall (λ x, pkg_ok access_type x.1 x.2) pkgs → ∀ w st ptr2 rbb,
  filling cap w st → lenZ w + lenZ (pkgs ≫= body_bytes access_type) ≤ cap →
  ∃ st' ptr2', foldl (λ acc '(r, p),
      '(st, ptr2, read_bulk_buf) ← acc;
      let '(ptr2, read_bulk_buf) :=
        if decide (access_type = PDC_READ) then (ptr2 + obj_data_size r p, read_bulk_buf ++ [ptr2])
        else (ptr2, read_bulk_buf) in
      st ← pack_body access_type r p st;
      Some (st, ptr2, read_bulk_buf)) (Some (st, ptr2, rbb)) pkgs =
    Some (st', ptr2', if decide (access_type = PDC_READ) then rbb ++ read_positions ptr2 pkgs else rbb) ∧
    filling cap (w ++ (pkgs ≫= body_bytes access_type)) st'.
Proof.
  induction 1 as [|[r p] pkgs Hx _ IH]; intros w st ptr2 rbb Hst Hl.
  - exists st, ptr2. cbn [foldl read_positions]. rewrite !app_nil_r. by case_decide.
  - rewrite bind_cons in *. rewrite lenZ_app in Hl. pose proof (lenZ_nonneg (pkgs ≫= body_bytes access_type)).
    destruct (emits_body cap access_type (r, p) Hx w st Hst ltac:(lia)) as (st1 & Hrun & Hst1). cbn [fst snd] in Hrun.
    cbn [foldl mbind option_bind]. destruct (decide (access_type = PDC_READ)) as [E|E].
    + rewrite Hrun. cbn [mbind option_bind]. destruct (IH _ st1 (ptr2 + obj_data_size r p) (rbb ++ [ptr2]) Hst1) as (st' & ptr2' & -> & Hst'); [rewrite lenZ_app; lia|].
      exists st', ptr2'. cbn [read_positions fst snd]. rewrite <-!app_assoc in *. done.
    + rewrite Hrun. cbn [mbind option_bind]. destruct (IH _ st1 ptr2 rbb Hst1) as (st' & ptr2' & -> & Hst'); [rewrite lenZ_app; lia|].
      exists st', ptr2'. rewrite <-!app_assoc in *. done.
Qed.

Lemma at_off_intro {A} (buf pre rest : list A) off : buf = pre ++ rest → off = lenZ pre → at_off buf off rest.
Proof. intros -> ->. by exists pre. Qed.

Lemma pack_all_ok junk access_type pkgs :
  access_type = PDC_READ ∨ access_type = PDC_WRITE → Forall (λ x, pkg_ok access_type x.1 x.2) pkgs →
  24 * lenZ pkgs + sum_of (λ x, meta_size x + obj_data_size x.1 x.2) pkgs < W64 →
  ∃ buf ds, PDC_Client_pack_all_requests junk access_type pkgs =
      Some (buf, lenZ buf, if decide (access_type = PDC_READ) then read_positions 0 pkgs else []) ∧
    parse_bulk_data buf (length pkgs) access_type = Some ds ∧ Forall2 (received access_type buf) pkgs ds ∧
    (access_type = PDC_READ → sum_of (λ x, obj_data_size x.1 x.2) pkgs ≤ lenZ buf) ∧ lenZ buf < W64.
Proof.
  intros Hacc Hok Hw. unfold PDC_Client_pack_all_requests.
  rewrite pack_sizes_eq by (eapply list.Forall_impl; [exact Hok|intros x Hx; apply (pk_ndim _ _ _ Hx)]).
  assert (sum_of (λ x, meta_size x + obj_data_size x.1 x.2) pkgs = sum_of meta_size pkgs + sum_of (λ x, obj_data_size x.1 x.2) pkgs) as Hsum.
  { clear. unfold sum_of. induction pkgs as [|x pkgs IH]; simpl; [done|]. rewrite IH. lia. }
  pose proof (sum_of_nonneg meta_size pkgs ltac:(intros; unfold meta_size; lia)) as H1.
  pose proof (sum_of_nonneg (λ x, obj_data_size x.1 x.2) pkgs ltac:(intros; apply obj_data_size_range)) as H2.
  pose proof (lenZ_nonneg pkgs) as H3. rewrite Hsum in Hw.
  assert (lenZ (pkgs ≫= body_bytes access_type) =
    sum_of meta_size pkgs + if decide (access_type = PDC_WRITE) then sum_of (λ x, obj_data_size x.1 x.2) pkgs else 0) as Hbody.
  { rewrite (sum_of_bind (λ x, meta_size x + if decide (access_type = PDC_WRITE) then obj_data_size x.1 x.2 else 0)).
    - case_decide; [done|]. clear. unfold sum_of. induction pkgs as [|x pkgs IH]; simpl; [done|]. rewrite IH. lia.
    - eapply list.Forall_impl; [exact Hok|]. intros x. apply lenZ_body. }
  assert (lenZ (pkgs ≫= header_bytes) = lenZ pkgs * 24) as Hhead.
  { apply lenZ_bind_const, list.Forall_forall. intros x _. unfold header_bytes. by autorewrite with wire. }
  set (meta := lenZ pkgs *w (8 + 4 * 2 + 8)). assert (meta = lenZ pkgs * 24) as Hmeta by (apply u64_id; lia).
  match goal with |- context [let '(_, _) := ?dt in _] => destruct dt as [data total] eqn:Edt end.
  set (cap := if decide (access_type = PDC_WRITE) then meta +w data else _).
  assert (lenZ (pkgs ≫= header_bytes) + lenZ (pkgs ≫= body_bytes access_type) ≤ cap ∧
    (access_type = PDC_READ → sum_of (λ x, obj_data_size x.1 x.2) pkgs ≤ cap) ∧ cap < W64) as (Hcap & Hcap2 & Hcapw).
  { unfold cap. rewrite Hhead, Hbody, Hmeta. case_decide as E.
    - injection Edt as <- <-. rewrite Hsum, (u64_id (sum_of _ _ + sum_of _ _)) by lia. rewrite u64_id by lia. split; [lia|]. split; [congruence|lia].
    - injection Edt as <- <-. rewrite !(u64_id (sum_of _ _)) by lia. rewrite !u64_id by lia. case_decide; lia. }
  assert (emits cap (λ st, foldl (λ st '(r, _), st ← st; pack_header r st) (Some st) pkgs) (pkgs ≫= header_bytes)) as Hem.
  { apply (emits_foldl cap _ (λ x, pack_header x.1)); [by intros ? []|]. apply list.Forall_forall. intros. apply emits_header. }
  pose proof (lenZ_nonneg (pkgs ≫= header_bytes)). pose proof (lenZ_nonneg (pkgs ≫= body_bytes access_type)).
  destruct (Hem [] (malloc junk cap, 0)) as (st1 & Hrun1 & Hst1); [apply filling_malloc; lia|rewrite lenZ_nil; lia|].
  rewrite Hrun1. cbn [mbind option_bind]. rewrite app_nil_l in Hst1.
  destruct (pack_bodies access_type pkgs cap Hok _ st1 0 [] Hst1 ltac:(lia)) as (st2 & ptr2 & -> & (rest & -> & Hcaplen)). cbn [mbind option_bind fst].
  set (buf := ((pkgs ≫= header_bytes) ++ (pkgs ≫= body_bytes access_type)) ++ rest).
  destruct (parse_bodies_at access_type buf pkgs Hok (24 * lenZ pkgs) rest) as (ds & Hparse & Hds).
  { eapply at_off_intro; [by rewrite app_assoc|lia]. }
  exists buf, ds. split; [|split; [|split; [done|split]]].
  - rewrite <-lenZ_app in Hcaplen. fold buf in Hcaplen. rewrite Hcaplen. by case_decide.
  - unfold parse_bulk_data. rewrite (parse_headers_at access_type buf pkgs Hok 0 ((pkgs ≫= body_bytes access_type) ++ rest)).
    + cbn [mbind option_bind]. by rewrite Z.add_0_l.
    + apply (at_off_intro _ []); [|done]. unfold buf. by rewrite <-app_assoc.
  - intros E. specialize (Hcap2 E). rewrite <-lenZ_app in Hcaplen. fold buf in Hcaplen. lia.
  - rewrite <-lenZ_app in Hcaplen. fold buf in Hcaplen. lia.
Qed.

(** C31: the bulk buffer of a start-all call has exactly the size computed for
    it and is never overrun; the server parses it into the requests that were
    packed, each write with its data; and for a read the places for the data of
    the requests follow each other in the buffer. *)
Theorem pack_all_parsed junk access_type pkgs :
  access_type = PDC_READ ∨ access_type = PDC_WRITE → Forall (λ x, pkg_ok access_type x.1 x.2) pkgs →
  24 * lenZ pkgs + sum_of (λ x, meta_size x + obj_data_size x.1 x.2) pkgs < W64 →
  ∃ buf ds, PDC_Client_pack_all_requests junk access_type pkgs =
      Some (buf, lenZ buf, if decide (access_type = PDC_READ) then read_positions 0 pkgs else []) ∧
    parse_bulk_data buf (length pkgs) access_type = Some ds ∧ Forall2 (received access_type buf) pkgs ds ∧
    (access_type = PDC_READ → sum_of (λ x, obj_data_size x.1 x.2) pkgs ≤ lenZ buf).
Proof.
  intros Hacc Hok Hw. destruct (pack_all_ok junk access_type pkgs Hacc Hok Hw) as (buf & ds & ? & ? & ? & ? & _). by exists buf, ds.
Qed.

(** * The contiguous copy *)

(** Memory that is copied row by row: after [k] rows the block begins with the
    bytes of the source. *)
Definition rows_done (buf : list byte) (base row total k : Z) (st : list byte * Z) : Prop :=
  st.2 = k * row ∧ lenZ st.1 = total ∧ ∃ rest, st.1 = take (Z.to_nat (k * row)) (drop (Z.to_nat base) buf) ++ rest.

Lemma rows_step buf base row total k soff n st :
  0 ≤ base → 0 ≤ row → 0 ≤ k → base + (k + 1) * row ≤ lenZ buf → (k + 1) * row ≤ total → soff = base + k * row → n = row →
  rows_done buf base row total k st →
  ∃ nb, memcpy st.1 st.2 buf soff n = Some nb ∧ rows_done buf base row total (k + 1) (nb, st.2 + n).
Proof.
  intros Hb Hr Hk Hsrc Htot -> -> (Hptr & Hlen & rest & Hnb). destruct st as [b ptr]. simpl in *. subst ptr.
  assert (0 ≤ k * row) by nia. assert ((k + 1) * row = k * row + row) as E by lia.
  assert (length (take (Z.to_nat (k * row)) (drop (Z.to_nat base) buf)) = Z.to_nat (k * row)) as Htk.
  { rewrite length_take, length_drop. unfold lenZ in Hsrc. lia. }
  unfold memcpy, mem_read. rewrite decide_True by lia. cbn [mbind option_bind]. unfold mem_write.
  assert (lenZ (take (Z.to_nat row) (drop (Z.to_nat (base + k * row)) buf)) = row) as Hd.
  { unfold lenZ in *. rewrite length_take, length_drop. lia. }
  rewrite decide_True by lia. eexists. split; [reflexivity|]. unfold rows_done. simpl. split; [lia|]. split.
  - unfold lenZ in *. rewrite !length_app, !length_take, !length_drop in *. lia.
  - eexists. rewrite app_assoc. f_equal. rewrite Hnb at 1. rewrite take_app_le by lia. rewrite take_ge by lia.
    replace (Z.to_nat (base + k * row)) with (Z.to_nat base + Z.to_nat (k * row))%nat by lia.
    rewrite <-drop_drop, take_take_drop. f_equal. lia.
Qed.

Lemma rows_done_0 buf base row junk total : 0 ≤ total → rows_done buf base row total 0 (malloc junk total, 0).
Proof. intros. split; [done|]. split; [by apply lenZ_malloc|]. by exists (malloc junk total). Qed.

Lemma rows_done_all buf base row total k st : 0 ≤ base → 0 ≤ total → base + total ≤ lenZ buf → k * row = total →
  rows_done buf base row total k st → mem_read buf base total = Some st.1.
Proof.
  intros Hb Ht Hl E (_ & Hlen & rest & Hnb). unfold mem_read. rewrite decide_True by lia. f_equal. rewrite E in Hnb. rewrite Hnb.
  destruct rest; [by rewrite app_nil_r|]. exfalso. rewrite Hnb in Hlen. unfold lenZ in *.
  rewrite length_app, length_take, length_drop in Hlen. simpl in Hlen. lia.
Qed.

(** The user's data: the bytes from the local offset on, and what a pointer to
    the contiguous copy gives. *)
Definition user_data (buf : list byte) (local_offset local_size : list Z) (unit : Z) : option (list byte) :=
  mem_read buf (lin local_size local_offset * unit) (vol local_size * unit).
Definition packed_data (buf : list byte) (p : new_buf_ptr) (n : Z) : option (list byte) :=
  match p with InUserBuf off => mem_read buf off n | OwnBlock b => if decide (lenZ b = n) then Some b else None end.

Lemma pack_2d junk buf o0 o1 s0 s1 unit :
  0 < unit → 0 ≤ o0 → 0 ≤ o1 → 0 < s0 → 0 < s1 →
  (o0 * s1 + o1) * unit + s0 * s1 * unit ≤ lenZ buf < W64 →
  ∃ b, pack_region_buffer junk buf (s0 * s1 * unit) 2 [o0; o1] [s0; s1] unit PDC_WRITE = Some (SUCCEED, Some (OwnBlock b)) ∧
    mem_read buf ((o0 * s1 + o1) * unit) (s0 * s1 * unit) = Some b.
Proof.
  intros Hu H0 H1 Hs0 Hs1 Hl. unfold pack_region_buffer, arr. cbn -[forZ lenZ Z.to_nat malloc]. rewrite decide_True by done.
  pose (base := (o0 * s1 + o1) * unit). pose (row := s1 * unit).
  destruct (forZ_inv (rows_done buf base row (s0 * s1 * unit)) (Z.to_nat s0) 0
    (λ i '(new_buf, ptr), new_buf ← memcpy new_buf ptr buf (((o0 +w i) *w s1 +w o1) *w unit) (s1 *w unit);
       Some (new_buf, ptr + (s1 *w unit))) (malloc junk (s0 * s1 * unit), 0)) as ([b ptr] & -> & Hb).
  - apply rows_done_0. nia.
  - intros i [nb ptr] Hi Hst.
    destruct (rows_step buf base row (s0 * s1 * unit) i (((o0 +w i) *w s1 +w o1) *w unit) (s1 *w unit) (nb, ptr)) as (nb' & Hrun & Hnb');
      try exact Hst; unfold base, row in *; try nia.
    + apply u64_eq; [rewrite ?u64_eqm; unfold eqm; f_equal; ring|nia].
    + apply u64_id. nia.
    + simpl in Hrun. rewrite Hrun. eexists. split; [reflexivity|]. exact Hnb'.
  - cbn [mbind option_bind]. eexists. split; [reflexivity|]. rewrite Z.add_0_l, Z2Nat.id in Hb by lia.
    apply (rows_done_all buf base row _ s0 (b, ptr)) in Hb; [exact Hb|unfold base; nia|nia|unfold base; lia|unfold row; ring].
Qed.

Lemma row_index_bound i j s0 s1 : 0 ≤ i < s0 → 0 ≤ j < s1 → 0 ≤ i * s1 + j ∧ i * s1 + j + 1 ≤ s0 * s1.
Proof. nia. Qed.
Lemma mul_fit k s row : 0 ≤ k → k + 1 ≤ s → 0 ≤ row → 0 ≤ k * row ∧ (k + 1) * row ≤ s * row.
Proof. nia. Qed.

Lemma pack_3d junk buf o0 o1 o2 s0 s1 s2 unit :
  0 < unit → 0 ≤ o0 → 0 ≤ o1 → 0 ≤ o2 → 0 < s0 → 0 < s1 → 0 < s2 →
  ((o0 * s1 + o1) * s2 + o2) * unit + s0 * s1 * s2 * unit ≤ lenZ buf < W64 →
  ∃ b, pack_region_buffer junk buf (s0 * s1 * s2 * unit) 3 [o0; o1; o2] [s0; s1; s2] unit PDC_WRITE = Some (SUCCEED, Some (OwnBlock b)) ∧
    mem_read buf (((o0 * s1 + o1) * s2 + o2) * unit) (s0 * s1 * s2 * unit) = Some b.
Proof.
  intros Hu H0 H1 H2 Hs0 Hs1 Hs2 Hl. unfold pack_region_buffer, arr. cbn -[forZ lenZ Z.to_nat malloc]. rewrite decide_True by done.
  pose (base := ((o0 * s1 + o1) * s2 + o2) * unit). pose (row := s2 * unit).
  set (body := λ (i j : Z) (st : list byte * Z), let '(new_buf, ptr) := st in
     new_buf ← memcpy new_buf ptr buf (((o0 +w i) *w s1 *w s2 +w (o1 +w j) *w s2 +w o2) *w unit) (s2 *w unit);
     Some (new_buf, ptr + (s2 *w unit))).
  match goal with |- context [forZ (Z.to_nat s0) 0 ?f ?st] =>
    change (forZ (Z.to_nat s0) 0 f st) with (forZ (Z.to_nat s0) 0 (λ i, forZ (Z.to_nat s1) 0 (body i)) st) end.
  assert (0 ≤ base) as Hbase by (unfold base; repeat (apply Z.mul_nonneg_nonneg || apply Z.add_nonneg_nonneg); lia).
  assert (0 ≤ row) as Hrow by (unfold row; apply Z.mul_nonneg_nonneg; lia).
  assert (s0 * s1 * s2 * unit = s0 * s1 * row) as Htot by (unfold row; ring).
  assert (0 < s0 * s1) as Hs01 by (apply Z.mul_pos_pos; lia).
  assert (row ≤ s0 * s1 * row) as Hrt by (rewrite <-(Z.mul_1_l row) at 1; apply Z.mul_le_mono_nonneg_r; lia). fold base in Hl. fold row.
  destruct (forZ_inv (λ i, rows_done buf base row (s0 * s1 * s2 * unit) (i * s1)) (Z.to_nat s0) 0
    (λ i, forZ (Z.to_nat s1) 0 (body i)) (malloc junk (s0 * s1 * s2 * unit), 0)) as ([b ptr] & -> & Hb).
  - rewrite Z.mul_0_l. apply rows_done_0. lia.
  - intros i st Hi Hst.
    destruct (forZ_inv (λ j, rows_done buf base row (s0 * s1 * s2 * unit) (i * s1 + j)) (Z.to_nat s1) 0 (body i) st) as (st' & Hrun & Hst').
    + by rewrite Z.add_0_r.
    + intros j [nb ptr] Hj Hnb. destruct (row_index_bound i j s0 s1) as [HK0 HK]; [lia|lia|].
      destruct (mul_fit (i * s1 + j) (s0 * s1) row HK0 HK Hrow) as [Hm0 Hm1].
      destruct (rows_step buf base row (s0 * s1 * s2 * unit) (i * s1 + j)
        (((o0 +w i) *w s1 *w s2 +w (o1 +w j) *w s2 +w o2) *w unit) (s2 *w unit) (nb, ptr)) as (nb' & Hm & Hnb');
        [done|done|done|lia|lia| | |exact Hnb|].
      * apply u64_eq; [rewrite ?u64_eqm; unfold eqm, base, row; f_equal; ring|lia].
      * apply u64_id. lia.
      * simpl in Hm. unfold body. rewrite Hm. eexists. split; [reflexivity|]. by rewrite Z.add_assoc.
    + exists st'. split; [done|]. rewrite Z.add_0_l, Z2Nat.id in Hst' by lia. by replace ((i + 1) * s1) with (i * s1 + s1) by ring.
  - cbn [mbind option_bind]. eexists. split; [reflexivity|]. rewrite Z.add_0_l, Z2Nat.id in Hb by lia.
    apply (rows_done_all buf base row _ (s0 * s1) (b, ptr)) in Hb; [exact Hb|done|lia|lia|lia].
Qed.

Lemma memcpy_start (buf nb : list byte) n : lenZ nb = n → n ≤ lenZ buf → memcpy buf 0 nb 0 n = Some (nb ++ drop (length nb) buf).
Proof.
  intros Hn Hl. unfold memcpy. rewrite mem_read_all by done. cbn [mbind option_bind]. unfold mem_write.
  rewrite decide_True by lia. done.
Qed.

(** The user's buffer holds the bytes of the local region: [vol] elements from
    its offset on. *)
Record user_buf_ok (n : nat) (unit : Z) (off size : list Z) (buf : list byte) : Prop := {
  ub_ndim : (1 ≤ n ≤ 3)%nat;
  ub_unit : 0 < unit;
  ub_off : length off = n ∧ Forall (Z.le 0) off;
  ub_size : length size = n ∧ Forall (Z.lt 0) size;
  ub_buf : lin size off * unit + vol size * unit ≤ lenZ buf < W64 }.

Lemma pack_1d junk buf o s unit total :
  0 < unit → 0 ≤ o → 0 < s → o * unit + s * unit ≤ lenZ buf < W64 →
  ∃ p, pack_region_buffer junk buf total 1 [o] [s] unit PDC_WRITE = Some (SUCCEED, Some p) ∧
    is_Some (packed_data buf p (s * unit)) ∧ packed_data buf p (s * unit) = mem_read buf (o * unit) (s * unit).
Proof.
  intros Hu Ho Hs Hl. eexists. split; [reflexivity|]. unfold packed_data, arr. cbn -[lenZ]. rewrite u64_id by nia. split; [|done].
  destruct (mem_read_Some buf (o * unit) (s * unit)) as (d & -> & _); [nia|nia|lia|by eexists].
Qed.

Lemma own_block_ok buf b off n : mem_read buf off n = Some b →
  is_Some (packed_data buf (OwnBlock b) n) ∧ packed_data buf (OwnBlock b) n = mem_read buf off n.
Proof.
  intros E. pose proof E as E'. unfold mem_read in E'. case_decide as H; [|done]. injection E' as <-.
  unfold packed_data. rewrite decide_True; [by rewrite E|]. unfold lenZ in *. rewrite length_take, length_drop. lia.
Qed.

Lemma pack_region_buffer_ok junk n unit off size buf :
  user_buf_ok n unit off size buf →
  (∃ p, pack_region_buffer junk buf (vol size * unit) n off size unit PDC_WRITE = Some (SUCCEED, Some p) ∧
     is_Some (packed_data buf p (vol size * unit)) ∧ packed_data buf p (vol size * unit) = user_data buf off size unit) ∧
  ∀ nb, (2 ≤ n)%nat → lenZ nb = vol size * unit →
    release_copy buf n size unit PDC_READ nb = Some (nb ++ drop (length nb) buf).
Proof.
  intros [Hn Hu [Ho Ho'] [Hs Hs'] Hl]. unfold user_data.
  apply dims_cases in Hn as [->|[->| ->]]; dims3 Ho o0 o1 o2; dims3 Hs s0 s1 s2;
    repeat match goal with H : Forall _ (_ :: _) |- _ => apply list.Forall_cons in H as [? H] end;
    unfold lin, lin_from in *; cbn -[lenZ pack_region_buffer mem_read release_copy packed_data] in *.
  - replace (0 * s0 + o0) with o0 in * by lia. replace (s0 * 1) with s0 in * by lia. split; [|lia]. by apply pack_1d.
  - replace (0 * s0 + o0) with o0 in * by lia. replace (s0 * (s1 * 1)) with (s0 * s1) in * by lia. split.
    + destruct (pack_2d junk buf o0 o1 s0 s1 unit) as (b & Hrun & Hb); [done..|]. exists (OwnBlock b). split; [done|]. by apply own_block_ok.
    + intros nb _ Hnb. unfold release_copy, arr. cbn -[lenZ]. assert (0 < s0 * s1 ∧ 0 ≤ o0 * s1) as [? ?] by (split; nia).
      rewrite (u64_id (s0 * s1)), u64_id by nia. apply memcpy_start; [done|nia].
  - replace (0 * s0 + o0) with o0 in * by lia. replace (s0 * (s1 * (s2 * 1))) with (s0 * s1 * s2) in * by lia. split.
    + destruct (pack_3d junk buf o0 o1 o2 s0 s1 s2 unit) as (b & Hrun & Hb); [done..|]. exists (OwnBlock b). split; [done|]. by apply own_block_ok.
    + intros nb _ Hnb. unfold release_copy, arr. cbn -[lenZ].
      assert (0 < s0 * s1 ∧ 0 < s0 * s1 * s2 ∧ 0 ≤ (o0 * s1 + o1) * s2) as (? & ? & ?) by (repeat split; nia).
      assert (0 ≤ ((o0 * s1 + o1) * s2 + o2) * unit) by nia. rewrite (u64_id (s0 * s1)), (u64_id (s0 * s1 * s2)), u64_id by nia. apply memcpy_start; [done|lia].
Qed.

(** For a write the nested copy loops amount to one copy of the memory that
    starts at the local offset: the contiguous data are the bytes of the user's
    buffer from the row-major index of the offset on, as many as the region
    has.  For a read in two or three dimensions, however, the data received are
    put at the beginning of the user's buffer, whatever the local offset. *)
Theorem pack_region_buffer_contiguous junk n unit off size buf :
  user_buf_ok n unit off size buf →
  (∃ p, pack_region_buffer junk buf (vol size * unit) n off size unit PDC_WRITE = Some (SUCCEED, Some p) ∧
     is_Some (packed_data buf p (vol size * unit)) ∧ packed_data buf p (vol size * unit) = user_data buf off size unit) ∧
  ∀ nb, (2 ≤ n)%nat → lenZ nb = vol size * unit →
    release_copy buf n size unit PDC_READ nb = Some (nb ++ drop (length nb) buf).
Proof. apply pack_region_buffer_ok. Qed.

(** * The query for the data servers *)

Definition query_of (x : pkg) : query_region :=
  QueryRegion (tr_obj_id x.1) (pk_data_server_id x.2) (tr_region_partition x.1 mod 256) (tr_unit x.1)
    (pk_remote_offset x.2) (pk_remote_size x.2).

Definition lens_ok (x : pkg) : Prop :=
  length (pk_remote_offset x.2) = tr_remote_region_ndim x.1 ∧ length (pk_remote_size x.2) = tr_remote_region_ndim x.1.

Lemma lenZ_query_bytes x : lens_ok x → lenZ (query_region_bytes (query_of x)) = 25 + 16 * Z.of_nat (tr_remote_region_ndim x.1).
Proof.
  intros [Ho Hs]. unfold query_region_bytes, query_of. cbn [qr_offset qr_size]. autorewrite with wire. unfold lenZ. lia.
Qed.

Lemma pack_query_spec junk pkgs : Forall lens_ok pkgs → lenZ (pkgs ≫= λ x, query_region_bytes (query_of x)) < W64 →
  ∃ total, pack_region_metadata_query junk pkgs = Some (pkgs ≫= λ x, query_region_bytes (query_of x), total) ∧
    total = lenZ (pkgs ≫= λ x, query_region_bytes (query_of x)).
Proof.
  intros Hl Hw. unfold pack_region_metadata_query. set (bytes := λ x, query_region_bytes (query_of x)) in *.
  set (total := foldl _ 0 pkgs).
  assert (total = lenZ (pkgs ≫= bytes)) as Htot.
  { pose (f := λ x : pkg, 4 +w 8 *w 2 *w Z.of_nat (tr_remote_region_ndim x.1) +w 8 +w 4 +w 1 +w 8).
    assert (total = foldl (λ t x, t +w f x) 0 pkgs) as ->.
    { unfold total, f. clear. generalize 0. induction pkgs as [|[r p] pkgs IH]; intros a; [done|]. cbn [foldl]. by rewrite IH. }
    rewrite foldl_addw by (unfold W64; lia). rewrite Z.add_0_l.
    assert (Prelude.eqm (foldr (λ x t, f x + t) 0 pkgs) (lenZ (pkgs ≫= bytes))) as E.
    { clear Hw. induction Hl as [|x pkgs Hx _ IH]; [done|]. rewrite bind_cons, lenZ_app. cbn [foldr]. rewrite IH.
      assert (lenZ (bytes x) = 25 + 16 * Z.of_nat (tr_remote_region_ndim x.1)) as -> by by apply lenZ_query_bytes.
      unfold f. rewrite ?u64_eqm. unfold Prelude.eqm. f_equal. ring. }
    unfold Prelude.eqm in E. rewrite E. apply u64_id. pose proof (lenZ_nonneg (pkgs ≫= bytes)). lia. }
  assert (emits total (λ st, foldl (λ st '(r, p), st ← st; pack_query_region r p st) (Some st) pkgs) (pkgs ≫= bytes)) as Hem.
  { apply (emits_foldl total _ (λ x, pack_query_region x.1 x.2)); [by intros ? []|]. eapply list.Forall_impl; [exact Hl|].
    intros x [Hlo Hls]. unfold bytes, query_region_bytes, query_of. cbn [qr_obj_id qr_data_server_id qr_region_partition qr_unit qr_offset qr_size].
    assert (lenZ (pk_remote_offset x.2) = Z.of_nat (tr_remote_region_ndim x.1)) as -> by (unfold lenZ; lia).
    repeat (apply emits_bind; [first [apply emits_emit|by apply emits_u64s]|]). by apply emits_u64s. }
  pose proof (lenZ_nonneg (pkgs ≫= bytes)).
  destruct (Hem [] (malloc junk total, 0)) as ([buf ptr] & -> & Hst); [apply filling_malloc; lia|rewrite lenZ_nil; lia|].
  cbn [mbind option_bind fst]. exists total. split; [|done]. by rewrite (filling_full _ _ _ _ Hst) by (symmetry; exact Htot).
Qed.

(** ** Unpacking the answer *)

Abbreviation entry := (Z * list Z * list Z)%type.
Definition part_of (r : pdc_transfer_request) (e : entry) : obj_part :=
  let '(srv, oo, os) := e in ObjPart srv oo os (zip_with (λ o ro, o -w ro) oo (tr_remote_region_offset r)).

(** An entry for a part of the region of the request. *)
Record entry_ok (r : pdc_transfer_request) (input : start_all_pkg) (e : entry) : Prop := {
  eo_server : 0 ≤ e.1.1 < W32;
  eo_wf : wf_region (tr_remote_region_ndim r) e.1.2 e.2;
  eo_sub p : in_region e.1.2 e.2 p → in_region (tr_remote_region_offset r) (tr_remote_region_size r) p }.

(** A request whose region can be copied; a write has its data. *)
Record request_ok (r : pdc_transfer_request) (input : start_all_pkg) : Prop := {
  ro_ndim : (1 ≤ tr_remote_region_ndim r ≤ 3)%nat;
  ro_unit : 0 < tr_unit r;
  ro_wf : wf_region (tr_remote_region_ndim r) (tr_remote_region_offset r) (tr_remote_region_size r);
  ro_vol : vol (tr_remote_region_size r) * tr_unit r < W64;
  ro_data : tr_access_type r = PDC_WRITE →
    ∃ src, pk_buf input = Some src ∧ lenZ src = vol (tr_remote_region_size r) * tr_unit r }.

(** The package for entry number [i]; that of a write has the bytes of its points. *)
Record unpacked (r : pdc_transfer_request) (input : start_all_pkg) (i : Z) (e : entry) (p : start_all_pkg) : Prop := {
  un_server : pk_data_server_id p = e.1.1;
  un_request : pk_transfer_request p = pk_transfer_request input;
  un_offset : pk_remote_offset p = e.1.2;
  un_size : pk_remote_size p = e.2;
  un_index : pk_index p = i;
  un_data : tr_access_type r = PDC_WRITE → ∃ src b, pk_buf input = Some src ∧ pk_buf p = Some b ∧
    ∀ q j, in_region e.1.2 e.2 q → 0 ≤ j < tr_unit r →
      reg_get (tr_unit r) e.1.2 e.2 b q j = reg_get (tr_unit r) (tr_remote_region_offset r) (tr_remote_region_size r) src q j }.

Lemma wf_region_is_u64 n off size : wf_region n off size → Forall is_u64 off ∧ Forall is_u64 size.
Proof.
  intros [_ _ H]. induction H as [|o s off size Ho _ IH]; [by split|]. unfold is_u64. split; constructor; try tauto; lia.
Qed.

Lemma sub_offset_eq n off size oo os : wf_region n off size → wf_region n oo os → (∀ p, in_region oo os p → in_region off size p) →
  zip_with (λ o ro, o -w ro) oo off = psub oo off.
Proof.
  intros Hwf Hwo Hsub. pose proof (corner_in_region _ _ _ Hwo) as Hc. apply Hsub in Hc.
  destruct (proj1 (wf_region_arr _ _ _) Hwf) as (_ & _ & Hf). destruct (proj1 (wf_region_arr _ _ _) Hwo) as (_ & _ & Ho).
  destruct Hwf as [Hlo Hls _], Hwo as [Hloo _ _]. apply (in_region_arr n) in Hc as [_ Hc]; [|done..].
  unfold psub. apply (arr_ext n); [rewrite length_zip_with; lia|rewrite length_zip_with; lia|]. intros i Hi.
  destruct (lookup_lt_is_Some_2 oo i) as [x Hx]; [lia|]. destruct (lookup_lt_is_Some_2 off i) as [y Hy]; [lia|].
  specialize (Hf i Hi). specialize (Ho i Hi). specialize (Hc i Hi). unfold arr in *.
  rewrite (list_lookup_total_correct _ _ _ Hx) in *. rewrite (list_lookup_total_correct _ _ _ Hy) in *.
  rewrite (list_lookup_total_correct (zip_with _ oo off) i (x -w y)) by (by rewrite lookup_zip_with, Hx, Hy).
  rewrite (list_lookup_total_correct (zip_with Z.sub oo off) i (x - y)) by (by rewrite lookup_zip_with, Hx, Hy).
  apply u64_id. lia.
Qed.

Lemma entry_buf_spec junk r input e : request_ok r input → entry_ok r input e →
  ∃ b, entry_buf junk r input (psub e.1.2 (tr_remote_region_offset r)) e.2 = Some b ∧
    (tr_access_type r = PDC_WRITE → ∃ src b', pk_buf input = Some src ∧ b = Some b' ∧
      ∀ q j, in_region e.1.2 e.2 q → 0 ≤ j < tr_unit r →
        reg_get (tr_unit r) e.1.2 e.2 b' q j = reg_get (tr_unit r) (tr_remote_region_offset r) (tr_remote_region_size r) src q j).
Proof.
  intros [Hn Hu Hwf Hv Hd] [_ Hwo Hsub]. unfold entry_buf. case_decide as E; [|by eexists].
  destruct (Hd E) as (src & -> & Hl). cbn [mbind option_bind].
  pose proof (sub_region_fits _ _ _ _ _ Hwo Hwf Hsub) as Hf. pose proof (vol_fits _ _ _ Hf (wf_region_sizes _ _ _ Hwo)) as Hvf.
  assert (vol e.2 * tr_unit r ≤ vol (tr_remote_region_size r) * tr_unit r) by nia.
  rewrite foldl_mul_vol by (eauto using wf_region_sizes with lia).
  destruct (subregion_write_points _ (tr_unit r) _ _ _ _ src (malloc junk (vol e.2 * tr_unit r)) Hn Hu Hwf Hwo Hsub) as (b & Hrun & _ & Hb);
    [lia|rewrite lenZ_malloc by nia; lia|].
  rewrite Hrun. cbn [mbind option_bind]. eexists. split; [done|]. intros _. by exists src, b.
Qed.

Lemma insert_middle {A} (l1 l2 : list A) x y : <[length l1 := y]> (l1 ++ x :: l2) = l1 ++ y :: l2.
Proof. induction l1 as [|z l1 IH]; simpl; [done|]. by rewrite IH. Qed.

(** One entry of a region whose [done] entries before it have been read. *)
Lemma unpack_entry junk buf inputs n ptr c index store input r e rest done :
  inputs !! index = Some input → store !! pk_transfer_request input = Some (set_parts r (done ++ replicate (S c) None)) →
  request_ok r input → entry_ok r input e → at_off buf ptr (entry_bytes e ++ rest) →
  ∃ p, unpacked r input (lenZ done) e p ∧
    unpack_loop junk buf inputs (S n) ptr (Z.of_nat (S c)) index (Some (pk_transfer_request input)) store =
      '(pkgs, store) ← unpack_loop junk buf inputs n (ptr + lenZ (entry_bytes e)) (Z.of_nat c) (if decide (c = 0%nat) then S index else index)
        (Some (pk_transfer_request input))
        (<[pk_transfer_request input := set_parts r (done ++ Some (part_of r e) :: replicate c None)]> store);
      Some (p :: pkgs, store).
Proof.
  intros Hin Hst Hr He Hat. destruct e as [[srv oo] os]. pose proof He as [Hsrv Hwo Hsub]. cbn [fst snd] in *.
  destruct (wf_region_is_u64 _ _ _ Hwo) as [Hoo Hos]. pose proof Hwo as [Hlo Hls _].
  assert (lenZ (entry_bytes (srv, oo, os)) = 4 + 8 * Z.of_nat (tr_remote_region_ndim r) * 2) as Hle
    by (apply lenZ_entry_bytes; unfold lenZ; lia).
  destruct (entry_buf_spec junk r input (srv, oo, os) Hr He) as (b & Hb & Hdata). cbn [fst snd] in Hb, Hdata.
  exists (StartAllPkg srv (pk_transfer_request input) oo os (lenZ done) b). split.
  { by split. }
  cbn [unpack_loop]. rewrite Hin. cbn [mbind option_bind]. rewrite decide_False by lia. cbn [mbind option_bind]. rewrite Hst. cbn [mbind option_bind].
  unfold entry_bytes in Hat. rewrite <-!app_assoc in Hat. cbn [set_parts tr_remote_region_ndim tr_obj_parts tr_remote_region_offset].
  rewrite (load_u32_at _ _ _ _ Hat Hsrv). cbn [mbind option_bind].
  eapply at_off_app with (off' := ptr + 4) in Hat; [|by rewrite lenZ_u32_bytes].
  rewrite (load_u64s_at _ _ _ _ _ Hat) by auto. cbn [mbind option_bind].
  eapply at_off_app with (off' := ptr + 4 + 8 * Z.of_nat (tr_remote_region_ndim r)) in Hat; [|rewrite lenZ_u64s_bytes; unfold lenZ; lia].
  rewrite (load_u64s_at _ _ _ _ _ Hat) by auto. cbn [mbind option_bind].
  assert (lenZ (done ++ replicate (S c) None) - Z.of_nat (S c) = lenZ done) as Hidx.
  { rewrite lenZ_app. unfold lenZ. rewrite length_replicate. lia. }
  rewrite Hidx. pose proof (lenZ_nonneg done). rewrite decide_True.
  2: { rewrite lenZ_app. unfold lenZ. rewrite length_replicate. lia. }
  rewrite (sub_offset_eq _ _ _ _ _ (ro_wf _ _ Hr) Hwo Hsub).
  change (entry_buf junk (set_parts r _)) with (entry_buf junk r). rewrite Hb. cbn [mbind option_bind].
  assert (Z.to_nat (lenZ done) = length done) as -> by (unfold lenZ; lia). cbn [replicate]. rewrite insert_middle. cbn [part_of].
  rewrite (sub_offset_eq _ _ _ _ _ (ro_wf _ _ Hr) Hwo Hsub).
  replace (Z.of_nat (S c) - 1) with (Z.of_nat c) by lia. rewrite Hle. rewrite <-Z.add_assoc.
  replace (if decide (Z.of_nat c = 0) then S index else index) with (if decide (c = 0%nat) then S index else index); [done|].
  destruct (decide (c = 0%nat)); [by rewrite decide_True by lia|by rewrite decide_False by lia].
Qed.

(** The entries of a region that are left. *)
Lemma unpack_entries junk buf inputs m index input r rest : ∀ es ptr store done,
  inputs !! index = Some input → store !! pk_transfer_request input = Some (set_parts r (done ++ replicate (length es) None)) →
  request_ok r input → Forall (entry_ok r input) es → es ≠ [] → at_off buf ptr ((es ≫= entry_bytes) ++ rest) →
  ∃ ps, (∀ i e, es !! i = Some e → ∃ p, ps !! i = Some p ∧ unpacked r input (lenZ done + Z.of_nat i) e p) ∧ length ps = length es ∧
    unpack_loop junk buf inputs (length es + m) ptr (lenZ es) index (Some (pk_transfer_request input)) store =
      '(pkgs, store) ← unpack_loop junk buf inputs m (ptr + lenZ (es ≫= entry_bytes)) 0 (S index) (Some (pk_transfer_request input))
        (<[pk_transfer_request input := set_parts r (done ++ (Some ∘ part_of r <$> es))]> store);
      Some (ps ++ pkgs, store).
Proof.
  induction es as [|e es IH]; [done|]. intros ptr store done Hin Hst Hr [He Hes]%list.Forall_cons _ Hat.
  rewrite bind_cons, <-app_assoc in Hat.
  destruct (unpack_entry junk buf inputs (length es + m) ptr (length es) index store input r e _ done Hin Hst Hr He Hat) as (p & Hp & Hrun).
  change (length (e :: es) + m)%nat with (S (length es + m)). change (lenZ (e :: es)) with (Z.of_nat (S (length es))). rewrite Hrun, bind_cons.
  eapply at_off_app with (off' := ptr + lenZ (entry_bytes e)) in Hat; [|done].
  destruct (decide (es = [])) as [->|Hne].
  - exists [p]. split; [|split; [done|]].
    + intros [|i] e' Hi; [|done]. injection Hi as <-. exists p. split; [done|]. by rewrite Z.add_0_r.
    + cbn. rewrite !app_nil_r. destruct (unpack_loop _ _ _ m _ _ _ _ _) as [[pkgs st]|]; done.
  - rewrite decide_False by (by destruct es).
    destruct (IH (ptr + lenZ (entry_bytes e)) (<[pk_transfer_request input := set_parts r (done ++ Some (part_of r e) :: replicate (length es) None)]> store)
      (done ++ [Some (part_of r e)]) Hin) as (ps & Hps & Hl & Hrun2); [|done|done|done|done|].
    { rewrite lookup_insert_eq. by rewrite <-app_assoc. }
    exists (p :: ps). split; [|split; [by simpl; rewrite Hl|]].
    + intros [|i] e' Hi; simpl in Hi |- *; [injection Hi as <-; exists p; by rewrite Z.add_0_r|].
      destruct (Hps i e' Hi) as (p' & ? & Hu). exists p'. split; [done|]. rewrite lenZ_snoc in Hu. by replace (lenZ done + Z.of_nat (S i)) with (lenZ done + 1 + Z.of_nat i) by lia.
    + change (Z.of_nat (length es)) with (lenZ es). rewrite Hrun2. rewrite lenZ_app, Z.add_assoc, insert_insert_eq. cbn [fmap list_fmap].
      rewrite <-app_assoc. cbn [app compose]. match goal with |- context [unpack_loop ?a ?b ?c m ?d ?e ?f ?g ?h] => destruct (unpack_loop a b c m d e f g h) as [[? ?]|] end; reflexivity.
Qed.

(** The first entry of a region is preceded by the number of its entries. *)
Lemma unpack_counter junk buf inputs n ptr index lr store input r (c : nat) :
  inputs !! index = Some input → store !! pk_transfer_request input = Some r → load_int buf ptr = Some (Z.of_nat c) → (0 < c)%nat →
  unpack_loop junk buf inputs (S n) ptr 0 index lr store =
  unpack_loop junk buf inputs (S n) (ptr + 4) (Z.of_nat c) index (Some (pk_transfer_request input))
    (<[pk_transfer_request input := set_parts r (replicate c None)]> store).
Proof.
  intros Hin Hst Hc Hpos. cbn [unpack_loop]. rewrite Hin. cbn [mbind option_bind]. rewrite decide_True by done. rewrite Hc, Hst.
  cbn [mbind option_bind]. rewrite (decide_False (P := Z.of_nat c < 0)) by lia. rewrite (decide_False (P := Z.of_nat c = 0)) by lia.
  cbn [mbind option_bind]. by rewrite Nat2Z.id.
Qed.

(** What is known of a region of the query and its entries. *)
Definition region_ok (store : request_store) (x : start_all_pkg * list entry) : Prop :=
  ∃ r, store !! pk_transfer_request x.1 = Some r ∧ request_ok r x.1 ∧ Forall (entry_ok r x.1) x.2 ∧ x.2 ≠ [] ∧ lenZ x.2 < 2147483648.

(** The request has its parts and there is a package for each entry. *)
Definition region_done (store store' : request_store) (x : start_all_pkg * list entry) (ps : list start_all_pkg) : Prop :=
  ∃ r, store !! pk_transfer_request x.1 = Some r ∧
    store' !! pk_transfer_request x.1 = Some (set_parts r (Some ∘ part_of r <$> x.2)) ∧ length ps = length x.2 ∧
    ∀ i e, x.2 !! i = Some e → ∃ p, ps !! i = Some p ∧ unpacked r x.1 (Z.of_nat i) e p.

Lemma Forall2_impl_elem {A B} (P Q : A → B → Prop) l k :
  Forall2 P l k → (∀ x y, x ∈ l → y ∈ k → P x y → Q x y) → Forall2 Q l k.
Proof. induction 1; intros H'; constructor; [apply H'; set_solver|]. apply IHForall2. intros. apply H'; set_solver. Qed.

Lemma unpack_regions junk buf : ∀ regs pre ptr lr store rest,
  NoDup (pk_transfer_request ∘ fst <$> regs) → Forall (region_ok store) regs →
  at_off buf ptr ((regs.*2 ≫= entries_bytes) ++ rest) →
  ∃ pss store', unpack_loop junk buf (pre ++ regs.*1) (length (concat regs.*2)) ptr 0 (length pre) lr store = Some (concat pss, store') ∧
    Forall2 (region_done store store') regs pss ∧
    ∀ k, k ∉ pk_transfer_request ∘ fst <$> regs → store' !! k = store !! k.
Proof.
  induction regs as [|[input es] regs IH]; intros pre ptr lr store rest Hnd Hok Hat; [by exists [], store|].
  rewrite fmap_cons in Hnd. apply NoDup_cons in Hnd as [Hni Hnd]. cbn [compose fst] in Hni.
  apply list.Forall_cons in Hok as [(r & Hr & Hreq & Hes & Hne & Hlen) Hok]. cbn [fst snd] in *.
  cbn [fmap list_fmap fst snd] in *. rewrite bind_cons in Hat. unfold entries_bytes in Hat at 1. rewrite <-!app_assoc in Hat.
  assert (0 < length es)%nat as Hpos by (destruct es; [done|simpl; lia]). pose proof (lenZ_nonneg es).
  assert (load_int buf ptr = Some (Z.of_nat (length es))) as Hload by (apply (load_int_at buf ptr (lenZ es) _ Hat); lia).
  eapply at_off_app with (off' := ptr + 4) in Hat; [|by rewrite lenZ_int_bytes].
  assert ((pre ++ input :: regs.*1) !! length pre = Some input) as Hin by (by rewrite lookup_app_r, Nat.sub_diag by lia).
  cbn [concat]. rewrite length_app. destruct (Nat.lt_exists_pred 0 _ Hpos) as (k & El & _).
  assert (length es + length (concat regs.*2) = S (k + length (concat regs.*2)))%nat as -> by lia.
  rewrite (unpack_counter junk buf _ _ ptr _ lr store input r (length es) Hin Hr Hload Hpos).
  assert (S (k + length (concat regs.*2)) = length es + length (concat regs.*2))%nat as -> by lia.
  destruct (unpack_entries junk buf (pre ++ input :: regs.*1) (length (concat regs.*2)) (length pre) input r
    ((regs.*2 ≫= entries_bytes) ++ rest) es (ptr + 4)
    (<[pk_transfer_request input := set_parts r (replicate (length es) None)]> store) [] Hin) as (ps & Hps & Hlps & Hrun);
    [by rewrite lookup_insert_eq|done|done|done|exact Hat|].
  change (Z.of_nat (length es)) with (lenZ es). rewrite Hrun. rewrite insert_insert_eq. rewrite app_nil_l.
  eapply at_off_app with (off' := ptr + 4 + lenZ (es ≫= entry_bytes)) in Hat; [|done].
  set (store1 := <[pk_transfer_request input := set_parts r (Some ∘ part_of r <$> es)]> store).
  assert (∀ x, x ∈ regs → store1 !! pk_transfer_request x.1 = store !! pk_transfer_request x.1) as Hother.
  { intros x Hinx. unfold store1. rewrite lookup_insert_ne; [done|]. intros E. apply Hni. rewrite E.
    by apply (list_elem_of_fmap_2 (pk_transfer_request ∘ fst)). }
  destruct (IH (pre ++ [input]) (ptr + 4 + lenZ (es ≫= entry_bytes)) (Some (pk_transfer_request input)) store1 rest Hnd) as (pss & store' & Hrun' & Hdone & Hframe).
  { apply list.Forall_forall. intros x Hinx. rewrite list.Forall_forall in Hok. destruct (Hok x Hinx) as (r' & Hr' & Hx).
    exists r'. split; [|done]. by rewrite (Hother x Hinx). }
  { exact Hat. }
  rewrite length_app, <-app_assoc in Hrun'. cbn [length app] in Hrun'. rewrite Nat.add_1_r in Hrun'. rewrite Hrun'. cbn [mbind option_bind].
  exists (ps :: pss), store'. split; [done|]. split.
  - constructor.
    + exists r. split; [done|]. split; [|split; [done|exact Hps]]. rewrite Hframe by done. unfold store1. by rewrite lookup_insert_eq.
    + eapply Forall2_impl_elem; [exact Hdone|]. intros x y Hinx _ (r' & Hr' & Hx). exists r'. split; [|done].
      by rewrite <-(Hother x Hinx).
  - intros k' [Hne' Hk']%not_elem_of_cons. rewrite Hframe by done. unfold store1. cbn [compose fst] in Hne'. by rewrite lookup_insert_ne by congruence.
Qed.

Lemma sum_len_concat {A} (ls : list (list A)) : sum_len ls = lenZ (concat ls).
Proof. induction ls as [|l ls IH]; [done|]. simpl. by rewrite IH, lenZ_app. Qed.

Lemma sum_len_le (ess : list (list entry)) : sum_len ess + 4 ≤ lenZ (answer_bytes ess).
Proof.
  unfold answer_bytes. rewrite lenZ_app, lenZ_int_bytes. enough (sum_len ess ≤ lenZ (ess ≫= entries_bytes)) by lia.
  induction ess as [|es ess IH]; [done|]. rewrite bind_cons, lenZ_app. simpl. enough (lenZ es ≤ lenZ (entries_bytes es)) by lia.
  unfold entries_bytes. rewrite lenZ_app, lenZ_int_bytes. enough (lenZ es ≤ lenZ (es ≫= entry_bytes)) by lia.
  clear. induction es as [|[[srv oo] os] es IH]; [done|]. rewrite bind_cons, lenZ_app, lenZ_cons. unfold entry_bytes at 1.
  autorewrite with wire. pose proof (lenZ_nonneg oo). pose proof (lenZ_nonneg os). lia.
Qed.

Lemma sum_len_elem (ess : list (list entry)) es : es ∈ ess → lenZ es ≤ sum_len ess.
Proof.
  induction ess as [|es' ess IH]; intros H; [by apply elem_of_nil in H|]. simpl. apply elem_of_cons in H as [->|H].
  - pose proof (lenZ_nonneg (concat ess)) as H. rewrite <-sum_len_concat in H. lia.
  - specialize (IH H). pose proof (lenZ_nonneg es'). lia.
Qed.

Lemma unpack_answer junk regs store :
  NoDup (pk_transfer_request ∘ fst <$> regs) → Forall (region_ok store) regs → lenZ (answer_bytes regs.*2) < 2147483648 →
  ∃ pss store', unpack_region_metadata_query junk (answer_bytes regs.*2) regs.*1 store = Some (concat pss, sum_len regs.*2, store') ∧
    Forall2 (region_done store store') regs pss ∧
    ∀ k, k ∉ pk_transfer_request ∘ fst <$> regs → store' !! k = store !! k.
Proof.
  intros Hnd Hok Hl. pose proof (sum_len_le regs.*2) as Hsum. assert (0 ≤ sum_len regs.*2) by (rewrite sum_len_concat; apply lenZ_nonneg).
  unfold unpack_region_metadata_query. pose proof (at_off_0 (answer_bytes regs.*2)) as Hat. unfold answer_bytes at 2 in Hat.
  rewrite (load_int_at _ _ _ _ Hat) by lia. cbn [mbind option_bind].
  eapply at_off_app with (off' := 4) in Hat; [|by rewrite lenZ_int_bytes]. rewrite <-(app_nil_r (regs.*2 ≫= _)) in Hat.
  destruct (unpack_regions junk (answer_bytes regs.*2) regs [] 4 None store [] Hnd Hok Hat) as (pss & store' & Hrun & Hdone).
  exists pss, store'. rewrite sum_len_concat at 1. unfold lenZ at 1. rewrite Nat2Z.id. cbn [app length] in Hrun. rewrite Hrun. done.
Qed.

(** A region without entries, such as one that was never written, is taken for
    one with an entry: the entry is written past the end of empty arrays. *)
Lemma unpack_empty_region junk ess inputs store : 0 < sum_len ess → lenZ (answer_bytes ([] :: ess)) < 2147483648 →
  unpack_region_metadata_query junk (answer_bytes ([] :: ess)) inputs store = None.
Proof.
  intros Hpos Hl. pose proof (sum_len_le ([] :: ess)) as Hsum. unfold unpack_region_metadata_query.
  pose proof (at_off_0 (answer_bytes ([] :: ess))) as Hat. unfold answer_bytes at 2 in Hat.
  change (sum_len ([] :: ess)) with (0 + sum_len ess) in *. rewrite Z.add_0_l in *.
  rewrite (load_int_at _ _ _ _ Hat) by lia. cbn [mbind option_bind].
  eapply at_off_app with (off' := 4) in Hat; [|by rewrite lenZ_int_bytes]. rewrite bind_cons in Hat. unfold entries_bytes in Hat at 1.
  rewrite <-!app_assoc in Hat. destruct (Z.to_nat (sum_len ess)) as [|n] eqn:E; [lia|].
  apply bind_None; left. cbn [unpack_loop].
  destruct (inputs !! 0%nat) as [input|]; [|done]. cbn [mbind option_bind]. rewrite decide_True by done.
  rewrite (load_int_at _ 4 0 _ Hat) by lia. cbn [mbind option_bind]. destruct (store !! pk_transfer_request input) as [r|]; [|done].
  cbn [mbind option_bind]. rewrite decide_False by lia. cbn [mbind option_bind]. rewrite lookup_insert_eq. cbn [mbind option_bind].
  apply bind_None. destruct (load_u32 _ _); [right; eexists; split; [done|]|by left].
  apply bind_None. destruct (load_u64s _ _ _); [right; eexists; split; [done|]|by left].
  apply bind_None. destruct (load_u64s _ _ _); [right; eexists; split; [done|]|by left].
  by rewrite decide_False by (cbn; lia).
Qed.

(** ** The query, from the client to the metadata server and back *)

(** A request for a region of an object, whose package asks for its region. *)
Record asks (dim : Z → nat) (store : request_store) (x : pkg) : Prop := {
  as_store : store !! pk_transfer_request x.2 = Some x.1;
  as_request : request_ok x.1 x.2;
  as_offset : pk_remote_offset x.2 = tr_remote_region_offset x.1;
  as_size : pk_remote_size x.2 = tr_remote_region_size x.1;
  as_dim : dim (tr_obj_id x.1) = tr_remote_region_ndim x.1;
  as_ids : is_u64 (tr_obj_id x.1) ∧ is_u64 (tr_unit x.1) ∧ 0 ≤ pk_data_server_id x.2 < W32 }.

Lemma asks_query dim store x : asks dim store x → query_ok dim (query_of x) ∧ lens_ok x.
Proof.
  intros [_ [Hn Hu Hwf Hv _] Ho Hs Hd (? & ? & ?)]. destruct (wf_region_is_u64 _ _ _ Hwf). pose proof Hwf as [Hlo Hls _]. split.
  - split; [|unfold query_of; cbn; by rewrite Hd, Ho, Hs]. split; unfold query_of; cbn; rewrite ?Ho, ?Hs; try done; try congruence.
    + apply Z.mod_pos_bound. lia.
    + unfold lenZ. lia.
  - unfold lens_ok. rewrite Ho, Hs. done.
Qed.

(** The parts of a request cover exactly the points [P] of its region. *)
Definition covered_by (store : request_store) (x : pkg) (P : list Z → Prop) : Prop :=
  ∃ parts, store !! pk_transfer_request x.2 = Some (set_parts x.1 (Some <$> parts)) ∧
    ∀ p, (∃ o, o ∈ parts ∧ in_region (op_output_offset o) (op_output_size o) p) ↔
      in_region (tr_remote_region_offset x.1) (tr_remote_region_size x.1) p ∧ P p.

(** The package [p] is for a part of the request [x], and has its data. *)
Definition pkg_for (x : pkg) (p : start_all_pkg) : Prop :=
  pk_transfer_request p = pk_transfer_request x.2 ∧ ∃ i e, unpacked x.1 x.2 i e p.

Lemma region_done_covered dim store store' x es ps P :
  asks dim store x → region_done store store' (x.2, es) ps →
  (∀ p, (∃ e, e ∈ es ∧ in_region e.1.2 e.2 p) ↔ in_region (pk_remote_offset x.2) (pk_remote_size x.2) p ∧ P p) →
  covered_by store' x P ∧ Forall (pkg_for x) ps.
Proof.
  intros [Hst _ Ho Hs _ _] (r & Hr & Hr' & Hl & Hps) HP. cbn [fst snd] in *. rewrite Hst in Hr. injection Hr as <-. split.
  - exists (part_of x.1 <$> es). split; [by rewrite <-list_fmap_compose|]. intros p. rewrite <-Ho, <-Hs, <-HP. split.
    + intros (o & ([[srv oo] os] & -> & He)%list_elem_of_fmap & Hp). exists (srv, oo, os). done.
    + intros ([[srv oo] os] & He & Hp). exists (part_of x.1 (srv, oo, os)). split; [by apply list_elem_of_fmap_2|done].
  - apply list.Forall_forall. intros p (i & Hi)%list_elem_of_lookup.
    destruct (lookup_lt_is_Some_2 es i) as [e He]; [apply lookup_lt_Some in Hi; lia|].
    destruct (Hps i e He) as (p' & Hp' & Hu). rewrite Hp' in Hi. injection Hi as ->. split; [apply Hu|eauto].
Qed.

(** The entries of a region are as unpacking expects them when some point of the
    region is in the answer. *)
Lemma answered_region_ok dim store x es P :
  asks dim store x → Forall (entry_wf (dim (tr_obj_id x.1))) es →
  (∀ p, (∃ e, e ∈ es ∧ in_region e.1.2 e.2 p) ↔ in_region (pk_remote_offset x.2) (pk_remote_size x.2) p ∧ P p) →
  (∃ p, in_region (tr_remote_region_offset x.1) (tr_remote_region_size x.1) p ∧ P p) → lenZ es < 2147483648 →
  region_ok store (x.2, es).
Proof.
  intros [Hst Hreq Ho Hs Hd _] Hwf HP (q & Hq & HPq) Hl. exists x.1. split; [done|]. split; [done|]. split; [|split; [|done]].
  - apply list.Forall_forall. intros e He. rewrite list.Forall_forall in Hwf. destruct (Hwf e He) as [Hsrv Hwfe]. rewrite Hd in Hwfe.
    split; [done|done|]. intros p Hp. rewrite <-Ho, <-Hs. apply (HP p). by exists e.
  - cbn. intros ->. destruct (proj2 (HP q)) as (e & He & _); [by rewrite Ho, Hs|]. by apply elem_of_nil in He.
Qed.

(** Asking for the data servers of the regions of a start-all call: the
    buffer of the query is what the metadata server parses; the answer it keeps
    has the size announced; and unpacking it gives every request parts that
    cover exactly the points of its region (for a write) or its points that are
    recorded (for a read), and packages for these parts with their data. *)
Theorem metadata_query_parts dim junk s store xs is_write :
  metadata_ok dim s → 0 ≤ mq_query_id_g s → mq_query_id_g s + 1 < W64 →
  NoDup (pk_transfer_request ∘ snd <$> xs) → Forall (asks dim store) xs →
  lenZ (xs ≫= λ x, query_region_bytes (query_of x)) < W64 →
  (is_write = true ∨ Forall (λ x, known s (to_region (query_of x)) ∧
     ∃ p, in_region (tr_remote_region_offset x.1) (tr_remote_region_size x.1) p ∧ covers s (tr_obj_id x.1) p) xs) →
  (∀ s', updated s (query_of <$> xs) is_write = Some s' →
     lenZ (answer_bytes (answer s' <$> (to_region <$> (query_of <$> xs)))) < 2147483648) →
  ∃ buf total query_id size s' answer s'' pkgs n store',
    pack_region_metadata_query junk xs = Some (buf, total) ∧ total = lenZ buf ∧
    transfer_request_metadata_query_parse junk s (length xs) buf is_write = Some (query_id, size, s') ∧ metadata_ok dim s' ∧
    transfer_request_metadata_query_lookup_query_buf s' query_id = (Some answer, s'') ∧ lenZ answer = size ∧
    unpack_region_metadata_query junk answer xs.*2 store = Some (pkgs, n, store') ∧
    Forall (λ x, covered_by store' x (λ p, is_write = true ∨ covers s (tr_obj_id x.1) p)) xs ∧
    Forall (λ p, Exists (λ x, pkg_for x p) xs) pkgs.
Proof.
  intros Hs Hq0 Hq1 Hnd Hasks Hlen Hknown Hans.
  assert (Forall lens_ok xs) as Hlens by (eapply list.Forall_impl; [exact Hasks|intros x Hx; by eapply asks_query]).
  destruct (pack_query_spec junk xs Hlens Hlen) as (total & Hpack & Htot).
  assert ((xs ≫= λ x, query_region_bytes (query_of x)) = (query_of <$> xs) ≫= query_region_bytes) as Hbytes.
  { clear. induction xs as [|x xs IH]; [done|]. rewrite fmap_cons, !bind_cons. by rewrite IH. }
  destruct (metadata_query_ok dim junk s (query_of <$> xs) is_write Hs Hq0 Hq1) as (s' & s'' & ess & Hparse & Hs' & Hlook & _ & (s1 & Hup & Hess) & HF).
  { apply Forall_fmap. eapply list.Forall_impl; [exact Hasks|]. intros x Hx. by eapply asks_query. }
  { destruct Hknown as [|Hkn]; [by left|right]. apply Forall_fmap. eapply list.Forall_impl; [exact Hkn|]. by intros x []. }
  { intros s2 Hs2. specialize (Hans s2 Hs2). etrans; [exact Hans|done]. }
  specialize (Hans s1 Hup). rewrite <-Hess in Hans.
  set (regs := zip xs.*2 ess). assert (length xs = length ess) as Hl by (apply Forall2_length in HF; by rewrite length_fmap in HF).
  assert (regs.*2 = ess) as Hr2 by (apply snd_zip; rewrite length_fmap; lia).
  assert (regs.*1 = xs.*2) as Hr1 by (apply fst_zip; rewrite length_fmap; lia).
  assert (pk_transfer_request ∘ fst <$> regs = pk_transfer_request ∘ snd <$> xs) as Hkeys.
  { rewrite (list_fmap_compose fst), (list_fmap_compose snd). by rewrite Hr1. }
  apply Forall2_fmap_l in HF.
  assert (Forall2 (λ x es, region_ok store (x.2, es)) xs ess) as Hregs.
  { eapply Forall2_impl_elem; [exact HF|]. intros x es Hx Hes [Hwf HP]. rewrite list.Forall_forall in Hasks. pose proof (Hasks x Hx) as Hx'.
    apply (answered_region_ok dim store x es _ Hx' Hwf HP).
    - destruct Hknown as [->|Hkn].
      + exists (tr_remote_region_offset x.1). split; [|by left]. eapply corner_in_region, ro_wf, (as_request _ _ _ Hx').
      + rewrite list.Forall_forall in Hkn. destruct (Hkn x Hx) as (_ & p & ? & ?). exists p. split; [done|by right].
    - pose proof (sum_len_elem _ _ Hes). pose proof (sum_len_le ess). lia. }
  destruct (unpack_answer junk regs store) as (pss & store' & Hunp & Hdone & _).
  { by rewrite Hkeys. }
  { apply list.Forall_forall. intros [p es] (i & Hi)%list_elem_of_lookup. unfold regs in Hi.
    apply lookup_zip_Some in Hi as [Hp He]. rewrite list_lookup_fmap in Hp. destruct (xs !! i) as [x|] eqn:Hx; [|done]. injection Hp as <-.
    by apply (Forall2_lookup_lr _ _ _ _ _ _ Hregs Hx He). }
  { by rewrite Hr2. }
  rewrite Hr1, Hr2 in Hunp. exists (xs ≫= λ x, query_region_bytes (query_of x)), total, (mq_query_id_g s), (lenZ (answer_bytes ess)), s', (answer_bytes ess), s'', (concat pss), (sum_len ess), store'.
  split; [done|]. split; [done|]. split; [rewrite Hbytes; by rewrite length_fmap in Hparse|]. split; [done|]. split; [done|]. split; [done|]. split; [done|].
  assert (∀ i x es ps, xs !! i = Some x → ess !! i = Some es → pss !! i = Some ps →
    covered_by store' x (λ p, is_write = true ∨ covers s (tr_obj_id x.1) p) ∧ Forall (pkg_for x) ps) as Hall.
  { intros i x es ps Hx He Hps. rewrite list.Forall_forall in Hasks. apply (region_done_covered dim store store' x es ps).
    - by apply Hasks, list_elem_of_lookup_2 with i.
    - assert (regs !! i = Some (x.2, es)) as Hri by (apply lookup_zip_Some; by rewrite list_lookup_fmap, Hx).
      exact (Forall2_lookup_lr _ _ _ _ _ _ Hdone Hri Hps).
    - apply (Forall2_lookup_lr _ _ _ _ _ _ HF Hx He). }
  assert (length regs = length pss) as Hlp by by apply Forall2_length in Hdone.
  assert (length regs = length xs) as Hlr by (rewrite <-(length_fmap snd xs), <-Hr1; by rewrite length_fmap).
  split.
  - apply list.Forall_forall. intros x (i & Hx)%list_elem_of_lookup. pose proof (lookup_lt_Some _ _ _ Hx).
    destruct (lookup_lt_is_Some_2 ess i) as [es He]; [lia|]. destruct (lookup_lt_is_Some_2 pss i) as [ps Hps]; [lia|]. by eapply Hall.
  - apply Forall_concat, list.Forall_forall. intros ps (i & Hps)%list_elem_of_lookup. pose proof (lookup_lt_Some _ _ _ Hps).
    destruct (lookup_lt_is_Some_2 ess i) as [es He]; [lia|]. destruct (lookup_lt_is_Some_2 xs i) as [x Hx]; [lia|].
    eapply list.Forall_impl; [by eapply Hall|]. intros p Hp. apply list.Exists_exists. exists x. split; [by eapply list_elem_of_lookup_2|done].
Qed.

(** * The properties at concrete inputs *)

(** A request for the elements 5 to 14 of object 7, one byte each. *)
Definition ex_request (access_type : pdc_access_t) : pdc_transfer_request :=
  TransferRequest 7 0 access_type 1 PDC_REGION_DYNAMIC 1 [5] [10] 1 [100] [].
Definition ex_data : list byte := [0; 1; 2; 3; 4; 5; 6; 7; 8; 9].
Definition ex_pkg : start_all_pkg := StartAllPkg 0 42 [5] [10] 0 (Some ex_data).

Ltac u64s_concrete := repeat constructor; unfold is_u64, W64; lia.

Lemma pack_all_parsed_witness :
  ∃ buf d data_buf, parse_bulk_data buf 1 PDC_WRITE = Some [d] ∧ d = parsed_as (ex_request PDC_WRITE, ex_pkg) (Some data_buf) ∧
    mem_read buf data_buf 10 = Some ex_data.
Proof.
  destruct (pack_all_parsed 0 PDC_WRITE [(ex_request PDC_WRITE, ex_pkg)]) as (buf & ds & _ & Hparse & Hds & _).
  - right. reflexivity.
  - apply list.Forall_singleton. split; cbn; try (unfold is_u64, W64; lia); try (split; [reflexivity|u64s_concrete]).
    intros _. exists ex_data. split; [reflexivity|]. vm_compute. discriminate.
  - reflexivity.
  - apply Forall2_cons_inv_l in Hds as (d & ds' & Hd & Hnil & ->). apply Forall2_nil_inv_l in Hnil as ->.
    unfold received in Hd. rewrite decide_True in Hd by reflexivity. destruct Hd as (data_buf & -> & Hr).
    exists buf, (parsed_as (ex_request PDC_WRITE, ex_pkg) (Some data_buf)), data_buf. split; [exact Hparse|]. split; [reflexivity|exact Hr].
Defined.

Lemma pack_region_buffer_contiguous_witness :
  pack_region_buffer 0 [1; 2; 3; 4; 5; 6; 7; 8] 4 2 [1; 1] [2; 2] 1 PDC_WRITE = Some (SUCCEED, Some (OwnBlock [4; 5; 6; 7])) ∧
  release_copy [1; 2; 3; 4; 5; 6; 7; 8] 2 [2; 2] 1 PDC_READ [4; 5; 6; 7] = Some [4; 5; 6; 7; 5; 6; 7; 8].
Proof.
  destruct (pack_region_buffer_contiguous 0 2 1 [1; 1] [2; 2] [1; 2; 3; 4; 5; 6; 7; 8]) as [(p & Hp & _ & Hd) Hr].
  - split; [lia|lia| | |split; [vm_compute; discriminate|reflexivity]];
      (split; [reflexivity|apply list.Forall_cons; split; [lia|apply list.Forall_singleton; lia]]).
  - split; [|apply (Hr [4; 5; 6; 7]); [lia|reflexivity]]. etrans; [exact Hp|]. vm_compute in Hp. injection Hp as <-. reflexivity.
Defined.

Definition ex_store : gmap Z pdc_transfer_request := {[ 42 := ex_request PDC_READ ]}.

Lemma metadata_query_parts_witness :
  ∃ answer pkgs n store', unpack_region_metadata_query 0 answer [ex_pkg] ex_store = Some (pkgs, n, store') ∧
    ∃ parts, store' !! 42 = Some (set_parts (ex_request PDC_READ) (Some <$> parts)) ∧
      ∃ o, o ∈ parts ∧ in_region (op_output_offset o) (op_output_size o) [9].
Proof.
  assert (covers ex_metadata 7 [5] ∧ covers ex_metadata 7 [9]) as [Hc5 Hc9]
    by (split; apply Exists_cons; left; cbn; lia).
  destruct (metadata_query_parts (λ _, 1%nat) 0 ex_metadata ex_store [(ex_request PDC_READ, ex_pkg)] false ex_metadata_ok)
    as (buf & total & qid & size & s' & answer & s'' & pkgs & n & store' & _ & _ & _ & _ & _ & _ & Hunp & Hcov & _).
  - vm_compute. congruence.
  - reflexivity.
  - apply NoDup_singleton.
  - apply list.Forall_singleton. split; try reflexivity.
    + split; cbn; try lia; [wf_concrete|unfold W64; lia|discriminate].
    + cbn. unfold is_u64, W64, W32. lia.
  - reflexivity.
  - right. apply list.Forall_singleton. split; [apply list_elem_of_singleton; reflexivity|]. exists [5]. split; [cbn; lia|exact Hc5].
  - intros s1 Hs1. injection Hs1 as <-. reflexivity.
  - exists answer, pkgs, n, store'. split; [exact Hunp|]. apply list.Forall_singleton in Hcov as (parts & Hst & Hp).
    exists parts. split; [exact Hst|]. destruct (proj2 (Hp [9])) as (o & Ho & Hin); [|exists o; split; [exact Ho|exact Hin]].
    split; [cbn; lia|]. right. exact Hc9.
Defined.
