(* ===== verification/RequestHandler.v ===== *)
(** The RPC handlers of a data server for transfer requests
    ([src/src/server/pdc_server_region/pdc_server_region_request_handler.h]).
    The server is a state machine: an RPC starts a bulk transfer and the
    callback of the transfer does the rest of the work, so that several requests
    are in progress at any time and complete in any order.  The network library
    is outside: a bulk transfer is an entry of [sv_bulks] until it completes; a
    pull completes with bytes that the environment chooses, a push with the bytes
    of the server's buffer; the results of the library's calls are only logged by
    the code.  The storage is any implementation of the storage interface: the
    region cache (PDC_SERVER_CACHE), or the storage engine itself. *)

From stdpp Require Import gmap.
From S2P Require Export StorageInterface ServerTransfer MetadataQuery.
#[local] Open Scope Z_scope.

(** * RPC messages *)

(** [region_info_transfer_t]: four starts and counts, of which the handlers use
    three. *)
Record region_info_transfer_t := RegionTransfer {
  rt_ndim : nat;
  rt_start_0 : Z; rt_start_1 : Z; rt_start_2 : Z; rt_start_3 : Z;
  rt_count_0 : Z; rt_count_1 : Z; rt_count_2 : Z; rt_count_3 : Z }.

Record transfer_request_in_t := TransferIn {
  in_local_bulk_handle : Z;
  in_remote_region : region_info_transfer_t;
  in_obj_id : Z;
  in_obj_dim0 : Z; in_obj_dim1 : Z; in_obj_dim2 : Z;
  in_remote_unit : Z;
  in_obj_ndim : nat;
  in_meta_server_id : Z;
  in_access_type : pdc_access_t }.

Record transfer_request_all_in_t := TransferAllIn {
  ain_local_bulk_handle : Z;
  ain_total_buf_size : Z;
  ain_n_objs : nat;
  ain_access_type : pdc_access_t;
  ain_client_id : Z }.

Record transfer_request_wait_all_in_t := WaitAllIn {
  win_local_bulk_handle : Z;
  win_total_buf_size : Z;
  win_n_objs : nat }.

Record transfer_request_metadata_query_in_t := QueryIn {
  qin_local_bulk_handle : Z;
  qin_total_buf_size : Z;
  qin_n_objs : nat;
  qin_is_write : bool }.

Record transfer_request_metadata_query2_in_t := Query2In {
  q2in_local_bulk_handle : Z;
  q2in_total_buf_size : Z;
  q2in_query_id : Z }.

(** The output structures, by RPC. *)
Inductive reply :=
  | TransferOut (metadata_id ret : Z)
  | TransferAllOut (metadata_id ret : Z)
  | StatusOut (status : pdc_transfer_status_t) (ret : Z)
  | WaitOut (ret : Z)
  | WaitAllOut (ret : Z)
  | QueryOut (query_id total_buf_size ret : Z)
  | Query2Out (ret : Z).

(** * Bulk transfers in progress *)

Record transfer_request_local_bulk_args := LocalBulkArgs {
  la_handle : Z;
  la_in : transfer_request_in_t;
  la_transfer_request_id : Z;
  la_data_buf : list byte;
  la_total_mem_size : Z }.

Record transfer_request_all_local_bulk_args := AllLocalBulkArgs {
  aa_handle : Z;
  aa_in : transfer_request_all_in_t;
  aa_transfer_request_id : list Z }.

Record transfer_request_all_local_bulk_args2 := AllLocalBulkArgs2 {
  a2_handle : Z;
  a2_request_data : list request_data;
  a2_transfer_request_id : list Z;
  a2_data_buf : list byte }.

Record transfer_request_wait_all_local_bulk_args := WaitAllLocalBulkArgs {
  wa_handle : Z;
  wa_in : transfer_request_wait_all_in_t }.

Record transfer_request_metadata_query_local_bulk_args := QueryLocalBulkArgs {
  qa_handle : Z;
  qa_in : transfer_request_metadata_query_in_t }.

Record transfer_request_metadata_query2_local_bulk_args := Query2LocalBulkArgs {
  q2a_handle : Z;
  q2a_data_buf : list byte }.

(** The callback a transfer ends with, and its argument. *)
Inductive bulk_callback :=
  | WriteCb (a : transfer_request_local_bulk_args)
  | ReadCb (a : transfer_request_local_bulk_args)
  | AllWriteCb (a : transfer_request_all_local_bulk_args)
  | AllReadCb (a : transfer_request_all_local_bulk_args)
  | AllReadCb2 (a : transfer_request_all_local_bulk_args2)
  | WaitAllCb (a : transfer_request_wait_all_local_bulk_args)
  | QueryCb (a : transfer_request_metadata_query_local_bulk_args)
  | Query2Cb (a : transfer_request_metadata_query2_local_bulk_args).

Inductive bulk_direction := HG_BULK_PULL (size : Z) | HG_BULK_PUSH (data : list byte).

(** A call of [HG_Bulk_transfer]: the client's handle, the direction with the
    size or the data, and the callback. *)
Record bulk_op := BulkOp {
  bo_local_bulk_handle : Z;
  bo_direction : bulk_direction;
  bo_callback : bulk_callback }.

(** * The state of the server *)

Record server (St : Type) := Server {
  sv_store : St;
  sv_transfer : transfer_state;
  sv_next_ref : Z;
  sv_metadata : metadata_state;
  sv_bulks : list bulk_op;
  sv_replies : list (Z * reply);
  sv_pushed : list (Z * list byte);
  sv_last_cache_activity : Z }.
#[global] Arguments Server {_}.
#[global] Arguments sv_store {_}.
#[global] Arguments sv_transfer {_}.
#[global] Arguments sv_next_ref {_}.
#[global] Arguments sv_metadata {_}.
#[global] Arguments sv_bulks {_}.
#[global] Arguments sv_replies {_}.
#[global] Arguments sv_pushed {_}.
#[global] Arguments sv_last_cache_activity {_}.

Section Updates.
Context {St : Type}.
Implicit Types (s : server St).

Definition set_store st s : server St :=
  Server st (sv_transfer s) (sv_next_ref s) (sv_metadata s) (sv_bulks s) (sv_replies s) (sv_pushed s) (sv_last_cache_activity s).
Definition set_transfer t s : server St :=
  Server (sv_store s) t (sv_next_ref s) (sv_metadata s) (sv_bulks s) (sv_replies s) (sv_pushed s) (sv_last_cache_activity s).
Definition set_metadata m s : server St :=
  Server (sv_store s) (sv_transfer s) (sv_next_ref s) m (sv_bulks s) (sv_replies s) (sv_pushed s) (sv_last_cache_activity s).

(** [gettimeofday(&last_cache_activity_timeval_g, NULL)] *)
Definition cache_activity now s : server St :=
  Server (sv_store s) (sv_transfer s) (sv_next_ref s) (sv_metadata s) (sv_bulks s) (sv_replies s) (sv_pushed s) now.
Definition HG_Respond handle out s : server St :=
  Server (sv_store s) (sv_transfer s) (sv_next_ref s) (sv_metadata s) (sv_bulks s) (sv_replies s ++ [(handle, out)])
    (sv_pushed s) (sv_last_cache_activity s).
Definition HG_Bulk_transfer local_bulk_handle dir cb s : server St :=
  Server (sv_store s) (sv_transfer s) (sv_next_ref s) (sv_metadata s) (sv_bulks s ++ [BulkOp local_bulk_handle dir cb])
    (sv_replies s) (sv_pushed s) (sv_last_cache_activity s).

(** [calloc] of a reference counter: its address. *)
Definition calloc_ref s : Z * server St :=
  let t := sv_transfer s in
  (sv_next_ref s,
   Server (sv_store s)
     (TransferState (ts_list t) (<[sv_next_ref s := 0]> (ts_refs t)) (ts_transfer_request_id_g t) (ts_responses t))
     (sv_next_ref s + 1) (sv_metadata s) (sv_bulks s) (sv_replies s) (sv_pushed s) (sv_last_cache_activity s)).
Definition free_ref handle_ref s : server St :=
  let t := sv_transfer s in
  set_transfer (TransferState (ts_list t) (delete handle_ref (ts_refs t)) (ts_transfer_request_id_g t) (ts_responses t)) s.
End Updates.

(** * The handlers *)

Section Handlers.
Context {St : Type} `{RegionStorage St} (junk : byte).
Implicit Types (s : server St).

(** ** Single requests *)

(** [total_mem_size] of the region of a request. *)
Definition region_mem_size (unit : Z) (r : region_info_transfer_t) : Z :=
  let t := unit in
  let t := if decide (1 ≤ rt_ndim r)%nat then t *w rt_count_0 r else t in
  let t := if decide (2 ≤ rt_ndim r)%nat then t *w rt_count_1 r else t in
  if decide (3 ≤ rt_ndim r)%nat then t *w rt_count_2 r else t.

(** [remote_reg_info] and [obj_dims] as the handlers build them. *)
Definition remote_reg_info (r : region_info_transfer_t) : pdc_region_info :=
  RegionInfo (rt_ndim r) (take (rt_ndim r) [rt_start_0 r; rt_start_1 r; rt_start_2 r])
    (take (rt_ndim r) [rt_count_0 r; rt_count_1 r; rt_count_2 r]) [] 0.
Definition obj_dims_of (i : transfer_request_in_t) : list Z :=
  take (rt_ndim (in_remote_region i)) [in_obj_dim0 i; in_obj_dim1 i; in_obj_dim2 i].

Definition transfer_request (now handle : Z) (i : transfer_request_in_t) s : option (server St) :=
  let s := cache_activity now s in
  let total_mem_size := region_mem_size (in_remote_unit i) (in_remote_region i) in
  let '(metadata_id, t) := PDC_transfer_request_id_register (sv_transfer s) in
  let s := set_transfer (PDC_commit_request t metadata_id) s in
  let data_buf := malloc junk total_mem_size in
  let s := HG_Respond handle (TransferOut metadata_id 1) s in
  if decide (in_access_type i = PDC_WRITE) then
    Some (HG_Bulk_transfer (in_local_bulk_handle i) (HG_BULK_PULL total_mem_size)
            (WriteCb (LocalBulkArgs handle i metadata_id data_buf total_mem_size)) s)
  else
    '(data_buf, st) ← transfer_io_read (sv_store s) (in_obj_id i) (in_obj_ndim i) (obj_dims_of i)
                        (remote_reg_info (in_remote_region i)) data_buf (in_remote_unit i);
    Some (HG_Bulk_transfer (in_local_bulk_handle i) (HG_BULK_PUSH data_buf)
            (ReadCb (LocalBulkArgs handle i metadata_id data_buf total_mem_size)) (set_store st s)).

Definition finish_request (id : Z) s : option (server St) :=
  t ← PDC_finish_request (sv_transfer s) id; Some (set_transfer t s).

Definition transfer_request_bulk_transfer_write_cb (now : Z) (a : transfer_request_local_bulk_args)
    (data_buf : list byte) s : option (server St) :=
  let s := cache_activity now s in
  let i := la_in a in
  st ← transfer_io_write (sv_store s) (in_obj_id i) (in_obj_ndim i) (obj_dims_of i)
         (remote_reg_info (in_remote_region i)) data_buf (in_remote_unit i);
  finish_request (la_transfer_request_id a) (set_store st s).

Definition transfer_request_bulk_transfer_read_cb (now : Z) (a : transfer_request_local_bulk_args) s
    : option (server St) :=
  finish_request (la_transfer_request_id a) (cache_activity now s).

(** ** Start-all requests *)

(** The loops that take [n_objs] IDs and commit them. *)
Fixpoint register_ids (n : nat) (t : transfer_state) : list Z * transfer_state :=
  match n with
  | O => ([], t)
  | S n => let '(id, t) := PDC_transfer_request_id_register t in
           let '(ids, t) := register_ids n t in (id :: ids, t)
  end.
Definition commit_ids (ids : list Z) (t : transfer_state) : transfer_state := foldl PDC_commit_request t ids.

Definition transfer_request_all (now handle : Z) (i : transfer_request_all_in_t) s : option (server St) :=
  let s := cache_activity now s in
  let '(ids, t) := register_ids (ain_n_objs i) (sv_transfer s) in
  let s := set_transfer (commit_ids ids t) s in
  metadata_id ← ids !! 0%nat;
  let args := AllLocalBulkArgs handle i ids in
  let s := HG_Bulk_transfer (ain_local_bulk_handle i) (HG_BULK_PULL (ain_total_buf_size i))
             (if decide (ain_access_type i = PDC_WRITE) then AllWriteCb args else AllReadCb args) s in
  Some (HG_Respond handle (TransferAllOut metadata_id 1) s).

(** The region of an entry of the buffer; the bytes of its data. *)
Definition rd_region (rd : request_data) : pdc_region_info :=
  RegionInfo (Z.to_nat (rd_remote_ndim rd)) (rd_remote_offset rd) (rd_remote_length rd) [] 0.
Definition rd_mem_size (rd : request_data) : Z :=
  foldl (λ t j, t *w arr (rd_remote_length rd) j) (rd_unit rd) (seq 0 (Z.to_nat (rd_remote_ndim rd))).

(** The loop of the write callback: the I/O of each entry, and its end. *)
Fixpoint all_write_loop (data_buf : list byte) (rds : list request_data) (ids : list Z) s : option (server St) :=
  match rds, ids with
  | [], _ => Some s
  | rd :: rds, id :: ids =>
    pos ← rd_data_buf rd;
    st ← transfer_io_write (sv_store s) (rd_obj_id rd) (Z.to_nat (rd_obj_ndim rd)) (rd_obj_dims rd) (rd_region rd)
           (drop (Z.to_nat pos) data_buf) (rd_unit rd);
    s ← finish_request id (set_store st s);
    all_write_loop data_buf rds ids s
  | _ :: _, [] => None
  end.

Definition transfer_request_all_bulk_transfer_write_cb (now : Z) (a : transfer_request_all_local_bulk_args)
    (data_buf : list byte) s : option (server St) :=
  let s := cache_activity now s in
  rds ← parse_bulk_data data_buf (ain_n_objs (aa_in a)) PDC_WRITE;
  all_write_loop data_buf rds (aa_transfer_request_id a) s.

(** The loop of the first read callback; [ptr] is the place in the buffer. *)
Fixpoint all_read_loop (rds : list request_data) (ptr : Z) (data_buf : list byte) (st : St) : option (list byte * St) :=
  match rds with
  | [] => Some (data_buf, st)
  | rd :: rds =>
    if decide (lenZ data_buf < ptr) then None
    else
      '(d, st) ← transfer_io_read st (rd_obj_id rd) (Z.to_nat (rd_obj_ndim rd)) (rd_obj_dims rd) (rd_region rd)
                   (drop (Z.to_nat ptr) data_buf) (rd_unit rd);
      all_read_loop rds (ptr + rd_mem_size rd) (take (Z.to_nat ptr) data_buf ++ d) st
  end.

Definition transfer_request_all_bulk_transfer_read_cb (a : transfer_request_all_local_bulk_args)
    (data_buf : list byte) s : option (server St) :=
  rds ← parse_bulk_data data_buf (ain_n_objs (aa_in a)) PDC_READ;
  let total_mem_size := foldl (λ t rd, t +w rd_mem_size rd) 0 rds in
  '(out, st) ← all_read_loop rds 0 (malloc junk total_mem_size) (sv_store s);
  Some (HG_Bulk_transfer (ain_local_bulk_handle (aa_in a)) (HG_BULK_PUSH out)
          (AllReadCb2 (AllLocalBulkArgs2 (aa_handle a) rds (aa_transfer_request_id a) out)) (set_store st s)).

Fixpoint finish_requests (ids : list Z) s : option (server St) :=
  match ids with
  | [] => Some s
  | id :: ids => s ← finish_request id s; finish_requests ids s
  end.

Definition transfer_request_all_bulk_transfer_read_cb2 (a : transfer_request_all_local_bulk_args2) s
    : option (server St) :=
  let n_objs := length (a2_request_data a) in
  if decide (length (a2_transfer_request_id a) < n_objs)%nat then None
  else finish_requests (take n_objs (a2_transfer_request_id a)) s.

(** ** Status and waiting *)

Definition transfer_request_status (handle transfer_request_id : Z) s : option (server St) :=
  let '(status, t) := PDC_check_request (sv_transfer s) transfer_request_id in
  Some (HG_Respond handle (StatusOut status 1) (set_transfer t s)).

Definition transfer_request_wait (handle transfer_request_id : Z) s : option (server St) :=
  let '(status, t) := PDC_check_request (sv_transfer s) transfer_request_id in
  let s := set_transfer t s in
  if decide (status = PDC_TRANSFER_STATUS_PENDING) then
    let '(handle_ref, s) := calloc_ref s in
    '(_, t) ← PDC_try_finish_request (sv_transfer s) transfer_request_id handle handle_ref 0;
    Some (set_transfer t s)
  else Some (HG_Respond handle (WaitOut 1) s).

Definition transfer_request_wait_all (handle : Z) (i : transfer_request_wait_all_in_t) s : option (server St) :=
  Some (HG_Bulk_transfer (win_local_bulk_handle i) (HG_BULK_PULL (win_total_buf_size i))
          (WaitAllCb (WaitAllLocalBulkArgs handle i)) s).

(** The loop over the IDs in the buffer; the boolean is [fast_return]. *)
Fixpoint wait_all_loop (handle handle_ref : Z) (data_buf : list byte) (ptr : Z) (n : nat) (fast_return : bool)
    (t : transfer_state) : option (bool * transfer_state) :=
  match n with
  | O => Some (fast_return, t)
  | S n =>
    id ← load_u64 data_buf ptr;
    let '(status, t) := PDC_check_request t id in
    t ← (if decide (status = PDC_TRANSFER_STATUS_PENDING)
         then '(_, t) ← PDC_try_finish_request t id handle handle_ref 1; Some t else Some t);
    wait_all_loop handle handle_ref data_buf (ptr + 8) n
      (if decide (status ≠ PDC_TRANSFER_STATUS_COMPLETE) then false else fast_return) t
  end.

Definition transfer_request_wait_all_bulk_transfer_cb (a : transfer_request_wait_all_local_bulk_args)
    (data_buf : list byte) s : option (server St) :=
  let '(handle_ref, s) := calloc_ref s in
  '(fast_return, t) ← wait_all_loop (wa_handle a) handle_ref data_buf 0 (win_n_objs (wa_in a)) true (sv_transfer s);
  let s := set_transfer t s in
  if fast_return : bool then Some (HG_Respond (wa_handle a) (WaitAllOut 1) (free_ref handle_ref s)) else Some s.

(** ** Metadata queries *)

Definition transfer_request_metadata_query (handle : Z) (i : transfer_request_metadata_query_in_t) s
    : option (server St) :=
  Some (HG_Bulk_transfer (qin_local_bulk_handle i) (HG_BULK_PULL (qin_total_buf_size i))
          (QueryCb (QueryLocalBulkArgs handle i)) s).

Definition transfer_request_metadata_query_bulk_transfer_cb (a : transfer_request_metadata_query_local_bulk_args)
    (data_buf : list byte) s : option (server St) :=
  '(query_id, total_buf_size, m) ←
    transfer_request_metadata_query_parse junk (sv_metadata s) (qin_n_objs (qa_in a)) data_buf (qin_is_write (qa_in a));
  Some (HG_Respond (qa_handle a) (QueryOut query_id total_buf_size 1) (set_metadata m s)).

(** The size is the client's; an unknown query has no buffer to send. *)
Definition transfer_request_metadata_query2 (handle : Z) (i : transfer_request_metadata_query2_in_t) s
    : option (server St) :=
  let '(buf, m) := transfer_request_metadata_query_lookup_query_buf (sv_metadata s) (q2in_query_id i) in
  data_buf ← buf;
  data ← mem_read data_buf 0 (q2in_total_buf_size i);
  Some (HG_Bulk_transfer (q2in_local_bulk_handle i) (HG_BULK_PUSH data)
          (Query2Cb (Query2LocalBulkArgs handle data_buf)) (set_metadata m s)).

Definition transfer_request_metadata_query2_bulk_transfer_cb (a : transfer_request_metadata_query2_local_bulk_args) s
    : option (server St) :=
  Some (HG_Respond (q2a_handle a) (Query2Out 1) s).

(** * The state machine *)

Inductive rpc :=
  | RpcTransfer (i : transfer_request_in_t)
  | RpcStatus (transfer_request_id : Z)
  | RpcWait (transfer_request_id : Z)
  | RpcWaitAll (i : transfer_request_wait_all_in_t)
  | RpcTransferAll (i : transfer_request_all_in_t)
  | RpcQuery (i : transfer_request_metadata_query_in_t)
  | RpcQuery2 (i : transfer_request_metadata_query2_in_t).

Definition handle_rpc (now handle : Z) (m : rpc) s : option (server St) :=
  match m with
  | RpcTransfer i => transfer_request now handle i s
  | RpcStatus id => transfer_request_status handle id s
  | RpcWait id => transfer_request_wait handle id s
  | RpcWaitAll i => transfer_request_wait_all handle i s
  | RpcTransferAll i => transfer_request_all now handle i s
  | RpcQuery i => transfer_request_metadata_query handle i s
  | RpcQuery2 i => transfer_request_metadata_query2 handle i s
  end.

(** The callback of a transfer that has completed with [data] in the buffer. *)
Definition run_callback (now : Z) (cb : bulk_callback) (data : list byte) s : option (server St) :=
  match cb with
  | WriteCb a => transfer_request_bulk_transfer_write_cb now a data s
  | ReadCb a => transfer_request_bulk_transfer_read_cb now a s
  | AllWriteCb a => transfer_request_all_bulk_transfer_write_cb now a data s
  | AllReadCb a => transfer_request_all_bulk_transfer_read_cb a data s
  | AllReadCb2 a => transfer_request_all_bulk_transfer_read_cb2 a s
  | WaitAllCb a => transfer_request_wait_all_bulk_transfer_cb a data s
  | QueryCb a => transfer_request_metadata_query_bulk_transfer_cb a data s
  | Query2Cb a => transfer_request_metadata_query2_bulk_transfer_cb a s
  end.

(** The [k]th transfer completes: a pull has filled the buffer, a push has
    delivered it. *)
Definition complete (now : Z) (k : nat) (data : list byte) s : option (server St) :=
  op ← sv_bulks s !! k;
  let pushed :=
    match bo_direction op with
    | HG_BULK_PULL _ => sv_pushed s
    | HG_BULK_PUSH d => sv_pushed s ++ [(bo_local_bulk_handle op, d)]
    end in
  run_callback now (bo_callback op) data
    (Server (sv_store s) (sv_transfer s) (sv_next_ref s) (sv_metadata s) (delete k (sv_bulks s)) (sv_replies s) pushed
       (sv_last_cache_activity s)).

(** The data of a completion fits the transfer. *)
Definition completes_with (op : bulk_op) (data : list byte) : Prop :=
  match bo_direction op with HG_BULK_PULL n => lenZ data = n | HG_BULK_PUSH d => data = d end.

(** The state of the server when it starts. *)
Definition server_init (st : St) (m : metadata_state) : server St :=
  Server st PDC_server_transfer_request_init 0 m [] [] [] 0.

(** A completion of one of the transfers in progress. *)
Inductive completion_step s : server St → Prop :=
  | completion_step_intro now k op data s' :
      sv_bulks s !! k = Some op → completes_with op data → complete now k data s = Some s' → completion_step s s'.
End Handlers.
