(* ===== verification/RequestHandlerSpec.v ===== *)
(** The properties of the RPC handlers of [RequestHandler]: every request in
    progress stays known, every client that waits is answered exactly once, and
    the bytes a write brings are in the store when its waiter is answered. *)

From stdpp Require Import gmap sets.
From S2P Require Export RequestHandler.
#[local] Open Scope Z_scope.

(** * Waiting for requests *)

Definition is_pending (r : pdc_transfer_request_status) : Prop := rs_status r = PDC_TRANSFER_STATUS_PENDING.
#[global] Instance is_pending_dec r : Decision (is_pending r).
Proof. unfold is_pending. apply _. Defined.

(** Some request is bound to the handle. *)
Definition waits_on (h : Z) (r : pdc_transfer_request_status) : Prop := rs_handle_ref r ≠ None ∧ rs_handle r = h.
#[global] Instance waits_on_dec h r : Decision (waits_on h r).
Proof. unfold waits_on. apply _. Defined.
Definition waiting (t : transfer_state) (h : Z) : Prop := Exists (waits_on h) (ts_list t).
#[global] Instance waiting_dec t h : Decision (waiting t h).
Proof. unfold waiting. apply _. Defined.

(** How often the handle was answered, and with the answer it waits for. *)
Definition responses (t : transfer_state) (h : Z) : nat := length (filter (λ x, x.1 = h) (ts_responses t)).
Definition credits (t : transfer_state) (h : Z) : nat := (responses t h + if decide (waiting t h) then 1 else 0)%nat.

#[global] Arguments credits : simpl never.
#[global] Arguments bound_to : simpl never.

(** The invariant of the status list, with the IDs of the requests in progress. *)
Record wait_ok (t : transfer_state) (next_ref : Z) (flight : list Z) : Prop := {
  wo_transfer : transfer_ok t;
  wo_flight : flight ≡ₚ ids_of (filter is_pending (ts_list t));
  wo_ids : Forall (λ id, id < ts_transfer_request_id_g t) (ids_of (ts_list t));
  wo_status : Forall (λ r, rs_status r ≠ PDC_TRANSFER_STATUS_NOT_FOUND) (ts_list t);
  wo_bound : ∀ r h, r ∈ ts_list t → rs_handle_ref r = Some h → is_pending r ∧ h < next_ref;
  wo_groups : ∀ r1 r2 h1 h2, r1 ∈ ts_list t → r2 ∈ ts_list t →
    rs_handle_ref r1 = Some h1 → rs_handle_ref r2 = Some h2 →
    (rs_handle r1 = rs_handle r2 ↔ h1 = h2) ∧ (h1 = h2 → rs_out_type r1 = rs_out_type r2) }.

#[global] Instance wait_ok_proper t n : Proper ((≡ₚ) ==> iff) (wait_ok t n).
Proof. intros f1 f2 Hf. by split; intros [? Hfl ????]; split; try done; rewrite <-Hfl. Qed.

Lemma wait_ok_refs t n n' fl : wait_ok t n fl → n ≤ n' → wait_ok t n' fl.
Proof. intros [] ?. split; try done. intros r h Hr Hh. destruct (wo_bound0 r h Hr Hh). split; [done|lia]. Qed.

Lemma waiting_app h l1 r l2 : Exists (waits_on h) (l1 ++ r :: l2) ↔ waits_on h r ∨ Exists (waits_on h) (l1 ++ l2).
Proof. rewrite !Exists_app, Exists_cons. tauto. Qed.

Lemma waiting_elem t h : waiting t h ↔ ∃ r href, r ∈ ts_list t ∧ rs_handle_ref r = Some href ∧ rs_handle r = h.
Proof.
  unfold waiting, waits_on. rewrite list.Exists_exists. split.
  - intros (r & Hr & Hn & Hh). destruct (rs_handle_ref r) as [href|] eqn:E; [|done]. by exists r, href.
  - intros (r & href & Hr & E & Hh). exists r. split; [done|]. by rewrite E.
Qed.

Lemma credits_ext t t' h : ts_responses t' = ts_responses t → (waiting t' h ↔ waiting t h) → credits t' h = credits t h.
Proof. intros Hr Hw. unfold credits, responses. rewrite Hr. by rewrite (decide_ext _ _ _ _ Hw). Qed.

(** Taking IDs and committing requests. *)
Lemma commit_ok t n fl id :
  wait_ok t n fl → id < ts_transfer_request_id_g t → id ∉ ids_of (ts_list t) →
  wait_ok (PDC_commit_request t id) n (id :: fl) ∧ ∀ h, credits (PDC_commit_request t id) h = credits t h.
Proof.
  intros [Ht Hfl Hids Hst Hb Hg] Hlt Hni. pose proof (transfer_ok_commit t id Ht Hni) as Ht'.
  destruct t as [l refs g resp]. unfold PDC_commit_request in *. cbn in *. split.
  - split; cbn; [done| | | | |].
    + rewrite list.filter_app, filter_cons_True by done. rewrite filter_nil, fmap_app. cbn. rewrite Hfl.
      by rewrite Permutation_app_comm.
    + rewrite fmap_app. apply Forall_app. split; [done|]. by constructor.
    + apply Forall_app. split; [done|]. by constructor.
    + intros r' h [Hr| ->%list_elem_of_singleton]%elem_of_app Hh; [by apply (Hb r')|done].
    + intros r1 r2 h1 h2 [H1| ->%list_elem_of_singleton]%elem_of_app [H2| ->%list_elem_of_singleton]%elem_of_app; try done.
      by apply Hg.
  - intros h. apply credits_ext; [done|]. unfold waiting. cbn. rewrite Exists_app, Exists_cons, Exists_nil.
    unfold waits_on at 2. cbn. naive_solver.
Qed.

Lemma commit_ids_ok ids : ∀ t n fl,
  wait_ok t n fl → NoDup ids → Forall (λ id, id < ts_transfer_request_id_g t ∧ id ∉ ids_of (ts_list t)) ids →
  wait_ok (commit_ids ids t) n (ids ++ fl) ∧ (∀ h, credits (commit_ids ids t) h = credits t h) ∧
  ts_transfer_request_id_g (commit_ids ids t) = ts_transfer_request_id_g t.
Proof.
  induction ids as [|id ids IH]; intros t n fl Hok Hnd Hnew; [done|].
  apply list.NoDup_cons in Hnd as [Hni Hnd]. apply list.Forall_cons in Hnew as [[Hlt Hid] Hnew].
  destruct (commit_ok t n fl id Hok Hlt Hid) as [Hok1 Hcr1].
  destruct (IH (PDC_commit_request t id) n (id :: fl) Hok1 Hnd) as (Hok' & Hcr' & Hg').
  { apply list.Forall_forall. intros x Hx. cbn. rewrite fmap_app. pose proof (proj1 (list.Forall_forall _ _) Hnew x Hx) as [? Hxl].
    split; [done|]. cbn. intros [?| ->%list_elem_of_singleton]%elem_of_app; done. }
  split; [|split; [intros h; etrans; [apply Hcr'|apply Hcr1]|exact Hg']].
  cbn. by rewrite Permutation_middle.
Qed.

Lemma register_ids_eq n : ∀ t, 0 ≤ ts_transfer_request_id_g t → ts_transfer_request_id_g t + Z.of_nat n < W64 →
  register_ids n t = (seqZ (ts_transfer_request_id_g t) (Z.of_nat n),
    TransferState (ts_list t) (ts_refs t) (ts_transfer_request_id_g t + Z.of_nat n) (ts_responses t)).
Proof.
  induction n as [|n IH]; intros [l refs g resp] H0 Hw; cbn in *; [by rewrite Z.add_0_r|].
  rewrite (u64_id (g + 1)) by lia. rewrite IH by (cbn; lia). cbn [ts_list ts_refs ts_transfer_request_id_g ts_responses].
  change (Z.pos (Pos.of_succ_nat n)) with (Z.of_nat (S n)). rewrite (seqZ_cons g (Z.of_nat (S n))) by lia.
  by replace (Z.pred (Z.of_nat (S n))) with (Z.of_nat n) by lia; rewrite <-Z.add_1_r;
    replace (g + 1 + Z.of_nat n) with (g + Z.of_nat (S n)) by lia.
Qed.

Lemma register_ok t n fl k :
  wait_ok t n fl → 0 ≤ ts_transfer_request_id_g t → ts_transfer_request_id_g t + Z.of_nat k < W64 →
  let '(ids, t1) := register_ids k t in
  length ids = k ∧ wait_ok (commit_ids ids t1) n (ids ++ fl) ∧ (∀ h, credits (commit_ids ids t1) h = credits t h) ∧
  ts_transfer_request_id_g (commit_ids ids t1) = ts_transfer_request_id_g t + Z.of_nat k.
Proof.
  intros [Ht Hfl Hids Hst Hb Hg] H0 Hw. rewrite register_ids_eq by done. split; [by rewrite length_seqZ, Nat2Z.id|].
  set (t1 := TransferState _ _ _ _). destruct (commit_ids_ok (seqZ (ts_transfer_request_id_g t) (Z.of_nat k)) t1 n fl) as (? & Hcr & ?).
  - split; [by split; apply Ht|done| |done..]. eapply list.Forall_impl; [exact Hids|]. subst t1. cbn. intros. lia.
  - apply NoDup_seqZ.
  - apply list.Forall_forall. intros x Hx%elem_of_seqZ. subst t1. cbn. split; [lia|]. intros Hin.
    pose proof (proj1 (list.Forall_forall _ _) Hids x Hin) as Hlt. cbn in Hlt. lia.
  - split; [done|]. split; [|done]. intros h. rewrite Hcr. by apply credits_ext.
Qed.

(** Finishing a request in progress. *)
Lemma finish_id_g t id t' : PDC_finish_request t id = Some t' → ts_transfer_request_id_g t' = ts_transfer_request_id_g t.
Proof. unfold PDC_finish_request. destruct (finish_loop _ _ _ _) as [[[l refs] resp]|]; [|done]. by intros [= <-]. Qed.

Lemma pending_split (t : transfer_state) l1 r l2 fl :
  ts_list t = l1 ++ r :: l2 → is_pending r → rs_transfer_request_id r :: fl ≡ₚ ids_of (filter is_pending (ts_list t)) →
  fl ≡ₚ ids_of (filter is_pending (l1 ++ l2)).
Proof.
  intros -> Hp Hfl. rewrite list.filter_app, filter_cons_True, fmap_app in Hfl by done. csimpl in Hfl.
  rewrite <-Permutation_middle in Hfl. apply Permutation_cons_inv in Hfl. by rewrite list.filter_app, fmap_app.
Qed.

Lemma finish_ok t n fl id :
  wait_ok t n (id :: fl) →
  ∃ t', PDC_finish_request t id = Some t' ∧ wait_ok t' n fl ∧ (∀ h, credits t' h = credits t h) ∧
    ts_transfer_request_id_g t' = ts_transfer_request_id_g t.
Proof.
  intros [Ht Hfl Hids Hst Hb Hg].
  assert (id ∈ ids_of (filter is_pending (ts_list t))) as (r & -> & [Hp Hr]%list_elem_of_filter)%list_elem_of_fmap
    by (rewrite <-Hfl; set_solver).
  destruct (rs_handle_ref r) as [href|] eqn:Hh.
  - destruct (finish_bound t r href Ht Hr Hh) as (t' & Hf & Ht' & (l1 & l2 & Hl & Hl') & Hresp).
    assert (ts_list t' ⊆ ts_list t) as Hsub by (rewrite Hl, Hl'; set_solver).
    pose proof (finish_id_g _ _ _ Hf) as Eg. exists t'. split; [done|]. split; [|split; [|done]].
    + split; [done|rewrite Hl'; by eapply pending_split| | | |].
      * rewrite Eg. rewrite Hl, fmap_app, fmap_cons in Hids. rewrite Hl', fmap_app.
        apply Forall_app in Hids as [H1 [_ H2]%list.Forall_cons]. by apply Forall_app.
      * rewrite Hl in Hst. rewrite Hl'. apply Forall_app in Hst as [H1 [_ H2]%list.Forall_cons]. by apply Forall_app.
      * intros r' h' Hr'. apply Hb. by apply Hsub.
      * intros r1 r2 h1 h2 H1 H2. apply Hg; by apply Hsub.
    + intros h. unfold credits, responses. rewrite Hresp, list.filter_app, length_app.
      assert (waiting t h ↔ waits_on h r ∨ waiting t' h) as Hw by (unfold waiting; by rewrite Hl, Hl', waiting_app).
      assert (bound_to href (ts_list t) ≡ₚ r :: bound_to href (ts_list t')) as Hbt.
      { rewrite Hl, Hl', !bound_to_app. unfold bound_to at 2. rewrite filter_cons_True by done. by rewrite Permutation_middle. }
      assert (lenZ (bound_to href (ts_list t)) = 1 + lenZ (bound_to href (ts_list t'))) as Hlen
        by (unfold lenZ; rewrite Hbt; simpl; lia).
      assert (waits_on h r ↔ rs_handle r = h) as Hwr by (unfold waits_on; rewrite Hh; naive_solver).
      assert (rs_handle r = h → (waiting t' h ↔ bound_to href (ts_list t') ≠ [])) as Hlast.
      { intros Hrh. rewrite waiting_elem. split.
        - intros (r' & h' & Hr' & Hh' & Erh) Hnil.
          assert (h' = href) as -> by (eapply (proj1 (Hg r' r h' href (Hsub _ Hr') Hr Hh' Hh)); congruence).
          assert (r' ∈ bound_to href (ts_list t')) as Hin by (apply list_elem_of_filter; done). rewrite Hnil in Hin. set_solver.
        - intros Hne. destruct (bound_to href (ts_list t')) as [|r' rest] eqn:E; [done|].
          assert (r' ∈ bound_to href (ts_list t')) as [Hh' Hr']%list_elem_of_filter by (rewrite E; set_solver).
          exists r', href. split; [done|]. split; [done|]. rewrite <-Hrh.
          by apply (proj1 (Hg r' r href href (Hsub _ Hr') Hr Hh' Hh)). }
      destruct (decide (rs_handle r = h)) as [Hrh|Hrh].
      * rewrite (decide_True (P := waiting t h)) by (apply Hw; left; by apply Hwr). specialize (Hlast Hrh).
        destruct (decide (lenZ (bound_to href (ts_list t)) = 1)) as [E1|E1].
        -- rewrite filter_cons_True, filter_nil by done. rewrite (decide_False (P := waiting t' h)); [simpl; lia|].
           rewrite Hlast. intros Hne. apply Hne, length_zero_iff_nil. unfold lenZ in *. lia.
        -- rewrite filter_nil. rewrite (decide_True (P := waiting t' h)); [simpl; lia|]. apply Hlast. intros Hnil.
           rewrite Hnil in Hlen. done.
      * rewrite (decide_ext (waiting t' h) (waiting t h)) by (rewrite Hw, Hwr; tauto).
        destruct (decide (lenZ _ = 1)); [rewrite filter_cons_False by done|]; rewrite filter_nil; simpl; lia.
  - destruct (ids_split _ _ (to_nodup _ Ht) Hr) as (l1 & l2 & Hl & H1 & H2 & Hnd').
    pose proof (pending_split t l1 r l2 fl Hl Hp Hfl) as Hfl'.
    destruct (transfer_ok_finish t (rs_transfer_request_id r) Ht) as (t' & Hf & Hok').
    exists t'. split; [done|]. unfold PDC_finish_request in Hf. rewrite Hl, finish_loop_at, Hh in Hf by done. injection Hf as <-.
    split; [|split; [|done]].
    + rewrite Hl in Hids, Hb, Hg, Hst. split; cbn; [done| | | | |].
      * rewrite Hfl', !list.filter_app. by rewrite filter_cons_False.
      * rewrite fmap_app in *. exact Hids.
      * apply Forall_app in Hst as [H3 [_ H4]%list.Forall_cons]. apply Forall_app. split; [done|]. by constructor.
      * intros r' h' Hr' Hh'. apply (Hb r'); [|done]. clear -Hr' Hh'. set_solver.
      * intros r1 r2 h1 h2 Hr1 Hr2 Hh1 Hh2. apply Hg; try done; [clear -Hr1 Hh1|clear -Hr2 Hh2]; set_solver.
    + intros h. apply credits_ext; [done|]. unfold waiting. rewrite Hl. cbn. rewrite !waiting_app. unfold waits_on at 1 3. cbn.
      rewrite Hh. tauto.
Qed.

(** The handle waits through the counter [href] and no other. *)
Record group (t : transfer_state) (handle href out_type : Z) : Prop := {
  gr_counter : ts_refs t !! href = Some (lenZ (bound_to href (ts_list t)));
  gr_bound : ∀ r h, r ∈ ts_list t → rs_handle_ref r = Some h →
    (rs_handle r = handle ↔ h = href) ∧ (h = href → rs_out_type r = out_type) }.

(** Asking for the status of a request. *)
Lemma check_ok t n fl id :
  wait_ok t n fl →
  let '(status, t') := PDC_check_request t id in
  wait_ok t' n fl ∧ (∀ h, credits t' h = credits t h) ∧ ts_responses t' = ts_responses t ∧
  ts_transfer_request_id_g t' = ts_transfer_request_id_g t ∧
  (∀ handle href ot, group t handle href ot → group t' handle href ot) ∧
  (∀ id', id' ≠ id → id' ∈ ids_of (ts_list t) → id' ∈ ids_of (ts_list t')) ∧
  (status = PDC_TRANSFER_STATUS_PENDING →
     t' = t ∧ ∃ r, r ∈ ts_list t ∧ rs_transfer_request_id r = id ∧ rs_handle_ref r = None ∧ is_pending r) ∧
  (status = PDC_TRANSFER_STATUS_NOT_FOUND → id ∉ ids_of (ts_list t)).
Proof.
  intros [Ht Hfl Hids Hst Hb Hg]. pose proof (transfer_ok_check t id Ht) as Ht'. destruct t as [l refs g resp].
  unfold PDC_check_request in *. cbn in *. destruct (ids_cases l id (to_nodup _ Ht)) as [Hni|(l1 & r & l2 & Hl & Hid & Hr & H1 & H2 & Hnd')].
  { rewrite check_loop_absent in * by done. split_and!; done. }
  rewrite Hl, check_loop_at in * by done.
  pose proof (proj1 (list.Forall_forall _ _) Hst r Hr) as Hnf. cbn in Hnf.
  destruct (rs_handle_ref r) as [h|] eqn:Hh; [by split_and!|].
  destruct (decide (rs_status r = PDC_TRANSFER_STATUS_COMPLETE)) as [Hc|Hc]; cbn in *.
  - assert (¬ is_pending r) as Hnp by (unfold is_pending; congruence).
    assert (l1 ++ l2 ⊆ l1 ++ r :: l2) as Hsub by set_solver.
    split_and!; try done; [|intros h; apply credits_ext; [done|]; unfold waiting; cbn; rewrite waiting_app; unfold waits_on at 2; rewrite Hh; tauto| |].
    + split; cbn; [done| | | |intros ????; apply Hb; [by apply Hsub|done]|intros ??????; apply Hg; by apply Hsub].
      * rewrite Hfl, !list.filter_app. by rewrite filter_cons_False.
      * rewrite fmap_app in *. rewrite fmap_cons in Hids. apply Forall_app in Hids as [? [? ?]%list.Forall_cons]. by apply Forall_app.
      * apply Forall_app in Hst as [? [? ?]%list.Forall_cons]. by apply Forall_app.
    + intros handle href ot [Hcnt Hbd]. split; cbn in *.
      * rewrite Hcnt. unfold bound_to. rewrite !list.filter_app. by rewrite filter_cons_False by congruence.
      * intros ???. apply Hbd. by apply Hsub.
    + intros id' Hne. rewrite !fmap_app, fmap_cons. clear -Hne Hid. set_solver.
  - split_and!; try done.
    intros Hp. split; [done|]. exists r. by split; [apply elem_of_app; right; apply elem_of_cons; left|].
Qed.

(** Binding a request in progress to the handle. *)
Lemma try_finish_ok t n fl id handle href ot r :
  wait_ok t n fl → group t handle href ot → href < n →
  r ∈ ts_list t → rs_transfer_request_id r = id → rs_handle_ref r = None → is_pending r →
  ∃ ret t', PDC_try_finish_request t id handle href ot = Some (ret, t') ∧ wait_ok t' n fl ∧ group t' handle href ot ∧
    waiting t' handle ∧ (∀ h, h ≠ handle → credits t' h = credits t h) ∧ ts_responses t' = ts_responses t ∧
    ts_transfer_request_id_g t' = ts_transfer_request_id_g t ∧ ids_of (ts_list t') = ids_of (ts_list t).
Proof.
  intros [Ht Hfl Hids Hst Hb Hg] [Hcnt Hgr] Hlt Hr Hid Hh Hp.
  destruct (transfer_ok_try_finish t id handle href ot r Ht Hr Hid Hh Hcnt) as (ret & t' & Hrun & Ht').
  destruct (ids_split _ r (to_nodup _ Ht) Hr) as (l1 & l2 & Hl & H1 & H2 & _).
  exists ret, t'. split; [done|]. unfold PDC_try_finish_request in Hrun. destruct t as [l refs g resp]. cbn in *. subst l.
  rewrite (try_finish_loop_at id handle href ot l1 r l2 refs _ ltac:(by rewrite <-Hid) Hid Hcnt) in Hrun. cbn in Hrun. injection Hrun as <- <-.
  set (r' := RequestStatus handle id (rs_status r) (Some href) ot) in *.
  assert (∀ x, x ∈ l1 ++ r' :: l2 → x = r' ∨ x ∈ l1 ++ r :: l2) as Hx by (clear; set_solver).
  assert (is_pending r') as Hp' by done. split; [|split; [|split; [|split; [|split; [|split]]]]]; cbn; try done.
  - split; cbn; [done| | | | |].
    + rewrite Hfl, !list.filter_app, !filter_cons_True by done. rewrite !fmap_app, !fmap_cons. cbn. by rewrite Hid.
    + rewrite fmap_app, fmap_cons in *. cbn. by rewrite <-Hid.
    + apply Forall_app in Hst as [H3 [H5 H4]%list.Forall_cons]. apply Forall_app. split; [done|]. by constructor.
    + intros x h [->|Hin]%Hx Hxh; [by injection Hxh as <-|by apply (Hb x)].
    + intros r1 r2 h1 h2 [->|Hin1]%Hx [->|Hin2]%Hx E1 E2; cbn in *.
      * injection E1 as <-. injection E2 as <-. done.
      * injection E1 as <-. destruct (Hgr r2 h2 Hin2 E2) as [Hr2 Hot]. split; [naive_solver|]. intros ->. symmetry. by apply Hot.
      * injection E2 as <-. destruct (Hgr r1 h1 Hin1 E1) as [Hr2 Hot]. split; [naive_solver|]. intros ->. by apply Hot.
      * by apply Hg.
  - split; cbn.
    + rewrite lookup_insert_eq. f_equal. unfold bound_to, lenZ.
      rewrite !list.filter_app, (filter_cons_True _ r'), (filter_cons_False _ r) by (done || congruence).
      rewrite !length_app. simpl. lia.
    + intros x h [->|Hin]%Hx Hxh; [injection Hxh as <-; done|by apply Hgr].
  - apply Exists_app. right. by apply Exists_cons; left.
  - intros h Hne. apply credits_ext; [done|]. unfold waiting. cbn. rewrite !waiting_app. unfold waits_on at 1 3. cbn. naive_solver.
  - by rewrite !fmap_app, !fmap_cons, Hid.
Qed.

(** A counter that was just allocated. *)
Lemma calloc_group t n fl handle ot :
  wait_ok t n fl → ¬ waiting t handle →
  let t' := TransferState (ts_list t) (<[n := 0]> (ts_refs t)) (ts_transfer_request_id_g t) (ts_responses t) in
  wait_ok t' (n + 1) fl ∧ group t' handle n ot.
Proof.
  intros [Ht Hfl Hids Hst Hb Hg] Hw t'. split.
  - split; cbn; try done.
    + destruct Ht as [Hnd Hrefs]. split; [done|]. cbn. intros h Hne. rewrite lookup_insert_ne; [by apply Hrefs|]. intros <-.
      apply Hne. destruct (bound_to n (ts_list t)) as [|r rest] eqn:E; [done|].
      assert (r ∈ bound_to n (ts_list t)) as [Hr Hin]%list_elem_of_filter by (rewrite E; set_solver).
      destruct (Hb r n Hin Hr). lia.
    + intros r h Hr Hh. destruct (Hb r h Hr Hh). split; [done|lia].
  - assert (∀ r h, r ∈ ts_list t → rs_handle_ref r = Some h → h ≠ n ∧ rs_handle r ≠ handle) as Hno.
    { intros r h Hr Hh. split; [|intros E; apply Hw, waiting_elem; eauto]. destruct (Hb r h Hr Hh). lia. }
    split; cbn.
    + rewrite lookup_insert_eq. f_equal. destruct (bound_to n (ts_list t)) as [|r rest] eqn:E; [done|].
      assert (r ∈ bound_to n (ts_list t)) as [Hr Hin]%list_elem_of_filter by (rewrite E; set_solver).
      by destruct (Hno r n Hin Hr).
    + intros r h Hr Hh. destruct (Hno r h Hr Hh). naive_solver.
Qed.

(** Freeing a counter nothing waits on. *)
Lemma free_ok t n fl href :
  wait_ok t n fl → bound_to href (ts_list t) = [] →
  wait_ok (TransferState (ts_list t) (delete href (ts_refs t)) (ts_transfer_request_id_g t) (ts_responses t)) n fl.
Proof.
  intros [[Hnd Hrefs] Hfl Hids Hst Hb Hg] Hnil. split; cbn; try done. split; [done|]. cbn. intros h Hne.
  rewrite lookup_delete_ne; [by apply Hrefs|]. intros <-. done.
Qed.

(** What one check, with the binding that may follow it, does. *)
Lemma wait_step_ok t n fl handle href ot id :
  wait_ok t n fl → group t handle href ot → href < n →
  let '(status, t1) := PDC_check_request t id in
  ∃ t', (if decide (status = PDC_TRANSFER_STATUS_PENDING)
         then '(_, t) ← PDC_try_finish_request t1 id handle href ot; Some t else Some t1) = Some t' ∧
    wait_ok t' n fl ∧ group t' handle href ot ∧ (∀ h, h ≠ handle → credits t' h = credits t h) ∧
    ts_responses t' = ts_responses t ∧ ts_transfer_request_id_g t' = ts_transfer_request_id_g t ∧
    (∀ id', id' ≠ id → id' ∈ ids_of (ts_list t) → id' ∈ ids_of (ts_list t')) ∧
    match status with
    | PDC_TRANSFER_STATUS_COMPLETE => waiting t' handle ↔ waiting t handle
    | PDC_TRANSFER_STATUS_PENDING => waiting t' handle
    | PDC_TRANSFER_STATUS_NOT_FOUND => (waiting t' handle ↔ waiting t handle) ∧ id ∉ ids_of (ts_list t)
    end.
Proof.
  intros Hok Hgr Hlt. pose proof (check_ok t n fl id Hok) as Hck. destruct (PDC_check_request t id) as [status t1].
  destruct Hck as (Hok1 & Hcr & Hresp & Hg & Hgr1 & Hids & Hpend & Hnf). destruct (decide (status = PDC_TRANSFER_STATUS_PENDING)) as [Hs|Hs].
  - destruct (Hpend Hs) as (-> & r & Hr & Hid & Hh & Hp).
    destruct (try_finish_ok t n fl id handle href ot r) as (ret & t' & -> & Hok' & Hgr' & Hw & Hcr' & Hresp' & Hg' & Hids'); [done..|].
    exists t'. rewrite Hs. split_and!; try done. intros id' _. by rewrite Hids'.
  - exists t1. assert (waiting t1 handle ↔ waiting t handle) as Hw.
    { specialize (Hcr handle). unfold credits, responses in Hcr. rewrite Hresp in Hcr.
      destruct (decide (waiting t1 handle)), (decide (waiting t handle)); (done || lia). }
    split_and!; auto. destruct status; [done|done|]. split; [done|]. by apply Hnf.
Qed.

Lemma wait_all_loop_ok handle href d n : ∀ ids ptr fast t nr fl,
  load_u64s d ptr n = Some ids → wait_ok t nr fl → group t handle href 1 → href < nr →
  ∃ fast' t', wait_all_loop handle href d ptr n fast t = Some (fast', t') ∧ wait_ok t' nr fl ∧ group t' handle href 1 ∧
    (∀ h, h ≠ handle → credits t' h = credits t h) ∧ ts_responses t' = ts_responses t ∧
    ts_transfer_request_id_g t' = ts_transfer_request_id_g t ∧ (waiting t handle → waiting t' handle) ∧
    (fast' = true → fast = true ∧ (waiting t' handle → waiting t handle)) ∧
    (NoDup ids → (∀ id, id ∈ ids → id ∈ ids_of (ts_list t)) → fast' = false → fast = false ∨ waiting t' handle).
Proof.
  induction n as [|n IH]; intros ids ptr fast t nr fl Hload Hok Hgr Hlt; cbn in Hload |- *.
  { injection Hload as <-. exists fast, t. split_and!; auto. }
  destruct (load_u64 d ptr) as [id|]; [|done]. cbn in Hload |- *.
  destruct (load_u64s d (ptr + 8) n) as [ids'|] eqn:Hl'; [|done]. injection Hload as <-.
  pose proof (wait_step_ok t nr fl handle href 1 id Hok Hgr Hlt) as Hstep.
  destruct (PDC_check_request t id) as [status t0]. destruct Hstep as (t1 & -> & Hok1 & Hgr1 & Hcr1 & Hresp1 & Hg1 & Hids1 & Hst).
  cbn. destruct (IH _ _ (if decide (status ≠ PDC_TRANSFER_STATUS_COMPLETE) then false else fast) t1 nr fl Hl' Hok1 Hgr1 Hlt)
    as (fast' & t' & -> & Hok' & Hgr' & Hcr' & Hresp' & Hg' & Hw' & Hfast & Hknown).
  exists fast', t'. split; [done|]. split; [done|]. split; [done|]. split; [intros h Hne; by rewrite Hcr', Hcr1|].
  split; [congruence|]. split; [congruence|]. split; [intros Hw; apply Hw'; destruct status; tauto|]. split.
  - intros Hf. destruct (Hfast Hf) as [Hf1 Hf2]. destruct (decide (status ≠ _)) as [|Hc]; [done|]. split; [done|].
    intros Hw. apply Hf2 in Hw. destruct status; [tauto|by destruct Hc..].
  - intros [Hni Hnd]%list.NoDup_cons Hin Hf. destruct status.
    + rewrite decide_False in Hknown by tauto. apply Hknown; [done| |done]. intros id' Hid'. apply Hids1; [congruence|set_solver].
    + right. by apply Hw'.
    + destruct Hst as [_ Habs]. destruct Habs. apply Hin. set_solver.
Qed.

(** * The invariant of the server *)

(** The requests a callback finishes, and the handle a wait-all call brings. *)
Definition cb_ids (cb : bulk_callback) : list Z :=
  match cb with
  | WriteCb a | ReadCb a => [la_transfer_request_id a]
  | AllWriteCb a | AllReadCb a => aa_transfer_request_id a
  | AllReadCb2 a => a2_transfer_request_id a
  | _ => []
  end.
Definition wait_all_handle (cb : bulk_callback) : option Z :=
  match cb with WaitAllCb a => Some (wa_handle a) | _ => None end.

Definition cb_ok (cb : bulk_callback) : Prop :=
  match cb with
  | AllWriteCb a | AllReadCb a => length (aa_transfer_request_id a) = ain_n_objs (aa_in a)
  | AllReadCb2 a => length (a2_transfer_request_id a) = length (a2_request_data a)
  | _ => True
  end.

Definition is_wait_reply (r : reply) : Prop := match r with WaitOut _ | WaitAllOut _ => True | _ => False end.
#[global] Instance is_wait_reply_dec r : Decision (is_wait_reply r).
Proof. destruct r; apply _. Defined.

(** How often a handle was answered at once, and the wait-all calls with it
    whose IDs are still to come. *)
Definition direct (rs : list (Z * reply)) (h : Z) : nat := length (filter (λ x, x.1 = h ∧ is_wait_reply x.2) rs).
Definition incoming (ops : list bulk_op) (h : Z) : nat :=
  length (filter (λ op, wait_all_handle (bo_callback op) = Some h) ops).
Definition flight (ops : list bulk_op) : list Z := ops ≫= λ op, cb_ids (bo_callback op).

#[global] Arguments direct : simpl never.
#[global] Arguments incoming : simpl never.
#[global] Arguments flight : simpl never.

Section ServerInv.
Context {St : Type} `{RegionStorage St} (junk : byte).
Implicit Types (s : server St).

(** How often a waiting call was answered; how often it is or will be. *)
Definition answers s (h : Z) : nat := (responses (sv_transfer s) h + direct (sv_replies s) h)%nat.
Definition owed s (h : Z) : nat :=
  (credits (sv_transfer s) h + direct (sv_replies s) h + incoming (sv_bulks s) h)%nat.

#[local] Arguments owed : simpl never.

Record server_ok s : Prop := {
  so_wait : wait_ok (sv_transfer s) (sv_next_ref s) (flight (sv_bulks s));
  so_next_id : 0 ≤ ts_transfer_request_id_g (sv_transfer s);
  so_ops : Forall (λ op, cb_ok (bo_callback op)) (sv_bulks s);
  so_owed : ∀ h, (owed s h ≤ 1)%nat }.

Definition new_ids (m : rpc) : nat :=
  match m with RpcTransfer _ => 1 | RpcTransferAll i => ain_n_objs i | _ => 0 end.

(** A step of the server: an RPC whose handle no waiting call uses, while the
    IDs do not wrap, or a completion. *)
Inductive server_step s : server St → Prop :=
  | server_step_rpc now handle m s' :
      owed s handle = 0%nat → ts_transfer_request_id_g (sv_transfer s) + Z.of_nat (new_ids m) < W64 →
      handle_rpc junk now handle m s = Some s' → server_step s s'
  | server_step_complete s' : completion_step junk s s' → server_step s s'.

(** ** The effect of a handler on the requests and the waiting calls *)

(** What a handler does to the waiting calls; [wh] is the handle it may bind. *)
Record handled (wh : option Z) s s' : Prop := {
  ha_wait : wait_ok (sv_transfer s') (sv_next_ref s') (flight (sv_bulks s'));
  ha_next_id : ts_transfer_request_id_g (sv_transfer s) ≤ ts_transfer_request_id_g (sv_transfer s');
  ha_ops : Forall (λ op, cb_ok (bo_callback op)) (sv_bulks s');
  ha_owed : ∀ h, wh ≠ Some h → owed s' h = owed s h ∧ incoming (sv_bulks s') h = incoming (sv_bulks s) h;
  ha_new : ∀ h, wh = Some h → (owed s' h ≤ 1)%nat }.

Lemma finish_request_ok s id fl :
  wait_ok (sv_transfer s) (sv_next_ref s) (id :: fl) →
  ∃ t, finish_request id s = Some (set_transfer t s) ∧ wait_ok t (sv_next_ref s) fl ∧
    (∀ h, credits t h = credits (sv_transfer s) h) ∧
    ts_transfer_request_id_g t = ts_transfer_request_id_g (sv_transfer s).
Proof.
  intros Hok. destruct (finish_ok _ _ _ _ Hok) as (t & Hf & Hok' & Hcr & Hg). exists t.
  unfold finish_request. by rewrite Hf.
Qed.

Lemma finish_requests_ok ids : ∀ s fl,
  wait_ok (sv_transfer s) (sv_next_ref s) (ids ++ fl) →
  ∃ t, finish_requests ids s = Some (set_transfer t s) ∧ wait_ok t (sv_next_ref s) fl ∧
    (∀ h, credits t h = credits (sv_transfer s) h) ∧
    ts_transfer_request_id_g t = ts_transfer_request_id_g (sv_transfer s).
Proof.
  induction ids as [|id ids IH]; intros s fl Hok; cbn.
  { exists (sv_transfer s). by destruct s. }
  destruct (finish_request_ok s id (ids ++ fl) Hok) as (t & -> & Hok1 & Hcr1 & Hg1). cbn.
  destruct (IH (set_transfer t s) fl Hok1) as (t' & -> & Hok' & Hcr' & Hg').
  exists t'. split; [done|]. split; [done|]. split; [intros h; by rewrite Hcr', <-Hcr1|by etrans; [exact Hg'|]].
Qed.

Lemma all_write_loop_ok d rds : ∀ ids s s' fl,
  length ids = length rds → wait_ok (sv_transfer s) (sv_next_ref s) (ids ++ fl) →
  all_write_loop d rds ids s = Some s' →
  ∃ st t, s' = set_transfer t (set_store st s) ∧ wait_ok t (sv_next_ref s) fl ∧
    (∀ h, credits t h = credits (sv_transfer s) h) ∧
    ts_transfer_request_id_g t = ts_transfer_request_id_g (sv_transfer s).
Proof.
  induction rds as [|rd rds IH]; intros [|id ids] s s' fl Hl Hok Hrun; cbn in Hrun; try done.
  { injection Hrun as <-. exists (sv_store s), (sv_transfer s). by destruct s. }
  destruct (rd_data_buf rd) as [pos|]; [|done]. cbn in Hrun.
  destruct (transfer_io_write _ _ _ _ _ _ _) as [st|]; [|done]. cbn in Hrun.
  destruct (finish_request_ok (set_store st s) id (ids ++ fl) Hok) as (t1 & E & Hok1 & Hcr1 & Hg1).
  rewrite E in Hrun. cbn in Hrun.
  destruct (IH ids (set_transfer t1 (set_store st s)) s' fl ltac:(by injection Hl) Hok1 Hrun) as (st' & t' & -> & Hok' & Hcr' & Hg').
  exists st', t'. split; [done|]. split; [done|]. split; [intros h; by rewrite Hcr', <-Hcr1|by etrans; [exact Hg'|]].
Qed.

Lemma parse_bulk_length buf n acc rds : parse_bulk_data buf n acc = Some rds → length rds = n.
Proof.
  unfold parse_bulk_data. destruct (parse_headers buf 0 n) as [[hs ptr]|] eqn:Hh; [|done]. cbn.
  assert (length hs = n) as <-.
  { revert Hh. generalize 0. revert hs ptr. induction n as [|n IH]; intros hs ptr p Hh; cbn in Hh; [by injection Hh as <- _|].
    destruct (load_u64 buf p); [|done]. destruct (load_int buf (p + 8)); [|done].
    destruct (load_int buf (p + 12)); [|done]. destruct (load_u64 buf (p + 16)); [|done]. cbn in Hh.
    destruct (parse_headers buf _ n) as [[hs' ptr']|] eqn:E; [|done]. injection Hh as <- <-. cbn. f_equal. by eapply IH. }
  clear Hh. revert ptr rds. induction hs as [|[[[? ?] ?] ?] hs IH]; intros ptr rds Hb; cbn in Hb; [by injection Hb as <-|].
  destruct (load_u64s _ ptr _) as [oo|]; [|done]. destruct (load_u64s _ (ptr + _) _) as [ol|]; [|done].
  destruct (load_u64s _ (ptr + _ + _) _) as [od|]; [|done]. cbn in Hb.
  destruct (decide (acc = PDC_WRITE)); cbn in Hb; (destruct (parse_bodies _ _ _ hs) eqn:E; [|done]);
    injection Hb as <-; cbn; f_equal; by eapply IH.
Qed.

Lemma flight_app l op : flight (l ++ [op]) ≡ₚ cb_ids (bo_callback op) ++ flight l.
Proof. unfold flight. rewrite bind_app. cbn. by rewrite app_nil_r, Permutation_app_comm. Qed.

Lemma incoming_app l op h :
  incoming (l ++ [op]) h = (incoming l h + if decide (wait_all_handle (bo_callback op) = Some h) then 1 else 0)%nat.
Proof. unfold incoming. rewrite list.filter_app, length_app. cbn. by destruct (decide _). Qed.

Lemma direct_app l h0 r h :
  direct (l ++ [(h0, r)]) h = (direct l h + if decide (h0 = h ∧ is_wait_reply r) then 1 else 0)%nat.
Proof. unfold direct. rewrite list.filter_app, length_app. cbn. by destruct (decide _). Qed.

Lemma direct_other l h0 r h : ¬ is_wait_reply r ∨ h0 ≠ h → direct (l ++ [(h0, r)]) h = direct l h.
Proof. intros. rewrite direct_app, decide_False by tauto. lia. Qed.
Lemma incoming_other l op h : wait_all_handle (bo_callback op) ≠ Some h → incoming (l ++ [op]) h = incoming l h.
Proof. intros. rewrite incoming_app, decide_False by done. lia. Qed.

(** ** The handlers *)

#[local] Abbreviation ops_ok ops := (Forall (λ op, cb_ok (bo_callback op)) ops).
#[local] Abbreviation waits s := (wait_ok (sv_transfer s) (sv_next_ref s)).

Lemma owed_eq s s' h :
  credits (sv_transfer s') h = credits (sv_transfer s) h → direct (sv_replies s') h = direct (sv_replies s) h →
  incoming (sv_bulks s') h = incoming (sv_bulks s) h → owed s' h = owed s h ∧ incoming (sv_bulks s') h = incoming (sv_bulks s) h.
Proof. unfold owed. lia. Qed.

Lemma transfer_request_ok now handle i s s' :
  waits s (flight (sv_bulks s)) → 0 ≤ ts_transfer_request_id_g (sv_transfer s) →
  ts_transfer_request_id_g (sv_transfer s) + 1 < W64 → ops_ok (sv_bulks s) →
  transfer_request junk now handle i s = Some s' → handled None s s'.
Proof.
  intros Hok H0 Hw Hops Hrun. unfold transfer_request in Hrun.
  pose proof (register_ok _ _ _ 1 Hok H0 Hw) as (_ & Hok' & Hcr & Hg). cbn in Hok', Hcr, Hg, Hrun.
  set (t' := PDC_commit_request _ _) in *.
  assert (∃ st dir cb, s' = HG_Bulk_transfer (in_local_bulk_handle i) dir cb
    (set_store st (HG_Respond handle (TransferOut (ts_transfer_request_id_g (sv_transfer s)) 1) (set_transfer t' (cache_activity now s)))) ∧
    cb_ids cb = [ts_transfer_request_id_g (sv_transfer s)] ∧ cb_ok cb ∧ wait_all_handle cb = None) as (st & dir & cb & -> & Hids & Hcb & Hwh).
  { destruct (decide (in_access_type i = PDC_WRITE)).
    - injection Hrun as <-. by eexists (sv_store s), _, _.
    - destruct (transfer_io_read _ _ _ _ _ _ _) as [[buf st]|]; [|done]. injection Hrun as <-. by eexists st, _, _. }
  split; cbn; [|lia| |intros h _; apply owed_eq; cbn|done].
  - rewrite flight_app. cbn. by rewrite Hids.
  - apply Forall_app. by split; [|constructor].
  - apply Hcr.
  - apply direct_other. left. by intros [].
  - apply incoming_other. change (wait_all_handle cb ≠ Some h). by rewrite Hwh.
Qed.

Lemma transfer_request_all_ok now handle i s s' :
  waits s (flight (sv_bulks s)) → 0 ≤ ts_transfer_request_id_g (sv_transfer s) →
  ts_transfer_request_id_g (sv_transfer s) + Z.of_nat (ain_n_objs i) < W64 → ops_ok (sv_bulks s) →
  transfer_request_all now handle i s = Some s' → handled None s s'.
Proof.
  intros Hok H0 Hw Hops Hrun. unfold transfer_request_all in Hrun.
  pose proof (register_ok _ _ _ (ain_n_objs i) Hok H0 Hw) as Hreg. cbn in Hrun.
  destruct (register_ids (ain_n_objs i) (sv_transfer s)) as [ids t]. destruct Hreg as (Hl & Hok' & Hcr & Hg).
  destruct (ids !! 0%nat) as [id|]; [|done]. injection Hrun as <-.
  set (cb := if decide (ain_access_type i = PDC_WRITE) then _ else _).
  assert (cb_ids cb = ids ∧ cb_ok cb ∧ wait_all_handle cb = None) as (Hids & Hcb & Hwh) by (subst cb; by destruct (decide _)).
  split; cbn; [|lia| |intros h _; apply owed_eq; cbn|done].
  - rewrite flight_app. cbn. by rewrite Hids.
  - apply Forall_app. by split; [|constructor].
  - apply Hcr.
  - apply direct_other. left. by intros [].
  - apply incoming_other. change (wait_all_handle cb ≠ Some h). by rewrite Hwh.
Qed.

(** Handlers that change nothing but the transfers, or the replies. *)
Lemma status_ok handle id s s' :
  waits s (flight (sv_bulks s)) → ops_ok (sv_bulks s) → transfer_request_status handle id s = Some s' → handled None s s'.
Proof.
  intros Hok Hops Hrun. unfold transfer_request_status in Hrun. pose proof (check_ok _ _ _ id Hok) as Hck.
  destruct (PDC_check_request (sv_transfer s) id) as [status t]. destruct Hck as (Hok' & Hcr & _ & Hg & _). injection Hrun as <-.
  split; [done|cbn; lia|done| |done]. intros h _. apply owed_eq; cbn; [apply Hcr| |done].
  apply direct_other. left. by intros [].
Qed.

Lemma transfer_op_ok lh dir cb s :
  cb_ids cb = [] → cb_ok cb → waits s (flight (sv_bulks s)) → ops_ok (sv_bulks s) →
  (∀ h, wait_all_handle cb = Some h → owed s h = 0%nat) → handled (wait_all_handle cb) s (HG_Bulk_transfer lh dir cb s).
Proof.
  intros Hids Hcb Hok Hops Hnew. split; cbn; [|lia| | |].
  - rewrite flight_app. cbn. by rewrite Hids.
  - apply Forall_app. by split; [|constructor].
  - intros h Hne. apply owed_eq; cbn; [done..|]. by apply incoming_other.
  - intros h Hh. specialize (Hnew h Hh). unfold owed in *. cbn. rewrite incoming_app. cbn. rewrite decide_True by done. lia.
Qed.

Lemma owed_0 s h : owed s h = 0%nat →
  ¬ waiting (sv_transfer s) h ∧ responses (sv_transfer s) h = 0%nat ∧ direct (sv_replies s) h = 0%nat ∧ incoming (sv_bulks s) h = 0%nat.
Proof. unfold owed, credits. destruct (decide (waiting (sv_transfer s) h)); [lia|]. split; [done|lia]. Qed.

Lemma credits_waiting t t' h :
  ts_responses t' = ts_responses t → waiting t' h → credits t' h = S (responses t h).
Proof. intros Hr Hw. unfold credits, responses. rewrite Hr, decide_True by done. lia. Qed.

Lemma credits_not_waiting t h : ¬ waiting t h → credits t h = responses t h.
Proof. intros Hw. unfold credits. rewrite decide_False by done. lia. Qed.

Lemma wait_handler_ok handle id s s' :
  waits s (flight (sv_bulks s)) → ops_ok (sv_bulks s) → owed s handle = 0%nat →
  transfer_request_wait handle id s = Some s' → handled (Some handle) s s' ∧ owed s' handle = 1%nat.
Proof.
  intros Hok Hops (Hnw & Hr0 & Hd0 & Hi0)%owed_0 Hrun. unfold transfer_request_wait in Hrun.
  pose proof (check_ok _ _ _ id Hok) as Hck. destruct (PDC_check_request (sv_transfer s) id) as [status t].
  destruct Hck as (Hok' & Hcr & Hresp & Hg & _ & _ & Hpend & _).
  assert (∀ h, Some handle ≠ Some h → handle ≠ h) as Hne by congruence.
  assert (∀ s', owed s' handle = 1%nat → ∀ h, Some handle = Some h → (owed s' h ≤ 1)%nat) as Hnew by (intros ? E ? [= <-]; lia).
  destruct (decide (status = PDC_TRANSFER_STATUS_PENDING)) as [Hs|Hs].
  - destruct (Hpend Hs) as (-> & r & Hr & Hid & Hh & Hp). cbn -[PDC_try_finish_request] in Hrun.
    destruct (calloc_group _ _ _ handle 0 Hok Hnw) as [Hok1 Hgr].
    destruct (try_finish_ok _ _ _ id handle (sv_next_ref s) 0 r Hok1 Hgr ltac:(lia) Hr Hid Hh Hp)
      as (ret & t' & E & Hok2 & _ & Hw' & Hcr' & Hresp' & Hg' & _).
    rewrite E in Hrun. injection Hrun as <-. cbn in Hresp', Hg'.
    assert (owed (set_transfer t' (calloc_ref (set_transfer (sv_transfer s) s)).2) handle = 1%nat) as Ho.
    { unfold owed. cbn. rewrite (credits_waiting _ _ _ Hresp' Hw'). lia. }
    split; [|done]. split; [done|cbn; lia|done| |by apply Hnew].
    intros h Hh'. apply owed_eq; cbn; [|done..]. etrans; [by apply Hcr', not_eq_sym, Hne|]. by apply credits_ext.
  - injection Hrun as <-.
    assert (owed (HG_Respond handle (WaitOut 1) (set_transfer t s)) handle = 1%nat) as Ho.
    { unfold owed. cbn. rewrite Hcr, credits_not_waiting by done. rewrite direct_app, decide_True by done. lia. }
    split; [|done]. split; [done|cbn; lia|done| |by apply Hnew].
    intros h Hh'. apply owed_eq; cbn; [apply Hcr|apply direct_other; right; by apply Hne|done].
Qed.

(** The callback of a wait-all call with the IDs that arrived. *)
Lemma wait_all_cb_ok a d s ids :
  waits s (flight (sv_bulks s)) → ops_ok (sv_bulks s) → owed s (wa_handle a) = 0%nat →
  load_u64s d 0 (win_n_objs (wa_in a)) = Some ids →
  ∃ s', transfer_request_wait_all_bulk_transfer_cb a d s = Some s' ∧ handled (Some (wa_handle a)) s s' ∧
    sv_bulks s' = sv_bulks s ∧
    (NoDup ids → (∀ id, id ∈ ids → id ∈ ids_of (ts_list (sv_transfer s))) → owed s' (wa_handle a) = 1%nat).
Proof.
  intros Hok Hops (Hnw & Hr0 & Hd0 & Hi0)%owed_0 Hload. set (handle := wa_handle a) in *.
  destruct (calloc_group _ _ _ handle 1 Hok Hnw) as [Hok1 Hgr].
  destruct (wait_all_loop_ok handle (sv_next_ref s) d _ ids 0 true _ _ _ Hload Hok1 Hgr ltac:(lia))
    as (fast & t' & E & Hok2 & [_ Hbd] & Hcr & Hresp & Hg & _ & Hfast & Hknown).
  unfold transfer_request_wait_all_bulk_transfer_cb. cbn. fold handle. rewrite E. cbn in Hresp, Hg, Hcr, Hfast, Hknown |- *.
  assert (∀ h, Some handle ≠ Some h → h ≠ handle) as Hne by congruence.
  assert (∀ h, h ≠ handle → credits t' h = credits (sv_transfer s) h) as Hcr'.
  { intros h Hh. rewrite Hcr by done. by apply credits_ext. }
  destruct fast.
  - assert (¬ waiting t' handle) as Hnw' by (intros Hw; exact (Hnw (proj2 (Hfast eq_refl) Hw))).
    assert (bound_to (sv_next_ref s) (ts_list t') = []) as Hnil.
    { destruct (bound_to (sv_next_ref s) (ts_list t')) as [|r rest] eqn:Eb; [done|].
      assert (r ∈ bound_to (sv_next_ref s) (ts_list t')) as [Hh Hin]%list_elem_of_filter by (rewrite Eb; set_solver).
      destruct Hnw'. apply waiting_elem. exists r, (sv_next_ref s). split_and!; [done..|]. by apply (Hbd r _ Hin Hh). }
    pose proof (free_ok _ _ _ _ Hok2 Hnil) as Hok3. eexists. split; [done|].
    assert (∀ h, credits (TransferState (ts_list t') (delete (sv_next_ref s) (ts_refs t')) (ts_transfer_request_id_g t') (ts_responses t')) h
      = credits t' h) as Hcr3 by (intros h; by apply credits_ext).
    assert (owed (HG_Respond handle (WaitAllOut 1) (free_ref (sv_next_ref s) (set_transfer t' (calloc_ref s).2))) handle = 1%nat) as Ho.
    { unfold owed. cbn. rewrite Hcr3, credits_not_waiting by done. rewrite direct_app, decide_True by done.
      unfold responses in *. rewrite Hresp. lia. }
    split; [split; [done|cbn; lia|done| |intros ? [= <-]; cbn in *; lia]|done].
    intros h Hh. apply owed_eq; cbn; [rewrite Hcr3; by apply Hcr', Hne|apply direct_other; right; by apply not_eq_sym, Hne|done].
  - eexists. split; [done|].
    assert (owed (set_transfer t' (calloc_ref s).2) handle = credits t' handle) as Ho by (unfold owed; cbn; lia).
    split; [split; [done|cbn; lia|done| |]|].
    + intros h Hh. apply owed_eq; cbn; [by apply Hcr', Hne|done..].
    + intros h [= <-]. cbn in Ho |- *. rewrite Ho. unfold credits, responses in *. rewrite Hresp. case_decide; lia.
    + split; [done|]. intros Hnd Hin. cbn in Ho |- *. rewrite Ho. destruct (Hknown Hnd Hin eq_refl) as [|Hw]; [done|].
      rewrite (credits_waiting _ _ _ Hresp Hw). unfold responses in *. cbn. lia.
Qed.

Lemma wait_all_loop_load handle href d n : ∀ ptr fast t x,
  wait_all_loop handle href d ptr n fast t = Some x → ∃ ids, load_u64s d ptr n = Some ids.
Proof.
  induction n as [|n IH]; intros ptr fast t x Hrun; cbn in Hrun |- *; [by exists []|].
  destruct (load_u64 d ptr) as [id|]; [|done]. cbn in Hrun |- *. destruct (PDC_check_request t id) as [status t1].
  destruct (if decide (status = PDC_TRANSFER_STATUS_PENDING) then _ else _) as [t2|]; [|done]. cbn in Hrun. destruct (IH _ _ _ _ Hrun) as [ids ->]. by eexists.
Qed.

Lemma handled_finish s s' st t act :
  s' = set_transfer t (set_store st (cache_activity act s)) ∨ s' = set_transfer t s →
  wait_ok t (sv_next_ref s) (flight (sv_bulks s)) → (∀ h, credits t h = credits (sv_transfer s) h) →
  ts_transfer_request_id_g t = ts_transfer_request_id_g (sv_transfer s) → ops_ok (sv_bulks s) → handled None s s'.
Proof.
  intros Hs Hok Hcr Hg Hops. destruct Hs as [-> | ->]; (split; [done|cbn; lia|done| |done]); intros h _; by apply owed_eq.
Qed.

(** The weight of the transfers in progress: the number of completions that
    they and the transfers they lead to take. *)
Definition op_weight (op : bulk_op) : nat := match bo_callback op with AllReadCb _ => 2 | _ => 1 end.
Definition weight s : nat := sum_list_with op_weight (sv_bulks s).

Lemma run_callback_ok now op d s s' :
  waits s (cb_ids (bo_callback op) ++ flight (sv_bulks s)) → ops_ok (sv_bulks s) → cb_ok (bo_callback op) →
  (∀ h, wait_all_handle (bo_callback op) = Some h → owed s h = 0%nat) →
  run_callback junk now (bo_callback op) d s = Some s' →
  handled (wait_all_handle (bo_callback op)) s s' ∧
  ∃ started, sv_bulks s' = sv_bulks s ++ started ∧
    match bo_callback op with AllReadCb _ => ∃ op2, started = [op2] ∧ op_weight op2 = 1%nat | _ => started = [] end.
Proof.
  intros Hok Hops Hcb Hnew Hrun. destruct (bo_callback op) as [a|a|a|a|a|a|a|a]; cbn in Hok, Hcb, Hnew |- *; cbn [run_callback] in Hrun.
  - unfold transfer_request_bulk_transfer_write_cb in Hrun. cbn in Hrun.
    destruct (transfer_io_write _ _ _ _ _ _ _) as [st|]; [|done]. cbn in Hrun.
    destruct (finish_request_ok (set_store st (cache_activity now s)) _ _ Hok) as (t & E & Hok' & Hcr & Hg).
    rewrite E in Hrun. injection Hrun as <-. split; [|exists []; cbn; by rewrite app_nil_r]. (eapply handled_finish; [by left|done..]).
  - unfold transfer_request_bulk_transfer_read_cb in Hrun.
    destruct (finish_request_ok (cache_activity now s) _ _ Hok) as (t & E & Hok' & Hcr & Hg).
    rewrite E in Hrun. injection Hrun as <-. split; [|exists []; cbn; by rewrite app_nil_r].
    eapply (handled_finish _ _ (sv_store s) t now); [left; by destruct s|done..].
  - unfold transfer_request_all_bulk_transfer_write_cb in Hrun.
    destruct (parse_bulk_data _ _ _) as [rds|] eqn:Ep; [|done]. cbn in Hrun. apply parse_bulk_length in Ep.
    destruct (all_write_loop_ok d rds _ (cache_activity now s) s' _ (eq_trans Hcb (eq_sym Ep)) Hok Hrun) as (st & t & -> & Hok' & Hcr & Hg).
    split; [|exists []; cbn; by rewrite app_nil_r]. (eapply handled_finish; [by left|done..]).
  - unfold transfer_request_all_bulk_transfer_read_cb in Hrun.
    destruct (parse_bulk_data _ _ _) as [rds|] eqn:Ep; [|done]. cbn in Hrun. apply parse_bulk_length in Ep.
    destruct (all_read_loop _ _ _ _) as [[out st]|]; [|done]. injection Hrun as <-. split.
    + split; cbn; [by rewrite flight_app|lia| | |done].
      * apply Forall_app. split; [done|]. constructor; [cbn; congruence|constructor].
      * intros h _. apply owed_eq; cbn; [done..|]. by apply incoming_other.
    + eexists. split; [done|]. by eexists.
  - unfold transfer_request_all_bulk_transfer_read_cb2 in Hrun. rewrite decide_False in Hrun by lia.
    rewrite take_ge in Hrun by lia. destruct (finish_requests_ok _ s _ Hok) as (t & E & Hok' & Hcr & Hg).
    rewrite E in Hrun. injection Hrun as <-. split; [|exists []; cbn; by rewrite app_nil_r].
    eapply (handled_finish _ _ (sv_store s) t now); [by right|done..].
  - assert (∃ ids, load_u64s d 0 (win_n_objs (wa_in a)) = Some ids) as [ids Hload].
    { unfold transfer_request_wait_all_bulk_transfer_cb in Hrun. cbn in Hrun.
      destruct (wait_all_loop _ _ _ _ _ _ _) eqn:E; [by eapply wait_all_loop_load|done]. }
    destruct (wait_all_cb_ok a d s ids Hok Hops (Hnew _ eq_refl) Hload) as (s1 & E & Hh & Hb & _).
    rewrite E in Hrun. injection Hrun as <-. split; [done|]. exists []. by rewrite Hb, app_nil_r.
  - unfold transfer_request_metadata_query_bulk_transfer_cb in Hrun.
    destruct (transfer_request_metadata_query_parse _ _ _ _ _) as [[[? ?] m]|]; [|done]. injection Hrun as <-.
    split; [|exists []; cbn; by rewrite app_nil_r]. split; [done|cbn; lia|done| |done].
    intros h _. apply owed_eq; cbn; [done| |done]. apply direct_other. left. by intros [].
  - injection Hrun as <-. split; [|exists []; cbn; by rewrite app_nil_r]. split; [done|cbn; lia|done| |done].
    intros h _. apply owed_eq; cbn; [done| |done]. apply direct_other. left. by intros [].
Qed.

(** Taking the transfer that completes out of the list. *)
Lemma flight_delete l k op : l !! k = Some op → flight l ≡ₚ cb_ids (bo_callback op) ++ flight (delete k l).
Proof. intros Hk. unfold flight. by rewrite (delete_Permutation _ _ _ Hk) at 1. Qed.

Lemma incoming_delete l k op h : l !! k = Some op →
  incoming l h = ((if decide (wait_all_handle (bo_callback op) = Some h) then 1 else 0) + incoming (delete k l) h)%nat.
Proof.
  intros Hk. unfold incoming. rewrite (delete_Permutation _ _ _ Hk) at 1. cbn. by destruct (decide _).
Qed.

Lemma complete_ok now k op d s s' :
  server_ok s → sv_bulks s !! k = Some op → complete junk now k d s = Some s' →
  server_ok s' ∧ S (weight s') = weight s ∧
  ((∀ a, bo_callback op ≠ AllReadCb a) → sv_bulks s' = delete k (sv_bulks s)) ∧
  (∀ h, incoming (sv_bulks s) h = 0%nat → owed s' h = owed s h ∧ incoming (sv_bulks s') h = 0%nat).
Proof.
  intros [Hw H0 Hops Howed] Hk Hrun. unfold complete in Hrun. rewrite Hk in Hrun. cbn in Hrun.
  set (s0 := Server _ _ _ _ _ _ _ _) in Hrun.
  assert (∀ h, owed s h = (owed s0 h + if decide (wait_all_handle (bo_callback op) = Some h) then 1 else 0)%nat) as Ho.
  { intros h. unfold owed. cbn. rewrite (incoming_delete _ _ _ h Hk). lia. }
  assert (ops_ok (sv_bulks s0)) as Hops0 by (cbn; by apply Forall_delete).
  destruct (run_callback_ok now op d s0 s') as [[Hw' Hg' Hops' Heq Hnew] (started & Hb & Hst)]; [|done| | |done|].
  - cbn. by rewrite <-flight_delete.
  - by apply (proj1 (list.Forall_lookup _ _) Hops k).
  - intros h Hh. specialize (Howed h). specialize (Ho h). rewrite decide_True in Ho by done. lia.
  - split; [split; [done|cbn in Hg'; lia|done|]|split; [|split]].
    + intros h. specialize (Howed h). specialize (Ho h). destruct (decide (wait_all_handle (bo_callback op) = Some h)) as [E|E].
      * by apply Hnew.
      * destruct (Heq h E). lia.
    + assert (op_weight op = S (sum_list_with op_weight started)) as E.
      { unfold op_weight at 1. destruct (bo_callback op); try (by rewrite Hst). destruct Hst as (op2 & -> & E). cbn. lia. }
      unfold weight. rewrite Hb, (delete_Permutation _ _ _ Hk), sum_list_with_app. cbn. lia.
    + intros Hne. rewrite Hb. cbn. destruct (bo_callback op) as [| | |a| | | |] eqn:E; try (by rewrite Hst, app_nil_r). by destruct (Hne a).
    + intros h Hi. specialize (Ho h). rewrite (incoming_delete _ _ _ h Hk) in Hi.
      destruct (decide (wait_all_handle (bo_callback op) = Some h)) as [E|E]; [lia|]. destruct (Heq h E) as [E1 E2]. cbn in E2. lia.
Qed.

Lemma flight_nodup s : server_ok s → NoDup (flight (sv_bulks s)).
Proof.
  intros [[Ht Hfl _ _ _ _] _ _ _]. rewrite Hfl. eapply sublist_NoDup; [apply Ht|]. apply fmap_sublist, sublist_filter.
Qed.

Lemma server_init_ok st m : server_ok (server_init st m).
Proof.
  split; cbn; [|lia|by apply list.Forall_nil|intros h; change (0 ≤ 1)%nat; lia].
  split; cbn; [split; [constructor|done]|done|by apply list.Forall_nil|by apply list.Forall_nil|set_solver|set_solver].
Qed.

Lemma handled_rpc wh s s' :
  server_ok s → handled wh s s' →
  server_ok s' ∧ ∀ h, wh ≠ Some h → owed s' h = owed s h ∧ incoming (sv_bulks s') h = incoming (sv_bulks s) h.
Proof.
  intros [Hw H0 Hops Howed] [Hw' Hg' Hops' Heq Hnew]. split; [|done]. split; [done|lia|done|].
  intros h. destruct (decide (wh = Some h)) as [E|E]; [by apply Hnew|]. destruct (Heq h E) as [-> _]. apply Howed.
Qed.

Lemma rpc_ok now handle m s s' :
  server_ok s → owed s handle = 0%nat → ts_transfer_request_id_g (sv_transfer s) + Z.of_nat (new_ids m) < W64 →
  handle_rpc junk now handle m s = Some s' →
  server_ok s' ∧ ∀ h, handle ≠ h → owed s' h = owed s h ∧ incoming (sv_bulks s') h = incoming (sv_bulks s) h.
Proof.
  intros Hok Ho Hw Hrun. pose proof Hok as [Hwt H0 Hops _].
  assert (∃ wh, (wh = None ∨ wh = Some handle) ∧ handled wh s s') as (wh & Hwh & Hh).
  { destruct m as [i|id|id|i|i|i|i]; cbn [handle_rpc new_ids] in Hrun, Hw.
    - exists None. split; [by left|]. by eapply transfer_request_ok.
    - exists None. split; [by left|]. by eapply status_ok.
    - exists (Some handle). split; [by right|]. by eapply wait_handler_ok.
    - exists (Some handle). split; [by right|]. injection Hrun as <-.
      apply (transfer_op_ok _ _ (WaitAllCb (WaitAllLocalBulkArgs handle i))); [done..|]. by intros h [= <-].
    - exists None. split; [by left|]. by eapply transfer_request_all_ok.
    - exists None. split; [by left|]. injection Hrun as <-.
      by apply (transfer_op_ok _ _ (QueryCb (QueryLocalBulkArgs handle i))).
    - exists None. split; [by left|]. unfold transfer_request_metadata_query2 in Hrun.
      destruct (transfer_request_metadata_query_lookup_query_buf _ _) as [[buf|] md]; [|done]. cbn in Hrun.
      destruct (mem_read _ _ _) as [d|]; [|done]. injection Hrun as <-.
      by destruct (transfer_op_ok (q2in_local_bulk_handle i) (HG_BULK_PUSH d) (Query2Cb (Query2LocalBulkArgs handle buf))
        (set_metadata md s)); [done..|split]. }
  destruct (handled_rpc wh s s' Hok Hh) as [Hok' Heq]. split; [done|]. intros h Hne. apply Heq. destruct Hwh as [-> | ->]; congruence.
Qed.

Lemma server_step_ok s s' :
  server_ok s → server_step s s' →
  server_ok s' ∧ ∀ h, owed s h = 1%nat → incoming (sv_bulks s) h = 0%nat → owed s' h = 1%nat ∧ incoming (sv_bulks s') h = 0%nat.
Proof.
  intros Hok [now handle m s1 Ho Hw Hrun|s1 [now k op d s2 Hk _ Hrun]].
  - destruct (rpc_ok now handle m s s1 Hok Ho Hw Hrun) as [Hok' Heq]. split; [done|]. intros h H1 Hi.
    destruct (Heq h) as [E1 E2]; [intros ->; lia|lia].
  - destruct (complete_ok now k op d s s2 Hok Hk Hrun) as (Hok' & _ & _ & Heq). split; [done|]. intros h H1 Hi.
    destruct (Heq h Hi) as [E1 E2]. lia.
Qed.

Lemma server_steps_ok s s' :
  server_ok s → rtc server_step s s' →
  server_ok s' ∧ ∀ h, owed s h = 1%nat → incoming (sv_bulks s) h = 0%nat → owed s' h = 1%nat ∧ incoming (sv_bulks s') h = 0%nat.
Proof.
  intros Hok Hsteps. induction Hsteps as [s|s s1 s2 Hstep _ IH]; [done|].
  destruct (server_step_ok s s1 Hok Hstep) as [Hok1 H1]. destruct (IH Hok1) as [Hok2 H2]. split; [done|]. intros h Ho Hi.
  destruct (H1 h Ho Hi). by apply H2.
Qed.

Lemma waiting_owed s h : server_ok s → waiting (sv_transfer s) h →
  answers s h = 0%nat ∧ owed s h = 1%nat ∧ incoming (sv_bulks s) h = 0%nat.
Proof.
  intros [_ _ _ Ho] Hw. specialize (Ho h). unfold owed, answers, credits in *. rewrite decide_True in * by done. lia.
Qed.

(** Without transfers in progress nobody waits. *)
Lemma idle_no_waiter s h : server_ok s → sv_bulks s = [] → ¬ waiting (sv_transfer s) h.
Proof.
  intros [Hw _ _ _] Hnil. rewrite Hnil in Hw. intros (r & href & Hr & Hh & _)%waiting_elem.
  destruct (wo_bound _ _ _ Hw r href Hr Hh) as [Hp _]. pose proof (wo_flight _ _ _ Hw) as Hfl. cbn in Hfl.
  apply Permutation_nil_l, eq_sym, fmap_nil_inv in Hfl.
  assert (r ∈ filter is_pending (ts_list (sv_transfer s))) as Hin by (by apply list_elem_of_filter). rewrite Hfl in Hin. set_solver.
Qed.

(** ** Properties *)

(** C7: whatever RPCs arrive and in whatever order the transfers complete, the
    server keeps its books: the requests that transfers are working on are
    exactly the pending ones, each once; the reference counters are exact; and
    no waiting call is ever answered twice. *)
Theorem server_books_kept st m s :
  rtc server_step (server_init st m) s →
  transfer_ok (sv_transfer s) ∧ NoDup (flight (sv_bulks s)) ∧
  (∀ id, id ∈ flight (sv_bulks s) ↔ ∃ r, r ∈ ts_list (sv_transfer s) ∧ rs_transfer_request_id r = id ∧ is_pending r) ∧
  (∀ r, r ∈ ts_list (sv_transfer s) → rs_handle_ref r ≠ None → is_pending r) ∧
  ∀ h, (answers s h + (if decide (waiting (sv_transfer s) h) then 1 else 0) + incoming (sv_bulks s) h ≤ 1)%nat.
Proof.
  intros Hsteps. destruct (server_steps_ok _ s (server_init_ok st m) Hsteps) as [[[Ht Hfl _ _ Hb _] _ _ Ho] _].
  split; [done|]. split; [|split; [|split]].
  - rewrite Hfl. eapply sublist_NoDup; [apply Ht|]. apply fmap_sublist, sublist_filter.
  - intros id. rewrite Hfl, list_elem_of_fmap. setoid_rewrite list_elem_of_filter. naive_solver.
  - intros r Hr Hh. destruct (rs_handle_ref r) as [h|] eqn:E; [|done]. by apply (Hb r h).
  - intros h. specialize (Ho h). unfold owed, credits, answers in *. lia.
Qed.

(** C8: a client that waits is answered exactly once: if its handle is bound to
    pending requests, then however the server goes on, once no transfer is left
    in progress the handle has been answered, once. *)
Theorem waiters_answered_once s s' h :
  server_ok s → waiting (sv_transfer s) h → rtc server_step s s' → sv_bulks s' = [] →
  answers s h = 0%nat ∧ answers s' h = 1%nat ∧ ¬ waiting (sv_transfer s') h.
Proof.
  intros Hok Hw Hsteps Hnil. destruct (waiting_owed s h Hok Hw) as (Ha & Ho & Hi).
  destruct (server_steps_ok s s' Hok Hsteps) as [Hok' Heq]. destruct (Heq h Ho Hi) as [Ho' Hi'].
  pose proof (idle_no_waiter s' h Hok' Hnil) as Hnw. split; [done|]. split; [|done].
  unfold owed, answers in *. rewrite credits_not_waiting in Ho' by done. lia.
Qed.

(** C36: the transfers in progress come to an end: every completion lowers the
    weight by one, so that exactly [weight s] completions, in any order, leave
    none. *)
Theorem completions_terminate n s s' :
  server_ok s → nsteps (completion_step junk) n s s' →
  (n + weight s' = weight s)%nat ∧ (sv_bulks s' = [] ↔ n = weight s).
Proof.
  intros Hok Hsteps. assert (server_ok s' ∧ (n + weight s' = weight s)%nat) as [_ Hn].
  { revert Hok. induction Hsteps as [s|n s s1 s2 [now k op d s3 Hk _ Hrun] _ IH]; intros Hok; [done|].
    destruct (complete_ok now k op d s s3 Hok Hk Hrun) as (Hok3 & Hwt & _ & _). destruct (IH Hok3). split; [done|lia]. }
  split; [done|]. assert (sv_bulks s' = [] ↔ weight s' = 0%nat) as ->; [|lia].
  unfold weight. destruct (sv_bulks s') as [|op l]; [done|]. cbn. unfold op_weight at 1. split; [done|].
  destruct (bo_callback op); lia.
Qed.
End ServerInv.

Section Served.
Context {St : Type} `{RegionStorage St} (junk : byte).

(** C35: a wait-all call for distinct requests that the server knows is served:
    when the IDs have arrived its handle is answered at once, or it waits for
    requests in progress (and is then answered exactly once, when they are
    finished). *)
Theorem wait_all_served (s : server St) k op a d now ids :
  server_ok s → sv_bulks s !! k = Some op → bo_callback op = WaitAllCb a →
  load_u64s d 0 (win_n_objs (wa_in a)) = Some ids → NoDup ids →
  (∀ id, id ∈ ids → id ∈ ids_of (ts_list (sv_transfer s))) →
  ∃ s', complete junk now k d s = Some s' ∧ server_ok s' ∧
    if decide (waiting (sv_transfer s') (wa_handle a)) then answers s' (wa_handle a) = 0%nat
    else answers s' (wa_handle a) = 1%nat.
Proof.
  intros Hok Hk Ecb Hload Hnd Hknown.
  set (s0 := Server (sv_store s) (sv_transfer s) (sv_next_ref s) (sv_metadata s) (delete k (sv_bulks s)) (sv_replies s)
    (match bo_direction op with HG_BULK_PULL _ => sv_pushed s | HG_BULK_PUSH d => sv_pushed s ++ [(bo_local_bulk_handle op, d)] end)
    (sv_last_cache_activity s)).
  assert (owed s (wa_handle a) = S (owed s0 (wa_handle a))) as Ho.
  { unfold owed. cbn. rewrite (incoming_delete _ _ _ _ Hk), decide_True by (by rewrite Ecb). lia. }
  pose proof (so_owed _ Hok (wa_handle a)) as H1.
  destruct (wait_all_cb_ok a d s0 ids) as (s' & Hrun & _ & Hb & Hserved); [| |lia|done|].
  { pose proof (so_wait _ Hok) as Hw. by rewrite (flight_delete _ _ _ Hk), Ecb in Hw. }
  { apply Forall_delete, Hok. }
  assert (complete junk now k d s = Some s') as Hcomp by (unfold complete; rewrite Hk; cbn; by rewrite Ecb).
  exists s'. split; [done|]. split; [by eapply complete_ok|]. specialize (Hserved Hnd Hknown).
  assert (incoming (sv_bulks s') (wa_handle a) = 0%nat) as Hi by (rewrite Hb; unfold owed in *; cbn in *; lia).
  unfold owed, credits, answers in *. case_decide; lia.
Qed.
Lemma wait_all_loop_unknown handle href d n : ∀ ids ptr fast t,
  load_u64s d ptr n = Some ids → Forall (λ id, id ∉ ids_of (ts_list t)) ids →
  wait_all_loop handle href d ptr n fast t = Some (bool_decide (ids = []) && fast, t).
Proof.
  induction n as [|n IH]; intros ids ptr fast [l refs g resp] Hload Hno; cbn in Hload |- *; [by injection Hload as <-|].
  destruct (load_u64 d ptr) as [id|]; [|done]. cbn in Hload |- *.
  destruct (load_u64s d (ptr + 8) n) as [ids'|] eqn:E; [|done]. injection Hload as <-.
  apply list.Forall_cons in Hno as [Hid Hno]. cbn in Hid, Hno. unfold PDC_check_request. rewrite check_loop_absent by done. cbn.
  destruct (decide (PDC_TRANSFER_STATUS_NOT_FOUND = PDC_TRANSFER_STATUS_PENDING)) as [|_]; [done|]. cbn.
  destruct (decide (PDC_TRANSFER_STATUS_NOT_FOUND ≠ PDC_TRANSFER_STATUS_COMPLETE)) as [_|Hn]; [|by destruct Hn].
  rewrite (IH ids' _ false _ E) by done. by rewrite andb_false_r.
Qed.

(** A wait-all call for requests that all left the list (they were finished and
    their status was asked for, or another call waited for them) is not answered
    and waits for nothing. *)
Theorem wait_all_unknown_unanswered (s : server St) k op a d now ids :
  sv_bulks s !! k = Some op → bo_callback op = WaitAllCb a →
  load_u64s d 0 (win_n_objs (wa_in a)) = Some ids → ids ≠ [] →
  Forall (λ id, id ∉ ids_of (ts_list (sv_transfer s))) ids →
  ∃ s', complete junk now k d s = Some s' ∧ sv_replies s' = sv_replies s ∧
    ts_responses (sv_transfer s') = ts_responses (sv_transfer s) ∧ ts_list (sv_transfer s') = ts_list (sv_transfer s).
Proof.
  intros Hk Ecb Hload Hne Hno. unfold complete. rewrite Hk. cbn. rewrite Ecb. cbn.
  unfold transfer_request_wait_all_bulk_transfer_cb. cbn. rewrite (wait_all_loop_unknown _ _ _ _ ids) by done.
  cbn. rewrite bool_decide_false by done. by eexists.
Qed.

(** A second wait for a request in progress is answered at once, while the
    request is still pending: [PDC_check_request] calls a request that is bound
    to a handle complete. *)
Theorem second_wait_answered_early (s : server St) r handle :
  server_ok s → r ∈ ts_list (sv_transfer s) → rs_handle_ref r ≠ None →
  ∃ s', transfer_request_wait handle (rs_transfer_request_id r) s = Some s' ∧
    (handle, WaitOut 1) ∈ sv_replies s' ∧ r ∈ ts_list (sv_transfer s') ∧ is_pending r.
Proof.
  intros [[Ht _ _ _ Hb _] _ _ _] Hr Hh. destruct (ids_split _ r (to_nodup _ Ht) Hr) as (l1 & l2 & Hl & H1 & _).
  destruct (rs_handle_ref r) as [h|] eqn:E; [|done]. destruct (Hb r h Hr E) as [Hp _].
  unfold transfer_request_wait, PDC_check_request. rewrite Hl, check_loop_at, E by done.
  rewrite decide_False by done. eexists. split; [done|]. cbn. split; [apply elem_of_app; right; by apply list_elem_of_singleton|].
  split; [|done]. apply elem_of_app. right. apply elem_of_cons. by left.
Qed.
End Served.

(** * The properties at concrete inputs *)

(** A server that holds the elements 4 to 7 of the object 7; the request 1 writes the
    elements 6 and 7, and the handles 2 and 3 wait for it. *)
#[export] Instance ex_handler_storage : RegionStorage data_server := data_server_storage 100 true 0 3.

Definition ex_metadata_0 : metadata_state := MetadataState [] true [0] 100000 [].
Definition ex_s0 : server data_server := server_init ex_ds ex_metadata_0.
Definition ex_in (access_type : pdc_access_t) : transfer_request_in_t :=
  TransferIn 70 (RegionTransfer 1 6 0 0 0 2 0 0 0) 7 100 0 0 1 1 0 access_type.

Definition ex_rpc (now handle : Z) (m : rpc) (s : server data_server) : server data_server :=
  default s (handle_rpc 0 now handle m s).
Definition ex_complete (k : nat) (d : list byte) (s : server data_server) : server data_server :=
  default s (complete 0 9 k d s).

Definition ex_s1 : server data_server := ex_rpc 5 1 (RpcTransfer (ex_in PDC_WRITE)) ex_s0.
Definition ex_s2 : server data_server := ex_rpc 5 2 (RpcWait 1) ex_s1.
Definition ex_s3 : server data_server := ex_rpc 5 3 (RpcWaitAll (WaitAllIn 71 8 1)) ex_s1.
Definition ex_s4 : server data_server := ex_complete 0 [30; 31] ex_s2.

Lemma ex_rpc_step now handle m s :
  handle_rpc 0 now handle m s = Some (ex_rpc now handle m s) → owed s handle = 0%nat →
  ts_transfer_request_id_g (sv_transfer s) + Z.of_nat (new_ids m) < W64 → server_step 0 s (ex_rpc now handle m s).
Proof. intros Hrun Ho Hw. by eapply server_step_rpc. Qed.

Lemma ex_s1_steps : rtc (server_step 0) ex_s0 ex_s1.
Proof. apply rtc_once, ex_rpc_step; vm_compute; reflexivity. Qed.
Lemma ex_s1_ok : server_ok ex_s1.
Proof. exact (proj1 (server_steps_ok 0 _ _ (server_init_ok _ _) ex_s1_steps)). Qed.
Lemma ex_s2_step : server_step 0 ex_s1 ex_s2.
Proof. apply ex_rpc_step; vm_compute; reflexivity. Qed.
Lemma ex_s2_ok : server_ok ex_s2.
Proof. exact (proj1 (server_step_ok 0 _ _ ex_s1_ok ex_s2_step)). Qed.
Lemma ex_s3_ok : server_ok ex_s3.
Proof. refine (proj1 (server_step_ok 0 _ _ ex_s1_ok (ex_rpc_step 5 3 _ ex_s1 _ _ _))); vm_compute; reflexivity. Qed.
Lemma ex_s4_step : completion_step 0 ex_s2 ex_s4.
Proof.
  destruct (sv_bulks ex_s2 !! 0%nat) as [op|] eqn:E; [|vm_compute in E; discriminate].
  apply (completion_step_intro 0 ex_s2 9 0 op [30; 31]); [exact E| |vm_compute; reflexivity].
  vm_compute in E. injection E as <-. reflexivity.
Qed.

Lemma server_books_kept_witness :
  ∃ r, r ∈ ts_list (sv_transfer ex_s2) ∧ rs_transfer_request_id r = 1 ∧ is_pending r.
Proof.
  destruct (server_books_kept 0 ex_ds ex_metadata_0 ex_s2) as (_ & _ & Hfl & _).
  - apply (rtc_r _ ex_s1); [exact ex_s1_steps|exact ex_s2_step].
  - apply Hfl. apply list_elem_of_singleton. reflexivity.
Defined.

Lemma waiters_answered_once_witness :
  waiting (sv_transfer ex_s2) 2 ∧ answers ex_s2 2 = 0%nat ∧ answers ex_s4 2 = 1%nat.
Proof.
  assert (waiting (sv_transfer ex_s2) 2) as Hw by (apply (bool_decide_unpack (waiting (sv_transfer ex_s2) 2)); vm_compute; exact I).
  destruct (waiters_answered_once 0 ex_s2 ex_s4 2) as (H1 & H2 & _).
  - exact ex_s2_ok.
  - exact Hw.
  - apply rtc_once, server_step_complete, ex_s4_step.
  - vm_compute. reflexivity.
  - split; [exact Hw|]. split; [exact H1|exact H2].
Defined.

Lemma completions_terminate_witness : weight ex_s2 = 1%nat ∧ sv_bulks ex_s4 = [].
Proof.
  destruct (completions_terminate 0 1 ex_s2 ex_s4) as [_ H].
  - exact ex_s2_ok.
  - eapply nsteps_l; [exact ex_s4_step|constructor].
  - split; [vm_compute; reflexivity|]. apply H. vm_compute. reflexivity.
Defined.

Lemma wait_all_served_witness :
  ∃ s', complete 0 9 1 (u64_bytes 1) ex_s3 = Some s' ∧ answers s' 3 = 0%nat.
Proof.
  destruct (wait_all_served 0 ex_s3 1 (BulkOp 71 (HG_BULK_PULL 8) (WaitAllCb (WaitAllLocalBulkArgs 3 (WaitAllIn 71 8 1))))
    (WaitAllLocalBulkArgs 3 (WaitAllIn 71 8 1)) (u64_bytes 1) 9 [1]) as (s' & Hrun & _ & Ha).
  - exact ex_s3_ok.
  - vm_compute. reflexivity.
  - reflexivity.
  - vm_compute. reflexivity.
  - apply NoDup_singleton.
  - intros id ->%list_elem_of_singleton. apply (bool_decide_unpack (1 ∈ ids_of (ts_list (sv_transfer ex_s3)))). vm_compute. exact I.
  - exists s'. split; [exact Hrun|]. assert (waiting (sv_transfer s') 3) as Hw.
    { vm_compute in Hrun. injection Hrun as <-. apply (bool_decide_unpack (waiting _ 3)). vm_compute. exact I. }
    cbn [wa_handle] in Ha. destruct (decide (waiting (sv_transfer s') 3)) as [_|Hn]; [exact Ha|destruct (Hn Hw)].
Defined.
