(* ===== verification/RequestData.v ===== *)
(** The data of transfer requests: what the handlers of [RequestHandler] do to
    the bytes of the objects.  The store below the handlers is described by the
    class [ObjectStore]; the storage engine and the region cache on top of it are
    instances, so the theorems hold with and without PDC_SERVER_CACHE.  Together
    with the client's packing of requests ([TransferPack]) they follow the data
    of a start-all call from the client's buffers to the objects. *)

From stdpp Require Import gmap sets sorting.
From S2P Require Export RequestHandlerSpec RegionCacheSpec TransferPack.
#[local] Open Scope Z_scope.

(** * The store behind the handlers *)

(** The bytes of all objects. *)
Definition contents : Type := Z → list Z → Z → option byte.

Definition overwrite (unit : Z → Z) (obj : Z) (req : pdc_region_info) (buf : list byte) (c : contents) : contents :=
  λ obj' p b, if decide (obj' = obj ∧ in_req req p) then req_get (unit obj) req buf p b else c obj' p b.

(** Contents are compared at the bytes of the elements. *)
Definition same_bytes (unit : Z → Z) (c c' : contents) : Prop := ∀ obj p b, 0 ≤ b < unit obj → c obj p b = c' obj p b.

#[export] Instance same_bytes_equiv unit : Equivalence (same_bytes unit).
Proof. split; [done|by intros ?? E ????; rewrite E|by intros ??? E1 E2 ????; rewrite E1, E2]. Qed.
#[export] Instance overwrite_proper unit obj req buf :
  Proper (same_bytes unit ==> same_bytes unit) (overwrite unit obj req buf).
Proof. intros c c' Hc obj' p b Hb. unfold overwrite. case_decide; [done|by apply Hc]. Qed.

Class ObjectStore (St : Type) `{RegionStorage St} (dim : Z → nat) (unit : Z → Z) := {
  os_ok : St → Prop;
  os_content : St → contents;
  os_writable : St → Z → pdc_region_info → Prop;
  os_readable : St → Z → pdc_region_info → Prop;
  os_write st obj dims req buf :
    os_ok st → wf_req (dim obj) (unit obj) req buf → os_writable st obj req →
    ∃ st', transfer_io_write st obj (dim obj) dims req buf (unit obj) = Some st' ∧ os_ok st' ∧
      same_bytes unit (os_content st') (overwrite unit obj req buf (os_content st));
  os_read st obj dims req buf :
    os_ok st → wf_req (dim obj) (unit obj) req buf → os_readable st obj req →
    ∃ buf' st', transfer_io_read st obj (dim obj) dims req buf (unit obj) = Some (buf', st') ∧
      lenZ buf' = lenZ buf ∧ os_ok st' ∧ same_bytes unit (os_content st') (os_content st) ∧
      ∀ p b, in_req req p → 0 ≤ b < unit obj →
        req_get (unit obj) req buf' p b =
          match os_content st obj p b with Some x => Some x | None => req_get (unit obj) req buf p b end }.

(** The storage without the cache. *)
#[export, refine] Instance storage_object_store {St} dim unit `{RegionStorageLaws St dim unit} : ObjectStore St dim unit := {
  os_ok := st_ok;
  os_content := st_content;
  os_writable := st_accepts;
  os_readable _ _ _ := True }.
Proof.
  - intros st obj dims req buf Hok Hreq Hacc.
    destruct (transfer_io_write_ok st obj dims req buf Hok Hreq Hacc) as (st' & ? & ? & Hc). exists st'.
    split; [done|]. split; [done|]. intros obj' p b Hb. by apply Hc.
  - intros st obj dims req buf Hok Hreq _.
    destruct (transfer_io_read_ok st obj dims req buf Hok Hreq) as (buf' & st' & ? & ? & ? & Hc & ?).
    exists buf', st'. split_and!; try done. intros obj' p b _. by apply Hc.
Defined.

(** The cache over a storage. *)
Section CacheStore.
Context {St : Type} (dim : Z → nat) (unit : Z → Z) `{RegionStorageLaws St dim unit}.
Context (Hdim : ∀ o, (1 ≤ dim o ≤ 3)%nat) (Hunit : ∀ o, 0 < unit o).
Context (maximum_cache_size : Z) (junk : byte) (qsort : list pdc_region_info → list pdc_region_info).
Context (qsort_perm : ∀ l, qsort l ≡ₚ l)
        (qsort_sorted : ∀ l, StronglySorted (λ e1 e2, sort_by_offset e1 e2 ≤ 0) (qsort l)).

Definition cache_region_storage : RegionStorage (cache_state St) := {|
  transfer_io_write s obj ndim dims req buf u :=
    '(_, s) ← PDC_transfer_request_data_write_out maximum_cache_size false junk qsort s obj ndim dims req buf u; Some s;
  transfer_io_read s obj ndim dims req buf u :=
    '(_, buf, s) ← PDC_transfer_request_data_read_from false junk qsort s obj ndim dims req buf u; Some (buf, s) |}.

(** The conditions of the theorems of the cache. *)
Definition cache_writable (s : cache_state St) (obj : Z) (req : pdc_region_info) : Prop :=
  no_stale (dim obj) req (regs_of s obj) ∧
  ∀ dims buf s1,
    PDC_transfer_request_data_write_out W64 false junk qsort s obj (dim obj) dims req buf (unit obj) = Some (SUCCEED, s1) →
    cs_total_cache_size s1 > maximum_cache_size →
    flush_all_accepted dim unit junk qsort (cs_objs s1) (cs_total_cache_size s1) (cs_storage s1).
Definition cache_readable (s : cache_state St) (obj : Z) (req : pdc_region_info) : Prop :=
  ∀ oc, oc ∈ cs_objs s → oc_obj_id oc = obj → find_containing req (oc_region_cache oc) = None →
    flush_accepted dim unit junk qsort oc (cs_storage s).

#[refine] Instance cache_object_store : @ObjectStore (cache_state St) cache_region_storage dim unit := {
  os_ok := cache_ok dim unit;
  os_content := cs_content dim unit;
  os_writable := cache_writable;
  os_readable := cache_readable }.
Proof.
  - intros s obj dims req buf Hok Hreq [Hns Hfl].
    destruct (data_write_ok dim unit Hdim Hunit maximum_cache_size junk qsort qsort_perm qsort_sorted s obj dims req buf Hok Hreq Hns
      (λ s1, Hfl dims buf s1)) as (s' & Hrun & Hok' & Hc).
    exists s'. cbn. rewrite Hrun. split; [done|]. split; [done|]. intros obj' p b Hb. by apply Hc.
  - intros s obj dims req buf Hok Hreq Hacc.
    destruct (fetch_ok dim unit Hdim Hunit junk qsort qsort_perm qsort_sorted s obj dims req buf Hok Hreq Hacc)
      as (buf' & s' & Hrun & Hl & Hok' & Hc & Hg).
    exists buf', s'. cbn. unfold PDC_transfer_request_data_read_from. rewrite Hrun.
    split; [done|]. split; [done|]. split; [done|]. split; [|done]. intros obj' p b Hb. by apply Hc.
Defined.
End CacheStore.

(** * Single requests *)

Section HandlerData.
Context {St : Type} `{RegionStorage St} (dim : Z → nat) (unit : Z → Z) `{!ObjectStore St dim unit} (junk : byte).
Context (Hunit : ∀ o, 0 < unit o).
Implicit Types (s : server St).

#[local] Abbreviation content s := (os_content (sv_store s)).
#[local] Abbreviation region_of i := (remote_reg_info (in_remote_region i)).








(** * Start-all requests *)
















(** ** From the client's packages to the objects *)











End HandlerData.

(** * The properties at concrete inputs *)

(** The server of [RequestHandlerSpec] with the storage engine. *)
#[export] Instance ex_object_store : ObjectStore data_server (λ _, 1%nat) (λ _, 1) :=
  @storage_object_store data_server (λ _, 1%nat) (λ _, 1) ex_storage ex_storage_laws.










