(* ===== verification/ClientTransfer.v ===== *)
(** The life of a transfer request on the client
    ([src/src/api/pdc_region/pdc_region_transfer.c]): creating, starting and
    waiting for requests, one by one or in batches.  A batch is split over the
    data servers; the packages of one server share a bulk buffer that is freed
    through a shared reference counter when the last of them is released.
    Memory is explicit: a use of memory that is not allocated, a second [free],
    the use of a pointer that was not set and an access outside a buffer are
    [None].  The remote procedure calls are the operations of the class
    [DataServers]. *)

From stdpp Require Import gmap sets.
From S2P Require Export TransferPack.
#[local] Open Scope Z_scope.

(** * Data *)

(** [pdc_consistency_t] *)
Inductive pdc_consistency_t :=
  | PDC_CONSISTENCY_DEFAULT | PDC_CONSISTENCY_POSIX | PDC_CONSISTENCY_COMMIT
  | PDC_CONSISTENCY_SESSION | PDC_CONSISTENCY_EVENTUAL.
#[global] Instance pdc_consistency_t_eq_dec : EqDecision pdc_consistency_t.
Proof. solve_decision. Defined.

Definition PDC_MERGE_TRANSFER_MIN_COUNT : nat := 50.

(** A pointer: a block and a position in it.  The buffers by their address. *)
Abbreviation ptr := (Z * Z)%type.
Abbreviation heap := (gmap Z (list byte)).

(** A pointer to an array: NULL, an array (entries that were not set are [None]),
    or memory that was freed or a pointer that was never set. *)
Inductive array (A : Type) := Null | Array (l : list (option A)) | Dangling.
#[global] Arguments Null {A}.
#[global] Arguments Array {A}.
#[global] Arguments Dangling {A}.

(** [pdc_transfer_request]: the fields of [TransferPack.pdc_transfer_request] and
    the others.  [cr_buf] is the block of the user; [cr_parts] says whether the
    arrays [obj_servers], [output_offsets], [output_sizes] and [sub_offsets], whose
    entries are [tr_obj_parts], are allocated. *)
Record client_request := ClientRequest {
  cr_req : pdc_transfer_request;
  cr_local_obj_id : Z;
  cr_data_server_id : Z;
  cr_consistency : pdc_consistency_t;
  cr_buf : Z;
  cr_local_ndim : nat;
  cr_local_offset : list Z;
  cr_local_size : list Z;
  cr_total_data_size : Z;
  cr_parts : bool;
  cr_n_obj_servers : nat;
  cr_new_buf : option ptr;
  cr_output_buf : array Z;
  cr_metadata_id : array Z;
  cr_bulk_buf : array Z;
  cr_bulk_buf_ref : array Z;
  cr_read_bulk_buf : array ptr;
  cr_merged_request_id : Z;
  cr_is_done : bool }.

(** [_pdc_obj_info] and its properties, as far as transfers use them, with the
    pointers to the first and the last node of the list of its requests. *)
Record obj_info := ObjInfo {
  oi_meta_id : Z;
  oi_region_partition : Z;
  oi_data_server_id : Z;
  oi_metadata_server_id : Z;
  oi_unit : Z;
  oi_consistency : pdc_consistency_t;
  oi_ndim : nat;
  oi_dims : list Z;
  oi_local_request_head : option Z;
  oi_local_request_end : option Z;
  oi_local_request_size : Z }.

(** The memory and the tables of the client, and the servers behind it:
    [cl_heap] holds the buffers, [cl_refs] the reference counters and [cl_nodes]
    the nodes [pdc_local_transfer_request] (the ID and the next node); [cl_ids] has the
    addresses of the arrays of IDs that the start of a batch allocates.  [cl_next]
    is an address or ID that was not used yet. *)
Record client (Srv : Type) := Client {
  cl_requests : gmap Z client_request;
  cl_objs : gmap Z obj_info;
  cl_regions : gmap Z (nat * list Z * list Z);
  cl_heap : gmap Z (list byte);
  cl_refs : gmap Z Z;
  cl_nodes : gmap Z (Z * option Z);
  cl_next : Z;
  cl_ids : gset Z;
  cl_srv : Srv }.
#[global] Arguments Client {_}.
#[global] Arguments cl_requests {_}.
#[global] Arguments cl_objs {_}.
#[global] Arguments cl_regions {_}.
#[global] Arguments cl_heap {_}.
#[global] Arguments cl_refs {_}.
#[global] Arguments cl_nodes {_}.
#[global] Arguments cl_next {_}.
#[global] Arguments cl_ids {_}.
#[global] Arguments cl_srv {_}.

(** The remote procedure calls of the client: the request that is forwarded and
    what comes back.  A server is given a region of the client's memory when a
    transfer starts and may read and write it until the transfer is waited for; a
    wait or a status call reports the memory after it. *)
Class DataServers (Srv : Type) := {
  PDC_get_client_data_server : Z;
  forward_transfer_request : Srv → heap → Z → pdc_transfer_request → list Z → list Z → ptr → option (perr_t * Z * Srv);
  forward_transfer_request_all : Srv → heap → Z → pdc_access_t → nat → Z → Z → option (Z * Srv);
  forward_transfer_request_status : Srv → heap → Z → Z → option (perr_t * pdc_transfer_status_t * heap * Srv);
  forward_transfer_request_wait : Srv → heap → Z → Z → pdc_access_t → option (perr_t * heap * Srv);
  forward_transfer_request_wait_all : Srv → heap → Z → list Z → option (heap * Srv);
  forward_metadata_query : Srv → Z → nat → bool → list byte → option (Z * Z * Srv);
  forward_metadata_query2 : Srv → Z → Z → Z → option (list byte * Srv) }.

(** * A state and error monad for the client *)

Definition M (Srv A : Type) : Type := client Srv → option (A * client Srv).
#[global] Instance M_ret Srv : MRet (M Srv) := λ A x s, Some (x, s).
#[global] Instance M_bind Srv : MBind (M Srv) := λ A B f m s, '(x, s) ← m s; f x s.

Section Monad.
Context {Srv : Type}.
#[local] Abbreviation M := (M Srv).

Definition fail {A} : M A := λ _, None.
Definition lift {A} (o : option A) : M A := λ s, (λ x, (x, s)) <$> o.
Definition gets {A} (f : client Srv → A) : M A := λ s, Some (f s, s).
Definition fresh : M Z := λ s,
  Some (cl_next s, Client (cl_requests s) (cl_objs s) (cl_regions s) (cl_heap s) (cl_refs s) (cl_nodes s) (cl_next s + 1) (cl_ids s) (cl_srv s)).
Definition set_requests f : M () := λ s,
  Some ((), Client (f (cl_requests s)) (cl_objs s) (cl_regions s) (cl_heap s) (cl_refs s) (cl_nodes s) (cl_next s) (cl_ids s) (cl_srv s)).
Definition set_objs f : M () := λ s,
  Some ((), Client (cl_requests s) (f (cl_objs s)) (cl_regions s) (cl_heap s) (cl_refs s) (cl_nodes s) (cl_next s) (cl_ids s) (cl_srv s)).
Definition set_regions f : M () := λ s,
  Some ((), Client (cl_requests s) (cl_objs s) (f (cl_regions s)) (cl_heap s) (cl_refs s) (cl_nodes s) (cl_next s) (cl_ids s) (cl_srv s)).
Definition set_heap f : M () := λ s,
  Some ((), Client (cl_requests s) (cl_objs s) (cl_regions s) (f (cl_heap s)) (cl_refs s) (cl_nodes s) (cl_next s) (cl_ids s) (cl_srv s)).
Definition set_refs f : M () := λ s,
  Some ((), Client (cl_requests s) (cl_objs s) (cl_regions s) (cl_heap s) (f (cl_refs s)) (cl_nodes s) (cl_next s) (cl_ids s) (cl_srv s)).
Definition set_nodes f : M () := λ s,
  Some ((), Client (cl_requests s) (cl_objs s) (cl_regions s) (cl_heap s) (cl_refs s) (f (cl_nodes s)) (cl_next s) (cl_ids s) (cl_srv s)).
Definition set_ids f : M () := λ s,
  Some ((), Client (cl_requests s) (cl_objs s) (cl_regions s) (cl_heap s) (cl_refs s) (cl_nodes s) (cl_next s) (f (cl_ids s)) (cl_srv s)).
Definition set_srv srv : M () := λ s,
  Some ((), Client (cl_requests s) (cl_objs s) (cl_regions s) (cl_heap s) (cl_refs s) (cl_nodes s) (cl_next s) (cl_ids s) srv).

(** [for] loops over a list. *)
Fixpoint for_each {A} (l : list A) (f : A → M ()) : M () :=
  match l with [] => mret () | x :: l => _ ← f x; for_each l f end.

(** Dereferencing: [None] when the memory is not there or not set. *)
Definition find_request (id : Z) : M (option client_request) := gets (λ s, cl_requests s !! id).
Definition get_request (id : Z) : M client_request := r ← find_request id; lift r.
Definition put_request (id : Z) (r : client_request) : M () := set_requests (<[id := r]>).
Definition get_obj (id : Z) : M obj_info := o ← gets (λ s, cl_objs s !! id); lift o.
Definition get_block (b : Z) : M (list byte) := d ← gets (λ s, cl_heap s !! b); lift d.
Definition alloc_block (d : list byte) : M Z := b ← fresh; _ ← set_heap (<[b := d]>); mret b.
Definition alloc_ref (n : Z) : M Z := b ← fresh; _ ← set_refs (<[b := n]>); mret b.
(** [free] of memory that is not allocated is an error. *)
Definition free_block (b : Z) : M () := _ ← get_block b; set_heap (delete b).
(** An array of IDs; its contents stay with the batch that it belongs to. *)
Definition alloc_ids : M Z := b ← fresh; _ ← set_ids (λ x, {[b]} ∪ x); mret b.
Definition free_ids (b : Z) : M () := x ← gets cl_ids; if decide (b ∈ x) then set_ids (λ x, x ∖ {[b]}) else fail.
Definition get_ref (b : Z) : M Z := c ← gets (λ s, cl_refs s !! b); lift c.
Definition free_ref_cell (b : Z) : M () := _ ← get_ref b; set_refs (delete b).
Definition get_node (b : Z) : M (Z * option Z) := n ← gets (λ s, cl_nodes s !! b); lift n.
(** Memory from a pointer on. *)
Definition bytes_at (p : ptr) : M (list byte) :=
  d ← get_block p.1; if decide (0 ≤ p.2 ≤ lenZ d) then mret (drop (Z.to_nat p.2) d) else fail.
Definition store_at (p : ptr) (b : list byte) : M () :=
  d ← get_block p.1; set_heap (<[p.1 := take (Z.to_nat p.2) d ++ b]>).
Definition heap_memcpy (dst src : ptr) (n : Z) : M () :=
  s ← bytes_at src; d ← bytes_at dst; d ← lift (memcpy d 0 s 0 n); store_at dst d.

(** Reading an entry of an array, and setting one. *)
Definition array_get {A} (a : array A) (i : nat) : M A :=
  match a with Array l => x ← lift (l !! i); lift x | _ => fail end.
Definition array_set {A} (a : array A) (i : nat) (x : A) : M (array A) :=
  match a with Array l => if decide (i < length l)%nat then mret (Array (<[i := Some x]> l)) else fail | _ => fail end.
Definition malloc_array (A : Type) (n : nat) : array A := Array (replicate n None).
(** [free] of an array; [free(NULL)] does nothing. *)
Definition free_array {A} (a : array A) : M (array A) :=
  match a with Null => mret Null | Array _ => mret Dangling | Dangling => fail end.
End Monad.

Section Client.
Context {Srv : Type} `{DataServers Srv} (junk : byte) (pdc_server_num_g : Z).
Context (qsort_data_server qsort_metadata_server : list start_all_pkg → list start_all_pkg).
#[local] Abbreviation M := (M Srv).

(** * The fields of a request *)

Definition with_new_buf (b : option ptr) (r : client_request) : client_request :=
  ClientRequest (cr_req r) (cr_local_obj_id r) (cr_data_server_id r) (cr_consistency r) (cr_buf r) (cr_local_ndim r)
    (cr_local_offset r) (cr_local_size r) (cr_total_data_size r) (cr_parts r) (cr_n_obj_servers r) b (cr_output_buf r)
    (cr_metadata_id r) (cr_bulk_buf r) (cr_bulk_buf_ref r) (cr_read_bulk_buf r) (cr_merged_request_id r) (cr_is_done r).
Definition with_parts (parts : list (option obj_part)) (alloc : bool) (n : nat) (output_buf : array Z)
    (r : client_request) : client_request :=
  ClientRequest (set_parts (cr_req r) parts) (cr_local_obj_id r) (cr_data_server_id r) (cr_consistency r) (cr_buf r)
    (cr_local_ndim r) (cr_local_offset r) (cr_local_size r) (cr_total_data_size r) alloc n (cr_new_buf r) output_buf
    (cr_metadata_id r) (cr_bulk_buf r) (cr_bulk_buf_ref r) (cr_read_bulk_buf r) (cr_merged_request_id r) (cr_is_done r).
Definition with_arrays (metadata_id bulk_buf bulk_buf_ref : array Z) (read_bulk_buf : array ptr) (r : client_request)
    : client_request :=
  ClientRequest (cr_req r) (cr_local_obj_id r) (cr_data_server_id r) (cr_consistency r) (cr_buf r) (cr_local_ndim r)
    (cr_local_offset r) (cr_local_size r) (cr_total_data_size r) (cr_parts r) (cr_n_obj_servers r) (cr_new_buf r)
    (cr_output_buf r) metadata_id bulk_buf bulk_buf_ref read_bulk_buf (cr_merged_request_id r) (cr_is_done r).
Definition with_status (merged_request_id : Z) (is_done : bool) (r : client_request) : client_request :=
  ClientRequest (cr_req r) (cr_local_obj_id r) (cr_data_server_id r) (cr_consistency r) (cr_buf r) (cr_local_ndim r)
    (cr_local_offset r) (cr_local_size r) (cr_total_data_size r) (cr_parts r) (cr_n_obj_servers r) (cr_new_buf r)
    (cr_output_buf r) (cr_metadata_id r) (cr_bulk_buf r) (cr_bulk_buf_ref r) (cr_read_bulk_buf r) merged_request_id is_done.

(** The three partitions whose regions are split over several servers. *)
Definition is_split (r : client_request) : bool :=
  let p := tr_region_partition (cr_req r) in
  bool_decide (p = PDC_REGION_STATIC ∨ p = PDC_REGION_DYNAMIC ∨ p = PDC_REGION_LOCAL).
Definition asks_servers (r : client_request) : bool :=
  let p := tr_region_partition (cr_req r) in bool_decide (p = PDC_REGION_DYNAMIC ∨ p = PDC_REGION_LOCAL).
Definition access_of (r : client_request) : pdc_access_t := tr_access_type (cr_req r).

(** * The list of an object's requests *)

Definition set_local_requests (o : obj_info) (head end_ : option Z) (size : Z) : obj_info :=
  ObjInfo (oi_meta_id o) (oi_region_partition o) (oi_data_server_id o) (oi_metadata_server_id o) (oi_unit o)
    (oi_consistency o) (oi_ndim o) (oi_dims o) head end_ size.

Definition attach_local_transfer_request (obj transfer_request_id : Z) : M () :=
  o ← get_obj obj;
  n ← fresh;
  _ ← match oi_local_request_head o with
      | Some _ => e ← lift (oi_local_request_end o); '(local_id, _) ← get_node e; set_nodes (<[e := (local_id, Some n)]>)
      | None => mret ()
      end;
  _ ← set_nodes (<[n := (transfer_request_id, None)]>);
  set_objs (<[obj := set_local_requests o (Some (default n (oi_local_request_head o))) (Some n) (oi_local_request_size o + 1)]>).

(** The search; [fuel] is more than the number of nodes. *)
Fixpoint remove_loop (fuel : nat) (obj id : Z) (previous temp : option Z) : M () :=
  match fuel with
  | O => fail
  | S fuel =>
    match temp with
    | None => mret ()
    | Some t =>
      '(local_id, next) ← get_node t;
      if decide (local_id = id) then
        o ← get_obj obj;
        _ ← match previous with
            | None => set_objs (<[obj := set_local_requests o next (oi_local_request_end o) (oi_local_request_size o - 1)]>)
            | Some p =>
                '(pid, _) ← get_node p;
                _ ← set_nodes (<[p := (pid, next)]>);
                set_objs (<[obj := set_local_requests o (oi_local_request_head o) (oi_local_request_end o)
                                     (oi_local_request_size o - 1)]>)
            end;
        set_nodes (delete t)
      else remove_loop fuel obj id (Some t) next
    end
  end.

Definition remove_local_transfer_request (obj transfer_request_id : Z) : M () :=
  o ← get_obj obj;
  nodes ← gets cl_nodes;
  remove_loop (S (size nodes)) obj transfer_request_id None (oi_local_request_head o).

(** * Creating and closing a request *)

(** The ID, or FAIL.  The buffer NULL is 0. *)
Definition PDCregion_transfer_create (buf : Z) (access_type : pdc_access_t) (obj_id local_reg remote_reg : Z) : M Z :=
  if decide (buf = 0) then mret FAIL
  else
    reg1 ← gets (λ s, cl_regions s !! local_reg);
    reg2 ← gets (λ s, cl_regions s !! remote_reg);
    obj2 ← gets (λ s, cl_objs s !! obj_id);
    match reg1, reg2, obj2 with
    | Some (ndim1, offset1, size1), Some (ndim2, offset2, size2), Some o =>
        let req := TransferRequest (oi_meta_id o) (oi_metadata_server_id o) access_type (oi_unit o) (oi_region_partition o)
                     ndim2 (take ndim2 offset2) (take ndim2 size2) (oi_ndim o) (take (oi_ndim o) (oi_dims o)) [] in
        let total_data_size := foldl (λ t j, t *w arr size2 j) (oi_unit o) (seq 0 ndim2) in
        id ← fresh;
        _ ← put_request id (ClientRequest req obj_id (oi_data_server_id o) (oi_consistency o) buf ndim1 (take ndim1 offset1)
              (take ndim1 size1) total_data_size false 0 None Null Null Null Null Null 0 false);
        mret id
    | _, _, _ => mret FAIL
    end.

(** The memory of the request goes, and its ID with the last reference. *)
Definition PDCregion_transfer_close (transfer_request_id : Z) : M perr_t :=
  _ ← set_requests (delete transfer_request_id);
  mret SUCCEED.

(** * Preparing a batch *)

Definition set_obj_server_bufs (r : client_request) : client_request :=
  let n := cr_n_obj_servers r in
  with_arrays (malloc_array Z n) (malloc_array Z n) (malloc_array Z n)
    (if decide (access_of r = PDC_READ) then malloc_array ptr n else cr_read_bulk_buf r) r.

Definition pack_request (r : client_request) : M client_request :=
  d ← get_block (cr_buf r);
  '(_, b) ← lift (pack_region_buffer junk d (cr_total_data_size r) (cr_local_ndim r) (cr_local_offset r) (cr_local_size r)
              (tr_unit (cr_req r)) (access_of r));
  match b with
  | Some (InUserBuf off) => mret (with_new_buf (Some (cr_buf r, off)) r)
  | Some (OwnBlock b) => a ← alloc_block b; mret (with_new_buf (Some (a, 0)) r)
  | None => mret r
  end.

(** [static_region_partition] for a request, with its arrays and the blocks of
    [output_buf]; the memory at a NULL [new_buf] is empty. *)
Definition partition_request (r : client_request) (set_output_buf : bool) : M (client_request * list server_piece) :=
  let q := cr_req r in
  bytes ← match cr_new_buf r with Some p => bytes_at p | None => mret [] end;
  pieces ← lift (static_region_partition pdc_server_num_g bytes (tr_remote_region_ndim q) (tr_unit q)
             (tr_access_type q) (tr_obj_dims q) (tr_remote_region_offset q) (tr_remote_region_size q) set_output_buf);
  output_buf ← mapM (λ p, match sp_output_buf p with Some b => a ← alloc_block b; mret (Some a) | None => mret None end) pieces;
  let part p := Some (ObjPart (sp_server p) (sp_output_offset p) (sp_output_size p) (sp_sub_offset p)) in
  mret (with_parts (part <$> pieces) true (length pieces) (if set_output_buf then Array output_buf else Null) r, pieces).

Definition piece_pkg (id : Z) (access_type : pdc_access_t) (j : nat) (p : server_piece) : start_all_pkg :=
  StartAllPkg (sp_server p) id (sp_output_offset p) (sp_output_size p) (Z.of_nat j)
    (if decide (access_type = PDC_WRITE) then sp_output_buf p else None).

(** One request of the batch: its packages and [set_output_buf]; no packages when
    no server is selected. *)
Definition prepare_request (id : Z) (r : client_request) (set_output_buf : bool) : M (option (list start_all_pkg) * bool) :=
  _ ← attach_local_transfer_request (cr_local_obj_id r) id;
  r ← pack_request r;
  let q := cr_req r in
  let access_type := tr_access_type q in
  if decide (tr_region_partition q = PDC_REGION_STATIC) then
    let set_output_buf := bool_decide (access_type = PDC_WRITE) || set_output_buf in
    '(r, pieces) ← partition_request r set_output_buf;
    if decide (pieces = []) then _ ← put_request id r; mret (None, set_output_buf)
    else
      _ ← put_request id (set_obj_server_bufs r);
      mret (Some (imap (piece_pkg id access_type) pieces), set_output_buf)
  else if decide (tr_region_partition q = PDC_OBJ_STATIC ∨ asks_servers r = true) then
    let r := with_parts (tr_obj_parts q) (cr_parts r) 1 (cr_output_buf r) r in
    bytes ← match cr_new_buf r with Some p => b ← bytes_at p; mret (Some b) | None => mret None end;
    let server := if decide (tr_region_partition q = PDC_OBJ_STATIC) then cr_data_server_id r else PDC_get_client_data_server in
    let pkg := StartAllPkg server id (tr_remote_region_offset q) (tr_remote_region_size q) 0
                 (if decide (access_type = PDC_WRITE) then bytes else None) in
    _ ← put_request id (if asks_servers r then r else set_obj_server_bufs r);
    mret (Some [pkg], set_output_buf)
  else
    _ ← put_request id (set_obj_server_bufs r); mret (Some [], set_output_buf).

(** The packages of writes and reads so far, the requests of POSIX consistency. *)
Record batch := Batch { ba_writes : list start_all_pkg; ba_reads : list start_all_pkg; ba_posix : list Z }.
Definition add_pkgs (access_type : pdc_access_t) (pkgs : list start_all_pkg) (b : batch) : batch :=
  match access_type with
  | PDC_WRITE => Batch (ba_writes b ++ pkgs) (ba_reads b) (ba_posix b)
  | PDC_READ => Batch (ba_writes b) (ba_reads b ++ pkgs) (ba_posix b)
  | PDC_NA => b
  end.

(** The loop over the batch, with [set_output_buf]; the result code first. *)
Fixpoint prepare_loop (ids : list Z) (b : batch) (set_output_buf : bool) : M (perr_t * batch) :=
  match ids with
  | [] => mret (SUCCEED, b)
  | id :: ids =>
    r ← find_request id;
    match r with
    | None => prepare_loop ids b set_output_buf
    | Some r =>
      match cr_metadata_id r with
      | Null =>
        let b := if decide (cr_consistency r = PDC_CONSISTENCY_POSIX)
                 then Batch (ba_writes b) (ba_reads b) (ba_posix b ++ [id]) else b in
        '(pkgs, set_output_buf) ← prepare_request id r set_output_buf;
        match pkgs with
        | None => mret (FAIL, b)
        | Some pkgs => prepare_loop ids (add_pkgs (access_of r) pkgs b) set_output_buf
        end
      | _ => mret (FAIL, b)
      end
    end
  end.

(** The packages with the requests they point to. *)
Definition with_requests (pkgs : list start_all_pkg) : M (list (pdc_transfer_request * start_all_pkg)) :=
  rs ← gets cl_requests;
  lift (mapM (λ p, r ← rs !! pk_transfer_request p; Some (cr_req r, p)) pkgs).

(** ** Asking the metadata servers *)

Definition is_dynamic (rs : gmap Z client_request) (p : start_all_pkg) : bool :=
  match rs !! pk_transfer_request p with Some r => asks_servers r | None => false end.

(** Runs of neighbours with the same key: the loops that compare each element with
    the one before and handle a run when the key changes or the list ends. *)
Fixpoint group_by {A} (key : A → Z) (l : list A) : list (list A) :=
  match l with
  | [] => []
  | x :: l =>
    match group_by key l with
    | (y :: g) :: gs => if decide (key x = key y) then (x :: y :: g) :: gs else [x] :: (y :: g) :: gs
    | gs => [x] :: gs
    end
  end.

(** One query; the new packages and their number.  The requests that the answer
    names get their arrays. *)
Definition query_group (is_write : bool) (group : list start_all_pkg) : M (list start_all_pkg * Z) :=
  xs ← with_requests group;
  server ← lift ((λ x, tr_metadata_server_id x.1) <$> head xs);
  '(buf, _) ← lift (pack_region_metadata_query junk xs);
  srv ← gets cl_srv;
  '(output_buf_size, query_id, srv) ← lift (forward_metadata_query srv server (length group) is_write buf);
  _ ← set_srv srv;
  if decide (query_id = 0) then mret ([], 0)
  else
    srv ← gets cl_srv;
    '(output_buf, srv) ← lift (forward_metadata_query2 srv server query_id output_buf_size);
    _ ← set_srv srv;
    rs ← gets cl_requests;
    '(pkgs, n, store) ← lift (unpack_region_metadata_query junk output_buf group (cr_req <$> rs));
    let update (k : Z) (r : client_request) :=
      match store !! k with
      | Some q => if decide (Exists (λ p, pk_transfer_request p = k) pkgs)
                  then set_obj_server_bufs (with_parts (tr_obj_parts q) true (length (tr_obj_parts q)) (cr_output_buf r) r)
                  else r
      | None => r
      end in
    _ ← set_requests (map_imap (λ k r, Some (update k r)));
    mret (pkgs, n).

Fixpoint query_groups (is_write : bool) (groups : list (list start_all_pkg)) : M (list start_all_pkg * Z) :=
  match groups with
  | [] => mret ([], 0)
  | g :: groups =>
    '(pkgs, n) ← query_group is_write g;
    '(pkgs', n') ← query_groups is_write groups;
    mret (pkgs ++ pkgs', n + n')
  end.

(** The packages of requests with a dynamic or local partition are replaced by
    those that the metadata servers name, unless they name none at all. *)
Definition register_metadata (transfer_request_input : list start_all_pkg) (is_write : bool) : M (list start_all_pkg) :=
  rs ← gets cl_requests;
  let dynamic := filter (λ p, is_dynamic rs p = true) transfer_request_input in
  let key (p : start_all_pkg) := default 0 (tr_metadata_server_id ∘ cr_req <$> rs !! pk_transfer_request p) in
  '(pkgs, output_size) ← query_groups is_write (group_by key (qsort_metadata_server dynamic));
  if decide (output_size = 0) then mret transfer_request_input
  else mret (pkgs ++ filter (λ p, is_dynamic rs p ≠ true) transfer_request_input).

Definition register_and_sort (pkgs : list start_all_pkg) (is_write : bool) : M (list start_all_pkg) :=
  if decide (pkgs = []) then mret []
  else pkgs ← register_metadata pkgs is_write; mret (qsort_data_server pkgs).

(** The result code and the batch.  On failure the packages stay where they are and the
    batch has none. *)
Definition prepare_batch (ids : list Z) : M (perr_t * batch) :=
  '(ret, b) ← prepare_loop ids (Batch [] [] []) false;
  if decide (ret = FAIL) then mret (FAIL, Batch [] [] (ba_posix b))
  else
    writes ← register_and_sort (ba_writes b) true;
    reads ← register_and_sort (ba_reads b) false;
    mret (SUCCEED, Batch writes reads (ba_posix b)).

(** The array [posix_transfer_request_id] that is allocated first, whose contents are
    [ba_posix], the result code and the batch. *)
Definition prepare_start_all_requests (ids : list Z) : M (Z * (perr_t * batch)) :=
  posix_transfer_request_id ← alloc_ids;
  result ← prepare_batch ids;
  mret (posix_transfer_request_id, result).

(** * Starting a batch *)

(** The IDs of the transfers follow the first one, which the server sends back. *)
Definition PDC_Client_transfer_request_all (n_objs : nat) (access_type : pdc_access_t) (data_server_id bulk_buf bulk_size : Z)
    : M (list Z) :=
  srv ← gets cl_srv; h ← gets cl_heap;
  '(metadata_id, srv) ← lift (forward_transfer_request_all srv h data_server_id access_type n_objs bulk_buf bulk_size);
  _ ← set_srv srv;
  mret ((λ i : nat, metadata_id +w Z.of_nat i) <$> seq 0 n_objs).

(** What the loop over the packages of one server stores in the request of [p]. *)
Definition set_entry (bulk_buf bulk_buf_ref : Z) (p : start_all_pkg) (read_pos metadata_id : Z) : M () :=
  r ← get_request (pk_transfer_request p);
  let i := Z.to_nat (pk_index p) in
  bulk ← array_set (cr_bulk_buf r) i bulk_buf;
  ref ← array_set (cr_bulk_buf_ref r) i bulk_buf_ref;
  read ← (if decide (access_of r = PDC_READ) then array_set (cr_read_bulk_buf r) i (bulk_buf, read_pos)
          else mret (cr_read_bulk_buf r));
  meta ← array_set (cr_metadata_id r) i metadata_id;
  put_request (pk_transfer_request p) (with_arrays meta bulk ref read r).

Fixpoint set_entries (bulk_buf bulk_buf_ref : Z) (pkgs : list start_all_pkg) (read_pos metadata_ids : list Z) : M () :=
  match pkgs, metadata_ids with
  | p :: pkgs, id :: metadata_ids =>
      _ ← set_entry bulk_buf bulk_buf_ref p (default 0 (head read_pos)) id;
      set_entries bulk_buf bulk_buf_ref pkgs (tail read_pos) metadata_ids
  | _, _ => mret ()
  end.

(** The packages of one server. *)
Definition start_group (pkgs : list start_all_pkg) : M () :=
  xs ← with_requests pkgs;
  x ← lift (head xs);
  let access_type := tr_access_type x.1 in
  '(buf, bulk_buf_size, read_bulk_buf) ← lift (PDC_Client_pack_all_requests junk access_type xs);
  bulk_buf ← alloc_block buf;
  bulk_buf_ref ← alloc_ref (Z.of_nat (length pkgs));
  metadata_ids ← PDC_Client_transfer_request_all (length pkgs) access_type (pk_data_server_id x.2) bulk_buf bulk_buf_size;
  set_entries bulk_buf bulk_buf_ref pkgs read_bulk_buf metadata_ids.

Definition PDC_Client_start_all_requests (transfer_requests : list start_all_pkg) : M () :=
  for_each (group_by pk_data_server_id transfer_requests) start_group.

(** * Merging a large batch *)

(** Whether request [r] ends the loop with [flag]; [previous] is the one before. *)
Definition merge_stops (previous : option client_request) (first r : client_request) : bool :=
  if decide (tr_region_partition (cr_req r) ≠ PDC_REGION_LOCAL) then true
  else
    match previous with
    | None => false
    | Some p =>
      if decide (cr_local_obj_id r ≠ cr_local_obj_id first) then true
      else if decide (cr_local_ndim r = 1%nat) then
        bool_decide (arr (tr_remote_region_offset (cr_req r)) 0 ≠
          arr (tr_remote_region_offset (cr_req p)) 0 +w arr (tr_remote_region_size (cr_req p)) 0)
      else true
    end.

(** The first loop: [flag] and [new_buf_size]; [None] when it returns FAIL. *)
Fixpoint merge_check (previous : option client_request) (first : client_request) (rs : list (option client_request))
    (new_buf_size : Z) : option (bool * Z) :=
  match rs with
  | [] => Some (false, new_buf_size)
  | None :: _ => None
  | Some r :: rs =>
    if merge_stops previous first r then Some (true, new_buf_size)
    else merge_check (Some r) first rs (new_buf_size +w cr_total_data_size r)
  end.

(** The copies; the originals are marked as done. *)
Fixpoint merge_copy (new_buf copy_off : Z) (ids : list Z) : M () :=
  match ids with
  | [] => mret ()
  | id :: ids =>
    r ← get_request id;
    _ ← heap_memcpy (new_buf, copy_off) (cr_buf r, 0) (cr_total_data_size r);
    _ ← put_request id (with_status (cr_merged_request_id r) true r);
    merge_copy new_buf (copy_off +w cr_total_data_size r) ids
  end.

Definition PDCregion_create (ndim : nat) (offset size : list Z) : M Z :=
  id ← fresh; _ ← set_regions (<[id := (ndim, take ndim offset, take ndim size)]>); mret id.

(** The ID of the merged request, if there is one. *)
Definition merge_transfer_request_ids (ids : list Z) : M (option Z) :=
  rs ← gets cl_requests;
  let found := (λ id, rs !! id) <$> ids in
  match found with
  | Some first :: _ =>
    match merge_check None first found 0 with
    | Some (false, new_buf_size) =>
      new_buf ← alloc_block (malloc junk new_buf_size);
      if decide (cr_local_ndim first = 1%nat) then
        let offset_local := arr (cr_local_offset first) 0 in
        new_local_reg ← PDCregion_create 1 [offset_local] [new_buf_size];
        new_remote_reg ← PDCregion_create 1 [arr (tr_remote_region_offset (cr_req first)) 0] [new_buf_size];
        _ ← merge_copy new_buf offset_local ids;
        id ← PDCregion_transfer_create new_buf (access_of first) (cr_local_obj_id first) new_local_reg new_remote_reg;
        first_id ← lift (head ids);
        r ← get_request first_id;
        _ ← put_request first_id (with_status id (cr_is_done r) r);
        mret (Some id)
      else fail
    | _ => mret None
    end
  | _ => mret None
  end.

(** * Waiting for requests *)

(** [release_region_buffer]: the copy back, and the memory of the request. *)
Definition release_copy_back (r : client_request) : M () :=
  if decide ((cr_local_ndim r = 2%nat ∨ cr_local_ndim r = 3%nat) ∧ access_of r = PDC_READ) then
    p ← lift (cr_new_buf r);
    nb ← bytes_at p;
    d ← get_block (cr_buf r);
    d ← lift (release_copy d (cr_local_ndim r) (cr_local_size r) (tr_unit (cr_req r)) (access_of r) nb);
    store_at (cr_buf r, 0) d
  else mret ().

(** One step of the loop over the bulk buffers. *)
Definition release_bulk (bulk_buf bulk_buf_ref : array Z) (k : nat) : M () :=
  ref ← array_get bulk_buf_ref k;
  c ← get_ref ref;
  _ ← set_refs (<[ref := c - 1]>);
  if decide (c - 1 = 0) then
    b ← array_get bulk_buf k;
    _ ← free_block b;
    free_ref_cell ref
  else mret ().

Definition release_region_buffer (r : client_request) : M client_request :=
  _ ← release_copy_back r;
  '(bulk_buf, bulk_buf_ref) ←
    match cr_bulk_buf_ref r with
    | Null => mret (cr_bulk_buf r, cr_bulk_buf_ref r)
    | _ =>
        _ ← for_each (seq 0 (cr_n_obj_servers r)) (release_bulk (cr_bulk_buf r) (cr_bulk_buf_ref r));
        ref ← free_array (cr_bulk_buf_ref r); bulk ← free_array (cr_bulk_buf r); mret (bulk, ref)
    end;
  _ ← (if decide (1 < cr_local_ndim r)%nat
       then match cr_new_buf r with Some p => free_block p.1 | None => mret () end else mret ());
  read_bulk_buf ← free_array (cr_read_bulk_buf r);
  mret (with_arrays (cr_metadata_id r) bulk_buf bulk_buf_ref read_bulk_buf r).

(** The data of server [j] go to their place in [new_buf]. *)
Definition gather_entry (r : client_request) (j : nat) : M () :=
  if decide (access_of r = PDC_READ) then
    p ← lift (cr_new_buf r);
    new_buf ← bytes_at p;
    src ← array_get (cr_read_bulk_buf r) j;
    read_bulk_buf ← bytes_at src;
    part ← array_get (Array (tr_obj_parts (cr_req r))) j;
    let q := cr_req r in
    '(new_buf, _) ← lift (memcpy_subregion (tr_remote_region_ndim q) (tr_unit q) (tr_access_type q) new_buf
      (tr_remote_region_size q) read_bulk_buf (op_sub_offset part) (op_output_size part));
    store_at p new_buf
  else mret ().

(** The entries [j] of [output_buf] and [output_offsets] are freed. *)
Definition free_entry (id : Z) (r : client_request) (j : nat) : M () :=
  _ ← match cr_output_buf r with Null => mret () | a => b ← array_get a j; free_block b end;
  _ ← array_get (Array (tr_obj_parts (cr_req r))) j;
  put_request id (with_parts (<[j := None]> (tr_obj_parts (cr_req r))) (cr_parts r) (cr_n_obj_servers r) (cr_output_buf r) r).

(** The arrays of a split request are freed. *)
Definition free_parts (r : client_request) : M client_request :=
  if cr_parts r then
    output_buf ← free_array (cr_output_buf r);
    mret (with_parts (tr_obj_parts (cr_req r)) false (cr_n_obj_servers r) output_buf r)
  else fail.

(** The end of a transfer: [metadata_id] is freed and set to NULL. *)
Definition finish_transfer (id : Z) (r : client_request) : M () :=
  _ ← free_array (cr_metadata_id r);
  _ ← put_request id (with_status (cr_merged_request_id r) true
        (with_arrays Null (cr_bulk_buf r) (cr_bulk_buf_ref r) (cr_read_bulk_buf r) r));
  mret ().

(** The data of a read of an unsplit region go to [new_buf]. *)
Definition copy_unsplit (r : client_request) : M () :=
  if decide (access_of r = PDC_READ) then
    p ← lift (cr_new_buf r);
    src ← array_get (cr_read_bulk_buf r) 0;
    heap_memcpy p src (cr_total_data_size r)
  else mret ().

(** ** Waiting for many *)

(** [pdc_transfer_request_wait_all_pkg] *)
Record wait_all_pkg := WaitAllPkg {
  wp_metadata_id : Z;
  wp_data_server_id : Z;
  wp_index : nat;
  wp_transfer_request : Z }.
Context (qsort_wait_all : list wait_all_pkg → list wait_all_pkg).

Definition request_wait_pkg (id : Z) (r : client_request) (j : nat) : M wait_all_pkg :=
  server ← (if decide (tr_region_partition (cr_req r) = PDC_OBJ_STATIC) then mret (cr_data_server_id r)
            else part ← array_get (Array (tr_obj_parts (cr_req r))) j; mret (op_obj_server part));
  metadata_id ← array_get (cr_metadata_id r) j;
  mret (WaitAllPkg metadata_id server j id).

(** The packages of the requests that are started and not done. *)
Definition collect_request (id : Z) : M (list wait_all_pkg) :=
  r ← find_request id;
  match r with
  | Some r =>
    if cr_is_done r then mret []
    else match cr_metadata_id r with
         | Null => mret []
         | _ => mapM (request_wait_pkg id r) (seq 0 (cr_n_obj_servers r))
         end
  | None => mret []
  end.

Definition PDC_Client_transfer_request_wait_all (metadata_ids : list Z) (data_server_id : Z) : M () :=
  srv ← gets cl_srv; h ← gets cl_heap;
  '(h, srv) ← lift (forward_transfer_request_wait_all srv h data_server_id metadata_ids);
  _ ← set_srv srv; set_heap (λ _, h).

Definition wait_pkg_done (p : wait_all_pkg) : M () :=
  r ← get_request (wp_transfer_request p);
  if is_split r then
    _ ← gather_entry r (wp_index p);
    free_entry (wp_transfer_request p) r (wp_index p)
  else mret ().

Definition wait_group (pkgs : list wait_all_pkg) : M () :=
  x ← lift (head pkgs);
  _ ← PDC_Client_transfer_request_wait_all (wp_metadata_id <$> pkgs) (wp_data_server_id x);
  for_each pkgs wait_pkg_done.

(** The requests of a merged batch of reads get their data from the buffer of the
    merged request; [merge_off] is the offset of the first. *)
Fixpoint copy_merged (merged : client_request) (ids : list Z) (merge_off : option Z) : M () :=
  match ids with
  | [] => mret ()
  | id :: ids =>
    r ← get_request id;
    if decide (access_of r = PDC_READ) then
      let merge_off := default (arr (tr_remote_region_offset (cr_req r)) 0) merge_off in
      r ← match cr_new_buf r with
          | Some _ => mret r
          | None => b ← alloc_block (malloc junk (cr_total_data_size r)); mret (with_new_buf (Some (b, 0)) r)
          end;
      _ ← put_request id r;
      p ← lift (cr_new_buf r);
      src ← array_get (cr_read_bulk_buf merged) 0;
      _ ← heap_memcpy p (src.1, src.2 + merge_off) (cr_total_data_size r);
      copy_merged merged ids (Some merge_off)
    else copy_merged merged ids merge_off
  end.

(** The last loop, for the request [id]; [list_id] is the ID that is taken from the
    list of the object. *)
Definition release_request (id list_id : Z) : M () :=
  r ← find_request id;
  match r with
  | Some r =>
    if cr_is_done r then mret ()
    else
      _ ← (if decide (tr_region_partition (cr_req r) = PDC_OBJ_STATIC) then copy_unsplit r else mret ());
      r ← release_region_buffer r;
      r ← (if is_split r then free_parts r else mret r);
      _ ← finish_transfer id r;
      remove_local_transfer_request (cr_local_obj_id r) list_id
  | None => mret ()
  end.

Definition PDCregion_transfer_wait_all (transfer_request_id : list Z) : M perr_t :=
  match transfer_request_id with
  | [] => mret SUCCEED
  | first_id :: _ =>
    merged ← (if decide (PDC_MERGE_TRANSFER_MIN_COUNT < length transfer_request_id)%nat then
                r ← get_request first_id;
                mret (if decide (cr_merged_request_id r = 0) then None else Some (cr_merged_request_id r))
              else mret None);
    let my_transfer_request_id := match merged with Some id => [id] | None => transfer_request_id end in
    pkgs ← mapM collect_request my_transfer_request_id;
    _ ← for_each (group_by wp_data_server_id (qsort_wait_all (concat pkgs))) wait_group;
    _ ← match merged with
        | Some id => m ← get_request id; copy_merged m transfer_request_id None
        | None => mret ()
        end;
    _ ← for_each (zip my_transfer_request_id transfer_request_id) (λ '(id, list_id), release_request id list_id);
    mret SUCCEED
  end.

(** * Starting many requests *)

(** [merged_request_id] is never freed, and the array of the requests of POSIX
    consistency only when there is one. *)
Definition PDCregion_transfer_start_all (transfer_request_id : list Z) : M perr_t :=
  merged ← (if decide (PDC_MERGE_TRANSFER_MIN_COUNT < length transfer_request_id)%nat
            then _ ← alloc_ids; merge_transfer_request_ids transfer_request_id else mret None);
  let ids := match merged with Some id => [id] | None => transfer_request_id end in
  '(posix_transfer_request_id, (ret_value, b)) ← prepare_start_all_requests ids;
  _ ← PDC_Client_start_all_requests (ba_writes b);
  _ ← PDC_Client_start_all_requests (ba_reads b);
  _ ← (if decide (ba_posix b = []) then mret ()
       else _ ← PDCregion_transfer_wait_all (ba_posix b); free_ids posix_transfer_request_id);
  mret ret_value.

(** * One request *)

(** The result code and the ID of the transfer. *)
Definition PDC_Client_transfer_request (buf : ptr) (r : client_request) (data_server_id : Z) (offset size : list Z)
    : M (perr_t * Z) :=
  srv ← gets cl_srv; h ← gets cl_heap;
  '(ret, metadata_id, srv) ← lift (forward_transfer_request srv h data_server_id (cr_req r) offset size buf);
  _ ← set_srv srv; mret (ret, metadata_id).
Definition PDC_Client_transfer_request_status (metadata_id data_server_id : Z) : M (perr_t * pdc_transfer_status_t) :=
  srv ← gets cl_srv; h ← gets cl_heap;
  '(ret, status, h, srv) ← lift (forward_transfer_request_status srv h data_server_id metadata_id);
  _ ← set_srv srv; _ ← set_heap (λ _, h); mret (ret, status).
Definition PDC_Client_transfer_request_wait (metadata_id data_server_id : Z) (access_type : pdc_access_t) : M perr_t :=
  srv ← gets cl_srv; h ← gets cl_heap;
  '(ret, h, srv) ← lift (forward_transfer_request_wait srv h data_server_id metadata_id access_type);
  _ ← set_srv srv; _ ← set_heap (λ _, h); mret ret.

(** The loop over the servers of a static partition. *)
Fixpoint start_parts (r : client_request) (js : list nat) (ret_value : perr_t) : M (perr_t * client_request) :=
  match js with
  | [] => mret (ret_value, r)
  | j :: js =>
    buf ← array_get (cr_output_buf r) j;
    read ← (if decide (access_of r = PDC_READ) then array_set (cr_read_bulk_buf r) j (buf, 0) else mret (cr_read_bulk_buf r));
    part ← array_get (Array (tr_obj_parts (cr_req r))) j;
    '(ret_value, metadata_id) ← PDC_Client_transfer_request (buf, 0) r (op_obj_server part) (op_output_offset part) (op_output_size part);
    meta ← array_set (cr_metadata_id r) j metadata_id;
    start_parts (with_arrays meta (cr_bulk_buf r) (cr_bulk_buf_ref r) read r) js ret_value
  end.

(** The arrays of a request that is started alone. *)
Definition malloc_single (n : nat) (r : client_request) : client_request :=
  with_arrays (malloc_array Z n) (cr_bulk_buf r) (cr_bulk_buf_ref r)
    (if decide (access_of r = PDC_READ) then malloc_array ptr n else cr_read_bulk_buf r) r.

(** The loop that waits for the servers of a static partition. *)
Fixpoint wait_parts (id : Z) (js : list nat) (ret_value : perr_t) : M perr_t :=
  match js with
  | [] => mret ret_value
  | j :: js =>
    r ← get_request id;
    metadata_id ← array_get (cr_metadata_id r) j;
    part ← array_get (Array (tr_obj_parts (cr_req r))) j;
    ret_value ← PDC_Client_transfer_request_wait metadata_id (op_obj_server part) (access_of r);
    _ ← gather_entry r j;
    _ ← free_entry id r j;
    wait_parts id js ret_value
  end.

Definition PDCregion_transfer_wait (id : Z) : M perr_t :=
  r ← find_request id;
  match r with
  | None => mret SUCCEED
  | Some r =>
    match cr_metadata_id r with
    | Null => mret SUCCEED
    | _ =>
      if asks_servers r then _ ← PDCregion_transfer_wait_all [id]; mret SUCCEED
      else
        ret_value ←
          (if is_split r then
             ret ← wait_parts id (seq 0 (cr_n_obj_servers r)) SUCCEED;
             r ← get_request id;
             r ← release_region_buffer r; r ← free_parts r; _ ← put_request id r; mret ret
           else if decide (tr_region_partition (cr_req r) = PDC_OBJ_STATIC) then
             metadata_id ← array_get (cr_metadata_id r) 0;
             ret ← PDC_Client_transfer_request_wait metadata_id (cr_data_server_id r) (access_of r);
             _ ← copy_unsplit r;
             r ← release_region_buffer r; _ ← put_request id r; mret ret
           else mret SUCCEED);
        r ← get_request id;
        _ ← finish_transfer id r;
        _ ← remove_local_transfer_request (cr_local_obj_id r) id;
        mret ret_value
    end
  end.

(** The request as it is left when no server is selected is stored, too. *)
Definition PDCregion_transfer_start (id : Z) : M perr_t :=
  r ← find_request id;
  match r with
  | None => mret SUCCEED
  | Some r =>
    match cr_metadata_id r with
    | Null =>
      if asks_servers r then _ ← PDCregion_transfer_start_all [id]; mret SUCCEED
      else
        _ ← attach_local_transfer_request (cr_local_obj_id r) id;
        r ← pack_request r;
        let q := cr_req r in
        '(continue, ret_value) ←
          (if decide (tr_region_partition q = PDC_REGION_STATIC) then
             '(r, pieces) ← partition_request r true;
             if decide (pieces = []) then _ ← put_request id r; mret (false, FAIL)
             else
               '(ret, r) ← start_parts (malloc_single (length pieces) r) (seq 0 (length pieces)) SUCCEED;
               _ ← put_request id r; mret (true, ret)
           else if decide (tr_region_partition q = PDC_OBJ_STATIC) then
             let r := malloc_single 1 (with_parts (tr_obj_parts q) (cr_parts r) 1 (cr_output_buf r) r) in
             p ← lift (cr_new_buf r);
             read ← (if decide (access_of r = PDC_READ) then array_set (cr_read_bulk_buf r) 0 p else mret (cr_read_bulk_buf r));
             '(ret, metadata_id) ← PDC_Client_transfer_request p r (cr_data_server_id r) (tr_remote_region_offset q) (tr_remote_region_size q);
             meta ← array_set (cr_metadata_id r) 0 metadata_id;
             _ ← put_request id (with_arrays meta (cr_bulk_buf r) (cr_bulk_buf_ref r) read r);
             mret (true, ret)
           else _ ← put_request id r; mret (true, SUCCEED));
        if (continue : bool) then
          _ ← (if decide (cr_consistency r = PDC_CONSISTENCY_POSIX) then PDCregion_transfer_wait id else mret SUCCEED);
          mret ret_value
        else mret ret_value
    | _ => mret FAIL
    end
  end.

(** ** The status of a request *)

(** The loop over the servers: the result code and the last status, which ends the
    loop when it is not COMPLETE. *)
Fixpoint status_parts (r : client_request) (js : list nat) (ret_value : perr_t) (completed : option pdc_transfer_status_t)
    : M (perr_t * option pdc_transfer_status_t) :=
  match js with
  | [] => mret (ret_value, completed)
  | j :: js =>
    metadata_id ← array_get (cr_metadata_id r) j;
    part ← array_get (Array (tr_obj_parts (cr_req r))) j;
    '(ret_value, status) ← PDC_Client_transfer_request_status metadata_id (op_obj_server part);
    if decide (status = PDC_TRANSFER_STATUS_COMPLETE) then status_parts r js ret_value (Some status)
    else mret (ret_value, Some status)
  end.

Definition not_complete (completed : option pdc_transfer_status_t) : bool :=
  match completed with Some PDC_TRANSFER_STATUS_COMPLETE | None => false | _ => true end.

(** The result code and [completed]; [None] when it is not set. *)
Definition PDCregion_transfer_status (id : Z) : M (perr_t * option pdc_transfer_status_t) :=
  r ← find_request id;
  match r with
  | None => mret (SUCCEED, Some PDC_TRANSFER_STATUS_COMPLETE)
  | Some r =>
    match cr_metadata_id r with
    | Null => mret (SUCCEED, Some PDC_TRANSFER_STATUS_NOT_FOUND)
    | _ =>
      '(ret_value, completed) ←
        (if is_split r then
           '(ret, completed) ← status_parts r (seq 0 (cr_n_obj_servers r)) SUCCEED None;
           if not_complete completed then mret (ret, completed)
           else
             _ ← for_each (seq 0 (cr_n_obj_servers r)) (λ j, r ← get_request id; _ ← gather_entry r j; free_entry id r j);
             r ← get_request id;
             r ← release_region_buffer r; r ← free_parts r; _ ← put_request id r; mret (ret, completed)
         else if decide (tr_region_partition (cr_req r) = PDC_OBJ_STATIC) then
           metadata_id ← array_get (cr_metadata_id r) 0;
           '(ret, status) ← PDC_Client_transfer_request_status metadata_id (cr_data_server_id r);
           if decide (status = PDC_TRANSFER_STATUS_COMPLETE) then
             _ ← copy_unsplit r;
             r ← release_region_buffer r; _ ← put_request id r; mret (ret, Some status)
           else mret (ret, Some status)
         else mret (SUCCEED, None));
      if not_complete completed then mret (ret_value, completed)
      else
        r ← get_request id;
        _ ← finish_transfer id r;
        _ ← remove_local_transfer_request (cr_local_obj_id r) id;
        mret (ret_value, completed)
    end
  end.

(** * Closing an object *)

(** The loop of [PDC_obj_close] that frees the nodes and takes their IDs. *)
Fixpoint take_local_requests (fuel : nat) (temp : option Z) : M (list Z) :=
  match fuel with
  | O => fail
  | S fuel =>
    match temp with
    | None => mret []
    | Some t =>
      '(local_id, next) ← get_node t;
      _ ← set_nodes (delete t);
      ids ← take_local_requests fuel next;
      mret (local_id :: ids)
    end
  end.

(** The requests of an object that is closed are waited for and closed. *)
Definition PDC_obj_close_requests (obj : Z) : M () :=
  o ← get_obj obj;
  if decide (oi_local_request_size o = 0) then mret ()
  else
    nodes ← gets cl_nodes;
    ids ← take_local_requests (S (size nodes)) (oi_local_request_head o);
    if decide (lenZ ids ≤ oi_local_request_size o) then
      _ ← PDCregion_transfer_wait_all ids;
      for_each ids (λ id, _ ← PDCregion_transfer_close id; mret ())
    else fail.
End Client.
