(* ===== verification/ClientMemory.v ===== *)
(** Reasoning about the client's memory: a logic of weakest preconditions for its
    monad, the ownership of its blocks and counters, and the lists of requests of
    its objects. *)

From stdpp Require Import gmap sets list.
From S2P Require Export ClientTransfer.
#[local] Open Scope Z_scope.

(** * Weakest preconditions *)

(** The program returns, with a result and a state that satisfy the postcondition. *)
Definition wp {Srv A} (m : M Srv A) (Q : A → client Srv → Prop) (s : client Srv) : Prop :=
  ∃ x s', m s = Some (x, s') ∧ Q x s'.

Section Wp.
Context {Srv : Type}.
Implicit Types s : client Srv.

Lemma wp_ret {A} (x : A) Q s : Q x s → wp (mret x) Q s.
Proof. intros. by exists x, s. Qed.
Lemma wp_bind {A B} (m : M Srv A) (f : A → M Srv B) Q s : wp m (λ x, wp (f x) Q) s → wp (m ≫= f) Q s.
Proof. intros (x & s' & E & y & s'' & E' & HQ). exists y, s''. split; [|done]. unfold mbind, M_bind. by rewrite E. Qed.
Lemma wp_mono {A} (m : M Srv A) (P Q : A → client Srv → Prop) s : wp m P s → (∀ x s', P x s' → Q x s') → wp m Q s.
Proof. intros (x & s' & E & HP) H. exists x, s'. auto. Qed.
Lemma wp_lift {A} (o : option A) x Q s : o = Some x → Q x s → wp (lift o) Q s.
Proof. intros -> HQ. by exists x, s. Qed.
Lemma wp_gets {A} (f : client Srv → A) Q s : Q (f s) s → wp (gets f) Q s.
Proof. intros. by exists (f s), s. Qed.

(** The states that a step leaves: one lemma per component that is written. *)
Definition with_requests_map f s := Client (f (cl_requests s)) (cl_objs s) (cl_regions s) (cl_heap s) (cl_refs s) (cl_nodes s) (cl_next s) (cl_ids s) (cl_srv s).
Definition with_heap h s := Client (cl_requests s) (cl_objs s) (cl_regions s) h (cl_refs s) (cl_nodes s) (cl_next s) (cl_ids s) (cl_srv s).
Definition with_refs m s := Client (cl_requests s) (cl_objs s) (cl_regions s) (cl_heap s) m (cl_nodes s) (cl_next s) (cl_ids s) (cl_srv s).
Definition with_next n s := Client (cl_requests s) (cl_objs s) (cl_regions s) (cl_heap s) (cl_refs s) (cl_nodes s) n (cl_ids s) (cl_srv s).
Definition with_lists objs nodes s := Client (cl_requests s) objs (cl_regions s) (cl_heap s) (cl_refs s) nodes (cl_next s) (cl_ids s) (cl_srv s).
Definition with_ids ids s := Client (cl_requests s) (cl_objs s) (cl_regions s) (cl_heap s) (cl_refs s) (cl_nodes s) (cl_next s) ids (cl_srv s).
Definition with_srv (srv : Srv) s := Client (cl_requests s) (cl_objs s) (cl_regions s) (cl_heap s) (cl_refs s) (cl_nodes s) (cl_next s) (cl_ids s) srv.

Lemma wp_get_request id r Q s : cl_requests s !! id = Some r → Q r s → wp (get_request id) Q s.
Proof. intros E HQ. exists r, s. split; [|done]. unfold get_request, find_request, mbind, M_bind, gets, lift. cbn. by rewrite E. Qed.
Lemma wp_find_request id Q s : Q (cl_requests s !! id) s → wp (find_request id) Q s.
Proof. intros. by eexists _, _. Qed.
Lemma wp_put_request id r Q s : Q () (with_requests_map <[id := r]> s) → wp (put_request id r) Q s.
Proof. intros. by eexists _, _. Qed.
Lemma wp_get_obj id o Q s : cl_objs s !! id = Some o → Q o s → wp (get_obj id) Q s.
Proof. intros E HQ. exists o, s. split; [|done]. unfold get_obj, mbind, M_bind, gets, lift. cbn. by rewrite E. Qed.
Lemma wp_get_block b d Q s : cl_heap s !! b = Some d → Q d s → wp (get_block b) Q s.
Proof. intros E HQ. exists d, s. split; [|done]. unfold get_block, mbind, M_bind, gets, lift. cbn. by rewrite E. Qed.
Lemma wp_get_ref c n Q s : cl_refs s !! c = Some n → Q n s → wp (get_ref c) Q s.
Proof. intros E HQ. exists n, s. split; [|done]. unfold get_ref, mbind, M_bind, gets, lift. cbn. by rewrite E. Qed.
Lemma wp_get_node t n Q s : cl_nodes s !! t = Some n → Q n s → wp (get_node t) Q s.
Proof. intros E HQ. exists n, s. split; [|done]. unfold get_node, mbind, M_bind, gets, lift. cbn. by rewrite E. Qed.
Lemma wp_alloc_block d Q s :
  Q (cl_next s) (with_heap (<[cl_next s := d]> (cl_heap s)) (with_next (cl_next s + 1) s)) → wp (alloc_block d) Q s.
Proof. intros. by eexists _, _. Qed.
Lemma wp_alloc_ref n Q s :
  Q (cl_next s) (with_refs (<[cl_next s := n]> (cl_refs s)) (with_next (cl_next s + 1) s)) → wp (alloc_ref n) Q s.
Proof. intros. by eexists _, _. Qed.
Lemma wp_alloc_ids Q s : Q (cl_next s) (with_ids ({[cl_next s]} ∪ cl_ids s) (with_next (cl_next s + 1) s)) → wp alloc_ids Q s.
Proof. intros. by eexists _, _. Qed.
Lemma wp_free_ids b Q s : b ∈ cl_ids s → Q () (with_ids (cl_ids s ∖ {[b]}) s) → wp (free_ids b) Q s.
Proof. intros Hb HQ. apply wp_bind, wp_gets. rewrite decide_True by done. by eexists _, _. Qed.
Lemma wp_free_block b Q s : is_Some (cl_heap s !! b) → Q () (with_heap (delete b (cl_heap s)) s) → wp (free_block b) Q s.
Proof. intros [d E] HQ. apply wp_bind, (wp_get_block _ d); [done|]. by eexists _, _. Qed.
Lemma wp_free_ref_cell c Q s : is_Some (cl_refs s !! c) → Q () (with_refs (delete c (cl_refs s)) s) → wp (free_ref_cell c) Q s.
Proof. intros [d E] HQ. apply wp_bind, (wp_get_ref _ d); [done|]. by eexists _, _. Qed.
Lemma wp_set_refs f Q s : Q () (with_refs (f (cl_refs s)) s) → wp (set_refs f) Q s.
Proof. intros. by eexists _, _. Qed.

Lemma wp_bytes_at p d Q s : cl_heap s !! p.1 = Some d → 0 ≤ p.2 ≤ lenZ d → Q (drop (Z.to_nat p.2) d) s → wp (bytes_at p) Q s.
Proof. intros E Hp HQ. apply wp_bind, (wp_get_block _ d); [done|]. rewrite decide_True by done. by apply wp_ret. Qed.
Lemma wp_store_at p b d Q s :
  cl_heap s !! p.1 = Some d → Q () (with_heap (<[p.1 := take (Z.to_nat p.2) d ++ b]> (cl_heap s)) s) → wp (store_at p b) Q s.
Proof. intros E HQ. apply wp_bind, (wp_get_block _ d); [done|]. by eexists _, _. Qed.

Lemma wp_array_get {A} (l : list (option A)) i x Q s : l !! i = Some (Some x) → Q x s → wp (array_get (Array l) i) Q s.
Proof. intros E HQ. apply wp_bind, (wp_lift _ (Some x)); [done|]. by apply (wp_lift _ x). Qed.
Lemma wp_array_set {A} (l : list (option A)) i x Q s :
  (i < length l)%nat → Q (Array (<[i := Some x]> l)) s → wp (array_set (Array l) i x) Q s.
Proof. intros E HQ. unfold array_set. rewrite decide_True by done. by apply wp_ret. Qed.

(** A loop with an invariant over the rest of the list. *)
Lemma wp_for_each {A} (f : A → M Srv ()) (Inv : list A → client Srv → Prop) l s :
  (∀ x l s, Inv (x :: l) s → wp (f x) (λ _, Inv l) s) → Inv l s → wp (for_each l f) (λ _, Inv []) s.
Proof.
  intros Hf. revert s. induction l as [|x l IH]; intros s Hs; [by apply wp_ret|].
  apply wp_bind. eapply wp_mono; [by apply Hf|]. intros [] s' Hs'. by apply IH.
Qed.
Lemma wp_mapM {A B} (f : A → M Srv B) (R : A → B → Prop) (Inv : client Srv → Prop) l s :
  (∀ x s, x ∈ l → Inv s → wp (f x) (λ y s', R x y ∧ Inv s') s) → Inv s → wp (mapM f l) (λ ys s', Forall2 R l ys ∧ Inv s') s.
Proof.
  revert s. induction l as [|x l IH]; intros s Hf Hs; [by apply wp_ret|]. cbn [mapM]. apply wp_bind.
  eapply wp_mono; [apply Hf; [apply elem_of_cons; by left|done]|]. intros y s' [Hy Hs']. apply wp_bind.
  eapply wp_mono; [apply IH; [|done]|]; [intros; apply Hf; [apply elem_of_cons; by right|done]|].
  intros ys s'' [Hys Hs'']. apply wp_ret. split; [by constructor|done].
Qed.
End Wp.

(** * Ownership *)

(** The references to a counter. *)
Definition refs_to (c : Z) (E : list (Z * Z)) : list (Z * Z) := filter (λ e, e.2 = c) E.

(** The client's memory is laid out in the blocks [U] of the user, the private
    blocks [P] of its requests and the bulk buffers, of which [E] has every
    reference with its counter: a counter counts the references to it, and there
    is one counter for each bulk buffer. *)
Record layout (U : gset Z) (P : list Z) (E : list (Z * Z)) (h : heap) (refs : gmap Z Z) (next : Z) : Prop := {
  ly_dom b : is_Some (h !! b) ↔ b ∈ U ∨ b ∈ P ∨ b ∈ E.*1;
  ly_private : NoDup P;
  ly_user b : b ∈ U → (b ∉ P) ∧ (b ∉ E.*1);
  ly_apart b : b ∈ P → b ∉ E.*1;
  ly_count c n : refs !! c = Some n ↔ (0 < n) ∧ n = lenZ (refs_to c E);
  ly_one e e' : e ∈ E → e' ∈ E → (e.1 = e'.1 ↔ e.2 = e'.2);
  ly_next b : b ∈ U ∨ b ∈ P ∨ b ∈ E.*1 ∨ b ∈ E.*2 → b < next }.

#[global] Instance refs_to_proper c : Proper ((≡ₚ) ==> (≡ₚ)) (refs_to c).
Proof. intros E E' H. unfold refs_to. by rewrite H. Qed.
#[global] Instance lenZ_proper {A} : Proper ((≡ₚ) ==> (=)) (@lenZ A).
Proof. intros l l' H. unfold lenZ. by rewrite H. Qed.

Lemma layout_perm U P P' E E' h refs next : P ≡ₚ P' → E ≡ₚ E' → layout U P E h refs next → layout U P' E' h refs next.
Proof.
  intros HP HE [H1 H2 H3 H4 H5 H6 H7]. split.
  - intros b. rewrite H1. by rewrite HP, HE.
  - by rewrite <-HP.
  - intros b. rewrite <-HP, <-HE. apply H3.
  - intros b. rewrite <-HP, <-HE. apply H4.
  - intros c n. rewrite H5. by rewrite HE.
  - intros e e'. rewrite <-HE. apply H6.
  - intros b. rewrite <-HP, <-HE. apply H7.
Qed.

#[global] Instance layout_proper U : Proper ((≡ₚ) ==> (≡ₚ) ==> (=) ==> (=) ==> (=) ==> iff) (layout U).
Proof. intros P P' HP E E' HE h _ <- refs _ <- n _ <-. by split; apply layout_perm. Qed.

Lemma refs_to_cons c b c' E : lenZ (refs_to c ((b, c') :: E)) = (if decide (c' = c) then 1 else 0) + lenZ (refs_to c E).
Proof. unfold refs_to. rewrite filter_cons. cbn. case_decide; [|done]. unfold lenZ. cbn. lia. Qed.
Lemma refs_to_replicate c b c' n E :
  lenZ (refs_to c (replicate n (b, c') ++ E)) = (if decide (c' = c) then Z.of_nat n else 0) + lenZ (refs_to c E).
Proof. induction n as [|n IH]; cbn [replicate app]; [by case_decide|]. rewrite refs_to_cons, IH. case_decide; lia. Qed.
Lemma refs_to_pos c E : (0 < lenZ (refs_to c E)) ↔ c ∈ E.*2.
Proof.
  rewrite list_elem_of_fmap. split.
  - destruct (refs_to c E) as [|e l] eqn:Er; [unfold lenZ; cbn; lia|]. intros _. exists e.
    assert (e ∈ refs_to c E) as He by (rewrite Er; apply elem_of_cons; by left). apply list_elem_of_filter in He as [? ?]. done.
  - intros (e & -> & He). assert (e ∈ refs_to e.2 E) as H by by apply list_elem_of_filter.
    destruct (refs_to e.2 E); [by apply elem_of_nil in H|]. unfold lenZ. cbn. lia.
Qed.

Lemma layout_alloc U P E h refs next d :
  layout U P E h refs next → layout U (next :: P) E (<[next := d]> h) refs (next + 1).
Proof.
  intros [H1 H2 H3 H4 H5 H6 H7]. assert ((next ∉ U) ∧ (next ∉ P) ∧ next ∉ E.*1) as (? & ? & ?).
  { split_and!; intros Hin; specialize (H7 next ltac:(tauto)); lia. }
  split; [| | | |done|done|].
  - intros b. rewrite elem_of_cons. destruct (decide (b = next)) as [->|Hb].
    + rewrite lookup_insert_eq. split; [auto|intros; by eexists].
    + rewrite lookup_insert_ne by done. rewrite H1. intuition.
  - constructor; done.
  - intros b Hb. rewrite elem_of_cons. destruct (H3 b Hb). split; [|done]. intros [->|?]; done.
  - intros b [->|Hb]%elem_of_cons; [done|by apply H4].
  - intros b Hb. destruct (decide (b = next)); [lia|]. rewrite elem_of_cons in Hb.
    assert (b < next); [apply H7; intuition|lia].
Qed.

Lemma layout_free U P E h refs next b :
  layout U (b :: P) E h refs next → is_Some (h !! b) ∧ layout U P E (delete b h) refs next.
Proof.
  intros [H1 H2 H3 H4 H5 H6 H7]. apply list.NoDup_cons in H2 as [Hb H2]. assert (b ∈ b :: P) as Hin by (apply elem_of_cons; by left).
  split; [apply H1; auto|]. split; [|done| | |done|done|].
  - intros b'. destruct (decide (b' = b)) as [->|Hne].
    + rewrite lookup_delete_eq. split; [by intros []|]. intros [HU|[?|HE]]; [by apply H3 in HU as [? _]|done|by apply H4 in Hin].
    + rewrite lookup_delete_ne by done. rewrite H1, elem_of_cons. intuition.
  - intros b' HU. destruct (H3 b' HU) as [Hn ?]. rewrite elem_of_cons in Hn. split; [tauto|done].
  - intros b' Hb'. apply H4, elem_of_cons. by right.
  - intros b' Hb'. apply H7. rewrite elem_of_cons. intuition.
Qed.

(** A bulk buffer [b] with a counter [c] for [n] references. *)
Lemma layout_alloc_shared U P E h refs next d c n :
  layout U P E h refs next → next ≤ c → (0 < n)%nat →
  layout U P (replicate n (next, c) ++ E) (<[next := d]> h) (<[c := Z.of_nat n]> refs) (c + 1).
Proof.
  intros [H1 H2 H3 H4 H5 H6 H7] Hc Hn.
  assert (∀ b, b ∈ U ∨ b ∈ P ∨ b ∈ E.*1 ∨ b ∈ E.*2 → b < next) as Hold by done.
  assert (∀ b, b ∈ (replicate n (next, c) ++ E).*1 ↔ b = next ∨ b ∈ E.*1) as Hd1.
  { intros b. rewrite fmap_app, fmap_replicate, elem_of_app, elem_of_replicate. cbn. intuition lia. }
  assert (∀ b, b ∈ (replicate n (next, c) ++ E).*2 ↔ b = c ∨ b ∈ E.*2) as Hd2.
  { intros b. rewrite fmap_app, fmap_replicate, elem_of_app, elem_of_replicate. cbn. intuition lia. }
  assert (∀ c', lenZ (refs_to c' (replicate n (next, c) ++ E)) = (if decide (c = c') then Z.of_nat n else 0) + lenZ (refs_to c' E)) as Hcnt.
  { intros c'. apply refs_to_replicate. }
  split; [|done| | | | |].
  - intros b. rewrite Hd1. destruct (decide (b = next)) as [->|Hb].
    + rewrite lookup_insert_eq. split; [auto|intros; by eexists].
    + rewrite lookup_insert_ne by done. rewrite H1. intuition.
  - intros b Hb. rewrite Hd1. destruct (H3 b Hb). split; [done|]. intros [->|?]; [|done]. specialize (Hold next). lia || (specialize (Hold ltac:(auto)); lia).
  - intros b Hb. rewrite Hd1. intros [->|Hb']; [|by apply (H4 b)]. specialize (Hold next ltac:(auto)). lia.
  - intros c' k. rewrite Hcnt. destruct (decide (c = c')) as [<-|Hne].
    + rewrite lookup_insert_eq. assert (¬ 0 < lenZ (refs_to c E)) as H0.
      { rewrite refs_to_pos. intros Hin. specialize (Hold c ltac:(auto)). lia. }
      pose proof (lenZ_nonneg (refs_to c E)). split; [intros [= <-]; lia|]. intros [? ->]. f_equal. lia.
    + rewrite lookup_insert_ne by done. rewrite H5. done.
  - intros e e'. rewrite !elem_of_app, !elem_of_replicate.
    assert (∀ e, e ∈ E → e.1 < next ∧ e.2 < next) as HE.
    { intros e0 He0. split; apply Hold; [do 2 right; left|do 3 right]; by apply list_elem_of_fmap_2. }
    intros [[-> _]|He] [[-> _]|He']; cbn; [done| | |by apply H6].
    + specialize (HE _ He'). lia.
    + specialize (HE _ He). lia.
  - intros b Hb. rewrite Hd1, Hd2 in Hb. destruct (decide (b = c)); [lia|]. assert (b = next ∨ b < next) as [|]; [|lia..].
    destruct Hb as [?|[?|[[?|?]|[?|?]]]]; auto; try (right; apply Hold; tauto).
Qed.

(** Dropping a reference: the last one frees the counter and its buffer. *)
Lemma layout_release U P E h refs next b c :
  layout U P ((b, c) :: E) h refs next →
  ∃ n, refs !! c = Some n ∧ is_Some (h !! b) ∧
    (n - 1 = 0 → layout U P E (delete b h) (delete c refs) next) ∧ (n - 1 ≠ 0 → layout U P E h (<[c := n - 1]> refs) next).
Proof.
  intros [H1 H2 H3 H4 H5 H6 H7]. pose proof (refs_to_cons c b c E) as Hcnt. rewrite decide_True in Hcnt by done.
  pose proof (lenZ_nonneg (refs_to c E)) as Hpos. assert ((b, c) ∈ (b, c) :: E) as Hin by (apply elem_of_cons; by left).
  assert (∀ x, x ∈ (b, c) :: E ↔ x = (b, c) ∨ x ∈ E) as Hel by (intros; apply elem_of_cons).
  assert (∀ b', b' ∈ ((b, c) :: E).*1 ↔ b' = b ∨ b' ∈ E.*1) as He1 by (intros; cbn; apply elem_of_cons).
  assert (∀ c', c' ∈ ((b, c) :: E).*2 ↔ c' = c ∨ c' ∈ E.*2) as He2 by (intros; cbn; apply elem_of_cons).
  setoid_rewrite He1 in H1. setoid_rewrite He1 in H3. setoid_rewrite He1 in H4. setoid_rewrite He1 in H7. setoid_rewrite He2 in H7.
  assert (∀ b', b' = b ∧ b' ∈ E.*1 → 0 < lenZ (refs_to c E)) as Hshare.
  { intros b' [-> ([b0 c0] & Hb0 & Hx)%list_elem_of_fmap]. cbn in Hb0. subst b0. apply refs_to_pos. rewrite list_elem_of_fmap.
    exists (b, c0). split; [|done]. cbn. apply (H6 (b, c) (b, c0)); [done|by apply Hel; right|done]. }
  exists (lenZ (refs_to c ((b, c) :: E))). split; [apply H5; lia|]. split; [apply H1; auto|]. split.
  - intros Hlast. assert (b ∉ E.*1) as HbE. { intros ?. specialize (Hshare b ltac:(done)). lia. }
    split; [|done|intros b' HU; destruct (H3 b' HU); tauto|intros b' HP; specialize (H4 b' HP); tauto| | |].
    + intros b'. destruct (decide (b' = b)) as [->|Hne].
      * rewrite lookup_delete_eq. split; [by intros []|]. intros [HU|[HP|HE]]; [destruct (H3 b HU); tauto|specialize (H4 b HP); tauto|done].
      * rewrite lookup_delete_ne by done. rewrite H1. tauto.
    + intros c' k. destruct (decide (c' = c)) as [->|Hne].
      * rewrite lookup_delete_eq. split; [done|]. intros []. lia.
      * rewrite lookup_delete_ne by done. rewrite H5, refs_to_cons. rewrite decide_False by done. done.
    + intros e e' He He'. apply H6; apply Hel; auto.
    + intros b' Hb'. apply H7. tauto.
  - intros Hmore. assert (∃ e, e ∈ E ∧ e.2 = c) as ([b0 c0] & He0 & Hc0).
    { assert (c ∈ E.*2) as (e & -> & He)%list_elem_of_fmap by (apply refs_to_pos; lia). by exists e. }
    cbn in Hc0. subst c0. assert (b0 = b) as -> by (apply (H6 (b0, c) (b, c)); [by apply Hel; right|done|done]).
    assert (b ∈ E.*1) as HbE by (change b with (b, c).1; by apply list_elem_of_fmap_2).
    split; [|done|intros b' HU; destruct (H3 b' HU); tauto|intros b' HP; specialize (H4 b' HP); tauto| | |].
    + intros b'. rewrite H1. intuition congruence.
    + intros c' k. destruct (decide (c' = c)) as [->|Hne].
      * rewrite lookup_insert_eq. split; [intros [= <-]; lia|]. intros [? ->]. f_equal. lia.
      * rewrite lookup_insert_ne by done. rewrite H5, refs_to_cons. rewrite decide_False by done. done.
    + intros e e' He He'. apply H6; apply Hel; auto.
    + intros b' Hb'. apply H7. tauto.
Qed.

(** A write into a block leaves the layout as it is. *)
Lemma layout_same_blocks U P E h h' refs next :
  (∀ b, is_Some (h' !! b) ↔ is_Some (h !! b)) → layout U P E h refs next → layout U P E h' refs next.
Proof. intros Hd [H1 H2 H3 H4 H5 H6 H7]. split; [|done..]. intros b. by rewrite Hd. Qed.

(** * What the requests own *)

(** The entry of an array, where it is set. *)
Definition array_at {A} (a : array A) (k : nat) : option A := match a with Array l => mjoin (l !! k) | _ => None end.
Lemma array_at_Some {A} (l : list (option A)) k x : array_at (Array l) k = Some x ↔ l !! k = Some (Some x).
Proof. cbn. destruct (l !! k) as [[]|]; naive_solver. Qed.
Lemma wp_array_at {Srv A} (a : array A) k x Q (s : client Srv) : array_at a k = Some x → Q x s → wp (array_get a k) Q s.
Proof. destruct a as [|l|]; [done| |done]. intros E%array_at_Some. by apply wp_array_get. Qed.
Definition array_len {A} (a : array A) : option nat := match a with Array l => Some (length l) | _ => None end.

Definition part_at (r : client_request) (k : nat) : option obj_part := mjoin (tr_obj_parts (cr_req r) !! k).

(** The entries of [bulk_buf] with the counter of each. *)
Definition bulk_refs (r : client_request) : list (Z * Z) :=
  omap (λ k, b ← array_at (cr_bulk_buf r) k; c ← array_at (cr_bulk_buf_ref r) k; Some (b, c)) (seq 0 (cr_n_obj_servers r)).
(** The blocks in [output_buf] that were not freed. *)
Definition output_blocks (r : client_request) : list Z :=
  omap (λ k, _ ← part_at r k; array_at (cr_output_buf r) k) (seq 0 (cr_n_obj_servers r)).
Definition new_buf_blocks (r : client_request) : list Z :=
  if decide (1 < cr_local_ndim r)%nat then match cr_new_buf r with Some p => [p.1] | None => [] end else [].

(** A request owns memory while it is started: its [metadata_id] is not NULL. *)
Definition started (r : client_request) : bool := match cr_metadata_id r with Null => false | _ => true end.
Definition private_blocks (r : client_request) : list Z := if started r then new_buf_blocks r ++ output_blocks r else [].
Definition shared_refs (r : client_request) : list (Z * Z) := if started r then bulk_refs r else [].

(** All the [f]s of the requests. *)
Definition gather {A} (f : client_request → list A) (R : gmap Z client_request) : list A := map_to_list R ≫= (f ∘ snd).

Lemma gather_insert {A} (f : client_request → list A) R id r : gather f (<[id := r]> R) ≡ₚ f r ++ gather f (delete id R).
Proof.
  unfold gather. rewrite <-insert_delete_eq. rewrite map_to_list_insert by apply lookup_delete_eq. done.
Qed.
Lemma gather_lookup {A} (f : client_request → list A) R id r : R !! id = Some r → gather f R ≡ₚ f r ++ gather f (delete id R).
Proof. intros E. rewrite <-(insert_id R id r E) at 1. apply gather_insert. Qed.
Lemma gather_elem {A} (f : client_request → list A) R x : x ∈ gather f R ↔ ∃ id r, R !! id = Some r ∧ x ∈ f r.
Proof.
  unfold gather. rewrite list_elem_of_bind. split.
  - intros ([id r] & Hx & Hr%elem_of_map_to_list). by exists id, r.
  - intros (id & r & Hr%elem_of_map_to_list & Hx). by exists (id, r).
Qed.

(** * The lists of requests of the objects *)

(** The nodes from [head] to [tail] are those of [l], each with its ID. *)
Fixpoint chain (nodes : gmap Z (Z * option Z)) (head : option Z) (l : list (Z * Z)) (tail : option Z) : Prop :=
  match l with
  | [] => head = tail
  | (t, id) :: l => head = Some t ∧ ∃ next, nodes !! t = Some (id, next) ∧ chain nodes next l tail
  end.

Lemma chain_frame nodes nodes' head l tail :
  (∀ t, t ∈ l.*1 → nodes' !! t = nodes !! t) → chain nodes head l tail → chain nodes' head l tail.
Proof.
  revert head. induction l as [|[t id] l IH]; intros head Hn; [done|]. intros (-> & next & Ht & Hl). split; [done|]. exists next. split.
  - rewrite Hn; [done|]. cbn. apply elem_of_cons. by left.
  - apply IH; [|done]. intros t' ?. apply Hn. cbn. apply elem_of_cons. by right.
Qed.

Lemma chain_app nodes head l1 l2 tail : chain nodes head (l1 ++ l2) tail ↔ ∃ mid, chain nodes head l1 mid ∧ chain nodes mid l2 tail.
Proof.
  revert head. induction l1 as [|[t id] l1 IH]; intros head; cbn [app chain].
  - split; [intros; by exists head|]. by intros (? & -> & ?).
  - setoid_rewrite IH. split.
    + intros (-> & next & Ht & mid & H1 & H2). exists mid. split; [|done]. split; [done|]. by exists next.
    + intros (mid & (-> & next & Ht & H1) & H2). split; [done|]. exists next. split; [done|]. by exists mid.
Qed.

Lemma chain_head nodes head l tail : chain nodes head l tail → head = match l with [] => tail | x :: _ => Some x.1 end.
Proof. destruct l as [|[t id] l]; [done|]. by intros (-> & _). Qed.

(** The last node of a list gets another next node. *)
Lemma chain_relink nodes head l p pid tail tail' :
  NoDup (l ++ [(p, pid)]).*1 → chain nodes head (l ++ [(p, pid)]) tail →
  nodes !! p = Some (pid, tail) ∧ chain (<[p := (pid, tail')]> nodes) head (l ++ [(p, pid)]) tail'.
Proof.
  rewrite fmap_app. intros (_ & Hp & _)%list.NoDup_app (mid & H1 & -> & next & Hn & <-)%chain_app. split; [done|]. apply chain_app.
  exists (Some p). split; [|split; [done|]; exists tail'; by rewrite lookup_insert_eq].
  eapply chain_frame; [|done]. intros t Ht. apply lookup_insert_ne. intros <-. apply (Hp p Ht). cbn. by apply list_elem_of_singleton.
Qed.

Lemma chain_dom nodes head l tail t : chain nodes head l tail → t ∈ l.*1 → is_Some (nodes !! t).
Proof.
  revert head. induction l as [|[t' id] l IH]; intros head; [by intros _ ?%elem_of_nil|]. cbn.
  intros (-> & next & Ht & Hl) [->|?]%elem_of_cons; [by eexists|by eapply IH].
Qed.
Lemma chain_length nodes head l tail : chain nodes head l tail → NoDup l.*1 → (length l ≤ size nodes)%nat.
Proof.
  intros Hc Hnd. rewrite <-(length_fmap fst l), <-(size_dom (D := gset Z)), <-(size_list_to_set (C := gset Z)) by done.
  apply subseteq_size. intros t Ht%elem_of_list_to_set. apply elem_of_dom. by eapply chain_dom.
Qed.

(** The first node with the ID goes. *)
Definition without (id : Z) : list (Z * Z) → list (Z * Z) :=
  fix without l := match l with [] => [] | x :: l => if decide (x.2 = id) then l else x :: without l end.

Lemma without_sublist id l : sublist (without id l) l.
Proof. induction l as [|x l IH]; cbn; [done|]. case_decide; [by apply sublist_cons|by apply sublist_skip]. Qed.

(** The object [o] with another list. *)
Definition relisted (o o' : obj_info) : Prop := ∃ h e n, o' = set_local_requests o h e n.

Section Lists.
Context {Srv : Type}.
Implicit Types s : client Srv.

Lemma attach_spec s obj id o l :
  cl_objs s !! obj = Some o → chain (cl_nodes s) (oi_local_request_head o) l None → NoDup l.*1 →
  (∀ t, t ∈ l.*1 → t < cl_next s) → (l ≠ [] → oi_local_request_end o = fst <$> list.last l) →
  wp (attach_local_transfer_request obj id) (λ _ s', ∃ o' nodes',
    s' = with_lists (<[obj := o']> (cl_objs s)) nodes' (with_next (cl_next s + 1) s) ∧ relisted o o' ∧
    oi_local_request_end o' = Some (cl_next s) ∧ oi_local_request_size o' = oi_local_request_size o + 1 ∧
    chain nodes' (oi_local_request_head o') (l ++ [(cl_next s, id)]) None ∧
    ∀ t, t ∉ l.*1 → t ≠ cl_next s → nodes' !! t = cl_nodes s !! t) s.
Proof.
  intros Ho Hc Hnd Hlt Hend. apply wp_bind, (wp_get_obj _ o); [done|]. apply wp_bind. eexists _, _. split; [done|]. set (n := cl_next s) in *.
  assert (n ∉ l.*1) as Hn by (intros Hin; specialize (Hlt _ Hin); lia).
  destruct l as [|x l' _] using rev_ind.
  - cbn in Hc. rewrite Hc. apply wp_bind, wp_ret, wp_bind. eexists _, _. split; [done|]. eexists _, _. split; [done|]. cbn.
    eexists _, _. split; [done|]. split; [by eexists _, _, _|]. split; [done|]. split; [done|]. split.
    + split; [done|]. exists None. by rewrite lookup_insert_eq.
    + intros t _ Ht. by rewrite lookup_insert_ne.
  - destruct x as [e eid]. destruct (chain_relink _ _ _ _ _ _ (Some n) Hnd Hc) as [He Hc'].
    assert (oi_local_request_head o ≠ None) as Hhead. { rewrite (chain_head _ _ _ _ Hc). by destruct l'. }
    destruct (oi_local_request_head o) as [h|] eqn:Eh; [|done]. rewrite Hend, last_snoc by by destruct l'. cbn [fmap option_fmap option_map fst].
    apply wp_bind, wp_bind, (wp_lift _ e); [done|]. apply wp_bind, (wp_get_node _ (eid, None)); [done|]. eexists _, _. split; [done|].
    apply wp_bind. eexists _, _. split; [done|]. eexists _, _. split; [done|]. cbn. eexists _, _. split; [done|].
    split; [by eexists _, _, _|]. split; [done|]. split; [done|]. split.
    + apply chain_app. exists (Some n). split; [|split; [done|]; exists None; by rewrite lookup_insert_eq].
      eapply chain_frame; [|exact Hc']. intros t Ht. apply lookup_insert_ne. by intros <-.
    + intros t Ht Htn. rewrite lookup_insert_ne by done. apply lookup_insert_ne. intros <-. apply Ht. rewrite fmap_app, elem_of_app. right. by apply list_elem_of_singleton.
Qed.

Lemma remove_loop_spec fuel s obj id o pre l :
  cl_objs s !! obj = Some o → chain (cl_nodes s) (oi_local_request_head o) (pre ++ l) None → NoDup (pre ++ l).*1 → id ∉ pre.*2 →
  (length l < fuel)%nat →
  wp (remove_loop fuel obj id (fst <$> list.last pre) (fst <$> head l)) (λ _ s', ∃ o' nodes',
    s' = with_lists (<[obj := o']> (cl_objs s)) nodes' s ∧ relisted o o' ∧ oi_local_request_end o' = oi_local_request_end o ∧
    chain nodes' (oi_local_request_head o') (pre ++ without id l) None ∧
    ∀ t, t ∉ (pre ++ l).*1 → nodes' !! t = cl_nodes s !! t) s.
Proof.
  revert fuel pre. induction l as [|[t tid] l IH]; intros [|fuel] pre Ho Hc Hnd Hid Hf; cbn [length] in Hf; [lia|..|lia|].
  - apply wp_ret. exists o, (cl_nodes s). split; [destruct s; unfold with_lists; cbn in *; by rewrite insert_id|].
    split; [destruct o; by eexists _, _, _|]. split; [done|]. split; [exact Hc|done].
  - cbn [head fmap option_fmap option_map fst remove_loop].
    pose proof Hc as (mid & H1 & -> & next & Ht & H2)%chain_app. apply wp_bind, (wp_get_node _ (tid, next)); [done|].
    pose proof Hnd as Hnd'. rewrite fmap_app in Hnd'. apply list.NoDup_app in Hnd' as (Hn1 & Hn2 & Hn3%list.NoDup_cons). cbn [fmap list_fmap fst] in Hn2, Hn3.
    unfold without. cbn [snd]. case_decide as Hdec.
    + apply wp_bind, (wp_get_obj _ o); [done|]. destruct pre as [|[p pid] pre _] using rev_ind.
      * cbn. apply wp_bind. eexists _, _. split; [done|]. eexists _, _. split; [done|]. eexists _, _. split; [done|].
        split; [by eexists _, _, _|]. split; [done|]. split.
        -- cbn. eapply chain_frame; [|done]. intros t' Ht'. apply lookup_delete_ne. intros <-. by apply Hn3.
        -- intros t' Ht'. apply lookup_delete_ne. intros <-. apply Ht'. cbn. apply elem_of_cons. by left.
      * rewrite last_snoc. cbn [fmap option_fmap option_map fst]. destruct (chain_relink _ _ _ _ _ _ next Hn1 H1) as [Hp Hc'].
        apply wp_bind, wp_bind, (wp_get_node _ (pid, Some t)); [done|]. apply wp_bind. eexists _, _. split; [done|].
        eexists _, _. split; [done|]. eexists _, _. split; [done|]. eexists _, _. split; [done|].
        split; [by eexists _, _, _|]. split; [done|]. cbn. split.
        -- assert (p ∈ (pre ++ [(p, pid)]).*1) as Hpin by (rewrite fmap_app, elem_of_app; right; by apply list_elem_of_singleton).
           apply chain_app. exists next. split.
           ++ eapply chain_frame; [|exact Hc']. intros t' Ht'. apply lookup_delete_ne. intros <-. apply (Hn2 t Ht'). apply elem_of_cons. by left.
           ++ eapply chain_frame; [|exact H2]. intros t' Ht'. rewrite lookup_delete_ne by (intros <-; by apply Hn3).
              apply lookup_insert_ne. intros <-. apply (Hn2 p Hpin). apply elem_of_cons. by right.
        -- intros t' Ht'. rewrite !fmap_app, !elem_of_app in Ht'. cbn in Ht'. rewrite lookup_delete_ne, lookup_insert_ne; [done| |];
             intros <-; apply Ht'; [left; right; by apply list_elem_of_singleton|right; apply elem_of_cons; by left].
    + replace (Some t) with (fst <$> list.last (pre ++ [(t, tid)])) by by rewrite last_snoc.
      rewrite (chain_head _ _ _ _ H2). replace (match l with [] => None | x :: _ => Some x.1 end) with (fst <$> head l) by by destruct l.
      eapply wp_mono; [apply (IH fuel (pre ++ [(t, tid)]) Ho)|]; [by rewrite <-app_assoc|by rewrite <-app_assoc| |lia|].
      * rewrite fmap_app, elem_of_app. intros [?|Hx]; [done|]. by apply list_elem_of_singleton in Hx.
      * intros [] s' Hs'. by rewrite <-!app_assoc in Hs'.
Qed.

Lemma remove_spec s obj id o l :
  cl_objs s !! obj = Some o → chain (cl_nodes s) (oi_local_request_head o) l None → NoDup l.*1 →
  wp (remove_local_transfer_request obj id) (λ _ s', ∃ o' nodes',
    s' = with_lists (<[obj := o']> (cl_objs s)) nodes' s ∧ relisted o o' ∧ oi_local_request_end o' = oi_local_request_end o ∧
    chain nodes' (oi_local_request_head o') (without id l) None ∧ ∀ t, t ∉ l.*1 → nodes' !! t = cl_nodes s !! t) s.
Proof.
  intros Ho Hc Hnd. apply wp_bind, (wp_get_obj _ o); [done|]. apply wp_bind, wp_gets.
  rewrite (chain_head _ _ _ _ Hc). replace (match l with [] => None | x :: _ => Some x.1 end) with (fst <$> head l) by by destruct l.
  apply (remove_loop_spec _ s obj id o [] l Ho Hc Hnd); [by intros ?%elem_of_nil|]. unfold lt. apply le_n_S.
  by eapply chain_length.
Qed.
End Lists.
