(* ===== verification/ClientFrame.v ===== *)
(** What the operations on transfers leave alone: the arrays of IDs ([cl_ids]), which only
    the start of a batch allocates and frees, and the addresses that were used. *)

From stdpp Require Import gmap sets list.
From S2P Require Export ClientMemory.
#[local] Open Scope Z_scope.

Definition grows {Srv} (s s' : client Srv) : Prop := cl_ids s' = cl_ids s ∧ cl_next s ≤ cl_next s'.
(** Whatever it does, the operation leaves the arrays of IDs. *)
Definition Keeps {Srv A} (m : M Srv A) : Prop := ∀ s x s', m s = Some (x, s') → grows s s'.

Create HintDb keeps.

Section frame.
Context {Srv : Type}.
Implicit Types s : client Srv.

Lemma grows_trans s s' s'' : grows s s' → grows s' s'' → grows s s''.
Proof. intros [E H] [E' H']. split; [congruence|lia]. Qed.
Lemma wp_keeps {A} (m : M Srv A) Q s : Keeps m → wp m Q s → wp m (λ x s', Q x s' ∧ grows s s') s.
Proof. intros Hm (x & s' & E & HQ). exists x, s'. split; [done|]. split; [done|]. by eapply Hm. Qed.

Lemma keeps_ret {A} (x : A) : Keeps (mret (M := M Srv) x).
Proof. intros s y s' [= _ <-]. split; [done|lia]. Qed.
Lemma keeps_bind {A B} (m : M Srv A) (f : A → M Srv B) : Keeps m → (∀ x, Keeps (f x)) → Keeps (m ≫= f).
Proof. intros Hm Hf s y s'. unfold mbind, M_bind. destruct (m s) as [[x s1]|] eqn:E; cbn; [|done]. intros E'. eapply grows_trans; [by eapply Hm|by eapply Hf]. Qed.
Lemma keeps_fail {A} : Keeps (fail (Srv := Srv) (A := A)).
Proof. by intros s x s'. Qed.
Lemma keeps_lift {A} (o : option A) : Keeps (lift (Srv := Srv) o).
Proof. intros s x s'. unfold lift. destruct o; cbn; [|done]. intros [= _ <-]. split; [done|lia]. Qed.
Lemma keeps_gets {A} (f : client Srv → A) : Keeps (gets f).
Proof. intros s x s' [= _ <-]. split; [done|lia]. Qed.
Lemma keeps_fresh : Keeps (fresh (Srv := Srv)).
Proof. intros s x s' [= _ <-]. split; cbn; [done|lia]. Qed.
Lemma keeps_set_requests f : Keeps (set_requests (Srv := Srv) f).
Proof. intros s x s' [= _ <-]. split; [done|cbn; lia]. Qed.
Lemma keeps_set_objs f : Keeps (set_objs (Srv := Srv) f).
Proof. intros s x s' [= _ <-]. split; [done|cbn; lia]. Qed.
Lemma keeps_set_regions f : Keeps (set_regions (Srv := Srv) f).
Proof. intros s x s' [= _ <-]. split; [done|cbn; lia]. Qed.
Lemma keeps_set_heap f : Keeps (set_heap (Srv := Srv) f).
Proof. intros s x s' [= _ <-]. split; [done|cbn; lia]. Qed.
Lemma keeps_set_refs f : Keeps (set_refs (Srv := Srv) f).
Proof. intros s x s' [= _ <-]. split; [done|cbn; lia]. Qed.
Lemma keeps_set_nodes f : Keeps (set_nodes (Srv := Srv) f).
Proof. intros s x s' [= _ <-]. split; [done|cbn; lia]. Qed.
Lemma keeps_set_srv srv : Keeps (set_srv (Srv := Srv) srv).
Proof. intros s x s' [= _ <-]. split; [done|cbn; lia]. Qed.
Lemma keeps_for_each {A} (l : list A) (f : A → M Srv ()) : (∀ x, Keeps (f x)) → Keeps (for_each l f).
Proof. intros Hf. induction l as [|x l IH]; [apply keeps_ret|]. apply keeps_bind; auto. Qed.
Lemma keeps_mapM {A B} (f : A → M Srv B) (l : list A) : (∀ x, Keeps (f x)) → Keeps (mapM f l).
Proof.
  intros Hf. induction l as [|x l IH]; [apply keeps_ret|]. cbn [mapM]. apply keeps_bind; [done|]. intros y. apply keeps_bind; [done|]. intros k. apply keeps_ret.
Qed.
End frame.

#[export] Hint Resolve keeps_ret keeps_fail keeps_lift keeps_gets keeps_fresh keeps_set_requests keeps_set_objs keeps_set_regions keeps_set_heap keeps_set_refs
  keeps_set_nodes keeps_set_srv : keeps.
(** Along the structure of the program. *)
Ltac keep :=
  repeat match goal with
  | |- Keeps (_ ≫= _) => apply keeps_bind
  | |- Keeps (for_each _ _) => apply keeps_for_each
  | |- Keeps (mapM _ _) => apply keeps_mapM
  | |- ∀ _, _ => intros ?
  | |- Keeps (match ?x with _ => _ end) => destruct x
  | |- Keeps _ => solve [auto with keeps]
  end.

Section operations.
Context {Srv : Type} `{DataServers Srv} (junk : byte) (pdc_server_num_g : Z).
Context (qsort_data_server qsort_metadata_server : list start_all_pkg → list start_all_pkg) (qsort_wait_all : list wait_all_pkg → list wait_all_pkg).
#[local] Abbreviation Keeps := (Keeps (Srv := Srv)).

(** ** Memory *)

Lemma keeps_find_request id : Keeps (find_request id).
Proof. unfold find_request. keep. Qed.
Lemma keeps_get_block b : Keeps (get_block b).
Proof. unfold get_block. keep. Qed.
#[local] Hint Resolve keeps_find_request keeps_get_block : keeps.
Lemma keeps_get_request id : Keeps (get_request id).
Proof. unfold get_request. keep. Qed.
Lemma keeps_put_request id r : Keeps (put_request id r).
Proof. unfold put_request. keep. Qed.
Lemma keeps_get_obj id : Keeps (get_obj id).
Proof. unfold get_obj. keep. Qed.
Lemma keeps_alloc_block d : Keeps (alloc_block d).
Proof. unfold alloc_block. keep. Qed.
Lemma keeps_alloc_ref n : Keeps (alloc_ref n).
Proof. unfold alloc_ref. keep. Qed.
Lemma keeps_free_block b : Keeps (free_block b).
Proof. unfold free_block. keep. Qed.
Lemma keeps_get_ref b : Keeps (get_ref b).
Proof. unfold get_ref. keep. Qed.
#[local] Hint Resolve keeps_get_ref : keeps.
Lemma keeps_free_ref_cell b : Keeps (free_ref_cell b).
Proof. unfold free_ref_cell. keep. Qed.
Lemma keeps_get_node b : Keeps (get_node b).
Proof. unfold get_node. keep. Qed.
Lemma keeps_bytes_at p : Keeps (bytes_at p).
Proof. unfold bytes_at. keep. Qed.
Lemma keeps_store_at p b : Keeps (store_at p b).
Proof. unfold store_at. keep. Qed.
#[local] Hint Resolve keeps_bytes_at keeps_store_at : keeps.
Lemma keeps_heap_memcpy dst src n : Keeps (heap_memcpy dst src n).
Proof. unfold heap_memcpy. keep. Qed.
Lemma keeps_array_get {A} (a : array A) i : Keeps (array_get a i).
Proof. unfold array_get. keep. Qed.
Lemma keeps_array_set {A} (a : array A) i x : Keeps (array_set a i x).
Proof. unfold array_set. keep. Qed.
Lemma keeps_free_array {A} (a : array A) : Keeps (free_array a).
Proof. unfold free_array. keep. Qed.
#[local] Hint Resolve keeps_get_request keeps_put_request keeps_get_obj keeps_alloc_block keeps_alloc_ref keeps_free_block keeps_free_ref_cell keeps_get_node
  keeps_heap_memcpy keeps_array_get keeps_array_set keeps_free_array : keeps.

(** ** The list of an object *)

Lemma keeps_attach obj id : Keeps (attach_local_transfer_request obj id).
Proof. unfold attach_local_transfer_request. keep. Qed.
Lemma keeps_remove_loop fuel obj id : ∀ previous temp, Keeps (remove_loop fuel obj id previous temp).
Proof. induction fuel as [|fuel IH]; intros previous temp; cbn [remove_loop]; keep. Qed.
#[local] Hint Resolve keeps_attach keeps_remove_loop : keeps.
Lemma keeps_remove obj id : Keeps (remove_local_transfer_request obj id).
Proof. unfold remove_local_transfer_request. keep. Qed.
#[local] Hint Resolve keeps_remove : keeps.

(** ** Starting *)

Lemma keeps_pack_request r : Keeps (pack_request junk r).
Proof. unfold pack_request. keep. Qed.
Lemma keeps_partition_request r b : Keeps (partition_request pdc_server_num_g r b).
Proof. unfold partition_request. keep. Qed.
#[local] Hint Resolve keeps_pack_request keeps_partition_request : keeps.
Lemma keeps_prepare_request id r b : Keeps (prepare_request junk pdc_server_num_g id r b).
Proof. unfold prepare_request. keep. Qed.
#[local] Hint Resolve keeps_prepare_request : keeps.
Lemma keeps_prepare_loop ids : ∀ b set_output_buf, Keeps (prepare_loop junk pdc_server_num_g ids b set_output_buf).
Proof. induction ids as [|id ids IH]; intros b sob; cbn [prepare_loop]; keep. Qed.
Lemma keeps_with_requests pkgs : Keeps (with_requests pkgs).
Proof. unfold with_requests. keep. Qed.
#[local] Hint Resolve keeps_prepare_loop keeps_with_requests : keeps.
Lemma keeps_query_group w g : Keeps (query_group junk w g).
Proof. unfold query_group. keep. Qed.
#[local] Hint Resolve keeps_query_group : keeps.
Lemma keeps_query_groups w gs : Keeps (query_groups junk w gs).
Proof. induction gs as [|g gs IH]; cbn [query_groups]; keep. Qed.
#[local] Hint Resolve keeps_query_groups : keeps.
Lemma keeps_register_and_sort pkgs w : Keeps (register_and_sort junk qsort_data_server qsort_metadata_server pkgs w).
Proof. unfold register_and_sort, register_metadata. keep. Qed.
#[local] Hint Resolve keeps_register_and_sort : keeps.
Lemma keeps_prepare_batch ids : Keeps (prepare_batch junk pdc_server_num_g qsort_data_server qsort_metadata_server ids).
Proof. unfold prepare_batch. keep. Qed.
Lemma keeps_set_entry b c p q m : Keeps (set_entry b c p q m).
Proof. unfold set_entry. keep. Qed.
#[local] Hint Resolve keeps_set_entry : keeps.
Lemma keeps_set_entries b c pkgs : ∀ pos ids, Keeps (set_entries b c pkgs pos ids).
Proof. induction pkgs as [|p pkgs IH]; intros pos ids; cbn [set_entries]; keep. Qed.
#[local] Hint Resolve keeps_set_entries : keeps.
Lemma keeps_start_all_requests pkgs : Keeps (PDC_Client_start_all_requests junk pkgs).
Proof. unfold PDC_Client_start_all_requests, start_group, PDC_Client_transfer_request_all. keep. Qed.

(** ** Waiting *)

Lemma keeps_gather_entry r j : Keeps (gather_entry r j).
Proof. unfold gather_entry. keep. Qed.
Lemma keeps_free_entry id r j : Keeps (free_entry id r j).
Proof. unfold free_entry. keep. Qed.
Lemma keeps_release_bulk a b k : Keeps (release_bulk a b k).
Proof. unfold release_bulk. keep. Qed.
Lemma keeps_release_copy_back r : Keeps (release_copy_back r).
Proof. unfold release_copy_back. keep. Qed.
#[local] Hint Resolve keeps_gather_entry keeps_free_entry keeps_release_bulk keeps_release_copy_back : keeps.
Lemma keeps_release_region_buffer r : Keeps (release_region_buffer r).
Proof. unfold release_region_buffer. keep. Qed.
Lemma keeps_copy_merged merged ids : ∀ off, Keeps (copy_merged junk merged ids off).
Proof. induction ids as [|id ids IH]; intros off; cbn [copy_merged]; keep. Qed.
#[local] Hint Resolve keeps_release_region_buffer keeps_copy_merged : keeps.
Lemma keeps_release_request id list_id : Keeps (release_request id list_id).
Proof. unfold release_request, copy_unsplit, free_parts, finish_transfer. keep. Qed.
#[local] Hint Resolve keeps_release_request : keeps.
Lemma keeps_collect_request id : Keeps (collect_request id).
Proof. unfold collect_request, request_wait_pkg. keep. Qed.
Lemma keeps_wait_group pkgs : Keeps (wait_group pkgs).
Proof. unfold wait_group, wait_pkg_done, PDC_Client_transfer_request_wait_all. keep. Qed.
#[local] Hint Resolve keeps_collect_request keeps_wait_group : keeps.
Lemma keeps_wait_all ids : Keeps (PDCregion_transfer_wait_all junk qsort_wait_all ids).
Proof. unfold PDCregion_transfer_wait_all. keep. Qed.
End operations.
