(* ===== verification/ClientTransferSpec.v ===== *)
(** The memory of the client over the life of its transfers: a batch that is
    started gets its private buffers and its share of the bulk buffers, and
    waiting for it gives all of them back, each exactly once. *)

From stdpp Require Import gmap sets list.
From S2P Require Export ClientMemory.
#[local] Open Scope Z_scope.

(** * Well-formed requests *)

(** A part of the remote region of the request. *)
Definition part_ok (q : pdc_transfer_request) (part : obj_part) : Prop :=
  wf_region (tr_remote_region_ndim q) (op_output_offset part) (op_output_size part) ∧
  op_sub_offset part = psub (op_output_offset part) (tr_remote_region_offset q) ∧
  ∀ p, in_region (op_output_offset part) (op_output_size part) p → in_region (tr_remote_region_offset q) (tr_remote_region_size q) p.

(** The bytes that the server of entry [k] transfers. *)
Definition entry_bytes (r : client_request) (k : nat) : Z :=
  if is_split r then match part_at r k with Some part => vol (op_output_size part) * tr_unit (cr_req r) | None => 0 end
  else cr_total_data_size r.

Section Requests.
Context (pdc_server_num_g : Z) (U : gset Z).

(** What [PDCregion_transfer_create] sets up, for a region of at most three
    dimensions that lies in the object and in the user's buffer; [S] has the sizes
    of the blocks. *)
Record request_wf (S : gmap Z Z) (r : client_request) : Prop := {
  rw_access : access_of r = PDC_READ ∨ access_of r = PDC_WRITE;
  rw_partition : tr_region_partition (cr_req r) = PDC_OBJ_STATIC ∨ is_split r = true;
  rw_user : cr_buf r ∈ U;
  rw_local : ∃ n, S !! cr_buf r = Some n ∧ ∀ buf, lenZ buf = n →
    user_buf_ok (cr_local_ndim r) (tr_unit (cr_req r)) (cr_local_offset r) (cr_local_size r) buf;
  rw_total : cr_total_data_size r = vol (cr_local_size r) * tr_unit (cr_req r);
  rw_vol : vol (tr_remote_region_size (cr_req r)) = vol (cr_local_size r);
  rw_remote : partition_pre pdc_server_num_g (tr_remote_region_ndim (cr_req r)) (tr_unit (cr_req r)) (tr_obj_dims (cr_req r))
    (tr_remote_region_offset (cr_req r)) (tr_remote_region_size (cr_req r));
  rw_obj : is_u64 (tr_obj_id (cr_req r)) ∧ tr_obj_ndim (cr_req r) = tr_remote_region_ndim (cr_req r) ∧
    length (tr_obj_dims (cr_req r)) = tr_obj_ndim (cr_req r) ∧ Forall is_u64 (tr_obj_dims (cr_req r));
  rw_merged : cr_merged_request_id r = 0 }.

(** The entry [k] of the arrays is set. *)
Record filled (S : gmap Z Z) (r : client_request) (k : nat) : Prop := {
  fi_bulk : ∃ b c, array_at (cr_bulk_buf r) k = Some b ∧ array_at (cr_bulk_buf_ref r) k = Some c ∧
    (access_of r = PDC_READ → ∃ off n, array_at (cr_read_bulk_buf r) k = Some (b, off) ∧
       S !! b = Some n ∧ 0 ≤ off ∧ off + entry_bytes r k ≤ n < W64);
  fi_id : is_Some (array_at (cr_metadata_id r) k) }.
Definition empty_entry (r : client_request) (k : nat) : Prop :=
  array_at (cr_bulk_buf r) k = None ∧ array_at (cr_bulk_buf_ref r) k = None.

(** A request that is started; its transfers are under way for the entries that
    are filled. *)
Record active_ok (S : gmap Z Z) (r : client_request) : Prop := {
  ao_new : ∃ p n, cr_new_buf r = Some p ∧ S !! p.1 = Some n ∧ 0 ≤ p.2 ∧ p.2 + cr_total_data_size r ≤ n < W64 ∧
    if decide (1 < cr_local_ndim r)%nat then p.2 = 0 ∧ n = cr_total_data_size r else p.1 = cr_buf r;
  ao_arrays : array_len (cr_metadata_id r) = Some (cr_n_obj_servers r) ∧ array_len (cr_bulk_buf r) = Some (cr_n_obj_servers r) ∧
    array_len (cr_bulk_buf_ref r) = Some (cr_n_obj_servers r) ∧
    if decide (access_of r = PDC_READ) then array_len (cr_read_bulk_buf r) = Some (cr_n_obj_servers r) else cr_read_bulk_buf r = Null;
  ao_entry k : (k < cr_n_obj_servers r)%nat → empty_entry r k ∨ filled S r k;
  ao_split : is_split r = true → cr_parts r = true ∧ length (tr_obj_parts (cr_req r)) = cr_n_obj_servers r ∧
    (cr_output_buf r = Null ∨ array_len (cr_output_buf r) = Some (cr_n_obj_servers r) ∧
       ∀ k, (k < cr_n_obj_servers r)%nat → is_Some (array_at (cr_output_buf r) k)) ∧
    ∀ k part, part_at r k = Some part → part_ok (cr_req r) part;
  ao_unsplit : is_split r = false → cr_n_obj_servers r = 1%nat ∧ cr_output_buf r = Null }.

(** All transfers of the request are under way. *)
Definition complete (r : client_request) : Prop :=
  ∀ k, (k < cr_n_obj_servers r)%nat → is_Some (array_at (cr_bulk_buf r) k).

(** Every request is either not started or active. *)
Definition requests_ok (S : gmap Z Z) (R : gmap Z client_request) : Prop :=
  ∀ id r, R !! id = Some r → request_wf S r ∧ (cr_metadata_id r = Null ∨ active_ok S r ∧ cr_is_done r = false).

(** [S] has the size of every block; addresses are used once. *)
Definition sizes_ok (S : gmap Z Z) (h : heap) (next : Z) : Prop :=
  (∀ b d, h !! b = Some d → S !! b = Some (lenZ d)) ∧ ∀ b n, S !! b = Some n → b < next.

(** [L] has the list of each object: the addresses of its nodes and their IDs. *)
Record lists_ok (L : Z → list (Z * Z)) (objs : gmap Z obj_info) (nodes : gmap Z (Z * option Z)) (next : Z) : Prop := {
  lo_chain obj o : objs !! obj = Some o → chain nodes (oi_local_request_head o) (L obj) None;
  lo_nodup obj : NoDup (L obj).*1;
  lo_apart obj obj' t : t ∈ (L obj).*1 → t ∈ (L obj').*1 → obj = obj';
  lo_next obj t : t ∈ (L obj).*1 → t < next }.

Record client_ok {Srv} (S : gmap Z Z) (L : Z → list (Z * Z)) (s : client Srv) : Prop := {
  co_layout : layout U (gather private_blocks (cl_requests s)) (gather shared_refs (cl_requests s)) (cl_heap s) (cl_refs s) (cl_next s);
  co_sizes : sizes_ok S (cl_heap s) (cl_next s);
  co_requests : requests_ok S (cl_requests s);
  co_lists : lists_ok L (cl_objs s) (cl_nodes s) (cl_next s);
  co_objs id r : cl_requests s !! id = Some r → is_Some (cl_objs s !! cr_local_obj_id r) }.

(** New blocks do not matter. *)
Lemma active_ok_weaken S S' r : S ⊆ S' → active_ok S r → active_ok S' r.
Proof.
  intros HS [(p & n & Hp & Hn & H1) H2 H3 H4 H5]. split; [exists p, n; split; [done|]; split; [by eapply lookup_weaken|done]|done| |done|done].
  intros k Hk. destruct (H3 k Hk) as [?|[(b & c & Hb & Hc & Hr) Hi]]; [by left|right]. split; [|done]. exists b, c. split; [done|]. split; [done|].
  intros Ha. destruct (Hr Ha) as (off & m & Ho & Hm & ?). exists off, m. split; [done|]. split; [by eapply lookup_weaken|done].
Qed.
Lemma request_wf_weaken S S' r : S ⊆ S' → request_wf S r → request_wf S' r.
Proof. intros HS [? ? ? (n & Hn & Hl) ? ? ? ? ?]. split; try done. exists n. split; [by eapply lookup_weaken|done]. Qed.
Lemma requests_ok_weaken S S' R : S ⊆ S' → requests_ok S R → requests_ok S' R.
Proof.
  intros HS HR id r E. destruct (HR id r E) as [Hwf Hst]. split; [by eapply request_wf_weaken|].
  destruct Hst as [?|[? ?]]; [by left|right]. split; [by eapply active_ok_weaken|done].
Qed.
End Requests.

(** The servers answer, and write only inside the blocks of the client. *)
Class ServersAnswer (Srv : Type) `{DataServers Srv} : Prop := {
  all_answers srv h ds acc n b size : ∃ id srv', forward_transfer_request_all srv h ds acc n b size = Some (id, srv');
  wait_all_answers srv h ds ids : ∃ h' srv', forward_transfer_request_wait_all srv h ds ids = Some (h', srv') ∧
    ∀ b, lenZ <$> h' !! b = lenZ <$> h !! b }.

Section Spec.
Context {Srv : Type} `{SA : ServersAnswer Srv} (junk : byte) (pdc_server_num_g : Z) (U : gset Z).
Implicit Types s : client Srv.
#[local] Abbreviation client_ok := (client_ok pdc_server_num_g U).
#[local] Abbreviation request_wf := (request_wf pdc_server_num_g U).

(** ** Writes into blocks *)

(** The contents of blocks and the servers may differ. *)
Definition touched s s' : Prop :=
  ∃ h' srv', s' = with_srv srv' (with_heap h' s) ∧ ∀ b, lenZ <$> h' !! b = lenZ <$> cl_heap s !! b.

Lemma touched_refl s : touched s s.
Proof. exists (cl_heap s), (cl_srv s). by destruct s. Qed.
Lemma touched_trans s s' s'' : touched s s' → touched s' s'' → touched s s''.
Proof. intros (h & srv & -> & E) (h' & srv' & -> & E'). exists h', srv'. split; [done|]. intros b. rewrite E'. apply E. Qed.
Lemma touched_store s b d d' : cl_heap s !! b = Some d → lenZ d' = lenZ d → touched s (with_heap (<[b := d']> (cl_heap s)) s).
Proof.
  intros Hd Hl. exists (<[b := d']> (cl_heap s)), (cl_srv s). split; [by destruct s|]. intros b'.
  destruct (decide (b' = b)) as [->|]; [rewrite lookup_insert_eq, Hd; cbn; by rewrite Hl|by rewrite lookup_insert_ne].
Qed.

Lemma lookup_like (h h' : heap) b : (lenZ <$> h' !! b) = (lenZ <$> h !! b) → is_Some (h' !! b) ↔ is_Some (h !! b).
Proof. destruct (h' !! b), (h !! b); try done; intros; split; intros; by eexists. Qed.

Lemma client_ok_touched S L s s' : touched s s' → client_ok S L s → client_ok S L s'.
Proof.
  intros (h & srv & -> & E) [Hl [Hs Hn] Hr Hli Ho]. split; cbn; [|split; [|done]|done..].
  - eapply layout_same_blocks; [|done]. intros b. by apply lookup_like.
  - intros b d Hd. specialize (E b). rewrite Hd in E. destruct (cl_heap s !! b) as [d0|] eqn:Ed; [|done]. cbn in E. injection E as ->. by apply Hs.
Qed.

Lemma private_allocated S L s id r b : client_ok S L s → cl_requests s !! id = Some r → b ∈ private_blocks r →
  ∃ d, cl_heap s !! b = Some d ∧ S !! b = Some (lenZ d).
Proof.
  intros [Hl [Hs _] _ _ _] Hr Hb. assert (is_Some (cl_heap s !! b)) as [d Hd].
  { apply (ly_dom _ _ _ _ _ _ Hl). right. left. apply gather_elem. by exists id, r. }
  exists d. split; [done|by apply Hs].
Qed.
Lemma shared_allocated S L s id r b c : client_ok S L s → cl_requests s !! id = Some r → (b, c) ∈ shared_refs r →
  ∃ d, cl_heap s !! b = Some d ∧ S !! b = Some (lenZ d).
Proof.
  intros [Hl [Hs _] _ _ _] Hr Hb. assert (is_Some (cl_heap s !! b)) as [d Hd].
  { apply (ly_dom _ _ _ _ _ _ Hl). do 2 right. apply (list_elem_of_fmap_2 fst _ (b, c)), gather_elem. by exists id, r. }
  exists d. split; [done|by apply Hs].
Qed.
Lemma user_allocated S L s id r : client_ok S L s → cl_requests s !! id = Some r →
  ∃ d, cl_heap s !! cr_buf r = Some d ∧ S !! cr_buf r = Some (lenZ d) ∧
    user_buf_ok (cr_local_ndim r) (tr_unit (cr_req r)) (cr_local_offset r) (cr_local_size r) d.
Proof.
  intros [Hl [Hs _] Hr _ _] E. destruct (Hr _ _ E) as [Hwf _]. destruct (rw_local _ _ _ _ Hwf) as (n & Hn & Hok).
  assert (is_Some (cl_heap s !! cr_buf r)) as [d Hd] by (apply (ly_dom _ _ _ _ _ _ Hl); left; apply Hwf).
  pose proof (Hs _ _ Hd) as Hsz. exists d. split; [done|]. split; [done|]. apply Hok. congruence.
Qed.

(** The block of [new_buf], with the room behind the pointer. *)
Lemma new_buf_allocated S L s id r : client_ok S L s → cl_requests s !! id = Some r → started r = true → active_ok S r →
  ∃ p d, cr_new_buf r = Some p ∧ cl_heap s !! p.1 = Some d ∧ 0 ≤ p.2 ∧ p.2 + cr_total_data_size r ≤ lenZ d < W64 ∧
    ((1 < cr_local_ndim r)%nat → p.2 = 0 ∧ lenZ d = cr_total_data_size r).
Proof.
  intros Hok E Hst [(p & n & Hp & Hn & Hp0 & Hp2 & Hc) _ _ _ _].
  assert (∃ d, cl_heap s !! p.1 = Some d ∧ S !! p.1 = Some (lenZ d)) as (d & Hd & Hsd).
  { case_decide as Hnd.
    - eapply private_allocated; [done..|]. unfold private_blocks, new_buf_blocks. rewrite Hst, decide_True, Hp by done.
      apply elem_of_app. left. by apply list_elem_of_singleton.
    - destruct (user_allocated _ _ _ _ _ Hok E) as (d & Hd & Hsd & _). exists d. by rewrite Hc. }
  assert (n = lenZ d) as -> by congruence. exists p, d. split; [done|]. split; [done|]. split; [done|]. split; [done|].
  intros Hnd. by rewrite decide_True in Hc.
Qed.

Lemma started_eq r : started r = true ↔ cr_metadata_id r ≠ Null.
Proof. unfold started. by destruct (cr_metadata_id r). Qed.

Lemma bulk_refs_elem r k b c : (k < cr_n_obj_servers r)%nat → array_at (cr_bulk_buf r) k = Some b → array_at (cr_bulk_buf_ref r) k = Some c →
  (b, c) ∈ bulk_refs r.
Proof.
  intros Hk Hb Hc. unfold bulk_refs. apply list_elem_of_omap. exists k. split; [apply elem_of_seq; lia|]. by rewrite Hb, Hc.
Qed.

(** The block that the data of entry [k] arrive in. *)
Lemma read_allocated S L s id r k : client_ok S L s → cl_requests s !! id = Some r → started r = true → filled S r k →
  (k < cr_n_obj_servers r)%nat → access_of r = PDC_READ →
  ∃ b off d, array_at (cr_read_bulk_buf r) k = Some (b, off) ∧ cl_heap s !! b = Some d ∧ 0 ≤ off ∧ off + entry_bytes r k ≤ lenZ d < W64.
Proof.
  intros Hok E Hst [(b & c & Hb & Hc & Hread) _] Hk Hacc. destruct (Hread Hacc) as (off & n & Hoff & Hn & ? & ?).
  destruct (shared_allocated S L s id r b c Hok E) as (d & Hd & Hsd).
  { unfold shared_refs. rewrite Hst. by eapply bulk_refs_elem. }
  assert (n = lenZ d) as -> by congruence. by exists b, off, d.
Qed.

Lemma lenZ_drop_at {A} (d : list A) off : 0 ≤ off ≤ lenZ d → lenZ (drop (Z.to_nat off) d) = lenZ d - off.
Proof. unfold lenZ. rewrite length_drop. lia. Qed.
Lemma lenZ_put {A} (d x : list A) off : 0 ≤ off ≤ lenZ d → lenZ x = lenZ d - off → lenZ (take (Z.to_nat off) d ++ x) = lenZ d.
Proof. unfold lenZ. rewrite length_app, length_take. lia. Qed.

Lemma wp_store_touched s p x d : cl_heap s !! p.1 = Some d → 0 ≤ p.2 ≤ lenZ d → lenZ x = lenZ d - p.2 →
  wp (store_at p x) (λ _ s', touched s s') s.
Proof. intros Hd Hp Hx. eapply wp_store_at; [done|]. eapply touched_store; [done|]. by apply lenZ_put. Qed.

Lemma memcpy_runs {A} (d x : list A) n : 0 ≤ n → n ≤ lenZ d → n ≤ lenZ x → ∃ d', memcpy d 0 x 0 n = Some d' ∧ lenZ d' = lenZ d.
Proof.
  intros Hn Hd Hx. unfold memcpy. destruct (mem_read_Some x 0 n) as (y & -> & Hy & _); [lia..|]. cbn [mbind option_bind].
  destruct (mem_write_Some d 0 y) as (d' & -> & Hl & _); [lia..|]. by exists d'.
Qed.

(** [gather_entry] stays in the buffers. *)
Lemma gather_entry_ok S L s id r k : client_ok S L s → cl_requests s !! id = Some r → started r = true → active_ok S r →
  filled S r k → (k < cr_n_obj_servers r)%nat → is_split r = true → is_Some (part_at r k) →
  wp (gather_entry r k) (λ _ s', touched s s') s.
Proof.
  intros Hok E Hst Hact Hfill Hk Hsplit [part Hpart]. unfold gather_entry. destruct (decide (access_of r = PDC_READ)) as [Hacc|Hacc];
    [|apply wp_ret, touched_refl].
  destruct (new_buf_allocated _ _ _ _ _ Hok E Hst Hact) as (p & d & Hp & Hd & Hp0 & [Hp2 HW] & _).
  destruct (read_allocated _ _ _ _ _ _ Hok E Hst Hfill Hk Hacc) as (b & off & d2 & Hread & Hd2 & Hoff & [Hoff2 HW2]).
  unfold entry_bytes in Hoff2. rewrite Hsplit, Hpart in Hoff2.
  destruct (co_requests _ _ _ _ _ Hok _ _ E) as [Hwf _]. destruct (ao_split _ _ Hact Hsplit) as (_ & _ & _ & Hparts).
  destruct (Hparts _ _ Hpart) as (Hwo & Hsub & Hin). destruct (rw_remote _ _ _ _ Hwf) as [_ Hn Hu Hwr _ _].
  rewrite (rw_total _ _ _ _ Hwf), <-(rw_vol _ _ _ _ Hwf) in Hp2.
  assert (0 ≤ vol (tr_remote_region_size (cr_req r)) * tr_unit (cr_req r)) by (pose proof (vol_pos _ (wf_region_sizes _ _ _ Hwr)); nia).
  assert (0 ≤ vol (op_output_size part) * tr_unit (cr_req r)) by (pose proof (vol_pos _ (wf_region_sizes _ _ _ Hwo)); nia).
  destruct (memcpy_subregion_read (tr_remote_region_ndim (cr_req r)) (tr_unit (cr_req r)) (tr_access_type (cr_req r))
    (drop (Z.to_nat p.2) d) (tr_remote_region_size (cr_req r)) (drop (Z.to_nat off) d2) (op_sub_offset part) (op_output_size part))
    as (nb & Hrun & HC).
  { unfold access_of in Hacc. congruence. }
  { rewrite Hsub. split; [done|by destruct Hwo|done|by eapply sub_region_fits|rewrite lenZ_drop_at; lia|rewrite lenZ_drop_at; lia]. }
  apply wp_bind, (wp_lift _ p); [done|]. apply wp_bind, (wp_bytes_at p d); [done|lia|]. apply wp_bind.
  apply (wp_array_at _ k (b, off)); [done|].
  apply wp_bind, (wp_bytes_at (b, off) d2); [done|cbn; lia|]. apply wp_bind, (wp_array_at _ _ part); [done|].
  apply wp_bind. eapply wp_lift; [exact Hrun|]. apply (wp_store_touched s p nb d Hd); [lia|].
  destruct HC as [-> _]. rewrite lenZ_drop_at; lia.
Qed.

(** ** Changing one request *)

Lemma client_ok_focus S L s id r : client_ok S L s → cl_requests s !! id = Some r →
  layout U (private_blocks r ++ gather private_blocks (delete id (cl_requests s)))
    (shared_refs r ++ gather shared_refs (delete id (cl_requests s))) (cl_heap s) (cl_refs s) (cl_next s).
Proof. intros Hok E. eapply layout_perm; [by apply gather_lookup..|]. apply Hok. Qed.

Lemma client_ok_put S L s id r r' h' refs' : client_ok S L s → cl_requests s !! id = Some r →
  layout U (private_blocks r' ++ gather private_blocks (delete id (cl_requests s)))
    (shared_refs r' ++ gather shared_refs (delete id (cl_requests s))) h' refs' (cl_next s) →
  (∀ b d, h' !! b = Some d → S !! b = Some (lenZ d)) →
  request_wf S r' → cr_metadata_id r' = Null ∨ active_ok S r' ∧ cr_is_done r' = false → cr_local_obj_id r' = cr_local_obj_id r →
  client_ok S L (with_requests_map <[id := r']> (with_heap h' (with_refs refs' s))).
Proof.
  intros [Hl [Hs Hn] Hr Hli Ho] E Hlay Hs' Hwf Hst Hobj. split; cbn; [|done| |done|].
  - eapply layout_perm; [symmetry; apply gather_insert..|]. done.
  - intros id' r0. destruct (decide (id' = id)) as [->|]; [rewrite lookup_insert_eq; intros [= <-]; done|].
    rewrite lookup_insert_ne by done. apply Hr.
  - intros id' r0. destruct (decide (id' = id)) as [->|]; [rewrite lookup_insert_eq; intros [= <-]; rewrite Hobj; by eapply Ho|].
    rewrite lookup_insert_ne by done. apply Ho.
Qed.

(** The request when the arrays of entry [k] are freed. *)
Definition cleared (k : nat) (r : client_request) : client_request :=
  with_parts (<[k := None]> (tr_obj_parts (cr_req r))) (cr_parts r) (cr_n_obj_servers r) (cr_output_buf r) r.

Lemma part_at_cleared k r j : part_at (cleared k r) j = if decide (j = k) then None else part_at r j.
Proof.
  unfold part_at, cleared. cbn. case_decide as Hj; [subst|by rewrite list_lookup_insert_ne].
  destruct (decide (k < length (tr_obj_parts (cr_req r)))%nat); [by rewrite list_lookup_insert_eq|].
  by rewrite list_insert_ge, lookup_ge_None_2 by lia.
Qed.

Lemma entry_bytes_cleared k r j : entry_bytes (cleared k r) j = entry_bytes r j ∨ entry_bytes (cleared k r) j = 0 ∧ j = k.
Proof. unfold entry_bytes. change (is_split (cleared k r)) with (is_split r). rewrite part_at_cleared.
  destruct (is_split r); [|by left]. destruct (decide (j = k)); [by right|by left].
Qed.

Lemma entry_bytes_nonneg S r k : request_wf S r → active_ok S r → 0 ≤ entry_bytes r k.
Proof.
  intros Hwf Hact. destruct (rw_remote _ _ _ _ Hwf) as [_ _ Hu Hwr _ _]. unfold entry_bytes. destruct (is_split r) eqn:Hs.
  - destruct (part_at r k) as [part|] eqn:Hp; [|done]. destruct (ao_split _ _ Hact Hs) as (_ & _ & _ & Hparts).
    destruct (Hparts _ _ Hp) as (Hwo & _). pose proof (vol_pos _ (wf_region_sizes _ _ _ Hwo)). nia.
  - rewrite (rw_total _ _ _ _ Hwf), <-(rw_vol _ _ _ _ Hwf). pose proof (vol_pos _ (wf_region_sizes _ _ _ Hwr)). nia.
Qed.

Lemma filled_cleared S r k j : request_wf S r → active_ok S r → filled S r j → filled S (cleared k r) j.
Proof.
  intros Hwf Hact [(b & c & Hb & Hc & Hr) Hm]. split; [|done]. exists b, c. split; [done|]. split; [done|].
  intros Hacc. destruct (Hr Hacc) as (off & n & Ho & Hn & H0 & Hle). exists off, n. split; [done|]. split; [done|]. split; [done|].
  destruct (entry_bytes_cleared k r j) as [->|[-> ->]]; [done|]. pose proof (entry_bytes_nonneg S r k Hwf Hact). lia.
Qed.

Lemma active_cleared S r k : request_wf S r → active_ok S r → active_ok S (cleared k r).
Proof.
  intros Hwf Hact. pose proof Hact as [Hnew Harr Hent Hsp Hun]. split; [done|done| | |done].
  - intros j Hj. destruct (Hent j Hj); [by left|right; by apply filled_cleared].
  - intros Hs. destruct (Hsp Hs) as (Hp & Hlen & Hout & Hparts). split; [done|]. split; [cbn; by rewrite length_insert|]. split; [done|].
    intros j part. rewrite part_at_cleared. destruct (decide (j = k)) as [->|]; [intros [=]|apply Hparts].
Qed.

Lemma wf_cleared S r k : request_wf S r → request_wf S (cleared k r).
Proof. by intros []. Qed.

Lemma omap_at {A} (f g : nat → option A) l k : NoDup l → k ∈ l → (∀ j, j ≠ k → f j = g j) →
  ∃ rest : list A, omap f l ≡ₚ from_option (λ x, [x]) [] (f k) ++ rest ∧ omap g l ≡ₚ from_option (λ x, [x]) [] (g k) ++ rest.
Proof.
  intros Hnd Hk Hfg. apply list_elem_of_split in Hk as (l1 & l2 & ->). exists ((omap f l1 : list A) ++ omap f l2).
  apply list.NoDup_app in Hnd as (_ & Hn1 & [Hn2 _]%list.NoDup_cons).
  assert (∀ l' : list nat, k ∉ l' → (omap f l' : list A) = omap g l') as Heq.
  { intros l' Hl'. induction l' as [|x l' IH]; [done|]. rewrite elem_of_cons in Hl'. cbn.
    rewrite (Hfg x) by naive_solver. destruct (g x); [f_equal|]; apply IH; naive_solver. }
  assert (omap g l1 = omap f l1) as E1. { symmetry. apply Heq. intros Hin. apply (Hn1 k Hin). apply elem_of_cons. by left. }
  pose proof (Heq l2 Hn2) as E2. rewrite !omap_app, E1. cbn in E2 |- *. rewrite <-E2. split; [destruct (f k)|destruct (g k)]; cbn; rewrite ?Permutation_middle; done.
Qed.

Lemma output_blocks_cleared r k b : (k < cr_n_obj_servers r)%nat → is_Some (part_at r k) → array_at (cr_output_buf r) k = Some b →
  output_blocks r ≡ₚ b :: output_blocks (cleared k r).
Proof.
  intros Hk [part Hp] Hb. unfold output_blocks. change (cr_n_obj_servers (cleared k r)) with (cr_n_obj_servers r).
  destruct (omap_at (λ k, _ ← part_at r k; array_at (cr_output_buf r) k)
    (λ j, _ ← part_at (cleared k r) j; array_at (cr_output_buf (cleared k r)) j) (seq 0 (cr_n_obj_servers r)) k) as (rest & -> & ->).
  - apply NoDup_seq.
  - apply elem_of_seq. lia.
  - intros j Hj. rewrite part_at_cleared. by rewrite decide_False.
  - rewrite Hp, part_at_cleared, decide_True by done. cbn. by rewrite Hb.
Qed.

Lemma output_blocks_null r : cr_output_buf r = Null → output_blocks r = [].
Proof.
  intros E. unfold output_blocks. rewrite E. generalize (seq 0 (cr_n_obj_servers r)). intros l. induction l as [|x l IH]; [done|].
  cbn. by destruct (part_at r x).
Qed.

Lemma free_entry_ok S L s id r k : client_ok S L s → cl_requests s !! id = Some r → started r = true → active_ok S r → cr_is_done r = false →
  (k < cr_n_obj_servers r)%nat → is_split r = true → is_Some (part_at r k) →
  wp (free_entry id r k) (λ _ s', client_ok S L s' ∧ cl_requests s' = <[id := cleared k r]> (cl_requests s)) s.
Proof.
  intros Hok E Hst Hact Hdone Hk Hsplit Hpart. destruct (co_requests _ _ _ _ _ Hok _ _ E) as [Hwf _].
  assert (request_wf S (cleared k r) ∧ active_ok S (cleared k r)) as [Hwf' Hact'] by eauto using wf_cleared, active_cleared.
  destruct (co_sizes _ _ _ _ _ Hok) as [Hsz _]. destruct (ao_split _ _ Hact Hsplit) as (_ & _ & Hout & _). unfold free_entry. fold (cleared k r).
  assert (∀ s' h', s' = with_heap h' s → client_ok S L (with_requests_map <[id := cleared k r]> s') →
    wp (_ ← array_get (Array (tr_obj_parts (cr_req r))) k; put_request id (cleared k r))
      (λ _ s'', client_ok S L s'' ∧ cl_requests s'' = <[id := cleared k r]> (cl_requests s)) s') as Hrest.
  { intros s' h' -> Hok'. destruct Hpart as [part Hpart]. apply wp_bind, (wp_array_at _ _ part); [done|]. apply wp_put_request. done. }
  destruct Hout as [Hnull|[Hlen Hall]].
  - rewrite Hnull. apply wp_bind, wp_ret. apply (Hrest s (cl_heap s)); [by destruct s|].
    pose proof (client_ok_focus S L s id r Hok E) as Hl.
    pose proof (client_ok_put S L s id r (cleared k r) (cl_heap s) (cl_refs s) Hok E) as Hput. destruct s; apply Hput; eauto.
    unfold private_blocks, new_buf_blocks in Hl |- *. change (started (cleared k r)) with (started r).
    rewrite (output_blocks_null r) in Hl by done. rewrite (output_blocks_null (cleared k r)) by done. exact Hl.
  - destruct (Hall k Hk) as [b Hb]. apply wp_bind. destruct (cr_output_buf r) as [|l|] eqn:Eo; try done. rewrite <-Eo in *.
    assert (private_blocks r ≡ₚ b :: private_blocks (cleared k r)) as Hpriv.
    { unfold private_blocks. change (started (cleared k r)) with (started r). rewrite Hst.
      rewrite (output_blocks_cleared r k b Hk Hpart Hb). change (new_buf_blocks (cleared k r)) with (new_buf_blocks r). by rewrite Permutation_middle. }
    apply wp_bind, (wp_array_at _ _ b); [done|]. destruct (private_allocated S L s id r b Hok E) as (d & Hd & _).
    { rewrite Hpriv. apply elem_of_cons. by left. }
    apply wp_free_block; [by eexists|]. eapply Hrest; [done|]. pose proof (client_ok_focus S L s id r Hok E) as Hl.
    pose proof (client_ok_put S L s id r (cleared k r) (delete b (cl_heap s)) (cl_refs s) Hok E) as Hput. destruct s; apply Hput; eauto.
    + pose proof Hl as Hl'. rewrite Hpriv in Hl'. by apply layout_free in Hl' as [_ Hl'].
    + intros b' d' Hd'. apply lookup_delete_Some in Hd' as [_ Hd']. by apply Hsz.
Qed.

(** ** Waiting for the packages *)

(** Only [tr_obj_parts] may differ. *)
Definition reparted (r r' : client_request) : Prop :=
  ∃ parts, r' = with_parts parts (cr_parts r) (cr_n_obj_servers r) (cr_output_buf r) r.
Lemma reparted_refl r : reparted r r.
Proof. exists (tr_obj_parts (cr_req r)). destruct r as [[]]. done. Qed.
Lemma reparted_cleared r r' k : reparted r r' → reparted r (cleared k r').
Proof. intros [parts ->]. by eexists. Qed.

(** The requests [ids] of [R] with some of their entries cleared. *)
Definition progress (ids : list Z) (R R' : gmap Z client_request) : Prop :=
  ∀ id, match R !! id with
        | Some r => ∃ r', R' !! id = Some r' ∧ reparted r r' ∧ (id ∉ ids ∨ started r = false → r' = r)
        | None => R' !! id = None
        end.
Lemma progress_refl ids R : progress ids R R.
Proof. intros id. destruct (R !! id) as [r|]; [|done]. exists r. split; [done|]. split; [apply reparted_refl|done]. Qed.
Lemma progress_cleared ids R R' id r k : progress ids R R' → id ∈ ids → R' !! id = Some r → started r = true → progress ids R (<[id := cleared k r]> R').
Proof.
  intros Hp Hid E Hst id'. specialize (Hp id'). destruct (decide (id' = id)) as [->|].
  - rewrite lookup_insert_eq. destruct (R !! id) as [r0|]; [|congruence]. destruct Hp as (r' & E' & Hr & _).
    assert (r' = r) as -> by congruence. eexists. split; [done|]. split; [by apply reparted_cleared|].
    destruct Hr as [parts ->]. intros [?|Hn]; [done|]. unfold started in *. cbn in Hst. congruence.
  - by rewrite lookup_insert_ne.
Qed.

(** A package whose transfer is under way and was not waited for. *)
Definition pending S (R : gmap Z client_request) (p : wait_all_pkg) : Prop :=
  ∃ r, R !! wp_transfer_request p = Some r ∧ started r = true ∧ (wp_index p < cr_n_obj_servers r)%nat ∧ filled S r (wp_index p) ∧
    (is_split r = true → is_Some (part_at r (wp_index p))).
Definition pkg_key (p : wait_all_pkg) : Z * nat := (wp_transfer_request p, wp_index p).

Record waiting S L (ids : list Z) (R : gmap Z client_request) (pkgs : list wait_all_pkg) s : Prop := {
  wa_ok : client_ok S L s;
  wa_progress : progress ids R (cl_requests s);
  wa_pending : Forall (pending S (cl_requests s)) pkgs;
  wa_keys : NoDup (pkg_key <$> pkgs);
  wa_ids : Forall (λ p, wp_transfer_request p ∈ ids) pkgs;
  wa_cleared id r k : id ∈ ids → cl_requests s !! id = Some r → started r = true → is_split r = true → (k < cr_n_obj_servers r)%nat →
    part_at r k = None ∨ (id, k) ∈ pkg_key <$> pkgs }.

Lemma active_of S L s id r : client_ok S L s → cl_requests s !! id = Some r → started r = true →
  request_wf S r ∧ active_ok S r ∧ cr_is_done r = false.
Proof.
  intros Hok E Hst%started_eq. destruct (co_requests _ _ _ _ _ Hok _ _ E) as [Hwf [?|[? ?]]]; [done|]. done.
Qed.

Lemma pending_cleared S R r p p' : request_wf S r → active_ok S r → R !! wp_transfer_request p = Some r → pkg_key p' ≠ pkg_key p →
  pending S R p' → pending S (<[wp_transfer_request p := cleared (wp_index p) r]> R) p'.
Proof.
  intros Hwf Hact E Hk (r' & E' & Hst & Hlt & Hfill & Hpart). destruct (decide (wp_transfer_request p' = wp_transfer_request p)) as [Heq|Hne].
  - assert (r' = r) as -> by congruence. exists (cleared (wp_index p) r). rewrite Heq, lookup_insert_eq. split; [done|]. split; [done|].
    split; [done|]. split; [by apply filled_cleared|]. intros Hs. rewrite part_at_cleared. rewrite decide_False; [by apply Hpart|].
    intros Hi. apply Hk. unfold pkg_key. congruence.
  - exists r'. by rewrite lookup_insert_ne.
Qed.

Lemma waiting_touched S L ids R pkgs s s' : touched s s' → waiting S L ids R pkgs s → waiting S L ids R pkgs s'.
Proof.
  intros Ht [Hok Hp Hpe Hk Hi Hc]. split; [by eapply client_ok_touched|..|done|done|]; by destruct Ht as (h & srv & -> & _).
Qed.

Lemma wait_pkg_done_ok S L ids R p pkgs s : waiting S L ids R (p :: pkgs) s → wp (wait_pkg_done p) (λ _, waiting S L ids R pkgs) s.
Proof.
  intros [Hok Hpr [Hp Hps]%list.Forall_cons [Hk Hks]%list.NoDup_cons [Hi His]%list.Forall_cons Hc].
  pose proof Hp as (r & E & Hst & Hlt & Hfill & Hpart). destruct (active_of _ _ _ _ _ Hok E Hst) as (Hwf & Hact & Hdone).
  unfold wait_pkg_done. apply wp_bind, (wp_get_request _ r); [done|]. destruct (is_split r) eqn:Hs.
  2: { apply wp_ret. split; [done..|]. intros id r0 k Hid Er Hst0 Hs0 Hk0. destruct (Hc id r0 k Hid Er Hst0 Hs0 Hk0) as [?|Hin]; [by left|right].
       apply elem_of_cons in Hin as [Heq|?]; [|done]. injection Heq as -> ->. congruence. }
  specialize (Hpart eq_refl). apply wp_bind. eapply wp_mono; [by eapply gather_entry_ok|]. intros [] s' Ht.
  pose proof (client_ok_touched _ _ _ _ Ht Hok) as Hok'.
  assert (cl_requests s' = cl_requests s) as ER0 by by destruct Ht as (h & srv & -> & _).
  eapply wp_mono; [eapply (free_entry_ok S L _ _ r); try done; by rewrite ER0|]. intros [] s'' [Hok'' ER]. rewrite ER0 in ER.
  split; [done|..|done|done|]; rewrite ER.
  - by apply progress_cleared.
  - rewrite list.Forall_forall in Hps |- *. intros p' Hp'. apply pending_cleared; auto. intros Heq. apply Hk. rewrite <-Heq. by apply list_elem_of_fmap_2.
  - intros id r0 k Hid. destruct (decide (id = wp_transfer_request p)) as [->|Hne].
    + rewrite lookup_insert_eq. intros [= <-] _ _ Hk0. rewrite part_at_cleared. destruct (decide (k = wp_index p)) as [|Hki]; [by left|].
      destruct (Hc _ r k Hid E Hst Hs Hk0) as [?|Hin]; [by left|right]. apply elem_of_cons in Hin as [[=]|?]; done.
    + rewrite lookup_insert_ne by done. intros Er Hst0 Hs0 Hk0. destruct (Hc id r0 k Hid Er Hst0 Hs0 Hk0) as [?|Hin]; [by left|right].
      apply elem_of_cons in Hin as [[=]|?]; done.
Qed.

Lemma group_by_concat {A} (key : A → Z) l : concat (group_by key l) = l.
Proof.
  induction l as [|x l IH]; [done|]. cbn. destruct (group_by key l) as [|[|y g] gs] eqn:E; cbn in *; [by subst|by subst|].
  case_decide; cbn; by rewrite <-IH.
Qed.
Lemma group_by_cons {A} (key : A → Z) l g : g ∈ group_by key l → ∃ x g', g = x :: g'.
Proof.
  revert g. induction l as [|x l IH]; intros g; [by intros ?%elem_of_nil|]. cbn.
  destruct (group_by key l) as [|[|y g0] gs] eqn:E.
  - intros ->%list_elem_of_singleton. by eexists _, _.
  - intros [->|Hg]%elem_of_cons; [by eexists _, _|]. by apply IH.
  - case_decide; intros [->|Hg]%elem_of_cons; try (by eexists _, _); apply IH; [apply elem_of_cons; by right|done].
Qed.

Lemma wait_group_ok S L ids R g pkgs s : g ≠ [] → waiting S L ids R (g ++ pkgs) s → wp (wait_group g) (λ _, waiting S L ids R pkgs) s.
Proof.
  intros Hg Hw. unfold wait_group. destruct g as [|x g0] eqn:Eg; [done|]. rewrite <-Eg in *. apply wp_bind, (wp_lift _ x); [by rewrite Eg|].
  apply wp_bind. unfold PDC_Client_transfer_request_wait_all. apply wp_bind, wp_gets, wp_bind, wp_gets, wp_bind.
  destruct (wait_all_answers (cl_srv s) (cl_heap s) (wp_data_server_id x) (wp_metadata_id <$> g)) as (h' & srv' & Hrun & Hh).
  eapply wp_lift; [exact Hrun|]. cbn beta iota. apply wp_bind. eexists _, _. split; [done|]. eexists _, _. split; [done|]. cbn beta.
  eapply wp_mono; [apply (wp_for_each wait_pkg_done (λ l, waiting S L ids R (l ++ pkgs)))|].
  - intros p l s0. apply wait_pkg_done_ok.
  - eapply waiting_touched; [|exact Hw]. exists h', srv'. by split; [destruct s|].
  - intros [] s'. done.
Qed.

Lemma wait_groups_ok S L ids R groups s : (∀ g, g ∈ groups → g ≠ []) → waiting S L ids R (concat groups) s →
  wp (for_each groups wait_group) (λ _, waiting S L ids R []) s.
Proof.
  intros Hg Hw. eapply wp_mono; [apply (wp_for_each wait_group (λ gs s, (∀ g, g ∈ gs → g ≠ []) ∧ waiting S L ids R (concat gs) s))|].
  - intros g gs s0 [Hne Hw0]. eapply wp_mono; [apply wait_group_ok; [apply Hne, elem_of_cons; by left|exact Hw0]|].
    intros [] s' Hs'. split; [|done]. intros g' Hg'. apply Hne, elem_of_cons. by right.
  - done.
  - by intros [] s' [_ ?].
Qed.

(** The transfers of all entries of the request are under way. *)
Definition under_way (r : client_request) : Prop :=
  started r = true ∧ complete r ∧ (is_split r = true → ∀ k, (k < cr_n_obj_servers r)%nat → is_Some (part_at r k)).

Lemma complete_filled S r k : active_ok S r → complete r → (k < cr_n_obj_servers r)%nat → filled S r k.
Proof.
  intros Hact Hc Hk. destruct (ao_entry _ _ Hact k Hk) as [[Hn _]|?]; [|done]. destruct (Hc k Hk) as [? ?]. congruence.
Qed.

Lemma request_wait_pkg_ok S L s id r k : client_ok S L s → cl_requests s !! id = Some r → under_way r → (k < cr_n_obj_servers r)%nat →
  wp (request_wait_pkg id r k) (λ p s', s' = s ∧ pkg_key p = (id, k) ∧ pending S (cl_requests s) p) s.
Proof.
  intros Hok E (Hst & Hc & Hparts) Hk. destruct (active_of _ _ _ _ _ Hok E Hst) as (Hwf & Hact & _).
  pose proof (complete_filled _ _ _ Hact Hc Hk) as Hfill. destruct (fi_id _ _ _ Hfill) as [m Hm]. unfold request_wait_pkg.
  assert (∀ server, pending S (cl_requests s) (WaitAllPkg m server k id)) as Hpend.
  { intros server. exists r. split; [done|]. split; [done|]. split; [done|]. split; [done|]. intros Hs. by apply Hparts. }
  apply wp_bind. case_decide as Hp.
  - apply wp_ret, wp_bind, (wp_array_at _ _ m), wp_ret; done.
  - destruct (rw_partition _ _ _ _ Hwf) as [?|Hs]; [done|]. destruct (Hparts Hs k Hk) as [part Hpart].
    apply wp_bind, (wp_array_at _ _ part), wp_ret, wp_bind, (wp_array_at _ _ m), wp_ret; done.
Qed.

(** The number of transfers of a request, and its packages. *)
Definition transfers (R : gmap Z client_request) (id : Z) : nat :=
  match R !! id with Some r => if started r then cr_n_obj_servers r else 0%nat | None => 0%nat end.
Definition collected S (R : gmap Z client_request) (id : Z) (l : list wait_all_pkg) : Prop :=
  Forall (pending S R) l ∧ pkg_key <$> l = (λ k, (id, k)) <$> seq 0 (transfers R id).

Lemma collect_request_ok S L s id : client_ok S L s →
  (∀ r, cl_requests s !! id = Some r → cr_is_done r = true ∨ under_way r) →
  wp (collect_request id) (λ l s', collected S (cl_requests s) id l ∧ s' = s) s.
Proof.
  intros Hok Hid. assert (transfers (cl_requests s) id = 0%nat → collected S (cl_requests s) id []) as Hnil.
  { intros E. split; [constructor|]. by rewrite E. }
  unfold collect_request, transfers in *. apply wp_bind, wp_find_request. destruct (cl_requests s !! id) as [r|] eqn:E; [|apply wp_ret; auto].
  destruct (cr_is_done r) eqn:Hd.
  { apply wp_ret. split; [|done]. apply Hnil. destruct (co_requests _ _ _ _ _ Hok _ _ E) as [_ [Hm|[_ ?]]]; [|congruence].
    unfold started. by rewrite Hm. }
  destruct (Hid r eq_refl) as [?|Hu]; [congruence|]. pose proof (proj1 Hu) as Hst.
  assert (wp (mapM (request_wait_pkg id r) (seq 0 (cr_n_obj_servers r))) (λ l s', collected S (cl_requests s) id l ∧ s' = s) s);
    [|by unfold started in Hst; destruct (cr_metadata_id r)].
  eapply wp_mono; [apply (wp_mapM (request_wait_pkg id r) (λ k p, pkg_key p = (id, k) ∧ pending S (cl_requests s) p) (λ s', s' = s)); [|done]|].
  - intros k s0 Hk%elem_of_seq ->. eapply wp_mono; [eapply request_wait_pkg_ok; eauto; lia|]. by intros p s' (-> & ? & ?).
  - intros l s' [HF ->]. split; [|done]. unfold collected, transfers. rewrite E, Hst. split.
    + eapply Forall2_Forall_r; [exact HF|]. apply list.Forall_forall. by intros k _ p [_ ?].
    + symmetry. apply list_eq_Forall2, Forall2_fmap. eapply Forall2_impl; [|exact HF]. by intros k p [-> _].
Qed.

Lemma collected_all S R ids ls : Forall2 (collected S R) ids ls → NoDup ids →
  Forall (pending S R) (concat ls) ∧ NoDup (pkg_key <$> concat ls) ∧ (∀ id k, (id, k) ∈ pkg_key <$> concat ls ↔ id ∈ ids ∧ (k < transfers R id)%nat).
Proof.
  induction 1 as [|id l ids ls [Hp Hn] HF IH]; intros Hnd.
  { split; [constructor|]. split; [constructor|]. intros id k. cbn. split; [by intros ?%elem_of_nil|by intros [?%elem_of_nil _]]. }
  apply list.NoDup_cons in Hnd as [Hid Hnd]. destruct (IH Hnd) as (Hps & Hks & Hids). cbn. rewrite fmap_app.
  assert (∀ id' k, (id', k) ∈ pkg_key <$> l ↔ id' = id ∧ (k < transfers R id)%nat) as Hl.
  { intros id' k. rewrite Hn, list_elem_of_fmap. split; [intros (k' & [= -> ->] & ?%elem_of_seq); lia|].
    intros [-> ?]. exists k. split; [done|]. apply elem_of_seq. lia. }
  split; [by apply Forall_app|]. split.
  - apply list.NoDup_app. split; [rewrite Hn; apply NoDup_fmap; [by intros ?? [=]|apply NoDup_seq]|]. split; [|done].
    intros [id' k] [-> _]%Hl [? _]%Hids. done.
  - intros id' k. rewrite elem_of_app, Hl, Hids, elem_of_cons. split; [intros [[-> ?]|[? ?]]; auto|intros [[->|?] ?]; auto].
Qed.

(** ** Releasing a request *)

Lemma lin_from_nonneg size off : ∀ a, 0 ≤ a → Forall (Z.lt 0) size → Forall (Z.le 0) off → 0 ≤ lin_from a size off.
Proof.
  revert off. induction size as [|x size IH]; intros [|o off] a Ha Hs Ho; cbn; try done.
  apply list.Forall_cons in Hs as [? Hs], Ho as [? Ho]. apply IH; [nia|done..].
Qed.

Lemma release_copy_runs n unit off size (d nb : list byte) : user_buf_ok n unit off size d → n = 2%nat ∨ n = 3%nat →
  lenZ nb = vol size * unit → ∃ d', release_copy d n size unit PDC_READ nb = Some d' ∧ lenZ d' = lenZ d.
Proof.
  intros Hub Hcase Hnb. pose proof Hub as [Hn Hu [Ho Ho'] [Hs Hs'] Hl].
  assert (0 ≤ lin size off) as Hlin by by apply lin_from_nonneg. pose proof (vol_pos _ Hs').
  destruct (pack_region_buffer_ok 0 _ _ _ _ _ Hub) as [_ Hrun]. eexists. split; [apply Hrun; [lia|done]|].
  unfold lenZ in *. rewrite length_app, length_drop. nia.
Qed.

Lemma release_copy_back_ok S L s id r : client_ok S L s → cl_requests s !! id = Some r → started r = true →
  wp (release_copy_back r) (λ _ s', touched s s') s.
Proof.
  intros Hok E Hst. destruct (active_of _ _ _ _ _ Hok E Hst) as (Hwf & Hact & _). unfold release_copy_back.
  case_decide as Hc; [|apply wp_ret, touched_refl]. destruct Hc as [Hn Hacc].
  destruct (new_buf_allocated _ _ _ _ _ Hok E Hst Hact) as (p & d & Hp & Hd & Hp0 & [Hp2 HW] & Hown).
  destruct (user_allocated _ _ _ _ _ Hok E) as (u & Hu & _ & Hub). destruct Hown as [Hz Hl]; [lia|].
  apply wp_bind, (wp_lift _ p); [done|]. apply wp_bind, (wp_bytes_at p d); [done|pose proof (lenZ_nonneg d); lia|]. apply wp_bind, (wp_get_block _ u); [done|].
  rewrite Hz, drop_0. destruct (release_copy_runs _ _ _ _ u d Hub Hn) as (u' & Hrun & Hlu).
  { by rewrite Hl, (rw_total _ _ _ _ Hwf). }
  apply wp_bind, (wp_lift _ u'); [by rewrite Hacc|]. eapply wp_store_touched; [done|cbn; pose proof (lenZ_nonneg u); lia|cbn; lia].
Qed.

Lemma copy_unsplit_ok S L s id r : client_ok S L s → cl_requests s !! id = Some r → started r = true → complete r → is_split r = false →
  wp (copy_unsplit r) (λ _ s', touched s s') s.
Proof.
  intros Hok E Hst Hc Hs. destruct (active_of _ _ _ _ _ Hok E Hst) as (Hwf & Hact & _). unfold copy_unsplit.
  case_decide as Hacc; [|apply wp_ret, touched_refl].
  destruct (new_buf_allocated _ _ _ _ _ Hok E Hst Hact) as (p & d & Hp & Hd & Hp0 & [Hp2 HW] & _).
  destruct (ao_unsplit _ _ Hact Hs) as [Hn _]. pose proof (complete_filled S r 0 Hact Hc ltac:(lia)) as Hfill.
  destruct (read_allocated _ _ _ _ _ _ Hok E Hst Hfill ltac:(lia) Hacc) as (b & off & d2 & Hread & Hd2 & Hoff & [Hoff2 HW2]).
  pose proof (entry_bytes_nonneg S r 0 Hwf Hact) as H0. unfold entry_bytes in Hoff2, H0. rewrite Hs in Hoff2, H0.
  apply wp_bind, (wp_lift _ p); [done|]. apply wp_bind, (wp_array_at _ _ (b, off)); [done|].
  apply wp_bind, (wp_bytes_at (b, off) d2); [done|cbn; lia|]. apply wp_bind, (wp_bytes_at p d); [done|lia|]. cbn [snd].
  destruct (memcpy_runs (drop (Z.to_nat p.2) d) (drop (Z.to_nat off) d2) (cr_total_data_size r)) as (d' & Hrun & Hl);
    [done|rewrite lenZ_drop_at; lia..|].
  apply wp_bind, (wp_lift _ d'); [done|]. eapply wp_store_touched; [done|lia|]. rewrite Hl, lenZ_drop_at; lia.
Qed.

(** The loop over the counters: [ks] are the entries that are left. *)
Definition refs_at (r : client_request) (ks : list nat) : list (Z * Z) :=
  omap (λ k, b ← array_at (cr_bulk_buf r) k; c ← array_at (cr_bulk_buf_ref r) k; Some (b, c)) ks.

Definition remaining (S : gmap Z Z) (P : list Z) (E : list (Z * Z)) s s' : Prop :=
  ∃ h refs, s' = with_heap h (with_refs refs s) ∧ layout U P E h refs (cl_next s) ∧ ∀ b d, h !! b = Some d → S !! b = Some (lenZ d).

Lemma release_bulk_ok S P E s0 r k ks s :
  is_Some (array_at (cr_bulk_buf r) k) → is_Some (array_at (cr_bulk_buf_ref r) k) →
  remaining S P (refs_at r (k :: ks) ++ E) s0 s → wp (release_bulk (cr_bulk_buf r) (cr_bulk_buf_ref r) k) (λ _, remaining S P (refs_at r ks ++ E) s0) s.
Proof.
  intros [b Hb] [c Hc] (h & refs & -> & Hl & Hsz). cbn in Hl. rewrite Hb, Hc in Hl. cbn in Hl. fold (refs_at r ks) in Hl.
  destruct (layout_release _ _ _ _ _ _ _ _ Hl) as (n & Hn & [d Hd] & Hlast & Hmore). unfold release_bulk.
  apply wp_bind, (wp_array_at _ _ c); [done|]. apply wp_bind, (wp_get_ref _ n); [done|]. apply wp_bind, wp_set_refs. cbn. case_decide as H0.
  - apply wp_bind, (wp_array_at _ _ b); [done|]. apply wp_bind, wp_free_block; [by eexists|]. cbn.
    apply wp_free_ref_cell; [cbn; rewrite lookup_insert_eq; by eexists|]. exists (delete b h), (delete c refs).
    split; [unfold with_refs, with_heap; cbn; by rewrite delete_insert_eq|]. split; [by apply Hlast|]. intros b' d' [_ Hd']%lookup_delete_Some. by apply Hsz.
  - apply wp_ret. eexists _, _. split; [done|]. split; [by apply Hmore|done].
Qed.

Lemma release_bulks_ok S P E s0 r ks s :
  (∀ k, k ∈ ks → is_Some (array_at (cr_bulk_buf r) k) ∧ is_Some (array_at (cr_bulk_buf_ref r) k)) →
  remaining S P (refs_at r ks ++ E) s0 s →
  wp (for_each ks (release_bulk (cr_bulk_buf r) (cr_bulk_buf_ref r))) (λ _, remaining S P E s0) s.
Proof.
  intros Hks Hr. eapply wp_mono; [apply (wp_for_each _ (λ ks s,
    (∀ k, k ∈ ks → is_Some (array_at (cr_bulk_buf r) k) ∧ is_Some (array_at (cr_bulk_buf_ref r) k)) ∧ remaining S P (refs_at r ks ++ E) s0 s))|].
  - intros k ks' s1 [Hks' Hr']. assert (k ∈ k :: ks') as Hk by (apply elem_of_cons; by left). destruct (Hks' k Hk) as [??].
    eapply wp_mono; [by apply release_bulk_ok|]. intros [] s' Hs'. split; [|done]. intros k' ?. apply Hks', elem_of_cons. by right.
  - done.
  - by intros [] s' [_ ?].
Qed.

Lemma free_array_ok {A} (a : array A) Q s : a ≠ Dangling → (∀ a', (a' = Null ∨ a' = Dangling) → Q a' s) → wp (free_array a) Q s.
Proof. intros Ha HQ. destruct a; [apply wp_ret, HQ; auto..|done]. Qed.

Lemma array_len_at {A} (a : array A) n : array_len a = Some n → a ≠ Dangling ∧ a ≠ Null.
Proof. by destruct a. Qed.

(** [release_region_buffer] frees everything but the blocks of [output_buf]. *)
Lemma release_region_buffer_ok S L s id r : client_ok S L s → cl_requests s !! id = Some r → started r = true → complete r →
  wp (release_region_buffer r) (λ r' s', (∃ s1, touched s s1 ∧
      remaining S (output_blocks r ++ gather private_blocks (delete id (cl_requests s))) (gather shared_refs (delete id (cl_requests s))) s1 s') ∧
    ∃ bulk ref read, r' = with_arrays (cr_metadata_id r) bulk ref read r) s.
Proof.
  intros Hok E Hst Hc. destruct (active_of _ _ _ _ _ Hok E Hst) as (Hwf & Hact & _). destruct (ao_arrays _ _ Hact) as (_ & Hbulk & Href & Hread).
  unfold release_region_buffer. apply wp_bind. eapply wp_mono; [by eapply release_copy_back_ok|]. intros [] s1 Ht.
  pose proof (client_ok_touched _ _ _ _ Ht Hok) as Hok1. assert (cl_requests s1 = cl_requests s) as ER by by destruct Ht as (h & srv & -> & _).
  set (P := gather private_blocks (delete id (cl_requests s))). set (E0 := gather shared_refs (delete id (cl_requests s))).
  assert (remaining S (private_blocks r ++ P) (refs_at r (seq 0 (cr_n_obj_servers r)) ++ E0) s1 s1) as Hrem.
  { exists (cl_heap s1), (cl_refs s1). split; [by destruct s1|]. split; [|apply Hok1].
    pose proof (client_ok_focus _ _ _ _ _ Hok1 ltac:(by rewrite ER)) as Hl. rewrite ER in Hl. unfold shared_refs at 1 in Hl. by rewrite Hst in Hl. }
  destruct (array_len_at _ _ Hbulk) as [Hb1 _], (array_len_at _ _ Href) as [Hr1 Hr2]. apply wp_bind.
  destruct (cr_bulk_buf_ref r) as [|l|] eqn:Eref; try done. rewrite <-Eref in *. apply wp_bind.
  eapply wp_mono; [eapply release_bulks_ok; [|exact Hrem]|].
  { intros k Hk%elem_of_seq. destruct (complete_filled S r k Hact Hc ltac:(lia)) as [(b & c & -> & -> & _) _]. by split; eexists. }
  intros [] s2 Hs2. apply wp_bind, free_array_ok; [by rewrite Eref|]. intros ref _. apply wp_bind, free_array_ok; [done|]. intros bulk _. apply wp_ret.
  apply wp_bind. destruct Hs2 as (h & refs & -> & Hl & Hsz).
  assert (wp (if decide (1 < cr_local_ndim r)%nat then match cr_new_buf r with Some p => free_block p.1 | None => mret () end else mret ())
    (λ _ s', remaining S (output_blocks r ++ P) E0 s1 s') (with_heap h (with_refs refs s1))) as Hfree.
  { destruct (ao_new _ _ Hact) as (p & n & Hp & _). unfold private_blocks, new_buf_blocks in Hl. rewrite Hst in Hl. case_decide as Hd.
    - rewrite Hp in Hl |- *. cbn in Hl. apply layout_free in Hl as [[d Hd'] Hl]. apply wp_free_block; [by eexists|].
      eexists _, _. split; [done|]. split; [done|]. intros b d' [_ Hb]%lookup_delete_Some. by apply Hsz.
    - apply wp_ret. by eexists _, _. }
  eapply wp_mono; [exact Hfree|]. intros [] s3 Hs3. apply wp_bind, free_array_ok.
  { destruct (decide (access_of r = PDC_READ)); [by eapply array_len_at|by rewrite Hread]. }
  intros read _. apply wp_ret. split; [by exists s1|]. by eexists _, _, _.
Qed.

(** The request when it is done. *)
Definition finished (r r' : client_request) : Prop :=
  cr_metadata_id r' = Null ∧ cr_is_done r' = true ∧ cr_local_obj_id r' = cr_local_obj_id r ∧ cr_buf r' = cr_buf r.

(** The lists without the request. *)
Definition drop_request (obj id : Z) (L : Z → list (Z * Z)) (o : Z) : list (Z * Z) := if decide (o = obj) then without id (L o) else L o.

Lemma remove_local_ok S L s obj id : client_ok S L s → is_Some (cl_objs s !! obj) →
  wp (remove_local_transfer_request obj id) (λ _ s', client_ok S (drop_request obj id L) s' ∧ cl_requests s' = cl_requests s) s.
Proof.
  intros [Hl Hs Hr [Hch Hnd Hap Hnx] Ho] [o Eo]. eapply wp_mono; [eapply remove_spec; eauto|].
  intros [] s' (o' & nodes' & -> & (h & e & n & Ho') & _ & Hc & Hframe). split; [|done]. split; [done..| |]; cbn.
  - assert (∀ o' t, t ∈ (drop_request obj id L o').*1 → t ∈ (L o').*1) as Hsub.
    { intros o1 t. unfold drop_request. case_decide; [|done]. intros Ht. eapply elem_of_sublist; [exact Ht|]. apply fmap_sublist, without_sublist. }
    split.
    + intros o1 oi. unfold drop_request. case_decide as Hd; [subst; rewrite lookup_insert_eq; by intros [= <-]|].
      rewrite lookup_insert_ne by done. intros E. eapply chain_frame; [|by apply Hch]. intros t Ht. apply Hframe. intros Ht'. apply Hd. by eapply Hap.
    + intros o1. unfold drop_request. case_decide; [|done]. eapply sublist_NoDup; [apply Hnd|]. apply fmap_sublist, without_sublist.
    + intros o1 o2 t H1 H2. by apply (Hap o1 o2 t); apply Hsub.
    + intros o1 t Ht. by apply (Hnx o1), Hsub.
  - intros id' r Hr'. destruct (decide (cr_local_obj_id r = obj)) as [->|]; [rewrite lookup_insert_eq; by eexists|].
    rewrite lookup_insert_ne by done. by apply (Ho id').
Qed.

Lemma finish_transfer_ok id r Q s : cr_metadata_id r ≠ Dangling →
  Q () (with_requests_map <[id := with_status (cr_merged_request_id r) true (with_arrays Null (cr_bulk_buf r) (cr_bulk_buf_ref r) (cr_read_bulk_buf r) r)]> s) →
  wp (finish_transfer id r) Q s.
Proof. intros Hm HQ. apply wp_bind, free_array_ok; [done|]. intros _ _. apply wp_bind, wp_put_request, wp_ret. done. Qed.

(** The object in whose list the request is, unless it is done. *)
Definition owner (R : gmap Z client_request) (id : Z) : option Z :=
  r ← R !! id; if cr_is_done r then None else Some (cr_local_obj_id r).
Definition release_list (R : gmap Z client_request) (L : Z → list (Z * Z)) (id : Z) : Z → list (Z * Z) :=
  match owner R id with Some obj => drop_request obj id L | None => L end.

(** All data of the request have arrived. *)
Definition arrived (r : client_request) : Prop :=
  started r = true ∧ complete r ∧ (is_split r = true → ∀ k, (k < cr_n_obj_servers r)%nat → part_at r k = None).

Lemma arrived_blocks r : arrived r → is_split r = true → output_blocks r = [].
Proof.
  intros (_ & _ & Hp) Hs. specialize (Hp Hs). unfold output_blocks.
  assert (∀ ks, (∀ k, k ∈ ks → part_at r k = None) → omap (λ k, _ ← part_at r k; array_at (cr_output_buf r) k) ks = []) as H0.
  { induction ks as [|k ks IH]; intros Hks; [done|]. cbn. rewrite Hks by (apply elem_of_cons; by left). apply IH. intros k' ?. apply Hks, elem_of_cons. by right. }
  apply H0. intros k Hk%elem_of_seq. apply Hp. lia.
Qed.

Lemma finished_ok S L s s1 id r r' : client_ok S L s → cl_requests s !! id = Some r → touched s s1 →
  request_wf S r' → finished r r' → ∀ s', remaining S (gather private_blocks (delete id (cl_requests s))) (gather shared_refs (delete id (cl_requests s))) s1 s' →
  client_ok S L (with_requests_map <[id := r']> s').
Proof.
  intros Hok E Ht Hwf (Hm & _ & Hobj & _) s' (h & refs & -> & Hl & Hsz). pose proof (client_ok_touched _ _ _ _ Ht Hok) as Hok1.
  destruct Ht as (h1 & srv1 & -> & _).
  pose proof (client_ok_put S L (with_srv srv1 (with_heap h1 s)) id r r' h refs Hok1 E) as Hput. apply Hput; auto.
  unfold private_blocks at 1, shared_refs at 1, started. by rewrite Hm.
Qed.

Lemma release_request_ok S L s id : client_ok S L s → (∀ r, cl_requests s !! id = Some r → cr_is_done r = true ∨ arrived r) →
  wp (release_request id id) (λ _ s', client_ok S (release_list (cl_requests s) L id) s' ∧
    match cl_requests s !! id with
    | Some r => if cr_is_done r then cl_requests s' = cl_requests s
                else ∃ r', cl_requests s' = <[id := r']> (cl_requests s) ∧ finished r r'
    | None => cl_requests s' = cl_requests s
    end) s.
Proof.
  intros Hok Hid. unfold release_request, release_list, owner. apply wp_bind, wp_find_request.
  destruct (cl_requests s !! id) as [r|] eqn:E; [|by apply wp_ret]. cbn. destruct (cr_is_done r) eqn:Hd; [by apply wp_ret|].
  destruct (Hid r eq_refl) as [?|Harr]; [congruence|]. pose proof Harr as (Hst & Hc & Hp). destruct (active_of _ _ _ _ _ Hok E Hst) as (Hwf & Hact & _).
  apply wp_bind. assert (wp (if decide (tr_region_partition (cr_req r) = PDC_OBJ_STATIC) then copy_unsplit r else mret ()) (λ _ s', touched s s') s) as Hcopy.
  { case_decide as Hpart; [|apply wp_ret, touched_refl]. eapply copy_unsplit_ok; try done. unfold is_split. by rewrite Hpart. }
  eapply wp_mono; [exact Hcopy|]. intros [] s1 Ht1. pose proof (client_ok_touched _ _ _ _ Ht1 Hok) as Hok1.
  assert (cl_requests s1 = cl_requests s) as ER1 by by destruct Ht1 as (h & srv & -> & _). assert (cl_requests s1 !! id = Some r) as E1 by by rewrite ER1.
  apply wp_bind. eapply wp_mono; [by eapply release_region_buffer_ok|]. intros r1 s2 [(s1' & Ht2 & Hrem) (bulk & ref & read & ->)].
  set (r1 := with_arrays (cr_metadata_id r) bulk ref read r). apply wp_bind.
  assert (wp (if is_split r1 then free_parts r1 else mret r1) (λ r' s', s' = s2 ∧ ∃ parts out, r' = with_parts (tr_obj_parts (cr_req r)) parts (cr_n_obj_servers r) out r1) s2) as Hfree.
  { change (is_split r1) with (is_split r). destruct (is_split r) eqn:Hs.
    - destruct (ao_split _ _ Hact Hs) as (Hparts & _ & Hout & _). unfold free_parts. change (cr_parts r1) with (cr_parts r). rewrite Hparts.
      apply wp_bind, free_array_ok; [|intros out _; apply wp_ret; split; [done|by eexists _, _]].
      change (cr_output_buf r1) with (cr_output_buf r). destruct Hout as [->|[Hl _]]; [done|]. by eapply array_len_at.
    - apply wp_ret. split; [done|]. exists (cr_parts r), (cr_output_buf r). by destruct r as [[]]. }
  eapply wp_mono; [exact Hfree|]. intros r2 s3 (-> & parts & out & ->). apply wp_bind, finish_transfer_ok.
  { cbn. destruct (ao_arrays _ _ Hact) as (Hm & _). by eapply array_len_at. }
  match goal with |- wp _ _ (with_requests_map <[_ := ?r3]> _) => set (r' := r3) end.
  assert (output_blocks r = []) as Hout.
  { destruct (is_split r) eqn:Hs; [by apply arrived_blocks|]. apply output_blocks_null. by apply (ao_unsplit _ _ Hact). }
  rewrite Hout in Hrem. assert (finished r r') as Hfin by done. assert (request_wf S r') as Hwf' by by destruct Hwf.
  pose proof (finished_ok S L s1 s1' id r r' Hok1 E1 Ht2 Hwf' Hfin s2 Hrem) as Hok3.
  assert (cl_requests s2 = cl_requests s) as ER2.
  { destruct Hrem as (h & refs & -> & _). cbn. destruct Ht2 as (h' & srv' & -> & _). done. }
  eapply wp_mono; [apply remove_local_ok; [exact Hok3|]|].
  - cbn. apply (co_objs _ _ _ _ _ Hok3 id r'). cbn. by rewrite lookup_insert_eq.
  - intros [] s' [Hok' ER']. split; [done|]. exists r'. split; [|done]. rewrite ER'. cbn. by rewrite ER2.
Qed.

(** ** Waiting for a batch *)

Definition all_finished (ids : list Z) (R R' : gmap Z client_request) : Prop :=
  ∀ id, match R !! id with
        | Some r => if decide (id ∈ ids ∧ cr_is_done r = false) then ∃ r', R' !! id = Some r' ∧ finished r r' else R' !! id = Some r
        | None => R' !! id = None
        end.

Lemma reparted_finished r r' r'' : reparted r r' → finished r' r'' → finished r r''.
Proof. by intros [parts ->] (? & ? & ? & ?). Qed.

(** The requests [todo] are to be released; the others of [ids] are. *)
Record releasing S (L : Z → list (Z * Z)) (ids : list Z) (R : gmap Z client_request) (todo : list Z) s : Prop := {
  re_ok : ∃ L', client_ok S L' s ∧ foldl (release_list R) L' todo = foldl (release_list R) L ids;
  re_done id : id ∉ todo → match R !! id with
    | Some r => if decide (id ∈ ids ∧ cr_is_done r = false) then ∃ r', cl_requests s !! id = Some r' ∧ finished r r' else cl_requests s !! id = Some r
    | None => cl_requests s !! id = None
    end;
  re_todo id : id ∈ todo → match R !! id with
    | Some r => ∃ r', cl_requests s !! id = Some r' ∧ reparted r r' ∧ (cr_is_done r' = true → r' = r) ∧ (cr_is_done r' = true ∨ arrived r')
    | None => cl_requests s !! id = None
    end }.

Lemma releasing_step S L ids R id todo s : id ∈ ids → NoDup (id :: todo) → releasing S L ids R (id :: todo) s →
  wp (release_request id id) (λ _, releasing S L ids R todo) s.
Proof.
  intros Hid [Hni _]%list.NoDup_cons [(L' & Hok & HL) Hdone Htodo]. assert (id ∈ id :: todo) as Hin by (apply elem_of_cons; by left).
  pose proof (Htodo id Hin) as Hr. eapply wp_mono; [apply (release_request_ok S L' s id Hok)|].
  { intros r' E. destruct (R !! id) as [r|]; [|congruence]. destruct Hr as (r0 & E0 & _ & _ & ?). congruence. }
  intros [] s' [Hok' Hpost]. assert (release_list (cl_requests s) L' id = release_list R L' id) as Heq.
  { unfold release_list, owner. destruct (R !! id) as [r|]; [|by rewrite Hr]. destruct Hr as (r' & -> & [parts ->] & _). done. }
  assert (∀ id', id' ≠ id → cl_requests s' !! id' = cl_requests s !! id') as Hoth.
  { intros id' Hne. destruct (cl_requests s !! id) as [r'|]; [|by rewrite Hpost]. destruct (cr_is_done r'); [by rewrite Hpost|].
    destruct Hpost as (r2 & -> & _). by rewrite lookup_insert_ne. }
  split.
  - exists (release_list R L' id). rewrite <-Heq. split; [done|]. by rewrite Heq.
  - intros id' Hn. destruct (decide (id' = id)) as [->|Hne].
    2: { rewrite Hoth by done. apply Hdone. rewrite elem_of_cons. tauto. }
    destruct (R !! id) as [r|]; [|by rewrite Hr in Hpost; rewrite Hpost]. destruct Hr as (r' & E' & Hrep & Hsame & _). rewrite E' in Hpost.
    assert (cr_is_done r' = cr_is_done r) as Hd by by destruct Hrep as [parts ->]. destruct (cr_is_done r') eqn:Hd'.
    + rewrite decide_False by (rewrite <-Hd; naive_solver). rewrite Hpost, E'. by rewrite (Hsame eq_refl).
    + rewrite decide_True by done. destruct Hpost as (r2 & -> & Hf). rewrite lookup_insert_eq. eexists. split; [done|]. by eapply reparted_finished.
  - intros id' Hin'. rewrite Hoth by (intros ->; done). apply Htodo, elem_of_cons. by right.
Qed.

Lemma release_loop_ok S L ids R todo s : (∀ id, id ∈ todo → id ∈ ids) → NoDup todo → releasing S L ids R todo s →
  wp (for_each (zip todo todo) (λ '(id, list_id), release_request id list_id)) (λ _, releasing S L ids R []) s.
Proof.
  revert s. induction todo as [|id todo IH]; intros s Hsub Hnd Hrel; [by apply wp_ret|]. cbn. apply wp_bind.
  eapply wp_mono; [apply releasing_step; [apply Hsub, elem_of_cons; by left|done|done]|]. intros [] s' Hs'. apply IH; [|by apply list.NoDup_cons in Hnd as [_ ?]|done].
  intros id' ?. apply Hsub, elem_of_cons. by right.
Qed.

Context (qsort_wait_all : list wait_all_pkg → list wait_all_pkg) (Hsort : ∀ l, qsort_wait_all l ≡ₚ l).

(** The requests [ids] can be waited for. *)
Definition can_wait (R : gmap Z client_request) (ids : list Z) : Prop :=
  NoDup ids ∧ (∀ id r, id ∈ ids → R !! id = Some r → cr_is_done r = true ∨ under_way r) ∧
  ((PDC_MERGE_TRANSFER_MIN_COUNT < length ids)%nat → ∀ id, head ids = Some id → is_Some (R !! id)).

Lemma collect_ok S L s ids : client_ok S L s → NoDup ids → (∀ id r, id ∈ ids → cl_requests s !! id = Some r → cr_is_done r = true ∨ under_way r) →
  wp (mapM collect_request ids) (λ pkgs, waiting S L ids (cl_requests s) (qsort_wait_all (concat pkgs))) s.
Proof.
  intros Hok Hnd Hids. eapply wp_mono; [apply (wp_mapM collect_request (collected S (cl_requests s)) (λ s', s' = s)); [|done]|].
  { intros id s0 Hin ->. apply (collect_request_ok S L); [done|]. intros r. by apply Hids. }
  intros ls s' [HF ->]. destruct (collected_all _ _ _ _ HF Hnd) as (Hpe & Hks & Hkey).
  assert (∀ p, p ∈ concat ls → wp_transfer_request p ∈ ids) as Hin.
  { intros p Hp. apply (Hkey _ (wp_index p)). by apply (list_elem_of_fmap_2 pkg_key). }
  split; [done|apply progress_refl|by rewrite Hsort|by rewrite Hsort|rewrite Hsort; by apply list.Forall_forall|].
  intros id r k Hid E Hst Hs Hk. right. rewrite Hsort. apply Hkey. split; [done|]. unfold transfers. by rewrite E, Hst.
Qed.

Lemma waiting_releasing S L ids R s : waiting S L ids R [] s →
  (∀ id r, id ∈ ids → R !! id = Some r → cr_is_done r = true ∨ under_way r) →
  (∀ id r, R !! id = Some r → cr_is_done r = true → started r = false) → releasing S L ids R ids s.
Proof.
  intros [Hok Hpr _ _ _ Hcl] Hids HR. split; [by exists L| |].
  - intros id Hni. specialize (Hpr id). destruct (R !! id) as [r|] eqn:E; [|done]. destruct Hpr as (r' & E' & _ & Hsame).
    rewrite decide_False by tauto. rewrite E'. by rewrite Hsame by auto.
  - intros id Hin. specialize (Hpr id). destruct (R !! id) as [r|] eqn:E; [|done]. destruct Hpr as (r' & E' & Hrep & Hsame).
    exists r'. split; [done|]. split; [done|]. assert (cr_is_done r' = cr_is_done r) as Hd by by destruct Hrep as [parts ->].
    split; [intros Ht; apply Hsame; right; eapply HR; [done|congruence]|].
    destruct (Hids id r Hin E) as [?|(Hst & Hc & _)]; [left; congruence|right].
    assert (started r' = true) as Hst' by by destruct Hrep as [parts ->]. split; [done|]. split; [by destruct Hrep as [parts ->]|].
    intros Hs k Hk. destruct (Hcl id r' k Hin E' Hst' Hs Hk) as [?|Hn]; [done|]. by apply elem_of_nil in Hn.
Qed.

(** Waiting for a batch, from a state where all its transfers are under way. *)
Lemma wait_all_ok S L s ids : client_ok S L s → can_wait (cl_requests s) ids →
  wp (PDCregion_transfer_wait_all junk qsort_wait_all ids) (λ ret s', ret = SUCCEED ∧
    client_ok S (foldl (release_list (cl_requests s)) L ids) s' ∧ all_finished ids (cl_requests s) (cl_requests s')) s.
Proof.
  intros Hok (Hnd & Hids & Hfirst). destruct ids as [|id0 ids'].
  { apply wp_ret. split; [done|]. split; [done|]. intros id. destruct (cl_requests s !! id); [|done].
    rewrite decide_False; [done|]. by intros [?%elem_of_nil _]. }
  set (ids := id0 :: ids') in *. change (PDCregion_transfer_wait_all junk qsort_wait_all ids) with (
    merged ← (if decide (PDC_MERGE_TRANSFER_MIN_COUNT < length ids)%nat then
                r ← get_request id0; mret (if decide (cr_merged_request_id r = 0) then None else Some (cr_merged_request_id r))
              else mret None);
    let my_transfer_request_id := match merged with Some id => [id] | None => ids end in
    pkgs ← mapM collect_request my_transfer_request_id;
    _ ← for_each (group_by wp_data_server_id (qsort_wait_all (concat pkgs))) wait_group;
    _ ← match merged with Some id => m ← get_request id; copy_merged junk m ids None | None => mret () end;
    _ ← for_each (zip my_transfer_request_id ids) (λ '(id, list_id), release_request id list_id);
    mret (M := M Srv) SUCCEED).
  apply wp_bind.
  assert (wp (if decide (PDC_MERGE_TRANSFER_MIN_COUNT < length ids)%nat then
                r ← get_request id0; mret (if decide (cr_merged_request_id r = 0) then None else Some (cr_merged_request_id r))
              else mret None) (λ m s', m = None ∧ s' = s) s) as Hmerged.
  { case_decide as Hlen; [|by apply wp_ret]. destruct (Hfirst Hlen id0 eq_refl) as [r Hr]. apply wp_bind, (wp_get_request _ r); [done|].
    apply wp_ret. destruct (co_requests _ _ _ _ _ Hok _ _ Hr) as [Hwf _]. by rewrite (rw_merged _ _ _ _ Hwf). }
  eapply wp_mono; [exact Hmerged|]. intros m s0 [-> ->]. cbn zeta iota.
  apply wp_bind. eapply wp_mono; [by apply (collect_ok S L)|]. intros pkgs s1 Hw. apply wp_bind.
  eapply wp_mono; [apply (wait_groups_ok S L ids (cl_requests s)); [by intros g (x & g' & ->)%group_by_cons|by rewrite group_by_concat]|].
  intros [] s2 Hw2. apply wp_bind, wp_ret, wp_bind. eapply wp_mono; [apply (release_loop_ok S L ids (cl_requests s)); [done..|]|].
  { apply waiting_releasing; [done..|]. intros id r E Hd. destruct (co_requests _ _ _ _ _ Hok _ _ E) as [_ [Hm|[_ ?]]]; [|congruence].
    unfold started. by rewrite Hm. }
  intros [] s3 [(L' & Hok' & HL) Hdone _]. apply wp_ret. split; [done|]. split; [by rewrite <-HL|].
  intros id. apply Hdone. by intros ?%elem_of_nil.
Qed.
End Spec.
