(* ===== verification/ClientStartSpec.v ===== *)
(** Starting a batch of transfers: the requests of a static partition, or of an
    object on one server, get their packages, the packages of one server are
    packed into one bulk buffer, and every transfer is under way when the batch
    was started. *)

From stdpp Require Import gmap sets list.
From S2P Require Export ClientTransferSpec.
#[local] Open Scope Z_scope.

(** * Packages that are to be sent *)

(** A package with the kind of its access and the size of its data. *)
Record todo := Todo { td_access : pdc_access_t; td_size : Z; td_pkg : start_all_pkg }.
Definition td_key (t : todo) : Z * nat := (pk_transfer_request (td_pkg t), Z.to_nat (pk_index (td_pkg t))).
(** What the package takes in the bulk buffer, at most. *)
Definition td_weight (t : todo) : Z := 24 + 24 * lenZ (pk_remote_size (td_pkg t)) + td_size t.
Definition weight (ts : list todo) : Z := foldr (λ t w, td_weight t + w) 0 ts.

Lemma weight_cons t ts : weight (t :: ts) = td_weight t + weight ts.
Proof. done. Qed.
Lemma td_weight_size t : td_size t ≤ td_weight t - 24.
Proof. unfold td_weight. pose proof (lenZ_nonneg (pk_remote_size (td_pkg t))). lia. Qed.
Lemma weight_app ts ts' : weight (ts ++ ts') = weight ts + weight ts'.
Proof. unfold weight. induction ts as [|t ts IH]; cbn; lia. Qed.
#[global] Instance weight_perm : Proper ((≡ₚ) ==> (=)) weight.
Proof. unfold weight. induction 1; cbn; lia. Qed.

(** The entry [k] of the arrays is set. *)
Definition array_put {A} (a : array A) (k : nat) (x : A) : array A := match a with Array l => Array (<[k := Some x]> l) | a => a end.
Definition entered (k : nat) (b c off m : Z) (r : client_request) : client_request :=
  with_arrays (array_put (cr_metadata_id r) k m) (array_put (cr_bulk_buf r) k b) (array_put (cr_bulk_buf_ref r) k c)
    (if decide (access_of r = PDC_READ) then array_put (cr_read_bulk_buf r) k (b, off) else cr_read_bulk_buf r) r.

Lemma array_at_put {A} (a : array A) k x j : array_at (array_put a k x) j = if decide (j = k ∧ is_Some (array_len a) ∧ (k < default 0 (array_len a))%nat) then Some x else array_at a j.
Proof.
  destruct a as [|l|]; cbn; [by rewrite decide_False by naive_solver| |by rewrite decide_False by naive_solver]. case_decide as H.
  - destruct H as (-> & _ & Hk). by rewrite list_lookup_insert_eq.
  - destruct (decide (j = k)) as [->|]; [|by rewrite list_lookup_insert_ne].
    rewrite list_insert_ge; [done|]. destruct (decide (length l ≤ k)%nat); [done|]. exfalso. apply H. split; [done|]. split; [by eexists|lia].
Qed.
Lemma array_at_put_len {A} (a : array A) n k x j : array_len a = Some n → (k < n)%nat →
  array_at (array_put a k x) j = if decide (j = k) then Some x else array_at a j.
Proof.
  intros Hl Hk. rewrite array_at_put, Hl. cbn. destruct (decide (j = k)) as [->|]; [|by rewrite decide_False by naive_solver].
  rewrite decide_True; [done|]. split; [done|]. split; [by eexists|done].
Qed.
Lemma array_len_put {A} (a : array A) k x : array_len (array_put a k x) = array_len a.
Proof. destruct a as [|l|]; [done| |done]. cbn. by rewrite length_insert. Qed.
Lemma wp_array_put {Srv A} (a : array A) n k x Q (s : client Srv) : array_len a = Some n → (k < n)%nat → Q (array_put a k x) s → wp (array_set a k x) Q s.
Proof. destruct a as [|l|]; [done| |done]. intros [= <-]. apply wp_array_set. Qed.

Section Start.
Context {Srv : Type} `{SA : ServersAnswer Srv} (junk : byte) (pdc_server_num_g : Z) (U : gset Z).
Implicit Types s : client Srv.
#[local] Abbreviation client_ok := (client_ok pdc_server_num_g U).
#[local] Abbreviation request_wf := (request_wf pdc_server_num_g U).
#[local] Abbreviation requests_ok := (requests_ok pdc_server_num_g U).

(** The package of an entry that is not set yet. *)
Definition pkg_ready (R : gmap Z client_request) (t : todo) : Prop :=
  ∃ r k, R !! pk_transfer_request (td_pkg t) = Some r ∧ started r = true ∧ access_of r = td_access t ∧
    pk_index (td_pkg t) = Z.of_nat k ∧ (k < cr_n_obj_servers r)%nat ∧ empty_entry r k ∧
    pkg_ok (td_access t) (cr_req r) (td_pkg t) ∧ td_size t = obj_data_size (cr_req r) (td_pkg t) ∧ td_size t = entry_bytes r k.

(** ** Entering a package *)

Lemma filled_entered S r k b c off m n : active_ok S r → (k < cr_n_obj_servers r)%nat →
  (access_of r = PDC_READ → S !! b = Some n ∧ 0 ≤ off ∧ off + entry_bytes r k ≤ n < W64) → filled S (entered k b c off m r) k.
Proof.
  intros Hact Hk Hle. destruct (ao_arrays _ _ Hact) as (Hm & Hbl & Hrf & Hrd). split.
  - exists b, c. cbn. rewrite !(array_at_put_len _ _ _ _ _ Hbl Hk), !(array_at_put_len _ _ _ _ _ Hrf Hk), !decide_True by done.
    split; [done|]. split; [done|]. change (access_of (entered k b c off m r)) with (access_of r). intros Hacc. rewrite decide_True in Hrd by done.
    exists off, n. rewrite decide_True by done. rewrite (array_at_put_len _ _ _ _ _ Hrd Hk), decide_True by done.
    split; [done|]. by apply Hle.
  - cbn. rewrite (array_at_put_len _ _ _ _ _ Hm Hk), decide_True by done. by eexists.
Qed.

Lemma entered_other r k b c off m j : j ≠ k →
  array_at (cr_bulk_buf (entered k b c off m r)) j = array_at (cr_bulk_buf r) j ∧
  array_at (cr_bulk_buf_ref (entered k b c off m r)) j = array_at (cr_bulk_buf_ref r) j ∧
  array_at (cr_metadata_id (entered k b c off m r)) j = array_at (cr_metadata_id r) j ∧
  array_at (cr_read_bulk_buf (entered k b c off m r)) j = array_at (cr_read_bulk_buf r) j.
Proof.
  intros Hj. cbn. rewrite !array_at_put, !decide_False by naive_solver. split; [done|]. split; [done|]. split; [done|].
  case_decide; [|done]. rewrite array_at_put, decide_False; [done|naive_solver].
Qed.

Lemma filled_entered_other S r k b c off m j : j ≠ k → filled S r j → filled S (entered k b c off m r) j.
Proof.
  intros Hj [(b' & c' & Hb & Hc & Hr) Hm]. destruct (entered_other r k b c off m j Hj) as (Eb & Ec & Em & Er).
  split; [|by rewrite Em]. exists b', c'. rewrite Eb, Ec, Er. done.
Qed.
Lemma empty_entered_other r k b c off m j : j ≠ k → empty_entry r j → empty_entry (entered k b c off m r) j.
Proof. intros Hj. destruct (entered_other r k b c off m j Hj) as (Eb & Ec & _). unfold empty_entry. by rewrite Eb, Ec. Qed.

Lemma active_entered S r k b c off m n : active_ok S r → (k < cr_n_obj_servers r)%nat →
  (access_of r = PDC_READ → S !! b = Some n ∧ 0 ≤ off ∧ off + entry_bytes r k ≤ n < W64) → active_ok S (entered k b c off m r).
Proof.
  intros Hact Hk Hle. pose proof (filled_entered S r k b c off m n Hact Hk Hle) as Hfill. destruct Hact as [Hn (Hm & Hbl & Hrf & Hrd) He Hsp Hun].
  split; [done| | |done|done].
  - cbn. rewrite !array_len_put. split; [done|]. split; [done|]. split; [done|].
    change (access_of (entered k b c off m r)) with (access_of r). case_decide; [by rewrite array_len_put|done].
  - intros j Hj. destruct (decide (j = k)) as [->|Hne]; [by right|].
    destruct (He j Hj); [left; by apply empty_entered_other|right; by apply filled_entered_other].
Qed.

Lemma bulk_refs_entered r k b c off m : array_len (cr_bulk_buf r) = Some (cr_n_obj_servers r) → array_len (cr_bulk_buf_ref r) = Some (cr_n_obj_servers r) →
  (k < cr_n_obj_servers r)%nat → empty_entry r k → bulk_refs (entered k b c off m r) ≡ₚ (b, c) :: bulk_refs r.
Proof.
  intros Hbl Hrf Hk [Eb Ec]. unfold bulk_refs. change (cr_n_obj_servers (entered k b c off m r)) with (cr_n_obj_servers r).
  destruct (omap_at (λ j, x ← array_at (cr_bulk_buf (entered k b c off m r)) j; y ← array_at (cr_bulk_buf_ref (entered k b c off m r)) j; Some (x, y))
    (λ j, b ← array_at (cr_bulk_buf r) j; c ← array_at (cr_bulk_buf_ref r) j; Some (b, c)) (seq 0 (cr_n_obj_servers r)) k) as (rest & -> & ->).
  - apply NoDup_seq.
  - apply elem_of_seq. lia.
  - intros j Hj. destruct (entered_other r k b c off m j Hj) as (-> & -> & _). done.
  - rewrite Eb. cbn. rewrite (array_at_put_len _ _ _ _ _ Hbl Hk), (array_at_put_len _ _ _ _ _ Hrf Hk), !decide_True by done. done.
Qed.

Lemma started_entered r k b c off m : started r = true → started (entered k b c off m r) = true.
Proof. unfold started. cbn. by destruct (cr_metadata_id r). Qed.

Lemma private_entered r k b c off m : started r = true → private_blocks (entered k b c off m r) = private_blocks r.
Proof. intros Hst. unfold private_blocks. by rewrite started_entered, Hst. Qed.
Lemma shared_entered r k b c off m : started r = true → array_len (cr_bulk_buf r) = Some (cr_n_obj_servers r) →
  array_len (cr_bulk_buf_ref r) = Some (cr_n_obj_servers r) → (k < cr_n_obj_servers r)%nat → empty_entry r k →
  shared_refs (entered k b c off m r) ≡ₚ (b, c) :: shared_refs r.
Proof. intros Hst ????. unfold shared_refs. rewrite started_entered, Hst by done. by apply bulk_refs_entered. Qed.

Lemma pkg_ready_entered R t t' r b c off m : R !! pk_transfer_request (td_pkg t) = Some r → td_key t' ≠ td_key t → pkg_ready R t' →
  pkg_ready (<[pk_transfer_request (td_pkg t) := entered (Z.to_nat (pk_index (td_pkg t))) b c off m r]> R) t'.
Proof.
  intros E Hk (r' & k' & E' & Hst & Hacc & Hi & Hlt & Hemp & Hok & Hsz & Hen).
  destruct (decide (pk_transfer_request (td_pkg t') = pk_transfer_request (td_pkg t))) as [Heq|Hne].
  - assert (r' = r) as -> by congruence. exists (entered (Z.to_nat (pk_index (td_pkg t))) b c off m r), k'. rewrite Heq, lookup_insert_eq.
    split; [done|]. split; [by apply started_entered|]. split; [done|]. split; [done|]. split; [done|]. split; [|done].
    apply empty_entered_other; [|done]. intros ->. apply Hk. unfold td_key. rewrite Heq. f_equal. lia.
  - exists r', k'. by rewrite lookup_insert_ne.
Qed.

(** ** The state while packages are sent *)

(** Request [r0] of the batch, of which every entry is set or in [ts]. *)
Definition on_the_way (ts : list todo) (id : Z) (r0 r : client_request) : Prop :=
  started r = true ∧ cr_is_done r = false ∧ cr_local_obj_id r = cr_local_obj_id r0 ∧ cr_consistency r = cr_consistency r0 ∧
  asks_servers r = asks_servers r0 ∧ (is_split r = true → ∀ k, (k < cr_n_obj_servers r)%nat → is_Some (part_at r k)) ∧
  ∀ k, (k < cr_n_obj_servers r)%nat → is_Some (array_at (cr_bulk_buf r) k) ∨ (id, k) ∈ td_key <$> ts.

(** The requests [ids] of [R] are started and the packages [ts] are left; [X] are
    references to a bulk buffer that its packages do not have yet. *)
Record starting S L (ids : list Z) (R : gmap Z client_request) (X : list (Z * Z)) (ts : list todo) s : Prop := {
  sg_layout : layout U (gather private_blocks (cl_requests s)) (X ++ gather shared_refs (cl_requests s)) (cl_heap s) (cl_refs s) (cl_next s);
  sg_sizes : sizes_ok S (cl_heap s) (cl_next s);
  sg_requests : requests_ok S (cl_requests s);
  sg_lists : lists_ok L (cl_objs s) (cl_nodes s) (cl_next s);
  sg_objs id r : cl_requests s !! id = Some r → is_Some (cl_objs s !! cr_local_obj_id r);
  sg_ready : Forall (pkg_ready (cl_requests s)) ts;
  sg_keys : NoDup (td_key <$> ts);
  sg_weight : weight ts < W64;
  sg_batch id : match R !! id with
    | Some r0 => if decide (id ∈ ids) then ∃ r, cl_requests s !! id = Some r ∧ on_the_way ts id r0 r else cl_requests s !! id = Some r0
    | None => cl_requests s !! id = None
    end;
  sg_mine : Forall (λ t, pk_transfer_request (td_pkg t) ∈ ids) ts }.

Lemma starting_ok S L ids R ts s : starting S L ids R [] ts s → client_ok S L s.
Proof. intros []. by split. Qed.

Lemma starting_perm S L ids R X ts ts' s : ts ≡ₚ ts' → starting S L ids R X ts s → starting S L ids R X ts' s.
Proof.
  intros HP [H1 H2 H3 H4 H5 H6 H7 H8 H9 H10]. split; try done; try by rewrite <-HP.
  intros id. specialize (H9 id). destruct (R !! id) as [r0|]; [|done]. case_decide; [|done]. destruct H9 as (r & E & Hr). exists r. split; [done|].
  destruct Hr as (? & ? & ? & ? & ? & ? & Hk). do 6 (split; [done|]). intros k Hlt. destruct (Hk k Hlt); [by left|right; by rewrite <-HP].
Qed.

Lemma on_the_way_entered t ts id r0 r b c off m : on_the_way (t :: ts) id r0 r →
  array_len (cr_bulk_buf r) = Some (cr_n_obj_servers r) → (Z.to_nat (pk_index (td_pkg t)) < cr_n_obj_servers r)%nat → id = pk_transfer_request (td_pkg t) →
  on_the_way ts id r0 (entered (Z.to_nat (pk_index (td_pkg t))) b c off m r).
Proof.
  intros (Hst & Hd & Ho & Hc & Ha & Hp & Hk) Hbl Hlt ->. split; [by apply started_entered|]. do 5 (split; [done|]). intros k Hk'.
  cbn. rewrite (array_at_put_len _ _ _ _ _ Hbl Hlt). case_decide as Hj; [left; by eexists|].
  destruct (Hk k Hk') as [?|[Heq|?]%elem_of_cons]; [by left| |by right]. unfold td_key in Heq. congruence.
Qed.

Lemma set_entry_ok S L ids R b c X t ts off n m s : starting S L ids R ((b, c) :: X) (t :: ts) s →
  (td_access t = PDC_READ → S !! b = Some n ∧ 0 ≤ off ∧ off + td_size t ≤ n < W64) →
  wp (set_entry b c (td_pkg t) off m) (λ _, starting S L ids R X ts) s.
Proof.
  intros [Hl Hs Hr Hli Ho [Ht Hts]%list.Forall_cons [Hn Hnd]%list.NoDup_cons Hw Hb [Hm Hms]%list.Forall_cons] Hread.
  destruct Ht as (r & k & E & Hst & Hacc & Hi & Hk & Hemp & Hpk & _ & Hsz). destruct (Hr _ _ E) as [Hwf [Hnull|[Hact Hdone]]].
  { unfold started in Hst. by rewrite Hnull in Hst. }
  rewrite <-Hacc, Hsz in Hread. pose proof (ao_arrays _ _ Hact) as (Ha1 & Ha2 & Ha3 & Ha4).
  unfold set_entry. apply wp_bind, (wp_get_request _ r); [done|]. rewrite Hi, Nat2Z.id.
  apply wp_bind, (wp_array_put _ _ _ _ _ _ Ha2 Hk), wp_bind, (wp_array_put _ _ _ _ _ _ Ha3 Hk), wp_bind.
  assert (wp (if decide (access_of r = PDC_READ) then array_set (cr_read_bulk_buf r) k (b, off) else mret (cr_read_bulk_buf r))
    (λ a s', a = (if decide (access_of r = PDC_READ) then array_put (cr_read_bulk_buf r) k (b, off) else cr_read_bulk_buf r) ∧ s' = s) s) as Hrd.
  { case_decide; [by apply (wp_array_put _ _ _ _ _ _ Ha4 Hk)|by apply wp_ret]. }
  eapply wp_mono; [exact Hrd|]. intros a s' [-> ->]. apply wp_bind, (wp_array_put _ _ _ _ _ _ Ha1 Hk), wp_put_request. fold (entered k b c off m r).
  assert (active_ok S (entered k b c off m r)) as Hact' by by eapply active_entered.
  split; cbn; [|done| |done| | |done| | |done].
  - rewrite (gather_insert private_blocks), (gather_insert shared_refs), private_entered, shared_entered by done.
    rewrite (gather_lookup private_blocks _ _ _ E), (gather_lookup shared_refs _ _ _ E) in Hl.
    eapply layout_perm; [done| |exact Hl]. cbn. by rewrite Permutation_middle.
  - intros id r'. destruct (decide (id = pk_transfer_request (td_pkg t))) as [->|]; [rewrite lookup_insert_eq; intros [= <-]|rewrite lookup_insert_ne by done; apply Hr].
    split; [by destruct Hwf|by right].
  - intros id r'. destruct (decide (id = pk_transfer_request (td_pkg t))) as [->|]; [rewrite lookup_insert_eq; intros [= <-]; by eapply (Ho _ r)|].
    rewrite lookup_insert_ne by done. apply Ho.
  - rewrite list.Forall_forall in Hts |- *. intros t' Ht'. replace k with (Z.to_nat (pk_index (td_pkg t))) by lia.
    apply pkg_ready_entered; [done| |by apply Hts]. intros Heq. apply Hn. rewrite <-Heq. by apply list_elem_of_fmap_2.
  - rewrite weight_cons in Hw. assert (0 ≤ td_size t) by (rewrite Hsz; by eapply entry_bytes_nonneg). pose proof (td_weight_size t). lia.
  - intros id. specialize (Hb id). destruct (R !! id) as [r0|] eqn:E0.
    2: { rewrite lookup_insert_ne; [done|]. intros <-. congruence. }
    destruct (decide (id = pk_transfer_request (td_pkg t))) as [->|Hne].
    + rewrite decide_True in Hb |- * by done. destruct Hb as (r' & E' & Hon). assert (r' = r) as -> by congruence.
      exists (entered k b c off m r). rewrite lookup_insert_eq. split; [done|]. replace k with (Z.to_nat (pk_index (td_pkg t))) by lia.
      eapply on_the_way_entered; try done. lia.
    + rewrite lookup_insert_ne by done. destruct (decide (id ∈ ids)); [|done]. destruct Hb as (r' & E' & ? & ? & ? & ? & ? & ? & Hc). exists r'. split; [done|].
      do 6 (split; [done|]). intros k' Hk'. destruct (Hc k' Hk') as [?|[Heq|?]%elem_of_cons]; [by left| |by right]. unfold td_key in Heq. congruence.
Qed.
(** ** One group of packages *)

(** The positions in the bulk buffer for the data of a read. *)
Fixpoint positions (a : Z) (ts : list todo) : list Z := match ts with [] => [] | t :: ts => a :: positions (a + td_size t) ts end.
Definition data_size (ts : list todo) : Z := foldr (λ t w, td_size t + w) 0 ts.

Lemma set_entries_ok S L ids R b c acc rest n g : ∀ s a pos ms, starting S L ids R (replicate (length g) (b, c)) (g ++ rest) s →
  Forall (λ t, td_access t = acc ∧ 0 ≤ td_size t) g → length ms = length g →
  (acc = PDC_READ → pos = positions a g ∧ S !! b = Some n ∧ 0 ≤ a ∧ a + data_size g ≤ n < W64) →
  wp (set_entries b c (td_pkg <$> g) pos ms) (λ _, starting S L ids R [] rest) s.
Proof.
  induction g as [|t g IH]; intros s a pos [|m ms] Hs Hg Hlen Hread; cbn in Hlen; try lia; [by apply wp_ret|].
  apply list.Forall_cons in Hg as [[Hacc Hsz] Hg]. cbn. apply wp_bind.
  assert (0 ≤ data_size g) as H0 by (clear -Hg; induction Hg as [|t g [_ ?] _ IH]; unfold data_size in *; cbn; lia).
  change (data_size (t :: g)) with (td_size t + data_size g) in Hread.
  eapply wp_mono; [eapply (set_entry_ok _ _ _ _ _ _ _ _ _ _ n); [exact Hs|]|].
  - intros Hr. rewrite Hacc in Hr. destruct (Hread Hr) as (-> & Hb & Ha & Hle). cbn. split; [done|]. lia.
  - intros [] s' Hs'. apply (IH s' (a + td_size t) (tail pos)); [done|done|lia|]. intros Hr. destruct (Hread Hr) as (-> & Hb & Ha & Hle).
    split; [done|]. split; [done|]. lia.
Qed.

(** The packages with their requests, as they are packed. *)
Definition pkg_of (t : todo) (x : pkg) : Prop := x.2 = td_pkg t ∧ pkg_ok (td_access t) x.1 x.2 ∧ td_size t = obj_data_size x.1 x.2 ∧ tr_access_type x.1 = td_access t.

Lemma with_requests_ok s ts : Forall (pkg_ready (cl_requests s)) ts →
  wp (with_requests (td_pkg <$> ts)) (λ xs s', s' = s ∧ Forall2 pkg_of ts xs) s.
Proof.
  intros Hts. apply wp_bind, wp_gets.
  assert (∃ xs, mapM (λ p, r ← cl_requests s !! pk_transfer_request p; Some (cr_req r, p)) (td_pkg <$> ts) = Some xs ∧ Forall2 pkg_of ts xs) as (xs & Hxs & HF).
  { induction Hts as [|t ts Ht _ (xs & IH & HF)]; [by exists []|]. destruct Ht as (r & k & E & _ & Hacc & _ & _ & _ & Hpk & Hsz & _).
    exists ((cr_req r, td_pkg t) :: xs). cbn. rewrite E. cbn. rewrite IH. split; [done|]. by constructor. }
  by apply (wp_lift _ xs).
Qed.

Lemma pkgs_size ts xs : Forall2 pkg_of ts xs →
  24 * lenZ xs + sum_of (λ x, meta_size x + obj_data_size x.1 x.2) xs = weight ts ∧ sum_of (λ x, obj_data_size x.1 x.2) xs = data_size ts ∧
  ∀ a, read_positions a xs = positions a ts.
Proof.
  induction 1 as [|t x ts xs (Hx & Hok & Hsz & _) _ (IH1 & IH2 & IH3)]; [done|]. rewrite weight_cons. unfold td_weight, data_size, sum_of, meta_size, lenZ in *. cbn.
  destruct (pk_size _ _ _ Hok) as [Hl _]. rewrite Hx in *. rewrite <-Hsz, IH2. split; [lia|]. split; [done|]. intros a. by rewrite IH3.
Qed.

Lemma starting_alloc S L ids R ts g d s : starting S L ids R [] ts s → (0 < g)%nat →
  let s1 := with_heap (<[cl_next s := d]> (cl_heap s)) (with_next (cl_next s + 1) s) in
  let s2 := with_refs (<[cl_next s1 := Z.of_nat g]> (cl_refs s1)) (with_next (cl_next s1 + 1) s1) in
  starting (<[cl_next s := lenZ d]> S) L ids R (replicate g (cl_next s, cl_next s1)) ts s2 ∧ S ⊆ <[cl_next s := lenZ d]> S.
Proof.
  intros [Hl [Hs Hn] Hr Hli Ho Ht Hk Hw Hb Hm] Hg. cbn. set (n := cl_next s) in *.
  assert (S !! n = None) as Hfresh by (destruct (S !! n) as [k|] eqn:E; [specialize (Hn _ _ E); lia|done]).
  assert (S ⊆ <[n := lenZ d]> S) as Hsub by by apply insert_subseteq. split; [|done]. split; cbn; try done.
  - replace (n + 1 + 1) with ((n + 1) + 1) by lia. apply layout_alloc_shared; [done|lia|done].
  - split.
    + intros b d'. destruct (decide (b = n)) as [->|]; [rewrite !lookup_insert_eq; by intros [= <-]|rewrite !lookup_insert_ne by done; apply Hs].
    + intros b k. destruct (decide (b = n)) as [->|]; [lia|]. rewrite lookup_insert_ne by done. intros E. specialize (Hn _ _ E). lia.
  - eapply requests_ok_weaken; [|exact Hr]. done.
  - destruct Hli as [? ? ? Hx]. split; try done. intros obj t Hin. specialize (Hx obj t Hin). lia.
Qed.
Lemma starting_srv S L ids R X ts srv s : starting S L ids R X ts s → starting S L ids R X ts (with_srv srv s).
Proof. by intros []. Qed.

Lemma request_all_ok n acc ds b size Q s : (∀ srv ms, length ms = n → Q ms (with_srv srv s)) →
  wp (PDC_Client_transfer_request_all n acc ds b size) Q s.
Proof.
  intros HQ. destruct (all_answers (cl_srv s) (cl_heap s) ds acc n b size) as (id & srv & Hrun). unfold PDC_Client_transfer_request_all.
  apply wp_bind, wp_gets, wp_bind, wp_gets, wp_bind. eapply wp_lift; [exact Hrun|]. cbn beta iota. apply wp_bind. eexists _, _. split; [done|].
  apply wp_ret, HQ. by rewrite length_fmap, length_seq.
Qed.

Lemma start_group_ok S L ids R acc g rest s : g ≠ [] → acc = PDC_READ ∨ acc = PDC_WRITE → Forall (λ t, td_access t = acc) g →
  starting S L ids R [] (g ++ rest) s → wp (start_group junk (td_pkg <$> g)) (λ _ s', ∃ S', S ⊆ S' ∧ starting S' L ids R [] rest s') s.
Proof.
  intros Hg Hacc Ha Hs. pose proof (sg_ready _ _ _ _ _ _ _ Hs) as [Hready _]%Forall_app. pose proof (sg_weight _ _ _ _ _ _ _ Hs) as Hw.
  unfold start_group. apply wp_bind. eapply wp_mono; [by apply with_requests_ok|]. intros xs s0 [-> HF].
  destruct (pkgs_size _ _ HF) as (Hsum & Hdata & Hpos). pose proof (Forall2_length HF) as Hlen.
  destruct xs as [|x xs]; [by destruct g|]. set (xs' := x :: xs) in *. apply wp_bind, (wp_lift _ x); [done|].
  assert (tr_access_type x.1 = acc) as ->.
  { destruct g as [|t g]; [done|]. apply list.Forall_cons in Ha as [<- _]. by apply list.Forall2_cons in HF as [(_ & _ & _ & ?) _]. }
  assert (Forall (λ x, pkg_ok acc x.1 x.2) xs') as Hok.
  { eapply Forall2_Forall_r; [exact HF|]. eapply list.Forall_impl; [exact Ha|]. intros t Ht y (_ & Hy & _). by rewrite <-Ht. }
  assert (Forall (λ t, td_access t = acc ∧ 0 ≤ td_size t) g) as Hg2.
  { apply list.Forall_forall. intros t Ht. rewrite list.Forall_forall in Ha, Hready. split; [by apply Ha|].
    destruct (Hready t Ht) as (r & k & _ & _ & _ & _ & _ & _ & _ & -> & _). apply obj_data_size_range. }
  assert (0 ≤ weight rest) as Hrest.
  { pose proof (sg_ready _ _ _ _ _ _ _ Hs) as [_ Hr]%Forall_app. clear -Hr. induction Hr as [|t ts Ht _ IH]; [done|]. rewrite weight_cons.
    destruct Ht as (r & k & _ & _ & _ & _ & _ & _ & _ & Hsz & _). pose proof (obj_data_size_range (cr_req r) (td_pkg t)). pose proof (td_weight_size t). lia. }
  rewrite weight_app in Hw.
  destruct (pack_all_ok junk acc xs' ltac:(by destruct Hacc; [left|right]) Hok) as (buf & ds & Hpack & _ & _ & Hread & Hb64); [lia|].
  apply wp_bind. eapply wp_lift; [exact Hpack|]. cbn beta iota. apply wp_bind, wp_alloc_block, wp_bind, wp_alloc_ref, wp_bind, request_all_ok.
  intros srv ms Hms. destruct (starting_alloc S L ids R _ (length g) buf s Hs) as [Hst HS]; [destruct g; [done|cbn; lia]|]. rewrite length_fmap.
  eapply wp_mono; [eapply (set_entries_ok _ _ _ _ _ _ acc rest (lenZ buf) g _ 0); [apply starting_srv, Hst|done|by rewrite Hms, length_fmap|]|].
  - intros ->. rewrite decide_True by done. rewrite Hpos. split; [done|]. split; [apply lookup_insert_eq|]. split; [done|]. rewrite <-Hdata. specialize (Hread eq_refl). lia.
  - intros [] s' Hs'. by eexists.
Qed.

Lemma start_groups_ok L ids R acc rest groups : acc = PDC_READ ∨ acc = PDC_WRITE → ∀ S ts s, concat groups = td_pkg <$> ts → (∀ g, g ∈ groups → g ≠ []) →
  Forall (λ t, td_access t = acc) ts → starting S L ids R [] (ts ++ rest) s →
  wp (for_each groups (start_group junk)) (λ _ s', ∃ S', S ⊆ S' ∧ starting S' L ids R [] rest s') s.
Proof.
  intros Hacc. induction groups as [|g groups IH]; intros S ts s Hc Hne Ha Hs; cbn in Hc.
  - destruct ts; [|done]. apply wp_ret. by exists S.
  - symmetry in Hc. apply fmap_app_inv in Hc as (tg & ts' & -> & Hc & ->). apply Forall_app in Ha as [Ha1 Ha2]. rewrite <-app_assoc in Hs. apply wp_bind.
    eapply wp_mono; [apply (start_group_ok S L ids R acc tg (ts' ++ rest)); [|done..]|].
    { intros ->. by apply (Hne (td_pkg <$> [])); [apply elem_of_cons; left|]. }
    intros [] s' (S' & HS & Hs'). eapply wp_mono; [apply (IH S' ts' s'); [done| |done|done]|].
    { intros g' ?. apply Hne, elem_of_cons. by right. }
    intros [] s'' (S'' & HS' & Hs''). exists S''. split; [by etrans|done].
Qed.

Lemma start_all_requests_ok S L ids R acc rest pkgs ts s : acc = PDC_READ ∨ acc = PDC_WRITE → pkgs = td_pkg <$> ts →
  Forall (λ t, td_access t = acc) ts → starting S L ids R [] (ts ++ rest) s →
  wp (PDC_Client_start_all_requests junk pkgs) (λ _ s', ∃ S', S ⊆ S' ∧ starting S' L ids R [] rest s') s.
Proof.
  intros Hacc -> Ha Hs. eapply start_groups_ok; [done|by apply group_by_concat|by intros g (x & g' & ->)%group_by_cons|done|done].
Qed.
(** ** Preparing a request *)

Lemma obj_data_size_vol r p : (1 ≤ tr_remote_region_ndim r ≤ 3)%nat → length (pk_remote_size p) = tr_remote_region_ndim r →
  Forall (Z.lt 0) (pk_remote_size p) → 0 < tr_unit r → vol (pk_remote_size p) * tr_unit r < W64 →
  obj_data_size r p = vol (pk_remote_size p) * tr_unit r.
Proof.
  unfold obj_data_size. generalize (tr_remote_region_ndim r) (tr_unit r) (pk_remote_size p). clear r p. intros n unit sz Hn Hl Hs Hu Hv.
  apply dims_cases in Hn as [->|[->| ->]]; dims3 Hl s0 s1 s2; repeat match goal with H : Forall _ (_ :: _) |- _ => apply list.Forall_cons in H as [? H] end;
    unfold arr; cbn in *.
  - rewrite u64_id by nia. ring.
  - rewrite (u64_id (s0 * unit)), u64_id by nia. ring.
  - assert (0 < s0 * unit ∧ 0 < s0 * unit * s1) as [? ?] by nia.
    rewrite (u64_id (s0 * unit)), (u64_id (s0 * unit * s1)), u64_id by nia. ring.
Qed.

(** A new node [t] for the request. *)
Definition add_node (obj t id : Z) (L : Z → list (Z * Z)) (o : Z) : list (Z * Z) := if decide (o = obj) then L o ++ [(t, id)] else L o.
(** The end of the list of the object is its last node. *)
Definition end_ok (L : Z → list (Z * Z)) (objs : gmap Z obj_info) (obj : Z) : Prop :=
  ∀ o, objs !! obj = Some o → L obj ≠ [] → oi_local_request_end o = fst <$> list.last (L obj).

Lemma attach_ok S L s obj id : client_ok S L s → is_Some (cl_objs s !! obj) → end_ok L (cl_objs s) obj →
  wp (attach_local_transfer_request obj id) (λ _ s', ∃ t, client_ok S (add_node obj t id L) s' ∧ cl_requests s' = cl_requests s ∧
    (∀ obj', end_ok L (cl_objs s) obj' → end_ok (add_node obj t id L) (cl_objs s') obj') ∧ cl_heap s' = cl_heap s) s.
Proof.
  intros [Hl [Hs Hn] Hr [Hch Hnd Hap Hnx] Ho] [o Eo] Hend. eapply wp_mono; [eapply attach_spec; eauto|].
  intros [] s' (o' & nodes' & -> & (h & e & n & Ho') & He & _ & Hc & Hframe). exists (cl_next s). split; [|split; [done|split; [|done]]].
  - split; cbn; [|split; [done|]|done| |].
    + destruct Hl as [? ? ? ? ? ? Hx]. split; try done. intros b Hb. specialize (Hx b Hb). lia.
    + intros b k Hb. specialize (Hn b k Hb). lia.
    + assert (∀ o1 t, t ∈ (add_node obj (cl_next s) id L o1).*1 → t ∈ (L o1).*1 ∨ t = cl_next s ∧ o1 = obj) as Hin.
      { intros o1 t. unfold add_node. destruct (decide (o1 = obj)); [|by left]. rewrite fmap_app, elem_of_app. intros [?|Hx]; [by left|right].
        by apply list_elem_of_singleton in Hx. }
      split.
      * intros o1 oi. unfold add_node. destruct (decide (o1 = obj)) as [->|Hd]; [rewrite lookup_insert_eq; by intros [= <-]|].
        rewrite lookup_insert_ne by done. intros E. eapply chain_frame; [|by apply Hch]. intros t Ht. apply Hframe.
        -- intros Ht'. apply Hd. by eapply Hap.
        -- specialize (Hnx o1 t Ht). lia.
      * intros o1. unfold add_node. case_decide; [|done]. rewrite fmap_app. apply list.NoDup_app. split; [done|]. split; [|apply NoDup_singleton].
        intros t Ht Hx. apply list_elem_of_singleton in Hx as ->. specialize (Hnx o1 _ Ht). cbn in Hnx. lia.
      * intros o1 o2 t [H1|[-> ->]]%Hin [H2|[H2 ->]]%Hin; [by eapply Hap| | |done].
        -- subst t. specialize (Hnx o1 _ H1). lia.
        -- specialize (Hnx o2 _ H2). lia.
      * intros o1 t [H1|[-> ->]]%Hin; [specialize (Hnx o1 t H1)|]; lia.
    + intros id' r Hr'. destruct (decide (cr_local_obj_id r = obj)) as [->|]; [rewrite lookup_insert_eq; by eexists|].
      rewrite lookup_insert_ne by done. by apply (Ho id').
  - intros obj' Hobj oi. cbn. unfold add_node. destruct (decide (obj' = obj)) as [->|Hd].
    + rewrite lookup_insert_eq, last_snoc. intros [= <-] _. done.
    + rewrite lookup_insert_ne by done. apply Hobj.
Qed.
(** The state while a request is prepared: [P] are its new blocks. *)
Record preparing (S : gmap Z Z) L (P : list Z) s : Prop := {
  pr_layout : layout U (P ++ gather private_blocks (cl_requests s)) (gather shared_refs (cl_requests s)) (cl_heap s) (cl_refs s) (cl_next s);
  pr_sizes : sizes_ok S (cl_heap s) (cl_next s);
  pr_requests : requests_ok S (cl_requests s);
  pr_lists : lists_ok L (cl_objs s) (cl_nodes s) (cl_next s);
  pr_objs id r : cl_requests s !! id = Some r → is_Some (cl_objs s !! cr_local_obj_id r) }.
Definition same_tables s s' : Prop := cl_requests s' = cl_requests s ∧ cl_objs s' = cl_objs s.

Lemma client_ok_preparing S L s : client_ok S L s → preparing S L [] s.
Proof. by intros []. Qed.

Lemma alloc_ok S L P d s : preparing S L P s →
  wp (alloc_block d) (λ b s', ∃ S', S ⊆ S' ∧ S' !! b = Some (lenZ d) ∧ preparing S' L (b :: P) s' ∧ same_tables s s') s.
Proof.
  intros [Hl [Hs Hn] Hr Hli Ho]. apply wp_alloc_block. set (n := cl_next s) in *. exists (<[n := lenZ d]> S).
  assert (S !! n = None) as Hfresh by (destruct (S !! n) as [k|] eqn:E; [specialize (Hn _ _ E); lia|done]).
  assert (S ⊆ <[n := lenZ d]> S) as Hsub by by apply insert_subseteq. split; [done|]. split; [apply lookup_insert_eq|]. split; [|done]. split; cbn; try done.
  - by apply layout_alloc.
  - split.
    + intros b d'. destruct (decide (b = n)) as [->|]; [rewrite !lookup_insert_eq; by intros [= <-]|rewrite !lookup_insert_ne by done; apply Hs].
    + intros b k. destruct (decide (b = n)) as [->|]; [lia|]. rewrite lookup_insert_ne by done. intros E. specialize (Hn _ _ E). lia.
  - by eapply requests_ok_weaken.
  - destruct Hli as [? ? ? Hx]. split; try done. intros obj t Hin. specialize (Hx obj t Hin). lia.
Qed.

Lemma pack_runs n unit off size d acc : user_buf_ok n unit off size d → acc = PDC_READ ∨ acc = PDC_WRITE →
  ∃ p, pack_region_buffer junk d (vol size * unit) n off size unit acc = Some (SUCCEED, Some p) ∧
    match p with InUserBuf o => n = 1%nat ∧ 0 ≤ o ∧ o + vol size * unit ≤ lenZ d | OwnBlock b => (1 < n)%nat ∧ lenZ b = vol size * unit end.
Proof.
  intros Hub Hacc. pose proof Hub as [Hn Hu [Ho Ho'] [Hs Hs'] Hl]. assert (0 < vol size * unit) by (pose proof (vol_pos _ Hs'); nia).
  assert (∃ p, pack_region_buffer junk d (vol size * unit) n off size unit acc = Some (SUCCEED, Some p) ∧
    (acc = PDC_WRITE → is_Some (packed_data d p (vol size * unit))) ∧
    match p with InUserBuf o => n = 1%nat ∧ o = arr off 0 *w unit | OwnBlock b => (1 < n)%nat ∧ (acc = PDC_READ → lenZ b = vol size * unit) end) as (p & Hp & Hd & Hc).
  { destruct Hacc as [-> | ->].
    - apply dims_cases in Hn as [->|[->| ->]]; eexists; (split; [reflexivity|]); (split; [done|]); [done|..]; (split; [lia|]); intros _; apply lenZ_malloc; lia.
    - destruct (pack_region_buffer_ok junk _ _ _ _ _ Hub) as [(p & Hp & Hd & _) _]. exists p. split; [done|]. split; [done|].
      apply dims_cases in Hn as [->|[->| ->]]; unfold pack_region_buffer in Hp; [by injection Hp as <-|..]; cbn -[forZ] in Hp;
        (destruct (forZ _ _ _ _) as [[? ?]|]; [|done]); injection Hp as <-; by split; [lia|]. }
  exists p. split; [done|]. destruct p as [o|b]; destruct Hc as [Hn1 Hc].
  - split; [done|]. subst n o. destruct off as [|o0 [|]], size as [|s0 [|]]; try done. cbn in *. apply list.Forall_cons in Ho' as [? _], Hs' as [? _].
    unfold lin, lin_from in Hl. cbn -[lenZ] in Hl. unfold arr. cbn -[lenZ]. replace (0 * s0 + o0) with o0 in Hl by lia.
    assert (0 ≤ o0 * unit) by nia. rewrite u64_id by lia. lia.
  - split; [done|]. destruct Hacc as [-> | ->]; [by apply Hc|]. destruct (Hd eq_refl) as [x Hx]. unfold packed_data in Hx. by case_decide.
Qed.

(** What [active_ok] says of [new_buf]. *)
Definition new_buf_ok (S : gmap Z Z) (r : client_request) : Prop :=
  ∃ p n, cr_new_buf r = Some p ∧ S !! p.1 = Some n ∧ 0 ≤ p.2 ∧ p.2 + cr_total_data_size r ≤ n < W64 ∧
    if decide (1 < cr_local_ndim r)%nat then p.2 = 0 ∧ n = cr_total_data_size r else p.1 = cr_buf r.

Lemma pack_request_ok S L s id r : client_ok S L s → cl_requests s !! id = Some r →
  wp (pack_request junk r) (λ r' s', ∃ S' p, S ⊆ S' ∧ r' = with_new_buf (Some p) r ∧ preparing S' L (new_buf_blocks r') s' ∧ same_tables s s' ∧ new_buf_ok S' r') s.
Proof.
  intros Hok E. destruct (co_requests _ _ _ _ _ Hok _ _ E) as [Hwf _]. destruct (user_allocated _ _ _ _ _ _ _ Hok E) as (d & Hd & HSd & Hub).
  unfold pack_request. apply wp_bind, (wp_get_block _ d); [done|].
  destruct (pack_runs _ _ _ _ d (access_of r) Hub (rw_access _ _ _ _ Hwf)) as (p & Hp & Hc). rewrite <-(rw_total _ _ _ _ Hwf) in Hp, Hc.
  apply wp_bind. eapply wp_lift; [exact Hp|]. cbn beta iota. destruct Hub as [_ _ _ _ [_ HW]]. destruct p as [o|b].
  - destruct Hc as (Hn & Ho & Hle). apply wp_ret. exists S, (cr_buf r, o). split; [done|]. split; [done|]. unfold new_buf_blocks. cbn.
    rewrite decide_False by lia. split; [by apply client_ok_preparing|]. split; [done|].
    exists (cr_buf r, o), (lenZ d). cbn. rewrite decide_False by lia. done.
  - destruct Hc as [Hn Hb]. apply wp_bind. eapply wp_mono; [by apply (alloc_ok S L []), client_ok_preparing|].
    intros a s' (S' & HS & Ha & Hpr & Ht). apply wp_ret. exists S', (a, 0). split; [done|]. split; [done|]. unfold new_buf_blocks. cbn.
    rewrite decide_True by lia. split; [done|]. split; [done|]. exists (a, 0), (cr_total_data_size r). cbn. rewrite decide_True by lia.
    rewrite Hb in Ha. split; [done|]. split; [done|]. split; [done|]. split; [|done].
    pose proof (rw_remote _ _ _ _ Hwf) as [_ _ Hu Hwr Hv _]. pose proof (vol_pos _ (wf_region_sizes _ _ _ Hwr)).
    rewrite (rw_total _ _ _ _ Hwf), <-(rw_vol _ _ _ _ Hwf). nia.
Qed.
(** A request as [PDCregion_transfer_create] makes it, for a partition that does
    not ask the metadata servers. *)
Record fresh_request (r : client_request) : Prop := {
  fr_id : cr_metadata_id r = Null;
  fr_done : cr_is_done r = false;
  fr_output : cr_output_buf r = Null;
  fr_bulk : cr_bulk_buf r = Null ∧ cr_bulk_buf_ref r = Null;
  fr_read : cr_read_bulk_buf r = Null;
  fr_partition : asks_servers r = false }.

Lemma put_ok S L P s id r r' : preparing S L P s → cl_requests s !! id = Some r → started r = false →
  P ≡ₚ private_blocks r' → shared_refs r' = [] → request_wf S r' → active_ok S r' → cr_is_done r' = false → cr_local_obj_id r' = cr_local_obj_id r →
  client_ok S L (with_requests_map <[id := r']> s).
Proof.
  intros [Hl Hs Hr Hli Ho] E Hst HP Hsh Hwf Hact Hd Hobj. split; cbn; [|done| |done|].
  - rewrite (gather_insert private_blocks), (gather_insert shared_refs), <-HP, Hsh. eapply layout_perm; [| |exact Hl].
    + rewrite (gather_lookup private_blocks _ _ _ E). unfold private_blocks at 1. by rewrite Hst.
    + rewrite (gather_lookup shared_refs _ _ _ E). unfold shared_refs at 1. by rewrite Hst.
  - intros id' r0. destruct (decide (id' = id)) as [->|]; [rewrite lookup_insert_eq; intros [= <-]; split; [done|by right]|].
    rewrite lookup_insert_ne by done. apply Hr.
  - intros id' r0. destruct (decide (id' = id)) as [->|]; [rewrite lookup_insert_eq; intros [= <-]; rewrite Hobj; by eapply Ho|].
    rewrite lookup_insert_ne by done. apply Ho.
Qed.

Lemma array_at_malloc {A} n k : array_at (malloc_array A n) k = None.
Proof. cbn. destruct (replicate n (@None A) !! k) as [x|] eqn:E; [|done]. by apply lookup_replicate in E as [-> _]. Qed.

Lemma set_bufs_empty r k : empty_entry (set_obj_server_bufs r) k.
Proof. split; apply array_at_malloc. Qed.
Lemma shared_set_bufs r : shared_refs (set_obj_server_bufs r) = [].
Proof.
  unfold shared_refs, started. cbn [cr_metadata_id set_obj_server_bufs with_arrays malloc_array]. unfold bulk_refs.
  generalize (seq 0 (cr_n_obj_servers (set_obj_server_bufs r))). intros ks. induction ks as [|k ks IH]; [done|].
  cbn [omap list_omap]. destruct (set_bufs_empty r k) as [-> _]. exact IH.
Qed.

(** The arrays that [set_obj_server_bufs] allocates complete a request. *)
Lemma active_set_bufs S r : request_wf S r → new_buf_ok S r → cr_read_bulk_buf r = Null →
  (is_split r = true → cr_parts r = true ∧ length (tr_obj_parts (cr_req r)) = cr_n_obj_servers r ∧
     (cr_output_buf r = Null ∨ array_len (cr_output_buf r) = Some (cr_n_obj_servers r) ∧
       ∀ k, (k < cr_n_obj_servers r)%nat → is_Some (array_at (cr_output_buf r) k)) ∧
     ∀ k part, part_at r k = Some part → part_ok (cr_req r) part) →
  (is_split r = false → cr_n_obj_servers r = 1%nat ∧ cr_output_buf r = Null) → active_ok S (set_obj_server_bufs r).
Proof.
  intros Hwf Hn Hrd Hsp Hun. split; [done| |left; apply set_bufs_empty|done|done]. cbn. rewrite !length_replicate. do 3 (split; [done|]).
  change (access_of (set_obj_server_bufs r)) with (access_of r). case_decide; [cbn; by rewrite length_replicate|done].
Qed.

Lemma alloc_list_ok S L P pieces s : preparing S L P s →
  wp (mapM (λ p, match sp_output_buf p with Some b => a ← alloc_block b; mret (Some a) | None => mret None end) pieces)
    (λ l s', ∃ S', S ⊆ S' ∧ preparing S' L (omap id l ++ P) s' ∧ same_tables s s' ∧ Forall2 (λ p a, is_Some (sp_output_buf p) ↔ is_Some a) pieces l) s.
Proof.
  revert S P s. induction pieces as [|p pieces IH]; intros S P s Hp; cbn [mapM].
  { apply wp_ret. exists S. split; [done|]. split; [done|]. split; [done|constructor]. }
  apply wp_bind. destruct (sp_output_buf p) as [b|] eqn:Eb.
  - apply wp_bind. eapply wp_mono; [by apply alloc_ok|]. intros a s1 (S1 & HS & _ & Hp1 & Ht1 & Ht1'). apply wp_ret, wp_bind.
    eapply wp_mono; [by apply IH|]. intros l s2 (S2 & HS2 & Hp2 & [Ht2 Ht2'] & HF). apply wp_ret. exists S2. split; [by etrans|].
    split; [|split; [split; congruence|]]; [|constructor; [rewrite Eb; split; intros; by eexists|done]].
    destruct Hp2 as [Hl ? ? ? ?]. split; try done. eapply layout_perm; [|done|exact Hl]. rewrite <-(Permutation_middle (omap id l)). done.
  - apply wp_ret, wp_bind. eapply wp_mono; [by apply IH|]. intros l s2 (S2 & HS2 & Hp2 & Ht & HF). apply wp_ret. exists S2. split; [done|].
    split; [done|]. split; [done|]. constructor; [|done]. rewrite Eb. split; by intros [].
Qed.

Lemma omap_lookup {A} (f : nat → option A) (l : list (option A)) j :
  (∀ k x, l !! k = Some x → f (j + k)%nat = x) → omap f (seq j (length l)) = omap id l.
Proof.
  revert j. induction l as [|x l IH]; intros j Hf; [done|]. cbn. pose proof (Hf 0%nat x eq_refl) as H0. rewrite Nat.add_0_r in H0. rewrite H0.
  assert (omap f (seq (Datatypes.S j) (length l)) = omap id l) as Hr.
  { apply IH. intros k y Hy. specialize (Hf (Datatypes.S k) y Hy). by rewrite <-Nat.add_succ_comm in Hf. }
  destruct x; cbn; [f_equal|]; exact Hr.
Qed.
(** ** A request of a static partition *)

Definition part_of_piece (p : server_piece) : obj_part := ObjPart (sp_server p) (sp_output_offset p) (sp_output_size p) (sp_sub_offset p).

Lemma new_buf_bytes_at S L s r : preparing S L (new_buf_blocks r) s → new_buf_ok S r → cr_buf r ∈ U →
  ∃ p d, cr_new_buf r = Some p ∧ cl_heap s !! p.1 = Some d ∧ 0 ≤ p.2 ∧ p.2 + cr_total_data_size r ≤ lenZ d < W64.
Proof.
  intros [Hl [Hs _] _ _ _] (p & n & Hp & Hn & H0 & Hle & Hc) HU. assert (is_Some (cl_heap s !! p.1)) as [d Hd].
  { apply (ly_dom _ _ _ _ _ _ Hl). unfold new_buf_blocks. rewrite Hp. case_decide; [right; left|left; by rewrite Hc].
    apply elem_of_app. left. by apply list_elem_of_singleton. }
  specialize (Hs _ _ Hd). assert (n = lenZ d) as -> by congruence. by exists p, d.
Qed.

(** The buffers and parts of a request that was partitioned into [pieces]. *)
Record partitioned (r1 : client_request) (pieces : list server_piece) (set_output_buf : bool) (r2 : client_request) : Prop := {
  pt_eq : ∃ out, r2 = with_parts (Some ∘ part_of_piece <$> pieces) true (length pieces) out r1;
  pt_output : cr_output_buf r2 = Null ∨ array_len (cr_output_buf r2) = Some (length pieces) ∧
    ∀ k, (k < length pieces)%nat → is_Some (array_at (cr_output_buf r2) k);
  pt_pieces : Forall (piece_ok (tr_remote_region_ndim (cr_req r1)) (tr_remote_region_offset (cr_req r1)) (tr_remote_region_size (cr_req r1))
    (serves pdc_server_num_g (tr_remote_region_ndim (cr_req r1)) (tr_obj_dims (cr_req r1)))) pieces;
  pt_servers : NoDup (sp_server <$> pieces) ∧ Forall (λ pc, 0 ≤ sp_server pc < pdc_server_num_g) pieces;
  pt_some : pieces ≠ [];
  pt_data : set_output_buf = true → access_of r1 = PDC_WRITE → Forall (λ pc, ∃ b, sp_output_buf pc = Some b ∧
    vol (sp_output_size pc) * tr_unit (cr_req r1) ≤ lenZ b) pieces }.

Lemma part_at_pieces r1 pieces out k : part_at (with_parts (Some ∘ part_of_piece <$> pieces) true (length pieces) out r1) k = part_of_piece <$> pieces !! k.
Proof. unfold part_at. cbn. rewrite list_lookup_fmap. by destruct (pieces !! k). Qed.

Lemma output_blocks_pieces r1 pieces l : Forall2 (λ p a, is_Some (sp_output_buf p) ↔ is_Some a) pieces l →
  output_blocks (with_parts (Some ∘ part_of_piece <$> pieces) true (length pieces) (Array l) r1) = omap id l.
Proof.
  intros HF. pose proof (Forall2_length HF) as Hlen. unfold output_blocks.
  set (r2 := with_parts _ _ _ _ _). change (seq 0 (cr_n_obj_servers r2)) with (seq 0 (length pieces)). rewrite Hlen. apply omap_lookup. unfold r2.
  intros k x Hx. cbn [Nat.add]. rewrite part_at_pieces. assert (k < length pieces)%nat as Hk by (rewrite Hlen; by eapply lookup_lt_Some).
  destruct (lookup_lt_is_Some_2 pieces k Hk) as [p ->]. cbn. by rewrite Hx.
Qed.

Lemma omap_none {A} (l : list (option A)) : Forall (λ x, x = None) l → omap id l = [].
Proof. induction 1 as [|x l -> _ IH]; [done|exact IH]. Qed.

Lemma partition_request_ok S L s r set_output_buf : preparing S L (new_buf_blocks r) s → new_buf_ok S r → request_wf S r →
  wp (partition_request pdc_server_num_g r set_output_buf) (λ '(r2, pieces) s', ∃ S', S ⊆ S' ∧
    preparing S' L (new_buf_blocks r2 ++ output_blocks r2) s' ∧ same_tables s s' ∧ partitioned r pieces set_output_buf r2) s.
Proof.
  intros Hp Hn Hwf. destruct (new_buf_bytes_at _ _ _ _ Hp Hn (rw_user _ _ _ _ Hwf)) as (q & d & Hq & Hd & H0 & [Hle HW]).
  pose proof (rw_remote _ _ _ _ Hwf) as Hpre. unfold partition_request. rewrite Hq. apply wp_bind, (wp_bytes_at q d).
  { done. } { pose proof (pp_unit _ _ _ _ _ _ Hpre). pose proof (vol_pos _ (wf_region_sizes _ _ _ (pp_wf _ _ _ _ _ _ Hpre))).
    rewrite (rw_total _ _ _ _ Hwf), <-(rw_vol _ _ _ _ Hwf) in Hle. nia. }
  rewrite (rw_total _ _ _ _ Hwf), <-(rw_vol _ _ _ _ Hwf) in Hle.
  assert (0 < vol (tr_remote_region_size (cr_req r)) * tr_unit (cr_req r)) as Hpos.
  { pose proof (pp_unit _ _ _ _ _ _ Hpre). pose proof (vol_pos _ (wf_region_sizes _ _ _ (pp_wf _ _ _ _ _ _ Hpre))). nia. }
  destruct (partition_runs _ _ _ _ _ _ (drop (Z.to_nat q.2) d) (tr_access_type (cr_req r)) set_output_buf Hpre)
    as (pieces & Hrun & Hnd & Hsrv & Hok & Hcov & Hbytes); [rewrite lenZ_drop_at; lia|].
  apply wp_bind. eapply wp_lift; [exact Hrun|]. apply wp_bind. eapply wp_mono; [by apply (alloc_list_ok S L (new_buf_blocks r))|].
  intros l s' (S' & HS & Hp' & Ht & HF). pose proof (Forall2_length HF) as Hlen. apply wp_ret. exists S'. split; [done|].
  pose proof (partition_bufs _ _ _ _ _ _ _ _ _ _ Hrun) as Hbufs.
  match goal with |- preparing _ _ (_ ?r2 ++ _) _ ∧ _ => set (r2' := r2) end.
  assert (output_blocks r2' = omap id l ∧ (cr_output_buf r2' = Null ∨ array_len (cr_output_buf r2') = Some (length pieces) ∧
    ∀ k, (k < length pieces)%nat → is_Some (array_at (cr_output_buf r2') k))) as [Hob Hout].
  { unfold r2'. destruct set_output_buf.
    - split; [by apply (output_blocks_pieces r pieces l)|]. right. cbn. split; [by rewrite Hlen|]. intros k Hk.
      destruct (lookup_lt_is_Some_2 pieces k Hk) as [p Hpk]. destruct (Forall2_lookup_l _ _ _ _ _ HF Hpk) as (a & Ha & Hiff).
      rewrite Ha. cbn. apply Hiff. by apply (proj1 (list.Forall_lookup _ _) Hbufs _ _ Hpk).
    - split; [|by left]. rewrite output_blocks_null by done. symmetry. apply omap_none. eapply Forall2_Forall_r; [exact HF|].
      eapply list.Forall_impl; [exact Hbufs|]. intros p Hn0 a [_ Ha]. destruct a; [|done]. destruct (Ha ltac:(by eexists)). congruence. }
  split; [|split; [done|]].
  - rewrite Hob. destruct Hp' as [Hl ? ? ? ?]. split; try done. eapply layout_perm; [|done|exact Hl].
    by rewrite (Permutation_app_comm (omap id l)).
  - split; [by eexists|done|done|done| |].
    + intros ->. pose proof (corner_in_region _ _ _ (pp_wf _ _ _ _ _ _ Hpre)) as Hc. by apply Hcov, Exists_nil in Hc.
    + intros Hset Hw. eapply list.Forall_impl; [by apply Hbytes|]. intros pc (b & Hb & Hlb & _). by exists b.
Qed.
(** ** The packages of a prepared request *)

(** The part of the batch's bulk buffers that a request may take. *)
Definition request_weight (r : client_request) : Z :=
  (24 + 24 * Z.of_nat (tr_remote_region_ndim (cr_req r)) + cr_total_data_size r) * (if is_split r then pdc_server_num_g else 1).

(** What is known of the packages [ts] of request [r], which becomes [r']. *)
Record packaged (R : gmap Z client_request) (id : Z) (r r' : client_request) (ts : list todo) : Prop := {
  pg_way : on_the_way ts id r r';
  pg_ready : Forall (pkg_ready (<[id := r']> R)) ts;
  pg_keys : NoDup (td_key <$> ts) ∧ Forall (λ t, pk_transfer_request (td_pkg t) = id ∧ td_access t = access_of r) ts;
  pg_weight : weight ts ≤ request_weight r }.

Lemma weight_le ts w : Forall (λ t, td_weight t ≤ w) ts → weight ts ≤ w * lenZ ts.
Proof. induction 1 as [|t ts Ht _ IH]; [unfold lenZ; cbn; lia|]. rewrite weight_cons. unfold lenZ in *. cbn [length]. lia. Qed.

Lemma servers_length (pieces : list server_piece) : NoDup (sp_server <$> pieces) → Forall (λ pc, 0 ≤ sp_server pc < pdc_server_num_g) pieces →
  lenZ pieces ≤ Z.max 0 pdc_server_num_g.
Proof.
  intros Hnd Hsrv. assert (sp_server <$> pieces ⊆+ seqZ 0 pdc_server_num_g) as Hsub.
  { apply NoDup_submseteq; [done|]. intros i (pc & -> & Hpc)%list_elem_of_fmap. apply elem_of_seqZ. rewrite list.Forall_forall in Hsrv. specialize (Hsrv _ Hpc). lia. }
  apply submseteq_length in Hsub. rewrite length_fmap, length_seqZ in Hsub. unfold lenZ. lia.
Qed.

Lemma piece_in_region n off size mine pc : piece_ok n off size mine pc → wf_region n off size →
  vol (sp_output_size pc) ≤ vol size ∧ 0 < vol (sp_output_size pc) ∧ ∀ p, in_region (sp_output_offset pc) (sp_output_size pc) p → in_region off size p.
Proof.
  intros [Hwo Hsub Hin] Hwf. assert (∀ p, in_region (sp_output_offset pc) (sp_output_size pc) p → in_region off size p) as Hr by (intros p; rewrite Hin; tauto).
  pose proof (vol_fits _ _ _ (sub_region_fits _ _ _ _ _ Hwo Hwf Hr) (wf_region_sizes _ _ _ Hwo)). split_and!; [lia|lia|done].
Qed.

Definition piece_todo (id : Z) (acc : pdc_access_t) (unit : Z) (j : nat) (pc : server_piece) : todo :=
  Todo acc (vol (sp_output_size pc) * unit) (piece_pkg id acc j pc).

Lemma request_bounds S r : request_wf S r → 0 < cr_total_data_size r < W64 ∧ is_u64 (tr_unit (cr_req r)) ∧
  cr_total_data_size r = vol (tr_remote_region_size (cr_req r)) * tr_unit (cr_req r).
Proof.
  intros Hwf. pose proof (rw_remote _ _ _ _ Hwf) as [_ _ Hu Hw Hv _]. pose proof (vol_pos _ (wf_region_sizes _ _ _ Hw)).
  rewrite (rw_total _ _ _ _ Hwf), <-(rw_vol _ _ _ _ Hwf). set (v := vol _) in *. set (u := tr_unit _) in *.
  assert (0 < v * u) by nia. assert (v * u ≤ v * u * u) by nia. assert (u ≤ v * u) by nia. unfold is_u64. lia.
Qed.

Lemma is_split_static r : tr_region_partition (cr_req r) = PDC_REGION_STATIC → is_split r = true.
Proof. unfold is_split. by intros ->. Qed.

(** The request that [partition_request] makes of [r], with its arrays. *)
Definition split_request (r : client_request) (p : ptr) (pieces : list server_piece) (out : array Z) : client_request :=
  set_obj_server_bufs (with_parts (Some ∘ part_of_piece <$> pieces) true (length pieces) out (with_new_buf (Some p) r)).

Lemma part_at_split r p pieces out k : part_at (split_request r p pieces out) k = part_of_piece <$> pieces !! k.
Proof. apply (part_at_pieces (with_new_buf (Some p) r)). Qed.

Lemma piece_bounds S r mine pc : request_wf S r → piece_ok (tr_remote_region_ndim (cr_req r)) (tr_remote_region_offset (cr_req r)) (tr_remote_region_size (cr_req r)) mine pc →
  0 < vol (sp_output_size pc) ∧ vol (sp_output_size pc) * tr_unit (cr_req r) ≤ cr_total_data_size r.
Proof.
  intros Hwf Hpc. destruct (request_bounds _ _ Hwf) as (_ & _ & ->). pose proof (rw_remote _ _ _ _ Hwf) as Hpre. pose proof (pp_unit _ _ _ _ _ _ Hpre).
  destruct (piece_in_region _ _ _ _ _ Hpc (pp_wf _ _ _ _ _ _ Hpre)) as (? & ? & _). split; [done|nia].
Qed.

Lemma piece_ready R S id r p pieces out mine j pc : request_wf S r → tr_region_partition (cr_req r) = PDC_REGION_STATIC → pieces !! j = Some pc →
  piece_ok (tr_remote_region_ndim (cr_req r)) (tr_remote_region_offset (cr_req r)) (tr_remote_region_size (cr_req r)) mine pc →
  (access_of r = PDC_WRITE → ∃ b, sp_output_buf pc = Some b ∧ vol (sp_output_size pc) * tr_unit (cr_req r) ≤ lenZ b) →
  pkg_ready (<[id := split_request r p pieces out]> R) (piece_todo id (access_of r) (tr_unit (cr_req r)) j pc).
Proof.
  intros Hwf Hpart Hj Hpc Hdata. destruct (piece_bounds _ _ _ _ Hwf Hpc) as [Hv0 Hv]. pose proof (rw_remote _ _ _ _ Hwf) as Hpre.
  destruct (request_bounds _ _ Hwf) as (Ht & Hu64 & _). pose proof (pp_unit _ _ _ _ _ _ Hpre) as Hu. destruct Hpc as [Hwo _ _].
  pose proof Hwo as [Hoo Hos _]. pose proof (wf_region_is_u64 _ _ _ Hwo) as [Hu1 Hu2]. pose proof (wf_region_sizes _ _ _ Hwo) as Hpos.
  exists (split_request r p pieces out), j. unfold split_request at 1. cbn [td_pkg piece_todo piece_pkg pk_transfer_request pk_index td_access td_size].
  rewrite lookup_insert_eq. do 4 (split; [done|]). split; [by eapply lookup_lt_Some|]. split; [apply set_bufs_empty|].
  assert (obj_data_size (cr_req r) (piece_pkg id (access_of r) j pc) = vol (sp_output_size pc) * tr_unit (cr_req r)) as Hsize.
  { apply obj_data_size_vol; [by destruct Hpre|done|done|done|cbn; lia]. }
  split; [|split; [by symmetry|]].
  - destruct (rw_obj _ _ _ _ Hwf) as (? & ? & ? & ?). split; cbn; try done.
    + pose proof (pp_ndim _ _ _ _ _ _ Hpre). lia.
    + intros Hw. destruct (Hdata Hw) as (b & Hb & Hlb). rewrite decide_True by done. exists b. split; [done|].
      etrans; [|exact Hlb]. apply Z.eq_le_incl. exact Hsize.
  - unfold entry_bytes. change (is_split (split_request r p pieces out)) with (is_split r). by rewrite is_split_static, part_at_split, Hj by done.
Qed.

Lemma static_packaged R S id r r2 pieces set_output_buf p : request_wf S r → fresh_request r → tr_region_partition (cr_req r) = PDC_REGION_STATIC →
  (access_of r = PDC_WRITE → set_output_buf = true) → partitioned (with_new_buf (Some p) r) pieces set_output_buf r2 →
  packaged R id r (set_obj_server_bufs r2) (imap (piece_todo id (access_of r) (tr_unit (cr_req r))) pieces).
Proof.
  intros Hwf Hfr Hpart Hset [[out ->] _ Hpc [Hnd Hsrv] _ Hdata]. cbn in Hpc, Hdata. change (access_of (with_new_buf _ r)) with (access_of r) in Hdata.
  fold (split_request r p pieces out). set (unit := tr_unit (cr_req r)) in *. set (ts := imap _ pieces). rewrite list.Forall_lookup in Hpc.
  pose proof (rw_remote _ _ _ _ Hwf) as Hpre. destruct (pp_servers _ _ _ _ _ _ Hpre) as [HN _].
  assert (∀ j t, ts !! j = Some t ↔ ∃ pc, pieces !! j = Some pc ∧ t = piece_todo id (access_of r) unit j pc) as Hts.
  { intros j t. unfold ts. rewrite list_lookup_imap, fmap_Some. done. }
  split.
  - split; [done|]. split; [apply Hfr|]. split; [done|]. split; [done|]. split; [done|]. split.
    + intros _ k Hk. rewrite part_at_split. destruct (lookup_lt_is_Some_2 pieces k Hk) as [pc ->]. by eexists.
    + intros k Hk. right. destruct (lookup_lt_is_Some_2 pieces k Hk) as [pc Hpk]. apply list_elem_of_fmap.
      exists (piece_todo id (access_of r) unit k pc). split; [unfold td_key; cbn; by rewrite Nat2Z.id|]. apply (list_elem_of_lookup_2 _ k), Hts. by exists pc.
  - apply list.Forall_lookup. intros j t (pc & Hj & ->)%Hts. eapply piece_ready; [done|done|done|by apply (Hpc j)|].
    intros Hw. specialize (Hdata (Hset Hw) Hw). rewrite list.Forall_lookup in Hdata. by apply (Hdata j).
  - split.
    + apply NoDup_alt. intros i j key. rewrite !list_lookup_fmap, !fmap_Some. intros (t1 & (pc1 & _ & ->)%Hts & ->) (t2 & (pc2 & _ & ->)%Hts & Hk).
      unfold td_key in Hk. cbn in Hk. injection Hk. lia.
    + apply list.Forall_lookup. by intros j t (pc & _ & ->)%Hts.
  - etrans; [apply (weight_le _ (24 + 24 * Z.of_nat (tr_remote_region_ndim (cr_req r)) + cr_total_data_size r))|].
    + apply list.Forall_lookup. intros j t (pc & Hj & ->)%Hts. unfold td_weight. cbn. destruct (piece_bounds _ _ _ _ Hwf (Hpc j pc Hj)).
      destruct (po_wf _ _ _ _ _ (Hpc _ _ Hj)) as [_ Hl _]. unfold lenZ, unit. rewrite Hl. lia.
    + unfold request_weight. rewrite is_split_static by done. pose proof (servers_length _ Hnd Hsrv). destruct (request_bounds _ _ Hwf).
      unfold lenZ, ts in *. rewrite length_imap. nia.
Qed.

(** ** A request of an object on one server *)

Definition whole_request (r : client_request) (p : ptr) : client_request :=
  set_obj_server_bufs (with_parts (tr_obj_parts (cr_req r)) (cr_parts r) 1 (cr_output_buf r) (with_new_buf (Some p) r)).
Definition whole_todo (id : Z) (r : client_request) (buf : option (list byte)) : todo :=
  Todo (access_of r) (cr_total_data_size r)
    (StartAllPkg (cr_data_server_id r) id (tr_remote_region_offset (cr_req r)) (tr_remote_region_size (cr_req r)) 0 buf).

Lemma whole_ready R S id r p buf : request_wf S r → tr_region_partition (cr_req r) = PDC_OBJ_STATIC →
  (access_of r = PDC_WRITE → ∃ b, buf = Some b ∧ cr_total_data_size r ≤ lenZ b) →
  pkg_ready (<[id := whole_request r p]> R) (whole_todo id r buf).
Proof.
  intros Hwf Hpart Hbuf. destruct (request_bounds _ _ Hwf) as (Ht & Hu64 & Htot). pose proof (rw_remote _ _ _ _ Hwf) as Hpre.
  pose proof (pp_unit _ _ _ _ _ _ Hpre) as Hu. pose proof (pp_wf _ _ _ _ _ _ Hpre) as Hwo. pose proof Hwo as [Hoo Hos _].
  pose proof (wf_region_is_u64 _ _ _ Hwo) as [Hu1 Hu2]. pose proof (wf_region_sizes _ _ _ Hwo) as Hpos.
  exists (whole_request r p), 0%nat. unfold whole_request at 1. cbn [td_pkg whole_todo pk_transfer_request pk_index td_access td_size].
  rewrite lookup_insert_eq. do 4 (split; [done|]). split; [cbn; lia|]. split; [apply set_bufs_empty|].
  assert (obj_data_size (cr_req r) (td_pkg (whole_todo id r buf)) = cr_total_data_size r) as Hsize.
  { rewrite Htot. apply obj_data_size_vol; [by destruct Hpre|done|done|done|]. cbn. lia. }
  split; [|split; [by symmetry|]].
  - destruct (rw_obj _ _ _ _ Hwf) as (? & ? & ? & ?). split; cbn; try done.
    + pose proof (pp_ndim _ _ _ _ _ _ Hpre). lia.
    + intros Hw. destruct (Hbuf Hw) as (b & Hb & Hlb). exists b. split; [done|]. etrans; [|exact Hlb]. apply Z.eq_le_incl. exact Hsize.
  - unfold entry_bytes. change (is_split (whole_request r p)) with (is_split r). unfold is_split. by rewrite Hpart.
Qed.

Lemma whole_packaged R S id r p buf : request_wf S r → fresh_request r → tr_region_partition (cr_req r) = PDC_OBJ_STATIC →
  (access_of r = PDC_WRITE → ∃ b, buf = Some b ∧ cr_total_data_size r ≤ lenZ b) →
  packaged R id r (whole_request r p) [whole_todo id r buf].
Proof.
  intros Hwf Hfr Hpart Hbuf. assert (is_split r = false) as Hns by (unfold is_split; by rewrite Hpart). split.
  - split; [done|]. split; [apply Hfr|]. split; [done|]. split; [done|]. split; [done|]. split.
    + change (is_split (whole_request r p)) with (is_split r). by rewrite Hns.
    + intros k Hk. right. cbn in Hk. replace k with 0%nat by lia. by left.
  - apply list.Forall_cons. split; [by eapply whole_ready|done].
  - split; [apply NoDup_singleton|]. by apply list.Forall_cons.
  - unfold request_weight. rewrite Hns, weight_cons. unfold td_weight. cbn -[Z.mul].
    pose proof (rw_remote _ _ _ _ Hwf) as Hpre. destruct (pp_wf _ _ _ _ _ _ Hpre) as [_ Hl _]. unfold lenZ. rewrite Hl. unfold weight. cbn -[Z.mul]. lia.
Qed.

(** ** Preparing one request *)

Lemma request_wf_new_buf S p r : request_wf S r → request_wf S (with_new_buf p r).
Proof. by intros []. Qed.
Lemma request_wf_parts S parts b n out r : request_wf S r → request_wf S (with_parts parts b n out r).
Proof. by intros []. Qed.
Lemma request_wf_set_bufs S r : request_wf S r → request_wf S (set_obj_server_bufs r).
Proof. by intros []. Qed.

Lemma static_active S r p pieces set_output_buf r2 : request_wf S r → fresh_request r → tr_region_partition (cr_req r) = PDC_REGION_STATIC →
  new_buf_ok S (with_new_buf (Some p) r) → partitioned (with_new_buf (Some p) r) pieces set_output_buf r2 → active_ok S (set_obj_server_bufs r2).
Proof.
  intros Hwf Hfr Hpart Hnew [[out ->] Hout Hpc _ _ _]. apply active_set_bufs; [by apply request_wf_parts, request_wf_new_buf|done|by destruct Hfr| |].
  - intros _. split; [done|]. split; [cbn; by rewrite length_fmap|]. split; [done|]. intros k part. rewrite part_at_pieces.
    destruct (pieces !! k) as [pc|] eqn:Ek; [|done]. intros [= <-]. rewrite list.Forall_lookup in Hpc. destruct (Hpc _ _ Ek) as [Hw Hs Hi].
    split; [done|]. split; [done|]. intros q Hq. by apply Hi in Hq as [? _].
  - intros Hs. change (is_split r = false) in Hs. by rewrite is_split_static in Hs.
Qed.

(** What preparing a request does: [r] becomes [r'] and the packages are [ts]. *)
Definition prepared S L id r s (pkgs : option (list start_all_pkg)) s' : Prop :=
  ∃ S' r' ts, S ⊆ S' ∧ pkgs = Some (td_pkg <$> ts) ∧ client_ok S' L s' ∧ packaged (cl_requests s) id r r' ts ∧
    cl_requests s' = <[id := r']> (cl_requests s) ∧ cl_objs s' = cl_objs s.

Lemma prepare_static S L s id r p set_output_buf : let r1 := with_new_buf (Some p) r in
  preparing S L (new_buf_blocks r1) s → new_buf_ok S r1 → request_wf S r → fresh_request r → tr_region_partition (cr_req r) = PDC_REGION_STATIC →
  cl_requests s !! id = Some r → (access_of r = PDC_WRITE → set_output_buf = true) →
  wp ('(r, pieces) ← partition_request pdc_server_num_g r1 set_output_buf;
      if decide (pieces = []) then _ ← put_request id r; mret (None, set_output_buf)
      else _ ← put_request id (set_obj_server_bufs r); mret (Some (imap (piece_pkg id (access_of r1)) pieces), set_output_buf))
    (λ (x : option (list start_all_pkg) * bool) s', prepared S L id r s x.1 s') s.
Proof.
  intros r1 Hp Hnew Hwf Hfr Hpart E Hset. apply wp_bind. eapply wp_mono; [by apply partition_request_ok, request_wf_new_buf|].
  intros [r2 pieces] s' (S' & HS & Hp' & [Hr Ho] & Hpt). rewrite decide_False by apply (pt_some _ _ _ _ Hpt).
  apply wp_bind, wp_put_request, wp_ret. pose proof (request_wf_weaken _ _ _ _ _ HS Hwf) as Hwf'.
  assert (new_buf_ok S' r1) as Hnew'.
  { destruct Hnew as (q & n & Hq & Hn & ?). exists q, n. split; [done|]. split; [by eapply lookup_weaken|done]. }
  exists S', (set_obj_server_bufs r2), (imap (piece_todo id (access_of r) (tr_unit (cr_req r))) pieces).
  split; [done|]. split; [cbn; f_equal; by rewrite fmap_imap|]. split; [|split; [by eapply static_packaged|]; cbn; by rewrite Hr].
  pose proof (static_active _ _ _ _ _ _ Hwf' Hfr Hpart Hnew' Hpt) as Hact. destruct (pt_eq _ _ _ _ Hpt) as [out ->].
  eapply (put_ok S' L _ s' id r); [exact Hp'|by rewrite Hr| |done|by apply shared_set_bufs| |exact Hact|by destruct Hfr|done].
  - unfold started. by destruct Hfr as [-> _].
  - by apply request_wf_set_bufs, request_wf_parts, request_wf_new_buf.
Qed.

Lemma prepare_whole S L s id r p set_output_buf : let r1 := with_new_buf (Some p) r in
  preparing S L (new_buf_blocks r1) s → new_buf_ok S r1 → request_wf S r → fresh_request r → tr_region_partition (cr_req r) = PDC_OBJ_STATIC →
  cl_requests s !! id = Some r →
  wp (bytes ← (b ← bytes_at p; mret (Some b));
      _ ← put_request id (whole_request r p);
      mret (Some [td_pkg (whole_todo id r (if decide (access_of r = PDC_WRITE) then bytes else None))], set_output_buf))
    (λ (x : option (list start_all_pkg) * bool) s', prepared S L id r s x.1 s') s.
Proof.
  intros r1 Hp Hnew Hwf Hfr Hpart E. destruct (new_buf_bytes_at _ _ _ _ Hp Hnew (rw_user _ _ _ _ Hwf)) as (q & d & [= <-] & Hd & H0 & [Hle HW]).
  destruct (request_bounds _ _ Hwf) as [Ht _]. change (cr_total_data_size r1) with (cr_total_data_size r) in Hle.
  apply wp_bind, wp_bind, (wp_bytes_at p d); [done|lia|]. apply wp_ret, wp_bind, wp_put_request, wp_ret.
  eexists S, (whole_request r p), [_]. split; [done|]. split; [done|]. split; [|split; [|done]].
  - eapply put_ok; [exact Hp|done| | |by apply shared_set_bufs| | |by destruct Hfr|done].
    + unfold started. by destruct Hfr as [-> _].
    + unfold private_blocks. change (started (whole_request r p)) with true. cbn iota. rewrite (output_blocks_null (whole_request r p)) by (by destruct Hfr).
      by rewrite app_nil_r.
    + by apply request_wf_set_bufs, request_wf_parts, request_wf_new_buf.
    + apply active_set_bufs; [by apply request_wf_parts, request_wf_new_buf|done|by destruct Hfr| |].
      * intros Hs. exfalso. revert Hs. unfold is_split. cbn. by rewrite Hpart.
      * intros _. split; [done|]. by destruct Hfr.
  - eapply whole_packaged; [done..|]. intros Hw. rewrite decide_True by done. eexists. split; [done|]. rewrite lenZ_drop_at; lia.
Qed.

Lemma fresh_static S r : request_wf S r → fresh_request r → tr_region_partition (cr_req r) = PDC_REGION_STATIC ∨ tr_region_partition (cr_req r) = PDC_OBJ_STATIC.
Proof.
  intros Hwf Hfr. destruct (rw_partition _ _ _ _ Hwf) as [?|Hs]; [by right|left]. pose proof (fr_partition _ Hfr) as Ha.
  unfold is_split, asks_servers in *. apply bool_decide_eq_true in Hs. apply bool_decide_eq_false in Ha. tauto.
Qed.

Lemma prepared_weaken S S0 L id r s s0 pkgs s' : S0 ⊆ S → cl_requests s = cl_requests s0 → prepared S L id r s pkgs s' →
  ∃ S' r' ts, S0 ⊆ S' ∧ pkgs = Some (td_pkg <$> ts) ∧ client_ok S' L s' ∧ packaged (cl_requests s0) id r r' ts ∧
    cl_requests s' = <[id := r']> (cl_requests s0) ∧ cl_objs s' = cl_objs s.
Proof. intros HS Hr (S' & r' & ts & HS' & ? & ? & ? & ? & ?). exists S', r', ts. rewrite <-Hr. split; [by etrans|done]. Qed.

Lemma prepare_request_ok S L s id r set_output_buf : client_ok S L s → cl_requests s !! id = Some r → fresh_request r →
  end_ok L (cl_objs s) (cr_local_obj_id r) →
  wp (prepare_request junk pdc_server_num_g id r set_output_buf) (λ x s', ∃ S' t r' ts, S ⊆ S' ∧ x.1 = Some (td_pkg <$> ts) ∧
    client_ok S' (add_node (cr_local_obj_id r) t id L) s' ∧ packaged (cl_requests s) id r r' ts ∧ cl_requests s' = <[id := r']> (cl_requests s) ∧
    ∀ obj, end_ok L (cl_objs s) obj → end_ok (add_node (cr_local_obj_id r) t id L) (cl_objs s') obj) s.
Proof.
  intros Hok E Hfr Hend. unfold prepare_request. apply wp_bind. eapply wp_mono; [eapply attach_ok; [done|by eapply co_objs|done]|].
  intros [] s1 (t & Hok1 & Hr1 & He & _). apply wp_bind. eapply wp_mono; [eapply pack_request_ok; [done|by rewrite Hr1]|].
  intros r1 s2 (S2 & p & HS2 & -> & Hp & [Hr2 Ho2] & Hnew). rewrite <-Hr1 in E.
  assert (request_wf S2 r) as Hwf by (eapply request_wf_weaken; [exact HS2|by eapply co_requests]).
  eapply (wp_mono _ (λ (x : option (list start_all_pkg) * bool) s', prepared S2 (add_node (cr_local_obj_id r) t id L) id r s2 x.1 s')).
  - rewrite <-Hr2 in E. destruct (fresh_static _ _ Hwf Hfr) as [Hpart|Hpart]; cbn [cr_req with_new_buf]; rewrite Hpart.
    + rewrite decide_True by done. apply (prepare_static S2 _ s2 id r p); [done..|]. intros Hw. unfold access_of in Hw. by rewrite Hw.
    + rewrite decide_False by done. rewrite decide_True by (by left). rewrite decide_True by done.
      match goal with |- context [asks_servers ?x] => change (asks_servers x) with (asks_servers r) end.
      rewrite (fr_partition _ Hfr). by apply (prepare_whole S2 _ s2 id r p set_output_buf).
  - intros [pkgs b] s3 Hprep. rewrite Hr1 in Hr2.
    destruct (prepared_weaken _ _ _ _ _ _ _ _ _ HS2 Hr2 Hprep) as (S' & r' & ts & HS' & Hpk & Hok' & Hpack & Hrs & Hob). cbn in Hpk.
    exists S', t, r', ts. do 5 (split; [done|]). rewrite Hob, Ho2. exact He.
Qed.

(** ** Preparing the batch *)

(** The nodes of [ids] follow the others in the lists. *)
Definition listed (ids : list Z) (R : gmap Z client_request) (L L' : Z → list (Z * Z)) : Prop :=
  ∀ o, ∃ N, L' o = L o ++ N ∧ N.*2 = filter (λ id, owner R id = Some o) ids.

Lemma listed_nil R L : listed [] R L L.
Proof. intros o. exists []. by rewrite app_nil_r. Qed.
Lemma listed_snoc ids R L L' obj t id : listed ids R L L' → owner R id = Some obj → listed (ids ++ [id]) R L (add_node obj t id L').
Proof.
  intros HL Ho o. destruct (HL o) as (N & E & HN). unfold add_node. rewrite list.filter_app, filter_cons. case_decide as Hd.
  - subst o. exists (N ++ [(t, id)]). rewrite decide_True by done. by rewrite E, app_assoc, fmap_app, HN.
  - exists N. rewrite decide_False by congruence. by rewrite app_nil_r.
Qed.
Lemma listed_skip ids R L L' id : listed ids R L L' → owner R id = None → listed (ids ++ [id]) R L L'.
Proof.
  intros HL Ho o. destruct (HL o) as (N & E & HN). exists N. split; [done|]. rewrite list.filter_app, filter_cons, decide_False by congruence.
  by rewrite app_nil_r.
Qed.

Definition posix (R : gmap Z client_request) (id : Z) : Prop := cr_consistency <$> R !! id = Some PDC_CONSISTENCY_POSIX.
#[global] Instance posix_dec R id : Decision (posix R id).
Proof. unfold posix. apply _. Defined.

(** The batch has the packages of the writes [tw] and of the reads [tr]. *)
Record batch_ok (R : gmap Z client_request) (ids : list Z) (b : batch) (tw tr : list todo) : Prop := {
  bo_writes : ba_writes b = td_pkg <$> tw ∧ Forall (λ t, td_access t = PDC_WRITE) tw;
  bo_reads : ba_reads b = td_pkg <$> tr ∧ Forall (λ t, td_access t = PDC_READ) tr;
  bo_posix : ba_posix b = filter (posix R) ids }.

Definition total_weight (R : gmap Z client_request) (ids : list Z) : Z :=
  foldr (λ id w, match R !! id with Some r => request_weight r | None => 0 end + w) 0 ids.

Lemma on_the_way_more ts ts' id r0 r : (∀ k, k ∈ td_key <$> ts → k ∈ td_key <$> ts') → on_the_way ts id r0 r → on_the_way ts' id r0 r.
Proof.
  intros Hsub (? & ? & ? & ? & ? & ? & Hk). do 6 (split; [done|]). intros k Hlt. destruct (Hk k Hlt); [by left|right; by apply Hsub].
Qed.

Lemma starting_packaged S S' L L' pre R ts ts2 id r r' s s' : starting S L pre R [] ts s → R !! id = Some r → id ∉ pre →
  client_ok S' L' s' → cl_requests s' = <[id := r']> (cl_requests s) → packaged (cl_requests s) id r r' ts2 →
  weight ts + weight ts2 < W64 → starting S' L' (pre ++ [id]) R [] (ts ++ ts2) s'.
Proof.
  intros Hs E Hni [Hl Hsz Hr Hli Ho] HR [Hway Hrd [Hnd Hid] _] Hw.
  pose proof (sg_mine _ _ _ _ _ _ _ Hs) as Hmine. rewrite list.Forall_forall in Hmine. split; try done.
  - apply Forall_app. split; [|by rewrite HR]. pose proof (sg_ready _ _ _ _ _ _ _ Hs) as Hts. rewrite list.Forall_forall in Hts |- *.
    intros t Ht. destruct (Hts t Ht) as (r1 & k & E1 & Hrest). exists r1, k. rewrite HR, lookup_insert_ne; [done|].
    intros ->. by apply Hni, (Hmine t).
  - rewrite fmap_app. apply list.NoDup_app. split; [by eapply sg_keys|]. split; [|done]. intros key (t & -> & Ht)%list_elem_of_fmap (t' & Hk & Ht')%list_elem_of_fmap.
    rewrite list.Forall_forall in Hid. destruct (Hid t' Ht') as [Heq _]. unfold td_key in Hk. injection Hk as Hk _. apply Hni. rewrite <-Heq, <-Hk. by apply Hmine.
  - by rewrite weight_app.
  - intros id'. pose proof (sg_batch _ _ _ _ _ _ _ Hs id') as Hb. rewrite HR. destruct (decide (id' = id)) as [->|Hne].
    + rewrite E. rewrite decide_True by (rewrite elem_of_app; right; by apply list_elem_of_singleton). exists r'. rewrite lookup_insert_eq. split; [done|].
      eapply on_the_way_more; [|exact Hway]. intros k. rewrite fmap_app, elem_of_app. tauto.
    + rewrite lookup_insert_ne by done. destruct (R !! id') as [r0|]; [|done].
      assert (id' ∈ pre ++ [id] ↔ id' ∈ pre) as Hiff by (rewrite elem_of_app, list_elem_of_singleton; naive_solver).
      destruct (decide (id' ∈ pre)).
      * rewrite decide_True by tauto. destruct Hb as (r1 & E1 & Hw1). exists r1. split; [done|]. eapply on_the_way_more; [|exact Hw1].
        intros k. rewrite fmap_app, elem_of_app. tauto.
      * by rewrite decide_False by tauto.
  - apply Forall_app. split; [|]; apply list.Forall_forall; intros t Ht; apply elem_of_app; [left; by apply Hmine|right].
    rewrite list.Forall_forall in Hid. destruct (Hid t Ht) as [-> _]. by apply list_elem_of_singleton.
Qed.

Lemma starting_skip S L pre R ts id s : starting S L pre R [] ts s → R !! id = None → starting S L (pre ++ [id]) R [] ts s.
Proof.
  intros [H1 H2 H3 H4 H5 H6 H7 H8 H9 H10] E. split; try done.
  - intros id'. specialize (H9 id'). destruct (R !! id') as [r0|] eqn:E0; [|done].
    assert (id' ∈ pre ++ [id] ↔ id' ∈ pre) as Hiff by (rewrite elem_of_app, list_elem_of_singleton; naive_solver).
    destruct (decide (id' ∈ pre)); [by rewrite decide_True by tauto|by rewrite decide_False by tauto].
  - eapply list.Forall_impl; [exact H10|]. intros t Ht. apply elem_of_app. by left.
Qed.

(** Adding the packages [ts] of request [id]. *)
Lemma batch_ok_add R ids id b tw tr ts acc : batch_ok R ids b tw tr → acc = PDC_READ ∨ acc = PDC_WRITE → Forall (λ t, td_access t = acc) ts →
  let b' := add_pkgs acc (td_pkg <$> ts) (if decide (posix R id) then Batch (ba_writes b) (ba_reads b) (ba_posix b ++ [id]) else b) in
  ∃ tw' tr', batch_ok R (ids ++ [id]) b' tw' tr' ∧ tw' ++ tr' ≡ₚ (tw ++ tr) ++ ts.
Proof.
  intros [[Ew Hw] [Er Hr] Ep] Hacc Hts b'. assert (ba_posix b' = filter (posix R) (ids ++ [id])) as Hp.
  { unfold b'. rewrite list.filter_app, <-Ep, filter_cons, filter_nil. destruct Hacc as [-> | ->]; cbn; case_decide; cbn; [done| |done|]; by rewrite app_nil_r. }
  destruct Hacc as [-> | ->].
  - exists tw, (tr ++ ts). split; [|by rewrite app_assoc]. split; [|split|exact Hp].
    + unfold b'. cbn. case_decide; by rewrite Ew.
    + unfold b'. cbn. rewrite fmap_app. case_decide; cbn; by rewrite Er.
    + by apply Forall_app.
  - exists (tw ++ ts), tr. split; [|by rewrite <-!app_assoc, (Permutation_app_comm tr)]. split; [split| |exact Hp].
    + unfold b'. cbn. rewrite fmap_app. case_decide; cbn; by rewrite Ew.
    + by apply Forall_app.
    + unfold b'. cbn. case_decide; by rewrite Er.
Qed.

Lemma batch_ok_skip R ids id b tw tr : batch_ok R ids b tw tr → R !! id = None → batch_ok R (ids ++ [id]) b tw tr.
Proof.
  intros [Hw Hr Hp] E. split; [done|done|]. rewrite list.filter_app, filter_cons, decide_False; [by rewrite app_nil_r|]. unfold posix. by rewrite E.
Qed.

Lemma request_weight_nonneg S r : request_wf S r → 0 ≤ request_weight r.
Proof.
  intros Hwf. destruct (request_bounds _ _ Hwf) as [Ht _]. destruct (pp_servers _ _ _ _ _ _ (rw_remote _ _ _ _ Hwf)) as [HN _].
  unfold request_weight. destruct (is_split r); nia.
Qed.
Lemma total_weight_nonneg S L pre R ts ids s : starting S L pre R [] ts s → (∀ id, id ∈ ids → id ∉ pre) → 0 ≤ total_weight R ids.
Proof.
  intros Hs. induction ids as [|id ids IH]; intros Hni; cbn; [done|]. fold (total_weight R ids).
  assert (0 ≤ total_weight R ids) by (apply IH; intros id' ?; apply Hni, elem_of_cons; by right).
  pose proof (sg_batch _ _ _ _ _ _ _ Hs id) as Hid. destruct (R !! id) as [r|]; [|lia].
  rewrite decide_False in Hid by (apply Hni, elem_of_cons; by left). pose proof (proj1 (sg_requests _ _ _ _ _ _ _ Hs _ _ Hid)) as Hwf.
  apply request_weight_nonneg in Hwf. lia.
Qed.

(** The loop has prepared [pre] of the requests [R] and has the packages [tw] and [tr]. *)
Record loop_ok S L L' pre R b tw tr s : Prop := {
  lp_starting : starting S L' pre R [] (tw ++ tr) s;
  lp_batch : batch_ok R pre b tw tr;
  lp_listed : listed pre R L L' }.

Definition startable (R : gmap Z client_request) (L : Z → list (Z * Z)) (objs : gmap Z obj_info) (ids : list Z) : Prop :=
  ∀ id r, id ∈ ids → R !! id = Some r → fresh_request r ∧ end_ok L objs (cr_local_obj_id r).

Lemma prepare_loop_ok R L ids : ∀ pre b set_output_buf S L' tw tr s, loop_ok S L L' pre R b tw tr s → NoDup (pre ++ ids) →
  startable R L' (cl_objs s) ids → weight (tw ++ tr) + total_weight R ids < W64 →
  wp (prepare_loop junk pdc_server_num_g ids b set_output_buf) (λ x s', x.1 = SUCCEED ∧
    ∃ S' L2 tw' tr', S ⊆ S' ∧ loop_ok S' L L2 (pre ++ ids) R x.2 tw' tr' s') s.
Proof.
  induction ids as [|id ids IH]; intros pre b sob S L' tw tr s [Hs Hb Hli] Hnd Hst Hw.
  { apply wp_ret. split; [done|]. exists S, L', tw, tr. by rewrite app_nil_r. }
  rewrite (cons_middle id), app_assoc in Hnd |- *. assert (id ∉ pre) as Hni.
  { apply list.NoDup_app in Hnd as (Hnd & _ & _). apply list.NoDup_app in Hnd as (_ & Hx & _). intros Hin. apply (Hx id Hin). by apply list_elem_of_singleton. }
  pose proof (sg_batch _ _ _ _ _ _ _ Hs id) as Hid. cbn [prepare_loop]. cbn [total_weight foldr] in Hw. fold (total_weight R ids) in Hw.
  apply wp_bind, wp_find_request. destruct (R !! id) as [r|] eqn:E.
  2: { rewrite Hid. eapply (IH _ _ _ S L' tw tr); [|done| |lia].
    - split; [by apply starting_skip|by apply batch_ok_skip|]. apply listed_skip; [done|]. unfold owner. by rewrite E.
    - intros id' r Hin. apply Hst, elem_of_cons. by right. }
  rewrite decide_False in Hid by done. rewrite Hid. destruct (Hst id r) as [Hfr Hend]; [apply elem_of_cons; by left|done|]. rewrite (fr_id _ Hfr).
  apply wp_bind. eapply wp_mono; [apply (prepare_request_ok S L' s id r sob); [by eapply starting_ok|done..]|].
  intros [pkgs sob'] s1 (S1 & t & r1 & ts & HS & Hpk & Hok & Hpack & HR & Hends). cbn in Hpk. subst pkgs.
  pose proof (rw_access _ _ _ _ (proj1 (co_requests _ _ _ _ _ (starting_ok _ _ _ _ _ _ Hs) _ _ Hid))) as Hacc.
  assert (Forall (λ t, td_access t = access_of r) ts) as Hts.
  { destruct (pg_keys _ _ _ _ _ Hpack) as [_ Hk]. eapply list.Forall_impl; [exact Hk|]. by intros ? [_ ?]. }
    assert (posix R id ↔ cr_consistency r = PDC_CONSISTENCY_POSIX) as Hpx.
  { unfold posix. rewrite E. cbn. split; [by intros [= ->]|by intros ->]. }
  destruct (batch_ok_add R pre id b tw tr ts (access_of r) Hb Hacc Hts) as (tw' & tr' & Hb' & HP). rewrite (decide_ext _ _ _ _ Hpx) in Hb'.
  pose proof (pg_weight _ _ _ _ _ Hpack) as Hw2.
  eapply wp_mono; [eapply (IH (pre ++ [id]) _ sob' S1 _ tw' tr' s1); [|done| |]|].
  - split; [|exact Hb'|eapply (listed_snoc _ _ _ _ _ t); [exact Hli|]].
    + eapply starting_perm; [symmetry; exact HP|]. eapply starting_packaged; [exact Hs|exact E|done|exact Hok|exact HR|exact Hpack|].
      assert (0 ≤ total_weight R ids); [|lia]. eapply total_weight_nonneg; [exact Hs|]. intros id' Hin Hpre.
      apply list.NoDup_app in Hnd as (_ & Hx & _). apply (Hx id'); [|done]. apply elem_of_app. by left.
    + unfold owner. rewrite E. cbn. by rewrite (fr_done _ Hfr).
  - intros id' r' Hin E'. destruct (Hst id' r') as [? He]; [apply elem_of_cons; by right|done|]. split; [done|]. by apply Hends.
  - rewrite HP, weight_app. lia.
  - intros x s2 (? & S2 & L2 & tw2 & tr2 & HS2 & ?). split; [done|]. exists S2, L2, tw2, tr2. split; [by etrans|done].
Qed.

(** ** The packages of the batch *)

Context (qsort_data_server qsort_metadata_server : list start_all_pkg → list start_all_pkg)
  (qsort_wait_all : list wait_all_pkg → list wait_all_pkg).
Context (Hdata : ∀ l, qsort_data_server l ≡ₚ l) (Hmeta : ∀ l, qsort_metadata_server l ≡ₚ l) (Hwait : ∀ l, qsort_wait_all l ≡ₚ l).

(** No package of the batch asks the metadata servers. *)
Lemma starting_static S L ids R ts s t : starting S L ids R [] ts s → (∀ id r, id ∈ ids → R !! id = Some r → fresh_request r) →
  t ∈ ts → is_dynamic (cl_requests s) (td_pkg t) = false.
Proof.
  intros Hs Hfr Ht. pose proof (sg_mine _ _ _ _ _ _ _ Hs) as Hm. rewrite list.Forall_forall in Hm. specialize (Hm t Ht).
  pose proof (sg_batch _ _ _ _ _ _ _ Hs (pk_transfer_request (td_pkg t))) as Hb. unfold is_dynamic.
  destruct (R !! pk_transfer_request (td_pkg t)) as [r0|] eqn:E; [|by rewrite Hb]. rewrite decide_True in Hb by done.
  destruct Hb as (r & -> & _ & _ & _ & _ & -> & _). by apply (fr_partition _ (Hfr _ _ Hm E)).
Qed.

Lemma register_and_sort_ok pkgs is_write s : Forall (λ p, is_dynamic (cl_requests s) p = false) pkgs →
  wp (register_and_sort junk qsort_data_server qsort_metadata_server pkgs is_write) (λ p s', s' = s ∧ p ≡ₚ pkgs) s.
Proof.
  intros Hp. unfold register_and_sort. case_decide as He; [subst; by apply wp_ret|]. apply wp_bind. unfold register_metadata. apply wp_bind, wp_gets.
  replace (filter (λ p, is_dynamic (cl_requests s) p = true) pkgs) with (@nil start_all_pkg).
  - rewrite (proj1 (Permutation_nil_r _) (Hmeta [])). apply wp_bind, wp_ret. rewrite decide_True by done. by apply wp_ret, wp_ret.
  - symmetry. clear He. induction Hp as [|p pkgs Hd _ IH]; [done|]. rewrite filter_cons, decide_False; [done|congruence].
Qed.

Lemma sorted_todos (ts : list todo) pkgs : pkgs ≡ₚ td_pkg <$> ts → ∃ ts', pkgs = td_pkg <$> ts' ∧ ts' ≡ₚ ts.
Proof. intros HP. destruct (Permutation_map_inv td_pkg ts HP) as (ts' & -> & ?). exists ts'. split; [done|by symmetry]. Qed.

Lemma prepare_batch_ok S L s ids : client_ok S L s → NoDup ids → startable (cl_requests s) L (cl_objs s) ids → total_weight (cl_requests s) ids < W64 →
  wp (prepare_batch junk pdc_server_num_g qsort_data_server qsort_metadata_server ids) (λ x s', x.1 = SUCCEED ∧
    ∃ S' L2 tw tr, S ⊆ S' ∧ loop_ok S' L L2 ids (cl_requests s) x.2 tw tr s') s.
Proof.
  intros Hok Hnd Hst Hw. apply wp_bind. eapply wp_mono.
  { apply (prepare_loop_ok (cl_requests s) L ids [] _ false S L [] [] s); [|done|done|cbn; lia].
    split; [|by split|apply listed_nil]. destruct Hok as [Hl Hs Hr Hli Ho]. split; try done; [apply NoDup_nil_2|].
    intros id. destruct (cl_requests s !! id); [|done]. rewrite decide_False; [done|apply not_elem_of_nil]. }
  intros [ret b] s1 (Hret & S1 & L2 & tw & tr & HS & [Hs1 [[Ew Hw1] [Er Hr1] Ep] Hli]). cbn in Hret, Ew, Er, Ep, Hs1. subst ret. rewrite decide_False by done.
  assert (∀ ts, (∀ t, t ∈ ts → t ∈ tw ++ tr) → Forall (λ p, is_dynamic (cl_requests s1) p = false) (td_pkg <$> ts)) as Hdyn.
  { intros ts Hsub. apply list.Forall_fmap, list.Forall_forall. intros t Ht. eapply starting_static; [exact Hs1| |by apply Hsub].
    intros id r Hin E. by apply (Hst id r). }
  rewrite Ew, Er. apply wp_bind. eapply wp_mono; [apply register_and_sort_ok, Hdyn; intros; apply elem_of_app; by left|]. intros pw s2 [-> HPw].
  apply wp_bind. eapply wp_mono; [apply register_and_sort_ok, Hdyn; intros; apply elem_of_app; by right|]. intros pr s3 [-> HPr].
  apply wp_ret. split; [done|]. destruct (sorted_todos _ _ HPw) as (tw' & -> & HPw'), (sorted_todos _ _ HPr) as (tr' & -> & HPr').
  exists S1, L2, tw', tr'. split; [done|]. split; [|split|done]; [eapply starting_perm; [|exact Hs1]; by rewrite HPw', HPr'| | |done].
  - split; [done|]. by rewrite HPw'.
  - split; [done|]. by rewrite HPr'.
Qed.

(** The batch has no merged request: a fresh request is not of a local partition. *)
Lemma not_merged S L s ids : client_ok S L s → startable (cl_requests s) L (cl_objs s) ids →
  wp (merge_transfer_request_ids junk ids) (λ m s', m = None ∧ s' = s) s.
Proof.
  intros Hok Hst. apply wp_bind, wp_gets. destruct ids as [|id ids]; [by apply wp_ret|]. cbn [fmap list_fmap].
  destruct (cl_requests s !! id) as [r|] eqn:E; [|by apply wp_ret]. destruct (Hst id r) as [Hfr _]; [apply elem_of_cons; by left|done|].
  assert (merge_stops None r r = true) as Hm.
  { unfold merge_stops. rewrite decide_True; [done|]. intros Hl. pose proof (fr_partition _ Hfr) as Ha. unfold asks_servers in Ha. rewrite Hl in Ha. done. }
  cbn [merge_check]. rewrite Hm. by apply wp_ret.
Qed.
End Start.
