(* ===== verification/ClientBatch.v ===== *)
(** A batch of transfers from the start to the end: the requests of the batch are
    under way when it was started, and done when it was waited for, and then the
    client has the memory and the lists that it had before. *)

From stdpp Require Import gmap sets list.
From S2P Require Export ClientStartSpec ClientFrame.
#[local] Open Scope Z_scope.

(** * Releasing nodes of the lists *)

(** A request of the batch after it was started: still on the way to its servers
    or, for POSIX consistency, done. *)
Definition sent (r0 r : client_request) : Prop :=
  under_way r ∧ cr_is_done r = false ∧ cr_local_obj_id r = cr_local_obj_id r0 ∧ cr_consistency r = cr_consistency r0.
Definition over (r : client_request) : Prop := cr_metadata_id r = Null ∧ cr_is_done r = true.

Lemma without_app id (l l' : list (Z * Z)) : id ∉ l.*2 → without id (l ++ l') = l ++ without id l'.
Proof.
  induction l as [|x l IH]; intros Hni; [done|]. cbn in Hni |- *. apply not_elem_of_cons in Hni as [? ?].
  rewrite decide_False by congruence. by rewrite IH.
Qed.
Lemma filter_ext_in {A} (P Q : A → Prop) `{!∀ x, Decision (P x), !∀ x, Decision (Q x)} (l : list A) :
  (∀ x, x ∈ l → P x ↔ Q x) → filter P l = filter Q l.
Proof.
  induction l as [|x l IH]; intros HPQ; [done|]. rewrite !filter_cons, IH by (intros y ?; apply HPQ, elem_of_cons; by right).
  by rewrite (decide_ext (P x) (Q x)) by (apply HPQ, elem_of_cons; by left).
Qed.
Lemma filter_other (id : Z) (l : list Z) : id ∉ l → filter (λ x, x ≠ id) l = l.
Proof.
  induction l as [|x l IH]; intros Hni; [done|]. apply not_elem_of_cons in Hni as [? ?]. rewrite filter_cons, decide_True by congruence.
  by rewrite IH.
Qed.
Lemma without_filter id (l : list (Z * Z)) : NoDup l.*2 → (without id l).*2 = filter (λ x, x ≠ id) l.*2.
Proof.
  induction l as [|x l IH]; intros Hnd; [done|]. cbn [fmap list_fmap] in Hnd |- *. apply list.NoDup_cons in Hnd as [Hni Hnd]. cbn [without].
  rewrite filter_cons. case_decide as Hx.
  - rewrite decide_False by (intros Hn; by apply Hn). rewrite Hx in Hni. by rewrite filter_other.
  - rewrite decide_True by done. cbn [fmap list_fmap]. by rewrite IH.
Qed.

(** A request that is released leaves the nodes of the batch; [R'] knows the
    requests of the batch as [R] does, but those that are done. *)
Lemma listed_release R R' l L L' id : listed l R L L' → NoDup l → (∀ o, id ∉ (L o).*2) →
  owner R' id = owner R id ∨ owner R' id = None ∧ id ∉ l → listed (filter (λ x, x ≠ id) l) R L (release_list R' L' id).
Proof.
  intros HL Hnd Hni Ho o. destruct (HL o) as (N & E & HN).
  assert (filter (λ x, owner R x = Some o) (filter (λ x, x ≠ id) l) = filter (λ x, x ≠ id) N.*2) as Hf.
  { rewrite HN, !list_filter_filter. apply list_filter_iff. tauto. }
  assert (NoDup N.*2) as HNd by (rewrite HN; by apply list.NoDup_filter).
  assert (id ∉ N.*2 → filter (λ x, x ≠ id) N.*2 = N.*2) as Hsame by apply filter_other.
  unfold release_list. destruct (owner R' id) as [obj|] eqn:Ex.
  - destruct Ho as [Ho|[? _]]; [|done]. unfold drop_request. case_decide as Hd.
    + subst obj. exists (without id N). rewrite E. split; [by apply without_app|]. by rewrite Hf, without_filter.
    + exists N. split; [done|]. rewrite Hf, Hsame; [done|]. rewrite HN, list_elem_of_filter. intros [Hx _]. congruence.
  - exists N. split; [done|]. rewrite Hf, Hsame; [done|]. rewrite HN, list_elem_of_filter. intros [Hx Hin].
    destruct Ho as [Ho|[_ ?]]; [congruence|done].
Qed.

Lemma listed_releases R R' L ks : ∀ l L', listed l R L L' → NoDup l → (∀ id o, id ∈ ks → id ∉ (L o).*2) →
  (∀ id, id ∈ ks → owner R' id = owner R id ∨ owner R' id = None ∧ id ∉ l) →
  listed (filter (λ x, x ∉ ks) l) R L (foldl (release_list R') L' ks).
Proof.
  induction ks as [|id ks IH]; intros l L' HL Hnd Hni Ho; cbn [foldl].
  { replace (filter (λ x, x ∉ []) l) with l; [done|]. clear. induction l as [|x l IH]; [done|]. rewrite filter_cons, decide_True by apply not_elem_of_nil. by rewrite <-IH. }
  assert (id ∈ id :: ks) as Hin by (apply elem_of_cons; by left).
  replace (filter (λ x, x ∉ id :: ks) l) with (filter (λ x, x ∉ ks) (filter (λ x, x ≠ id) l)).
  2: { rewrite list_filter_filter. apply list_filter_iff. intros x. rewrite not_elem_of_cons. tauto. }
  apply IH; [by apply listed_release; auto|by apply list.NoDup_filter| |].
  - intros id' o ?. apply Hni, elem_of_cons. by right.
  - intros id' Hin'. destruct (Ho id') as [?|[? Hn]]; [apply elem_of_cons; by right|by left|right]. split; [done|].
    intros Hx. apply list_elem_of_filter in Hx as [_ ?]. done.
Qed.

(** * What a client owns *)

Lemma gather_same {A} (f : client_request → list A) (R R' : gmap Z client_request) :
  (∀ id, match R !! id, R' !! id with Some r, Some r' => f r = f r' | None, None => True | _, _ => False end) → gather f R ≡ₚ gather f R'.
Proof.
  intros Hf. assert (f <$> R = f <$> R') as HE.
  { apply map_eq. intros id. rewrite !lookup_fmap. specialize (Hf id). destruct (R !! id), (R' !! id); cbn; [by f_equal|done..]. }
  assert (∀ X : gmap Z client_request, gather f X ≡ₚ map_to_list (f <$> X) ≫= snd) as Hg.
  { intros X. rewrite (map_to_list_fmap f X). unfold gather. induction (map_to_list X) as [|[id r] l IH]; [done|]. cbn. by f_equiv. }
  by rewrite Hg, (Hg R'), HE.
Qed.

Lemma layout_determines U P E h h' refs refs' n n' : layout U P E h refs n → layout U P E h' refs' n' → dom h = dom h' ∧ refs = refs'.
Proof.
  intros Hl Hl'. split.
  - apply set_eq. intros b. rewrite !elem_of_dom, (ly_dom _ _ _ _ _ _ Hl), (ly_dom _ _ _ _ _ _ Hl'). done.
  - apply map_eq. intros c. apply option_eq. intros k. by rewrite (ly_count _ _ _ _ _ _ Hl), (ly_count _ _ _ _ _ _ Hl').
Qed.

(** * The arrays of IDs *)

Definition large (ids : list Z) : Prop := (PDC_MERGE_TRANSFER_MIN_COUNT < length ids)%nat.
#[global] Instance large_dec ids : Decision (large ids).
Proof. unfold large. apply _. Defined.
(** Where the start of a batch allocates them, [next] being the first unused address:
    [merged_request_id], in a large batch, and [posix_transfer_request_id]. *)
Definition merged_array (next : Z) (ids : list Z) : gset Z := if decide (large ids) then {[next]} else ∅.
Definition posix_array (next : Z) (ids : list Z) : Z := if decide (large ids) then next + 1 else next.
(** Those that it leaves: [merged_request_id], and [posix_transfer_request_id] when no
    request is of POSIX consistency. *)
Definition leaked (R : gmap Z client_request) (next : Z) (ids : list Z) : gset Z :=
  merged_array next ids ∪ (if decide (filter (posix R) ids = []) then {[posix_array next ids]} else ∅).
Definition ids_used {Srv} (s : client Srv) : Prop := ∀ a, a ∈ cl_ids s → a < cl_next s.

Lemma leaked_size R next ids : size (leaked R next ids) =
  ((if decide (large ids) then 1 else 0) + if decide (filter (posix R) ids = []) then 1 else 0)%nat.
Proof.
  unfold leaked, merged_array, posix_array. rewrite size_union.
  - by repeat case_decide; rewrite ?size_singleton, ?size_empty.
  - repeat case_decide; set_solver by lia.
Qed.
Lemma leaked_fresh {Srv} R (s : client Srv) ids : ids_used s → leaked R (cl_next s) ids ## cl_ids s.
Proof.
  intros Hused a Ha Hin%Hused. unfold leaked, merged_array, posix_array in Ha. repeat case_decide; set_solver by lia.
Qed.

Section Batch.
Context {Srv : Type} `{SA : ServersAnswer Srv} (junk : byte) (pdc_server_num_g : Z) (U : gset Z).
Implicit Types s : client Srv.
#[local] Abbreviation client_ok := (client_ok pdc_server_num_g U).
#[local] Abbreviation starting := (starting pdc_server_num_g U).
Context (qsort_data_server qsort_metadata_server : list start_all_pkg → list start_all_pkg)
  (qsort_wait_all : list wait_all_pkg → list wait_all_pkg).
Context (Hdata : ∀ l, qsort_data_server l ≡ₚ l) (Hmeta : ∀ l, qsort_metadata_server l ≡ₚ l) (Hwait : ∀ l, qsort_wait_all l ≡ₚ l).
#[local] Abbreviation start_all := (PDCregion_transfer_start_all junk pdc_server_num_g qsort_data_server qsort_metadata_server qsort_wait_all).
#[local] Abbreviation wait_all := (PDCregion_transfer_wait_all junk qsort_wait_all).

Lemma client_ok_lists S L L' s : (∀ o, L o = L' o) → client_ok S L s → client_ok S L' s.
Proof.
  intros HL [Hl Hs Hr [Hc Hn Ha Hx] Ho]. split; try done. split.
  - intros obj o E. rewrite <-HL. by apply Hc.
  - intros obj. rewrite <-HL. apply Hn.
  - intros obj obj' t. rewrite <-!HL. apply Ha.
  - intros obj t. rewrite <-HL. apply Hx.
Qed.

(** Two states of the client own the same if no request is started in one only. *)
Lemma same_memory S S' L L' s s' : client_ok S L s → client_ok S' L' s' →
  (∀ id, match cl_requests s !! id with
         | Some r => cl_requests s' !! id = Some r ∨ started r = false ∧ ∃ r', cl_requests s' !! id = Some r' ∧ started r' = false
         | None => cl_requests s' !! id = None
         end) → dom (cl_heap s) = dom (cl_heap s') ∧ cl_refs s = cl_refs s'.
Proof.
  intros Hok Hok' HR. eapply layout_determines; [apply Hok|]. eapply layout_perm; [| |apply Hok'].
  - apply gather_same. intros id. specialize (HR id). destruct (cl_requests s !! id) as [r|]; [|by rewrite HR].
    destruct HR as [->|[Hr (r' & -> & Hr')]]; [done|]. unfold private_blocks. by rewrite Hr, Hr'.
  - apply gather_same. intros id. specialize (HR id). destruct (cl_requests s !! id) as [r|]; [|by rewrite HR].
    destruct HR as [->|[Hr (r' & -> & Hr')]]; [done|]. unfold shared_refs. by rewrite Hr, Hr'.
Qed.

(** ** The start *)

Lemma on_the_way_sent id r0 r : on_the_way [] id r0 r → sent r0 r.
Proof.
  intros (Hst & Hd & Ho & Hc & _ & Hp & Hk). split; [|done]. split; [done|]. split; [|done].
  intros k Hlt. by destruct (Hk k Hlt) as [?|Hn%elem_of_nil].
Qed.

(** The requests [ids] of [R] are sent, the others are as they were. *)
Definition all_sent (ids : list Z) (R R' : gmap Z client_request) : Prop :=
  ∀ id, match R !! id with
        | Some r0 => if decide (id ∈ ids) then ∃ r, R' !! id = Some r ∧ sent r0 r else R' !! id = Some r0
        | None => R' !! id = None
        end.

Lemma sent_can_wait ids ks R R' : all_sent ids R R' → NoDup ks → (∀ id, id ∈ ks → id ∈ ids) →
  (∀ id, head ks = Some id → is_Some (R !! id)) → can_wait R' ks.
Proof.
  intros HR Hnd Hsub Hhead. split; [done|]. split.
  - intros id r Hin E. specialize (HR id). destruct (R !! id) as [r0|]; [|congruence]. rewrite decide_True in HR by auto.
    destruct HR as (r1 & E1 & Hs & _). right. congruence.
  - intros _ id Hid. specialize (HR id). destruct (Hhead id Hid) as [r0 E0]. rewrite E0 in HR. case_decide; [destruct HR as (r & -> & _)|rewrite HR]; by eexists.
Qed.

Lemma sent_owner ids R R' id : all_sent ids R R' → (∀ id r, id ∈ ids → R !! id = Some r → fresh_request r) → owner R' id = owner R id.
Proof.
  intros HR Hfr. specialize (HR id). unfold owner. destruct (R !! id) as [r0|] eqn:E; [|by rewrite HR]. case_decide as Hin; [|by rewrite HR].
  destruct HR as (r & -> & _ & Hd & Ho & _). cbn. by rewrite Hd, (fr_done _ (Hfr id r0 Hin E)), Ho.
Qed.

(** The arrays of IDs change. *)
Lemma client_ok_ids S L s ids n : client_ok S L s → cl_next s ≤ n → client_ok S L (with_ids ids (with_next n s)).
Proof.
  intros [Hl [Hs Hn] Hr Hli Ho] Hle. split; cbn; [| |done| |done].
  - destruct Hl as [? ? ? ? ? ? Hx]. split; try done. intros b Hb. specialize (Hx b Hb). lia.
  - split; [done|]. intros b k E. specialize (Hn b k E). lia.
  - destruct Hli as [? ? ? Hx]. split; try done. intros obj t Hin. specialize (Hx obj t Hin). lia.
Qed.

(** A batch is prepared and its packages are sent, before the rest [k]. *)
Lemma send_all_ok {A} S L s ids (k : Z → perr_t → list Z → M Srv A) Q : client_ok S L s → NoDup ids → startable (cl_requests s) L (cl_objs s) ids →
  total_weight pdc_server_num_g (cl_requests s) ids < W64 →
  (∀ S' L' s', S ⊆ S' → client_ok S' L' s' → listed ids (cl_requests s) L L' → all_sent ids (cl_requests s) (cl_requests s') →
     cl_ids s' = {[posix_array (cl_next s) ids]} ∪ (merged_array (cl_next s) ids ∪ cl_ids s) → posix_array (cl_next s) ids < cl_next s' →
     wp (k (posix_array (cl_next s) ids) SUCCEED (filter (posix (cl_requests s)) ids)) Q s') →
  wp (merged ← (if decide (PDC_MERGE_TRANSFER_MIN_COUNT < length ids)%nat then _ ← alloc_ids; merge_transfer_request_ids junk ids else mret None);
      '(posix_transfer_request_id, (ret_value, b)) ← prepare_start_all_requests junk pdc_server_num_g qsort_data_server qsort_metadata_server
                          (match merged with Some id => [id] | None => ids end);
      _ ← PDC_Client_start_all_requests junk (ba_writes b);
      _ ← PDC_Client_start_all_requests junk (ba_reads b); k posix_transfer_request_id ret_value (ba_posix b)) Q s.
Proof.
  intros Hok Hnd Hst Hw HQ. apply wp_bind.
  apply (wp_mono _ (λ m s', m = None ∧ ∃ n, s' = with_ids (merged_array (cl_next s) ids ∪ cl_ids s) (with_next n s) ∧ n = posix_array (cl_next s) ids)).
  { unfold merged_array, posix_array. destruct (decide (large ids)) as [Hl|Hl]; [rewrite decide_True by done|rewrite decide_False by done].
    - apply wp_bind, wp_alloc_ids. set (s0 := with_ids _ _). eapply wp_mono; [eapply not_merged; [apply (client_ok_ids S L s); [exact Hok|lia]|exact Hst]|].
      intros m s' [-> ->]. split; [done|]. by eexists.
    - apply wp_ret. split; [done|]. exists (cl_next s). split; [destruct s; cbn; by rewrite (left_id_L ∅ (∪))|done]. }
  intros m s0 (-> & n & -> & ->). set (p := posix_array (cl_next s) ids). set (s0 := with_ids _ _).
  assert (cl_next s ≤ p) as Hp by (unfold p, posix_array; case_decide; lia).
  apply wp_bind. unfold prepare_start_all_requests. apply wp_bind, wp_alloc_ids. set (sa := with_ids _ _). apply wp_bind.
  eapply wp_mono; [apply wp_keeps; [apply keeps_prepare_batch|]; eapply (prepare_batch_ok junk pdc_server_num_g U qsort_data_server qsort_metadata_server Hdata Hmeta S L sa ids); [|done..]; do 2 (apply client_ok_ids; [|cbn; lia]); done|].
  intros [ret b] s1 [(Hret & S1 & L1 & tw & tr & HS1 & [Hs1 [[Ew Hw1] [Er Hr1] Ep] Hli]) [G1 N1]]. cbn in Hret, Ew, Er, Ep. subst ret. apply wp_ret.
  apply wp_bind. eapply wp_mono; [apply wp_keeps; [apply keeps_start_all_requests|]; by eapply (start_all_requests_ok _ _ _ _ _ _ _ PDC_WRITE); [right|..]|]. intros [] s2 [(S2 & HS2 & Hs2) [G2 N2]].
  apply wp_bind. eapply wp_mono; [apply wp_keeps; [apply keeps_start_all_requests|]; eapply (start_all_requests_ok _ _ _ _ _ _ _ PDC_READ []); [by left|done|done|]; rewrite app_nil_r; exact Hs2|].
  intros [] s3 [(S3 & HS3 & Hs3) [G3 N3]]. rewrite Ep. change (cl_next s0) with p. apply (HQ S3 L1); [by do 2 (etrans; [done|])|by eapply starting_ok|done| | |].
  - intros id. pose proof (sg_batch _ _ _ _ _ _ _ _ _ Hs3 id) as Hb. change (cl_requests sa) with (cl_requests s) in Hb.
    destruct (cl_requests s !! id) as [r0|]; [|done]. case_decide; [|done]. destruct Hb as (r & -> & Hr). exists r. split; [done|].
    by eapply on_the_way_sent.
  - by rewrite G3, G2, G1.
  - unfold sa in N1. cbn in N1. lia.
Qed.

(** The requests [ids] of [R] after the batch was started. *)
Definition all_started (ids : list Z) (R R' : gmap Z client_request) : Prop :=
  ∀ id, match R !! id with
        | Some r0 =>
            if decide (id ∈ ids) then
              ∃ r, R' !! id = Some r ∧ (if decide (posix R id) then over r else sent r0 r)
            else R' !! id = Some r0
        | None => R' !! id = None
        end.

Lemma sent_all_started ids R R1 R2 : all_sent ids R R1 → all_finished (filter (posix R) ids) R1 R2 → all_started ids R R2.
Proof.
  intros H1 H2 id. specialize (H1 id). specialize (H2 id). destruct (R !! id) as [r0|]; [|by rewrite H1 in H2].
  case_decide as Hin.
  - destruct H1 as (r & E & Hr). rewrite E in H2. destruct (decide (posix R id)) as [Hp|Hp].
    + rewrite decide_True in H2 by (split; [by apply list_elem_of_filter|apply Hr]). destruct H2 as (r' & -> & Hf). exists r'. split; [done|].
      by destruct Hf as (? & ? & _).
    + rewrite decide_False in H2 by (rewrite list_elem_of_filter; tauto). by exists r.
  - rewrite H1 in H2. by rewrite decide_False in H2 by (rewrite list_elem_of_filter; tauto).
Qed.

Lemma startable_fresh R L objs ids : startable R L objs ids → ∀ id r, id ∈ ids → R !! id = Some r → fresh_request r.
Proof. intros Hst id r Hin E. by apply (Hst id r). Qed.

Lemma start_all_ok S L s ids : client_ok S L s → NoDup ids → startable (cl_requests s) L (cl_objs s) ids →
  total_weight pdc_server_num_g (cl_requests s) ids < W64 → (∀ id o, id ∈ ids → id ∉ (L o).*2) →
  wp (start_all ids) (λ ret s', ret = SUCCEED ∧ ∃ S' L', S ⊆ S' ∧ client_ok S' L' s' ∧
    listed (filter (λ id, ¬ posix (cl_requests s) id) ids) (cl_requests s) L L' ∧ all_started ids (cl_requests s) (cl_requests s') ∧
    (ids_used s → cl_ids s' = leaked (cl_requests s) (cl_next s) ids ∪ cl_ids s ∧ ids_used s')) s.
Proof.
  intros Hok Hnd Hst Hw Hni.
  pose (k := λ (p : Z) (ret : perr_t) (posix_ids : list Z), _ ← (if decide (posix_ids = []) then mret () else _ ← wait_all posix_ids; free_ids p); mret (M := M Srv) ret).
  apply (send_all_ok S L s ids k); [done..|]. unfold k. clear k.
  intros S' L' s1 HS Hok1 Hli Hsent Hids Hnext. set (R := cl_requests s) in *. set (ks := filter (posix R) ids).
  assert (∀ id, id ∈ ks → id ∈ ids) as Hsub by by intros id [_ ?]%list_elem_of_filter.
  set (p := posix_array (cl_next s) ids) in *.
  assert (wp (if decide (ks = []) then mret () else _ ← wait_all ks; free_ids p) (λ _ s', client_ok S' (foldl (release_list (cl_requests s1)) L' ks) s' ∧
    all_finished ks (cl_requests s1) (cl_requests s') ∧ cl_ids s' = (if decide (ks = []) then cl_ids s1 else cl_ids s1 ∖ {[p]}) ∧ cl_next s1 ≤ cl_next s') s1) as Hposix.
  { case_decide as Hk; [apply wp_ret; rewrite Hk; split; [done|]; split; [|split; [done|lia]]|].
    - intros id. destruct (cl_requests s1 !! id); [|done]. rewrite decide_False; [done|]. by intros [?%elem_of_nil _].
    - apply wp_bind. eapply wp_mono; [apply wp_keeps; [apply keeps_wait_all|]; eapply wait_all_ok; [done|exact Hok1|]|intros ret s2 [(_ & Hok2 & Hfin) [G N]]].
      2:{ apply wp_free_ids; [rewrite G, Hids; set_solver|]. split; [|split; [done|by rewrite <-G]].
          change (client_ok S' (foldl (release_list (cl_requests s1)) L' ks) (with_ids (cl_ids s2 ∖ {[p]}) (with_next (cl_next s2) s2))). by apply client_ok_ids. }
      eapply sent_can_wait; [exact Hsent|by apply list.NoDup_filter|done|]. intros id Hid.
      assert (id ∈ ks) as Hx by (destruct ks; [done|injection Hid as ->; apply elem_of_cons; by left]).
      apply list_elem_of_filter in Hx as [Hx _]. unfold posix in Hx. fold R. by destruct (R !! id). }
  apply wp_bind. eapply wp_mono; [exact Hposix|]. intros [] s2 (Hok2 & Hfin & Hids2 & Hnext2). apply wp_ret. split; [done|].
  exists S', (foldl (release_list (cl_requests s1)) L' ks). split; [done|]. split; [done|]. split; [|split; [by eapply sent_all_started|]].
  2:{ intros Hused. assert (p ∉ merged_array (cl_next s) ids ∪ cl_ids s) as Hp.
      { unfold p, posix_array, merged_array. intros [Hin|Hin%Hused]%elem_of_union; case_decide; [set_solver by lia|set_solver|lia|lia]. }
      assert (cl_ids s2 = leaked R (cl_next s) ids ∪ cl_ids s) as E.
      { rewrite Hids2, Hids. unfold leaked. fold ks p. case_decide; set_solver. }
      split; [exact E|]. intros a. rewrite E. intros [Ha|Ha%Hused]%elem_of_union; [|unfold p, posix_array in *; case_decide; lia].
      unfold leaked, merged_array in Ha. fold ks p in Ha. unfold p, posix_array in *. repeat case_decide; set_solver by lia. }
  replace (filter (λ id, ¬ posix R id) ids) with (filter (λ x, x ∉ ks) ids).
  - apply listed_releases; [done|done|by intros id o ?%Hsub; apply Hni|]. intros id _. left. by eapply sent_owner, startable_fresh.
  - apply filter_ext_in. intros id Hin. unfold ks. rewrite list_elem_of_filter. tauto.
Qed.
(** ** The start and the end *)

Lemma started_can_wait ids R R' : all_started ids R R' → NoDup ids →
  ((PDC_MERGE_TRANSFER_MIN_COUNT < length ids)%nat → ∀ id, head ids = Some id → is_Some (R !! id)) → can_wait R' ids.
Proof.
  intros HR Hnd Hhead. split; [done|]. split.
  - intros id r Hin E. specialize (HR id). destruct (R !! id) as [r0|]; [|congruence]. rewrite decide_True in HR by done.
    destruct HR as (r1 & E1 & Hs). assert (r1 = r) as -> by congruence. case_decide; [left; apply Hs|right; apply Hs].
  - intros Hlen id Hid. specialize (HR id). destruct (Hhead Hlen id Hid) as [r0 E0]. rewrite E0 in HR.
    case_decide; [destruct HR as (r & -> & _)|rewrite HR]; by eexists.
Qed.

Lemma started_owner ids R R' id : all_started ids R R' → (∀ id r, id ∈ ids → R !! id = Some r → fresh_request r) → id ∈ ids →
  owner R' id = owner R id ∨ owner R' id = None ∧ id ∉ filter (λ id, ¬ posix R id) ids.
Proof.
  intros HR Hfr Hin. specialize (HR id). unfold owner. destruct (R !! id) as [r0|] eqn:E; [|left; by rewrite HR]. rewrite decide_True in HR by done.
  destruct HR as (r & -> & Hr). cbn. case_decide as Hp.
  - right. destruct Hr as [_ ->]. split; [done|]. rewrite list_elem_of_filter. tauto.
  - left. destruct Hr as (_ & -> & -> & _). by rewrite (fr_done _ (Hfr id r0 Hin E)).
Qed.

Definition all_over (ids : list Z) (R R' : gmap Z client_request) : Prop :=
  ∀ id, match R !! id with
        | Some r0 => if decide (id ∈ ids) then ∃ r, R' !! id = Some r ∧ over r else R' !! id = Some r0
        | None => R' !! id = None
        end.

Lemma started_over ids R R1 R2 : all_started ids R R1 → all_finished ids R1 R2 → all_over ids R R2.
Proof.
  intros H1 H2 id. specialize (H1 id). specialize (H2 id). destruct (R !! id) as [r0|]; [|by rewrite H1 in H2].
  case_decide as Hin; [|rewrite H1 in H2; by rewrite decide_False in H2 by tauto].
  destruct H1 as (r & E & Hr). rewrite E in H2. case_decide as Hd.
  - destruct H2 as (r' & -> & ? & ? & _). by exists r'.
  - exists r. split; [done|]. case_decide; [done|]. exfalso. apply Hd. split; [done|]. by destruct Hr as (_ & ? & _).
Qed.

Lemma start_wait_all_ok S L s ids : client_ok S L s → NoDup ids → startable (cl_requests s) L (cl_objs s) ids →
  total_weight pdc_server_num_g (cl_requests s) ids < W64 → (∀ id o, id ∈ ids → id ∉ (L o).*2) →
  ((PDC_MERGE_TRANSFER_MIN_COUNT < length ids)%nat → ∀ id, head ids = Some id → is_Some (cl_requests s !! id)) →
  wp (ret ← start_all ids; ret' ← wait_all ids; mret (ret, ret')) (λ x s', x = (SUCCEED, SUCCEED) ∧
    dom (cl_heap s) = dom (cl_heap s') ∧ cl_refs s = cl_refs s' ∧ all_over ids (cl_requests s) (cl_requests s') ∧
    (ids_used s → cl_ids s' = leaked (cl_requests s) (cl_next s) ids ∪ cl_ids s ∧ ids_used s') ∧ ∃ S', S ⊆ S' ∧ client_ok S' L s') s.
Proof.
  intros Hok Hnd Hst Hw Hni Hhead. apply wp_bind. eapply wp_mono; [by apply (start_all_ok S L)|].
  intros ret s1 (-> & S' & L' & HS & Hok1 & Hli & Hs1 & Hids1). apply wp_bind.
  eapply wp_mono; [apply wp_keeps; [apply keeps_wait_all|]; eapply wait_all_ok; [done|exact Hok1|by eapply started_can_wait]|]. intros ret s2 [(-> & Hok2 & Hfin) [Gids Gnext]]. apply wp_ret.
  pose proof (started_over _ _ _ _ Hs1 Hfin) as Hov. split; [done|].
  assert (client_ok S' L s2) as Hok3.
  { eapply client_ok_lists; [|exact Hok2]. set (l := filter _ ids) in Hli.
    assert (listed (filter (λ x, x ∉ ids) l) (cl_requests s) L (foldl (release_list (cl_requests s1)) L' ids)) as HL.
    { apply listed_releases; [done|by apply list.NoDup_filter|by intros; apply Hni|]. intros id Hin. by eapply started_owner; [|eapply startable_fresh|]. }
    intros o. destruct (HL o) as (N & -> & HN). replace (filter (λ x, x ∉ ids) l) with (@nil Z) in HN.
    - destruct N; [by rewrite app_nil_r|done].
    - symmetry. apply elem_of_nil_inv. intros x [Hx Hl]%list_elem_of_filter. by apply list_elem_of_filter in Hl as [_ ?]. }
  assert (dom (cl_heap s) = dom (cl_heap s2) ∧ cl_refs s = cl_refs s2) as [Hd Hr].
  { eapply same_memory; [exact Hok|exact Hok3|]. intros id. specialize (Hov id). destruct (cl_requests s !! id) as [r0|] eqn:E; [|done].
    case_decide as Hin; [right|by left]. destruct Hov as (r & E2 & Hn & _). unfold started. rewrite (fr_id _ (startable_fresh _ _ _ _ Hst _ _ Hin E)).
    split; [done|]. exists r. by rewrite Hn. }
  do 3 (split; [done|]). split; [|by exists S'].
  intros Hused. destruct (Hids1 Hused) as [E Hused1]. split; [by rewrite Gids|]. intros a. rewrite Gids. intros Ha%Hused1. lia.
Qed.
(** ** The creation *)

Lemma total_size n unit sz : (1 ≤ n ≤ 3)%nat → length sz = n → Forall (Z.lt 0) sz → 0 < unit → vol sz * unit < W64 →
  foldl (λ t j, t *w arr sz j) unit (seq 0 n) = vol sz * unit.
Proof.
  intros Hn Hl Hs Hu Hv. apply dims_cases in Hn as [->|[->| ->]]; dims3 Hl s0 s1 s2;
    repeat match goal with H : Forall _ (_ :: _) |- _ => apply list.Forall_cons in H as [? H] end; unfold arr; cbn in *.
  - rewrite u64_id by nia. ring.
  - rewrite (u64_id (unit * s0)), u64_id by nia. ring.
  - assert (0 < unit * s0 ∧ 0 < unit * s0 * s1) as [? ?] by nia.
    rewrite (u64_id (unit * s0)), (u64_id (unit * s0 * s1)), u64_id by nia. ring.
Qed.

(** The arguments of a transfer that can be started: the buffer of the user holds
    the local region and the object holds the remote one. *)
Record create_pre (S : gmap Z Z) s (buf : Z) (access_type : pdc_access_t) (obj_id local_reg remote_reg : Z) (o : obj_info)
    (ndim1 : nat) (offset1 size1 : list Z) (ndim2 : nat) (offset2 size2 : list Z) : Prop := {
  cp_buf : buf ≠ 0 ∧ buf ∈ U;
  cp_access : access_type = PDC_READ ∨ access_type = PDC_WRITE;
  cp_local : cl_regions s !! local_reg = Some (ndim1, offset1, size1);
  cp_remote : cl_regions s !! remote_reg = Some (ndim2, offset2, size2);
  cp_obj : cl_objs s !! obj_id = Some o;
  cp_partition : oi_region_partition o = PDC_OBJ_STATIC ∨ oi_region_partition o = PDC_REGION_STATIC;
  cp_user : ∃ n, S !! buf = Some n ∧ ∀ d, lenZ d = n → user_buf_ok ndim1 (oi_unit o) offset1 size1 d;
  cp_vol : vol size2 = vol size1;
  cp_pre : partition_pre pdc_server_num_g ndim2 (oi_unit o) (oi_dims o) offset2 size2;
  cp_obj_ok : is_u64 (oi_meta_id o) ∧ oi_ndim o = ndim2 ∧ length (oi_dims o) = ndim2 ∧ Forall is_u64 (oi_dims o);
  cp_room : 0 < cl_next s ∧ ∀ id r, cl_requests s !! id = Some r → id < cl_next s }.

Lemma create_ok S L s buf acc obj lreg rreg o n1 off1 sz1 n2 off2 sz2 : client_ok S L s → create_pre S s buf acc obj lreg rreg o n1 off1 sz1 n2 off2 sz2 →
  wp (PDCregion_transfer_create buf acc obj lreg rreg) (λ id s', client_ok S L s' ∧ cl_requests s !! id = None ∧ cl_objs s' = cl_objs s ∧
    ∃ r, cl_requests s' = <[id := r]> (cl_requests s) ∧ fresh_request r ∧ access_of r = acc ∧ cr_buf r = buf ∧ cr_local_obj_id r = obj ∧
      cr_total_data_size r = vol sz1 * oi_unit o) s.
Proof.
  intros Hok [[Hb HU] Hacc Hl Hr Ho Hpart (n & Hn & Huser) Hvol Hpre (Hid & Hnd & Hdl & Hd64) [Hnext Hroom]].
  unfold PDCregion_transfer_create. rewrite decide_False by done. do 3 (apply wp_bind, wp_gets). rewrite Hl, Hr, Ho.
  pose proof (pp_wf _ _ _ _ _ _ Hpre) as Hwf. destruct Hwf as [Hlo Hls _]. pose proof (wf_region_sizes _ _ _ (pp_wf _ _ _ _ _ _ Hpre)) as Hpos.
  pose proof (pp_unit _ _ _ _ _ _ Hpre) as Hu. pose proof (vol_pos _ Hpos).
  assert (∃ d : list byte, lenZ d = n) as [d Hd].
  { destruct (co_sizes _ _ _ _ _ Hok) as [Hs _]. assert (is_Some (cl_heap s !! buf)) as [d Hd] by (apply (ly_dom _ _ _ _ _ _ (co_layout _ _ _ _ _ Hok)); by left).
    exists d. specialize (Hs _ _ Hd). congruence. }
  destruct (Huser d Hd) as [Hn1 _ [Hlo1 _] [Hls1 _] _]. rewrite Hnd, !take_ge by lia.
  pose proof (pp_vol _ _ _ _ _ _ Hpre). rewrite total_size; [|by destruct Hpre|done..|nia].
  apply wp_bind. eexists _, _. split; [done|]. apply wp_bind, wp_put_request, wp_ret. set (r := ClientRequest _ _ _ _ _ _ _ _ _ _ _ _ _ _ _ _ _ _ _).
  assert (cl_requests s !! cl_next s = None) as Hnew by (destruct (cl_requests s !! cl_next s) as [r0|] eqn:E; [specialize (Hroom _ _ E); lia|done]).
  destruct Hok as [Hlay [Hs Hs'] Hreq Hli Hobj].
  split; [|split; [done|split; [done|]]].
  - split; cbn; [| | | |].
    + rewrite (gather_insert private_blocks), (gather_insert shared_refs), !delete_id by done. cbn. destruct Hlay as [? ? ? ? ? ? Hx]. split; try done. intros b Hb'. specialize (Hx b Hb'). lia.
    + split; [done|]. intros b k Hk. specialize (Hs' b k Hk). lia.
    + intros id r0. destruct (decide (id = cl_next s)) as [->|]; [rewrite lookup_insert_eq; intros [= <-]|rewrite lookup_insert_ne by done; apply Hreq].
      split; [|by left]. split; cbn; try done; [|by exists n|by rewrite Hvol].
      destruct Hpart as [->|Hp]; [by left|right]. unfold is_split. cbn. by rewrite Hp.
    + destruct Hli as [? ? ? Hx]. split; try done. intros ob t Hin. specialize (Hx ob t Hin). lia.
    + intros id r0. destruct (decide (id = cl_next s)) as [->|]; [rewrite lookup_insert_eq; intros [= <-]; by eexists|rewrite lookup_insert_ne by done; apply Hobj].
  - exists r. split; [done|]. split; [|split; [done|split; [done|split; [done|by rewrite <-Hvol]]]]. split; try done.
    unfold asks_servers, r. cbn. by destruct Hpart as [-> | ->].
Qed.
End Batch.
