(* ===== verification/ClientLifecycle.v ===== *)
(** The life of transfers in the client, with a client that starts a write and a
    read: creation, start of the batch, end of the batch, and the list of the
    requests of an object. *)

From stdpp Require Import gmap sets list.
From S2P Require Export ClientBatch.
#[local] Open Scope Z_scope.

(** * An example *)

(** Servers that count the transfers and answer at once. *)
#[global] Instance ex_servers : DataServers Z := {|
  PDC_get_client_data_server := 0;
  forward_transfer_request s h srv r off sz p := Some (SUCCEED, s, s + 1);
  forward_transfer_request_all s h srv acc n b sz := Some (s, s + Z.of_nat n);
  forward_transfer_request_status s h srv id := Some (SUCCEED, PDC_TRANSFER_STATUS_COMPLETE, h, s);
  forward_transfer_request_wait s h srv id acc := Some (SUCCEED, h, s);
  forward_transfer_request_wait_all s h srv ids := Some (h, s);
  forward_metadata_query s srv n w b := Some (0, 0, s);
  forward_metadata_query2 s srv q n := Some ([], s) |}.
#[global] Instance ex_servers_answer : ServersAnswer Z.
Proof. split; intros; by eexists _, _. Qed.

(** Two objects, of a static partition and on one server, and two buffers. *)
Definition ex_client : client Z :=
  Client ∅ {[ 1 := ObjInfo 7 PDC_REGION_STATIC 0 0 2 PDC_CONSISTENCY_POSIX 1 [10] None None 0;
              2 := ObjInfo 8 PDC_OBJ_STATIC 1 0 1 PDC_CONSISTENCY_DEFAULT 2 [4; 4] None None 0 ]}
    {[ 11 := (1%nat, [0], [8]); 12 := (1%nat, [1], [8]); 13 := (2%nat, [0; 0], [2; 3]); 14 := (2%nat, [1; 1], [2; 3]) ]}
    {[ 21 := replicate 16 97; 22 := replicate 12 98 ]} ∅ ∅ 100 ∅ 1000.
Definition ex_create : M Z () :=
  _ ← PDCregion_transfer_create 21 PDC_WRITE 1 11 12; _ ← PDCregion_transfer_create 22 PDC_READ 2 13 14; mret ().
(** The client with the two requests 100 and 101. *)
Definition ex_created : client Z := match ex_create ex_client with Some (_, s) => s | None => ex_client end.
Definition ex_user : gset Z := {[ 21; 22 ]}.
Definition ex_sizes : gmap Z Z := {[ 21 := 16; 22 := 12 ]}.
Definition ex_lists : Z → list (Z * Z) := λ _, [].

Lemma ex_client_ok : client_ok 2 ex_user ex_sizes ex_lists ex_client.
Proof.
  assert (∀ b d, cl_heap ex_client !! b = Some d → ex_sizes !! b = Some (lenZ d)) as Hh.
  { intros b d. unfold ex_client. cbn [cl_heap]. intros E. rewrite !lookup_insert_Some, lookup_singleton_Some in E. destruct E as [[<- <-]|[? [<- <-]]]; reflexivity. }
  split.
  - split; cbn [cl_requests ex_client]; unfold gather; rewrite map_to_list_empty; cbn [mbind list_bind fmap list_fmap].
    + intros b. unfold ex_client, ex_user. cbn [cl_heap]. rewrite <-elem_of_dom. rewrite dom_insert_L, dom_singleton_L. set_solver.
    + apply NoDup_nil_2.
    + intros b _. split; apply not_elem_of_nil.
    + intros b Hb. by apply elem_of_nil in Hb.
    + intros c n. unfold ex_client. cbn [cl_refs]. rewrite lookup_empty. split; [done|]. intros [Hn ->]. done.
    + intros e e' He. by apply elem_of_nil in He.
    + intros b [Hb|[Hb|[Hb|Hb]]]; [|by apply elem_of_nil in Hb..]. unfold ex_user in Hb. apply elem_of_union in Hb as [->%elem_of_singleton| ->%elem_of_singleton]; done.
  - split; [exact Hh|]. intros b n E. unfold ex_sizes in E. rewrite !lookup_insert_Some, lookup_singleton_Some in E. destruct E as [[<- <-]|[? [<- <-]]]; reflexivity.
  - intros id r E. done.
  - split.
    + intros obj o E. unfold ex_client in E. cbn [cl_objs] in E. rewrite !lookup_insert_Some, lookup_singleton_Some in E. destruct E as [[<- <-]|[? [<- <-]]]; reflexivity.
    + intros obj. apply NoDup_nil_2.
    + intros obj obj' t Ht. by apply elem_of_nil in Ht.
    + intros obj t Ht. by apply elem_of_nil in Ht.
  - intros id r E. done.
Qed.

Lemma ex_first_pre : create_pre 2 ex_user ex_sizes ex_client 21 PDC_WRITE 1 11 12
  (ObjInfo 7 PDC_REGION_STATIC 0 0 2 PDC_CONSISTENCY_POSIX 1 [10] None None 0) 1 [0] [8] 1 [1] [8].
Proof.
  split; try done; [by right|by right| | |].
  - exists 16. split; [done|]. intros d Hd. split; [lia|done|by repeat constructor|by repeat constructor|]. rewrite Hd. done.
  - split; try done; [lia|by repeat constructor|]. intros [|j] Hj; [done|lia].
  - split; [done|]. split; [done|]. split; [done|]. by repeat constructor.
Qed.

Definition ex_client1 : client Z := match PDCregion_transfer_create 21 PDC_WRITE 1 11 12 ex_client with Some (_, s) => s | None => ex_client end.
Lemma ex_second_pre : create_pre 2 ex_user ex_sizes ex_client1 22 PDC_READ 2 13 14
  (ObjInfo 8 PDC_OBJ_STATIC 1 0 1 PDC_CONSISTENCY_DEFAULT 2 [4; 4] None None 0) 2 [0; 0] [2; 3] 2 [1; 1] [2; 3].
Proof.
  split; try done; [by left|by left| | | |].
  - exists 12. split; [done|]. intros d Hd. split; [lia|done|by repeat constructor|by repeat constructor|]. rewrite Hd. done.
  - split; try done; [lia|by repeat constructor|]. intros [|[|j]] Hj; [done|done|lia].
  - split; [done|]. split; [done|]. split; [done|]. by repeat constructor.
  - split; [done|]. intros id r E. destruct (decide (id = 100)) as [->|Hne]; [done|]. exfalso.
    change (cl_requests ex_client1) with (<[100 := default (ClientRequest (TransferRequest 0 0 PDC_NA 0 0 0 [] [] 0 [] []) 0 0 PDC_CONSISTENCY_POSIX 0 0 [] [] 0 false 0 None Null Null Null Null Null 0 false)
      (cl_requests ex_client1 !! 100)]> (∅ : gmap Z client_request)) in E. by rewrite lookup_insert_ne in E.
Qed.

Lemma ex_created_ok : client_ok 2 ex_user ex_sizes ex_lists ex_created.
Proof.
  destruct (create_ok _ _ _ _ _ _ _ _ _ _ _ _ _ _ _ _ _ ex_client_ok ex_first_pre) as (id & s & E & Hok & _).
  assert (s = ex_client1) as -> by (unfold ex_client1; by rewrite E).
  destruct (create_ok _ _ _ _ _ _ _ _ _ _ _ _ _ _ _ _ _ Hok ex_second_pre) as (id2 & s & E2 & Hok2 & _).
  assert (s = ex_created) as -> by (unfold ex_created, ex_create, mbind, M_bind, mret, M_ret; cbn [mbind option_bind]; rewrite E; cbn; unfold ex_client1 in E2; rewrite E in E2; by rewrite E2).
  exact Hok2.
Qed.

Lemma ex_startable : startable (cl_requests ex_created) ex_lists (cl_objs ex_created) [100; 101].
Proof.
  intros id r Hin E. split; [|intros o _ Hn; by destruct Hn].
  apply elem_of_cons in Hin as [->|[->|[]%elem_of_nil]%elem_of_cons]; vm_compute in E; injection E as <-; by split.
Qed.

(** * The theorems *)

Section Theorems.
Context {Srv : Type} `{SA : ServersAnswer Srv} (junk : byte) (pdc_server_num_g : Z) (U : gset Z).
Implicit Types s : client Srv.
Context (qsort_data_server qsort_metadata_server : list start_all_pkg → list start_all_pkg)
  (qsort_wait_all : list wait_all_pkg → list wait_all_pkg).
Context (Hdata : ∀ l, qsort_data_server l ≡ₚ l) (Hmeta : ∀ l, qsort_metadata_server l ≡ₚ l) (Hwait : ∀ l, qsort_wait_all l ≡ₚ l).
#[local] Abbreviation client_ok := (client_ok pdc_server_num_g U).
#[local] Abbreviation start_all := (PDCregion_transfer_start_all junk pdc_server_num_g qsort_data_server qsort_metadata_server qsort_wait_all).
#[local] Abbreviation wait_all := (PDCregion_transfer_wait_all junk qsort_wait_all).

(** A transfer whose buffer holds the local region and whose object holds the
    remote one is created with a fresh ID and the size of the region; it is not
    started, and nothing else of the client changes. *)
Theorem transfer_created S L s buf acc obj local_reg remote_reg o ndim1 offset1 size1 ndim2 offset2 size2 :
  client_ok S L s → create_pre pdc_server_num_g U S s buf acc obj local_reg remote_reg o ndim1 offset1 size1 ndim2 offset2 size2 →
  ∃ id s' r, PDCregion_transfer_create buf acc obj local_reg remote_reg s = Some (id, s') ∧ client_ok S L s' ∧
    cl_requests s !! id = None ∧ cl_requests s' = <[id := r]> (cl_requests s) ∧ cl_objs s' = cl_objs s ∧
    fresh_request r ∧ access_of r = acc ∧ cr_buf r = buf ∧ cr_local_obj_id r = obj ∧ cr_total_data_size r = vol size1 * oi_unit o.
Proof.
  intros Hok Hpre. destruct (create_ok _ _ _ _ _ _ _ _ _ _ _ _ _ _ _ _ _ Hok Hpre) as (id & s' & E & Hok' & Hn & Ho & r & Hr & Hf).
  by exists id, s', r.
Qed.

(** C6: starting a batch of new transfers ([startable]: transfers as they are created, of a
    static partition or of objects on one server, on objects whose list is empty or whose
    end pointer is right) whose data fit into the machine's words succeeds: afterwards every
    transfer of the batch is under way with all its servers, or done when its consistency is
    POSIX, the other requests are as they were, and the IDs of those under way stand at the
    end of the lists of their objects, in the order of the batch.  Every buffer has an
    owner; of the arrays of IDs, [merged_request_id] of a large batch is left over, and
    [posix_transfer_request_id] when no transfer is of POSIX consistency ([leaked]). *)
Theorem batch_started S L s ids : client_ok S L s → NoDup ids → startable (cl_requests s) L (cl_objs s) ids →
  total_weight pdc_server_num_g (cl_requests s) ids < W64 → (∀ id o, id ∈ ids → id ∉ (L o).*2) →
  ∃ s' S' L', start_all ids s = Some (SUCCEED, s') ∧ S ⊆ S' ∧ client_ok S' L' s' ∧
    listed (filter (λ id, ¬ posix (cl_requests s) id) ids) (cl_requests s) L L' ∧
    all_started ids (cl_requests s) (cl_requests s') ∧
    (ids_used s → cl_ids s' = leaked (cl_requests s) (cl_next s) ids ∪ cl_ids s ∧ ids_used s').
Proof.
  intros Hok Hnd Hst Hw Hni.
  destruct (start_all_ok junk _ _ _ _ _ Hdata Hmeta Hwait _ _ _ _ Hok Hnd Hst Hw Hni) as (ret & s' & E & -> & S' & L' & HS).
  by exists s', S', L'.
Qed.

(** C5: waiting for transfers that are under way or done succeeds: each buffer of
    the transfers is freed exactly once, no freed memory is used, the transfers are
    done, and their IDs leave the lists of their objects. *)
Theorem batch_waited S L s ids : client_ok S L s → can_wait (cl_requests s) ids →
  ∃ s', wait_all ids s = Some (SUCCEED, s') ∧ client_ok S (foldl (release_list (cl_requests s)) L ids) s' ∧
    all_finished ids (cl_requests s) (cl_requests s').
Proof.
  intros Hok Hc. destruct (wait_all_ok junk _ _ _ Hwait _ _ _ _ Hok Hc) as (ret & s' & E & -> & H1 & H2). by exists s'.
Qed.

(** C4: a batch of new transfers ([startable], as for the start) that is started and waited
    for succeeds and gives back its buffers: the same blocks are allocated as before, the
    reference counters are the same, the lists of the objects are the same, and each
    request of the batch is done.  It does not give back all arrays of IDs: one of them is
    left over by a large batch, and one by a batch without transfers of POSIX consistency. *)
Theorem batch_restores_memory S L s ids : client_ok S L s → NoDup ids → startable (cl_requests s) L (cl_objs s) ids →
  total_weight pdc_server_num_g (cl_requests s) ids < W64 → (∀ id o, id ∈ ids → id ∉ (L o).*2) →
  ((PDC_MERGE_TRANSFER_MIN_COUNT < length ids)%nat → ∀ id, head ids = Some id → is_Some (cl_requests s !! id)) →
  ∃ s' S', (ret ← start_all ids; ret' ← wait_all ids; mret (ret, ret')) s = Some ((SUCCEED, SUCCEED), s') ∧
    dom (cl_heap s') = dom (cl_heap s) ∧ cl_refs s' = cl_refs s ∧ S ⊆ S' ∧ client_ok S' L s' ∧
    all_over ids (cl_requests s) (cl_requests s') ∧
    (ids_used s → ∃ X, cl_ids s' = X ∪ cl_ids s ∧ X ## cl_ids s ∧ ids_used s' ∧
       size X = ((if decide (PDC_MERGE_TRANSFER_MIN_COUNT < length ids)%nat then 1 else 0) + if decide (filter (posix (cl_requests s)) ids = []) then 1 else 0)%nat).
Proof.
  intros Hok Hnd Hst Hw Hni Hhead.
  destruct (start_wait_all_ok junk _ _ _ _ _ Hdata Hmeta Hwait _ _ _ _ Hok Hnd Hst Hw Hni Hhead) as (x & s' & E & -> & Hd & Hr & Ho & Hids & S' & HS & Hok').
  exists s', S'. do 6 (split; [done|]). intros Hused. destruct (Hids Hused) as [Ei Hused']. exists (leaked (cl_requests s) (cl_next s) ids).
  split; [done|]. split; [by apply leaked_fresh|]. split; [done|]. apply leaked_size.
Qed.

(** The list of the transfers of an object: a new transfer becomes the last
    node, as long as the pointer to the end is right, and a transfer that ends
    leaves the list, where it stands first; the other nodes keep their addresses
    and their order, and the search always ends. *)
Theorem local_list_refines s obj id o l : cl_objs s !! obj = Some o → chain (cl_nodes s) (oi_local_request_head o) l None → NoDup l.*1 →
  (∀ t, t ∈ l.*1 → t < cl_next s) →
  ((l ≠ [] → oi_local_request_end o = fst <$> list.last l) →
   ∃ s' o', attach_local_transfer_request obj id s = Some ((), s') ∧ cl_objs s' = <[obj := o']> (cl_objs s) ∧
     chain (cl_nodes s') (oi_local_request_head o') (l ++ [(cl_next s, id)]) None ∧ oi_local_request_end o' = Some (cl_next s) ∧
     oi_local_request_size o' = oi_local_request_size o + 1) ∧
  ∃ s' o', remove_local_transfer_request obj id s = Some ((), s') ∧ cl_objs s' = <[obj := o']> (cl_objs s) ∧
    chain (cl_nodes s') (oi_local_request_head o') (without id l) None ∧ (∀ t, t ∉ l.*1 → cl_nodes s' !! t = cl_nodes s !! t).
Proof.
  intros Ho Hc Hnd Hlt. split.
  - intros Hend. destruct (attach_spec s obj id o l Ho Hc Hnd Hlt Hend) as ([] & s' & E & o' & nodes' & -> & _ & He & Hn & Hc' & _).
    eexists _, o'. split; [exact E|]. split; [done|]. by split.
  - destruct (remove_spec s obj id o l Ho Hc Hnd) as ([] & s' & E & o' & nodes' & -> & _ & _ & Hc' & Hf).
    eexists _, o'. split; [exact E|]. split; [done|]. by split.
Qed.
End Theorems.

(** ** Witnesses *)

#[local] Abbreviation ex_start_all := (PDCregion_transfer_start_all 0 2 (λ l, l) (λ l, l) (λ l, l)).
#[local] Abbreviation ex_wait_all := (PDCregion_transfer_wait_all 0 (λ l, l)).

Lemma transfer_created_witness : ∃ s' r, PDCregion_transfer_create 21 PDC_WRITE 1 11 12 ex_client = Some (100, s') ∧
  client_ok 2 ex_user ex_sizes ex_lists s' ∧ cl_requests s' !! 100 = Some r ∧ cr_total_data_size r = 16.
Proof.
  destruct (transfer_created 2 ex_user ex_sizes ex_lists ex_client 21 PDC_WRITE 1 11 12 _ _ _ _ _ _ _ ex_client_ok ex_first_pre)
    as (id & s' & r & E & Hok & _ & Hr & _ & _ & _ & _ & _ & Ht).
  assert (id = 100) as -> by (vm_compute in E; congruence). exists s', r. split; [exact E|]. split; [exact Hok|]. rewrite Hr, lookup_insert_eq. split; [done|]. rewrite Ht. vm_compute. reflexivity.
Defined.

Lemma ex_batch : NoDup [100; 101] ∧ total_weight 2 (cl_requests ex_created) [100; 101] < W64 ∧
  (∀ id o, id ∈ [100; 101] → id ∉ (ex_lists o).*2).
Proof. split; [by apply (bool_decide_unpack _)|]. split; [vm_compute; reflexivity|]. intros id o _. apply not_elem_of_nil. Qed.

Lemma ex_ids_used : ids_used ex_created.
Proof. intros a. assert (cl_ids ex_created = ∅) as -> by (vm_compute; reflexivity). by intros ?%elem_of_empty. Qed.

Lemma batch_started_witness : ∃ s' S' L', ex_start_all [100; 101] ex_created = Some (SUCCEED, s') ∧ client_ok 2 ex_user S' L' s' ∧ (L' 2).*2 = [101].
Proof.
  destruct ex_batch as (Hnd & Hw & Hni).
  destruct (batch_started 0 2 ex_user (λ l, l) (λ l, l) (λ l, l) (λ l, reflexivity l) (λ l, reflexivity l) (λ l, reflexivity l) ex_sizes ex_lists ex_created
    [100; 101] ex_created_ok Hnd ex_startable Hw Hni) as (s' & S' & L' & E & _ & Hok & HL & _).
  exists s', S', L'. split; [exact E|]. split; [exact Hok|]. destruct (HL 2) as (N & -> & HN). cbn [ex_lists app]. rewrite HN. vm_compute. reflexivity.
Defined.

Lemma batch_waited_witness : ∃ s s', ex_start_all [100; 101] ex_created = Some (SUCCEED, s) ∧ ex_wait_all [100; 101] s = Some (SUCCEED, s') ∧
  all_finished [100; 101] (cl_requests s) (cl_requests s').
Proof.
  destruct ex_batch as (Hnd & Hw & Hni).
  destruct (start_all_ok 0 2 ex_user (λ l, l) (λ l, l) (λ l, l) (λ l, reflexivity l) (λ l, reflexivity l) (λ l, reflexivity l) ex_sizes ex_lists ex_created
    [100; 101] ex_created_ok Hnd ex_startable Hw Hni) as (ret & s & E & -> & S' & L' & _ & Hok & _ & Hs & _).
  destruct (batch_waited 0 2 ex_user (λ l, l) (λ l, reflexivity l) S' L' s [100; 101] Hok) as (s' & E' & _ & Hf).
  - eapply started_can_wait; [exact Hs|exact Hnd|]. intros Hlen. cbn in Hlen. unfold PDC_MERGE_TRANSFER_MIN_COUNT in Hlen. lia.
  - exists s, s'. split; [exact E|split; [exact E'|exact Hf]].
Defined.

Lemma batch_restores_memory_witness : ∃ s', (ret ← ex_start_all [100; 101]; ret' ← ex_wait_all [100; 101]; mret (ret, ret')) ex_created =
  Some ((SUCCEED, SUCCEED), s') ∧ dom (cl_heap s') = dom (cl_heap ex_created) ∧ cl_refs s' = ∅ ∧ ∃ X, cl_ids s' = X ∪ cl_ids ex_created ∧ size X = 0%nat.
Proof.
  destruct ex_batch as (Hnd & Hw & Hni).
  destruct (batch_restores_memory 0 2 ex_user (λ l, l) (λ l, l) (λ l, l) (λ l, reflexivity l) (λ l, reflexivity l) (λ l, reflexivity l) ex_sizes ex_lists ex_created
    [100; 101] ex_created_ok Hnd ex_startable Hw Hni) as (s' & S' & E & Hd & Hr & _ & _ & _ & Hids).
  - intros Hlen. cbn in Hlen. unfold PDC_MERGE_TRANSFER_MIN_COUNT in Hlen. lia.
  - destruct Hids as (X & HX & _ & _ & Hsize); [exact ex_ids_used|]. exists s'. split; [exact E|]. split; [exact Hd|]. split; [by rewrite Hr|]. exists X. split; [exact HX|]. rewrite Hsize. vm_compute. reflexivity.
Defined.

Lemma local_list_refines_witness : ∃ s' o', attach_local_transfer_request 1 77 ex_client = Some ((), s') ∧ cl_objs s' = <[1 := o']> (cl_objs ex_client) ∧
  chain (cl_nodes s') (oi_local_request_head o') [(100, 77)] None.
Proof.
  destruct (local_list_refines ex_client 1 77 (ObjInfo 7 PDC_REGION_STATIC 0 0 2 PDC_CONSISTENCY_POSIX 1 [10] None None 0) []) as [Ha _].
  - reflexivity.
  - reflexivity.
  - apply NoDup_nil_2.
  - intros t Ht. by apply elem_of_nil in Ht.
  - destruct Ha as (s' & o' & E & Ho & Hc & _); [intros Hn; by destruct Hn|]. exists s', o'. split; [exact E|split; [exact Ho|exact Hc]].
Defined.

(** ** What is left over *)

(** A batch without transfers of POSIX consistency leaves an array of IDs. *)
Example posix_array_left : (λ x, size (cl_ids x.2)) <$> (_ ← ex_start_all [101]; ex_wait_all [101]) ex_created = Some 1%nat.
Proof. vm_compute. reflexivity. Qed.

(** ** Where the list goes wrong *)

(** The end pointer keeps the address of a last node that is removed: the next
    transfer writes to freed memory. *)
Example attach_after_remove_last :
  (_ ← attach_local_transfer_request 1 100; _ ← attach_local_transfer_request 1 101; _ ← remove_local_transfer_request 1 101;
   attach_local_transfer_request 1 102) ex_client = None.
Proof. vm_compute. reflexivity. Qed.

(** Closing an object frees its list before it waits for the transfers, which walk
    the list once more. *)
Example close_walks_freed_list :
  (_ ← PDCregion_transfer_start_all 0 2 (λ l, l) (λ l, l) (λ l, l) [101]; PDC_obj_close_requests 0 (λ l, l) 2) ex_created = None.
Proof. vm_compute. reflexivity. Qed.
