(* ===== verification/Vle.v ===== *)
(** The variable-length integers of BULKI
    ([src/src/commons/serde/bulki/bulki_vle_util.c]): seven bits per byte, the
    lowest first, with the eighth bit set in all bytes but the last; signed
    integers in zigzag order.  With them the byte orders of
    [src/src/commons/serde/bulki/bulki_endianness_util.c]. *)

From S2P Require Export Prelude.

(** * Unsigned integers *)

(** The loop; a [uint64_t] takes at most ten bytes. *)
Fixpoint vle_encode_loop (fuel : nat) (value : Z) : list Z :=
  match fuel with
  | O => []
  | S fuel =>
    let byte := Z.land value 127 in
    let value := Z.shiftr value 7 in
    if decide (value = 0) then [byte] else Z.lor byte 128 :: vle_encode_loop fuel value
  end.
Definition BULKI_vle_encode_uint (value : Z) : list Z := vle_encode_loop 10 value.

Fixpoint vle_size_loop (fuel : nat) (value bytes_written : Z) : Z :=
  match fuel with
  | O => bytes_written
  | S fuel => if decide (128 ≤ value) then vle_size_loop fuel (Z.shiftr value 7) (bytes_written + 1) else bytes_written
  end.
Definition BULKI_vle_encoded_uint_size (value : Z) : Z := vle_size_loop 10 value 1.

(** The value and the number of bytes; [None] when the loop reads past the end of
    the buffer or shifts by more than the width of [uint64_t]. *)
Fixpoint vle_decode_loop (buffer : list Z) (result shift byte_count : Z) : option (Z * Z) :=
  match buffer with
  | [] => None
  | byte :: buffer =>
    if decide (64 ≤ shift) then None
    else
      let result := Z.lor result (u64 (Z.shiftl (Z.land byte 127) shift)) in
      if decide (Z.land byte 128 = 0) then Some (result, byte_count + 1)
      else vle_decode_loop buffer result (shift + 7) (byte_count + 1)
  end.
Definition BULKI_vle_decode_uint (buffer : list Z) : option (Z * Z) := vle_decode_loop buffer 0 0 0.

(** * Signed integers *)

(** [value << 1] is the bits of [value] moved up, as compilers translate it. *)
Definition zigzag (value : Z) : Z := u64 (Z.lxor (Z.shiftl value 1) (Z.shiftr value 63)).
Definition BULKI_vle_encode_int (value : Z) : list Z := BULKI_vle_encode_uint (zigzag value).
Definition i64 (z : Z) : Z := (z + 9223372036854775808) mod W64 - 9223372036854775808.
Definition BULKI_vle_decode_int (buffer : list Z) : option (Z * Z) :=
  '(e, n) ← BULKI_vle_decode_uint buffer;
  Some (i64 (Z.lxor (Z.shiftr e 1) (u64 (- Z.land e 1))), n).
Definition BULKI_vle_encoded_int_size (value : Z) : Z := BULKI_vle_encoded_uint_size (zigzag value).

(** * Byte orders *)

(** [le]: whether the machine is little-endian. *)
Definition BULKI_to_little_endian_u16 (le : bool) (value : Z) : Z :=
  if le then value
  else Z.lor (Z.shiftr (Z.land value 65280) 8) (Z.shiftl (Z.land value 255) 8).
Definition BULKI_to_little_endian_u32 (le : bool) (value : Z) : Z :=
  if le then value
  else Z.lor (Z.lor (Z.lor (Z.shiftr (Z.land value 4278190080) 24) (Z.shiftr (Z.land value 16711680) 8))
         (Z.shiftl (Z.land value 65280) 8)) (Z.shiftl (Z.land value 255) 24).
Definition BULKI_to_little_endian_u64 (le : bool) (value : Z) : Z :=
  if le then value
  else Z.lor (Z.lor (Z.lor (Z.lor (Z.lor (Z.lor (Z.lor
         (Z.shiftr (Z.land value 18374686479671623680) 56) (Z.shiftr (Z.land value 71776119061217280) 40))
         (Z.shiftr (Z.land value 280375465082880) 24)) (Z.shiftr (Z.land value 1095216660480) 8))
         (Z.shiftl (Z.land value 4278190080) 8)) (Z.shiftl (Z.land value 16711680) 24))
         (Z.shiftl (Z.land value 65280) 40)) (Z.shiftl (Z.land value 255) 56).
(** The bytes of [value] in memory, in the order of the machine. *)
Definition memory_bytes (le : bool) (n : nat) (value : Z) : list Z :=
  let l := (λ i : nat, (value ≫ (8 * Z.of_nat i)) mod 256) <$> seq 0 n in if le then l else reverse l.

(** * Lemmas *)

Lemma lor_add a x k : 0 ≤ k → 0 ≤ a < 2 ^ k → Z.lor a (x * 2 ^ k) = a + x * 2 ^ k.
Proof.
  intros Hk Ha. symmetry. apply Z.add_nocarry_lor. rewrite <-Z.shiftl_mul_pow2 by done. apply Z.bits_inj'. intros i Hi.
  rewrite Z.land_spec, Z.shiftl_spec, Z.bits_0 by done. destruct (decide (i < k)).
  - rewrite (Z.testbit_neg_r x) by lia. by rewrite andb_false_r.
  - replace a with (a mod 2 ^ k) by by apply Z.mod_small. by rewrite Z.mod_pow2_bits_high by lia.
Qed.

Lemma vle_byte v : Z.land v 127 = v mod 128 ∧ Z.shiftr v 7 = v / 128 ∧ Z.lor (v mod 128) 128 = v mod 128 + 128.
Proof.
  split; [apply (Z.land_ones v 7); lia|]. split; [apply (Z.shiftr_div_pow2 v 7); lia|]. apply (lor_add (v mod 128) 1 7); [lia|]. apply Z.mod_pos_bound. lia.
Qed.

(** The decoder takes the lower bits and tests the upper one. *)
Lemma vle_bits m : 0 ≤ m < 128 → Z.land m 127 = m ∧ Z.land m 128 = 0 ∧ Z.land (m + 128) 127 = m ∧ Z.land (m + 128) 128 ≠ 0.
Proof.
  intros Hm. assert (Forall (λ m, Z.land m 127 = m ∧ Z.land m 128 = 0 ∧ Z.land (m + 128) 127 = m ∧ Z.land (m + 128) 128 ≠ 0) (seqZ 0 128)) as HF.
  { apply (bool_decide_unpack _). vm_compute. done. }
  rewrite list.Forall_forall in HF. apply HF, elem_of_seqZ. lia.
Qed.

Lemma vle_encode_decode fuel : ∀ v res shift n rest, 0 ≤ v < 128 ^ Z.of_nat fuel → 0 ≤ shift < 64 → 0 ≤ res < 2 ^ shift → res + v * 2 ^ shift < W64 →
  (0 < fuel)%nat →
  vle_decode_loop (vle_encode_loop fuel v ++ rest) res shift n = Some (res + v * 2 ^ shift, n + lenZ (vle_encode_loop fuel v)).
Proof.
  induction fuel as [|fuel IH]; intros v res shift n rest Hv Hs Hr Hw Hf; [lia|]. cbn [vle_encode_loop]. destruct (vle_byte v) as (-> & -> & Hlor).
  pose proof (Z.mod_pos_bound v 128 ltac:(lia)) as Hm. destruct (vle_bits _ Hm) as (H1 & H2 & H3 & H4). pose proof (Z.div_mod v 128 ltac:(lia)) as Hdm.
  assert (0 < 2 ^ shift) as Hp by (apply Z.pow_pos_nonneg; lia).
  assert (u64 (v mod 128 * 2 ^ shift) = v mod 128 * 2 ^ shift) as Hu.
  { apply u64_id. assert (v mod 128 ≤ v) by (apply Z.mod_le; lia). revert Hp Hw. generalize (2 ^ shift). intros p. nia. }
  case_decide as Hz; cbn [vle_decode_loop app]; rewrite decide_False by lia.
  - rewrite H1, Z.shiftl_mul_pow2, Hu, lor_add by lia. rewrite decide_True by done. unfold lenZ. cbn. do 2 f_equal. rewrite Hdm at 2. rewrite Hz. lia.
  - rewrite Hlor. rewrite H3, Z.shiftl_mul_pow2, Hu, lor_add by lia. rewrite decide_False by done.
    assert (2 ^ (shift + 7) = 2 ^ shift * 128) as Hp7 by (rewrite Z.pow_add_r by lia; lia).
    assert (0 < v / 128) by (pose proof (Z.div_pos v 128); lia).
    assert (v / 128 < 128 ^ Z.of_nat fuel).
    { apply Z.div_lt_upper_bound; [lia|]. rewrite <-Z.pow_succ_r by lia. rewrite <-Nat2Z.inj_succ. lia. }
    assert ((0 < fuel)%nat) by (destruct fuel; [cbn in *; lia|lia]).
    assert (shift + 7 < 64).
    { destruct (decide (shift + 7 < 64)); [done|]. exfalso. assert (2 ^ 64 ≤ 2 ^ (shift + 7)) by (apply Z.pow_le_mono_r; lia). change (2 ^ 64) with W64 in *. nia. }
    rewrite IH; [|lia|lia|nia|nia|done]. do 2 f_equal; [nia|]. unfold lenZ. cbn [length]. lia.
Qed.

Lemma vle_uint_roundtrip v rest : is_u64 v → BULKI_vle_decode_uint (BULKI_vle_encode_uint v ++ rest) = Some (v, lenZ (BULKI_vle_encode_uint v)).
Proof.
  intros [H0 Hv]. unfold BULKI_vle_decode_uint, BULKI_vle_encode_uint. rewrite vle_encode_decode; [|split; [done|]|lia|cbn; lia|cbn; lia|lia].
  - do 2 f_equal; lia.
  - unfold W64 in Hv. cbn. lia.
Qed.

Lemma vle_encode_length fuel : ∀ v n, (0 < fuel)%nat → 0 ≤ v < 128 ^ Z.of_nat fuel → vle_size_loop fuel v n = n - 1 + lenZ (vle_encode_loop fuel v).
Proof.
  induction fuel as [|fuel IH]; intros v n Hf Hv; [lia|]. cbn [vle_size_loop vle_encode_loop]. destruct (vle_byte v) as (_ & -> & _).
  pose proof (Z.div_mod v 128 ltac:(lia)). pose proof (Z.mod_pos_bound v 128 ltac:(lia)).
  case_decide as Hge.
  - assert (0 < v / 128) by (apply Z.div_str_pos; lia). rewrite decide_False by lia.
    assert (v / 128 < 128 ^ Z.of_nat fuel).
    { apply Z.div_lt_upper_bound; [lia|]. rewrite <-Z.pow_succ_r by lia. rewrite <-Nat2Z.inj_succ. lia. }
    rewrite IH; [|destruct fuel; [cbn in *; lia|lia]|lia]. unfold lenZ. cbn [length]. lia.
  - rewrite Z.div_small by lia. rewrite decide_True by done. unfold lenZ. cbn. lia.
Qed.

(** Values below 128^n take at most n bytes. *)
Lemma vle_encode_bound fuel : ∀ n v, (0 < n)%nat → 0 ≤ v < 128 ^ Z.of_nat n → lenZ (vle_encode_loop fuel v) ≤ Z.of_nat n.
Proof.
  induction fuel as [|fuel IH]; intros n v Hn Hv; [unfold lenZ; cbn; lia|]. cbn [vle_encode_loop]. destruct (vle_byte v) as (_ & -> & _).
  case_decide as Hz; [unfold lenZ; cbn; lia|]. destruct n as [|n]; [lia|].
  assert (v / 128 < 128 ^ Z.of_nat n).
  { apply Z.div_lt_upper_bound; [lia|]. rewrite <-Z.pow_succ_r by lia. rewrite <-Nat2Z.inj_succ. lia. }
  pose proof (Z.div_pos v 128). specialize (IH n (v / 128)). unfold lenZ in *. cbn [length]. destruct n as [|n]; [cbn in *; lia|]. lia.
Qed.
Lemma vle_encode_pos v : 1 ≤ lenZ (BULKI_vle_encode_uint v).
Proof. unfold BULKI_vle_encode_uint. cbn [vle_encode_loop]. case_decide; unfold lenZ; cbn [length]; lia. Qed.
Lemma vle_uint_size v : is_u64 v → BULKI_vle_encoded_uint_size v = lenZ (BULKI_vle_encode_uint v).
Proof. intros [H0 Hv]. unfold BULKI_vle_encoded_uint_size, BULKI_vle_encode_uint. rewrite vle_encode_length; [lia|lia|]. unfold W64 in Hv. cbn. lia. Qed.

Definition is_i64 (z : Z) : Prop := -9223372036854775808 ≤ z < 9223372036854775808.

Lemma zigzag_spec v : is_i64 v → zigzag v = (if decide (v < 0) then -2 * v - 1 else 2 * v) ∧ is_u64 (zigzag v).
Proof.
  intros Hv. unfold is_i64 in Hv. assert (zigzag v = if decide (v < 0) then -2 * v - 1 else 2 * v) as E.
  { unfold zigzag. rewrite Z.shiftl_mul_pow2, Z.shiftr_div_pow2 by lia. change (2 ^ 1) with 2. change (2 ^ 63) with 9223372036854775808. case_decide.
    - replace (v / 9223372036854775808) with (-1) by (apply (Z.div_unique v 9223372036854775808 (-1) (v + 9223372036854775808)); lia).
      rewrite Z.lxor_m1_r, u64_id; unfold Z.lnot, W64; lia.
    - rewrite Z.div_small, Z.lxor_0_r, u64_id; unfold W64; lia. }
  split; [done|]. rewrite E. unfold is_u64, W64. case_decide; lia.
Qed.

Lemma lxor_ones64 x : 0 ≤ x < W64 → Z.lxor x (W64 - 1) = W64 - 1 - x.
Proof.
  intros Hx. change (W64 - 1) with (Z.ones 64). change W64 with (2 ^ 64) in Hx.
  assert (∀ i, 64 ≤ i → Z.testbit x i = false) as Hhigh by (intros i Hi; rewrite <-(Z.mod_small x (2 ^ 64)) by done; apply Z.mod_pow2_bits_high; lia).
  rewrite (Z.sub_nocarry_ldiff (Z.ones 64) x).
  - apply Z.bits_inj'. intros i Hi. rewrite Z.lxor_spec, Z.ldiff_spec, Z.testbit_ones_nonneg by lia.
    destruct (Z.ltb_spec i 64) as [|Hge]; [by destruct (Z.testbit x i)|by rewrite Hhigh].
  - apply Z.bits_inj'. intros i Hi. rewrite Z.ldiff_spec, Z.testbit_ones_nonneg, Z.bits_0 by lia.
    destruct (Z.ltb_spec i 64) as [|Hge]; [by rewrite andb_false_r|by rewrite Hhigh].
Qed.

Lemma zigzag_decode v : is_i64 v → let e := zigzag v in i64 (Z.lxor (Z.shiftr e 1) (u64 (- Z.land e 1))) = v.
Proof.
  intros Hv. destruct (zigzag_spec v Hv) as [E He]. cbn zeta. rewrite Z.shiftr_div_pow2 by lia. change (2 ^ 1) with 2.
  assert (Z.land (zigzag v) 1 = zigzag v mod 2) as -> by (apply (Z.land_ones _ 1); lia). rewrite E. unfold is_i64 in Hv. case_decide.
  - replace ((-2 * v - 1) mod 2) with 1 by (apply (Z.mod_unique _ 2 (- v - 1)); lia).
    replace ((-2 * v - 1) / 2) with (- v - 1) by (apply (Z.div_unique _ 2 (- v - 1) 1); lia).
    change (u64 (Z.opp 1)) with (W64 - 1). rewrite lxor_ones64 by (unfold W64; lia).
    unfold i64, W64. rewrite <-(Z.mod_unique _ 18446744073709551616 1 (v + 9223372036854775808)); lia.
  - replace ((2 * v) mod 2) with 0 by (apply (Z.mod_unique _ 2 v); lia). replace (2 * v / 2) with v by (apply (Z.div_unique _ 2 v 0); lia).
    change (u64 (- 0)) with 0. rewrite Z.lxor_0_r. unfold i64, W64. rewrite Z.mod_small; lia.
Qed.

(** ** Byte orders *)

(** The bits of a byte: bit [j] of byte [i] of [w]. *)
Lemma byte_bits w i j : 0 ≤ i → 0 ≤ j → Z.testbit ((w ≫ i) mod 256) j = if decide (j < 8) then Z.testbit w (j + i) else false.
Proof.
  intros Hi Hj. change 256 with (2 ^ 8). case_decide.
  - by rewrite Z.mod_pow2_bits_low, Z.shiftr_spec by lia.
  - by rewrite Z.mod_pow2_bits_high by lia.
Qed.

Lemma byte_eq w v i i' : 0 ≤ i → 0 ≤ i' → (∀ j, j ∈ seqZ 0 8 → Z.testbit w (j + i) = Z.testbit v (j + i')) → (w ≫ i) mod 256 = (v ≫ i') mod 256.
Proof.
  intros Hi Hi' Hb. apply Z.bits_inj'. intros j Hj. rewrite !byte_bits by done. case_decide; [|done]. apply Hb, elem_of_seqZ. lia.
Qed.

Ltac swap_bits :=
  intros j Hj; rewrite !Z.lor_spec; rewrite ?Z.shiftr_spec, ?Z.shiftl_spec by (apply elem_of_seqZ in Hj; lia); rewrite !Z.land_spec;
  repeat (apply elem_of_cons in Hj as [->|Hj]; [cbn; rewrite ?andb_false_r, ?andb_true_r, ?orb_false_r; reflexivity|]); by apply elem_of_nil in Hj.

Lemma little_endian_u32_bytes le v : memory_bytes le 4 (BULKI_to_little_endian_u32 le v) = memory_bytes true 4 v.
Proof.
  destruct le; [done|]. unfold memory_bytes, BULKI_to_little_endian_u32. cbn [seq fmap list_fmap]. rewrite !reverse_cons, reverse_nil. cbn [app].
  repeat (apply (f_equal2 cons); [apply byte_eq; [lia|lia|swap_bits]|]). done.
Qed.
Ltac swap_bytes := repeat (apply (f_equal2 cons); [apply byte_eq; [lia|lia|swap_bits]|]); done.
Lemma little_endian_u16_bytes le v : memory_bytes le 2 (BULKI_to_little_endian_u16 le v) = memory_bytes true 2 v.
Proof.
  destruct le; [done|]. unfold memory_bytes, BULKI_to_little_endian_u16. cbn [seq fmap list_fmap]. rewrite !reverse_cons, reverse_nil. cbn [app]. swap_bytes.
Qed.
Lemma little_endian_u64_bytes le v : memory_bytes le 8 (BULKI_to_little_endian_u64 le v) = memory_bytes true 8 v.
Proof.
  destruct le; [done|]. unfold memory_bytes, BULKI_to_little_endian_u64. cbn [seq fmap list_fmap]. rewrite !reverse_cons, reverse_nil. cbn [app]. swap_bytes.
Qed.

(** * The theorems *)

(** Every unsigned and every signed 64-bit integer is decoded from its
    variable-length encoding, whatever follows it in the buffer, and the number of
    bytes read, written and computed in advance agree; it is between one and ten. *)
Theorem vle_roundtrip rest :
  (∀ v, is_u64 v → BULKI_vle_decode_uint (BULKI_vle_encode_uint v ++ rest) = Some (v, BULKI_vle_encoded_uint_size v) ∧
     lenZ (BULKI_vle_encode_uint v) = BULKI_vle_encoded_uint_size v ∧ 1 ≤ BULKI_vle_encoded_uint_size v ≤ 10) ∧
  (∀ v, is_i64 v → BULKI_vle_decode_int (BULKI_vle_encode_int v ++ rest) = Some (v, BULKI_vle_encoded_int_size v) ∧
     lenZ (BULKI_vle_encode_int v) = BULKI_vle_encoded_int_size v).
Proof.
  assert (∀ v, is_u64 v → 1 ≤ BULKI_vle_encoded_uint_size v ≤ 10) as Hb.
  { intros v Hv. rewrite vle_uint_size by done. split; [apply vle_encode_pos|]. apply (vle_encode_bound 10 10); [lia|]. destruct Hv as [? Hv]. unfold W64 in Hv. cbn. lia. }
  split; intros v Hv.
  - rewrite vle_uint_roundtrip, (vle_uint_size v) by done. pose proof (Hb v Hv). rewrite vle_uint_size in * by done. done.
  - destruct (zigzag_spec v Hv) as [_ He]. unfold BULKI_vle_decode_int, BULKI_vle_encode_int, BULKI_vle_encoded_int_size.
    rewrite vle_uint_roundtrip by done. cbn [mbind option_bind]. rewrite (zigzag_decode v Hv), vle_uint_size by done. done.
Qed.
Lemma vle_roundtrip_witness : BULKI_vle_decode_uint ([172; 2] ++ [7]) = Some (300, 2) ∧ BULKI_vle_decode_int ([3] ++ [7]) = Some (-2, 1).
Proof.
  split; [exact (proj1 (proj1 (vle_roundtrip [7]) 300 ltac:(done)))|exact (proj1 (proj2 (vle_roundtrip [7]) (-2) ltac:(done)))].
Defined.

(** The bytes of a value that was brought to little-endian order are the same
    on machines of both byte orders: the lowest byte first. *)
Theorem little_endian_bytes le v :
  memory_bytes le 2 (BULKI_to_little_endian_u16 le v) = memory_bytes true 2 v ∧
  memory_bytes le 4 (BULKI_to_little_endian_u32 le v) = memory_bytes true 4 v ∧
  memory_bytes le 8 (BULKI_to_little_endian_u64 le v) = memory_bytes true 8 v.
Proof. split; [apply little_endian_u16_bytes|]. split; [apply little_endian_u32_bytes|apply little_endian_u64_bytes]. Qed.
