(* ===== verification/Bulki.v ===== *)
(** BULKI, the key-value structure that PDC sends and stores metadata with
    ([src/src/commons/serde/bulki/bulki.c] and [bulki_serde.c], with
    [get_size_by_class_n_type] of [src/src/commons/generic/include/pdc_generic.h]):
    an entity is a value or an array of values of a base type, of BULKIs or of
    entities, and a BULKI is a list of pairs of entities.  The pointers of the
    code are values here: its interface forbids changing an entity that was put
    into another. *)

From S2P Require Export Vle.

(** * Data *)

(** [pdc_c_var_type_t] and [pdc_c_var_class_t] *)
Definition PDC_BULKI : Z := 20.
Definition PDC_BULKI_ENT : Z := 21.
Definition PDC_TYPE_COUNT : Z := 22.
Definition PDC_CLS_ITEM : Z := 0.
Definition PDC_CLS_ARRAY : Z := 1.
Definition PDC_CLS_COUNT : Z := 2.

(** The constructors are the combinations of class and type; [count] is the length
    of the list, and 1 for an item.  A BULKI that was deserialized has no value in
    its capacity; a NULL pointer is [None]. *)
Inductive BULKI_Entity : Type :=
| Base (pdc_class pdc_type count size : Z) (data : list Z)
| BulkiItem (size : Z) (data : option BULKI)
| BulkiArray (size : Z) (data : list BULKI)
| EntityItem (size : Z) (data : BULKI_Entity)
| EntityArray (size : Z) (data : list BULKI_Entity)
with BULKI : Type :=
| Bulki (totalSize : Z) (capacity : option Z) (headerSize dataSize : Z) (fields : list (BULKI_Entity * BULKI_Entity)).

Definition entity_size (e : BULKI_Entity) : Z :=
  match e with Base _ _ _ n _ | BulkiItem n _ | BulkiArray n _ | EntityItem n _ | EntityArray n _ => n end.
Definition pdc_class_of (e : BULKI_Entity) : Z :=
  match e with Base c _ _ _ _ => c | BulkiItem _ _ | EntityItem _ _ => PDC_CLS_ITEM | _ => PDC_CLS_ARRAY end.
Definition pdc_type_of (e : BULKI_Entity) : Z :=
  match e with Base _ t _ _ _ => t | BulkiItem _ _ | BulkiArray _ _ => PDC_BULKI | _ => PDC_BULKI_ENT end.
Definition count_of (e : BULKI_Entity) : Z :=
  match e with Base _ _ n _ _ => n | BulkiArray _ l => lenZ l | EntityArray _ l => lenZ l | _ => 1 end.
Definition total_size_of (b : BULKI) : Z := match b with Bulki n _ _ _ _ => n end.
Definition fields_of (b : BULKI) : list (BULKI_Entity * BULKI_Entity) := match b with Bulki _ _ _ _ l => l end.

(** * Sizes *)

(** [DataTypeSizes] for 64-bit machines *)
Definition DataTypeSizes : list Z := [0; 2; 4; 4; 8; 1; 1; 2; 2; 4; 4; 8; 8; 4; 8; 1; 8; 1; 8; 8; 8; 8].
Definition get_size_by_dtype (t : Z) : Z := if decide (t < 0 ∨ PDC_TYPE_COUNT ≤ t) then 0 else default 0 (getZ DataTypeSizes t).

(** [strlen]; [None] when no byte is 0. *)
Fixpoint strlen (s : list Z) : option Z :=
  match s with [] => None | c :: s => if decide (c = 0) then Some 0 else n ← strlen s; Some (n + 1) end.

(** [data] is an array of pointers when it is an array of strings, and [None]. *)
Definition get_size_by_class_n_type (data : list Z) (item_count pdc_class pdc_type : Z) : option Z :=
  if decide (pdc_class = PDC_CLS_ITEM) then
    if decide (pdc_type = PDC_STRING) then n ← strlen data; Some (n + 1) else Some (get_size_by_dtype pdc_type)
  else if decide (pdc_class = PDC_CLS_ARRAY) then
    if decide (pdc_type = PDC_STRING) then None else Some (item_count *w get_size_by_dtype pdc_type)
  else Some 0.

(** Both functions write the sizes they compute into the structures: they return
    the structures with their sizes. *)
Fixpoint get_BULKI_Entity_size (e : BULKI_Entity) : option BULKI_Entity :=
  match e with
  | Base c t n _ d => s ← get_size_by_class_n_type d n c t; Some (Base c t n (18 +w s) d)
  | BulkiItem _ (Some b) => b ← get_BULKI_size b; Some (BulkiItem (18 +w total_size_of b +w get_size_by_dtype PDC_BULKI) (Some b))
  | BulkiItem _ None => Some (BulkiItem (18 +w get_size_by_dtype PDC_BULKI) None)
  | BulkiArray _ l => l ← mapM get_BULKI_size l; Some (BulkiArray (foldl (λ s b, s +w total_size_of b) 18 l) l)
  | EntityItem _ e => e ← get_BULKI_Entity_size e; Some (EntityItem (18 +w entity_size e) e)
  | EntityArray _ l => l ← mapM get_BULKI_Entity_size l; Some (EntityArray (foldl (λ s e, s +w entity_size e) 18 l) l)
  end
with get_BULKI_size (b : BULKI) : option BULKI :=
  match b with
  | Bulki _ c h d l =>
    l ← mapM (λ kv, k ← get_BULKI_Entity_size kv.1; v ← get_BULKI_Entity_size kv.2; Some (k, v)) l;
    Some (Bulki (foldl (λ s kv, s +w entity_size kv.1 +w entity_size kv.2) 48 l) c h d l)
  end.

(** * Serialization *)

Definition serialize_type_class (t c : Z) : Z :=
  if decide (PDC_TYPE_COUNT ≤ t ∨ PDC_CLS_COUNT ≤ c) then 0 else Z.lor (Z.land t 31) (Z.shiftl (Z.land c 1) 5).
(** The type and the class *)
Definition deserialize_type_class (byte : Z) : Z * Z := (Z.land byte 31, Z.land (Z.shiftr byte 5) 1).

(** The loops over arrays: [ser x off] are the bytes of [x] at position [off]. *)
Definition ser_list {A} (ser : A → Z → option (list Z)) : list A → Z → option (list Z) :=
  fix ser_list l off :=
    match l with [] => Some [] | x :: l => d ← ser x off; d' ← ser_list l (off + lenZ d); Some (d ++ d') end.

(** What is written at position [off] of the buffer.  The sizes of the entity are
    the computed ones already: its callers computed them ([sizes_fixed] in [BulkiSpec]).  The
    bytes of an [EntityItem] would be those of a struct with pointers. *)
Fixpoint BULKI_Entity_serialize_to_buffer (e : BULKI_Entity) (off : Z) : option (list Z) :=
  let head := BULKI_vle_encode_uint (entity_size e) ++ [serialize_type_class (pdc_type_of e) (pdc_class_of e)] ++ BULKI_vle_encode_uint (count_of e) in
  match e with
  | Base _ _ _ size d => d ← mem_read d 0 (size -w 18); Some (head ++ d)
  | BulkiItem _ (Some b) => d ← BULKI_serialize_to_buffer b (off + lenZ head); Some (head ++ d)
  | BulkiArray _ l => d ← ser_list BULKI_serialize_to_buffer l (off + lenZ head); Some (head ++ d)
  | EntityArray _ l => d ← ser_list BULKI_Entity_serialize_to_buffer l (off + lenZ head); Some (head ++ d)
  | BulkiItem _ None | EntityItem _ _ => None
  end
with BULKI_serialize_to_buffer (b : BULKI) (off : Z) : option (list Z) :=
  match b with
  | Bulki totalSize _ headerSize dataSize l =>
    let head := BULKI_vle_encode_uint totalSize ++ BULKI_vle_encode_uint (lenZ l) ++ BULKI_vle_encode_uint headerSize ++ BULKI_vle_encode_uint dataSize in
    ks ← ser_list (λ kv off, BULKI_Entity_serialize_to_buffer kv.1 off) l (off + lenZ head);
    let head := head ++ ks in
    let head := head ++ BULKI_vle_encode_uint (off + lenZ head) in
    vs ← ser_list (λ kv off, BULKI_Entity_serialize_to_buffer kv.2 off) l (off + lenZ head);
    let head := head ++ vs in
    Some (head ++ BULKI_vle_encode_uint (off + lenZ head))
  end.

(** The buffer has the computed size: [None] when the bytes do not fit. *)
Definition BULKI_Entity_serialize (e : BULKI_Entity) : option (list Z) :=
  e ← get_BULKI_Entity_size e; d ← BULKI_Entity_serialize_to_buffer e 0;
  if decide (lenZ d ≤ entity_size e) then Some d else None.
Definition BULKI_serialize (b : BULKI) : option (list Z) :=
  b ← get_BULKI_size b; d ← BULKI_serialize_to_buffer b 0;
  if decide (lenZ d ≤ total_size_of b) then Some d else None.

(** * Deserialization *)

Definition vle_at (buffer : list Z) (off : Z) : option (Z * Z) :=
  '(v, n) ← BULKI_vle_decode_uint (drop (Z.to_nat off) buffer); Some (v, off + n).

(** The loops over arrays: [n] elements from position [off] on. *)
Fixpoint parse_n {A} (parse : Z → option (A * Z)) (n : nat) (off : Z) : option (list A * Z) :=
  match n with
  | O => Some ([], off)
  | S n => '(x, off) ← parse off; '(l, off) ← parse_n parse n off; Some (x :: l, off)
  end.

(** [None] in the result is the pointer NULL, for offsets that do not match; the
    position is not moved then. *)
Definition deserialize_fields (entity : Z → option (BULKI_Entity * Z)) (buffer : list Z) (totalSize numKeys headerSize dataSize off : Z) : option (option BULKI * Z) :=
  '(keys, off) ← parse_n entity (Z.to_nat numKeys) off;
  '(dataOffset, next) ← vle_at buffer off;
  if decide (dataOffset ≠ off) then Some (None, off)
  else
    '(values, off) ← parse_n entity (Z.to_nat numKeys) next;
    '(dataOffset, next) ← vle_at buffer off;
    if decide (dataOffset ≠ off) then Some (None, off)
    else Some (Some (Bulki totalSize None headerSize dataSize (zip keys values)), next).
Definition deserialize_bulki (entity : Z → option (BULKI_Entity * Z)) (buffer : list Z) (off : Z) : option (option BULKI * Z) :=
  '(totalSize, off) ← vle_at buffer off;
  '(numKeys, off) ← vle_at buffer off;
  '(headerSize, off) ← vle_at buffer off;
  '(dataSize, off) ← vle_at buffer off;
  deserialize_fields entity buffer totalSize numKeys headerSize dataSize off.

(** A NULL element of an array would be copied. *)
Definition not_null {A} (parse : Z → option (option A * Z)) (off : Z) : option (A * Z) :=
  '(x, off) ← parse off; x ← x; Some (x, off).

(** Each level reads at least three bytes, so the depth is below the length. *)
Fixpoint deserialize_entity (fuel : nat) (buffer : list Z) (off : Z) : option (BULKI_Entity * Z) :=
  match fuel with
  | O => None
  | S fuel =>
    let bulki := deserialize_bulki (deserialize_entity fuel buffer) buffer in
    '(size, off) ← vle_at buffer off;
    byte ← getZ buffer off;
    let (t, c) := deserialize_type_class byte in
    '(count, off) ← vle_at buffer (off + 1);
    if decide (c = PDC_CLS_ITEM ∧ t = PDC_BULKI) then '(b, off) ← bulki off; Some (BulkiItem size b, off)
    else if decide (c = PDC_CLS_ITEM ∧ t = PDC_BULKI_ENT) then '(e, off) ← deserialize_entity fuel buffer off; Some (EntityItem size e, off)
    else if decide (c ≠ PDC_CLS_ITEM ∧ t = PDC_BULKI) then '(l, off) ← parse_n (not_null bulki) (Z.to_nat count) off; Some (BulkiArray size l, off)
    else if decide (c ≠ PDC_CLS_ITEM ∧ t = PDC_BULKI_ENT) then '(l, off) ← parse_n (deserialize_entity fuel buffer) (Z.to_nat count) off; Some (EntityArray size l, off)
    else d ← mem_read buffer off (size -w 18); Some (Base c t count size d, off + (size -w 18))
  end.

Definition BULKI_Entity_deserialize (buffer : list Z) : option BULKI_Entity :=
  fst <$> deserialize_entity (S (length buffer)) buffer 0.
Definition BULKI_deserialize (buffer : list Z) : option (option BULKI) :=
  fst <$> deserialize_bulki (deserialize_entity (length buffer) buffer) buffer 0.

(** * Building structures *)

(** What the argument [data] of [BULKI_ENTITY] points to. *)
Inductive raw_data := RawBytes (d : list Z) | RawBulkis (l : list BULKI) | RawEntities (l : list BULKI_Entity).

(** The outer [option] is undefined behaviour, the inner one NULL. *)
Definition BULKI_ENTITY (data : raw_data) (count pdc_type pdc_class : Z) : option (option BULKI_Entity) :=
  if decide (pdc_type = PDC_BULKI_ENT ∧ pdc_class = PDC_CLS_ITEM) then Some None
  else
    let n := if decide (pdc_class = PDC_CLS_ITEM) then 1 else count in
    e ← match data with
        | RawBulkis l =>
            if decide (pdc_type = PDC_BULKI ∧ n = lenZ l) then
              match l with [b] => Some (if decide (pdc_class = PDC_CLS_ITEM) then BulkiItem 0 (Some b) else BulkiArray 0 l) | _ => Some (BulkiArray 0 l) end
            else None
        | RawEntities l => if decide (pdc_type = PDC_BULKI_ENT ∧ n = lenZ l) then Some (EntityArray 0 l) else None
        | RawBytes d =>
            if decide (pdc_type = PDC_BULKI ∨ pdc_type = PDC_BULKI_ENT) then None
            else size ← get_size_by_class_n_type d count pdc_class pdc_type; d ← mem_read d 0 size; Some (Base pdc_class pdc_type n 0 d)
        end;
    Some <$> get_BULKI_Entity_size e.
Definition BULKI_singleton_ENTITY (data : raw_data) (pdc_type : Z) := BULKI_ENTITY data 1 pdc_type PDC_CLS_ITEM.
Definition BULKI_array_ENTITY (data : raw_data) (count pdc_type : Z) := BULKI_ENTITY data count pdc_type PDC_CLS_ARRAY.
Definition empty_BULKI_Array_Entity : option BULKI_Entity := get_BULKI_Entity_size (BulkiArray 0 []).
Definition empty_Bent_Array_Entity : option BULKI_Entity := get_BULKI_Entity_size (EntityArray 0 []).

Definition BULKI_ENTITY_append_BULKI (dest : BULKI_Entity) (src : BULKI) : option (option BULKI_Entity) :=
  match dest with BulkiArray n l => Some <$> get_BULKI_Entity_size (BulkiArray n (l ++ [src])) | _ => Some None end.
Definition BULKI_ENTITY_append_BULKI_Entity (dest src : BULKI_Entity) : option (option BULKI_Entity) :=
  match dest with EntityArray n l => Some <$> get_BULKI_Entity_size (EntityArray n (l ++ [src])) | _ => Some None end.
Definition BULKI_ENTITY_get_BULKI (e : BULKI_Entity) (idx : Z) : option BULKI :=
  match e with BulkiArray _ l => if decide (lenZ l ≤ idx) then None else getZ l idx | _ => None end.
Definition BULKI_ENTITY_get_BULKI_Entity (e : BULKI_Entity) (idx : Z) : option BULKI_Entity :=
  match e with EntityArray _ l => if decide (lenZ l ≤ idx) then None else getZ l idx | _ => None end.

Definition BULKI_init (initial_field_count : Z) : option BULKI := get_BULKI_size (Bulki 0 (Some (u64 initial_field_count)) 0 0 []).

(** * Equality *)

(** The loops that stop at the first difference. *)
Definition all_equal {A} (eq : A → A → option bool) : list A → list A → option bool :=
  fix all_equal l1 l2 :=
    match l1, l2 with
    | x :: l1, y :: l2 => b ← eq x y; if b : bool then all_equal l1 l2 else Some false
    | _, _ => Some true
    end.

Definition same_meta (e1 e2 : BULKI_Entity) : bool :=
  bool_decide (pdc_type_of e1 = pdc_type_of e2) && bool_decide (pdc_class_of e1 = pdc_class_of e2) &&
  bool_decide (count_of e1 = count_of e2) && bool_decide (entity_size e1 = entity_size e2).

Fixpoint BULKI_Entity_equal (be1 be2 : BULKI_Entity) : option bool :=
  if same_meta be1 be2 then
    match be1, be2 with
    | Base _ _ _ size d1, Base _ _ _ _ d2 => x ← mem_read d1 0 (size -w 18); y ← mem_read d2 0 (size -w 18); Some (bool_decide (x = y))
    | BulkiArray _ l1, BulkiArray _ l2 => all_equal BULKI_equal l1 l2
    | EntityArray _ l1, EntityArray _ l2 => all_equal BULKI_Entity_equal l1 l2
    | BulkiItem _ (Some b1), BulkiItem _ (Some b2) => BULKI_equal b1 b2
    | _, _ => None
    end
  else Some false
with BULKI_equal (bulki1 bulki2 : BULKI) : option bool :=
  match bulki1, bulki2 with
  | Bulki t1 _ h1 d1 l1, Bulki t2 _ h2 d2 l2 =>
    if decide (lenZ l1 ≠ lenZ l2 ∨ t1 ≠ t2 ∨ h1 ≠ h2 ∨ d1 ≠ d2) then Some false
    else all_equal (λ kv1 kv2, b ← BULKI_Entity_equal kv1.1 kv2.1; if b : bool then BULKI_Entity_equal kv1.2 kv2.2 else Some false) l1 l2
  end.

(** * The map *)

(** The index of the first field with the key. *)
Fixpoint find_key (l : list (BULKI_Entity * BULKI_Entity)) (key : BULKI_Entity) (i : nat) : option (option nat) :=
  match l with
  | [] => Some None
  | kv :: l => b ← BULKI_Entity_equal kv.1 key; if b : bool then Some (Some i) else find_key l key (S i)
  end.
Definition BULKI_get (b : BULKI) (key : BULKI_Entity) : option (option BULKI_Entity) :=
  i ← find_key (fields_of b) key 0;
  match i with Some i => kv ← fields_of b !! i; Some (Some kv.2) | None => Some None end.

(** [None] when the arrays have no room after they were doubled, or when the
    capacity has no value. *)
Definition BULKI_put (b : BULKI) (key value : BULKI_Entity) : option BULKI :=
  i ← find_key (fields_of b) key 0;
  match b, i with
  | Bulki t c h d l, Some i =>
      kv ← l !! i;
      get_BULKI_size (Bulki t c (h -w entity_size key +w entity_size key) (d -w entity_size kv.2 +w entity_size value) (<[i := (kv.1, value)]> l))
  | Bulki t c h d l, None =>
      c ← c;
      let c := if decide (c ≤ lenZ l) then c *w 2 else c in
      if decide (c ≤ lenZ l) then None
      else get_BULKI_size (Bulki t (Some c) (h +w entity_size key) (d +w entity_size value) (l ++ [(key, value)]))
  end.

(** The value that the result points to after the call.  The last field but one is
    copied into the place of the key; with one field this reads before the arrays. *)
Definition BULKI_delete (b : BULKI) (key : BULKI_Entity) : option (BULKI * option BULKI_Entity) :=
  i ← find_key (fields_of b) key 0;
  match b, i with
  | Bulki t c h d l, Some i =>
      kv ← l !! i;
      let numKeys := (length l - 1)%nat in
      last ← (if decide (numKeys = 0%nat) then None else l !! (numKeys - 1)%nat);
      let b := Bulki t c (h -w entity_size key) (d -w entity_size kv.2) (take numKeys (<[i := last]> l)) in
      b ← get_BULKI_size b; Some (b, Some last.2)
  | b, None => b ← get_BULKI_size b; Some (b, None)
  end.

(** * Iterators *)

Record BULKI_KV_Pair_Iterator := KVIterator { kv_bulki : BULKI; kv_current_idx : Z; kv_total_size : Z }.
Definition BULKI_KV_Pair_iterator_init (b : BULKI) : BULKI_KV_Pair_Iterator := KVIterator b 0 (lenZ (fields_of b)).
Definition BULKI_KV_Pair_iterator_has_next (it : BULKI_KV_Pair_Iterator) : bool := bool_decide (kv_current_idx it < kv_total_size it).
Definition BULKI_KV_Pair_iterator_next (it : BULKI_KV_Pair_Iterator) : option (BULKI_Entity * BULKI_Entity) * BULKI_KV_Pair_Iterator :=
  if decide (kv_current_idx it < kv_total_size it) then
    (getZ (fields_of (kv_bulki it)) (kv_current_idx it), KVIterator (kv_bulki it) (kv_current_idx it + 1) (kv_total_size it))
  else (None, it).

(** The iterator over an array, with an optional filter ([filter] and
    [filter_type]; of a base type it never matches). *)
Inductive bent_filter := FilterBulki (b : BULKI) | FilterBent (e : BULKI_Entity) | FilterBase (filter_type : Z).
Definition filter_type_of (f : bent_filter) : Z := match f with FilterBulki _ => PDC_BULKI | FilterBent _ => PDC_BULKI_ENT | FilterBase t => t end.
Record BULKI_Entity_Iterator := EntityIterator { it_entity_array : BULKI_Entity; it_total_size : Z; it_current_idx : Z; it_bent_filter : option bent_filter }.
Definition Bent_iterator_init (array : BULKI_Entity) (filter : option bent_filter) : option BULKI_Entity_Iterator :=
  if decide (pdc_class_of array ≠ PDC_CLS_ARRAY) then None
  else Some (EntityIterator array (count_of array) 0 (f ← filter; if decide (pdc_type_of array = filter_type_of f) then Some f else None)).

(** The loop from element [idx] on; [matches] is its test of the element. *)
Fixpoint skip_to {A} (rest : list A) (matches : A → option bool) (idx : Z) : option (bool * Z) :=
  match rest with
  | [] => Some (false, idx)
  | e :: rest => b ← matches e; if b : bool then Some (true, idx) else skip_to rest matches (idx + 1)
  end.
Definition has_next_filtered {A} (it : BULKI_Entity_Iterator) (content : list A) (matches : A → option bool) : option (bool * BULKI_Entity_Iterator) :=
  '(b, idx) ← skip_to (drop (Z.to_nat (it_current_idx it)) content) matches (it_current_idx it);
  Some (b, EntityIterator (it_entity_array it) (it_total_size it) idx (it_bent_filter it)).
Definition at_end (it : BULKI_Entity_Iterator) : option (bool * BULKI_Entity_Iterator) :=
  Some (false, EntityIterator (it_entity_array it) (it_total_size it) (it_current_idx it `max` it_total_size it) (it_bent_filter it)).
Definition Bent_iterator_has_next_BULKI (it : BULKI_Entity_Iterator) : option (bool * BULKI_Entity_Iterator) :=
  match it_bent_filter it, it_entity_array it with
  | None, _ => Some (bool_decide (it_current_idx it < it_total_size it), it)
  | Some (FilterBulki f), BulkiArray _ l => has_next_filtered it l (λ b, BULKI_equal b f)
  | _, _ => at_end it
  end.
Definition Bent_iterator_has_next_Bent (it : BULKI_Entity_Iterator) : option (bool * BULKI_Entity_Iterator) :=
  match it_bent_filter it, it_entity_array it with
  | None, _ => Some (bool_decide (it_current_idx it < it_total_size it), it)
  | Some (FilterBent f), EntityArray _ l => has_next_filtered it l (λ e, BULKI_Entity_equal e f)
  | _, _ => at_end it
  end.
Definition next_of {A} (it : BULKI_Entity_Iterator) (content : list A) : option A * BULKI_Entity_Iterator :=
  if decide (it_current_idx it < it_total_size it) then
    (getZ content (it_current_idx it), EntityIterator (it_entity_array it) (it_total_size it) (it_current_idx it + 1) (it_bent_filter it))
  else (None, it).
Definition Bent_iterator_next_BULKI (it : BULKI_Entity_Iterator) : option BULKI * BULKI_Entity_Iterator :=
  match it_entity_array it with BulkiArray _ l => next_of it l | _ => (None, it) end.
Definition Bent_iterator_next_Bent (it : BULKI_Entity_Iterator) : option BULKI_Entity * BULKI_Entity_Iterator :=
  match it_entity_array it with EntityArray _ l => next_of it l | _ => (None, it) end.
