(* ===== verification/BulkiSpec.v ===== *)
(** The theorems on BULKI: the computed size is an upper bound of the bytes
    written, deserialization is the inverse of serialization, and the operations
    are those of a finite map. *)

From S2P Require Import Wire.
From S2P Require Export Bulki.

(** * Induction *)

Section induction.
Variables (P : BULKI_Entity → Prop) (Q : BULKI → Prop).
Hypothesis HBase : ∀ c t n s d, P (Base c t n s d).
Hypothesis HBulkiItem : ∀ s b, (∀ b', b = Some b' → Q b') → P (BulkiItem s b).
Hypothesis HBulkiArray : ∀ s l, Forall Q l → P (BulkiArray s l).
Hypothesis HEntityItem : ∀ s e, P e → P (EntityItem s e).
Hypothesis HEntityArray : ∀ s l, Forall P l → P (EntityArray s l).
Hypothesis HBulki : ∀ t c h d l, Forall (λ kv, P kv.1 ∧ P kv.2) l → Q (Bulki t c h d l).

Fixpoint entity_induction (e : BULKI_Entity) : P e :=
  match e with
  | Base c t n s d => HBase c t n s d
  | BulkiItem s b => HBulkiItem s b
      (match b as o return ∀ b', o = Some b' → Q b' with
       | Some b => λ b' E, match E in _ = o return match o with Some b' => Q b' | None => True end with eq_refl => bulki_induction b end
       | None => λ b' E, match E in _ = o return match o with Some b' => Q b' | None => True end with eq_refl => I end
       end)
  | BulkiArray s l => HBulkiArray s l ((fix go l : Forall Q l := match l with [] => List.Forall_nil _ | b :: l => List.Forall_cons _ _ _ (bulki_induction b) (go l) end) l)
  | EntityItem s e => HEntityItem s e (entity_induction e)
  | EntityArray s l => HEntityArray s l ((fix go l : Forall P l := match l with [] => List.Forall_nil _ | e :: l => List.Forall_cons _ _ _ (entity_induction e) (go l) end) l)
  end
with bulki_induction (b : BULKI) : Q b :=
  match b with
  | Bulki t c h d l => HBulki t c h d l
      ((fix go l : Forall (λ kv, P kv.1 ∧ P kv.2) l :=
          match l with [] => List.Forall_nil _ | (k, v) :: l => List.Forall_cons _ (k, v) _ (conj (entity_induction k) (entity_induction v)) (go l) end) l)
  end.

Lemma bulki_mutual_induction : (∀ e, P e) ∧ (∀ b, Q b).
Proof. exact (conj entity_induction bulki_induction). Qed.
End induction.

(** * Well-formed structures *)

Definition sum_of {A} (f : A → Z) (l : list A) : Z := foldr (λ x s, f x + s) 0 l.
Definition all {A} (P : A → Prop) (l : list A) : Prop := foldr (λ x Q, P x ∧ Q) True l.

(** Sizes are the computed ones, the data of a value are as long as its size says
    and sizes of headers and data are sums: what the functions that build
    structures establish. *)
Fixpoint wf_entity (e : BULKI_Entity) : Prop :=
  match e with
  | Base c t n s d => (c = PDC_CLS_ITEM ∨ c = PDC_CLS_ARRAY) ∧ 0 ≤ t < PDC_BULKI ∧ 0 ≤ n < 2 ^ 56 ∧ get_size_by_class_n_type d n c t = Some (lenZ d) ∧ s = 18 + lenZ d
  | BulkiItem s (Some b) => s = 26 + total_size_of b ∧ wf_bulki b
  | BulkiArray s l => s = 18 + sum_of total_size_of l ∧ all wf_bulki l
  | EntityArray s l => s = 18 + sum_of entity_size l ∧ all wf_entity l
  | BulkiItem _ None | EntityItem _ _ => False
  end
with wf_bulki (b : BULKI) : Prop :=
  match b with
  | Bulki t _ h d l =>
      t = 48 + h + d ∧ h = sum_of (λ kv, entity_size kv.1) l ∧ d = sum_of (λ kv, entity_size kv.2) l ∧
      all (λ kv, wf_entity kv.1 ∧ wf_entity kv.2) l
  end.

(** A deserialized structure has no value in the capacities. *)
Fixpoint forget_entity (e : BULKI_Entity) : BULKI_Entity :=
  match e with
  | Base c t n s d => Base c t n s d
  | BulkiItem s b => BulkiItem s (match b with Some b => Some (forget_bulki b) | None => None end)
  | BulkiArray s l => BulkiArray s (map forget_bulki l)
  | EntityItem s e => EntityItem s (forget_entity e)
  | EntityArray s l => EntityArray s (map forget_entity l)
  end
with forget_bulki (b : BULKI) : BULKI :=
  match b with Bulki t _ h d l => Bulki t None h d (map (λ kv, (forget_entity kv.1, forget_entity kv.2)) l) end.

Lemma all_Forall {A} (P : A → Prop) l : all P l ↔ Forall P l.
Proof.
  induction l as [|x l IH]; cbn; [by split; [constructor|]|]. rewrite list.Forall_cons. by rewrite <-IH.
Qed.

Lemma sum_nonneg {A} (f : A → Z) l : Forall (λ x, 0 ≤ f x) l → 0 ≤ sum_of f l.
Proof. induction 1; cbn; [done|]. fold (sum_of f l). lia. Qed.
Lemma sum_elem {A} (f : A → Z) l x : Forall (λ x, 0 ≤ f x) l → x ∈ l → f x ≤ sum_of f l.
Proof.
  induction 1 as [|y l Hy Hl IH]; intros Hx; [by apply elem_of_nil in Hx|]. cbn. fold (sum_of f l). apply elem_of_cons in Hx as [->|Hx].
  - pose proof (sum_nonneg f l Hl). lia.
  - specialize (IH Hx). lia.
Qed.
Lemma sum_app {A} (f : A → Z) l l' : sum_of f (l ++ l') = sum_of f l + sum_of f l'.
Proof. induction l as [|x l IH]; cbn; [done|]. fold (sum_of f (l ++ l')) (sum_of f l). lia. Qed.

Lemma wf_size_pos : (∀ e, wf_entity e → 18 ≤ entity_size e) ∧ (∀ b, wf_bulki b → 48 ≤ total_size_of b).
Proof.
  apply bulki_mutual_induction; cbn [wf_entity wf_bulki entity_size total_size_of].
  - intros c t n s d (_ & _ & _ & _ & ->). pose proof (lenZ_nonneg d). lia.
  - intros s [b|] IH; [|done]. intros [-> Hb]. specialize (IH b eq_refl Hb). lia.
  - intros s l IH [-> Hl]. apply all_Forall in Hl. enough (0 ≤ sum_of total_size_of l) by lia. apply sum_nonneg. rewrite list.Forall_forall in *. intros x Hx. specialize (IH x Hx (Hl x Hx)). lia.
  - done.
  - intros s l IH [-> Hl]. apply all_Forall in Hl. enough (0 ≤ sum_of entity_size l) by lia. apply sum_nonneg. rewrite list.Forall_forall in *. intros x Hx. specialize (IH x Hx (Hl x Hx)). lia.
  - intros t c h d l IH (-> & -> & -> & Hl). apply all_Forall in Hl. rewrite list.Forall_forall in *.
    match goal with |- 48 ≤ 48 + ?a + ?b => enough (0 ≤ a ∧ 0 ≤ b) by lia end.
    split; apply sum_nonneg, list.Forall_forall; intros [k v] Hx; specialize (IH _ Hx); specialize (Hl _ Hx); cbn in *; destruct IH, Hl; naive_solver lia.
Qed.

Lemma Forall_conj {A} (P Q : A → Prop) l : Forall P l → Forall Q l → Forall (λ x, P x ∧ Q x) l.
Proof. intros HP HQ. rewrite list.Forall_forall in *. auto. Qed.
Lemma Forall_use {A} (P Q : A → Prop) l : Forall P l → (∀ x, x ∈ l → P x → Q x) → Forall Q l.
Proof. intros HP H. rewrite list.Forall_forall in *. auto. Qed.

(** The elements of well-formed arrays and BULKIs are well-formed and smaller. *)
Lemma wf_bulkis_smaller l : all wf_bulki l → Forall (λ b, wf_bulki b ∧ 48 ≤ total_size_of b ≤ sum_of total_size_of l) l.
Proof.
  intros Hl%all_Forall. destruct wf_size_pos as [_ Hp]. apply (Forall_use _ _ _ Hl). intros b Hb Hw. split; [done|]. split; [by apply Hp|].
  apply sum_elem; [|done]. apply (Forall_use _ _ _ Hl). intros b' _ Hw'. specialize (Hp b' Hw'). lia.
Qed.
Lemma wf_entities_smaller {A} (f : A → BULKI_Entity) l : Forall (λ x, wf_entity (f x)) l →
  Forall (λ x, wf_entity (f x) ∧ 18 ≤ entity_size (f x) ≤ sum_of (λ x, entity_size (f x)) l) l.
Proof.
  intros Hl. destruct wf_size_pos as [Hp _]. apply (Forall_use _ _ _ Hl). intros e He Hw. split; [done|]. split; [by apply Hp|].
  apply (sum_elem (λ x, entity_size (f x))); [|done]. apply (Forall_use _ _ _ Hl). intros e' _ Hw'. specialize (Hp _ Hw'). lia.
Qed.
Lemma wf_fields_smaller l : all (λ kv, wf_entity kv.1 ∧ wf_entity kv.2) l →
  Forall (λ kv, wf_entity kv.1 ∧ 18 ≤ entity_size kv.1 ≤ sum_of (λ kv, entity_size kv.1) l) l ∧
  Forall (λ kv, wf_entity kv.2 ∧ 18 ≤ entity_size kv.2 ≤ sum_of (λ kv, entity_size kv.2) l) l.
Proof.
  intros Hl%all_Forall. split; apply wf_entities_smaller; apply (list.Forall_impl _ _ _ Hl); intros ? []; done.
Qed.
Lemma sum_smaller {A} (P : A → Prop) (f : A → Z) l k : 0 ≤ k → Forall (λ x, P x ∧ k ≤ f x ≤ sum_of f l) l → k * lenZ l ≤ sum_of f l.
Proof.
  intros Hk Hl. assert (Forall (λ x, k ≤ f x) l) as H by (apply (list.Forall_impl _ _ _ Hl); intros ? [_ ?]; lia). clear Hl.
  induction H as [|x l Hx Hl IH]; [unfold lenZ; cbn; lia|]. cbn. fold (sum_of f l). unfold lenZ in *. cbn. lia.
Qed.

(** * Sizes *)

Lemma mapM_same {A} (f : A → option A) l : Forall (λ x, f x = Some x) l → mapM f l = Some l.
Proof. induction 1 as [|x l Hx Hl IH]; [done|]. cbn. rewrite Hx. cbn. fold (mapM f l). by rewrite IH. Qed.

Lemma foldl_sizes {A} (f : A → Z) l : ∀ s, Forall (λ x, 0 ≤ f x) l → 0 ≤ s → s + sum_of f l < W64 → foldl (λ s x, s +w f x) s l = s + sum_of f l.
Proof.
  induction l as [|x l IH]; intros s Hl Hs Hw; cbn in *; [lia|]. fold (sum_of f l) in *. apply list.Forall_cons in Hl as [Hx Hl].
  pose proof (sum_nonneg f l Hl). rewrite u64_id by lia. rewrite IH; [lia|done|lia|lia].
Qed.
Lemma foldl_pair_sizes {A} (f g : A → Z) l : ∀ s, Forall (λ x, 0 ≤ f x) l → Forall (λ x, 0 ≤ g x) l → 0 ≤ s → s + sum_of f l + sum_of g l < W64 →
  foldl (λ s x, s +w f x +w g x) s l = s + sum_of f l + sum_of g l.
Proof.
  induction l as [|x l IH]; intros s Hf Hg Hs Hw; cbn in *; [lia|]. fold (sum_of f l) (sum_of g l) in *. apply list.Forall_cons in Hf as [Hx Hf], Hg as [Hy Hg].
  pose proof (sum_nonneg f l Hf). pose proof (sum_nonneg g l Hg). rewrite (u64_id (s + f x)), u64_id by lia. rewrite IH; [lia|done|done|lia|lia].
Qed.

(** Computing the sizes of a well-formed structure changes nothing. *)
Lemma sizes_fixed :
  (∀ e, wf_entity e → entity_size e < W64 → get_BULKI_Entity_size e = Some e) ∧
  (∀ b, wf_bulki b → total_size_of b < W64 → get_BULKI_size b = Some b).
Proof.
  apply bulki_mutual_induction; cbn [wf_entity wf_bulki entity_size total_size_of get_BULKI_Entity_size get_BULKI_size].
  - intros c t n s d (_ & _ & _ & -> & ->) Hs. cbn [mbind option_bind]. pose proof (lenZ_nonneg d). by rewrite u64_id by lia.
  - intros s [b|] IH; [|done]. intros [-> Hb] Hs. pose proof (proj2 wf_size_pos b Hb). rewrite (IH b eq_refl Hb) by lia. cbn [mbind option_bind].
    change (get_size_by_dtype PDC_BULKI) with 8. rewrite (u64_id (18 + total_size_of b)), u64_id by lia. do 2 f_equal. lia.
  - intros s l IH [-> Hl] Hs. apply wf_bulkis_smaller in Hl. rewrite mapM_same by (apply (Forall_use _ _ _ (Forall_conj _ _ _ IH Hl)); intros b _ [Hi [Hw ?]]; apply Hi; [done|lia]).
    cbn [mbind option_bind]. rewrite foldl_sizes; [done| |lia|done]. apply (list.Forall_impl _ _ _ Hl). intros; lia.
  - done.
  - intros s l IH [-> Hl] Hs. apply all_Forall in Hl. apply (wf_entities_smaller (λ e, e)) in Hl.
    rewrite mapM_same by (apply (Forall_use _ _ _ (Forall_conj _ _ _ IH Hl)); intros b _ [Hi [Hw ?]]; apply Hi; [done|change (sum_of (λ e, entity_size e) l) with (sum_of entity_size l) in *; lia]).
    cbn [mbind option_bind]. rewrite foldl_sizes; [done| |lia|done]. apply (list.Forall_impl _ _ _ Hl). intros; lia.
  - intros t c h d l IH (-> & -> & -> & Hl) Hs. apply wf_fields_smaller in Hl as [Hk Hv].
    pose proof (sum_smaller _ _ _ 18 ltac:(lia) Hk) as Hsk. pose proof (sum_smaller _ _ _ 18 ltac:(lia) Hv) as Hsv. pose proof (lenZ_nonneg l).
    rewrite mapM_same.
    + cbn [mbind option_bind]. rewrite foldl_pair_sizes; [done| | |lia|lia]; [apply (list.Forall_impl _ _ _ Hk)|apply (list.Forall_impl _ _ _ Hv)]; intros; lia.
    + apply (Forall_use _ _ _ (Forall_conj _ _ _ IH (Forall_conj _ _ _ Hk Hv))). intros [k v] _ [[H1 H2] [[? ?] [? ?]]]. cbn in *.
      rewrite H1 by (done || lia). cbn. rewrite H2 by (done || lia). done.
Qed.

(** * Serialization fits *)

Lemma vle_small v : 0 ≤ v < 2 ^ 56 → 1 ≤ lenZ (BULKI_vle_encode_uint v) ≤ 8.
Proof. intros Hv. split; [apply vle_encode_pos|]. by apply (vle_encode_bound 10 8); [lia|]. Qed.

(** [x] takes at most [f x] bytes at every position. *)
Definition fits {A} (ser : A → Z → option (list Z)) (f : A → Z) (x : A) : Prop :=
  ∀ off, 0 ≤ off → off + f x < 2 ^ 56 → ∃ d, ser x off = Some d ∧ lenZ d ≤ f x.

Lemma ser_list_fits {A} (ser : A → Z → option (list Z)) f l : Forall (λ x, 0 ≤ f x) l → Forall (fits ser f) l → fits (ser_list ser) (sum_of f) l.
Proof.
  induction l as [|x l IH]; intros Hp Hl off H0 Hoff; [by exists []|]. cbn in *. fold (sum_of f l) in *. apply list.Forall_cons in Hp as [Hx Hp], Hl as [Hf Hl].
  pose proof (sum_nonneg f l Hp). destruct (Hf off) as (d & -> & Hd); [lia|lia|]. cbn.
  destruct (IH Hp Hl (off + lenZ d)) as (d' & E & Hd'); [pose proof (lenZ_nonneg d); lia|lia|]. unfold mbind, option_bind. rewrite E. eexists. split; [done|]. rewrite lenZ_app. lia.
Qed.

Lemma fits_smaller {A} (ser : A → Z → option (list Z)) (P : A → Prop) f k l : 0 ≤ k → Forall (λ x, P x ∧ k ≤ f x ≤ sum_of f l) l → Forall (λ x, P x → fits ser f x) l → fits (ser_list ser) (sum_of f) l.
Proof.
  intros Hk Hl Hf. apply ser_list_fits; [apply (list.Forall_impl _ _ _ Hl); intros; lia|].
  apply (Forall_use _ _ _ (Forall_conj _ _ _ Hl Hf)). intros x _ [[Hx _] H]. by apply H.
Qed.

Definition entity_head (e : BULKI_Entity) : list Z :=
  BULKI_vle_encode_uint (entity_size e) ++ [serialize_type_class (pdc_type_of e) (pdc_class_of e)] ++ BULKI_vle_encode_uint (count_of e).

Lemma wf_count e : wf_entity e → entity_size e < 2 ^ 56 → 0 ≤ count_of e < 2 ^ 56.
Proof.
  destruct e as [c t n s d|s [b|]|s l|s e|s l]; cbn [wf_entity entity_size count_of]; try lia.
  - intros [-> Hl] Hs. apply wf_bulkis_smaller in Hl. pose proof (sum_smaller _ _ _ 48 ltac:(lia) Hl). pose proof (lenZ_nonneg l). lia.
  - intros [-> Hl] Hs. apply all_Forall in Hl. apply (wf_entities_smaller (λ e, e)) in Hl. pose proof (sum_smaller _ _ _ 18 ltac:(lia) Hl) as H. pose proof (lenZ_nonneg l).
    change (sum_of (λ e, entity_size e) l) with (sum_of entity_size l) in H. lia.
Qed.
Lemma entity_head_length e : wf_entity e → entity_size e < 2 ^ 56 → 3 ≤ lenZ (entity_head e) ≤ 17.
Proof.
  intros Hw Hs. unfold entity_head. rewrite !lenZ_app. change (lenZ [_]) with 1. pose proof (proj1 wf_size_pos e Hw).
  pose proof (vle_small (entity_size e) ltac:(lia)). pose proof (vle_small _ (wf_count e Hw Hs)). lia.
Qed.

Lemma serialize_fits : (∀ e, wf_entity e → fits BULKI_Entity_serialize_to_buffer entity_size e) ∧ (∀ b, wf_bulki b → fits BULKI_serialize_to_buffer total_size_of b).
Proof.
  apply bulki_mutual_induction.
  - intros c t n s d Hw off H0 Hoff. pose proof (entity_head_length _ Hw ltac:(lia)) as Hh. cbn [BULKI_Entity_serialize_to_buffer]. fold (entity_head (Base c t n s d)).
    destruct Hw as (_ & _ & _ & _ & ->). cbn [entity_size] in *. pose proof (lenZ_nonneg d). rewrite u64_id by (unfold W64; lia). replace (18 + lenZ d - 18) with (lenZ d) by lia.
    rewrite (mem_read_at_off _ 0 (lenZ d) d []); [|rewrite app_nil_r; apply at_off_0|done]. eexists. split; [done|]. rewrite lenZ_app. lia.
  - intros s [b|] IH Hw off H0 Hoff; [|done]. pose proof (entity_head_length _ Hw ltac:(lia)) as Hh. cbn [BULKI_Entity_serialize_to_buffer]. fold (entity_head (BulkiItem s (Some b))).
    destruct Hw as [-> Hw]. cbn [entity_size] in *. destruct (IH b eq_refl Hw (off + lenZ (entity_head (BulkiItem (26 + total_size_of b) (Some b))))) as (d & -> & Hd); [lia|lia|]. eexists. split; [done|]. rewrite lenZ_app. lia.
  - intros s l IH Hw off H0 Hoff. pose proof (entity_head_length _ Hw ltac:(lia)) as Hh. cbn [BULKI_Entity_serialize_to_buffer]. fold (entity_head (BulkiArray s l)).
    destruct Hw as [-> Hw]. cbn [entity_size] in *. apply wf_bulkis_smaller in Hw.
    destruct (fits_smaller _ _ _ 48 l ltac:(lia) Hw IH (off + lenZ (entity_head (BulkiArray (18 + sum_of total_size_of l) l)))) as (d & -> & Hd); [lia|lia|]. eexists. split; [done|]. rewrite lenZ_app. lia.
  - done.
  - intros s l IH Hw off H0 Hoff. pose proof (entity_head_length _ Hw ltac:(lia)) as Hh. cbn [BULKI_Entity_serialize_to_buffer]. fold (entity_head (EntityArray s l)).
    destruct Hw as [-> Hw%all_Forall]. cbn [entity_size] in *. apply (wf_entities_smaller (λ e, e)) in Hw.
    destruct (fits_smaller _ _ entity_size 18 l ltac:(lia) Hw IH (off + lenZ (entity_head (EntityArray (18 + sum_of entity_size l) l)))) as (d & -> & Hd); [lia|lia|]. eexists. split; [done|]. rewrite lenZ_app. lia.
  - intros t c h d l IH (-> & -> & -> & Hl) off H0 Hoff. apply wf_fields_smaller in Hl as [Hk Hv]. cbn [BULKI_serialize_to_buffer total_size_of] in *.
    pose proof (sum_smaller _ _ _ 18 ltac:(lia) Hk) as Hsk. pose proof (sum_smaller _ _ _ 18 ltac:(lia) Hv) as Hsv. pose proof (lenZ_nonneg l).
    remember (sum_of (λ kv, entity_size kv.1) l) as h eqn:Eh. remember (sum_of (λ kv, entity_size kv.2) l) as d eqn:Ed.
    pose proof (vle_small (48 + h + d) ltac:(lia)). pose proof (vle_small (lenZ l) ltac:(lia)). pose proof (vle_small h ltac:(lia)). pose proof (vle_small d ltac:(lia)).
    match goal with |- context [ser_list _ l (off + lenZ ?x)] => remember x as hd eqn:Ehd end.
    assert (4 ≤ lenZ hd ≤ 32) by (subst hd; rewrite !lenZ_app; lia).
    destruct (fits_smaller (λ kv off, BULKI_Entity_serialize_to_buffer kv.1 off) _ (λ kv, entity_size kv.1) 18 l ltac:(lia) ltac:(rewrite <-Eh; exact Hk) ltac:(apply (list.Forall_impl _ _ _ IH); intros ? [Hi _] Hw; exact (Hi Hw)) (off + lenZ hd)) as (ks & -> & Hks); [lia|cbn beta in *; lia|].
    cbn [mbind option_bind]. rewrite <-Eh in Hks. pose proof (lenZ_nonneg ks).
    pose proof (vle_small (off + lenZ (hd ++ ks)) ltac:(rewrite lenZ_app; lia)) as Ho. remember (BULKI_vle_encode_uint (off + lenZ (hd ++ ks))) as o1.
    destruct (fits_smaller (λ kv off, BULKI_Entity_serialize_to_buffer kv.2 off) _ (λ kv, entity_size kv.2) 18 l ltac:(lia) ltac:(rewrite <-Ed; exact Hv) ltac:(apply (list.Forall_impl _ _ _ IH); intros ? [_ Hi] Hw; exact (Hi Hw)) (off + lenZ ((hd ++ ks) ++ o1))) as (vs & -> & Hvs); [rewrite !lenZ_app; lia|rewrite !lenZ_app; cbn beta in *; lia|].
    rewrite <-Ed in Hvs. pose proof (lenZ_nonneg vs). eexists. split; [done|].
    pose proof (vle_small (off + lenZ (((hd ++ ks) ++ o1) ++ vs)) ltac:(rewrite !lenZ_app; lia)) as Ho2. remember (BULKI_vle_encode_uint (off + lenZ (((hd ++ ks) ++ o1) ++ vs))) as o2.
    rewrite !lenZ_app. lia.
Qed.

(** * Deserialization *)

(** The bytes [d] are at position [off] of the buffer. *)
Definition holds (buf : list Z) (off : Z) (d : list Z) : Prop := ∃ rest, at_off buf off (d ++ rest).

Lemma holds_app buf off d1 d2 : holds buf off (d1 ++ d2) → holds buf off d1 ∧ holds buf (off + lenZ d1) d2.
Proof. intros [rest H]. rewrite <-app_assoc in H. split; [by exists (d2 ++ rest)|]. exists rest. by eapply at_off_app. Qed.
Lemma vle_at_holds buf off v : is_u64 v → holds buf off (BULKI_vle_encode_uint v) → vle_at buf off = Some (v, off + lenZ (BULKI_vle_encode_uint v)).
Proof.
  intros Hv (rest & pre & -> & ->). unfold vle_at. replace (Z.to_nat (lenZ pre)) with (length pre) by (unfold lenZ; lia). by rewrite drop_app_length, vle_uint_roundtrip by done.
Qed.
Lemma getZ_holds buf off x : holds buf off [x] → getZ buf off = Some x.
Proof.
  intros (rest & pre & -> & ->). unfold getZ, lenZ. rewrite decide_True by lia. rewrite Nat2Z.id, lookup_app_r, Nat.sub_diag by lia. done.
Qed.
Lemma mem_read_holds buf off d : holds buf off d → mem_read buf off (lenZ d) = Some d.
Proof. intros [rest H]. by eapply mem_read_at_off. Qed.

(** [parse] reads from [buf] what [ser] writes for [x], in at most [N] bytes; it gives [g x]. *)
Definition reads {A B} (buf : list Z) (ser : A → Z → option (list Z)) (parse : Z → option (B * Z)) (g : A → B) (N : nat) (x : A) : Prop :=
  ∀ off d, 0 ≤ off → off + lenZ d < W64 → lenZ d ≤ Z.of_nat N → ser x off = Some d → holds buf off d → parse off = Some (g x, off + lenZ d).

Lemma parse_list {A B} buf ser (parse : Z → option (B * Z)) (g : A → B) N l :
  Forall (reads buf ser parse g N) l → reads buf (ser_list ser) (parse_n parse (length l)) (map g) N l.
Proof.
  induction 1 as [|x l Hx Hl IH]; intros off d' H0 Hw HN Hser Hbuf; cbn in *.
  - injection Hser as <-. do 2 f_equal. unfold lenZ. cbn. lia.
  - destruct (ser x off) as [d|] eqn:E; [|done]. cbn in Hser. destruct (ser_list ser l (off + lenZ d)) as [ds|] eqn:Es; [|done]; cbn in Hser. injection Hser as <-.
    rewrite lenZ_app in *. pose proof (lenZ_nonneg d). pose proof (lenZ_nonneg ds). apply holds_app in Hbuf as [Hd Hds].
    rewrite (Hx off d) by (done || lia). cbn. rewrite (IH (off + lenZ d) ds) by (done || lia). cbn. do 2 f_equal. lia.
Qed.

Lemma type_class_roundtrip t c : 0 ≤ t < PDC_TYPE_COUNT → 0 ≤ c < PDC_CLS_COUNT → deserialize_type_class (serialize_type_class t c) = (t, c).
Proof.
  intros Ht Hc. assert (Forall (λ t, Forall (λ c, deserialize_type_class (serialize_type_class t c) = (t, c)) (seqZ 0 2)) (seqZ 0 22)) as HF.
  { apply (bool_decide_unpack _). vm_compute. done. }
  rewrite list.Forall_forall in HF. specialize (HF t ltac:(by apply elem_of_seqZ)). rewrite list.Forall_forall in HF. by apply HF, elem_of_seqZ.
Qed.

Lemma wf_type_class e : wf_entity e → deserialize_type_class (serialize_type_class (pdc_type_of e) (pdc_class_of e)) = (pdc_type_of e, pdc_class_of e).
Proof.
  intros Hw. apply type_class_roundtrip; destruct e; cbn in *; try destruct b; unfold PDC_TYPE_COUNT, PDC_BULKI, PDC_BULKI_ENT, PDC_CLS_COUNT, PDC_CLS_ITEM, PDC_CLS_ARRAY in *; destruct_and?; lia.
Qed.

Lemma head_parsed buf off e d : wf_entity e → entity_size e < 2 ^ 56 → holds buf off (entity_head e ++ d) →
  let o1 := off + lenZ (BULKI_vle_encode_uint (entity_size e)) in
  vle_at buf off = Some (entity_size e, o1) ∧ getZ buf o1 = Some (serialize_type_class (pdc_type_of e) (pdc_class_of e)) ∧
  vle_at buf (o1 + 1) = Some (count_of e, off + lenZ (entity_head e)) ∧ holds buf (off + lenZ (entity_head e)) d.
Proof.
  intros Hw Hs Hh o1. pose proof (proj1 wf_size_pos e Hw). pose proof (wf_count e Hw Hs). apply holds_app in Hh as [Hh Hd]. unfold entity_head in Hh.
  apply holds_app in Hh as [H1 Hh]. apply holds_app in Hh as [H2 H3].
  split; [apply vle_at_holds; [unfold is_u64, W64; lia|done]|]. split; [by apply getZ_holds|]. split; [|done].
  unfold o1. change 1 with (lenZ [serialize_type_class (pdc_type_of e) (pdc_class_of e)]). rewrite (vle_at_holds _ _ (count_of e)); [|unfold is_u64, W64; lia|done]. do 2 f_equal. unfold entity_head. rewrite !lenZ_app. lia.
Qed.

Lemma zip_map {A B C} (f : A → B) (g : A → C) l : zip (map f l) (map g l) = map (λ x, (f x, g x)) l.
Proof. induction l as [|x l IH]; [done|]. cbn. by f_equal. Qed.

Lemma vle_next buf off v d : is_u64 v → holds buf off (BULKI_vle_encode_uint v ++ d) →
  vle_at buf off = Some (v, off + lenZ (BULKI_vle_encode_uint v)) ∧ holds buf (off + lenZ (BULKI_vle_encode_uint v)) d.
Proof. intros Hv [H1 H2]%holds_app. split; [by apply vle_at_holds|done]. Qed.

Definition bulki_head (t n h d : Z) : list Z := BULKI_vle_encode_uint t ++ BULKI_vle_encode_uint n ++ BULKI_vle_encode_uint h ++ BULKI_vle_encode_uint d.

Lemma bulki_head_parsed parse buf off t n h d : is_u64 t → is_u64 n → is_u64 h → is_u64 d → holds buf off (bulki_head t n h d) →
  deserialize_bulki parse buf off = deserialize_fields parse buf t n h d (off + lenZ (bulki_head t n h d)).
Proof.
  intros Ht Hn Hh Hd Hbuf. unfold bulki_head in *. apply vle_next in Hbuf as [R1 Hbuf]; [|done]. apply vle_next in Hbuf as [R2 Hbuf]; [|done].
  apply vle_next in Hbuf as [R3 Hbuf]; [|done]. apply vle_at_holds in Hbuf; [|done].
  unfold deserialize_bulki. rewrite R1. cbn [mbind option_bind]. rewrite R2. cbn [mbind option_bind]. rewrite R3. cbn [mbind option_bind]. rewrite Hbuf. cbn [mbind option_bind].
  f_equal. rewrite !lenZ_app. lia.
Qed.

(** The parts of a serialized BULKI. *)
Lemma bulki_bytes t c h d l off o : BULKI_serialize_to_buffer (Bulki t c h d l) off = Some o →
  let hd := bulki_head t (lenZ l) h d in
  ∃ ks vs, let o1 := off + lenZ hd + lenZ ks in let o2 := o1 + lenZ (BULKI_vle_encode_uint o1) + lenZ vs in
    ser_list (λ kv off, BULKI_Entity_serialize_to_buffer kv.1 off) l (off + lenZ hd) = Some ks ∧
    ser_list (λ kv off, BULKI_Entity_serialize_to_buffer kv.2 off) l (o1 + lenZ (BULKI_vle_encode_uint o1)) = Some vs ∧
    o = hd ++ ks ++ BULKI_vle_encode_uint o1 ++ vs ++ BULKI_vle_encode_uint o2.
Proof.
  intros Hser. cbn [BULKI_serialize_to_buffer] in Hser. change (BULKI_vle_encode_uint t ++ _) with (bulki_head t (lenZ l) h d) in Hser.
  destruct (ser_list _ l _) as [ks|] eqn:Eks in Hser; [|done]. cbn [mbind option_bind] in Hser.
  destruct (ser_list _ l _) as [vs|] eqn:Evs in Hser; [|done]. cbn [mbind option_bind] in Hser. injection Hser as <-.
  exists ks, vs. rewrite !lenZ_app in *. rewrite <-!app_assoc. rewrite !Z.add_assoc in *. done.
Qed.

Lemma fields_parsed buf parse N t c h d l :
  Forall (λ kv, reads buf BULKI_Entity_serialize_to_buffer parse forget_entity N kv.1 ∧ reads buf BULKI_Entity_serialize_to_buffer parse forget_entity N kv.2) l →
  is_u64 t → is_u64 h → is_u64 d → is_u64 (lenZ l) →
  reads buf BULKI_serialize_to_buffer (deserialize_bulki parse buf) (λ b, Some (forget_bulki b)) N (Bulki t c h d l).
Proof.
  intros HF Ht Hh Hd Hl off o H0 Hw HN (ks & vs & Eks & Evs & ->)%bulki_bytes Hbuf.
  remember (bulki_head t (lenZ l) h d) as hd eqn:Ehd. remember (off + lenZ hd + lenZ ks) as o1 eqn:Eo1. remember (o1 + lenZ (BULKI_vle_encode_uint o1) + lenZ vs) as o2 eqn:Eo2.
  rewrite !lenZ_app in *. pose proof (lenZ_nonneg hd). pose proof (lenZ_nonneg ks). pose proof (vle_encode_pos o1). pose proof (lenZ_nonneg vs). pose proof (vle_encode_pos o2).
  apply holds_app in Hbuf as [Hhd Hbuf]. apply holds_app in Hbuf as [Hks Hbuf]. rewrite <-Eo1 in Hbuf. apply holds_app in Hbuf as [Ho1 Hbuf]. apply holds_app in Hbuf as [Hvs Ho2]. rewrite <-Eo2 in Ho2.
  subst hd. rewrite (bulki_head_parsed _ _ _ t (lenZ l) h d) by done. unfold deserialize_fields. replace (Z.to_nat (lenZ l)) with (length l) by (unfold lenZ; lia).
  rewrite (parse_list buf (λ kv off, BULKI_Entity_serialize_to_buffer kv.1 off) parse (λ kv, forget_entity kv.1) N l ltac:(apply (list.Forall_impl _ _ _ HF); intros kv [Hr _]; exact Hr) _ ks) by (done || lia).
  cbn [mbind option_bind]. rewrite <-Eo1, (vle_at_holds _ _ o1) by (done || unfold is_u64; lia). cbn [mbind option_bind]. rewrite decide_False by auto.
  rewrite (parse_list buf (λ kv off, BULKI_Entity_serialize_to_buffer kv.2 off) parse (λ kv, forget_entity kv.2) N l ltac:(apply (list.Forall_impl _ _ _ HF); intros kv [_ Hr]; exact Hr) _ vs) by (done || lia).
  cbn [mbind option_bind]. rewrite <-Eo2, (vle_at_holds _ _ o2) by (done || unfold is_u64; lia). cbn [mbind option_bind]. rewrite decide_False by auto.
  rewrite zip_map. do 2 f_equal. lia.
Qed.

Lemma not_null_reads {A B} buf ser (parse : Z → option (option B * Z)) (g : A → B) N x :
  reads buf ser parse (λ x, Some (g x)) N x → reads buf ser (not_null parse) g N x.
Proof. intros H off d ?????. unfold not_null. rewrite (H off d) by done. done. Qed.

Definition entity_reads (buf : list Z) (N : nat) : BULKI_Entity → Prop :=
  reads buf BULKI_Entity_serialize_to_buffer (deserialize_entity N buf) forget_entity N.
Definition bulki_reads (buf : list Z) (N : nat) : BULKI → Prop :=
  reads buf BULKI_serialize_to_buffer (deserialize_bulki (deserialize_entity N buf) buf) (λ b, Some (forget_bulki b)) N.

(** One step of the parser: the head, then what the type and the class say. *)
Definition entity_body (fuel : nat) (buf : list Z) (size t c count off : Z) : option (BULKI_Entity * Z) :=
  let bulki := deserialize_bulki (deserialize_entity fuel buf) buf in
  if decide (c = PDC_CLS_ITEM ∧ t = PDC_BULKI) then '(b, off) ← bulki off; Some (BulkiItem size b, off)
  else if decide (c = PDC_CLS_ITEM ∧ t = PDC_BULKI_ENT) then '(e, off) ← deserialize_entity fuel buf off; Some (EntityItem size e, off)
  else if decide (c ≠ PDC_CLS_ITEM ∧ t = PDC_BULKI) then '(l, off) ← parse_n (not_null bulki) (Z.to_nat count) off; Some (BulkiArray size l, off)
  else if decide (c ≠ PDC_CLS_ITEM ∧ t = PDC_BULKI_ENT) then '(l, off) ← parse_n (deserialize_entity fuel buf) (Z.to_nat count) off; Some (EntityArray size l, off)
  else d ← mem_read buf off (size -w 18); Some (Base c t count size d, off + (size -w 18)).

(** It is enough to read the body [d] after the head. *)
Lemma entity_step buf N e :
  wf_entity e → entity_size e < 2 ^ 56 →
  (∀ fuel off o, 0 ≤ off → off + lenZ o < W64 → BULKI_Entity_serialize_to_buffer e off = Some o →
     ∃ d, o = entity_head e ++ d ∧
     (S fuel = N → lenZ d ≤ Z.of_nat fuel → holds buf (off + lenZ (entity_head e)) d →
      entity_body fuel buf (entity_size e) (pdc_type_of e) (pdc_class_of e) (count_of e) (off + lenZ (entity_head e)) = Some (forget_entity e, off + lenZ (entity_head e) + lenZ d))) →
  entity_reads buf N e.
Proof.
  intros Hwf Hs Hbody off o H0 Hw HN Hser Hbuf. pose proof (entity_head_length e Hwf Hs).
  destruct N as [|fuel]; [destruct (Hbody 0%nat off o) as (d & -> & _); [done..|]; rewrite lenZ_app in HN; pose proof (lenZ_nonneg d); lia|].
  destruct (Hbody fuel off o) as (d & -> & Hd); [done..|]. destruct (head_parsed _ _ _ _ Hwf Hs Hbuf) as (R1 & R2 & R3 & Hbuf'). rewrite lenZ_app in *.
  cbn [deserialize_entity]. rewrite R1. cbn [mbind option_bind]. rewrite R2. cbn [mbind option_bind]. rewrite wf_type_class, R3 by done. cbn [mbind option_bind].
  fold (entity_body fuel buf (entity_size e) (pdc_type_of e) (pdc_class_of e) (count_of e) (off + lenZ (entity_head e))). rewrite Hd by (done || lia). do 2 f_equal. lia.
Qed.

Lemma list_smaller {A} (P : A → Prop) f k (l : list A) (R : A → Prop) (b : Z) :
  Forall (λ x, P x ∧ k ≤ f x ≤ sum_of f l) l → sum_of f l < b → Forall (λ x, P x → f x < b → R x) l → Forall R l.
Proof. intros H1 Hb H2. apply (Forall_use _ _ _ (Forall_conj _ _ _ H1 H2)). intros x _ [[? ?] HR]. apply HR; [done|lia]. Qed.
Lemma lenZ_to_nat {A} (l : list A) : Z.to_nat (lenZ l) = length l.
Proof. unfold lenZ. lia. Qed.

Lemma deserialize_serialized :
  (∀ e, wf_entity e → entity_size e < 2 ^ 56 → ∀ buf N, entity_reads buf N e) ∧ (∀ b, wf_bulki b → total_size_of b < 2 ^ 56 → ∀ buf N, bulki_reads buf N b).
Proof.
  apply bulki_mutual_induction.
  - intros c t n s d Hwf Hs buf N. apply entity_step; [done..|]. intros fuel off o H0 Hw Hser. cbn [BULKI_Entity_serialize_to_buffer] in Hser. fold (entity_head (Base c t n s d)) in Hser.
    destruct Hwf as (Hc & Ht & _ & _ & ->). cbn [entity_size] in *. pose proof (lenZ_nonneg d). assert (18 + lenZ d -w 18 = lenZ d) as E by (rewrite u64_id; unfold W64; lia).
    rewrite E, (mem_read_at_off _ 0 (lenZ d) d []) in Hser by (rewrite ?app_nil_r; done || apply at_off_0). injection Hser as <-. exists d. split; [done|]. intros _ _ Hbuf.
    unfold entity_body. unfold PDC_BULKI in Ht. cbn [pdc_type_of pdc_class_of count_of].
    rewrite !decide_False by (unfold PDC_BULKI, PDC_BULKI_ENT; lia). rewrite E, mem_read_holds by done. done.
  - intros s [b|] IH Hwf Hs buf N; [|done]. apply entity_step; [done..|]. intros fuel off o H0 Hw Hser. cbn [BULKI_Entity_serialize_to_buffer] in Hser. fold (entity_head (BulkiItem s (Some b))) in Hser.
    destruct (BULKI_serialize_to_buffer b _) as [d|] eqn:E; [|done]. injection Hser as <-. exists d. split; [done|]. intros _ HN Hbuf. rewrite lenZ_app in Hw. destruct Hwf as [-> Hwf]. cbn [entity_size] in *.
    unfold entity_body. rewrite decide_True by done. rewrite (IH b eq_refl Hwf ltac:(lia) buf fuel _ d) by (done || pose proof (lenZ_nonneg (entity_head (BulkiItem (26 + total_size_of b) (Some b)))); lia). done.
  - intros s l IH Hwf Hs buf N. apply entity_step; [done..|]. intros fuel off o H0 Hw Hser. cbn [BULKI_Entity_serialize_to_buffer] in Hser. fold (entity_head (BulkiArray s l)) in Hser.
    destruct (ser_list _ l _) as [d|] eqn:E; [|done]. injection Hser as <-. exists d. split; [done|]. intros _ HN Hbuf. rewrite lenZ_app in Hw. destruct Hwf as [-> Hwf%wf_bulkis_smaller]. cbn [entity_size] in *.
    unfold entity_body. rewrite !decide_False by (by intros []). rewrite decide_True by done. cbn [count_of]. rewrite lenZ_to_nat.
    rewrite (parse_list buf BULKI_serialize_to_buffer _ forget_bulki fuel l) with (d := d); [done| |pose proof (lenZ_nonneg (entity_head (BulkiArray (18 + sum_of total_size_of l) l))); lia|lia|done|done|done].
    apply (list_smaller _ _ _ _ _ (2 ^ 56) Hwf ltac:(lia)). apply (list.Forall_impl _ _ _ IH). intros b Hb Hbw Hbs. apply not_null_reads, Hb; done.
  - done.
  - intros s l IH Hwf Hs buf N. apply entity_step; [done..|]. intros fuel off o H0 Hw Hser. cbn [BULKI_Entity_serialize_to_buffer] in Hser. fold (entity_head (EntityArray s l)) in Hser.
    destruct (ser_list _ l _) as [d|] eqn:E; [|done]. injection Hser as <-. exists d. split; [done|]. intros _ HN Hbuf. rewrite lenZ_app in Hw. destruct Hwf as [-> Hwf%all_Forall]. cbn [entity_size] in *.
    apply (wf_entities_smaller (λ e, e)) in Hwf.
    unfold entity_body. rewrite !decide_False by (by intros []). rewrite decide_True by done. cbn [count_of]. rewrite lenZ_to_nat.
    rewrite (parse_list buf BULKI_Entity_serialize_to_buffer _ forget_entity fuel l) with (d := d); [done| |pose proof (lenZ_nonneg (entity_head (EntityArray (18 + sum_of entity_size l) l))); lia|lia|done|done|done].
    apply (list_smaller _ _ _ _ _ (2 ^ 56) Hwf ltac:(change (sum_of (λ e, entity_size e) l) with (sum_of entity_size l); lia)). apply (list.Forall_impl _ _ _ IH). intros b Hb Hbw Hbs. by apply Hb.
  - intros t c h d l IH (-> & -> & -> & Hl) Hs buf N. apply wf_fields_smaller in Hl as [Hk Hv]. cbn [total_size_of] in Hs.
    pose proof (sum_smaller _ _ _ 18 ltac:(lia) Hk) as Hsk. pose proof (sum_smaller _ _ _ 18 ltac:(lia) Hv) as Hsv. pose proof (lenZ_nonneg l).
    apply fields_parsed; [|unfold is_u64, W64; lia..]. apply (Forall_use _ _ _ (Forall_conj _ _ _ IH (Forall_conj _ _ _ Hk Hv))). intros kv _ [[H1 H2] [[? ?] [? ?]]].
    split; [apply H1|apply H2]; done || lia.
Qed.

(** * Equality *)

(** The test runs to its end and decides [P]. *)
Definition decides (r : option bool) (P : Prop) : Prop := ∃ b, r = Some b ∧ (b = true ↔ P).

Lemma decides_iff r P Q : decides r P → (P ↔ Q) → decides r Q.
Proof. intros (b & -> & Hb) HPQ. exists b. by rewrite Hb. Qed.
Lemma decides_and r1 r2 (P Q : Prop) : decides r1 P → (P → decides r2 Q) → decides (b ← r1; if b : bool then r2 else Some false) (P ∧ Q).
Proof.
  intros (b & -> & Hb) H2. cbn. destruct b.
  - destruct H2 as (b2 & -> & H2); [by apply Hb|]. exists b2. split; [done|]. rewrite H2. naive_solver.
  - exists false. split; [done|]. split; [done|]. intros [HP _]. by apply Hb in HP.
Qed.

Lemma all_equal_decides {A B} (eq : A → A → option bool) (g : A → B) : ∀ l1 l2, length l1 = length l2 →
  Forall (λ x, ∀ y, y ∈ l2 → decides (eq x y) (g x = g y)) l1 → decides (all_equal eq l1 l2) (map g l1 = map g l2).
Proof.
  induction l1 as [|x l1 IH]; intros [|y l2] Hl HF; try done; [by exists true|]. apply list.Forall_cons in HF as [Hx HF]. cbn.
  eapply decides_iff; [apply (decides_and _ _ _ _ (Hx y ltac:(left)) (λ _, IH l2 ltac:(by injection Hl) ltac:(apply (list.Forall_impl _ _ _ HF); intros z Hz w Hw; apply Hz; by right)))|].
  split; [by intros [-> ->]|by intros [= -> ->]].
Qed.

Lemma meta_forget e : pdc_type_of (forget_entity e) = pdc_type_of e ∧ pdc_class_of (forget_entity e) = pdc_class_of e ∧ count_of (forget_entity e) = count_of e ∧ entity_size (forget_entity e) = entity_size e.
Proof. destruct e; cbn; unfold lenZ; rewrite ?length_map; done. Qed.
Lemma same_meta_spec e1 e2 : same_meta e1 e2 = true ↔ pdc_type_of e1 = pdc_type_of e2 ∧ pdc_class_of e1 = pdc_class_of e2 ∧ count_of e1 = count_of e2 ∧ entity_size e1 = entity_size e2.
Proof. unfold same_meta. rewrite !andb_true_iff, !bool_decide_eq_true. tauto. Qed.
Lemma same_meta_forget e1 e2 : forget_entity e1 = forget_entity e2 → same_meta e1 e2 = true.
Proof.
  intros E. apply same_meta_spec. destruct (meta_forget e1) as (<- & <- & <- & <-), (meta_forget e2) as (<- & <- & <- & <-). by rewrite E.
Qed.

(** Only entities with the same class, type and length are compared further. *)
Definition equal_data (e1 e2 : BULKI_Entity) : option bool :=
  match e1, e2 with
  | Base _ _ _ size d1, Base _ _ _ _ d2 => x ← mem_read d1 0 (size -w 18); y ← mem_read d2 0 (size -w 18); Some (bool_decide (x = y))
  | BulkiArray _ l1, BulkiArray _ l2 => all_equal BULKI_equal l1 l2
  | EntityArray _ l1, EntityArray _ l2 => all_equal BULKI_Entity_equal l1 l2
  | BulkiItem _ (Some b1), BulkiItem _ (Some b2) => BULKI_equal b1 b2
  | _, _ => None
  end.
Lemma equal_same_meta e1 e2 : (same_meta e1 e2 = true → decides (equal_data e1 e2) (forget_entity e1 = forget_entity e2)) →
  decides (BULKI_Entity_equal e1 e2) (forget_entity e1 = forget_entity e2).
Proof.
  intros Hr. assert (BULKI_Entity_equal e1 e2 = if same_meta e1 e2 then equal_data e1 e2 else Some false) as -> by by destruct e1.
  destruct (same_meta e1 e2) eqn:M; [by apply Hr|]. exists false. split; [done|]. split; [done|]. intros E%same_meta_forget. congruence.
Qed.

Lemma equal_decides :
  (∀ e1, wf_entity e1 → entity_size e1 < W64 → ∀ e2, wf_entity e2 → entity_size e2 < W64 → decides (BULKI_Entity_equal e1 e2) (forget_entity e1 = forget_entity e2)) ∧
  (∀ b1, wf_bulki b1 → total_size_of b1 < W64 → ∀ b2, wf_bulki b2 → total_size_of b2 < W64 → decides (BULKI_equal b1 b2) (forget_bulki b1 = forget_bulki b2)).
Proof.
  apply bulki_mutual_induction.
  - intros c t n s d Hw Hs e2 Hw2 Hs2. apply equal_same_meta. intros (Et & Ec & En & Es)%same_meta_spec.
    destruct Hw as (_ & Ht & _ & _ & ->). destruct e2 as [c2 t2 n2 s2 d2| | | |]; cbn in Et; try (unfold PDC_BULKI, PDC_BULKI_ENT in *; lia).
    destruct Hw2 as (_ & _ & _ & _ & ->). cbn in *. assert (lenZ d2 = lenZ d) as El by lia. pose proof (lenZ_nonneg d).
    rewrite El, u64_id by (unfold W64 in *; lia). replace (18 + lenZ d - 18) with (lenZ d) by lia.
    rewrite (mem_read_at_off d 0 (lenZ d) d []), (mem_read_at_off d2 0 (lenZ d) d2 []) by (rewrite ?app_nil_r; done || apply at_off_0).
    cbn. eexists. split; [done|]. rewrite bool_decide_eq_true. subst. by split; [intros ->|intros [= ->]].
  - intros s [b|] IH Hw Hs e2 Hw2 Hs2; [|done]. apply equal_same_meta. intros (Et & Ec & En & Es)%same_meta_spec.
    destruct e2 as [c2 t2 n2 s2 d2|s2 [b2|]| | |]; cbn in Et, Ec; try done; [destruct Hw2 as (_ & ? & _); unfold PDC_BULKI in *; lia|].
    destruct Hw as [-> Hw], Hw2 as [-> Hw2]. cbn in *. eapply decides_iff; [apply (IH b eq_refl Hw ltac:(lia) b2 Hw2 ltac:(lia))|].
    rewrite Es. by split; [intros ->|intros [= ->]].
  - intros s l IH Hw Hs e2 Hw2 Hs2. apply equal_same_meta. intros (Et & Ec & En & Es)%same_meta_spec.
    destruct e2 as [c2 t2 n2 s2 d2|s2 [b2|]|s2 l2| |]; cbn in Et, Ec; try done; [destruct Hw2 as (_ & ? & _); unfold PDC_BULKI in *; lia|].
    destruct Hw as [-> Hw%wf_bulkis_smaller], Hw2 as [-> Hw2%wf_bulkis_smaller]. cbn in *.
    eapply decides_iff; [apply (all_equal_decides _ forget_bulki l l2); [unfold lenZ in *; lia|]|by rewrite Es; split; [intros ->|intros [= ->]]].
    apply (Forall_use _ _ _ (Forall_conj _ _ _ IH Hw)). intros b _ [Hb [??]] b2 Hin. rewrite list.Forall_forall in Hw2. destruct (Hw2 b2 Hin). apply Hb; done || lia.
  - done.
  - intros s l IH Hw Hs e2 Hw2 Hs2. apply equal_same_meta. intros (Et & Ec & En & Es)%same_meta_spec.
    destruct e2 as [c2 t2 n2 s2 d2|s2 [b2|]|s2 l2| |s2 l2]; cbn in Et, Ec; try done; [destruct Hw2 as (_ & ? & _); unfold PDC_BULKI_ENT, PDC_BULKI in *; lia|].
    destruct Hw as [-> Hw%all_Forall], Hw2 as [-> Hw2%all_Forall]. cbn in *. apply (wf_entities_smaller (λ e, e)) in Hw, Hw2. change (sum_of (λ e, entity_size e)) with (sum_of entity_size) in *.
    eapply decides_iff; [apply (all_equal_decides _ forget_entity l l2); [unfold lenZ in *; lia|]|by rewrite Es; split; [intros ->|intros [= ->]]].
    apply (Forall_use _ _ _ (Forall_conj _ _ _ IH Hw)). intros b _ [Hb [??]] b2 Hin. rewrite list.Forall_forall in Hw2. destruct (Hw2 b2 Hin). apply Hb; done || lia.
  - intros t c h d l IH (-> & -> & -> & Hl) Hs [t2 c2 h2 d2 l2] (-> & -> & -> & Hl2) Hs2. cbn [BULKI_equal total_size_of] in *. case_decide as Hne.
    { exists false. split; [done|]. split; [done|]. intros [= ?? ? El]. apply (f_equal length) in El. rewrite !length_map in El. unfold lenZ in Hne. destruct_or?; lia. }
    apply wf_fields_smaller in Hl as [Hk Hv], Hl2 as [Hk2 Hv2].
    pose proof (sum_smaller _ _ _ 18 ltac:(lia) Hk) as Hsk. pose proof (sum_smaller _ _ _ 18 ltac:(lia) Hv) as Hsv. pose proof (lenZ_nonneg l).
    pose proof (sum_smaller _ _ _ 18 ltac:(lia) Hk2) as Hsk2. pose proof (sum_smaller _ _ _ 18 ltac:(lia) Hv2) as Hsv2. pose proof (lenZ_nonneg l2).
    eapply decides_iff; [apply (all_equal_decides _ (λ kv, (forget_entity kv.1, forget_entity kv.2)) l l2); [unfold lenZ in *; lia|]|].
    + apply (Forall_use _ _ _ (Forall_conj _ _ _ IH (Forall_conj _ _ _ Hk Hv))). intros kv _ [[H1 H2] [[? ?] [? ?]]] kv2 Hin.
      pose proof (proj1 (list.Forall_forall _ _) Hk2 kv2 Hin) as [? ?]. pose proof (proj1 (list.Forall_forall _ _) Hv2 kv2 Hin) as [? ?].
      eapply decides_iff; [apply decides_and; [apply H1; done || lia|intros _; apply H2; done || lia]|]. split; [by intros [-> ->]|by intros [= -> ->]].
    + cbn [forget_bulki]. assert (sum_of (λ kv, entity_size kv.1) l = sum_of (λ kv, entity_size kv.1) l2 ∧ sum_of (λ kv, entity_size kv.2) l = sum_of (λ kv, entity_size kv.2) l2) as [-> ->] by lia.
      by split; [intros ->|intros [= ->]].
Qed.

(** * The map *)

Definition same_key (k1 k2 : BULKI_Entity) : Prop := forget_entity k1 = forget_entity k2.
Definition field_ok (kv : BULKI_Entity * BULKI_Entity) : Prop := wf_entity kv.1 ∧ wf_entity kv.2 ∧ entity_size kv.1 < W64 ∧ entity_size kv.2 < W64.
Definition key_ok (k : BULKI_Entity) : Prop := wf_entity k ∧ entity_size k < W64.

(** The specification: the value of the first field with the key. *)
Inductive assoc (key : BULKI_Entity) : list (BULKI_Entity * BULKI_Entity) → option BULKI_Entity → Prop :=
| assoc_nil : assoc key [] None
| assoc_here k v l : same_key k key → assoc key ((k, v) :: l) (Some v)
| assoc_later k v l r : ¬ same_key k key → assoc key l r → assoc key ((k, v) :: l) r.

Lemma assoc_unique key l r1 r2 : assoc key l r1 → assoc key l r2 → r1 = r2.
Proof. intros H1. revert r2. induction H1; inversion_clear 1; naive_solver. Qed.

Lemma find_key_spec key l : key_ok key → Forall field_ok l → ∀ i,
  (find_key l key i = Some None ∧ Forall (λ kv, ¬ same_key kv.1 key) l) ∨
  (∃ l1 k v l2, find_key l key i = Some (Some (i + length l1)%nat) ∧ l = l1 ++ (k, v) :: l2 ∧ same_key k key ∧ Forall (λ kv, ¬ same_key kv.1 key) l1).
Proof.
  intros [Hk Hks] Hl. induction Hl as [|[k v] l (Hw & _ & Hs & _) Hl IH]; intros i; [by left|]. cbn in *.
  destruct (proj1 equal_decides k Hw Hs key Hk Hks) as (b & -> & Hb). cbn. destruct b.
  - right. exists [], k, v, l. split; [f_equal; f_equal; cbn; lia|]. split; [done|]. split; [by apply Hb|done].
  - assert (¬ same_key k key) as Hn by (intros H%Hb; done). destruct (IH (S i)) as [[-> H]|(l1 & k1 & v1 & l2 & -> & -> & H1 & H2)].
    + left. split; [done|]. by constructor.
    + right. exists ((k, v) :: l1), k1, v1, l2. split; [f_equal; f_equal; cbn; lia|]. split; [done|]. split; [done|]. by constructor.
Qed.

Lemma assoc_skip key l1 l2 r : Forall (λ kv, ¬ same_key kv.1 key) l1 → assoc key l2 r → assoc key (l1 ++ l2) r.
Proof. intros H Hl2. induction H as [|[k v] l1 Hk Hl IH]; [done|]. by apply assoc_later. Qed.
Lemma assoc_none key l : Forall (λ kv, ¬ same_key kv.1 key) l → assoc key l None.
Proof. intros H. rewrite <-(app_nil_r l). apply assoc_skip; [done|constructor]. Qed.
(** A field with another key can be inserted and removed. *)
Lemma assoc_other key l1 k v l2 r : ¬ same_key k key → assoc key (l1 ++ (k, v) :: l2) r ↔ assoc key (l1 ++ l2) r.
Proof.
  intros Hk. revert r. induction l1 as [|[k1 v1] l1 IH]; intros r; cbn.
  - split; [inversion_clear 1; done|by apply assoc_later].
  - split; (inversion_clear 1 as [| |???? Hn Ha]; [by apply assoc_here|apply assoc_later; [done|by apply IH]]).
Qed.

Lemma get_assoc b key : key_ok key → Forall field_ok (fields_of b) → ∃ r, BULKI_get b key = Some r ∧ assoc key (fields_of b) r.
Proof.
  intros Hk Hl. unfold BULKI_get. destruct (find_key_spec key _ Hk Hl 0) as [[-> H]|(l1 & k & v & l2 & -> & E & H1 & H2)]; cbn.
  - exists None. split; [done|]. by apply assoc_none.
  - rewrite E, lookup_app_r, Nat.sub_diag by lia. cbn. exists (Some v). split; [done|]. apply assoc_skip; [done|by apply assoc_here].
Qed.
Lemma get_of_assoc b key r : key_ok key → Forall field_ok (fields_of b) → assoc key (fields_of b) r → BULKI_get b key = Some r.
Proof. intros Hk Hl Ha. destruct (get_assoc b key Hk Hl) as (r' & -> & Ha'). f_equal. by eapply assoc_unique. Qed.

Lemma wf_fields_ok b : wf_bulki b → total_size_of b < W64 → Forall field_ok (fields_of b).
Proof.
  destruct b as [t c h d l]. intros (-> & -> & -> & Hl) Hs. cbn [fields_of total_size_of] in *. apply wf_fields_smaller in Hl as [Hk Hv].
  pose proof (sum_smaller _ _ _ 18 ltac:(lia) Hk) as Hsk. pose proof (sum_smaller _ _ _ 18 ltac:(lia) Hv) as Hsv. pose proof (lenZ_nonneg l).
  apply (Forall_use _ _ _ (Forall_conj _ _ _ Hk Hv)). intros kv _ [[? ?] [? ?]]. split_and!; [done|done|lia|lia].
Qed.

(** The arrays have room for the fields, and doubling them makes more. *)
Definition has_room (b : BULKI) : Prop := match b with Bulki _ c _ _ l => ∃ n, c = Some n ∧ 0 < n < W64 ∧ lenZ l ≤ n end.

Lemma resize t c h d l : wf_bulki (Bulki (48 + h + d) c h d l) → 48 + h + d < W64 → get_BULKI_size (Bulki t c h d l) = Some (Bulki (48 + h + d) c h d l).
Proof. intros Hw Hs. exact (proj2 sizes_fixed _ Hw Hs). Qed.

Lemma wf_append c c' h d l key value : wf_bulki (Bulki (48 + h + d) c h d l) → wf_entity key → wf_entity value →
  wf_bulki (Bulki (48 + (h + entity_size key) + (d + entity_size value)) c' (h + entity_size key) (d + entity_size value) (l ++ [(key, value)])).
Proof.
  intros (_ & -> & -> & Hl%all_Forall) Hk Hv. split_and!; [done|rewrite sum_app; cbn; lia|rewrite sum_app; cbn; lia|]. apply all_Forall, list.Forall_app. split; [done|]. by repeat constructor.
Qed.
Lemma wf_replace c c' h d l1 k v l2 value : wf_bulki (Bulki (48 + h + d) c h d (l1 ++ (k, v) :: l2)) → wf_entity value →
  wf_bulki (Bulki (48 + h + (d - entity_size v + entity_size value)) c' h (d - entity_size v + entity_size value) (l1 ++ (k, value) :: l2)).
Proof.
  intros (_ & Hh & Hd & Hl%all_Forall) Hv. rewrite sum_app in Hh, Hd. cbn in Hh, Hd. apply list.Forall_app in Hl as [Hl1 Hl2]. apply list.Forall_cons in Hl2 as [[Hk _] Hl2].
  split_and!; [done|rewrite sum_app; cbn; lia|rewrite sum_app; cbn; lia|]. apply all_Forall, list.Forall_app. split; [done|]. by repeat constructor.
Qed.

(** The sizes of the fields, which bound their number. *)
Lemma wf_sizes t c h d l : wf_bulki (Bulki t c h d l) → t = 48 + h + d ∧ 0 ≤ 18 * lenZ l ≤ h ∧ 18 * lenZ l ≤ d ∧ Forall (λ kv, entity_size kv.1 ≤ h ∧ entity_size kv.2 ≤ d) l.
Proof.
  intros (-> & -> & -> & Hl). apply wf_fields_smaller in Hl as [Hk Hv]. pose proof (sum_smaller _ _ _ 18 ltac:(lia) Hk). pose proof (sum_smaller _ _ _ 18 ltac:(lia) Hv). pose proof (lenZ_nonneg l).
  split_and!; [done|lia..|]. apply (Forall_use _ _ _ (Forall_conj _ _ _ Hk Hv)). intros; lia.
Qed.

(** What [BULKI_put] returns: the first field with the key has the new value, or a
    field is appended. *)
Lemma put_fields b key value : wf_bulki b → has_room b → wf_entity key → wf_entity value → total_size_of b + entity_size key + entity_size value < 2 ^ 56 →
  ∃ b' l1 k v l2, BULKI_put b key value = Some b' ∧ wf_bulki b' ∧ has_room b' ∧ total_size_of b' ≤ total_size_of b + entity_size key + entity_size value ∧
    fields_of b' = l1 ++ (k, value) :: l2 ∧ same_key k key ∧ Forall (λ kv, ¬ same_key kv.1 key) l1 ∧ (fields_of b = l1 ++ (k, v) :: l2 ∨ l2 = [] ∧ fields_of b = l1).
Proof.
  intros Hb Hroom Hkey Hval Hs. destruct wf_size_pos as [Hpe _]. pose proof (Hpe key Hkey). pose proof (Hpe value Hval).
  destruct b as [t c h d l]. cbn [total_size_of fields_of] in *. pose proof (wf_sizes _ _ _ _ _ Hb) as (-> & Hlh & Hld & Hls).
  pose proof (wf_fields_ok _ Hb ltac:(cbn; unfold W64; lia)) as Hok. destruct Hroom as (n & -> & Hn & Hln). unfold BULKI_put. cbn [fields_of] in *.
  destruct (find_key_spec key l ltac:(split; [done|unfold W64; lia]) Hok 0) as [[-> Hnew]|(l1 & k & v & l2 & -> & -> & H1 & H2)]; cbn [mbind option_bind].
  - remember (if decide (n ≤ lenZ l) then n *w 2 else n) as n' eqn:En'. assert (0 < n' < W64 ∧ lenZ l < n') as [Hn' Hln'].
    { subst n'. case_decide; [rewrite u64_id|]; unfold W64 in *; lia. }
    rewrite decide_False, (u64_id (h + _)), (u64_id (d + _)) by (unfold W64; lia).
    pose proof (wf_append _ (Some n') _ _ _ _ _ Hb Hkey Hval) as Hw. rewrite resize; [|exact Hw|unfold W64; lia].
    eexists _, l, key, key, []. split; [done|]. split; [exact Hw|]. split; [exists n'; rewrite lenZ_snoc; split; [done|]; lia|]. cbn. split_and!; [lia|done|done|done|by right].
  - rewrite Nat.add_0_l, lookup_app_r, Nat.sub_diag by lia. cbn [lookup list_lookup mbind option_bind fst snd]. rewrite insert_app_r_alt, Nat.sub_diag by lia. cbn [insert list_insert].
    apply list.Forall_app in Hls as [_ Hls]. apply list.Forall_cons in Hls as [[Hkh Hvd] _]. cbn [fst snd] in *.
    assert (entity_size k = entity_size key) as Ek by (rewrite <-(proj2 (proj2 (proj2 (meta_forget k)))), <-(proj2 (proj2 (proj2 (meta_forget key)))); by rewrite H1).
    assert (18 ≤ entity_size v) by (apply Hpe; apply list.Forall_app in Hok as [_ Hok]; apply list.Forall_cons in Hok as [(_ & Hv & _) _]; exact Hv).
    rewrite (u64_id (h - _)), (u64_id (d - _)), (u64_id (h - _ + _)), (u64_id (d - _ + _)) by (unfold W64; lia). replace (h - entity_size key + entity_size key) with h by lia.
    pose proof (wf_replace _ (Some n) _ _ _ _ _ _ _ Hb Hval) as Hw. rewrite resize; [|exact Hw|unfold W64; lia].
    eexists _, l1, k, v, l2. split; [done|]. split; [exact Hw|]. split; [exists n; unfold lenZ in *; rewrite length_app in *; cbn [length] in *; split; [done|]; lia|]. cbn. split_and!; [lia|done|done|done|by left].
Qed.

(** * Iteration *)

(** The loops of a caller: [while (has_next(it)) next(it)], at most [fuel] times. *)
Fixpoint all_pairs (fuel : nat) (it : BULKI_KV_Pair_Iterator) : list (BULKI_Entity * BULKI_Entity) :=
  match fuel with
  | O => []
  | S fuel => if BULKI_KV_Pair_iterator_has_next it then
                let (p, it) := BULKI_KV_Pair_iterator_next it in match p with Some p => p :: all_pairs fuel it | None => [] end
              else []
  end.
Fixpoint all_entities (fuel : nat) (it : BULKI_Entity_Iterator) : option (list BULKI_Entity) :=
  match fuel with
  | O => None
  | S fuel => '(b, it) ← Bent_iterator_has_next_Bent it;
              if b : bool then let (e, it) := Bent_iterator_next_Bent it in e ← e; l ← all_entities fuel it; Some (e :: l) else Some []
  end.

Lemma drop_S_lookup {A} (l : list A) i x : l !! i = Some x → drop i l = x :: drop (S i) l.
Proof. intros H. by rewrite (drop_S l x i). Qed.
Lemma getZ_nat {A} (l : list A) i : getZ l (Z.of_nat i) = l !! i.
Proof. unfold getZ. rewrite decide_True by lia. by rewrite Nat2Z.id. Qed.

Lemma all_pairs_from b fuel : ∀ i, (length (fields_of b) - i < fuel)%nat → all_pairs fuel (KVIterator b (Z.of_nat i) (lenZ (fields_of b))) = drop i (fields_of b).
Proof.
  induction fuel as [|fuel IH]; intros i Hi; [lia|]. cbn [all_pairs]. unfold BULKI_KV_Pair_iterator_has_next, BULKI_KV_Pair_iterator_next. cbn [kv_current_idx kv_total_size kv_bulki].
  destruct (decide (Z.of_nat i < lenZ (fields_of b))) as [Hlt|Hge]; unfold lenZ in *.
  - rewrite bool_decide_eq_true_2 by done. rewrite getZ_nat. destruct (lookup_lt_is_Some_2 (fields_of b) i ltac:(lia)) as [p E]. rewrite E, (drop_S_lookup _ _ _ E).
    replace (Z.of_nat i + 1) with (Z.of_nat (S i)) by lia. by rewrite IH by lia.
  - rewrite bool_decide_eq_false_2 by done. by rewrite drop_ge by lia.
Qed.

(** The elements of [l] that equal the filter; all, without a filter. *)
Definition matching (f : option BULKI_Entity) (l : list BULKI_Entity) : list BULKI_Entity :=
  match f with Some f => filter (λ e, BULKI_Entity_equal e f = Some true) l | None => l end.

Lemma skip_to_spec f l : Forall (λ e, is_Some (BULKI_Entity_equal e f)) l → ∀ idx,
  (skip_to l (λ e, BULKI_Entity_equal e f) idx = Some (false, idx + lenZ l) ∧ matching (Some f) l = []) ∨
  (∃ l1 e l2, l = l1 ++ e :: l2 ∧ skip_to l (λ e, BULKI_Entity_equal e f) idx = Some (true, idx + lenZ l1) ∧ matching (Some f) l = e :: matching (Some f) l2).
Proof.
  induction 1 as [|e l [b Hb] Hl IH]; intros idx; cbn [skip_to].
  - left. split; [|done]. unfold lenZ. cbn. do 2 f_equal. lia.
  - rewrite Hb. cbn [mbind option_bind]. unfold matching in *. destruct b.
    + right. exists [], e, l. split; [done|]. rewrite filter_cons_True by done. split; [|done]. unfold lenZ. cbn. do 2 f_equal. lia.
    + rewrite filter_cons_False by (rewrite Hb; done). destruct (IH (idx + 1)) as [[-> E]|(l1 & e1 & l2 & -> & -> & E)].
      * left. split; [|done]. unfold lenZ. cbn [length]. do 2 f_equal. lia.
      * right. exists (e :: l1), e1, l2. split; [done|]. split; [|done]. unfold lenZ. cbn [length]. do 2 f_equal. lia.
Qed.

Lemma next_of_nth it (pre : list BULKI_Entity) e l2 : it_total_size it = lenZ (pre ++ e :: l2) →
  it_current_idx it = lenZ pre → next_of it (pre ++ e :: l2) = (Some e, EntityIterator (it_entity_array it) (it_total_size it) (lenZ pre + 1) (it_bent_filter it)).
Proof.
  intros Ht Hi. unfold next_of. rewrite Ht, Hi. rewrite decide_True by (rewrite lenZ_app; unfold lenZ; cbn; lia).
  unfold lenZ at 1. rewrite getZ_nat. by rewrite list_lookup_middle.
Qed.

Definition filter_of (f : option BULKI_Entity) : option bent_filter := FilterBent <$> f.

Lemma all_entities_from s f : ∀ fuel pre l, (length l < fuel)%nat → (∀ f', f = Some f' → Forall (λ e, is_Some (BULKI_Entity_equal e f')) l) →
  all_entities fuel (EntityIterator (EntityArray s (pre ++ l)) (lenZ (pre ++ l)) (lenZ pre) (filter_of f)) = Some (matching f l).
Proof.
  induction fuel as [|fuel IH]; intros pre l Hf Hl; [lia|]. cbn [all_entities]. unfold Bent_iterator_has_next_Bent, Bent_iterator_next_Bent. cbn [it_bent_filter it_entity_array].
  destruct f as [f|]; cbn [filter_of fmap option_fmap option_map].
  - unfold has_next_filtered. cbn [it_current_idx it_total_size it_entity_array it_bent_filter]. rewrite lenZ_to_nat, drop_app_length.
    destruct (skip_to_spec f l (Hl f eq_refl) (lenZ pre)) as [[-> E]|(l1 & e & l2 & -> & -> & E)]; cbn [mbind option_bind]; rewrite E; [done|].
    cbn [it_entity_array]. rewrite !(app_assoc pre l1). rewrite next_of_nth by (done || cbn; rewrite lenZ_app; done). cbn [it_entity_array it_total_size it_bent_filter mbind option_bind].
    specialize (IH ((pre ++ l1) ++ [e]) l2). rewrite lenZ_snoc, <-(app_assoc _ [e]) in IH. change (filter_of (Some f)) with (Some (FilterBent f)) in IH. cbn [app] in IH. rewrite IH; [done|rewrite length_app in Hf; cbn in Hf; lia|].
    intros f' [= <-]. specialize (Hl f eq_refl). apply list.Forall_app in Hl as [_ Hl]. by apply list.Forall_cons in Hl as [_ Hl].
  - cbn [it_current_idx it_total_size it_entity_array mbind option_bind matching]. destruct l as [|e l].
    + by rewrite app_nil_r, bool_decide_eq_false_2 by lia.
    + rewrite bool_decide_eq_true_2 by (rewrite lenZ_app; unfold lenZ; cbn; lia). cbn [it_entity_array].
      rewrite next_of_nth by done. cbn [it_entity_array it_total_size it_bent_filter mbind option_bind].
      specialize (IH (pre ++ [e]) l). rewrite lenZ_snoc, <-(app_assoc _ [e]) in IH. change (filter_of None) with (@None bent_filter) in IH. cbn [app] in IH. rewrite IH; [done|cbn in Hf; lia|done].
Qed.

(** Capacities do not matter: a structure without them is well-formed and equal. *)
Lemma all_map {A B} (g : A → B) (P Q : _ → Prop) l : Forall (λ x, P x → Q (g x)) l → all P l → all Q (map g l).
Proof. intros H Hl%all_Forall. apply all_Forall. apply List.Forall_map. apply (Forall_use _ _ _ (Forall_conj _ _ _ H Hl)). intros x _ [? ?]. auto. Qed.
Lemma sum_map {A B} (g : A → B) f f' l : (∀ x, f (g x) = f' x) → sum_of f (map g l) = sum_of f' l.
Proof. intros H. induction l as [|x l IH]; [done|]. cbn. fold (sum_of f (map g l)) (sum_of f' l). by rewrite H, IH. Qed.
Lemma map_same {A B} (f g : A → B) l : Forall (λ x, f x = g x) l → map f l = map g l.
Proof. induction 1 as [|x l Hx Hl IH]; [done|]. cbn. by rewrite Hx, IH. Qed.

Lemma total_forget b : total_size_of (forget_bulki b) = total_size_of b.
Proof. by destruct b. Qed.
Lemma size_forget e : entity_size (forget_entity e) = entity_size e.
Proof. apply meta_forget. Qed.

Lemma wf_forget : (∀ e, wf_entity e → wf_entity (forget_entity e)) ∧ (∀ b, wf_bulki b → wf_bulki (forget_bulki b)).
Proof.
  apply bulki_mutual_induction; cbn [wf_entity wf_bulki forget_entity forget_bulki]; try done.
  - intros s [b|] IH; [|done]. intros [-> Hb]. rewrite total_forget. split; [done|by apply IH].
  - intros s l IH [-> Hl]. rewrite (sum_map _ _ total_size_of) by apply total_forget. split; [done|by eapply all_map].
  - intros s l IH [-> Hl]. rewrite (sum_map _ _ entity_size) by apply size_forget. split; [done|by eapply all_map].
  - intros t c h d l IH (-> & -> & -> & Hl). rewrite (sum_map _ _ (λ kv, entity_size kv.1)), (sum_map _ _ (λ kv, entity_size kv.2)) by (intros; apply size_forget).
    split_and!; [done|done|done|]. eapply all_map; [|done]. apply (list.Forall_impl _ _ _ IH). intros kv [H1 H2] [W1 W2]. split; [by apply H1|by apply H2].
Qed.
Lemma forget_forget : (∀ e, forget_entity (forget_entity e) = forget_entity e) ∧ (∀ b, forget_bulki (forget_bulki b) = forget_bulki b).
Proof.
  apply bulki_mutual_induction; cbn [forget_entity forget_bulki]; try done.
  - intros s [b|] IH; [|done]. by rewrite IH.
  - intros s l IH. rewrite map_map. f_equal. by apply map_same.
  - intros s e ->. done.
  - intros s l IH. rewrite map_map. f_equal. by apply map_same.
  - intros t c h d l IH. rewrite map_map. f_equal. apply map_same. apply (list.Forall_impl _ _ _ IH). intros kv [H1 H2]. cbn. by rewrite H1, H2.
Qed.

(** * An example *)

Definition ex_string (s : list Z) : BULKI_Entity := Base PDC_CLS_ITEM PDC_STRING 1 (18 + lenZ s + 1) (s ++ [0]).
Definition ex_int (n : Z) : BULKI_Entity := Base PDC_CLS_ITEM 2 1 22 [n; 0; 0; 0].
(** Built by [BULKI_init] and [BULKI_put]: a nested BULKI and an array. *)
Definition ex_put (b : option BULKI) (k v : BULKI_Entity) : option BULKI := b ← b; BULKI_put b k v.
Definition ex_inner : BULKI := default (Bulki 0 None 0 0 []) (ex_put (ex_put (BULKI_init 1) (ex_string [97]) (ex_int 1)) (ex_string [98]) (ex_int 2)).
Definition ex_item : BULKI_Entity := default (ex_int 0) (default None (BULKI_singleton_ENTITY (RawBulkis [ex_inner]) PDC_BULKI)).
Definition ex_bulki : BULKI :=
  default (Bulki 0 None 0 0 []) (ex_put (ex_put (ex_put (BULKI_init 1) (ex_string [97]) (ex_int 1)) (ex_string [98]) ex_item) (ex_string [97])
    (default (ex_int 0) (default None (BULKI_array_ENTITY (RawEntities [ex_int 5; ex_string [99]]) 2 PDC_BULKI_ENT)))).
Lemma ex_bulki_wf : wf_bulki ex_bulki ∧ has_room ex_bulki ∧ total_size_of ex_bulki < 2 ^ 56.
Proof.
  split; [|split; [|by vm_compute]].
  - vm_compute. repeat split; first [discriminate|left; reflexivity|right; reflexivity].
  - assert (∃ t h d l, ex_bulki = Bulki t (Some 2) h d l ∧ lenZ l ≤ 2) as (t & h & d & l & -> & Hl) by (do 4 eexists; split; [by vm_compute|done]). by exists 2.
Qed.

(** * Behaviours at the edges *)

(** [BULKI_delete] moves the last field but one into the place of the key: of three
    fields the third is lost, and the second is there twice. *)
Definition ex_three : BULKI := default (Bulki 0 None 0 0 []) (ex_put (ex_put (ex_put (BULKI_init 4) (ex_string [97]) (ex_int 1)) (ex_string [98]) (ex_int 2)) (ex_string [99]) (ex_int 3)).
Example delete_loses_last : (λ r, (fields_of r.1, r.2)) <$> BULKI_delete ex_three (ex_string [97]) =
  Some ([(ex_string [98], ex_int 2); (ex_string [98], ex_int 2)], Some (ex_int 2)).
Proof. by vm_compute. Qed.
(** A new key cannot be put into a deserialized BULKI, nor into one that was made for no fields. *)
Example put_without_capacity : BULKI_put (forget_bulki ex_three) (ex_string [100]) (ex_int 4) = None ∧ ex_put (BULKI_init 0) (ex_string [100]) (ex_int 4) = None.
Proof. by vm_compute. Qed.

(** * The theorems *)

(** C39: serialization fits in the buffer allocated for it.  For well-formed
    entities and BULKIs below 2^56 bytes, the size functions leave every size as
    it is, serialization writes at most that many bytes and returns them. *)
Theorem serialize_in_bounds :
  (∀ e, wf_entity e → entity_size e < 2 ^ 56 → get_BULKI_Entity_size e = Some e ∧ ∃ d, BULKI_Entity_serialize e = Some d ∧ lenZ d ≤ entity_size e) ∧
  (∀ b, wf_bulki b → total_size_of b < 2 ^ 56 → get_BULKI_size b = Some b ∧ ∃ d, BULKI_serialize b = Some d ∧ lenZ d ≤ total_size_of b).
Proof.
  split; intros x Hw Hs.
  - pose proof (proj1 sizes_fixed x Hw ltac:(unfold W64; lia)) as E. destruct (proj1 serialize_fits x Hw 0) as (d & Ed & Hd); [lia|lia|]. split; [done|]. exists d. split; [|done].
    unfold BULKI_Entity_serialize. rewrite E. cbn [mbind option_bind]. rewrite Ed. cbn [mbind option_bind]. by rewrite decide_True.
  - pose proof (proj2 sizes_fixed x Hw ltac:(unfold W64; lia)) as E. destruct (proj2 serialize_fits x Hw 0) as (d & Ed & Hd); [lia|lia|]. split; [done|]. exists d. split; [|done].
    unfold BULKI_serialize. rewrite E. cbn [mbind option_bind]. rewrite Ed. cbn [mbind option_bind]. by rewrite decide_True.
Qed.
Lemma serialize_in_bounds_witness : ∃ d, BULKI_serialize ex_bulki = Some d ∧ lenZ d ≤ total_size_of ex_bulki.
Proof. destruct ex_bulki_wf as (Hw & _ & Hs). exact (proj2 (proj2 serialize_in_bounds ex_bulki Hw Hs)). Defined.

Lemma serialize_some : (∀ e d, wf_entity e → entity_size e < 2 ^ 56 → BULKI_Entity_serialize_to_buffer e 0 = Some d → lenZ d ≤ entity_size e → BULKI_Entity_serialize e = Some d) ∧
  (∀ b d, wf_bulki b → total_size_of b < 2 ^ 56 → BULKI_serialize_to_buffer b 0 = Some d → lenZ d ≤ total_size_of b → BULKI_serialize b = Some d).
Proof.
  split; intros x d Hw Hs Ed Hd; [unfold BULKI_Entity_serialize; rewrite (proj1 sizes_fixed x Hw) by (unfold W64; lia)|unfold BULKI_serialize; rewrite (proj2 sizes_fixed x Hw) by (unfold W64; lia)];
    cbn [mbind option_bind]; rewrite Ed; cbn [mbind option_bind]; by rewrite decide_True.
Qed.

(** C38: deserialization is the inverse of serialization, whatever follows the bytes
    in the buffer: the result is the structure that was serialized, all nested
    levels included, but for the capacities of the arrays, which have no value;
    [BULKI_Entity_equal] and [BULKI_equal] find it equal to the original. *)
Theorem bulki_roundtrip rest :
  (∀ e, wf_entity e → entity_size e < 2 ^ 56 → ∃ d, BULKI_Entity_serialize e = Some d ∧
     BULKI_Entity_deserialize (d ++ rest) = Some (forget_entity e) ∧ BULKI_Entity_equal e (forget_entity e) = Some true) ∧
  (∀ b, wf_bulki b → total_size_of b < 2 ^ 56 → ∃ d, BULKI_serialize b = Some d ∧
     BULKI_deserialize (d ++ rest) = Some (Some (forget_bulki b)) ∧ BULKI_equal b (forget_bulki b) = Some true).
Proof.
  split; intros x Hw Hs.
  - destruct (proj1 serialize_fits x Hw 0) as (d & Ed & Hd); [lia|lia|]. exists d. split; [by apply (proj1 serialize_some)|]. split.
    + unfold BULKI_Entity_deserialize. rewrite (proj1 deserialize_serialized x Hw Hs _ _ 0 d); [done|lia|unfold W64; lia|unfold lenZ; rewrite length_app; lia|done|]. exists rest. apply at_off_0.
    + destruct (proj1 equal_decides x Hw ltac:(unfold W64; lia) (forget_entity x) (proj1 wf_forget x Hw)) as (r & -> & Hr); [rewrite size_forget; unfold W64; lia|].
      f_equal. apply Hr. by rewrite (proj1 forget_forget).
  - destruct (proj2 serialize_fits x Hw 0) as (d & Ed & Hd); [lia|lia|]. exists d. split; [by apply (proj2 serialize_some)|]. split.
    + unfold BULKI_deserialize. rewrite (proj2 deserialize_serialized x Hw Hs _ _ 0 d); [done|lia|unfold W64; lia|unfold lenZ; rewrite length_app; lia|done|]. exists rest. apply at_off_0.
    + destruct (proj2 equal_decides x Hw ltac:(unfold W64; lia) (forget_bulki x) (proj2 wf_forget x Hw)) as (r & -> & Hr); [rewrite total_forget; unfold W64; lia|].
      f_equal. apply Hr. by rewrite (proj2 forget_forget).
Qed.
Lemma bulki_roundtrip_witness : ∃ d, BULKI_serialize ex_bulki = Some d ∧ BULKI_deserialize (d ++ [7]) = Some (Some (forget_bulki ex_bulki)) ∧ BULKI_equal ex_bulki (forget_bulki ex_bulki) = Some true.
Proof. destruct ex_bulki_wf as (Hw & _ & Hs). exact (proj2 (bulki_roundtrip [7]) ex_bulki Hw Hs). Defined.

(** A BULKI is a map.  A new one is well-formed and has no keys; [BULKI_put] keeps
    the BULKI well-formed and its arrays large enough, afterwards [BULKI_get] gives
    the value that was put for the key, and what it gave before for every other
    key.  [BULKI_get] always returns. *)
Theorem bulki_put_get b key value :
  wf_bulki b → has_room b → wf_entity key → wf_entity value → total_size_of b + entity_size key + entity_size value < 2 ^ 56 →
  ∃ b', BULKI_put b key value = Some b' ∧ wf_bulki b' ∧ has_room b' ∧ total_size_of b' ≤ total_size_of b + entity_size key + entity_size value ∧
    ∀ k, wf_entity k → entity_size k < W64 →
      (same_key k key → BULKI_get b' k = Some (Some value)) ∧
      (¬ same_key k key → BULKI_get b' k = BULKI_get b k ∧ is_Some (BULKI_get b k)).
Proof.
  intros Hb Hroom Hkey Hval Hs. destruct (put_fields b key value Hb Hroom Hkey Hval Hs) as (b' & l1 & k0 & v0 & l2 & E & Hb' & Hroom' & Hs' & El & Hk0 & Hl1 & Hold).
  exists b'. split; [done|]. split; [done|]. split; [done|]. split; [done|]. intros k Hk Hks.
  pose proof (wf_fields_ok b Hb) as Hok. pose proof (wf_fields_ok b' Hb') as Hok'. pose proof (proj1 wf_size_pos key Hkey). pose proof (proj1 wf_size_pos value Hval).
  specialize (Hok ltac:(unfold W64; lia)). specialize (Hok' ltac:(unfold W64; lia)). unfold same_key in *. split.
  - intros Hsame. apply get_of_assoc; [done|done|]. rewrite El. apply assoc_skip; [|apply assoc_here; unfold same_key; congruence].
    apply (list.Forall_impl _ _ _ Hl1). unfold same_key. congruence.
  - intros Hother. destruct (get_assoc b k ltac:(done) Hok) as (r & Er & Ha). rewrite Er. split; [|by eexists]. apply get_of_assoc; [done|done|]. rewrite El.
    apply assoc_other; [unfold same_key; congruence|]. destruct Hold as [E1|[-> E1]]; rewrite E1 in Ha; [|by rewrite app_nil_r].
    apply assoc_other in Ha; [done|unfold same_key; congruence].
Qed.
Lemma bulki_put_get_witness : BULKI_get ex_bulki (ex_string [98]) = Some (Some ex_item) ∧ ∃ b', BULKI_put ex_bulki (ex_string [97]) (ex_int 9) = Some b' ∧ BULKI_get b' (ex_string [98]) = Some (Some ex_item).
Proof.
  split; [by vm_compute|]. destruct ex_bulki_wf as (Hw & Hr & Hs).
  assert (wf_entity (ex_string [97]) ∧ wf_entity (ex_string [98])) as [Ha Hb] by (vm_compute; repeat split; first [discriminate|left; reflexivity|reflexivity]).
  assert (wf_entity (ex_int 9)) as Hint by (vm_compute; repeat split; first [discriminate|left; reflexivity|reflexivity]).
  destruct (bulki_put_get ex_bulki (ex_string [97]) (ex_int 9) Hw Hr Ha Hint eq_refl) as (b' & E & _ & _ & _ & Hget).
  exists b'. split; [done|]. destruct (Hget (ex_string [98]) Hb eq_refl) as [_ Hother]. rewrite (proj1 (Hother ltac:(done))). by vm_compute.
Defined.

(** Iteration.  The iterator over a BULKI gives its fields in order, and ends;
    the one over an array of entities gives the elements that equal the filter, in
    order, or all elements without a filter. *)
Theorem iteration_complete b s l f n :
  (length (fields_of b) < n)%nat → (length l < n)%nat → (∀ f', f = Some f' → Forall (λ e, is_Some (BULKI_Entity_equal e f')) l) →
  all_pairs n (BULKI_KV_Pair_iterator_init b) = fields_of b ∧
  (it ← Bent_iterator_init (EntityArray s l) (filter_of f); all_entities n it) = Some (matching f l).
Proof.
  intros Hb Hl Hf. split; [apply (all_pairs_from b n 0); lia|]. unfold Bent_iterator_init. rewrite decide_False by (intros H; by apply H). cbn [mbind option_bind].
  pose proof (all_entities_from s f n [] l Hl Hf) as H. cbn [app] in H. cbn [count_of]. destruct f; exact H.
Qed.
Lemma iteration_complete_witness : all_pairs 3 (BULKI_KV_Pair_iterator_init ex_bulki) = fields_of ex_bulki ∧
  (it ← Bent_iterator_init (EntityArray 62 [ex_int 5; ex_int 6; ex_int 5]) (filter_of (Some (ex_int 5))); all_entities 4 it) = Some [ex_int 5; ex_int 5].
Proof.
  split; [|refine (proj2 (iteration_complete ex_inner 62 [ex_int 5; ex_int 6; ex_int 5] (Some (ex_int 5)) 4 _ _ _)); [by apply Nat.ltb_lt; vm_compute|by apply Nat.ltb_lt; vm_compute|intros f' [= <-]; repeat (constructor; [eexists; vm_compute; reflexivity|]); constructor]].
  refine (proj1 (iteration_complete ex_bulki 0 [] None 3 _ _ _)); [by apply Nat.ltb_lt; vm_compute|by apply Nat.ltb_lt; vm_compute|done].
Defined.
