(* ===== verification/StringUtils.v ===== *)
(** Strings and patterns ([src/src/commons/utils/string_utils.c] and the parts of
    [query_utils.c] that split queries).  A string is the list of its characters
    before the terminating 0, none of which is 0; a character is a signed 8-bit
    integer.  A result that may be NULL has type [option]; an outer [option] is
    undefined behaviour. *)

From S2P Require Export Prelude.

Notation string := (list Z).
Definition STAR : Z := 42.
Definition QUOTE : Z := 34.

(** The string in a buffer that was received; [None]: there is no end in it. *)
Fixpoint c_string (buf : list Z) : option string :=
  match buf with [] => None | c :: buf => if decide (c = 0) then Some [] else (c ::.) <$> c_string buf end.

(** * Comparisons *)

(** [strncmp(s1, s2, n) == 0] *)
Definition strncmp_eq (s1 s2 : string) (n : nat) : bool := bool_decide (take n s1 = take n s2).
Definition startsWith (str pre : string) : bool := strncmp_eq str pre (length pre).
Definition endsWith (str suf : string) : bool :=
  if decide (length str < length suf)%nat then false
  else strncmp_eq (drop (length str - length suf) str) suf (length suf).
(** The position of the first occurrence. *)
Fixpoint strstr (str tok : string) : option nat :=
  if strncmp_eq str tok (length tok) then Some 0%nat
  else match str with [] => None | _ :: str => S <$> strstr str tok end.
Definition contains (str tok : string) : bool := bool_decide (is_Some (strstr str tok)).
Definition equals (str tok : string) : bool := bool_decide (tok = str).
Fixpoint strchr (str : string) (c : Z) : option nat :=
  match str with [] => None | c' :: str => if decide (c' = c) then Some 0%nat else S <$> strchr str c end.
Definition indexOfStr (str tok : string) : Z := match strstr str tok with Some p => Z.of_nat p | None => -1 end.
Definition indexOf (str : string) (c : Z) : Z := match strchr str c with Some p => Z.of_nat p | None => -1 end.

(** * Parts of strings *)

(** [None] when the start is after the end of the string: a negative length is copied. *)
Definition substring (str : string) (start stop : Z) : option (option string) :=
  if decide (stop < start ∨ start < 0 ∨ stop < 0) then Some None
  else
    let stop := if decide (lenZ str < stop) then lenZ str else stop in
    let substr_len := stop - start in
    if decide (substr_len < 0) then None
    else Some (Some (take (Z.to_nat substr_len) (drop (Z.to_nat start) str))).
Definition substr (str : string) (start : Z) : option (option string) := substring str start (lenZ str + 1).
Definition subrstr (str : string) (stop : Z) : option (option string) := substring str 0 stop.
Definition reverse_str (str : string) : option string := mapM (λ i, str !! (length str - 1 - i)%nat) (seq 0 (length str)).

Definition is_quoted_string (token : string) : bool := startsWith token [QUOTE] || endsWith token [QUOTE].
Definition stripQuotes (str : string) : option (option string) :=
  let len := lenZ str in
  if decide (2 ≤ len ∧ getZ str 0 = Some QUOTE ∧ getZ str (len - 1) = Some QUOTE) then substring str 1 (len - 1) else Some (Some str).

(** [KEY=VALUE]: the parts before and after the first delimiter. *)
Definition get_key (kv_pair : string) (delim : Z) : option (option string) :=
  let idx := indexOf kv_pair delim in if decide (idx < 0) then Some None else subrstr kv_pair idx.
Definition get_value (kv_pair : string) (delim : Z) : option (option string) :=
  let idx := indexOf kv_pair delim in if decide (idx < 0) then Some None else substr kv_pair (idx + 1).

Definition is_string_query (value_query : string) : bool := is_quoted_string value_query.
Definition is_affix_query (value_query : string) : bool := is_string_query value_query && contains value_query [STAR].
Definition is_number_query (value_query : string) : bool := negb (is_string_query value_query).

(** * Patterns *)

Inductive pattern_type_t := PATTERN_EXACT | PATTERN_PREFIX | PATTERN_SUFFIX | PATTERN_MIDDLE.

Definition determine_pattern_type (pattern : string) : pattern_type_t :=
  if startsWith pattern [STAR] then if endsWith pattern [STAR] then PATTERN_MIDDLE else PATTERN_SUFFIX
  else if endsWith pattern [STAR] then PATTERN_PREFIX else PATTERN_EXACT.

(** [tok == NULL ? 0 : f(tok)] *)
Definition on_token (tok : option string) (f : string → bool) : bool := match tok with Some tok => f tok | None => false end.

Definition simple_matches (str pattern : string) : option bool :=
  match determine_pattern_type pattern with
  | PATTERN_EXACT => Some (equals str pattern)
  | PATTERN_PREFIX => tok ← subrstr pattern (lenZ pattern - 1); Some (on_token tok (startsWith str))
  | PATTERN_SUFFIX => tok ← substr pattern 1; Some (on_token tok (endsWith str))
  | PATTERN_MIDDLE => tok ← substring pattern 1 (lenZ pattern - 1); Some (on_token tok (contains str))
  end.

(** * Lists of strings *)

Definition PIPE : Z := 124.
Definition TILDE : Z := 126.

(** [split_string] at the delimiter. *)
Fixpoint split_at (str : string) (delim : Z) : list string :=
  match str with
  | [] => [[]]
  | c :: str => let l := split_at str delim in
                if decide (c = delim) then [] :: l else match l with s :: l => (c :: s) :: l | [] => [[c]] end
  end.

(** * Lemmas *)

Lemma strncmp_prefix str pre : strncmp_eq str pre (length pre) = true ↔ pre `prefix_of` str.
Proof.
  unfold strncmp_eq. rewrite bool_decide_eq_true, (take_ge pre) by lia. split.
  - intros H. exists (drop (length pre) str). by rewrite <-H at 1; rewrite take_drop.
  - intros [k ->]. by rewrite take_app_length.
Qed.
Lemma startsWith_spec str pre : startsWith str pre = true ↔ pre `prefix_of` str.
Proof. apply strncmp_prefix. Qed.
Lemma endsWith_spec str suf : endsWith str suf = true ↔ suf `suffix_of` str.
Proof.
  unfold endsWith. case_decide as Hl.
  - split; [done|]. intros H. apply suffix_length in H. lia.
  - rewrite strncmp_prefix. split.
    + intros H. exists (take (length str - length suf) str). rewrite <-(take_drop (length str - length suf) str) at 1. f_equal.
      symmetry. apply prefix_length_eq; [done|]. rewrite length_drop. lia.
    + intros [k ->]. rewrite length_app, Nat.add_sub, drop_app_length. done.
Qed.
Lemma strstr_spec str tok : is_Some (strstr str tok) ↔ ∃ l r, str = l ++ tok ++ r.
Proof.
  induction str as [|c str IH]; cbn [strstr]; destruct (strncmp_eq _ tok _) eqn:E.
  - apply strncmp_prefix in E as [r E]. split; [|by eexists]. intros _. by exists [], r.
  - split; [by intros []|]. intros (l & r & Hl). exfalso. by destruct l, tok.
  - apply strncmp_prefix in E as [r E]. split; [|by eexists]. intros _. by exists [], r.
  - rewrite fmap_is_Some, IH. split.
    + intros (l & r & ->). by exists (c :: l), r.
    + intros ([|c' l] & r & Hl); cbn in Hl; [|injection Hl as -> ->; by exists l, r].
      enough (strncmp_eq (c :: str) tok (length tok) = true) by congruence. apply strncmp_prefix. by exists r.
Qed.
Lemma contains_spec str tok : contains str tok = true ↔ ∃ l r, str = l ++ tok ++ r.
Proof. unfold contains. by rewrite bool_decide_eq_true, strstr_spec. Qed.
Lemma equals_spec str tok : equals str tok = true ↔ str = tok.
Proof. unfold equals. rewrite bool_decide_eq_true. split; congruence. Qed.

Lemma substring_some str start stop : 0 ≤ start ≤ stop → start ≤ lenZ str →
  substring str start stop = Some (Some (take (Z.to_nat (stop - start)) (drop (Z.to_nat start) str))).
Proof.
  intros Hs Hl. unfold substring. cbn zeta. rewrite (decide_False (P := stop < start ∨ start < 0 ∨ stop < 0)) by lia. destruct (decide (lenZ str < stop)) as [Hlt|Hlt]; rewrite decide_False by lia; [|done].
  do 2 f_equal. unfold lenZ in *. rewrite !take_ge by (rewrite length_drop; lia). done.
Qed.
Lemma substring_middle l m r : substring (l ++ m ++ r) (lenZ l) (lenZ l + lenZ m) = Some (Some m).
Proof.
  pose proof (lenZ_nonneg l). pose proof (lenZ_nonneg m). pose proof (lenZ_nonneg r). rewrite substring_some by (rewrite ?lenZ_app; lia).
  unfold lenZ. rewrite Nat2Z.id, drop_app_length. replace (Z.to_nat _) with (length m) by lia. by rewrite take_app_length.
Qed.
Lemma substr_drop str (n : nat) : (n ≤ length str)%nat → substr str (Z.of_nat n) = Some (Some (drop n str)).
Proof.
  intros Hn. unfold substr. rewrite substring_some by (unfold lenZ; lia). rewrite Nat2Z.id, take_ge; [done|]. rewrite length_drop. unfold lenZ. lia.
Qed.
Lemma subrstr_take str (n : nat) : subrstr str (Z.of_nat n) = Some (Some (take n str)).
Proof. unfold subrstr. rewrite substring_some by (pose proof (lenZ_nonneg str); lia). by rewrite Z.sub_0_r, Nat2Z.id. Qed.

Lemma reverse_str_spec str : reverse_str str = Some (reverse str).
Proof.
  unfold reverse_str. apply mapM_Some. apply list.Forall2_same_length_lookup_2; [by rewrite length_seq, length_reverse|].
  intros i j x Hi Hx. apply lookup_seq in Hi as [-> Hi]. cbn. rewrite <-Hx. rewrite reverse_lookup by done. f_equal. lia.
Qed.

(** ** The four kinds of patterns *)

Lemma prefix_star p : [STAR] `prefix_of` p ↔ ∃ m, p = STAR :: m.
Proof. split; [intros [m ->]; by exists m|intros [m ->]; by exists m]. Qed.
Lemma suffix_star p : [STAR] `suffix_of` p ↔ ∃ m, p = m ++ [STAR].
Proof. split; [intros [m ->]; by exists m|intros [m ->]; by exists m]. Qed.

Lemma pattern_type_spec p :
  match determine_pattern_type p with
  | PATTERN_EXACT => ¬ [STAR] `prefix_of` p ∧ ¬ [STAR] `suffix_of` p
  | PATTERN_PREFIX => ∃ m, p = m ++ [STAR] ∧ ¬ [STAR] `prefix_of` p
  | PATTERN_SUFFIX => ∃ m, p = STAR :: m ∧ ¬ [STAR] `suffix_of` p
  | PATTERN_MIDDLE => p = [STAR] ∨ ∃ m, p = STAR :: m ++ [STAR]
  end.
Proof.
  unfold determine_pattern_type. destruct (startsWith p [STAR]) eqn:Hs, (endsWith p [STAR]) eqn:He;
    rewrite <-?not_true_iff_false, ?startsWith_spec, ?endsWith_spec in *.
  - apply prefix_star in Hs as [m ->]. apply suffix_star in He as [[|c k] E]; [by left|right]. injection E as -> ->. by exists k.
  - apply prefix_star in Hs as [m ->]. by exists m.
  - apply suffix_star in He as [m ->]. by exists m.
  - done.
Qed.

Lemma drop_last m (c : Z) : take (length (m ++ [c]) - 1) (m ++ [c]) = m.
Proof. rewrite length_app, Nat.add_sub. by rewrite take_app_length. Qed.
Lemma lenZ_minus_one (p : string) : p ≠ [] → lenZ p - 1 = Z.of_nat (length p - 1).
Proof. intros Hp. destruct p; [done|]. unfold lenZ. cbn [length]. lia. Qed.

(** The token of a pattern, between its stars; what is between quotes. *)
Lemma token_prefix m c : substring (m ++ [c]) 0 (lenZ (m ++ [c]) - 1) = Some (Some m).
Proof. change (subrstr (m ++ [c]) (lenZ (m ++ [c]) - 1) = Some (Some m)). rewrite lenZ_minus_one by (by destruct m). by rewrite subrstr_take, drop_last. Qed.
Lemma token_suffix m c : substring (c :: m) 1 (lenZ (c :: m)) = Some (Some m).
Proof. pose proof (substring_middle [c] m []) as E. rewrite app_nil_r in E. cbn [app] in E. replace (lenZ (c :: m)) with (lenZ [c] + lenZ m) by (unfold lenZ; cbn [length]; lia). exact E. Qed.
Lemma token_substr m c : substr (c :: m) 1 = Some (Some m).
Proof. change 1 with (Z.of_nat 1). by rewrite substr_drop by (cbn; lia). Qed.
Lemma token_middle m c d : substring (c :: m ++ [d]) 1 (lenZ (c :: m ++ [d]) - 1) = Some (Some m).
Proof.
  pose proof (substring_middle [c] m [d]) as E. cbn [app] in E. replace (lenZ (c :: m ++ [d]) - 1) with (lenZ [c] + lenZ m) by (unfold lenZ; cbn [length]; rewrite length_app; cbn [length]; lia).
  exact E.
Qed.

(** A key and a value with a delimiter between them. *)
Lemma strchr_app l c r : c ∉ l → strchr (l ++ c :: r) c = Some (length l).
Proof. induction l as [|x l IH]; intros Hl; cbn; [by rewrite decide_True|]. apply not_elem_of_cons in Hl as [Hx Hl]. rewrite decide_False by done. by rewrite IH. Qed.
Lemma get_key_value k c v : c ∉ k → get_key (k ++ c :: v) c = Some (Some k) ∧ get_value (k ++ c :: v) c = Some (Some v).
Proof.
  intros Hk. unfold get_key, get_value, indexOf. rewrite strchr_app by done. rewrite decide_False by lia. split; [by rewrite subrstr_take, take_app_length|].
  replace (Z.of_nat (length k) + 1) with (Z.of_nat (length (k ++ [c]))) by (rewrite length_app; cbn; lia). replace (k ++ c :: v) with ((k ++ [c]) ++ v) by (by rewrite <-app_assoc).
  rewrite substr_drop by (rewrite !length_app; lia). rewrite decide_False by lia. by rewrite drop_app_length.
Qed.

(** A value between quotes. *)
Definition quoted (p : string) : string := QUOTE :: p ++ [QUOTE].
Lemma strip_quoted p : stripQuotes (quoted p) = Some (Some p).
Proof.
  unfold stripQuotes, quoted. assert (lenZ (QUOTE :: p ++ [QUOTE]) = lenZ p + 2) as El by (unfold lenZ; cbn [length]; rewrite length_app; cbn [length]; lia). pose proof (lenZ_nonneg p).
  rewrite decide_True; [apply token_middle|]. rewrite El. split; [lia|]. split; [done|]. unfold getZ. rewrite decide_True by lia.
  replace (Z.to_nat (lenZ p + 2 - 1)) with (S (length p)) by (unfold lenZ; lia). by apply (list_lookup_middle (QUOTE :: p) []).
Qed.
Lemma quoted_type p : determine_pattern_type (quoted p) = PATTERN_EXACT.
Proof.
  unfold determine_pattern_type, quoted. assert (startsWith (QUOTE :: p ++ [QUOTE]) [STAR] = false) as -> by done.
  destruct (endsWith _ _) eqn:E; [|done]. apply endsWith_spec in E as [k E]. by apply (app_inj_tail (QUOTE :: p)) in E as [_ E].
Qed.
Lemma quoted_string p : is_string_query (quoted p) = true.
Proof. done. Qed.

(** The strings of a pattern, kind by kind. *)
Definition pattern_matches (s p : string) : Prop :=
  match determine_pattern_type p with
  | PATTERN_EXACT => s = p
  | PATTERN_PREFIX => ∃ m, p = m ++ [STAR] ∧ m `prefix_of` s
  | PATTERN_SUFFIX => ∃ m, p = STAR :: m ∧ m `suffix_of` s
  | PATTERN_MIDDLE => ∃ m, p = STAR :: m ++ [STAR] ∧ ∃ l r, s = l ++ m ++ r
  end.
(** What [simple_matches] decides. *)
Lemma simple_matches_spec s p : p ≠ [STAR] → ∃ b, simple_matches s p = Some b ∧ (b = true ↔ pattern_matches s p).
Proof.
  intros Hp. pose proof (pattern_type_spec p) as H. unfold simple_matches, pattern_matches. destruct (determine_pattern_type p).
  - eexists. split; [done|]. apply equals_spec.
  - destruct H as (m & -> & _). unfold subrstr. rewrite token_prefix. eexists. split; [done|]. cbn. rewrite startsWith_spec.
    split; [by exists m|]. by intros (m' & ?%app_inj_tail & ?); simplify_eq; destruct_and?; subst.
  - destruct H as (m & -> & _). rewrite token_substr. eexists. split; [done|]. cbn. rewrite endsWith_spec.
    split; [by exists m|]. by intros (m' & [= <-] & ?).
  - destruct H as [?|(m & ->)]; [done|]. rewrite token_middle. eexists. split; [done|]. cbn. rewrite contains_spec.
    split; [by exists m|]. intros (m' & [= E'] & ?). apply app_inj_tail in E' as [<- _]. done.
Qed.

(** * Patterns with wildcards *)

(** The usual meaning of a pattern: a star stands for any string. *)
Inductive glob : string → string → Prop :=
| glob_nil : glob [] []
| glob_star p l s : glob p s → glob (STAR :: p) (l ++ s)
| glob_char c p s : c ≠ STAR → glob p s → glob (c :: p) (c :: s).

Lemma glob_literal m p s : STAR ∉ m → glob (m ++ p) s ↔ ∃ r, s = m ++ r ∧ glob p r.
Proof.
  intros Hm. revert s. induction m as [|c m IH]; intros s; cbn.
  - split; [by exists s|by intros (r & -> & ?)].
  - apply not_elem_of_cons in Hm as [Hc Hm]. split.
    + inversion 1 as [| |c' p' s' Hc' Hg]; subst; [done|]. apply IH in Hg as (r & -> & Hg); [|done]. by exists r.
    + intros (r & -> & Hg). constructor; [done|]. apply IH; [done|]. by exists r.
Qed.
Lemma glob_star_inv p s : glob (STAR :: p) s ↔ ∃ l r, s = l ++ r ∧ glob p r.
Proof. split; [inversion 1; subst; by eauto|]. intros (l & r & -> & H). by constructor. Qed.
Lemma glob_end s : glob [] s ↔ s = [].
Proof. split; [by inversion 1|intros ->; constructor]. Qed.
Lemma glob_exact m s : STAR ∉ m → glob m s ↔ s = m.
Proof.
  intros Hm. rewrite <-(app_nil_r m) at 1. rewrite glob_literal by done. setoid_rewrite glob_end. split; [intros (r & -> & ->); by rewrite app_nil_r|intros ->; exists []; by rewrite app_nil_r].
Qed.
Lemma glob_any s : glob [STAR] s.
Proof. rewrite <-(app_nil_r s). repeat constructor. Qed.

(** A pattern as the code understands it: stars at its ends only. *)
Definition stars_at_ends (p : string) : Prop := ∀ i, p !! i = Some STAR → i = 0%nat ∨ i = (length p - 1)%nat.

Lemma no_star_inside l m r : stars_at_ends (l ++ m ++ r) →
  (l = [] → ¬ [STAR] `prefix_of` m ++ r) → (r = [] → ¬ [STAR] `suffix_of` l ++ m) → STAR ∉ m.
Proof.
  intros Hs Hpre Hsuf [i Hi]%list_elem_of_lookup. pose proof (lookup_lt_Some _ _ _ Hi) as Hlt.
  assert ((l ++ m ++ r) !! (length l + i)%nat = Some STAR) as [H0|H1]%Hs.
  { rewrite lookup_app_r, lookup_app_l by lia. by replace (length l + i - length l)%nat with i by lia. }
  - assert (l = []) as -> by (apply nil_length_inv; lia). assert (i = 0%nat) as -> by (cbn in H0; lia). apply (Hpre eq_refl). destruct m as [|c m]; [done|]. cbn in Hi. injection Hi as ->. by eexists.
  - rewrite !length_app in H1. assert (r = []) as -> by (apply nil_length_inv; lia). cbn in H1. apply (Hsuf eq_refl). assert (i = length m - 1)%nat as -> by lia.
    destruct m as [|c m _] using rev_ind; [done|]. rewrite length_app, Nat.add_sub in Hi. cbn in Hi. rewrite lookup_app_r, Nat.sub_diag in Hi by lia. injection Hi as ->. exists (l ++ m). by rewrite app_assoc.
Qed.

Lemma pattern_matches_glob s p : stars_at_ends p → p ≠ [STAR] → pattern_matches s p ↔ glob p s.
Proof.
  intros Hs Hp. pose proof (pattern_type_spec p) as H. unfold pattern_matches. destruct (determine_pattern_type p).
  - rewrite glob_exact; [done|]. apply (no_star_inside [] p []); rewrite ?app_nil_r; naive_solver.
  - destruct H as (m & -> & H). rewrite glob_literal by (apply (no_star_inside [] m [STAR]); auto; done). split.
    + intros (m' & E & [r ->]). apply app_inj_tail in E as [<- _]. exists r. split; [done|apply glob_any].
    + intros (r & -> & _). exists m. split; [done|]. by exists r.
  - destruct H as (m & -> & H). rewrite glob_star_inv. assert (STAR ∉ m) as Hm by (apply (no_star_inside [STAR] m []); rewrite ?app_nil_r; auto; done). split.
    + intros (m' & [= <-] & [l ->]). exists l, m. split; [done|]. by apply glob_exact.
    + intros (l & r & -> & Hg). apply glob_exact in Hg as ->; [|done]. exists m. split; [done|]. by exists l.
  - destruct H as [?|[m ->]]; [done|]. rewrite glob_star_inv. assert (STAR ∉ m) as Hm by (apply (no_star_inside [STAR] m [STAR]); auto; done). split.
    + intros (m' & [= E] & l & r & ->). apply app_inj_tail in E as [<- _]. exists l, (m ++ r). split; [done|]. apply glob_literal; [done|]. exists r. split; [done|apply glob_any].
    + intros (l & r & -> & (r' & -> & _)%glob_literal); [|done]. exists m. split; [done|]. by exists l, r'.
Qed.

(** [simple_matches] decides the usual meaning of wildcards for every pattern
    with stars at its ends only, other than the single star. *)
Theorem simple_matches_glob s p : stars_at_ends p → p ≠ [STAR] → ∃ b, simple_matches s p = Some b ∧ (b = true ↔ glob p s).
Proof. intros Hs Hp. destruct (simple_matches_spec s p Hp) as (b & -> & Hb). exists b. split; [done|]. rewrite Hb. by apply pattern_matches_glob. Qed.
Lemma simple_matches_glob_witness : ∃ b, simple_matches [97; 98; 99] [97; 42] = Some b ∧ (b = true ↔ glob [97; 42] [97; 98; 99]).
Proof. apply (simple_matches_glob [97; 98; 99] [97; 42]); [|done]. intros [|[|[|i]]] [= ]; [by right]. Defined.

(** The single star matches nothing: its token would end before it starts. *)
Example star_matches_nothing : simple_matches [97] [STAR] = Some false.
Proof. done. Qed.
