(* ===== verification/Mercury.v ===== *)
(** Messages of remote procedure calls: the descriptions that the functions [hg_proc_*] are,
    and what Mercury makes of them when it encodes and when it decodes.

    Mercury is not part of the repository: how it writes and reads one integer, string,
    handle or block of bytes is a parameter ([Mercury]), of which a value that is read
    back is relied on.  A function [hg_proc_x] runs once over the structure of the sender
    and once over that of the receiver; it is described here once ([proc]), with one
    interpretation for each direction. *)

From stdpp Require Import list.
From S2P Require Export Prelude Wire StringUtils.
#[local] Open Scope Z_scope.

(** Handles of memory that is exposed to the other side, which pulls what is there. *)
Class Bulk := {
  hg_bulk_t : Type;
  HG_BULK_NULL : hg_bulk_t;
  HG_Bulk_create : list byte → hg_bulk_t;
  HG_Bulk_pull : hg_bulk_t → list byte;
  pull_create b : HG_Bulk_pull (HG_Bulk_create b) = b;
}.

(** The functions of Mercury for one value. *)
Inductive wire `{Bulk} : Type → Type :=
| Int (signed : bool) (size : nat) : wire Z
| String : wire string
| Handle : wire hg_bulk_t
| Raw (n : Z) : wire (list byte).

Definition int_min (signed : bool) (size : nat) : Z := if signed then - 256 ^ Z.of_nat size / 2 else 0.
Definition int_max (signed : bool) (size : nat) : Z := if signed then 256 ^ Z.of_nat size / 2 else 256 ^ Z.of_nat size.
(** The values of the C type. *)
Definition fits `{Bulk} {T} (w : wire T) : T → Prop :=
  match w with
  | Int signed size => λ z, int_min signed size ≤ z < int_max signed size
  | String => Forall (λ c, c ≠ 0)
  | Handle => λ _, True
  | Raw n => λ b, lenZ b = n
  end.

Class Mercury `{Bulk} := {
  put : ∀ {T}, wire T → T → option (list byte);
  get : ∀ {T}, wire T → list byte → option (T * list byte);
  put_get T (w : wire T) x : fits w x → ∃ b, put w x = Some b ∧ ∀ rest, get w (b ++ rest) = Some (x, rest);
}.

(** A field of a structure and the function it is given to, the types of which may differ. *)
Inductive slot `{Bulk} : Type → Type :=
| Plain {T} (w : wire T) : slot T
| Uint32_as_int32 : slot Z
| Int32_as_uint32 : slot Z.
Definition typed `{Bulk} {T} (x : slot T) : T → Prop := match x with Plain w => fits w | Uint32_as_int32 => fits (Int false 4) | Int32_as_uint32 => fits (Int true 4) end.

(** A function [hg_proc_x] on a structure [S]: fields and structures inside it in their
    order, and what the receiver's structure is afterwards, which may keep parts of what
    it was.  Later steps may depend on values that are already there. *)
Inductive proc `{Bulk} : Type → Type :=
| Done {S} (build : S → S) : proc S
| Field {S T} (x : slot T) (f : S → T) (k : T → proc S) : proc S
| Sub {S T} (c : proc T) (f : S → T) (k : (T → T) → proc S) : proc S.

Declare Scope proc_scope.
Delimit Scope proc_scope with proc.
Notation "v ←- x @ f ; k" := (Field x f (λ v, k%proc)) (at level 100, x at level 0, f at level 0, k at level 200, right associativity) : proc_scope.
Notation "v ←* c @ f ; k" := (Sub c f (λ v, k%proc)) (at level 100, c at level 0, f at level 0, k at level 200, right associativity) : proc_scope.
Bind Scope proc_scope with proc.

Abbreviation hg_int8 := (Plain (Int true 1)).
Abbreviation hg_uint8 := (Plain (Int false 1)).
Abbreviation hg_int32 := (Plain (Int true 4)).
Abbreviation hg_uint32 := (Plain (Int false 4)).
Abbreviation hg_int64 := (Plain (Int true 8)).
Abbreviation hg_uint64 := (Plain (Int false 8)).
Abbreviation hg_size := (Plain (Int false 8)).
Abbreviation hg_string := (Plain String).
Abbreviation hg_bulk := (Plain Handle).
Abbreviation hg_raw n := (Plain (Raw n)).

Section interpretation.
Context `{BK : !Bulk, MC : !Mercury}.

Definition put_slot {T} (x : slot T) : T → option (list byte) :=
  match x with Plain w => put w | Uint32_as_int32 => λ z, put (Int true 4) (i32 z) | Int32_as_uint32 => λ z, put (Int false 4) (u32 z) end.
Definition get_slot {T} (x : slot T) : list byte → option (T * list byte) :=
  match x with
  | Plain w => get w
  | Uint32_as_int32 => λ b, '(z, b) ← get (Int true 4) b; Some (u32 z, b)
  | Int32_as_uint32 => λ b, '(z, b) ← get (Int false 4) b; Some (i32 z, b)
  end.

Lemma i32_range z : fits (Int true 4) (i32 z).
Proof. change (-2147483648 ≤ i32 z < 2147483648). unfold i32, W32. Z.to_euclidean_division_equations. lia. Qed.
Lemma u32_range z : fits (Int false 4) (u32 z).
Proof. change (0 ≤ u32 z < 4294967296). unfold u32, W32. Z.to_euclidean_division_equations. lia. Qed.
Lemma u32_i32 z : fits (Int false 4) z → u32 (i32 z) = z.
Proof. intros Hz. change (0 ≤ z < 4294967296) in Hz. unfold u32, i32, W32. Z.to_euclidean_division_equations. lia. Qed.
Lemma i32_u32 z : fits (Int true 4) z → i32 (u32 z) = z.
Proof. intros Hz. change (-2147483648 ≤ z < 2147483648) in Hz. unfold u32, i32, W32. Z.to_euclidean_division_equations. lia. Qed.

(** What the receiver's structure becomes, when every value arrives. *)
Fixpoint sent {S} (c : proc S) : S → S → S :=
  match c with
  | Done build => λ _, build
  | Field _ f k => λ s, sent (k (f s)) s
  | Sub c f k => λ s, sent (k (sent c (f s))) s
  end.
(** [HG_ENCODE]: every step after the other, and an error ends it. *)
Fixpoint encode {S} (c : proc S) : S → option (list byte) :=
  match c with
  | Done _ => λ _, Some []
  | Field x f k => λ s, b ← put_slot x (f s); b' ← encode (k (f s)) s; Some (b ++ b')
  | Sub c f k => λ s, b ← encode c (f s); b' ← encode (k (sent c (f s))) s; Some (b ++ b')
  end.
(** [HG_DECODE] *)
Fixpoint decode {S} (c : proc S) : list byte → option ((S → S) * list byte) :=
  match c with
  | Done build => λ b, Some (build, b)
  | Field x _ k => λ b, '(v, b) ← get_slot x b; decode (k v) b
  | Sub c _ k => λ b, '(v, b) ← decode c b; decode (k v) b
  end.
(** The values that are sent are values of the types of their fields. *)
Fixpoint sendable {S} (c : proc S) : S → Prop :=
  match c with
  | Done _ => λ _, True
  | Field x f k => λ s, typed x (f s) ∧ sendable (k (f s)) s
  | Sub c f k => λ s, sendable c (f s) ∧ sendable (k (sent c (f s))) s
  end.

Lemma slot_roundtrip {T} (x : slot T) v : typed x v → ∃ b, put_slot x v = Some b ∧ ∀ rest, get_slot x (b ++ rest) = Some (v, rest).
Proof.
  destruct x; cbn -[fits]; intros Hv.
  - by apply put_get.
  - destruct (put_get _ (Int true 4) (i32 v)) as (b & E & Hb); [apply i32_range|]. exists b. split; [done|]. intros rest. rewrite Hb. cbn. by rewrite u32_i32.
  - destruct (put_get _ (Int false 4) (u32 v)) as (b & E & Hb); [apply u32_range|]. exists b. split; [done|]. intros rest. rewrite Hb. cbn. by rewrite i32_u32.
Qed.

Lemma decode_encode {S} (c : proc S) s : sendable c s → ∃ b, encode c s = Some b ∧ ∀ rest, decode c (b ++ rest) = Some (sent c s, rest).
Proof.
  revert s. induction c as [S build|S T x f k IH|S T c IHc f k IHk]; cbn; intros s Hs.
  - by exists [].
  - destruct Hs as [Hv Hs]. destruct (slot_roundtrip x (f s) Hv) as (b & E & Hb), (IH _ s Hs) as (b' & E' & Hb'). exists (b ++ b'). rewrite E. cbn. rewrite E'. split; [done|].
    intros rest. rewrite <-app_assoc, Hb. cbn. apply Hb'.
  - destruct Hs as [Hv Hs]. destruct (IHc (f s) Hv) as (b & E & Hb), (IHk _ s Hs) as (b' & E' & Hb'). exists (b ++ b'). rewrite E. cbn. rewrite E'. split; [done|].
    intros rest. rewrite <-app_assoc, Hb. cbn. apply Hb'.
Qed.
End interpretation.

(** * One encoding

    Integers are written from their lowest byte, strings end with a zero byte, blocks are
    copied, and the bytes of a handle are marked. *)
Module LittleEndian.

(** A handle is the memory itself. *)
#[export] Instance bulk : Bulk := {| hg_bulk_t := list byte; HG_BULK_NULL := []; HG_Bulk_create := id; HG_Bulk_pull := id; pull_create b := eq_refl |}.

Fixpoint get_string (b : list byte) : option (string * list byte) :=
  match b with [] => None | c :: b => if decide (c = 0) then Some ([], b) else '(s, b) ← get_string b; Some (c :: s, b) end.
Definition put_marked (h : list byte) : list byte := (h ≫= λ c, [1; c]) ++ [0].
Fixpoint get_marked (b : list byte) : option (list byte * list byte) :=
  match b with
  | [] => None
  | mark :: b => if decide (mark = 0) then Some ([], b) else match b with [] => None | c :: b => '(h, b) ← get_marked b; Some (c :: h, b) end
  end.
Definition unsigned (size : nat) (z : Z) : Z := z mod 256 ^ Z.of_nat size.
Definition of_unsigned (signed : bool) (size : nat) (z : Z) : Z := if decide (z < int_max signed size) then z else z - 256 ^ Z.of_nat size.
Definition block (n : Z) (b : list byte) : option (list byte * list byte) :=
  if decide (0 ≤ n ≤ lenZ b) then Some (take (Z.to_nat n) b, drop (Z.to_nat n) b) else None.
Definition put {T} (w : wire T) : T → option (list byte) :=
  match w with
  | Int _ size => λ z, Some (le_encode size (unsigned size z))
  | String => λ s, Some (s ++ [0])
  | Handle => λ h, Some (put_marked h)
  | Raw n => Some
  end.
Definition get {T} (w : wire T) : list byte → option (T * list byte) :=
  match w with
  | Int signed size => λ b, '(d, b) ← block (Z.of_nat size) b; Some (of_unsigned signed size (le_decode d), b)
  | String => get_string
  | Handle => get_marked
  | Raw n => block n
  end.

Lemma block_app b n rest : lenZ b = n → block n (b ++ rest) = Some (b, rest).
Proof.
  intros <-. unfold block, lenZ. rewrite decide_True by (rewrite length_app; lia). rewrite Nat2Z.id. by rewrite take_app_length, drop_app_length.
Qed.
Lemma unsigned_roundtrip signed size z : int_min signed size ≤ z < int_max signed size → of_unsigned signed size (unsigned size z) = z.
Proof.
  intros Hz. unfold of_unsigned, unsigned. pose proof (Z.pow_pos_nonneg 256 (Z.of_nat size) ltac:(lia) ltac:(lia)) as Hp. unfold int_min, int_max in *. set (N := 256 ^ Z.of_nat size) in *. destruct signed.
  - assert (N / 2 * 2 ≤ N ∧ - N ≤ - N / 2 ∧ N / 2 ≤ - N / 2 + N) as (H1 & H2 & H3) by (clear Hz; Z.to_euclidean_division_equations; lia). destruct (decide (0 ≤ z)).
    + assert (N / 2 ≤ N) by (clear Hz; Z.to_euclidean_division_equations; lia). rewrite Z.mod_small by lia. by rewrite decide_True by lia.
    + assert (z mod N = z + N) as -> by (symmetry; apply Z.mod_unique with (-1); lia). rewrite decide_False by lia. lia.
  - rewrite Z.mod_small by lia. by rewrite decide_True by lia.
Qed.
Lemma get_string_app s rest : Forall (λ c, c ≠ 0) s → get_string ((s ++ [0]) ++ rest) = Some (s, rest).
Proof. induction 1 as [|c s Hc _ IH]; cbn; [done|]. rewrite decide_False by done. by rewrite IH. Qed.
Lemma get_marked_app h rest : get_marked (put_marked h ++ rest) = Some (h, rest).
Proof. unfold put_marked. induction h as [|c h IH]; cbn; [done|]. by rewrite IH. Qed.
Lemma put_get {T} (w : wire T) x : fits w x → ∃ b, put w x = Some b ∧ ∀ rest, get w (b ++ rest) = Some (x, rest).
Proof.
  destruct w as [signed size| | |n]; cbn; intros Hx; (eexists; split; [done|]); intros rest.
  - rewrite block_app by apply lenZ_le_encode. cbn. rewrite le_decode_encode by (apply Z.mod_pos_bound, Z.pow_pos_nonneg; lia). by rewrite unsigned_roundtrip.
  - by apply get_string_app.
  - apply get_marked_app.
  - by apply block_app.
Qed.
#[export] Instance mercury : Mercury := {| Mercury.put := @put; Mercury.get := @get; Mercury.put_get := @put_get |}.
End LittleEndian.
