(* ===== verification/RpcTypes.v ===== *)
(** The structures of the messages between clients and servers and among servers
    ([pdc_client_server_common.h]).  Numbers are the values of their C types; a pointer to
    bytes is the bytes that it points to. *)

From S2P Require Export Mercury.
#[local] Open Scope Z_scope.

Section types.
Context `{BK : Bulk}.

Record pdc_kvtag_t := { pdc_kvtag_name : string; pdc_kvtag_size : Z; pdc_kvtag_type : Z; pdc_kvtag_value : list byte }.
Record region_info_transfer_t := {
  region_info_transfer_ndim : Z; region_info_transfer_start_0 : Z; region_info_transfer_start_1 : Z; region_info_transfer_start_2 : Z;
  region_info_transfer_start_3 : Z; region_info_transfer_count_0 : Z; region_info_transfer_count_1 : Z; region_info_transfer_count_2 : Z;
  region_info_transfer_count_3 : Z;
}.
Record region_lock_in_t := {
  region_lock_in_meta_server_id : Z; region_lock_in_obj_id : Z; region_lock_in_access_type : Z; region_lock_in_local_reg_id : Z;
  region_lock_in_region : region_info_transfer_t; region_lock_in_mapping : Z; region_lock_in_data_type : Z; region_lock_in_data_unit : Z;
  region_lock_in_lock_mode : Z;
}.
Record region_lock_out_t := { region_lock_out_ret : Z }.
Record region_transform_and_lock_in_t := {
  region_transform_and_lock_in_meta_server_id : Z; region_transform_and_lock_in_obj_id : Z; region_transform_and_lock_in_access_type : Z;
  region_transform_and_lock_in_local_reg_id : Z; region_transform_and_lock_in_region : region_info_transfer_t;
  region_transform_and_lock_in_mapping : Z; region_transform_and_lock_in_data_type : Z; region_transform_and_lock_in_lock_mode : Z;
  region_transform_and_lock_in_dest_type : Z; region_transform_and_lock_in_transform_id : Z; region_transform_and_lock_in_transform_state : Z;
  region_transform_and_lock_in_local_bulk_handle : hg_bulk_t; region_transform_and_lock_in_transform_data_size : Z;
  region_transform_and_lock_in_client_data_ptr : Z;
}.
Record region_analysis_and_lock_in_t := {
  region_analysis_and_lock_in_meta_server_id : Z; region_analysis_and_lock_in_obj_id : Z; region_analysis_and_lock_in_access_type : Z;
  region_analysis_and_lock_in_local_reg_id : Z; region_analysis_and_lock_in_region : region_info_transfer_t;
  region_analysis_and_lock_in_mapping : Z; region_analysis_and_lock_in_data_type : Z; region_analysis_and_lock_in_lock_mode : Z;
  region_analysis_and_lock_in_analysis_meta_index : Z; region_analysis_and_lock_in_n_args : Z; region_analysis_and_lock_in_output_obj_id : Z;
  region_analysis_and_lock_in_type_extent : Z; region_analysis_and_lock_in_output_type_extent : Z; region_analysis_and_lock_in_input_iter : Z;
  region_analysis_and_lock_in_output_iter : Z;
}.
Record metadata_query_transfer_in_t := {
  metadata_query_transfer_in_is_list_all : Z; metadata_query_transfer_in_user_id : Z; metadata_query_transfer_in_app_name : string;
  metadata_query_transfer_in_obj_name : string; metadata_query_transfer_in_time_step_from : Z; metadata_query_transfer_in_time_step_to : Z;
  metadata_query_transfer_in_ndim : Z; metadata_query_transfer_in_tags : string; metadata_query_transfer_in_k_query : string;
  metadata_query_transfer_in_vfrom_query : string; metadata_query_transfer_in_vto_query : string;
}.
Record metadata_query_transfer_out_t := {
  metadata_query_transfer_out_ret : Z; metadata_query_transfer_out_server_time_elapsed : Z;
  metadata_query_transfer_out_server_memory_consumption : Z; metadata_query_transfer_out_bulk_handle : hg_bulk_t;
}.
Record pdc_metadata_transfer_t := {
  pdc_metadata_transfer_user_id : Z; pdc_metadata_transfer_app_name : string; pdc_metadata_transfer_obj_name : string;
  pdc_metadata_transfer_time_step : Z; pdc_metadata_transfer_cont_id : Z; pdc_metadata_transfer_obj_id : Z;
  pdc_metadata_transfer_data_type : Z; pdc_metadata_transfer_ndim : Z; pdc_metadata_transfer_dims0 : Z; pdc_metadata_transfer_dims1 : Z;
  pdc_metadata_transfer_dims2 : Z; pdc_metadata_transfer_dims3 : Z; pdc_metadata_transfer_tags : string;
  pdc_metadata_transfer_data_location : string; pdc_metadata_transfer_data_server_id : Z; pdc_metadata_transfer_region_partition : Z;
  pdc_metadata_transfer_consistency : Z; pdc_metadata_transfer_current_state : Z; pdc_metadata_transfer_t_storage_order : Z;
  pdc_metadata_transfer_t_dtype : Z; pdc_metadata_transfer_t_ndim : Z; pdc_metadata_transfer_t_dims0 : Z; pdc_metadata_transfer_t_dims1 : Z;
  pdc_metadata_transfer_t_dims2 : Z; pdc_metadata_transfer_t_dims3 : Z; pdc_metadata_transfer_t_meta_index : Z;
}.
Record send_rpc_in_t := { send_rpc_in_value : Z }.
Record send_rpc_out_t := { send_rpc_out_value : Z }.
Record metadata_add_tag_in_t := {
  metadata_add_tag_in_obj_id : Z; metadata_add_tag_in_hash_value : Z; metadata_add_tag_in_new_tag : string;
}.
Record metadata_get_kvtag_in_t := {
  metadata_get_kvtag_in_obj_id : Z; metadata_get_kvtag_in_hash_value : Z; metadata_get_kvtag_in_key : string;
}.
Record metadata_add_tag_out_t := { metadata_add_tag_out_ret : Z }.
Record metadata_get_kvtag_out_t := { metadata_get_kvtag_out_ret : Z; metadata_get_kvtag_out_kvtag : pdc_kvtag_t }.
Record metadata_add_kvtag_in_t := {
  metadata_add_kvtag_in_obj_id : Z; metadata_add_kvtag_in_hash_value : Z; metadata_add_kvtag_in_kvtag : pdc_kvtag_t;
}.
Record metadata_update_in_t := {
  metadata_update_in_obj_id : Z; metadata_update_in_hash_value : Z; metadata_update_in_new_metadata : pdc_metadata_transfer_t;
}.
Record metadata_update_out_t := { metadata_update_out_ret : Z }.
Record metadata_delete_by_id_in_t := { metadata_delete_by_id_in_obj_id : Z }.
Record metadata_delete_by_id_out_t := { metadata_delete_by_id_out_ret : Z }.
Record metadata_delete_in_t := {
  metadata_delete_in_obj_name : string; metadata_delete_in_time_step : Z; metadata_delete_in_hash_value : Z;
}.
Record metadata_delete_out_t := { metadata_delete_out_ret : Z }.
Record metadata_query_in_t := { metadata_query_in_obj_name : string; metadata_query_in_hash_value : Z; metadata_query_in_time_step : Z }.
Record metadata_query_out_t := { metadata_query_out_ret : pdc_metadata_transfer_t }.
Record gen_cont_id_in_t := { gen_cont_id_in_cont_name : string; gen_cont_id_in_hash_value : Z }.
Record gen_cont_id_out_t := { gen_cont_id_out_cont_id : Z }.
Record gen_obj_id_in_t := { gen_obj_id_in_data : pdc_metadata_transfer_t; gen_obj_id_in_hash_value : Z; gen_obj_id_in_data_type : Z }.
Record gen_obj_id_out_t := { gen_obj_id_out_obj_id : Z }.
Record server_lookup_remote_server_in_t := { server_lookup_remote_server_in_server_id : Z }.
Record server_lookup_remote_server_out_t := { server_lookup_remote_server_out_ret : Z }.
Record server_lookup_client_in_t := {
  server_lookup_client_in_server_id : Z; server_lookup_client_in_nserver : Z; server_lookup_client_in_server_addr : string;
}.
Record server_lookup_client_out_t := { server_lookup_client_out_ret : Z }.
Record client_test_connect_in_t := {
  client_test_connect_in_client_id : Z; client_test_connect_in_nclient : Z; client_test_connect_in_is_init : Z;
  client_test_connect_in_client_addr : string;
}.
Record client_test_connect_out_t := { client_test_connect_out_ret : Z }.
Record notify_io_complete_in_t := {
  notify_io_complete_in_io_type : Z; notify_io_complete_in_obj_id : Z; notify_io_complete_in_shm_addr : string;
}.
Record notify_io_complete_out_t := { notify_io_complete_out_ret : Z }.
Record notify_region_update_in_t := { notify_region_update_in_obj_id : Z; notify_region_update_in_reg_id : Z }.
Record notify_region_update_out_t := { notify_region_update_out_ret : Z }.
Record flush_obj_all_in_t := { flush_obj_all_in_tag : Z }.
Record flush_obj_all_out_t := { flush_obj_all_out_ret : Z }.
Record obj_reset_dims_in_t := {
  obj_reset_dims_in_obj_name : string; obj_reset_dims_in_hash_value : Z; obj_reset_dims_in_time_step : Z; obj_reset_dims_in_dims0 : Z;
  obj_reset_dims_in_dims1 : Z; obj_reset_dims_in_dims2 : Z; obj_reset_dims_in_ndim : Z;
}.
Record obj_reset_dims_out_t := { obj_reset_dims_out_ret : Z }.
Record flush_obj_in_t := { flush_obj_in_obj_id : Z }.
Record flush_obj_out_t := { flush_obj_out_ret : Z }.
Record close_server_in_t := { close_server_in_client_id : Z }.
Record close_server_out_t := { close_server_out_ret : Z }.
Record bulk_rpc_in_t := {
  bulk_rpc_in_cnt : Z; bulk_rpc_in_total : Z; bulk_rpc_in_origin : Z; bulk_rpc_in_seq_id : Z; bulk_rpc_in_seq_id2 : Z; bulk_rpc_in_op_id : Z;
  bulk_rpc_in_ndim : Z; bulk_rpc_in_obj_id : Z; bulk_rpc_in_data_type : Z; bulk_rpc_in_bulk_handle : hg_bulk_t;
}.
Record bulk_rpc_out_t := { bulk_rpc_out_ret : Z }.
Record get_remote_metadata_in_t := { get_remote_metadata_in_obj_id : Z }.
Record get_remote_metadata_out_t := { get_remote_metadata_out_ret : pdc_metadata_transfer_t }.
Record buf_map_in_t := {
  buf_map_in_meta_server_id : Z; buf_map_in_local_reg_id : Z; buf_map_in_remote_obj_id : Z; buf_map_in_local_type : Z;
  buf_map_in_remote_type : Z; buf_map_in_ndim : Z; buf_map_in_remote_unit : Z; buf_map_in_local_bulk_handle : hg_bulk_t;
  buf_map_in_remote_region_unit : region_info_transfer_t; buf_map_in_remote_region_nounit : region_info_transfer_t;
  buf_map_in_local_region : region_info_transfer_t;
}.
Record buf_map_out_t := { buf_map_out_ret : Z }.
Record transfer_request_in_t := {
  transfer_request_in_local_bulk_handle : hg_bulk_t; transfer_request_in_remote_region : region_info_transfer_t;
  transfer_request_in_obj_id : Z; transfer_request_in_obj_dim0 : Z; transfer_request_in_obj_dim1 : Z; transfer_request_in_obj_dim2 : Z;
  transfer_request_in_remote_unit : Z; transfer_request_in_obj_ndim : Z; transfer_request_in_meta_server_id : Z;
  transfer_request_in_access_type : Z;
}.
Record transfer_request_out_t := { transfer_request_out_metadata_id : Z; transfer_request_out_ret : Z }.
Record transfer_request_status_in_t := { transfer_request_status_in_transfer_request_id : Z }.
Record transfer_request_status_out_t := { transfer_request_status_out_status : Z; transfer_request_status_out_ret : Z }.
Record transfer_request_wait_all_in_t := {
  transfer_request_wait_all_in_local_bulk_handle : hg_bulk_t; transfer_request_wait_all_in_total_buf_size : Z;
  transfer_request_wait_all_in_n_objs : Z;
}.
Record transfer_request_wait_all_out_t := { transfer_request_wait_all_out_ret : Z }.
Record transfer_request_all_in_t := {
  transfer_request_all_in_local_bulk_handle : hg_bulk_t; transfer_request_all_in_total_buf_size : Z; transfer_request_all_in_n_objs : Z;
  transfer_request_all_in_access_type : Z; transfer_request_all_in_client_id : Z;
}.
Record transfer_request_all_out_t := { transfer_request_all_out_metadata_id : Z; transfer_request_all_out_ret : Z }.
Record transfer_request_metadata_query_in_t := {
  transfer_request_metadata_query_in_local_bulk_handle : hg_bulk_t; transfer_request_metadata_query_in_total_buf_size : Z;
  transfer_request_metadata_query_in_n_objs : Z; transfer_request_metadata_query_in_is_write : Z;
}.
Record transfer_request_metadata_query_out_t := {
  transfer_request_metadata_query_out_query_id : Z; transfer_request_metadata_query_out_total_buf_size : Z;
  transfer_request_metadata_query_out_ret : Z;
}.
Record transfer_request_metadata_query2_in_t := {
  transfer_request_metadata_query2_in_local_bulk_handle : hg_bulk_t; transfer_request_metadata_query2_in_total_buf_size : Z;
  transfer_request_metadata_query2_in_query_id : Z;
}.
Record transfer_request_metadata_query2_out_t := { transfer_request_metadata_query2_out_ret : Z }.
Record transfer_request_wait_in_t := { transfer_request_wait_in_transfer_request_id : Z; transfer_request_wait_in_access_type : Z }.
Record transfer_request_wait_out_t := { transfer_request_wait_out_ret : Z }.
Record buf_unmap_in_t := {
  buf_unmap_in_meta_server_id : Z; buf_unmap_in_remote_obj_id : Z; buf_unmap_in_remote_reg_id : Z;
  buf_unmap_in_remote_region : region_info_transfer_t;
}.
Record buf_unmap_out_t := { buf_unmap_out_ret : Z }.
Record data_server_read_in_t := {
  data_server_read_in_client_id : Z; data_server_read_in_nclient : Z; data_server_read_in_nupdate : Z;
  data_server_read_in_meta : pdc_metadata_transfer_t; data_server_read_in_region : region_info_transfer_t;
  data_server_read_in_cache_percentage : Z;
}.
Record data_server_read_out_t := { data_server_read_out_ret : Z }.
Record data_server_write_in_t := {
  data_server_write_in_client_id : Z; data_server_write_in_nclient : Z; data_server_write_in_nupdate : Z;
  data_server_write_in_shm_addr : string; data_server_write_in_meta : pdc_metadata_transfer_t;
  data_server_write_in_region : region_info_transfer_t;
}.
Record data_server_write_out_t := { data_server_write_out_ret : Z }.
Record data_server_read_check_in_t := {
  data_server_read_check_in_client_id : Z; data_server_read_check_in_meta : pdc_metadata_transfer_t;
  data_server_read_check_in_region : region_info_transfer_t;
}.
Record data_server_read_check_out_t := { data_server_read_check_out_ret : Z; data_server_read_check_out_shm_addr : string }.
Record data_server_write_check_in_t := {
  data_server_write_check_in_client_id : Z; data_server_write_check_in_meta : pdc_metadata_transfer_t;
  data_server_write_check_in_region : region_info_transfer_t;
}.
Record data_server_write_check_out_t := { data_server_write_check_out_ret : Z }.
Record pdc_histogram_t := {
  pdc_histogram_dtype : Z; pdc_histogram_nbin : Z; pdc_histogram_incr : Z; pdc_histogram_range : list byte; pdc_histogram_bin : list byte;
}.
Record update_region_loc_in_t := {
  update_region_loc_in_obj_id : Z; update_region_loc_in_storage_location : string; update_region_loc_in_offset : Z;
  update_region_loc_in_region : region_info_transfer_t; update_region_loc_in_type : Z; update_region_loc_in_has_hist : Z;
  update_region_loc_in_hist : pdc_histogram_t;
}.
Record update_region_loc_out_t := { update_region_loc_out_ret : Z }.
Record get_metadata_by_id_in_t := { get_metadata_by_id_in_obj_id : Z }.
Record get_metadata_by_id_out_t := { get_metadata_by_id_out_res_meta : pdc_metadata_transfer_t }.
Record pdc_serialized_data_t := { pdc_serialized_data_buf : string }.
Record get_storage_info_single_out_t := {
  get_storage_info_single_out_region_transfer : region_info_transfer_t; get_storage_info_single_out_storage_loc : string;
  get_storage_info_single_out_file_offset : Z;
}.
Record get_storage_info_in_t := { get_storage_info_in_obj_id : Z; get_storage_info_in_req_region : region_info_transfer_t }.
Record pdc_int_send_t := { pdc_int_send_origin : Z }.
Record pdc_int_ret_t := { pdc_int_ret_ret : Z }.
Record pdc_aggregated_io_to_server_t := {
  pdc_aggregated_io_to_server_buf : string; pdc_aggregated_io_to_server_meta : pdc_metadata_transfer_t;
}.
Record cont_add_del_objs_rpc_in_t := {
  cont_add_del_objs_rpc_in_op : Z; cont_add_del_objs_rpc_in_cnt : Z; cont_add_del_objs_rpc_in_origin : Z;
  cont_add_del_objs_rpc_in_cont_id : Z; cont_add_del_objs_rpc_in_bulk_handle : hg_bulk_t;
}.
Record cont_add_del_objs_rpc_out_t := { cont_add_del_objs_rpc_out_ret : Z }.
Record cont_add_tags_rpc_in_t := { cont_add_tags_rpc_in_cont_id : Z; cont_add_tags_rpc_in_tags : string }.
Record query_read_obj_name_in_t := {
  query_read_obj_name_in_client_seq_id : Z; query_read_obj_name_in_cnt : Z; query_read_obj_name_in_total_size : Z;
  query_read_obj_name_in_origin : Z; query_read_obj_name_in_bulk_handle : hg_bulk_t;
}.
Record query_read_obj_name_out_t := { query_read_obj_name_out_ret : Z }.
Record container_query_in_t := { container_query_in_cont_name : string; container_query_in_hash_value : Z }.
Record container_query_out_t := { container_query_out_cont_id : Z }.
Record storage_meta_name_query_in_t := {
  storage_meta_name_query_in_obj_name : string; storage_meta_name_query_in_task_id : Z; storage_meta_name_query_in_origin_id : Z;
}.
Record get_sel_data_rpc_in_t := { get_sel_data_rpc_in_query_id : Z; get_sel_data_rpc_in_obj_id : Z; get_sel_data_rpc_in_origin : Z }.
Record send_nhits_t := { send_nhits_query_id : Z; send_nhits_nhits : Z }.
Record query_storage_region_transfer_t := {
  query_storage_region_transfer_origin : Z; query_storage_region_transfer_total_region : Z; query_storage_region_transfer_is_done : Z;
  query_storage_region_transfer_query_id : Z; query_storage_region_transfer_manager : Z; query_storage_region_transfer_obj_id : Z;
  query_storage_region_transfer_region_transfer : region_info_transfer_t; query_storage_region_transfer_storage_location : string;
  query_storage_region_transfer_offset : Z; query_storage_region_transfer_size : Z; query_storage_region_transfer_has_hist : Z;
  query_storage_region_transfer_data_type : Z; query_storage_region_transfer_op : Z; query_storage_region_transfer_hist : pdc_histogram_t;
}.
Record dart_get_server_info_in_t := { dart_get_server_info_in_serverId : Z }.
Record dart_get_server_info_out_t := { dart_get_server_info_out_indexed_word_count : Z; dart_get_server_info_out_request_count : Z }.
Record dart_perform_one_server_in_t := {
  dart_perform_one_server_in_op_type : Z; dart_perform_one_server_in_hash_algo : Z; dart_perform_one_server_in_attr_key : string;
  dart_perform_one_server_in_attr_vsize : Z; dart_perform_one_server_in_attr_vtype : Z; dart_perform_one_server_in_attr_val : list byte;
  dart_perform_one_server_in_vnode_id : Z; dart_perform_one_server_in_obj_ref_type : Z; dart_perform_one_server_in_obj_primary_ref : Z;
  dart_perform_one_server_in_obj_secondary_ref : Z; dart_perform_one_server_in_obj_server_ref : Z;
  dart_perform_one_server_in_inserting_suffix : Z; dart_perform_one_server_in_timestamp : Z; dart_perform_one_server_in_src_client_id : Z;
}.
Record dart_perform_one_server_out_t := {
  dart_perform_one_server_out_op_type : Z; dart_perform_one_server_out_ret : Z; dart_perform_one_server_out_bulk_handle : hg_bulk_t;
  dart_perform_one_server_out_indexed_word_count : Z; dart_perform_one_server_out_request_count : Z; dart_perform_one_server_out_has_bulk : Z;
  dart_perform_one_server_out_n_items : Z; dart_perform_one_server_out_timestamp : Z; dart_perform_one_server_out_server_time_elapsed : Z;
  dart_perform_one_server_out_server_memory_consumption : Z;
}.
Record pdc_query_xfer_t := {
  pdc_query_xfer_query_id : Z; pdc_query_xfer_manager : Z; pdc_query_xfer_client_id : Z; pdc_query_xfer_n_unique_obj : Z;
  pdc_query_xfer_query_op : Z; pdc_query_xfer_n_combine_ops : Z; pdc_query_xfer_combine_ops : list byte; pdc_query_xfer_n_constraints : Z;
  pdc_query_xfer_get_op : Z; pdc_query_xfer_next_server_id : Z; pdc_query_xfer_prev_server_id : Z; pdc_query_xfer_constraints : list byte;
  pdc_query_xfer_region : region_info_transfer_t;
}.
Record send_shm_in_t := { send_shm_in_client_id : Z; send_shm_in_shm_addr : string; send_shm_in_size : Z }.
End types.
