(* ===== verification/RpcMessages.v ===== *)
(** The functions [hg_proc_*] of [pdc_client_server_common.h] that encode and decode the
    messages, the messages of every remote procedure, and calls.

    Two blocks of memory that are sent one after the other share one return code in the
    code, so that an error of the first one is not seen; here any error ends the message. *)

From stdpp Require Import list.
From S2P Require Export RpcTypes.
#[local] Open Scope Z_scope.

(** A variable of an enumeration that is given to [hg_proc_uint8_t]: the byte at its
    address is the lowest one of its 32 bits. *)
Definition low_byte (v : Z) : Z := v mod 256.
Definition set_low_byte (old b : Z) : Z := old - low_byte old + b.

Section messages.
Context `{BK : Bulk}.

Definition hg_proc_pdc_kvtag_t : proc pdc_kvtag_t := (
  name ←- hg_string @ pdc_kvtag_name;
  size ←- hg_uint32 @ pdc_kvtag_size;
  type_ ←- hg_int8 @ pdc_kvtag_type;
  if decide (size = 0) then Done (λ old, Build_pdc_kvtag_t name size type_ (pdc_kvtag_value old))
  else (
    value ←- (hg_raw size) @ pdc_kvtag_value;
    Done (λ _, Build_pdc_kvtag_t name size type_ value))%proc)%proc.
Definition hg_proc_region_info_transfer_t : proc region_info_transfer_t := (
  ndim ←- hg_size @ region_info_transfer_ndim;
  start_0 ←- hg_uint64 @ region_info_transfer_start_0;
  start_1 ←- hg_uint64 @ region_info_transfer_start_1;
  start_2 ←- hg_uint64 @ region_info_transfer_start_2;
  start_3 ←- hg_uint64 @ region_info_transfer_start_3;
  count_0 ←- hg_uint64 @ region_info_transfer_count_0;
  count_1 ←- hg_uint64 @ region_info_transfer_count_1;
  count_2 ←- hg_uint64 @ region_info_transfer_count_2;
  count_3 ←- hg_uint64 @ region_info_transfer_count_3;
  Done (λ _, Build_region_info_transfer_t ndim start_0 start_1 start_2 start_3 count_0 count_1 count_2 count_3))%proc.
Definition hg_proc_region_lock_in_t : proc region_lock_in_t := (
  meta_server_id ←- Uint32_as_int32 @ region_lock_in_meta_server_id;
  obj_id ←- hg_uint64 @ region_lock_in_obj_id;
  access_type ←- hg_uint8 @ region_lock_in_access_type;
  local_reg_id ←- hg_uint64 @ region_lock_in_local_reg_id;
  region ←* hg_proc_region_info_transfer_t @ region_lock_in_region;
  mapping ←- hg_uint8 @ region_lock_in_mapping;
  data_type ←- hg_uint8 @ region_lock_in_data_type;
  data_unit ←- hg_size @ region_lock_in_data_unit;
  lock_mode ←- hg_uint8 @ region_lock_in_lock_mode;
  Done (λ old, Build_region_lock_in_t meta_server_id obj_id access_type local_reg_id (region (region_lock_in_region old)) mapping data_type data_unit lock_mode))%proc.
Definition hg_proc_region_lock_out_t : proc region_lock_out_t := (
  ret ←- Int32_as_uint32 @ region_lock_out_ret;
  Done (λ _, Build_region_lock_out_t ret))%proc.
Definition hg_proc_region_transform_and_lock_in_t : proc region_transform_and_lock_in_t := (
  meta_server_id ←- Uint32_as_int32 @ region_transform_and_lock_in_meta_server_id;
  obj_id ←- hg_uint64 @ region_transform_and_lock_in_obj_id;
  access_type ←- hg_uint8 @ region_transform_and_lock_in_access_type;
  local_reg_id ←- hg_uint64 @ region_transform_and_lock_in_local_reg_id;
  region ←* hg_proc_region_info_transfer_t @ region_transform_and_lock_in_region;
  mapping ←- hg_uint8 @ region_transform_and_lock_in_mapping;
  data_type ←- hg_uint8 @ region_transform_and_lock_in_data_type;
  lock_mode ←- hg_uint8 @ region_transform_and_lock_in_lock_mode;
  dest_type ←- hg_uint8 @ region_transform_and_lock_in_dest_type;
  transform_id ←- hg_int32 @ region_transform_and_lock_in_transform_id;
  transform_state ←- hg_int32 @ region_transform_and_lock_in_transform_state;
  local_bulk_handle ←- hg_bulk @ region_transform_and_lock_in_local_bulk_handle;
  transform_data_size ←- hg_int64 @ region_transform_and_lock_in_transform_data_size;
  client_data_ptr ←- hg_uint64 @ region_transform_and_lock_in_client_data_ptr;
  Done (λ old, Build_region_transform_and_lock_in_t meta_server_id obj_id access_type local_reg_id (region (region_transform_and_lock_in_region old)) mapping data_type lock_mode dest_type transform_id transform_state local_bulk_handle transform_data_size client_data_ptr))%proc.
Definition hg_proc_region_analysis_and_lock_in_t : proc region_analysis_and_lock_in_t := (
  meta_server_id ←- Uint32_as_int32 @ region_analysis_and_lock_in_meta_server_id;
  obj_id ←- hg_uint64 @ region_analysis_and_lock_in_obj_id;
  access_type ←- hg_uint8 @ region_analysis_and_lock_in_access_type;
  local_reg_id ←- hg_uint64 @ region_analysis_and_lock_in_local_reg_id;
  region ←* hg_proc_region_info_transfer_t @ region_analysis_and_lock_in_region;
  mapping ←- hg_uint8 @ region_analysis_and_lock_in_mapping;
  data_type ←- hg_uint8 @ region_analysis_and_lock_in_data_type;
  lock_mode ←- hg_uint8 @ region_analysis_and_lock_in_lock_mode;
  analysis_meta_index ←- hg_int32 @ region_analysis_and_lock_in_analysis_meta_index;
  n_args ←- hg_int32 @ region_analysis_and_lock_in_n_args;
  output_obj_id ←- hg_uint64 @ region_analysis_and_lock_in_output_obj_id;
  type_extent ←- hg_uint64 @ region_analysis_and_lock_in_type_extent;
  output_type_extent ←- hg_uint64 @ region_analysis_and_lock_in_output_type_extent;
  input_iter ←- hg_uint64 @ region_analysis_and_lock_in_input_iter;
  output_iter ←- hg_uint64 @ region_analysis_and_lock_in_output_iter;
  Done (λ old, Build_region_analysis_and_lock_in_t meta_server_id obj_id access_type local_reg_id (region (region_analysis_and_lock_in_region old)) mapping data_type lock_mode analysis_meta_index n_args output_obj_id type_extent output_type_extent input_iter output_iter))%proc.
Definition hg_proc_metadata_query_transfer_in_t : proc metadata_query_transfer_in_t := (
  is_list_all ←- hg_int32 @ metadata_query_transfer_in_is_list_all;
  user_id ←- hg_int32 @ metadata_query_transfer_in_user_id;
  app_name ←- hg_string @ metadata_query_transfer_in_app_name;
  obj_name ←- hg_string @ metadata_query_transfer_in_obj_name;
  time_step_from ←- hg_int32 @ metadata_query_transfer_in_time_step_from;
  time_step_to ←- hg_int32 @ metadata_query_transfer_in_time_step_to;
  ndim ←- hg_size @ metadata_query_transfer_in_ndim;
  tags ←- hg_string @ metadata_query_transfer_in_tags;
  k_query ←- hg_string @ metadata_query_transfer_in_k_query;
  vfrom_query ←- hg_string @ metadata_query_transfer_in_vfrom_query;
  vto_query ←- hg_string @ metadata_query_transfer_in_vto_query;
  Done (λ _, Build_metadata_query_transfer_in_t is_list_all user_id app_name obj_name time_step_from time_step_to ndim tags k_query vfrom_query vto_query))%proc.
Definition hg_proc_metadata_query_transfer_out_t : proc metadata_query_transfer_out_t := (
  ret ←- hg_int32 @ metadata_query_transfer_out_ret;
  server_time_elapsed ←- hg_int64 @ metadata_query_transfer_out_server_time_elapsed;
  server_memory_consumption ←- hg_int64 @ metadata_query_transfer_out_server_memory_consumption;
  bulk_handle ←- hg_bulk @ metadata_query_transfer_out_bulk_handle;
  Done (λ _, Build_metadata_query_transfer_out_t ret server_time_elapsed server_memory_consumption bulk_handle))%proc.
Definition hg_proc_pdc_metadata_transfer_t : proc pdc_metadata_transfer_t := (
  user_id ←- Int32_as_uint32 @ pdc_metadata_transfer_user_id;
  app_name ←- hg_string @ pdc_metadata_transfer_app_name;
  obj_name ←- hg_string @ pdc_metadata_transfer_obj_name;
  time_step ←- hg_int32 @ pdc_metadata_transfer_time_step;
  cont_id ←- hg_uint64 @ pdc_metadata_transfer_cont_id;
  obj_id ←- hg_uint64 @ pdc_metadata_transfer_obj_id;
  data_type ←- hg_int8 @ pdc_metadata_transfer_data_type;
  ndim ←- hg_size @ pdc_metadata_transfer_ndim;
  dims0 ←- hg_uint64 @ pdc_metadata_transfer_dims0;
  dims1 ←- hg_uint64 @ pdc_metadata_transfer_dims1;
  dims2 ←- hg_uint64 @ pdc_metadata_transfer_dims2;
  dims3 ←- hg_uint64 @ pdc_metadata_transfer_dims3;
  data_location ←- hg_string @ pdc_metadata_transfer_data_location;
  tags ←- hg_string @ pdc_metadata_transfer_tags;
  data_server_id ←- hg_uint32 @ pdc_metadata_transfer_data_server_id;
  region_partition ←- hg_uint8 @ pdc_metadata_transfer_region_partition;
  consistency ←- hg_uint8 @ pdc_metadata_transfer_consistency;
  current_state ←- hg_int32 @ pdc_metadata_transfer_current_state;
  t_storage_order ←- hg_int8 @ pdc_metadata_transfer_t_storage_order;
  t_dtype ←- hg_int8 @ pdc_metadata_transfer_t_dtype;
  t_ndim ←- hg_size @ pdc_metadata_transfer_t_ndim;
  t_dims0 ←- hg_uint64 @ pdc_metadata_transfer_t_dims0;
  t_dims1 ←- hg_uint64 @ pdc_metadata_transfer_t_dims1;
  t_dims2 ←- hg_uint64 @ pdc_metadata_transfer_t_dims2;
  t_dims3 ←- hg_uint64 @ pdc_metadata_transfer_t_dims3;
  t_meta_index ←- hg_int32 @ pdc_metadata_transfer_t_meta_index;
  Done (λ _, Build_pdc_metadata_transfer_t user_id app_name obj_name time_step cont_id obj_id data_type ndim dims0 dims1 dims2 dims3 tags data_location data_server_id region_partition consistency current_state t_storage_order t_dtype t_ndim t_dims0 t_dims1 t_dims2 t_dims3 t_meta_index))%proc.
Definition hg_proc_send_rpc_in_t : proc send_rpc_in_t := (
  value ←- hg_int32 @ send_rpc_in_value;
  Done (λ _, Build_send_rpc_in_t value))%proc.
Definition hg_proc_send_rpc_out_t : proc send_rpc_out_t := (
  value ←- hg_int32 @ send_rpc_out_value;
  Done (λ _, Build_send_rpc_out_t value))%proc.
Definition hg_proc_metadata_add_tag_in_t : proc metadata_add_tag_in_t := (
  obj_id ←- hg_uint64 @ metadata_add_tag_in_obj_id;
  hash_value ←- hg_uint32 @ metadata_add_tag_in_hash_value;
  new_tag ←- hg_string @ metadata_add_tag_in_new_tag;
  Done (λ _, Build_metadata_add_tag_in_t obj_id hash_value new_tag))%proc.
Definition hg_proc_metadata_get_kvtag_in_t : proc metadata_get_kvtag_in_t := (
  obj_id ←- hg_uint64 @ metadata_get_kvtag_in_obj_id;
  hash_value ←- hg_uint32 @ metadata_get_kvtag_in_hash_value;
  key ←- hg_string @ metadata_get_kvtag_in_key;
  Done (λ _, Build_metadata_get_kvtag_in_t obj_id hash_value key))%proc.
Definition hg_proc_metadata_add_tag_out_t : proc metadata_add_tag_out_t := (
  ret ←- hg_int32 @ metadata_add_tag_out_ret;
  Done (λ _, Build_metadata_add_tag_out_t ret))%proc.
Definition hg_proc_metadata_get_kvtag_out_t : proc metadata_get_kvtag_out_t := (
  ret ←- hg_int32 @ metadata_get_kvtag_out_ret;
  kvtag ←* hg_proc_pdc_kvtag_t @ metadata_get_kvtag_out_kvtag;
  Done (λ old, Build_metadata_get_kvtag_out_t ret (kvtag (metadata_get_kvtag_out_kvtag old))))%proc.
Definition hg_proc_metadata_add_kvtag_in_t : proc metadata_add_kvtag_in_t := (
  obj_id ←- hg_uint64 @ metadata_add_kvtag_in_obj_id;
  hash_value ←- hg_uint32 @ metadata_add_kvtag_in_hash_value;
  kvtag ←* hg_proc_pdc_kvtag_t @ metadata_add_kvtag_in_kvtag;
  Done (λ old, Build_metadata_add_kvtag_in_t obj_id hash_value (kvtag (metadata_add_kvtag_in_kvtag old))))%proc.
Definition hg_proc_metadata_update_in_t : proc metadata_update_in_t := (
  obj_id ←- hg_uint64 @ metadata_update_in_obj_id;
  hash_value ←- hg_uint32 @ metadata_update_in_hash_value;
  new_metadata ←* hg_proc_pdc_metadata_transfer_t @ metadata_update_in_new_metadata;
  Done (λ old, Build_metadata_update_in_t obj_id hash_value (new_metadata (metadata_update_in_new_metadata old))))%proc.
Definition hg_proc_metadata_update_out_t : proc metadata_update_out_t := (
  ret ←- hg_int32 @ metadata_update_out_ret;
  Done (λ _, Build_metadata_update_out_t ret))%proc.
Definition hg_proc_metadata_delete_by_id_in_t : proc metadata_delete_by_id_in_t := (
  obj_id ←- hg_uint64 @ metadata_delete_by_id_in_obj_id;
  Done (λ _, Build_metadata_delete_by_id_in_t obj_id))%proc.
Definition hg_proc_metadata_delete_by_id_out_t : proc metadata_delete_by_id_out_t := (
  ret ←- hg_int32 @ metadata_delete_by_id_out_ret;
  Done (λ _, Build_metadata_delete_by_id_out_t ret))%proc.
Definition hg_proc_metadata_delete_in_t : proc metadata_delete_in_t := (
  obj_name ←- hg_string @ metadata_delete_in_obj_name;
  time_step ←- hg_int32 @ metadata_delete_in_time_step;
  hash_value ←- hg_uint32 @ metadata_delete_in_hash_value;
  Done (λ _, Build_metadata_delete_in_t obj_name time_step hash_value))%proc.
Definition hg_proc_metadata_delete_out_t : proc metadata_delete_out_t := (
  ret ←- hg_int32 @ metadata_delete_out_ret;
  Done (λ _, Build_metadata_delete_out_t ret))%proc.
Definition hg_proc_metadata_query_in_t : proc metadata_query_in_t := (
  obj_name ←- hg_string @ metadata_query_in_obj_name;
  time_step ←- hg_int32 @ metadata_query_in_time_step;
  hash_value ←- hg_uint32 @ metadata_query_in_hash_value;
  Done (λ _, Build_metadata_query_in_t obj_name hash_value time_step))%proc.
Definition hg_proc_metadata_query_out_t : proc metadata_query_out_t := (
  ret ←* hg_proc_pdc_metadata_transfer_t @ metadata_query_out_ret;
  Done (λ old, Build_metadata_query_out_t (ret (metadata_query_out_ret old))))%proc.
Definition hg_proc_gen_cont_id_in_t : proc gen_cont_id_in_t := (
  cont_name ←- hg_string @ gen_cont_id_in_cont_name;
  hash_value ←- hg_uint32 @ gen_cont_id_in_hash_value;
  Done (λ _, Build_gen_cont_id_in_t cont_name hash_value))%proc.
Definition hg_proc_gen_cont_id_out_t : proc gen_cont_id_out_t := (
  cont_id ←- hg_uint64 @ gen_cont_id_out_cont_id;
  Done (λ _, Build_gen_cont_id_out_t cont_id))%proc.
Definition hg_proc_gen_obj_id_in_t : proc gen_obj_id_in_t := (
  data ←* hg_proc_pdc_metadata_transfer_t @ gen_obj_id_in_data;
  hash_value ←- hg_uint32 @ gen_obj_id_in_hash_value;
  data_type ←- hg_int8 @ gen_obj_id_in_data_type;
  Done (λ old, Build_gen_obj_id_in_t (data (gen_obj_id_in_data old)) hash_value data_type))%proc.
Definition hg_proc_gen_obj_id_out_t : proc gen_obj_id_out_t := (
  obj_id ←- hg_uint64 @ gen_obj_id_out_obj_id;
  Done (λ _, Build_gen_obj_id_out_t obj_id))%proc.
Definition hg_proc_server_lookup_remote_server_in_t : proc server_lookup_remote_server_in_t := (
  server_id ←- hg_int32 @ server_lookup_remote_server_in_server_id;
  Done (λ _, Build_server_lookup_remote_server_in_t server_id))%proc.
Definition hg_proc_server_lookup_remote_server_out_t : proc server_lookup_remote_server_out_t := (
  ret ←- hg_int32 @ server_lookup_remote_server_out_ret;
  Done (λ _, Build_server_lookup_remote_server_out_t ret))%proc.
Definition hg_proc_server_lookup_client_in_t : proc server_lookup_client_in_t := (
  server_id ←- hg_int32 @ server_lookup_client_in_server_id;
  nserver ←- hg_int32 @ server_lookup_client_in_nserver;
  server_addr ←- hg_string @ server_lookup_client_in_server_addr;
  Done (λ _, Build_server_lookup_client_in_t server_id nserver server_addr))%proc.
Definition hg_proc_server_lookup_client_out_t : proc server_lookup_client_out_t := (
  ret ←- hg_int32 @ server_lookup_client_out_ret;
  Done (λ _, Build_server_lookup_client_out_t ret))%proc.
Definition hg_proc_client_test_connect_in_t : proc client_test_connect_in_t := (
  client_id ←- hg_uint32 @ client_test_connect_in_client_id;
  nclient ←- hg_int32 @ client_test_connect_in_nclient;
  is_init ←- hg_int32 @ client_test_connect_in_is_init;
  client_addr ←- hg_string @ client_test_connect_in_client_addr;
  Done (λ _, Build_client_test_connect_in_t client_id nclient is_init client_addr))%proc.
Definition hg_proc_client_test_connect_out_t : proc client_test_connect_out_t := (
  ret ←- hg_int32 @ client_test_connect_out_ret;
  Done (λ _, Build_client_test_connect_out_t ret))%proc.
Definition hg_proc_notify_io_complete_in_t : proc notify_io_complete_in_t := (
  io_type ←- hg_int32 @ notify_io_complete_in_io_type;
  obj_id ←- hg_uint64 @ notify_io_complete_in_obj_id;
  shm_addr ←- hg_string @ notify_io_complete_in_shm_addr;
  Done (λ _, Build_notify_io_complete_in_t io_type obj_id shm_addr))%proc.
Definition hg_proc_notify_io_complete_out_t : proc notify_io_complete_out_t := (
  ret ←- hg_int32 @ notify_io_complete_out_ret;
  Done (λ _, Build_notify_io_complete_out_t ret))%proc.
Definition hg_proc_notify_region_update_in_t : proc notify_region_update_in_t := (
  obj_id ←- hg_uint64 @ notify_region_update_in_obj_id;
  reg_id ←- hg_uint64 @ notify_region_update_in_reg_id;
  Done (λ _, Build_notify_region_update_in_t obj_id reg_id))%proc.
Definition hg_proc_notify_region_update_out_t : proc notify_region_update_out_t := (
  ret ←- hg_int32 @ notify_region_update_out_ret;
  Done (λ _, Build_notify_region_update_out_t ret))%proc.
Definition hg_proc_flush_obj_all_in_t : proc flush_obj_all_in_t := (
  tag ←- hg_uint8 @ flush_obj_all_in_tag;
  Done (λ _, Build_flush_obj_all_in_t tag))%proc.
Definition hg_proc_flush_obj_all_out_t : proc flush_obj_all_out_t := (
  ret ←- hg_int32 @ flush_obj_all_out_ret;
  Done (λ _, Build_flush_obj_all_out_t ret))%proc.
Definition hg_proc_obj_reset_dims_in_t : proc obj_reset_dims_in_t := (
  obj_name ←- hg_string @ obj_reset_dims_in_obj_name;
  time_step ←- hg_int32 @ obj_reset_dims_in_time_step;
  hash_value ←- hg_uint32 @ obj_reset_dims_in_hash_value;
  ndim ←- hg_int32 @ obj_reset_dims_in_ndim;
  dims0 ←- hg_uint64 @ obj_reset_dims_in_dims0;
  dims1 ←- hg_uint64 @ obj_reset_dims_in_dims1;
  dims2 ←- hg_uint64 @ obj_reset_dims_in_dims2;
  Done (λ _, Build_obj_reset_dims_in_t obj_name hash_value time_step dims0 dims1 dims2 ndim))%proc.
Definition hg_proc_obj_reset_dims_out_t : proc obj_reset_dims_out_t := (
  ret ←- hg_int32 @ obj_reset_dims_out_ret;
  Done (λ _, Build_obj_reset_dims_out_t ret))%proc.
Definition hg_proc_flush_obj_in_t : proc flush_obj_in_t := (
  obj_id ←- hg_uint64 @ flush_obj_in_obj_id;
  Done (λ _, Build_flush_obj_in_t obj_id))%proc.
Definition hg_proc_flush_obj_out_t : proc flush_obj_out_t := (
  ret ←- hg_int32 @ flush_obj_out_ret;
  Done (λ _, Build_flush_obj_out_t ret))%proc.
Definition hg_proc_close_server_in_t : proc close_server_in_t := (
  client_id ←- hg_uint32 @ close_server_in_client_id;
  Done (λ _, Build_close_server_in_t client_id))%proc.
Definition hg_proc_close_server_out_t : proc close_server_out_t := (
  ret ←- hg_int32 @ close_server_out_ret;
  Done (λ _, Build_close_server_out_t ret))%proc.
Definition hg_proc_bulk_rpc_in_t : proc bulk_rpc_in_t := (
  obj_id ←- hg_uint64 @ bulk_rpc_in_obj_id;
  ndim ←- Uint32_as_int32 @ bulk_rpc_in_ndim;
  cnt ←- hg_uint64 @ bulk_rpc_in_cnt;
  total ←- hg_uint64 @ bulk_rpc_in_total;
  seq_id ←- hg_int32 @ bulk_rpc_in_seq_id;
  seq_id2 ←- hg_int32 @ bulk_rpc_in_seq_id2;
  origin ←- hg_int32 @ bulk_rpc_in_origin;
  op_id ←- hg_int32 @ bulk_rpc_in_op_id;
  data_type ←- hg_int32 @ bulk_rpc_in_data_type;
  if decide (0 < cnt) then (
    bulk_handle ←- hg_bulk @ bulk_rpc_in_bulk_handle;
    Done (λ _, Build_bulk_rpc_in_t cnt total origin seq_id seq_id2 op_id ndim obj_id data_type bulk_handle))%proc
  else Done (λ old, Build_bulk_rpc_in_t cnt total origin seq_id seq_id2 op_id ndim obj_id data_type (bulk_rpc_in_bulk_handle old)))%proc.
Definition hg_proc_bulk_rpc_out_t : proc bulk_rpc_out_t := (
  ret ←- hg_uint64 @ bulk_rpc_out_ret;
  Done (λ _, Build_bulk_rpc_out_t ret))%proc.
Definition hg_proc_get_remote_metadata_in_t : proc get_remote_metadata_in_t := (
  obj_id ←- hg_uint64 @ get_remote_metadata_in_obj_id;
  Done (λ _, Build_get_remote_metadata_in_t obj_id))%proc.
Definition hg_proc_get_remote_metadata_out_t : proc get_remote_metadata_out_t := (
  ret ←* hg_proc_pdc_metadata_transfer_t @ get_remote_metadata_out_ret;
  Done (λ old, Build_get_remote_metadata_out_t (ret (get_remote_metadata_out_ret old))))%proc.
Definition hg_proc_buf_map_in_t : proc buf_map_in_t := (
  meta_server_id ←- Uint32_as_int32 @ buf_map_in_meta_server_id;
  local_reg_id ←- hg_uint64 @ buf_map_in_local_reg_id;
  remote_obj_id ←- hg_uint64 @ buf_map_in_remote_obj_id;
  local_type ←- hg_uint8 @ (λ d, low_byte (buf_map_in_local_type d));
  remote_type ←- hg_uint8 @ (λ d, low_byte (buf_map_in_remote_type d));
  ndim ←- hg_size @ buf_map_in_ndim;
  remote_unit ←- hg_size @ buf_map_in_remote_unit;
  local_bulk_handle ←- hg_bulk @ buf_map_in_local_bulk_handle;
  remote_region_unit ←* hg_proc_region_info_transfer_t @ buf_map_in_remote_region_unit;
  remote_region_nounit ←* hg_proc_region_info_transfer_t @ buf_map_in_remote_region_nounit;
  local_region ←* hg_proc_region_info_transfer_t @ buf_map_in_local_region;
  Done (λ old, Build_buf_map_in_t meta_server_id local_reg_id remote_obj_id (set_low_byte (buf_map_in_local_type old) local_type) (set_low_byte (buf_map_in_remote_type old) remote_type) ndim remote_unit local_bulk_handle (remote_region_unit (buf_map_in_remote_region_unit old)) (remote_region_nounit (buf_map_in_remote_region_nounit old)) (local_region (buf_map_in_local_region old))))%proc.
Definition hg_proc_buf_map_out_t : proc buf_map_out_t := (
  ret ←- hg_int32 @ buf_map_out_ret;
  Done (λ _, Build_buf_map_out_t ret))%proc.
Definition hg_proc_transfer_request_in_t : proc transfer_request_in_t := (
  local_bulk_handle ←- hg_bulk @ transfer_request_in_local_bulk_handle;
  remote_region ←* hg_proc_region_info_transfer_t @ transfer_request_in_remote_region;
  obj_id ←- hg_uint64 @ transfer_request_in_obj_id;
  obj_dim0 ←- hg_uint64 @ transfer_request_in_obj_dim0;
  obj_dim1 ←- hg_uint64 @ transfer_request_in_obj_dim1;
  obj_dim2 ←- hg_uint64 @ transfer_request_in_obj_dim2;
  remote_unit ←- hg_size @ transfer_request_in_remote_unit;
  obj_ndim ←- hg_int32 @ transfer_request_in_obj_ndim;
  meta_server_id ←- hg_uint32 @ transfer_request_in_meta_server_id;
  access_type ←- hg_uint8 @ transfer_request_in_access_type;
  Done (λ old, Build_transfer_request_in_t local_bulk_handle (remote_region (transfer_request_in_remote_region old)) obj_id obj_dim0 obj_dim1 obj_dim2 remote_unit obj_ndim meta_server_id access_type))%proc.
Definition hg_proc_transfer_request_out_t : proc transfer_request_out_t := (
  metadata_id ←- hg_uint64 @ transfer_request_out_metadata_id;
  ret ←- hg_int32 @ transfer_request_out_ret;
  Done (λ _, Build_transfer_request_out_t metadata_id ret))%proc.
Definition hg_proc_transfer_request_status_in_t : proc transfer_request_status_in_t := (
  transfer_request_id ←- hg_uint64 @ transfer_request_status_in_transfer_request_id;
  Done (λ _, Build_transfer_request_status_in_t transfer_request_id))%proc.
Definition hg_proc_transfer_request_status_out_t : proc transfer_request_status_out_t := (
  status ←- hg_uint32 @ transfer_request_status_out_status;
  ret ←- hg_int32 @ transfer_request_status_out_ret;
  Done (λ _, Build_transfer_request_status_out_t status ret))%proc.
Definition hg_proc_transfer_request_wait_all_in_t : proc transfer_request_wait_all_in_t := (
  local_bulk_handle ←- hg_bulk @ transfer_request_wait_all_in_local_bulk_handle;
  total_buf_size ←- hg_uint64 @ transfer_request_wait_all_in_total_buf_size;
  n_objs ←- hg_int32 @ transfer_request_wait_all_in_n_objs;
  Done (λ _, Build_transfer_request_wait_all_in_t local_bulk_handle total_buf_size n_objs))%proc.
Definition hg_proc_transfer_request_wait_all_out_t : proc transfer_request_wait_all_out_t := (
  ret ←- hg_int32 @ transfer_request_wait_all_out_ret;
  Done (λ _, Build_transfer_request_wait_all_out_t ret))%proc.
Definition hg_proc_transfer_request_all_in_t : proc transfer_request_all_in_t := (
  local_bulk_handle ←- hg_bulk @ transfer_request_all_in_local_bulk_handle;
  total_buf_size ←- hg_uint64 @ transfer_request_all_in_total_buf_size;
  n_objs ←- hg_int32 @ transfer_request_all_in_n_objs;
  access_type ←- hg_uint8 @ transfer_request_all_in_access_type;
  client_id ←- hg_int32 @ transfer_request_all_in_client_id;
  Done (λ _, Build_transfer_request_all_in_t local_bulk_handle total_buf_size n_objs access_type client_id))%proc.
Definition hg_proc_transfer_request_all_out_t : proc transfer_request_all_out_t := (
  metadata_id ←- hg_uint64 @ transfer_request_all_out_metadata_id;
  ret ←- hg_int32 @ transfer_request_all_out_ret;
  Done (λ _, Build_transfer_request_all_out_t metadata_id ret))%proc.
Definition hg_proc_transfer_request_metadata_query_in_t : proc transfer_request_metadata_query_in_t := (
  local_bulk_handle ←- hg_bulk @ transfer_request_metadata_query_in_local_bulk_handle;
  total_buf_size ←- hg_uint64 @ transfer_request_metadata_query_in_total_buf_size;
  n_objs ←- hg_int32 @ transfer_request_metadata_query_in_n_objs;
  is_write ←- hg_uint8 @ transfer_request_metadata_query_in_is_write;
  Done (λ _, Build_transfer_request_metadata_query_in_t local_bulk_handle total_buf_size n_objs is_write))%proc.
Definition hg_proc_transfer_request_metadata_query_out_t : proc transfer_request_metadata_query_out_t := (
  query_id ←- hg_uint64 @ transfer_request_metadata_query_out_query_id;
  total_buf_size ←- hg_uint64 @ transfer_request_metadata_query_out_total_buf_size;
  ret ←- hg_int32 @ transfer_request_metadata_query_out_ret;
  Done (λ _, Build_transfer_request_metadata_query_out_t query_id total_buf_size ret))%proc.
Definition hg_proc_transfer_request_metadata_query2_in_t : proc transfer_request_metadata_query2_in_t := (
  local_bulk_handle ←- hg_bulk @ transfer_request_metadata_query2_in_local_bulk_handle;
  total_buf_size ←- hg_uint64 @ transfer_request_metadata_query2_in_total_buf_size;
  query_id ←- hg_uint64 @ transfer_request_metadata_query2_in_query_id;
  Done (λ _, Build_transfer_request_metadata_query2_in_t local_bulk_handle total_buf_size query_id))%proc.
Definition hg_proc_transfer_request_metadata_query2_out_t : proc transfer_request_metadata_query2_out_t := (
  ret ←- hg_int32 @ transfer_request_metadata_query2_out_ret;
  Done (λ _, Build_transfer_request_metadata_query2_out_t ret))%proc.
Definition hg_proc_transfer_request_wait_in_t : proc transfer_request_wait_in_t := (
  access_type ←- hg_int32 @ transfer_request_wait_in_access_type;
  transfer_request_id ←- hg_uint64 @ transfer_request_wait_in_transfer_request_id;
  Done (λ _, Build_transfer_request_wait_in_t transfer_request_id access_type))%proc.
Definition hg_proc_transfer_request_wait_out_t : proc transfer_request_wait_out_t := (
  ret ←- hg_int32 @ transfer_request_wait_out_ret;
  Done (λ _, Build_transfer_request_wait_out_t ret))%proc.
Definition hg_proc_buf_unmap_in_t : proc buf_unmap_in_t := (
  meta_server_id ←- hg_uint32 @ buf_unmap_in_meta_server_id;
  remote_obj_id ←- hg_uint64 @ buf_unmap_in_remote_obj_id;
  remote_reg_id ←- hg_uint64 @ buf_unmap_in_remote_reg_id;
  remote_region ←* hg_proc_region_info_transfer_t @ buf_unmap_in_remote_region;
  Done (λ old, Build_buf_unmap_in_t meta_server_id remote_obj_id remote_reg_id (remote_region (buf_unmap_in_remote_region old))))%proc.
Definition hg_proc_buf_unmap_out_t : proc buf_unmap_out_t := (
  ret ←- hg_int32 @ buf_unmap_out_ret;
  Done (λ _, Build_buf_unmap_out_t ret))%proc.
Definition hg_proc_data_server_read_in_t : proc data_server_read_in_t := (
  client_id ←- hg_uint32 @ data_server_read_in_client_id;
  nclient ←- hg_int32 @ data_server_read_in_nclient;
  nupdate ←- hg_int32 @ data_server_read_in_nupdate;
  meta ←* hg_proc_pdc_metadata_transfer_t @ data_server_read_in_meta;
  region ←* hg_proc_region_info_transfer_t @ data_server_read_in_region;
  cache_percentage ←- hg_int32 @ data_server_read_in_cache_percentage;
  Done (λ old, Build_data_server_read_in_t client_id nclient nupdate (meta (data_server_read_in_meta old)) (region (data_server_read_in_region old)) cache_percentage))%proc.
Definition hg_proc_data_server_read_out_t : proc data_server_read_out_t := (
  ret ←- hg_int32 @ data_server_read_out_ret;
  Done (λ _, Build_data_server_read_out_t ret))%proc.
Definition hg_proc_data_server_write_in_t : proc data_server_write_in_t := (
  client_id ←- hg_uint32 @ data_server_write_in_client_id;
  nclient ←- hg_int32 @ data_server_write_in_nclient;
  nupdate ←- hg_int32 @ data_server_write_in_nupdate;
  shm_addr ←- hg_string @ data_server_write_in_shm_addr;
  meta ←* hg_proc_pdc_metadata_transfer_t @ data_server_write_in_meta;
  region ←* hg_proc_region_info_transfer_t @ data_server_write_in_region;
  Done (λ old, Build_data_server_write_in_t client_id nclient nupdate shm_addr (meta (data_server_write_in_meta old)) (region (data_server_write_in_region old))))%proc.
Definition hg_proc_data_server_write_out_t : proc data_server_write_out_t := (
  ret ←- hg_int32 @ data_server_write_out_ret;
  Done (λ _, Build_data_server_write_out_t ret))%proc.
Definition hg_proc_data_server_read_check_in_t : proc data_server_read_check_in_t := (
  client_id ←- hg_uint32 @ data_server_read_check_in_client_id;
  meta ←* hg_proc_pdc_metadata_transfer_t @ data_server_read_check_in_meta;
  region ←* hg_proc_region_info_transfer_t @ data_server_read_check_in_region;
  Done (λ old, Build_data_server_read_check_in_t client_id (meta (data_server_read_check_in_meta old)) (region (data_server_read_check_in_region old))))%proc.
Definition hg_proc_data_server_read_check_out_t : proc data_server_read_check_out_t := (
  ret ←- hg_int32 @ data_server_read_check_out_ret;
  shm_addr ←- hg_string @ data_server_read_check_out_shm_addr;
  Done (λ _, Build_data_server_read_check_out_t ret shm_addr))%proc.
Definition hg_proc_data_server_write_check_in_t : proc data_server_write_check_in_t := (
  client_id ←- hg_uint32 @ data_server_write_check_in_client_id;
  meta ←* hg_proc_pdc_metadata_transfer_t @ data_server_write_check_in_meta;
  region ←* hg_proc_region_info_transfer_t @ data_server_write_check_in_region;
  Done (λ old, Build_data_server_write_check_in_t client_id (meta (data_server_write_check_in_meta old)) (region (data_server_write_check_in_region old))))%proc.
Definition hg_proc_data_server_write_check_out_t : proc data_server_write_check_out_t := (
  ret ←- hg_int32 @ data_server_write_check_out_ret;
  Done (λ _, Build_data_server_write_check_out_t ret))%proc.
Definition hg_proc_pdc_histogram_t : proc pdc_histogram_t := (
  dtype ←- hg_int32 @ pdc_histogram_dtype;
  nbin ←- hg_int32 @ pdc_histogram_nbin;
  incr ←- hg_int64 @ pdc_histogram_incr;
  if decide (0 < nbin) then (
    range ←- (hg_raw (nbin * 8 * 2)) @ pdc_histogram_range;
    bin ←- (hg_raw (nbin * 8)) @ pdc_histogram_bin;
    Done (λ _, Build_pdc_histogram_t dtype nbin incr range bin))%proc
  else Done (λ old, Build_pdc_histogram_t dtype nbin incr (pdc_histogram_range old) (pdc_histogram_bin old)))%proc.
Definition hg_proc_update_region_loc_in_t : proc update_region_loc_in_t := (
  obj_id ←- hg_uint64 @ update_region_loc_in_obj_id;
  storage_location ←- hg_string @ update_region_loc_in_storage_location;
  offset ←- hg_uint64 @ update_region_loc_in_offset;
  type_ ←- Int32_as_uint32 @ update_region_loc_in_type;
  region ←* hg_proc_region_info_transfer_t @ update_region_loc_in_region;
  has_hist ←- hg_int32 @ update_region_loc_in_has_hist;
  if decide (has_hist = 1) then (
    hist ←* hg_proc_pdc_histogram_t @ update_region_loc_in_hist;
    Done (λ old, Build_update_region_loc_in_t obj_id storage_location offset (region (update_region_loc_in_region old)) type_ has_hist (hist (update_region_loc_in_hist old))))%proc
  else Done (λ old, Build_update_region_loc_in_t obj_id storage_location offset (region (update_region_loc_in_region old)) type_ has_hist (update_region_loc_in_hist old)))%proc.
Definition hg_proc_update_region_loc_out_t : proc update_region_loc_out_t := (
  ret ←- hg_int32 @ update_region_loc_out_ret;
  Done (λ _, Build_update_region_loc_out_t ret))%proc.
Definition hg_proc_get_metadata_by_id_in_t : proc get_metadata_by_id_in_t := (
  obj_id ←- hg_uint64 @ get_metadata_by_id_in_obj_id;
  Done (λ _, Build_get_metadata_by_id_in_t obj_id))%proc.
Definition hg_proc_get_metadata_by_id_out_t : proc get_metadata_by_id_out_t := (
  res_meta ←* hg_proc_pdc_metadata_transfer_t @ get_metadata_by_id_out_res_meta;
  Done (λ old, Build_get_metadata_by_id_out_t (res_meta (get_metadata_by_id_out_res_meta old))))%proc.
Definition hg_proc_pdc_serialized_data_t : proc pdc_serialized_data_t := (
  buf ←- hg_string @ pdc_serialized_data_buf;
  Done (λ _, Build_pdc_serialized_data_t buf))%proc.
Definition hg_proc_get_storage_info_single_out_t : proc get_storage_info_single_out_t := (
  region_transfer ←* hg_proc_region_info_transfer_t @ get_storage_info_single_out_region_transfer;
  storage_loc ←- hg_string @ get_storage_info_single_out_storage_loc;
  file_offset ←- hg_uint64 @ get_storage_info_single_out_file_offset;
  Done (λ old, Build_get_storage_info_single_out_t (region_transfer (get_storage_info_single_out_region_transfer old)) storage_loc file_offset))%proc.
Definition hg_proc_get_storage_info_in_t : proc get_storage_info_in_t := (
  obj_id ←- hg_uint64 @ get_storage_info_in_obj_id;
  req_region ←* hg_proc_region_info_transfer_t @ get_storage_info_in_req_region;
  Done (λ old, Build_get_storage_info_in_t obj_id (req_region (get_storage_info_in_req_region old))))%proc.
Definition hg_proc_pdc_int_send_t : proc pdc_int_send_t := (
  origin ←- hg_int32 @ pdc_int_send_origin;
  Done (λ _, Build_pdc_int_send_t origin))%proc.
Definition hg_proc_pdc_int_ret_t : proc pdc_int_ret_t := (
  ret ←- hg_int32 @ pdc_int_ret_ret;
  Done (λ _, Build_pdc_int_ret_t ret))%proc.
Definition hg_proc_pdc_aggregated_io_to_server_t : proc pdc_aggregated_io_to_server_t := (
  buf ←- hg_string @ pdc_aggregated_io_to_server_buf;
  meta ←* hg_proc_pdc_metadata_transfer_t @ pdc_aggregated_io_to_server_meta;
  Done (λ old, Build_pdc_aggregated_io_to_server_t buf (meta (pdc_aggregated_io_to_server_meta old))))%proc.
Definition hg_proc_cont_add_del_objs_rpc_in_t : proc cont_add_del_objs_rpc_in_t := (
  op ←- hg_int32 @ cont_add_del_objs_rpc_in_op;
  cnt ←- hg_int32 @ cont_add_del_objs_rpc_in_cnt;
  origin ←- hg_int32 @ cont_add_del_objs_rpc_in_origin;
  cont_id ←- hg_uint64 @ cont_add_del_objs_rpc_in_cont_id;
  bulk_handle ←- hg_bulk @ cont_add_del_objs_rpc_in_bulk_handle;
  Done (λ _, Build_cont_add_del_objs_rpc_in_t op cnt origin cont_id bulk_handle))%proc.
Definition hg_proc_cont_add_del_objs_rpc_out_t : proc cont_add_del_objs_rpc_out_t := (
  ret ←- hg_uint32 @ cont_add_del_objs_rpc_out_ret;
  Done (λ _, Build_cont_add_del_objs_rpc_out_t ret))%proc.
Definition hg_proc_cont_add_tags_rpc_in_t : proc cont_add_tags_rpc_in_t := (
  cont_id ←- hg_uint64 @ cont_add_tags_rpc_in_cont_id;
  tags ←- hg_string @ cont_add_tags_rpc_in_tags;
  Done (λ _, Build_cont_add_tags_rpc_in_t cont_id tags))%proc.
Definition hg_proc_query_read_obj_name_in_t : proc query_read_obj_name_in_t := (
  client_seq_id ←- hg_int32 @ query_read_obj_name_in_client_seq_id;
  cnt ←- hg_int32 @ query_read_obj_name_in_cnt;
  total_size ←- hg_int32 @ query_read_obj_name_in_total_size;
  origin ←- hg_int32 @ query_read_obj_name_in_origin;
  bulk_handle ←- hg_bulk @ query_read_obj_name_in_bulk_handle;
  Done (λ _, Build_query_read_obj_name_in_t client_seq_id cnt total_size origin bulk_handle))%proc.
Definition hg_proc_query_read_obj_name_out_t : proc query_read_obj_name_out_t := (
  ret ←- hg_uint32 @ query_read_obj_name_out_ret;
  Done (λ _, Build_query_read_obj_name_out_t ret))%proc.
Definition hg_proc_container_query_in_t : proc container_query_in_t := (
  cont_name ←- hg_string @ container_query_in_cont_name;
  hash_value ←- hg_uint32 @ container_query_in_hash_value;
  Done (λ _, Build_container_query_in_t cont_name hash_value))%proc.
Definition hg_proc_container_query_out_t : proc container_query_out_t := (
  cont_id ←- hg_uint64 @ container_query_out_cont_id;
  Done (λ _, Build_container_query_out_t cont_id))%proc.
Definition hg_proc_storage_meta_name_query_in_t : proc storage_meta_name_query_in_t := (
  obj_name ←- hg_string @ storage_meta_name_query_in_obj_name;
  task_id ←- hg_int32 @ storage_meta_name_query_in_task_id;
  origin_id ←- hg_int32 @ storage_meta_name_query_in_origin_id;
  Done (λ _, Build_storage_meta_name_query_in_t obj_name task_id origin_id))%proc.
Definition hg_proc_get_sel_data_rpc_in_t : proc get_sel_data_rpc_in_t := (
  obj_id ←- hg_uint64 @ get_sel_data_rpc_in_obj_id;
  origin ←- hg_int32 @ get_sel_data_rpc_in_origin;
  query_id ←- hg_int32 @ get_sel_data_rpc_in_query_id;
  Done (λ _, Build_get_sel_data_rpc_in_t query_id obj_id origin))%proc.
Definition hg_proc_send_nhits_t : proc send_nhits_t := (
  query_id ←- hg_int32 @ send_nhits_query_id;
  nhits ←- hg_uint64 @ send_nhits_nhits;
  Done (λ _, Build_send_nhits_t query_id nhits))%proc.
Definition hg_proc_query_storage_region_transfer_t : proc query_storage_region_transfer_t := (
  origin ←- hg_int32 @ query_storage_region_transfer_origin;
  total_region ←- hg_int32 @ query_storage_region_transfer_total_region;
  op ←- hg_int32 @ query_storage_region_transfer_op;
  is_done ←- hg_int32 @ query_storage_region_transfer_is_done;
  data_type ←- hg_int32 @ query_storage_region_transfer_data_type;
  query_id ←- hg_int32 @ query_storage_region_transfer_query_id;
  manager ←- hg_int32 @ query_storage_region_transfer_manager;
  obj_id ←- hg_uint64 @ query_storage_region_transfer_obj_id;
  region_transfer ←* hg_proc_region_info_transfer_t @ query_storage_region_transfer_region_transfer;
  storage_location ←- hg_string @ query_storage_region_transfer_storage_location;
  offset ←- hg_uint64 @ query_storage_region_transfer_offset;
  size ←- hg_uint64 @ query_storage_region_transfer_size;
  has_hist ←- hg_int32 @ query_storage_region_transfer_has_hist;
  if decide (has_hist = 1) then (
    hist ←* hg_proc_pdc_histogram_t @ query_storage_region_transfer_hist;
    Done (λ old, Build_query_storage_region_transfer_t origin total_region is_done query_id manager obj_id (region_transfer (query_storage_region_transfer_region_transfer old)) storage_location offset size has_hist data_type op (hist (query_storage_region_transfer_hist old))))%proc
  else Done (λ old, Build_query_storage_region_transfer_t origin total_region is_done query_id manager obj_id (region_transfer (query_storage_region_transfer_region_transfer old)) storage_location offset size has_hist data_type op (query_storage_region_transfer_hist old)))%proc.
Definition hg_proc_dart_get_server_info_in_t : proc dart_get_server_info_in_t := (
  serverId ←- hg_uint32 @ dart_get_server_info_in_serverId;
  Done (λ _, Build_dart_get_server_info_in_t serverId))%proc.
Definition hg_proc_dart_get_server_info_out_t : proc dart_get_server_info_out_t := (
  indexed_word_count ←- hg_int64 @ dart_get_server_info_out_indexed_word_count;
  request_count ←- hg_int64 @ dart_get_server_info_out_request_count;
  Done (λ _, Build_dart_get_server_info_out_t indexed_word_count request_count))%proc.
Definition hg_proc_dart_perform_one_server_in_t : proc dart_perform_one_server_in_t := (
  op_type ←- hg_int8 @ dart_perform_one_server_in_op_type;
  hash_algo ←- hg_int8 @ dart_perform_one_server_in_hash_algo;
  attr_key ←- hg_string @ dart_perform_one_server_in_attr_key;
  attr_vsize ←- hg_uint32 @ dart_perform_one_server_in_attr_vsize;
  attr_vtype ←- hg_uint8 @ dart_perform_one_server_in_attr_vtype;
  vnode_id ←- hg_uint64 @ dart_perform_one_server_in_vnode_id;
  obj_ref_type ←- hg_int8 @ dart_perform_one_server_in_obj_ref_type;
  obj_primary_ref ←- hg_uint64 @ dart_perform_one_server_in_obj_primary_ref;
  obj_secondary_ref ←- hg_uint64 @ dart_perform_one_server_in_obj_secondary_ref;
  obj_server_ref ←- hg_uint64 @ dart_perform_one_server_in_obj_server_ref;
  inserting_suffix ←- hg_int8 @ dart_perform_one_server_in_inserting_suffix;
  timestamp ←- hg_int64 @ dart_perform_one_server_in_timestamp;
  src_client_id ←- hg_uint32 @ dart_perform_one_server_in_src_client_id;
  if decide (attr_vsize = 0) then Done (λ old, Build_dart_perform_one_server_in_t op_type hash_algo attr_key attr_vsize attr_vtype (dart_perform_one_server_in_attr_val old) vnode_id obj_ref_type obj_primary_ref obj_secondary_ref obj_server_ref inserting_suffix timestamp src_client_id)
  else (
    attr_val ←- (hg_raw attr_vsize) @ dart_perform_one_server_in_attr_val;
    Done (λ _, Build_dart_perform_one_server_in_t op_type hash_algo attr_key attr_vsize attr_vtype attr_val vnode_id obj_ref_type obj_primary_ref obj_secondary_ref obj_server_ref inserting_suffix timestamp src_client_id))%proc)%proc.
Definition hg_proc_dart_perform_one_server_out_t : proc dart_perform_one_server_out_t := (
  op_type ←- hg_int8 @ dart_perform_one_server_out_op_type;
  ret ←- hg_int32 @ dart_perform_one_server_out_ret;
  bulk_handle ←- hg_bulk @ dart_perform_one_server_out_bulk_handle;
  indexed_word_count ←- hg_int64 @ dart_perform_one_server_out_indexed_word_count;
  request_count ←- hg_int64 @ dart_perform_one_server_out_request_count;
  has_bulk ←- hg_int8 @ dart_perform_one_server_out_has_bulk;
  n_items ←- hg_int64 @ dart_perform_one_server_out_n_items;
  timestamp ←- hg_int64 @ dart_perform_one_server_out_timestamp;
  server_time_elapsed ←- hg_int64 @ dart_perform_one_server_out_server_time_elapsed;
  server_memory_consumption ←- hg_int64 @ dart_perform_one_server_out_server_memory_consumption;
  Done (λ _, Build_dart_perform_one_server_out_t op_type ret bulk_handle indexed_word_count request_count has_bulk n_items timestamp server_time_elapsed server_memory_consumption))%proc.
Definition hg_proc_pdc_query_xfer_t : proc pdc_query_xfer_t := (
  query_id ←- hg_int32 @ pdc_query_xfer_query_id;
  client_id ←- hg_int32 @ pdc_query_xfer_client_id;
  get_op ←- hg_int32 @ pdc_query_xfer_get_op;
  manager ←- hg_int32 @ pdc_query_xfer_manager;
  n_unique_obj ←- hg_int32 @ pdc_query_xfer_n_unique_obj;
  query_op ←- hg_int32 @ pdc_query_xfer_query_op;
  next_server_id ←- hg_int32 @ pdc_query_xfer_next_server_id;
  prev_server_id ←- hg_int32 @ pdc_query_xfer_prev_server_id;
  n_constraints ←- hg_int32 @ pdc_query_xfer_n_constraints;
  n_combine_ops ←- hg_int32 @ pdc_query_xfer_n_combine_ops;
  region ←* hg_proc_region_info_transfer_t @ pdc_query_xfer_region;
  if decide (0 < n_constraints) then (
    combine_ops ←- (hg_raw (n_combine_ops *w 4)) @ pdc_query_xfer_combine_ops;
    constraints ←- (hg_raw (n_constraints *w 72)) @ pdc_query_xfer_constraints;
    Done (λ old, Build_pdc_query_xfer_t query_id manager client_id n_unique_obj query_op n_combine_ops combine_ops n_constraints get_op next_server_id prev_server_id constraints (region (pdc_query_xfer_region old))))%proc
  else Done (λ old, Build_pdc_query_xfer_t query_id manager client_id n_unique_obj query_op n_combine_ops (pdc_query_xfer_combine_ops old) n_constraints get_op next_server_id prev_server_id (pdc_query_xfer_constraints old) (region (pdc_query_xfer_region old))))%proc.
Definition hg_proc_send_shm_in_t : proc send_shm_in_t := (
  client_id ←- hg_uint32 @ send_shm_in_client_id;
  shm_addr ←- hg_string @ send_shm_in_shm_addr;
  size ←- hg_uint64 @ send_shm_in_size;
  Done (λ _, Build_send_shm_in_t client_id shm_addr size))%proc.

(** * All messages *)

Inductive message_kind :=
| msg_pdc_kvtag
| msg_region_info_transfer
| msg_region_lock_in
| msg_region_lock_out
| msg_region_transform_and_lock_in
| msg_region_analysis_and_lock_in
| msg_metadata_query_transfer_in
| msg_metadata_query_transfer_out
| msg_pdc_metadata_transfer
| msg_send_rpc_in
| msg_send_rpc_out
| msg_metadata_add_tag_in
| msg_metadata_get_kvtag_in
| msg_metadata_add_tag_out
| msg_metadata_get_kvtag_out
| msg_metadata_add_kvtag_in
| msg_metadata_update_in
| msg_metadata_update_out
| msg_metadata_delete_by_id_in
| msg_metadata_delete_by_id_out
| msg_metadata_delete_in
| msg_metadata_delete_out
| msg_metadata_query_in
| msg_metadata_query_out
| msg_gen_cont_id_in
| msg_gen_cont_id_out
| msg_gen_obj_id_in
| msg_gen_obj_id_out
| msg_server_lookup_remote_server_in
| msg_server_lookup_remote_server_out
| msg_server_lookup_client_in
| msg_server_lookup_client_out
| msg_client_test_connect_in
| msg_client_test_connect_out
| msg_notify_io_complete_in
| msg_notify_io_complete_out
| msg_notify_region_update_in
| msg_notify_region_update_out
| msg_flush_obj_all_in
| msg_flush_obj_all_out
| msg_obj_reset_dims_in
| msg_obj_reset_dims_out
| msg_flush_obj_in
| msg_flush_obj_out
| msg_close_server_in
| msg_close_server_out
| msg_bulk_rpc_in
| msg_bulk_rpc_out
| msg_get_remote_metadata_in
| msg_get_remote_metadata_out
| msg_buf_map_in
| msg_buf_map_out
| msg_transfer_request_in
| msg_transfer_request_out
| msg_transfer_request_status_in
| msg_transfer_request_status_out
| msg_transfer_request_wait_all_in
| msg_transfer_request_wait_all_out
| msg_transfer_request_all_in
| msg_transfer_request_all_out
| msg_transfer_request_metadata_query_in
| msg_transfer_request_metadata_query_out
| msg_transfer_request_metadata_query2_in
| msg_transfer_request_metadata_query2_out
| msg_transfer_request_wait_in
| msg_transfer_request_wait_out
| msg_buf_unmap_in
| msg_buf_unmap_out
| msg_data_server_read_in
| msg_data_server_read_out
| msg_data_server_write_in
| msg_data_server_write_out
| msg_data_server_read_check_in
| msg_data_server_read_check_out
| msg_data_server_write_check_in
| msg_data_server_write_check_out
| msg_pdc_histogram
| msg_update_region_loc_in
| msg_update_region_loc_out
| msg_get_metadata_by_id_in
| msg_get_metadata_by_id_out
| msg_pdc_serialized_data
| msg_get_storage_info_single_out
| msg_get_storage_info_in
| msg_pdc_int_send
| msg_pdc_int_ret
| msg_pdc_aggregated_io_to_server
| msg_cont_add_del_objs_rpc_in
| msg_cont_add_del_objs_rpc_out
| msg_cont_add_tags_rpc_in
| msg_query_read_obj_name_in
| msg_query_read_obj_name_out
| msg_container_query_in
| msg_container_query_out
| msg_storage_meta_name_query_in
| msg_get_sel_data_rpc_in
| msg_send_nhits
| msg_query_storage_region_transfer
| msg_dart_get_server_info_in
| msg_dart_get_server_info_out
| msg_dart_perform_one_server_in
| msg_dart_perform_one_server_out
| msg_pdc_query_xfer
| msg_send_shm_in.
Definition message (k : message_kind) : Type :=
  match k with
  | msg_pdc_kvtag => pdc_kvtag_t
  | msg_region_info_transfer => region_info_transfer_t
  | msg_region_lock_in => region_lock_in_t
  | msg_region_lock_out => region_lock_out_t
  | msg_region_transform_and_lock_in => region_transform_and_lock_in_t
  | msg_region_analysis_and_lock_in => region_analysis_and_lock_in_t
  | msg_metadata_query_transfer_in => metadata_query_transfer_in_t
  | msg_metadata_query_transfer_out => metadata_query_transfer_out_t
  | msg_pdc_metadata_transfer => pdc_metadata_transfer_t
  | msg_send_rpc_in => send_rpc_in_t
  | msg_send_rpc_out => send_rpc_out_t
  | msg_metadata_add_tag_in => metadata_add_tag_in_t
  | msg_metadata_get_kvtag_in => metadata_get_kvtag_in_t
  | msg_metadata_add_tag_out => metadata_add_tag_out_t
  | msg_metadata_get_kvtag_out => metadata_get_kvtag_out_t
  | msg_metadata_add_kvtag_in => metadata_add_kvtag_in_t
  | msg_metadata_update_in => metadata_update_in_t
  | msg_metadata_update_out => metadata_update_out_t
  | msg_metadata_delete_by_id_in => metadata_delete_by_id_in_t
  | msg_metadata_delete_by_id_out => metadata_delete_by_id_out_t
  | msg_metadata_delete_in => metadata_delete_in_t
  | msg_metadata_delete_out => metadata_delete_out_t
  | msg_metadata_query_in => metadata_query_in_t
  | msg_metadata_query_out => metadata_query_out_t
  | msg_gen_cont_id_in => gen_cont_id_in_t
  | msg_gen_cont_id_out => gen_cont_id_out_t
  | msg_gen_obj_id_in => gen_obj_id_in_t
  | msg_gen_obj_id_out => gen_obj_id_out_t
  | msg_server_lookup_remote_server_in => server_lookup_remote_server_in_t
  | msg_server_lookup_remote_server_out => server_lookup_remote_server_out_t
  | msg_server_lookup_client_in => server_lookup_client_in_t
  | msg_server_lookup_client_out => server_lookup_client_out_t
  | msg_client_test_connect_in => client_test_connect_in_t
  | msg_client_test_connect_out => client_test_connect_out_t
  | msg_notify_io_complete_in => notify_io_complete_in_t
  | msg_notify_io_complete_out => notify_io_complete_out_t
  | msg_notify_region_update_in => notify_region_update_in_t
  | msg_notify_region_update_out => notify_region_update_out_t
  | msg_flush_obj_all_in => flush_obj_all_in_t
  | msg_flush_obj_all_out => flush_obj_all_out_t
  | msg_obj_reset_dims_in => obj_reset_dims_in_t
  | msg_obj_reset_dims_out => obj_reset_dims_out_t
  | msg_flush_obj_in => flush_obj_in_t
  | msg_flush_obj_out => flush_obj_out_t
  | msg_close_server_in => close_server_in_t
  | msg_close_server_out => close_server_out_t
  | msg_bulk_rpc_in => bulk_rpc_in_t
  | msg_bulk_rpc_out => bulk_rpc_out_t
  | msg_get_remote_metadata_in => get_remote_metadata_in_t
  | msg_get_remote_metadata_out => get_remote_metadata_out_t
  | msg_buf_map_in => buf_map_in_t
  | msg_buf_map_out => buf_map_out_t
  | msg_transfer_request_in => transfer_request_in_t
  | msg_transfer_request_out => transfer_request_out_t
  | msg_transfer_request_status_in => transfer_request_status_in_t
  | msg_transfer_request_status_out => transfer_request_status_out_t
  | msg_transfer_request_wait_all_in => transfer_request_wait_all_in_t
  | msg_transfer_request_wait_all_out => transfer_request_wait_all_out_t
  | msg_transfer_request_all_in => transfer_request_all_in_t
  | msg_transfer_request_all_out => transfer_request_all_out_t
  | msg_transfer_request_metadata_query_in => transfer_request_metadata_query_in_t
  | msg_transfer_request_metadata_query_out => transfer_request_metadata_query_out_t
  | msg_transfer_request_metadata_query2_in => transfer_request_metadata_query2_in_t
  | msg_transfer_request_metadata_query2_out => transfer_request_metadata_query2_out_t
  | msg_transfer_request_wait_in => transfer_request_wait_in_t
  | msg_transfer_request_wait_out => transfer_request_wait_out_t
  | msg_buf_unmap_in => buf_unmap_in_t
  | msg_buf_unmap_out => buf_unmap_out_t
  | msg_data_server_read_in => data_server_read_in_t
  | msg_data_server_read_out => data_server_read_out_t
  | msg_data_server_write_in => data_server_write_in_t
  | msg_data_server_write_out => data_server_write_out_t
  | msg_data_server_read_check_in => data_server_read_check_in_t
  | msg_data_server_read_check_out => data_server_read_check_out_t
  | msg_data_server_write_check_in => data_server_write_check_in_t
  | msg_data_server_write_check_out => data_server_write_check_out_t
  | msg_pdc_histogram => pdc_histogram_t
  | msg_update_region_loc_in => update_region_loc_in_t
  | msg_update_region_loc_out => update_region_loc_out_t
  | msg_get_metadata_by_id_in => get_metadata_by_id_in_t
  | msg_get_metadata_by_id_out => get_metadata_by_id_out_t
  | msg_pdc_serialized_data => pdc_serialized_data_t
  | msg_get_storage_info_single_out => get_storage_info_single_out_t
  | msg_get_storage_info_in => get_storage_info_in_t
  | msg_pdc_int_send => pdc_int_send_t
  | msg_pdc_int_ret => pdc_int_ret_t
  | msg_pdc_aggregated_io_to_server => pdc_aggregated_io_to_server_t
  | msg_cont_add_del_objs_rpc_in => cont_add_del_objs_rpc_in_t
  | msg_cont_add_del_objs_rpc_out => cont_add_del_objs_rpc_out_t
  | msg_cont_add_tags_rpc_in => cont_add_tags_rpc_in_t
  | msg_query_read_obj_name_in => query_read_obj_name_in_t
  | msg_query_read_obj_name_out => query_read_obj_name_out_t
  | msg_container_query_in => container_query_in_t
  | msg_container_query_out => container_query_out_t
  | msg_storage_meta_name_query_in => storage_meta_name_query_in_t
  | msg_get_sel_data_rpc_in => get_sel_data_rpc_in_t
  | msg_send_nhits => send_nhits_t
  | msg_query_storage_region_transfer => query_storage_region_transfer_t
  | msg_dart_get_server_info_in => dart_get_server_info_in_t
  | msg_dart_get_server_info_out => dart_get_server_info_out_t
  | msg_dart_perform_one_server_in => dart_perform_one_server_in_t
  | msg_dart_perform_one_server_out => dart_perform_one_server_out_t
  | msg_pdc_query_xfer => pdc_query_xfer_t
  | msg_send_shm_in => send_shm_in_t
  end.
Definition message_proc (k : message_kind) : proc (message k) :=
  match k with
  | msg_pdc_kvtag => hg_proc_pdc_kvtag_t
  | msg_region_info_transfer => hg_proc_region_info_transfer_t
  | msg_region_lock_in => hg_proc_region_lock_in_t
  | msg_region_lock_out => hg_proc_region_lock_out_t
  | msg_region_transform_and_lock_in => hg_proc_region_transform_and_lock_in_t
  | msg_region_analysis_and_lock_in => hg_proc_region_analysis_and_lock_in_t
  | msg_metadata_query_transfer_in => hg_proc_metadata_query_transfer_in_t
  | msg_metadata_query_transfer_out => hg_proc_metadata_query_transfer_out_t
  | msg_pdc_metadata_transfer => hg_proc_pdc_metadata_transfer_t
  | msg_send_rpc_in => hg_proc_send_rpc_in_t
  | msg_send_rpc_out => hg_proc_send_rpc_out_t
  | msg_metadata_add_tag_in => hg_proc_metadata_add_tag_in_t
  | msg_metadata_get_kvtag_in => hg_proc_metadata_get_kvtag_in_t
  | msg_metadata_add_tag_out => hg_proc_metadata_add_tag_out_t
  | msg_metadata_get_kvtag_out => hg_proc_metadata_get_kvtag_out_t
  | msg_metadata_add_kvtag_in => hg_proc_metadata_add_kvtag_in_t
  | msg_metadata_update_in => hg_proc_metadata_update_in_t
  | msg_metadata_update_out => hg_proc_metadata_update_out_t
  | msg_metadata_delete_by_id_in => hg_proc_metadata_delete_by_id_in_t
  | msg_metadata_delete_by_id_out => hg_proc_metadata_delete_by_id_out_t
  | msg_metadata_delete_in => hg_proc_metadata_delete_in_t
  | msg_metadata_delete_out => hg_proc_metadata_delete_out_t
  | msg_metadata_query_in => hg_proc_metadata_query_in_t
  | msg_metadata_query_out => hg_proc_metadata_query_out_t
  | msg_gen_cont_id_in => hg_proc_gen_cont_id_in_t
  | msg_gen_cont_id_out => hg_proc_gen_cont_id_out_t
  | msg_gen_obj_id_in => hg_proc_gen_obj_id_in_t
  | msg_gen_obj_id_out => hg_proc_gen_obj_id_out_t
  | msg_server_lookup_remote_server_in => hg_proc_server_lookup_remote_server_in_t
  | msg_server_lookup_remote_server_out => hg_proc_server_lookup_remote_server_out_t
  | msg_server_lookup_client_in => hg_proc_server_lookup_client_in_t
  | msg_server_lookup_client_out => hg_proc_server_lookup_client_out_t
  | msg_client_test_connect_in => hg_proc_client_test_connect_in_t
  | msg_client_test_connect_out => hg_proc_client_test_connect_out_t
  | msg_notify_io_complete_in => hg_proc_notify_io_complete_in_t
  | msg_notify_io_complete_out => hg_proc_notify_io_complete_out_t
  | msg_notify_region_update_in => hg_proc_notify_region_update_in_t
  | msg_notify_region_update_out => hg_proc_notify_region_update_out_t
  | msg_flush_obj_all_in => hg_proc_flush_obj_all_in_t
  | msg_flush_obj_all_out => hg_proc_flush_obj_all_out_t
  | msg_obj_reset_dims_in => hg_proc_obj_reset_dims_in_t
  | msg_obj_reset_dims_out => hg_proc_obj_reset_dims_out_t
  | msg_flush_obj_in => hg_proc_flush_obj_in_t
  | msg_flush_obj_out => hg_proc_flush_obj_out_t
  | msg_close_server_in => hg_proc_close_server_in_t
  | msg_close_server_out => hg_proc_close_server_out_t
  | msg_bulk_rpc_in => hg_proc_bulk_rpc_in_t
  | msg_bulk_rpc_out => hg_proc_bulk_rpc_out_t
  | msg_get_remote_metadata_in => hg_proc_get_remote_metadata_in_t
  | msg_get_remote_metadata_out => hg_proc_get_remote_metadata_out_t
  | msg_buf_map_in => hg_proc_buf_map_in_t
  | msg_buf_map_out => hg_proc_buf_map_out_t
  | msg_transfer_request_in => hg_proc_transfer_request_in_t
  | msg_transfer_request_out => hg_proc_transfer_request_out_t
  | msg_transfer_request_status_in => hg_proc_transfer_request_status_in_t
  | msg_transfer_request_status_out => hg_proc_transfer_request_status_out_t
  | msg_transfer_request_wait_all_in => hg_proc_transfer_request_wait_all_in_t
  | msg_transfer_request_wait_all_out => hg_proc_transfer_request_wait_all_out_t
  | msg_transfer_request_all_in => hg_proc_transfer_request_all_in_t
  | msg_transfer_request_all_out => hg_proc_transfer_request_all_out_t
  | msg_transfer_request_metadata_query_in => hg_proc_transfer_request_metadata_query_in_t
  | msg_transfer_request_metadata_query_out => hg_proc_transfer_request_metadata_query_out_t
  | msg_transfer_request_metadata_query2_in => hg_proc_transfer_request_metadata_query2_in_t
  | msg_transfer_request_metadata_query2_out => hg_proc_transfer_request_metadata_query2_out_t
  | msg_transfer_request_wait_in => hg_proc_transfer_request_wait_in_t
  | msg_transfer_request_wait_out => hg_proc_transfer_request_wait_out_t
  | msg_buf_unmap_in => hg_proc_buf_unmap_in_t
  | msg_buf_unmap_out => hg_proc_buf_unmap_out_t
  | msg_data_server_read_in => hg_proc_data_server_read_in_t
  | msg_data_server_read_out => hg_proc_data_server_read_out_t
  | msg_data_server_write_in => hg_proc_data_server_write_in_t
  | msg_data_server_write_out => hg_proc_data_server_write_out_t
  | msg_data_server_read_check_in => hg_proc_data_server_read_check_in_t
  | msg_data_server_read_check_out => hg_proc_data_server_read_check_out_t
  | msg_data_server_write_check_in => hg_proc_data_server_write_check_in_t
  | msg_data_server_write_check_out => hg_proc_data_server_write_check_out_t
  | msg_pdc_histogram => hg_proc_pdc_histogram_t
  | msg_update_region_loc_in => hg_proc_update_region_loc_in_t
  | msg_update_region_loc_out => hg_proc_update_region_loc_out_t
  | msg_get_metadata_by_id_in => hg_proc_get_metadata_by_id_in_t
  | msg_get_metadata_by_id_out => hg_proc_get_metadata_by_id_out_t
  | msg_pdc_serialized_data => hg_proc_pdc_serialized_data_t
  | msg_get_storage_info_single_out => hg_proc_get_storage_info_single_out_t
  | msg_get_storage_info_in => hg_proc_get_storage_info_in_t
  | msg_pdc_int_send => hg_proc_pdc_int_send_t
  | msg_pdc_int_ret => hg_proc_pdc_int_ret_t
  | msg_pdc_aggregated_io_to_server => hg_proc_pdc_aggregated_io_to_server_t
  | msg_cont_add_del_objs_rpc_in => hg_proc_cont_add_del_objs_rpc_in_t
  | msg_cont_add_del_objs_rpc_out => hg_proc_cont_add_del_objs_rpc_out_t
  | msg_cont_add_tags_rpc_in => hg_proc_cont_add_tags_rpc_in_t
  | msg_query_read_obj_name_in => hg_proc_query_read_obj_name_in_t
  | msg_query_read_obj_name_out => hg_proc_query_read_obj_name_out_t
  | msg_container_query_in => hg_proc_container_query_in_t
  | msg_container_query_out => hg_proc_container_query_out_t
  | msg_storage_meta_name_query_in => hg_proc_storage_meta_name_query_in_t
  | msg_get_sel_data_rpc_in => hg_proc_get_sel_data_rpc_in_t
  | msg_send_nhits => hg_proc_send_nhits_t
  | msg_query_storage_region_transfer => hg_proc_query_storage_region_transfer_t
  | msg_dart_get_server_info_in => hg_proc_dart_get_server_info_in_t
  | msg_dart_get_server_info_out => hg_proc_dart_get_server_info_out_t
  | msg_dart_perform_one_server_in => hg_proc_dart_perform_one_server_in_t
  | msg_dart_perform_one_server_out => hg_proc_dart_perform_one_server_out_t
  | msg_pdc_query_xfer => hg_proc_pdc_query_xfer_t
  | msg_send_shm_in => hg_proc_send_shm_in_t
  end.

(** What a receiver has of a message that was sent: everything, except for what is left
    out of it.  [old] is the structure that it is received into. *)
Definition received_kvtag (m old : pdc_kvtag_t) : pdc_kvtag_t :=
  if decide (pdc_kvtag_size m = 0) then Build_pdc_kvtag_t (pdc_kvtag_name m) 0 (pdc_kvtag_type m) (pdc_kvtag_value old) else m.
Definition received_histogram (m old : pdc_histogram_t) : pdc_histogram_t :=
  if decide (0 < pdc_histogram_nbin m) then m
  else Build_pdc_histogram_t (pdc_histogram_dtype m) (pdc_histogram_nbin m) (pdc_histogram_incr m) (pdc_histogram_range old) (pdc_histogram_bin old).
Definition received_get_kvtag (m old : metadata_get_kvtag_out_t) : metadata_get_kvtag_out_t :=
  Build_metadata_get_kvtag_out_t (metadata_get_kvtag_out_ret m) (received_kvtag (metadata_get_kvtag_out_kvtag m) (metadata_get_kvtag_out_kvtag old)).
Definition received_add_kvtag (m old : metadata_add_kvtag_in_t) : metadata_add_kvtag_in_t :=
  Build_metadata_add_kvtag_in_t (metadata_add_kvtag_in_obj_id m) (metadata_add_kvtag_in_hash_value m) (received_kvtag (metadata_add_kvtag_in_kvtag m) (metadata_add_kvtag_in_kvtag old)).
Definition received_bulk_rpc (m old : bulk_rpc_in_t) : bulk_rpc_in_t :=
  let '(Build_bulk_rpc_in_t cnt total origin seq_id seq_id2 op_id ndim obj_id data_type handle) := m in
  Build_bulk_rpc_in_t cnt total origin seq_id seq_id2 op_id ndim obj_id data_type (if decide (0 < cnt) then handle else bulk_rpc_in_bulk_handle old).
Definition received_buf_map (m old : buf_map_in_t) : buf_map_in_t :=
  let '(Build_buf_map_in_t server reg obj local remote ndim unit handle region_unit region_nounit region) := m in
  Build_buf_map_in_t server reg obj (set_low_byte (buf_map_in_local_type old) (low_byte local)) (set_low_byte (buf_map_in_remote_type old) (low_byte remote)) ndim unit handle region_unit region_nounit region.
Definition received_region_loc (m old : update_region_loc_in_t) : update_region_loc_in_t :=
  let '(Build_update_region_loc_in_t obj location offset region type_ has_hist hist) := m in
  Build_update_region_loc_in_t obj location offset region type_ has_hist (if decide (has_hist = 1) then received_histogram hist (update_region_loc_in_hist old) else update_region_loc_in_hist old).
Definition received_storage_region (m old : query_storage_region_transfer_t) : query_storage_region_transfer_t :=
  let '(Build_query_storage_region_transfer_t origin total is_done query manager obj region location offset size has_hist data_type op hist) := m in
  Build_query_storage_region_transfer_t origin total is_done query manager obj region location offset size has_hist data_type op
    (if decide (has_hist = 1) then received_histogram hist (query_storage_region_transfer_hist old) else query_storage_region_transfer_hist old).
Definition received_dart (m old : dart_perform_one_server_in_t) : dart_perform_one_server_in_t :=
  let '(Build_dart_perform_one_server_in_t op algo key vsize vtype val vnode ref_type primary secondary server suffix time client) := m in
  Build_dart_perform_one_server_in_t op algo key vsize vtype (if decide (vsize = 0) then dart_perform_one_server_in_attr_val old else val) vnode ref_type primary secondary server suffix time client.
Definition received_query (m old : pdc_query_xfer_t) : pdc_query_xfer_t :=
  let '(Build_pdc_query_xfer_t query manager client n_obj op n_ops ops n_constraints get_op next prev constraints region) := m in
  Build_pdc_query_xfer_t query manager client n_obj op n_ops (if decide (0 < n_constraints) then ops else pdc_query_xfer_combine_ops old) n_constraints get_op next prev
    (if decide (0 < n_constraints) then constraints else pdc_query_xfer_constraints old) region.
Definition received (k : message_kind) : message k → message k → message k :=
  match k with
  | msg_pdc_kvtag => received_kvtag
  | msg_pdc_histogram => received_histogram
  | msg_metadata_get_kvtag_out => received_get_kvtag
  | msg_metadata_add_kvtag_in => received_add_kvtag
  | msg_bulk_rpc_in => received_bulk_rpc
  | msg_buf_map_in => received_buf_map
  | msg_update_region_loc_in => received_region_loc
  | msg_query_storage_region_transfer => received_storage_region
  | msg_dart_perform_one_server_in => received_dart
  | msg_pdc_query_xfer => received_query
  | _ => λ m _, m
  end.

(** * Calls *)

Inductive rpc :=
| rpc_gen_obj_id
| rpc_gen_cont_id
| rpc_server_lookup_client
| rpc_server_lookup_remote_server
| rpc_client_test_connect
| rpc_notify_io_complete
| rpc_send_shm_bulk_rpc
| rpc_query_read_obj_name_client_rpc
| rpc_notify_region_update
| rpc_metadata_query
| rpc_container_query
| rpc_metadata_add_tag
| rpc_send_rpc
| rpc_metadata_del_kvtag
| rpc_metadata_add_kvtag
| rpc_metadata_get_kvtag
| rpc_metadata_update
| rpc_metadata_delete_by_id
| rpc_metadata_delete
| rpc_close_server
| rpc_flush_obj
| rpc_flush_obj_all
| rpc_obj_reset_dims
| rpc_transfer_request
| rpc_transfer_request_all
| rpc_transfer_request_metadata_query
| rpc_transfer_request_metadata_query2
| rpc_transfer_request_wait
| rpc_transfer_request_wait_all
| rpc_transfer_request_status
| rpc_buf_map
| rpc_get_remote_metadata
| rpc_buf_map_server
| rpc_buf_unmap_server
| rpc_buf_unmap
| rpc_region_lock
| rpc_region_release
| rpc_transform_region_release
| rpc_region_transform_release
| rpc_region_analysis_release
| rpc_query_partial
| rpc_query_kvtag
| rpc_bulk_rpc
| rpc_data_server_read
| rpc_data_server_write
| rpc_data_server_read_check
| rpc_data_server_write_check
| rpc_update_region_loc
| rpc_get_metadata_by_id
| rpc_cont_add_del_objs_rpc
| rpc_query_read_obj_name_rpc
| rpc_storage_meta_name_query_rpc
| rpc_get_storage_meta_name_query_bulk_result_rpc
| rpc_server_checkpoint_rpc
| rpc_send_shm
| rpc_cont_add_tags_rpc
| rpc_notify_client_multi_io_complete_rpc
| rpc_send_client_storage_meta_rpc
| rpc_send_data_query_rpc
| rpc_send_nhits
| rpc_send_bulk_rpc
| rpc_get_sel_data_rpc
| rpc_send_read_sel_obj_id_rpc
| rpc_dart_get_server_info
| rpc_dart_perform_one_server.
Definition rpc_in (r : rpc) : message_kind :=
  match r with
  | rpc_gen_obj_id => msg_gen_obj_id_in
  | rpc_gen_cont_id => msg_gen_cont_id_in
  | rpc_server_lookup_client => msg_server_lookup_client_in
  | rpc_server_lookup_remote_server => msg_server_lookup_remote_server_in
  | rpc_client_test_connect => msg_client_test_connect_in
  | rpc_notify_io_complete => msg_notify_io_complete_in
  | rpc_send_shm_bulk_rpc => msg_bulk_rpc_in
  | rpc_query_read_obj_name_client_rpc => msg_query_read_obj_name_in
  | rpc_notify_region_update => msg_notify_region_update_in
  | rpc_metadata_query => msg_metadata_query_in
  | rpc_container_query => msg_container_query_in
  | rpc_metadata_add_tag => msg_metadata_add_tag_in
  | rpc_send_rpc => msg_send_rpc_in
  | rpc_metadata_del_kvtag => msg_metadata_get_kvtag_in
  | rpc_metadata_add_kvtag => msg_metadata_add_kvtag_in
  | rpc_metadata_get_kvtag => msg_metadata_get_kvtag_in
  | rpc_metadata_update => msg_metadata_update_in
  | rpc_metadata_delete_by_id => msg_metadata_delete_by_id_in
  | rpc_metadata_delete => msg_metadata_delete_in
  | rpc_close_server => msg_close_server_in
  | rpc_flush_obj => msg_flush_obj_in
  | rpc_flush_obj_all => msg_flush_obj_all_in
  | rpc_obj_reset_dims => msg_obj_reset_dims_in
  | rpc_transfer_request => msg_transfer_request_in
  | rpc_transfer_request_all => msg_transfer_request_all_in
  | rpc_transfer_request_metadata_query => msg_transfer_request_metadata_query_in
  | rpc_transfer_request_metadata_query2 => msg_transfer_request_metadata_query2_in
  | rpc_transfer_request_wait => msg_transfer_request_wait_in
  | rpc_transfer_request_wait_all => msg_transfer_request_wait_all_in
  | rpc_transfer_request_status => msg_transfer_request_status_in
  | rpc_buf_map => msg_buf_map_in
  | rpc_get_remote_metadata => msg_get_remote_metadata_in
  | rpc_buf_map_server => msg_buf_map_in
  | rpc_buf_unmap_server => msg_buf_unmap_in
  | rpc_buf_unmap => msg_buf_unmap_in
  | rpc_region_lock => msg_region_lock_in
  | rpc_region_release => msg_region_lock_in
  | rpc_transform_region_release => msg_region_transform_and_lock_in
  | rpc_region_transform_release => msg_region_transform_and_lock_in
  | rpc_region_analysis_release => msg_region_analysis_and_lock_in
  | rpc_query_partial => msg_metadata_query_transfer_in
  | rpc_query_kvtag => msg_pdc_kvtag
  | rpc_bulk_rpc => msg_bulk_rpc_in
  | rpc_data_server_read => msg_data_server_read_in
  | rpc_data_server_write => msg_data_server_write_in
  | rpc_data_server_read_check => msg_data_server_read_check_in
  | rpc_data_server_write_check => msg_data_server_write_check_in
  | rpc_update_region_loc => msg_update_region_loc_in
  | rpc_get_metadata_by_id => msg_get_metadata_by_id_in
  | rpc_cont_add_del_objs_rpc => msg_cont_add_del_objs_rpc_in
  | rpc_query_read_obj_name_rpc => msg_query_read_obj_name_in
  | rpc_storage_meta_name_query_rpc => msg_storage_meta_name_query_in
  | rpc_get_storage_meta_name_query_bulk_result_rpc => msg_bulk_rpc_in
  | rpc_server_checkpoint_rpc => msg_pdc_int_send
  | rpc_send_shm => msg_send_shm_in
  | rpc_cont_add_tags_rpc => msg_cont_add_tags_rpc_in
  | rpc_notify_client_multi_io_complete_rpc => msg_bulk_rpc_in
  | rpc_send_client_storage_meta_rpc => msg_bulk_rpc_in
  | rpc_send_data_query_rpc => msg_pdc_query_xfer
  | rpc_send_nhits => msg_send_nhits
  | rpc_send_bulk_rpc => msg_bulk_rpc_in
  | rpc_get_sel_data_rpc => msg_get_sel_data_rpc_in
  | rpc_send_read_sel_obj_id_rpc => msg_get_sel_data_rpc_in
  | rpc_dart_get_server_info => msg_dart_get_server_info_in
  | rpc_dart_perform_one_server => msg_dart_perform_one_server_in
  end.
Definition rpc_out (r : rpc) : message_kind :=
  match r with
  | rpc_gen_obj_id => msg_gen_obj_id_out
  | rpc_gen_cont_id => msg_gen_cont_id_out
  | rpc_server_lookup_client => msg_server_lookup_client_out
  | rpc_server_lookup_remote_server => msg_server_lookup_remote_server_out
  | rpc_client_test_connect => msg_client_test_connect_out
  | rpc_notify_io_complete => msg_notify_io_complete_out
  | rpc_send_shm_bulk_rpc => msg_bulk_rpc_out
  | rpc_query_read_obj_name_client_rpc => msg_query_read_obj_name_out
  | rpc_notify_region_update => msg_notify_region_update_out
  | rpc_metadata_query => msg_metadata_query_out
  | rpc_container_query => msg_container_query_out
  | rpc_metadata_add_tag => msg_metadata_add_tag_out
  | rpc_send_rpc => msg_send_rpc_out
  | rpc_metadata_del_kvtag => msg_metadata_add_tag_out
  | rpc_metadata_add_kvtag => msg_metadata_add_tag_out
  | rpc_metadata_get_kvtag => msg_metadata_get_kvtag_out
  | rpc_metadata_update => msg_metadata_update_out
  | rpc_metadata_delete_by_id => msg_metadata_delete_by_id_out
  | rpc_metadata_delete => msg_metadata_delete_out
  | rpc_close_server => msg_close_server_out
  | rpc_flush_obj => msg_flush_obj_out
  | rpc_flush_obj_all => msg_flush_obj_all_out
  | rpc_obj_reset_dims => msg_obj_reset_dims_out
  | rpc_transfer_request => msg_transfer_request_out
  | rpc_transfer_request_all => msg_transfer_request_all_out
  | rpc_transfer_request_metadata_query => msg_transfer_request_metadata_query_out
  | rpc_transfer_request_metadata_query2 => msg_transfer_request_metadata_query2_out
  | rpc_transfer_request_wait => msg_transfer_request_wait_out
  | rpc_transfer_request_wait_all => msg_transfer_request_wait_all_out
  | rpc_transfer_request_status => msg_transfer_request_status_out
  | rpc_buf_map => msg_buf_map_out
  | rpc_get_remote_metadata => msg_get_remote_metadata_out
  | rpc_buf_map_server => msg_buf_map_out
  | rpc_buf_unmap_server => msg_buf_unmap_out
  | rpc_buf_unmap => msg_buf_unmap_out
  | rpc_region_lock => msg_region_lock_out
  | rpc_region_release => msg_region_lock_out
  | rpc_transform_region_release => msg_region_lock_out
  | rpc_region_transform_release => msg_region_lock_out
  | rpc_region_analysis_release => msg_region_lock_out
  | rpc_query_partial => msg_metadata_query_transfer_out
  | rpc_query_kvtag => msg_metadata_query_transfer_out
  | rpc_bulk_rpc => msg_bulk_rpc_out
  | rpc_data_server_read => msg_data_server_read_out
  | rpc_data_server_write => msg_data_server_write_out
  | rpc_data_server_read_check => msg_data_server_read_check_out
  | rpc_data_server_write_check => msg_data_server_write_check_out
  | rpc_update_region_loc => msg_update_region_loc_out
  | rpc_get_metadata_by_id => msg_get_metadata_by_id_out
  | rpc_cont_add_del_objs_rpc => msg_cont_add_del_objs_rpc_out
  | rpc_query_read_obj_name_rpc => msg_query_read_obj_name_out
  | rpc_storage_meta_name_query_rpc => msg_pdc_int_ret
  | rpc_get_storage_meta_name_query_bulk_result_rpc => msg_pdc_int_ret
  | rpc_server_checkpoint_rpc => msg_pdc_int_ret
  | rpc_send_shm => msg_pdc_int_ret
  | rpc_cont_add_tags_rpc => msg_pdc_int_ret
  | rpc_notify_client_multi_io_complete_rpc => msg_pdc_int_ret
  | rpc_send_client_storage_meta_rpc => msg_pdc_int_ret
  | rpc_send_data_query_rpc => msg_pdc_int_ret
  | rpc_send_nhits => msg_pdc_int_ret
  | rpc_send_bulk_rpc => msg_pdc_int_ret
  | rpc_get_sel_data_rpc => msg_pdc_int_ret
  | rpc_send_read_sel_obj_id_rpc => msg_pdc_int_ret
  | rpc_dart_get_server_info => msg_dart_get_server_info_out
  | rpc_dart_perform_one_server => msg_dart_perform_one_server_out
  end.

End messages.

Section calls.
Context `{BK : !Bulk, MC : !Mercury}.

(** A client calls [r] with [m]; the server receives it into [in_mem] and answers; the
    answer is received into [out_mem]. *)
Definition rpc_call {St} (r : rpc) (serve : St → message (rpc_in r) → option (St * message (rpc_out r))) (in_mem : message (rpc_in r)) (out_mem : message (rpc_out r))
    (st : St) (m : message (rpc_in r)) : option (St * message (rpc_out r)) :=
  b ← encode (message_proc (rpc_in r)) m; '(into, _) ← decode (message_proc (rpc_in r)) b;
  '(st, reply) ← serve st (into in_mem);
  b ← encode (message_proc (rpc_out r)) reply; '(into, _) ← decode (message_proc (rpc_out r)) b;
  Some (st, into out_mem).

(** Structures inside a structure. *)
Ltac parts := repeat match goal with x : region_info_transfer_t |- _ => destruct x | x : pdc_metadata_transfer_t |- _ => destruct x | x : pdc_kvtag_t |- _ => destruct x | x : pdc_histogram_t |- _ => destruct x end.
Lemma sent_received k (m old : message k) : sent (message_proc k) m old = received k m old.
Proof.
  destruct k; destruct m; parts; try reflexivity; cbn; unfold received_get_kvtag, received_add_kvtag, received_histogram, received_kvtag; cbn;
    repeat case_decide; simplify_eq/=; repeat case_decide; simplify_eq/=; done.
Qed.

(** C37: whatever message a client or a server sends, if its fields hold values of their
    types then encoding it succeeds, and decoding what was written, whatever follows it,
    gives back the whole message and consumes exactly its bytes.  Left out of it are only
    the value of a tag of size 0, the contents of an empty or absent histogram, the
    constraints of a query that has none, the handle of an empty bulk transfer and all but
    the low byte of the types of a mapped buffer, where the receiver keeps what it had. *)
Theorem message_roundtrip k (m : message k) : sendable (message_proc k) m →
  ∃ b, encode (message_proc k) m = Some b ∧ ∀ rest, ∃ into, decode (message_proc k) (b ++ rest) = Some (into, rest) ∧ ∀ old, into old = received k m old.
Proof.
  intros Hm. destruct (decode_encode _ m Hm) as (b & E & Hb). exists b. split; [done|]. intros rest. eexists. split; [apply Hb|]. intros old. apply sent_received.
Qed.

Lemma rpc_call_spec {St} r serve in_mem out_mem (st : St) m st' reply : sendable (message_proc (rpc_in r)) m →
  serve st (received _ m in_mem) = Some (st', reply) → sendable (message_proc (rpc_out r)) reply → rpc_call r serve in_mem out_mem st m = Some (st', received _ reply out_mem).
Proof.
  intros Hm Hs Hr. unfold rpc_call. destruct (decode_encode _ m Hm) as (b & E & Hb). rewrite E. cbn [mbind option_bind]. specialize (Hb []). rewrite app_nil_r in Hb. rewrite Hb. cbn [mbind option_bind].
  rewrite sent_received, Hs. cbn [mbind option_bind]. destruct (decode_encode _ reply Hr) as (b' & E' & Hb'). rewrite E'. cbn [mbind option_bind]. specialize (Hb' []). rewrite app_nil_r in Hb'. rewrite Hb'. cbn [mbind option_bind]. by rewrite sent_received.
Qed.
End calls.

Import LittleEndian.
(** An update of the location of a region with a histogram of two bins. *)
Lemma message_roundtrip_witness : let m := Build_update_region_loc_in_t 1000001 [47; 116; 109; 112] 4096 (Build_region_info_transfer_t 1 3 0 0 0 5 0 0 0) 0 1
    (Build_pdc_histogram_t 2 2 4607182418800017408 (replicate 32 7) (replicate 16 9)) in
  ∃ b, encode (message_proc msg_update_region_loc_in) m = Some b ∧ ∀ rest, ∃ into, decode (message_proc msg_update_region_loc_in) (b ++ rest) = Some (into, rest) ∧ ∀ old, into old = m.
Proof.
  apply (message_roundtrip msg_update_region_loc_in). cbn -[int_min int_max lenZ replicate].
  repeat match goal with |- _ ∧ _ => split | |- Forall _ _ => repeat constructor; done | |- _ => by vm_compute | |- True => done end.
Defined.
