(* ===== verification/Dart.v ===== *)
(** DART, the distributed index of metadata: which servers hold the index entries of
    a key and which are asked for a query ([src/src/commons/index/dart/dart_core.c],
    with [dart_math.c] and [dart_algo.c]).  The virtual nodes are the leaves of a
    tree over the characters of the keys; every virtual node belongs to a server,
    every entry is on the base node of its key or on an alternative one, with
    replicas. *)

From S2P Require Export StringUtils.

(** * State *)

Record DART := mkDART {
  alphabet_size : Z;
  dart_tree_height : Z;
  replication_factor : Z;
  client_request_count : Z;
  num_server : Z;
  num_vnode : Z;
}.

Inductive dart_op_type_t := OP_INSERT | OP_EXACT_QUERY | OP_PREFIX_QUERY | OP_SUFFIX_QUERY | OP_INFIX_QUERY | OP_DELETE | OP_RANGE_QUERY.
#[export] Instance dart_op_type_eq_dec : EqDecision dart_op_type_t.
Proof. solve_decision. Defined.

Record index_hash_result_t := HashResult { hr_server_id : Z; hr_key : string; hr_virtual_node_id : Z; hr_is_suffix : Z }.

Definition is_index_write_op (op_type : dart_op_type_t) : bool := bool_decide (op_type = OP_INSERT ∨ op_type = OP_DELETE).

(** * Arithmetic *)

(** [uint32_t] *)
Fixpoint uint32_pow (base : Z) (pow : nat) : Z := match pow with O => 1 | S pow => u32 (base * uint32_pow base pow) end.

(** [height base x] is the integer [ceil(log(x) / log(base))] and [fpow] the integer
    [pow] of the floating-point library. *)
Definition dart_space_init (height : Z → Z → Z) (fpow : Z → Z → Z) (dart : DART) (num_server alphabet_size extra_tree_height replication_factor max_server_num_to_adapt : Z) : DART :=
  let physical_node_num := if decide (max_server_num_to_adapt = 0) then num_server else max_server_num_to_adapt in
  let tree_height := height alphabet_size physical_node_num + 1 + extra_tree_height in
  mkDART alphabet_size tree_height replication_factor (client_request_count dart) num_server (fpow alphabet_size tree_height).

(** [None]: division by zero. *)
Definition get_server_id_by_vnode_id (dart : DART) (vnode_id : Z) : option Z :=
  if decide (num_server dart = 0) then None
  else
    let num_vnode_per_server := u64 (i32 (num_vnode dart / num_server dart)) in
    if decide (num_vnode_per_server = 0) then None else Some ((vnode_id / num_vnode_per_server) mod num_server dart).

(** The nodes of a server are put at their own index of an array, whose first
    [num_result] elements are copied. *)
Definition get_vnode_ids_by_serverID (dart : DART) (serverID : Z) : option (list Z) :=
  temp_out ← mapM (λ vid, s ← get_server_id_by_vnode_id dart vid; Some (if decide (s = serverID) then (vid, 1) else (0, 0))) (seqZ 0 (num_vnode dart));
  let num_result := foldr Z.add 0 (snd <$> temp_out) in
  Some (fst <$> take (Z.to_nat num_result) temp_out).

(** [None]: overflow of a signed integer. *)
Definition dart_client_request_count_incr (dart_g : DART) : option (Z * DART) :=
  let count := if decide (client_request_count dart_g < 0) then 0 else client_request_count dart_g in
  if decide (count = 2147483647) then None
  else Some (count + 1, mkDART (alphabet_size dart_g) (dart_tree_height dart_g) (replication_factor dart_g) (count + 1) (num_server dart_g) (num_vnode dart_g)).

(** * Virtual nodes *)

(** The character at an index: 0 at the end, and whatever is in memory after it; the
    loop below reads up to the height of the tree. *)
Definition char_at (junk : nat → Z) (str : string) (n : nat) : Z :=
  match str !! n with Some c => c | None => if decide (n = length str) then 0 else junk n end.

Section vnodes.
Context (junk : nat → Z) (dart : DART).
Let a := alphabet_size dart.
Let h := dart_tree_height dart.

(** The state of the loop: [i_t_n] (indeterminate before the first character),
    [met_end] and [rst]. *)
Definition base_step (str : string) (n : Z) (s : option Z * bool * Z) : option (option Z * bool * Z) :=
  let '(i_t_n, met_end, rst) := s in
  let c := char_at junk str (Z.to_nat (n - 1)) in
  let met_end := if decide (c = 0) then true else met_end in
  let i_t_n := if decide (c ≠ 0 ∧ met_end = false) then Some (u64 c mod u64 a) else i_t_n in
  i ← i_t_n;
  Some (Some i, met_end, rst +w i *w uint32_pow (u32 a) (Z.to_nat (h - n))).
Definition get_base_virtual_node_id_by_string (str : string) : option Z :=
  '(_, rst) ← forZ (Z.to_nat h) 1 (base_step str) (None, false, 0);
  if decide (num_vnode dart = 0) then None else Some (rst mod num_vnode dart).

(** [(int)c % alphabet_size]: the sign is that of the character. *)
Definition char_index (c : Z) : Z := Z.rem c a.

(** The alternative node of a word that is not empty. *)
Definition alternative_vnode (base_vnode_idx : Z) (word : string) : option Z :=
  let tree_height := h in
  let len := lenZ word in
  let last_c_index := if decide (len ≤ tree_height) then len - 1 else tree_height - 1 in
  post_leaf_index ← (if decide (len ≤ tree_height) then Some 0 else char_index <$> getZ word (last_c_index + 1));
  pre_leaf_index ← (if decide (len ≤ tree_height ∧ len ≤ 1 ∨ tree_height ≤ 1) then Some 0 else char_index <$> getZ word (last_c_index - 1));
  leaf_index ← char_index <$> getZ word last_c_index;
  let leaf_post_sum := leaf_index + pre_leaf_index + post_leaf_index in
  let leaf_post_diff := Z.abs (post_leaf_index - leaf_index - pre_leaf_index) in
  let region_size := i32 (num_vnode dart / a) in
  let sub_region_size := Z.quot region_size a in
  let major_offset := i32 (Z.rem leaf_post_sum a * sub_region_size) in
  let minor_offset := leaf_post_diff in
  if decide (region_size = 0 ∨ num_vnode dart = 0) then None
  else
    let region_offset := (base_vnode_idx +w u64 major_offset -w u64 minor_offset) mod u64 region_size in
    let ir_idx := Z.quot a 2 in
    c0 ← getZ word 0;
    let region_start := u64 (i32 (Z.rem (c0 + ir_idx) a * region_size)) in
    Some ((base_vnode_idx +w region_start +w region_offset) mod num_vnode dart).

(** [get_server_cb] is the number of indexed words of a server, when the caller passes
    a callback. *)
Definition get_reconciled_vnode_id_with_power_of_two_choice_rehashing_2 (base_vnode_idx : Z) (word : string) (get_server_cb : option (Z → Z)) : option Z :=
  serverId ← get_server_id_by_vnode_id dart base_vnode_idx;
  if decide (h ≤ 1) then Some base_vnode_idx
  else
    reconciled_vnode_idx ← alternative_vnode base_vnode_idx word;
    reconcile_serverId ← get_server_id_by_vnode_id dart reconciled_vnode_idx;
    match get_server_cb with
    | Some words => Some (if decide (words serverId > words reconcile_serverId) then reconciled_vnode_idx else base_vnode_idx)
    | None => Some reconciled_vnode_idx
    end.

(** [None] when there is no room for the master. *)
Definition get_replica_node_ids (master_node_id : Z) (is_physical : bool) : option (list Z) :=
  if decide (replication_factor dart < 1 ∨ a = 0 ∨ num_vnode dart = 0) then None
  else
    let vnode_distance := num_vnode dart / a in
    let out := master_node_id :: ((λ r, (master_node_id +w r *w vnode_distance) mod num_vnode dart) <$> seqZ 1 (replication_factor dart - 1)) in
    if is_physical then mapM (get_server_id_by_vnode_id dart) out else Some out.

Definition get_server_ids_for_insert (keyword : string) (get_server_cb : option (Z → Z)) : option (list Z) :=
  base_virtual_node_id ← get_base_virtual_node_id_by_string keyword;
  alter_virtual_node_id ← get_reconciled_vnode_id_with_power_of_two_choice_rehashing_2 base_virtual_node_id keyword get_server_cb;
  get_replica_node_ids alter_virtual_node_id false.

(** The broadcast to the servers of a region. *)
Definition region_servers (token : string) : option (list Z) :=
  let region_size := i32 (num_vnode dart / a) in
  let region_start := (char_index (char_at junk token 0) + 0) * region_size in
  server_start ← get_server_id_by_vnode_id dart (u64 region_start);
  server_end ← get_server_id_by_vnode_id dart (u64 (region_start + region_size - 1));
  if decide (server_end + 1 < server_start) then None
  else Some (seqZ server_start (server_end - server_start + 1)).
End vnodes.

(** * Queries *)

Section queries.
(** [sfx]: whether [PDC_DART_SFX_TREE] is defined when the program is built. *)
Context (sfx : bool) (junk : nat → Z).

Definition is_region_query (dart_g : DART) (token : string) (op_type : dart_op_type_t) : bool :=
  bool_decide (lenZ token < dart_tree_height dart_g ∧
    (op_type = OP_PREFIX_QUERY ∨ op_type = if sfx then OP_INFIX_QUERY else OP_SUFFIX_QUERY)).

Definition get_server_ids_for_query (dart_g : DART) (token : string) (op_type : dart_op_type_t) : option (list Z * DART) :=
  if decide (op_type = OP_INSERT) then Some ([], dart_g)
  else if decide (sfx = false ∧ op_type = OP_INFIX_QUERY) then Some (seqZ 0 (num_server dart_g), dart_g)
  else if is_region_query dart_g token op_type then l ← region_servers junk dart_g token; Some (l, dart_g)
  else
    base_virtual_node_id ← get_base_virtual_node_id_by_string junk dart_g token;
    reconciled_vnode_id ← get_reconciled_vnode_id_with_power_of_two_choice_rehashing_2 dart_g base_virtual_node_id token None;
    base_replicas ← get_replica_node_ids dart_g base_virtual_node_id false;
    alter_replicas ← get_replica_node_ids dart_g reconciled_vnode_id false;
    if decide (op_type = OP_DELETE) then Some (base_replicas ++ alter_replicas, dart_g)
    else
      '(req_count, dart_g) ← dart_client_request_count_incr dart_g;
      let rep_index := Z.rem req_count (lenZ base_replicas) in
      b ← getZ base_replicas rep_index;
      r ← getZ alter_replicas rep_index;
      Some (if decide (b ≠ r) then [b; r] else [b], dart_g).

(** The token of one iteration of [DART_hash]. *)
Definition hash_token (key : string) (iter : nat) : option string :=
  if sfx then t ← substring key (Z.of_nat iter) (lenZ key); t
  else if decide (0 < iter)%nat then reverse_str key else Some key.

(** The loop of [DART_hash] from iteration [iter] on. *)
Fixpoint hash_loop (n iter : nat) (dart_g : DART) (key : string) (op_type : dart_op_type_t) (get_server_cb : option (Z → Z)) : option (list index_hash_result_t * DART) :=
  match n with
  | O => Some ([], dart_g)
  | S n =>
    tok ← hash_token key iter;
    let is_suffix := if decide (0 < iter)%nat then 1 else 0 in
    '(temp_out, dart_g) ← (if decide (op_type = OP_INSERT) then ids ← get_server_ids_for_insert junk dart_g tok get_server_cb; Some (ids, dart_g)
                           else get_server_ids_for_query dart_g tok op_type);
    res ← mapM (λ id, s ← get_server_id_by_vnode_id dart_g id; Some (HashResult s tok id is_suffix)) temp_out;
    '(rest, dart_g) ← hash_loop n (S iter) dart_g key op_type get_server_cb;
    Some (res ++ rest, dart_g)
  end.
Definition DART_hash (dart_g : DART) (key : string) (op_type : dart_op_type_t) (get_server_cb : option (Z → Z)) : option (list index_hash_result_t * DART) :=
  let loop_count := if is_index_write_op op_type then if sfx then length key else 2%nat else 1%nat in
  hash_loop loop_count 0 dart_g key op_type get_server_cb.

(** The token and the operation of a query on keys; [None] when a NULL token is copied. *)
Definition dart_determine_query_token_by_key_query (k_query : string) : option (string * dart_op_type_t) :=
  match determine_pattern_type k_query with
  | PATTERN_EXACT => Some (k_query, OP_EXACT_QUERY)
  | PATTERN_PREFIX => affix ← subrstr k_query (lenZ k_query - 1); affix ← affix; Some (affix, OP_PREFIX_QUERY)
  | PATTERN_SUFFIX => affix ← substr k_query 1; affix ← affix; tok ← (if sfx then Some affix else reverse_str affix); Some (tok, OP_SUFFIX_QUERY)
  | PATTERN_MIDDLE => affix ← substring k_query 1 (lenZ k_query - 1); affix ← affix; Some (affix, OP_INFIX_QUERY)
  end.
End queries.

(** * Hash tables, for comparison *)

Fixpoint djb2_loop (str : string) (hash : Z) : Z :=
  match str with [] => hash | c :: str => djb2_loop str (u32 (u32 (Z.shiftl hash 5) + hash + c)) end.
(** The first [len] characters, 0 for those after the end (of a buffer that long). *)
Definition djb2_hash (str : string) (len : Z) : Z :=
  djb2_loop (take (Z.to_nat len) str ++ replicate (Z.to_nat len - length str) 0) 5381.

Definition DHT_hash (dart_g : DART) (len : Z) (key : string) (op_type : dart_op_type_t) : option (list index_hash_result_t) :=
  if decide (num_server dart_g = 0) then None
  else
    let server_id := djb2_hash key len mod num_server dart_g in
    let is_full_scan :=
      match op_type with
      | OP_PREFIX_QUERY | OP_SUFFIX_QUERY => bool_decide (1 < len)
      | OP_INFIX_QUERY => true
      | _ => false
      end in
    Some (if is_full_scan then (λ i, HashResult i key 0 0) <$> seqZ 0 (num_server dart_g) else [HashResult server_id key 0 0]).
