(* ===== verification/DartSpec.v ===== *)
(** The theorems on DART: a query asks a server that an insertion of a matching key
    has written to, whichever of the two virtual nodes the insertion chose and
    whichever replica the query asks; a deletion reaches every replica. *)

From S2P Require Export Dart.

(** The space that [dart_space_init] makes for small parameters. *)
Record dart_ok (d : DART) : Prop := mkDartOk {
  ok_alphabet : 2 ≤ alphabet_size d;
  ok_height : 1 ≤ dart_tree_height d;
  ok_vnodes : num_vnode d = alphabet_size d ^ dart_tree_height d;
  ok_small : num_vnode d < 2147483648;
  ok_servers : 0 < num_server d ≤ num_vnode d;
  ok_replicas : 1 ≤ replication_factor d;
  ok_count : client_request_count d < 2147483647;
}.

(** The spaces of two clients differ in their request counters only. *)
Definition same_space (d d' : DART) : Prop :=
  alphabet_size d = alphabet_size d' ∧ dart_tree_height d = dart_tree_height d' ∧ replication_factor d = replication_factor d' ∧
  num_server d = num_server d' ∧ num_vnode d = num_vnode d'.

Lemma i32_small z : 0 ≤ z < 2147483648 → i32 z = z.
Proof. intros Hz. unfold i32, W32. rewrite Z.mod_small by lia. lia. Qed.

Section spec.
Context (d : DART) (Hok : dart_ok d).

Lemma vnodes_pos : 0 < num_vnode d.
Proof. destruct Hok. lia. Qed.
Lemma per_server : 0 < num_vnode d / num_server d < 2147483648.
Proof.
  destruct Hok. assert (num_vnode d / num_server d ≤ num_vnode d / 1) as H by (apply Z.div_le_compat_l; lia). rewrite Z.div_1_r in H. split; [|lia]. apply Z.div_str_pos. lia.
Qed.
Definition server_of (v : Z) : Z := (v / (num_vnode d / num_server d)) mod num_server d.
Lemma server_some v : get_server_id_by_vnode_id d v = Some (server_of v).
Proof.
  unfold get_server_id_by_vnode_id, server_of. pose proof per_server. destruct Hok. rewrite decide_False by lia. cbn zeta. rewrite i32_small by lia. rewrite u64_id by (unfold W64; lia).
  by rewrite decide_False by lia.
Qed.
Lemma server_bound v : 0 ≤ server_of v < num_server d.
Proof. apply Z.mod_pos_bound. destruct Hok. lia. Qed.

(** The region: the nodes below one node of the first level. *)
Lemma region_power : num_vnode d / alphabet_size d = alphabet_size d ^ (dart_tree_height d - 1).
Proof.
  destruct Hok as [? Hh Hv]. rewrite Hv. replace (dart_tree_height d) with (Z.succ (dart_tree_height d - 1)) at 1 by lia.
  rewrite Z.pow_succ_r by lia. rewrite Z.mul_comm, Z.div_mul by lia. done.
Qed.
Lemma region_pos : 0 < num_vnode d / alphabet_size d < 2147483648.
Proof.
  pose proof vnodes_pos. destruct Hok. assert (num_vnode d / alphabet_size d ≤ num_vnode d / 1) as H' by (apply Z.div_le_compat_l; lia). rewrite Z.div_1_r in H'. split; [|lia].
  rewrite region_power. apply Z.pow_pos_nonneg; lia.
Qed.

(** ** The virtual nodes of a word *)

Lemma forZ_ext_inv {S} (P : Z → S → Prop) n f g : ∀ i0 s,
  P i0 s → (∀ i s, i0 ≤ i < i0 + Z.of_nat n → P i s → f i s = g i s ∧ ∀ s', f i s = Some s' → P (i + 1) s') → forZ n i0 f s = forZ n i0 g s.
Proof.
  induction n as [|n IH]; intros i0 s H0 Hstep; [done|]. cbn [forZ]. destruct (Hstep i0 s) as [E HP]; [lia|done|]. rewrite <-E.
  destruct (f i0 s) as [s'|]; [|done]. cbn. apply IH; [by apply HP|]. intros i s1 Hi. apply Hstep. lia.
Qed.

(** The loop gives a node for every word that is not empty, whatever is in memory
    after the word. *)
Definition word_ok (s : string) : Prop := s ≠ [] ∧ 0 ∉ s.

Lemma char_at_in junk str n : (n < length str)%nat → str !! n = Some (char_at junk str n).
Proof. intros Hn. unfold char_at. destruct (lookup_lt_is_Some_2 _ _ Hn) as [c ->]. done. Qed.
Lemma char_at_nonzero junk str n : 0 ∉ str → (n < length str)%nat → char_at junk str n ≠ 0.
Proof. intros Hs Hn E. pose proof (char_at_in junk str n Hn) as H. rewrite E in H. apply Hs. by eapply list_elem_of_lookup_2. Qed.

Lemma base_loop junk str : word_ok str → ∃ i m r, forZ (Z.to_nat (dart_tree_height d)) 1 (base_step junk d str) (None, false, 0) = Some (Some i, m, r).
Proof.
  intros [Hne Hs]. destruct Hok as [Ha Hh _ _ _ _ _].
  destruct (forZ_inv (λ n s, n = 1 ∧ s = (None, false, 0) ∨ 1 < n ∧ ∃ i m r, s = (Some i, m, r)) (Z.to_nat (dart_tree_height d)) 1 (base_step junk d str) (None, false, 0)) as (s' & -> & [[]|[_ (i & m & r & ->)]]); [by left| |lia|by exists i, m, r].
  intros n s Hn [[-> ->]|[Hn1 (i & m & r & ->)]].
  - unfold base_step. change (Z.to_nat (1 - 1)) with 0%nat. pose proof (char_at_nonzero junk str 0 Hs ltac:(destruct str; [done|cbn; lia])) as Hc.
    rewrite decide_False, decide_True by done. cbn. eexists. split; [done|]. right. split; [lia|by eauto].
  - unfold base_step. destruct (decide (char_at junk str (Z.to_nat (n - 1)) ≠ 0 ∧ _)); cbn; (eexists; split; [done|]; right; split; [lia|by eauto]).
Qed.

Lemma base_some junk str : word_ok str → ∃ v, get_base_virtual_node_id_by_string junk d str = Some v ∧ 0 ≤ v < num_vnode d.
Proof.
  intros Hs. unfold get_base_virtual_node_id_by_string. destruct (base_loop junk str Hs) as (i & m & r & ->). cbn. pose proof vnodes_pos. rewrite decide_False by lia.
  eexists. split; [done|]. apply Z.mod_pos_bound. lia.
Qed.

(** After the end of the word the loop does not look at the characters. *)
Lemma base_step_same junk junk' str str' n i m r :
  char_at junk str (Z.to_nat (n - 1)) = char_at junk' str' (Z.to_nat (n - 1)) ∨ m = true → base_step junk d str n (i, m, r) = base_step junk' d str' n (i, m, r).
Proof.
  unfold base_step. intros [->| ->]; [done|]. generalize (char_at junk str (Z.to_nat (n - 1))), (char_at junk' str' (Z.to_nat (n - 1))). intros c c'.
  assert (∀ c, (if decide (c = 0) then true else true) = true) as E by (intros; by case_decide). cbn zeta. rewrite !E.
  by rewrite !decide_False by (by intros []).
Qed.
Lemma base_step_end junk str n i m r s' : base_step junk d str n (i, m, r) = Some s' → s'.1.2 = if decide (char_at junk str (Z.to_nat (n - 1)) = 0) then true else m.
Proof. unfold base_step. intros H. destruct (if decide (_ ∧ _) then _ else _) in H; cbn in H; [|done]. by injection H as <-. Qed.

Lemma base_junk junk junk' str : get_base_virtual_node_id_by_string junk d str = get_base_virtual_node_id_by_string junk' d str.
Proof.
  unfold get_base_virtual_node_id_by_string. f_equal. apply (forZ_ext_inv (λ n s, Z.of_nat (length str) + 1 < n → s.1.2 = true)); [cbn; lia|].
  intros n [[i m] r] Hn Hm. cbn in Hm. split.
  - apply base_step_same. unfold char_at. destruct (str !! Z.to_nat (n - 1)) as [c|] eqn:E; [by left|]. apply lookup_ge_None in E. case_decide; [by left|right]. apply Hm. lia.
  - intros s' ->%base_step_end Hlt. case_decide as Hc; [done|]. apply Hm. unfold char_at in Hc. rewrite lookup_ge_None_2 in Hc by lia. case_decide; [done|lia].
Qed.

(** A prefix that is as long as the tree is high has the same base node. *)
Lemma base_prefix junk q t : q `prefix_of` t → dart_tree_height d ≤ lenZ q → get_base_virtual_node_id_by_string junk d q = get_base_virtual_node_id_by_string junk d t.
Proof.
  intros [k ->] Hq. unfold get_base_virtual_node_id_by_string. f_equal. apply (forZ_ext_inv (λ _ _, True)); [done|]. intros n [[i m] r] Hn _. split; [|done].
  apply base_step_same. left. unfold char_at, lenZ in *. rewrite lookup_app_l by lia. destruct (lookup_lt_is_Some_2 q (Z.to_nat (n - 1))) as [c ->]; [lia|done].
Qed.

(** ** The alternative node *)

Lemma alternative_some b w : word_ok w → ∃ v, alternative_vnode d b w = Some v ∧ 0 ≤ v < num_vnode d.
Proof.
  intros [Hne _]. pose proof Hok as [Ha Hh _ _ _ _ _]. pose proof region_pos. pose proof vnodes_pos. assert (0 < lenZ w) by (destruct w; [done|]; unfold lenZ; cbn; lia).
  unfold alternative_vnode. rewrite i32_small by lia. set (lc := if decide (lenZ w ≤ dart_tree_height d) then lenZ w - 1 else dart_tree_height d - 1).
  assert (0 ≤ lc < lenZ w) as Hlc by (unfold lc; case_decide; lia).
  assert (∃ p, (if decide (lenZ w ≤ dart_tree_height d) then Some 0 else char_index d <$> getZ w (lc + 1)) = Some p) as [p ->].
  { case_decide as Hl; [by eexists|]. destruct (getZ_is_Some w (lc + 1)) as [c ->]; [lia|by eexists]. }
  cbn [mbind option_bind].
  assert (∃ p, (if decide (lenZ w ≤ dart_tree_height d ∧ lenZ w ≤ 1 ∨ dart_tree_height d ≤ 1) then Some 0 else char_index d <$> getZ w (lc - 1)) = Some p) as [p' ->].
  { case_decide as Hl; [by eexists|]. destruct (getZ_is_Some w (lc - 1)) as [c ->]; [|by eexists]. unfold lc in *. case_decide; lia. }
  destruct (getZ_is_Some w lc Hlc) as [c ->]. destruct (getZ_is_Some w 0 ltac:(lia)) as [c0 ->]. cbn. rewrite decide_False by lia.
  eexists. split; [done|]. apply Z.mod_pos_bound. lia.
Qed.

Lemma getZ_app_l (l k : list Z) i : 0 ≤ i < lenZ l → getZ (l ++ k) i = getZ l i.
Proof. intros Hi. unfold getZ, lenZ in *. rewrite !decide_True by lia. apply lookup_app_l. lia. Qed.
(** A longer prefix has the same alternative node. *)
Lemma alternative_prefix b q t : q `prefix_of` t → dart_tree_height d < lenZ q → alternative_vnode d b q = alternative_vnode d b t.
Proof.
  intros [k ->] Hq. destruct Hok as [Ha Hh _ _ _ _ _]. unfold alternative_vnode. cbn zeta. pose proof (lenZ_nonneg k).
  assert (∀ A (x y : A) (l : string), dart_tree_height d < lenZ l → (if decide (lenZ l ≤ dart_tree_height d) then x else y) = y) as E by (intros; by rewrite decide_False by lia).
  rewrite !(E _ _ _ q), !(E _ _ _ (q ++ k)) by (rewrite ?lenZ_app; lia).
  assert (∀ A (x y : A) (l : string), dart_tree_height d < lenZ l → (if decide (lenZ l ≤ dart_tree_height d ∧ lenZ l ≤ 1 ∨ dart_tree_height d ≤ 1) then x else y) = if decide (dart_tree_height d ≤ 1) then x else y) as E2.
  { intros A x y l Hl. apply decide_ext. lia. }
  rewrite (E2 _ _ _ q), (E2 _ _ _ (q ++ k)) by (rewrite ?lenZ_app; lia).
  rewrite (getZ_app_l q k (dart_tree_height d - 1 + 1)), (getZ_app_l q k (dart_tree_height d - 1)), (getZ_app_l q k 0) by lia.
  destruct (decide (dart_tree_height d ≤ 1)); [done|]. by rewrite (getZ_app_l q k) by lia.
Qed.
(** ** The servers of a word *)

Definition base_of (s : string) : Z := default 0 (get_base_virtual_node_id_by_string (λ _, 0) d s).
Definition alt_of (s : string) : Z := if decide (dart_tree_height d ≤ 1) then base_of s else default 0 (alternative_vnode d (base_of s) s).
(** The nodes an entry of the word may be on. *)
Definition node_of (s : string) (v : Z) : Prop := v = base_of s ∨ v = alt_of s.
Definition replicas (v : Z) : list Z := v :: ((λ r, (v +w r *w (num_vnode d / alphabet_size d)) mod num_vnode d) <$> seqZ 1 (replication_factor d - 1)).

Lemma base_of_some junk s : word_ok s → get_base_virtual_node_id_by_string junk d s = Some (base_of s).
Proof. intros Hs. unfold base_of. rewrite (base_junk junk (λ _, 0)). destruct (base_some (λ _, 0) s Hs) as (v & -> & _). done. Qed.
Lemma reconciled_some s cb : word_ok s → ∃ v, get_reconciled_vnode_id_with_power_of_two_choice_rehashing_2 d (base_of s) s cb = Some v ∧ node_of s v ∧ (cb = None → v = alt_of s).
Proof.
  intros Hs. unfold get_reconciled_vnode_id_with_power_of_two_choice_rehashing_2, node_of, alt_of. rewrite server_some. cbn [mbind option_bind]. case_decide as Hh; [by eauto|].
  destruct (alternative_some (base_of s) s Hs) as (v & -> & _). cbn [mbind option_bind default]. rewrite server_some. cbn [mbind option_bind].
  destruct cb as [cb|]; [|by eexists; split; [done|]; split; [right|]]. case_decide; (eexists; split; [done|]; split; [by auto|done]).
Qed.
Lemma replicas_some v : get_replica_node_ids d v false = Some (replicas v).
Proof. unfold get_replica_node_ids. pose proof vnodes_pos. destruct Hok. by rewrite decide_False by lia. Qed.
Lemma replicas_length v : lenZ (replicas v) = replication_factor d.
Proof. unfold replicas, lenZ. cbn [length]. rewrite length_fmap, length_seqZ. destruct Hok. lia. Qed.
Lemma replicas_in v i : 0 ≤ i < replication_factor d → ∃ x, getZ (replicas v) i = Some x ∧ x ∈ replicas v.
Proof.
  intros Hi. rewrite <-(replicas_length v) in Hi. destruct (getZ_is_Some _ _ Hi) as [x Hx]. exists x. split; [done|]. unfold getZ in Hx. rewrite decide_True in Hx by lia. by eapply list_elem_of_lookup_2.
Qed.

(** A word and its long prefixes have the same nodes. *)
Definition same_route (q t : string) : Prop := q = t ∨ q `prefix_of` t ∧ dart_tree_height d < lenZ q.
Lemma route_nodes q t : same_route q t → base_of q = base_of t ∧ alt_of q = alt_of t.
Proof.
  intros [->|[Hp Hl]]; [done|]. assert (base_of q = base_of t) as E by (unfold base_of; by rewrite (base_prefix _ q t) by (done || lia)).
  split; [done|]. unfold alt_of. rewrite E. by rewrite (alternative_prefix _ q t).
Qed.

Lemma insert_ids junk s cb : word_ok s → ∃ v, get_server_ids_for_insert junk d s cb = Some (replicas v) ∧ node_of s v.
Proof.
  intros Hs. unfold get_server_ids_for_insert. rewrite base_of_some by done. cbn [mbind option_bind]. destruct (reconciled_some s cb Hs) as (v & -> & Hv & _). cbn [mbind option_bind]. rewrite replicas_some. by exists v.
Qed.

Lemma count_incr : ∃ n d', dart_client_request_count_incr d = Some (n, d') ∧ 0 ≤ n ∧ same_space d d'.
Proof.
  unfold dart_client_request_count_incr. destruct Hok. cbn zeta. rewrite decide_False by (case_decide; lia). eexists _, _. split; [done|]. split; [case_decide; lia|done].
Qed.

(** A query that is no broadcast asks a replica of each of the two nodes. *)
Lemma query_ids sfx junk s op : word_ok s → op ≠ OP_INSERT → op ≠ OP_DELETE → ¬ (sfx = false ∧ op = OP_INFIX_QUERY) → is_region_query sfx d s op = false →
  ∃ l d', get_server_ids_for_query sfx junk d s op = Some (l, d') ∧ same_space d d' ∧ ∀ v, node_of s v → ∃ x, x ∈ replicas v ∧ x ∈ l.
Proof.
  intros Hs Hi Hd Hx Hr. unfold get_server_ids_for_query. rewrite !decide_False by done. rewrite Hr, base_of_some by done. cbn [mbind option_bind].
  destruct (reconciled_some s None Hs) as (v & -> & _ & ->); [|done]. cbn [mbind option_bind]. rewrite !replicas_some. cbn [mbind option_bind]. rewrite decide_False by done.
  destruct count_incr as (n & d' & -> & Hn & Hsp). cbn [mbind option_bind]. rewrite replicas_length.
  assert (0 ≤ Z.rem n (replication_factor d) < replication_factor d) as Hrem by (apply Z.rem_bound_pos; [done|destruct Hok; lia]).
  destruct (replicas_in (base_of s) _ Hrem) as (b & -> & Hb), (replicas_in (alt_of s) _ Hrem) as (r & -> & Hr'). cbn [mbind option_bind].
  eexists _, d'. split; [done|]. split; [done|]. intros v' [->| ->].
  - exists b. split; [done|]. case_decide; by left.
  - exists r. split; [done|]. case_decide as E; [by right; left|]. rewrite E. by left.
Qed.
Lemma delete_ids sfx junk s : word_ok s → get_server_ids_for_query sfx junk d s OP_DELETE = Some (replicas (base_of s) ++ replicas (alt_of s), d).
Proof.
  intros Hs. unfold get_server_ids_for_query. rewrite decide_False, decide_False by naive_solver.
  assert (is_region_query sfx d s OP_DELETE = false) as -> by (apply bool_decide_eq_false; destruct sfx; naive_solver).
  rewrite base_of_some by done. cbn [mbind option_bind].
  destruct (reconciled_some s None Hs) as (v & -> & _ & ->); [|done]. cbn [mbind option_bind]. by rewrite !replicas_some.
Qed.

(** ** The results of the hash *)

Definition results (tok : string) (flag : Z) (ids : list Z) : list index_hash_result_t := (λ id, HashResult (server_of id) tok id flag) <$> ids.
Lemma results_some tok flag ids : mapM (λ id, s ← get_server_id_by_vnode_id d id; Some (HashResult s tok id flag)) ids = Some (results tok flag ids).
Proof. unfold results. induction ids as [|id ids IH]; [done|]. cbn [mapM]. rewrite server_some. cbn [mbind option_bind]. unfold mbind, option_bind in *. by rewrite IH. Qed.

Definition flag_of (i : nat) : Z := if decide (0 < i)%nat then 1 else 0.

(** What one iteration of a write does: [ids] are the nodes for the token. *)
Definition write_ids (sfx : bool) (junk : nat → Z) (op : dart_op_type_t) (cb : option (Z → Z)) (t : string) : option (list Z * DART) :=
  if decide (op = OP_INSERT) then ids ← get_server_ids_for_insert junk d t cb; Some (ids, d) else get_server_ids_for_query sfx junk d t op.

Lemma hash_loop_write sfx junk op cb key (nodes : string → list Z → Prop) :
  (∀ t, word_ok t → ∃ ids, write_ids sfx junk op cb t = Some (ids, d) ∧ nodes t ids) →
  ∀ n it, (∀ i, (it ≤ i < it + n)%nat → ∃ t, hash_token sfx key i = Some t ∧ word_ok t) →
  ∃ res, hash_loop sfx junk n it d key op cb = Some (res, d) ∧
    (∀ r, r ∈ res → ∃ i t ids, (it ≤ i < it + n)%nat ∧ hash_token sfx key i = Some t ∧ nodes t ids ∧ r ∈ results t (flag_of i) ids) ∧
    (∀ i, (it ≤ i < it + n)%nat → ∃ t ids, hash_token sfx key i = Some t ∧ nodes t ids ∧ ∀ r, r ∈ results t (flag_of i) ids → r ∈ res).
Proof.
  intros Hids. induction n as [|n IH]; intros it Htok; cbn [hash_loop].
  { exists []. split; [done|]. split; [by intros r ?%elem_of_nil|intros i Hi; lia]. }
  destruct (Htok it) as (t & E & Ht); [lia|]. rewrite E. cbn [mbind option_bind]. destruct (Hids t Ht) as (ids & Eids & Hnodes). unfold write_ids in Eids. rewrite Eids. cbn [mbind option_bind].
  rewrite results_some. cbn [mbind option_bind]. destruct (IH (S it)) as (rest & -> & Hsound & Hcomplete); [intros i Hi; apply Htok; lia|]. cbn [mbind option_bind].
  eexists. split; [done|]. split.
  - intros r [Hr|Hr]%elem_of_app; [exists it, t, ids; split_and!; (done || lia)|]. destruct (Hsound r Hr) as (i & t' & ids' & Hi & ?). exists i, t', ids'. split; [lia|done].
  - intros i Hi. destruct (decide (i = it)) as [->|Hne].
    + exists t, ids. split; [done|]. split; [done|]. intros r Hr. apply elem_of_app. by left.
    + destruct (Hcomplete i) as (t' & ids' & E' & Hn' & Hall); [lia|]. exists t', ids'. split; [done|]. split; [done|]. intros r Hr. apply elem_of_app. right. by apply Hall.
Qed.

(** The tokens of a key: its suffixes, or the key and its reverse. *)
Definition write_count (sfx : bool) (key : string) : nat := if sfx then length key else 2%nat.
Definition token_at (sfx : bool) (key : string) (i : nat) : string := if sfx then drop i key else if decide (0 < i)%nat then reverse key else key.
Lemma tokens sfx key i : word_ok key → (i < write_count sfx key)%nat → hash_token sfx key i = Some (token_at sfx key i) ∧ word_ok (token_at sfx key i).
Proof.
  intros [Hne H0] Hi. unfold hash_token, token_at, write_count in *. destruct sfx.
  - rewrite substring_some by (unfold lenZ; lia). cbn [mbind option_bind]. rewrite Nat2Z.id, take_ge by (rewrite length_drop; unfold lenZ; lia).
    split; [done|]. split; [intros E; apply (f_equal length) in E; rewrite length_drop in E; cbn in E; lia|]. intros Hin. apply H0. rewrite <-(take_drop i key). apply elem_of_app. by right.
  - case_decide; [rewrite reverse_str_spec|done]. split; [done|]. split; [|by rewrite elem_of_reverse]. intros E. apply Hne. apply (f_equal reverse) in E. by rewrite reverse_involutive in E.
Qed.

Lemma insert_results sfx junk key cb : word_ok key →
  ∃ ins, DART_hash sfx junk d key OP_INSERT cb = Some (ins, d) ∧
    (∀ r, r ∈ ins → ∃ i v, (i < write_count sfx key)%nat ∧ node_of (token_at sfx key i) v ∧ r ∈ results (token_at sfx key i) (flag_of i) (replicas v)) ∧
    (∀ i, (i < write_count sfx key)%nat → ∃ v, node_of (token_at sfx key i) v ∧ ∀ r, r ∈ results (token_at sfx key i) (flag_of i) (replicas v) → r ∈ ins).
Proof.
  intros Hk. destruct (hash_loop_write sfx junk OP_INSERT cb key (λ t ids, ∃ v, ids = replicas v ∧ node_of t v)) with (n := write_count sfx key) (it := 0%nat) as (ins & E & H1 & H2).
  - intros t Ht. unfold write_ids. rewrite decide_True by done. destruct (insert_ids junk t cb Ht) as (v & -> & Hv). by eauto.
  - intros i Hi. exists (token_at sfx key i). apply tokens; [done|lia].
  - exists ins. split; [exact E|]. split.
    + intros r Hr. destruct (H1 r Hr) as (i & t & ids & Hi & Et & (v & -> & Hv) & Hin). destruct (tokens sfx key i Hk) as [Et' _]; [lia|]. rewrite Et in Et'. injection Et' as ->. exists i, v. by split; [lia|].
    + intros i Hi. destruct (H2 i) as (t & ids & Et & (v & -> & Hv) & Hin); [lia|]. destruct (tokens sfx key i Hk Hi) as [Et' _]. rewrite Et in Et'. injection Et' as ->. by exists v.
Qed.

Lemma delete_results sfx junk key : word_ok key →
  ∃ del, DART_hash sfx junk d key OP_DELETE None = Some (del, d) ∧
    (∀ r, r ∈ del → ∃ i v, (i < write_count sfx key)%nat ∧ node_of (token_at sfx key i) v ∧ r ∈ results (token_at sfx key i) (flag_of i) (replicas v)) ∧
    (∀ i v r, (i < write_count sfx key)%nat → node_of (token_at sfx key i) v → r ∈ results (token_at sfx key i) (flag_of i) (replicas v) → r ∈ del).
Proof.
  intros Hk. destruct (hash_loop_write sfx junk OP_DELETE None key (λ t ids, ids = replicas (base_of t) ++ replicas (alt_of t))) with (n := write_count sfx key) (it := 0%nat) as (del & E & H1 & H2).
  - intros t Ht. unfold write_ids. rewrite decide_False by done. rewrite delete_ids by done. by eauto.
  - intros i Hi. exists (token_at sfx key i). apply tokens; [done|lia].
  - exists del. split; [exact E|]. unfold results in *. split.
    + intros r Hr. destruct (H1 r Hr) as (i & t & ids & Hi & Et & -> & Hin). destruct (tokens sfx key i Hk) as [Et' _]; [lia|]. rewrite Et in Et'. injection Et' as ->.
      rewrite fmap_app in Hin. apply elem_of_app in Hin as [Hin|Hin]; eexists i, _; (split; [lia|]; split; [|exact Hin]); [by left|by right].
    + intros i v r Hi Hv Hr. destruct (H2 i) as (t & ids & Et & -> & Hin); [lia|]. destruct (tokens sfx key i Hk Hi) as [Et' _]. rewrite Et in Et'. injection Et' as ->.
      apply Hin. rewrite fmap_app. apply elem_of_app. destruct Hv as [->| ->]; [by left|by right].
Qed.

Lemma query_results sfx junk tok op : word_ok tok → op ≠ OP_INSERT → op ≠ OP_DELETE → ¬ (sfx = false ∧ op = OP_INFIX_QUERY) → is_region_query sfx d tok op = false →
  ∃ qs d', DART_hash sfx junk d tok op None = Some (qs, d') ∧ same_space d d' ∧ (∀ r, r ∈ qs → hr_key r = tok ∧ 0 ≤ hr_server_id r < num_server d) ∧
    ∀ v, node_of tok v → ∃ x q, x ∈ replicas v ∧ q ∈ qs ∧ hr_server_id q = server_of x.
Proof.
  intros Ht Hi Hd Hx Hr. unfold DART_hash. assert (is_index_write_op op = false) as -> by (apply bool_decide_eq_false; by intros []). cbn [hash_loop].
  assert (hash_token sfx tok 0 = Some tok) as ->.
  { unfold hash_token. destruct sfx; [|by rewrite decide_False by lia]. rewrite substring_some by (unfold lenZ; lia). cbn [mbind option_bind]. by rewrite drop_0, take_ge by (unfold lenZ; lia). }
  cbn [mbind option_bind]. rewrite (decide_False (P := op = OP_INSERT)), (decide_False (P := (0 < 0)%nat)) by (done || lia). destruct (query_ids sfx junk tok op Ht Hi Hd Hx Hr) as (l & d' & -> & Hsp & Hl). cbn [mbind option_bind].
  assert (mapM (λ id, s ← get_server_id_by_vnode_id d' id; Some (HashResult s tok id 0)) l = Some (results tok 0 l)) as ->.
  { rewrite <-results_some. destruct Hsp as (_ & _ & _ & Hn & Hv). unfold get_server_id_by_vnode_id. by rewrite Hn, Hv. }
  cbn [mbind option_bind]. rewrite app_nil_r. eexists _, d'. split; [done|]. split; [done|]. unfold results. split.
  - intros r (id & -> & _)%list_elem_of_fmap. split; [done|]. apply server_bound.
  - intros v Hv. destruct (Hl v Hv) as (x & Hx1 & Hx2). exists x, (HashResult (server_of x) tok x 0). split; [done|]. split; [|done]. apply list_elem_of_fmap. by exists x.
Qed.
End spec.

(** * Insertion and query together *)

Lemma same_space_nodes d d' : same_space d d' →
  (∀ s, base_of d s = base_of d' s) ∧ (∀ s, alt_of d s = alt_of d' s) ∧ (∀ v, replicas d v = replicas d' v) ∧ (∀ v, server_of d v = server_of d' v).
Proof. destruct d, d'. intros (E1 & E2 & E3 & E4 & E5). cbn in *. subst. done. Qed.

(** A query for [tok] asks a server that the insertion of [key] has sent the token
    of iteration [i] to. *)
Lemma route_reaches sfx junk junk' d d' key cb tok op i :
  dart_ok d → dart_ok d' → same_space d d' → word_ok key → word_ok tok → (i < write_count sfx key)%nat → same_route d tok (token_at sfx key i) →
  op ≠ OP_INSERT → op ≠ OP_DELETE → ¬ (sfx = false ∧ op = OP_INFIX_QUERY) → is_region_query sfx d' tok op = false →
  ∃ ins qs d'', DART_hash sfx junk d key OP_INSERT cb = Some (ins, d) ∧ DART_hash sfx junk' d' tok op None = Some (qs, d'') ∧
    ∃ r q, r ∈ ins ∧ q ∈ qs ∧ hr_server_id r = hr_server_id q ∧ hr_key r = token_at sfx key i ∧ hr_is_suffix r = flag_of i.
Proof.
  intros Hd Hd' Hsp Hkey Htok Hi Hroute Ho1 Ho2 Hx Hr. destruct (insert_results d Hd sfx junk key cb Hkey) as (ins & -> & _ & Hins).
  destruct (query_results d' Hd' sfx junk' tok op Htok Ho1 Ho2 Hx Hr) as (qs & d'' & -> & _ & _ & Hqs). exists ins, qs, d''. split; [done|]. split; [done|].
  destruct (Hins i Hi) as (v & Hv & Hall). destruct (same_space_nodes d d' Hsp) as (Eb & Ea & Er & Es). destruct (route_nodes d Hd _ _ Hroute) as [Rb Ra].
  destruct (Hqs v) as (x & q & Hxin & Hq & Hserver).
  { unfold node_of in *. rewrite <-Eb, <-Ea, Rb, Ra. exact Hv. }
  exists (HashResult (server_of d x) (token_at sfx key i) x (flag_of i)), q. split; [|by rewrite Hserver, <-Es]. apply Hall. unfold results. apply list_elem_of_fmap. exists x. by rewrite Er.
Qed.

(** What the servers look for: the entry with the token, or those that start with it. *)
Definition entry_for (sfx : bool) (op : dart_op_type_t) (tok : string) (r : index_hash_result_t) : Prop :=
  match op with
  | OP_EXACT_QUERY => hr_key r = tok ∧ hr_is_suffix r = 0
  | OP_PREFIX_QUERY => tok `prefix_of` hr_key r ∧ hr_is_suffix r = 0
  | OP_SUFFIX_QUERY => if sfx then hr_key r = tok else tok `prefix_of` hr_key r ∧ hr_is_suffix r = 1
  | OP_INFIX_QUERY => tok `prefix_of` hr_key r
  | _ => False
  end.

Lemma suffix_drop (s t : string) : s `suffix_of` t → s = drop (length t - length s) t.
Proof. intros [k ->]. by rewrite length_app, Nat.add_sub, drop_app_length. Qed.

(** A key that matches a pattern has a token that the query for the pattern finds. *)
Lemma matching_token sfx key pattern tok op : word_ok key → tok ≠ [] →
  dart_determine_query_token_by_key_query sfx pattern = Some (tok, op) → simple_matches key pattern = Some true →
  ∃ i, (i < write_count sfx key)%nat ∧ word_ok tok ∧
    match op with
    | OP_EXACT_QUERY => i = 0%nat ∧ tok = token_at sfx key i
    | OP_PREFIX_QUERY => i = 0%nat ∧ tok `prefix_of` token_at sfx key i
    | OP_SUFFIX_QUERY => if sfx then tok = token_at sfx key i else i = 1%nat ∧ tok `prefix_of` token_at sfx key i
    | OP_INFIX_QUERY => sfx = true → tok `prefix_of` token_at sfx key i
    | _ => False
    end.
Proof.
  intros [Hne H0] Htok Hdet Hmatch. assert (pattern ≠ [STAR]) as Hp by (intros ->; done).
  destruct (simple_matches_spec key pattern Hp) as (b & Eb & Hb). rewrite Hmatch in Eb. injection Eb as <-. pose proof (proj1 Hb eq_refl) as H. clear Hb Hmatch. unfold pattern_matches in H.
  assert (0 < write_count sfx key)%nat as Hc by (destruct sfx, key; cbn; (done || lia)).
  assert (token_at sfx key 0 = key) as E0 by (by destruct sfx).
  unfold dart_determine_query_token_by_key_query in Hdet. destruct (determine_pattern_type pattern).
  - injection Hdet as <- <-. subst pattern. exists 0%nat. by rewrite E0.
  - destruct H as (m & -> & [k ->]). unfold subrstr in Hdet. rewrite token_prefix in Hdet. cbn in Hdet. injection Hdet as <- <-.
    exists 0%nat. rewrite E0. split; [done|]. split; [split; [done|]|split; [done|by exists k]]. intros Hin. apply H0, elem_of_app. by left.
  - destruct H as (m & -> & Hsuf). rewrite token_substr in Hdet. cbn [mbind option_bind] in Hdet. destruct sfx.
    + injection Hdet as <- <-. pose proof (suffix_length _ _ Hsuf) as Hlen. exists (length key - length m)%nat. cbn. rewrite <-(suffix_drop m key) by done.
      assert (0 < length m)%nat by (destruct m; [done|cbn; lia]). split; [destruct key; [done|cbn in *; lia]|]. split; [|done]. split; [done|]. destruct Hsuf as [k ->]. intros Hin. apply H0, elem_of_app. by right.
    + rewrite reverse_str_spec in Hdet. cbn in Hdet. injection Hdet as <- <-. exists 1%nat. split; [cbn; lia|]. destruct Hsuf as [k ->]. split; [split; [done|]|].
      * rewrite elem_of_reverse. intros Hin. apply H0, elem_of_app. by right.
      * split; [done|]. cbn. rewrite reverse_app. by eexists.
  - destruct H as (m & -> & l & r & ->). rewrite token_middle in Hdet. cbn in Hdet. injection Hdet as <- <-. assert (0 < length m)%nat by (destruct m; [done|cbn; lia]).
    assert (word_ok m) by (split; [done|]; intros Hin; apply H0; rewrite !elem_of_app; auto).
    destruct sfx; [|by exists 0%nat]. exists (length l). cbn. rewrite !length_app, drop_app_length. split; [lia|]. split; [done|]. intros _. by exists r.
Qed.

(** [dart_space_init] makes such a space when [pow] is exact and the height suits the
    number of servers. *)
Lemma space_init_ok height fpow d n a x rf m :
  let h := height a (if decide (m = 0) then n else m) + 1 + x in
  2 ≤ a → 1 ≤ h → fpow a h = a ^ h → a ^ h < 2147483648 → 0 < n ≤ a ^ h → 1 ≤ rf → client_request_count d < 2147483647 → dart_ok (dart_space_init height fpow d n a x rf m).
Proof. cbn zeta. intros Ha Hh Hp Hs Hn Hrf Hc. split; cbn; rewrite ?Hp; done. Qed.

Definition ex_dart : DART := dart_space_init (λ _ _, 3) Z.pow (mkDART 0 0 0 0 0 0) 512 27 0 3 8192.
Lemma ex_dart_ok : dart_ok ex_dart.
Proof. by apply space_init_ok. Qed.
Definition ex_word : string := [97; 98; 99; 100; 101].
Lemma ex_word_ok : word_ok ex_word.
Proof. split; [done|]. by apply (bool_decide_unpack _). Qed.
Definition servers_of (flag : Z) (r : option (list index_hash_result_t * DART)) : list Z :=
  match r with Some r => map hr_server_id (filter (λ e, hr_is_suffix e = flag) r.1) | None => [] end.

(** A query reaches the keys that match it.  Whatever the load callback made of
    the choice between the two nodes, whatever the counter of the client that
    queries, a query whose pattern matches an inserted key asks at least one server
    that the insertion sent a matching entry to.  This holds for exact queries, for
    suffix queries with suffix trees, and for all tokens longer than the tree is high,
    infix queries without suffix trees excepted. *)
Theorem dart_query_reaches sfx junk junk' d d' key pattern tok op cb :
  dart_ok d → dart_ok d' → same_space d d' → word_ok key → tok ≠ [] →
  dart_determine_query_token_by_key_query sfx pattern = Some (tok, op) → simple_matches key pattern = Some true →
  op = OP_EXACT_QUERY ∨ (sfx = true ∧ op = OP_SUFFIX_QUERY) ∨ (dart_tree_height d < lenZ tok ∧ (sfx = true ∨ op ≠ OP_INFIX_QUERY)) →
  ∃ ins qs d'', DART_hash sfx junk d key OP_INSERT cb = Some (ins, d) ∧ DART_hash sfx junk' d' tok op None = Some (qs, d'') ∧
    ∃ r q, r ∈ ins ∧ q ∈ qs ∧ hr_server_id r = hr_server_id q ∧ entry_for sfx op tok r.
Proof.
  intros Hd Hd' Hsp Hkey Hne Hdet Hm Hkind. destruct (matching_token sfx key pattern tok op Hkey Hne Hdet Hm) as (i & Hi & Htok & Hop).
  assert (dart_tree_height d' = dart_tree_height d) as Eh by (destruct Hsp as (_ & -> & _); done).
  assert (is_region_query sfx d' tok op = false) as Hr by (apply bool_decide_eq_false; rewrite Eh; destruct sfx; naive_solver lia).
  assert (same_route d tok (token_at sfx key i)) as Hroute by (unfold same_route; destruct op, sfx; naive_solver).
  destruct (route_reaches sfx junk junk' d d' key cb tok op i) as (ins & qs & d'' & E1 & E2 & r & q & Hr1 & Hq & Es & Ek & Ef); try done; try (by intros ->); [destruct sfx; naive_solver|].
  exists ins, qs, d''. split; [done|]. split; [done|]. exists r, q. split; [done|]. split; [done|]. split; [done|].
  unfold entry_for. rewrite Ek, Ef. destruct op, sfx; naive_solver.
Qed.

Lemma dart_query_reaches_witness :
  ∃ ins qs d'', DART_hash true (λ _, 0) ex_dart ex_word OP_INSERT (Some (λ s, s)) = Some (ins, ex_dart) ∧ DART_hash true (λ _, 0) ex_dart [99; 100; 101] OP_SUFFIX_QUERY None = Some (qs, d'') ∧
    ∃ r q, r ∈ ins ∧ q ∈ qs ∧ hr_server_id r = hr_server_id q ∧ entry_for true OP_SUFFIX_QUERY [99; 100; 101] r.
Proof.
  apply (dart_query_reaches true (λ _, 0) (λ _, 0) ex_dart ex_dart ex_word [42; 99; 100; 101] [99; 100; 101] OP_SUFFIX_QUERY (Some (λ s, s)));
    [apply ex_dart_ok|apply ex_dart_ok|done|apply ex_word_ok|done|by vm_compute|by vm_compute|by right; left].
Defined.

(** C30: a deletion reaches every replica: every result of the insertion of a key,
    whatever node the load callback chose, is a result of its deletion. *)
Theorem dart_delete_reaches sfx junk junk' d d' key cb :
  dart_ok d → dart_ok d' → same_space d d' → word_ok key →
  ∃ ins del, DART_hash sfx junk d key OP_INSERT cb = Some (ins, d) ∧ DART_hash sfx junk' d' key OP_DELETE None = Some (del, d') ∧ ∀ r, r ∈ ins → r ∈ del.
Proof.
  intros Hd Hd' Hsp Hkey. destruct (insert_results d Hd sfx junk key cb Hkey) as (ins & -> & Hins & _). destruct (delete_results d' Hd' sfx junk' key Hkey) as (del & -> & _ & Hdel).
  exists ins, del. split; [done|]. split; [done|]. intros r Hr. destruct (Hins r Hr) as (i & v & Hi & Hv & Hin). destruct (same_space_nodes d d' Hsp) as (Eb & Ea & Er & Es).
  apply (Hdel i v r Hi); unfold node_of in *; [by rewrite <-Eb, <-Ea|]. unfold results in *. apply list_elem_of_fmap in Hin as (id & -> & Hid). apply list_elem_of_fmap. exists id. by rewrite <-Er, Es.
Qed.
Lemma dart_delete_reaches_witness : ∃ ins del, DART_hash true (λ _, 0) ex_dart ex_word OP_INSERT (Some (λ s, s)) = Some (ins, ex_dart) ∧
  DART_hash true (λ _, 0) ex_dart ex_word OP_DELETE None = Some (del, ex_dart) ∧ ∀ r, r ∈ ins → r ∈ del.
Proof. apply (dart_delete_reaches true (λ _, 0) (λ _, 0) ex_dart ex_dart ex_word (Some (λ s, s))); [apply ex_dart_ok|apply ex_dart_ok|done|apply ex_word_ok]. Defined.

(** * Hash tables *)

(** With hash tables, exact and infix queries, and prefix and suffix queries for
    more than one character of the token, ask a server that has the key. *)
Theorem dht_query_reaches d len key len' tok op : 0 < num_server d →
  op = OP_EXACT_QUERY ∧ len = len' ∧ key = tok ∨ op = OP_INFIX_QUERY ∨ (op = OP_PREFIX_QUERY ∨ op = OP_SUFFIX_QUERY) ∧ 1 < len' →
  ∃ r qs, DHT_hash d len key OP_INSERT = Some [r] ∧ DHT_hash d len' tok op = Some qs ∧ ∃ q, q ∈ qs ∧ hr_server_id q = hr_server_id r.
Proof.
  intros Hn Hop. unfold DHT_hash. rewrite !decide_False by lia. eexists _, _. split; [done|]. split; [done|]. cbn [hr_server_id].
  assert (0 ≤ djb2_hash key len mod num_server d < num_server d) as Hb by (by apply Z.mod_pos_bound).
  assert (∃ q, q ∈ ((λ i, HashResult i tok 0 0) <$> seqZ 0 (num_server d)) ∧ hr_server_id q = djb2_hash key len mod num_server d) as Hall.
  { eexists. split; [apply list_elem_of_fmap; eexists; split; [done|]; apply elem_of_seqZ|done]. lia. }
  destruct Hop as [(-> & -> & ->)|[->|[[->| ->] Hl]]]; [eexists; split; [by left|done]|exact Hall|by rewrite bool_decide_eq_true_2|by rewrite bool_decide_eq_true_2].
Qed.
Lemma dht_query_reaches_witness : ∃ r qs, DHT_hash ex_dart 5 ex_word OP_INSERT = Some [r] ∧ DHT_hash ex_dart 2 [97; 98] OP_PREFIX_QUERY = Some qs ∧ ∃ q, q ∈ qs ∧ hr_server_id q = hr_server_id r.
Proof. apply (dht_query_reaches ex_dart 5 ex_word 2 [97; 98] OP_PREFIX_QUERY); [done|]. right; right. by split; [left|]. Defined.

(** * Behaviours at the edges *)

(** A token as long as the tree is high has another alternative node than the keys it
    is a prefix of: when the load callback chose that node, the query misses them. *)
Example token_as_long_as_tree_is_high :
  servers_of 0 (DART_hash true (λ _, 0) ex_dart ex_word OP_INSERT (Some (λ s, if decide (s = 316) then 1 else 0))) = [368; 387; 406] ∧
  servers_of 0 (DART_hash true (λ _, 0) ex_dart [97; 98; 99; 100] OP_PREFIX_QUERY None) = [335; 373].
Proof. by vm_compute. Qed.
(** The broadcast for a shorter token, and the one of infix queries, computes the
    identifiers of servers, which are then taken for virtual nodes: all belong to
    the first server. *)
Example broadcast_asks_first_server :
  remove_dups (servers_of 0 (DART_hash true (λ _, 0) ex_dart [97; 98] OP_PREFIX_QUERY None)) = [0] ∧
  remove_dups (servers_of 0 (DART_hash false (λ _, 0) ex_dart [97; 98; 99; 100; 101; 102] OP_INFIX_QUERY None)) = [0].
Proof. by vm_compute. Qed.
(** The nodes of the second of two servers are 2 and 3. *)
Example vnodes_of_second_server : get_vnode_ids_by_serverID (mkDART 2 2 1 0 2 4) 1 = Some [0; 0].
Proof. by vm_compute. Qed.
