(* ===== verification/IdiomsIndex.v ===== *)
(** IDIOMS, the metadata index of one server
    ([src/src/commons/index/dart/index/idioms/idioms_local_index.c]): a trie over the
    keys, and for every key a trie over the string values, one over their suffixes
    (or their reverses) and a tree over the numeric values, which have the
    identifiers of the objects.  Tries and sets are finite maps and sets; the order in
    which they are traversed and the trees over numbers are given by classes. *)

From stdpp Require Import gmap.
From S2P Require Export Bulki StringUtils Dart.
#[local] Open Scope Z_scope.

(** * Data *)

Definition PDC_UNKNOWN : Z := 0.
Definition PDC_INT64 : Z := 11.
Definition PDC_UINT64 : Z := 12.
Definition PDC_DOUBLE : Z := 14.
Definition PDC_CHAR : Z := 15.
Definition is_PDC_UINT (type : Z) : bool := bool_decide (type ∈ [3; 12; 8; 6; 10; 19]).
Definition is_PDC_INT (type : Z) : bool := bool_decide (type ∈ [2; 11; 7; 5; 9; 4]).
Definition is_PDC_FLOAT (type : Z) : bool := bool_decide (type ∈ [13; 14]).
Definition is_PDC_STRING (type : Z) : bool := bool_decide (type ∈ [15; 16]).
Definition is_PDC_NUMERIC (type : Z) : bool := is_PDC_INT type || is_PDC_UINT type || is_PDC_FLOAT type.

(** [obj_id_set] *)

Notation id_set := (gset Z).

Notation trie A := (gmap (list Z) A).

(** [rbtree.h]: a tree over numbers, compared by a function of their type.  [rbt_add]
    adds a key that was not found, [rbt_store] changes the set of one that was;
    [rbt_range] are the sets of the keys between the bounds (with whether they are
    included). *)
Class NumberTrees := {
  rbt_t : Type;
  rbt_create_by_dtype : Z → rbt_t;
  rbt_find : rbt_t → list Z → option id_set;
  rbt_add : rbt_t → list Z → id_set → rbt_t;
  rbt_store : rbt_t → list Z → id_set → rbt_t;
  rbt_remove : rbt_t → list Z → rbt_t;
  rbt_size : rbt_t → Z;
  rbt_range : rbt_t → option (list Z * bool) → option (list Z * bool) → list id_set;
  (** [None]: a type that is not one of numbers. *)
  get_number_from_string : string → Z → option (list Z);
}.

Record key_index_leaf_content_t `{!NumberTrees} := KeyLeaf {
  virtural_node_id : Z;
  primary_trie : option (trie id_set);
  secondary_trie : option (trie id_set);
  primary_rbt : option rbt_t;
  secondary_rbt : option rbt_t;
  val_idx_dtype : Z;
}.
Arguments KeyLeaf {_} _ _ _ _ _ _.

Record IDIOMS_t `{!NumberTrees} := Idioms {
  art_key_prefix_tree_g : trie key_index_leaf_content_t;
  art_key_suffix_tree_g : trie key_index_leaf_content_t;
  server_id_g : Z;
  index_record_count_g : Z;
  search_request_count_g : Z;
  insert_request_count_g : Z;
  delete_request_count_g : Z;
}.
Arguments Idioms {_} _ _ _ _ _ _ _.
Definition IDIOMS_init `{!NumberTrees} (server_id : Z) : IDIOMS_t := Idioms ∅ ∅ server_id 0 0 0 0.

(** [value] is a string (without its end) or the bytes of a number. *)
Record IDIOMS_md_idx_record_t := IdxRecord {
  rec_key : string;
  is_key_suffix : Z;
  virtual_node_id : Z;
  rec_type : Z;
  rec_value : list Z;
  obj_ids : list Z;
}.

(** Orders of traversal. *)
Class Traversal := {
  iter_trie : ∀ {A}, trie A → list (string * A);
  iter_trie_perm : ∀ {A} (m : trie A), iter_trie m ≡ₚ map_to_list m;
  iter_set : id_set → list Z;
  iter_set_perm : ∀ s, iter_set s ≡ₚ elements s;
}.

(** The bits of [val_idx_dtype]: strings above, numbers below. *)
Definition encodeTypeToBitmap (bitmap type : Z) : Z :=
  if decide (PDC_STRING ≤ type) then Z.lor bitmap (Z.shiftl (type - PDC_STRING + 1) 4 mod 256) else Z.lor bitmap (Z.land type 15).
Definition getNumericalTypeFromBitmap (bitmap : Z) : Z := Z.land bitmap 15.
Definition getCompoundTypeFromBitmap (bitmap : Z) : Z := Z.land (Z.shiftr bitmap 4) 15 + PDC_STRING - 1.

Section idioms.
(** [sfx]: whether [PDC_DART_SFX_TREE] is defined when the program is built. *)
Context `{TR : !Traversal, NT : !NumberTrees} (sfx : bool).

Definition with_tries (leaf : key_index_leaf_content_t) (p s : option (trie id_set)) : key_index_leaf_content_t :=
  KeyLeaf (virtural_node_id leaf) p s (primary_rbt leaf) (secondary_rbt leaf) (val_idx_dtype leaf).
Definition with_rbt (leaf : key_index_leaf_content_t) (r : option rbt_t) : key_index_leaf_content_t :=
  KeyLeaf (virtural_node_id leaf) (primary_trie leaf) (secondary_trie leaf) r (secondary_rbt leaf) (val_idx_dtype leaf).
Definition with_dtype (leaf : key_index_leaf_content_t) (type : Z) : key_index_leaf_content_t :=
  KeyLeaf (virtural_node_id leaf) (primary_trie leaf) (secondary_trie leaf) (primary_rbt leaf) (secondary_rbt leaf) (encodeTypeToBitmap (val_idx_dtype leaf) type).


(** * Creation *)

(** With a trie, and with a tree; without an index nothing is stored. *)
Definition insert_obj_ids_into_trie (index : option (trie id_set)) (attr_val : string) (ids : list Z) : option (trie id_set) * perr_t :=
  match index with
  | None => (None, FAIL)
  | Some m => (Some (<[attr_val := default ∅ (m !! attr_val) ∪ list_to_set ids]> m), SUCCEED)
  end.
Definition insert_obj_ids_into_rbt (index : option rbt_t) (attr_val : list Z) (ids : list Z) : option rbt_t * perr_t :=
  match index with
  | None => (None, FAIL)
  | Some t => (Some (match rbt_find t attr_val with
                     | None => rbt_add t attr_val (list_to_set ids)
                     | Some entry => rbt_store t attr_val (entry ∪ list_to_set ids)
                     end), SUCCEED)
  end.

(** The strings of a value in the second trie. *)
Definition secondary_keys (attr_val : string) : option (list string) :=
  if sfx then mapM (λ j, s ← substring attr_val (Z.of_nat j) (lenZ attr_val); s) (seq 0 (length attr_val))
  else r ← reverse_str attr_val; Some [r].

(** [None]: for a type that is a string but not [PDC_STRING] the trie is accessed as a
    tree. *)
Definition insert_value_into_second_level_index (leaf : key_index_leaf_content_t) (r : IDIOMS_md_idx_record_t) : option (key_index_leaf_content_t * perr_t) :=
  '(leaf, ret, stop) ← (
    if (getCompoundTypeFromBitmap (val_idx_dtype leaf) =? PDC_STRING)%Z && is_PDC_STRING (rec_type r) then
      if decide (rec_type r ≠ PDC_STRING) then None
      else
        attr_val ← stripQuotes (rec_value r); attr_val ← attr_val;
        let (p, ret) := insert_obj_ids_into_trie (primary_trie leaf) attr_val (obj_ids r) in
        if decide (ret = FAIL) then Some (with_tries leaf p (secondary_trie leaf), ret, true)
        else
          keys ← secondary_keys attr_val;
          let '(s, ret) := foldl (λ '(s, ret) k, insert_obj_ids_into_trie s k (obj_ids r)) (secondary_trie leaf, ret) keys in
          Some (with_tries leaf p s, ret, false)
    else Some (leaf, SUCCEED, false));
  if stop : bool then Some (leaf, ret)
  else if negb (getNumericalTypeFromBitmap (val_idx_dtype leaf) =? PDC_UNKNOWN)%Z && is_PDC_NUMERIC (rec_type r) then
    let (t, ret) := insert_obj_ids_into_rbt (primary_rbt leaf) (rec_value r) (obj_ids r) in Some (with_rbt leaf t, ret)
  else Some (leaf, ret).

Definition create_tries (leaf : key_index_leaf_content_t) (type : Z) : key_index_leaf_content_t :=
  if bool_decide (primary_trie leaf = None) && bool_decide (secondary_trie leaf = None) && is_PDC_STRING type then with_dtype (with_tries leaf (Some ∅) (Some ∅)) type else leaf.
Definition create_rbt (leaf : key_index_leaf_content_t) (type : Z) : key_index_leaf_content_t :=
  match primary_rbt leaf with
  | Some _ => leaf
  | None =>
    let leaf := if is_PDC_UINT type then with_dtype (with_rbt leaf (Some (rbt_create_by_dtype PDC_UINT64))) PDC_UINT64 else leaf in
    let leaf := if is_PDC_INT type then with_dtype (with_rbt leaf (Some (rbt_create_by_dtype PDC_INT64))) PDC_INT64 else leaf in
    if is_PDC_FLOAT type then with_dtype (with_rbt leaf (Some (rbt_create_by_dtype PDC_DOUBLE))) PDC_DOUBLE else leaf
  end.

Definition insert_into_key_trie (key_trie : trie key_index_leaf_content_t) (key : string) (r : IDIOMS_md_idx_record_t) : option (trie key_index_leaf_content_t * perr_t) :=
  let leaf := default (KeyLeaf 0 None None None None 0) (key_trie !! key) in
  let leaf := create_rbt (create_tries leaf (rec_type r)) (rec_type r) in
  let leaf := KeyLeaf (virtual_node_id r) (primary_trie leaf) (secondary_trie leaf) (primary_rbt leaf) (secondary_rbt leaf) (val_idx_dtype leaf) in
  '(leaf, ret) ← insert_value_into_second_level_index leaf r;
  Some (<[key := leaf]> key_trie, ret).

Definition idioms_local_index_create (idioms : IDIOMS_t) (r : IDIOMS_md_idx_record_t) : option (IDIOMS_t * perr_t) :=
  '(p, s) ← (if decide (is_key_suffix r = 1) then
               '(t, _) ← insert_into_key_trie (art_key_suffix_tree_g idioms) (rec_key r) r; Some (art_key_prefix_tree_g idioms, t)
             else '(t, _) ← insert_into_key_trie (art_key_prefix_tree_g idioms) (rec_key r) r; Some (t, art_key_suffix_tree_g idioms));
  Some (Idioms p s (server_id_g idioms) (index_record_count_g idioms + 1) (search_request_count_g idioms) (insert_request_count_g idioms + 1) (delete_request_count_g idioms), SUCCEED).

(** * Deletion *)

(** With a trie, and with a tree. *)
Definition delete_obj_ids_from_trie (index : option (trie id_set)) (attr_val : string) (ids : list Z) : option (trie id_set) :=
  m ← index;
  match m !! attr_val with
  | None => Some m
  | Some s => let s := s ∖ list_to_set ids in Some (if decide (s = ∅) then delete attr_val m else <[attr_val := s]> m)
  end.
Definition delete_obj_ids_from_rbt (index : option rbt_t) (attr_val : list Z) (ids : list Z) : option rbt_t :=
  t ← index;
  match rbt_find t attr_val with
  | None => Some t
  | Some s => let s := s ∖ list_to_set ids in Some (if decide (s = ∅) then rbt_remove t attr_val else rbt_store t attr_val s)
  end.

Definition delete_value_from_second_level_index (leaf : key_index_leaf_content_t) (r : IDIOMS_md_idx_record_t) : option key_index_leaf_content_t :=
  leaf ← (
    if (getCompoundTypeFromBitmap (val_idx_dtype leaf) =? PDC_STRING)%Z && is_PDC_STRING (rec_type r) then
      if decide (rec_type r ≠ PDC_STRING) then None
      else
        attr_val ← stripQuotes (rec_value r); attr_val ← attr_val;
        keys ← secondary_keys attr_val;
        Some (with_tries leaf (delete_obj_ids_from_trie (primary_trie leaf) attr_val (obj_ids r))
                (foldl (λ s k, delete_obj_ids_from_trie s k (obj_ids r)) (secondary_trie leaf) keys))
    else Some leaf);
  if negb (getNumericalTypeFromBitmap (val_idx_dtype leaf) =? PDC_UNKNOWN)%Z && is_PDC_NUMERIC (rec_type r) then
    Some (with_rbt leaf (delete_obj_ids_from_rbt (primary_rbt leaf) (rec_value r) (obj_ids r)))
  else Some leaf.

(** [None]: a trie that is not there has no size ([art_size]). *)
Definition not_empty (m : option (trie id_set)) : option (option (trie id_set)) := m ← m; Some (if decide (size m = 0%nat) then None else Some m).
Definition rbt_not_empty (t : option rbt_t) : option rbt_t := t ← t; if decide (rbt_size t = 0) then None else Some t.
(** Empty trees and tries are destroyed. *)
Definition destroy_empty (leaf : key_index_leaf_content_t) (type : Z) : option key_index_leaf_content_t :=
  let leaf := if is_PDC_NUMERIC type then
                KeyLeaf (virtural_node_id leaf) (primary_trie leaf) (secondary_trie leaf) (rbt_not_empty (primary_rbt leaf)) (rbt_not_empty (secondary_rbt leaf)) (val_idx_dtype leaf)
              else leaf in
  if is_PDC_STRING type then p ← not_empty (primary_trie leaf); s ← not_empty (secondary_trie leaf); Some (with_tries leaf p s) else Some leaf.
Definition is_key_leaf_cnt_empty (leaf : key_index_leaf_content_t) : bool :=
  match leaf with KeyLeaf _ None None None None _ => true | _ => false end.

Definition delete_from_key_trie (key_trie : trie key_index_leaf_content_t) (key : string) (r : IDIOMS_md_idx_record_t) : option (trie key_index_leaf_content_t) :=
  match key_trie !! key with
  | None => Some key_trie
  | Some leaf =>
    leaf ← delete_value_from_second_level_index leaf r;
    leaf ← destroy_empty leaf (rec_type r);
    Some (if is_key_leaf_cnt_empty leaf then delete key key_trie else <[key := leaf]> key_trie)
  end.

Definition idioms_local_index_delete (idioms : IDIOMS_t) (r : IDIOMS_md_idx_record_t) : option (IDIOMS_t * perr_t) :=
  '(p, s) ← (if decide (is_key_suffix r = 1) then
               t ← delete_from_key_trie (art_key_suffix_tree_g idioms) (rec_key r) r; Some (art_key_prefix_tree_g idioms, t)
             else t ← delete_from_key_trie (art_key_prefix_tree_g idioms) (rec_key r) r; Some (t, art_key_suffix_tree_g idioms));
  Some (Idioms p s (server_id_g idioms) (index_record_count_g idioms - 1) (search_request_count_g idioms) (insert_request_count_g idioms) (delete_request_count_g idioms + 1), SUCCEED).

(** * Search *)

(** The callbacks append to [obj_ids] of the record: [found] is that array. *)
Definition collect_obj_ids (ids : id_set) (found : list Z) : list Z := found ++ iter_set ids.

(** [*infix*] must occur in the key of the trie; [v_query] is the value of the query
    as it was sent, with its quotes. *)
Definition value_trie_callback (v_query : string) (key : string) (ids : id_set) (found : list Z) : option (list Z) :=
  match determine_pattern_type v_query with
  | PATTERN_MIDDLE =>
      infix ← substring v_query 1 (lenZ v_query - 1); infix ← infix;
      Some (if contains key infix then collect_obj_ids ids found else found)
  | _ => Some (collect_obj_ids ids found)
  end.

(** [art_iter] and [art_iter_prefix] with a callback that returns 0. *)
Definition iter_all {A} (f : string → A → list Z → option (list Z)) (l : list (string * A)) (found : list Z) : option (list Z) :=
  foldl (λ found kv, found ← found; f kv.1 kv.2 found) (Some found) l.
Definition with_prefix {A} (tok : string) (m : trie A) : list (string * A) := filter (λ kv, tok `prefix_of` kv.1) (iter_trie m).

Definition value_string_query (v_query secondary_query : string) (leaf : key_index_leaf_content_t) (found : list Z) : option (list Z) :=
  let lookup (t : option (trie id_set)) tok found :=
    match t ≫= (λ m, m !! tok) with Some ids => value_trie_callback v_query tok ids found | None => Some found end in
  let prefixed (t : option (trie id_set)) tok found :=
    match t with Some m => iter_all (value_trie_callback v_query) (with_prefix tok m) found | None => Some found end in
  match determine_pattern_type secondary_query with
  | PATTERN_EXACT => lookup (primary_trie leaf) secondary_query found
  | PATTERN_PREFIX => tok ← subrstr secondary_query (lenZ secondary_query - 1); tok ← tok; prefixed (primary_trie leaf) tok found
  | PATTERN_SUFFIX =>
      tok ← substr secondary_query 1; tok ← tok;
      if sfx then lookup (secondary_trie leaf) tok found else tok ← reverse_str tok; prefixed (secondary_trie leaf) tok found
  | PATTERN_MIDDLE =>
      tok ← substring secondary_query 1 (lenZ secondary_query - 1);
      match primary_trie leaf with
      | None => Some found
      | Some m =>
        if sfx then tok ← tok; s ← secondary_trie leaf; prefixed (Some s) tok found
        else iter_all (value_trie_callback v_query) (iter_trie m) found
      end
  end.

(** [value_rbt_callback] on the nodes of a range. *)
Definition value_rbt_walk (t : rbt_t) (lo hi : option (list Z * bool)) (found : list Z) : list Z :=
  foldl (λ found ids, collect_obj_ids ids found) found (rbt_range t lo hi).
Definition rbt_find_collect (t : rbt_t) (n : list Z) (found : list Z) : list Z :=
  match rbt_find t n with Some ids => collect_obj_ids ids found | None => found end.

(** The return value and the identifiers. *)
Definition value_number_query (secondary_query : string) (leaf : key_index_leaf_content_t) (found : list Z) : option (Z * list Z) :=
  match primary_rbt leaf with
  | None => Some (0, found)
  | Some t =>
    let num s := get_number_from_string s (getNumericalTypeFromBitmap (val_idx_dtype leaf)) in
    if startsWith secondary_query [PIPE] && startsWith secondary_query [PIPE] then
      num_str ← substring secondary_query 1 (lenZ secondary_query - 1); num_str ← num_str; val1 ← num num_str;
      Some (0, rbt_find_collect t val1 found)
    else if startsWith secondary_query [TILDE] then
      let endInclusive := bool_decide (getZ secondary_query 1 = Some PIPE) in
      numstr ← substring secondary_query (if endInclusive then 2 else 1) (lenZ secondary_query); numstr ← numstr; val1 ← num numstr;
      Some (0, value_rbt_walk t None (Some (val1, endInclusive)) found)
    else if endsWith secondary_query [TILDE] then
      let beginInclusive := bool_decide (getZ secondary_query (lenZ secondary_query - 2) = Some PIPE) in
      numstr ← substring secondary_query 0 (if beginInclusive then lenZ secondary_query - 2 else lenZ secondary_query - 1); numstr ← numstr; val1 ← num numstr;
      Some (0, value_rbt_walk t (Some (val1, beginInclusive)) None found)
    else if contains secondary_query [TILDE] then
      match split_at secondary_query TILDE with
      | [lo_tok; hi_tok] =>
        let beginInclusive := endsWith lo_tok [PIPE] in
        let endInclusive := startsWith hi_tok [PIPE] in
        lo ← (if beginInclusive then substring lo_tok 0 (lenZ lo_tok - 1) else Some (Some lo_tok)); lo ← lo;
        hi ← (if endInclusive then substring hi_tok 1 (lenZ hi_tok) else Some (Some hi_tok)); hi ← hi;
        val1 ← num lo; val2 ← num hi;
        Some (0, value_rbt_walk t (Some (val1, beginInclusive)) (Some (val2, endInclusive)) found)
      | _ => Some (-1, found)
      end
    else val1 ← num secondary_query; Some (0, rbt_find_collect t val1 found)
  end.

(** The query of the record: its key part and its value part. *)
Definition key_index_search_callback (k_query v_query : string) (key : string) (leaf : key_index_leaf_content_t) (found : list Z) : option (Z * list Z) :=
  skip ← match determine_pattern_type k_query with
         | PATTERN_MIDDLE => infix ← substring k_query 1 (lenZ k_query - 1); infix ← infix; Some (negb (contains key infix))
         | _ => Some false
         end;
  if skip : bool then Some (0, found)
  else
    found ← (if is_string_query v_query then bare ← stripQuotes v_query; bare ← bare; value_string_query v_query bare leaf found else Some found);
    if is_number_query v_query then value_number_query v_query leaf found else Some (0, found).

(** The traversal of the keys stops when the callback returns another value than 0. *)
Fixpoint iter_keys (k_query v_query : string) (l : list (string * key_index_leaf_content_t)) (found : list Z) : option (list Z) :=
  match l with
  | [] => Some found
  | (k, leaf) :: l => '(rst, found) ← key_index_search_callback k_query v_query k leaf found; if decide (rst = 0) then iter_keys k_query v_query l found else Some found
  end.
Definition search_key (k_query v_query : string) (m : trie key_index_leaf_content_t) (tok : string) : option (list Z) :=
  match m !! tok with Some leaf => '(_, found) ← key_index_search_callback k_query v_query tok leaf []; Some found | None => Some [] end.

Definition search_tries (idioms : IDIOMS_t) (k_query v_query : string) : option (list Z) :=
  match determine_pattern_type k_query with
  | PATTERN_EXACT => search_key k_query v_query (art_key_prefix_tree_g idioms) k_query
  | PATTERN_PREFIX =>
      tok ← substring k_query 0 (lenZ k_query - 1); tok ← tok;
      iter_keys k_query v_query (with_prefix tok (art_key_prefix_tree_g idioms)) []
  | PATTERN_SUFFIX =>
      tok ← substring k_query 1 (lenZ k_query); tok ← tok;
      if sfx then search_key k_query v_query (art_key_suffix_tree_g idioms) tok
      else tok ← reverse_str tok; iter_keys k_query v_query (with_prefix tok (art_key_suffix_tree_g idioms)) []
  | PATTERN_MIDDLE =>
      tok ← substring k_query 1 (lenZ k_query - 1);
      if sfx then tok ← tok; iter_keys k_query v_query (with_prefix tok (art_key_suffix_tree_g idioms)) []
      else iter_keys k_query v_query (iter_trie (art_key_prefix_tree_g idioms)) []
  end.

Definition KV_DELIM : Z := 61.
(** The query [KEY=VALUE] is in the key of the record; the identifiers found. *)
Definition idioms_local_index_search (idioms : IDIOMS_t) (query : string) : option (IDIOMS_t * list Z) :=
  match strchr query KV_DELIM with
  | None => Some (idioms, [])
  | Some _ =>
    k_query ← get_key query KV_DELIM; k_query ← k_query;
    v_query ← get_value query KV_DELIM; v_query ← v_query;
    found ← search_tries idioms k_query v_query;
    Some (Idioms (art_key_prefix_tree_g idioms) (art_key_suffix_tree_g idioms) (server_id_g idioms) (index_record_count_g idioms)
            (search_request_count_g idioms + 1) (insert_request_count_g idioms) (delete_request_count_g idioms), found)
  end.
End idioms.
