(* ===== verification/IdiomsSpec.v ===== *)
(** The index of one server against the relation it stores: insertions and deletions of
    string values, and what a query finds. *)

From stdpp Require Import gmap.
From S2P Require Export IdiomsIndex.
#[local] Open Scope Z_scope.

(** * One trie of values *)

Section trie.
Implicit Types (m : trie id_set) (R : string → Z → Prop).

(** The identifiers of every string; no string without identifiers. *)
Definition trie_rep m R : Prop :=
  (∀ k i, i ∈ default ∅ (m !! k) ↔ R k i) ∧ (∀ k s, m !! k = Some s → s ≠ ∅).

Lemma trie_rep_ext m R R' : (∀ k i, R k i ↔ R' k i) → trie_rep m R → trie_rep m R'.
Proof. intros E [H1 H2]. split; [|done]. intros k i. by rewrite <-E. Qed.
Lemma trie_rep_empty : trie_rep ∅ (λ _ _, False).
Proof. split; [|by intros k s E; rewrite lookup_empty in E]. intros k i. rewrite lookup_empty. cbn. set_solver. Qed.

Lemma insert_trie_rep m R k ids : trie_rep m R → ids ≠ [] →
  ∃ m', insert_obj_ids_into_trie (Some m) k ids = (Some m', SUCCEED) ∧ trie_rep m' (λ k' i, R k' i ∨ k' = k ∧ i ∈ ids).
Proof.
  intros [H1 H2] Hids. eexists. split; [done|]. split.
  - intros k' i. destruct (decide (k' = k)) as [->|Hne].
    + rewrite lookup_insert_eq. cbn. rewrite elem_of_union, elem_of_list_to_set, H1. naive_solver.
    + rewrite lookup_insert_ne by done. rewrite H1. naive_solver.
  - intros k' s E. destruct (decide (k' = k)) as [->|Hne]; [|rewrite lookup_insert_ne in E by done; eauto].
    rewrite lookup_insert_eq in E. injection E as <-. destruct ids; [done|]. set_solver.
Qed.
Lemma insert_keys_rep keys ids : ids ≠ [] → ∀ m R ret, trie_rep m R → ret = SUCCEED →
  ∃ m', foldl (λ '(s, ret) k, insert_obj_ids_into_trie s k ids) (Some m, ret) keys = (Some m', SUCCEED) ∧ trie_rep m' (λ k i, R k i ∨ k ∈ keys ∧ i ∈ ids).
Proof.
  intros Hids. induction keys as [|k keys IH]; intros m R ret Hm ->; cbn [foldl].
  - exists m. split; [done|]. eapply trie_rep_ext; [|exact Hm]. intros k i. set_solver.
  - destruct (insert_trie_rep m R k ids Hm Hids) as (m1 & -> & Hm1). destruct (IH m1 _ SUCCEED Hm1 eq_refl) as (m' & -> & Hm'). exists m'. split; [done|].
    eapply trie_rep_ext; [|exact Hm']. intros k' i. cbn. set_solver.
Qed.

Lemma delete_trie_rep m R k ids : trie_rep m R →
  ∃ m', delete_obj_ids_from_trie (Some m) k ids = Some m' ∧ trie_rep m' (λ k' i, R k' i ∧ ¬ (k' = k ∧ i ∈ ids)).
Proof.
  intros [H1 H2]. unfold delete_obj_ids_from_trie. cbn. destruct (m !! k) as [s|] eqn:Es.
  - eexists. split; [done|]. pose proof (H1 k) as Hk. rewrite Es in Hk. cbn in Hk. case_decide as Hs; split.
    + intros k' i. destruct (decide (k' = k)) as [->|Hne]; [rewrite lookup_delete_eq; cbn|rewrite lookup_delete_ne by done; rewrite H1; naive_solver].
      rewrite <-Hk. split; [set_solver|]. intros [Hi Hn]. destruct (decide (i ∈ ids)); [by destruct Hn|]. set_solver.
    + intros k' s' E. apply lookup_delete_Some in E as [_ E]. eauto.
    + intros k' i. destruct (decide (k' = k)) as [->|Hne]; [rewrite lookup_insert_eq; cbn|rewrite lookup_insert_ne by done; rewrite H1; naive_solver].
      rewrite <-Hk, elem_of_difference, elem_of_list_to_set. naive_solver.
    + intros k' s' E. destruct (decide (k' = k)) as [->|Hne]; [rewrite lookup_insert_eq in E; by injection E as <-|rewrite lookup_insert_ne in E by done; eauto].
  - exists m. split; [done|]. split; [|done]. intros k' i. rewrite H1. split; [|naive_solver]. intros Hi. split; [done|]. intros [-> _].
    apply H1 in Hi. rewrite Es in Hi. cbn in Hi. set_solver.
Qed.
Lemma delete_keys_rep keys ids : ∀ m R, trie_rep m R →
  ∃ m', foldl (λ s k, delete_obj_ids_from_trie s k ids) (Some m) keys = Some m' ∧ trie_rep m' (λ k i, R k i ∧ ¬ (k ∈ keys ∧ i ∈ ids)).
Proof.
  induction keys as [|k keys IH]; intros m R Hm; cbn [foldl].
  - exists m. split; [done|]. eapply trie_rep_ext; [|exact Hm]. intros k i. set_solver.
  - destruct (delete_trie_rep m R k ids Hm) as (m1 & -> & Hm1). destruct (IH m1 _ Hm1) as (m' & -> & Hm'). exists m'. split; [done|].
    eapply trie_rep_ext; [|exact Hm']. intros k' i. cbn. set_solver.
Qed.

Lemma not_empty_rep m R : trie_rep m R →
  (∃ k i, R k i) ∧ not_empty (Some m) = Some (Some m) ∨ (∀ k i, ¬ R k i) ∧ not_empty (Some m) = Some None.
Proof.
  intros [H1 H2]. unfold not_empty. cbn. case_decide as Hs.
  - right. split; [|done]. apply map_size_empty_inv in Hs. subst m. intros k i Hi. apply H1 in Hi. rewrite lookup_empty in Hi. cbn in Hi. set_solver.
  - left. split; [|done]. apply map_size_non_empty_iff in Hs. apply map_choose in Hs as (k & s & E). destruct (set_choose_L s) as [i Hi]; [eauto|]. exists k, i. apply H1. by rewrite E.
Qed.
End trie.

(** * One key *)

Section leaf.
Context `{TR : !Traversal, NT : !NumberTrees} (sfx : bool).
Implicit Types (T : string → Z → Prop).

(** The strings of the second trie. *)
Definition skeys (v : string) : list string := if sfx then (λ j, drop j v) <$> seq 0 (length v) else [reverse v].
Lemma secondary_keys_spec v : secondary_keys sfx v = Some (skeys v).
Proof.
  unfold secondary_keys, skeys. destruct sfx; [|by rewrite reverse_str_spec].
  assert (∀ l, (∀ j, j ∈ l → (j ≤ length v)%nat) → mapM (λ j, s ← substring v (Z.of_nat j) (lenZ v); s) l = Some ((λ j, drop j v) <$> l)) as HL.
  { induction l as [|j l IH]; intros Hl; [done|]. assert (j ≤ length v)%nat by (apply Hl; set_solver). cbn [mapM fmap list_fmap]. rewrite substring_some by (unfold lenZ; lia).
    cbn [mbind option_bind]. unfold mbind, option_bind in *. rewrite IH by set_solver. rewrite Nat2Z.id, take_ge by (rewrite length_drop; unfold lenZ; lia). done. }
  apply HL. intros j Hj%elem_of_seq. lia.
Qed.
Lemma skeys_true v k : sfx = true → k ∈ skeys v ↔ k ≠ [] ∧ k `suffix_of` v.
Proof.
  unfold skeys. intros ->. rewrite list_elem_of_fmap. split.
  - intros (j & -> & Hj%elem_of_seq). split; [intros E; apply (f_equal length) in E; rewrite length_drop in E; cbn in E; lia|]. exists (take j v). by rewrite take_drop.
  - intros [Hne [l ->]]. exists (length l). rewrite drop_app_length. split; [done|]. apply elem_of_seq. rewrite length_app. destruct k; [done|]. cbn. lia.
Qed.
Lemma skeys_false v k : sfx = false → k ∈ skeys v ↔ k = reverse v.
Proof. unfold skeys. intros ->. by rewrite list_elem_of_singleton. Qed.
Lemma skeys_not_nil v : v ≠ [] → ∃ k, k ∈ skeys v.
Proof. intros Hv. destruct sfx eqn:E; [exists v; by apply skeys_true|exists (reverse v); by apply skeys_false]. Qed.

(** The string part of a leaf: the values [T] with their identifiers. *)
Definition leaf_rep (leaf : key_index_leaf_content_t) T : Prop :=
  0 ≤ val_idx_dtype leaf < 32 ∧ (∀ v i, T v i → v ≠ []) ∧
  match primary_trie leaf, secondary_trie leaf with
  | None, None => ∀ v i, ¬ T v i
  | Some p, Some s =>
      getCompoundTypeFromBitmap (val_idx_dtype leaf) = PDC_STRING ∧ trie_rep p T ∧ trie_rep s (λ k i, ∃ v, T v i ∧ k ∈ skeys v) ∧ (∃ v i, T v i)
  | _, _ => False
  end.

Definition empty_leaf : key_index_leaf_content_t := KeyLeaf 0 None None None None 0.
Lemma leaf_rep_empty : leaf_rep empty_leaf (λ _ _, False).
Proof. split; [cbn; lia|]. split; [done|]. cbn. naive_solver. Qed.
Lemma leaf_rep_ext leaf T T' : (∀ v i, T v i ↔ T' v i) → leaf_rep leaf T → leaf_rep leaf T'.
Proof.
  intros E (H0 & H1 & H2). split; [done|]. split; [intros v i ?%E; eauto|]. destruct (primary_trie leaf), (secondary_trie leaf); try done; [|intros v i ?%E; naive_solver].
  destruct H2 as (Hc & Hp & Hs & v & i & Hv). split; [done|]. split; [by eapply trie_rep_ext|]. split; [|exists v, i; by apply E].
  eapply trie_rep_ext; [|exact Hs]. intros k j. cbn. naive_solver.
Qed.

(** The bits of the type. *)
Lemma encode_string bitmap : 0 ≤ bitmap < 32 → 0 ≤ encodeTypeToBitmap bitmap PDC_STRING < 32 ∧ getCompoundTypeFromBitmap (encodeTypeToBitmap bitmap PDC_STRING) = PDC_STRING.
Proof.
  intros Hb. assert (bool_decide (0 ≤ encodeTypeToBitmap bitmap PDC_STRING < 32) && bool_decide (getCompoundTypeFromBitmap (encodeTypeToBitmap bitmap PDC_STRING) = PDC_STRING) = true) as HB.
  { assert (Forall (λ b, bool_decide (0 ≤ encodeTypeToBitmap b PDC_STRING < 32) && bool_decide (getCompoundTypeFromBitmap (encodeTypeToBitmap b PDC_STRING) = PDC_STRING) = true) (seqZ 0 32)) as HF by (by apply (bool_decide_unpack _)).
    rewrite list.Forall_forall in HF. apply HF. apply elem_of_seqZ. lia. }
  apply andb_prop in HB as [H1 H2]. by apply bool_decide_eq_true in H1, H2.
Qed.
Definition number_code (type : Z) : Prop := type = PDC_UINT64 ∨ type = PDC_INT64 ∨ type = PDC_DOUBLE.
Lemma encode_number bitmap type : 0 ≤ bitmap < 32 → number_code type →
  0 ≤ encodeTypeToBitmap bitmap type < 32 ∧ getCompoundTypeFromBitmap (encodeTypeToBitmap bitmap type) = getCompoundTypeFromBitmap bitmap.
Proof.
  intros Hb Ht. assert (bool_decide (0 ≤ encodeTypeToBitmap bitmap type < 32) && bool_decide (getCompoundTypeFromBitmap (encodeTypeToBitmap bitmap type) = getCompoundTypeFromBitmap bitmap) = true) as HB.
  { assert (∀ type, number_code type → Forall (λ b, bool_decide (0 ≤ encodeTypeToBitmap b type < 32) && bool_decide (getCompoundTypeFromBitmap (encodeTypeToBitmap b type) = getCompoundTypeFromBitmap b) = true) (seqZ 0 32)) as HF
      by (intros ? [->|[->| ->]]; by apply (bool_decide_unpack _)).
    specialize (HF type Ht). rewrite list.Forall_forall in HF. apply HF. apply elem_of_seqZ. lia. }
  apply andb_prop in HB as [H1 H2]. by apply bool_decide_eq_true in H1, H2.
Qed.

(** ** Insertion *)

(** The same strings, whatever the numbers. *)
Definition same_strings (leaf leaf' : key_index_leaf_content_t) : Prop :=
  primary_trie leaf' = primary_trie leaf ∧ secondary_trie leaf' = secondary_trie leaf ∧
  (0 ≤ val_idx_dtype leaf < 32 → 0 ≤ val_idx_dtype leaf' < 32 ∧ getCompoundTypeFromBitmap (val_idx_dtype leaf') = getCompoundTypeFromBitmap (val_idx_dtype leaf)).
Lemma same_strings_refl leaf : same_strings leaf leaf.
Proof. done. Qed.
Lemma same_strings_trans l1 l2 l3 : same_strings l1 l2 → same_strings l2 l3 → same_strings l1 l3.
Proof. intros (P1 & S1 & D1) (P2 & S2 & D2). split; [congruence|]. split; [congruence|]. intros Hd. destruct (D1 Hd) as [Hd' E1]. destruct (D2 Hd') as [? E2]. split; [done|congruence]. Qed.
Lemma leaf_rep_same leaf leaf' T : same_strings leaf leaf' → leaf_rep leaf T → leaf_rep leaf' T.
Proof. intros (EP & ES & HD) (H0 & H1 & H2). destruct (HD H0) as [H0' EC]. split; [done|]. split; [done|]. by rewrite EP, ES, EC. Qed.
Lemma same_strings_number leaf t type : number_code type → same_strings leaf (with_dtype (with_rbt leaf t) type).
Proof. intros Ht. split; [done|]. split; [done|]. intros Hd. cbn. by apply encode_number. Qed.

Lemma create_rbt_same leaf type : same_strings leaf (create_rbt leaf type).
Proof.
  unfold create_rbt. destruct (primary_rbt leaf); [done|]. cbv zeta.
  assert (∀ (b : bool) l ty, number_code ty → same_strings l (if b then with_dtype (with_rbt l (Some (rbt_create_by_dtype ty))) ty else l)) as HB by (intros [] l ty ?; [by apply same_strings_number|done]).
  eapply same_strings_trans; [|apply HB; unfold number_code; auto]. eapply same_strings_trans; [|apply HB; unfold number_code; auto]. apply HB. unfold number_code; auto.
Qed.

(** The leaf has its tries, which may be empty. *)
Definition leaf_ready (leaf : key_index_leaf_content_t) T : Prop :=
  0 ≤ val_idx_dtype leaf < 32 ∧ (∀ v i, T v i → v ≠ []) ∧ getCompoundTypeFromBitmap (val_idx_dtype leaf) = PDC_STRING ∧
  ∃ p s, primary_trie leaf = Some p ∧ secondary_trie leaf = Some s ∧ trie_rep p T ∧ trie_rep s (λ k i, ∃ v, T v i ∧ k ∈ skeys v).
Lemma ready_same leaf leaf' T : same_strings leaf leaf' → leaf_ready leaf T → leaf_ready leaf' T.
Proof. intros (EP & ES & HD) (H0 & H1 & H2 & H3). destruct (HD H0) as [H0' EC]. split; [done|]. split; [done|]. by rewrite EP, ES, EC. Qed.
Lemma create_tries_ready leaf T : leaf_rep leaf T → leaf_ready (create_tries leaf PDC_STRING) T.
Proof.
  intros (H0 & H1 & H2). unfold create_tries. destruct (primary_trie leaf) as [p|] eqn:Ep, (secondary_trie leaf) as [s|] eqn:Es; try done.
  - rewrite bool_decide_false by done. cbn. destruct H2 as (Hc & Hp & Hs & _). split; [done|]. split; [done|]. split; [done|]. by exists p, s.
  - rewrite !bool_decide_true by done. cbn. destruct (encode_string _ H0) as [Hd Hc]. split; [done|]. split; [done|]. split; [done|]. exists ∅, ∅. split; [done|]. split; [done|].
    split; (eapply trie_rep_ext; [|apply trie_rep_empty]); intros k i; cbn; naive_solver.
Qed.

(** A record of a string: the value without quotes is [v]. *)
Definition string_record (r : IDIOMS_md_idx_record_t) (v : string) : Prop :=
  rec_type r = PDC_STRING ∧ stripQuotes (rec_value r) = Some (Some v) ∧ v ≠ [] ∧ obj_ids r ≠ [].
Definition number_record (r : IDIOMS_md_idx_record_t) : Prop := is_PDC_STRING (rec_type r) = false.

Lemma insert_string leaf r v T : leaf_ready leaf T → string_record r v →
  ∃ leaf', insert_value_into_second_level_index sfx leaf r = Some (leaf', SUCCEED) ∧ leaf_rep leaf' (λ v' i, T v' i ∨ v' = v ∧ i ∈ obj_ids r).
Proof.
  intros (H0 & H1 & Hc & p & s & Ep & Es & Hp & Hs) (Ht & Hv & Hne & Hids). unfold insert_value_into_second_level_index. rewrite Hc, Ht, Hv, Ep, Es.
  change ((PDC_STRING =? PDC_STRING) && is_PDC_STRING PDC_STRING) with true. cbn [mbind option_bind]. rewrite decide_False by auto. cbn [mbind option_bind].
  destruct (insert_trie_rep p T v (obj_ids r) Hp Hids) as (p' & -> & Hp'). rewrite decide_False by done. rewrite secondary_keys_spec. cbn [mbind option_bind].
  destruct (insert_keys_rep (skeys v) (obj_ids r) Hids s _ SUCCEED Hs eq_refl) as (s' & -> & Hs'). cbn [mbind option_bind].
  change (is_PDC_NUMERIC PDC_STRING) with false. rewrite andb_false_r. eexists. split; [done|]. split; [done|]. split; [intros v' i [Hv'|[-> _]]; eauto|]. cbn.
  split; [done|]. split; [done|]. split; [|destruct (obj_ids r) as [|i ids]; [done|]; exists v, i; set_solver]. eapply trie_rep_ext; [|exact Hs']. intros k i. cbn. naive_solver.
Qed.
Lemma insert_number leaf r : number_record r → ∃ leaf' ret, insert_value_into_second_level_index sfx leaf r = Some (leaf', ret) ∧ same_strings leaf leaf'.
Proof.
  intros Hr. unfold insert_value_into_second_level_index. rewrite Hr, andb_false_r. cbn [mbind option_bind]. destruct (negb _ && _); [|by exists leaf, SUCCEED].
  destruct (insert_obj_ids_into_rbt _ _ _) as [t ret]. eexists _, ret. split; [done|]. done.
Qed.

(** ** Deletion *)

(** No other value of the identifiers shares a string of the second trie. *)
Definition unshared T (v : string) (ids : list Z) : Prop := ∀ v' i k, T v' i → i ∈ ids → k ∈ skeys v → k ∈ skeys v' → v' = v.

Lemma delete_string leaf r v T : leaf_rep leaf T → string_record r v → (∃ v' i, T v' i) → unshared T v (obj_ids r) →
  ∃ leaf' leaf'', delete_value_from_second_level_index sfx leaf r = Some leaf' ∧ destroy_empty leaf' (rec_type r) = Some leaf'' ∧
    leaf_rep leaf'' (λ v' i, T v' i ∧ ¬ (v' = v ∧ i ∈ obj_ids r)).
Proof.
  intros (H0 & H1 & H2) (Ht & Hv & Hne & Hids) Hex Hun. destruct (primary_trie leaf) as [p|] eqn:Ep, (secondary_trie leaf) as [s|] eqn:Es; try done; [|naive_solver].
  destruct H2 as (Hc & Hp & Hs & _). unfold delete_value_from_second_level_index. rewrite Hc, Ht, Hv, Ep, Es.
  change ((PDC_STRING =? PDC_STRING) && is_PDC_STRING PDC_STRING) with true. cbn [mbind option_bind]. rewrite decide_False by auto. cbn [mbind option_bind]. rewrite secondary_keys_spec. cbn [mbind option_bind].
  change (is_PDC_NUMERIC PDC_STRING) with false. rewrite andb_false_r. destruct (delete_trie_rep p T v (obj_ids r) Hp) as (p' & -> & Hp'). destruct (delete_keys_rep (skeys v) (obj_ids r) s _ Hs) as (s' & -> & Hs').
  exists (with_tries leaf (Some p') (Some s')). unfold destroy_empty. change (is_PDC_NUMERIC PDC_STRING) with false. change (is_PDC_STRING PDC_STRING) with true. cbn [primary_trie secondary_trie with_tries].
  assert (∀ k i, (∃ v', T v' i ∧ k ∈ skeys v') ∧ ¬ (k ∈ skeys v ∧ i ∈ obj_ids r) ↔ ∃ v', (T v' i ∧ ¬ (v' = v ∧ i ∈ obj_ids r)) ∧ k ∈ skeys v') as Hsk.
  { intros k i. split; [naive_solver|]. intros (v' & [HT Hn] & Hk). split; [by exists v'|]. intros [Hk' Hi]. apply Hn. split; [|done]. by eapply Hun. }
  destruct (not_empty_rep p' _ Hp') as [[(v0 & i0 & HT0) ->]|[Hno ->]], (not_empty_rep s' _ Hs') as [[(k1 & i1 & HT1) ->]|[Hno' ->]]; cbn [mbind option_bind]; eexists; (split; [done|]; split; [done|]).
  - split; [done|]. split; [naive_solver|]. cbn. split; [done|]. split; [done|]. split; [exact (trie_rep_ext _ _ _ Hsk Hs')|]. by exists v0, i0.
  - destruct HT0 as [HT0 Hn0]. destruct (skeys_not_nil v0) as [k Hk]; [eauto|]. exfalso. apply (Hno' k i0), Hsk. by exists v0.
  - apply Hsk in HT1 as (v' & HT' & _). exfalso. by apply (Hno v' i1).
  - split; [done|]. split; [naive_solver|]. cbn. intros v' i. apply Hno.
Qed.
Lemma delete_number leaf r : number_record r → ∃ leaf' leaf'', delete_value_from_second_level_index sfx leaf r = Some leaf' ∧ destroy_empty leaf' (rec_type r) = Some leaf'' ∧ same_strings leaf leaf''.
Proof.
  intros Hr. unfold delete_value_from_second_level_index, destroy_empty. rewrite Hr, andb_false_r. cbn [mbind option_bind].
  destruct (negb _ && _); (eexists _, _; split; [done|]; split; [done|]); by destruct (is_PDC_NUMERIC _).
Qed.

(** * The keys of one trie *)

Implicit Types (K : string → string → Z → Prop) (m : trie key_index_leaf_content_t).

Definition keys_rep m K : Prop := ∀ key, leaf_rep (default empty_leaf (m !! key)) (K key).
Lemma keys_rep_ext m K K' : (∀ key v i, K key v i ↔ K' key v i) → keys_rep m K → keys_rep m K'.
Proof. intros E Hm key. eapply leaf_rep_ext; [|apply Hm]. apply E. Qed.
Lemma keys_rep_empty : keys_rep ∅ (λ _ _ _, False).
Proof. intros key. rewrite lookup_empty. apply leaf_rep_empty. Qed.
Lemma keys_rep_insert m K key leaf T : keys_rep m K → leaf_rep leaf T → keys_rep (<[key := leaf]> m) (λ key' v i, if decide (key' = key) then T v i else K key' v i).
Proof. intros Hm Hl key'. case_decide as E; [subst key'; rewrite lookup_insert_eq|rewrite lookup_insert_ne by done; apply Hm]. done. Qed.
Lemma keys_rep_delete m K key T : keys_rep m K → (∀ v i, ¬ T v i) → keys_rep (delete key m) (λ key' v i, if decide (key' = key) then T v i else K key' v i).
Proof.
  intros Hm HT key'. case_decide as E; [subst key'; rewrite lookup_delete_eq|rewrite lookup_delete_ne by done; apply Hm].
  eapply leaf_rep_ext; [|apply leaf_rep_empty]. intros v i. cbn. naive_solver.
Qed.
Lemma with_vnode_same leaf n : same_strings leaf (KeyLeaf n (primary_trie leaf) (secondary_trie leaf) (primary_rbt leaf) (secondary_rbt leaf) (val_idx_dtype leaf)).
Proof. done. Qed.

(** The values of a record. *)
Definition record_tag (r : IDIOMS_md_idx_record_t) (v : string) (i : Z) : Prop := string_record r v ∧ i ∈ obj_ids r.
Definition record_ok (r : IDIOMS_md_idx_record_t) : Prop := number_record r ∨ ∃ v, string_record r v.
Lemma record_tag_string r v v' i : string_record r v → record_tag r v' i ↔ v' = v ∧ i ∈ obj_ids r.
Proof. intros (H0 & H1 & H2). unfold record_tag, string_record. split; [|naive_solver]. intros [(_ & E & _) ?]. rewrite H1 in E. by injection E as ->. Qed.
Lemma record_tag_number r v i : number_record r → ¬ record_tag r v i.
Proof. unfold number_record. intros Hr [(Ht & _) _]. by rewrite Ht in Hr. Qed.

Lemma insert_key m K key r : keys_rep m K → record_ok r →
  ∃ m' ret, insert_into_key_trie sfx m key r = Some (m', ret) ∧ keys_rep m' (λ key' v i, K key' v i ∨ key' = key ∧ record_tag r v i).
Proof.
  intros Hm Hr. unfold insert_into_key_trie. set (leaf0 := default empty_leaf (m !! key)). pose proof (Hm key) as Hl. fold leaf0 in Hl.
  change (default (KeyLeaf 0 None None None None 0) (m !! key)) with leaf0. cbv zeta. set (leaf1 := create_rbt (create_tries leaf0 (rec_type r)) (rec_type r)).
  pose proof (create_rbt_same (create_tries leaf0 (rec_type r)) (rec_type r)) as Hsame. fold leaf1 in Hsame. pose proof (same_strings_trans _ _ _ Hsame (with_vnode_same leaf1 (virtual_node_id r))) as Hsame'.
  set (leaf2 := KeyLeaf _ _ _ _ _ _) in *. destruct Hr as [Hr|[v Hr]].
  - destruct (insert_number leaf2 r Hr) as (leaf' & ret & -> & Hs). cbn [mbind option_bind]. eexists _, ret. split; [done|].
    assert (create_tries leaf0 (rec_type r) = leaf0) as E by (unfold create_tries; by rewrite Hr, !andb_false_r). rewrite E in Hsame'.
    eapply keys_rep_ext; [|apply (keys_rep_insert m K key leaf' (K key) Hm)]; [|eapply leaf_rep_same; [|exact Hl]; by eapply same_strings_trans].
    intros key' v i. cbn beta. case_decide as Ek; [subst key'|]; pose proof (record_tag_number r v i Hr); naive_solver.
  - assert (leaf_ready leaf2 (K key)) as Hready. { eapply ready_same; [exact Hsame'|]. destruct Hr as (-> & _). by apply create_tries_ready. }
    destruct (insert_string leaf2 r v (K key) Hready Hr) as (leaf' & -> & Hl'). cbn [mbind option_bind]. eexists _, SUCCEED. split; [done|].
    eapply keys_rep_ext; [|apply (keys_rep_insert m K key leaf' _ Hm Hl')]. intros key' v' i. cbn beta. rewrite (record_tag_string r v) by done. case_decide as Ek; naive_solver.
Qed.

(** The key of a string record that is deleted is not there or has strings; the values
    share nothing. *)
Definition deletable m K (key : string) (r : IDIOMS_md_idx_record_t) : Prop :=
  ∀ v, string_record r v → (m !! key = None ∨ ∃ v' i, K key v' i) ∧ unshared (K key) v (obj_ids r).

Lemma delete_key m K key r : keys_rep m K → record_ok r → deletable m K key r →
  ∃ m', delete_from_key_trie sfx m key r = Some m' ∧ keys_rep m' (λ key' v i, K key' v i ∧ ¬ (key' = key ∧ record_tag r v i)).
Proof.
  intros Hm Hr Hdel. unfold delete_from_key_trie. pose proof (Hm key) as Hl. destruct (m !! key) as [leaf|] eqn:El; cbn [default] in Hl.
  - assert (∃ leaf' leaf'', delete_value_from_second_level_index sfx leaf r = Some leaf' ∧ destroy_empty leaf' (rec_type r) = Some leaf'' ∧ leaf_rep leaf'' (λ v i, K key v i ∧ ¬ record_tag r v i))
      as (leaf' & leaf'' & -> & E & Hl'').
    { destruct Hr as [Hr|[v Hr]].
      - destruct (delete_number leaf r Hr) as (l1 & l2 & E1 & E2 & Hs). exists l1, l2. split; [done|]. split; [done|]. eapply leaf_rep_same; [exact Hs|].
        eapply leaf_rep_ext; [|exact Hl]. intros v i. pose proof (record_tag_number r v i Hr). naive_solver.
      - destruct (Hdel v Hr) as [[?|Hex] Hun]; [congruence|]. destruct (delete_string leaf r v _ Hl Hr Hex Hun) as (l1 & l2 & E1 & E2 & Hl2). exists l1, l2. split; [done|]. split; [done|].
        eapply leaf_rep_ext; [|exact Hl2]. intros v' i. cbn beta. rewrite (record_tag_string r v) by done. done. }
    cbn [mbind option_bind]. rewrite E. cbn [mbind option_bind]. eexists. split; [done|]. destruct (is_key_leaf_cnt_empty leaf'') eqn:Ee.
    + eapply keys_rep_ext; [|apply (keys_rep_delete m K key (λ _ _, False) Hm)]; [|naive_solver]. intros key' v i. destruct leaf'' as [? [] [] [] [] ?]; try done. destruct Hl'' as (_ & _ & Hno). cbn in Hno. specialize (Hno v i).
      cbn beta. case_decide as Ek; [subst key'|]; naive_solver.
    + eapply keys_rep_ext; [|apply (keys_rep_insert m K key leaf'' _ Hm Hl'')]. intros key' v i. cbn. case_decide as Ek; naive_solver.
  - eexists. split; [done|]. eapply keys_rep_ext; [|exact Hm]. intros key' v i. destruct Hl as (_ & _ & Hno). cbn in Hno. specialize (Hno v i). naive_solver.
Qed.
End leaf.
