(* ===== verification/IdiomsSearch.v ===== *)
(** What a query finds in the index of one server: the identifiers of the values that
    match, under the keys that match. *)

From stdpp Require Import gmap.
From S2P Require Export IdiomsSpec.
#[local] Open Scope Z_scope.

Section search.
Context `{TR : !Traversal, NT : !NumberTrees} (sfx : bool).
Implicit Types (T : string → Z → Prop) (K : string → string → Z → Prop).

(** [found'] has the identifiers of [found] and those of [F]. *)
Definition finds (found : list Z) (F : Z → Prop) (found' : list Z) : Prop := ∀ i, i ∈ found' ↔ i ∈ found ∨ F i.
Lemma finds_ext found F F' found' : (∀ i, F i ↔ F' i) → finds found F found' → finds found F' found'.
Proof. intros E Hf i. by rewrite (Hf i), E. Qed.
Lemma finds_none found F : (∀ i, ¬ F i) → finds found F found.
Proof. intros Hn i. naive_solver. Qed.

Lemma collect_finds ids found : finds found (λ i, i ∈ ids) (collect_obj_ids ids found).
Proof. intros i. unfold collect_obj_ids. rewrite elem_of_app. by rewrite iter_set_perm, elem_of_elements. Qed.

(** ** Values *)

Lemma callback_finds pat k ids found : value_trie_callback (quoted pat) k ids found = Some (collect_obj_ids ids found).
Proof. unfold value_trie_callback. by rewrite quoted_type. Qed.
Lemma iter_values_finds pat l : ∀ found, ∃ found', iter_all (value_trie_callback (quoted pat)) l found = Some found' ∧ finds found (λ i, ∃ k ids, (k, ids) ∈ l ∧ i ∈ ids) found'.
Proof.
  unfold iter_all. induction l as [|[k ids] l IH]; intros found; cbn [foldl].
  - exists found. split; [done|]. apply finds_none. set_solver.
  - cbn [mbind option_bind fst snd]. rewrite callback_finds. destruct (IH (collect_obj_ids ids found)) as (found' & -> & Hf). exists found'. split; [done|].
    intros i. rewrite (Hf i), (collect_finds ids found i). set_solver.
Qed.
Lemma with_prefix_in {A} (tok : string) (m : trie A) (k : string) (x : A) : (k, x) ∈ with_prefix tok m ↔ m !! k = Some x ∧ tok `prefix_of` k.
Proof. unfold with_prefix. rewrite list_elem_of_filter, iter_trie_perm, elem_of_map_to_list. cbn. naive_solver. Qed.
Lemma iter_in {A} (m : trie A) (k : string) (x : A) : (k, x) ∈ iter_trie m ↔ m !! k = Some x.
Proof. by rewrite iter_trie_perm, elem_of_map_to_list. Qed.
Lemma rep_ids (m : trie id_set) R (k : string) (i : Z) : trie_rep m R → R k i ↔ ∃ ids, m !! k = Some ids ∧ i ∈ ids.
Proof. intros [H1 _]. rewrite <-H1. destruct (m !! k) as [s|]; cbn; [naive_solver|]. split; [set_solver|naive_solver]. Qed.

(** The values of a leaf that a pattern finds: those that match; without the trees of
    suffixes an infix pattern finds every value. *)
Definition value_found (pat v : string) : Prop :=
  match determine_pattern_type pat with PATTERN_MIDDLE => sfx = false ∨ pattern_matches v pat | _ => pattern_matches v pat end.

Lemma prefixed_finds (pat : string) (m : trie id_set) (R : string → Z → Prop) (tok : string) (found : list Z) : trie_rep m R →
  ∃ found', iter_all (value_trie_callback (quoted pat)) (with_prefix tok m) found = Some found' ∧ finds found (λ i, ∃ k, tok `prefix_of` k ∧ R k i) found'.
Proof.
  intros Hm. destruct (iter_values_finds pat (with_prefix tok m) found) as (found' & -> & Hf). exists found'. split; [done|]. eapply finds_ext; [|exact Hf].
  intros i. cbn beta. setoid_rewrite with_prefix_in. setoid_rewrite (rep_ids m R) at 1; [|done]. naive_solver.
Qed.

Lemma looked_up_finds (pat : string) (m : trie id_set) (R : string → Z → Prop) (tok : string) (found : list Z) : trie_rep m R →
  ∃ found', match m !! tok with Some ids => value_trie_callback (quoted pat) tok ids found | None => Some found end = Some found' ∧ finds found (R tok) found'.
Proof.
  intros Hm. pose proof (rep_ids m R tok) as Hr. destruct (m !! tok) as [ids|].
  - rewrite callback_finds. eexists. split; [done|]. eapply finds_ext; [|apply collect_finds]. intros i. rewrite (Hr i Hm). naive_solver.
  - exists found. split; [done|]. apply finds_none. intros i. rewrite (Hr i Hm). naive_solver.
Qed.

Lemma no_values_found (pat : string) leaf found : pat ≠ [STAR] → primary_trie leaf = None → secondary_trie leaf = None →
  value_string_query sfx (quoted pat) pat leaf found = Some found.
Proof.
  intros Hpat Ep Es. unfold value_string_query. rewrite Ep, Es. pose proof (pattern_type_spec pat) as Hty. destruct (determine_pattern_type pat).
  - done.
  - destruct Hty as (m & -> & _). unfold subrstr. by rewrite token_prefix.
  - destruct Hty as (m & -> & _). rewrite token_substr. destruct sfx; [done|]. cbn [mbind option_bind]. by rewrite reverse_str_spec.
  - destruct Hty as [->|(m & ->)]; [done|]. by rewrite token_middle.
Qed.
Lemma prefix_reverse (k l : string) : reverse k `prefix_of` reverse l ↔ k `suffix_of` l.
Proof. split; [intros [r E]; exists (reverse r); apply (f_equal reverse) in E; by rewrite reverse_app, !reverse_involutive in E|intros [r ->]; rewrite reverse_app; by eexists]. Qed.

Lemma string_query_finds pat leaf T found : leaf_rep sfx leaf T → pat ≠ [STAR] →
  ∃ found', value_string_query sfx (quoted pat) pat leaf found = Some found' ∧ finds found (λ i, ∃ v, T v i ∧ value_found pat v) found'.
Proof.
  intros (HD & H1 & H2) Hpat. unfold value_found, pattern_matches. destruct (primary_trie leaf) as [p|] eqn:Ep, (secondary_trie leaf) as [s|] eqn:Es; try done.
  2:{ exists found. rewrite no_values_found by done. split; [done|]. apply finds_none. naive_solver. }
  destruct H2 as (_ & Hp & Hs & _). unfold value_string_query. rewrite Ep, Es. pose proof (pattern_type_spec pat) as Hty. destruct (determine_pattern_type pat).
  - destruct (looked_up_finds pat p T pat found Hp) as (found' & E & Hf). exists found'. split; [exact E|]. eapply finds_ext; [|exact Hf]. naive_solver.
  - destruct Hty as (m & -> & _). unfold subrstr. rewrite token_prefix. cbn [mbind option_bind]. destruct (prefixed_finds (m ++ [STAR]) p T m found Hp) as (found' & -> & Hf). exists found'. split; [done|].
    eapply finds_ext; [|exact Hf]. intros i. split; [naive_solver|]. intros (v & HT & m' & [<- _]%app_inj_tail & Hm). by exists v.
  - destruct Hty as (m & -> & Hnot). rewrite token_substr. cbn [mbind option_bind]. destruct sfx eqn:Esfx; cbn iota.
    + destruct (looked_up_finds (STAR :: m) s _ m found Hs) as (found' & E & Hf). exists found'. split; [exact E|]. eapply finds_ext; [|exact Hf]. intros i. cbn beta.
      assert (m ≠ []) as Hne by (intros ->; apply Hnot; by exists []). setoid_rewrite skeys_true; [|done]. naive_solver.
    + rewrite reverse_str_spec. cbn [mbind option_bind]. destruct (prefixed_finds (STAR :: m) s _ (reverse m) found Hs) as (found' & -> & Hf). exists found'. split; [done|].
      eapply finds_ext; [|exact Hf]. intros i. cbn beta. setoid_rewrite skeys_false; [|done]. split.
      * intros (k & Hk & v & HT & ->). exists v. split; [done|]. exists m. split; [done|]. by apply prefix_reverse.
      * intros (v & HT & m' & [= <-] & Hm). exists (reverse v). split; [by apply prefix_reverse|]. by exists v.
  - destruct Hty as [->|(m & ->)]; [done|]. rewrite token_middle. cbn [mbind option_bind]. destruct sfx eqn:Esfx; cbn iota.
    + destruct (prefixed_finds (STAR :: m ++ [STAR]) s _ m found Hs) as (found' & -> & Hf). exists found'. split; [done|]. eapply finds_ext; [|exact Hf]. intros i. cbn beta.
      setoid_rewrite skeys_true; [|done]. split.
      * intros (k & [r ->] & v & HT & _ & [l ->]). exists (l ++ m ++ r). split; [done|]. right. exists m. split; [done|]. by exists l, r.
      * intros (v & HT & [?|(m' & [= [<- _]%app_inj_tail] & l & r & ->)]); [done|]. destruct (decide (m ++ r = [])) as [[-> ->]%app_nil|Hne].
        -- exists (l ++ [] ++ []). split; [apply prefix_nil|]. exists (l ++ [] ++ []). split; [done|]. split; [by eapply H1|done].
        -- exists (m ++ r). split; [by exists r|]. exists (l ++ m ++ r). split; [done|]. split; [done|by exists l].
    + destruct (iter_values_finds (STAR :: m ++ [STAR]) (iter_trie p) found) as (found' & -> & Hf). exists found'. split; [done|]. eapply finds_ext; [|exact Hf].
      intros i. cbn beta. setoid_rewrite iter_in. split.
      * intros (k & ids & Ek & Hi). exists k. split; [|by left]. apply (rep_ids p T); [done|]. by exists ids.
      * intros (v & HT & _). apply (rep_ids p T) in HT as (ids & Ek & Hi); [|done]. by exists v, ids.
Qed.

(** ** Keys *)

Implicit Types (kq pat key tok : string) (m : trie key_index_leaf_content_t) (found : list Z).

(** The callback tests the key of an infix query again. *)
Definition key_passes kq key : Prop := match determine_pattern_type kq with PATTERN_MIDDLE => pattern_matches key kq | _ => True end.
Definition in_leaf kq pat key T (i : Z) : Prop := key_passes kq key ∧ ∃ v, T v i ∧ value_found pat v.

Lemma key_callback_finds kq pat key leaf T found : leaf_rep sfx leaf T → kq ≠ [STAR] → pat ≠ [STAR] →
  ∃ found', key_index_search_callback sfx kq (quoted pat) key leaf found = Some (0, found') ∧ finds found (in_leaf kq pat key T) found'.
Proof.
  intros Hl Hkq Hpat. unfold key_index_search_callback, in_leaf, key_passes, pattern_matches. rewrite strip_quoted. unfold is_number_query. rewrite quoted_string. cbn [negb mbind option_bind].
  destruct (string_query_finds pat leaf T found Hl Hpat) as (found1 & E1 & Hf1). pose proof (pattern_type_spec kq) as Hty.
  assert (∀ P : Prop, P → finds found (λ i, P ∧ ∃ v, T v i ∧ value_found pat v) found1) as Hpass by (intros P HP; eapply finds_ext; [|exact Hf1]; naive_solver).
  destruct (determine_pattern_type kq); cbn [mbind option_bind]; try (rewrite E1; exists found1; split; [done|by apply Hpass]).
  destruct Hty as [->|(m & ->)]; [done|]. rewrite token_middle. cbn [mbind option_bind]. pose proof (contains_spec key m) as Hc. destruct (contains key m); cbn [negb mbind option_bind].
  - rewrite E1. exists found1. split; [done|]. apply Hpass. exists m. split; [done|]. by apply Hc.
  - exists found. split; [done|]. apply finds_none. intros i [(m' & [= [<- _]%app_inj_tail] & Hin) _]. apply Hc in Hin. done.
Qed.

Lemma iter_keys_finds kq pat K l : kq ≠ [STAR] → pat ≠ [STAR] → (∀ key leaf, (key, leaf) ∈ l → leaf_rep sfx leaf (K key)) → ∀ found,
  ∃ found', iter_keys sfx kq (quoted pat) l found = Some found' ∧ finds found (λ i, ∃ key leaf, (key, leaf) ∈ l ∧ in_leaf kq pat key (K key) i) found'.
Proof.
  intros Hkq Hpat. induction l as [|[key leaf] l IH]; intros Hl found; cbn [iter_keys].
  - exists found. split; [done|]. apply finds_none. set_solver.
  - destruct (key_callback_finds kq pat key leaf (K key) found) as (found1 & -> & Hf1); [apply Hl; set_solver|done|done|]. cbn [mbind option_bind]. rewrite decide_True by done.
    destruct (IH) with (found := found1) as (found' & -> & Hf'); [intros; apply Hl; set_solver|]. exists found'. split; [done|].
    intros i. rewrite (Hf' i), (Hf1 i). setoid_rewrite elem_of_cons. naive_solver.
Qed.

Lemma keys_of_rep m K key : keys_rep sfx m K → (∀ v i, K key v i → ∃ leaf, m !! key = Some leaf) ∧ (∀ leaf, m !! key = Some leaf → leaf_rep sfx leaf (K key)).
Proof.
  intros Hm. pose proof (Hm key) as Hl. destruct (m !! key) as [leaf|]; [naive_solver|]. split; [|done]. intros v i HK. destruct Hl as (_ & _ & Hno). by apply Hno in HK.
Qed.
Lemma search_key_finds kq pat m K tok : kq ≠ [STAR] → pat ≠ [STAR] → keys_rep sfx m K →
  ∃ found, search_key sfx kq (quoted pat) m tok = Some found ∧ ∀ i, i ∈ found ↔ in_leaf kq pat tok (K tok) i.
Proof.
  intros Hkq Hpat Hm. destruct (keys_of_rep m K tok Hm) as [Hin Hrep]. unfold search_key. destruct (m !! tok) as [leaf|].
  - destruct (key_callback_finds kq pat tok leaf (K tok) [] (Hrep leaf eq_refl) Hkq Hpat) as (found & -> & Hf). exists found. split; [done|]. intros i. rewrite (Hf i). set_solver.
  - exists []. split; [done|]. intros i. split; [set_solver|]. intros (_ & v & HK & _). by destruct (Hin v i HK).
Qed.
Lemma iter_trie_finds kq pat m K (P : string → Prop) (l : list (string * key_index_leaf_content_t)) : kq ≠ [STAR] → pat ≠ [STAR] → keys_rep sfx m K →
  (∀ key leaf, (key, leaf) ∈ l ↔ m !! key = Some leaf ∧ P key) →
  ∃ found, iter_keys sfx kq (quoted pat) l [] = Some found ∧ ∀ i, i ∈ found ↔ ∃ key, P key ∧ in_leaf kq pat key (K key) i.
Proof.
  intros Hkq Hpat Hm Hl. destruct (iter_keys_finds kq pat K l Hkq Hpat) with (found := @nil Z) as (found & -> & Hf).
  { intros key leaf [E _]%Hl. by apply (keys_of_rep m K key Hm). }
  exists found. split; [done|]. intros i. rewrite (Hf i). split.
  - intros [?|(key & leaf & [_ HP]%Hl & Hi)]; [set_solver|]. by exists key.
  - intros (key & HP & Hi). right. destruct Hi as (Hpass & v & HK & Hv). destruct (keys_of_rep m K key Hm) as [Hin _]. destruct (Hin v i HK) as [leaf E]. exists key, leaf. split; [by apply Hl|]. split; [done|]. by exists v.
Qed.
End search.

(** * The index *)

Section index.
Context `{TR : !Traversal, NT : !NumberTrees}.
Implicit Types (sfx : bool) (kq pat key tok : string) (m : trie key_index_leaf_content_t) (found : list Z).

(** The entries of the two tries of keys; the flag is that of the suffixes. *)
Implicit Types (I : bool → string → string → Z → Prop) (idioms : IDIOMS_t).
Definition index_rep sfx idioms I : Prop := keys_rep sfx (art_key_prefix_tree_g idioms) (I false) ∧ keys_rep sfx (art_key_suffix_tree_g idioms) (I true).
Lemma index_rep_empty sfx server_id : index_rep sfx (IDIOMS_init server_id) (λ _ _ _ _, False).
Proof. split; apply keys_rep_empty. Qed.

(** The keys of the tries that a query for keys finds. *)
Definition key_found sfx kq (flag : bool) key : Prop :=
  match determine_pattern_type kq with
  | PATTERN_EXACT | PATTERN_PREFIX => flag = false ∧ pattern_matches key kq
  | PATTERN_SUFFIX => flag = true ∧ ∃ tok, kq = STAR :: tok ∧ if sfx then key = tok else reverse tok `prefix_of` key
  | PATTERN_MIDDLE => ∃ tok, kq = STAR :: tok ++ [STAR] ∧ if sfx then flag = true ∧ tok `prefix_of` key else flag = false ∧ pattern_matches key kq
  end.
Lemma prefix_contains tok key : tok `prefix_of` key → pattern_matches key (STAR :: tok ++ [STAR]) .
Proof.
  intros [r ->]. unfold pattern_matches. assert (determine_pattern_type (STAR :: tok ++ [STAR]) = PATTERN_MIDDLE) as ->; [|exists tok; split; [done|by exists [], r]].
  unfold determine_pattern_type. assert (startsWith (STAR :: tok ++ [STAR]) [STAR] = true) as -> by (apply startsWith_spec; by eexists). assert (endsWith (STAR :: tok ++ [STAR]) [STAR] = true) as ->; [|done].
  apply endsWith_spec. by exists (STAR :: tok).
Qed.

Lemma search_tries_finds sfx idioms I kq pat : index_rep sfx idioms I → kq ≠ [STAR] → pat ≠ [STAR] →
  ∃ found, search_tries sfx idioms kq (quoted pat) = Some found ∧ ∀ i, i ∈ found ↔ ∃ flag key v, I flag key v i ∧ key_found sfx kq flag key ∧ value_found sfx pat v.
Proof.
  intros [HP HS] Hkq Hpat. unfold search_tries, key_found.
  assert (∀ m flag (P Q : string → Prop) (l : list (string * key_index_leaf_content_t)), keys_rep sfx m (I flag) → (∀ key leaf, (key, leaf) ∈ l ↔ m !! key = Some leaf ∧ P key) →
    (∀ key, P key ∧ key_passes kq key ↔ Q key) → ∃ found, iter_keys sfx kq (quoted pat) l [] = Some found ∧ ∀ i, i ∈ found ↔ ∃ key v, I flag key v i ∧ Q key ∧ value_found sfx pat v) as Hiter.
  { intros m flag P Q l Hm Hl HQ. destruct (iter_trie_finds sfx kq pat m (I flag) P l Hkq Hpat Hm Hl) as (found & E & Hf). exists found. split; [done|]. intros i. rewrite (Hf i). unfold in_leaf. setoid_rewrite <-HQ. naive_solver. }
  unfold key_passes in Hiter. pose proof (pattern_type_spec kq) as Hty. unfold pattern_matches in *. destruct (determine_pattern_type kq) eqn:Et.
  - destruct (search_key_finds sfx kq pat (art_key_prefix_tree_g idioms) (I false) kq Hkq Hpat HP) as (found & -> & Hf). exists found. split; [done|]. intros i. rewrite (Hf i). unfold in_leaf, key_passes. rewrite Et. naive_solver.
  - destruct Hty as (m & -> & _). rewrite token_prefix. cbn [mbind option_bind].
    destruct (Hiter (art_key_prefix_tree_g idioms) false (λ key, m `prefix_of` key) (λ key, m `prefix_of` key) (with_prefix m (art_key_prefix_tree_g idioms)) HP) as (found & -> & Hf);
      [intros; apply with_prefix_in|naive_solver|]. exists found. split; [done|]. intros i. rewrite (Hf i). split; [naive_solver|]. intros (flag & key & v & HI & (-> & m' & [<- _]%app_inj_tail & Hm) & Hv). by exists key, v.
  - destruct Hty as (m & -> & _). rewrite token_suffix. cbn [mbind option_bind]. destruct sfx; cbn iota.
    + destruct (search_key_finds true (STAR :: m) pat (art_key_suffix_tree_g idioms) (I true) m Hkq Hpat HS) as (found & E & Hf). rewrite E. exists found. split; [done|].
      intros i. rewrite (Hf i). unfold in_leaf, key_passes. rewrite Et. naive_solver.
    + rewrite reverse_str_spec. cbn [mbind option_bind].
      destruct (Hiter (art_key_suffix_tree_g idioms) true (λ key, reverse m `prefix_of` key) (λ key, reverse m `prefix_of` key) (with_prefix (reverse m) (art_key_suffix_tree_g idioms)) HS) as (found & E & Hf);
        [intros; apply with_prefix_in|naive_solver|]. rewrite E. exists found. split; [done|]. intros i. rewrite (Hf i). naive_solver.
  - destruct Hty as [->|(m & ->)]; [done|]. rewrite token_middle. cbn [mbind option_bind].
    assert (∀ key, (∃ m' : string, STAR :: m ++ [STAR] = STAR :: m' ++ [STAR] ∧ ∃ l r, key = l ++ m' ++ r) ↔ ∃ l r, key = l ++ m ++ r) as Em
      by (intros key; split; [intros (m' & [= [<- _]%app_inj_tail] & ?); done|intros ?; by exists m]).
    destruct sfx; cbn iota.
    + destruct (Hiter (art_key_suffix_tree_g idioms) true (λ key, m `prefix_of` key) (λ key, m `prefix_of` key) (with_prefix m (art_key_suffix_tree_g idioms)) HS) as (found & E & Hf);
        [intros; apply with_prefix_in|intros key; rewrite Em; split; [naive_solver|intros Hm; split; [done|]; destruct Hm as [r ->]; by exists [], r]|].
      rewrite E. exists found. split; [done|]. intros i. rewrite (Hf i). split; [naive_solver|]. intros (flag & key & v & HI & (m' & [= [<- _]%app_inj_tail] & -> & Hm) & Hv). by exists key, v.
    + destruct (Hiter (art_key_prefix_tree_g idioms) false (λ _, True) (λ key, ∃ l r, key = l ++ m ++ r) (iter_trie (art_key_prefix_tree_g idioms)) HP) as (found & E & Hf);
        [intros; rewrite iter_in; naive_solver|intros key; rewrite Em; naive_solver|].
      rewrite E. exists found. split; [done|]. intros i. rewrite (Hf i). setoid_rewrite Em. split; [naive_solver|]. intros (flag & key & v & HI & (m' & _ & -> & Hm) & Hv). by exists key, v.
Qed.

Lemma index_search sfx idioms I kq pat : index_rep sfx idioms I → kq ≠ [STAR] → pat ≠ [STAR] → KV_DELIM ∉ kq →
  ∃ idioms' found, idioms_local_index_search sfx idioms (kq ++ KV_DELIM :: quoted pat) = Some (idioms', found) ∧ index_rep sfx idioms' I ∧
    ∀ i, i ∈ found ↔ ∃ flag key v, I flag key v i ∧ key_found sfx kq flag key ∧ value_found sfx pat v.
Proof.
  intros HI Hkq Hpat Hd. unfold idioms_local_index_search. rewrite strchr_app by done. destruct (get_key_value kq KV_DELIM (quoted pat) Hd) as [-> ->]. cbn [mbind option_bind].
  destruct (search_tries_finds sfx idioms I kq pat HI Hkq Hpat) as (found & -> & Hf). cbn [mbind option_bind]. eexists _, found. split; [done|]. split; [exact HI|done].
Qed.

(** ** Insertions and deletions *)

Definition of_suffix (r : IDIOMS_md_idx_record_t) : bool := bool_decide (is_key_suffix r = 1).
(** The entries of a record. *)
Definition record_entry (r : IDIOMS_md_idx_record_t) (flag : bool) key (v : string) (i : Z) : Prop := flag = of_suffix r ∧ key = rec_key r ∧ record_tag r v i.
Definition key_trie_of idioms (flag : bool) : trie key_index_leaf_content_t := if flag then art_key_suffix_tree_g idioms else art_key_prefix_tree_g idioms.

Lemma index_insert sfx idioms I r : index_rep sfx idioms I → record_ok r →
  ∃ idioms', idioms_local_index_create sfx idioms r = Some (idioms', SUCCEED) ∧ index_rep sfx idioms' (λ flag key v i, I flag key v i ∨ record_entry r flag key v i).
Proof.
  intros [HP HS] Hr. unfold idioms_local_index_create, record_entry, of_suffix. case_decide as Hf.
  - rewrite bool_decide_true by done. destruct (insert_key sfx _ _ (rec_key r) r HS Hr) as (m & ret & -> & Hm). cbn [mbind option_bind]. eexists. split; [done|].
    split; cbn; [eapply keys_rep_ext; [|exact HP]|eapply keys_rep_ext; [|exact Hm]]; intros; naive_solver.
  - rewrite bool_decide_false by done. destruct (insert_key sfx _ _ (rec_key r) r HP Hr) as (m & ret & -> & Hm). cbn [mbind option_bind]. eexists. split; [done|].
    split; cbn; [eapply keys_rep_ext; [|exact Hm]|eapply keys_rep_ext; [|exact HS]]; intros; naive_solver.
Qed.

Lemma index_delete sfx idioms I r : index_rep sfx idioms I → record_ok r → deletable sfx (key_trie_of idioms (of_suffix r)) (I (of_suffix r)) (rec_key r) r →
  ∃ idioms', idioms_local_index_delete sfx idioms r = Some (idioms', SUCCEED) ∧ index_rep sfx idioms' (λ flag key v i, I flag key v i ∧ ¬ record_entry r flag key v i).
Proof.
  intros [HP HS] Hr Hdel. unfold idioms_local_index_delete, record_entry, of_suffix in *. case_decide as Hf.
  - rewrite bool_decide_true in * by done. destruct (delete_key sfx _ _ (rec_key r) r HS Hr Hdel) as (m & -> & Hm). cbn [mbind option_bind]. eexists. split; [done|].
    split; cbn; [eapply keys_rep_ext; [|exact HP]|eapply keys_rep_ext; [|exact Hm]]; intros; naive_solver.
  - rewrite bool_decide_false in * by done. destruct (delete_key sfx _ _ (rec_key r) r HP Hr Hdel) as (m & -> & Hm). cbn [mbind option_bind]. eexists. split; [done|].
    split; cbn; [eapply keys_rep_ext; [|exact Hm]|eapply keys_rep_ext; [|exact HS]]; intros; naive_solver.
Qed.

(** * Histories *)

Inductive index_op := Insert (r : IDIOMS_md_idx_record_t) | Delete (r : IDIOMS_md_idx_record_t).
Fixpoint index_run sfx (ops : list index_op) idioms : option IDIOMS_t :=
  match ops with
  | [] => Some idioms
  | Insert r :: ops => match idioms_local_index_create sfx idioms r with Some (idioms, _) => index_run sfx ops idioms | None => None end
  | Delete r :: ops => match idioms_local_index_delete sfx idioms r with Some (idioms, _) => index_run sfx ops idioms | None => None end
  end.

(** The entries after the operations.  Strings are deleted from keys that have some,
    and from identifiers that have no other value that ends alike. *)
Inductive history sfx I : list index_op → (bool → string → string → Z → Prop) → Prop :=
| history_nil : history sfx I [] I
| history_insert r ops J : record_ok r → history sfx (λ flag key v i, I flag key v i ∨ record_entry r flag key v i) ops J → history sfx I (Insert r :: ops) J
| history_delete r ops J : record_ok r →
    (∀ v, string_record r v → (∃ v' i, I (of_suffix r) (rec_key r) v' i) ∧ unshared sfx (I (of_suffix r) (rec_key r)) v (obj_ids r)) →
    history sfx (λ flag key v i, I flag key v i ∧ ¬ record_entry r flag key v i) ops J → history sfx I (Delete r :: ops) J.

Lemma run_rep sfx ops : ∀ idioms I J, history sfx I ops J → index_rep sfx idioms I → ∃ idioms', index_run sfx ops idioms = Some idioms' ∧ index_rep sfx idioms' J.
Proof.
  induction ops as [|op ops IH]; intros idioms I J Hh Hrep; inversion Hh as [|r ? ? Hr Hrest|r ? ? Hr Hdel Hrest]; subst; cbn [index_run].
  - by exists idioms.
  - destruct (index_insert sfx idioms I r Hrep Hr) as (idioms1 & -> & H1). cbn [mbind option_bind]. by eapply IH.
  - destruct (index_delete sfx idioms I r Hrep Hr) as (idioms1 & -> & H1). { intros v Hv. destruct (Hdel v Hv). by split; [right|]. }
    cbn [mbind option_bind]. by eapply IH.
Qed.

(** C27: the index of a server answers queries for strings.  After any history of
    insertions and deletions on the empty index, whatever the order in which tries and
    sets are traversed, the query [kq="pat"] succeeds and finds exactly the identifiers
    of the entries of the history whose key the query addresses and whose value the
    pattern matches, a star standing for any string.  In a history ([history]) a string is
    deleted from a key that has some string, and from identifiers that have no other value
    of the key with a suffix in common (the code deletes shared suffixes, and fails on a key
    without strings).  Without suffix trees this excepts the infix patterns for values, for
    which every value is found. *)
Theorem index_history_answers sfx ops J server_id kq pat :
  history sfx (λ _ _ _ _, False) ops J → kq ≠ [STAR] → KV_DELIM ∉ kq → pat ≠ [STAR] → stars_at_ends pat → sfx = true ∨ determine_pattern_type pat ≠ PATTERN_MIDDLE →
  ∃ idioms idioms' found, index_run sfx ops (IDIOMS_init server_id) = Some idioms ∧
    idioms_local_index_search sfx idioms (kq ++ KV_DELIM :: quoted pat) = Some (idioms', found) ∧
    ∀ i, i ∈ found ↔ ∃ flag key v, J flag key v i ∧ key_found sfx kq flag key ∧ glob pat v.
Proof.
  intros Hh Hkq Hd Hpat Hstars Hkind. destruct (run_rep sfx ops (IDIOMS_init server_id) _ J Hh (index_rep_empty sfx server_id)) as (idioms & -> & Hrep).
  destruct (index_search sfx idioms J kq pat Hrep Hkq Hpat Hd) as (idioms' & found & E & _ & Hf). exists idioms, idioms', found. split; [done|]. split; [exact E|].
  intros i. rewrite (Hf i). assert (∀ v, value_found sfx pat v ↔ glob pat v) as Hv; [|naive_solver].
  intros v. rewrite <-pattern_matches_glob by done. unfold value_found. destruct (determine_pattern_type pat); try done. destruct sfx; naive_solver.
Qed.
End index.

(** * A concrete index *)

#[export] Instance sorted_traversal : Traversal.
Proof. refine {| iter_trie := λ A (m : trie A), map_to_list m; iter_set := λ s, elements s |}; done. Defined.

(** Trees over numbers as lists, numbers little-endian and without sign. *)
Definition bytes_value (bs : list Z) : Z := foldr (λ b n, b + 256 * n) 0 bs.
Definition in_range (lo hi : option (list Z * bool)) (bs : list Z) : bool :=
  let n := bytes_value bs in
  match lo with Some (l, incl) => bool_decide (bytes_value l < n ∨ incl = true ∧ bytes_value l = n) | None => true end &&
  match hi with Some (h, incl) => bool_decide (n < bytes_value h ∨ incl = true ∧ bytes_value h = n) | None => true end.
Definition decimal_digits (s : string) : Z := foldl (λ n c, 10 * n + (c - 48)) 0 s.
#[export] Instance list_number_trees : NumberTrees := {|
  rbt_t := list (list Z * id_set);
  rbt_create_by_dtype := λ _, [];
  rbt_find := λ t k, snd <$> List.find (λ e, bool_decide (e.1 = k)) t;
  rbt_add := λ t k s, (k, s) :: t;
  rbt_store := λ t k s, (λ e, if decide (e.1 = k) then (k, s) else e) <$> t;
  rbt_remove := λ t k, List.filter (λ e, negb (bool_decide (e.1 = k))) t;
  rbt_size := λ t, lenZ t;
  rbt_range := λ t lo hi, snd <$> List.filter (λ e, in_range lo hi e.1) t;
  get_number_from_string := λ s type, Some ((λ j, Z.land (Z.shiftr (decimal_digits s) (8 * j)) 255) <$> seqZ 0 8);
|}.

(** The values "xyz" and "uv" of the key "ab", and a number. *)
Definition ex_record (v : string) (id : Z) : IDIOMS_md_idx_record_t := IdxRecord [97; 98] 0 5 PDC_STRING (quoted v) [id].
Definition ex_number : IDIOMS_md_idx_record_t := IdxRecord [97; 98] 0 5 PDC_INT64 [42; 0; 0; 0; 0; 0; 0; 0] [9].
Definition ex_ops : list index_op := [Insert (ex_record [120; 121; 122] 7); Insert ex_number; Insert (ex_record [117; 118] 8); Delete (ex_record [117; 118] 8)].
Definition ex_search (query : string) : option (list Z) := idioms ← index_run true ex_ops (IDIOMS_init 0); snd <$> idioms_local_index_search true idioms query.
(** The queries [ab="*yz"], [a*="uv"], [ab=~50] and [ab=42~]. *)
Example ex_searches :
  ex_search ([97; 98; 61] ++ quoted [42; 121; 122]) = Some [7] ∧ ex_search ([97; 42; 61] ++ quoted [117; 118]) = Some [] ∧
  ex_search [97; 98; 61; 126; 53; 48] = Some [9] ∧ ex_search [97; 98; 61; 52; 50; 126] = Some [].
Proof. by vm_compute. Qed.

Lemma ex_record_string v id : v ≠ [] → string_record (ex_record v id) v.
Proof. intros Hv. split; [done|]. split; [apply strip_quoted|]. by split. Qed.
Definition ex_entries : bool → string → string → Z → Prop :=
  λ flag key v i, (((False ∨ record_entry (ex_record [120; 121; 122] 7) flag key v i) ∨ record_entry ex_number flag key v i) ∨ record_entry (ex_record [117; 118] 8) flag key v i) ∧
    ¬ record_entry (ex_record [117; 118] 8) flag key v i.
Lemma ex_history : history true (λ _ _ _ _, False) ex_ops ex_entries.
Proof.
  assert (∀ v id, v ≠ [] → record_ok (ex_record v id)) as Hok by (intros v id Hv; right; exists v; by apply ex_record_string).
  apply history_insert; [by apply Hok|]. apply history_insert; [by left|]. apply history_insert; [by apply Hok|]. apply history_delete; [by apply Hok| |apply history_nil].
  assert (∀ v v' id i, v ≠ [] → record_tag (ex_record v id) v' i ↔ v' = v ∧ i = id) as Htag
    by (intros v v' id i Hv; rewrite record_tag_string by (by apply ex_record_string); cbn; by rewrite list_elem_of_singleton).
  intros v (_ & Hv & _). change (rec_value _) with (quoted [117; 118]) in Hv. rewrite strip_quoted in Hv. injection Hv as <-. split.
  - exists [117; 118], 8. right. split; [done|]. split; [done|]. by apply Htag.
  - intros v' i k [[[[]|(_ & _ & Ht)]|(_ & _ & Ht)]|(_ & _ & Ht)] Hi _ _.
    + apply Htag in Ht as [_ ->]; [|done]. by apply list_elem_of_singleton in Hi.
    + by apply record_tag_number in Ht.
    + by apply Htag in Ht as [-> _].
Qed.
Lemma index_history_answers_witness : ∃ idioms idioms' found, index_run true ex_ops (IDIOMS_init 0) = Some idioms ∧
  idioms_local_index_search true idioms ([97; 42] ++ KV_DELIM :: quoted [42; 121; 42]) = Some (idioms', found) ∧
  ∀ i, i ∈ found ↔ ∃ flag key v, ex_entries flag key v i ∧ key_found true [97; 42] flag key ∧ glob [42; 121; 42] v.
Proof.
  apply (index_history_answers true ex_ops ex_entries 0 [97; 42] [42; 121; 42]); [apply ex_history|done|by apply (bool_decide_unpack _)|done| |by left].
  intros [|[|[|i]]] [= ]; [by left|by right].
Defined.
