(* ===== verification/DartClient.v ===== *)
(** The metadata index as a client uses it: insertion, deletion and search of object
    references through DART ([src/src/api/pdc_client_connect.c]), the handler of the
    servers ([src/src/server/pdc_server_metadata_index.c]), and what a search returns
    after any insertions. *)

From stdpp Require Import gmap.
From S2P Require Export DartSpec IdiomsSearch.
#[local] Open Scope Z_scope.

(** * Messages *)

Inductive dart_hash_algo_t := DHT_FULL_HASH | DHT_INITIAL_HASH | DART_HASH.
Inductive dart_object_ref_type_t := REF_PRIMARY_ID | REF_SECONDARY_ID | REF_SERVER_ID.

(** [attr_val] are the [attr_vsize] bytes that are sent. *)
Record dart_perform_one_server_in_t := DartIn {
  in_op_type : dart_op_type_t;
  in_hash_algo : dart_hash_algo_t;
  attr_key : string;
  attr_val : list Z;
  attr_vtype : Z;
  obj_ref_type : dart_object_ref_type_t;
  obj_primary_ref : Z;
  obj_secondary_ref : Z;
  obj_server_ref : Z;
  vnode_id : Z;
  inserting_suffix : Z;
}.
Definition for_entry (i : dart_perform_one_server_in_t) (h : index_hash_result_t) : dart_perform_one_server_in_t :=
  DartIn (in_op_type i) (in_hash_algo i) (hr_key h) (attr_val i) (attr_vtype i) (obj_ref_type i) (obj_primary_ref i) (obj_secondary_ref i) (obj_server_ref i)
    (hr_virtual_node_id h) (hr_is_suffix h).

Section client.
Context `{TR : !Traversal, NT : !NumberTrees} (sfx : bool) (junk : nat → Z).

(** * The server *)

Definition obj_locator (i : dart_perform_one_server_in_t) : Z :=
  match obj_ref_type i with REF_PRIMARY_ID => obj_primary_ref i | REF_SECONDARY_ID => obj_secondary_ref i | REF_SERVER_ID => obj_server_ref i end.
Definition write_record (i : dart_perform_one_server_in_t) : option IDIOMS_md_idx_record_t :=
  value ← (if decide (attr_vtype i = PDC_STRING) then c_string (attr_val i) else Some (attr_val i));
  Some (IdxRecord (attr_key i) (inserting_suffix i) (vnode_id i) (attr_vtype i) value [obj_locator i]).

(** The identifiers that are sent back. *)
Definition PDC_Server_dart_perform_one_server (idioms_g : IDIOMS_t) (i : dart_perform_one_server_in_t) : option (IDIOMS_t * list Z) :=
  match in_op_type i with
  | OP_INSERT => r ← write_record i; p ← idioms_local_index_create sfx idioms_g r; Some (fst p, [])
  | OP_DELETE => r ← write_record i; p ← idioms_local_index_delete sfx idioms_g r; Some (fst p, [])
  | _ => idioms_local_index_search sfx idioms_g (attr_key i)
  end.
(** [indexed_word_count] *)
Definition PDC_Server_dart_get_server_info (idioms_g : IDIOMS_t) : Z := index_record_count_g idioms_g.

(** * The client *)

(** All servers; a request to a server that is not there is [None]. *)
Notation servers_t := (gmap Z IDIOMS_t).

Definition dart_retrieve_server_info_cb (servers : servers_t) (id : Z) : Z :=
  match servers !! id with Some s => PDC_Server_dart_get_server_info s | None => 0 end.

Definition _dart_send_request_to_one_server (servers : servers_t) (server_id : Z) (dart_in : dart_perform_one_server_in_t) : option (servers_t * list Z) :=
  s ← servers !! server_id;
  p ← PDC_Server_dart_perform_one_server s dart_in;
  Some (<[server_id := fst p]> servers, snd p).

(** The requests, one after the other; the results of each. *)
Fixpoint dart_requests (servers : servers_t) (hash_result : list index_hash_result_t) (dart_in : dart_perform_one_server_in_t) : option (servers_t * list (list Z)) :=
  match hash_result with
  | [] => Some (servers, [])
  | h :: hs =>
    let dart_in := if is_index_write_op (in_op_type dart_in) then for_entry dart_in h else dart_in in
    p ← _dart_send_request_to_one_server servers (hr_server_id h) dart_in;
    q ← dart_requests (fst p) hs dart_in;
    Some (fst q, snd p :: snd q)
  end.
Definition _aggregate_dart_results_from_all_servers (lookup_args : list (list Z)) (output_set : id_set) : id_set :=
  foldl (λ s ids, s ∪ list_to_set ids) output_set lookup_args.
(** With the set of the results of a query. *)
Definition dart_perform_on_servers (servers : servers_t) (hash_result : list index_hash_result_t) (dart_in : dart_perform_one_server_in_t) (output_set : option id_set) : option (servers_t * option id_set) :=
  p ← dart_requests servers hash_result dart_in;
  Some (fst p, if is_index_write_op (in_op_type dart_in) then output_set else _aggregate_dart_results_from_all_servers (snd p) <$> output_set).

Definition hash_of (dart_g : DART) (hash_algo : dart_hash_algo_t) (tok : string) (op : dart_op_type_t) (cb : option (Z → Z)) : option (list index_hash_result_t * DART) :=
  match hash_algo with
  | DART_HASH => DART_hash sfx junk dart_g tok op cb
  | DHT_FULL_HASH => hs ← DHT_hash dart_g (lenZ tok) tok op; Some (hs, dart_g)
  | DHT_INITIAL_HASH => hs ← DHT_hash dart_g 1 tok op; Some (hs, dart_g)
  end.

Definition write_param (op : dart_op_type_t) (hash_algo : dart_hash_algo_t) (key : string) (val : list Z) (vtype : Z) (ref_type : dart_object_ref_type_t) (data : Z) : dart_perform_one_server_in_t :=
  DartIn op hash_algo key val vtype ref_type data data data 0 0.
Definition PDC_Client_insert_obj_ref_into_dart (dart_g : DART) (servers : servers_t) (hash_algo : dart_hash_algo_t) (key : string) (val : list Z) (vtype : Z) (ref_type : dart_object_ref_type_t) (data : Z) : option (servers_t * DART) :=
  p ← hash_of dart_g hash_algo key OP_INSERT (Some (dart_retrieve_server_info_cb servers));
  q ← dart_perform_on_servers servers (fst p) (write_param OP_INSERT hash_algo key val vtype ref_type data) None;
  Some (fst q, snd p).
Definition PDC_Client_delete_obj_ref_from_dart (dart_g : DART) (servers : servers_t) (hash_algo : dart_hash_algo_t) (key : string) (val : list Z) (vtype : Z) (ref_type : dart_object_ref_type_t) (data : Z) : option (servers_t * DART) :=
  p ← hash_of dart_g hash_algo key OP_DELETE None;
  q ← dart_perform_on_servers servers (fst p) (write_param OP_DELETE hash_algo key val vtype ref_type data) None;
  Some (fst q, snd p).

(** The return code and [out]. *)
Definition PDC_Client_search_obj_ref_through_dart (dart_g : DART) (servers : servers_t) (hash_algo : dart_hash_algo_t) (query_string : string) (ref_type : dart_object_ref_type_t) : option (servers_t * DART * list Z) :=
  k_query ← get_key query_string KV_DELIM; k_query ← k_query;
  v_query ← get_value query_string KV_DELIM; v_query ← v_query;
  '(tok, dart_op) ← dart_determine_query_token_by_key_query sfx k_query;
  p ← hash_of dart_g hash_algo tok dart_op None;
  q ← dart_perform_on_servers servers (fst p) (DartIn dart_op hash_algo query_string v_query PDC_STRING ref_type 0 0 0 0 0) (Some ∅);
  result_set ← snd q;
  Some (fst q, snd p, iter_set result_set).
End client.

(** * All servers *)

Section servers.
Context `{TR : !Traversal, NT : !NumberTrees} (sfx : bool).
Implicit Types (G : Z → bool → string → string → Z → Prop) (hs : list index_hash_result_t).

Definition servers_rep (n : Z) (servers : gmap Z IDIOMS_t) G : Prop := ∀ s, 0 ≤ s < n → ∃ idioms, servers !! s = Some idioms ∧ index_rep sfx idioms (G s).
Lemma servers_rep_ext n servers G G' : (∀ s flag key v i, G s flag key v i ↔ G' s flag key v i) → servers_rep n servers G → servers_rep n servers G'.
Proof.
  intros E Hrep s Hs. destruct (Hrep s Hs) as (idioms & Es & HP & HS). exists idioms. split; [done|].
  split; (eapply keys_rep_ext; [|eassumption]); intros; apply E.
Qed.
Lemma servers_rep_insert n servers G s idioms I : servers_rep n servers G → index_rep sfx idioms I →
  servers_rep n (<[s := idioms]> servers) (λ s', if decide (s' = s) then I else G s').
Proof.
  intros Hrep Hi s' Hs'. case_decide as E; [subst s'; rewrite lookup_insert_eq; by exists idioms|]. rewrite lookup_insert_ne by done. by apply Hrep.
Qed.

(** The value that a server takes from the bytes it receives. *)
Definition string_value (bytes : list Z) (v : string) : Prop := ∃ w, c_string bytes = Some w ∧ stripQuotes w = Some (Some v) ∧ v ≠ [].

Definition request_at (h : index_hash_result_t) (s : Z) (flag : bool) (key : string) : Prop := s = hr_server_id h ∧ flag = bool_decide (hr_is_suffix h = 1) ∧ key = hr_key h.

Lemma insert_request_ok n servers G (i : dart_perform_one_server_in_t) h v :
  servers_rep n servers G → 0 ≤ hr_server_id h < n → in_op_type i = OP_INSERT → attr_vtype i = PDC_STRING → string_value (attr_val i) v →
  ∃ servers', _dart_send_request_to_one_server sfx servers (hr_server_id h) (for_entry i h) = Some (servers', []) ∧
    servers_rep n servers' (λ s flag key v' id, G s flag key v' id ∨ request_at h s flag key ∧ v' = v ∧ id = obj_locator i).
Proof.
  intros Hrep Hs Hop Hty (w & Hw & Hv & Hne). destruct (Hrep _ Hs) as (idioms & E & Hi). unfold _dart_send_request_to_one_server. rewrite E. cbn [mbind option_bind].
  unfold PDC_Server_dart_perform_one_server, write_record. cbn [for_entry in_op_type attr_vtype attr_val]. rewrite Hop, Hty, decide_True, Hw by done. cbn [mbind option_bind].
  set (r := IdxRecord _ _ _ _ _ _). assert (string_record r v) as Hr by done.
  destruct (index_insert sfx idioms _ r Hi) as (idioms' & -> & Hi'); [right; by exists v|]. cbn [mbind option_bind fst snd]. eexists. split; [done|].
  eapply servers_rep_ext; [|apply (servers_rep_insert n servers G _ _ _ Hrep Hi')]. intros s flag key v' id. cbn beta. unfold record_entry, request_at, of_suffix.
  case_decide as Es; [subst s|naive_solver]. rewrite (record_tag_string r v) by done. cbn. rewrite list_elem_of_singleton. naive_solver.
Qed.
Lemma insert_requests n hs (i : dart_perform_one_server_in_t) v : in_op_type i = OP_INSERT → attr_vtype i = PDC_STRING → string_value (attr_val i) v →
  (∀ h, h ∈ hs → 0 ≤ hr_server_id h < n) → ∀ servers G i', servers_rep n servers G → (∀ h, for_entry i' h = for_entry i h) → in_op_type i' = OP_INSERT →
  ∃ servers' outs, dart_requests sfx servers hs i' = Some (servers', outs) ∧
    servers_rep n servers' (λ s flag key v' id, G s flag key v' id ∨ (∃ h, h ∈ hs ∧ request_at h s flag key) ∧ v' = v ∧ id = obj_locator i).
Proof.
  intros Hop Hty Hv. induction hs as [|h hs IH]; intros Hhs servers G i' Hrep Hi' Hop'; cbn [dart_requests].
  - eexists _, _. split; [done|]. eapply servers_rep_ext; [|exact Hrep]. set_solver.
  - rewrite Hop'. change (is_index_write_op OP_INSERT) with true. cbv iota zeta. rewrite Hi'.
    destruct (insert_request_ok n servers G i h v Hrep) as (servers1 & -> & H1); [apply Hhs; set_solver|done..|]. cbn [mbind option_bind fst snd].
    destruct (IH) with (servers := servers1) (2 := H1) (i' := for_entry i h) as (servers' & outs & -> & H'); [intros; apply Hhs; set_solver|done|done|]. cbn [mbind option_bind fst snd].
    eexists _, _. split; [done|]. eapply servers_rep_ext; [|exact H']. intros s flag key v' id. cbn beta. setoid_rewrite elem_of_cons. naive_solver.
Qed.

(** What the query [kq="pat"] finds on a server. *)
Definition found_at kq pat (I : bool → string → string → Z → Prop) (i : Z) : Prop := ∃ flag key v, I flag key v i ∧ key_found sfx kq flag key ∧ value_found sfx pat v.

Lemma query_requests n hs (i : dart_perform_one_server_in_t) kq pat : is_index_write_op (in_op_type i) = false → attr_key i = kq ++ KV_DELIM :: quoted pat →
  kq ≠ [STAR] → pat ≠ [STAR] → KV_DELIM ∉ kq → (∀ h, h ∈ hs → 0 ≤ hr_server_id h < n) → ∀ servers G, servers_rep n servers G →
  ∃ servers' outs, dart_requests sfx servers hs i = Some (servers', outs) ∧ servers_rep n servers' G ∧
    ∀ id, (∃ l, l ∈ outs ∧ id ∈ l) ↔ ∃ h, h ∈ hs ∧ found_at kq pat (G (hr_server_id h)) id.
Proof.
  intros Hop Hkey Hkq Hpat Hd. induction hs as [|h hs IH]; intros Hhs servers G Hrep; cbn [dart_requests].
  - eexists _, _. split; [done|]. split; [done|]. set_solver.
  - rewrite Hop. cbv iota zeta. destruct (Hrep (hr_server_id h)) as (idioms & E & Hi); [apply Hhs; set_solver|].
    unfold _dart_send_request_to_one_server. rewrite E. cbn [mbind option_bind].
    destruct (index_search sfx idioms _ kq pat Hi Hkq Hpat Hd) as (idioms' & found & Es & Hi' & Hf).
    assert (PDC_Server_dart_perform_one_server sfx idioms i = Some (idioms', found)) as ->.
    { unfold PDC_Server_dart_perform_one_server. rewrite Hkey. by destruct (in_op_type i). }
    cbn [mbind option_bind fst snd]. pose proof (servers_rep_insert n servers G (hr_server_id h) idioms' _ Hrep Hi') as H1.
    destruct (IH) with (2 := H1) as (servers' & outs & -> & H' & Hout); [intros; apply Hhs; set_solver|]. cbn [mbind option_bind fst snd].
    assert (∀ s, (if decide (s = hr_server_id h) then G (hr_server_id h) else G s) = G s) as Eg by (intros s; by case_decide; subst).
    eexists _, _. split; [done|]. split; [eapply servers_rep_ext; [|exact H']; intros; cbn beta; by rewrite Eg|].
    intros id. setoid_rewrite elem_of_cons. specialize (Hf id). specialize (Hout id). setoid_rewrite Eg in Hout. unfold found_at in *. naive_solver.
Qed.
Lemma aggregated (outs : list (list Z)) : ∀ (s : id_set) id, id ∈ _aggregate_dart_results_from_all_servers outs s ↔ id ∈ s ∨ ∃ l, l ∈ outs ∧ id ∈ l.
Proof.
  unfold _aggregate_dart_results_from_all_servers. induction outs as [|l outs IH]; intros s id; cbn [foldl]; [set_solver|]. rewrite IH, elem_of_union, elem_of_list_to_set. setoid_rewrite elem_of_cons. naive_solver.
Qed.
End servers.

(** * Keys and their tokens *)

Section tokens.
Context (sfx : bool).
Implicit Types (kq key tok : string).

Definition suffix_entry (i : nat) : bool := bool_decide (0 < i)%nat.
Lemma suffix_of_flag i : bool_decide (flag_of i = 1) = suffix_entry i.
Proof. unfold flag_of, suffix_entry. case_decide as Hi; [by rewrite !bool_decide_true|by rewrite !bool_decide_false]. Qed.
Lemma drop_is_suffix (i : nat) key : drop i key `suffix_of` key.
Proof. exists (take i key). by rewrite take_drop. Qed.

(** An entry that a query finds is one of a key that matches. *)
Lemma found_key_matches kq key i : (i < write_count sfx key)%nat → key_found sfx kq (suffix_entry i) (token_at sfx key i) → pattern_matches key kq.
Proof.
  unfold key_found, suffix_entry, token_at, pattern_matches. intros Hi. assert (bool_decide (0 < i)%nat = false → i = 0%nat) as H0 by (intros E%bool_decide_eq_false; lia).
  destruct (determine_pattern_type kq).
  - intros [->%H0 E]. by destruct sfx.
  - intros [->%H0 E]. by destruct sfx.
  - intros (Hi1%bool_decide_eq_true & tok & -> & E). exists tok. split; [done|]. destruct sfx; [rewrite <-E; apply drop_is_suffix|]. rewrite decide_True in E by done. by apply prefix_reverse.
  - intros (tok & -> & E). destruct sfx.
    + destruct E as [_ [r E]]. exists tok. split; [done|]. exists (take i key), r. by rewrite <-E, take_drop.
    + destruct E as [->%H0 E]. exact E.
Qed.

Lemma query_op kq tok op : dart_determine_query_token_by_key_query sfx kq = Some (tok, op) → op ≠ OP_INSERT ∧ op ≠ OP_DELETE.
Proof.
  unfold dart_determine_query_token_by_key_query. intros E. destruct (determine_pattern_type kq); repeat (apply bind_Some in E as (? & _ & E)); by injection E as _ <-.
Qed.

(** The kinds of queries that reach every entry (see [dart_query_reaches]), and the
    keys that have an entry for them: a suffix of the key is not the key, the start of
    an infix is not the start of the key. *)
Definition query_kind (height : Z) tok (op : dart_op_type_t) : Prop :=
  op = OP_EXACT_QUERY ∨ (sfx = true ∧ op = OP_SUFFIX_QUERY) ∨ (height < lenZ tok ∧ (sfx = true ∨ op ≠ OP_INFIX_QUERY)).
Definition indexed_for (op : dart_op_type_t) tok key : Prop :=
  match op with
  | OP_SUFFIX_QUERY => sfx = true → key ≠ tok
  | OP_INFIX_QUERY => sfx = true → ∃ l r, l ≠ [] ∧ key = l ++ tok ++ r
  | _ => True
  end.

Lemma matching_entry d kq tok op key : word_ok key → tok ≠ [] → dart_determine_query_token_by_key_query sfx kq = Some (tok, op) →
  query_kind (dart_tree_height d) tok op → indexed_for op tok key → pattern_matches key kq →
  ∃ i, (i < write_count sfx key)%nat ∧ key_found sfx kq (suffix_entry i) (token_at sfx key i) ∧ same_route d tok (token_at sfx key i).
Proof.
  intros [Hne _] Htok Hdet Hkind Hind Hm. unfold query_kind, indexed_for, key_found, pattern_matches, dart_determine_query_token_by_key_query, suffix_entry, same_route in *.
  assert (0 < write_count sfx key)%nat as Hc by (destruct sfx, key; cbn; (done || lia)). assert (token_at sfx key 0 = key) as E0 by (by destruct sfx).
  destruct (determine_pattern_type kq).
  - injection Hdet as <- <-. subst key. exists 0%nat. rewrite E0. split; [done|]. split; [done|by left].
  - destruct Hm as (m & -> & Hpre). unfold subrstr in Hdet. rewrite token_prefix in Hdet. injection Hdet as <- <-. exists 0%nat. rewrite E0. split; [done|]. split; [split; [done|by exists m]|]. right. naive_solver.
  - destruct Hm as (m & -> & Hsuf). rewrite token_substr in Hdet. cbn [mbind option_bind] in Hdet. destruct sfx; cbn [mbind option_bind] in Hdet.
    + injection Hdet as <- <-. pose proof (suffix_length _ _ Hsuf) as Hlen. assert (length m ≠ length key) as Hl.
      { intros El. apply (Hind eq_refl). rewrite (DartSpec.suffix_drop m key Hsuf), El, Nat.sub_diag. done. }
      exists (length key - length m)%nat. cbn. rewrite <-(DartSpec.suffix_drop m key Hsuf). assert (0 < length m)%nat by (destruct m; [done|cbn; lia]).
      split; [lia|]. split; [|by left]. rewrite bool_decide_true by lia. split; [done|]. by exists m.
    + rewrite reverse_str_spec in Hdet. injection Hdet as <- <-. exists 1%nat. cbn. split; [lia|]. split; [|right; split; [by apply prefix_reverse|naive_solver]].
      split; [done|]. exists m. split; [done|]. by apply prefix_reverse.
  - destruct Hm as (m & -> & Hin). rewrite token_middle in Hdet. cbn [mbind option_bind] in Hdet. injection Hdet as <- <-. destruct Hkind as [|[[_ ?]|[Hh [Es|?]]]]; [done..| |done].
    destruct (Hind Es) as (l & r & Hl & ->). exists (length l). assert (0 < length l)%nat by (destruct l; [done|cbn; lia]). assert (0 < length m)%nat by (destruct m; [done|cbn; lia]). rewrite Es. cbn.
    rewrite !length_app, drop_app_length. split; [lia|]. rewrite bool_decide_true by lia. split; [exists m; split; [done|]; split; [done|by exists r]|]. right. split; [by exists r|done].
Qed.
End tokens.

(** * Insertions, then a search *)

(** One object reference: the bytes that are sent for the value, and the value. *)
Record dart_entry := Entry { e_key : string; e_bytes : list Z; e_value : string; e_id : Z }.
Definition entry_ok (e : dart_entry) : Prop := word_ok (e_key e) ∧ string_value (e_bytes e) (e_value e).

Section history.
Context `{TR : !Traversal, NT : !NumberTrees} (sfx : bool) (junk : nat → Z).
Implicit Types (G : Z → bool → string → string → Z → Prop) (es : list dart_entry) (servers : gmap Z IDIOMS_t).

Fixpoint insert_all (dart_g : DART) servers es : option (gmap Z IDIOMS_t * DART) :=
  match es with
  | [] => Some (servers, dart_g)
  | e :: es => p ← PDC_Client_insert_obj_ref_into_dart sfx junk dart_g servers DART_HASH (e_key e) (e_bytes e) PDC_STRING REF_PRIMARY_ID (e_id e); insert_all (snd p) (fst p) es
  end.
Definition empty_servers (d : DART) : gmap Z IDIOMS_t := list_to_map ((λ s, (s, IDIOMS_init s)) <$> seqZ 0 (num_server d)).
Lemma empty_servers_rep d : servers_rep sfx (num_server d) (empty_servers d) (λ _ _ _ _ _, False).
Proof.
  intros s Hs. exists (IDIOMS_init s). split; [|apply index_rep_empty]. apply elem_of_list_to_map_1.
  - rewrite <-list_fmap_compose. cbn. rewrite list_fmap_id. apply NoDup_seqZ.
  - apply list_elem_of_fmap. exists s. split; [done|]. apply elem_of_seqZ. lia.
Qed.

(** All entries on the servers come from [es]; for every token of a key of [es] one of
    its two nodes has all replicas. *)
Definition comes_from es G : Prop := ∀ s flag t v id, G s flag t v id → ∃ e i, e ∈ es ∧ (i < write_count sfx (e_key e))%nat ∧
  flag = suffix_entry i ∧ t = token_at sfx (e_key e) i ∧ v = e_value e ∧ id = e_id e.
Definition stored d e G : Prop := ∀ i, (i < write_count sfx (e_key e))%nat → ∃ x, node_of d (token_at sfx (e_key e) i) x ∧
  ∀ y, y ∈ replicas d x → G (server_of d y) (suffix_entry i) (token_at sfx (e_key e) i) (e_value e) (e_id e).

Lemma insert_one d servers G e es : dart_ok d → servers_rep sfx (num_server d) servers G → entry_ok e → comes_from es G → (∀ e', e' ∈ es → stored d e' G) →
  ∃ servers' G', PDC_Client_insert_obj_ref_into_dart sfx junk d servers DART_HASH (e_key e) (e_bytes e) PDC_STRING REF_PRIMARY_ID (e_id e) = Some (servers', d) ∧
    servers_rep sfx (num_server d) servers' G' ∧ comes_from (e :: es) G' ∧ (∀ e', e' ∈ e :: es → stored d e' G').
Proof.
  intros Hd Hrep [Hk Hv] Hfrom Hstored. unfold PDC_Client_insert_obj_ref_into_dart, hash_of.
  destruct (insert_results d Hd sfx junk (e_key e) (Some (dart_retrieve_server_info_cb servers)) Hk) as (ins & -> & Hin & Hall). cbn [mbind option_bind fst snd].
  unfold dart_perform_on_servers. set (i := write_param _ _ _ _ _ _ _). destruct (insert_requests sfx (num_server d) ins i (e_value e)) with (servers := servers) (G := G) (i' := i) as (servers' & outs & -> & H'); try done.
  { intros h Hh. destruct (Hin h Hh) as (j & v & _ & _ & Hr). unfold results in Hr. apply list_elem_of_fmap in Hr as (x & -> & _). by apply server_bound. }
  cbn [mbind option_bind fst snd]. eexists servers', _. split; [done|]. split; [exact H'|]. split.
  - intros s flag t v id [HG|((h & Hh & -> & -> & ->) & -> & ->)].
    + destruct (Hfrom s flag t v id HG) as (e' & j & He & Hrest). exists e', j. split; [set_solver|done].
    + destruct (Hin h Hh) as (j & x & Hj & _ & Hr). unfold results in Hr. apply list_elem_of_fmap in Hr as (y & -> & _). exists e, j. cbn. rewrite suffix_of_flag. split; [set_solver|done].
  - intros e' [->|He']%elem_of_cons.
    + intros j Hj. destruct (Hall j Hj) as (x & Hx & Hr). exists x. split; [done|]. intros y Hy. right. split; [|done].
      exists (HashResult (server_of d y) (token_at sfx (e_key e) j) y (flag_of j)). split; [apply Hr; unfold results; apply list_elem_of_fmap; by exists y|]. unfold request_at. cbn. by rewrite suffix_of_flag.
    + intros j Hj. destruct (Hstored e' He' j Hj) as (x & Hx & Hr). exists x. split; [done|]. intros y Hy. left. by apply Hr.
Qed.
Lemma insert_all_ok d es : dart_ok d → Forall entry_ok es → ∀ servers G es0, servers_rep sfx (num_server d) servers G → comes_from es0 G → (∀ e', e' ∈ es0 → stored d e' G) →
  ∃ servers' G', insert_all d servers es = Some (servers', d) ∧ servers_rep sfx (num_server d) servers' G' ∧
    comes_from (es ++ es0) G' ∧ (∀ e', e' ∈ es ++ es0 → stored d e' G').
Proof.
  intros Hd. induction 1 as [|e es He Hes IH]; intros servers G es0 Hrep Hfrom Hstored; cbn [insert_all].
  - exists servers, G. done.
  - destruct (insert_one d servers G e es0 Hd Hrep He Hfrom Hstored) as (servers1 & G1 & -> & H1 & Hf1 & Hs1). cbn [mbind option_bind fst snd].
    destruct (IH servers1 G1 (e :: es0) H1 Hf1 Hs1) as (servers' & G' & E & H' & Hf' & Hs'). exists servers', G'. split; [done|]. split; [done|].
    assert (∀ e', e' ∈ es ++ e :: es0 ↔ e' ∈ (e :: es) ++ es0) as Em by (intros e'; set_solver). split.
    + intros s flag t v id HG. destruct (Hf' s flag t v id HG) as (e' & j & Hin & Hrest). exists e', j. by rewrite <-Em.
    + intros e' He'. apply Hs'. by apply Em.
Qed.

(** What a search returns on servers with the entries [es]. *)
Lemma search_stored junk' d servers G es kq pat tok op ref_type : dart_ok d → servers_rep sfx (num_server d) servers G → comes_from es G → (∀ e, e ∈ es → entry_ok e ∧ stored d e G) →
  dart_determine_query_token_by_key_query sfx kq = Some (tok, op) → word_ok tok → query_kind sfx (dart_tree_height d) tok op → KV_DELIM ∉ kq → kq ≠ [STAR] → pat ≠ [STAR] →
  ∃ servers' d' out, PDC_Client_search_obj_ref_through_dart sfx junk' d servers DART_HASH (kq ++ KV_DELIM :: quoted pat) ref_type = Some (servers', d', out) ∧ NoDup out ∧
    (∀ id, id ∈ out → ∃ e, e ∈ es ∧ id = e_id e ∧ pattern_matches (e_key e) kq ∧ value_found sfx pat (e_value e)) ∧
    (∀ e, e ∈ es → pattern_matches (e_key e) kq → indexed_for sfx op tok (e_key e) → value_found sfx pat (e_value e) → e_id e ∈ out).
Proof.
  intros Hd Hrep Hfrom Hes Hdet Htok Hkind Hdelim Hkq Hpat. unfold PDC_Client_search_obj_ref_through_dart.
  destruct (get_key_value kq KV_DELIM (quoted pat) Hdelim) as [-> ->]. cbn [mbind option_bind]. rewrite Hdet. cbn [mbind option_bind hash_of].
  destruct (query_op sfx kq tok op Hdet) as [Ho1 Ho2].
  destruct (query_results d Hd sfx junk' tok op Htok Ho1 Ho2) as (qs & d' & -> & _ & Hqs & Hreach).
  { intros [-> ->]. destruct Hkind as [|[[]|[_ []]]]; done. }
  { apply bool_decide_eq_false. intros [Hlt Hor]. destruct Hkind as [->|[[Es ->]|[? _]]]; [| |lia]; destruct Hor as [|E]; try done; [by destruct sfx|by rewrite Es in E]. }
  cbn [mbind option_bind fst snd]. unfold dart_perform_on_servers. set (i := DartIn _ _ _ _ _ _ _ _ _ _ _).
  assert (is_index_write_op (in_op_type i) = false) as Hw by (apply bool_decide_eq_false; by intros [?|?]).
  destruct (query_requests sfx (num_server d) qs i kq pat Hw eq_refl Hkq Hpat Hdelim) with (servers := servers) (G := G) as (servers' & outs & -> & _ & Hout); [intros h Hh; by apply Hqs|done|].
  cbn [mbind option_bind fst snd]. rewrite Hw. cbn [fmap option_fmap option_map mbind option_bind]. eexists servers', d', _. split; [done|].
  split; [rewrite iter_set_perm; apply NoDup_elements|]. setoid_rewrite iter_set_perm. setoid_rewrite elem_of_elements. setoid_rewrite aggregated. setoid_rewrite Hout. split.
  - intros id [?|(h & Hh & flag & t & v & HG & Hkf & Hvf)]; [set_solver|]. destruct (Hfrom _ _ _ _ _ HG) as (e & j & He & Hj & -> & -> & -> & ->).
    exists e. split; [done|]. split; [done|]. split; [|done]. by eapply found_key_matches.
  - intros e He Hm Hind Hvf. right. destruct (Hes e He) as [[Hk _] Hst]. destruct Htok as [Hne _].
    destruct (matching_entry sfx d kq tok op (e_key e) Hk Hne Hdet Hkind Hind Hm) as (j & Hj & Hkf & Hroute). destruct (Hst j Hj) as (x & Hx & Hall).
    destruct (route_nodes d Hd _ _ Hroute) as [Rb Ra]. destruct (Hreach x) as (y & q & Hy & Hq & Es); [unfold node_of in *; by rewrite Rb, Ra|].
    exists q. split; [done|]. rewrite Es. exists (suffix_entry j), (token_at sfx (e_key e) j), (e_value e). split; [by apply Hall|done].
Qed.
End history.

(** C26: a search of the distributed index returns the objects whose tags match.  When
    any entries have been inserted into the empty index by a client, with any loads of
    the servers, any other client of the space that searches for [kq="pat"] gets a
    list without duplicates of identifiers, of which each belongs to an inserted entry
    whose key and value match the patterns in the usual sense of wildcards, and which
    has the identifiers of all those entries that are indexed for the query: a suffix
    or infix of the key must not be at its start.  This holds for the queries that
    DART routes to the entries (exact, suffix with suffix trees, and tokens longer
    than the tree is high), and for all patterns for values but infix patterns
    without suffix trees. *)
Theorem dart_search_answers `{TR : !Traversal, NT : !NumberTrees} sfx junk junk' d d' es kq pat tok op ref_type :
  dart_ok d → dart_ok d' → same_space d d' → Forall entry_ok es →
  dart_determine_query_token_by_key_query sfx kq = Some (tok, op) → word_ok tok → query_kind sfx (dart_tree_height d) tok op →
  KV_DELIM ∉ kq → kq ≠ [STAR] → stars_at_ends kq → pat ≠ [STAR] → stars_at_ends pat → sfx = true ∨ determine_pattern_type pat ≠ PATTERN_MIDDLE →
  ∃ servers servers' d'' out, insert_all sfx junk d (empty_servers d) es = Some (servers, d) ∧
    PDC_Client_search_obj_ref_through_dart sfx junk' d' servers DART_HASH (kq ++ KV_DELIM :: quoted pat) ref_type = Some (servers', d'', out) ∧ NoDup out ∧
    (∀ id, id ∈ out → ∃ e, e ∈ es ∧ id = e_id e ∧ glob kq (e_key e) ∧ glob pat (e_value e)) ∧
    (∀ e, e ∈ es → glob kq (e_key e) → indexed_for sfx op tok (e_key e) → glob pat (e_value e) → e_id e ∈ out).
Proof.
  intros Hd Hd' Hsp Hes Hdet Htok Hkind Hdelim Hkq Hkstars Hpat Hpstars Hmid.
  destruct (insert_all_ok sfx junk d es Hd Hes (empty_servers d) _ [] (empty_servers_rep sfx d)) as (servers & G & E & Hrep & Hfrom & Hst); [by intros s flag t v id []|by intros e ?%elem_of_nil|].
  rewrite app_nil_r in Hfrom. assert (num_server d' = num_server d ∧ dart_tree_height d' = dart_tree_height d) as [En Eh] by (destruct Hsp as (_ & ? & _ & ? & _); done).
  destruct (search_stored sfx junk' d' servers G es kq pat tok op ref_type) as (servers' & d'' & out & Es & Hnd & Hsound & Hcomplete); try done; [by rewrite En| |by rewrite Eh|].
  { intros e He. split; [by eapply list.Forall_forall in Hes|]. intros i Hi. destruct (Hst e) with (i := i) as (x & Hx & Hall); [by rewrite app_nil_r|done|].
    destruct (same_space_nodes d d' Hsp) as (Eb & Ea & Er & Eserver). exists x. unfold node_of in *. rewrite <-Eb, <-Ea, <-Er. split; [done|]. intros y Hy. rewrite <-Eserver. by apply Hall. }
  assert (∀ v, value_found sfx pat v ↔ glob pat v) as Hv.
  { intros v. rewrite <-pattern_matches_glob by done. unfold value_found. destruct (determine_pattern_type pat) eqn:Et; try done. destruct sfx; naive_solver. }
  exists servers, servers', d'', out. split; [done|]. split; [done|]. split; [done|]. setoid_rewrite Hv in Hsound. setoid_rewrite Hv in Hcomplete.
  setoid_rewrite (pattern_matches_glob (_ : string) kq Hkstars Hkq) in Hsound. setoid_rewrite (pattern_matches_glob (_ : string) kq Hkstars Hkq) in Hcomplete. done.
Qed.

(** The values "xyz" of object 7 and "uv" of object 8 for the key "abcde". *)
Definition ex_entry (v : string) (id : Z) : dart_entry := Entry ex_word (quoted v ++ [0]) v id.
Definition ex_dart_entries : list dart_entry := [ex_entry [120; 121; 122] 7; ex_entry [117; 118] 8].
Lemma ex_dart_entries_ok : Forall entry_ok ex_dart_entries.
Proof. repeat constructor; try done; [|by eexists| |by eexists]; apply ex_word_ok. Qed.
(** The search for [*cde="x*"], and the search for [*abcde="x*"], the whole key. *)
Definition ex_dart_search (query : string) : option (list Z) :=
  '(servers, d) ← insert_all true (λ _, 0) ex_dart (empty_servers ex_dart) ex_dart_entries;
  snd <$> PDC_Client_search_obj_ref_through_dart true (λ _, 0) d servers DART_HASH (query ++ KV_DELIM :: quoted [120; 42]) REF_PRIMARY_ID.
Example ex_dart_searches : ex_dart_search [42; 99; 100; 101] = Some [7] ∧ ex_dart_search (STAR :: ex_word) = Some [].
Proof. by vm_compute. Qed.

Lemma dart_search_answers_witness : ∃ servers servers' d'' out,
  insert_all true (λ _, 0) ex_dart (empty_servers ex_dart) ex_dart_entries = Some (servers, ex_dart) ∧
  PDC_Client_search_obj_ref_through_dart true (λ _, 0) ex_dart servers DART_HASH ([42; 99; 100; 101] ++ KV_DELIM :: quoted [120; 42]) REF_PRIMARY_ID = Some (servers', d'', out) ∧ NoDup out ∧
  (∀ id, id ∈ out → ∃ e, e ∈ ex_dart_entries ∧ id = e_id e ∧ glob [42; 99; 100; 101] (e_key e) ∧ glob [120; 42] (e_value e)) ∧
  (∀ e, e ∈ ex_dart_entries → glob [42; 99; 100; 101] (e_key e) → indexed_for true OP_SUFFIX_QUERY [99; 100; 101] (e_key e) → glob [120; 42] (e_value e) → e_id e ∈ out).
Proof.
  apply (dart_search_answers true (λ _, 0) (λ _, 0) ex_dart ex_dart ex_dart_entries [42; 99; 100; 101] [120; 42] [99; 100; 101] OP_SUFFIX_QUERY REF_PRIMARY_ID);
    [apply ex_dart_ok|apply ex_dart_ok|done|apply ex_dart_entries_ok|by vm_compute|split; [done|by apply (bool_decide_unpack _)]|by right; left|by apply (bool_decide_unpack _)|done| |done| |by left].
  - intros [|[|[|[|i]]]] [= ]; by left.
  - intros [|[|i]] [= ]; by right.
Defined.
