(* ===== verification/BloomFilter.v ===== *)
(** The filter of the long lists of objects
    ([src/src/server/dablooms/pdc_dablooms.c], [pdc_murmur.c]): counters of 4 bits, two in
    a byte, in memory that is not cleared when the filter is made.  A counter that is
    full stays full. *)

From stdpp Require Import gmap.
From S2P Require Export StringUtils.
#[local] Open Scope Z_scope.

(** What memory from [malloc] holds. *)
Class FreshMemory := { fresh_byte : Z → Z; fresh_byte_ok i : 0 ≤ fresh_byte i < 256; freed_kept : bool }.

(** * The hash of a string *)

Definition uchar (c : Z) : Z := c mod 256.
(** The word at the front of a sequence of bytes, the low byte first. *)
Definition le_word (s : list Z) : Z := foldr (λ c acc, uchar c + 256 * acc) 0 s.

Definition rotl64 (x r : Z) : Z := Z.lor (u64 (Z.shiftl x r)) (Z.shiftr x (64 - r)).
Definition fmix64 (k : Z) : Z :=
  let k := Z.lxor k (Z.shiftr k 33) in
  let k := u64 (k * 0xff51afd7ed558ccd) in
  let k := Z.lxor k (Z.shiftr k 33) in
  let k := u64 (k * 0xc4ceb9fe1a85ec53) in
  Z.lxor k (Z.shiftr k 33).
Definition MURMUR_C1 : Z := 0x87c37b91114253d5.
Definition MURMUR_C2 : Z := 0x4cf5ad432745937f.
Definition mix_k1 (k1 : Z) : Z := u64 (rotl64 (u64 (k1 * MURMUR_C1)) 31 * MURMUR_C2).
Definition mix_k2 (k2 : Z) : Z := u64 (rotl64 (u64 (k2 * MURMUR_C2)) 33 * MURMUR_C1).
(** One block of 16 bytes. *)
Definition murmur_block (k1 k2 h1 h2 : Z) : Z * Z :=
  let h1 := Z.lxor h1 (mix_k1 k1) in
  let h1 := rotl64 h1 27 +w h2 in
  let h1 := u64 (u64 (h1 * 5) + 0x52dce729) in
  let h2 := Z.lxor h2 (mix_k2 k2) in
  let h2 := rotl64 h2 31 +w h1 in
  (h1, u64 (u64 (h2 * 5) + 0x38495ab5)).
Fixpoint murmur_body (nblocks : nat) (data : list Z) (h1 h2 : Z) : list Z * (Z * Z) :=
  match nblocks with
  | O => (data, (h1, h2))
  | S nblocks => let (h1, h2) := murmur_block (le_word (take 8 data)) (le_word (take 8 (drop 8 data))) h1 h2 in murmur_body nblocks (drop 16 data) h1 h2
  end.
Definition MurmurHash3_x64_128 (key : list Z) (seed : Z) : Z * Z :=
  let len := lenZ key in
  let '(tail, (h1, h2)) := murmur_body (Z.to_nat (len / 16)) key seed seed in
  let h2 := if decide (8 < lenZ tail) then Z.lxor h2 (mix_k2 (le_word (drop 8 tail))) else h2 in
  let h1 := if decide (0 < lenZ tail) then Z.lxor h1 (mix_k1 (le_word (take 8 tail))) else h1 in
  let h1 := Z.lxor h1 len in
  let h2 := Z.lxor h2 len in
  let h1 := h1 +w h2 in
  let h2 := h2 +w h1 in
  let h1 := fmix64 h1 in
  let h2 := fmix64 h2 in
  let h1 := h1 +w h2 in
  (h1, h2 +w h1).
Example murmur_hello : MurmurHash3_x64_128 [104; 101; 108; 108; 111] 0 = (0xcbd8a7b341bd9b02, 0x5b1e906a48ae1d19).
Proof. vm_compute. reflexivity. Qed.

(** * Counters *)

Definition SALT_CONSTANT : Z := 0x97c29b3a.
(** The filter for 500000 strings and an error rate of 0.05. *)
Definition BLOOM_NFUNCS : Z := 5.
Definition BLOOM_COUNTS_PER_FUNC : Z := 623523.
Definition COUNTING_BLOOM_HEADER : Z := 16.
Definition bloom_num_bytes : Z := (BLOOM_NFUNCS * BLOOM_COUNTS_PER_FUNC + 1) / 2 + COUNTING_BLOOM_HEADER.

Definition hash_func (key : string) : list Z :=
  let h := fst (MurmurHash3_x64_128 key SALT_CONSTANT) in
  let h1 := u32 h in
  let h2 := u32 (Z.shiftr h 32) in
  (λ i, u64 (h1 + u64 (i * h2)) mod BLOOM_COUNTS_PER_FUNC) <$> seqZ 0 BLOOM_NFUNCS.
Definition bloom_indices (key : string) : list Z := imap (λ i h, u32 (h + u32 (Z.of_nat i * BLOOM_COUNTS_PER_FUNC))) (hash_func key).

(** The bytes of a bitmap that have been written. *)
Notation bitmap_t := (gmap Z Z).
Record counting_bloom_t := Bloom { bloom_count : Z; bitmap : bitmap_t }.

Section filter.
Context `{FM : !FreshMemory}.

Definition byte_at (b : bitmap_t) (access : Z) : Z := default (fresh_byte access) (b !! access).
Definition bitmap_access (index : Z) : Z := index / 2 + COUNTING_BLOOM_HEADER.
Definition bitmap_increment (b : bitmap_t) (index : Z) : bitmap_t :=
  let n := byte_at b (bitmap_access index) in
  let '(temp, n) := if decide (index mod 2 ≠ 0) then (Z.land n 15, uchar (Z.land n 240 + (Z.land n 15 + 1)))
                    else (Z.shiftr (Z.land n 240) 4, uchar (Z.land n 15 + (Z.land n 240 + 16))) in
  if decide (temp = 15) then b else <[bitmap_access index := n]> b.
Definition bitmap_decrement (b : bitmap_t) (index : Z) : bitmap_t :=
  let n := byte_at b (bitmap_access index) in
  let '(temp, n) := if decide (index mod 2 ≠ 0) then (Z.land n 15, uchar (Z.land n 240 + (Z.land n 15 - 1)))
                    else (Z.shiftr (Z.land n 240) 4, uchar (Z.land n 15 + (Z.land n 240 - 16))) in
  if decide (temp = 0) then b else <[bitmap_access index := n]> b.
Definition bitmap_check (b : bitmap_t) (index : Z) : Z := Z.land (byte_at b (bitmap_access index)) (if decide (index mod 2 ≠ 0) then 15 else 240).

Definition new_counting_bloom : counting_bloom_t := Bloom (le_word (fresh_byte <$> seqZ 8 4)) ∅.
Definition counting_bloom_add (b : counting_bloom_t) (s : string) : counting_bloom_t := Bloom (u32 (bloom_count b + 1)) (foldl bitmap_increment (bitmap b) (bloom_indices s)).
Definition counting_bloom_remove (b : counting_bloom_t) (s : string) : counting_bloom_t := Bloom (u32 (bloom_count b - 1)) (foldl bitmap_decrement (bitmap b) (bloom_indices s)).
Definition counting_bloom_check (b : counting_bloom_t) (s : string) : bool := forallb (λ index, negb (bool_decide (bitmap_check (bitmap b) index = 0))) (bloom_indices s).
End filter.

(** * The counters of a filter *)

Section spec.
Context `{FM : !FreshMemory}.
Implicit Types (b : bitmap_t).

Definition bytes_ok b : Prop := ∀ k, 0 ≤ byte_at b k < 256.
Definition counter b (index : Z) : Z := let n := byte_at b (bitmap_access index) in if decide (index mod 2 ≠ 0) then n mod 16 else n / 16.

Lemma nibbles n : 0 ≤ n < 256 → Z.land n 15 = n mod 16 ∧ Z.land n 240 = 16 * (n / 16) ∧ Z.shiftr (Z.land n 240) 4 = n / 16.
Proof.
  intros Hn. assert (Forall (λ n, Z.land n 15 = n mod 16 ∧ Z.land n 240 = 16 * (n / 16) ∧ Z.shiftr (Z.land n 240) 4 = n / 16) (seqZ 0 256)) as H by (apply (bool_decide_unpack _); vm_compute; exact I).
  rewrite list.Forall_forall in H. apply H. apply elem_of_seqZ. lia.
Qed.
Lemma byte_at_insert b k n k' : byte_at (<[k := n]> b) k' = if decide (k' = k) then n else byte_at b k'.
Proof. unfold byte_at. case_decide as E; [by rewrite E, lookup_insert_eq|by rewrite lookup_insert_ne]. Qed.
Lemma bytes_ok_empty : bytes_ok ∅.
Proof. intros k. unfold byte_at. rewrite lookup_empty. apply fresh_byte_ok. Qed.

(** A byte of which one half is replaced. *)
Lemma half_replaced b index n x : bytes_ok b → 0 ≤ x < 16 → n = (if decide (index mod 2 ≠ 0) then 16 * (byte_at b (bitmap_access index) / 16) + x else byte_at b (bitmap_access index) mod 16 + 16 * x) →
  bytes_ok (<[bitmap_access index := uchar n]> b) ∧ ∀ j, counter (<[bitmap_access index := uchar n]> b) j = if decide (j = index) then x else counter b j.
Proof.
  intros Hb Hx Hn. pose proof (Hb (bitmap_access index)) as Hbyte. set (o := byte_at b (bitmap_access index)) in *. pose proof (Z.div_mod o 16 ltac:(lia)) as Hdm. pose proof (Z.mod_pos_bound o 16 ltac:(lia)) as Hm.
  assert (0 ≤ o / 16 < 16) as Hd by (split; [apply Z.div_pos; lia|apply Z.div_lt_upper_bound; lia]). assert (0 ≤ n < 256) as Hnr by (subst n; case_decide; lia).
  assert (uchar n = n) as -> by (unfold uchar; by rewrite Z.mod_small). split.
  - intros k. rewrite byte_at_insert. destruct (decide (k = _)); [done|apply Hb].
  - intros j. unfold counter. rewrite byte_at_insert. assert (∀ q r, 0 ≤ r < 16 → (16 * q + r) / 16 = q ∧ (16 * q + r) mod 16 = r) as Hqr.
    { intros q r Hr. split; symmetry; [apply (Z.div_unique _ _ _ r); lia|apply (Z.mod_unique _ _ q); lia]. }
    destruct (decide (bitmap_access j = bitmap_access index)) as [Ea|Ea].
    + assert (j / 2 = index / 2) as Ej by (unfold bitmap_access in Ea; lia). pose proof (Z.div_mod j 2 ltac:(lia)). pose proof (Z.div_mod index 2 ltac:(lia)). pose proof (Z.mod_pos_bound j 2 ltac:(lia)). pose proof (Z.mod_pos_bound index 2 ltac:(lia)).
      rewrite Ea. fold o. destruct (Hqr (o / 16) x Hx) as [Q1 R1]. destruct (Hqr x (o mod 16) Hm) as [Q2 R2]. subst n. rewrite (Z.add_comm (o mod 16)).
      repeat case_decide; lia.
    + rewrite (decide_False (P := j = index)) by congruence. done.
Qed.
Lemma counter_range b index : bytes_ok b → 0 ≤ counter b index < 16.
Proof. intros Hb. unfold counter. pose proof (Hb (bitmap_access index)). case_decide; [apply Z.mod_pos_bound; lia|]. split; [apply Z.div_pos; lia|apply Z.div_lt_upper_bound; lia]. Qed.
Lemma increment_counter b index : bytes_ok b → bytes_ok (bitmap_increment b index) ∧ ∀ j, counter (bitmap_increment b index) j = if decide (j = index) then Z.min 15 (counter b index + 1) else counter b j.
Proof.
  intros Hb. pose proof (counter_range b index Hb) as Hc. destruct (nibbles _ (Hb (bitmap_access index))) as (E1 & E2 & E3). unfold bitmap_increment. rewrite E1, E3, E2. pose proof (half_replaced b index) as Hhalf. unfold counter in Hc.
  destruct (decide (index mod 2 ≠ 0)) as [Hi|Hi]; case_decide as Hfull; cbv beta iota.
  1, 3: split; [done|]; intros j; case_decide as Ej; [subst j; unfold counter; rewrite ?decide_True by done; rewrite ?decide_False by lia; lia|done].
  all: eapply Hhalf in Hb as [Hb' Hj]; [split; [exact Hb'|]; intros j; rewrite Hj; case_decide; [|done]; instantiate (1 := counter b index + 1)|..]; unfold counter; rewrite ?decide_True by done; rewrite ?decide_False by lia; lia.
Qed.
Lemma decrement_counter b index : bytes_ok b → bytes_ok (bitmap_decrement b index) ∧ ∀ j, counter (bitmap_decrement b index) j = if decide (j = index) then Z.max 0 (counter b index - 1) else counter b j.
Proof.
  intros Hb. pose proof (counter_range b index Hb) as Hc. destruct (nibbles _ (Hb (bitmap_access index))) as (E1 & E2 & E3). unfold bitmap_decrement. rewrite E1, E3, E2. pose proof (half_replaced b index) as Hhalf. unfold counter in Hc.
  destruct (decide (index mod 2 ≠ 0)) as [Hi|Hi]; case_decide as Hfull; cbv beta iota.
  1, 3: split; [done|]; intros j; case_decide as Ej; [subst j; unfold counter; rewrite ?decide_True by done; rewrite ?decide_False by lia; lia|done].
  all: eapply Hhalf in Hb as [Hb' Hj]; [split; [exact Hb'|]; intros j; rewrite Hj; case_decide; [|done]; instantiate (1 := counter b index - 1)|..]; unfold counter; rewrite ?decide_True by done; rewrite ?decide_False by lia; lia.
Qed.
Lemma bitmap_check_counter b index : bytes_ok b → bitmap_check b index = 0 ↔ counter b index = 0.
Proof. intros Hb. destruct (nibbles _ (Hb (bitmap_access index))) as (E1 & E2 & _). unfold bitmap_check, counter. case_decide; [by rewrite E1|rewrite E2; lia]. Qed.

(** Every index of a list once. *)
Lemma increments_counters l : NoDup l → ∀ b, bytes_ok b → bytes_ok (foldl bitmap_increment b l) ∧ ∀ j, counter (foldl bitmap_increment b l) j = if decide (j ∈ l) then Z.min 15 (counter b j + 1) else counter b j.
Proof.
  induction 1 as [|i l Hi _ IH]; intros b Hb; cbn [foldl]; [split; [done|intros j; by rewrite decide_False by apply not_elem_of_nil]|].
  destruct (increment_counter b i Hb) as [Hb' Hc]. destruct (IH _ Hb') as [Hb'' Hcs]. split; [done|]. intros j. rewrite Hcs, Hc. destruct (decide (j = i)) as [->|Hj]; [rewrite decide_False by done; by rewrite decide_True by (apply elem_of_cons; auto)|].
  destruct (decide (j ∈ l)); [by rewrite decide_True by (apply elem_of_cons; auto)|by rewrite decide_False by (rewrite elem_of_cons; naive_solver)].
Qed.
Lemma decrements_counters l : NoDup l → ∀ b, bytes_ok b → bytes_ok (foldl bitmap_decrement b l) ∧ ∀ j, counter (foldl bitmap_decrement b l) j = if decide (j ∈ l) then Z.max 0 (counter b j - 1) else counter b j.
Proof.
  induction 1 as [|i l Hi _ IH]; intros b Hb; cbn [foldl]; [split; [done|intros j; by rewrite decide_False by apply not_elem_of_nil]|].
  destruct (decrement_counter b i Hb) as [Hb' Hc]. destruct (IH _ Hb') as [Hb'' Hcs]. split; [done|]. intros j. rewrite Hcs, Hc. destruct (decide (j = i)) as [->|Hj]; [rewrite decide_False by done; by rewrite decide_True by (apply elem_of_cons; auto)|].
  destruct (decide (j ∈ l)); [by rewrite decide_True by (apply elem_of_cons; auto)|by rewrite decide_False by (rewrite elem_of_cons; naive_solver)].
Qed.

(** ** The counters of a string *)

Lemma bloom_indices_lookup s i x : bloom_indices s !! i = Some x → (i < 5)%nat ∧ Z.of_nat i * BLOOM_COUNTS_PER_FUNC ≤ x < (Z.of_nat i + 1) * BLOOM_COUNTS_PER_FUNC.
Proof.
  unfold bloom_indices, hash_func. rewrite list_lookup_imap, list_lookup_fmap. intros E.
  destruct (seqZ 0 BLOOM_NFUNCS !! i) as [z|] eqn:Ez; [|done]. cbn in E. injection E as <-. apply lookup_seqZ in Ez as [_ Hi]. unfold BLOOM_NFUNCS in Hi. split; [lia|].
  set (h := _ mod BLOOM_COUNTS_PER_FUNC). assert (0 ≤ h < BLOOM_COUNTS_PER_FUNC) by (apply Z.mod_pos_bound; done). unfold BLOOM_COUNTS_PER_FUNC, u32, W32 in *.
  rewrite (Z.mod_small (Z.of_nat i * 623523)) by lia. rewrite Z.mod_small; lia.
Qed.
Lemma bloom_indices_nodup s : NoDup (bloom_indices s).
Proof. apply NoDup_alt. intros i j x [_ Hi]%bloom_indices_lookup [_ Hj]%bloom_indices_lookup. unfold BLOOM_COUNTS_PER_FUNC in *. lia. Qed.
Lemma bloom_access_in_bounds s index : index ∈ bloom_indices s → COUNTING_BLOOM_HEADER ≤ bitmap_access index < bloom_num_bytes.
Proof. intros [i [Hi Hx]%bloom_indices_lookup]%list_elem_of_lookup. change bloom_num_bytes with 1558824. unfold bitmap_access, COUNTING_BLOOM_HEADER, BLOOM_COUNTS_PER_FUNC in *. assert (0 ≤ index < 3117615) by lia. assert (0 ≤ index / 2 < 1558808) by (split; [apply Z.div_pos; lia|apply Z.div_lt_upper_bound; lia]). lia. Qed.

(** * The strings of a filter *)

(** How many of the strings share the counter. *)
Definition hits (l : list string) (index : Z) : Z := lenZ (filter (λ s, index ∈ bloom_indices s) l).
(** A filter that has the strings [l]: the strings that share a counter are not more
    than it says. *)
Definition bloom_holds (f : counting_bloom_t) (l : list string) : Prop := bytes_ok (bitmap f) ∧ ∀ index, hits l index ≤ counter (bitmap f) index.

Lemma hits_app l1 l2 index : hits (l1 ++ l2) index = hits l1 index + hits l2 index.
Proof. unfold hits. by rewrite list.filter_app, lenZ_app. Qed.
Lemma hits_nonneg l index : 0 ≤ hits l index.
Proof. apply lenZ_nonneg. Qed.
Lemma hits_one s index : hits [s] index = if decide (index ∈ bloom_indices s) then 1 else 0.
Proof. unfold hits. rewrite list.filter_cons, list.filter_nil. by case_decide. Qed.
Lemma hits_cons s l index : hits (s :: l) index = (if decide (index ∈ bloom_indices s) then 1 else 0) + hits l index.
Proof. rewrite <-hits_one. apply (hits_app [s]). Qed.
Lemma holds_new : bloom_holds new_counting_bloom [].
Proof. split; [apply bytes_ok_empty|]. intros index. change (hits [] index) with 0. apply counter_range, bytes_ok_empty. Qed.
Lemma holds_add f l s : bloom_holds f l → (∀ index, hits (l ++ [s]) index ≤ 15) → bloom_holds (counting_bloom_add f s) (l ++ [s]).
Proof.
  intros [Hb Hc] Hroom. destruct (increments_counters _ (bloom_indices_nodup s) _ Hb) as [Hb' Hc']. split; [exact Hb'|]. intros index. specialize (Hroom index). specialize (Hc index). cbn [bitmap counting_bloom_add]. rewrite Hc'.
  rewrite hits_app, hits_one in *. case_decide; lia.
Qed.
Lemma holds_remove f l s r : bloom_holds f (l ++ s :: r) → bloom_holds (counting_bloom_remove f s) (l ++ r).
Proof.
  intros [Hb Hc]. destruct (decrements_counters _ (bloom_indices_nodup s) _ Hb) as [Hb' Hc']. split; [exact Hb'|]. intros index. specialize (Hc index). cbn [bitmap counting_bloom_remove]. rewrite Hc'.
  rewrite !hits_app in *. rewrite hits_cons in Hc. case_decide; lia.
Qed.
Lemma holds_check f l s : bloom_holds f l → s ∈ l → counting_bloom_check f s = true.
Proof.
  intros [Hb Hc] Hs. unfold counting_bloom_check. apply forallb_forall. intros index Hi%list_elem_of_In. apply negb_true_iff, bool_decide_false. rewrite bitmap_check_counter by done. specialize (Hc index).
  apply list_elem_of_split in Hs as (l1 & l2 & ->). rewrite hits_app, hits_cons, decide_True in Hc by done. pose proof (hits_nonneg l1 index). pose proof (hits_nonneg l2 index). lia.
Qed.
End spec.

(** * Histories of a filter *)

Section history.
Context `{FM : !FreshMemory}.

(** A filter and the strings that have been added and not been removed; a string is
    added while at most 15 of them share a counter, and removed when it is there. *)
Inductive filter_history : counting_bloom_t → list string → Prop :=
| history_new : filter_history new_counting_bloom []
| history_add f l s : filter_history f l → (∀ index, hits (l ++ [s]) index ≤ 15) → filter_history (counting_bloom_add f s) (l ++ [s])
| history_remove f l s r : filter_history f (l ++ s :: r) → filter_history (counting_bloom_remove f s) (l ++ r).
Lemma history_holds f l : filter_history f l → bloom_holds f l.
Proof. induction 1; auto using holds_new, holds_add, holds_remove. Qed.

(** C40: whatever the memory of a new filter holds, after any history of additions and
    removals in which at most 15 of the strings in the filter share a counter, the check of
    every string that is in the filter says so, and the counters that are used lie in the
    bitmap. *)
Theorem bloom_no_false_negative f l s : filter_history f l → s ∈ l → counting_bloom_check f s = true ∧ ∀ index, index ∈ bloom_indices s → COUNTING_BLOOM_HEADER ≤ bitmap_access index < bloom_num_bytes.
Proof. intros Hf Hs. split; [by apply (holds_check f l s (history_holds f l Hf))|]. intros index. apply bloom_access_in_bounds. Qed.
End history.

Lemma hits_le l index : hits l index ≤ lenZ l.
Proof. unfold hits. pose proof (length_filter (λ s : string, index ∈ bloom_indices s) l). unfold lenZ. lia. Qed.
#[local] Instance cleared_memory : FreshMemory := {| fresh_byte := λ _, 0; fresh_byte_ok := λ _, conj (Z.le_refl 0) eq_refl; freed_kept := true |}.
Lemma bloom_no_false_negative_witness : counting_bloom_check (counting_bloom_remove (counting_bloom_add (counting_bloom_add new_counting_bloom [97]) [98; 48]) [97]) [98; 48] = true.
Proof.
  apply (bloom_no_false_negative _ [[98; 48]]); [|apply list_elem_of_singleton; reflexivity]. apply (history_remove _ [] [97] [[98; 48]]). apply (history_add _ [[97]] [98; 48]); [apply (history_add _ [] [97]); [apply history_new|]|].
  all: intros index; etransitivity; [apply hits_le|vm_compute; discriminate].
Defined.
(** Sixteen strings for one counter: the last that remains is not found. *)
Example full_counter_loses_a_string : counting_bloom_check (Nat.iter 15 (λ f, counting_bloom_remove f [97; 48]) (Nat.iter 16 (λ f, counting_bloom_add f [97; 48]) new_counting_bloom)) [97; 48] = false.
Proof. vm_compute. reflexivity. Qed.
