(* ===== verification/MetadataTable.v ===== *)
(** The metadata of a server
    ([src/src/server/pdc_server_metadata.c]): a hash table of lists of objects, with a
    Bloom filter for the long lists, and a hash table of containers; objects and
    containers have tags.  The tables are there ([PDC_Server_init_hash_table]).  A list
    of the C code is a list here, an element of it is changed in place. *)

From stdpp Require Import gmap.
From S2P Require Export BloomFilter.
#[local] Open Scope Z_scope.

(** * What the code calls *)

(** The order in which a hash table is traversed. *)
Class TableOrder := {
  table_list : ∀ {A}, gmap Z A → list (Z * A);
  table_list_perm : ∀ {A} (m : gmap Z A), table_list m ≡ₚ map_to_list m;
}.

(** * Data *)

Definition OBJ_NAME_MAX : Z := 1024.
Definition ADDR_MAX : Z := 1024.
Definition TAG_LEN_MAX : Z := 2048.
Definition CREATE_BLOOM_THRESHOLD : Z := 64.
Definition PDC_ALLOC_BASE_NUM : Z := 64.

Record pdc_kvtag_t := KvTag { kv_name : string; kv_type : Z; kv_value : list Z }.

(** [_pdc_transform_state] *)
Record transform_t := Transform { tr_dtype : Z; tr_ndim : Z; tr_dims : list Z; tr_meta_index : Z }.
Definition no_transform : transform_t := Transform 0 0 [0; 0; 0; 0] 0.

Record pdc_metadata_t := Metadata {
  user_id : Z;
  app_name : string;
  obj_name : string;
  time_step : Z;
  data_type : Z;
  obj_id : Z;
  cont_id : Z;
  data_server_id : Z;
  region_partition : Z;
  consistency : Z;
  tags : string;
  kvtags : list pdc_kvtag_t;
  data_location : string;
  ndim : Z;
  dims : list Z;
  transform_state : Z;
  current_state : transform_t;
}.
Definition with_id (m : pdc_metadata_t) (id : Z) : pdc_metadata_t :=
  Metadata (user_id m) (app_name m) (obj_name m) (time_step m) (data_type m) id (cont_id m) (data_server_id m) (region_partition m) (consistency m) (tags m) (kvtags m) (data_location m)
    (ndim m) (dims m) (transform_state m) (current_state m).
Definition with_tags (m : pdc_metadata_t) (t : string) : pdc_metadata_t :=
  Metadata (user_id m) (app_name m) (obj_name m) (time_step m) (data_type m) (obj_id m) (cont_id m) (data_server_id m) (region_partition m) (consistency m) t (kvtags m) (data_location m)
    (ndim m) (dims m) (transform_state m) (current_state m).
Definition with_kvtags (m : pdc_metadata_t) (t : list pdc_kvtag_t) : pdc_metadata_t :=
  Metadata (user_id m) (app_name m) (obj_name m) (time_step m) (data_type m) (obj_id m) (cont_id m) (data_server_id m) (region_partition m) (consistency m) (tags m) t (data_location m)
    (ndim m) (dims m) (transform_state m) (current_state m).

(** [pdc_metadata_transfer_t]; the current state is [t_current_state] with the fields
    of its transform. *)
Record pdc_metadata_transfer_t := Transfer {
  t_user_id : Z;
  t_app_name : string;
  t_obj_name : string;
  t_time_step : Z;
  t_cont_id : Z;
  t_ndim : Z;
  t_dims : Z * Z * Z * Z;
  t_tags : string;
  t_data_location : string;
  t_data_server_id : Z;
  t_region_partition : Z;
  t_consistency : Z;
  t_current_state : Z;
  t_transform : transform_t;
}.

(** The conversion of a text to a number of a type ([None]: no type of numbers), and the
    comparison of the values of the type. *)
Class Numbers := {
  get_number_from_string : string → Z → option (list Z);
  cmp_func : Z → list Z → list Z → Z;
}.

Section server.
Context `{FM : !FreshMemory, TO : !TableOrder, NU : !Numbers}.

Record pdc_hash_table_entry_head := Head { n_obj : Z; bloom : option counting_bloom_t; metadata : list pdc_metadata_t }.
Record pdc_cont_hash_table_entry_t := Cont {
  c_cont_id : Z;
  c_cont_name : string;
  c_n_obj : Z;
  c_n_deleted : Z;
  c_n_allocated : Z;
  c_obj_ids : list Z;
  c_tags : string;
  c_kvtags : list pdc_kvtag_t;
}.
Record meta_server := MetaServer {
  metadata_hash_table_g : gmap Z pdc_hash_table_entry_head;
  container_hash_table_g : gmap Z pdc_cont_hash_table_entry_t;
  pdc_id_seq_g : Z;
  n_metadata_g : Z;
}.
Definition with_objects (st : meta_server) (t : gmap Z pdc_hash_table_entry_head) : meta_server := MetaServer t (container_hash_table_g st) (pdc_id_seq_g st) (n_metadata_g st).
Definition with_conts (st : meta_server) (t : gmap Z pdc_cont_hash_table_entry_t) : meta_server := MetaServer (metadata_hash_table_g st) t (pdc_id_seq_g st) (n_metadata_g st).
Definition with_count (st : meta_server) (n : Z) : meta_server := MetaServer (metadata_hash_table_g st) (container_hash_table_g st) (pdc_id_seq_g st) n.

(** * Strings *)

(** [strcpy] into a buffer of [max] characters. *)
Definition strcpy (max : Z) (s : string) : option string := if decide (lenZ s < max) then Some s else None.
(** [PDC_get_hash_by_name]: the sum is one of [uint32_t], the characters have a sign. *)
Definition pdc_hash_djb2 (pc : string) : Z := foldl (λ hash c, u32 (u32 (u32 (Z.shiftl hash 5) + hash) + c)) 5381 pc.

Fixpoint digits (fuel : nat) (n : Z) : string :=
  match fuel with
  | O => []
  | S fuel => if decide (n < 10) then [48 + n] else digits fuel (n / 10) ++ [48 + n mod 10]
  end.
(** [%d] *)
Definition decimal (n : Z) : string := if decide (n < 0) then 45 :: digits 10 (- n) else digits 10 n.
Definition combine_obj_info_to_string (m : pdc_metadata_t) : string := take (Z.to_nat (TAG_LEN_MAX - 1)) (obj_name m ++ decimal (time_step m)).

Fixpoint strcmp (s1 s2 : string) : Z :=
  match s1, s2 with
  | [], [] => 0
  | c :: _, [] => uchar c
  | [], c :: _ => - uchar c
  | c1 :: s1, c2 :: s2 => if decide (c1 = c2) then strcmp s1 s2 else uchar c1 - uchar c2
  end.

(** * Objects *)

(** A field that is not given agrees with everything. *)
Definition PDC_metadata_cmp (a b : pdc_metadata_t) : Z :=
  let ret := if decide (0 ≤ time_step a ∧ 0 ≤ time_step b) then i32 (time_step a - time_step b) else 0 in
  if decide (ret ≠ 0) then ret else
  let ret := if decide (obj_name a ≠ [] ∧ obj_name b ≠ []) then strcmp (obj_name a) (obj_name b) else 0 in
  if decide (ret ≠ 0) then ret else
  let ret := if decide (0 < user_id a ∧ 0 < user_id b) then i32 (user_id a - user_id b) else 0 in
  if decide (ret ≠ 0) then ret else
  if decide (app_name a ≠ [] ∧ app_name b ≠ []) then strcmp (app_name a) (app_name b) else 0.

(** The position of an element in a list, and the element. *)
Definition find_metadata_by_id_from_list (mlist : list pdc_metadata_t) (id : Z) : option (nat * pdc_metadata_t) := list_find (λ m, obj_id m = id) mlist.

Definition find_identical_metadata (entry : pdc_hash_table_entry_head) (a : pdc_metadata_t) : option (nat * pdc_metadata_t) :=
  let scan := list_find (λ m, PDC_metadata_cmp m a = 0) (metadata entry) in
  match bloom entry with
  | Some b => if decide (user_id a ≠ 0 ∧ app_name a ≠ [])
              then if counting_bloom_check b (combine_obj_info_to_string a) then scan else None
              else scan
  | None => scan
  end.

Definition PDC_Server_add_to_bloom (b : option counting_bloom_t) (m : pdc_metadata_t) : option counting_bloom_t := (λ b, counting_bloom_add b (combine_obj_info_to_string m)) <$> b.
Definition PDC_Server_remove_from_bloom (b : option counting_bloom_t) (m : pdc_metadata_t) : option counting_bloom_t := (λ b, counting_bloom_remove b (combine_obj_info_to_string m)) <$> b.

Definition PDC_Server_hash_table_list_insert (head : pdc_hash_table_entry_head) (new : pdc_metadata_t) : pdc_hash_table_entry_head :=
  let b := if decide (n_obj head = CREATE_BLOOM_THRESHOLD) then PDC_Server_add_to_bloom (foldl PDC_Server_add_to_bloom (Some new_counting_bloom) (metadata head)) new
           else if decide (CREATE_BLOOM_THRESHOLD ≤ n_obj head ∨ bloom head ≠ None) then PDC_Server_add_to_bloom (bloom head) new
           else bloom head in
  Head (i32 (n_obj head + 1)) b (metadata head ++ [new]).

Definition PDC_Server_gen_obj_id (st : meta_server) : Z * meta_server :=
  (pdc_id_seq_g st, MetaServer (metadata_hash_table_g st) (container_hash_table_g st) (pdc_id_seq_g st +w 1) (n_metadata_g st)).

(** The metadata of the request, before it has an identifier. *)
Definition new_metadata (data : pdc_metadata_transfer_t) (dtype : Z) : option pdc_metadata_t :=
  name ← strcpy OBJ_NAME_MAX (t_obj_name data);
  app ← strcpy OBJ_NAME_MAX (t_app_name data);
  tag ← strcpy TAG_LEN_MAX (t_tags data);
  loc ← strcpy ADDR_MAX (t_data_location data);
  let '(d0, d1, d2, d3) := t_dims data in
  let given := [d0; d1; d2; d3] in
  let nd := Z.to_nat (u32 (t_ndim data)) in
  Some (Metadata (t_user_id data) app name (t_time_step data) dtype 0 (t_cont_id data) (t_data_server_id data) (t_region_partition data) (t_consistency data) tag [] loc
          (t_ndim data) (take nd given ++ replicate (4 - nd) 0) 0 no_transform).

(** The new state and the identifier, 0 when there is such an object. *)
Definition PDC_insert_metadata_to_hash_table (st : meta_server) (data : pdc_metadata_transfer_t) (hash_value dtype : Z) : option (meta_server * Z) :=
  m ← new_metadata data dtype;
  let insert head :=
    let (id, st) := PDC_Server_gen_obj_id st in
    Some (with_count (with_objects st (<[hash_value := PDC_Server_hash_table_list_insert head (with_id m id)]> (metadata_hash_table_g st))) (u32 (n_metadata_g st + 1)), id) in
  match metadata_hash_table_g st !! hash_value with
  | Some head => match find_identical_metadata head m with Some _ => Some (st, 0) | None => insert head end
  | None => insert (Head 0 None [])
  end.

(** ** Deletion *)

(** One element found in the list of [key]; [None] for the entry: it is removed. *)
Definition remove_elt (head : pdc_hash_table_entry_head) (i : nat) (m : pdc_metadata_t) : option pdc_hash_table_entry_head :=
  if decide (1 < n_obj head) then Some (Head (i32 (n_obj head - 1)) (PDC_Server_remove_from_bloom (bloom head) m) (delete i (metadata head))) else None.

(** [None] when there is no such object: the return value is -1. *)
Definition PDC_delete_metadata_from_hash_table (st : meta_server) (name : string) (ts hash_value : Z) : option (meta_server * Z) :=
  name ← strcpy OBJ_NAME_MAX name;
  let a := Metadata (-1) [] name ts 0 0 0 0 0 0 [] [] [] 0 [] 0 no_transform in
  let done st ret := Some (with_count st (u32 (n_metadata_g st - 1)), ret) in
  match metadata_hash_table_g st !! hash_value with
  | Some head =>
    match find_identical_metadata head a with
    | Some (i, target) => done (with_objects st (match remove_elt head i target with
                                                 | Some head => <[hash_value := head]> (metadata_hash_table_g st)
                                                 | None => delete hash_value (metadata_hash_table_g st)
                                                 end)) 1
    | None => done st (-1)
    end
  | None => done st (-1)
  end.

(** The loop over one list from position [i]; the state of the table and whether the
    object was found.  Removing the entry of the list frees its elements (unless they
    come from a checkpoint, [is_restart_g]), after which the loop reads the successor
    of one, which is a fault unless freed memory keeps what was in it ([freed_kept]).  An entry of
    another key than that of the list is not expected to be removed. *)
Fixpoint delete_in_list (key target : Z) (l : list pdc_metadata_t) (i : nat) (table : gmap Z pdc_hash_table_entry_head) (found : bool) : option (gmap Z pdc_hash_table_entry_head * bool) :=
  match l with
  | [] => Some (table, found)
  | m :: l =>
    if decide (obj_id m ≠ target) then delete_in_list key target l (S i) table found
    else
      head ← table !! key;
      match remove_elt head i m with
      | Some head => delete_in_list key target l i (<[key := head]> table) true
      | None =>
        if decide (pdc_hash_djb2 (obj_name m) = key) then
          if freed_kept && bool_decide (l = []) then Some (delete key table, true) else None
        else if decide (table !! pdc_hash_djb2 (obj_name m) = None) then delete_in_list key target l (S i) table true
        else None
      end
  end.
Fixpoint delete_in_table (target : Z) (entries : list (Z * pdc_hash_table_entry_head)) (table : gmap Z pdc_hash_table_entry_head) (found : bool) : option (gmap Z pdc_hash_table_entry_head * bool) :=
  match entries with
  | [] => Some (table, found)
  | (key, head) :: entries => '(table, found) ← delete_in_list key target (metadata head) 0 table found; delete_in_table target entries table found
  end.
(** A container or an object; the return code and [out]. *)
Definition PDC_Server_delete_metadata_by_id (st : meta_server) (target : Z) : option (meta_server * (perr_t * Z)) :=
  let done st ret := Some (with_count st (u32 (n_metadata_g st - 1)), ret) in
  match list_find (λ e, c_cont_id e.2 = target) (table_list (container_hash_table_g st)) with
  | Some (_, (key, _)) => done (with_conts st (delete key (container_hash_table_g st))) (SUCCEED, 1)
  | None =>
    '(table, found) ← delete_in_table target (table_list (metadata_hash_table_g st)) (metadata_hash_table_g st) false;
    done (with_objects st table) (if found : bool then (SUCCEED, 1) else (FAIL, -1))
  end.

(** ** Changes *)

(** The fields of a request that are empty or a blank change nothing. *)
Definition given (s : string) : bool := negb (bool_decide (s = [])) && negb (bool_decide (s = [32])).
Definition COMMA : Z := 44.
(** A comma and the new tag. *)
Definition append_tag (t new : string) : option string := if decide (lenZ t + 1 + lenZ new < TAG_LEN_MAX) then Some (t ++ COMMA :: new) else None.

(** The target of a request in the list of its hash value. *)
Definition with_target {R} (st : meta_server) (hash_value id : Z) (none : R) (f : pdc_metadata_t → option (pdc_metadata_t * R)) : option (meta_server * R) :=
  match metadata_hash_table_g st !! hash_value with
  | Some head =>
    match find_metadata_by_id_from_list (metadata head) id with
    | Some (i, m) => '(m', r) ← f m; Some (with_objects st (<[hash_value := Head (n_obj head) (bloom head) (<[i := m']> (metadata head))]> (metadata_hash_table_g st)), r)
    | None => Some (st, none)
    end
  | None => Some (st, none)
  end.

(** [out] *)
Definition PDC_Server_add_tag_metadata (st : meta_server) (hash_value id : Z) (new_tag : string) : option (meta_server * Z) :=
  with_target st hash_value id (-1) (λ m, if given new_tag then t ← append_tag (tags m) new_tag; Some (with_tags m t, 1) else Some (m, -1)).

Definition update_metadata (m : pdc_metadata_t) (new : pdc_metadata_transfer_t) : option pdc_metadata_t :=
  app ← (if given (t_app_name new) then strcpy OBJ_NAME_MAX (t_app_name new) else Some (app_name m));
  loc ← (if given (t_data_location new) then strcpy ADDR_MAX (t_data_location new) else Some (data_location m));
  tag ← (if given (t_tags new) then append_tag (tags m) (t_tags new) else Some (tags m));
  Some (Metadata (user_id m) app (obj_name m) (if decide (t_time_step new = -1) then time_step m else t_time_step new) (data_type m) (obj_id m) (cont_id m) (data_server_id m)
          (region_partition m) (consistency m) tag (kvtags m) loc (ndim m) (dims m)
          (if decide (t_current_state new = 0) then transform_state m else t_current_state new) (if decide (t_current_state new = 0) then current_state m else t_transform new)).
(** The return value and [out], which agree. *)
Definition PDC_Server_update_metadata (st : meta_server) (hash_value id : Z) (new : pdc_metadata_transfer_t) : option (meta_server * Z) :=
  with_target st hash_value id (-1) (λ m, m ← update_metadata m new; Some (m, 1)).

(** ** Tags with a key *)

Definition PDC_add_kvtag_to_list (l : list pdc_kvtag_t) (tag : pdc_kvtag_t) : list pdc_kvtag_t := l ++ [tag].
(** The name and the value; [None] when no tag has the key: [out] is not assigned. *)
Definition PDC_get_kvtag_value_from_list (l : list pdc_kvtag_t) (key : string) : option (string * list Z) := (λ t, (kv_name t.2, kv_value t.2)) <$> list_find (λ t, kv_name t = key) l.
Definition PDC_del_kvtag_value_from_list (l : list pdc_kvtag_t) (key : string) : list pdc_kvtag_t :=
  match list_find (λ t, kv_name t = key) l with Some (i, _) => delete i l | None => l end.

Definition with_cont_kvtags (c : pdc_cont_hash_table_entry_t) (t : list pdc_kvtag_t) : pdc_cont_hash_table_entry_t :=
  Cont (c_cont_id c) (c_cont_name c) (c_n_obj c) (c_n_deleted c) (c_n_allocated c) (c_obj_ids c) (c_tags c) t.
(** The list of tags of an object, or of a container when there is no list of objects
    with the hash value. *)
Definition on_kvtags {R} (st : meta_server) (hash_value id : Z) (none : R) (f : list pdc_kvtag_t → list pdc_kvtag_t * R) : option (meta_server * R) :=
  match metadata_hash_table_g st !! hash_value with
  | Some _ => with_target st hash_value id none (λ m, let (l, r) := f (kvtags m) in Some (with_kvtags m l, r))
  | None =>
    match container_hash_table_g st !! hash_value with
    | Some c => let (l, r) := f (c_kvtags c) in Some (with_conts st (<[hash_value := with_cont_kvtags c l]> (container_hash_table_g st)), r)
    | None => Some (st, none)
    end
  end.
(** [out]: 1 or -1, with the tag that was found. *)
Definition PDC_Server_add_kvtag_someta (st : meta_server) (hash_value id : Z) (tag : pdc_kvtag_t) : option (meta_server * Z) :=
  on_kvtags st hash_value id (-1) (λ l, (PDC_add_kvtag_to_list l tag, 1)).
Definition PDC_Server_get_kvtag_someta (st : meta_server) (hash_value id : Z) (key : string) : option (meta_server * (Z * option (string * list Z))) :=
  on_kvtags st hash_value id (-1, None) (λ l, (l, (1, PDC_get_kvtag_value_from_list l key))).
Definition PDC_Server_del_kvtag_someta (st : meta_server) (hash_value id : Z) (key : string) : option (meta_server * Z) :=
  on_kvtags st hash_value id (-1) (λ l, (PDC_del_kvtag_value_from_list l key, 1)).

(** ** Queries *)

Definition all_listed (st : meta_server) : list pdc_metadata_t := table_list (metadata_hash_table_g st) ≫= (λ e, metadata e.2).
Definition find_metadata_by_id (st : meta_server) (id : Z) : option pdc_metadata_t := snd <$> list_find (λ m, obj_id m = id) (all_listed st).
(** The same loop in another function. *)
Definition PDC_Server_get_local_metadata_by_id (st : meta_server) (id : Z) : perr_t * option pdc_metadata_t := (SUCCEED, find_metadata_by_id st id).

(** A list without the object is an error, no list is none. *)
Definition PDC_Server_search_with_name_timestep (st : meta_server) (name : string) (hash_key ts : Z) : option (perr_t * option pdc_metadata_t) :=
  name ← strcpy OBJ_NAME_MAX name;
  let a := Metadata 0 [] name (i32 ts) 0 0 0 0 0 0 [] [] [] 0 [] 0 no_transform in
  Some match metadata_hash_table_g st !! hash_key with
       | Some head => match find_identical_metadata head a with Some (_, m) => (SUCCEED, Some m) | None => (FAIL, None) end
       | None => (SUCCEED, None)
       end.
Definition PDC_Server_search_with_name_hash (st : meta_server) (name : string) (hash_key : Z) : option (perr_t * option pdc_metadata_t) := PDC_Server_search_with_name_timestep st name hash_key 0.

(** [metadata_query_transfer_in_t]; a field that is a blank says nothing. *)
Record metadata_query_t := Query {
  is_list_all : Z;
  q_user_id : Z;
  q_app_name : string;
  q_obj_name : string;
  time_step_from : Z;
  time_step_to : Z;
  q_ndim : Z;
  q_tags : string;
}.
Definition blank (s : string) : bool := bool_decide (s = [32]).
Definition is_metadata_satisfy_constraint (m : pdc_metadata_t) (q : metadata_query_t) : Z :=
  if decide (0 < q_user_id q ∧ q_user_id q ≠ user_id m) then -1
  else if negb (blank (q_app_name q)) && negb (bool_decide (strcmp (app_name m) (q_app_name q) = 0)) then -1
  else if negb (blank (q_obj_name q)) && negb (bool_decide (strcmp (obj_name m) (q_obj_name q) = 0)) then -1
  else if decide (0 < time_step_from q ∧ 0 < time_step_to q ∧ (time_step m < time_step_from q ∨ time_step_to q < time_step m)) then -1
  else if decide (0 < q_ndim q ∧ ndim m ≠ q_ndim q) then -1
  else if negb (blank (q_tags q)) && negb (contains (tags m) (q_tags q)) then -1
  else 1.
(** The pointers go to an array of [n_metadata_g + 1]. *)
Definition PDC_Server_get_partial_query_result (st : meta_server) (q : metadata_query_t) : option (list pdc_metadata_t) :=
  let res := filter (λ m, is_list_all q = 1 ∨ is_metadata_satisfy_constraint m q = 1) (all_listed st) in
  if decide (lenZ res ≤ u32 (n_metadata_g st + 1)) then Some res else None.

(** *** Queries for tags *)

(** The condition of a query for numbers ([parse_and_run_number_value_query]): a value,
    or bounds with whether they are included; [None] when the query is not valid. *)
Inductive number_condition := Exact (v : list Z) | Range (lo hi : option (list Z * bool)).
Definition parse_number_value_query (query : string) (type : Z) : option number_condition :=
  let num s := get_number_from_string s type in
  if startsWith query [PIPE] && startsWith query [PIPE] then
    num_str ← substring query 1 (lenZ query - 1); num_str ← num_str; Exact <$> num num_str
  else if startsWith query [TILDE] then
    let endInclusive := bool_decide (getZ query 1 = Some PIPE) in
    numstr ← substring query (if endInclusive then 2 else 1) (lenZ query); numstr ← numstr;
    v ← num numstr; Some (Range None (Some (v, endInclusive)))
  else if endsWith query [TILDE] then
    let beginInclusive := bool_decide (getZ query (lenZ query - 2) = Some PIPE) in
    numstr ← substring query 0 (if beginInclusive then lenZ query - 2 else lenZ query - 1); numstr ← numstr;
    v ← num numstr; Some (Range (Some (v, beginInclusive)) None)
  else if contains query [TILDE] then
    match split_at query TILDE with
    | [lo_tok; hi_tok] =>
      let beginInclusive := endsWith lo_tok [PIPE] in
      let endInclusive := startsWith hi_tok [PIPE] in
      lo ← (if beginInclusive then substring lo_tok 0 (lenZ lo_tok - 1) else Some (Some lo_tok)); lo ← lo;
      hi ← (if endInclusive then substring hi_tok 1 (lenZ hi_tok) else Some (Some hi_tok)); hi ← hi;
      v1 ← num lo; v2 ← num hi; Some (Range (Some (v1, beginInclusive)) (Some (v2, endInclusive)))
    | _ => None
    end
  else Exact <$> num query.
Definition num_query_action_someta (type : Z) (value : list Z) (c : number_condition) : bool :=
  match c with
  | Exact v => bool_decide (cmp_func type value v = 0)
  | Range lo hi =>
      match lo with Some (v, incl) => if incl : bool then bool_decide (0 ≤ cmp_func type value v) else bool_decide (0 < cmp_func type value v) | None => true end &&
      match hi with Some (v, incl) => if incl : bool then bool_decide (cmp_func type value v ≤ 0) else bool_decide (cmp_func type value v < 0) | None => true end
  end.

(** [in]: the name, the type and the value of the query, a string. *)
Definition _is_matching_kvtag (name : string) (type : Z) (value : string) (tag : pdc_kvtag_t) : option bool :=
  b ← simple_matches (kv_name tag) name;
  if negb b then Some false
  else if decide (type ≠ kv_type tag) then Some false
  else if decide (type = PDC_STRING) then v ← c_string (kv_value tag); simple_matches v value
  else c ← parse_number_value_query value type; Some (num_query_action_someta type (kv_value tag) c).
(** An object is found once for every tag that matches. *)
Definition PDC_Server_query_kvtag_someta (st : meta_server) (name : string) (type : Z) (value : string) : option (list Z) :=
  res ← mapM (λ m, bs ← mapM (_is_matching_kvtag name type value) (kvtags m); Some ((λ _, obj_id m) <$> filter (λ b, b = true) bs)) (all_listed st);
  Some (concat res).
Definition PDC_Server_get_kvtag_query_result (st : meta_server) (name : string) (type : Z) (value : string) : option (list Z) :=
  if is_string_query value then v ← stripQuotes value; v ← v; PDC_Server_query_kvtag_someta st name PDC_STRING v
  else PDC_Server_query_kvtag_someta st name type value.

(** * Containers *)

(** The identifier of the container, new or with the same hash value. *)
Definition PDC_Server_create_container (st : meta_server) (hash_value : Z) (name : string) : option (meta_server * Z) :=
  match container_hash_table_g st !! hash_value with
  | Some c => Some (st, c_cont_id c)
  | None =>
    name ← strcpy ADDR_MAX name;
    let (id, st) := PDC_Server_gen_obj_id st in
    Some (with_conts st (<[hash_value := Cont id name 0 0 0 [] [] []]> (container_hash_table_g st)), id)
  end.
(** Nothing is deleted; when there is no such container its name is printed. *)
Definition PDC_Server_delete_container_by_name (st : meta_server) (hash_value : Z) : option (meta_server * perr_t) :=
  match container_hash_table_g st !! hash_value with Some _ => Some (st, SUCCEED) | None => None end.
Definition PDC_Server_find_container_by_name (st : meta_server) (name : string) : option pdc_cont_hash_table_entry_t :=
  match container_hash_table_g st !! pdc_hash_djb2 name with
  | Some c => if decide (strcmp name (c_cont_name c) = 0) then Some c else None
  | None => None
  end.
Definition PDC_Server_find_container_by_id (st : meta_server) (id : Z) : option (Z * pdc_cont_hash_table_entry_t) := snd <$> list_find (λ e, c_cont_id e.2 = id) (table_list (container_hash_table_g st)).

(** The room of the array afterwards. *)
Definition cont_room (c : pdc_cont_hash_table_entry_t) (n : Z) : Z :=
  if decide (c_n_allocated c = 0) then PDC_ALLOC_BASE_NUM
  else if decide (c_n_allocated c < i32 (c_n_obj c + n)) then i32 (u64 (i32 ((if decide (n < c_n_allocated c) then c_n_allocated c else n) * 16)) / 8)
  else c_n_allocated c.
(** [None]: the identifiers do not fit. *)
Definition PDC_Server_container_add_objs (st : meta_server) (ids : list Z) (id : Z) : option (meta_server * perr_t) :=
  match PDC_Server_find_container_by_id st id with
  | Some (key, c) =>
    let n := lenZ ids in
    let room := cont_room c n in
    if decide (c_n_obj c + n ≤ room)
    then Some (with_conts st (<[key := Cont (c_cont_id c) (c_cont_name c) (i32 (c_n_obj c + n)) (c_n_deleted c) room (c_obj_ids c ++ ids) (c_tags c) (c_kvtags c)]> (container_hash_table_g st)), SUCCEED)
    else None
  | None => Some (st, FAIL)
  end.
(** The first occurrence of every identifier becomes 0; the list, and how many. *)
Fixpoint del_objs (obj_ids ids : list Z) : list Z * Z :=
  match ids with
  | [] => (obj_ids, 0)
  | id :: ids =>
    match list_find (λ x, x = id) obj_ids with
    | Some (j, _) => let (l, n) := del_objs (<[j := 0]> obj_ids) ids in (l, n + 1)
    | None => del_objs obj_ids ids
    end
  end.
Definition PDC_Server_container_del_objs (st : meta_server) (ids : list Z) (id : Z) : meta_server * perr_t :=
  match PDC_Server_find_container_by_id st id with
  | Some (key, c) =>
    let (l, n) := del_objs (c_obj_ids c) ids in
    (with_conts st (<[key := Cont (c_cont_id c) (c_cont_name c) (c_n_obj c) (i32 (c_n_deleted c + n)) (c_n_allocated c) l (c_tags c) (c_kvtags c)]> (container_hash_table_g st)), SUCCEED)
  | None => (st, FAIL)
  end.
Definition PDC_Server_container_add_tags (st : meta_server) (id : Z) (new : string) : option (meta_server * perr_t) :=
  match PDC_Server_find_container_by_id st id with
  | Some (key, c) =>
    if decide (lenZ (c_tags c) + lenZ new < TAG_LEN_MAX)
    then Some (with_conts st (<[key := Cont (c_cont_id c) (c_cont_name c) (c_n_obj c) (c_n_deleted c) (c_n_allocated c) (c_obj_ids c) (c_tags c ++ new) (c_kvtags c)]> (container_hash_table_g st)), SUCCEED)
    else None
  | None => Some (st, FAIL)
  end.
End server.
