(* ===== verification/MetadataTableSpec.v ===== *)
(** The metadata of a server against a directory of objects by identifier: every request
    that changes it implements the change of the directory, every query is answered
    from it. *)

From stdpp Require Import gmap.
From S2P Require Export MetadataTable.
#[local] Open Scope Z_scope.

(** * Names *)

Definition name_ok (s : string) : Prop := Forall (λ c, -128 ≤ c < 128 ∧ c ≠ 0) s.
Lemma uchar_inj c c' : -128 ≤ c < 128 → -128 ≤ c' < 128 → uchar c = uchar c' → c = c'.
Proof. unfold uchar. intros H H' E. pose proof (Z.div_mod c 256). pose proof (Z.div_mod c' 256). assert (-1 ≤ c / 256 ≤ 0 ∧ -1 ≤ c' / 256 ≤ 0) by (split; split; apply Z.div_le_lower_bound || apply Z.lt_succ_r, Z.div_lt_upper_bound; lia). lia. Qed.
Lemma strcmp_eq s1 : name_ok s1 → ∀ s2, name_ok s2 → strcmp s1 s2 = 0 ↔ s1 = s2.
Proof.
  assert (∀ c, -128 ≤ c < 128 ∧ c ≠ 0 → uchar c ≠ 0) as Hne by (intros c [Hc Hz] E; apply Hz; apply uchar_inj; [lia|lia|by rewrite E]).
  induction 1 as [|c1 s1 Hc1 Hs1 IH]; intros s2 [|c2 s2' Hc2 Hs2]; cbn.
  - done.
  - specialize (Hne c2 Hc2). split; [lia|done].
  - specialize (Hne c1 Hc1). split; [lia|done].
  - case_decide as E; [subst c2; rewrite (IH s2' Hs2); naive_solver|]. split; [|naive_solver]. intros Eu. exfalso. apply E. apply uchar_inj; [apply Hc1|apply Hc2|lia].
Qed.

(** What an object must have to be told from others: a name and a time step. *)
Definition identified (m : pdc_metadata_t) : Prop := 0 ≤ time_step m < 2147483648 ∧ obj_name m ≠ [] ∧ name_ok (obj_name m).
Lemma identical_names a b : identified a → identified b → PDC_metadata_cmp a b = 0 → obj_name a = obj_name b ∧ time_step a = time_step b.
Proof.
  intros (Ta & Na & Va) (Tb & Nb & Vb). unfold PDC_metadata_cmp. rewrite (decide_True (P := 0 ≤ time_step a ∧ 0 ≤ time_step b)) by lia.
  assert (i32 (time_step a - time_step b) = time_step a - time_step b) as -> by (unfold i32, W32; rewrite Z.mod_small; lia).
  cbv zeta. case_decide as Et; [lia|]. rewrite (decide_True (P := obj_name a ≠ [] ∧ obj_name b ≠ [])) by done. case_decide as En; [done|]. intros _. assert (strcmp (obj_name a) (obj_name b) = 0) as E by (destruct (decide (strcmp (obj_name a) (obj_name b) = 0)); [done|by destruct En]).
  apply strcmp_eq in E; [|done|done]. split; [done|lia].
Qed.

Section spec.
Context `{FM : !FreshMemory, TO : !TableOrder, NU : !Numbers}.
Implicit Types (head : pdc_hash_table_entry_head) (m a : pdc_metadata_t) (table : gmap Z pdc_hash_table_entry_head) (objs : gmap Z pdc_metadata_t).

(** * One list *)

(** A list without a filter is short. *)
Definition bloom_ok head : Prop := match bloom head with Some b => bloom_holds b (combine_obj_info_to_string <$> metadata head) | None => lenZ (metadata head) ≤ CREATE_BLOOM_THRESHOLD end.
Definition list_ok (key : Z) head : Prop :=
  n_obj head = lenZ (metadata head) ∧ lenZ (metadata head) < 2147483648 ∧ bloom_ok head ∧ NoDup (obj_id <$> metadata head) ∧
  ∀ m, m ∈ metadata head → pdc_hash_djb2 (obj_name m) = key ∧ identified m.

Lemma find_identical_spec key head a : list_ok key head → identified a →
  match find_identical_metadata head a with
  | Some (i, m) => metadata head !! i = Some m ∧ PDC_metadata_cmp m a = 0
  | None => ∀ m, m ∈ metadata head → PDC_metadata_cmp m a ≠ 0
  end.
Proof.
  intros (_ & _ & Hb & _ & Hall) Ha. unfold find_identical_metadata.
  assert (match list_find (λ m, PDC_metadata_cmp m a = 0) (metadata head) with
          | Some (i, m) => metadata head !! i = Some m ∧ PDC_metadata_cmp m a = 0
          | None => ∀ m, m ∈ metadata head → PDC_metadata_cmp m a ≠ 0
          end) as Hscan.
  { destruct (list_find _ _) as [[i m]|] eqn:E; [by apply list_find_Some in E as (? & ? & _)|]. apply list_find_None in E. by rewrite list.Forall_forall in E. }
  unfold bloom_ok in Hb. destruct (bloom head) as [b|]; [|done]. case_decide; [|done]. destruct (counting_bloom_check b _) eqn:Ec; [done|].
  intros m Hm E. destruct (Hall m Hm) as [_ Him]. destruct (identical_names m a Him Ha E) as [En Et].
  rewrite (holds_check b _ (combine_obj_info_to_string a) Hb) in Ec; [done|]. apply list_elem_of_fmap. exists m. split; [|done]. unfold combine_obj_info_to_string. by rewrite En, Et.
Qed.

Lemma bloom_fold_holds (l : list pdc_metadata_t) : ∀ b l0, bloom_holds b l0 → (∀ index, hits (l0 ++ (combine_obj_info_to_string <$> l)) index ≤ 15) → ∃ b', foldl PDC_Server_add_to_bloom (Some b) l = Some b' ∧ bloom_holds b' (l0 ++ (combine_obj_info_to_string <$> l)).
Proof.
  induction l as [|m l IH]; intros b l0 Hb Hroom; cbn [foldl fmap list_fmap].
  - exists b. by rewrite app_nil_r.
  - cbn [fmap list_fmap] in Hroom. destruct (IH (counting_bloom_add b (combine_obj_info_to_string m)) (l0 ++ [combine_obj_info_to_string m])) as (b' & E & Hb').
    + apply holds_add; [done|]. intros index. specialize (Hroom index). rewrite hits_app, hits_cons in Hroom. rewrite hits_app, hits_one. pose proof (hits_nonneg (combine_obj_info_to_string <$> l) index). lia.
    + intros index. rewrite <-app_assoc. apply Hroom.
    + exists b'. rewrite <-app_assoc in Hb'. by split.
Qed.
Lemma list_insert_ok key head m : list_ok key head → lenZ (metadata head) < 2147483647 → (∀ m', m' ∈ metadata head → obj_id m' ≠ obj_id m) → pdc_hash_djb2 (obj_name m) = key → identified m →
  (CREATE_BLOOM_THRESHOLD ≤ lenZ (metadata head) ∨ bloom head ≠ None → ∀ index, hits (combine_obj_info_to_string <$> metadata head ++ [m]) index ≤ 15) →
  list_ok key (PDC_Server_hash_table_list_insert head m) ∧ metadata (PDC_Server_hash_table_list_insert head m) = metadata head ++ [m].
Proof.
  intros (Hn & Hlen & Hb & Hnd & Hall) Hsmall Hfresh Hk Hid Hroom. split; [|done]. unfold PDC_Server_hash_table_list_insert, list_ok. cbn [n_obj metadata]. pose proof (lenZ_nonneg (metadata head)).
  split; [rewrite Hn, lenZ_app; unfold i32, W32; rewrite Z.mod_small by (cbn; lia); change (lenZ [m]) with 1; lia|]. split; [rewrite lenZ_app; change (lenZ [m]) with 1; lia|]. split; [|split].
  - unfold bloom_ok in *. cbn [bloom metadata]. rewrite fmap_app in Hroom |- *. cbn [fmap list_fmap] in *. rewrite Hn, lenZ_app. change (lenZ [m]) with 1.
    assert (∀ b, bloom_holds b (combine_obj_info_to_string <$> metadata head) → CREATE_BLOOM_THRESHOLD ≤ lenZ (metadata head) ∨ bloom head ≠ None →
      match PDC_Server_add_to_bloom (Some b) m with Some b' => bloom_holds b' ((combine_obj_info_to_string <$> metadata head) ++ [combine_obj_info_to_string m]) | None => lenZ (metadata head) + 1 ≤ CREATE_BLOOM_THRESHOLD end) as Hadd
      by (intros b Hh Hr; by apply holds_add; [|apply Hroom]).
    case_decide as He; [|case_decide as Hc].
    + assert (CREATE_BLOOM_THRESHOLD ≤ lenZ (metadata head) ∨ bloom head ≠ None) as Hr by (left; lia).
      destruct (bloom_fold_holds (metadata head) _ _ holds_new) as (b' & -> & Hb'); [intros index; specialize (Hroom Hr index); rewrite hits_app in Hroom; pose proof (hits_nonneg [combine_obj_info_to_string m] index); cbn [app]; lia|]. by apply Hadd.
    + destruct (bloom head) as [b|]; [by apply Hadd|]. destruct Hc as [|Hne]; [cbn; lia|by destruct Hne].
    + destruct (bloom head) as [b|]; [exfalso; apply Hc; by right|]. unfold CREATE_BLOOM_THRESHOLD in *. lia.
  - rewrite fmap_app. apply list.NoDup_app. split; [done|]. split; [|apply NoDup_singleton]. intros x (m' & -> & Hm')%list_elem_of_fmap Hx%list_elem_of_singleton. by apply (Hfresh m').
  - intros m' [Hm'|Hm'%list_elem_of_singleton]%elem_of_app; [by apply Hall|by subst].
Qed.

Lemma delete_elem (l : list pdc_metadata_t) i m : l !! i = Some m → NoDup (obj_id <$> l) →
  (∀ m', m' ∈ delete i l ↔ m' ∈ l ∧ m' ≠ m) ∧ NoDup (obj_id <$> delete i l) ∧ lenZ (delete i l) = lenZ l - 1 ∧ (∀ m', m' ∈ l → obj_id m' = obj_id m → m' = m).
Proof.
  intros Hi Hnd. rewrite delete_take_drop. pose proof (take_drop_middle l i m Hi) as Hl. revert Hl. generalize (take i l) (drop (S i) l). intros L R <-.
  rewrite fmap_app, fmap_cons in Hnd. apply list.NoDup_app in Hnd as (N1 & N2 & [N3 N4]%list.NoDup_cons).
  assert (∀ m', m' ∈ L ∨ m' ∈ R → obj_id m' ≠ obj_id m) as Hne.
  { intros m' [H|H] E; [apply (N2 (obj_id m)); [|rewrite elem_of_cons; by left]|apply N3]; rewrite <-E; apply list_elem_of_fmap; by exists m'. }
  split; [|split; [|split]].
  - intros m'. rewrite !elem_of_app, elem_of_cons. split; [intros Hin; split; [tauto|intros ->; by apply (Hne m Hin)]|tauto].
  - rewrite fmap_app. apply list.NoDup_app. split; [done|]. split; [|done]. intros x Hx Hx'. apply (N2 x Hx). rewrite elem_of_cons. by right.
  - rewrite !lenZ_app. unfold lenZ. cbn [length]. lia.
  - intros m'. rewrite elem_of_app, elem_of_cons. intros [?|[->|?]] E; [exfalso; apply (Hne m'); auto|done|exfalso; apply (Hne m'); auto].
Qed.
Lemma remove_elt_spec key head i m : list_ok key head → metadata head !! i = Some m →
  match remove_elt head i m with
  | Some head' => list_ok key head' ∧ metadata head' = delete i (metadata head) ∧ metadata head' ≠ []
  | None => metadata head = [m]
  end.
Proof.
  intros (Hn & Hlen & Hb & Hnd & Hall) Hi. destruct (delete_elem _ i m Hi Hnd) as (Hin & Hnd' & Hlen' & _). unfold remove_elt. pose proof (lenZ_nonneg (delete i (metadata head))). case_decide as Hd.
  - cbn [metadata]. split; [|split; [done|intros E; rewrite E in Hlen'; change (lenZ (@nil pdc_metadata_t)) with 0 in Hlen'; lia]]. unfold list_ok. cbn [n_obj metadata].
    split; [rewrite Hn, Hlen'; unfold i32, W32; rewrite Z.mod_small by lia; lia|]. split; [lia|]. split; [|split; [done|intros m' [? _]%Hin; by apply Hall]].
    unfold bloom_ok in *. cbn [bloom metadata]. destruct (bloom head) as [b|]; [|cbn; lia]. cbn. rewrite delete_take_drop, fmap_app. apply holds_remove.
    rewrite <-(take_drop_middle _ i m Hi) in Hb. by rewrite fmap_app, fmap_cons in Hb.
  - destruct (metadata head) as [|x [|y l]]; [done| |unfold lenZ in *; cbn [length] in *; lia]. destruct i; [by injection Hi as ->|done].
Qed.

(** Changing an object in place. *)
Definition same_identity m m' : Prop := obj_id m' = obj_id m ∧ obj_name m' = obj_name m ∧ time_step m' = time_step m.
Lemma replace_ok key head i m m' : list_ok key head → metadata head !! i = Some m → same_identity m m' →
  list_ok key (Head (n_obj head) (bloom head) (<[i := m']> (metadata head))) ∧ (∀ x, x ∈ <[i := m']> (metadata head) ↔ x = m' ∨ x ∈ metadata head ∧ x ≠ m).
Proof.
  intros (Hn & Hlen & Hb & Hnd & Hall) Hi (Eid & Ename & Ets). pose proof (lookup_lt_Some _ _ _ Hi) as Hlt. destruct (delete_elem _ i m Hi Hnd) as (Hdel & _).
  assert (∀ {A} (f : pdc_metadata_t → A), f m' = f m → f <$> <[i := m']> (metadata head) = f <$> metadata head) as Hf.
  { intros A f E. rewrite list_fmap_insert, E. apply list_insert_id. by rewrite list_lookup_fmap, Hi. }
  assert (∀ x, x ∈ <[i := m']> (metadata head) ↔ x = m' ∨ x ∈ metadata head ∧ x ≠ m) as Hin.
  { intros x. rewrite <-Hdel. rewrite insert_take_drop, delete_take_drop by done. rewrite !elem_of_app, elem_of_cons. tauto. }
  split; [|done]. unfold list_ok, bloom_ok in *. cbn [n_obj bloom metadata]. split; [unfold lenZ in *; by rewrite length_insert|]. split; [unfold lenZ in *; by rewrite length_insert|].
  rewrite !Hf by (done || unfold combine_obj_info_to_string; by rewrite Ename, Ets). split; [unfold lenZ in *; by rewrite length_insert|]. split; [done|].
  intros x [->|[Hx _]]%Hin; [|by apply Hall]. destruct (Hall m) as [Hk Hid]; [by eapply list_elem_of_lookup_2|]. unfold identified in *. by rewrite Ename, Ets.
Qed.

(** * The table *)

Definition table_rep table objs : Prop :=
  (∀ key head, table !! key = Some head → list_ok key head ∧ metadata head ≠ [] ∧ ∀ m, m ∈ metadata head → objs !! obj_id m = Some m) ∧
  (∀ id m, objs !! id = Some m → obj_id m = id ∧ ∃ head, table !! pdc_hash_djb2 (obj_name m) = Some head ∧ m ∈ metadata head).

Lemma table_rep_empty : table_rep ∅ ∅.
Proof. split; [intros key head E; by rewrite lookup_empty in E|intros id m E; by rewrite lookup_empty in E]. Qed.
Lemma table_put table objs objs' key head' : table_rep table objs → list_ok key head' → metadata head' ≠ [] → (∀ m, m ∈ metadata head' → objs' !! obj_id m = Some m) →
  (∀ id m, objs' !! id = Some m → pdc_hash_djb2 (obj_name m) = key → obj_id m = id ∧ m ∈ metadata head') →
  (∀ id m, pdc_hash_djb2 (obj_name m) ≠ key → objs' !! id = Some m ↔ objs !! id = Some m) → table_rep (<[key := head']> table) objs'.
Proof.
  intros [H1 H2] Hok Hne Hin Hback Hother. split.
  - intros key0 head0 E. destruct (decide (key0 = key)) as [->|Hk]; [rewrite lookup_insert_eq in E; by injection E as <-|]. rewrite lookup_insert_ne in E by done.
    destruct (H1 key0 head0 E) as (Hok0 & Hne0 & Hin0). split; [done|]. split; [done|]. intros m Hm. apply Hother; [|by apply Hin0]. destruct Hok0 as (_ & _ & _ & _ & Hall). by destruct (Hall m Hm) as [-> _].
  - intros id m E. destruct (decide (pdc_hash_djb2 (obj_name m) = key)) as [Hk|Hk].
    + destruct (Hback id m E Hk) as [Hid Hm]. split; [done|]. exists head'. rewrite Hk, lookup_insert_eq. by split.
    + apply Hother in E; [|done]. destruct (H2 id m E) as (Hid & head & Eh & Hm). split; [done|]. exists head. by rewrite lookup_insert_ne.
Qed.
Lemma table_drop table objs objs' key : table_rep table objs → (∀ id m, objs' !! id = Some m → pdc_hash_djb2 (obj_name m) ≠ key) →
  (∀ id m, pdc_hash_djb2 (obj_name m) ≠ key → objs' !! id = Some m ↔ objs !! id = Some m) → table_rep (delete key table) objs'.
Proof.
  intros [H1 H2] Hno Hother. split.
  - intros key0 head0 E. apply lookup_delete_Some in E as [Hk E]. destruct (H1 key0 head0 E) as (Hok0 & Hne0 & Hin0). split; [done|]. split; [done|].
    intros m Hm. apply Hother; [|by apply Hin0]. destruct Hok0 as (_ & _ & _ & _ & Hall). destruct (Hall m Hm) as [-> _]. congruence.
  - intros id m E. pose proof (Hno id m E) as Hk. apply Hother in E; [|done]. destruct (H2 id m E) as (Hid & head & Eh & Hm). split; [done|]. exists head. by rewrite lookup_delete_ne.
Qed.

(** No object of another list has the identifier. *)
Lemma rep_lists table objs id m : table_rep table objs → objs !! id = Some m → ∀ key head m', table !! key = Some head → m' ∈ metadata head → obj_id m' = id → m' = m ∧ key = pdc_hash_djb2 (obj_name m).
Proof.
  intros [H1 H2] E key head m' Eh Hm' Hid. destruct (H1 key head Eh) as (Hok & _ & Hin). specialize (Hin m' Hm'). rewrite Hid, E in Hin. injection Hin as ->. split; [done|].
  destruct Hok as (_ & _ & _ & _ & Hall). by destruct (Hall _ Hm') as [-> _].
Qed.
Lemma rep_count table objs key head : table_rep table objs → table !! key = Some head → lenZ (metadata head) ≤ Z.of_nat (size objs).
Proof.
  intros [H1 _] E. destruct (H1 key head E) as ((_ & _ & _ & Hnd & _) & _ & Hin). assert (list_to_set (obj_id <$> metadata head) ⊆ dom objs) as Hsub.
  { intros x. rewrite elem_of_list_to_set. intros (m & -> & Hm)%list_elem_of_fmap. apply elem_of_dom. eexists. by apply Hin. }
  apply subseteq_size in Hsub. rewrite size_list_to_set, size_dom, length_fmap in Hsub by done. unfold lenZ. lia.
Qed.

(** The objects of a list that share a counter of its filter. *)
Definition sharing objs (key index : Z) : Z := Z.of_nat (size (filter (λ e, pdc_hash_djb2 (obj_name e.2) = key ∧ index ∈ bloom_indices (combine_obj_info_to_string e.2)) objs)).
Definition bloom_room objs m : Prop := ∀ index, sharing objs (pdc_hash_djb2 (obj_name m)) index + hits [combine_obj_info_to_string m] index ≤ 15.
Lemma hits_fmap (l : list pdc_metadata_t) index : hits (combine_obj_info_to_string <$> l) index = lenZ (filter (λ m, index ∈ bloom_indices (combine_obj_info_to_string m)) l).
Proof. induction l as [|m l IH]; [done|]. rewrite fmap_cons, hits_cons, IH, list.filter_cons. repeat case_decide; [unfold lenZ; cbn [length]; lia|done]. Qed.
Lemma hits_sharing table objs key head index : table_rep table objs → table !! key = Some head → hits (combine_obj_info_to_string <$> metadata head) index ≤ sharing objs key index.
Proof.
  intros [H1 _] E. destruct (H1 key head E) as ((_ & _ & _ & Hnd & Hall) & _ & Hin). set (P := λ m : pdc_metadata_t, index ∈ bloom_indices (combine_obj_info_to_string m)).
  assert (list_to_set (obj_id <$> filter P (metadata head)) ⊆ dom (filter (λ e, pdc_hash_djb2 (obj_name e.2) = key ∧ index ∈ bloom_indices (combine_obj_info_to_string e.2)) objs)) as Hsub.
  { intros x. rewrite elem_of_list_to_set. intros (m & -> & [HP Hm]%list_elem_of_filter)%list_elem_of_fmap. apply elem_of_dom. exists m. apply map_lookup_filter_Some. split; [by apply Hin|]. split; [by apply Hall|done]. }
  assert (NoDup (obj_id <$> filter P (metadata head))) as Hnd' by (eapply sublist_NoDup; [exact Hnd|]; apply (fmap_sublist obj_id), sublist_filter).
  apply subseteq_size in Hsub. rewrite size_list_to_set, size_dom, length_fmap in Hsub by done. rewrite hits_fmap. unfold sharing, lenZ. unfold P in Hsub. lia.
Qed.
Lemma sharing_small objs m : Z.of_nat (size objs) < 15 → bloom_room objs m.
Proof.
  intros Hs index. pose proof (hits_le [combine_obj_info_to_string m] index) as H1. change (lenZ [_]) with 1 in H1. unfold sharing. set (f := filter _ objs). assert (size f ≤ size objs)%nat; [|lia].
  rewrite <-!size_dom. apply subseteq_size, dom_filter_subseteq.
Qed.

Lemma table_insert table objs m key : table_rep table objs → objs !! obj_id m = None → pdc_hash_djb2 (obj_name m) = key → identified m → Z.of_nat (size objs) < 2147483647 → bloom_room objs m →
  table_rep (<[key := PDC_Server_hash_table_list_insert (default (Head 0 None []) (table !! key)) m]> table) (<[obj_id m := m]> objs).
Proof.
  intros Hrep Hfresh Hk Hid Hsize Hroom. set (head := default _ _). pose proof Hrep as [H1 H2].
  assert (list_ok key head ∧ (∀ x, x ∈ metadata head → objs !! obj_id x = Some x) ∧ lenZ (metadata head) ≤ Z.of_nat (size objs) ∧ ∀ index, hits (combine_obj_info_to_string <$> metadata head) index ≤ sharing objs key index) as (Hok & Hin & Hcount & Hhits).
  { subst head. destruct (table !! key) as [head|] eqn:E; cbn [default]; [destruct (H1 key head E) as (? & _ & ?); split; [done|]; split; [done|split; [by eapply rep_count|intros; by eapply hits_sharing]]|].
    split; [|split; [intros x ?%elem_of_nil; done|split; [change (0 ≤ Z.of_nat (size objs)); lia|intros index; apply Nat2Z.is_nonneg]]]. split; [done|]. split; [change (0 < 2147483648); lia|]. split; [done|]. split; [constructor|by intros x ?%elem_of_nil]. }
  destruct (list_insert_ok key head m Hok) as [Hok' Emeta]; [lia| |done|done| |].
  { intros x Hx E. rewrite <-E, (Hin x Hx) in Hfresh. done. }
  { intros _ index. specialize (Hroom index). specialize (Hhits index). rewrite Hk in Hroom. rewrite fmap_app, hits_app. cbn [fmap list_fmap]. lia. }
  apply (table_put table objs); [done|done|rewrite Emeta; by destruct (metadata head)|..]; rewrite ?Emeta.
  - intros x [Hx|Hx%list_elem_of_singleton]%elem_of_app; [|subst; apply lookup_insert_eq]. rewrite lookup_insert_ne; [by apply Hin|]. intros E. rewrite E, (Hin x Hx) in Hfresh. done.
  - intros id x E Hkx. rewrite elem_of_app, list_elem_of_singleton. destruct (decide (id = obj_id m)) as [->|Hne]; [rewrite lookup_insert_eq in E; injection E as ->; auto|].
    rewrite lookup_insert_ne in E by done. destruct (H2 id x E) as (Hidx & h & Eh & Hx). rewrite Hkx in Eh. subst head. rewrite Eh. auto.
  - intros id x Hkx. destruct (decide (id = obj_id m)) as [->|Hne]; [rewrite lookup_insert_eq, Hfresh; split; [congruence|done]|by rewrite lookup_insert_ne].
Qed.

Lemma table_remove table objs key head i m : table_rep table objs → table !! key = Some head → metadata head !! i = Some m →
  table_rep (match remove_elt head i m with Some head' => <[key := head']> table | None => delete key table end) (delete (obj_id m) objs).
Proof.
  intros Hrep Eh Hi. pose proof Hrep as [H1 H2]. destruct (H1 key head Eh) as (Hok & _ & Hin). pose proof Hok as (_ & _ & _ & Hnd & Hall). destruct (delete_elem _ i m Hi Hnd) as (Hdel & _ & _ & Hsame).
  assert (m ∈ metadata head) as Hm by (by eapply list_elem_of_lookup_2). destruct (Hall m Hm) as [Hkey _].
  assert (∀ id x, pdc_hash_djb2 (obj_name x) ≠ key → delete (obj_id m) objs !! id = Some x ↔ objs !! id = Some x) as Hother.
  { intros id x Hx. rewrite lookup_delete_Some. split; [by intros []|]. intros E. split; [|done]. intros <-. rewrite (Hin m Hm) in E. congruence. }
  assert (∀ id x, delete (obj_id m) objs !! id = Some x → pdc_hash_djb2 (obj_name x) = key → obj_id x = id ∧ x ∈ metadata head ∧ x ≠ m) as Hback.
  { intros id x E Hx. apply lookup_delete_Some in E as [Hne E]. destruct (H2 id x E) as (Hid & h & Eh' & Hx'). rewrite Hx, Eh in Eh'. injection Eh' as <-. split; [done|]. split; [done|congruence]. }
  pose proof (remove_elt_spec key head i m Hok Hi) as Hr. destruct (remove_elt head i m) as [head'|].
  - destruct Hr as (Hok' & E & Hne). apply (table_put table objs); [done|done|done| | |done]; rewrite E.
    + intros x [Hx Hxm]%Hdel. apply lookup_delete_Some. split; [|by apply Hin]. intros Eid. by apply Hxm, Hsame.
    + intros id x Ex Hx. destruct (Hback id x Ex Hx) as (? & ? & ?). split; [done|]. by apply Hdel.
  - apply (table_drop table objs); [done| |done]. intros id x Ex Hx. destruct (Hback id x Ex Hx) as (_ & Hx' & Hxm). rewrite Hr in Hx'. by apply list_elem_of_singleton in Hx'.
Qed.

Lemma table_replace table objs key head i m m' : table_rep table objs → table !! key = Some head → metadata head !! i = Some m → same_identity m m' →
  table_rep (<[key := Head (n_obj head) (bloom head) (<[i := m']> (metadata head))]> table) (<[obj_id m := m']> objs).
Proof.
  intros Hrep Eh Hi Hsame. pose proof Hrep as [H1 H2]. destruct (H1 key head Eh) as (Hok & Hne & Hin). pose proof Hok as (_ & _ & _ & Hnd & Hall). destruct (delete_elem _ i m Hi Hnd) as (_ & _ & _ & Hinj).
  assert (m ∈ metadata head) as Hm by (by eapply list_elem_of_lookup_2). destruct (Hall m Hm) as [Hkey _]. destruct (replace_ok key head i m m' Hok Hi Hsame) as [Hok' Hin']. destruct Hsame as (Eid & Ename & _).
  apply (table_put table objs); [done|done| |..]; cbn [metadata].
  - intros E. apply (f_equal length) in E. rewrite length_insert in E. by destruct (metadata head).
  - intros x [->|[Hx Hxm]]%Hin'; [rewrite Eid; apply lookup_insert_eq|]. rewrite lookup_insert_ne; [by apply Hin|]. intros E. by apply Hxm, Hinj.
  - intros id x E Hx. destruct (decide (id = obj_id m)) as [->|Hid].
    + rewrite lookup_insert_eq in E. injection E as <-. split; [done|]. apply Hin'. by left.
    + rewrite lookup_insert_ne in E by done. destruct (H2 id x E) as (Hidx & h & Eh' & Hx'). rewrite Hx, Eh in Eh'. injection Eh' as <-. split; [done|]. apply Hin'. right. split; [done|congruence].
  - intros id x Hx. destruct (decide (id = obj_id m)) as [->|Hid]; [|by rewrite lookup_insert_ne].
    rewrite lookup_insert_eq, (Hin m Hm). split; [intros [= <-]; congruence|intros [= <-]; congruence].
Qed.

(** ** Looking for an object *)

Lemma found_by_id table objs key head id : table_rep table objs → table !! key = Some head →
  match find_metadata_by_id_from_list (metadata head) id with
  | Some (i, m) => metadata head !! i = Some m ∧ obj_id m = id ∧ objs !! id = Some m ∧ pdc_hash_djb2 (obj_name m) = key
  | None => ∀ m, objs !! id = Some m → pdc_hash_djb2 (obj_name m) ≠ key
  end.
Proof.
  intros [H1 H2] Eh. destruct (H1 key head Eh) as ((_ & _ & _ & _ & Hall) & _ & Hin). unfold find_metadata_by_id_from_list. destruct (list_find _ _) as [[i m]|] eqn:E.
  - apply list_find_Some in E as (Hi & Hid & _). assert (m ∈ metadata head) as Hm by (by eapply list_elem_of_lookup_2). split; [done|]. split; [done|]. rewrite <-Hid. split; [by apply Hin|by apply Hall].
  - apply list_find_None in E. rewrite list.Forall_forall in E. intros m Em Hk. destruct (H2 id m Em) as (Hid & h & Eh' & Hm). rewrite Hk, Eh in Eh'. injection Eh' as <-. by apply (E m Hm).
Qed.
Lemma not_listed table objs key m id : table_rep table objs → table !! key = None → objs !! id = Some m → pdc_hash_djb2 (obj_name m) ≠ key.
Proof. intros [_ H2] Eh Em Hk. destruct (H2 id m Em) as (_ & h & Eh' & _). congruence. Qed.

(** A request without user and application names every object of the name and the
    time step. *)
Lemma cmp_wild m a : identified m → identified a → user_id a ≤ 0 → app_name a = [] → PDC_metadata_cmp m a = 0 ↔ obj_name m = obj_name a ∧ time_step m = time_step a.
Proof.
  intros Hm Ha Hu Happ. split; [by apply identical_names|]. intros [En Et]. unfold PDC_metadata_cmp. rewrite En, Et, Happ, Z.sub_diag. change (i32 0) with 0.
  assert (strcmp (obj_name a) (obj_name a) = 0) as -> by (apply strcmp_eq; by destruct Ha as (_ & _ & ?)). rewrite (decide_False (P := 0 < user_id m ∧ 0 < user_id a)) by lia.
  rewrite (decide_False (P := app_name m ≠ [] ∧ [] ≠ [])) by naive_solver. cbv zeta. repeat case_decide; naive_solver.
Qed.

(** ** The loop over all lists *)

Lemma delete_in_list_absent key target l : (∀ m, m ∈ l → obj_id m ≠ target) → ∀ i table found, delete_in_list key target l i table found = Some (table, found).
Proof. induction l as [|m l IH]; intros Hno i table found; cbn [delete_in_list]; [done|]. rewrite decide_True by (apply Hno; set_solver). apply IH. set_solver. Qed.
Lemma delete_in_table_absent target entries : (∀ key head m, (key, head) ∈ entries → m ∈ metadata head → obj_id m ≠ target) → ∀ table found, delete_in_table target entries table found = Some (table, found).
Proof.
  induction entries as [|[key head] entries IH]; intros Hno table found; cbn [delete_in_table]; [done|]. rewrite delete_in_list_absent by (intros m; apply (Hno key head); set_solver). cbn [mbind option_bind].
  apply IH. intros key' head' m Hin. apply Hno with (key := key'). set_solver.
Qed.
Lemma delete_in_list_found key target m l2 head table : table !! key = Some head → obj_id m = target → pdc_hash_djb2 (obj_name m) = key → (∀ x, x ∈ l2 → obj_id x ≠ target) → ∀ l1 i found,
  (∀ x, x ∈ l1 → obj_id x ≠ target) →
  delete_in_list key target (l1 ++ m :: l2) i table found =
    match remove_elt head (i + length l1) m with
    | Some head' => Some (<[key := head']> table, true)
    | None => if freed_kept && bool_decide (l2 = []) then Some (delete key table, true) else None
    end.
Proof.
  intros Eh Hm Hk H2. induction l1 as [|x l1 IH]; intros i found H1; cbn [app delete_in_list length].
  - rewrite decide_False by naive_solver. rewrite Eh. cbn [mbind option_bind]. rewrite Nat.add_0_r. destruct (remove_elt head i m) as [head'|]; [by apply delete_in_list_absent|].
    by rewrite decide_True by done.
  - rewrite decide_True by (apply H1; set_solver). rewrite <-Nat.add_succ_comm. apply IH. intros; apply H1; set_solver.
Qed.
Lemma delete_in_table_app id entries1 entries2 : ∀ t f,
  delete_in_table id (entries1 ++ entries2) t f = '(t, f) ← delete_in_table id entries1 t f; delete_in_table id entries2 t f.
Proof.
  induction entries1 as [|[k h] entries1 IH]; intros t f; [done|]. cbn [app delete_in_table]. destruct (delete_in_list _ _ _ _ _ _) as [[t' f']|]; cbn [mbind option_bind]; [apply IH|done].
Qed.

(** The loop for an object that is there: its list loses it; the entry of a list of one
    object goes, after which the loop reads a freed object. *)
Lemma delete_in_table_found table objs id m : table_rep table objs → objs !! id = Some m →
  ∃ head i, table !! pdc_hash_djb2 (obj_name m) = Some head ∧ metadata head !! i = Some m ∧
    delete_in_table id (table_list table) table false =
      match remove_elt head i m with
      | Some head' => Some (<[pdc_hash_djb2 (obj_name m) := head']> table, true)
      | None => if freed_kept then Some (delete (pdc_hash_djb2 (obj_name m)) table, true) else None
      end.
Proof.
  intros Hrep Em. pose proof Hrep as [H1 H2]. assert (∀ key head, (key, head) ∈ table_list table ↔ table !! key = Some head) as Hlist by (intros; by rewrite table_list_perm, elem_of_map_to_list).
  destruct (H2 id m Em) as (Hid & head & Eh & Hm). set (key := pdc_hash_djb2 (obj_name m)) in *. apply list_elem_of_lookup in Hm as [i Hi].
  pose proof Eh as (l1 & l2 & El)%Hlist%list_elem_of_split. assert (NoDup (table_list table).*1) as Hnd by (rewrite table_list_perm; apply NoDup_fst_map_to_list).
  rewrite El in Hnd. rewrite fmap_app, fmap_cons in Hnd. apply list.NoDup_app in Hnd as (_ & Hn1 & [Hn2 _]%list.NoDup_cons). cbn [fst] in *.
  assert (∀ key' head' x, (key', head') ∈ l1 ∨ (key', head') ∈ l2 → x ∈ metadata head' → obj_id x ≠ id) as Hno.
  { intros key' head' x Hin Hx Eid. assert (table !! key' = Some head') as Eh' by (apply Hlist; rewrite El; set_solver). destruct (rep_lists table objs id m Hrep Em key' head' x Eh' Hx Eid) as [_ Ek].
    fold key in Ek. subst key'. destruct Hin as [Hin|Hin]; [apply (Hn1 key); [|set_solver]|apply Hn2]; apply list_elem_of_fmap; by exists (key, head'). }
  exists head, i. split; [done|]. split; [done|]. rewrite El, delete_in_table_app, delete_in_table_absent by (intros k h x Hin; apply (Hno k); auto). cbn [mbind option_bind delete_in_table].
  destruct (H1 key head Eh) as (Hok & _ & _). pose proof (remove_elt_spec key head i m Hok Hi) as Hr. pose proof Hok as (_ & _ & _ & Hnd & _). pose proof (take_drop_middle _ i m Hi) as Hsplit.
  assert (length (take i (metadata head)) = i) as Elen by (rewrite length_take; apply lookup_lt_Some in Hi; lia).
  assert (∀ x, x ∈ take i (metadata head) ∨ x ∈ drop (S i) (metadata head) → obj_id x ≠ id) as Hrest.
  { intros x Hx. destruct (delete_elem _ i m Hi Hnd) as (Hdel & _ & _ & Hinj). rewrite delete_take_drop in Hdel. setoid_rewrite elem_of_app in Hdel. apply Hdel in Hx as [Hx Hxm]. rewrite <-Hid. intros E. by apply Hxm, Hinj. }
  rewrite <-Hsplit at 1. rewrite (delete_in_list_found key id m (drop (S i) (metadata head)) head table), Elen; auto. cbn [Nat.add].
  destruct (remove_elt head i m) as [head'|]; cbn [mbind option_bind].
  - rewrite delete_in_table_absent; [done|]. intros k h x Hin; apply (Hno k); auto.
  - rewrite bool_decide_true, andb_true_r by (rewrite Hr; by destruct i). destruct freed_kept; [|done]. cbn [mbind option_bind]. rewrite delete_in_table_absent; [done|]. intros k h x Hin; apply (Hno k); auto.
Qed.

(** An object can be deleted by its identifier without a fault when freed memory keeps
    what was in it, or when another object has its name and time step. *)
Definition deletable objs (id : Z) : Prop :=
  freed_kept = true ∨ ∀ m, objs !! id = Some m → ∃ id' m', id' ≠ id ∧ objs !! id' = Some m' ∧ obj_name m' = obj_name m ∧ time_step m' = time_step m.

Lemma delete_by_id_table table objs id : table_rep table objs → deletable objs id →
  ∃ table', delete_in_table id (table_list table) table false = Some (table', bool_decide (is_Some (objs !! id))) ∧ table_rep table' (delete id objs).
Proof.
  intros Hrep Hdel. pose proof Hrep as [H1 H2]. destruct (objs !! id) as [m|] eqn:Em.
  - destruct (delete_in_table_found table objs id m Hrep Em) as (head & i & Eh & Hi & ->). destruct (H2 id m Em) as (Hid & _). rewrite bool_decide_true by done.
    pose proof (table_remove table objs _ head i m Hrep Eh Hi) as Htab. rewrite Hid in Htab. destruct (H1 _ head Eh) as (Hok & _ & _). pose proof (remove_elt_spec _ head i m Hok Hi) as Hr.
    destruct (remove_elt head i m) as [head'|]; [by eexists|]. destruct Hdel as [->|Hother]; [by eexists|]. exfalso.
    destruct (Hother m Em) as (id' & m' & Hne & Em' & En & _). destruct (H2 id' m' Em') as (Hid' & head0 & Eh0 & Hm'). rewrite En in Eh0. assert (head0 = head) as -> by congruence. rewrite Hr in Hm'. apply list_elem_of_singleton in Hm' as ->. congruence.
  - exists table. rewrite bool_decide_false by (by intros []). split.
    + apply delete_in_table_absent. intros key head m Hin Hm E. rewrite table_list_perm, elem_of_map_to_list in Hin. destruct (H1 key head Hin) as (_ & _ & Hall). rewrite <-E, (Hall m Hm) in Em. done.
    + by rewrite delete_id.
Qed.
(** When freed memory is not kept, deleting the only object of its list is a fault. *)
Lemma delete_last_faults table objs id m : table_rep table objs → objs !! id = Some m → freed_kept = false →
  (∀ id' m', objs !! id' = Some m' → pdc_hash_djb2 (obj_name m') = pdc_hash_djb2 (obj_name m) → id' = id) → delete_in_table id (table_list table) table false = None.
Proof.
  intros Hrep Em Hk Honly. pose proof Hrep as [H1 H2]. destruct (delete_in_table_found table objs id m Hrep Em) as (head & i & Eh & Hi & ->). destruct (H1 _ head Eh) as (Hok & _ & Hall). pose proof (remove_elt_spec _ head i m Hok Hi) as Hr.
  destruct (remove_elt head i m) as [head'|]; [|by rewrite Hk]. exfalso. destruct Hr as (_ & E & Hne). pose proof Hok as (_ & _ & _ & Hnd & Hkey).
  destruct (delete_elem _ i m Hi Hnd) as (Hdel & _). rewrite <-E in Hdel. destruct (metadata head') as [|x l]; [done|]. destruct (Hdel x) as [[Hx Hxm] _]; [by left|].
  destruct (Hkey x Hx) as [Ekey _]. pose proof (Hall x Hx) as Ex. pose proof (Honly _ x Ex Ekey) as Eid. rewrite Eid, Em in Ex. by injection Ex as ->.
Qed.
End spec.
