(* ===== verification/MetadataDirectory.v ===== *)
(** The requests to the metadata of a server as operations of a directory: objects by
    identifier, containers by the hash of their name. *)

From stdpp Require Import gmap.
From S2P Require Export MetadataTableSpec.
#[local] Open Scope Z_scope.

Section directory.
Context `{FM : !FreshMemory, TO : !TableOrder, NU : !Numbers}.
Implicit Types (objs : gmap Z pdc_metadata_t) (conts : gmap Z pdc_cont_hash_table_entry_t) (st : meta_server).

Record directory := Dir { d_objs : gmap Z pdc_metadata_t; d_conts : gmap Z pdc_cont_hash_table_entry_t }.
Implicit Types (d : directory).

Definition server_rep st d : Prop :=
  table_rep (metadata_hash_table_g st) (d_objs d) ∧ container_hash_table_g st = d_conts d ∧ 0 < pdc_id_seq_g st < W64 ∧
  (∀ id, is_Some (d_objs d !! id) → 0 < id < pdc_id_seq_g st) ∧
  (∀ k c, d_conts d !! k = Some c → 0 < c_cont_id c < pdc_id_seq_g st ∧ d_objs d !! c_cont_id c = None ∧ ∀ k' c', d_conts d !! k' = Some c' → c_cont_id c' = c_cont_id c → k' = k).

(** A server that has just started. *)
Definition start (id_seq : Z) : meta_server := MetaServer ∅ ∅ id_seq 0.
Lemma start_rep id_seq : 0 < id_seq < W64 → server_rep (start id_seq) (Dir ∅ ∅).
Proof. intros H. split; [apply table_rep_empty|]. split; [done|]. split; [done|]. split; [by intros id [x E]|by intros k c E]. Qed.

(** * Requests *)

Inductive request :=
| CreateObject (data : pdc_metadata_transfer_t) (hash dtype : Z)
| DeleteById (id : Z)
| DeleteByName (name : string) (ts hash : Z)
| UpdateObject (hash id : Z) (new : pdc_metadata_transfer_t)
| AddTag (hash id : Z) (tag : string)
| AddKvtag (hash id : Z) (tag : pdc_kvtag_t)
| DelKvtag (hash id : Z) (key : string)
| CreateContainer (hash : Z) (name : string)
| AddToContainer (ids : list Z) (id : Z)
| DelFromContainer (ids : list Z) (id : Z).

(** The request on the server, with what is sent back.  Whether freed memory
    keeps what was in it decides the deletion of the last object of a list. *)
Definition exec st (r : request) : option (meta_server * Z) :=
  match r with
  | CreateObject data hash dtype => PDC_insert_metadata_to_hash_table st data hash dtype
  | DeleteById id => '(st, out) ← PDC_Server_delete_metadata_by_id st id; Some (st, snd out)
  | DeleteByName name ts hash => PDC_delete_metadata_from_hash_table st name ts hash
  | UpdateObject hash id new => PDC_Server_update_metadata st hash id new
  | AddTag hash id tag => PDC_Server_add_tag_metadata st hash id tag
  | AddKvtag hash id tag => PDC_Server_add_kvtag_someta st hash id tag
  | DelKvtag hash id key => PDC_Server_del_kvtag_someta st hash id key
  | CreateContainer hash name => PDC_Server_create_container st hash name
  | AddToContainer ids id => PDC_Server_container_add_objs st ids id
  | DelFromContainer ids id => Some (PDC_Server_container_del_objs st ids id)
  end.

(** * The directory *)

(** The object of a request: the identifier and the hash of the name agree. *)
Definition object_at objs (hash id : Z) : option pdc_metadata_t := m ← objs !! id; if decide (pdc_hash_djb2 (obj_name m) = hash) then Some m else None.
Definition listed objs (hash : Z) : Prop := ∃ id m, objs !! id = Some m ∧ pdc_hash_djb2 (obj_name m) = hash.
(** Change the object with [f], which has the new object and the answer. *)
Definition at_object d (hash id : Z) (f : pdc_metadata_t → option (pdc_metadata_t * Z)) (out : Z) d' : Prop :=
  match object_at (d_objs d) hash id with
  | Some m => ∃ m', f m = Some (m', out) ∧ d' = Dir (<[id := m']> (d_objs d)) (d_conts d)
  | None => out = -1 ∧ d' = d
  end.
Definition on_tags d (hash id : Z) (f : list pdc_kvtag_t → list pdc_kvtag_t) (out : Z) d' : Prop :=
  (listed (d_objs d) hash ∧ at_object d hash id (λ m, Some (with_kvtags m (f (kvtags m)), 1)) out d') ∨
  (¬ listed (d_objs d) hash ∧ match d_conts d !! hash with
                              | Some c => out = 1 ∧ d' = Dir (d_objs d) (<[hash := with_cont_kvtags c (f (c_kvtags c))]> (d_conts d))
                              | None => out = -1 ∧ d' = d
                              end).
(** Change the container of an identifier. *)
Definition at_container d (id : Z) (f : pdc_cont_hash_table_entry_t → pdc_cont_hash_table_entry_t) (out : Z) d' : Prop :=
  (∃ k c, d_conts d !! k = Some c ∧ c_cont_id c = id ∧ out = SUCCEED ∧ d' = Dir (d_objs d) (<[k := f c]> (d_conts d))) ∨
  ((∀ k c, d_conts d !! k = Some c → c_cont_id c ≠ id) ∧ out = FAIL ∧ d' = d).
Definition add_ids (ids : list Z) (c : pdc_cont_hash_table_entry_t) : pdc_cont_hash_table_entry_t :=
  Cont (c_cont_id c) (c_cont_name c) (i32 (c_n_obj c + lenZ ids)) (c_n_deleted c) (cont_room c (lenZ ids)) (c_obj_ids c ++ ids) (c_tags c) (c_kvtags c).
Definition del_ids (ids : list Z) (c : pdc_cont_hash_table_entry_t) : pdc_cont_hash_table_entry_t :=
  let (l, n) := del_objs (c_obj_ids c) ids in Cont (c_cont_id c) (c_cont_name c) (c_n_obj c) (i32 (c_n_deleted c + n)) (c_n_allocated c) l (c_tags c) (c_kvtags c).

(** An identifier that nothing has. *)
Definition fresh d (id : Z) : Prop := id ≠ 0 ∧ d_objs d !! id = None ∧ ∀ k c, d_conts d !! k = Some c → c_cont_id c ≠ id.

(** What a request means. *)
Definition dir_step d (r : request) (out : Z) d' : Prop :=
  match r with
  | CreateObject data _ dtype =>
      ∃ m, new_metadata data dtype = Some m ∧
        ((∃ id m', d_objs d !! id = Some m' ∧ PDC_metadata_cmp m' m = 0) ∧ out = 0 ∧ d' = d ∨
         (∀ id m', d_objs d !! id = Some m' → PDC_metadata_cmp m' m ≠ 0) ∧ fresh d out ∧ d' = Dir (<[out := with_id m out]> (d_objs d)) (d_conts d))
  | DeleteById id =>
      (∃ k c, d_conts d !! k = Some c ∧ c_cont_id c = id ∧ out = 1 ∧ d' = Dir (d_objs d) (delete k (d_conts d))) ∨
      ((∀ k c, d_conts d !! k = Some c → c_cont_id c ≠ id) ∧ out = (if bool_decide (is_Some (d_objs d !! id)) then 1 else -1) ∧ d' = Dir (delete id (d_objs d)) (d_conts d))
  | DeleteByName name ts _ =>
      (∃ id m, d_objs d !! id = Some m ∧ obj_name m = name ∧ time_step m = ts ∧ out = 1 ∧ d' = Dir (delete id (d_objs d)) (d_conts d)) ∨
      ((∀ id m, d_objs d !! id = Some m → ¬ (obj_name m = name ∧ time_step m = ts)) ∧ out = -1 ∧ d' = d)
  | UpdateObject hash id new => at_object d hash id (λ m, m ← update_metadata m new; Some (m, 1)) out d'
  | AddTag hash id tag => at_object d hash id (λ m, if given tag then t ← append_tag (tags m) tag; Some (with_tags m t, 1) else Some (m, -1)) out d'
  | AddKvtag hash id tag => on_tags d hash id (λ l, PDC_add_kvtag_to_list l tag) out d'
  | DelKvtag hash id key => on_tags d hash id (λ l, PDC_del_kvtag_value_from_list l key) out d'
  | CreateContainer hash name =>
      match d_conts d !! hash with
      | Some c => out = c_cont_id c ∧ d' = d
      | None => fresh d out ∧ d' = Dir (d_objs d) (<[hash := Cont out name 0 0 0 [] [] []]> (d_conts d))
      end
  | AddToContainer ids id => at_container d id (add_ids ids) out d'
  | DelFromContainer ids id => at_container d id (del_ids ids) out d'
  end.

(** What a request needs: the hash of the name, a name and a time step, room for
    strings and identifiers; the time step of an object is not changed, and an object can
    be deleted by its identifier. *)
Definition req_ok d (r : request) : Prop :=
  match r with
  | CreateObject data hash dtype => ∃ m, new_metadata data dtype = Some m ∧ identified m ∧ hash = pdc_hash_djb2 (obj_name m) ∧ Z.of_nat (size (d_objs d)) < 2147483647 ∧ bloom_room (d_objs d) m
  | DeleteById id => deletable (d_objs d) id
  | DeleteByName name ts hash => name ≠ [] ∧ name_ok name ∧ lenZ name < OBJ_NAME_MAX ∧ 0 ≤ ts < 2147483648 ∧ hash = pdc_hash_djb2 name
  | UpdateObject hash id new => t_time_step new = -1 ∧ ∀ m, object_at (d_objs d) hash id = Some m → is_Some (update_metadata m new)
  | AddTag hash id tag => ∀ m, object_at (d_objs d) hash id = Some m → is_Some (append_tag (tags m) tag)
  | CreateContainer _ name => lenZ name < ADDR_MAX
  | AddToContainer ids id => ∀ k c, d_conts d !! k = Some c → c_cont_id c = id → c_n_obj c + lenZ ids ≤ cont_room c (lenZ ids)
  | _ => True
  end.

(** * Every request *)

Lemma identified_with_id m id : identified m → identified (with_id m id).
Proof. done. Qed.
(** The objects change; the identifiers are the same or fewer. *)
Lemma rep_objects st d table objs' : server_rep st d → table_rep table objs' → (∀ id, is_Some (objs' !! id) → is_Some (d_objs d !! id)) → ∀ n,
  server_rep (with_count (with_objects st table) n) (Dir objs' (d_conts d)) ∧ server_rep (with_objects st table) (Dir objs' (d_conts d)).
Proof.
  intros (_ & Hc & Hs & Hid & Hconts) Ht Hsub n. assert (∀ k c, d_conts d !! k = Some c → 0 < c_cont_id c < pdc_id_seq_g st ∧ objs' !! c_cont_id c = None ∧ ∀ k' c', d_conts d !! k' = Some c' → c_cont_id c' = c_cont_id c → k' = k) as Hconts'.
  { intros k c E. destruct (Hconts k c E) as (Hr & Hn & Hinj). split; [done|]. split; [|done]. destruct (objs' !! c_cont_id c) eqn:Eo; [|done]. destruct (Hsub (c_cont_id c)) as [x Ex]; [by rewrite Eo|congruence]. }
  split; (split; [exact Ht|split; [exact Hc|split; [exact Hs|split; [intros id Hi; by apply Hid, Hsub|exact Hconts']]]]).
Qed.
Lemma rep_same st d n : server_rep st d → server_rep (with_count st n) d.
Proof. intros (? & ? & ? & ? & ?). done. Qed.
Lemma fresh_seq st d : server_rep st d → fresh d (pdc_id_seq_g st).
Proof.
  intros (_ & _ & Hs & Hid & Hconts). split; [lia|]. split; [|intros k c E; destruct (Hconts k c E); lia].
  destruct (d_objs d !! pdc_id_seq_g st) eqn:E; [|done]. destruct (Hid (pdc_id_seq_g st)); [by rewrite E|lia].
Qed.
Lemma conts_replace st d k c c' : server_rep st d → d_conts d !! k = Some c → c_cont_id c' = c_cont_id c → server_rep (with_conts st (<[k := c']> (d_conts d))) (Dir (d_objs d) (<[k := c']> (d_conts d))).
Proof.
  intros (Ht & Hc & Hs & Hid & Hconts) E Ec. split; [exact Ht|]. split; [done|]. split; [exact Hs|]. split; [exact Hid|].
  assert (∀ k0 c0, <[k := c']> (d_conts d) !! k0 = Some c0 → ∃ c1, d_conts d !! k0 = Some c1 ∧ c_cont_id c1 = c_cont_id c0) as Hold.
  { intros k0 c0 E0. destruct (decide (k0 = k)) as [->|]; [rewrite lookup_insert_eq in E0; injection E0 as <-; by exists c|]. rewrite lookup_insert_ne in E0 by done. by exists c0. }
  intros k0 c0 E0. cbn [d_conts] in E0. destruct (Hold k0 c0 E0) as (c1 & E1 & Eid). destruct (Hconts k0 c1 E1) as (? & ? & Hinj). rewrite <-Eid. split; [done|]. split; [done|].
  intros k2 c2 E2 Eid2. destruct (Hold k2 c2 E2) as (c3 & E3 & Eid3). apply (Hinj k2 c3 E3). congruence.
Qed.

Lemma create_object_ok st d data hash dtype : server_rep st d → pdc_id_seq_g st < W64 - 1 → req_ok d (CreateObject data hash dtype) →
  ∃ st' out d', PDC_insert_metadata_to_hash_table st data hash dtype = Some (st', out) ∧ dir_step d (CreateObject data hash dtype) out d' ∧ server_rep st' d'.
Proof.
  intros Hrep Hseq (m & Em & Hid & -> & Hsize & Hroom). pose proof Hrep as (Ht & Hc & Hs & Hids & Hconts). pose proof (fresh_seq st d Hrep) as Hfresh.
  unfold PDC_insert_metadata_to_hash_table. rewrite Em. cbn [mbind option_bind]. set (id := pdc_id_seq_g st) in *. set (key := pdc_hash_djb2 (obj_name m)).
  assert ((∀ id m', d_objs d !! id = Some m' → PDC_metadata_cmp m' m ≠ 0) → ∀ head, head = default (Head 0 None []) (metadata_hash_table_g st !! key) → ∃ st' out d',
    (let (id, st) := PDC_Server_gen_obj_id st in Some (with_count (with_objects st (<[key := PDC_Server_hash_table_list_insert head (with_id m id)]> (metadata_hash_table_g st))) (u32 (n_metadata_g st + 1)), id)) = Some (st', out) ∧
    dir_step d (CreateObject data key dtype) out d' ∧ server_rep st' d') as Hnew.
  { intros Hno head ->. eexists _, id, (Dir (<[id := with_id m id]> (d_objs d)) (d_conts d)). split; [done|]. split; [exists m; split; [done|]; by right|].
    destruct Hfresh as (Hf1 & Hf2 & Hf3). split; [|split; [exact Hc|split; [|split]]]; cbn.
    - by apply (table_insert _ _ (with_id m id) key).
    - unfold id, u64 in *. rewrite Z.mod_small; lia.
    - intros id0 Hi. unfold u64. rewrite Z.mod_small by (unfold id in *; lia). destruct (decide (id0 = id)) as [->|Hne]; [unfold id in *; lia|]. rewrite lookup_insert_ne in Hi by done. specialize (Hids id0 Hi). lia.
    - intros k c E. destruct (Hconts k c E) as (? & ? & ?). unfold u64. rewrite Z.mod_small by (unfold id in *; lia). split; [lia|]. split; [|done]. rewrite lookup_insert_ne; [done|]. intros E'. by apply (Hf3 k c). }
  destruct (metadata_hash_table_g st !! key) as [head|] eqn:Eh; [|apply Hnew; [|done]; intros id0 m' E0 Ecmp; pose proof (proj2 Ht id0 m' E0) as (_ & h & Eh' & Hm');
    destruct (proj1 Ht _ h Eh') as ((_ & _ & _ & _ & Hall) & _); destruct (Hall m' Hm') as [_ Him]; destruct (identical_names m' m Him Hid Ecmp) as [En _]; rewrite En in Eh'; fold key in Eh'; congruence].
  destruct (proj1 Ht key head Eh) as (Hok & _ & Hin). pose proof (find_identical_spec key head m Hok Hid) as Hf. destruct (find_identical_metadata head m) as [[i m']|].
  - destruct Hf as [Hi Hcmp]. exists st, 0, d. split; [done|]. split; [|done]. exists m. split; [done|]. left. split; [|done]. exists (obj_id m'), m'. split; [apply Hin; by eapply list_elem_of_lookup_2|done].
  - apply Hnew; [|done]. intros id0 m' E0 Ecmp. destruct (proj2 Ht id0 m' E0) as (_ & h & Eh' & Hm'). destruct (proj1 Ht _ h Eh') as ((_ & _ & _ & _ & Hall) & _). destruct (Hall m' Hm') as [_ Him].
    destruct (identical_names m' m Him Hid Ecmp) as [En _]. rewrite En in Eh'. fold key in Eh'. rewrite Eh in Eh'. injection Eh' as <-. by apply (Hf m').
Qed.

Lemma deleted_sub (objs : gmap Z pdc_metadata_t) id x : is_Some (delete id objs !! x) → is_Some (objs !! x).
Proof. intros [m [_ E]%lookup_delete_Some]. by exists m. Qed.
Lemma find_cont st d id : server_rep st d →
  match list_find (λ e, c_cont_id e.2 = id) (table_list (container_hash_table_g st)) with
  | Some (_, (k, c)) => d_conts d !! k = Some c ∧ c_cont_id c = id
  | None => ∀ k c, d_conts d !! k = Some c → c_cont_id c ≠ id
  end.
Proof.
  intros (_ & Hc & _). rewrite Hc. destruct (list_find _ _) as [[i [k c]]|] eqn:E.
  - apply list_find_Some in E as (Hi & Hid & _). split; [|done]. apply list_elem_of_lookup_2 in Hi. by rewrite table_list_perm, elem_of_map_to_list in Hi.
  - apply list_find_None in E. rewrite list.Forall_forall in E. intros k c Ek. apply (E (k, c)). by rewrite table_list_perm, elem_of_map_to_list.
Qed.
Lemma delete_by_id_ok st d id : server_rep st d → req_ok d (DeleteById id) →
  ∃ st' out d', exec st (DeleteById id) = Some (st', out) ∧ dir_step d (DeleteById id) out d' ∧ server_rep st' d'.
Proof.
  intros Hrep Hdel. pose proof Hrep as (Ht & Hc & Hs & Hids & Hconts). cbn [exec]. unfold PDC_Server_delete_metadata_by_id. pose proof (find_cont st d id Hrep) as Hf. destruct (list_find _ _) as [[i [k c]]|].
  - destruct Hf as [Ek Eid]. eexists _, 1, (Dir (d_objs d) (delete k (d_conts d))). split; [done|]. split; [left; by exists k, c|]. rewrite Hc.
    split; [exact Ht|]. split; [done|]. split; [exact Hs|]. split; [exact Hids|]. cbn. intros k' c' [_ E]%lookup_delete_Some. destruct (Hconts k' c' E) as (? & ? & Hinj). split; [done|]. split; [done|].
    intros k'' c'' [_ E']%lookup_delete_Some. by apply Hinj.
  - destruct (delete_by_id_table _ _ id Ht Hdel) as (table' & -> & Ht'). cbn [mbind option_bind].
    exists (with_count (with_objects st table') (u32 (n_metadata_g st - 1))), (if bool_decide (is_Some (d_objs d !! id)) then 1 else -1), (Dir (delete id (d_objs d)) (d_conts d)).
    split; [by case_bool_decide|]. split; [right; done|].
    by apply (rep_objects st d table' _ Hrep Ht' (deleted_sub _ _)).
Qed.

Lemma delete_by_name_ok st d name ts hash : server_rep st d → req_ok d (DeleteByName name ts hash) →
  ∃ st' out d', PDC_delete_metadata_from_hash_table st name ts hash = Some (st', out) ∧ dir_step d (DeleteByName name ts hash) out d' ∧ server_rep st' d'.
Proof.
  intros Hrep (Hne & Hname & Hlen & Hts & ->). pose proof Hrep as (Ht & Hc & Hs & Hids & Hconts). unfold PDC_delete_metadata_from_hash_table, strcpy. rewrite decide_True by done. cbn [mbind option_bind].
  set (a := Metadata (-1) [] name ts _ _ _ _ _ _ _ _ _ _ _ _ _). assert (identified a) as Ha by done. set (key := pdc_hash_djb2 name).
  assert (∀ m, identified m → PDC_metadata_cmp m a = 0 ↔ obj_name m = name ∧ time_step m = ts) as Hcmp by (intros m Hm; apply cmp_wild; done).
  assert ((∀ id m, d_objs d !! id = Some m → ¬ (obj_name m = name ∧ time_step m = ts)) → ∃ st' out d',
    Some (with_count st (u32 (n_metadata_g st - 1)), -1) = Some (st', out) ∧ dir_step d (DeleteByName name ts key) out d' ∧ server_rep st' d') as Hnone
    by (intros Hno; eexists _, (-1), d; split; [done|]; split; [by right|by apply rep_same]).
  destruct (metadata_hash_table_g st !! key) as [head|] eqn:Eh.
  2:{ apply Hnone. intros id m E [En _]. apply (not_listed _ _ key m id Ht Eh E). by rewrite En. }
  destruct (proj1 Ht key head Eh) as (Hok & _ & Hin). pose proof (find_identical_spec key head a Hok Ha) as Hf. pose proof Hok as (_ & _ & _ & _ & Hall). destruct (find_identical_metadata head a) as [[i m]|].
  - destruct Hf as [Hi Hz]. assert (m ∈ metadata head) as Hm by (by eapply list_elem_of_lookup_2). destruct (Hall m Hm) as [_ Him]. apply (Hcmp m Him) in Hz as [En Et].
    eexists _, 1, (Dir (delete (obj_id m) (d_objs d)) (d_conts d)). split; [done|]. split; [left; exists (obj_id m), m; by split; [apply Hin|]|].
    eapply (λ Ht' Hsub n, proj1 (rep_objects st d _ _ Hrep Ht' Hsub n)); [by apply table_remove|apply deleted_sub].
  - apply Hnone. intros id m E [En Et]. destruct (proj2 Ht id m E) as (_ & h & Eh' & Hm). rewrite En in Eh'. fold key in Eh'. rewrite Eh in Eh'. injection Eh' as <-.
    apply (Hf m Hm). apply Hcmp; [by apply Hall|done].
Qed.

(** ** Changes in place *)

Lemma at_object_ok st d hash id (f : pdc_metadata_t → option (pdc_metadata_t * Z)) : server_rep st d →
  (∀ m, object_at (d_objs d) hash id = Some m → ∃ m' r, f m = Some (m', r) ∧ same_identity m m') →
  ∃ st' out d', with_target st hash id (-1) f = Some (st', out) ∧ at_object d hash id f out d' ∧ server_rep st' d'.
Proof.
  intros Hrep Hf. pose proof Hrep as (Ht & _). unfold with_target, at_object.
  assert ((∀ m, d_objs d !! id = Some m → pdc_hash_djb2 (obj_name m) ≠ hash) → object_at (d_objs d) hash id = None) as Hnone.
  { intros Hno. unfold object_at. destruct (d_objs d !! id) as [m|] eqn:E; [|done]. cbn. rewrite decide_False; [done|]. by apply Hno. }
  destruct (metadata_hash_table_g st !! hash) as [head|] eqn:Eh.
  2:{ exists st, (-1), d. rewrite Hnone; [done|]. intros m E. by apply (not_listed _ _ hash m id Ht Eh). }
  pose proof (found_by_id _ _ hash head id Ht Eh) as Hfound. destruct (find_metadata_by_id_from_list _ _) as [[i m]|].
  - destruct Hfound as (Hi & Hid & E & Hk). assert (object_at (d_objs d) hash id = Some m) as Eo by (unfold object_at; rewrite E; cbn; by rewrite decide_True). rewrite Eo.
    destruct (Hf m Eo) as (m' & r & Em & Hsame). rewrite Em. cbn [mbind option_bind]. eexists _, r, (Dir (<[id := m']> (d_objs d)) (d_conts d)). split; [done|]. split; [by exists m'|].
    eapply (λ Ht' Hsub, proj2 (rep_objects st d _ _ Hrep Ht' Hsub (n_metadata_g st))); [rewrite <-Hid; by apply table_replace|].
    intros x Hx. destruct (decide (x = id)) as [->|]; [by exists m|by rewrite lookup_insert_ne in Hx by done].
  - exists st, (-1), d. by rewrite Hnone.
Qed.
Lemma listed_iff st d hash : server_rep st d → listed (d_objs d) hash ↔ is_Some (metadata_hash_table_g st !! hash).
Proof.
  intros (Ht & _). split.
  - intros (id & m & E & Hk). destruct (proj2 Ht id m E) as (_ & h & Eh & _). rewrite Hk in Eh. by exists h.
  - intros [h Eh]. destruct (proj1 Ht hash h Eh) as ((_ & _ & _ & _ & Hall) & Hne & Hin). destruct (metadata h) as [|m l]; [done|]. exists (obj_id m), m.
    split; [apply Hin; set_solver|]. apply Hall. set_solver.
Qed.
Lemma on_tags_ok st d hash id (f : list pdc_kvtag_t → list pdc_kvtag_t) : server_rep st d →
  ∃ st' out d', on_kvtags st hash id (-1) (λ l, (f l, 1)) = Some (st', out) ∧ on_tags d hash id f out d' ∧ server_rep st' d'.
Proof.
  intros Hrep. pose proof Hrep as (Ht & Hc & _). pose proof (listed_iff st d hash Hrep) as Hl. unfold on_kvtags, on_tags. destruct (metadata_hash_table_g st !! hash) as [h|].
  - destruct (at_object_ok st d hash id (λ m, Some (with_kvtags m (f (kvtags m)), 1)) Hrep) as (st' & out & d' & E & Hstep & Hrep'); [intros m _; by eexists _, _|].
    exists st', out, d'. split; [exact E|]. split; [|done]. left. split; [by apply Hl|done].
  - assert (¬ listed (d_objs d) hash) as Hno by (rewrite Hl; by intros []). rewrite Hc. destruct (d_conts d !! hash) as [c|] eqn:Ec.
    + eexists _, 1, _. split; [done|]. split; [right; done|]. by apply (conts_replace st d hash c).
    + exists st, (-1), d. split; [done|]. split; [by right|done].
Qed.
(** ** Containers *)

Lemma create_container_ok st d hash name : server_rep st d → pdc_id_seq_g st < W64 - 1 → lenZ name < ADDR_MAX →
  ∃ st' out d', PDC_Server_create_container st hash name = Some (st', out) ∧ dir_step d (CreateContainer hash name) out d' ∧ server_rep st' d'.
Proof.
  intros Hrep Hseq Hlen. pose proof Hrep as (Ht & Hc & Hs & Hids & Hconts). pose proof (fresh_seq st d Hrep) as (Hf1 & Hf2 & Hf3). unfold PDC_Server_create_container, dir_step. rewrite Hc. destruct (d_conts d !! hash) as [c|] eqn:Ec; [by exists st, (c_cont_id c), d|].
  unfold strcpy. rewrite decide_True by done. cbn [mbind option_bind PDC_Server_gen_obj_id]. set (id := pdc_id_seq_g st) in *. set (c := Cont id name 0 0 0 [] [] []).
  eexists _, id, (Dir (d_objs d) (<[hash := c]> (d_conts d))). split; [done|]. split; [done|]. assert (id +w 1 = id + 1) as Enext by (unfold u64; rewrite Z.mod_small; lia).
  split; [exact Ht|]. cbn. rewrite Hc, Enext. split; [done|]. split; [lia|]. split; [intros x Hx; specialize (Hids x Hx); lia|].
  intros k c' E. destruct (decide (k = hash)) as [->|Hk].
  - rewrite lookup_insert_eq in E. injection E as <-. cbn. split; [lia|]. split; [done|]. intros k' c' E' Eid. destruct (decide (k' = hash)) as [|Hk']; [done|]. rewrite lookup_insert_ne in E' by done. by destruct (Hf3 k' c' E').
  - rewrite lookup_insert_ne in E by done. destruct (Hconts k c' E) as (? & ? & Hinj). split; [lia|]. split; [done|]. intros k' c'' E' Eid. destruct (decide (k' = hash)) as [->|Hk'].
    + rewrite lookup_insert_eq in E'. injection E' as <-. cbn in Eid. by destruct (Hf3 k c' E).
    + rewrite lookup_insert_ne in E' by done. by apply (Hinj k' c'').
Qed.
(** The container of an identifier is changed in place. *)
Lemma at_container_ok st d id (f : pdc_cont_hash_table_entry_t → pdc_cont_hash_table_entry_t) : server_rep st d → (∀ c, c_cont_id (f c) = c_cont_id c) →
  match PDC_Server_find_container_by_id st id with
  | Some (k, c) => d_conts d !! k = Some c ∧ c_cont_id c = id ∧ ∃ d', at_container d id f SUCCEED d' ∧ server_rep (with_conts st (<[k := f c]> (container_hash_table_g st))) d'
  | None => at_container d id f FAIL d
  end.
Proof.
  intros Hrep Hf. pose proof (find_cont st d id Hrep) as Hfind. pose proof Hrep as (_ & Hc & _). unfold PDC_Server_find_container_by_id. destruct (list_find _ _) as [[i [k c]]|]; cbn; [|by right].
  destruct Hfind as [Ek Eid]. split; [done|]. split; [done|]. eexists. split; [left; by exists k, c|]. rewrite Hc. by apply (conts_replace st d k c).
Qed.
Lemma add_objs_ok st d ids id : server_rep st d → req_ok d (AddToContainer ids id) →
  ∃ st' out d', PDC_Server_container_add_objs st ids id = Some (st', out) ∧ at_container d id (add_ids ids) out d' ∧ server_rep st' d'.
Proof.
  intros Hrep Hok. pose proof (at_container_ok st d id (add_ids ids) Hrep (λ _, eq_refl)) as Hc. unfold PDC_Server_container_add_objs. destruct (PDC_Server_find_container_by_id st id) as [[k c]|]; [|by eexists _, _, _].
  destruct Hc as (Ek & Eid & d' & Hstep & Hrep'). rewrite decide_True by by apply (Hok k c). by eexists _, SUCCEED, d'.
Qed.
Lemma del_objs_ok st d ids id : server_rep st d →
  ∃ st' out d', Some (PDC_Server_container_del_objs st ids id) = Some (st', out) ∧ at_container d id (del_ids ids) out d' ∧ server_rep st' d'.
Proof.
  intros Hrep. pose proof (at_container_ok st d id (del_ids ids) Hrep) as Hc. unfold PDC_Server_container_del_objs. destruct (PDC_Server_find_container_by_id st id) as [[k c]|].
  - destruct Hc as (Ek & Eid & d' & Hstep & Hrep'); [intros c'; unfold del_ids; by destruct (del_objs _ _)|]. unfold del_ids in Hrep' at 1. destruct (del_objs (c_obj_ids c) ids) as [l n]. by eexists _, SUCCEED, d'.
  - exists st, FAIL, d. split; [done|]. split; [|done]. apply Hc. intros c'. unfold del_ids. by destruct (del_objs _ _).
Qed.

Lemma update_identity m new m' : t_time_step new = -1 → update_metadata m new = Some m' → same_identity m m'.
Proof.
  intros Ht. unfold update_metadata. rewrite decide_True by done. destruct (if given (t_app_name new) then _ else _); [|done]. destruct (if given (t_data_location new) then _ else _); [|done].
  destruct (if given (t_tags new) then _ else _); [|done]. by intros [= <-].
Qed.
Lemma exec_ok st d r : server_rep st d → pdc_id_seq_g st < W64 - 1 → req_ok d r → ∃ st' out d', exec st r = Some (st', out) ∧ dir_step d r out d' ∧ server_rep st' d'.
Proof.
  intros Hrep Hseq Hok. destruct r; cbn [exec].
  - by apply create_object_ok.
  - by apply delete_by_id_ok.
  - by apply delete_by_name_ok.
  - destruct Hok as [Ht Hok]. apply at_object_ok; [done|]. intros m Hm. destruct (Hok m Hm) as [m' Em]. exists m', 1. rewrite Em. split; [done|]. by apply (update_identity m new).
  - apply at_object_ok; [done|]. intros m Hm. destruct (given tag); [|by exists m, (-1)]. destruct (Hok m Hm) as [t Et]. exists (with_tags m t), 1. by rewrite Et.
  - by apply on_tags_ok.
  - by apply on_tags_ok.
  - by apply create_container_ok.
  - by apply add_objs_ok.
  - by apply del_objs_ok.
Qed.
End directory.
