(* ===== verification/MetadataService.v ===== *)
(** A metadata server from its start: what every request does, and what every query
    answers, in terms of the directory of its objects and containers. *)

From stdpp Require Import gmap.
From S2P Require Export MetadataDirectory.
#[local] Open Scope Z_scope.

Section service.
Context `{FM : !FreshMemory, TO : !TableOrder, NU : !Numbers}.
Implicit Types (st : meta_server) (d : directory) (m : pdc_metadata_t).

(** * The directory of a server *)

Definition directory_of st : directory := Dir (list_to_map ((λ m, (obj_id m, m)) <$> all_listed st)) (container_hash_table_g st).

Lemma all_listed_spec st d m : server_rep st d → m ∈ all_listed st ↔ d_objs d !! obj_id m = Some m.
Proof.
  intros ((H1 & H2) & _). unfold all_listed. rewrite list_elem_of_bind. split.
  - intros ([key head] & Hm & Hin). rewrite table_list_perm, elem_of_map_to_list in Hin. destruct (H1 key head Hin) as (_ & _ & Hall). by apply Hall.
  - intros E. destruct (H2 _ m E) as (_ & head & Eh & Hm). eexists (_, head). split; [done|]. by rewrite table_list_perm, elem_of_map_to_list.
Qed.
Lemma all_listed_ids st d id m : server_rep st d → d_objs d !! id = Some m → obj_id m = id.
Proof. intros ((_ & H2) & _) E. by destruct (H2 id m E). Qed.
Lemma all_listed_nodup st d : server_rep st d → NoDup (all_listed st).
Proof.
  intros ((H1 & H2) & _). unfold all_listed. apply NoDup_bind.
  - intros [k1 h1] [k2 h2] m Hin1 Hin2 Hm1 Hm2. rewrite table_list_perm, elem_of_map_to_list in Hin1, Hin2. destruct (H1 k1 h1 Hin1) as ((_ & _ & _ & _ & Ha1) & _), (H1 k2 h2 Hin2) as ((_ & _ & _ & _ & Ha2) & _).
    destruct (Ha1 m Hm1) as [<- _], (Ha2 m Hm2) as [<- _]. congruence.
  - intros [k h] Hin. rewrite table_list_perm, elem_of_map_to_list in Hin. destruct (H1 k h Hin) as ((_ & _ & _ & Hnd & _) & _). by apply NoDup_fmap_1 in Hnd.
  - rewrite table_list_perm. apply NoDup_map_to_list.
Qed.
Lemma listed_count st d (l : list pdc_metadata_t) : server_rep st d → NoDup l → (∀ m, m ∈ l → d_objs d !! obj_id m = Some m) → lenZ l ≤ Z.of_nat (size (d_objs d)).
Proof.
  intros Hrep Hnd Hl. assert (NoDup (obj_id <$> l)) as Hnd'. { apply NoDup_fmap_2_strong; [|done]. intros x y Hx%Hl Hy%Hl E. congruence. }
  assert (list_to_set (obj_id <$> l) ⊆ dom (d_objs d)) as Hsub by (intros x; rewrite elem_of_list_to_set; intros (m & -> & Hm)%list_elem_of_fmap; apply elem_of_dom; eexists; by apply Hl).
  apply subseteq_size in Hsub. rewrite size_list_to_set, size_dom, length_fmap in Hsub by done. unfold lenZ. lia.
Qed.
Lemma rep_named st d id m : server_rep st d → d_objs d !! id = Some m → name_ok (obj_name m).
Proof. intros ((H1 & H2) & _) E. destruct (H2 id m E) as (_ & h & Eh & Hm). destruct (H1 _ h Eh) as ((_ & _ & _ & _ & Hall) & _). by destruct (Hall m Hm) as (_ & _ & _ & ?). Qed.
(** There is one directory for a server. *)
Lemma rep_directory st d : server_rep st d → d = directory_of st.
Proof.
  intros Hrep. destruct d as [objs conts]. unfold directory_of. pose proof Hrep as (_ & -> & _). f_equal. apply map_eq. intros id. cbn. symmetry. destruct (objs !! id) as [m|] eqn:E.
  - pose proof (all_listed_ids st _ id m Hrep E) as Hid. apply elem_of_list_to_map'.
    + assert (∀ x, (id, x) ∈ (λ m, (obj_id m, m)) <$> all_listed st → x = m) as Hone; [|by intros x _ ->%Hone].
      intros x (m' & [= -> ->] & Hm')%list_elem_of_fmap. apply (all_listed_spec st _ m' Hrep) in Hm'. cbn in Hm'. congruence.
    + apply list_elem_of_fmap. exists m. split; [by rewrite Hid|]. apply (all_listed_spec st _ m Hrep). cbn. by rewrite Hid.
  - apply not_elem_of_list_to_map_1. intros (x & -> & (m & -> & Hm)%list_elem_of_fmap)%list_elem_of_fmap. apply (all_listed_spec st _ m Hrep) in Hm. cbn in *. congruence.
Qed.

(** * Histories *)

(** A server that has started and served requests, while there are identifiers. *)
Inductive reachable : meta_server → Prop :=
| reachable_start id_seq : 0 < id_seq < W64 → reachable (start id_seq)
| reachable_step st r st' out : reachable st → pdc_id_seq_g st < W64 - 1 → req_ok (directory_of st) r → exec st r = Some (st', out) → reachable st'.

Lemma reachable_rep st : reachable st → server_rep st (directory_of st).
Proof.
  induction 1 as [id_seq Hid|st r st' out _ IH Hseq Hok E].
  - pose proof (start_rep id_seq Hid) as Hrep. by rewrite <-(rep_directory _ _ Hrep).
  - destruct (exec_ok st (directory_of st) r IH Hseq Hok) as (st1 & out1 & d' & E1 & _ & Hrep). rewrite E in E1. injection E1 as <- <-. by rewrite <-(rep_directory _ _ Hrep).
Qed.

(** C22: a server that has served any sequence of such requests serves every further one,
    and the answer and the new directory are those that the request means: an object is
    created under a fresh identifier or, when an object agrees with it, not at all (the
    filter of a long list hides none); a deletion removes the container or the object of
    the identifier, or an object of the name and time step, and nothing else; changes,
    tags and the members of containers affect the one they name.  A request ([req_ok])
    has strings that fit into their fields, the hash of its name, room in its container
    and in the counters of the filter, and does not change a time step; an object is
    deleted by its identifier where freed memory is kept or another object has its name
    and time step ([deletion_of_last_faults] is the other case). *)
Theorem metadata_step_refines st r : reachable st → pdc_id_seq_g st < W64 - 1 → req_ok (directory_of st) r →
  ∃ st' out, exec st r = Some (st', out) ∧ dir_step (directory_of st) r out (directory_of st') ∧ reachable st'.
Proof.
  intros Hst Hseq Hok. destruct (exec_ok st _ r (reachable_rep st Hst) Hseq Hok) as (st' & out & d' & E & Hstep & Hrep). exists st', out. split; [done|].
  rewrite <-(rep_directory _ _ Hrep). split; [done|]. by apply (reachable_step st r st' out).
Qed.

(** Where freed memory is not kept, deleting the only object of its hash value by its
    identifier is a fault: the loop over the list reads the object that it freed. *)
Lemma deletion_of_last_faults st id m : reachable st → freed_kept = false → d_objs (directory_of st) !! id = Some m →
  (∀ id' m', d_objs (directory_of st) !! id' = Some m' → pdc_hash_djb2 (obj_name m') = pdc_hash_djb2 (obj_name m) → id' = id) → exec st (DeleteById id) = None.
Proof.
  intros Hst%reachable_rep Hk Em Honly. pose proof (find_cont st _ id Hst) as Hf. destruct Hst as (Ht & Hc & _ & _ & Hconts). cbn [exec]. unfold PDC_Server_delete_metadata_by_id.
  destruct (list_find _ _) as [[i [k c]]|]; [destruct Hf as [Ek Eid]; destruct (Hconts k c Ek) as (_ & E & _); congruence|].
  by rewrite (delete_last_faults _ _ id m Ht Em Hk Honly).
Qed.

(** * Queries *)

Lemma find_by_id_spec st id : reachable st → find_metadata_by_id st id = d_objs (directory_of st) !! id.
Proof.
  intros Hst%reachable_rep. unfold find_metadata_by_id. destruct (list_find _ _) as [[i m]|] eqn:E; cbn [fmap option_fmap option_map snd].
  - apply list_find_Some in E as (Hi & <- & _). symmetry. apply (all_listed_spec st _ m Hst). by eapply list_elem_of_lookup_2.
  - apply list_find_None in E. rewrite list.Forall_forall in E. destruct (d_objs _ !! id) as [m|] eqn:Em; [|done]. pose proof (all_listed_ids st _ id m Hst Em) as Hid. exfalso. apply (E m); [|done].
    apply (all_listed_spec st _ m Hst). by rewrite Hid.
Qed.

(** An object with the name and the time step, if there is one. *)
Definition named d (name : string) (ts : Z) m : Prop := d_objs d !! obj_id m = Some m ∧ obj_name m = name ∧ time_step m = ts.
Lemma search_by_name_spec st name ts : reachable st → name ≠ [] → name_ok name → lenZ name < OBJ_NAME_MAX → 0 ≤ ts < 2147483648 →
  ∃ ret res, PDC_Server_search_with_name_timestep st name (pdc_hash_djb2 name) ts = Some (ret, res) ∧
    match res with Some m => ret = SUCCEED ∧ named (directory_of st) name ts m | None => ∀ m, ¬ named (directory_of st) name ts m end.
Proof.
  intros Hst%reachable_rep Hne Hname Hlen Hts. pose proof Hst as (Ht & _). unfold PDC_Server_search_with_name_timestep, strcpy. rewrite decide_True by done. cbn [mbind option_bind].
  assert (i32 ts = ts) as -> by (unfold i32, W32; rewrite Z.mod_small; lia). set (a := Metadata 0 [] name ts _ _ _ _ _ _ _ _ _ _ _ _ _). assert (identified a) as Ha by done.
  destruct (metadata_hash_table_g st !! pdc_hash_djb2 name) as [head|] eqn:Eh.
  2:{ eexists _, _. split; [done|]. intros m (E & En & _). apply (not_listed _ _ _ m _ Ht Eh E). by rewrite En. }
  destruct (proj1 Ht _ head Eh) as (Hok & _ & Hin). pose proof (find_identical_spec _ head a Hok Ha) as Hf. pose proof Hok as (_ & _ & _ & _ & Hall). destruct (find_identical_metadata head a) as [[i m]|].
  - destruct Hf as [Hi Hz]. assert (m ∈ metadata head) as Hm by (by eapply list_elem_of_lookup_2). apply cmp_wild in Hz as [En Et]; [|by apply Hall|done|done|done]. eexists _, (Some m). split; [done|]. split; [done|]. split; [by apply Hin|done].
  - eexists _, None. split; [done|]. intros m (E & En & Et). destruct (proj2 Ht _ m E) as (_ & h & Eh' & Hm). rewrite En, Eh in Eh'. injection Eh' as <-. apply (Hf m Hm). apply cmp_wild; [by apply Hall|done..].
Qed.

(** What a query asks of an object. *)
Definition satisfies (q : metadata_query_t) m : Prop :=
  (q_user_id q ≤ 0 ∨ user_id m = q_user_id q) ∧
  (q_app_name q = [32] ∨ app_name m = q_app_name q) ∧
  (q_obj_name q = [32] ∨ obj_name m = q_obj_name q) ∧
  (time_step_from q ≤ 0 ∨ time_step_to q ≤ 0 ∨ time_step_from q ≤ time_step m ≤ time_step_to q) ∧
  (q_ndim q ≤ 0 ∨ ndim m = q_ndim q) ∧
  (q_tags q = [32] ∨ ∃ l r, tags m = l ++ q_tags q ++ r).
Lemma strings_agree q s : name_ok q → name_ok s → negb (blank q) && negb (bool_decide (strcmp s q = 0)) = false ↔ q = [32] ∨ s = q.
Proof. intros Hq Hs. unfold blank. rewrite andb_false_iff, !negb_false_iff, !bool_decide_eq_true. by rewrite (strcmp_eq s Hs q Hq). Qed.
Lemma satisfy_spec q m : name_ok (q_app_name q) → name_ok (q_obj_name q) → name_ok (app_name m) → name_ok (obj_name m) → is_metadata_satisfy_constraint m q = 1 ↔ satisfies q m.
Proof.
  intros Ha Hn Hma Hmn. pose proof (strings_agree _ _ Ha Hma) as H1. pose proof (strings_agree _ _ Hn Hmn) as H2. pose proof (contains_spec (tags m) (q_tags q)) as H3.
  assert (negb (blank (q_tags q)) && negb (contains (tags m) (q_tags q)) = false ↔ q_tags q = [32] ∨ ∃ l r, tags m = l ++ q_tags q ++ r) as H4 by (rewrite andb_false_iff, !negb_false_iff, H3; unfold blank; by rewrite bool_decide_eq_true).
  unfold is_metadata_satisfy_constraint, satisfies. rewrite <-H1, <-H2, <-H4. clear. destruct (negb (blank (q_app_name q)) && _), (negb (blank (q_obj_name q)) && _), (negb (blank (q_tags q)) && _); repeat case_decide; (split; [try done; intros _|intros (? & ? & ? & ? & ? & ?); try done; lia]); split_and!; lia || done.
Qed.

(** C23: on a server that has served any requests, an object is found by its identifier
    exactly when it is there; a search for a name and a time step finds an object that has
    them when there is one, and says that there is none otherwise; and a query with
    conditions on the fields returns every object that satisfies all of them once and no
    other, as long as they fit into its array, which has one place more than the server
    counts objects (deletions that find nothing are counted): otherwise it writes behind
    the array, which is a fault. *)
Theorem metadata_queries_answered st id name ts q : reachable st → name ≠ [] → name_ok name → lenZ name < OBJ_NAME_MAX → 0 ≤ ts < 2147483648 →
  name_ok (q_app_name q) → name_ok (q_obj_name q) → (∀ i m, d_objs (directory_of st) !! i = Some m → name_ok (app_name m)) →
  find_metadata_by_id st id = d_objs (directory_of st) !! id ∧
  (∃ ret found, PDC_Server_search_with_name_timestep st name (pdc_hash_djb2 name) ts = Some (ret, found) ∧
     match found with Some m => ret = SUCCEED ∧ named (directory_of st) name ts m | None => ∀ m, ¬ named (directory_of st) name ts m end) ∧
  (∃ res, NoDup res ∧ (∀ m, m ∈ res ↔ d_objs (directory_of st) !! obj_id m = Some m ∧ (is_list_all q = 1 ∨ satisfies q m)) ∧
     PDC_Server_get_partial_query_result st q = (if decide (lenZ res ≤ u32 (n_metadata_g st + 1)) then Some res else None) ∧
     (Z.of_nat (size (d_objs (directory_of st))) ≤ u32 (n_metadata_g st + 1) → PDC_Server_get_partial_query_result st q = Some res)).
Proof.
  intros Hst Hne Hname Hlen Hts Hqa Hqn Happ. split; [by apply find_by_id_spec|]. split; [by apply search_by_name_spec|]. pose proof (reachable_rep st Hst) as Hrep. pose proof (all_listed_nodup st _ Hrep) as Hnd.
  unfold PDC_Server_get_partial_query_result. set (res := filter _ (all_listed st)). exists res. split; [by apply list.NoDup_filter|]. split; [|split; [done|]].
  - intros m. unfold res. rewrite list_elem_of_filter, (all_listed_spec st _ m Hrep). split.
    + intros [Hq E]. split; [done|]. destruct Hq as [|Hq]; [by left|right]. apply satisfy_spec in Hq; eauto using rep_named.
    + intros [E Hq]. split; [|done]. destruct Hq as [|Hq]; [by left|right]. apply satisfy_spec; eauto using rep_named.
  - intros Hcount. apply decide_True. etransitivity; [|exact Hcount]. eapply listed_count; [exact Hrep|by apply list.NoDup_filter|]. intros m [_ Hm]%list_elem_of_filter. by apply (all_listed_spec st _ m Hrep).
Qed.

(** ** Queries for tags *)

Lemma mapM_total {A B} (f : A → option B) (g : A → B) l : (∀ x, x ∈ l → f x = Some (g x)) → mapM f l = Some (g <$> l).
Proof. induction l as [|x l IH]; intros H; cbn; [done|]. rewrite (H x) by set_solver. cbn. rewrite IH by set_solver. done. Qed.
Lemma elem_of_concat_fmap {A B} (f : A → list B) l y : y ∈ concat (f <$> l) ↔ ∃ x, x ∈ l ∧ y ∈ f x.
Proof. rewrite list_elem_of_In, in_concat. setoid_rewrite <-list_elem_of_In. setoid_rewrite list_elem_of_fmap. naive_solver. Qed.
Definition query_matches (name value : string) (tag : pdc_kvtag_t) : Prop :=
  pattern_matches (kv_name tag) name ∧ kv_type tag = PDC_STRING ∧ ∃ v, c_string (kv_value tag) = Some v ∧ pattern_matches v value.
Lemma is_matching_spec name value tag : name ≠ [STAR] → value ≠ [STAR] → (kv_type tag = PDC_STRING → is_Some (c_string (kv_value tag))) →
  ∃ b, _is_matching_kvtag name PDC_STRING value tag = Some b ∧ (b = true ↔ query_matches name value tag).
Proof.
  intros Hn Hv Hs. destruct (simple_matches_spec (kv_name tag) name Hn) as (b1 & E1 & H1). unfold _is_matching_kvtag, query_matches. rewrite E1. cbn [mbind option_bind]. destruct b1; cbn [negb].
  2:{ exists false. split; [done|]. split; [done|]. by intros [?%H1 _]. }
  case_decide as Ht; [exists false; split; [done|]; split; [done|by intros (_ & ? & _)]|]. rewrite decide_True by done. destruct Hs as [v Ev]; [by destruct (decide (PDC_STRING = kv_type tag))|]. rewrite Ev. cbn [mbind option_bind].
  destruct (simple_matches_spec v value Hv) as (b2 & E2 & H2). exists b2. split; [done|]. rewrite H2. split.
  - intros ?. split; [by apply H1|]. split; [by destruct (decide (PDC_STRING = kv_type tag))|]. by exists v.
  - intros (_ & _ & v' & [= <-] & ?). done.
Qed.
Definition does_match (name value : string) (tag : pdc_kvtag_t) : bool := default false (_is_matching_kvtag name PDC_STRING value tag).

(** On a server that has served any requests, a query for tags whose value is a
    string between quotes returns the identifiers of the objects that have a tag of
    strings whose name matches the pattern of the query and whose value matches the
    pattern between the quotes, and no other. *)
Lemma kvtag_query_spec st name type value : reachable st → name ≠ [STAR] → value ≠ [STAR] →
  (∀ id m tag, d_objs (directory_of st) !! id = Some m → tag ∈ kvtags m → kv_type tag = PDC_STRING → is_Some (c_string (kv_value tag))) →
  ∃ ids, PDC_Server_get_kvtag_query_result st name type (quoted value) = Some ids ∧
    ∀ id, id ∈ ids ↔ ∃ m tag, d_objs (directory_of st) !! id = Some m ∧ tag ∈ kvtags m ∧ query_matches name value tag.
Proof.
  intros Hst%reachable_rep Hn Hv Hstr. unfold PDC_Server_get_kvtag_query_result, PDC_Server_query_kvtag_someta. rewrite quoted_string, strip_quoted. cbn [mbind option_bind].
  assert (∀ m, m ∈ all_listed st → ∀ tag, tag ∈ kvtags m → _is_matching_kvtag name PDC_STRING value tag = Some (does_match name value tag) ∧ (does_match name value tag = true ↔ query_matches name value tag)) as Hmatch.
  { intros m Hm tag Htag. apply (all_listed_spec st _ m Hst) in Hm. destruct (is_matching_spec name value tag Hn Hv) as (b & Eb & Hb); [by apply (Hstr (obj_id m) m)|]. unfold does_match. by rewrite Eb. }
  rewrite (mapM_total _ (λ m, (λ _, obj_id m) <$> filter (λ b, b = true) (does_match name value <$> kvtags m))).
  2:{ intros m Hm. rewrite (mapM_total _ (does_match name value)); [done|]. intros tag Htag. by apply (Hmatch m Hm). }
  cbn [mbind option_bind]. eexists. split; [done|]. intros id. rewrite elem_of_concat_fmap. split.
  - intros (m & Hm & (b & -> & [-> (tag & Etag & Htag)%list_elem_of_fmap]%list_elem_of_filter)%list_elem_of_fmap). exists m, tag. split; [by apply (all_listed_spec st _ m Hst)|]. split; [done|]. by apply (Hmatch m Hm tag Htag).
  - intros (m & tag & E & Htag & Hq). pose proof (all_listed_ids st _ id m Hst E) as Hid. assert (m ∈ all_listed st) as Hm by (apply (all_listed_spec st _ m Hst); by rewrite Hid).
    exists m. split; [done|]. apply list_elem_of_fmap. exists true. split; [done|]. apply list_elem_of_filter. split; [done|]. apply list_elem_of_fmap. exists tag. split; [|done]. symmetry. by apply (Hmatch m Hm tag Htag).
Qed.
End service.

(** * A server with one object *)

Module Run.
#[local] Existing Instance cleared_memory.
#[local] Instance listed_order : TableOrder := {| table_list := λ _ m, map_to_list m; table_list_perm := λ _ m, reflexivity _ |}.
#[local] Instance no_numbers : Numbers := {| get_number_from_string := λ _ _, None; cmp_func := λ _ _ _, 0 |}.

Definition data (name : string) (ts : Z) : pdc_metadata_transfer_t := Transfer 1 [98] name ts 0 1 (4, 0, 0, 0) [] [47] 0 0 0 0 no_transform.
Definition run (st : option meta_server) (r : request) : option meta_server := st ← st; fst <$> exec st r.
Definition create (name : string) (ts : Z) : request := CreateObject (data name ts) (pdc_hash_djb2 name) 0.
Definition color : pdc_kvtag_t := KvTag [99] PDC_STRING [114; 101; 100; 0].
Definition one : meta_server := default (start 1) (run (run (Some (start 1000000)) (create [97] 3)) (AddKvtag (pdc_hash_djb2 [97]) 1000000 color)).

Lemma create_served d : Z.of_nat (size (d_objs d)) < 15 → req_ok d (create [97] 3).
Proof.
  intros Hsize. eexists. split; [reflexivity|]. split; [split; [cbn; lia|split; [done|by apply (bool_decide_unpack _)]]|]. split; [done|]. split; [lia|]. by apply sharing_small.
Qed.
Lemma one_reachable : reachable one.
Proof.
  apply (reachable_step (default (start 1) (run (Some (start 1000000)) (create [97] 3))) (AddKvtag (pdc_hash_djb2 [97]) 1000000 color) _ 1); [|vm_compute; done|exact I|vm_compute; reflexivity].
  apply (reachable_step (start 1000000) (create [97] 3) _ 1000000); [by apply reachable_start|vm_compute; done| |vm_compute; reflexivity]. apply create_served. vm_compute. reflexivity.
Qed.
Lemma metadata_step_refines_witness : ∃ st' out, exec one (create [97] 3) = Some (st', out) ∧ dir_step (directory_of one) (create [97] 3) out (directory_of st') ∧ reachable st'.
Proof. apply (metadata_step_refines one (create [97] 3)); [exact one_reachable|vm_compute; done|]. apply create_served. vm_compute. reflexivity. Defined.
Lemma metadata_queries_answered_witness : find_metadata_by_id one 1000000 = d_objs (directory_of one) !! 1000000 ∧
  ∃ res, PDC_Server_get_partial_query_result one (Query 1 0 [32] [32] 0 0 0 [32]) = Some res ∧ NoDup res.
Proof.
  destruct (metadata_queries_answered one 1000000 [97] 3 (Query 1 0 [32] [32] 0 0 0 [32])) as (H1 & _ & res & H2 & _ & _ & H3);
    [exact one_reachable|done|by apply (bool_decide_unpack _)|done|lia|by apply (bool_decide_unpack _)|by apply (bool_decide_unpack _)| |].
  - intros i m E. apply elem_of_list_to_map_2 in E. revert E. assert (all_listed one = [with_kvtags (with_id (default (Metadata 0 [] [] 0 0 0 0 0 0 0 [] [] [] 0 [] 0 no_transform) (new_metadata (data [97] 3) 0)) 1000000) [color]]) as -> by (vm_compute; reflexivity).
    intros [= _ ->]%list_elem_of_singleton. by apply (bool_decide_unpack _).
  - split; [exact H1|]. exists res. split; [|exact H2]. apply H3. vm_compute. discriminate.
Defined.
Example red_is_found : PDC_Server_get_kvtag_query_result one [99] 0 (quoted [114; 42]) = Some [1000000].
Proof. vm_compute. reflexivity. Qed.

(** ** What goes wrong *)

(** A deletion that finds nothing is counted: the array of a query is too small. *)
Example failed_deletions_counted : PDC_Server_get_partial_query_result (default one (run (run (Some one) (DeleteById 5)) (DeleteById 5))) (Query 1 0 [32] [32] 0 0 0 [32]) = None.
Proof. vm_compute. reflexivity. Qed.
(** A tag that is set again keeps its old value. *)
Example tag_keeps_old_value : (st ← run (Some one) (AddKvtag (pdc_hash_djb2 [97]) 1000000 (KvTag [99] PDC_STRING [98; 0])); (λ r, snd (snd r)) <$> PDC_Server_get_kvtag_someta st (pdc_hash_djb2 [97]) 1000000 [99])
  = Some (Some ([99], [114; 101; 100; 0])).
Proof. vm_compute. reflexivity. Qed.
(** A container has room for 64 identifiers at first, however many it is given. *)
Example first_members_overflow : (st ← run (Some one) (CreateContainer 7 [99]); PDC_Server_container_add_objs st (seqZ 1 65) 1000001) = None.
Proof. vm_compute. reflexivity. Qed.
(** Two names with the same hash are one container. *)
Example containers_of_a_hash : (st ← run (Some one) (CreateContainer 7 [99]); snd <$> PDC_Server_create_container st 7 [100]) = Some 1000001.
Proof. vm_compute. reflexivity. Qed.
(** A changed time step is not in the filter: there are two objects of the same name and
    time step. *)
Definition many : option meta_server := foldl (λ st ts, run st (create [97] ts)) (Some (start 1000000)) (seqZ 1 66).
Example changed_time_step_not_filtered : (st ← run many (UpdateObject (pdc_hash_djb2 [97]) 1000000 (data [97] 500)); snd <$> exec st (create [97] 500)) = Some 1000066.
Proof. vm_compute. reflexivity. Qed.
Example unchanged_time_step_found : (st ← many; snd <$> exec st (create [97] 1)) = Some 0.
Proof. vm_compute. reflexivity. Qed.
End Run.
