(* ===== verification/MetadataRpc.v ===== *)
(** The remote procedures of the metadata of a server
    ([pdc_client_server_common.c], the callbacks [HG_TEST_RPC_CB]): each decodes its input,
    asks the tables ([MetadataTable]), and fills its reply. *)

From stdpp Require Import gmap.
From S2P Require Export RpcMessages.
From S2P Require Export MetadataService.
#[local] Open Scope Z_scope.

Definition ADD_OBJ : Z := 1.
Definition DEL_OBJ : Z := 2.
(** ["N/A"], ["PDC_NOOP"] *)
Definition not_available : string := [78; 47; 65].
Definition PDC_NOOP : string := [80; 68; 67; 95; 78; 79; 79; 80].

(** What is in memory that was not assigned, of the width it is read with. *)
Class Unassigned := unassigned : Z → Z.
Definition junk_u64 `{!Unassigned} (k : Z) : Z := u64 (unassigned k).
Definition junk_u32 `{!Unassigned} (k : Z) : Z := u32 (unassigned k).
Definition junk_i32 `{!Unassigned} (k : Z) : Z := i32 (unassigned k).
Definition junk_u8 `{!Unassigned} (k : Z) : Z := unassigned k mod 256.
Definition junk_i8 `{!Unassigned} (k : Z) : Z := unassigned k mod 256 - 128.

(** * Structures *)

(** What the tables take of the metadata of a message. *)
Definition transfer_of (t : RpcTypes.pdc_metadata_transfer_t) : pdc_metadata_transfer_t :=
  Transfer (pdc_metadata_transfer_user_id t) (pdc_metadata_transfer_app_name t) (pdc_metadata_transfer_obj_name t) (pdc_metadata_transfer_time_step t) (pdc_metadata_transfer_cont_id t)
    (pdc_metadata_transfer_ndim t) (pdc_metadata_transfer_dims0 t, pdc_metadata_transfer_dims1 t, pdc_metadata_transfer_dims2 t, pdc_metadata_transfer_dims3 t)
    (pdc_metadata_transfer_tags t) (pdc_metadata_transfer_data_location t) (pdc_metadata_transfer_data_server_id t) (pdc_metadata_transfer_region_partition t)
    (pdc_metadata_transfer_consistency t) (pdc_metadata_transfer_current_state t)
    (Transform (pdc_metadata_transfer_t_dtype t) (pdc_metadata_transfer_t_ndim t)
       [pdc_metadata_transfer_t_dims0 t; pdc_metadata_transfer_t_dims1 t; pdc_metadata_transfer_t_dims2 t; pdc_metadata_transfer_t_dims3 t] (pdc_metadata_transfer_t_meta_index t)).
Definition kvtag_of (t : RpcTypes.pdc_kvtag_t) : pdc_kvtag_t := KvTag (pdc_kvtag_name t) (pdc_kvtag_type t) (pdc_kvtag_value t).

Definition dim (l : list Z) (k : nat) : Z := nth k l 0.
(** The storage order of the state of an object is 0 on a server: nothing assigns it. *)
Definition PDC_metadata_t_to_transfer_t (m : pdc_metadata_t) : RpcTypes.pdc_metadata_transfer_t := {|
  pdc_metadata_transfer_user_id := user_id m;
  pdc_metadata_transfer_app_name := app_name m;
  pdc_metadata_transfer_obj_name := obj_name m;
  pdc_metadata_transfer_time_step := time_step m;
  pdc_metadata_transfer_cont_id := cont_id m;
  pdc_metadata_transfer_obj_id := obj_id m;
  pdc_metadata_transfer_data_type := data_type m;
  pdc_metadata_transfer_ndim := ndim m;
  pdc_metadata_transfer_dims0 := dim (dims m) 0;
  pdc_metadata_transfer_dims1 := dim (dims m) 1;
  pdc_metadata_transfer_dims2 := dim (dims m) 2;
  pdc_metadata_transfer_dims3 := dim (dims m) 3;
  pdc_metadata_transfer_tags := tags m;
  pdc_metadata_transfer_data_location := data_location m;
  pdc_metadata_transfer_data_server_id := data_server_id m;
  pdc_metadata_transfer_region_partition := region_partition m;
  pdc_metadata_transfer_consistency := consistency m;
  pdc_metadata_transfer_current_state := transform_state m;
  pdc_metadata_transfer_t_storage_order := 0;
  pdc_metadata_transfer_t_dtype := tr_dtype (current_state m);
  pdc_metadata_transfer_t_ndim := tr_ndim (current_state m);
  pdc_metadata_transfer_t_dims0 := dim (tr_dims (current_state m)) 0;
  pdc_metadata_transfer_t_dims1 := dim (tr_dims (current_state m)) 1;
  pdc_metadata_transfer_t_dims2 := dim (tr_dims (current_state m)) 2;
  pdc_metadata_transfer_t_dims3 := dim (tr_dims (current_state m)) 3;
  pdc_metadata_transfer_t_meta_index := tr_meta_index (current_state m);
|}.
(** Into metadata that were initialised ([PDC_metadata_init]). *)
Definition PDC_transfer_t_to_metadata_t (t : RpcTypes.pdc_metadata_transfer_t) : option pdc_metadata_t :=
  app ← strcpy OBJ_NAME_MAX (pdc_metadata_transfer_app_name t);
  name ← strcpy OBJ_NAME_MAX (pdc_metadata_transfer_obj_name t);
  tag ← strcpy TAG_LEN_MAX (pdc_metadata_transfer_tags t);
  loc ← strcpy ADDR_MAX (pdc_metadata_transfer_data_location t);
  Some (Metadata (pdc_metadata_transfer_user_id t) app name (pdc_metadata_transfer_time_step t) (pdc_metadata_transfer_data_type t) (pdc_metadata_transfer_obj_id t)
          (pdc_metadata_transfer_cont_id t) (pdc_metadata_transfer_data_server_id t) (pdc_metadata_transfer_region_partition t) (pdc_metadata_transfer_consistency t) tag [] loc
          (pdc_metadata_transfer_ndim t)
          [pdc_metadata_transfer_dims0 t; pdc_metadata_transfer_dims1 t; pdc_metadata_transfer_dims2 t; pdc_metadata_transfer_dims3 t]
          (pdc_metadata_transfer_current_state t)
          (if decide (pdc_metadata_transfer_current_state t = 0) then no_transform else t_transform (transfer_of t))).

Section handlers.
Context `{FM : !FreshMemory, TO : !TableOrder, NU : !Numbers, BK : !Bulk, UA : !Unassigned}.
Implicit Types (st : meta_server).

(** * Objects and containers *)

Definition gen_obj_id_cb st (i : gen_obj_id_in_t) : option (meta_server * gen_obj_id_out_t) :=
  '(st, id) ← PDC_insert_metadata_to_hash_table st (transfer_of (gen_obj_id_in_data i)) (gen_obj_id_in_hash_value i) (gen_obj_id_in_data_type i);
  Some (st, Build_gen_obj_id_out_t id).
Definition gen_cont_id_cb st (i : gen_cont_id_in_t) : option (meta_server * gen_cont_id_out_t) :=
  '(st, id) ← PDC_Server_create_container st (gen_cont_id_in_hash_value i) (gen_cont_id_in_cont_name i);
  Some (st, Build_gen_cont_id_out_t id).
Definition container_query_cb st (i : container_query_in_t) : option (meta_server * container_query_out_t) :=
  Some (st, Build_container_query_out_t (match PDC_Server_find_container_by_name st (container_query_in_cont_name i) with Some c => c_cont_id c | None => 0 end)).

(** The reply for an object that was not found. *)
Definition no_metadata : RpcTypes.pdc_metadata_transfer_t := {|
  pdc_metadata_transfer_user_id := -1;
  pdc_metadata_transfer_app_name := not_available;
  pdc_metadata_transfer_obj_name := not_available;
  pdc_metadata_transfer_time_step := -1;
  pdc_metadata_transfer_cont_id := 0;
  pdc_metadata_transfer_obj_id := 0;
  pdc_metadata_transfer_data_type := -1;
  pdc_metadata_transfer_ndim := junk_u64 0;
  pdc_metadata_transfer_dims0 := junk_u64 1;
  pdc_metadata_transfer_dims1 := junk_u64 2;
  pdc_metadata_transfer_dims2 := junk_u64 3;
  pdc_metadata_transfer_dims3 := junk_u64 4;
  pdc_metadata_transfer_tags := not_available;
  pdc_metadata_transfer_data_location := not_available;
  pdc_metadata_transfer_data_server_id := 0;
  pdc_metadata_transfer_region_partition := junk_u8 5;
  pdc_metadata_transfer_consistency := junk_u8 6;
  pdc_metadata_transfer_current_state := junk_i32 7;
  pdc_metadata_transfer_t_storage_order := junk_i8 8;
  pdc_metadata_transfer_t_dtype := junk_i8 9;
  pdc_metadata_transfer_t_ndim := junk_u64 10;
  pdc_metadata_transfer_t_dims0 := junk_u64 11;
  pdc_metadata_transfer_t_dims1 := junk_u64 12;
  pdc_metadata_transfer_t_dims2 := junk_u64 13;
  pdc_metadata_transfer_t_dims3 := junk_u64 14;
  pdc_metadata_transfer_t_meta_index := junk_i32 15;
|}.
Definition metadata_query_cb st (i : metadata_query_in_t) : option (meta_server * metadata_query_out_t) :=
  '(_, res) ← PDC_Server_search_with_name_timestep st (metadata_query_in_obj_name i) (metadata_query_in_hash_value i) (u32 (metadata_query_in_time_step i));
  Some (st, Build_metadata_query_out_t (match res with Some m => PDC_metadata_t_to_transfer_t m | None => no_metadata end)).
Definition metadata_delete_by_id_cb st (i : metadata_delete_by_id_in_t) : option (meta_server * metadata_delete_by_id_out_t) :=
  '(st, (_, out)) ← PDC_Server_delete_metadata_by_id st (metadata_delete_by_id_in_obj_id i); Some (st, Build_metadata_delete_by_id_out_t out).
Definition metadata_delete_cb st (i : metadata_delete_in_t) : option (meta_server * metadata_delete_out_t) :=
  '(st, out) ← PDC_delete_metadata_from_hash_table st (metadata_delete_in_obj_name i) (metadata_delete_in_time_step i) (metadata_delete_in_hash_value i); Some (st, Build_metadata_delete_out_t out).
Definition metadata_update_cb st (i : metadata_update_in_t) : option (meta_server * metadata_update_out_t) :=
  '(st, out) ← PDC_Server_update_metadata st (metadata_update_in_hash_value i) (metadata_update_in_obj_id i) (transfer_of (metadata_update_in_new_metadata i)); Some (st, Build_metadata_update_out_t out).

(** * Tags *)

Definition metadata_add_tag_cb st (i : metadata_add_tag_in_t) : option (meta_server * metadata_add_tag_out_t) :=
  '(st, out) ← PDC_Server_add_tag_metadata st (metadata_add_tag_in_hash_value i) (metadata_add_tag_in_obj_id i) (metadata_add_tag_in_new_tag i); Some (st, Build_metadata_add_tag_out_t out).
Definition metadata_add_kvtag_cb st (i : metadata_add_kvtag_in_t) : option (meta_server * metadata_add_tag_out_t) :=
  if decide (strcmp (pdc_kvtag_name (metadata_add_kvtag_in_kvtag i)) PDC_NOOP ≠ 0) then
    '(st, out) ← PDC_Server_add_kvtag_someta st (metadata_add_kvtag_in_hash_value i) (metadata_add_kvtag_in_obj_id i) (kvtag_of (metadata_add_kvtag_in_kvtag i));
    Some (st, Build_metadata_add_tag_out_t out)
  else Some (st, Build_metadata_add_tag_out_t 1).
(** The reply is cleared first; a name that is not there is sent as an empty one. *)
Definition metadata_get_kvtag_cb st (i : metadata_get_kvtag_in_t) : option (meta_server * metadata_get_kvtag_out_t) :=
  '(st, (out, found)) ← PDC_Server_get_kvtag_someta st (metadata_get_kvtag_in_hash_value i) (metadata_get_kvtag_in_obj_id i) (metadata_get_kvtag_in_key i);
  Some (st, Build_metadata_get_kvtag_out_t out (match found with Some (name, value) => Build_pdc_kvtag_t name (lenZ value) 0 value | None => Build_pdc_kvtag_t [] 0 0 [] end)).
Definition metadata_del_kvtag_cb st (i : metadata_get_kvtag_in_t) : option (meta_server * metadata_add_tag_out_t) :=
  '(st, out) ← PDC_Server_del_kvtag_someta st (metadata_get_kvtag_in_hash_value i) (metadata_get_kvtag_in_obj_id i) (metadata_get_kvtag_in_key i); Some (st, Build_metadata_add_tag_out_t out).
(** The identifiers go back in memory that the client pulls; [elapsed] and [memory] are
    the time and the memory of the server.  [None]: the query is not valid. *)
Definition query_kvtag_cb (elapsed memory : Z) st (i : RpcTypes.pdc_kvtag_t) : option (meta_server * metadata_query_transfer_out_t) :=
  value ← c_string (pdc_kvtag_value i);
  ids ← PDC_Server_get_kvtag_query_result st (pdc_kvtag_name i) (pdc_kvtag_type i) value;
  Some (st, if decide (ids = []) then Build_metadata_query_transfer_out_t 0 elapsed memory HG_BULK_NULL
            else Build_metadata_query_transfer_out_t (i32 (lenZ ids)) elapsed memory (HG_Bulk_create (u64s_bytes ids))).

(** * Members and tags of containers *)

(** [cont_add_del_objs_bulk_cb], after the identifiers were pulled. *)
Definition cont_add_del_objs_rpc_cb st (i : cont_add_del_objs_rpc_in_t) : option (meta_server * cont_add_del_objs_rpc_out_t) :=
  ids ← load_u64s (HG_Bulk_pull (cont_add_del_objs_rpc_in_bulk_handle i)) 0 (Z.to_nat (cont_add_del_objs_rpc_in_cnt i));
  let reply st ret := Some (st, Build_cont_add_del_objs_rpc_out_t (if decide (ret = SUCCEED) then 1 else 0)) in
  if decide (cont_add_del_objs_rpc_in_op i = ADD_OBJ) then '(st, ret) ← PDC_Server_container_add_objs st ids (cont_add_del_objs_rpc_in_cont_id i); reply st ret
  else if decide (cont_add_del_objs_rpc_in_op i = DEL_OBJ) then let (st, ret) := PDC_Server_container_del_objs st ids (cont_add_del_objs_rpc_in_cont_id i) in reply st ret
  else reply st FAIL.
Definition cont_add_tags_rpc_cb st (i : cont_add_tags_rpc_in_t) : option (meta_server * pdc_int_ret_t) :=
  '(st, ret) ← PDC_Server_container_add_tags st (cont_add_tags_rpc_in_cont_id i) (cont_add_tags_rpc_in_tags i); Some (st, Build_pdc_int_ret_t (if decide (ret ≠ SUCCEED) then -1 else 1)).
End handlers.
