(* ===== verification/MetadataClient.v ===== *)
(** The metadata operations of a client ([pdc_client_connect.c]): the server that an
    object or a container is on, the request that is sent there, and what is made of the
    reply.  The servers are a list; one request is served after the other. *)

From stdpp Require Import gmap.
From S2P Require Export MetadataRpc.
#[local] Open Scope Z_scope.

Definition PDC_SERVER_ID_INTERVEL : Z := 1000000000.

(** * Routing *)

Definition PDC_get_server_by_obj_id (obj_id n_server : Z) : Z := u32 (u32 (obj_id / PDC_SERVER_ID_INTERVEL) - 1) mod n_server.
(** [hash_name_value + time_step], of [uint32_t]. *)
Definition server_of_name (name : string) (ts n_server : Z) : Z := u32 (pdc_hash_djb2 name + ts) mod n_server.

(** * What a client has *)

(** The properties that an object is created with ([_pdc_obj_prop]); [None]: not set. *)
Record obj_prop := ObjProp {
  op_user_id : Z;
  op_time_step : Z;
  op_type : Z;
  op_region_partition : Z;
  op_ndim : Z;
  op_dims : list Z;
  op_tags : option string;
  op_app_name : option string;
  op_data_loc : option string;
}.
(** An object or a container that the client has opened ([pdc_obj_info], [pdc_cont_info]). *)
Record handle := Opened { h_meta_id : Z; h_name : string }.

(** ["Noname"] *)
Definition Noname : string := [78; 111; 110; 97; 109; 101].
Definition blank_string : string := [32].

Section client.
Context `{FM : !FreshMemory, TO : !TableOrder, NU : !Numbers, BK : !Bulk, MC : !Mercury, UA : !Unassigned}.
(** What is in a structure before a message is received into it. *)
Context (old_memory : ∀ k, message k).
Implicit Types (S : list meta_server).

Definition pdc_server_num_g S : Z := lenZ S.

(** [HG_Create], [HG_Forward] and the reply, on the server with the number [server_id]. *)
Definition forward (r : rpc) (serve : meta_server → message (rpc_in r) → option (meta_server * message (rpc_out r))) S (server_id : Z) (i : message (rpc_in r)) : option (list meta_server * message (rpc_out r)) :=
  st ← getZ S server_id;
  '(st, out) ← rpc_call r serve (old_memory (rpc_in r)) (old_memory (rpc_out r)) st i;
  Some (<[Z.to_nat server_id := st]> S, out).

(** * Objects *)

Definition dim_of (p : obj_prop) (k : nat) : Z := if decide (Z.of_nat k < op_ndim p) then dim (op_dims p) k else 0.
Definition new_object (name : string) (cont_id : Z) (p : obj_prop) (data_server : Z) : gen_obj_id_in_t :=
  Build_gen_obj_id_in_t {|
    pdc_metadata_transfer_user_id := i32 (op_user_id p);
    pdc_metadata_transfer_app_name := default Noname (op_app_name p);
    pdc_metadata_transfer_obj_name := name;
    pdc_metadata_transfer_time_step := i32 (op_time_step p);
    pdc_metadata_transfer_cont_id := cont_id;
    pdc_metadata_transfer_obj_id := 0;
    pdc_metadata_transfer_data_type := 0;
    pdc_metadata_transfer_ndim := op_ndim p;
    pdc_metadata_transfer_dims0 := dim_of p 0;
    pdc_metadata_transfer_dims1 := dim_of p 1;
    pdc_metadata_transfer_dims2 := dim_of p 2;
    pdc_metadata_transfer_dims3 := dim_of p 3;
    pdc_metadata_transfer_tags := default blank_string (op_tags p);
    pdc_metadata_transfer_data_location := default blank_string (op_data_loc p);
    pdc_metadata_transfer_data_server_id := data_server;
    pdc_metadata_transfer_region_partition := op_region_partition p;
    pdc_metadata_transfer_consistency := 0;
    pdc_metadata_transfer_current_state := 0;
    pdc_metadata_transfer_t_storage_order := 0;
    pdc_metadata_transfer_t_dtype := 0;
    pdc_metadata_transfer_t_ndim := 0;
    pdc_metadata_transfer_t_dims0 := 0;
    pdc_metadata_transfer_t_dims1 := 0;
    pdc_metadata_transfer_t_dims2 := 0;
    pdc_metadata_transfer_t_dims3 := 0;
    pdc_metadata_transfer_t_meta_index := 0;
  |} (pdc_hash_djb2 name) (op_type p).
(** The result, the identifier, and the number of the metadata server. *)
Definition PDC_Client_send_name_recv_id S (name : string) (cont_id : Z) (p : obj_prop) (data_server : Z) : option (list meta_server * (perr_t * Z * Z)) :=
  let i := new_object name cont_id p data_server in
  let server_id := server_of_name name (pdc_metadata_transfer_time_step (gen_obj_id_in_data i)) (pdc_server_num_g S) in
  '(S, out) ← forward rpc_gen_obj_id gen_obj_id_cb S server_id i;
  Some (S, if decide (gen_obj_id_out_obj_id out = 0) then (FAIL, 0, server_id) else (SUCCEED, gen_obj_id_out_obj_id out, server_id)).

(** The metadata, and their server.  [None] when there are none: the message of the log
    reads a field of them. *)
Definition PDC_Client_query_metadata_name_timestep S (name : string) (ts : Z) : option (list meta_server * (pdc_metadata_t * Z)) :=
  let server_id := server_of_name name ts (pdc_server_num_g S) in
  '(S, out) ← forward rpc_metadata_query metadata_query_cb S server_id (Build_metadata_query_in_t name (pdc_hash_djb2 name) ts);
  let t := metadata_query_out_ret out in
  if decide (pdc_metadata_transfer_user_id t = -1 ∧ pdc_metadata_transfer_obj_id t = 0 ∧ pdc_metadata_transfer_time_step t = -1) then None
  else m ← PDC_transfer_t_to_metadata_t t; Some (S, (m, server_id)).

Definition PDC_Client_delete_metadata_by_id S (obj_id : Z) : option (list meta_server * perr_t) :=
  '(S, out) ← forward rpc_metadata_delete_by_id metadata_delete_by_id_cb S (PDC_get_server_by_obj_id obj_id (pdc_server_num_g S)) (Build_metadata_delete_by_id_in_t obj_id);
  Some (S, if decide (metadata_delete_by_id_out_ret out < 0) then FAIL else SUCCEED).
(** [PDC_Client_del_metadata], of an object or a container that was opened. *)
Definition PDC_Client_del_metadata S (h : handle) : option (list meta_server * perr_t) := PDC_Client_delete_metadata_by_id S (h_meta_id h).
(** A deletion that finds nothing is only printed. *)
Definition PDC_Client_delete_metadata S (name : string) (p : obj_prop) : option (list meta_server * perr_t) :=
  let ts := i32 (op_time_step p) in
  '(S, _) ← forward rpc_metadata_delete metadata_delete_cb S (server_of_name name ts (pdc_server_num_g S)) (Build_metadata_delete_in_t name ts (pdc_hash_djb2 name));
  Some (S, SUCCEED).

Definition or_blank (s : string) : string := if decide (s = []) then blank_string else s.
(** Four fields of the message are not assigned.  [storage_order]: of the state of [new].
    The tags are those of [new] unless they are in the same memory as the old ones. *)
Definition updated_object (m new : pdc_metadata_t) (storage_order : Z) (same_tags : bool) : RpcTypes.pdc_metadata_transfer_t := {|
  pdc_metadata_transfer_user_id := 0;
  pdc_metadata_transfer_app_name := or_blank (app_name new);
  pdc_metadata_transfer_obj_name := obj_name m;
  pdc_metadata_transfer_time_step := time_step new;
  pdc_metadata_transfer_cont_id := junk_u64 20;
  pdc_metadata_transfer_obj_id := obj_id new;
  pdc_metadata_transfer_data_type := data_type new;
  pdc_metadata_transfer_ndim := ndim new;
  pdc_metadata_transfer_dims0 := dim (dims new) 0;
  pdc_metadata_transfer_dims1 := dim (dims new) 1;
  pdc_metadata_transfer_dims2 := dim (dims new) 2;
  pdc_metadata_transfer_dims3 := dim (dims new) 3;
  pdc_metadata_transfer_tags := if same_tags then blank_string else or_blank (tags new);
  pdc_metadata_transfer_data_location := or_blank (data_location new);
  pdc_metadata_transfer_data_server_id := junk_u32 21;
  pdc_metadata_transfer_region_partition := junk_u8 22;
  pdc_metadata_transfer_consistency := junk_u8 23;
  pdc_metadata_transfer_current_state := transform_state new;
  pdc_metadata_transfer_t_storage_order := storage_order;
  pdc_metadata_transfer_t_dtype := tr_dtype (current_state new);
  pdc_metadata_transfer_t_ndim := tr_ndim (current_state new);
  pdc_metadata_transfer_t_dims0 := dim (tr_dims (current_state new)) 0;
  pdc_metadata_transfer_t_dims1 := dim (tr_dims (current_state new)) 1;
  pdc_metadata_transfer_t_dims2 := dim (tr_dims (current_state new)) 2;
  pdc_metadata_transfer_t_dims3 := dim (tr_dims (current_state new)) 3;
  pdc_metadata_transfer_t_meta_index := tr_meta_index (current_state new);
|}.
Definition PDC_Client_update_metadata S (m new : pdc_metadata_t) (storage_order : Z) (same_tags : bool) : option (list meta_server * perr_t) :=
  '(S, out) ← forward rpc_metadata_update metadata_update_cb S (server_of_name (obj_name m) (time_step m) (pdc_server_num_g S))
                (Build_metadata_update_in_t (obj_id m) (pdc_hash_djb2 (obj_name m)) (updated_object m new storage_order same_tags));
  Some (S, if decide (metadata_update_out_ret out = 1) then SUCCEED else FAIL).

(** * Tags *)

Definition PDC_Client_add_tag S (h : handle) (tag : string) : option (list meta_server * perr_t) :=
  if decide (tag = []) then Some (S, FAIL) else
  '(S, out) ← forward rpc_metadata_add_tag metadata_add_tag_cb S (PDC_get_server_by_obj_id (h_meta_id h) (pdc_server_num_g S)) (Build_metadata_add_tag_in_t (h_meta_id h) (pdc_hash_djb2 (h_name h)) tag);
  Some (S, if decide (metadata_add_tag_out_ret out = 1) then SUCCEED else FAIL).
(** Of an object or a container; a failure is only printed. *)
Definition PDC_add_kvtag S (h : handle) (name : string) (type : Z) (value : list byte) : option (list meta_server * perr_t) :=
  if decide (lenZ value = 0) then Some (S, FAIL) else
  '(S, _) ← forward rpc_metadata_add_kvtag metadata_add_kvtag_cb S (PDC_get_server_by_obj_id (h_meta_id h) (pdc_server_num_g S))
              (Build_metadata_add_kvtag_in_t (h_meta_id h) (pdc_hash_djb2 (h_name h)) (Build_pdc_kvtag_t name (lenZ value) type value));
  Some (S, SUCCEED).
(** The size and the value; [None]: the pointer is [NULL]. *)
Definition PDC_get_kvtag S (h : handle) (key : string) : option (list meta_server * (perr_t * (Z * option (list byte)))) :=
  '(S, out) ← forward rpc_metadata_get_kvtag metadata_get_kvtag_cb S (PDC_get_server_by_obj_id (h_meta_id h) (pdc_server_num_g S)) (Build_metadata_get_kvtag_in_t (h_meta_id h) (pdc_hash_djb2 (h_name h)) key);
  let t := metadata_get_kvtag_out_kvtag out in
  Some (S, (SUCCEED, (pdc_kvtag_size t, if decide (0 < pdc_kvtag_size t) then Some (pdc_kvtag_value t) else None))).
Definition PDCtag_delete S (h : handle) (key : string) : option (list meta_server * perr_t) :=
  '(S, _) ← forward rpc_metadata_del_kvtag metadata_del_kvtag_cb S (PDC_get_server_by_obj_id (h_meta_id h) (pdc_server_num_g S)) (Build_metadata_get_kvtag_in_t (h_meta_id h) (pdc_hash_djb2 (h_name h)) key);
  Some (S, SUCCEED).

(** * Containers *)

Definition PDC_Client_create_cont_id S (name : string) : option (list meta_server * (perr_t * Z)) :=
  let hash := pdc_hash_djb2 name in
  '(S, out) ← forward rpc_gen_cont_id gen_cont_id_cb S (hash mod pdc_server_num_g S) (Build_gen_cont_id_in_t name hash);
  Some (S, if decide (gen_cont_id_out_cont_id out = 0) then (FAIL, 0) else (SUCCEED, gen_cont_id_out_cont_id out)).
Definition PDC_Client_query_container_name S (name : string) : option (list meta_server * (perr_t * Z)) :=
  let hash := pdc_hash_djb2 name in
  '(S, out) ← forward rpc_container_query container_query_cb S (hash mod pdc_server_num_g S) (Build_container_query_in_t name hash);
  Some (S, (SUCCEED, container_query_out_cont_id out)).
(** The reply is not looked at. *)
Definition PDC_Client_add_del_objects_to_container S (rank : Z) (ids : list Z) (cont_meta_id op : Z) : option (list meta_server * perr_t) :=
  '(S, _) ← forward rpc_cont_add_del_objs_rpc cont_add_del_objs_rpc_cb S (PDC_get_server_by_obj_id cont_meta_id (pdc_server_num_g S))
              (Build_cont_add_del_objs_rpc_in_t op (lenZ ids) rank cont_meta_id (HG_Bulk_create (u64s_bytes ids)));
  Some (S, SUCCEED).
Definition PDC_Client_add_objects_to_container S (rank : Z) (objs : list handle) (cont : handle) : option (list meta_server * perr_t) :=
  PDC_Client_add_del_objects_to_container S rank (h_meta_id <$> objs) (h_meta_id cont) ADD_OBJ.
Definition PDC_Client_del_objects_to_container S (rank : Z) (objs : list handle) (cont : handle) : option (list meta_server * perr_t) :=
  PDC_Client_add_del_objects_to_container S rank (h_meta_id <$> objs) (h_meta_id cont) DEL_OBJ.
Definition PDC_Client_add_tags_to_container S (cont : handle) (tags : string) : option (list meta_server * perr_t) :=
  '(S, _) ← forward rpc_cont_add_tags_rpc cont_add_tags_rpc_cb S (PDC_get_server_by_obj_id (h_meta_id cont) (pdc_server_num_g S)) (Build_cont_add_tags_rpc_in_t (h_meta_id cont) tags);
  Some (S, SUCCEED).

(** * Queries for tags *)

(** The identifiers that one server answers ([kvtag_query_bulk_cb]); [elapsed] and
    [memory] are of the server.  [value]: [None] is [NULL]. *)
Definition PDC_Client_query_kvtag_server (elapsed memory : Z) S (server_id : Z) (name : option string) (type : Z) (value : option (list byte)) : option (list meta_server * list Z) :=
  let i := match value with
           | Some v => Build_pdc_kvtag_t (default blank_string name) (lenZ v) type v
           | None => Build_pdc_kvtag_t (default blank_string name) 1 PDC_STRING blank_string
           end in
  '(S, out) ← forward rpc_query_kvtag (query_kvtag_cb elapsed memory) S server_id i;
  if decide (metadata_query_transfer_out_ret out = 0) then Some (S, [])
  else ids ← load_u64s (HG_Bulk_pull (metadata_query_transfer_out_bulk_handle out)) 0 (Z.to_nat (metadata_query_transfer_out_ret out)); Some (S, ids).
(** One server after the other; the identifiers in one array. *)
Definition PDC_Client_query_kvtag (elapsed memory : Z) S (name : option string) (type : Z) (value : option (list byte)) : option (list meta_server * list Z) :=
  forZ (length S) 0 (λ i '(S, ids), '(S, ids') ← PDC_Client_query_kvtag_server elapsed memory S i name type value; Some (S, ids ++ ids')) (S, []).
End client.
