(* ===== verification/MetadataCluster.v ===== *)
(** All metadata servers together: what each of them holds ([server_ok]), the directory
    that they make ([cluster_directory]), and that a request to one server changes the
    directory as it changes that server. *)

From stdpp Require Import gmap.
From S2P Require Export MetadataClient.
#[local] Open Scope Z_scope.

(** * Maps that are spread over servers *)

Section spread.
Context {A B : Type} (f : A → gmap Z B).
Implicit Types (l : list A) (k : Z) (b : B).

Definition spread l : gmap Z B := foldr (λ x m, f x ∪ m) ∅ l.
Definition separated l : Prop := ∀ i j x y k, l !! i = Some x → l !! j = Some y → is_Some (f x !! k) → is_Some (f y !! k) → i = j.

Lemma spread_some l k b : separated l → spread l !! k = Some b ↔ ∃ i x, l !! i = Some x ∧ f x !! k = Some b.
Proof.
  induction l as [|x l IH]; intros Hs; cbn.
  - rewrite lookup_empty. split; [done|]. by intros (i & x & ? & _).
  - assert (separated l) as Hs' by (intros i j y z k' Hi Hj Hy Hz; assert (S i = S j) by (by apply (Hs (S i) (S j) y z k')); lia).
    rewrite lookup_union_Some_raw, (IH Hs'). split.
    + intros [E|[_ (i & y & Ei & E)]]; [by exists O, x|by exists (S i), y].
    + intros ([|i] & y & Ei & E); cbn in Ei; [injection Ei as ->; by left|]. right. split; [|by exists i, y]. destruct (f x !! k) as [b'|] eqn:E'; [|done].
      discriminate (Hs O (S i) x y k eq_refl Ei ltac:(by eexists) ltac:(by eexists)).
Qed.
Lemma spread_none l k : separated l → (∀ i x, l !! i = Some x → f x !! k = None) → spread l !! k = None.
Proof. intros Hs H. destruct (spread l !! k) as [b|] eqn:E; [|done]. apply (spread_some l k b Hs) in E as (i & x & Ei & E). specialize (H i x Ei). congruence. Qed.

(** One element changes. *)
Section update.
Context (l : list A) (i : nat) (x x' : A).
Hypothesis (Hi : l !! i = Some x) (Hs : separated l) (Hs' : separated (<[i := x']> l)).

Lemma updated_lookup j y : <[i := x']> l !! j = Some y ↔ (j = i ∧ y = x') ∨ (j ≠ i ∧ l !! j = Some y).
Proof. pose proof (lookup_lt_Some _ _ _ Hi). rewrite list_lookup_insert_Some. split; [intros [(-> & -> & _)|[? ?]]; auto|intros [[-> ->]|[? ?]]; auto]. Qed.
Lemma spread_same : f x' = f x → spread (<[i := x']> l) = spread l.
Proof.
  intros E. apply map_eq. intros k. apply option_eq. intros b. rewrite !spread_some by done. setoid_rewrite updated_lookup. split.
  - intros (j & y & [[-> ->]|[_ Ej]] & Ey); [exists i, x; by rewrite <-E|by exists j, y].
  - intros (j & y & Ej & Ey). destruct (decide (j = i)) as [->|]; [|exists j, y; auto]. rewrite Hi in Ej. injection Ej as ->. exists i, x'. rewrite E. auto.
Qed.
Lemma spread_insert k b : f x' = <[k := b]> (f x) → spread (<[i := x']> l) = <[k := b]> (spread l).
Proof.
  intros E. apply map_eq. intros k'. apply option_eq. intros b'. rewrite lookup_insert_Some, !spread_some by done. setoid_rewrite updated_lookup. split.
  - intros (j & y & [[-> ->]|[Hj Ej]] & Ey); [rewrite E, lookup_insert_Some in Ey; destruct Ey as [?|[? ?]]; [by left|right; split; [done|by exists i, x]]|].
    right. split; [|by exists j, y]. intros <-. apply Hj. symmetry. apply (Hs' i j x' y k); [by apply updated_lookup; left|by apply updated_lookup; right|by rewrite E, lookup_insert_eq|by eexists].
  - intros [[<- <-]|[Hk (j & y & Ej & Ey)]]; [exists i, x'; rewrite E, lookup_insert_eq; auto|]. destruct (decide (j = i)) as [->|]; [|exists j, y; auto].
    rewrite Hi in Ej. injection Ej as ->. exists i, x'. rewrite E, lookup_insert_ne; auto.
Qed.
Lemma spread_delete k : (∀ j y, l !! j = Some y → is_Some (f y !! k) → j = i) → f x' = delete k (f x) → spread (<[i := x']> l) = delete k (spread l).
Proof.
  intros Hk E. apply map_eq. intros k'. apply option_eq. intros b'. rewrite lookup_delete_Some, !spread_some by done. setoid_rewrite updated_lookup. split.
  - intros (j & y & [[-> ->]|[Hj Ej]] & Ey); [rewrite E, lookup_delete_Some in Ey; destruct Ey; split; [done|by exists i, x]|].
    split; [|by exists j, y]. intros <-. apply Hj. apply (Hk j y Ej). by eexists.
  - intros [Hk' (j & y & Ej & Ey)]. destruct (decide (j = i)) as [->|]; [|exists j, y; auto]. rewrite Hi in Ej. injection Ej as ->. exists i, x'. rewrite E, lookup_delete_ne; auto.
Qed.
Lemma spread_one k : (∀ j y, l !! j = Some y → is_Some (f y !! k) → j = i) → spread l !! k = f x !! k.
Proof.
  intros Hk. apply option_eq. intros b. rewrite spread_some by done. split; [|by exists i, x]. intros (j & y & Ej & Ey).
  assert (j = i) as -> by (apply (Hk j y Ej); by eexists). congruence.
Qed.
End update.
End spread.

(** * Where things are *)

Lemma hash_range s : 0 ≤ pdc_hash_djb2 s < W32.
Proof.
  unfold pdc_hash_djb2. assert (0 ≤ 5381 < W32) as H by done. revert H. generalize 5381. induction s as [|c s IH]; intros a Ha; cbn [foldl]; [done|]. apply IH. apply Z.mod_pos_bound. done.
Qed.
Definition interval (i : nat) (id : Z) : Prop := (Z.of_nat i + 1) * PDC_SERVER_ID_INTERVEL ≤ id < (Z.of_nat i + 2) * PDC_SERVER_ID_INTERVEL.
Lemma interval_inj i j id : interval i id → interval j id → i = j.
Proof. unfold interval, PDC_SERVER_ID_INTERVEL. lia. Qed.
Lemma interval_route i id n : interval i id → Z.of_nat i < n → n < 2147483648 → PDC_get_server_by_obj_id id n = Z.of_nat i.
Proof.
  unfold interval, PDC_get_server_by_obj_id, PDC_SERVER_ID_INTERVEL. intros Hid Hi Hn. assert (id / 1000000000 = Z.of_nat i + 1) as -> by (symmetry; apply Z.div_unique with (id - (Z.of_nat i + 1) * 1000000000); lia).
  unfold u32, W32. rewrite (Z.mod_small (Z.of_nat i + 1)) by lia. rewrite (Z.mod_small (_ - 1)) by lia. rewrite Z.mod_small; lia.
Qed.
Lemma server_of_name_range name ts n : 0 < n → 0 ≤ server_of_name name ts n < n.
Proof. intros Hn. by apply Z.mod_pos_bound. Qed.

Section cluster.
Context `{FM : !FreshMemory, TO : !TableOrder, NU : !Numbers, BK : !Bulk, MC : !Mercury, UA : !Unassigned}.
Implicit Types (S : list meta_server) (st : meta_server) (d : directory) (m : pdc_metadata_t) (c : pdc_cont_hash_table_entry_t).

(** * What a server holds *)

Definition kvtag_fits (t : pdc_kvtag_t) : Prop := Forall (λ ch, ch ≠ 0) (kv_name t) ∧ lenZ (kv_value t) < W32.
(** Metadata that fit into messages and into the structures of the client. *)
Record meta_fits m : Prop := {
  mf_wire : sendable hg_proc_pdc_metadata_transfer_t (PDC_metadata_t_to_transfer_t m);
  mf_app : lenZ (app_name m) < OBJ_NAME_MAX;
  mf_name : lenZ (obj_name m) < OBJ_NAME_MAX;
  mf_tags : lenZ (tags m) < TAG_LEN_MAX;
  mf_location : lenZ (data_location m) < ADDR_MAX;
  mf_dims : length (dims m) = 4%nat;
  mf_tr_dims : length (tr_dims (current_state m)) = 4%nat;
  mf_state : transform_state m = 0 → current_state m = no_transform;
  mf_kvtags : Forall kvtag_fits (kvtags m);
}.
(** An object is on the server of its name and time step, a container on that of its
    name; identifiers come from the interval of the server. *)
Definition obj_ok (n : Z) (i : nat) (id : Z) m : Prop := (Z.of_nat i + 1) * PDC_SERVER_ID_INTERVEL ≤ id ∧ server_of_name (obj_name m) (time_step m) n = Z.of_nat i ∧ meta_fits m.
Definition cont_ok (n : Z) (i : nat) (k : Z) c : Prop :=
  (Z.of_nat i + 1) * PDC_SERVER_ID_INTERVEL ≤ c_cont_id c ∧ k mod n = Z.of_nat i ∧ k = pdc_hash_djb2 (c_cont_name c) ∧ Forall kvtag_fits (c_kvtags c).
Record server_ok (n : Z) (i : nat) st : Prop := {
  so_reachable : reachable st;
  so_seq : (Z.of_nat i + 1) * PDC_SERVER_ID_INTERVEL ≤ pdc_id_seq_g st ≤ (Z.of_nat i + 2) * PDC_SERVER_ID_INTERVEL;
  so_objs : ∀ id m, d_objs (directory_of st) !! id = Some m → obj_ok n i id m;
  so_conts : ∀ k c, d_conts (directory_of st) !! k = Some c → cont_ok n i k c;
}.
Record cluster_ok S : Prop := {
  co_servers : 0 < lenZ S < 2147483647;
  co_ok : ∀ i st, S !! i = Some st → server_ok (lenZ S) i st;
}.
(** Servers that have just started ([PDC_Server_init]: the first identifier of the one
    with rank i). *)
Definition start_cluster (n : nat) : list meta_server := (λ i, start ((Z.of_nat i + 1) * PDC_SERVER_ID_INTERVEL)) <$> seq 0 n.

(** The directory of all servers. *)
Definition cluster_directory S : directory := Dir (spread (d_objs ∘ directory_of) S) (spread (d_conts ∘ directory_of) S).

Lemma objs_interval n i st id m : server_ok n i st → d_objs (directory_of st) !! id = Some m → interval i id.
Proof.
  intros Hok E. destruct (so_objs _ _ _ Hok id m E) as (Hlo & _). destruct (reachable_rep st (so_reachable _ _ _ Hok)) as (_ & _ & _ & Hids & _). specialize (Hids id ltac:(by eexists)).
  pose proof (so_seq _ _ _ Hok). unfold interval. lia.
Qed.
Lemma conts_interval n i st k c : server_ok n i st → d_conts (directory_of st) !! k = Some c → interval i (c_cont_id c).
Proof.
  intros Hok E. destruct (so_conts _ _ _ Hok k c E) as (Hlo & _). destruct (reachable_rep st (so_reachable _ _ _ Hok)) as (_ & _ & _ & _ & Hc). destruct (Hc k c E) as (? & _).
  pose proof (so_seq _ _ _ Hok). unfold interval. lia.
Qed.
Lemma objs_separated S : cluster_ok S → separated (d_objs ∘ directory_of) S.
Proof. intros Hok i j x y k Hi Hj [m Em] [m' Em']. apply (interval_inj i j k); eapply objs_interval; eauto using co_ok. Qed.
Lemma conts_separated S : cluster_ok S → separated (d_conts ∘ directory_of) S.
Proof.
  intros Hok i j x y k Hi Hj [c Ec] [c' Ec']. destruct (so_conts _ _ _ (co_ok _ Hok i x Hi) k c Ec) as (_ & E & _), (so_conts _ _ _ (co_ok _ Hok j y Hj) k c' Ec') as (_ & E' & _). lia.
Qed.
#[local] Hint Resolve objs_separated conts_separated : core.

(** What the directory says of an identifier or a name is what its server says. *)
Lemma cluster_obj S i st id : cluster_ok S → S !! i = Some st → interval i id → d_objs (cluster_directory S) !! id = d_objs (directory_of st) !! id.
Proof.
  intros Hok Hi Hid. cbn. apply (spread_one (d_objs ∘ directory_of) S i st Hi); [auto|]. intros j y Hj [m Em]. apply (interval_inj j i id); [|done]. eapply objs_interval; eauto using co_ok.
Qed.
Lemma cluster_cont S i st k : cluster_ok S → S !! i = Some st → k mod lenZ S = Z.of_nat i → d_conts (cluster_directory S) !! k = d_conts (directory_of st) !! k.
Proof.
  intros Hok Hi Hk. cbn. apply (spread_one (d_conts ∘ directory_of) S i st Hi); [auto|]. intros j y Hj [c Ec]. destruct (so_conts _ _ _ (co_ok _ Hok j y Hj) k c Ec) as (_ & E & _). lia.
Qed.
Lemma cluster_obj_some S id m : cluster_ok S → d_objs (cluster_directory S) !! id = Some m ↔ ∃ i st, S !! i = Some st ∧ d_objs (directory_of st) !! id = Some m.
Proof. intros Hok. apply (spread_some (d_objs ∘ directory_of)). auto. Qed.
Lemma cluster_cont_some S k c : cluster_ok S → d_conts (cluster_directory S) !! k = Some c ↔ ∃ i st, S !! i = Some st ∧ d_conts (directory_of st) !! k = Some c.
Proof. intros Hok. apply (spread_some (d_conts ∘ directory_of)). auto. Qed.
(** Every identifier is routed to the server that made it. *)
Lemma obj_route S id m : cluster_ok S → d_objs (cluster_directory S) !! id = Some m → ∃ i st, S !! i = Some st ∧ interval i id ∧ PDC_get_server_by_obj_id id (lenZ S) = Z.of_nat i.
Proof.
  intros Hok (i & st & Hi & E)%cluster_obj_some; [|done]. exists i, st. pose proof (objs_interval _ _ _ _ _ (co_ok _ Hok i st Hi) E) as Hint. split; [done|]. split; [done|].
  apply lookup_lt_Some in Hi. pose proof (co_servers _ Hok). apply interval_route; [done|unfold lenZ in *; lia|lia].
Qed.
Lemma cont_route S k c : cluster_ok S → d_conts (cluster_directory S) !! k = Some c →
  ∃ i st, S !! i = Some st ∧ d_conts (directory_of st) !! k = Some c ∧ interval i (c_cont_id c) ∧ PDC_get_server_by_obj_id (c_cont_id c) (lenZ S) = Z.of_nat i.
Proof.
  intros Hok (i & st & Hi & E)%cluster_cont_some; [|done]. exists i, st. pose proof (conts_interval _ _ _ _ _ (co_ok _ Hok i st Hi) E) as Hint. do 3 (split; [done|]).
  apply lookup_lt_Some in Hi. pose proof (co_servers _ Hok). apply interval_route; [done|unfold lenZ in *; lia|lia].
Qed.

(** ** Servers that have started *)

Lemma start_directory id_seq : 0 < id_seq < W64 → directory_of (start id_seq) = Dir ∅ ∅.
Proof. intros H. symmetry. apply rep_directory. by apply start_rep. Qed.
Lemma start_server i st n : start_cluster n !! i = Some st → (i < n)%nat ∧ st = start ((Z.of_nat i + 1) * PDC_SERVER_ID_INTERVEL).
Proof. unfold start_cluster. rewrite list_lookup_fmap_Some. intros (j & -> & [-> ?]%lookup_seq). done. Qed.
Lemma start_cluster_ok n : 0 < Z.of_nat n < 2147483647 → cluster_ok (start_cluster n).
Proof.
  intros Hn. assert (lenZ (start_cluster n) = Z.of_nat n) as El by (unfold lenZ, start_cluster; by rewrite length_fmap, length_seq). split; [lia|]. intros i st [Hi ->]%start_server.
  assert (0 < (Z.of_nat i + 1) * PDC_SERVER_ID_INTERVEL < W64) as Hs by (unfold PDC_SERVER_ID_INTERVEL, W64; lia). constructor; rewrite ?(start_directory _ Hs); try done.
  - by apply reachable_start.
  - unfold PDC_SERVER_ID_INTERVEL in *. cbn. lia.
Qed.
End cluster.
