(* ===== verification/MetadataClientSpec.v ===== *)
(** The operations of a client on the metadata servers as operations of one directory. *)

From stdpp Require Import gmap.
From S2P Require Export MetadataCluster.
#[local] Open Scope Z_scope.

Section spec.
Context `{FM : !FreshMemory, TO : !TableOrder, NU : !Numbers, BK : !Bulk, MC : !Mercury, UA : !Unassigned}.
Context (old_memory : ∀ k, message k).
Implicit Types (S : list meta_server) (st : meta_server) (d D : directory) (m : pdc_metadata_t) (c : pdc_cont_hash_table_entry_t).

(** * A request to one server *)

(** What a request needs beyond [req_ok] to leave a server that is well ([server_ok]). *)
Definition req_fits (n : Z) (i : nat) d (r : request) : Prop :=
  match r with
  | CreateObject data hash dtype => ∀ m id, new_metadata data dtype = Some m → 0 ≤ id < W64 → server_of_name (obj_name m) (time_step m) n = Z.of_nat i ∧ meta_fits (with_id m id)
  | UpdateObject hash id new => ∀ m m', object_at (d_objs d) hash id = Some m → meta_fits m → update_metadata m new = Some m' → meta_fits m'
  | AddTag hash id tag => ∀ m t, object_at (d_objs d) hash id = Some m → meta_fits m → append_tag (tags m) tag = Some t → meta_fits (with_tags m t)
  | AddKvtag hash id tag => kvtag_fits tag
  | CreateContainer hash name => hash mod n = Z.of_nat i ∧ hash = pdc_hash_djb2 name
  | _ => True
  end.

Lemma object_at_Some objs hash id m : object_at objs hash id = Some m ↔ objs !! id = Some m ∧ pdc_hash_djb2 (obj_name m) = hash.
Proof.
  unfold object_at. destruct (objs !! id) as [m0|] eqn:E; cbn.
  - case_decide as Hk; split; intros H; simplify_eq; try done; by destruct H; simplify_eq.
  - split; [done|]. by intros [? _].
Qed.
Lemma insert_all {B} (P : Z → B → Prop) (M : gmap Z B) k b : (∀ k' b', M !! k' = Some b' → P k' b') → P k b → ∀ k' b', <[k := b]> M !! k' = Some b' → P k' b'.
Proof. intros HM Hb k' b' [[<- <-]|[_ E]]%lookup_insert_Some; auto. Qed.
Lemma delete_all {B} (P : Z → B → Prop) (M : gmap Z B) k : (∀ k' b', M !! k' = Some b' → P k' b') → ∀ k' b', delete k M !! k' = Some b' → P k' b'.
Proof. intros HM k' b' [_ E]%lookup_delete_Some; auto. Qed.
Lemma Forall_delete_at {A} (P : A → Prop) (l : list A) i : Forall P l → Forall P (delete i l).
Proof. intros H. rewrite delete_take_drop. apply Forall_app. split; [by apply Forall_take|by apply Forall_drop]. Qed.

Lemma fits_kvtags m l : meta_fits m → Forall kvtag_fits l → meta_fits (with_kvtags m l).
Proof. intros [] Hl. by constructor. Qed.
Lemma del_tags_fit l key : Forall kvtag_fits l → Forall kvtag_fits (PDC_del_kvtag_value_from_list l key).
Proof. intros H. unfold PDC_del_kvtag_value_from_list. destruct (list_find _ l) as [[i t]|]; [by apply Forall_delete_at|done]. Qed.

(** New identifiers are the next ones. *)
Lemma with_target_next {R} st hash id (none : R) f st' r : with_target st hash id none f = Some (st', r) → pdc_id_seq_g st' = pdc_id_seq_g st.
Proof.
  unfold with_target. destruct (metadata_hash_table_g st !! hash) as [head|]; [|by intros [= <- <-]]. destruct (find_metadata_by_id_from_list _ _) as [[i m]|]; [|by intros [= <- <-]].
  destruct (f m) as [[m' r']|]; cbn; [|done]. by intros [= <- <-].
Qed.
Lemma on_kvtags_next {R} st hash id (none : R) f st' r : on_kvtags st hash id none f = Some (st', r) → pdc_id_seq_g st' = pdc_id_seq_g st.
Proof. unfold on_kvtags. case_match; [by apply with_target_next|]. case_match; [destruct (f _)|]; by intros [= <- <-]. Qed.
Lemma exec_next st r st' out : exec st r = Some (st', out) →
  pdc_id_seq_g st' = pdc_id_seq_g st ∧ (∀ data hash dtype, r = CreateObject data hash dtype → out = 0) ∧ (∀ hash name, r = CreateContainer hash name → is_Some (container_hash_table_g st !! hash)) ∨
  pdc_id_seq_g st' = pdc_id_seq_g st +w 1 ∧ out = pdc_id_seq_g st.
Proof.
  destruct r; cbn [exec].
  - unfold PDC_insert_metadata_to_hash_table. destruct (new_metadata data dtype) as [m|]; cbn; [|done]. destruct (metadata_hash_table_g st !! hash) as [head|]; [destruct (find_identical_metadata head m)|]; intros [= <- <-]; auto. left. naive_solver.
  - unfold PDC_Server_delete_metadata_by_id. destruct (list_find _ _) as [[i [k c]]|]; cbn; [intros [= <- <-]; left; naive_solver|]. destruct (delete_in_table _ _ _ _) as [[table found]|]; cbn; [|done]. intros [= <- <-]. left. naive_solver.
  - unfold PDC_delete_metadata_from_hash_table. destruct (strcpy _ name); cbn; [|done]. destruct (metadata_hash_table_g st !! hash) as [head|]; [destruct (find_identical_metadata head _) as [[i m]|]|]; intros [= <- <-]; left; naive_solver.
  - intros E%with_target_next. left. naive_solver.
  - intros E%with_target_next. left. naive_solver.
  - intros E%on_kvtags_next. left. naive_solver.
  - intros E%on_kvtags_next. left. naive_solver.
  - unfold PDC_Server_create_container. destruct (container_hash_table_g st !! hash) eqn:E; [intros [= <- <-]; left; naive_solver|]. destruct (strcpy _ name); cbn; [|done]. intros [= <- <-]. auto.
  - unfold PDC_Server_container_add_objs. destruct (PDC_Server_find_container_by_id st id) as [[k c]|]; [case_decide|]; try done; intros [= <- <-]; left; naive_solver.
  - unfold PDC_Server_container_del_objs. destruct (PDC_Server_find_container_by_id st id) as [[k c]|]; [destruct (del_objs _ _)|]; intros [= <- <-]; left; naive_solver.
Qed.

Definition dir_ok (n : Z) (i : nat) d : Prop := (∀ id m, d_objs d !! id = Some m → obj_ok n i id m) ∧ (∀ k c, d_conts d !! k = Some c → cont_ok n i k c).
Lemma obj_ok_same n i id m m' : obj_ok n i id m → same_identity m m' → meta_fits m' → obj_ok n i id m'.
Proof. intros (H1 & H2 & _) (_ & En & Et) Hf. split; [done|]. by rewrite En, Et. Qed.
Lemma at_object_dir_ok n i d hash id f out d' : dir_ok n i d → at_object d hash id f out d' →
  (∀ m m' r, object_at (d_objs d) hash id = Some m → meta_fits m → f m = Some (m', r) → same_identity m m' ∧ meta_fits m') → dir_ok n i d'.
Proof.
  intros [Ho Hc] Hat Hf. unfold at_object in Hat. destruct (object_at (d_objs d) hash id) as [m|] eqn:E; [|by destruct Hat as [_ ->]]. destruct Hat as (m' & Em & ->).
  pose proof (proj1 (object_at_Some _ _ _ _) E) as [Eo _]. pose proof (Ho id m Eo) as Hm. destruct (Hf m m' out eq_refl) as [Hsame Hfit]; [by destruct Hm as (_ & _ & ?)|done|].
  split; [|done]. cbn. apply insert_all; [done|]. by apply (obj_ok_same n i id m).
Qed.
Lemma cont_ok_same n i k c c' : cont_ok n i k c → c_cont_id c' = c_cont_id c → c_cont_name c' = c_cont_name c → Forall kvtag_fits (c_kvtags c') → cont_ok n i k c'.
Proof. intros (H1 & H2 & H3 & _) Ei En Hf. unfold cont_ok. by rewrite Ei, En. Qed.
Lemma on_tags_dir_ok n i d hash id f out d' : dir_ok n i d → on_tags d hash id f out d' → (∀ l, Forall kvtag_fits l → Forall kvtag_fits (f l)) → dir_ok n i d'.
Proof.
  intros Hok [[_ Hat]|[_ Hat]] Hf.
  - apply (at_object_dir_ok n i d hash id _ out d' Hok Hat). intros m m' r _ Hm [= <- <-]. split; [done|]. apply fits_kvtags; [done|]. apply Hf, (mf_kvtags _ Hm).
  - destruct Hok as [Ho Hc]. destruct (d_conts d !! hash) as [c|] eqn:E; destruct Hat as [_ ->]; [|done]. split; [done|]. cbn. apply insert_all; [done|]. pose proof (Hc hash c E) as Hcc.
    apply (cont_ok_same n i hash c); [done..|]. cbn. apply Hf. by destruct Hcc as (_ & _ & _ & ?).
Qed.
Lemma at_container_dir_ok n i d id f out d' : dir_ok n i d → at_container d id f out d' → (∀ c, c_cont_id (f c) = c_cont_id c ∧ c_cont_name (f c) = c_cont_name c ∧ c_kvtags (f c) = c_kvtags c) → dir_ok n i d'.
Proof.
  intros [Ho Hc] [(k & c & E & _ & _ & ->)|(_ & _ & ->)] Hf; [|done]. split; [done|]. cbn. destruct (Hf c) as (Hi & Hn & Hk). apply insert_all; [done|]. pose proof (Hc k c E) as Hcc.
  apply (cont_ok_same n i k c); [done..|]. rewrite Hk. by destruct Hcc as (_ & _ & _ & ?).
Qed.
Lemma del_ids_same ids c : c_cont_id (del_ids ids c) = c_cont_id c ∧ c_cont_name (del_ids ids c) = c_cont_name c ∧ c_kvtags (del_ids ids c) = c_kvtags c.
Proof. unfold del_ids. by destruct (del_objs _ _). Qed.

Lemma dir_ok_step n i d r out d' : dir_ok n i d → dir_step d r out d' → req_ok d r → req_fits n i d r →
  (∀ data hash dtype, r = CreateObject data hash dtype → out ≠ 0 → (Z.of_nat i + 1) * PDC_SERVER_ID_INTERVEL ≤ out < W64) →
  (∀ hash name, r = CreateContainer hash name → d_conts d !! hash = None → (Z.of_nat i + 1) * PDC_SERVER_ID_INTERVEL ≤ out < W64) → dir_ok n i d'.
Proof.
  intros Hok Hstep Hreq Hfit Hnew Hcont. pose proof Hok as [Ho Hc]. destruct r; cbn [dir_step req_ok req_fits] in *.
  - destruct Hstep as (m & Em & [(_ & _ & ->)|(_ & (Hne & _) & ->)]); [done|]. split; [|done]. cbn. apply insert_all; [done|].
    destruct (Hnew _ _ _ eq_refl Hne). destruct (Hfit m out Em) as [Hs Hf]; [unfold PDC_SERVER_ID_INTERVEL in *; lia|]. by split.
  - destruct Hstep as [(k & c & _ & _ & _ & ->)|(_ & _ & ->)]; [split; [done|]|split; [|done]]; cbn; by apply delete_all.
  - destruct Hstep as [(id & m & _ & _ & _ & _ & ->)|(_ & _ & ->)]; [|done]. split; [|done]. cbn. by apply delete_all.
  - destruct Hreq as [Ht _]. apply (at_object_dir_ok n i d hash id _ out d' Hok Hstep). intros m m' r Eo Hm. destruct (update_metadata m new) as [m0|] eqn:E; cbn; [|done]. intros [= <- <-].
    split; [by apply (update_identity m new)|by apply (Hfit m m0)].
  - apply (at_object_dir_ok n i d hash id _ out d' Hok Hstep). intros m m' r Eo Hm. destruct (given tag); [|by intros [= <- <-]]. destruct (append_tag (tags m) tag) as [t|] eqn:E; cbn; [|done]. intros [= <- <-].
    split; [done|by apply Hfit].
  - apply (on_tags_dir_ok n i d hash id _ out d' Hok Hstep). intros l Hl. by apply Forall_app_2, Forall_singleton.
  - apply (on_tags_dir_ok n i d hash id _ out d' Hok Hstep). intros l. apply del_tags_fit.
  - destruct Hfit as [Hmod Hname]. destruct (d_conts d !! hash) as [c|] eqn:E; [by destruct Hstep as [_ ->]|]. destruct Hstep as [_ ->]. split; [done|]. cbn. apply insert_all; [done|].
    destruct (Hcont _ _ eq_refl E). by split.
  - by apply (at_container_dir_ok n i d id _ out d' Hok Hstep).
  - apply (at_container_dir_ok n i d id _ out d' Hok Hstep). intros c. apply del_ids_same.
Qed.

Lemma server_step n i st r : server_ok n i st → Z.of_nat i < n → n < 2147483647 → pdc_id_seq_g st < (Z.of_nat i + 2) * PDC_SERVER_ID_INTERVEL →
  req_ok (directory_of st) r → req_fits n i (directory_of st) r →
  ∃ st' out, exec st r = Some (st', out) ∧ dir_step (directory_of st) r out (directory_of st') ∧ server_ok n i st'.
Proof.
  intros [Hr Hs Ho Hc] Hi Hn Hseq Hreq Hfit. pose proof (reachable_rep st Hr) as Hrep. assert (pdc_id_seq_g st < W64 - 1) as Hw by (unfold PDC_SERVER_ID_INTERVEL, W64 in *; lia).
  destruct (exec_ok st (directory_of st) r Hrep Hw Hreq) as (st' & out & d' & E & Hstep & Hrep'). rewrite (rep_directory _ _ Hrep') in Hstep. exists st', out. split; [done|]. split; [done|].
  pose proof (exec_next st r st' out E) as Hnext. assert (pdc_id_seq_g st +w 1 = pdc_id_seq_g st + 1) as Eplus by (unfold u64; rewrite Z.mod_small; unfold PDC_SERVER_ID_INTERVEL in *; lia). rewrite Eplus in Hnext.
  assert (dir_ok n i (directory_of st')) as [Ho' Hc'].
  { apply (dir_ok_step n i (directory_of st) r out _); [by split|done|done|done|..].
    - intros data hash dtype -> Hne. destruct Hnext as [(_ & Hz & _)|[_ ->]]; [by destruct Hne; eapply Hz|lia].
    - intros hash name -> Hno. destruct Hnext as [(_ & _ & Hs')|[_ ->]]; [|lia]. destruct (Hs' _ _ eq_refl) as [c Ec]. destruct Hrep as (_ & Hcc & _). congruence. }
  constructor; [by apply (reachable_step st r st' out)|destruct Hnext as [(-> & _)|[-> _]]; unfold PDC_SERVER_ID_INTERVEL in *; lia|done|done].
Qed.

(** * The directory of all servers *)

Section lift.
Context (S : list meta_server) (i : nat) (st st' : meta_server).
Hypothesis (Hok : cluster_ok S) (Hi : S !! i = Some st) (Hok' : cluster_ok (<[i := st']> S)).
Let n := lenZ S.
Let d := directory_of st.
Let d' := directory_of st'.
Let D := cluster_directory S.
Let D' := cluster_directory (<[i := st']> S).

Lemma lift_objs_in id m : d_objs d !! id = Some m → d_objs D !! id = Some m.
Proof. intros E. apply cluster_obj_some; [done|]. by exists i, st. Qed.
Lemma lift_conts_in k c : d_conts d !! k = Some c → d_conts D !! k = Some c.
Proof. intros E. apply cluster_cont_some; [done|]. by exists i, st. Qed.
(** What is elsewhere has another route. *)
Lemma obj_by_route id : PDC_get_server_by_obj_id id n = Z.of_nat i → d_objs D !! id = d_objs d !! id.
Proof.
  intros Hr. destruct (d_objs D !! id) as [m|] eqn:E.
  - destruct (obj_route S id m Hok E) as (j & y & Hj & Hint & Er). fold n in Er. assert (j = i) as -> by lia. rewrite Hi in Hj. injection Hj as <-. rewrite <-E. exact (cluster_obj S i st id Hok Hi Hint).
  - destruct (d_objs d !! id) as [m|] eqn:E'; [|done]. apply lift_objs_in in E'. congruence.
Qed.
Lemma obj_by_name id m : d_objs D !! id = Some m → server_of_name (obj_name m) (time_step m) n = Z.of_nat i → d_objs d !! id = Some m.
Proof.
  intros (j & y & Hj & E)%cluster_obj_some Hr; [|done]. destruct (so_objs _ _ _ (co_ok _ Hok j y Hj) id m E) as (_ & Hn & _). fold n in Hn. assert (j = i) as -> by lia. rewrite Hi in Hj. by injection Hj as <-.
Qed.
Lemma cont_by_name k : k mod n = Z.of_nat i → d_conts D !! k = d_conts d !! k.
Proof. by apply cluster_cont. Qed.
Lemma cont_by_route k c : d_conts D !! k = Some c → PDC_get_server_by_obj_id (c_cont_id c) n = Z.of_nat i → d_conts d !! k = Some c.
Proof.
  intros E Hr. destruct (cont_route S k c Hok E) as (j & y & Hj & Ey & _ & Er). fold n in Er. assert (j = i) as -> by lia. rewrite Hi in Hj. by injection Hj as <-.
Qed.
Lemma object_at_route hash id : PDC_get_server_by_obj_id id n = Z.of_nat i → object_at (d_objs D) hash id = object_at (d_objs d) hash id.
Proof. intros Hr. unfold object_at. by rewrite obj_by_route. Qed.

Lemma fresh_lift id : interval i id → fresh d id → fresh D id.
Proof.
  intros Hint (Hz & Ho & Hc). split; [done|]. split; [etransitivity; [exact (cluster_obj S i st id Hok Hi Hint)|done]|]. intros k c E <-. destruct (cont_route S k c Hok E) as (j & y & Hj & Ey & Hint' & _).
  rewrite (interval_inj j i _ Hint' Hint), Hi in Hj. injection Hj as <-. by apply (Hc k c).
Qed.

(** How the directory changes. *)
Lemma lift_same : d' = d → D' = D.
Proof.
  intros E. unfold D, D', cluster_directory. f_equal; apply (spread_same _ S i st st' Hi); try (by apply objs_separated || by apply conts_separated); unfold d, d' in E; unfold compose; by rewrite E.
Qed.
Lemma lift_obj id m : d' = Dir (<[id := m]> (d_objs d)) (d_conts d) → D' = Dir (<[id := m]> (d_objs D)) (d_conts D).
Proof.
  intros E. unfold D, D', cluster_directory. cbn. f_equal; [apply (spread_insert _ S i st st' Hi)|apply (spread_same _ S i st st' Hi)]; try (by apply objs_separated || by apply conts_separated); unfold d, d' in E; unfold compose; by rewrite E.
Qed.
Lemma lift_delete id : (∀ m, d_objs D !! id = Some m → d_objs d !! id = Some m) → d' = Dir (delete id (d_objs d)) (d_conts d) → D' = Dir (delete id (d_objs D)) (d_conts D).
Proof.
  intros Hid E. unfold D, D', cluster_directory. cbn. f_equal; [apply (spread_delete _ S i st st' Hi)|apply (spread_same _ S i st st' Hi)]; try (by apply objs_separated || by apply conts_separated); try (unfold d, d' in E; unfold compose; by rewrite E).
  intros j y Hj [m Em]. assert (d_objs D !! id = Some m) as ED by (apply cluster_obj_some; [done|]; by exists j, y). apply Hid in ED.
  apply (objs_separated S Hok j i y st id); [done|done|by eexists|by eexists].
Qed.
Lemma lift_cont k c : d' = Dir (d_objs d) (<[k := c]> (d_conts d)) → D' = Dir (d_objs D) (<[k := c]> (d_conts D)).
Proof.
  intros E. unfold D, D', cluster_directory. cbn. f_equal; [apply (spread_same _ S i st st' Hi)|apply (spread_insert _ S i st st' Hi)]; try (by apply objs_separated || by apply conts_separated); unfold d, d' in E; unfold compose; by rewrite E.
Qed.
Lemma lift_delete_cont k c : d_conts d !! k = Some c → d' = Dir (d_objs d) (delete k (d_conts d)) → D' = Dir (d_objs D) (delete k (d_conts D)).
Proof.
  intros Ek E. unfold D, D', cluster_directory. cbn. f_equal; [apply (spread_same _ S i st st' Hi)|apply (spread_delete _ S i st st' Hi)]; try (by apply objs_separated || by apply conts_separated); try (unfold d, d' in E; unfold compose; by rewrite E).
  intros j y Hj [c' Ec]. apply (conts_separated S Hok j i y st k); [done|done|by eexists|by eexists].
Qed.

Lemma stored_identified j y id m : S !! j = Some y → d_objs (directory_of y) !! id = Some m → identified m.
Proof.
  intros Hj E. destruct (reachable_rep y (so_reachable _ _ _ (co_ok _ Hok j y Hj))) as ((H1 & H2) & _). destruct (H2 id m E) as (_ & head & Eh & Hm). destruct (H1 _ head Eh) as ((_ & _ & _ & _ & Hall) & _). by destruct (Hall m Hm).
Qed.

(** The server of a request is the one that has what the request is about. *)
Definition routed (r : request) : Prop :=
  match r with
  | CreateObject data _ dtype => ∀ m, new_metadata data dtype = Some m → server_of_name (obj_name m) (time_step m) n = Z.of_nat i
  | DeleteById id => PDC_get_server_by_obj_id id n = Z.of_nat i
  | DeleteByName name ts _ => server_of_name name ts n = Z.of_nat i
  | UpdateObject hash id _ => ∀ m, object_at (d_objs D) hash id = Some m → server_of_name (obj_name m) (time_step m) n = Z.of_nat i
  | AddTag _ id _ => PDC_get_server_by_obj_id id n = Z.of_nat i
  | AddKvtag hash id _ | DelKvtag hash id _ =>
      PDC_get_server_by_obj_id id n = Z.of_nat i ∧
      (is_Some (object_at (d_objs D) hash id) ∨ ((∃ c, d_conts D !! hash = Some c ∧ c_cont_id c = id) ∧ ¬ listed (d_objs D) hash) ∨ object_at (d_objs D) hash id = None ∧ d_conts D !! hash = None)
  | CreateContainer hash _ => hash mod n = Z.of_nat i
  | AddToContainer _ id | DelFromContainer _ id => PDC_get_server_by_obj_id id n = Z.of_nat i
  end.
(** The identifiers that the server gives. *)
Definition gives (r : request) (out : Z) : Prop :=
  match r with
  | CreateObject _ _ _ => out = 0 ∨ interval i out
  | CreateContainer hash _ => d_conts d !! hash = None → interval i out
  | _ => True
  end.

Lemma at_object_lift hash id f out : object_at (d_objs D) hash id = object_at (d_objs d) hash id → at_object d hash id f out d' → at_object D hash id f out D'.
Proof.
  intros E. unfold at_object. rewrite E. destruct (object_at (d_objs d) hash id) as [m|]; [intros (m' & Em & Ed); exists m'; split; [done|by apply lift_obj]|]. intros [-> Ed]. split; [done|by apply lift_same].
Qed.
Lemma on_tags_lift hash id f out : PDC_get_server_by_obj_id id n = Z.of_nat i →
  is_Some (object_at (d_objs D) hash id) ∨ ((∃ c, d_conts D !! hash = Some c ∧ c_cont_id c = id) ∧ ¬ listed (d_objs D) hash) ∨ object_at (d_objs D) hash id = None ∧ d_conts D !! hash = None →
  on_tags d hash id f out d' → on_tags D hash id f out D'.
Proof.
  intros Hr Hwhat Hstep. pose proof (object_at_route hash id Hr) as Eo. destruct Hwhat as [[m Em]|[[(c & Ec & Hid) Hno]|[Eno Ec]]].
  - pose proof Em as Ed. rewrite Eo in Ed. apply object_at_Some in Em as [Em Hk]. apply object_at_Some in Ed as [Ed _]. destruct Hstep as [[_ Hat]|[Hno _]]; [|destruct Hno; by exists id, m].
    left. split; [by exists id, m|]. by apply at_object_lift.
  - assert (d_conts d !! hash = Some c) as Ecd by (apply cont_by_route; [done|by rewrite Hid]). destruct Hstep as [[(id' & m & Em & Hk) _]|[_ Hat]]; [destruct Hno; exists id', m; split; [by apply lift_objs_in|done]|].
    rewrite Ecd in Hat. destruct Hat as [-> Ed]. right. split; [done|]. rewrite Ec. split; [done|]. by apply lift_cont.
  - assert (d_conts d !! hash = None) as Ecd by (destruct (d_conts d !! hash) as [c|] eqn:E; [apply lift_conts_in in E; congruence|done]).
    assert (out = -1 ∧ d' = d) as [-> Ed] by (destruct Hstep as [[_ Hat]|[_ Hat]]; [unfold at_object in Hat; by rewrite <-Eo, Eno in Hat|by rewrite Ecd in Hat]).
    pose proof (lift_same Ed) as ED. destruct (decide (map_Exists (λ _ m, pdc_hash_djb2 (obj_name m) = hash) (d_objs D))) as [Hl|Hl].
    + left. split; [destruct Hl as (k & m & ? & ?); by exists k, m|]. unfold at_object. by rewrite Eno.
    + right. split; [intros (k & m & ? & ?); apply Hl; by exists k, m|]. by rewrite Ec.
Qed.
Lemma at_container_lift id f out : PDC_get_server_by_obj_id id n = Z.of_nat i → at_container d id f out d' → at_container D id f out D'.
Proof.
  intros Hr [(k & c & Ek & Hid & -> & Ed)|(Hno & -> & Ed)].
  - left. exists k, c. do 3 (split; [first [done|by apply lift_conts_in]|]). by apply lift_cont.
  - right. split; [|split; [done|by apply lift_same]]. intros k c E Hid. apply (Hno k c); [|done]. apply cont_by_route; [done|by rewrite Hid].
Qed.

Lemma lift_step r out : routed r → gives r out → req_ok d r → dir_step d r out d' → dir_step D r out D'.
Proof.
  intros Hr Hgive Hreq Hstep. destruct r; cbn [dir_step routed gives req_ok] in *.
  - destruct Hstep as (m & Em & Hcase). exists m. split; [done|]. destruct Hreq as (m0 & Em0 & Him & _). assert (m0 = m) as -> by congruence. destruct Hcase as [((id & m' & E & Ecmp) & -> & Ed)|(Hno & Hf & Ed)].
    + left. split; [exists id, m'; split; [by apply lift_objs_in|done]|]. split; [done|by apply lift_same].
    + right. assert (interval i out) as Hint by (destruct Hgive as [->|]; [by destruct Hf|done]). split; [|split; [by apply fresh_lift|by apply lift_obj]].
      intros id m' E Ecmp. pose proof E as (j & y & Hj & Ey)%cluster_obj_some; [|done]. pose proof (stored_identified j y id m' Hj Ey) as Him'.
      destruct (identical_names m' m Him' Him Ecmp) as [En Et]. apply (Hno id m'); [|done]. apply obj_by_name; [done|]. rewrite En, Et. by apply Hr.
  - destruct Hstep as [(k & c & Ek & Hid & -> & Ed)|(Hno & -> & Ed)].
    + left. exists k, c. do 3 (split; [first [done|by apply lift_conts_in]|]). by apply (lift_delete_cont k c).
    + right. split; [intros k c E Hid; apply (Hno k c); [|done]; apply cont_by_route; [done|by rewrite Hid]|]. split; [by rewrite (obj_by_route id Hr)|].
      apply lift_delete; [|done]. intros m. by rewrite (obj_by_route id Hr).
  - destruct Hstep as [(id & m & E & En & Et & -> & Ed)|(Hno & -> & Ed)].
    + left. exists id, m. do 4 (split; [first [done|by apply lift_objs_in]|]). apply lift_delete; [|done]. intros m' E'. apply lift_objs_in in E as ED. assert (m' = m) as -> by congruence. done.
    + right. split; [|split; [done|by apply lift_same]]. intros id m E [En Et]. apply (Hno id m); [|done]. apply obj_by_name; [done|]. by rewrite En, Et.
  - apply at_object_lift; [|done]. destruct (object_at (d_objs D) hash id) as [m|] eqn:E.
    + specialize (Hr m eq_refl). apply object_at_Some in E as [E Hk]. symmetry. apply object_at_Some. split; [|done]. by apply obj_by_name.
    + destruct (object_at (d_objs d) hash id) as [m|] eqn:E'; [|done]. apply object_at_Some in E' as [E' Hk]. apply lift_objs_in in E'. assert (object_at (d_objs D) hash id = Some m) as ED by by apply object_at_Some. congruence.
  - apply at_object_lift; [by apply object_at_route|done].
  - destruct Hr. by apply on_tags_lift.
  - destruct Hr. by apply on_tags_lift.
  - rewrite (cont_by_name hash Hr). destruct (d_conts d !! hash) as [c|] eqn:E; [destruct Hstep as [-> Ed]; split; [done|by apply lift_same]|]. destruct Hstep as [Hf Ed]. split; [apply fresh_lift; [by apply Hgive|done]|by apply lift_cont].
  - by apply at_container_lift.
  - by apply at_container_lift.
Qed.
End lift.

(** * One request, served *)

Definition ids_left S : Prop := ∀ i st, S !! i = Some st → pdc_id_seq_g st < (Z.of_nat i + 2) * PDC_SERVER_ID_INTERVEL.

Lemma objs_subset S i st : cluster_ok S → S !! i = Some st → d_objs (directory_of st) ⊆ d_objs (cluster_directory S).
Proof. intros Hok Hi. apply map_subseteq_spec. intros id m E. apply cluster_obj_some; [done|]. by exists i, st. Qed.
Lemma size_mono {B} (M M' : gmap Z B) : M ⊆ M' → (size M ≤ size M')%nat.
Proof. intros H. rewrite <-!size_dom. by apply subseteq_size, subseteq_dom. Qed.
Lemma bloom_room_mono (M M' : gmap Z pdc_metadata_t) m : M ⊆ M' → bloom_room M' m → bloom_room M m.
Proof.
  intros Hsub Hroom index. specialize (Hroom index). unfold sharing in *. assert (∀ P `{∀ x, Decision (P x)}, (size (filter P M) ≤ size (filter P M'))%nat) as Hf; [|specialize (Hf (λ e, pdc_hash_djb2 (obj_name e.2) = pdc_hash_djb2 (obj_name m) ∧ index ∈ bloom_indices (combine_obj_info_to_string e.2)) _); lia].
  intros P HP. apply size_mono, map_subseteq_spec. intros id x [E Hx]%map_lookup_filter_Some. apply map_lookup_filter_Some. split; [by eapply lookup_weaken|done].
Qed.
Lemma req_ok_local S i st r : cluster_ok S → S !! i = Some st → req_ok (cluster_directory S) r → req_ok (directory_of st) r.
Proof.
  intros Hok Hi. pose proof (objs_subset S i st Hok Hi) as Hsub.
  assert (∀ hash id m, object_at (d_objs (directory_of st)) hash id = Some m → object_at (d_objs (cluster_directory S)) hash id = Some m) as Hat.
  { intros hash id m [E Hk]%object_at_Some. apply object_at_Some. split; [by eapply lookup_weaken|done]. }
  destruct r; cbn [req_ok]; try done.
  - intros (m & Em & Him & Hh & Hsize & Hroom). exists m. do 3 (split; [done|]). pose proof (size_mono _ _ Hsub). split; [lia|by eapply bloom_room_mono].
  - intros [Hk|Hother]; [by left|right]. intros m E. destruct (Hother m (lookup_weaken _ _ _ _ E Hsub)) as (id' & m' & Hne & (j & y & Hj & E')%cluster_obj_some & En & Et); [|done].
    exists id', m'. split; [done|]. destruct (so_objs _ _ _ (co_ok _ Hok i st Hi) _ m E) as (_ & Hs & _). destruct (so_objs _ _ _ (co_ok _ Hok j y Hj) _ m' E') as (_ & Hs' & _).
    rewrite En, Et, Hs in Hs'. assert (j = i) as -> by lia. rewrite Hi in Hj. by injection Hj as <-.
  - intros [Ht H]. split; [done|]. intros m Hm. by apply H, Hat.
  - intros H m Hm. by apply H, Hat.
  - intros H k c E. apply (H k c). apply cluster_cont_some; [done|]. by exists i, st.
Qed.

Lemma cluster_update S i st st' : cluster_ok S → S !! i = Some st → server_ok (lenZ S) i st' → cluster_ok (<[i := st']> S).
Proof.
  intros [Hn Hok] Hi Hst'. assert (lenZ (<[i := st']> S) = lenZ S) as El by (unfold lenZ; by rewrite length_insert). split; rewrite El; [done|]. intros j y [(<- & <- & _)|[_ E]]%list_lookup_insert_Some; [done|by apply Hok].
Qed.

Lemma cluster_serve S i st r : cluster_ok S → ids_left S → S !! i = Some st → routed S i r → req_ok (cluster_directory S) r → req_fits (lenZ S) i (directory_of st) r →
  ∃ st' out, exec st r = Some (st', out) ∧ gives i st r out ∧ dir_step (cluster_directory S) r out (cluster_directory (<[i := st']> S)) ∧ cluster_ok (<[i := st']> S).
Proof.
  intros Hok Hleft Hi Hr Hreq Hfit. pose proof (req_ok_local S i st r Hok Hi Hreq) as Hloc. pose proof (co_ok _ Hok i st Hi) as Hst. pose proof (co_servers _ Hok) as Hn. pose proof (lookup_lt_Some _ _ _ Hi) as Hlt.
  assert (Z.of_nat i < lenZ S) as Hin by (unfold lenZ; lia). destruct (server_step _ i st r Hst) as (st' & out & E & Hstep & Hst'); [done|lia|by apply Hleft|done|done|].
  assert (gives i st r out) as Hgive.
  { pose proof (so_seq _ _ _ Hst). pose proof (Hleft i st Hi). destruct (exec_next st r st' out E) as [(_ & Hz & Hc)|[_ ->]]; destruct r; try done; cbn.
    - left. by eapply Hz.
    - intros Ec. destruct (Hc _ _ eq_refl) as [c' Ec']. destruct (reachable_rep st (so_reachable _ _ _ Hst)) as (_ & Hcc & _). congruence.
    - right. unfold interval. lia.
    - intros _. unfold interval. lia. }
  pose proof (cluster_update S i st st' Hok Hi Hst') as Hok'. exists st', out. split; [done|]. split; [done|]. split; [by apply (lift_step S i st st')|done].
Qed.

(** ** The message and its reply *)

Lemma forward_spec r serve S (i : nat) st (msg : message (rpc_in r)) st' reply : S !! i = Some st → sendable (message_proc (rpc_in r)) msg → serve st (received _ msg (old_memory (rpc_in r))) = Some (st', reply) →
  sendable (message_proc (rpc_out r)) reply → forward old_memory r serve S (Z.of_nat i) msg = Some (<[i := st']> S, received _ reply (old_memory (rpc_out r))).
Proof.
  intros Hi Hm Hs Hr. unfold forward, getZ. rewrite decide_True by lia. rewrite Nat2Z.id, Hi. cbn [mbind option_bind]. by rewrite (rpc_call_spec r serve _ _ st msg st' reply Hm Hs Hr).
Qed.
Lemma server_exists S (s : Z) : 0 ≤ s < lenZ S → ∃ i st, s = Z.of_nat i ∧ S !! i = Some st.
Proof. intros Hs. exists (Z.to_nat s). destruct (lookup_lt_is_Some_2 S (Z.to_nat s)) as [st E]; [unfold lenZ in Hs; lia|]. exists st. split; [lia|done]. Qed.
Lemma route_exists S id : cluster_ok S → ∃ i st, PDC_get_server_by_obj_id id (pdc_server_num_g S) = Z.of_nat i ∧ S !! i = Some st.
Proof. intros Hok. apply server_exists. apply Z.mod_pos_bound. apply (co_servers _ Hok). Qed.
Lemma name_exists S name ts : cluster_ok S → ∃ i st, server_of_name name ts (pdc_server_num_g S) = Z.of_nat i ∧ S !! i = Some st.
Proof. intros Hok. apply server_exists. apply Z.mod_pos_bound. apply (co_servers _ Hok). Qed.
End spec.
