(* ===== verification/MetadataClients.v ===== *)
(** Clients of the metadata servers: every operation of a client is the operation of one
    directory, and what clients ask is answered from it, wherever things are. *)

From stdpp Require Import gmap.
From S2P Require Export MetadataClientSpec.
#[local] Open Scope Z_scope.

Section clients.
Context `{FM : !FreshMemory, TO : !TableOrder, NU : !Numbers, BK : !Bulk, MC : !Mercury, UA : !Unassigned}.
Context (old_memory : ∀ k, message k).
Implicit Types (S : list meta_server) (st : meta_server) (d D : directory) (m : pdc_metadata_t) (c : pdc_cont_hash_table_entry_t).

(** * What is stored fits into messages *)

(** The characters of a string in a message. *)
Abbreviation text s := (Forall (λ ch, ch ≠ 0) s).
Definition in_u64 (z : Z) : Prop := fits (Int false 8) z.
Definition in_u32 (z : Z) : Prop := fits (Int false 4) z.
Definition in_i32 (z : Z) : Prop := fits (Int true 4) z.
Definition in_i8 (z : Z) : Prop := fits (Int true 1) z.
Definition in_u8 (z : Z) : Prop := fits (Int false 1) z.

Ltac wire_fields := unfold hg_proc_pdc_metadata_transfer_t in *; cbn -[int_min int_max fits] in *; destruct_and?; split_and?; try assumption; try exact I.

Lemma strcpy_Some max (s s' : string) : strcpy max s = Some s' → s' = s ∧ lenZ s < max.
Proof. unfold strcpy. case_decide; [|done]. by intros [= <-]. Qed.
Lemma zero_u64 : in_u64 0.
Proof. done. Qed.
Lemma dim_fits (l : list Z) k : Forall in_u64 l → in_u64 (dim l k).
Proof. intros H. revert k. induction H as [|x l Hx _ IH]; intros [|k]; cbn; done || apply IH. Qed.
Lemma given_dims_fit (d0 d1 d2 d3 : Z) (nd : nat) k : in_u64 d0 → in_u64 d1 → in_u64 d2 → in_u64 d3 → in_u64 (dim (take nd [d0; d1; d2; d3] ++ replicate (4 - nd) 0) k).
Proof. intros H0 H1 H2 H3. apply dim_fits, Forall_app. split; [apply Forall_take; by rewrite !list.Forall_cons|by apply Forall_replicate]. Qed.

Lemma new_metadata_fits t dtype m id : sendable hg_proc_pdc_metadata_transfer_t t → in_i8 dtype → in_u64 id → new_metadata (transfer_of t) dtype = Some m → meta_fits (with_id m id).
Proof.
  intros Ht Hd Hid. unfold new_metadata. destruct (strcpy OBJ_NAME_MAX (t_obj_name _)) as [name|] eqn:E1; cbn [mbind option_bind]; [|done]. destruct (strcpy OBJ_NAME_MAX (t_app_name _)) as [app|] eqn:E2; cbn [mbind option_bind]; [|done].
  destruct (strcpy TAG_LEN_MAX _) as [tag|] eqn:E3; cbn [mbind option_bind]; [|done]. destruct (strcpy ADDR_MAX _) as [loc|] eqn:E4; cbn [mbind option_bind]; [|done].
  apply strcpy_Some in E1 as [-> ?], E2 as [-> ?], E3 as [-> ?], E4 as [-> ?]. cbn [t_dims transfer_of]. set (nd := Z.to_nat _). intros [= <-].
  constructor; cbn [app_name obj_name tags data_location dims current_state transform_state kvtags with_id]; try done.
  - destruct t. wire_fields; try done; by apply given_dims_fit.
  - rewrite length_app, length_take, length_replicate. cbn. lia.
Qed.
Lemma append_tag_fits (t new t' : string) : text t → text new → append_tag t new = Some t' → text t' ∧ lenZ t' < TAG_LEN_MAX.
Proof.
  intros Ht Hn. unfold append_tag. case_decide as Hl; [|done]. intros [= <-]. split; [apply Forall_app; split; [done|by constructor]|]. unfold lenZ in *. rewrite length_app. cbn [length]. lia.
Qed.
Lemma with_tags_fits m t : meta_fits m → text t → lenZ t < TAG_LEN_MAX → meta_fits (with_tags m t).
Proof. intros [] Ht Hl. constructor; try done. destruct m. wire_fields. Qed.
Lemma updated_fits m m' t : meta_fits m → sendable hg_proc_pdc_metadata_transfer_t t → update_metadata m (transfer_of t) = Some m' → meta_fits m'.
Proof.
  intros [] Ht. unfold update_metadata.
  destruct (if given (t_app_name _) then _ else _) as [app|] eqn:E1; cbn [mbind option_bind]; [|done]. destruct (if given (t_data_location _) then _ else _) as [loc|] eqn:E2; cbn [mbind option_bind]; [|done].
  destruct (if given (t_tags _) then _ else _) as [tag|] eqn:E3; cbn [mbind option_bind]; [|done]. intros [= <-].
  assert (text app ∧ lenZ app < OBJ_NAME_MAX) as [Ta La].
  { revert E1. destruct (given (t_app_name (transfer_of t))); intros E1; [apply strcpy_Some in E1 as [-> ?]; split; [|done]|injection E1 as <-; split; [|done]]; [destruct t|destruct m]; wire_fields. }
  assert (text loc ∧ lenZ loc < ADDR_MAX) as [Tl Ll].
  { revert E2. destruct (given (t_data_location (transfer_of t))); intros E2; [apply strcpy_Some in E2 as [-> ?]; split; [|done]|injection E2 as <-; split; [|done]]; [destruct t|destruct m]; wire_fields. }
  assert (text tag ∧ lenZ tag < TAG_LEN_MAX) as [Tt Lt].
  { assert (text (tags m)) as Hm by (destruct m; wire_fields). assert (text (t_tags (transfer_of t))) as Hn by (destruct t; wire_fields). revert E3. destruct (given (t_tags (transfer_of t))); intros E3; [exact (append_tag_fits _ _ _ Hm Hn E3)|injection E3 as <-; by split]. }
  clear E1 E2 E3. constructor; cbn [app_name obj_name tags data_location dims current_state transform_state kvtags]; try done.
  - destruct m, t. wire_fields; by case_decide.
  - by case_decide.
  - case_decide as Hs; [done|]. intros E. by rewrite E in Hs.
Qed.
(** The metadata that a client receives are those that were sent, without the tags. *)
Lemma transfer_roundtrip m : meta_fits m → PDC_transfer_t_to_metadata_t (PDC_metadata_t_to_transfer_t m) = Some (with_kvtags m []).
Proof.
  intros []. unfold PDC_transfer_t_to_metadata_t, strcpy. cbn [PDC_metadata_t_to_transfer_t pdc_metadata_transfer_app_name pdc_metadata_transfer_obj_name pdc_metadata_transfer_tags pdc_metadata_transfer_data_location].
  rewrite (decide_True (P := lenZ (app_name m) < OBJ_NAME_MAX)) by done. rewrite (decide_True (P := lenZ (obj_name m) < OBJ_NAME_MAX)) by done. rewrite (decide_True (P := lenZ (tags m) < TAG_LEN_MAX)) by done.
  rewrite (decide_True (P := lenZ (data_location m) < ADDR_MAX)) by done. cbn [mbind option_bind]. f_equal. destruct m as [u a n ts dt i c sv rp cn tg kv lc nd ds tst cs]; cbn in *. unfold with_kvtags; cbn.
  destruct ds as [|? [|? [|? [|? []]]]]; try done. destruct cs as [tdt tnd tds tmi]; cbn in *. f_equal. case_decide; [by rewrite mf_state|]. destruct tds as [|? [|? [|? [|? []]]]]; done.
Qed.

(** * What clients ask for *)

Inductive client_request :=
| MakeObject (name : string) (cont_id : Z) (p : obj_prop) (data_server : Z)
| RemoveObject (h : handle)
| RemoveByName (name : string) (p : obj_prop)
| ChangeObject (m new : pdc_metadata_t) (storage_order : Z) (same_tags : bool)
| PutTag (h : handle) (tag : string)
| PutKvtag (h : handle) (name : string) (type : Z) (value : list byte)
| RemoveKvtag (h : handle) (key : string)
| MakeContainer (name : string)
| AddMembers (rank : Z) (objs : list handle) (cont : handle)
| RemoveMembers (rank : Z) (objs : list handle) (cont : handle).

(** The result, and the identifier of what was made. *)
Definition client_run S (r : client_request) : option (list meta_server * (perr_t * Z)) :=
  let result x := '(S, ret) ← x; Some (S, (ret, 0)) in
  match r with
  | MakeObject name cont_id p data_server => '(S, (ret, id, _)) ← PDC_Client_send_name_recv_id old_memory S name cont_id p data_server; Some (S, (ret, id))
  | RemoveObject h => result (PDC_Client_del_metadata old_memory S h)
  | RemoveByName name p => result (PDC_Client_delete_metadata old_memory S name p)
  | ChangeObject m new storage_order same_tags => result (PDC_Client_update_metadata old_memory S m new storage_order same_tags)
  | PutTag h tag => result (PDC_Client_add_tag old_memory S h tag)
  | PutKvtag h name type value => result (PDC_add_kvtag old_memory S h name type value)
  | RemoveKvtag h key => result (PDCtag_delete old_memory S h key)
  | MakeContainer name => PDC_Client_create_cont_id old_memory S name
  | AddMembers rank objs cont => result (PDC_Client_add_objects_to_container old_memory S rank objs cont)
  | RemoveMembers rank objs cont => result (PDC_Client_del_objects_to_container old_memory S rank objs cont)
  end.

(** The request that it is to the directory, and the result that belongs to the answer. *)
Definition request_of (r : client_request) : request :=
  match r with
  | MakeObject name cont_id p data_server => CreateObject (transfer_of (gen_obj_id_in_data (new_object name cont_id p data_server))) (pdc_hash_djb2 name) (op_type p)
  | RemoveObject h => DeleteById (h_meta_id h)
  | RemoveByName name p => DeleteByName name (i32 (op_time_step p)) (pdc_hash_djb2 name)
  | ChangeObject m new storage_order same_tags => UpdateObject (pdc_hash_djb2 (obj_name m)) (obj_id m) (transfer_of (updated_object m new storage_order same_tags))
  | PutTag h tag => AddTag (pdc_hash_djb2 (h_name h)) (h_meta_id h) tag
  | PutKvtag h name type value => AddKvtag (pdc_hash_djb2 (h_name h)) (h_meta_id h) (KvTag name type value)
  | RemoveKvtag h key => DelKvtag (pdc_hash_djb2 (h_name h)) (h_meta_id h) key
  | MakeContainer name => CreateContainer (pdc_hash_djb2 name) name
  | AddMembers _ objs cont => AddToContainer (h_meta_id <$> objs) (h_meta_id cont)
  | RemoveMembers _ objs cont => DelFromContainer (h_meta_id <$> objs) (h_meta_id cont)
  end.
Definition answer (r : client_request) (out : Z) : perr_t * Z :=
  match r with
  | MakeObject _ _ _ _ | MakeContainer _ => if decide (out = 0) then (FAIL, 0) else (SUCCEED, out)
  | RemoveObject _ => (if decide (out < 0) then FAIL else SUCCEED, 0)
  | ChangeObject _ _ _ _ | PutTag _ _ => (if decide (out = 1) then SUCCEED else FAIL, 0)
  | _ => (SUCCEED, 0)
  end.

(** An object or a container that a client has opened and that is there.  A container
    that has its name's hash in common with objects has no tags of its own. *)
Definition opened D (h : handle) : Prop :=
  is_Some (object_at (d_objs D) (pdc_hash_djb2 (h_name h)) (h_meta_id h)) ∨
  (∃ c, d_conts D !! pdc_hash_djb2 (h_name h) = Some c ∧ c_cont_id c = h_meta_id h) ∧ ¬ listed (d_objs D) (pdc_hash_djb2 (h_name h)).
(** One that is not there any more; no container has its name's hash. *)
Definition unopened D (h : handle) : Prop :=
  object_at (d_objs D) (pdc_hash_djb2 (h_name h)) (h_meta_id h) = None ∧ d_conts D !! pdc_hash_djb2 (h_name h) = None.
(** Arguments are values of their types, and name what is there, or what is not: no
    other object or container is taken for it. *)
Definition client_fits D (r : client_request) : Prop :=
  match r with
  | MakeObject name cont_id p data_server =>
      text name ∧ in_u64 cont_id ∧ in_u32 data_server ∧ in_i8 (op_type p) ∧ in_u8 (op_region_partition p) ∧ in_u64 (op_ndim p) ∧ Forall in_u64 (op_dims p) ∧
      text (default Noname (op_app_name p)) ∧ text (default blank_string (op_tags p)) ∧ text (default blank_string (op_data_loc p))
  | RemoveObject h => in_u64 (h_meta_id h)
  | RemoveByName name _ => text name
  | ChangeObject m new storage_order _ =>
      in_u64 (obj_id m) ∧ in_i8 storage_order ∧ text (obj_name m) ∧ sendable hg_proc_pdc_metadata_transfer_t (PDC_metadata_t_to_transfer_t new) ∧
      ∀ m', object_at (d_objs D) (pdc_hash_djb2 (obj_name m)) (obj_id m) = Some m' → obj_name m' = obj_name m ∧ time_step m' = time_step m
  | PutTag h tag => in_u64 (h_meta_id h) ∧ text tag ∧ tag ≠ []
  | PutKvtag h name type value => in_u64 (h_meta_id h) ∧ text name ∧ strcmp name PDC_NOOP ≠ 0 ∧ in_i8 type ∧ 0 < lenZ value < W32 ∧ (opened D h ∨ unopened D h)
  | RemoveKvtag h key => in_u64 (h_meta_id h) ∧ text key ∧ (opened D h ∨ unopened D h)
  | MakeContainer name => text name
  | AddMembers rank objs cont | RemoveMembers rank objs cont => in_i32 rank ∧ Forall in_u64 (h_meta_id <$> objs) ∧ lenZ objs < 2147483648 ∧ in_u64 (h_meta_id cont)
  end.

(** ** The server of a request *)

Lemma hash_u32 s : in_u32 (pdc_hash_djb2 s).
Proof. exact (hash_range s). Qed.
Lemma i32_i32 z : in_i32 (i32 z).
Proof. apply i32_range. Qed.
Lemma new_object_sendable D name cont_id p ds : client_fits D (MakeObject name cont_id p ds) → sendable hg_proc_pdc_metadata_transfer_t (gen_obj_id_in_data (new_object name cont_id p ds)).
Proof.
  intros (Hn & Hc & Hds & Ht & Hr & Hnd & Hd & Ha & Htags & Hl). assert (∀ k, in_u64 (dim_of p k)) as Hdim by (intros k; unfold dim_of; case_decide; [by apply dim_fits|done]).
  cbn [new_object gen_obj_id_in_data]. wire_fields; try done; try apply i32_i32; apply Hdim.
Qed.
Lemma or_blank_text s : text s → text (or_blank s).
Proof. intros H. unfold or_blank. case_decide; [by repeat constructor|done]. Qed.
Lemma junk_u64_fits k : in_u64 (junk_u64 k).
Proof. apply u64_range. Qed.
Lemma junk_u32_fits k : in_u32 (junk_u32 k).
Proof. apply u32_range. Qed.
Lemma junk_i32_fits k : in_i32 (junk_i32 k).
Proof. apply i32_range. Qed.
Lemma junk_u8_fits k : in_u8 (junk_u8 k).
Proof. by apply Z.mod_pos_bound. Qed.
Lemma junk_i8_fits k : in_i8 (junk_i8 k).
Proof. pose proof (Z.mod_pos_bound (unassigned k) 256). change (-128 ≤ junk_i8 k < 128). unfold junk_i8. lia. Qed.
Lemma updated_sendable D m new order same : client_fits D (ChangeObject m new order same) → sendable hg_proc_pdc_metadata_transfer_t (updated_object m new order same).
Proof.
  intros (Hid & Hord & Hn & Hnew & _). unfold updated_object. destruct new. wire_fields; try done; try (by apply or_blank_text); try apply junk_u64_fits; try apply junk_u32_fits; try apply junk_u8_fits.
  destruct same; [by repeat constructor|by apply or_blank_text].
Qed.

(** The number that the client computes. *)
Definition server_of S (r : client_request) : Z :=
  match r with
  | MakeObject name _ p _ | RemoveByName name p => server_of_name name (i32 (op_time_step p)) (pdc_server_num_g S)
  | ChangeObject m _ _ _ => server_of_name (obj_name m) (time_step m) (pdc_server_num_g S)
  | MakeContainer name => pdc_hash_djb2 name mod pdc_server_num_g S
  | RemoveObject h | PutTag h _ | PutKvtag h _ _ _ | RemoveKvtag h _ | AddMembers _ _ h | RemoveMembers _ _ h => PDC_get_server_by_obj_id (h_meta_id h) (pdc_server_num_g S)
  end.
Lemma server_of_exists S r : cluster_ok S → ∃ i st, server_of S r = Z.of_nat i ∧ S !! i = Some st.
Proof. intros Hok. apply server_exists. assert (0 < lenZ S) by apply (co_servers _ Hok). destruct r; by apply Z.mod_pos_bound. Qed.
Lemma fits_tags m : meta_fits m → text (tags m).
Proof. intros []. destruct m. wire_fields. Qed.
Lemma new_metadata_names t dtype m : new_metadata (transfer_of t) dtype = Some m → obj_name m = pdc_metadata_transfer_obj_name t ∧ time_step m = pdc_metadata_transfer_time_step t.
Proof.
  unfold new_metadata. destruct (strcpy OBJ_NAME_MAX (t_obj_name _)) as [n'|] eqn:E1; cbn [mbind option_bind]; [|done]. destruct (strcpy OBJ_NAME_MAX (t_app_name _)) as [app|]; cbn [mbind option_bind]; [|done].
  destruct (strcpy TAG_LEN_MAX _) as [tag|]; cbn [mbind option_bind]; [|done]. destruct (strcpy ADDR_MAX _) as [loc|]; cbn [mbind option_bind]; [|done]. apply strcpy_Some in E1 as [-> _]. by intros [= <-].
Qed.
Lemma client_routed S i st r : cluster_ok S → client_fits (cluster_directory S) r → S !! i = Some st → server_of S r = Z.of_nat i →
  routed S i (request_of r) ∧ req_fits (lenZ S) i (directory_of st) (request_of r).
Proof.
  intros Hok Hfit Hi Er. destruct r; cbn [request_of server_of routed req_fits client_fits] in *; try done.
  - pose proof (new_object_sendable (cluster_directory S) _ _ _ _ Hfit) as Hsend. split; [intros m Em|intros m id Em Hid]; destruct (new_metadata_names _ _ m Em) as [-> ->]; [done|]. split; [done|].
    destruct Hfit as (_ & _ & _ & Ht & _). by apply (new_metadata_fits (gen_obj_id_in_data (new_object name cont_id p data_server)) (op_type p) m id).
  - pose proof (updated_sendable (cluster_directory S) m new storage_order same_tags Hfit) as Hsend. destruct Hfit as (_ & _ & _ & _ & Hsame).
    split; [intros m' Em'; destruct (Hsame m' Em') as [-> ->]; done|]. intros m0 m1 _ Hm0 E. by apply (updated_fits m0 m1 (updated_object m new storage_order same_tags)).
  - destruct Hfit as (_ & Ht & _). split; [done|]. intros m t _ Hm E. destruct (append_tag_fits _ _ _ (fits_tags m Hm) Ht E) as [? ?]. by apply with_tags_fits.
  - destruct Hfit as (_ & Hn & _ & _ & Hv & Ho). split; [split; [done|unfold opened, unopened in Ho; tauto]|]. split; [done|]. apply Hv.
  - destruct Hfit as (_ & _ & Ho). split; [|done]. split; [done|]. unfold opened, unopened in Ho. tauto.
Qed.

(** ** Answers fit into replies *)

Lemma interval_u64 S i st id : cluster_ok S → S !! i = Some st → interval i id → in_u64 id.
Proof.
  intros Hok Hi Hid. pose proof (co_servers _ Hok). apply lookup_lt_Some in Hi. unfold interval, PDC_SERVER_ID_INTERVEL, lenZ in *. change (0 ≤ id < 18446744073709551616). lia.
Qed.
Lemma at_object_answer D hash id f out D' : at_object D hash id f out D' → (∀ m m' r, f m = Some (m', r) → r = 1 ∨ r = -1) → out = 1 ∨ out = -1.
Proof. unfold at_object. destruct (object_at _ _ _); [intros (m' & E & _) Hf; by eapply Hf|intros [-> _] _; by right]. Qed.
Lemma on_tags_answer D hash id f out D' : on_tags D hash id f out D' → out = 1 ∨ out = -1.
Proof.
  intros [[_ H]|[_ H]]; [apply (at_object_answer _ _ _ _ _ _ H); intros m m' r [= _ <-]; by left|]. destruct (d_conts D !! hash); destruct H as [-> _]; auto.
Qed.
Lemma one_fits out : out = 1 ∨ out = -1 → in_i32 out.
Proof. by intros [->| ->]. Qed.
Lemma small_answer D r out D' : dir_step D r out D' → match r with CreateObject _ _ _ | CreateContainer _ _ => True | AddToContainer _ _ | DelFromContainer _ _ => out = SUCCEED ∨ out = FAIL | _ => in_i32 out end.
Proof.
  destruct r; cbn [dir_step]; try done.
  - intros [(k & c & _ & _ & -> & _)|(_ & -> & _)]; [done|by case_bool_decide].
  - intros [(id & m & _ & _ & _ & -> & _)|(_ & -> & _)]; done.
  - intros H. apply one_fits, (at_object_answer _ _ _ _ _ _ H). intros m m' r. destruct (update_metadata m new); cbn; [|done]. intros [= _ <-]. by left.
  - intros H. apply one_fits, (at_object_answer _ _ _ _ _ _ H). intros m m' r. destruct (given tag); [|intros [= _ <-]; by right]. destruct (append_tag _ _); cbn; [|done]. intros [= _ <-]. by left.
  - intros H%on_tags_answer. by apply one_fits.
  - intros H%on_tags_answer. by apply one_fits.
  - intros [(k & c & _ & _ & -> & _)|(_ & -> & _)]; auto.
  - intros [(k & c & _ & _ & -> & _)|(_ & -> & _)]; auto.
Qed.

(** ** Every operation *)

Definition request_served S (i : nat) st (r : client_request) : Prop :=
  ∀ st' out, S !! i = Some st → server_of S r = Z.of_nat i → client_fits (cluster_directory S) r → exec st (request_of r) = Some (st', out) →
  dir_step (cluster_directory S) (request_of r) out (cluster_directory (<[i := st']> S)) → in_u64 out ∨ ¬ (∃ name cont_id p ds, r = MakeObject name cont_id p ds) ∧ ¬ (∃ name, r = MakeContainer name) →
  client_run S r = Some (<[i := st']> S, answer r out).
Ltac start_served Hi Er Hfit E Hsmall := intros st' out Hi Er Hfit E Hstep Hu; pose proof (small_answer _ _ _ _ Hstep) as Hsmall; cbn [request_of exec server_of client_fits] in *.

Lemma make_object_served S i st name cont_id p ds : request_served S i st (MakeObject name cont_id p ds).
Proof.
  start_served Hi Er Hfit E Hsmall. destruct Hu as [Hu|[Hu _]]; [|destruct Hu; by eexists _, _, _, _]. unfold client_run, PDC_Client_send_name_recv_id. cbn [new_object gen_obj_id_in_data pdc_metadata_transfer_time_step]. rewrite Er.
  rewrite (forward_spec old_memory rpc_gen_obj_id gen_obj_id_cb S i st (new_object name cont_id p ds) st' (Build_gen_obj_id_out_t out) Hi).
  - cbn. by case_decide.
  - pose proof (new_object_sendable (cluster_directory S) _ _ _ _ Hfit) as Hsend. destruct Hfit as (_ & _ & _ & Ht & _). split; [exact Hsend|]. split; [apply hash_u32|]. by split.
  - cbn [received rpc_in]. unfold gen_obj_id_cb.
    change (gen_obj_id_in_hash_value (new_object name cont_id p ds)) with (pdc_hash_djb2 name). change (gen_obj_id_in_data_type (new_object name cont_id p ds)) with (op_type p). by rewrite E.
  - by split.
Qed.
Lemma remove_object_served S i st h : request_served S i st (RemoveObject h).
Proof.
  start_served Hi Er Hfit E Hsmall. unfold client_run, PDC_Client_del_metadata, PDC_Client_delete_metadata_by_id. rewrite Er.
  rewrite (forward_spec old_memory rpc_metadata_delete_by_id metadata_delete_by_id_cb S i st (Build_metadata_delete_by_id_in_t (h_meta_id h)) st' (Build_metadata_delete_by_id_out_t out) Hi); [done|by split| |by split].
  cbn [received rpc_in]. unfold metadata_delete_by_id_cb. cbn [metadata_delete_by_id_in_obj_id]. destruct (PDC_Server_delete_metadata_by_id _ _) as [[st1 [ret out1]]|]; cbn in *; [|done]. by injection E as -> ->.
Qed.
Lemma remove_by_name_served S i st name p : request_served S i st (RemoveByName name p).
Proof.
  start_served Hi Er Hfit E Hsmall. unfold client_run, PDC_Client_delete_metadata. cbv zeta. rewrite Er.
  rewrite (forward_spec old_memory rpc_metadata_delete metadata_delete_cb S i st (Build_metadata_delete_in_t name (i32 (op_time_step p)) (pdc_hash_djb2 name)) st' (Build_metadata_delete_out_t out) Hi); [done| | |by split].
  - split; [done|]. split; [apply i32_i32|]. split; [apply hash_u32|done].
  - cbn [received rpc_in]. unfold metadata_delete_cb. cbn [metadata_delete_in_obj_name metadata_delete_in_time_step metadata_delete_in_hash_value]. by rewrite E.
Qed.
Lemma change_object_served S i st m new order same : request_served S i st (ChangeObject m new order same).
Proof.
  start_served Hi Er Hfit E Hsmall. pose proof (updated_sendable (cluster_directory S) m new order same Hfit) as Hsend. destruct Hfit as (Hid & _). unfold client_run, PDC_Client_update_metadata. rewrite Er.
  rewrite (forward_spec old_memory rpc_metadata_update metadata_update_cb S i st (Build_metadata_update_in_t (obj_id m) (pdc_hash_djb2 (obj_name m)) (updated_object m new order same)) st' (Build_metadata_update_out_t out) Hi); [done| | |by split].
  - split; [done|]. split; [apply hash_u32|]. split; [exact Hsend|done].
  - cbn [received rpc_in]. unfold metadata_update_cb. cbn [metadata_update_in_hash_value metadata_update_in_obj_id metadata_update_in_new_metadata]. by rewrite E.
Qed.
Lemma put_tag_served S i st h tag : request_served S i st (PutTag h tag).
Proof.
  start_served Hi Er Hfit E Hsmall. destruct Hfit as (Hid & Ht & Hne). unfold client_run, PDC_Client_add_tag. rewrite decide_False by done. rewrite Er.
  rewrite (forward_spec old_memory rpc_metadata_add_tag metadata_add_tag_cb S i st (Build_metadata_add_tag_in_t (h_meta_id h) (pdc_hash_djb2 (h_name h)) tag) st' (Build_metadata_add_tag_out_t out) Hi); [done| | |by split].
  - split; [done|]. split; [apply hash_u32|]. by split.
  - cbn [received rpc_in]. unfold metadata_add_tag_cb. cbn [metadata_add_tag_in_hash_value metadata_add_tag_in_obj_id metadata_add_tag_in_new_tag]. by rewrite E.
Qed.
Lemma put_kvtag_served S i st h name type value : request_served S i st (PutKvtag h name type value).
Proof.
  start_served Hi Er Hfit E Hsmall. destruct Hfit as (Hid & Hn & Hnoop & Ht & Hv & _). unfold client_run, PDC_add_kvtag. rewrite decide_False by lia. rewrite Er. set (t := Build_pdc_kvtag_t name (lenZ value) type value).
  assert (∀ old, received_kvtag t old = t) as Ewhole by (intros old; unfold received_kvtag; cbn; rewrite decide_False by lia; done).
  rewrite (forward_spec old_memory rpc_metadata_add_kvtag metadata_add_kvtag_cb S i st (Build_metadata_add_kvtag_in_t (h_meta_id h) (pdc_hash_djb2 (h_name h)) t) st' (Build_metadata_add_tag_out_t out) Hi); [done| | |by split].
  - split; [done|]. split; [apply hash_u32|]. split; [|done]. split; [done|]. split; [change (0 ≤ lenZ value < W32); lia|]. split; [done|]. cbn. rewrite decide_False by lia. by split.
  - cbn [received rpc_in]. unfold received_add_kvtag. cbn [metadata_add_kvtag_in_kvtag metadata_add_kvtag_in_obj_id metadata_add_kvtag_in_hash_value]. rewrite Ewhole. unfold metadata_add_kvtag_cb.
    cbn [metadata_add_kvtag_in_kvtag metadata_add_kvtag_in_obj_id metadata_add_kvtag_in_hash_value pdc_kvtag_name t]. rewrite decide_True by done. unfold kvtag_of. cbn [pdc_kvtag_name pdc_kvtag_type pdc_kvtag_value t]. by rewrite E.
Qed.
Lemma remove_kvtag_served S i st h key : request_served S i st (RemoveKvtag h key).
Proof.
  start_served Hi Er Hfit E Hsmall. destruct Hfit as (Hid & Ht & _). unfold client_run, PDCtag_delete. rewrite Er.
  rewrite (forward_spec old_memory rpc_metadata_del_kvtag metadata_del_kvtag_cb S i st (Build_metadata_get_kvtag_in_t (h_meta_id h) (pdc_hash_djb2 (h_name h)) key) st' (Build_metadata_add_tag_out_t out) Hi); [done| | |by split].
  - split; [done|]. split; [apply hash_u32|]. by split.
  - cbn [received rpc_in]. unfold metadata_del_kvtag_cb. cbn [metadata_get_kvtag_in_hash_value metadata_get_kvtag_in_obj_id metadata_get_kvtag_in_key]. by rewrite E.
Qed.
Lemma make_container_served S i st name : request_served S i st (MakeContainer name).
Proof.
  start_served Hi Er Hfit E Hsmall. destruct Hu as [Hu|[_ Hu]]; [|destruct Hu; by exists name]. unfold client_run, PDC_Client_create_cont_id. cbv zeta. rewrite Er.
  rewrite (forward_spec old_memory rpc_gen_cont_id gen_cont_id_cb S i st (Build_gen_cont_id_in_t name (pdc_hash_djb2 name)) st' (Build_gen_cont_id_out_t out) Hi); [| | |by split].
  - cbn. by case_decide.
  - split; [done|]. split; [apply hash_u32|done].
  - cbn [received rpc_in]. unfold gen_cont_id_cb. cbn [gen_cont_id_in_hash_value gen_cont_id_in_cont_name]. by rewrite E.
Qed.
Lemma pulled_ids (ids : list Z) : Forall in_u64 ids → load_u64s (HG_Bulk_pull (HG_Bulk_create (u64s_bytes ids))) 0 (length ids) = Some ids.
Proof. intros H. rewrite pull_create. pose proof (load_u64s_app ids [] [] 0) as E. rewrite app_nil_r in E. by apply E. Qed.
Lemma members_served S i st rank ids id op st' ret (Hi : S !! i = Some st) :
  PDC_get_server_by_obj_id id (pdc_server_num_g S) = Z.of_nat i → in_i32 rank → Forall in_u64 ids → lenZ ids < 2147483648 → in_u64 id → in_i32 op →
  cont_add_del_objs_rpc_cb st (Build_cont_add_del_objs_rpc_in_t op (lenZ ids) rank id (HG_Bulk_create (u64s_bytes ids))) = Some (st', Build_cont_add_del_objs_rpc_out_t (if decide (ret = SUCCEED) then 1 else 0)) →
  PDC_Client_add_del_objects_to_container old_memory S rank ids id op = Some (<[i := st']> S, SUCCEED).
Proof.
  intros Er Hrank Hids Hlen Hid Hop E. unfold PDC_Client_add_del_objects_to_container. rewrite Er.
  rewrite (forward_spec old_memory rpc_cont_add_del_objs_rpc cont_add_del_objs_rpc_cb S i st (Build_cont_add_del_objs_rpc_in_t op (lenZ ids) rank id (HG_Bulk_create (u64s_bytes ids))) st'
    (Build_cont_add_del_objs_rpc_out_t (if decide (ret = SUCCEED) then 1 else 0)) Hi); [done| |exact E|].
  - split; [done|]. split; [change (-2147483648 ≤ lenZ ids < 2147483648); unfold lenZ in *; lia|]. split; [done|]. split; [done|]. by split.
  - by case_decide.
Qed.
Lemma add_members_served S i st rank objs cont : request_served S i st (AddMembers rank objs cont).
Proof.
  start_served Hi Er Hfit E Hsmall. destruct Hfit as (Hrank & Hids & Hlen & Hid). unfold client_run, PDC_Client_add_objects_to_container. rewrite (members_served S i st rank _ _ ADD_OBJ st' out Hi); try done.
  - unfold lenZ in *. by rewrite length_fmap.
  - unfold cont_add_del_objs_rpc_cb. cbn [cont_add_del_objs_rpc_in_bulk_handle cont_add_del_objs_rpc_in_cnt cont_add_del_objs_rpc_in_op cont_add_del_objs_rpc_in_cont_id]. unfold lenZ at 1. rewrite Nat2Z.id, pulled_ids by done. cbn [mbind option_bind].
    rewrite decide_True by done. by rewrite E.
Qed.
Lemma remove_members_served S i st rank objs cont : request_served S i st (RemoveMembers rank objs cont).
Proof.
  start_served Hi Er Hfit E Hsmall. destruct Hfit as (Hrank & Hids & Hlen & Hid). unfold client_run, PDC_Client_del_objects_to_container. rewrite (members_served S i st rank _ _ DEL_OBJ st' out Hi); try done.
  - unfold lenZ in *. by rewrite length_fmap.
  - unfold cont_add_del_objs_rpc_cb. cbn [cont_add_del_objs_rpc_in_bulk_handle cont_add_del_objs_rpc_in_cnt cont_add_del_objs_rpc_in_op cont_add_del_objs_rpc_in_cont_id]. unfold lenZ at 1. rewrite Nat2Z.id, pulled_ids by done. cbn [mbind option_bind].
    rewrite decide_False by done. rewrite decide_True by done. injection E as E. by rewrite E.
Qed.
Lemma every_request_served S i st r : request_served S i st r.
Proof.
  destruct r; [apply make_object_served|apply remove_object_served|apply remove_by_name_served|apply change_object_served|apply put_tag_served|apply put_kvtag_served|apply remove_kvtag_served|apply make_container_served|
    apply add_members_served|apply remove_members_served].
Qed.

Lemma client_step S r : cluster_ok S → ids_left S → req_ok (cluster_directory S) (request_of r) → client_fits (cluster_directory S) r →
  ∃ S' out, client_run S r = Some (S', answer r out) ∧ dir_step (cluster_directory S) (request_of r) out (cluster_directory S') ∧ cluster_ok S'.
Proof.
  intros Hok Hleft Hreq Hfit. destruct (server_of_exists S r Hok) as (i & st & Er & Hi). destruct (client_routed S i st r Hok Hfit Hi Er) as [Hroute Hrf].
  destruct (cluster_serve S i st (request_of r) Hok Hleft Hi Hroute Hreq Hrf) as (st' & out & E & Hgive & Hstep & Hok'). exists (<[i := st']> S), out. split; [|done].
  apply (every_request_served S i st r); try done. destruct r; try (right; split; intros Hx; decompose [ex] Hx; congruence).
  - left. destruct Hgive as [->|Hint]; [done|by apply (interval_u64 S i st)].
  - left. cbn [request_of gives dir_step] in *. destruct (d_conts (cluster_directory S) !! pdc_hash_djb2 name) as [c|] eqn:Ec.
    + destruct Hstep as [-> _]. destruct (cont_route S _ c Hok Ec) as (j & y & Hj & _ & Hint & _). by apply (interval_u64 S j y).
    + apply (interval_u64 S i st); [done|done|]. apply Hgive. destruct (d_conts (directory_of st) !! pdc_hash_djb2 name) as [c|] eqn:Ed; [|done]. rewrite (proj2 (cluster_cont_some S _ c Hok)) in Ec; [done|by exists i, st].
Qed.
(** C17: all metadata servers together are one directory: an operation of any client goes
    to the one server that has what it is about, is carried there and back in messages, and
    changes the directory of all servers exactly as the request changes the directory of
    one; the client's result says what happened, an object or a container that is made gets
    an identifier that no server has given, and everything is again where clients look for
    it.  The operation does not change a time step, and has values of their types, strings
    that fit into their fields, and room in its container and in the counters of the filter
    ([req_ok], [client_fits]); an object that is deleted by its identifier is not the last
    of its name and time step unless freed memory is kept ([deletable]); and each server has
    identifiers left. *)
Theorem clients_share_directory S r : cluster_ok S → ids_left S → req_ok (cluster_directory S) (request_of r) → client_fits (cluster_directory S) r →
  ∃ S' out, client_run S r = Some (S', answer r out) ∧ dir_step (cluster_directory S) (request_of r) out (cluster_directory S') ∧ cluster_ok S'.
Proof. apply client_step. Qed.
End clients.

(** * Two servers *)

Module Run.
Import LittleEndian.
#[local] Existing Instance cleared_memory.
#[local] Instance listed_order : TableOrder := {| table_list := λ _ m, map_to_list m; table_list_perm := λ _ m, reflexivity _ |}.
#[local] Instance no_numbers : Numbers := {| get_number_from_string := λ _ _, None; cmp_func := λ _ _ _, 0 |}.
#[local] Instance zeros : Unassigned := λ _, 0.

Definition cleared (k : message_kind) : message k.
Proof. destruct k; repeat constructor. Defined.
Definition prop : obj_prop := ObjProp 7 3 2 0 1 [4] None None None.
Definition two : list meta_server := start_cluster 2.

Lemma two_left : ids_left two.
Proof. intros i st [Hi ->]%start_server. unfold PDC_SERVER_ID_INTERVEL. cbn. lia. Qed.
Lemma two_directory : cluster_directory two = Dir ∅ ∅.
Proof.
  unfold cluster_directory, two, start_cluster, spread. cbn [seq fmap list_fmap foldr compose]. rewrite !start_directory by (unfold PDC_SERVER_ID_INTERVEL, W64; lia). done.
Qed.
Lemma first_create_ok : req_ok (cluster_directory two) (request_of (MakeObject [97] 5 prop 0)).
Proof.
  rewrite two_directory. eexists. split; [reflexivity|]. split; [split; [by vm_compute|split; [done|by repeat constructor]]|]. split; [done|]. split; [done|]. by apply sharing_small.
Qed.
Lemma clients_share_directory_witness : let r := MakeObject [97] 5 prop 0 in
  ∃ S' out, client_run cleared two r = Some (S', answer r out) ∧ dir_step (cluster_directory two) (request_of r) out (cluster_directory S') ∧ cluster_ok S'.
Proof.
  apply (clients_share_directory cleared two (MakeObject [97] 5 prop 0)); [by apply start_cluster_ok|exact two_left|exact first_create_ok|].
  repeat split; by repeat constructor.
Defined.
Example made_on_second_server : snd <$> client_run cleared two (MakeObject [97] 5 prop 0) = Some (SUCCEED, 2000000000).
Proof. vm_compute. reflexivity. Qed.
End Run.
