(* ===== verification/MetadataQueries.v ===== *)
(** What clients of the metadata servers find out: the metadata of a name and a time step,
    the container of a name, the value of a tag, and the objects that have a tag; each
    answered from the directory of all servers.  Operations on what is not there. *)

From stdpp Require Import gmap.
From S2P Require Export MetadataClients.
#[local] Open Scope Z_scope.

Section queries.
Context `{FM : !FreshMemory, TO : !TableOrder, NU : !Numbers, BK : !Bulk, MC : !Mercury, UA : !Unassigned}.
Context (old_memory : ∀ k, message k).
Implicit Types (S : list meta_server) (st : meta_server) (d D : directory) (m : pdc_metadata_t) (c : pdc_cont_hash_table_entry_t).

Abbreviation text s := (Forall (λ ch, ch ≠ 0) s).

Lemma text_name s : name_ok s → text s.
Proof. intros H. eapply list.Forall_impl; [exact H|]. by intros ch [_ ?]. Qed.
(** A request that changes nothing. *)
Lemma forward_reads r serve S (i : nat) st (msg : message (rpc_in r)) reply : S !! i = Some st → sendable (message_proc (rpc_in r)) msg → serve st (received _ msg (old_memory (rpc_in r))) = Some (st, reply) →
  sendable (message_proc (rpc_out r)) reply → forward old_memory r serve S (Z.of_nat i) msg = Some (S, received _ reply (old_memory (rpc_out r))).
Proof. intros Hi Hm Hs Hr. rewrite (forward_spec old_memory r serve S i st msg st reply Hi Hm Hs Hr). by rewrite list_insert_id. Qed.

(** * The metadata of a name *)

Lemma no_metadata_sendable : sendable hg_proc_pdc_metadata_transfer_t no_metadata.
Proof. repeat split; first [apply junk_u64_fits|apply junk_u32_fits|apply junk_i32_fits|apply junk_u8_fits|apply junk_i8_fits|by repeat constructor|done]. Qed.
Lemma named_on_server S i st name ts m : cluster_ok S → S !! i = Some st → server_of_name name ts (lenZ S) = Z.of_nat i → named (cluster_directory S) name ts m ↔ named (directory_of st) name ts m.
Proof.
  intros Hok Hi Hr. split.
  - intros (E & En & Et). split; [|done]. apply (obj_by_name S i st Hok Hi (obj_id m) m E). by rewrite En, Et.
  - intros (E & En & Et). split; [|done]. apply cluster_obj_some; [done|]. by exists i, st.
Qed.
Lemma query_metadata_spec S name ts : cluster_ok S → name ≠ [] → name_ok name → lenZ name < OBJ_NAME_MAX → 0 ≤ ts < 2147483648 →
  match PDC_Client_query_metadata_name_timestep old_memory S name ts with
  | Some (S', (m', server_id)) => S' = S ∧ server_id = server_of_name name ts (lenZ S) ∧ ∃ m, named (cluster_directory S) name ts m ∧ m' = with_kvtags m []
  | None => ∀ m, ¬ named (cluster_directory S) name ts m
  end.
Proof.
  intros Hok Hne Hname Hlen Hts. destruct (name_exists S name ts Hok) as (i & st & Er & Hi). unfold PDC_Client_query_metadata_name_timestep. rewrite Er.
  pose proof (co_ok _ Hok i st Hi) as Hst. destruct (search_by_name_spec st name ts (so_reachable _ _ _ Hst) Hne Hname Hlen Hts) as (ret & res & E & Hres).
  assert (u32 ts = ts) as Ets by (unfold u32, W32; rewrite Z.mod_small; lia).
  rewrite (forward_reads rpc_metadata_query metadata_query_cb S i st (Build_metadata_query_in_t name (pdc_hash_djb2 name) ts) (Build_metadata_query_out_t (match res with Some m => PDC_metadata_t_to_transfer_t m | None => no_metadata end)) Hi).
  - cbn [mbind option_bind metadata_query_out_ret received rpc_out]. destruct res as [m|].
    + destruct Hres as [_ Hm]. destruct (so_objs _ _ _ Hst (obj_id m) m (proj1 Hm)) as (Hlo & _ & Hfit). rewrite decide_False.
      * rewrite transfer_roundtrip by done. cbn [mbind option_bind]. split; [done|]. split; [by rewrite <-Er|]. exists m. split; [|done]. by apply (named_on_server S i st).
      * cbn [PDC_metadata_t_to_transfer_t pdc_metadata_transfer_obj_id]. unfold PDC_SERVER_ID_INTERVEL in Hlo. lia.
    + rewrite decide_True by done. intros m Hm. apply (Hres m). by apply (named_on_server S i st).
  - split; [by apply text_name|]. split; [|by split; [apply hash_u32|]]. change (-2147483648 ≤ ts < 2147483648). lia.
  - cbn [received rpc_in]. unfold metadata_query_cb. cbn [metadata_query_in_obj_name metadata_query_in_hash_value metadata_query_in_time_step]. rewrite Ets, E. done.
  - split; [|done]. destruct res as [m|]; [|apply no_metadata_sendable]. destruct Hres as [_ Hm]. destruct (so_objs _ _ _ Hst (obj_id m) m (proj1 Hm)) as (_ & _ & Hfit). apply (mf_wire _ Hfit).
Qed.

(** * The container of a name *)

(** The hash of a name has one container; another name with the hash is not found. *)
Definition container_of D (name : string) : Z := match d_conts D !! pdc_hash_djb2 name with Some c => if decide (strcmp name (c_cont_name c) = 0) then c_cont_id c else 0 | None => 0 end.
Lemma query_container_spec S name : cluster_ok S → text name → PDC_Client_query_container_name old_memory S name = Some (S, (SUCCEED, container_of (cluster_directory S) name)).
Proof.
  intros Hok Hname. destruct (server_exists S (pdc_hash_djb2 name mod lenZ S)) as (i & st & Er & Hi); [apply Z.mod_pos_bound, (co_servers _ Hok)|]. unfold PDC_Client_query_container_name, container_of. cbv zeta. unfold pdc_server_num_g. rewrite Er.
  pose proof (cluster_cont S i st _ Hok Hi Er) as Ec. rewrite Ec.
  assert (∀ c, d_conts (directory_of st) !! pdc_hash_djb2 name = Some c → in_u64 (c_cont_id c)) as Hid by (intros c E; rewrite <-Ec in E; destruct (cont_route S _ c Hok E) as (j & y & Hj & _ & Hint & _); by apply (interval_u64 S j y)).
  assert (container_hash_table_g st = d_conts (directory_of st)) as Et by by destruct (reachable_rep st (so_reachable _ _ _ (co_ok _ Hok i st Hi))) as (_ & ? & _).
  set (id := match d_conts (directory_of st) !! _ with Some _ => _ | None => _ end). rewrite (forward_reads rpc_container_query container_query_cb S i st (Build_container_query_in_t name (pdc_hash_djb2 name)) (Build_container_query_out_t id) Hi); [done| | |].
  - split; [done|]. split; [apply hash_u32|done].
  - cbn [received rpc_in]. unfold container_query_cb, PDC_Server_find_container_by_name. cbn [container_query_in_cont_name]. rewrite Et. unfold id. destruct (d_conts (directory_of st) !! pdc_hash_djb2 name) as [c|]; [|done]. by case_decide.
  - split; [|done]. change (in_u64 id). unfold id. destruct (d_conts (directory_of st) !! pdc_hash_djb2 name) as [c|]; [|done]. case_decide; [by apply Hid|done].
Qed.

(** * The value of a tag *)

Definition tags_at D (h : handle) : option (list pdc_kvtag_t) :=
  match object_at (d_objs D) (pdc_hash_djb2 (h_name h)) (h_meta_id h) with Some m => Some (kvtags m) | None => c_kvtags <$> d_conts D !! pdc_hash_djb2 (h_name h) end.
Definition first_tag (key : string) (l : list pdc_kvtag_t) : option (list byte) := (λ t, kv_value t.2) <$> list_find (λ t, kv_name t = key) l.

Lemma on_kvtags_read {R} st hash id (none : R) (g : list pdc_kvtag_t → R) (l : list pdc_kvtag_t) : server_rep st (directory_of st) →
  match object_at (d_objs (directory_of st)) hash id with Some m => l = kvtags m | None => ¬ listed (d_objs (directory_of st)) hash ∧ c_kvtags <$> d_conts (directory_of st) !! hash = Some l end →
  on_kvtags st hash id none (λ l, (l, g l)) = Some (st, g l).
Proof.
  intros Hrep Hl. pose proof Hrep as (Ht & Hc & _). pose proof (listed_iff st _ hash Hrep) as Hlist. unfold on_kvtags. destruct (object_at _ _ _) as [m|] eqn:Eo.
  - apply object_at_Some in Eo as [E Hk]. destruct (proj1 Hlist) as [head Eh]; [by exists id, m|]. rewrite Eh. unfold with_target. rewrite Eh. pose proof (found_by_id _ _ hash head id Ht Eh) as Hfound.
    destruct (find_metadata_by_id_from_list _ _) as [[i m']|]; [|by destruct (Hfound m E)]. destruct Hfound as (Hi & _ & E' & _). assert (m' = m) as -> by congruence. cbn [mbind option_bind]. subst l.
    assert (with_kvtags m (kvtags m) = m) as -> by by destruct m. rewrite list_insert_id by done. destruct head as [n b ms]. cbn [n_obj bloom metadata] in *. rewrite insert_id by done. by destruct st.
  - destruct Hl as [Hno Ec]. rewrite Hlist in Hno. destruct (metadata_hash_table_g st !! hash) as [h|]; [destruct Hno; by exists h|]. rewrite Hc. destruct (d_conts (directory_of st) !! hash) as [c|] eqn:E; [|done]. injection Ec as <-.
    assert (with_cont_kvtags c (c_kvtags c) = c) as -> by by destruct c. rewrite insert_id by done. rewrite <-Hc. by destruct st.
Qed.
Lemma opened_on_server S h : cluster_ok S → opened (cluster_directory S) h → ∃ i st l, S !! i = Some st ∧ PDC_get_server_by_obj_id (h_meta_id h) (lenZ S) = Z.of_nat i ∧ interval i (h_meta_id h) ∧
  tags_at (cluster_directory S) h = Some l ∧ Forall kvtag_fits l ∧
  match object_at (d_objs (directory_of st)) (pdc_hash_djb2 (h_name h)) (h_meta_id h) with
  | Some m => l = kvtags m
  | None => ¬ listed (d_objs (directory_of st)) (pdc_hash_djb2 (h_name h)) ∧ c_kvtags <$> d_conts (directory_of st) !! pdc_hash_djb2 (h_name h) = Some l
  end.
Proof.
  intros Hok. unfold tags_at, opened. set (hash := pdc_hash_djb2 (h_name h)). intros [[m Em]|[(c & Ec & Hid) Hno]].
  - pose proof Em as [E Hk]%object_at_Some. destruct (obj_route S (h_meta_id h) m Hok E) as (i & st & Hi & Hint & Er). exists i, st, (kvtags m). rewrite Em. do 4 (split; [done|]).
    pose proof (cluster_obj S i st _ Hok Hi Hint) as Eo. rewrite E in Eo. symmetry in Eo. destruct (so_objs _ _ _ (co_ok _ Hok i st Hi) _ m Eo) as (_ & _ & Hfit). split; [apply (mf_kvtags _ Hfit)|]. by rewrite (proj2 (object_at_Some _ _ _ m)).
  - destruct (cont_route S hash c Hok Ec) as (i & st & Hi & Ed & Hint & Er). rewrite Hid in Hint, Er. assert (∀ D, ¬ listed (d_objs D) hash → object_at (d_objs D) hash (h_meta_id h) = None) as Hnone.
    { intros D Hn. destruct (object_at _ _ _) as [m|] eqn:E; [|done]. apply object_at_Some in E as [E Hk]. destruct Hn. by exists (h_meta_id h), m. }
    assert (¬ listed (d_objs (directory_of st)) hash) as Hnd by (intros (id & m & E & Hk); apply Hno; exists id, m; split; [apply cluster_obj_some; [done|]; by exists i, st|done]).
    exists i, st, (c_kvtags c). do 3 (split; [done|]). rewrite (Hnone _ Hno), (Hnone _ Hnd), Ec. split; [done|]. destruct (so_conts _ _ _ (co_ok _ Hok i st Hi) hash c Ed) as (_ & _ & _ & Hfit). split; [done|]. split; [done|]. by rewrite Ed.
Qed.
Lemma get_kvtag_spec S h key l : cluster_ok S → opened (cluster_directory S) h → text key → tags_at (cluster_directory S) h = Some l →
  PDC_get_kvtag old_memory S h key = Some (S, (SUCCEED, match first_tag key l with Some v => (lenZ v, if decide (0 < lenZ v) then Some v else None) | None => (0, None) end)).
Proof.
  intros Hok Hopen Hkey El. destruct (opened_on_server S h Hok Hopen) as (i & st & l' & Hi & Er & Hint & El' & Hfit & Hl). assert (l' = l) as -> by congruence. unfold PDC_get_kvtag, pdc_server_num_g. rewrite Er.
  set (t := match PDC_get_kvtag_value_from_list l key with Some (name, value) => Build_pdc_kvtag_t name (lenZ value) 0 value | None => Build_pdc_kvtag_t [] 0 0 [] end).
  assert (t = match first_tag key l with Some v => Build_pdc_kvtag_t key (lenZ v) 0 v | None => Build_pdc_kvtag_t [] 0 0 [] end ∧ ∀ v, first_tag key l = Some v → lenZ v < W32) as [Et Hv].
  { unfold t, first_tag, PDC_get_kvtag_value_from_list. destruct (list_find _ l) as [[k tag]|] eqn:Ef; cbn; [|done]. apply list_find_Some in Ef as (Ek & <- & _). split; [done|]. intros v [= <-]. apply list_elem_of_lookup_2 in Ek. rewrite list.Forall_forall in Hfit. by destruct (Hfit tag Ek). }
  rewrite (forward_reads rpc_metadata_get_kvtag metadata_get_kvtag_cb S i st (Build_metadata_get_kvtag_in_t (h_meta_id h) (pdc_hash_djb2 (h_name h)) key) (Build_metadata_get_kvtag_out_t 1 t) Hi).
  - cbn [mbind option_bind received rpc_out]. unfold received_get_kvtag, received_kvtag. cbn [metadata_get_kvtag_out_kvtag]. rewrite Et. destruct (first_tag key l) as [v|]; cbn [pdc_kvtag_size pdc_kvtag_value]; [|done].
    pose proof (lenZ_nonneg v). destruct (decide (lenZ v = 0)) as [E|E]; cbn [pdc_kvtag_size pdc_kvtag_value]; [by rewrite E|done].
  - split; [by apply (interval_u64 S i st)|]. split; [apply hash_u32|]. by split.
  - cbn [received rpc_in]. unfold metadata_get_kvtag_cb, PDC_Server_get_kvtag_someta. cbn [metadata_get_kvtag_in_hash_value metadata_get_kvtag_in_obj_id metadata_get_kvtag_in_key].
    rewrite (on_kvtags_read st _ _ (-1, None) (λ l, (1, PDC_get_kvtag_value_from_list l key)) l (reachable_rep st (so_reachable _ _ _ (co_ok _ Hok i st Hi))) Hl). done.
  - split; [done|]. split; [|done]. rewrite Et. destruct (first_tag key l) as [v|]; [|by split; repeat constructor]. specialize (Hv v eq_refl). pose proof (lenZ_nonneg v). split; [done|]. split; [change (0 ≤ lenZ v < W32); lia|]. split; [done|]. cbn. case_decide; by split.
Qed.

(** * The objects that have a tag *)


Context (elapsed memory type : Z) (name value : string).
Hypothesis (Helapsed : fits (Int true 8) elapsed) (Hmemory : fits (Int true 8) memory) (Htype : in_i8 type).
Hypothesis (Hname : text name) (Hvalue : text value) (Hlen : lenZ value + 3 < W32) (Hname_star : name ≠ [STAR]) (Hvalue_star : value ≠ [STAR]).


End queries.

Section answers.
Context `{FM : !FreshMemory, TO : !TableOrder, NU : !Numbers, BK : !Bulk, MC : !Mercury, UA : !Unassigned}.
Context (old_memory : ∀ k, message k).
Implicit Types (S : list meta_server) (D : directory) (m : pdc_metadata_t) (c : pdc_cont_hash_table_entry_t).

(** C19: what a client asks for by a name or of something it has opened is answered from
    the directory of all servers, and changes none of them: metadata of the name and time
    step, whole but for the tags, with the number of their server, when there are any (and
    only then is there an answer); the identifier of the container of the name, or 0; the
    value of the first tag with the name. *)
Theorem client_lookups_answered S name ts h key l : cluster_ok S → name ≠ [] → name_ok name → lenZ name < OBJ_NAME_MAX → 0 ≤ ts < 2147483648 →
  opened (cluster_directory S) h → Forall (λ ch, ch ≠ 0) key → tags_at (cluster_directory S) h = Some l →
  match PDC_Client_query_metadata_name_timestep old_memory S name ts with
  | Some (S', (m', server_id)) => S' = S ∧ server_id = server_of_name name ts (lenZ S) ∧ ∃ m, named (cluster_directory S) name ts m ∧ m' = with_kvtags m []
  | None => ∀ m, ¬ named (cluster_directory S) name ts m
  end ∧
  PDC_Client_query_container_name old_memory S name = Some (S, (SUCCEED, container_of (cluster_directory S) name)) ∧
  PDC_get_kvtag old_memory S h key = Some (S, (SUCCEED, match first_tag key l with Some v => (lenZ v, if decide (0 < lenZ v) then Some v else None) | None => (0, None) end)).
Proof.
  intros Hok Hne Hname Hlen Hts Hopen Hkey El. split; [by apply query_metadata_spec|]. split; [apply query_container_spec; [done|by apply text_name]|by apply get_kvtag_spec].
Qed.


(** * What cannot be done *)

(** What is to be made is there already, or what the request is about is not. *)
Definition refused D (r : client_request) : Prop :=
  match r with
  | MakeObject name cont_id p data_server => ∀ m, new_metadata (transfer_of (gen_obj_id_in_data (new_object name cont_id p data_server))) (op_type p) = Some m →
      ∃ id m', d_objs D !! id = Some m' ∧ PDC_metadata_cmp m' m = 0
  | RemoveObject h => d_objs D !! h_meta_id h = None ∧ ∀ k c, d_conts D !! k = Some c → c_cont_id c ≠ h_meta_id h
  | RemoveByName name p => ∀ id m, d_objs D !! id = Some m → ¬ (obj_name m = name ∧ time_step m = i32 (op_time_step p))
  | ChangeObject m _ _ _ => object_at (d_objs D) (pdc_hash_djb2 (obj_name m)) (obj_id m) = None
  | PutTag h _ => object_at (d_objs D) (pdc_hash_djb2 (h_name h)) (h_meta_id h) = None
  | PutKvtag h _ _ _ => unopened D h
  | RemoveKvtag h key => ∀ l t, tags_at D h = Some l → t ∈ l → kv_name t ≠ key
  | MakeContainer name => is_Some (d_conts D !! pdc_hash_djb2 name)
  | AddMembers _ _ cont | RemoveMembers _ _ cont => ∀ k c, d_conts D !! k = Some c → c_cont_id c ≠ h_meta_id cont
  end.
(** The result.  A deletion by name, operations on the members of a container, and setting
    and deleting a tag do not tell; a container that is there is what is made. *)
Definition refusal D (r : client_request) : perr_t * Z :=
  match r with
  | RemoveByName _ _ | AddMembers _ _ _ | RemoveMembers _ _ _ | PutKvtag _ _ _ _ | RemoveKvtag _ _ => (SUCCEED, 0)
  | MakeContainer name => (SUCCEED, default 0 (c_cont_id <$> d_conts D !! pdc_hash_djb2 name))
  | _ => (FAIL, 0)
  end.

Lemma no_tag_deleted (l : list pdc_kvtag_t) key : (∀ t, t ∈ l → kv_name t ≠ key) → PDC_del_kvtag_value_from_list l key = l.
Proof.
  intros H. unfold PDC_del_kvtag_value_from_list. destruct (list_find _ l) as [[i t]|] eqn:E; [|done]. apply list_find_Some in E as (Hi & Hk & _). destruct (H t); [by eapply list_elem_of_lookup_2|done].
Qed.
(** Deleting a tag that is not there. *)
Lemma on_tags_same D h key out D' : (∀ l t, tags_at D h = Some l → t ∈ l → kv_name t ≠ key) →
  on_tags D (pdc_hash_djb2 (h_name h)) (h_meta_id h) (λ l, PDC_del_kvtag_value_from_list l key) out D' → D' = D.
Proof.
  intros Hno [[_ Hat]|[Hl Hat]]; unfold at_object, tags_at in *.
  - destruct (object_at _ _ _) as [m|] eqn:E; [|by destruct Hat]. destruct Hat as (m' & [= <- _] & ->). apply object_at_Some in E as [E _]. rewrite no_tag_deleted by (intros t; by apply Hno).
    assert (with_kvtags m (kvtags m) = m) as -> by by destruct m. rewrite insert_id by done. by destruct D.
  - assert (object_at (d_objs D) (pdc_hash_djb2 (h_name h)) (h_meta_id h) = None) as E.
    { destruct (object_at _ _ _) as [m|] eqn:E; [|done]. apply object_at_Some in E as [E Hk]. destruct Hl. by exists (h_meta_id h), m. }
    rewrite E in Hno. destruct (d_conts D !! _) as [c|] eqn:Ec; [|by destruct Hat]. destruct Hat as [_ ->]. rewrite no_tag_deleted by (intros t; by apply Hno).
    assert (with_cont_kvtags c (c_kvtags c) = c) as -> by by destruct c. rewrite insert_id by done. by destruct D.
Qed.
Lemma container_id_positive S k c : cluster_ok S → d_conts (cluster_directory S) !! k = Some c → c_cont_id c ≠ 0.
Proof.
  intros Hok (i & st & Hi & E)%cluster_cont_some; [|done]. pose proof (conts_interval _ i st k c (co_ok _ Hok i st Hi) E) as H. unfold interval, PDC_SERVER_ID_INTERVEL in H. lia.
Qed.

(** C21: an operation that cannot be done - because an object that agrees with the one to
    be made is there already, or a container of the name's hash, or because the object,
    the container or the tag that it is about is not there - changes nothing on any
    server.  It fails where an object is made, deleted by its identifier, changed or given
    a text tag; it does as if it had succeeded where an object is deleted by its name, where
    it is about the members of a container or sets or deletes a tag with a name; making a
    container gives the one that is there.  Arguments are values of their types that fit
    into their fields ([req_ok], [client_fits]). *)
Theorem refused_changes_nothing S r : cluster_ok S → ids_left S → req_ok (cluster_directory S) (request_of r) → client_fits (cluster_directory S) r → refused (cluster_directory S) r →
  ∃ S', client_run old_memory S r = Some (S', refusal (cluster_directory S) r) ∧ cluster_directory S' = cluster_directory S ∧ cluster_ok S'.
Proof.
  intros Hok Hleft Hreq Hfit Hno. destruct (client_step old_memory S r Hok Hleft Hreq Hfit) as (S' & out & E & Hstep & Hok'). exists S'. rewrite E.
  enough (answer r out = refusal (cluster_directory S) r ∧ cluster_directory S' = cluster_directory S) as [-> ->] by done. clear E. destruct r; cbn [request_of dir_step refused answer refusal] in *; try done.
  - destruct Hstep as (m & Em & [(_ & -> & Ed)|(Hnew & _)]); [done|]. destruct (Hno m Em) as (id & m' & E & Ecmp). by destruct (Hnew id m' E).
  - destruct Hno as [Ho Hc]. destruct Hstep as [(k & c & E & Hid & _)|(_ & -> & Ed)]; [by destruct (Hc k c E)|]. rewrite Ho. split; [done|]. rewrite Ed, delete_id by done. by destruct (cluster_directory S).
  - destruct Hstep as [(id & m & E & En & Et & _)|(_ & -> & Ed)]; [by destruct (Hno id m E)|done].
  - unfold at_object in Hstep. rewrite Hno in Hstep. by destruct Hstep as [-> ->].
  - unfold at_object in Hstep. rewrite Hno in Hstep. by destruct Hstep as [-> ->].
  - split; [done|]. destruct Hno as [Eo Ec]. unfold on_tags, at_object in Hstep. rewrite Eo, Ec in Hstep. by destruct Hstep as [[_ [_ ->]]|[_ [_ ->]]].
  - split; [done|]. by eapply on_tags_same.
  - destruct Hno as [c Ec]. rewrite Ec in Hstep |- *. destruct Hstep as [-> ->]. split; [|done]. rewrite decide_False; [done|exact (container_id_positive S _ c Hok Ec)].
  - destruct Hstep as [(k & c & E & Hid & _)|(_ & -> & Ed)]; [by destruct (Hno k c E)|done].
  - destruct Hstep as [(k & c & E & Hid & _)|(_ & -> & Ed)]; [by destruct (Hno k c E)|done].
Qed.
End answers.

(** * An object on the second of two servers *)

Module Asked.
Import LittleEndian MetadataClients.Run.
#[local] Existing Instances cleared_memory listed_order no_numbers zeros.

Definition after S (r : client_request) : list meta_server := default S (fst <$> client_run cleared S r).
Lemma after_ok S r : cluster_ok S → ids_left S → req_ok (cluster_directory S) (request_of r) → client_fits (cluster_directory S) r → cluster_ok (after S r).
Proof. intros H1 H2 H3 H4. destruct (client_step cleared S r H1 H2 H3 H4) as (S' & out & E & _ & Hok). unfold after. by rewrite E. Qed.
Lemma seqs_left S n0 n1 : pdc_id_seq_g <$> S = [n0; n1] → n0 < 2000000000 → n1 < 3000000000 → ids_left S.
Proof.
  intros E H0 H1 i st Hi. assert ((pdc_id_seq_g <$> S) !! i = Some (pdc_id_seq_g st)) as Hs by by rewrite list_lookup_fmap, Hi. rewrite E in Hs. unfold PDC_SERVER_ID_INTERVEL.
  destruct i as [|[|i]]; cbn in Hs; [injection Hs as <-; lia|injection Hs as <-; lia|done].
Qed.

Definition make : client_request := MakeObject [97] 5 prop 0.
Definition a : handle := Opened 2000000000 [97].
Definition color : pdc_kvtag_t := KvTag [99] PDC_STRING [114; 101; 100; 0].
Definition made : list meta_server := after two make.
Definition tagged : list meta_server := after made (PutKvtag a [99] PDC_STRING [114; 101; 100; 0]).

Lemma make_fits D : client_fits D make.
Proof. repeat split; by repeat constructor. Qed.
Lemma made_ok : cluster_ok made.
Proof. apply after_ok; [by apply start_cluster_ok|exact two_left|exact first_create_ok|apply make_fits]. Qed.
Lemma made_left : ids_left made.
Proof. by apply (seqs_left _ 1000000000 2000000001); [vm_compute; reflexivity|..]. Qed.
Lemma opened_made : opened (cluster_directory made) a.
Proof. left. eexists. vm_compute. reflexivity. Qed.
Lemma tagged_ok : cluster_ok tagged.
Proof. apply after_ok; [exact made_ok|exact made_left|exact I|]. repeat split; try done; [by repeat constructor|left; exact opened_made]. Qed.
Lemma tagged_tags : tags_at (cluster_directory tagged) a = Some [color].
Proof. vm_compute. reflexivity. Qed.

Lemma client_lookups_answered_witness : PDC_get_kvtag cleared tagged a [99] = Some (tagged, (SUCCEED, (4, Some [114; 101; 100; 0]))).
Proof.
  apply (client_lookups_answered cleared tagged [97] 3 a [99] [color]); [exact tagged_ok|done|by apply (bool_decide_unpack _)|done|lia| |by repeat constructor|exact tagged_tags].
  left. eexists. vm_compute. reflexivity.
Defined.
Example red_object_found : snd <$> PDC_Client_query_kvtag cleared 0 0 tagged (Some [99]) PDC_STRING (Some (quoted [114; 42] ++ [0])) = Some [2000000000].
Proof. vm_compute. reflexivity. Qed.

Lemma made_same m : new_metadata (transfer_of (gen_obj_id_in_data (new_object [97] 5 prop 0))) (op_type prop) = Some m → ∃ m', d_objs (cluster_directory made) !! 2000000000 = Some m' ∧ PDC_metadata_cmp m' m = 0.
Proof.
  intros Em. assert ((λ m', (λ m, PDC_metadata_cmp m' m) <$> new_metadata (transfer_of (gen_obj_id_in_data (new_object [97] 5 prop 0))) (op_type prop)) <$> d_objs (cluster_directory made) !! 2000000000 = Some (Some 0)) as E by (vm_compute; reflexivity).
  rewrite Em in E. destruct (d_objs (cluster_directory made) !! 2000000000) as [m'|]; [|done]. exists m'. split; [done|]. by injection E.
Qed.
Lemma refused_changes_nothing_witness : ∃ S', client_run cleared made make = Some (S', (FAIL, 0)) ∧ cluster_directory S' = cluster_directory made ∧ cluster_ok S'.
Proof.
  apply (refused_changes_nothing cleared made make); [exact made_ok|exact made_left| |apply make_fits|].
  - eexists. split; [reflexivity|]. split; [split; [by vm_compute|split; [done|by repeat constructor]]|]. split; [done|]. split; [by vm_compute|]. apply sharing_small. by vm_compute.
  - intros m Em. exists 2000000000. by apply made_same.
Defined.
(** Making a container whose name is there gives that one. *)
Example container_made_twice : (λ S, snd <$> client_run cleared S (MakeContainer [98])) (after made (MakeContainer [98])) = snd <$> client_run cleared made (MakeContainer [98]).
Proof. vm_compute. reflexivity. Qed.
(** A query for an object that is not there ends the client. *)
Example missing_object_crashes : PDC_Client_query_metadata_name_timestep cleared made [98] 3 = None.
Proof. vm_compute. reflexivity. Qed.
(** A time step that is changed: the object is no longer found where clients look. *)
Definition moved : pdc_metadata_t := Metadata 0 [] [97] 4 0 2000000000 5 0 0 0 [] [] [] 1 [4; 0; 0; 0] 0 no_transform.
Example changed_time_step_lost : PDC_Client_query_metadata_name_timestep cleared (after made (ChangeObject (Metadata 0 [] [97] 3 0 2000000000 5 0 0 0 [] [] [] 1 [4; 0; 0; 0] 0 no_transform) moved 0 false)) [97] 4 = None.
Proof. vm_compute. reflexivity. Qed.
End Asked.
