(* ===== verification/Checkpoint.v ===== *)
(** The checkpoint of a server and its restart ([src/src/server/pdc_server.c]:
    [PDC_Server_checkpoint], [PDC_Server_restart]): the file is a list of bytes, written
    and read field by field; a structure is written as it lies in memory, pointers
    included. *)

From stdpp Require Import gmap sorting.
From S2P Require Export MetadataService Storage MetadataQuery.
#[local] Open Scope Z_scope.

(** * Data *)

(** [pdc_histogram_t]; a [double] is its bits. *)
Record pdc_histogram_t := Histogram { h_dtype : Z; h_incr : Z; h_range : list Z; h_bin : list Z }.
(** A storage region of an object: the fields of [region_list_t] that outlive a restart;
    [sr_fields] has the position and the size. *)
Record storage_region := StorageRegion { sr_fields : region_list_t; sr_location : string; sr_loc_type : Z; sr_hist : option pdc_histogram_t }.
(** The fields of a container that are no pointers. *)
Record container_fields := ContainerFields { cf_cont_id : Z; cf_cont_name : string; cf_n_obj : Z; cf_n_deleted : Z; cf_n_allocated : Z; cf_tags : string }.
Definition fields_of (c : pdc_cont_hash_table_entry_t) : container_fields := ContainerFields (c_cont_id c) (c_cont_name c) (c_n_obj c) (c_n_deleted c) (c_n_allocated c) (c_tags c).

Definition PDC_LUSTRE : Z := 1.
Definition GLOBAL_CSCRATCH : string := [47; 103; 108; 111; 98; 97; 108; 47; 99; 115; 99; 114; 97; 116; 99; 104].

(** The structures in memory: their size, their bytes, and the fields that are no
    pointers in given bytes. *)
Class ServerLayout := {
  metadata_size : Z;
  metadata_bytes : pdc_metadata_t → list byte;
  metadata_of : list byte → pdc_metadata_t;
  metadata_bytes_size m : lenZ (metadata_bytes m) = metadata_size;
  metadata_of_bytes m : with_kvtags (metadata_of (metadata_bytes m)) [] = with_kvtags m [];
  container_size : Z;
  container_bytes : pdc_cont_hash_table_entry_t → list byte;
  container_of : list byte → container_fields;
  container_bytes_size c : lenZ (container_bytes c) = container_size;
  container_of_bytes c : container_of (container_bytes c) = fields_of c;
  region_size : Z;
  region_bytes : region_list_t → string → Z → list byte;
  region_of : list byte → region_list_t * string * Z;
  region_bytes_size r l t : lenZ (region_bytes r l t) = region_size;
  region_of_bytes r l t : region_of (region_bytes r l t) = (r, l, t);
}.

(** The parts of a server that a checkpoint has: the tables, the storage regions by
    object, and the regions of the data server with the paths and kinds in their
    structures. *)
Record server_parts := ServerParts {
  sp_meta : meta_server;
  sp_storage : Z → list storage_region;
  sp_data : list data_server_region_t;
  sp_location : region_list_t → string;
  sp_loc_type : region_list_t → Z;
  sp_query : metadata_state;
}.
(** What a restart has from a checkpoint; it sets neither the next identifier nor the
    number of objects. *)
Record restarted := Restarted {
  rs_table : gmap Z pdc_hash_table_entry_head;
  rs_conts : gmap Z container_fields;
  rs_storage : list (Z * list storage_region);
  rs_data : list data_server_region_t;
  rs_query : metadata_state;
}.

(** * The file *)

Definition i8_bytes (z : Z) : list byte := u8_bytes (z mod 256).
(** [fread] of one field: what is read, and the rest of the file; [None] when there is
    less, after which the code goes on with what the memory holds. *)
Definition reader (A : Type) : Type := list byte → option (A * list byte).
#[export] Instance reader_ret : MRet reader := λ A x file, Some (x, file).
#[export] Instance reader_bind : MBind reader := λ A B f p file, match p file with Some (x, file) => f x file | None => None end.
Definition fread (n : Z) : reader (list byte) := λ file, if decide (0 ≤ n ≤ lenZ file) then Some (take (Z.to_nat n) file, drop (Z.to_nat n) file) else None.
Definition failed {A} : reader A := λ _, None.
Definition read_int : reader Z := b ← fread 4; mret (i32 (le_decode b)).
Definition read_u32 : reader Z := b ← fread 4; mret (le_decode b).
Definition read_i8 : reader Z := b ← fread 1; mret ((le_decode b + 128) mod 256 - 128).
Definition read_u64 : reader Z := b ← fread 8; mret (le_decode b).
Fixpoint read_n {A} (n : nat) (p : reader A) : reader (list A) :=
  match n with O => mret [] | S n => x ← p; l ← read_n n p; mret (x :: l) end.
Definition count_bytes {A} (l : list A) : list byte := int_bytes (Z.of_nat (length l) mod W32).

Section checkpoint.
Context `{FM : !FreshMemory, TO : !TableOrder, SL : !ServerLayout}.

(** ** Checkpoint *)

Definition kvtag_bytes (t : pdc_kvtag_t) : list byte :=
  int_bytes ((lenZ (kv_name t) + 1) mod W32) ++ (kv_name t ++ [0]) ++ u32_bytes (u32 (lenZ (kv_value t))) ++ i8_bytes (kv_type t) ++ kv_value t.
Definition hist_bytes (h : option pdc_histogram_t) : list byte :=
  match h with
  | None => int_bytes 0
  | Some h => int_bytes 1 ++ int_bytes (h_dtype h mod W32) ++ count_bytes (h_bin h) ++ u64s_bytes (h_range h) ++ u64s_bytes (h_bin h) ++ u64_bytes (h_incr h)
  end.
Definition storage_bytes (r : storage_region) : list byte := region_bytes (sr_fields r) (sr_location r) (sr_loc_type r) ++ hist_bytes (sr_hist r).
Definition object_bytes (storage : Z → list storage_region) (m : pdc_metadata_t) : list byte :=
  metadata_bytes m ++ (count_bytes (kvtags m) ++ (kvtags m ≫= kvtag_bytes)) ++ (count_bytes (storage (obj_id m)) ++ (storage (obj_id m) ≫= storage_bytes)).
Definition container_record (c : pdc_cont_hash_table_entry_t) : list byte := u32_bytes (pdc_hash_djb2 (c_cont_name c)) ++ container_bytes c.
(** [None]: a list without objects. *)
Definition entry_record (storage : Z → list storage_region) (head : pdc_hash_table_entry_head) : option (list byte) :=
  first ← metadata head !! 0%nat;
  Some (int_bytes (n_obj head mod W32) ++ u32_bytes (pdc_hash_djb2 (obj_name first)) ++ (metadata head ≫= object_bytes storage)).
Definition data_region_bytes (location : region_list_t → string) (loc_type : region_list_t → Z) (d : data_server_region_t) : list byte :=
  u64_bytes (dsr_obj_id d) ++ count_bytes (dsr_storage d) ++ (dsr_storage d ≫= (λ r, region_bytes r (location r) (loc_type r))).
(** [query] is the checkpoint of the queries. *)
Definition checkpoint_bytes (s : server_parts) (query : list byte) : option (list byte) :=
  let conts := table_list (container_hash_table_g (sp_meta s)) in
  let heads := table_list (metadata_hash_table_g (sp_meta s)) in
  entries ← mapM (λ e, entry_record (sp_storage s) e.2) heads;
  Some (count_bytes conts ++ (conts ≫= (λ e, container_record e.2)) ++
        count_bytes heads ++ concat entries ++
        count_bytes (sp_data s) ++ (sp_data s ≫= data_region_bytes (sp_location s) (sp_loc_type s)) ++
        u64_bytes (u64 (lenZ query)) ++ query).
Definition PDC_Server_checkpoint (junk : byte) (raw : nat → nat → Z → list byte) (s : server_parts) : option (list byte) :=
  query ← transfer_request_metadata_query_checkpoint junk raw (sp_query s); checkpoint_bytes s query.

(** ** Restart *)

Definition read_string (n : Z) : reader string := b ← fread n; match c_string b with Some s => mret s | None => failed end.
Definition read_kvtag : reader pdc_kvtag_t :=
  key_len ← read_int; name ← read_string key_len; size ← read_u32; type ← read_i8; value ← fread size; mret (KvTag name type value).
Definition read_hist : reader (option pdc_histogram_t) :=
  has_hist ← read_int;
  if decide (has_hist = 1) then
    dtype ← read_int; nbin ← read_int;
    range ← read_n (Z.to_nat (nbin * 2)) read_u64; bin ← read_n (Z.to_nat nbin) read_u64; incr ← read_u64;
    mret (Some (Histogram dtype incr range bin))
  else mret None.
(** The size of the region is that of its points. *)
Definition reset_size (r : region_list_t) : region_list_t := RegionList (rl_ndim r) (rl_start r) (rl_count r) (rl_unit_size r) (rl_offset r) (foldl (λ s c, s *w c) 1 (take (rl_ndim r) (rl_count r))).
Definition restored_region (r : storage_region) : storage_region :=
  StorageRegion (reset_size (sr_fields r)) (sr_location r) (if contains (sr_location r) GLOBAL_CSCRATCH then PDC_LUSTRE else sr_loc_type r) (sr_hist r).
Definition read_region : reader (region_list_t * string * Z) := b ← fread region_size; mret (region_of b).
Definition read_storage : reader storage_region := r ← read_region; h ← read_hist; mret (restored_region (StorageRegion r.1.1 r.1.2 r.2 h)).
(** [memcmp] of the starts. *)
Definition region_cmp (a b : storage_region) : Z := memcmp (u64s_bytes (take (rl_ndim (sr_fields a)) (rl_start (sr_fields a)))) (u64s_bytes (take (rl_ndim (sr_fields a)) (rl_start (sr_fields b)))).
(** [DL_SORT] merges and is stable. *)
Definition region_le (a b : storage_region) : Prop := region_cmp a b ≤ 0.
#[export] Instance region_le_dec : RelDecision region_le := λ a b, decide (region_cmp a b ≤ 0).
Definition sort_regions (l : list storage_region) : list storage_region := merge_sort region_le l.
Definition read_object : reader (pdc_metadata_t * list storage_region) :=
  b ← fread metadata_size;
  n_kvtag ← read_int; tags ← read_n (Z.to_nat n_kvtag) read_kvtag;
  n_region ← read_int;
  if decide (n_region < 0) then failed
  else regions ← read_n (Z.to_nat n_region) read_storage; mret (with_kvtags (metadata_of b) tags, sort_regions regions).
Definition read_container : reader (Z * container_fields) := hash_key ← read_u32; b ← fread container_size; mret (hash_key, container_of b).
Definition read_entry : reader (Z * list (pdc_metadata_t * list storage_region)) :=
  count ← read_int; hash_key ← read_u32; l ← read_n (Z.to_nat count) read_object; mret (hash_key, l).
(** The list of an entry, object by object. *)
Definition rebuilt (l : list pdc_metadata_t) : pdc_hash_table_entry_head := foldl PDC_Server_hash_table_list_insert (Head 0 None []) l.
(** The file is not open, the descriptor is -1. *)
Definition read_data_region : reader data_server_region_t :=
  obj_id ← read_u64; n_region ← read_int; regions ← read_n (Z.to_nat n_region) read_region; mret (DataServerRegion obj_id (-1) 0 ((λ r, r.1.1) <$> regions)).
Definition insert_all {A} (l : list (Z * A)) : gmap Z A := foldl (λ t e, <[e.1 := e.2]> t) ∅ l.
Definition read_checkpoint : reader (gmap Z container_fields * list (Z * list (pdc_metadata_t * list storage_region)) * list data_server_region_t * list byte) :=
  n_cont ← read_int; conts ← read_n (Z.to_nat n_cont) read_container;
  n_entry ← read_int; entries ← read_n (Z.to_nat n_entry) read_entry;
  n_objs ← read_int; data ← read_n (Z.to_nat n_objs) read_data_region;
  checkpoint_size ← read_u64; query ← fread checkpoint_size;
  mret (insert_all conts, entries, data, query).
Definition PDC_Server_restart (pdc_server_size : nat) (file : list byte) : option restarted :=
  '(conts, entries, data, query, _) ← read_checkpoint file;
  q ← transfer_request_metadata_query_init pdc_server_size (Some query);
  Some (Restarted (insert_all ((λ e, (e.1, rebuilt (e.2.*1))) <$> entries)) conts (entries ≫= (λ e, (λ o, (obj_id o.1, o.2)) <$> e.2)) data q).
End checkpoint.
