(* ===== verification/CheckpointSpec.v ===== *)
(** A restart from the checkpoint of a server has its objects, tags, storage regions,
    containers without their members, and the regions of the data server. *)

From stdpp Require Import gmap sorting.
From S2P Require Export Checkpoint.
#[local] Open Scope Z_scope.

(** * Fields *)

(** [p] reads [x] where [bytes] are. *)
Definition reads {A} (p : reader A) (bytes : list byte) (x : A) : Prop := ∀ rest, p (bytes ++ rest) = Some (x, rest).

Lemma reads_ret {A} (x : A) : reads (mret x) [] x.
Proof. done. Qed.
Lemma reads_bind {A B} (p : reader A) (f : A → reader B) b b' x y : reads p b x → reads (f x) b' y → reads (p ≫= f) (b ++ b') y.
Proof. intros Hp Hf rest. unfold mbind, reader_bind. by rewrite <-app_assoc, Hp, Hf. Qed.
Lemma reads_last {A B} (p : reader A) (f : A → B) b x : reads p b x → reads (x ← p; mret (f x)) b (f x).
Proof. intros Hp. rewrite <-(app_nil_r b). by eapply reads_bind, reads_ret. Qed.
Lemma reads_fread b n : n = lenZ b → reads (fread n) b b.
Proof.
  intros -> rest. unfold fread. rewrite lenZ_app. pose proof (lenZ_nonneg b). pose proof (lenZ_nonneg rest). rewrite decide_True by lia. unfold lenZ. by rewrite Nat2Z.id, take_app_length, drop_app_length.
Qed.
Definition is_int (z : Z) : Prop := -2147483648 ≤ z < 2147483648.
Lemma reads_int z : is_int z → reads read_int (int_bytes (z mod W32)) z.
Proof. intros Hz. rewrite <-(int_roundtrip z Hz) at 2. apply (reads_last (fread 4) (λ b, i32 (le_decode b))), reads_fread. by rewrite lenZ_int_bytes. Qed.
Lemma reads_u32 z : 0 ≤ z < W32 → reads read_u32 (u32_bytes z) z.
Proof. intros Hz. rewrite <-(le_decode_encode 4 z Hz) at 2. apply (reads_last (fread 4) le_decode), reads_fread. by rewrite lenZ_u32_bytes. Qed.
Lemma reads_u64 z : is_u64 z → reads read_u64 (u64_bytes z) z.
Proof. intros Hz. rewrite <-(u64_roundtrip z Hz) at 2. apply (reads_last (fread 8) le_decode), reads_fread. by rewrite lenZ_u64_bytes. Qed.
Lemma reads_i8 z : -128 ≤ z < 128 → reads read_i8 (i8_bytes z) z.
Proof.
  intros Hz. assert ((le_decode (i8_bytes z) + 128) mod 256 - 128 = z) as E.
  { unfold i8_bytes, u8_bytes. rewrite le_decode_encode by (apply Z.mod_pos_bound; done). rewrite Zplus_mod_idemp_l, Z.mod_small; lia. }
  rewrite <-E at 2. apply (reads_last (fread 1) (λ b, (le_decode b + 128) mod 256 - 128)), reads_fread. unfold i8_bytes; by rewrite lenZ_u8_bytes.
Qed.
Lemma reads_n {A B} (p : reader B) (bytes : A → list byte) (g : A → B) l : (∀ x, x ∈ l → reads p (bytes x) (g x)) → reads (read_n (length l) p) (l ≫= bytes) (g <$> l).
Proof.
  induction l as [|x l IH]; intros Hl; [apply reads_ret|]. rewrite bind_cons. cbn [length read_n fmap list_fmap]. eapply reads_bind; [apply Hl; set_solver|].
  apply (reads_last _ (λ k, g x :: k)), IH. set_solver.
Qed.
Definition short {A} (l : list A) : Prop := Z.of_nat (length l) < 2147483648.
Lemma reads_counted {A B} (p : reader B) (bytes : A → list byte) (g : A → B) l : short l → (∀ x, x ∈ l → reads p (bytes x) (g x)) →
  reads (n ← read_int; read_n (Z.to_nat n) p) (count_bytes l ++ (l ≫= bytes)) (g <$> l).
Proof. intros Hs Hl. eapply reads_bind; [apply reads_int; unfold is_int, short in *; lia|]. rewrite Nat2Z.id. by apply reads_n. Qed.
Lemma reads_counted_bind {A B C} (p : reader B) (bytes : A → list byte) (g : A → B) l (f : list B → reader C) b y : short l → (∀ x, x ∈ l → reads p (bytes x) (g x)) → reads (f (g <$> l)) b y →
  reads (n ← read_int; k ← read_n (Z.to_nat n) p; f k) ((count_bytes l ++ (l ≫= bytes)) ++ b) y.
Proof.
  intros Hs Hl Hf rest. rewrite <-app_assoc. pose proof (reads_counted p bytes g l Hs Hl (b ++ rest)) as E. unfold mbind, reader_bind in *. destruct (read_int _) as [[n file]|]; [|done].
  rewrite E. apply Hf.
Qed.
Lemma reads_u64s l : Forall is_u64 l → reads (read_n (length l) read_u64) (u64s_bytes l) l.
Proof. intros Hl. rewrite <-(list_fmap_id l) at 3. apply reads_n. intros x Hx. apply reads_u64. rewrite list.Forall_forall in Hl. by apply Hl. Qed.
Lemma c_string_end s : Forall (λ c, c ≠ 0) s → c_string (s ++ [0]) = Some s.
Proof. induction 1 as [|c s Hc _ IH]; cbn; [done|]. by rewrite decide_False, IH. Qed.

Section spec.
Context `{FM : !FreshMemory, TO : !TableOrder, SL : !ServerLayout}.

(** * Tags, regions and objects *)

Definition kvtag_ok (t : pdc_kvtag_t) : Prop := Forall (λ c, c ≠ 0) (kv_name t) ∧ lenZ (kv_name t) < 2147483647 ∧ lenZ (kv_value t) < W32 ∧ -128 ≤ kv_type t < 128.
Lemma reads_kvtag t : kvtag_ok t → reads read_kvtag (kvtag_bytes t) t.
Proof.
  intros (Hn & Hl & Hv & Ht). pose proof (lenZ_nonneg (kv_name t)). pose proof (lenZ_nonneg (kv_value t)). unfold read_kvtag, kvtag_bytes. eapply reads_bind; [apply reads_int; unfold is_int; lia|].
  eapply (reads_bind _ _ _ _ (kv_name t)). { intros rest. unfold read_string, mbind at 1, reader_bind at 1. rewrite reads_fread by (rewrite lenZ_app; done). by rewrite c_string_end. }
  eapply reads_bind; [apply reads_u32, Z.mod_pos_bound; done|]. eapply reads_bind; [by apply reads_i8|]. destruct t as [name type value]. cbn [kv_name kv_type kv_value] in *.
  apply (reads_last _ (λ v, KvTag name type v)), reads_fread. unfold u32. by rewrite Z.mod_small by lia.
Qed.
Definition hist_ok (h : pdc_histogram_t) : Prop := is_int (h_dtype h) ∧ is_u64 (h_incr h) ∧ Forall is_u64 (h_range h) ∧ Forall is_u64 (h_bin h) ∧ length (h_range h) = (length (h_bin h) * 2)%nat ∧ Z.of_nat (length (h_bin h)) < 1073741824.
Lemma reads_hist h : (∀ h', h = Some h' → hist_ok h') → reads read_hist (hist_bytes h) h.
Proof.
  intros Hh. unfold read_hist, hist_bytes. destruct h as [[dtype incr range bin]|].
  2:{ rewrite <-(app_nil_r (int_bytes 0)). eapply reads_bind; [apply (reads_int 0); unfold is_int; lia|]. rewrite decide_False by done. apply reads_ret. }
  destruct (Hh _ eq_refl) as (H1 & H2 & H3 & H4 & H5 & H6). cbn [h_dtype h_incr h_range h_bin] in *. eapply reads_bind; [apply (reads_int 1); unfold is_int; lia|]. rewrite decide_True by done.
  eapply reads_bind; [by apply reads_int|]. eapply reads_bind; [apply reads_int; unfold is_int; lia|]. replace (Z.to_nat (Z.of_nat (length bin) * 2)) with (length range) by lia. rewrite Nat2Z.id.
  eapply reads_bind; [by apply reads_u64s|]. eapply reads_bind; [by apply reads_u64s|]. by apply (reads_last read_u64 (λ i, Some (Histogram dtype i range bin))), reads_u64.
Qed.
Definition storage_ok (r : storage_region) : Prop := ∀ h, sr_hist r = Some h → hist_ok h.
Lemma reads_region r l t : reads read_region (region_bytes r l t) (r, l, t).
Proof. rewrite <-(region_of_bytes r l t). apply (reads_last _ region_of), reads_fread. by rewrite region_bytes_size. Qed.
Lemma reads_storage r : storage_ok r → reads read_storage (storage_bytes r) (restored_region r).
Proof.
  intros Hr. destruct r as [f l t h]. unfold read_storage, storage_bytes. eapply reads_bind; [apply reads_region|]. cbn [fst snd sr_hist sr_fields sr_location sr_loc_type]. by apply (reads_last _ (λ h, restored_region (StorageRegion f l t h))), reads_hist.
Qed.
(** The storage regions of an object after a restart. *)
Definition storage_after (storage : Z → list storage_region) (id : Z) : list storage_region := sort_regions (restored_region <$> storage id).
Definition object_ok (storage : Z → list storage_region) (m : pdc_metadata_t) : Prop := short (kvtags m) ∧ Forall kvtag_ok (kvtags m) ∧ short (storage (obj_id m)) ∧ Forall storage_ok (storage (obj_id m)).
Lemma with_kvtags_again m t t' : with_kvtags (with_kvtags m t) t' = with_kvtags m t'.
Proof. done. Qed.
Lemma with_own_kvtags m : with_kvtags m (kvtags m) = m.
Proof. by destruct m. Qed.
Lemma reads_object storage m : object_ok storage m → reads read_object (object_bytes storage m) (m, storage_after storage (obj_id m)).
Proof.
  intros (H1 & H2 & H3 & H4). rewrite list.Forall_forall in H2. rewrite list.Forall_forall in H4. unfold read_object, object_bytes. eapply reads_bind; [apply reads_fread; by rewrite metadata_bytes_size|].
  eapply (reads_counted_bind read_kvtag kvtag_bytes id); [done|intros t Ht; apply reads_kvtag; by apply H2|]. rewrite list_fmap_id.
  assert (with_kvtags (metadata_of (metadata_bytes m)) (kvtags m) = m) as Em by (rewrite <-(with_kvtags_again _ []), metadata_of_bytes, with_kvtags_again; apply with_own_kvtags).
  eapply reads_bind; [apply reads_int; unfold is_int, short in *; lia|]. rewrite decide_False by lia. rewrite Nat2Z.id, Em.
  apply (reads_last _ (λ l, (m, sort_regions l))), (reads_n read_storage storage_bytes restored_region). intros r Hr. apply reads_storage. by apply H4.
Qed.

(** * Entries *)

Lemma reads_container c : 0 ≤ pdc_hash_djb2 (c_cont_name c) < W32 → reads read_container (container_record c) (pdc_hash_djb2 (c_cont_name c), fields_of c).
Proof.
  intros Hh. unfold read_container, container_record. eapply reads_bind; [by apply reads_u32|]. rewrite <-container_of_bytes. apply (reads_last _ (λ b, (pdc_hash_djb2 (c_cont_name c), container_of b))), reads_fread. by rewrite container_bytes_size.
Qed.
Lemma reads_data_region location loc_type d : is_u64 (dsr_obj_id d) → short (dsr_storage d) → reads read_data_region (data_region_bytes location loc_type d) (DataServerRegion (dsr_obj_id d) (-1) 0 (dsr_storage d)).
Proof.
  intros Hid Hs. unfold read_data_region, data_region_bytes. eapply reads_bind; [by apply reads_u64|]. rewrite <-(app_nil_r (count_bytes _ ++ _)).
  eapply (reads_counted_bind read_region _ (λ r, (r, location r, loc_type r))); [done|intros r _; apply reads_region|]. rewrite <-list_fmap_compose. cbn. rewrite list_fmap_id. apply reads_ret.
Qed.

Lemma djb2_range s : 0 ≤ pdc_hash_djb2 s < W32.
Proof.
  unfold pdc_hash_djb2. assert (∀ h, 0 ≤ h < W32 → 0 ≤ foldl (λ hash c, u32 (u32 (u32 (Z.shiftl hash 5) + hash) + c)) h s < W32) as H; [|apply H; unfold W32; lia].
  induction s as [|c s IH]; intros h Hh; cbn [foldl]; [done|]. apply IH. by apply Z.mod_pos_bound.
Qed.
Definition object_after (storage : Z → list storage_region) (m : pdc_metadata_t) : pdc_metadata_t * list storage_region := (m, storage_after storage (obj_id m)).
Lemma reads_entry storage key head : list_ok key head → metadata head ≠ [] → (∀ m, m ∈ metadata head → object_ok storage m) →
  ∃ b, entry_record storage head = Some b ∧ reads read_entry b (key, object_after storage <$> metadata head).
Proof.
  intros (Hn & Hlen & _ & _ & Hall) Hne Hok. unfold entry_record. destruct (metadata head) as [|first l] eqn:E; [done|]. cbn [lookup list_lookup mbind option_bind]. eexists. split; [done|].
  pose proof (lenZ_nonneg (first :: l)). destruct (Hall first) as [Hk _]; [set_solver|]. unfold read_entry. eapply reads_bind; [apply reads_int; unfold is_int; lia|]. eapply reads_bind; [apply reads_u32, djb2_range|].
  rewrite Hk, Hn. unfold lenZ. rewrite Nat2Z.id. apply (reads_last _ (λ l, (key, l))), (reads_n read_object (object_bytes storage)). intros m Hm. by apply reads_object, Hok.
Qed.

(** * Lists and tables *)

Lemma rebuild_list key (whole : list pdc_metadata_t) : NoDup (obj_id <$> whole) → lenZ whole < 2147483648 → (∀ m, m ∈ whole → pdc_hash_djb2 (obj_name m) = key ∧ identified m) →
  (CREATE_BLOOM_THRESHOLD < lenZ whole → ∀ index, hits (combine_obj_info_to_string <$> whole) index ≤ 15) →
  ∀ l2 l1 cur, whole = l1 ++ l2 → list_ok key cur → metadata cur = l1 → (bloom cur ≠ None → CREATE_BLOOM_THRESHOLD < lenZ l1) →
  list_ok key (foldl PDC_Server_hash_table_list_insert cur l2) ∧ metadata (foldl PDC_Server_hash_table_list_insert cur l2) = whole.
Proof.
  intros Hnd Hlen Hall Hhits. induction l2 as [|m l2 IH]; intros l1 cur E Hok Em Hb; cbn [foldl]; [by rewrite app_nil_r in E; subst|].
  assert (lenZ whole = lenZ l1 + 1 + lenZ l2) as El by (rewrite E, lenZ_app; unfold lenZ; cbn [length]; lia). pose proof (lenZ_nonneg l1). pose proof (lenZ_nonneg l2).
  destruct (Hall m) as [Hk Hid]; [rewrite E; set_solver|]. destruct (list_insert_ok key cur m Hok) as [Hok' Em']; [rewrite Em; lia| |done|done| |].
  - rewrite Em. intros m' Hm' Eid. rewrite E, fmap_app, fmap_cons in Hnd. apply list.NoDup_app in Hnd as (_ & Hd & _). apply (Hd (obj_id m)); [rewrite <-Eid; apply list_elem_of_fmap; by exists m'|set_solver].
  - rewrite Em. intros Hc index. assert (CREATE_BLOOM_THRESHOLD < lenZ whole) as Hlong by (destruct Hc as [|Hc%Hb]; lia). specialize (Hhits Hlong index). rewrite E in Hhits.
    replace (l1 ++ m :: l2) with ((l1 ++ [m]) ++ l2) in Hhits by by rewrite <-app_assoc. rewrite fmap_app, hits_app in Hhits. pose proof (hits_nonneg (combine_obj_info_to_string <$> l2) index). lia.
  - apply (IH (l1 ++ [m])); [by rewrite <-app_assoc|done|by rewrite Em', Em|]. rewrite lenZ_app. change (lenZ [m]) with 1. destruct Hok as (Hn & _). rewrite Em in Hn. unfold PDC_Server_hash_table_list_insert. cbn [bloom].
    case_decide; [lia|]. destruct (bloom cur) as [b|]; [intros _; assert (CREATE_BLOOM_THRESHOLD < lenZ l1) by (by apply Hb); lia|]. case_decide; by intros [].
Qed.
Lemma rebuilt_ok key head : list_ok key head → list_ok key (rebuilt (metadata head)) ∧ metadata (rebuilt (metadata head)) = metadata head.
Proof.
  intros (Hn & Hlen & Hb & Hnd & Hall). unfold rebuilt. apply (rebuild_list key (metadata head)) with (l1 := []); [done|done|done| |done| |done|done].
  - intros Hlong index. unfold bloom_ok in Hb. destruct (bloom head) as [b|]; [|lia]. destruct Hb as [Hbytes Hc]. specialize (Hc index). pose proof (counter_range (bitmap b) index Hbytes). lia.
  - split; [done|]. split; [change (0 < 2147483648); lia|]. split; [done|]. split; [constructor|by intros x ?%elem_of_nil].
Qed.

Lemma insert_all_lookup {A} (l : list (Z * A)) k x : NoDup (l.*1) → insert_all l !! k = Some x ↔ (k, x) ∈ l.
Proof.
  unfold insert_all. intros Hnd. assert (∀ t : gmap Z A, foldl (λ t e, <[e.1 := e.2]> t) t l !! k = Some x ↔ (k, x) ∈ l ∨ k ∉ l.*1 ∧ t !! k = Some x) as ->.
  2:{ rewrite lookup_empty. naive_solver. }
  induction l as [|[k' x'] l IH]; intros t; cbn [foldl fst snd]; [rewrite !elem_of_nil; naive_solver|]. rewrite fmap_cons in *. apply list.NoDup_cons in Hnd as [Hk' Hnd]. cbn [fst] in *. rewrite IH by done. rewrite !elem_of_cons.
  destruct (decide (k = k')) as [->|Hk].
  - rewrite lookup_insert_eq. split; [intros [Hin|[_ [= ->]]]; auto|intros [[[= ->]|Hin]|[[] _]]; auto]; exfalso; apply Hk', list_elem_of_fmap; by exists (k', x).
  - rewrite lookup_insert_ne by done. naive_solver.
Qed.
(** Tables of the same lists. *)
Lemma table_rep_rebuilt table table' objs : table_rep table objs → (∀ key head', table' !! key = Some head' ↔ ∃ head, table !! key = Some head ∧ head' = rebuilt (metadata head)) → table_rep table' objs.
Proof.
  intros [H1 H2] Ht. split.
  - intros key head' (head & E & ->)%Ht. destruct (H1 key head E) as (Hok & Hne & Hin). destruct (rebuilt_ok key head Hok) as [Hok' Em]. rewrite Em. done.
  - intros id m E. destruct (H2 id m E) as (Hid & head & Eh & Hm). split; [done|]. destruct (H1 _ head Eh) as (Hok & _). destruct (rebuilt_ok _ head Hok) as [_ Em]. exists (rebuilt (metadata head)). split; [apply Ht; by exists head|by rewrite Em].
Qed.

(** * The whole file *)

Context `{NU : !Numbers}.

(** What the sizes of the file's fields allow; the containers are in the table under the
    hash of their name. *)
Record parts_ok (s : server_parts) (query : list byte) : Prop := {
  po_objects : ∀ id m, d_objs (directory_of (sp_meta s)) !! id = Some m → object_ok (sp_storage s) m;
  po_lists : Z.of_nat (size (metadata_hash_table_g (sp_meta s))) < 2147483648;
  po_conts : Z.of_nat (size (container_hash_table_g (sp_meta s))) < 2147483648;
  po_keys : ∀ k c, container_hash_table_g (sp_meta s) !! k = Some c → k = pdc_hash_djb2 (c_cont_name c);
  po_data : short (sp_data s);
  po_regions d : d ∈ sp_data s → is_u64 (dsr_obj_id d) ∧ short (dsr_storage d);
  po_query : lenZ query < W64;
}.
Definition container_after (e : Z * pdc_cont_hash_table_entry_t) : Z * container_fields := (pdc_hash_djb2 (c_cont_name e.2), fields_of e.2).
Definition entry_after (storage : Z → list storage_region) (e : Z * pdc_hash_table_entry_head) : Z * list (pdc_metadata_t * list storage_region) := (e.1, object_after storage <$> metadata e.2).
Definition data_after (d : data_server_region_t) : data_server_region_t := DataServerRegion (dsr_obj_id d) (-1) 0 (dsr_storage d).

Lemma table_list_elem {A} (t : gmap Z A) k x : (k, x) ∈ table_list t ↔ t !! k = Some x.
Proof. by rewrite table_list_perm, elem_of_map_to_list. Qed.
Lemma table_list_short {A} (t : gmap Z A) : Z.of_nat (size t) < 2147483648 → short (table_list t).
Proof. unfold short. rewrite (table_list_perm t), length_map_to_list. done. Qed.
Lemma table_list_keys {A} (t : gmap Z A) : NoDup (table_list t).*1.
Proof. rewrite table_list_perm. apply NoDup_fst_map_to_list. Qed.
Lemma concat_fmap_bind {A B} (f : A → list B) l : concat (f <$> l) = l ≫= f.
Proof. induction l as [|x l IH]; [done|]. rewrite fmap_cons, bind_cons. cbn. by rewrite IH. Qed.

Lemma reads_checkpoint s query : server_rep (sp_meta s) (directory_of (sp_meta s)) → parts_ok s query →
  ∃ file, checkpoint_bytes s query = Some file ∧
    reads read_checkpoint file (insert_all (container_after <$> table_list (container_hash_table_g (sp_meta s))), entry_after (sp_storage s) <$> table_list (metadata_hash_table_g (sp_meta s)), data_after <$> sp_data s, query).
Proof.
  intros (Ht & Hc & _) [Hobj Hlists Hconts Hkeys Hdata Hregions Hquery]. unfold checkpoint_bytes. set (conts := table_list (container_hash_table_g _)). set (heads := table_list (metadata_hash_table_g _)).
  assert (∀ e, e ∈ heads → ∃ b, entry_record (sp_storage s) e.2 = Some b ∧ reads read_entry b (entry_after (sp_storage s) e)) as Hentry.
  { intros [key head] He%table_list_elem. destruct (proj1 Ht key head He) as (Hok & Hne & Hin). apply reads_entry; [done|done|]. intros m Hm. by eapply Hobj, Hin. }
  rewrite (mapM_total _ (λ e, default [] (entry_record (sp_storage s) e.2))) by (intros e He; by destruct (Hentry e He) as (b & -> & _)). cbn [mbind option_bind]. eexists. split; [done|].
  rewrite concat_fmap_bind. unfold read_checkpoint. rewrite !app_assoc. repeat rewrite <-(app_assoc _ (count_bytes _) (_ ≫= _)). rewrite <-!app_assoc. rewrite (app_assoc (count_bytes conts)).
  eapply (reads_counted_bind read_container _ container_after); [by apply table_list_short|intros e _; apply reads_container, djb2_range|]. rewrite (app_assoc (count_bytes heads)).
  eapply (reads_counted_bind read_entry _ (entry_after (sp_storage s))); [by apply table_list_short|intros e He; by destruct (Hentry e He) as (b & -> & ?)|]. rewrite (app_assoc (count_bytes (sp_data s))).
  eapply (reads_counted_bind read_data_region _ data_after); [done|intros d Hd; by apply reads_data_region; apply Hregions|].
  assert (u64 (lenZ query) = lenZ query) as -> by (pose proof (lenZ_nonneg query); by apply Z.mod_small). eapply reads_bind; [apply reads_u64; pose proof (lenZ_nonneg query); unfold is_u64; lia|].
  by apply (reads_last _ (λ q, (_, _, _, q))), reads_fread.
Qed.

(** C24: a server that has served any requests and restarts from its checkpoint has every
    object with its fields and its tags with names, in lists that are found under the same
    names, and no other.  Every object has its storage regions with their histograms in the
    order of their starts, but the size of each is the number of its elements and its kind of
    place is read from its path ([storage_after], [restored_region]).  A container has its
    identifier, name, counts and text tags, but neither its members nor its tags with names
    ([fields_of]).  The regions of the data server are there, with their files closed, and
    the queries restart from their own part of the file. *)
Theorem restart_restores junk raw nservers s query q : reachable (sp_meta s) → parts_ok s query →
  transfer_request_metadata_query_checkpoint junk raw (sp_query s) = Some query → transfer_request_metadata_query_init nservers (Some query) = Some q →
  ∃ file rs, PDC_Server_checkpoint junk raw s = Some file ∧ PDC_Server_restart nservers file = Some rs ∧
    table_rep (rs_table rs) (d_objs (directory_of (sp_meta s))) ∧
    (∀ id l, (id, l) ∈ rs_storage rs ↔ l = storage_after (sp_storage s) id ∧ is_Some (d_objs (directory_of (sp_meta s)) !! id)) ∧
    rs_conts rs = fields_of <$> d_conts (directory_of (sp_meta s)) ∧
    rs_data rs = data_after <$> sp_data s ∧ rs_query rs = q.
Proof.
  intros Hst%reachable_rep Hok Eq Ei. pose proof Hst as (Ht & Hc & _). destruct (reads_checkpoint s query Hst Hok) as (file & Ef & Hr). specialize (Hr []). rewrite app_nil_r in Hr. unfold PDC_Server_checkpoint, PDC_Server_restart. rewrite Eq. cbn [mbind option_bind].
  eexists file, _. split; [done|]. rewrite Hr. cbn [mbind option_bind]. rewrite Ei. cbn [mbind option_bind]. split; [done|]. cbn [rs_table rs_storage rs_conts rs_data rs_query]. split; [|split; [|split]]; [| | |done].
  - eapply table_rep_rebuilt; [exact Ht|]. intros key head'. rewrite insert_all_lookup.
    2:{ rewrite <-!list_fmap_compose. apply (table_list_keys (metadata_hash_table_g (sp_meta s))). }
    rewrite <-list_fmap_compose, list_elem_of_fmap. assert (∀ head : pdc_hash_table_entry_head, (object_after (sp_storage s) <$> metadata head).*1 = metadata head) as Ho by (intros head; rewrite <-list_fmap_compose; apply list_fmap_id).
    split; [intros ([k head] & [= -> ->] & Hin%table_list_elem)|intros (head & E%table_list_elem & ->)].
    + exists head. split; [done|]. by rewrite Ho.
    + exists (key, head). split; [|done]. cbn. by rewrite Ho.
  - intros id l. rewrite list_elem_of_bind. split.
    + intros (e & (o & [= -> ->] & Ho)%list_elem_of_fmap & ([key head] & -> & Hin%table_list_elem)%list_elem_of_fmap). apply list_elem_of_fmap in Ho as (m & -> & Hm). cbn in *.
      split; [done|]. destruct (proj1 Ht key head Hin) as (_ & _ & Hall). exists m. by apply Hall.
    + intros [-> [m E]]. destruct (proj2 Ht id m E) as (Hid & head & Eh & Hm). eexists (entry_after (sp_storage s) (_, head)). split; [|apply list_elem_of_fmap; eexists; split; [done|by apply table_list_elem]].
      apply list_elem_of_fmap. exists (object_after (sp_storage s) m). split; [cbn; by rewrite Hid|]. apply list_elem_of_fmap. by exists m.
  - apply map_eq. intros k. rewrite lookup_fmap. cbn [directory_of d_conts]. apply option_eq. intros f. rewrite insert_all_lookup.
    + rewrite fmap_Some, list_elem_of_fmap. split; [intros ([k' c] & [= -> ->] & Hin%table_list_elem); exists c; split; [|done]; by rewrite <-(po_keys _ _ Hok k' c Hin)|].
      intros (c & E & ->). exists (k, c). split; [|by apply table_list_elem]. unfold container_after. cbn. by rewrite <-(po_keys _ _ Hok k c E).
    + assert ((container_after <$> table_list (container_hash_table_g (sp_meta s))).*1 = (table_list (container_hash_table_g (sp_meta s))).*1) as ->; [|apply table_list_keys].
      rewrite <-list_fmap_compose. apply list_fmap_ext. intros i [k' c] Hin%list_elem_of_lookup_2%table_list_elem. cbn. symmetry. by apply (po_keys _ _ Hok).
Qed.
End spec.

(** * The data of a server after a restart *)

Lemma get_obj_region_after l obj : ∀ i ret, get_obj_region_from i (data_after <$> l) obj ret = get_obj_region_from i l obj ret.
Proof. induction l as [|d l IH]; intros i ret; cbn; [done|]. apply IH. Qed.
Section data.
Context (file_limit : Z) (data_sieving_g : bool) (junk : byte) (open_fd : Z) (dim : Z → nat) (unit : Z → Z).
Context (Hdim : ∀ o, (1 ≤ dim o ≤ 3)%nat) (Hunit : ∀ o, 0 < unit o) (Hlim : file_limit < W64).
Context (Hsieve : ∀ o, dim o = 1%nat ∨ data_sieving_g = true) (Hfd : 0 ≤ open_fd).
Context `{FM : !FreshMemory, TO : !TableOrder, SL : !ServerLayout, NU : !Numbers}.

Lemma data_after_ok ds : ds_ok file_limit dim unit ds → ds_ok file_limit dim unit (DataServer (data_after <$> ds_regions ds) (ds_files ds)).
Proof.
  intros [Hnd Hf Hs]. split; cbn [ds_regions ds_files]; [by rewrite <-list_fmap_compose|done|]. apply list.Forall_forall. intros e (d & -> & Hd)%list_elem_of_fmap. rewrite list.Forall_forall in Hs. exact (Hs d Hd).
Qed.
Lemma data_after_content ds obj p b : ds_content unit (DataServer (data_after <$> ds_regions ds) (ds_files ds)) obj p b = ds_content unit ds obj p b.
Proof.
  unfold ds_content, entry_of, PDC_Server_get_obj_region. cbn [ds_regions ds_files]. rewrite get_obj_region_after. destruct (get_obj_region_from _ _ _ _) as [i|]; [|done]. cbn [mbind option_bind]. rewrite list_lookup_fmap. by destruct (ds_regions ds !! i).
Qed.

(** C25: a server that restarts from its checkpoint, with its files as they were, reads for
    every point of every region the byte that was stored when the checkpoint was written. *)
Theorem restart_then_read raw nservers s query q ds obj req buf : reachable (sp_meta s) → parts_ok s query →
  transfer_request_metadata_query_checkpoint junk raw (sp_query s) = Some query → transfer_request_metadata_query_init nservers (Some query) = Some q →
  sp_data s = ds_regions ds → ds_ok file_limit dim unit ds → 0 ≤ file_limit → ds_req_ok dim unit obj req buf →
  ∃ file rs buf' ds', PDC_Server_checkpoint junk raw s = Some file ∧ PDC_Server_restart nservers file = Some rs ∧
    PDC_Server_data_read_from data_sieving_g junk open_fd (DataServer (rs_data rs) (ds_files ds)) obj req buf (unit obj) = Some (SUCCEED, buf', ds') ∧
    ∀ p b, in_req req p → 0 ≤ b < unit obj → req_get (unit obj) req buf' p b = match ds_content unit ds obj p b with Some x => Some x | None => req_get (unit obj) req buf p b end.
Proof.
  intros Hst%reachable_rep Hok Eq Ei Ed Hds Hl Hreq. destruct (reads_checkpoint s query Hst Hok) as (file & Ef & Hr). specialize (Hr []). rewrite app_nil_r in Hr.
  destruct (data_read_from_correct file_limit data_sieving_g junk open_fd dim unit Hdim Hunit Hlim Hsieve Hfd _ obj req buf (data_after_ok ds Hds) Hl Hreq) as (buf' & ds' & Erun & _ & Hbuf & _).
  eexists file, _, buf', ds'. unfold PDC_Server_checkpoint, PDC_Server_restart. rewrite Eq. cbn [mbind option_bind]. split; [done|]. rewrite Hr. cbn [mbind option_bind]. rewrite Ei. cbn [mbind option_bind].
  split; [done|]. cbn [rs_data]. rewrite Ed. split; [exact Erun|]. intros p b Hp Hb. rewrite (Hbuf p b Hp Hb). by rewrite data_after_content.
Qed.
End data.

(** * The server with one object, after a restart *)

Module Restart.
#[local] Existing Instances cleared_memory Run.listed_order Run.no_numbers.
Definition packed {A} `{Countable A} (x : A) : list byte := [Z.pos (encode x)].
Definition unpacked {A} `{Countable A} (d : A) (l : list byte) : A := match l with [Z.pos p] => default d (decode p) | _ => d end.
Lemma unpacked_packed {A} `{Countable A} (d x : A) : unpacked d (packed x) = x.
Proof. unfold unpacked, packed. by rewrite decode_encode. Qed.
Definition metadata_tuple (m : pdc_metadata_t) :=
  ((user_id m, app_name m, obj_name m, time_step m), (data_type m, obj_id m, cont_id m, data_server_id m), (region_partition m, consistency m, tags m, data_location m),
   (ndim m, dims m, transform_state m), (tr_dtype (current_state m), tr_ndim (current_state m), tr_dims (current_state m), tr_meta_index (current_state m))).
#[local] Instance packed_layout : ServerLayout.
Proof.
  refine {| metadata_size := 1; metadata_bytes m := packed (metadata_tuple m);
    metadata_of l := let '((a, b, c, d), (e, f, g, h), (i, j, k, o), (p, q, r), (s, t, u, v)) :=
      unpacked ((0, [], [], 0), (0, 0, 0, 0), (0, 0, [], []), (0, [], 0), (0, 0, [], 0)) l in Metadata a b c d e f g h i j k [] o p q r (Transform s t u v);
    container_size := 1; container_bytes c := packed (c_cont_id c, c_cont_name c, c_n_obj c, c_n_deleted c, c_n_allocated c, c_tags c);
    container_of l := let '(a, b, c, d, e, f) := unpacked (0, [], 0, 0, 0, []) l in ContainerFields a b c d e f;
    region_size := 1; region_bytes r l t := packed (rl_ndim r, rl_start r, rl_count r, rl_unit_size r, rl_offset r, rl_data_size r, l, t);
    region_of l := let '(a, b, c, d, e, f, g, h) := unpacked (0%nat, [], [], 0, 0, 0, [], 0) l in (RegionList a b c d e f, g, h) |}; try done.
  - intros m. unfold metadata_tuple. rewrite unpacked_packed. by destruct m as [? ? ? ? ? ? ? ? ? ? ? ? ? ? ? ? []].
  - intros c. by rewrite unpacked_packed.
  - intros r l t. rewrite unpacked_packed. by destruct r.
Defined.
Definition part (offset : Z) : storage_region := StorageRegion (RegionList 1 [offset] [4] 1 offset 4) [47] 0 (Some (Histogram 2 0 [0; 1; 1; 2] [3; 1])).
Definition parts : server_parts := ServerParts Run.one (λ _, [part 4; part 0]) (ds_regions ex_ds) (λ _, [47]) (λ _, 0) ex_metadata.
Definition query_file : list byte := default [] (transfer_request_metadata_query_checkpoint 0 (raw_words (λ _ _ n, replicate n 4096)) ex_metadata).
Lemma parts_fine : parts_ok parts query_file.
Proof.
  split; [|vm_compute; done|vm_compute; done| |vm_compute; done| |vm_compute; done].
  - intros i m E. apply elem_of_list_to_map_2 in E. revert E. change (sp_meta parts) with Run.one.
    assert (all_listed Run.one = [with_kvtags (with_id (default (Metadata 0 [] [] 0 0 0 0 0 0 0 [] [] [] 0 [] 0 no_transform) (new_metadata (Run.data [97] 3) 0)) 1000000) [Run.color]]) as -> by (vm_compute; reflexivity).
    intros [= _ ->]%list_elem_of_singleton. split; [vm_compute; done|]. split; [|split; [vm_compute; done|]].
    + apply list.Forall_singleton. split; [by apply (bool_decide_unpack _)|]. vm_compute. intuition congruence.
    + apply list.Forall_cons. split; [|apply list.Forall_singleton]; intros h [= <-]; split; [vm_compute; intuition congruence| |vm_compute; intuition congruence|]; split; [vm_compute; intuition congruence| |vm_compute; intuition congruence|];
        (split; [by apply (bool_decide_unpack _)|split; [by apply (bool_decide_unpack _)|vm_compute; done]]).
  - intros k c. assert (container_hash_table_g (sp_meta parts) = ∅) as -> by (vm_compute; reflexivity). by rewrite lookup_empty.
  - intros d ->%list_elem_of_singleton. split; [vm_compute; intuition congruence|vm_compute; done].
Qed.
Definition query_after : metadata_state := default ex_metadata (transfer_request_metadata_query_init 2 (Some query_file)).
Lemma restart_restores_witness : ∃ file rs, PDC_Server_checkpoint 0 (raw_words (λ _ _ n, replicate n 4096)) parts = Some file ∧ PDC_Server_restart 2 file = Some rs ∧
  table_rep (rs_table rs) (d_objs (directory_of Run.one)).
Proof.
  destruct (restart_restores 0 (raw_words (λ _ _ n, replicate n 4096)) 2 parts query_file query_after Run.one_reachable parts_fine) as (file & rs & H1 & H2 & H3 & _); [vm_compute; reflexivity..|].
  exists file, rs. split; [exact H1|]. split; [exact H2|exact H3].
Defined.
Lemma restart_then_read_witness : ∃ file rs buf' ds', PDC_Server_checkpoint 0 (raw_words (λ _ _ n, replicate n 4096)) parts = Some file ∧ PDC_Server_restart 2 file = Some rs ∧
  PDC_Server_data_read_from true 0 3 (DataServer (rs_data rs) (ds_files ex_ds)) 7 ex_req [1; 2; 3; 4] 1 = Some (SUCCEED, buf', ds') ∧ req_get 1 ex_req buf' [6] 0 = Some 12.
Proof.
  destruct (restart_then_read 100 true 0 3 (λ _, 1%nat) (λ _, 1) ltac:(simpl; lia) ltac:(simpl; lia) ltac:(reflexivity) ltac:(left; reflexivity) ltac:(lia) (raw_words (λ _ _ n, replicate n 4096)) 2 parts query_file query_after ex_ds 7 ex_req [1; 2; 3; 4]
    Run.one_reachable parts_fine) as (file & rs & buf' & ds' & H1 & H2 & H3 & H4); [vm_compute; reflexivity..|exact ex_ds_ok|lia|exact ex_req_ok|].
  exists file, rs, buf', ds'. split; [exact H1|]. split; [exact H2|]. split; [exact H3|]. rewrite H4; [reflexivity| |lia]. vm_compute. intuition congruence.
Defined.

(** The server after its restart: the lists are rebuilt, and it counts identifiers and
    objects from the start again. *)
Definition resumed : meta_server := MetaServer ((λ head, rebuilt (metadata head)) <$> metadata_hash_table_g Run.one) ∅ 1000000 0.
(** A new object gets the identifier of one that is there, and is found in its place. *)
Example restart_reuses_identifiers : ('(st, id) ← exec resumed (Run.create [98] 0); Some (id, obj_name <$> find_metadata_by_id st id)) = Some (1000000, Some [98]).
Proof. vm_compute. reflexivity. Qed.
(** The array for the answer of a query has no room for the objects. *)
Example restart_forgets_count : ('(st, _) ← exec resumed (DeleteById 5); PDC_Server_get_partial_query_result st (Query 1 0 [32] [32] 0 0 0 [32])) = None.
Proof. vm_compute. reflexivity. Qed.
End Restart.
