(* ===== verification/QueryTree.v ===== *)
(** Queries on the data of objects: the conditions that a client builds
    ([api/pdc_query/pdc_query.c]), and how they travel to a server
    ([PDC_serialize_query], [PDC_deserialize_query] of [pdc_client_server_common.c]).

    The field [value] of a condition is declared as a [double] and used as eight bytes of
    memory: it is kept as the 64-bit word of these bytes, little-endian.  What C makes of a
    word that is read or converted as a number is written out, for floating-point numbers
    with the specification [SpecFloat] of the Standard Library. *)

From Stdlib Require Import Floats.SpecFloat.
From stdpp Require Import list.
From S2P Require Export RpcMessages.
#[local] Open Scope Z_scope.

(** * Types and numbers *)

Definition PDC_INT : Z := 2.
Definition PDC_UINT : Z := 3.
Definition PDC_INT8 : Z := 5.
Definition PDC_UINT8 : Z := 6.
Definition PDC_INT16 : Z := 7.
Definition PDC_UINT16 : Z := 8.
Definition PDC_INT64 : Z := 11.
Definition PDC_UINT64 : Z := 12.
Definition PDC_FLOAT : Z := 13.
Definition PDC_DOUBLE : Z := 14.
Definition PDC_CHAR : Z := 15.
Definition PDC_get_var_type_size (dtype : Z) : Z :=
  if decide (dtype ∈ [PDC_INT; PDC_UINT; PDC_FLOAT]) then 4
  else if decide (dtype ∈ [PDC_DOUBLE; PDC_INT64; PDC_UINT64]) then 8
  else if decide (dtype ∈ [PDC_CHAR; PDC_INT8; PDC_UINT8]) then 1
  else if decide (dtype ∈ [PDC_INT16; PDC_UINT16]) then 2 else 0.

(** A number of type [int], [uint32_t], [int64_t] or [uint64_t], or of [float] or [double]. *)
Inductive number := IntNum (z : Z) | FloatNum (f : spec_float).
Definition num_lt (a b : number) : bool :=
  match a, b with IntNum x, IntNum y => x <? y | FloatNum x, FloatNum y => SFltb x y | _, _ => false end.
Definition num_le (a b : number) : bool :=
  match a, b with IntNum x, IntNum y => x <=? y | FloatNum x, FloatNum y => SFleb x y | _, _ => false end.
Definition num_eq (a b : number) : bool :=
  match a, b with IntNum x, IntNum y => x =? y | FloatNum x, FloatNum y => SFeqb x y | _, _ => false end.

(** The value of a word in the binary format with [eb] bits of exponent and [mb] of
    mantissa; [emin] is the exponent of the smallest number. *)
Definition decode_float (eb mb emin w : Z) : spec_float :=
  let m := w mod 2 ^ mb in
  let e := (w / 2 ^ mb) mod 2 ^ eb in
  let s := bool_decide ((w / 2 ^ (mb + eb)) mod 2 = 1) in
  if decide (e = 0) then match m with Zpos p => S754_finite s p emin | _ => S754_zero s end
  else if decide (e = 2 ^ eb - 1) then if decide (m = 0) then S754_infinity s else S754_nan
  else match m + 2 ^ mb with Zpos p => S754_finite s p (e - 1 + emin) | _ => S754_nan end.
Definition double_of (w : Z) : spec_float := decode_float 11 52 (-1074) w.
Definition float_of (w : Z) : spec_float := decode_float 8 23 (-149) (w mod W32).

(** [( *(TYPE * )&word)] *)
Definition i64 (z : Z) : Z := (z + 9223372036854775808) mod W64 - 9223372036854775808.
Definition num_at (dtype w : Z) : option number :=
  if decide (dtype = PDC_FLOAT) then Some (FloatNum (float_of w))
  else if decide (dtype = PDC_DOUBLE) then Some (FloatNum (double_of w))
  else if decide (dtype = PDC_INT) then Some (IntNum (i32 w))
  else if decide (dtype = PDC_UINT) then Some (IntNum (u32 w))
  else if decide (dtype = PDC_INT64) then Some (IntNum (i64 w))
  else if decide (dtype = PDC_UINT64) then Some (IntNum (u64 w))
  else None.

(** Conversions of a [double]; [None]: the value is not in the range of the type. *)
Definition to_float (f : spec_float) : spec_float :=
  match f with S754_finite s m e => binary_normalize 24 128 (cond_Zopp s (Zpos m)) e s | _ => f end.
Definition trunc (f : spec_float) : option Z :=
  match f with
  | S754_zero _ => Some 0
  | S754_finite s m e => Some (cond_Zopp s (if decide (0 ≤ e) then Zpos m * 2 ^ e else Zpos m / 2 ^ (- e)))
  | _ => None
  end.
Definition to_int (lo hi : Z) (f : spec_float) : option Z := z ← trunc f; if decide (lo ≤ z < hi) then Some z else None.
(** [(TYPE)word]; the inner [None]: the type is none of these. *)
Definition converted (dtype w : Z) : option (option number) :=
  let d := double_of w in
  let int lo hi := z ← to_int lo hi d; Some (Some (IntNum z)) in
  if decide (dtype = PDC_FLOAT) then Some (Some (FloatNum (to_float d)))
  else if decide (dtype = PDC_DOUBLE) then Some (Some (FloatNum d))
  else if decide (dtype = PDC_INT) then int (-2147483648) 2147483648
  else if decide (dtype = PDC_UINT) then int 0 W32
  else if decide (dtype = PDC_INT64) then int (-9223372036854775808) 9223372036854775808
  else if decide (dtype = PDC_UINT64) then int 0 W64
  else Some None.

(** * Queries *)

Definition PDC_OP_NONE : Z := 0.
Definition PDC_GT : Z := 1.
Definition PDC_LT : Z := 2.
Definition PDC_GTE : Z := 3.
Definition PDC_LTE : Z := 4.
Definition PDC_EQ : Z := 5.
Definition PDC_QUERY_NONE : Z := 0.
Definition PDC_QUERY_AND : Z := 1.
Definition PDC_QUERY_OR : Z := 2.

(** The pointers of a condition are [NULL] on a client, and its counters 0. *)
Record pdc_query_constraint_t := Constraint {
  qc_obj_id : Z;
  qc_op : Z;
  qc_type : Z;
  qc_value : Z;
  qc_is_range : Z;
  qc_op2 : Z;
  qc_value2 : Z;
}.
(** [QNull]: the pointer is [NULL]. *)
Inductive query_tree :=
| QNull
| QNode (constraint : option pdc_query_constraint_t) (combine_op : Z) (left right : query_tree).
Record pdc_region_info := RegionInfo { ri_ndim : Z; ri_offset : list Z; ri_size : list Z }.
(** The root of a tree.  A query that is combined with another one is given away: its nodes
    become part of the new tree, or lose their conditions to it. *)
Record pdc_query_t := Query { q_constraint : option pdc_query_constraint_t; q_combine_op : Z; q_left : query_tree; q_right : query_tree; q_region : option pdc_region_info }.
Definition node_of (q : pdc_query_t) : query_tree := QNode (q_constraint q) (q_combine_op q) (q_left q) (q_right q).
Definition leaf (c : pdc_query_constraint_t) : query_tree := QNode (Some c) PDC_QUERY_NONE QNull QNull.

(** [meta_id]: the identifier of an open object on the servers.  The inner [None] is [NULL]. *)
Definition PDCquery_create (meta_id : Z → option Z) (obj_id op dtype : Z) (value : option (list byte)) : option (option pdc_query_t) :=
  match value with
  | Some value =>
    if decide (obj_id = 0 ∨ op = PDC_OP_NONE) then Some None else
    let type_size := PDC_get_var_type_size dtype in
    if decide (8 < type_size) then Some None else
    bytes ← mem_read value 0 type_size;
    Some (Some (Query (Some (Constraint (default obj_id (meta_id obj_id)) op dtype (le_decode bytes) 0 0 0)) PDC_QUERY_NONE QNull QNull None))
  | None => Some None
  end.
Definition PDCquery_sel_region (q : pdc_query_t) (region : pdc_region_info) : pdc_query_t := Query (q_constraint q) (q_combine_op q) (q_left q) (q_right q) (Some region).

Definition lower (c : pdc_query_constraint_t) : bool := bool_decide (qc_op c = PDC_GT ∨ qc_op c = PDC_GTE).
Definition upper (c : pdc_query_constraint_t) : bool := bool_decide (qc_op c = PDC_LT ∨ qc_op c = PDC_LTE).
Definition joined (op : Z) (q1 q2 : pdc_query_t) : pdc_query_t :=
  Query None op (node_of q1) (node_of q2) (match q_region q1 with Some r => Some r | None => q_region q2 end).
Definition ranged (c1 c2 : pdc_query_constraint_t) : pdc_query_constraint_t := Constraint (qc_obj_id c1) (qc_op c1) (qc_type c1) (qc_value c1) 1 (qc_op c2) (qc_value c2).
(** Two conditions on the values of one object become one, when they are a lower and an
    upper bound in this order as numbers. *)
Definition PDCquery_and (q1 q2 : pdc_query_t) : option (option pdc_query_t) :=
  match q_constraint q1, q_constraint q2 with
  | Some c1, Some c2 =>
    if decide (qc_obj_id c1 = qc_obj_id c2 ∧ qc_type c1 = qc_type c2) then
      let '(q1, c1, q2, c2) := if lower c2 && upper c1 then (q2, c2, q1, c1) else (q1, c1, q2, c2) in
      if lower c1 && upper c2 then
        lo ← converted (qc_type c1) (qc_value c1);
        match lo with
        | Some lo =>
          hi ← converted (qc_type c1) (qc_value c2);
          Some (hi ← hi;
                Some (if num_le lo hi then Query (Some (ranged c1 c2)) PDC_QUERY_NONE QNull QNull (match q_region q1 with Some r => Some r | None => q_region q2 end)
                      else joined PDC_QUERY_AND q1 q2))
        | None => Some None
        end
      else Some (Some (joined PDC_QUERY_AND q1 q2))
    else Some (Some (joined PDC_QUERY_AND q1 q2))
  | _, _ => Some (Some (joined PDC_QUERY_AND q1 q2))
  end.
Definition PDCquery_or (q1 q2 : pdc_query_t) : pdc_query_t := joined PDC_QUERY_OR q1 q2.

(** * To a server *)

Fixpoint PDC_query_get_nnode (t : query_tree) : Z := match t with QNull => 0 | QNode _ _ l r => 1 + PDC_query_get_nnode l + PDC_query_get_nnode r end.
Fixpoint PDC_query_get_nleaf (t : query_tree) : Z :=
  match t with QNull => 0 | QNode _ _ QNull QNull => 1 | QNode _ _ l r => PDC_query_get_nleaf l + PDC_query_get_nleaf r end.

(** The operations and the conditions, in preorder; a missing child is -1. *)
Fixpoint serialize (t : query_tree) (combine_ops : list Z) (constraints : list pdc_query_constraint_t) : option (list Z * list pdc_query_constraint_t) :=
  match t with
  | QNull => Some (combine_ops ++ [-1], constraints)
  | QNode c op l r =>
    constraints ← match l, r with QNull, QNull => c ← c; Some (constraints ++ [c]) | _, _ => Some constraints end;
    '(combine_ops, constraints) ← serialize l (combine_ops ++ [op]) constraints;
    serialize r combine_ops constraints
  end.

Definition enum_bytes (z : Z) : list byte := int_bytes (z mod W32).
(** The structure in memory: [hist], [storage_region_list_head], [origin_server], [n_sent]
    and [n_recv] are 0. *)
Definition constraint_bytes (c : pdc_query_constraint_t) : list byte :=
  u64_bytes (qc_obj_id c) ++ enum_bytes (qc_op c) ++ enum_bytes (qc_type c) ++ u64_bytes (qc_value c) ++ u64_bytes 0 ++ enum_bytes (qc_is_range c) ++ enum_bytes (qc_op2 c) ++
  u64_bytes (qc_value2 c) ++ u64_bytes 0 ++ u64_bytes 0 ++ enum_bytes 0 ++ enum_bytes 0.
Definition load_constraint (b : list byte) (off : Z) : option pdc_query_constraint_t :=
  obj ← load_u64 b off; op ← load_int b (off + 8); dtype ← load_int b (off + 12); value ← load_u64 b (off + 16); range ← load_int b (off + 32); op2 ← load_int b (off + 36);
  value2 ← load_u64 b (off + 40); Some (Constraint obj op dtype value range op2 value2).

Definition no_region : region_info_transfer_t := Build_region_info_transfer_t 0 0 0 0 0 0 0 0 0.
Definition PDC_region_info_t_to_transfer (r : pdc_region_info) : option region_info_transfer_t :=
  let n := ri_ndim r in
  if decide (n ≤ 0 ∨ 5 ≤ n) then Some no_region else
  let at_dim (l : list Z) (k : Z) := if decide (k < n) then getZ l k else Some 0 in
  s0 ← at_dim (ri_offset r) 0; s1 ← at_dim (ri_offset r) 1; s2 ← at_dim (ri_offset r) 2; s3 ← at_dim (ri_offset r) 3;
  c0 ← at_dim (ri_size r) 0; c1 ← at_dim (ri_size r) 1; c2 ← at_dim (ri_size r) 2; c3 ← at_dim (ri_size r) 3;
  Some (Build_region_info_transfer_t n s0 s1 s2 s3 c0 c1 c2 c3).

(** Arrays of the sizes that were counted; an array that is too small is overrun. *)
Definition PDC_serialize_query (q : pdc_query_t) : option pdc_query_xfer_t :=
  let nleaf := PDC_query_get_nleaf (node_of q) in
  let nops := PDC_query_get_nnode (node_of q) * 2 + 1 in
  '(ops, cs) ← serialize (node_of q) [] [];
  if decide (lenZ ops ≤ nops ∧ lenZ cs ≤ nleaf) then
    region ← match q_region q with Some r => PDC_region_info_t_to_transfer r | None => Some no_region end;
    Some (Build_pdc_query_xfer_t 0 0 0 0 0 nops ((ops ++ replicate (Z.to_nat (nops - lenZ ops)) 0) ≫= enum_bytes) nleaf 0 0 0
            ((cs ≫= constraint_bytes) ++ replicate (Z.to_nat (72 * (nleaf - lenZ cs))) 0) region)
  else None.
(** What [PDC_send_data_query] adds. *)
Definition addressed (query_id manager client_id n_unique_obj get_op next_server prev_server : Z) (x : pdc_query_xfer_t) : pdc_query_xfer_t :=
  Build_pdc_query_xfer_t query_id manager client_id n_unique_obj (pdc_query_xfer_query_op x) (pdc_query_xfer_n_combine_ops x) (pdc_query_xfer_combine_ops x) (pdc_query_xfer_n_constraints x) get_op
    next_server prev_server (pdc_query_xfer_constraints x) (pdc_query_xfer_region x).

(** The subtree that starts at [order_idx], and both positions after it.  A node takes at
    least one operation, so as much fuel as there are operations is enough. *)
Fixpoint deSerialize (fuel : nat) (constraints combine_ops : list byte) (constraint_idx order_idx : Z) : option (query_tree * Z * Z) :=
  match fuel with
  | O => None
  | S fuel =>
    op ← load_int combine_ops (4 * order_idx);
    if decide (op = -1) then Some (QNull, constraint_idx, order_idx + 1) else
    '(c, constraint_idx) ← (if decide (op = 0) then c ← load_constraint constraints (72 * constraint_idx); Some (Some c, constraint_idx + 1) else Some (None, constraint_idx));
    '(l, constraint_idx, order_idx) ← deSerialize fuel constraints combine_ops constraint_idx (order_idx + 1);
    '(r, constraint_idx, order_idx) ← deSerialize fuel constraints combine_ops constraint_idx order_idx;
    Some (QNode c op l r, constraint_idx, order_idx)
  end.

(** The region that a query is restricted to; what is beyond its dimensions is not assigned. *)
Record region_constraint := RegionConstraint { rc_ndim : Z; rc_start : list Z; rc_count : list Z }.
Definition PDC_region_transfer_t_to_list_t (t : region_info_transfer_t) : region_constraint :=
  let n := Z.to_nat (Z.min 4 (Z.max 1 (region_info_transfer_ndim t))) in
  RegionConstraint (region_info_transfer_ndim t)
    (take n [region_info_transfer_start_0 t; region_info_transfer_start_1 t; region_info_transfer_start_2 t; region_info_transfer_start_3 t])
    (take n [region_info_transfer_count_0 t; region_info_transfer_count_1 t; region_info_transfer_count_2 t; region_info_transfer_count_3 t]).
(** [None] also when the root is missing: its region is assigned. *)
Definition PDC_deserialize_query (x : pdc_query_xfer_t) : option (query_tree * region_constraint) :=
  '(root, _, _) ← deSerialize (S (Z.to_nat (pdc_query_xfer_n_combine_ops x))) (pdc_query_xfer_constraints x) (pdc_query_xfer_combine_ops x) 0 0;
  match root with QNull => None | _ => Some (root, PDC_region_transfer_t_to_list_t (pdc_query_xfer_region x)) end.

(** * Trees that clients build *)

Definition word (z : Z) : Prop := 0 ≤ z < W64.
Definition enum (z : Z) : Prop := 0 ≤ z < 2147483648.
Definition constraint_fits (c : pdc_query_constraint_t) : Prop :=
  word (qc_obj_id c) ∧ enum (qc_op c) ∧ enum (qc_type c) ∧ word (qc_value c) ∧ enum (qc_is_range c) ∧ enum (qc_op2 c) ∧ word (qc_value2 c).
Inductive built : query_tree → Prop :=
| built_leaf c : constraint_fits c → built (leaf c)
| built_node op l r : op = PDC_QUERY_AND ∨ op = PDC_QUERY_OR → built l → built r → built (QNode None op l r).

Lemma built_null : ¬ built QNull.
Proof. by inversion 1. Qed.
Lemma create_built meta_id obj op dtype value q : (∀ i g, meta_id i = Some g → word g) → word obj → enum op → enum dtype → (∀ v, value = Some v → Forall (λ b, 0 ≤ b < 256) v) →
  PDCquery_create meta_id obj op dtype value = Some (Some q) → built (node_of q).
Proof.
  intros Hm Ho Hop Ht Hv. destruct value as [v|]; cbn; [|done]. case_decide; [done|]. case_decide as Hs; [done|]. unfold mem_read. case_decide as Hb; [|done]. cbn [mbind option_bind]. intros [= <-]. constructor.
  split; cbn; [destruct (meta_id obj) as [g|] eqn:E; [by eapply Hm|done]|]. split; [done|]. split; [done|]. split; [|done]. rewrite drop_0.
  assert (∀ l : list byte, Forall (λ b, 0 ≤ b < 256) l → (length l ≤ 8)%nat → 0 ≤ le_decode l < W64) as Hle.
  { intros l Hl Hlen. enough (0 ≤ le_decode l < 256 ^ Z.of_nat (length l)) as [? Hlt] by (split; [done|]; eapply Z.lt_le_trans; [exact Hlt|]; change W64 with (256 ^ 8); apply Z.pow_le_mono_r; lia). clear Hlen.
    induction Hl as [|b l Hb0 _ IH]; cbn [le_decode length]; [done|]. rewrite Nat2Z.inj_succ, Z.pow_succ_r by lia. lia. }
  apply Hle; [apply Forall_take; by apply Hv|]. rewrite length_take. lia.
Qed.
Lemma joined_built op q1 q2 : op = PDC_QUERY_AND ∨ op = PDC_QUERY_OR → built (node_of q1) → built (node_of q2) → built (node_of (joined op q1 q2)).
Proof. intros. by constructor. Qed.
Lemma built_constraint q c : built (node_of q) → q_constraint q = Some c → constraint_fits c.
Proof. unfold node_of. intros H E. rewrite E in H. by inversion H. Qed.
Lemma and_built q1 q2 q : built (node_of q1) → built (node_of q2) → PDCquery_and q1 q2 = Some (Some q) → built (node_of q).
Proof.
  intros H1 H2. unfold PDCquery_and. destruct (q_constraint q1) as [c1|] eqn:E1; [|intros [= <-]; apply joined_built; auto]. destruct (q_constraint q2) as [c2|] eqn:E2; [|intros [= <-]; apply joined_built; auto].
  pose proof (built_constraint _ _ H1 E1) as F1. pose proof (built_constraint _ _ H2 E2) as F2. case_decide; [|intros [= <-]; apply joined_built; auto].
  assert (∀ p1 d1 p2 d2, built (node_of p1) → built (node_of p2) → constraint_fits d1 → constraint_fits d2 →
    (if lower d1 && upper d2 then lo ← converted (qc_type d1) (qc_value d1); match lo with Some lo => hi ← converted (qc_type d1) (qc_value d2); Some (hi ← hi; Some (if num_le lo hi then
      Query (Some (ranged d1 d2)) PDC_QUERY_NONE QNull QNull (match q_region p1 with Some r => Some r | None => q_region p2 end) else joined PDC_QUERY_AND p1 p2)) | None => Some None end
     else Some (Some (joined PDC_QUERY_AND p1 p2))) = Some (Some q) → built (node_of q)) as Hgo.
  { intros p1 d1 p2 d2 Hp1 Hp2 G1 G2. destruct (lower d1 && upper d2); [|intros [= <-]; apply joined_built; auto]. destruct (converted _ (qc_value d1)) as [[lo|]|]; cbn; try done. destruct (converted _ _) as [[hi|]|]; cbn; try done.
    intros [= <-]. destruct (num_le lo hi); [|apply joined_built; auto]. constructor. destruct G1 as (? & ? & ? & ? & _), G2 as (_ & ? & _ & ? & _). by split_and!. }
  destruct (lower c2 && upper c1); [by apply (Hgo q2 c2 q1 c1)|by apply (Hgo q1 c1 q2 c2)].
Qed.

(** ** The arrays *)

Fixpoint ops_of (t : query_tree) : list Z := match t with QNull => [-1] | QNode _ op l r => op :: ops_of l ++ ops_of r end.
Fixpoint leaves (t : query_tree) : list pdc_query_constraint_t :=
  match t with QNull => [] | QNode (Some c) _ QNull QNull => [c] | QNode _ _ l r => leaves l ++ leaves r end.

Lemma leaves_node op l r : built l → leaves (QNode None op l r) = leaves l ++ leaves r.
Proof. by destruct 1. Qed.
Lemma serialize_spec t : built t → ∀ ops cs, serialize t ops cs = Some (ops ++ ops_of t, cs ++ leaves t).
Proof.
  induction 1 as [c Hc|op l r Hop Hl IHl Hr IHr]; intros ops cs; [cbn; by rewrite <-!app_assoc|]. rewrite (leaves_node op l r Hl). cbn [serialize ops_of].
  assert (match l, r with QNull, QNull => c ← None; Some (cs ++ [c]) | _, _ => Some cs end = Some cs) as -> by by destruct Hl. cbn [mbind option_bind]. rewrite IHl. cbn [mbind option_bind]. rewrite IHr. by rewrite <-!app_assoc.
Qed.
Lemma ops_count t : lenZ (ops_of t) = PDC_query_get_nnode t * 2 + 1.
Proof. induction t as [|c op l IHl r IHr]; [done|]. cbn [ops_of PDC_query_get_nnode]. rewrite lenZ_cons, lenZ_app, IHl, IHr. lia. Qed.
Lemma nleaf_node c op l r : l ≠ QNull → PDC_query_get_nleaf (QNode c op l r) = PDC_query_get_nleaf l + PDC_query_get_nleaf r.
Proof. by destruct l. Qed.
Lemma leaves_count t : built t → lenZ (leaves t) = PDC_query_get_nleaf t ∧ 0 < PDC_query_get_nleaf t ≤ PDC_query_get_nnode t.
Proof.
  induction 1 as [c Hc|op l r Hop Hl IHl Hr IHr]; [done|]. rewrite (leaves_node op l r Hl), lenZ_app, nleaf_node by (intros ->; by apply built_null in Hl). cbn [PDC_query_get_nnode]. lia.
Qed.
Lemma built_ops t : built t → Forall (λ op, -1 ≤ op ≤ 2) (ops_of t) ∧ Forall constraint_fits (leaves t).
Proof.
  induction 1 as [c Hc|op l r Hop Hl IHl Hr IHr]; [repeat constructor; unfold PDC_QUERY_NONE; try lia; apply Hc|]. rewrite (leaves_node op l r Hl). cbn [ops_of]. destruct IHl, IHr. rewrite list.Forall_cons, !Forall_app.
  split; [|done]. split; [unfold PDC_QUERY_AND, PDC_QUERY_OR in *; lia|done].
Qed.

Lemma load_enum_at b off z rest : at_off b off (enum_bytes z ++ rest) → -2147483648 ≤ z < 2147483648 → load_int b off = Some z.
Proof. apply load_int_at. Qed.
Lemma lenZ_constraint c : lenZ (constraint_bytes c) = 72.
Proof. unfold constraint_bytes, enum_bytes. by autorewrite with wire. Qed.
Lemma load_constraint_at b off c rest : at_off b off (constraint_bytes c ++ rest) → constraint_fits c → load_constraint b off = Some c.
Proof.
  intros H (H1 & H2 & H3 & H4 & H5 & H6 & H7). unfold constraint_bytes in H. rewrite <-!app_assoc in H. unfold load_constraint, enum, word in *.
  rewrite (load_u64_at b off _ _ H) by done. cbn [mbind option_bind]. apply at_off_app with (off' := off + 8) in H; [|done].
  rewrite (load_enum_at b _ _ _ H) by lia. cbn [mbind option_bind]. apply at_off_app with (off' := off + 12) in H; [|unfold enum_bytes; rewrite lenZ_int_bytes; lia].
  rewrite (load_enum_at b _ _ _ H) by lia. cbn [mbind option_bind]. apply at_off_app with (off' := off + 16) in H; [|unfold enum_bytes; rewrite lenZ_int_bytes; lia].
  rewrite (load_u64_at b _ _ _ H) by done. cbn [mbind option_bind]. apply at_off_app with (off' := off + 24) in H; [|rewrite lenZ_u64_bytes; lia]. apply at_off_app with (off' := off + 32) in H; [|rewrite lenZ_u64_bytes; lia].
  rewrite (load_enum_at b _ _ _ H) by lia. cbn [mbind option_bind]. apply at_off_app with (off' := off + 36) in H; [|unfold enum_bytes; rewrite lenZ_int_bytes; lia].
  rewrite (load_enum_at b _ _ _ H) by lia. cbn [mbind option_bind]. apply at_off_app with (off' := off + 40) in H; [|unfold enum_bytes; rewrite lenZ_int_bytes; lia].
  rewrite (load_u64_at b _ _ _ H) by done. by destruct c.
Qed.

Lemma deSerialize_spec t : built t → ∀ fuel b_cs b_ops ci oi rest rest', (length (ops_of t) ≤ fuel)%nat → at_off b_ops (4 * oi) ((ops_of t ≫= enum_bytes) ++ rest) → at_off b_cs (72 * ci) ((leaves t ≫= constraint_bytes) ++ rest') →
  deSerialize fuel b_cs b_ops ci oi = Some (t, ci + lenZ (leaves t), oi + lenZ (ops_of t)).
Proof.
  assert (∀ z, lenZ (enum_bytes z) = 4) as Hlen by done.
  induction 1 as [c Hc|op l r Hop Hl IHl Hr IHr]; intros fuel b_cs b_ops ci oi rest rest' Hfuel Ho Hcs.
  - cbn in Hfuel, Ho, Hcs. rewrite !app_nil_r in Hcs. rewrite <-?app_assoc in Ho. destruct fuel as [|[|fuel]]; [lia|lia|]. cbn [deSerialize]. rewrite (load_enum_at _ _ _ _ Ho) by done. cbn [mbind option_bind]. rewrite decide_False by done. rewrite decide_True by done.
    rewrite (load_constraint_at _ _ _ _ Hcs Hc). cbn [mbind option_bind]. apply at_off_app with (off' := 4 * (oi + 1)) in Ho; [|rewrite Hlen; lia]. rewrite (load_enum_at _ _ _ _ Ho) by done. cbn [mbind option_bind]. rewrite decide_True by done.
    cbn [mbind option_bind]. apply at_off_app with (off' := 4 * (oi + 1 + 1)) in Ho; [|rewrite Hlen; lia]. rewrite (load_enum_at _ _ _ _ Ho) by done. cbn [mbind option_bind]. rewrite decide_True by done. cbn [mbind option_bind leaves ops_of leaf].
    unfold leaf, lenZ, PDC_QUERY_NONE. cbn. f_equal. f_equal; lia.
  - rewrite (leaves_node op l r Hl) in Hcs |- *. cbn [ops_of] in *. cbn [length] in Hfuel. rewrite length_app in Hfuel. rewrite bind_cons, bind_app, <-!app_assoc in Ho. rewrite bind_app, <-app_assoc in Hcs.
    destruct fuel as [|fuel]; [lia|]. cbn [deSerialize]. assert (op = 1 ∨ op = 2) as Hop' by exact Hop. rewrite (load_enum_at _ _ _ _ Ho) by lia. cbn [mbind option_bind]. rewrite decide_False by lia. rewrite decide_False by lia. cbn [mbind option_bind].
    apply at_off_app with (off' := 4 * (oi + 1)) in Ho; [|rewrite Hlen; lia]. rewrite (IHl fuel b_cs b_ops ci (oi + 1) _ _ ltac:(lia) Ho Hcs). cbn [mbind option_bind].
    apply at_off_app with (off' := 4 * (oi + 1 + lenZ (ops_of l))) in Ho; [|rewrite (lenZ_bind_const enum_bytes _ 4) by (by apply Forall_true); lia].
    apply at_off_app with (off' := 72 * (ci + lenZ (leaves l))) in Hcs; [|rewrite (lenZ_bind_const constraint_bytes _ 72) by (apply Forall_true; apply lenZ_constraint); lia].
    rewrite (IHr fuel b_cs b_ops _ _ _ _ ltac:(lia) Ho Hcs). cbn [mbind option_bind]. rewrite lenZ_cons, !lenZ_app. f_equal. f_equal; [f_equal; lia|lia].
Qed.

(** ** The message *)

Definition region_fits (r : pdc_region_info) : Prop := 1 ≤ ri_ndim r ≤ 4 → lenZ (ri_offset r) = ri_ndim r ∧ lenZ (ri_size r) = ri_ndim r ∧ Forall word (ri_offset r) ∧ Forall word (ri_size r).
Definition unrestricted : region_constraint := RegionConstraint 0 [0] [0].
(** What a server has of the region. *)
Definition restriction (r : option pdc_region_info) : region_constraint :=
  match r with Some r => if decide (1 ≤ ri_ndim r ≤ 4) then RegionConstraint (ri_ndim r) (ri_offset r) (ri_size r) else unrestricted | None => unrestricted end.
Lemma region_sent r : region_fits r → ∃ t, PDC_region_info_t_to_transfer r = Some t ∧ PDC_region_transfer_t_to_list_t t = restriction (Some r) ∧ 0 ≤ region_info_transfer_ndim t ≤ 4 ∧
  Forall word [region_info_transfer_start_0 t; region_info_transfer_start_1 t; region_info_transfer_start_2 t; region_info_transfer_start_3 t; region_info_transfer_count_0 t; region_info_transfer_count_1 t; region_info_transfer_count_2 t; region_info_transfer_count_3 t].
Proof.
  intros Hr. unfold PDC_region_info_t_to_transfer, restriction. destruct (decide (1 ≤ ri_ndim r ≤ 4)) as [Hn|Hn].
  2:{ rewrite decide_True by lia. exists no_region. split; [done|]. split; [done|]. split; [done|]. by repeat constructor. }
  rewrite decide_False by lia. destruct (Hr Hn) as (Lo & Ls & Wo & Ws). clear Hr. destruct r as [n oo os]. cbn [ri_ndim ri_offset ri_size] in *. unfold lenZ in Lo, Ls.
  assert (word 0) as W0 by done. assert (n = 1 ∨ n = 2 ∨ n = 3 ∨ n = 4) as Hcase by lia.
  destruct Hcase as [->|[->|[->| ->]]];
    (destruct oo as [|? [|? [|? [|? [|]]]]]; try (cbn in Lo; lia)); (destruct os as [|? [|? [|? [|? [|]]]]]; try (cbn in Ls; lia)); cbn; (eexists; split; [reflexivity|]); (split; [reflexivity|]); (split; [done|]);
    rewrite ?list.Forall_cons in *; destruct_and?; split_and?; done.
Qed.

Lemma enum_int `{BK : !Bulk} z : 0 ≤ z < 2147483648 → fits (Int true 4) z.
Proof. intros H. change (-2147483648 ≤ z < 2147483648). lia. Qed.
Lemma lenZ_replicate {A} (x : A) n : lenZ (replicate n x) = Z.of_nat n.
Proof. unfold lenZ. by rewrite length_replicate. Qed.

Lemma xfer_sendable `{BK : !Bulk, MC : !Mercury} query_id manager client_id n_unique_obj get_op next_server prev_server nops ops nleaf cs (tr : region_info_transfer_t) :
  Forall (fits (Int true 4)) [query_id; manager; client_id; n_unique_obj; get_op; next_server; prev_server] → 0 < nops < 2147483648 → 0 < nleaf < 29000000 → lenZ ops = 4 * nops → lenZ cs = 72 * nleaf →
  0 ≤ region_info_transfer_ndim tr ≤ 4 →
  Forall word [region_info_transfer_start_0 tr; region_info_transfer_start_1 tr; region_info_transfer_start_2 tr; region_info_transfer_start_3 tr; region_info_transfer_count_0 tr; region_info_transfer_count_1 tr; region_info_transfer_count_2 tr; region_info_transfer_count_3 tr] →
  sendable (message_proc msg_pdc_query_xfer) (Build_pdc_query_xfer_t query_id manager client_id n_unique_obj 0 nops ops nleaf get_op next_server prev_server cs tr).
Proof.
  intros Hh Hnops Hnleaf Lops Lcs Hnd Hwords. cbn [message_proc]. unfold hg_proc_pdc_query_xfer_t. cbn -[fits lenZ Z.mul Z.add hg_proc_region_info_transfer_t]. rewrite !list.Forall_cons in Hh. rewrite !list.Forall_cons in Hwords. destruct Hh as (H1 & H2 & H3 & H4 & H5 & H6 & H7 & _).
  do 5 (split; [done|]). split; [by apply enum_int|]. do 2 (split; [done|]). split; [apply enum_int; lia|]. split; [apply enum_int; lia|]. split; [|rewrite decide_True by lia].
  - destruct Hwords as (W1 & W2 & W3 & W4 & W5 & W6 & W7 & W8 & _). split; [change (0 ≤ region_info_transfer_ndim tr < W64); unfold W64; lia|]. split; [exact W1|]. split; [exact W2|]. split; [exact W3|]. split; [exact W4|]. split; [exact W5|]. split; [exact W6|]. split; [exact W7|]. split; [exact W8|done].
  - cbn -[fits lenZ Z.mul Z.add]. split; [|split; [|done]]; cbn [fits]; unfold u64; rewrite Z.mod_small; unfold W64; lia.
Qed.
(** C15: a query that a client has built is serialized without running out of its arrays,
    its message is decoded to it, and the server that receives it has the same tree with
    the same conditions, and the same region. *)
Theorem query_received `{BK : !Bulk, MC : !Mercury} q query_id manager client_id n_unique_obj get_op next_server prev_server :
  built (node_of q) → PDC_query_get_nnode (node_of q) < 29000000 → (∀ r, q_region q = Some r → region_fits r) →
  Forall (fits (Int true 4)) [query_id; manager; client_id; n_unique_obj; get_op; next_server; prev_server] →
  ∃ x, PDC_serialize_query q = Some x ∧
  let m := addressed query_id manager client_id n_unique_obj get_op next_server prev_server x in
  ∃ b, encode (message_proc msg_pdc_query_xfer) m = Some b ∧ ∀ rest, ∃ into, decode (message_proc msg_pdc_query_xfer) (b ++ rest) = Some (into, rest) ∧
    ∀ old, PDC_deserialize_query (into old) = Some (node_of q, restriction (q_region q)).
Proof.
  unfold PDC_serialize_query. generalize (node_of q) as t. intros t Hq Hn Hr Hh. pose proof (ops_count t) as Lops. pose proof (leaves_count _ Hq) as [Lcs Hleaf]. pose proof (built_ops _ Hq) as [Hops Hcs].
  assert (∃ tr, match q_region q with Some r => PDC_region_info_t_to_transfer r | None => Some no_region end = Some tr ∧ PDC_region_transfer_t_to_list_t tr = restriction (q_region q) ∧ 0 ≤ region_info_transfer_ndim tr ≤ 4 ∧
    Forall word [region_info_transfer_start_0 tr; region_info_transfer_start_1 tr; region_info_transfer_start_2 tr; region_info_transfer_start_3 tr; region_info_transfer_count_0 tr; region_info_transfer_count_1 tr; region_info_transfer_count_2 tr; region_info_transfer_count_3 tr])
    as (tr & Etr & Etr' & Hnd & Hwords).
  { destruct (q_region q) as [r|]; [apply region_sent; by apply Hr|]. exists no_region. split; [done|]. split; [done|]. split; [done|]. by repeat constructor. }
  rewrite (serialize_spec t Hq). cbn [mbind option_bind]. rewrite !app_nil_l, Lops, Lcs, !Z.sub_diag, Z.mul_0_r. rewrite decide_True by lia. rewrite Etr. cbn [mbind option_bind replicate Z.to_nat].
  rewrite app_nil_r, app_nil_r. eexists. split; [reflexivity|]. cbv zeta. set (m := addressed _ _ _ _ _ _ _ _).
  assert (sendable (message_proc msg_pdc_query_xfer) m) as Hsend.
  { apply xfer_sendable; cbn [pdc_query_xfer_n_combine_ops pdc_query_xfer_n_constraints pdc_query_xfer_combine_ops pdc_query_xfer_constraints pdc_query_xfer_region]; [exact Hh|lia|lia| | |done|done].
    - rewrite (lenZ_bind_const enum_bytes _ 4) by (by apply Forall_true). lia.
    - rewrite (lenZ_bind_const constraint_bytes _ 72) by (apply Forall_true; apply lenZ_constraint). lia. }
  destruct (decode_encode _ m Hsend) as (b & E & Hb). exists b. split; [done|]. intros rest. eexists. split; [apply Hb|]. intros old. rewrite (sent_received msg_pdc_query_xfer). cbn [received received_query m addressed].
  cbn [pdc_query_xfer_query_op pdc_query_xfer_n_combine_ops pdc_query_xfer_combine_ops pdc_query_xfer_n_constraints pdc_query_xfer_constraints pdc_query_xfer_region]. rewrite !decide_True by lia. unfold PDC_deserialize_query.
  cbn [pdc_query_xfer_query_op pdc_query_xfer_n_combine_ops pdc_query_xfer_combine_ops pdc_query_xfer_n_constraints pdc_query_xfer_constraints pdc_query_xfer_region].
  rewrite (deSerialize_spec t Hq _ _ _ 0 0 [] []); [|unfold lenZ in Lops; lia|rewrite app_nil_r; exact (at_off_0 _)|rewrite app_nil_r; exact (at_off_0 _)]. cbn [mbind option_bind].
  destruct t; [by apply built_null in Hq|]. by rewrite Etr'.
Qed.

Module Sent.
#[local] Existing Instances LittleEndian.bulk LittleEndian.mercury.
(** The temperature of an object is over 4, or the pressure of another one is 2: of the
    elements from 3 on. *)
Definition hot : pdc_query_t := Query (Some (Constraint 1 PDC_GT PDC_INT 4 0 0 0)) PDC_QUERY_NONE QNull QNull None.
Definition pressed : pdc_query_t := Query (Some (Constraint 2 PDC_EQ PDC_DOUBLE 4611686018427387904 0 0 0)) PDC_QUERY_NONE QNull QNull None.
Definition question : pdc_query_t := PDCquery_sel_region (PDCquery_or hot pressed) (RegionInfo 1 [3] [100]).
Example created : PDCquery_create (λ _, Some 1) 1000001 PDC_GT PDC_INT (Some [4; 0; 0; 0; 9]) = Some (Some hot).
Proof. vm_compute. reflexivity. Qed.
Lemma query_received_witness : ∃ x, PDC_serialize_query question = Some x ∧
  let m := addressed 7 0 0 1 2 (-1) (-1) x in
  ∃ b, encode (message_proc msg_pdc_query_xfer) m = Some b ∧ ∀ rest, ∃ into, decode (message_proc msg_pdc_query_xfer) (b ++ rest) = Some (into, rest) ∧
    ∀ old, PDC_deserialize_query (into old) = Some (QNode None PDC_QUERY_OR (node_of hot) (node_of pressed), RegionConstraint 1 [3] [100]).
Proof.
  apply (query_received question 7 0 0 1 2 (-1) (-1)).
  - apply built_node; [by right| |]; apply built_leaf; unfold constraint_fits, word, enum; split_and!; done.
  - done.
  - intros r [= <-] _. repeat constructor; done.
  - repeat constructor; done.
Defined.
End Sent.
