(* ===== verification/QueryEval.v ===== *)
(** The evaluation of queries on a data server
    ([server/pdc_server_region/pdc_server_data.c]): the conditions of a tree are evaluated
    one after the other, on the storage regions of their objects, into one selection.

    Regions are in bytes and coordinates in elements; a region has a start and a count for
    each of its dimensions.  The region itself has no data in memory, its entry in the list
    of its object has them.  Built without FastBit; mutexes, timing and logging are left
    out. *)

From Stdlib Require Import Floats.SpecFloat.
From stdpp Require Import gmap list sorting.
From S2P Require Export QueryTree.
#[local] Open Scope Z_scope.

(** [None]: a division by zero. *)
Definition divZ (a b : Z) : option Z := if decide (b = 0) then None else Some (a / b).
Definition setZ (l : list Z) (i v : Z) : option (list Z) := if decide (0 ≤ i < lenZ l) then Some (<[Z.to_nat i := v]> l) else None.
Definition ULLONG_MAX : Z := W64 - 1.

(** * Storage regions *)

(** The histogram of the values of a region: the bounds of its bins, as words. *)
Record region_histogram := RegionHist { rh_nbin : Z; rh_range : list Z }.
Record stored_region := StoredRegion {
  sg_ndim : Z;
  sg_start : list Z;
  sg_count : list Z;
  sg_data_size : Z;
  sg_hist : option region_histogram;
  sg_file : option (list byte);      (* its file from its offset on; [None]: the file cannot be opened *)
  sg_io_cache : option nat;          (* its entry in the list of its object *)
}.
(** An entry of the list of an object, with its data when they have been read. *)
Record io_region := IoRegion { io_reg : stored_region; io_data : option (list byte) }.
(** What a server keeps between queries: the regions of the objects, and the lists of
    [pdc_data_server_read_list_head_g]. *)
Record query_server := QueryServer { qs_regions : gmap Z (list stored_region); qs_io : gmap Z (list io_region) }.
Record pdc_selection_t := Sel { sel_nhits : Z; sel_coords : list Z }.
Record query_task_t := QueryTask {
  qt_ndim : Z;
  qt_region : region_constraint;
  qt_total_elem : Z;
  qt_invalid : option (Z * list Z);  (* the room of the array, and the regions in it; [None]: [NULL] *)
  qt_sel : pdc_selection_t;
  qt_is_done : bool;
  qt_nhits : Z;
}.
Definition with_task_ndim (t : query_task_t) (n : Z) : query_task_t := QueryTask n (qt_region t) (qt_total_elem t) (qt_invalid t) (qt_sel t) (qt_is_done t) (qt_nhits t).
Definition with_total (t : query_task_t) (n : Z) : query_task_t := QueryTask (qt_ndim t) (qt_region t) n (qt_invalid t) (qt_sel t) (qt_is_done t) (qt_nhits t).
Definition with_invalid (t : query_task_t) (i : option (Z * list Z)) : query_task_t := QueryTask (qt_ndim t) (qt_region t) (qt_total_elem t) i (qt_sel t) (qt_is_done t) (qt_nhits t).
Definition with_sel (t : query_task_t) (s : pdc_selection_t) : query_task_t := QueryTask (qt_ndim t) (qt_region t) (qt_total_elem t) (qt_invalid t) s (qt_is_done t) (qt_nhits t).

(** [PDC_is_same_region_list] *)
Definition is_same_region (a b : stored_region) : bool :=
  bool_decide (sg_ndim a = sg_ndim b ∧ take (Z.to_nat (sg_ndim a)) (sg_start a) = take (Z.to_nat (sg_ndim a)) (sg_start b) ∧ take (Z.to_nat (sg_ndim a)) (sg_count a) = take (Z.to_nat (sg_ndim a)) (sg_count b)).
Definition is_overlap_1D (xmin1 xmax1 xmin2 xmax2 : Z) : bool := bool_decide (xmin2 ≤ xmax1 ∧ xmin1 ≤ xmax2).
(** [PDC_is_contiguous_region_overlap] is 1. *)
Definition is_contiguous_overlap (a : stored_region) (c : region_constraint) : option bool :=
  if decide (sg_ndim a ≠ rc_ndim c ∨ sg_ndim a ≤ 0) then Some false else
  let dim k := s ← getZ (sg_start a) k; n ← getZ (sg_count a) k; s' ← getZ (rc_start c) k; n' ← getZ (rc_count c) k;
               Some (is_overlap_1D s (s +w n -w 1) s' (s' +w n' -w 1)) in
  if decide (sg_ndim a = 1) then dim 0
  else if decide (sg_ndim a = 2) then x ← dim 0; y ← dim 1; Some (x && y)
  else if decide (sg_ndim a = 3) then x ← dim 0; y ← dim 1; z ← dim 2; Some (x && y && z)
  else Some true.

(** * Loading *)

(** 1, 0 or -1.  The conditions are converted from the word. *)
Definition PDC_region_has_hits_from_hist (c : pdc_query_constraint_t) (h : region_histogram) : option Z :=
  if decide (qc_type c ∈ [PDC_FLOAT; PDC_DOUBLE; PDC_INT; PDC_UINT; PDC_INT64; PDC_UINT64]) then
    let value := double_of (qc_value c) in
    let value2 := double_of (qc_value2 c) in
    top ← getZ (rh_range h) (rh_nbin h * 2 - 1); bottom ← getZ (rh_range h) 0;
    let top := double_of top in
    let bottom := double_of bottom in
    Some (if decide (qc_is_range c = 1) then if SFltb top value || SFltb value2 bottom then 0 else 1
          else if upper c then if SFltb value bottom then 0 else 1
          else if lower c then if SFltb top value then 0 else 1
          else 1)
  else Some (-1).
Definition is_invalid (invalid : option (Z * list Z)) (iter : Z) : bool := match invalid with Some (_, ids) => bool_decide (iter ∈ ids) | None => false end.
(** Note a region; [count]: the regions of the object, and the room of a new array. *)
Definition invalidate (count iter : Z) (invalid : option (Z * list Z)) : option (option (Z * list Z)) :=
  let '(room, ids) := default (count, []) invalid in
  if bool_decide (iter ∈ ids) then Some (Some (room, ids)) else if decide (lenZ ids < room) then Some (Some (room, ids ++ [iter])) else None.
(** Is the region without hits, as its histogram says?  [None]: it has no histogram. *)
Definition excluded (gen_hist : bool) (c : pdc_query_constraint_t) (r : stored_region) : option bool :=
  if gen_hist then h ← sg_hist r; n ← PDC_region_has_hits_from_hist c h; Some (bool_decide (n = 0)) else Some false.

(** Read what is not in memory.  What is shorter than expected is not used. *)
Definition PDC_Server_data_read_to_buf (l : list io_region) : option (list io_region) :=
  mapM (λ e, match io_data e with
             | Some _ => Some e
             | None => b ← sg_file (io_reg e);
                       Some (if decide (sg_data_size (io_reg e) = 0 ∨ lenZ b < sg_data_size (io_reg e)) then e else IoRegion (io_reg e) (Some (take (Z.to_nat (sg_data_size (io_reg e))) b)))
             end) l.
Definition new_io_region (r : stored_region) : io_region := IoRegion (StoredRegion (sg_ndim r) (sg_start r) (sg_count r) (sg_data_size r) (sg_hist r) (sg_file r) None) None.
Definition with_io_cache (r : stored_region) (k : nat) : stored_region := StoredRegion (sg_ndim r) (sg_start r) (sg_count r) (sg_data_size r) (sg_hist r) (sg_file r) (Some k).
(** One region: the regions before it, the list of the object, and the regions without hits. *)
Definition load_region (gen_hist : bool) (count : Z) (c : pdc_query_constraint_t) (combine_op : Z) (st : option (list stored_region * list io_region * option (Z * list Z))) (r : stored_region) :
    option (list stored_region * list io_region * option (Z * list Z)) :=
  '(done, io, invalid) ← st;
  let invalid := if decide (combine_op = PDC_QUERY_OR) then None else invalid in
  if bool_decide (combine_op = PDC_QUERY_AND) && is_invalid invalid (lenZ done) then Some (done ++ [r], io, invalid) else
  no_hits ← excluded gen_hist c r;
  if (no_hits : bool) then invalid ← invalidate count (lenZ done) invalid; Some (done ++ [r], io, invalid)
  else if existsb (λ e, is_same_region (io_reg e) r) io then Some (done ++ [r], io, invalid)
  else Some (done ++ [with_io_cache r (length io)], io ++ [new_io_region r], invalid).
Definition PDC_Server_load_query_data (gen_hist : bool) (st : query_server) (task : query_task_t) (c : pdc_query_constraint_t) (combine_op : Z) : option (query_server * query_task_t) :=
  let regions := default [] (qs_regions st !! qc_obj_id c) in
  '(regions', io, invalid) ← foldl (load_region gen_hist (lenZ regions) c combine_op) (Some ([], default [] (qs_io st !! qc_obj_id c), qt_invalid task)) regions;
  io ← PDC_Server_data_read_to_buf io;
  Some (QueryServer (<[qc_obj_id c := regions']> (qs_regions st)) (<[qc_obj_id c := io]> (qs_io st)), with_invalid task invalid).

(** * Coordinates *)

(** [coord[0]] to [coord[ndim - 1]] of the element [idx]; in three dimensions [coord[1]] is
    not assigned. *)
Definition region_index_to_coord (junk : Z) (ndim idx : Z) (sizes : list Z) : option (list Z) :=
  if decide (ndim = 3) then s0 ← getZ sizes 0; s1 ← getZ sizes 1; c2 ← divZ idx (s1 *w s0); Some [idx -w (s1 *w s0); junk; c2]
  else if decide (ndim = 2) then s0 ← getZ sizes 0; c1 ← divZ idx s0; Some [idx -w s0; c1]
  else Some [idx].
(** 1, or -1 when a coordinate is before the start or after the end (the end itself is not). *)
Definition is_idx_within_region (junk idx : Z) (r : stored_region) (c : region_constraint) (unit_size : Z) : option bool :=
  coord ← region_index_to_coord junk (sg_ndim r) idx (sg_count r);
  foldl (λ ok k, ok ← ok; if (ok : bool) then x ← getZ coord k; s ← getZ (sg_start r) k; s' ← getZ (rc_start c) k; n' ← getZ (rc_count c) k;
                            Some (bool_decide (s' ≤ (x *w unit_size) +w s ≤ s' +w n')) else Some false) (Some true) (seqZ 0 (sg_ndim r)).
Definition is_coord_within_region (coord : list Z) (r : stored_region) (unit_size : Z) : option bool :=
  foldl (λ ok k, ok ← ok; if (ok : bool) then x ← getZ coord k; s ← getZ (sg_start r) k; n ← getZ (sg_count r) k; Some (bool_decide (s ≤ x *w unit_size ≤ s +w n)) else Some false) (Some true) (seqZ 0 (lenZ coord)).
(** A region that starts at 0 is taken for a missing one. *)
Definition coord_to_region_index (coord : list Z) (r : stored_region) (unit_size : Z) : option Z :=
  s0 ← getZ (sg_start r) 0; n0 ← getZ (sg_count r) 0;
  if decide (lenZ coord = 0 ∨ s0 = 0 ∨ n0 = 0) then Some 0 else
  let ndim := lenZ coord in
  if decide (3 < ndim) then Some 0 else
  x0 ← getZ coord 0; u0 ← divZ s0 unit_size;
  if decide (ndim = 3) then
    x2 ← getZ coord 2; s2 ← getZ (sg_start r) 2; n1 ← getZ (sg_count r) 1; u2 ← divZ s2 unit_size;
    Some (((x2 -w u2) *w n0 / unit_size *w n1 / unit_size) +w (x0 -w u0))
  else if decide (ndim = 2) then x1 ← getZ coord 1; s1 ← getZ (sg_start r) 1; u1 ← divZ s1 unit_size; Some (((x1 -w u1) *w n0 / unit_size) +w (x0 -w u0))
  else Some (x0 -w u0).

(** * The scan of a region *)

(** [edata[i]] *)
Definition element (dtype : Z) (buf : list byte) (i : Z) : option number :=
  b ← mem_read buf (i * PDC_get_var_type_size dtype) (PDC_get_var_type_size dtype); num_at dtype (le_decode b).
(** The comparison of a condition; [None]: there is no such operator. *)
Definition one_sided (op : Z) (value x : number) : option bool :=
  if decide (op = PDC_GT) then Some (num_lt value x)
  else if decide (op = PDC_LT) then Some (num_lt x value)
  else if decide (op = PDC_GTE) then Some (num_le value x)
  else if decide (op = PDC_LTE) then Some (num_le x value)
  else if decide (op = PDC_EQ) then Some (num_eq x value)
  else None.
Definition two_sided (lo_op hi_op : Z) (lo hi x : number) : option bool :=
  if decide (lo_op = PDC_GT ∧ hi_op = PDC_LT) then Some (num_lt lo x && num_lt x hi)
  else if decide (lo_op = PDC_GTE ∧ hi_op = PDC_LT) then Some (num_le lo x && num_lt x hi)
  else if decide (lo_op = PDC_GT ∧ hi_op = PDC_LTE) then Some (num_lt lo x && num_le x hi)
  else if decide (lo_op = PDC_GTE ∧ hi_op = PDC_LTE) then Some (num_le lo x && num_le x hi)
  else None.

(** The coordinates of the element [i], from the position [at_] of the array on. *)
Definition put_coord (ndim unit_size i at_ : Z) (r : stored_region) (coords : list Z) : option (list Z) :=
  s0 ← getZ (sg_start r) 0; u0 ← divZ s0 unit_size;
  '(ttt, coords) ← (if decide (ndim = 3) then
      n0 ← getZ (sg_count r) 0; n1 ← getZ (sg_count r) 1; s2 ← getZ (sg_start r) 2; q ← divZ i (n1 / unit_size);
      let x := (q *w (n0 / unit_size)) +w s2 / unit_size in
      coords ← setZ coords (at_ + 2) x; Some (i -w (x *w (n1 / unit_size) *w (n0 / unit_size)), coords)
    else if decide (ndim = 2) then
      n0 ← getZ (sg_count r) 0; s1 ← getZ (sg_start r) 1; q ← divZ i (n0 / unit_size);
      let x := q +w s1 / unit_size in
      coords ← setZ coords (at_ + 1) x; Some (i -w (x *w (n0 / unit_size)), coords)
    else Some (i, coords));
  setZ coords at_ (ttt +w u0).

Section scan.
Context (junk : Z) (dtype unit_size : Z) (test : number → option bool) (buf : list byte) (r : stored_region).

(** [realloc] to twice the size. *)
Definition enlarge (coords : list Z) : list Z := coords ++ replicate (length coords) junk.
(** Every element; [None] inside: the operator is wrong, and the function ends. *)
Definition scan_all (n : Z) (constraint : option region_constraint) (sel : pdc_selection_t) : option (option pdc_selection_t) :=
  let ndim := sg_ndim r in
  let istart := sel_nhits sel * ndim in
  res ← forZ (Z.to_nat n) 0 (λ i st,
    match st with
    | None => Some None
    | Some (coords, cur_count) =>
      within ← match constraint with Some c => is_idx_within_region junk i r c unit_size | None => Some true end;
      if negb within then Some st else
      x ← element dtype buf i;
      match test x with
      | None => Some None
      | Some false => Some st
      | Some true =>
        let coords := if decide (lenZ coords < (istart + cur_count + 1) * ndim) then enlarge coords else coords in
        coords ← put_coord ndim unit_size i (istart + cur_count * ndim) r coords; Some (Some (coords, cur_count + 1))
      end
    end) (Some (sel_coords sel, 0));
  Some ('(coords, cur_count) ← res; Some (Sel (sel_nhits sel + cur_count) coords)).

(** The coordinates that are in this region and do not satisfy the condition are marked. *)
Definition mark (sel : pdc_selection_t) : option (option (list Z * Z)) :=
  let ndim := sg_ndim r in
  forZ (Z.to_nat (sel_nhits sel)) 0 (λ idx st,
    match st with
    | None => Some None
    | Some (coords, has_dup) =>
      x0 ← getZ coords (idx * ndim);
      if decide (x0 = ULLONG_MAX) then Some st else
      coord ← mem_read coords (idx * ndim) ndim;
      within ← is_coord_within_region coord r unit_size;
      if negb within then Some st else
      i ← coord_to_region_index coord r unit_size;
      x ← element dtype buf i;
      match test x with
      | None => Some None
      | Some true => Some st
      | Some false => coords ← setZ coords (idx * ndim) ULLONG_MAX; Some (Some (coords, has_dup + 1))
      end
    end) (Some (sel_coords sel, 0)).
(** The inner loop: over marked coordinates, from [idx] on; one more is looked at than there
    are. *)
Fixpoint skip_marked (fuel : nat) (ndim nhits : Z) (coords : list Z) (idx skipped : Z) : option (Z * Z) :=
  x0 ← getZ coords (idx * ndim);
  if decide (x0 = ULLONG_MAX ∧ idx < nhits) then match fuel with O => None | S fuel => skip_marked fuel ndim nhits coords (idx + 1) (skipped + 1) end
  else Some (idx, skipped).
Fixpoint compact (fuel : nat) (ndim nhits : Z) (coords : list Z) (idx to skipped : Z) : option (list Z * Z) :=
  if decide (nhits ≤ idx) then Some (coords, skipped) else
  match fuel with
  | O => None
  | S fuel =>
    '(idx, skipped) ← skip_marked (Z.to_nat nhits) ndim nhits coords idx skipped;
    coords ← (if decide (idx ≠ to ∧ idx < nhits) then b ← mem_read coords (idx * ndim) ndim; mem_write coords (to * ndim) b else Some coords);
    compact fuel ndim nhits coords (idx + 1) (to + 1) skipped
  end.
Definition scan_selected (sel : pdc_selection_t) : option (option pdc_selection_t) :=
  res ← mark sel;
  match res with
  | None => Some None
  | Some (coords, has_dup) =>
    if decide (0 < has_dup) then
      '(coords, skipped) ← compact (Z.to_nat (sel_nhits sel)) (sg_ndim r) (sel_nhits sel) coords 0 0 0;
      Some (Some (Sel (if decide (sel_nhits sel < skipped) then sel_nhits sel else sel_nhits sel - skipped) coords))
    else Some (Some (Sel (sel_nhits sel) coords))
  end.
(** [MACRO_QUERY_EVALUATE_SCAN_OPT] and [MACRO_QUERY_RANGE_EVALUATE_SCAN_OPT] *)
Definition scan (n : Z) (constraint : option region_constraint) (combine_op : Z) (sel : pdc_selection_t) : option (option pdc_selection_t) :=
  if decide (3 < sg_ndim r) then Some None
  else if decide (combine_op = PDC_QUERY_NONE ∨ combine_op = PDC_QUERY_OR) then scan_all n constraint sel
  else if decide (combine_op = PDC_QUERY_AND) then scan_selected sel
  else Some (Some sel).
End scan.

(** * One condition *)

(** The condition as a test of an element; [None] inside: the type is none of these. *)
Definition test_of (c : pdc_query_constraint_t) : option (option (number → option bool)) :=
  if decide (qc_is_range c = 1) then
    lo ← converted (qc_type c) (qc_value c);
    match lo with None => Some None | Some lo => hi ← converted (qc_type c) (qc_value2 c); Some (hi ← hi; Some (two_sided (qc_op c) (qc_op2 c) lo hi)) end
  else Some (value ← num_at (qc_type c) (qc_value c); Some (one_sided (qc_op c) value)).

(** The entry of a region and its data, when they have been read. *)
Definition in_memory (io : list io_region) (r : stored_region) : option (stored_region * list byte) := k ← sg_io_cache r; e ← io !! k; buf ← io_data e; Some (io_reg e, buf).
(** The loop over the regions of the object: the task, the regions that were evaluated, and
    whether the function has ended. *)
Definition evaluate_region (gen_hist : bool) (junk unit_size count : Z) (io : list io_region) (constraint : option region_constraint) (c : pdc_query_constraint_t) (test : option (number → option bool)) (combine_op : Z)
    (st : option (query_task_t * Z * Z * bool)) (r : stored_region) : option (query_task_t * Z * Z * bool) :=
  '(task, iter, n_eval, ended) ← st;
  if (ended : bool) then Some (task, iter, n_eval, ended) else
  if bool_decide (combine_op = PDC_QUERY_AND) && is_invalid (qt_invalid task) iter then Some (task, iter + 1, n_eval, false) else
  overlaps ← match constraint with Some rc => is_contiguous_overlap r rc | None => Some true end;
  if negb overlaps then Some (task, iter + 1, n_eval, false) else
  match in_memory io r with
  | None => Some (task, iter + 1, n_eval, false)
  | Some (cached, buf) =>
    no_hits ← excluded gen_hist c r;
    if (no_hits : bool) then invalid ← invalidate count iter (qt_invalid task); Some (with_invalid task invalid, iter + 1, n_eval, false) else
    let nelem := foldl (λ n k, n *w k) 1 (take (Z.to_nat (sg_ndim cached)) (sg_count cached)) / unit_size in
    match test with
    | None => Some (task, iter + 1, n_eval, true)
    | Some test =>
      sel ← scan junk (qc_type c) unit_size test buf r nelem constraint combine_op (qt_sel task);
      Some (match sel with Some sel => (with_sel task sel, iter + 1, n_eval + 1, false) | None => (task, iter + 1, n_eval, true) end)
    end
  end.

(** ** Removal of duplicates *)

Definition blocks (ndim n : nat) (l : list Z) : list (list Z) := (λ i, take ndim (drop (i * ndim) l)) <$> seq 0 n.
(** The order of [compare_coords_1d] and its siblings, on the bytes in memory. *)
Definition coord_le (a b : list Z) : Prop := memcmp (u64s_bytes a) (u64s_bytes b) ≤ 0.
#[global] Instance coord_le_dec a b : Decision (coord_le a b).
Proof. unfold coord_le. apply _. Defined.
(** Of equal neighbours the last one stays. *)
Fixpoint dedupe (l : list (list Z)) : list (list Z) :=
  match l with
  | a :: (b :: _) as rest => if decide (a = b) then dedupe rest else a :: dedupe rest
  | _ => l
  end.
Definition remove_duplicates (ndim : Z) (sel : pdc_selection_t) : pdc_selection_t :=
  let sorted := merge_sort coord_le (blocks (Z.to_nat ndim) (Z.to_nat (sel_nhits sel)) (sel_coords sel)) in
  let kept := mjoin (dedupe sorted) in
  Sel (lenZ (dedupe sorted)) (kept ++ drop (length kept) (mjoin sorted ++ drop (Z.to_nat (sel_nhits sel * ndim)) (sel_coords sel))).

(** The identifier in the condition of [left]; [None]: it has none. *)
Definition left_obj_id (left_ : query_tree) : option Z := match left_ with QNode (Some c) _ _ _ => Some (qc_obj_id c) | _ => None end.

Definition scaled (unit_size : Z) (c : region_constraint) : region_constraint :=
  let scale (l : list Z) := ((λ x, x *w unit_size) <$> take (Z.to_nat (rc_ndim c)) l) ++ drop (Z.to_nat (rc_ndim c)) l in
  RegionConstraint (rc_ndim c) (scale (rc_start c)) (scale (rc_count c)).

(** The result is not looked at. *)
Definition PDC_Server_query_evaluate_merge_opt (gen_hist : bool) (junk : Z) (st : query_server) (task : query_task_t) (c : pdc_query_constraint_t) (left_ : query_tree) (combine_op : Z) : option (query_server * query_task_t) :=
  match default [] (qs_regions st !! qc_obj_id c) with
  | [] => Some (st, task)
  | (head :: _) as regions =>
    let unit_size := PDC_get_var_type_size (qc_type c) in
    let task := if decide (qt_ndim task ≤ 0 ∨ 3 < qt_ndim task) then with_task_ndim task (sg_ndim head) else task in
    let ndim := qt_ndim task in
    if decide (ndim ≤ 0 ∨ 3 < ndim) then Some (st, task) else
    total ← (if decide (qt_total_elem task = 0) then foldl (λ n r, n ← n; k ← divZ (sg_data_size r) unit_size; Some (n +w k)) (Some 0) regions else Some (qt_total_elem task));
    let task := with_total task total in
    if decide ((sel_nhits (qt_sel task) = total ∧ combine_op = PDC_QUERY_OR) ∨ (sel_nhits (qt_sel task) = 0 ∧ combine_op = PDC_QUERY_AND)) then Some (st, task) else
    let constraint := if decide (0 < rc_ndim (qt_region task)) then Some (scaled unit_size (qt_region task)) else None in
    test ← test_of c;
    if bool_decide (qc_is_range c = 1) && bool_decide (test = None) then Some (st, task) else
    '(st, task) ← PDC_Server_load_query_data gen_hist st task c combine_op;
    let regions := default [] (qs_regions st !! qc_obj_id c) in
    '(task, _, n_eval, ended) ← foldl (evaluate_region gen_hist junk unit_size (lenZ regions) (default [] (qs_io st !! qc_obj_id c)) constraint c test combine_op) (Some (task, 0, 0, false)) regions;
    if (ended : bool) then Some (st, task) else
    let task := if decide (n_eval = 0 ∧ combine_op = PDC_QUERY_AND ∧ 0 < sel_nhits (qt_sel task)) then with_sel task (Sel 0 []) else task in
    if decide (combine_op = PDC_QUERY_OR ∧ 1 < sel_nhits (qt_sel task)) then
      obj ← left_obj_id left_;
      Some (st, if decide (obj ≠ qc_obj_id c) then with_sel task (remove_duplicates ndim (qt_sel task)) else task)
    else Some (st, task)
  end.

(** * A query *)

(** The leaves from left to right; the left tree and the operation of a leaf are those of the
    nearest node that it is in the right subtree of. *)
Fixpoint PDC_query_visit (gen_hist : bool) (junk : Z) (st : query_server) (task : query_task_t) (t : query_tree) (left_ : query_tree) (combine_op : Z) : option (query_server * query_task_t) :=
  match t with
  | QNull => Some (st, task)
  | QNode c op l r =>
    '(st, task) ← PDC_query_visit gen_hist junk st task l left_ combine_op;
    '(st, task) ← PDC_query_visit gen_hist junk st task r l op;
    match l, r with QNull, QNull => c ← c; PDC_Server_query_evaluate_merge_opt gen_hist junk st task c left_ combine_op | _, _ => Some (st, task) end
  end.
Definition PDC_QUERY_GET_NHITS : Z := 1.
Definition PDC_QUERY_GET_SEL : Z := 2.
Definition finished (get_op : Z) (t : query_task_t) : query_task_t :=
  QueryTask (qt_ndim t) (qt_region t) (qt_total_elem t) (qt_invalid t) (if decide (get_op = PDC_QUERY_GET_NHITS) then Sel (sel_nhits (qt_sel t)) [] else qt_sel t) true (qt_nhits t).
Definition PDC_Server_do_query (gen_hist : bool) (junk get_op : Z) (st : query_server) (task : query_task_t) (query : query_tree) : option (query_server * query_task_t) :=
  if qt_is_done task then Some (st, task) else
  '(st, task) ← PDC_query_visit gen_hist junk st task query QNull PDC_QUERY_NONE; Some (st, finished get_op task).

Definition new_selection : pdc_selection_t := Sel 0 (replicate 8192 0).
Definition new_task (region : region_constraint) : query_task_t := QueryTask 0 region 0 None new_selection false 0.
(** What the client gets: the number of hits that the task counts, or the coordinates with
    their number of dimensions. *)
Inductive query_answer := Nhits (n : Z) | Coords (ndim nhits : Z) (coords : list Z) | NoAnswer.
Definition PDC_Server_send_query_result_to_client (get_op : Z) (task : query_task_t) : option query_answer :=
  if decide (get_op = PDC_QUERY_GET_NHITS) then Some (Nhits (qt_nhits task))
  else if decide (get_op = PDC_QUERY_GET_SEL) then
    coords ← mem_read (sel_coords (qt_sel task)) 0 (sel_nhits (qt_sel task) * qt_ndim task); Some (Coords (qt_ndim task) (sel_nhits (qt_sel task)) coords)
  else Some NoAnswer.
(** A query with a new number, on the only server. *)
Definition PDC_Server_recv_data_query (gen_hist : bool) (junk : Z) (st : query_server) (x : pdc_query_xfer_t) : option (query_server * query_answer) :=
  '(query, region) ← PDC_deserialize_query x;
  '(st, task) ← PDC_Server_do_query gen_hist junk (pdc_query_xfer_get_op x) st (new_task region) query;
  answer ← PDC_Server_send_query_result_to_client (pdc_query_xfer_get_op x) task; Some (st, answer).
