(* ===== verification/QueryEvalSpec.v ===== *)
(** What a data server answers to a query: the hits of one condition on the regions of its
    object, and those of conditions that are joined by OR. *)

From stdpp Require Import gmap list sorting.
From S2P Require Export QueryEval.
#[local] Open Scope Z_scope.

(** * Blocks without duplicates *)

Section dedupe.
Context (R : list Z → list Z → Prop) `{!∀ a b, Decision (R a b)}.

End dedupe.

#[local] Instance coord_le_trans : Transitive coord_le.
Proof. intros a b c. unfold coord_le. apply memcmp_trans. Qed.
#[local] Instance coord_le_total : Total coord_le.
Proof. intros a b. apply memcmp_total. Qed.

(** ** A selection of one dimension *)


(** * One region *)

Section region.
Context (junk : Z).
Implicit Types (c : pdc_query_constraint_t) (r : stored_region).

Definition unit_of c : Z := PDC_get_var_type_size (qc_type c).
Definition data_of r : list byte := take (Z.to_nat (sg_data_size r)) (default [] (sg_file r)).
(** The first element of a region and the number of its elements. *)
Definition first_elem (u : Z) r : Z := default 0 (sg_start r !! 0%nat) / u.

(** The elements that pass a test. *)
Definition passes c (test : number → option bool) r (p : Z) : Prop := (x ← element (qc_type c) (data_of r) (p - first_elem (unit_of c) r); test x) = Some true.
#[global] Instance passes_dec c test r p : Decision (passes c test r p).
Proof. unfold passes. apply _. Defined.


Lemma enlarge_len coords : lenZ (enlarge junk coords) = 2 * lenZ coords.
Proof. unfold enlarge, lenZ. rewrite length_app, length_replicate. lia. Qed.
End region.

(** * Loading *)






(** * One condition *)

Section condition.
Context (junk : Z).



(** ** What the server keeps *)



(** ** Hits *)


(** ** The task of a query without a region *)



End condition.

(** * Conditions joined by OR *)

(** What a client builds from conditions with [PDCquery_or]. *)
Definition one_condition (c : pdc_query_constraint_t) : pdc_query_t := Query (Some c) PDC_QUERY_NONE QNull QNull None.
Fixpoint alternatives (c : pdc_query_constraint_t) (cs : list pdc_query_constraint_t) : pdc_query_t :=
  match cs with [] => one_condition c | c' :: cs => PDCquery_or (one_condition c) (alternatives c' cs) end.

Lemma alternatives_region c cs : q_region (alternatives c cs) = None.
Proof. destruct cs as [|c' cs]; [done|]. revert c c'. induction cs as [|c2 cs IH]; intros c c'; [done|]. apply (IH c' c2). Qed.


Module Asked.
Definition ints (l : list Z) : list byte := l ≫= (λ z, int_bytes (z mod W32)).
Definition region_from (start : Z) (l : list Z) : stored_region := StoredRegion 1 [start * 4] [4 * lenZ l] (4 * lenZ l) None (Some (ints l)) None.
(** Two objects of eight elements, in two regions each. *)
Definition server : query_server :=
  QueryServer (<[1 := [region_from 0 [5; 1; 7; 3]; region_from 4 [9; 2; 8; 4]]]> (<[2 := [region_from 0 [1; 1; 1; 1]; region_from 4 [0; 2; 2; 0]]]> ∅)) ∅.
Definition condition (obj op v : Z) : pdc_query_constraint_t := Constraint obj op PDC_INT (v mod W32) 0 0 0.
Definition over_four := condition 1 PDC_GT 4.
Definition is_two := condition 2 PDC_EQ 2.
Definition is_one := condition 1 PDC_EQ 1.
Definition message (get_op : Z) (q : pdc_query_t) : pdc_query_xfer_t := addressed 7 0 0 2 get_op (-1) (-1) (default (Build_pdc_query_xfer_t 0 0 0 0 0 0 [] 0 0 0 0 [] no_region) (PDC_serialize_query q)).
Definition answer (q : pdc_query_t) : option query_answer := '(_, a) ← PDC_Server_recv_data_query false 77 server (message PDC_QUERY_GET_SEL q); Some a.

Example three_conditions : answer (alternatives over_four [is_two; is_one]) = Some (Coords 1 6 [0; 1; 2; 4; 5; 6]).
Proof. vm_compute. reflexivity. Qed.
(** Neighbours on one object: an element that both conditions hold of is there twice. *)
Example same_object_twice : answer (alternatives over_four [condition 1 PDC_EQ 7]) = Some (Coords 1 5 [0; 2; 4; 6; 2]).
Proof. vm_compute. reflexivity. Qed.
(** OR on the left of OR: the server reads the condition of a node that has none. *)
Example left_nested : answer (PDCquery_or (PDCquery_or (one_condition over_four) (one_condition is_two)) (one_condition is_one)) = None.
Proof. vm_compute. reflexivity. Qed.
(** The number of hits of a single server stays 0. *)
Example hits_not_counted : ('(_, a) ← PDC_Server_recv_data_query false 77 server (message PDC_QUERY_GET_NHITS (one_condition over_four)); Some a) = Some (Nhits 0).
Proof. vm_compute. reflexivity. Qed.

End Asked.
