(* ===== verification/ClientObjects.v ===== *)
(** What a client has: the properties, containers, objects and regions that it has
    identifiers of ([api/pdc.c], [pdc_prop.c], [pdc_cont.c], [pdc_obj.c] in [api/pdc_obj/],
    [api/pdc_region/pdc_region.c]).

    An identifier names an address ([IdInterface]); the structure at the address owns what
    its pointers lead to, because the code copies every part of a structure that it takes
    over, so a structure is a value here and the addresses are those of whole structures.
    Strings that are [NULL] are [None].  [malloc] does not fail.  The fields [kvtag],
    [type_extent], [region_list_head] and the storage order of a transformation are left
    out, and an object that is closed has no transfers ([ClientLifecycle] has their end). *)

From stdpp Require Import gmap.
From S2P Require Export IdInterface MetadataClients.
#[local] Open Scope Z_scope.

(** * Data *)

Definition PDC_CLASS : Z := 1.
Definition PDC_CONT_PROP : Z := 2.
Definition PDC_OBJ_PROP : Z := 3.
Definition PDC_CONT : Z := 4.
Definition PDC_OBJ : Z := 5.
Definition PDC_REGION : Z := 6.
Definition PDC_TRANSFER_REQUEST : Z := 7.
Definition PDC_UNKNOWN : Z := 0.
Definition PDC_REGION_STATIC : Z := 1.
Definition PDC_CONSISTENCY_EVENTUAL : Z := 4.
Definition PDC_PERSIST : Z := 0.
Definition SERVER_MEMORY : Z := 1.
Definition CLIENT_MEMORY : Z := 2.

Record pdc_class := PdcClass { cls_name : option string; cls_local_id : Z }.
(** [_pdc_cont_prop] *)
Record cont_prop := ContPropOf { cp_pdc : pdc_class; cp_prop_id : Z; cp_life : Z }.
(** [pdc_obj_prop]; the dimensions are empty when the pointer is [NULL]. *)
Record prop_pub := PropPub { pp_prop_id : Z; pp_ndim : Z; pp_dims : list Z; pp_type : Z; pp_partition : Z; pp_consistency : Z }.
(** [_pdc_obj_prop] *)
Record object_prop := ObjectProp {
  pr_pub : prop_pub;
  pr_pdc : pdc_class;
  pr_user_id : Z;
  pr_app_name : option string;
  pr_time_step : Z;
  pr_data_loc : option string;
  pr_tags : option string;
  pr_buf : Z;
  pr_locus : Z;
  pr_data_state : Z;
  pr_transform : transform_t;
}.
(** [_pdc_cont_info] with its [pdc_cont_info] *)
Record cont_info := ContInfoOf { ci_name : option string; ci_local_id : Z; ci_meta_id : Z; ci_prop : cont_prop }.
Inductive location := PDC_OBJ_GLOBAL | PDC_OBJ_LOCAL.
(** [pdc_obj_info]; [None] for the properties: the pointer is not assigned. *)
Record object_pub := ObjectPub { ob_name : option string; ob_meta_id : Z; ob_local_id : Z; ob_server_id : Z; ob_metadata_server_id : Z; ob_pt : option prop_pub }.
(** [_pdc_obj_info]; [None] for the container: the pointer is not assigned.  [oi_location]:
    [None] when it is not assigned.  [oi_transfers]: the number of transfers that have not been
    waited for ([ClientTransfer]). *)
Record object_info := ObjectInfo {
  oi_pub : object_pub;
  oi_location : option location;
  oi_metadata : option pdc_metadata_t;
  oi_cont : option cont_info;
  oi_prop : object_prop;
  oi_transfers : Z;
}.
Record region_info := RegionInfoOf { rg_ndim : Z; rg_offset : list Z; rg_size : list Z; rg_local_id : Z }.

Inductive item := ItClass (c : pdc_class) | ItContProp (p : cont_prop) | ItObjProp (p : object_prop) | ItCont (c : cont_info) | ItObj (o : object_info) | ItRegion (r : region_info).
Definition kind (i : item) : Z :=
  match i with ItClass _ => PDC_CLASS | ItContProp _ => PDC_CONT_PROP | ItObjProp _ => PDC_OBJ_PROP | ItCont _ => PDC_CONT | ItObj _ => PDC_OBJ | ItRegion _ => PDC_REGION end.
Definition as_class (i : item) : option pdc_class := match i with ItClass c => Some c | _ => None end.
Definition as_cont_prop (i : item) : option cont_prop := match i with ItContProp p => Some p | _ => None end.
Definition as_obj_prop (i : item) : option object_prop := match i with ItObjProp p => Some p | _ => None end.
Definition as_cont (i : item) : option cont_info := match i with ItCont c => Some c | _ => None end.
Definition as_obj (i : item) : option object_info := match i with ItObj o => Some o | _ => None end.
Definition as_region (i : item) : option region_info := match i with ItRegion r => Some r | _ => None end.

(** A client and the metadata servers. *)
Record session := Session { se_ids : id_table; se_heap : gmap Z item; se_servers : list meta_server }.
Definition with_servers (st : session) (srv : list meta_server) : session := Session (se_ids st) (se_heap st) srv.
Definition with_item (st : session) (p : Z) (i : item) : session := Session (se_ids st) (<[p := i]> (se_heap st)) (se_servers st).

(** * Identifiers *)

(** The structure of an identifier: [None] when what is there is not one of the type; the
    inner [None] when the identifier is not one ([NULL]). *)
Definition lookup_id {A} (get : item → option A) (st : session) (id : Z) : option (option (Z * A)) :=
  info ← PDC_find_id (se_ids st) id;
  match info with None => Some None | Some x => i ← se_heap st !! id_obj_ptr x; a ← get i; Some (Some (id_obj_ptr x, a)) end.
Definition structure {A} (found : option (Z * A)) : option A := snd <$> found.
(** The pointer is read without a test. *)
Definition must {A} (r : option (option (Z * A))) : option (Z * A) := mjoin r.
Definition PDC_malloc (st : session) : Z := base.fresh (dom (se_heap st) : gset Z).
(** A structure is allocated and registered; it has its identifier. *)
Definition enroll (st : session) (type : Z) (i : Z → item) : option (session * Z) :=
  let p := PDC_malloc st in
  '(id, ids) ← PDC_id_register (se_ids st) true type p; Some (Session ids (<[p := i id]> (se_heap st)) (se_servers st), id).

(** The free functions of the types; they return [SUCCEED].  [None]: one reads a pointer that
    was not assigned, or the structure is of another type. *)
Definition close_item (type : Z) (i : item) : option unit :=
  if decide (kind i = type) then
    match i with ItObj o => match oi_cont o, ob_pt (oi_pub o) with Some _, Some _ => Some tt | _, _ => None end | _ => Some tt end
  else None.
Definition freed_ok (f obj : Z) : Z := SUCCEED.
Definition dec_ref (st : session) (id : Z) : option (session * Z) :=
  info ← PDC_find_id (se_ids st) id;
  '(n, ids) ← PDC_dec_ref freed_ok (se_ids st) id;
  match info with
  | None => Some (st, n)
  | Some x => if decide (i32 (id_count x - 1) = 0) then i ← se_heap st !! id_obj_ptr x; _ ← close_item (PDC_TYPE id) i; Some (Session ids (delete (id_obj_ptr x) (se_heap st)) (se_servers st), n)
              else Some (Session ids (se_heap st) (se_servers st), n)
  end.
(** [PDCprop_close], [PDCcont_close], [PDCobj_close], [PDCregion_close], [PDC_class_close] *)
Definition PDC_close (st : session) (id : Z) : option (session * perr_t) := '(st, n) ← dec_ref st id; Some (st, if decide (n < 0) then FAIL else SUCCEED).
(** [PDC_prop_cont_list_null], [PDC_prop_obj_list_null], [PDC_cont_list_null],
    [PDC_obj_list_null], [PDC_region_list_null] *)
Definition PDC_list_null (st : session) (type : Z) : option (session * perr_t) :=
  nelemts ← PDC_id_list_null (se_ids st) type;
  if decide (0 < nelemts) then
    t ← mjoin (se_ids st !! type);
    _ ← mapM (λ x, i ← se_heap st !! id_obj_ptr x; close_item type i) (ty_ids t);
    '(ret, ids) ← PDC_id_list_clear freed_ok (length (ty_ids t)) (se_ids st) type;
    Some (Session ids (foldr (λ x h, delete (id_obj_ptr x) h) (se_heap st) (ty_ids t)) (se_servers st), ret)
  else Some (st, SUCCEED).

(** * Start and end *)

Definition init_type (ids : id_table) (type : Z) : option id_table := '(_, ids) ← PDC_register_type ids true type (Some type); Some ids.
(** [PDCinit]; connecting to the servers is left out. *)
Definition PDCinit (name : string) (srv : list meta_server) : option (session * Z) :=
  ids ← init_type ∅ PDC_CLASS;
  '(st, pdc) ← enroll (Session ids ∅ srv) PDC_CLASS (λ id, ItClass (PdcClass (Some name) id));
  ids ← foldl (λ ids type, ids ← ids; init_type ids type) (Some (se_ids st)) [PDC_CONT_PROP; PDC_OBJ_PROP; PDC_CONT; PDC_OBJ; PDC_REGION; PDC_TRANSFER_REQUEST];
  Some (Session ids (se_heap st) (se_servers st), pdc).
(** The lists that [PDCclose] empties before it destroys the types. *)
Definition PDCclose (st : session) (pdc : Z) : option (session * perr_t) :=
  '(st, ret) ← foldl (λ st type, '(st, ret) ← st; if decide (ret < 0) then Some (st, ret) else PDC_list_null st type) (Some (st, SUCCEED)) [PDC_CONT_PROP; PDC_OBJ_PROP; PDC_CONT; PDC_OBJ; PDC_REGION];
  if decide (ret < 0) then Some (st, FAIL) else '(st, _) ← PDC_close st pdc; Some (st, SUCCEED).

(** * Properties *)

Section api.
Context `{FM : !FreshMemory, TO : !TableOrder, NU : !Numbers, BK : !Bulk, MC : !Mercury, UA : !Unassigned}.
Context (old_memory : ∀ k, message k).
Implicit Types (st : session) (p : object_prop).

Inductive prop_type := PDC_CONT_CREATE | PDC_OBJ_CREATE.
Definition new_prop (pdc : pdc_class) (id : Z) : object_prop :=
  ObjectProp (PropPub id 0 [] PDC_UNKNOWN PDC_REGION_STATIC PDC_CONSISTENCY_EVENTUAL) pdc (junk_u32 100) None 0 None None 0 CLIENT_MEMORY 0 no_transform.
Definition PDCprop_create st (type : prop_type) (pdcid : Z) : option (session * Z) :=
  '(_, pdc) ← must (lookup_id as_class st pdcid);
  match type with
  | PDC_CONT_CREATE => enroll st PDC_CONT_PROP (λ id, ItContProp (ContPropOf pdc id PDC_PERSIST))
  | PDC_OBJ_CREATE => enroll st PDC_OBJ_PROP (λ id, ItObjProp (new_prop pdc id))
  end.
(** The elements of an array that the number of dimensions says are there. *)
Definition copy_dims (ndim : Z) (dims : list Z) : option (list Z) := mem_read dims 0 ndim.
(** Not all of a property: the user is 0, the type unknown, the consistency not assigned. *)
Definition dup_of p (dims : list Z) (id : Z) : object_prop :=
  ObjectProp (PropPub id (pp_ndim (pr_pub p)) dims PDC_UNKNOWN (pp_partition (pr_pub p)) (junk_u8 101)) (pr_pdc p) 0 (pr_app_name p) (pr_time_step p) None (pr_tags p) 0 0 0 no_transform.
Definition PDCprop_obj_dup st (prop_id : Z) : option (session * Z) :=
  found ← lookup_id as_obj_prop st prop_id;
  match found with
  | None => Some (st, 0)
  | Some (_, p) => dims ← copy_dims (pp_ndim (pr_pub p)) (pp_dims (pr_pub p)); enroll st PDC_OBJ_PROP (λ id, ItObjProp (dup_of p dims id))
  end.
(** The inner [None] is [NULL]. *)
Definition PDCcont_prop_get_info st (id : Z) : option (option cont_prop) := found ← lookup_id as_cont_prop st id; Some (structure found).
Definition copy_pub (b : prop_pub) : option prop_pub := dims ← copy_dims (pp_ndim b) (pp_dims b); Some (PropPub (pp_prop_id b) (pp_ndim b) dims (pp_type b) (pp_partition b) (pp_consistency b)).
Definition with_pub p (b : prop_pub) : object_prop := ObjectProp b (pr_pdc p) (pr_user_id p) (pr_app_name p) (pr_time_step p) (pr_data_loc p) (pr_tags p) (pr_buf p) (pr_locus p) (pr_data_state p) (pr_transform p).
Definition PDC_obj_prop_get_info st (id : Z) : option (option object_prop) :=
  found ← lookup_id as_obj_prop st id;
  match found with None => Some None | Some (_, p) => b ← copy_pub (pr_pub p); Some (Some (with_pub p b)) end.
Definition PDCobj_prop_get_info st (id : Z) : option (option prop_pub) := info ← PDC_obj_prop_get_info st id; Some (match info with Some p => Some (pr_pub p) | None => None end).

Definition set_prop st (id : Z) (f : object_prop → option object_prop) : option (session * perr_t) :=
  found ← lookup_id as_obj_prop st id;
  match found with None => Some (st, FAIL) | Some (ptr, p) => p ← f p; Some (with_item st ptr (ItObjProp p), SUCCEED) end.
(** What the functions below change; fewer dimensions than before leave the number, and the
    dimensions after them. *)
Inductive change :=
| UserId (user_id : Z) | AppName (app_name : string) | TimeStep (time_step : Z) | DataLoc (loc : string) | Tags (tags : string) | Buf (buf : Z)
| Dims (ndim : Z) (dims : list Z) | VarType (type : Z) | Partition (partition : Z) | Consistency (consistency : Z).
Definition changed (c : change) p : option object_prop :=
  let b := pr_pub p in
  match c with
  | UserId v => Some (ObjectProp b (pr_pdc p) v (pr_app_name p) (pr_time_step p) (pr_data_loc p) (pr_tags p) (pr_buf p) (pr_locus p) (pr_data_state p) (pr_transform p))
  | AppName v => Some (ObjectProp b (pr_pdc p) (pr_user_id p) (Some v) (pr_time_step p) (pr_data_loc p) (pr_tags p) (pr_buf p) (pr_locus p) (pr_data_state p) (pr_transform p))
  | TimeStep v => Some (ObjectProp b (pr_pdc p) (pr_user_id p) (pr_app_name p) v (pr_data_loc p) (pr_tags p) (pr_buf p) (pr_locus p) (pr_data_state p) (pr_transform p))
  | DataLoc v => Some (ObjectProp b (pr_pdc p) (pr_user_id p) (pr_app_name p) (pr_time_step p) (Some v) (pr_tags p) (pr_buf p) (pr_locus p) (pr_data_state p) (pr_transform p))
  | Tags v => Some (ObjectProp b (pr_pdc p) (pr_user_id p) (pr_app_name p) (pr_time_step p) (pr_data_loc p) (Some v) (pr_buf p) (pr_locus p) (pr_data_state p) (pr_transform p))
  | Buf v => Some (ObjectProp b (pr_pdc p) (pr_user_id p) (pr_app_name p) (pr_time_step p) (pr_data_loc p) (pr_tags p) v (pr_locus p) (pr_data_state p) (pr_transform p))
  | Dims n dims =>
    given ← copy_dims n dims;
    Some (with_pub p (if decide (pp_ndim b < n) then PropPub (pp_prop_id b) n given (pp_type b) (pp_partition b) (pp_consistency b)
                      else PropPub (pp_prop_id b) (pp_ndim b) (given ++ drop (length given) (pp_dims b)) (pp_type b) (pp_partition b) (pp_consistency b)))
  | VarType v => Some (with_pub p (PropPub (pp_prop_id b) (pp_ndim b) (pp_dims b) v (pp_partition b) (pp_consistency b)))
  | Partition v => Some (with_pub p (PropPub (pp_prop_id b) (pp_ndim b) (pp_dims b) (pp_type b) v (pp_consistency b)))
  | Consistency v => Some (with_pub p (PropPub (pp_prop_id b) (pp_ndim b) (pp_dims b) (pp_type b) (pp_partition b) v))
  end.
Definition PDCprop_set_obj_user_id st (id user_id : Z) : option (session * perr_t) := set_prop st id (changed (UserId user_id)).
Definition PDCprop_set_obj_app_name st (id : Z) (app_name : string) : option (session * perr_t) := set_prop st id (changed (AppName app_name)).
Definition PDCprop_set_obj_time_step st (id time_step : Z) : option (session * perr_t) := set_prop st id (changed (TimeStep time_step)).
Definition PDCprop_set_obj_data_loc st (id : Z) (loc : string) : option (session * perr_t) := set_prop st id (changed (DataLoc loc)).
Definition PDCprop_set_obj_tags st (id : Z) (tags : string) : option (session * perr_t) := set_prop st id (changed (Tags tags)).
Definition PDCprop_set_obj_buf st (id buf : Z) : option (session * perr_t) := set_prop st id (changed (Buf buf)).
Definition PDCprop_set_obj_dims st (id ndim : Z) (dims : list Z) : option (session * perr_t) := set_prop st id (changed (Dims ndim dims)).
Definition PDCprop_set_obj_type st (id type : Z) : option (session * perr_t) := set_prop st id (changed (VarType type)).
Definition PDCprop_set_obj_transfer_region_type st (id partition : Z) : option (session * perr_t) := set_prop st id (changed (Partition partition)).
Definition PDCprop_set_obj_consistency_semantics st (id consistency : Z) : option (session * perr_t) := set_prop st id (changed (Consistency consistency)).
Definition PDCprop_set_cont_lifetime st (id life : Z) : option (session * perr_t) :=
  found ← lookup_id as_cont_prop st id;
  match found with None => Some (st, FAIL) | Some (ptr, p) => Some (with_item st ptr (ItContProp (ContPropOf (cp_pdc p) (cp_prop_id p) life)), SUCCEED) end.

(** * Containers *)

(** [PDCcont_create]: 0 when the servers refuse. *)
Definition PDCcont_create st (name : string) (prop_id : Z) : option (session * Z) :=
  '(_, p) ← must (lookup_id as_cont_prop st prop_id);
  '(srv, (ret, meta_id)) ← PDC_Client_create_cont_id old_memory (se_servers st) name;
  let st := with_servers st srv in
  if decide (ret = FAIL) then Some (st, 0) else enroll st PDC_CONT (λ id, ItCont (ContInfoOf (Some name) id meta_id p)).
Definition PDC_cont_create_local st (pdc : Z) (name : string) (meta_id : Z) : option (session * Z) :=
  '(st, prop_id) ← PDCprop_create st PDC_CONT_CREATE pdc;
  '(_, p) ← must (lookup_id as_cont_prop st prop_id);
  '(st, id) ← enroll st PDC_CONT (λ id, ItCont (ContInfoOf (Some name) id meta_id p));
  '(st, _) ← PDC_close st prop_id; Some (st, id).
Definition PDCcont_open st (name : string) (pdc : Z) : option (session * Z) :=
  '(srv, (ret, meta_id)) ← PDC_Client_query_container_name old_memory (se_servers st) name;
  let st := with_servers st srv in
  if decide (ret = FAIL ∨ meta_id = 0) then Some (st, 0) else PDC_cont_create_local st pdc name meta_id.
Definition PDC_cont_get_info st (id : Z) : option (option cont_info) := found ← lookup_id as_cont st id; Some (structure found).
Definition has_cont_name st (name : string) (ptr : Z) : bool := bool_decide ((i ← se_heap st !! ptr; c ← as_cont i; ci_name c) = Some name).
(** No container of the name: [NULL] is read. *)
Definition PDCcont_get_info st (name : string) : option cont_info := id ← PDC_find_byname (se_ids st) PDC_CONT (has_cont_name st name); mjoin (PDC_cont_get_info st id).
Definition PDCcont_persist st (id : Z) : option (session * perr_t) :=
  found ← lookup_id as_cont st id;
  match found with
  | None => Some (st, FAIL)
  | Some (ptr, c) => Some (with_item st ptr (ItCont (ContInfoOf (ci_name c) (ci_local_id c) (ci_meta_id c) (ContPropOf (cp_pdc (ci_prop c)) (cp_prop_id (ci_prop c)) PDC_PERSIST))), SUCCEED)
  end.
(** A handle is a place in the list. *)
Definition PDCcont_iter_start st : option (list id_info) := t ← mjoin (se_ids st !! PDC_CONT); Some (ty_ids t).
Definition PDCcont_iter_null (l : list id_info) : bool := bool_decide (l = []).
Definition PDCcont_iter_next (l : list id_info) : list id_info := tail l.
Definition PDCcont_iter_get_info st (l : list id_info) : option cont_info := x ← head l; i ← se_heap st !! id_obj_ptr x; as_cont i.

(** * Objects *)

(** The properties that the servers are told. *)
Definition sent_prop p : obj_prop :=
  ObjProp (pr_user_id p) (pr_time_step p) (pp_type (pr_pub p)) (pp_partition (pr_pub p)) (pp_ndim (pr_pub p)) (pp_dims (pr_pub p)) (pr_tags p) (pr_app_name p) (pr_data_loc p).
(** [PDC_Client_attach_metadata_to_local_obj] *)
Definition local_metadata (name : string) (obj_id cont_id data_server_id : Z) p : option pdc_metadata_t :=
  app ← strcpy OBJ_NAME_MAX (default [] (pr_app_name p)); name ← strcpy OBJ_NAME_MAX name; tags ← strcpy TAG_LEN_MAX (default [] (pr_tags p)); loc ← strcpy ADDR_MAX (default [] (pr_data_loc p));
  dims ← copy_dims (pp_ndim (pr_pub p)) (pp_dims (pr_pub p));
  if decide (4 < pp_ndim (pr_pub p)) then None else
  Some (Metadata (i32 (pr_user_id p)) app name (i32 (pr_time_step p)) 0 obj_id cont_id data_server_id (pp_partition (pr_pub p) mod 256) (pp_consistency (pr_pub p) mod 256) tags [] loc
          (pp_ndim (pr_pub p)) (dims ++ replicate (4 - length dims) 0) 0 no_transform).
(** The copy of a property that an object has; [locus]: where the client executes. *)
Definition object_copy (locus : Z) p : option object_prop :=
  let b := pr_pub p in
  dims ← copy_dims (pp_ndim b) (pp_dims b);
  Some (ObjectProp (PropPub 0 (pp_ndim b) dims (pp_type b) (pp_partition b) (pp_consistency b)) (pr_pdc p) (pr_user_id p) (pr_app_name p) (pr_time_step p) (pr_data_loc p) (pr_tags p) (pr_buf p) locus (pr_data_state p) (pr_transform p)).
Definition assigned_obj (o : object_info) (meta_id metadata_server : Z) (m : option pdc_metadata_t) (pt : option prop_pub) : object_info :=
  ObjectInfo (ObjectPub (ob_name (oi_pub o)) meta_id (ob_local_id (oi_pub o)) (ob_server_id (oi_pub o)) metadata_server pt) (oi_location o) m (oi_cont o) (oi_prop o) (oi_transfers o).
(** [data_server]: the data server of the client.  The object is registered before the
    servers are asked; when they refuse it stays registered without its properties. *)
Definition PDC_obj_create st (locus data_server cont_id : Z) (name : string) (prop_id : Z) (loc : location) : option (session * Z) :=
  cont ← (if decide (cont_id = 0) then Some None else '(_, c) ← must (lookup_id as_cont st cont_id); Some (Some c));
  '(_, p) ← must (lookup_id as_obj_prop st prop_id);
  prop ← object_copy locus p;
  let new id := ObjectInfo (ObjectPub (Some name) 0 id 0 (junk_u32 102) None) (Some loc) None cont prop 0 in
  let ptr := PDC_malloc st in
  '(st, id) ← enroll st PDC_OBJ (λ id, ItObj (new id));
  let finish st meta_id server :=
    m ← local_metadata name meta_id (match cont with Some c => ci_meta_id c | None => 0 end) (match loc with PDC_OBJ_GLOBAL => u32 data_server | PDC_OBJ_LOCAL => junk_u32 103 end) prop;
    Some (with_item st ptr (ItObj (assigned_obj (new id) meta_id server (Some m) (Some (pr_pub prop)))), id) in
  match loc with
  | PDC_OBJ_GLOBAL =>
    c ← cont;
    '(srv, (ret, meta_id, server)) ← PDC_Client_send_name_recv_id old_memory (se_servers st) name (ci_meta_id c) (sent_prop p) data_server;
    let st := with_servers st srv in
    if decide (ret = FAIL) then Some (with_item st ptr (ItObj (assigned_obj (new id) 0 (junk_u32 102) None None)), 0) else finish st meta_id server
  | PDC_OBJ_LOCAL => finish st 0 (junk_u32 102)
  end.
Definition PDCobj_create st (locus data_server cont_id : Z) (name : string) (prop_id : Z) : option (session * Z) := PDC_obj_create st locus data_server cont_id name prop_id PDC_OBJ_GLOBAL.

(** The object that is made of its metadata.  Its container has an identifier on the servers
    only. *)
Definition no_class : pdc_class := PdcClass None 0.
Definition opened_prop (m : pdc_metadata_t) (dims : list Z) : object_prop :=
  let changed := bool_decide (0 < transform_state m) in
  ObjectProp (PropPub 0 (ndim m) dims (data_type m) (region_partition m) (consistency m)) no_class (u32 (user_id m)) (match app_name m with [] => None | a => Some a end) (u32 (time_step m)) None None 0
    (if changed then SERVER_MEMORY else 0) (if changed then transform_state m else 0)
    (if changed then Transform (tr_dtype (current_state m)) (tr_ndim (current_state m)) (take (Z.to_nat (tr_ndim (current_state m))) (tr_dims (current_state m)) ++ replicate (4 - Z.to_nat (tr_ndim (current_state m))) 0) 0 else no_transform).
Definition opened_cont (meta_id : Z) : cont_info := ContInfoOf None 0 meta_id (ContPropOf no_class 0 0).
(** [PDCobj_open_common] of one client ([PDCobj_open]).  A property is made and stays. *)
Definition PDCobj_open st (name : string) (pdc : Z) : option (session * Z) :=
  '(srv, (m, server)) ← PDC_Client_query_metadata_name_timestep old_memory (se_servers st) name 0;
  '(st, prop_id) ← PDCprop_create (with_servers st srv) PDC_OBJ_CREATE pdc;
  '(st, _) ← PDCprop_set_obj_dims st prop_id (ndim m) (dims m);
  '(st, _) ← PDCprop_set_obj_type st prop_id (data_type m);
  dims ← copy_dims (ndim m) (dims m);
  let prop := opened_prop m dims in
  enroll st PDC_OBJ (λ id, ItObj (ObjectInfo (ObjectPub (match obj_name m with [] => None | n => Some n end) (obj_id m) id (junk_i32 104) server (Some (pr_pub prop))) None (Some m) (Some (opened_cont (cont_id m))) prop 0)).

(** [PDC_obj_get_info]: a copy without the metadata.  [None] also when the object has no
    container or no properties to copy. *)
Definition PDC_obj_get_info st (id : Z) : option (option object_info) :=
  found ← lookup_id as_obj st id;
  match found with
  | None => Some None
  | Some (_, o) =>
    b ← ob_pt (oi_pub o); b ← copy_pub b; c ← oi_cont o; q ← copy_pub (pr_pub (oi_prop o));
    Some (Some (ObjectInfo (ObjectPub (ob_name (oi_pub o)) (ob_meta_id (oi_pub o)) (ob_local_id (oi_pub o)) (ob_server_id (oi_pub o)) (ob_metadata_server_id (oi_pub o)) (Some b)) (oi_location o) None (Some c) (with_pub (oi_prop o) q) (oi_transfers o)))
  end.
Definition PDCobj_get_info st (id : Z) : option (option object_pub) := o ← PDC_obj_get_info st id; Some (match o with Some o => Some (oi_pub o) | None => None end).
Definition PDCobj_get_dims st (id : Z) : option (Z * list Z) :=
  '(_, o) ← must (lookup_id as_obj st id); dims ← copy_dims (pp_ndim (pr_pub (oi_prop o))) (pp_dims (pr_pub (oi_prop o))); Some (pp_ndim (pr_pub (oi_prop o)), dims).
Definition PDCobj_buf_retrieve st (id : Z) : option (option Z) := found ← lookup_id as_obj st id; Some ((λ o, pr_buf (oi_prop o)) <$> structure found).
Definition PDCobj_del st (id : Z) : option (session * perr_t) :=
  o ← mjoin (PDC_obj_get_info st id);
  '(srv, ret) ← PDC_Client_del_metadata old_memory (se_servers st) (Opened (ob_meta_id (oi_pub o)) (default [] (ob_name (oi_pub o))));
  Some (with_servers st srv, ret).

(** ** Iteration over the objects of a container *)

Definition obj_in_cont st (cont_id : Z) (x : id_info) : option bool := i ← se_heap st !! id_obj_ptr x; o ← as_obj i; c ← oi_cont o; Some (bool_decide (ci_local_id c = cont_id)).
Fixpoint first_in_cont st (cont_id : Z) (l : list id_info) : option (list id_info) :=
  match l with [] => Some [] | x :: l' => b ← obj_in_cont st cont_id x; if (b : bool) then Some l else first_in_cont st cont_id l' end.
Definition PDCobj_iter_start st (cont_id : Z) : option (list id_info) := t ← mjoin (se_ids st !! PDC_OBJ); first_in_cont st cont_id (ty_ids t).
Definition PDCobj_iter_null (l : list id_info) : bool := bool_decide (l = []).
(** The loop takes the same step again: [None] when the next object is in another container,
    the loop does not end. *)
Definition PDCobj_iter_next st (cont_id : Z) (l : list id_info) : option (list id_info) :=
  match l with
  | _ :: ((y :: _) as l') => b ← obj_in_cont st cont_id y; if (b : bool) then Some l' else None
  | _ => Some []
  end.
Definition PDCobj_iter_get_info st (l : list id_info) : option object_pub :=
  x ← head l; i ← se_heap st !! id_obj_ptr x; o ← as_obj i; b ← ob_pt (oi_pub o); b ← copy_pub b;
  Some (ObjectPub (ob_name (oi_pub o)) (ob_meta_id (oi_pub o)) (ob_local_id (oi_pub o)) (ob_server_id (oi_pub o)) (ob_metadata_server_id (oi_pub o)) (Some b)).

(** ** New dimensions of an object *)

Definition reset (m : pdc_metadata_t) (l : list Z) : pdc_metadata_t :=
  Metadata (user_id m) (app_name m) (obj_name m) (time_step m) (data_type m) (obj_id m) (cont_id m) (data_server_id m) (region_partition m) (consistency m) (tags m) (kvtags m) (data_location m) (ndim m) l (transform_state m) (current_state m).
Definition reset_dims (n d0 d1 d2 : Z) (l : list Z) : list Z :=
  let l := if decide (1 ≤ n) then <[0%nat := d0]> l else l in
  let l := if decide (2 ≤ n) then <[1%nat := d1]> l else l in
  if decide (n = 3) then <[2%nat := d2]> l else l.
(** [io_by_region]: the data of objects are kept by region. *)
Definition obj_reset_dims_cb (io_by_region : bool) (st : meta_server) (i : obj_reset_dims_in_t) : option (meta_server * obj_reset_dims_out_t) :=
  if negb io_by_region then Some (st, Build_obj_reset_dims_out_t 0) else
  let hash := obj_reset_dims_in_hash_value i in
  name ← strcpy OBJ_NAME_MAX (obj_reset_dims_in_obj_name i);
  let a := Metadata 0 [] name (obj_reset_dims_in_time_step i) 0 0 0 0 0 0 [] [] [] 0 [] 0 no_transform in
  match metadata_hash_table_g st !! hash with
  | Some head =>
    match find_identical_metadata head a with
    | Some (k, m) =>
      let m' := reset m (reset_dims (obj_reset_dims_in_ndim i) (obj_reset_dims_in_dims0 i) (obj_reset_dims_in_dims1 i) (obj_reset_dims_in_dims2 i) (dims m)) in
      Some (with_objects st (<[hash := Head (n_obj head) (bloom head) (<[k := m']> (metadata head))]> (metadata_hash_table_g st)), Build_obj_reset_dims_out_t 2)
    | None => Some (st, Build_obj_reset_dims_out_t 1)
    end
  | None => Some (st, Build_obj_reset_dims_out_t 1)
  end.
(** Was it done?  What is beyond the dimensions is not assigned. *)
Definition PDC_Client_obj_reset_dims (io_by_region : bool) (srv : list meta_server) (name : string) (ts n : Z) (l : list Z) : option (list meta_server * bool) :=
  let hash := pdc_hash_djb2 name in
  let at_dim k := if decide (k < n) then getZ l k else Some (junk_u64 (105 + k)) in
  d0 ← at_dim 0; d1 ← at_dim 1; d2 ← at_dim 2;
  '(srv, out) ← forward old_memory rpc_obj_reset_dims (obj_reset_dims_cb io_by_region) srv (u32 (hash + ts) mod pdc_server_num_g srv) (Build_obj_reset_dims_in_t name hash (i32 ts) d0 d1 d2 n);
  Some (srv, bool_decide (obj_reset_dims_out_ret out = 2)).
(** A wrong number of dimensions is only printed; more than there are overrun the arrays. *)
Definition PDCobj_set_dims st (io_by_region : bool) (id n : Z) (l : list Z) : option (session * perr_t) :=
  '(ptr, o) ← must (lookup_id as_obj st id);
  if decide (oi_transfers o ≠ 0) then Some (st, FAIL) else
  m ← oi_metadata o; given ← copy_dims n l;
  let p := oi_prop o in let b := pr_pub p in
  dims1 ← mem_write (pp_dims b) 0 given; dims2 ← mem_write (dims m) 0 given;
  let o' := ObjectInfo (oi_pub o) (oi_location o) (Some (reset m dims2)) (oi_cont o) (with_pub p (PropPub (pp_prop_id b) (pp_ndim b) dims1 (pp_type b) (pp_partition b) (pp_consistency b))) (oi_transfers o) in
  name ← ob_name (oi_pub o);
  '(srv, done) ← PDC_Client_obj_reset_dims io_by_region (se_servers st) name (pr_time_step p) n l;
  Some (with_servers (with_item st ptr (ItObj o')) srv, if (done : bool) then SUCCEED else FAIL).

(** * Regions *)

Definition PDCregion_create st (n : Z) (offset size : list Z) : option (session * Z) :=
  offset ← copy_dims n offset; size ← copy_dims n size; enroll st PDC_REGION (λ id, ItRegion (RegionInfoOf n offset size id)).
Definition PDCregion_get_info st (id : Z) : option (option region_info) := found ← lookup_id as_region st id; Some (structure found).
End api.
