(* ===== verification/ClientObjectsSpec.v ===== *)
(** What a client has is a map from identifiers to structures: every operation on an
    identifier changes what is at this identifier, as the operation says, and nothing else. *)

From stdpp Require Import gmap.
From S2P Require Export ClientObjects MetadataQueries.
#[local] Open Scope Z_scope.

(** * The map *)

Definition contents (st : session) (id : Z) : option item := x ← registered (se_ids st) id; se_heap st !! id_obj_ptr x.

(** The dimensions are there. *)
Definition pub_ok (b : prop_pub) : Prop := 0 ≤ pp_ndim b ∧ lenZ (pp_dims b) = pp_ndim b.
Definition item_ok (i : item) : Prop :=
  match i with
  | ItObjProp p => pub_ok (pr_pub p)
  | ItObj o => pub_ok (pr_pub (oi_prop o)) ∧ ∀ b, ob_pt (oi_pub o) = Some b → pub_ok b
  | _ => True
  end.
(** An object that the servers refused to create has pointers that were not assigned. *)
Definition complete (i : item) : Prop :=
  match i with ItObj o => is_Some (oi_cont o) ∧ is_Some (ob_pt (oi_pub o)) | _ => True end.
Record session_ok (st : session) : Prop := {
  ss_table : table_ok (se_ids st);
  ss_types : ∀ ty, 1 ≤ ty < PDC_next_type → ∃ t, se_ids st !! ty = Some (Some t);
  ss_items : ∀ id x, registered (se_ids st) id = Some x → id_count x = 1 ∧ ∃ i, se_heap st !! id_obj_ptr x = Some i ∧ kind i = PDC_TYPE id ∧ item_ok i;
  ss_inj : ∀ id id' x x', registered (se_ids st) id = Some x → registered (se_ids st) id' = Some x' → id_obj_ptr x = id_obj_ptr x' → id = id';
}.
(** Another identifier of the type can be made. *)
Definition room (st : session) (ty : Z) : Prop := ∀ t, se_ids st !! ty = Some (Some t) → ty_nextid t < ID_MASK ∧ ty_id_count t + 1 < W32.

Lemma kind_type i : 1 ≤ kind i < PDC_next_type.
Proof. destruct i; cbn; unfold PDC_next_type, PDC_NTYPES, PDC_CLASS, PDC_CONT_PROP, PDC_OBJ_PROP, PDC_CONT, PDC_OBJ, PDC_REGION; lia. Qed.
Lemma contents_registered st id i : session_ok st → contents st id = Some i →
  ∃ x, registered (se_ids st) id = Some x ∧ id_count x = 1 ∧ se_heap st !! id_obj_ptr x = Some i ∧ kind i = PDC_TYPE id ∧ item_ok i.
Proof.
  intros Hst. unfold contents. destruct (registered _ id) as [x|] eqn:E; [|done]. cbn. intros Ei. exists x. destruct (ss_items _ Hst id x E) as (Hc & i' & Ei' & Hk & Hi). assert (i' = i) as -> by congruence. done.
Qed.
Lemma malloc_new st : se_heap st !! PDC_malloc st = None.
Proof. unfold PDC_malloc. pose proof (is_fresh (dom (se_heap st) : gset Z)) as H. by apply not_elem_of_dom in H. Qed.

(** ** One structure more *)

Lemma enroll_spec st ty (it : Z → item) : session_ok st → room st ty → (∀ id, kind (it id) = ty ∧ item_ok (it id)) →
  ∃ st' id, enroll st ty it = Some (st', id) ∧ se_heap st' = <[PDC_malloc st := it id]> (se_heap st) ∧ se_servers st' = se_servers st ∧ session_ok st' ∧ id ≠ 0 ∧ PDC_TYPE id = ty ∧ contents st id = None ∧
    ∀ id', contents st' id' = if decide (id' = id) then Some (it id) else contents st id'.
Proof.
  intros Hst Hroom Hit. assert (1 ≤ ty < PDC_next_type) as Hty by (destruct (Hit 0) as [<- _]; apply kind_type). destruct (ss_types _ Hst ty Hty) as (t & Et). destruct (Hroom t Et) as [Hn Hc].
  destruct (id_register_spec (se_ids st) ty t (PDC_malloc st) (ss_table _ Hst) Et ltac:(lia) Hn Hc) as (id & ids & E & Hok & Htype & Hnew & Hreg). unfold enroll. rewrite E. cbn [mbind option_bind]. eexists _, id. split; [done|]. split; [done|]. split; [done|].
  assert (∀ id' x, registered (se_ids st) id' = Some x → id_obj_ptr x ≠ PDC_malloc st) as Hptr. { intros id' x Hx Eq. destruct (ss_items _ Hst id' x Hx) as (_ & i & Ei & _). rewrite Eq, malloc_new in Ei. done. }
  split; [|split; [intros ->; change (PDC_TYPE 0) with 0 in Htype; lia|split; [done|split; [unfold contents; by rewrite Hnew|]]]].
  - split; cbn [se_ids se_heap].
    + exact Hok.
    + intros ty' Hty'. destruct (ss_types _ Hst ty' Hty') as (t' & Et'). unfold PDC_id_register in E. rewrite decide_False in E by (unfold PDC_BADID, PDC_next_type in *; lia). rewrite Et in E. case_decide; [injection E as _ <-; by exists t'|]. cbn [negb] in E. case_decide; [|done].
      injection E as _ <-. destruct (decide (ty' = ty)) as [->|]; [rewrite lookup_insert_eq; by eexists|rewrite lookup_insert_ne by done; by exists t'].
    + intros id' x. rewrite Hreg. case_decide as Hid; [intros [= <-]|intros Hx].
      * split; [done|]. exists (it id). cbn [id_obj_ptr]. rewrite lookup_insert_eq. subst id'. rewrite Htype. by split; [|apply Hit].
      * rewrite lookup_insert_ne by (by apply not_eq_sym, (Hptr id')). by apply (ss_items _ Hst).
    + intros id1 id2 x1 x2. rewrite !Hreg. do 2 case_decide; [by intros; subst|intros [= <-] H2 Eq; by destruct (Hptr _ _ H2)|intros H1 [= <-] Eq; by destruct (Hptr _ _ H1)|by apply (ss_inj _ Hst)].
  - intros id'. unfold contents. cbn [se_ids se_heap]. rewrite Hreg. case_decide as Hid; [cbn; by rewrite lookup_insert_eq|]. destruct (registered (se_ids st) id') as [x|] eqn:Ex; [|done]. cbn. by rewrite lookup_insert_ne by (by apply not_eq_sym, (Hptr id')).
Qed.

(** ** The structure of an identifier *)

Lemma lookup_spec {A} (get : item → option A) st id i a : session_ok st → contents st id = Some i → get i = Some a →
  ∃ ptr, lookup_id get st id = Some (Some (ptr, a)) ∧
    ∀ i', kind i' = kind i → item_ok i' → session_ok (with_item st ptr i') ∧ ∀ id', contents (with_item st ptr i') id' = if decide (id' = id) then Some i' else contents st id'.
Proof.
  intros Hst Hi Ha. destruct (contents_registered st id i Hst Hi) as (x & Ex & Hc & Ei & Hk & Hok). exists (id_obj_ptr x). unfold lookup_id. rewrite (find_id_registered _ _ x (ss_table _ Hst) Ex). cbn [mbind option_bind]. rewrite Ei. cbn [mbind option_bind]. rewrite Ha.
  split; [done|]. intros i' Hk' Hi'. assert (∀ id' x', registered (se_ids st) id' = Some x' → id' ≠ id → id_obj_ptr x ≠ id_obj_ptr x') as Hne. { intros id' x' Hx' Hne Eq. apply Hne. by apply (ss_inj _ Hst id' id x' x). }
  split; [split; cbn [se_ids se_heap with_item]; try apply Hst|].
  - intros id' x' Hx'. destruct (decide (id' = id)) as [->|Hid]; [|rewrite lookup_insert_ne by eauto; by apply (ss_items _ Hst)]. assert (x' = x) as -> by congruence. split; [done|]. exists i'. rewrite lookup_insert_eq. split; [done|]. split; [congruence|done].
  - intros id'. unfold contents. cbn [se_ids se_heap with_item]. destruct (decide (id' = id)) as [->|Hid]; [rewrite Ex; cbn; by rewrite lookup_insert_eq|]. destruct (registered (se_ids st) id') as [x'|] eqn:Ex'; [|done]. cbn. by rewrite lookup_insert_ne by eauto.
Qed.

(** ** One structure less *)

Lemma dec_ref_types f tbl id n tbl' ty t : PDC_dec_ref f tbl id = Some (n, tbl') → tbl !! ty = Some (Some t) → ∃ t', tbl' !! ty = Some (Some t').
Proof.
  unfold PDC_dec_ref. destruct (PDC_find_id tbl id) as [[x|]|]; cbn [mbind option_bind]; [|intros [= _ <-]; by eexists|done]. destruct (mjoin (tbl !! PDC_TYPE id)) as [t0|]; cbn [mbind option_bind]; [|done]. cbv zeta. intros E Ety.
  assert (∃ t1, tbl' = <[PDC_TYPE id := Some t1]> tbl) as (t1 & ->). { clear Ety. case_decide; [destruct (free_ok _ _ _); [destruct (bool_decide _)|]|]; apply (f_equal (fmap snd)) in E; apply (inj Some) in E; cbn [snd] in E; (eexists; symmetry; exact E). }
  destruct (decide (ty = PDC_TYPE id)) as [->|]; [rewrite lookup_insert_eq|rewrite lookup_insert_ne by done]; by eexists.
Qed.
Lemma close_item_ok i : complete i → close_item (kind i) i = Some tt.
Proof. unfold close_item. rewrite decide_True by done. destruct i as [| | | |o|]; try done. by intros [(c & ->) (b & ->)]. Qed.
Lemma close_item_faults i : ¬ complete i → close_item (kind i) i = None.
Proof.
  unfold close_item. rewrite decide_True by done. destruct i as [| | | |o|]; cbn [complete]; try (intros Hn; by destruct Hn).
  destruct (oi_cont o), (ob_pt (oi_pub o)); try done. intros Hn. destruct Hn. by split.
Qed.
Lemma close_spec st id i : session_ok st → contents st id = Some i → complete i →
  ∃ st', PDC_close st id = Some (st', SUCCEED) ∧ se_servers st' = se_servers st ∧ session_ok st' ∧ ∀ id', contents st' id' = if decide (id' = id) then None else contents st id'.
Proof.
  intros Hst Hi Hcomp. destruct (contents_registered st id i Hst Hi) as (x & Ex & Hc & Ei & Hk & Hok). destruct (ref_count_spec freed_ok (se_ids st) id x (ss_table _ Hst) Ex ltac:(lia)) as (_ & _ & Hdec).
  destruct (Hdec Hc ltac:(done)) as (ids & E & Htab & Hreg). unfold PDC_close, dec_ref. rewrite (find_id_registered _ _ x (ss_table _ Hst) Ex), E. cbn [mbind option_bind]. rewrite Hc. change (i32 (1 - 1)) with 0. rewrite decide_True by done. rewrite Ei. cbn [mbind option_bind].
  rewrite <-Hk, (close_item_ok i Hcomp). cbn [mbind option_bind]. eexists. split; [done|]. split; [done|].
  assert (∀ id' x', registered (se_ids st) id' = Some x' → id' ≠ id → id_obj_ptr x ≠ id_obj_ptr x') as Hne. { intros id' x' Hx' Hne Eq. apply Hne. by apply (ss_inj _ Hst id' id x' x). }
  split; [split; cbn [se_ids se_heap]|].
  - exact Htab.
  - intros ty Hty. destruct (ss_types _ Hst ty Hty) as (t & Et). by eapply dec_ref_types.
  - intros id' x'. rewrite Hreg. case_decide as Hid; [done|]. intros Hx'. rewrite lookup_delete_ne by eauto. by apply (ss_items _ Hst).
  - intros id1 id2 x1 x2. rewrite !Hreg. do 2 case_decide; try done. by apply (ss_inj _ Hst).
  - intros id'. unfold contents. cbn [se_ids se_heap]. rewrite Hreg. case_decide as Hid; [done|]. destruct (registered (se_ids st) id') as [x'|] eqn:Ex'; [|done]. cbn. by rewrite lookup_delete_ne by eauto.
Qed.

Lemma close_faults st id i : session_ok st → contents st id = Some i → ¬ complete i → PDC_close st id = None.
Proof.
  intros Hst Hi Hcomp. destruct (contents_registered st id i Hst Hi) as (x & Ex & Hc & Ei & Hk & Hok). destruct (ref_count_spec freed_ok (se_ids st) id x (ss_table _ Hst) Ex ltac:(lia)) as (_ & _ & Hdec).
  destruct (Hdec Hc ltac:(done)) as (ids & E & _). unfold PDC_close, dec_ref. rewrite (find_id_registered _ _ x (ss_table _ Hst) Ex), E. cbn [mbind option_bind]. rewrite Hc. change (i32 (1 - 1)) with 0. rewrite decide_True by done. rewrite Ei. cbn [mbind option_bind].
  by rewrite <-Hk, (close_item_faults i Hcomp).
Qed.

(** * The operations of a client on what it has *)

Section api.
Context `{FM : !FreshMemory, TO : !TableOrder, NU : !Numbers, BK : !Bulk, MC : !Mercury, UA : !Unassigned}.
Implicit Types (st : session) (c : Z → option item).

Inductive operation :=
| NewProp (type : prop_type) (pdc : Z) | DupProp (id : Z) | ChangeProp (id : Z) (what : change) | SetLifetime (id life : Z) | Persist (id : Z)
| LocalCont (pdc : Z) (name : string) (meta_id : Z) | NewRegion (n : Z) (offset size : list Z) | CloseId (id : Z).
Definition run st (o : operation) : option (session * Z) :=
  match o with
  | NewProp type pdc => PDCprop_create st type pdc
  | DupProp id => PDCprop_obj_dup st id
  | ChangeProp id what => set_prop st id (changed what)
  | SetLifetime id life => PDCprop_set_cont_lifetime st id life
  | Persist id => PDCcont_persist st id
  | LocalCont pdc name meta_id => PDC_cont_create_local st pdc name meta_id
  | NewRegion n offset size => PDCregion_create st n offset size
  | CloseId id => PDC_close st id
  end.

(** The fields of a property, and what they hold. *)
Inductive field :=
| OfUser | OfApp | OfStep | OfLoc | OfTags | OfBuf | OfNdim | OfDims | OfType | OfPartition | OfConsistency | OfLocus | OfState | OfTransform | OfClass | OfId.
Inductive value := VZ (z : Z) | VS (s : option string) | VL (l : list Z) | VT (t : transform_t) | VC (c : pdc_class).
Definition read (p : object_prop) (f : field) : value :=
  match f with
  | OfUser => VZ (pr_user_id p) | OfApp => VS (pr_app_name p) | OfStep => VZ (pr_time_step p) | OfLoc => VS (pr_data_loc p)
  | OfTags => VS (pr_tags p) | OfBuf => VZ (pr_buf p) | OfNdim => VZ (pp_ndim (pr_pub p)) | OfDims => VL (pp_dims (pr_pub p))
  | OfType => VZ (pp_type (pr_pub p)) | OfPartition => VZ (pp_partition (pr_pub p)) | OfConsistency => VZ (pp_consistency (pr_pub p))
  | OfLocus => VZ (pr_locus p) | OfState => VZ (pr_data_state p) | OfTransform => VT (pr_transform p) | OfClass => VC (pr_pdc p) | OfId => VZ (pp_prop_id (pr_pub p))
  end.
(** One field gets a value, and every other one keeps its own.  The dimensions that are
    given replace the first ones; there are never fewer than before. *)
Definition sets (f : field) (v : value) p p' : Prop := read p' f = v ∧ ∀ g, g ≠ f → read p' g = read p g.
Definition changes (what : change) p p' : Prop :=
  match what with
  | UserId v => sets OfUser (VZ v) p p' | AppName v => sets OfApp (VS (Some v)) p p' | TimeStep v => sets OfStep (VZ v) p p'
  | DataLoc v => sets OfLoc (VS (Some v)) p p' | Tags v => sets OfTags (VS (Some v)) p p' | Buf v => sets OfBuf (VZ v) p p'
  | VarType v => sets OfType (VZ v) p p' | Partition v => sets OfPartition (VZ v) p p' | Consistency v => sets OfConsistency (VZ v) p p'
  | Dims n dims =>
      (∀ g, g ≠ OfNdim → g ≠ OfDims → read p' g = read p g) ∧ pp_ndim (pr_pub p') = Z.max n (pp_ndim (pr_pub p)) ∧
      ∀ k : nat, pp_dims (pr_pub p') !! k = if decide (Z.of_nat k < n) then dims !! k else pp_dims (pr_pub p) !! k
  end.
(** What they mean on the map: a new identifier, or another structure (or none) at one. *)
Definition made c (ty : Z) (it : Z → item) (r : Z) c' : Prop := r ≠ 0 ∧ PDC_TYPE r = ty ∧ c r = None ∧ ∀ id, c' id = if decide (id = r) then Some (it r) else c id.
Definition put c (id : Z) (i : option item) (r : Z) c' : Prop := r = SUCCEED ∧ ∀ id', c' id' = if decide (id' = id) then i else c id'.
Definition meaning c (o : operation) (r : Z) c' : Prop :=
  match o with
  | NewProp PDC_CONT_CREATE pdc => ∃ cls, c pdc = Some (ItClass cls) ∧ made c PDC_CONT_PROP (λ id, ItContProp (ContPropOf cls id PDC_PERSIST)) r c'
  | NewProp PDC_OBJ_CREATE pdc => ∃ cls, c pdc = Some (ItClass cls) ∧ made c PDC_OBJ_PROP (λ id, ItObjProp (new_prop cls id)) r c'
  | DupProp id => ∃ p, c id = Some (ItObjProp p) ∧ made c PDC_OBJ_PROP (λ id, ItObjProp (dup_of p (pp_dims (pr_pub p)) id)) r c'
  | ChangeProp id what => ∃ p p', c id = Some (ItObjProp p) ∧ changes what p p' ∧ put c id (Some (ItObjProp p')) r c'
  | SetLifetime id life => ∃ p, c id = Some (ItContProp p) ∧ put c id (Some (ItContProp (ContPropOf (cp_pdc p) (cp_prop_id p) life))) r c'
  | Persist id => ∃ k, c id = Some (ItCont k) ∧ put c id (Some (ItCont (ContInfoOf (ci_name k) (ci_local_id k) (ci_meta_id k) (ContPropOf (cp_pdc (ci_prop k)) (cp_prop_id (ci_prop k)) PDC_PERSIST)))) r c'
  | LocalCont pdc name meta_id => ∃ cls prop_id, c pdc = Some (ItClass cls) ∧ made c PDC_CONT (λ id, ItCont (ContInfoOf (Some name) id meta_id (ContPropOf cls prop_id PDC_PERSIST))) r c'
  | NewRegion n offset size => made c PDC_REGION (λ id, ItRegion (RegionInfoOf n (take (Z.to_nat n) offset) (take (Z.to_nat n) size) id)) r c'
  | CloseId id => put c id None r c'
  end.
(** The identifiers are of the right structures, and the arrays long enough. *)
Definition allowed c (o : operation) : Prop :=
  match o with
  | NewProp _ pdc | LocalCont pdc _ _ => ∃ cls, c pdc = Some (ItClass cls)
  | DupProp id => ∃ p, c id = Some (ItObjProp p)
  | ChangeProp id what => (∃ p, c id = Some (ItObjProp p)) ∧ match what with Dims n dims => 0 ≤ n ≤ lenZ dims | _ => True end
  | SetLifetime id _ => ∃ p, c id = Some (ItContProp p)
  | Persist id => ∃ k, c id = Some (ItCont k)
  | NewRegion n offset size => 0 ≤ n ≤ lenZ offset ∧ n ≤ lenZ size
  | CloseId id => ∃ i, c id = Some i ∧ complete i
  end.
Definition rooms st : Prop := ∀ ty, room st ty.

Lemma copy_dims_take n l : 0 ≤ n ≤ lenZ l → copy_dims n l = Some (take (Z.to_nat n) l).
Proof. intros H. unfold copy_dims, mem_read. rewrite decide_True by lia. done. Qed.
Lemma copy_dims_all n l : 0 ≤ n → lenZ l = n → copy_dims n l = Some l.
Proof. intros H E. rewrite copy_dims_take by lia. f_equal. apply take_ge. unfold lenZ in E. lia. Qed.
Lemma copy_pub_ok b : pub_ok b → copy_pub b = Some b.
Proof. intros [H1 H2]. unfold copy_pub. rewrite copy_dims_all by done. by destruct b. Qed.
Lemma changed_ok what p : pub_ok (pr_pub p) → match what with Dims n dims => 0 ≤ n ≤ lenZ dims | _ => True end → ∃ p', changed what p = Some p' ∧ pub_ok (pr_pub p') ∧ changes what p p'.
Proof.
  intros Hp Hw. destruct what; cbn [changed]; try (eexists; split; [done|]; split; [exact Hp|]; split; [done|by intros []]). rewrite copy_dims_take by done. cbn [mbind option_bind]. eexists. split; [done|]. destruct Hp as [H1 H2]. cbn [pr_pub with_pub].
  assert (lenZ (take (Z.to_nat ndim) dims) = ndim) as E by (unfold lenZ in *; rewrite length_take; lia). cbn [changes]. case_decide as Hd; cbn [pr_pub with_pub pp_ndim pp_dims]; (split; [|split; [by intros []|split; [lia|]]]).
  - split; cbn [pp_ndim pp_dims]; [lia|done].
  - intros k. case_decide; [by rewrite lookup_take_lt by lia|]. rewrite lookup_take_ge by lia. symmetry. apply lookup_ge_None_2. unfold lenZ in *. lia.
  - split; [done|]. cbn [pp_ndim pp_dims]. rewrite lenZ_app, E. unfold lenZ in *. rewrite length_drop. lia.
  - intros k. unfold lenZ in E. case_decide; [by rewrite lookup_app_l, lookup_take_lt by lia|]. rewrite lookup_app_r, lookup_drop by lia. f_equal. lia.
Qed.
Lemma enroll_made st ty (it : Z → item) : session_ok st → room st ty → (∀ id, kind (it id) = ty ∧ item_ok (it id)) →
  ∃ st' r, enroll st ty it = Some (st', r) ∧ made (contents st) ty it r (contents st') ∧ session_ok st' ∧ se_servers st' = se_servers st.
Proof. intros H1 H2 H3. destruct (enroll_spec st ty it H1 H2 H3) as (st' & id & E & _ & Es & Hok & Hne & Ht & Hn & Hc). by exists st', id. Qed.

Lemma enroll_other st ty it st' id ty' : enroll st ty it = Some (st', id) → ty' ≠ ty → se_ids st' !! ty' = se_ids st !! ty'.
Proof.
  unfold enroll, PDC_id_register. intros E Hne. repeat case_decide; try done; destruct (se_ids st !! ty) as [[t|]|] eqn:Et; cbn [mbind option_bind] in E; try done. all: repeat case_decide; cbn [negb mbind option_bind] in E; try done.
  all: injection E as <- _; cbn [se_ids]; try done; by rewrite lookup_insert_ne.
Qed.
Lemma local_cont_spec st pdc name meta_id cls : session_ok st → rooms st → contents st pdc = Some (ItClass cls) →
  ∃ st' r, PDC_cont_create_local st pdc name meta_id = Some (st', r) ∧
    (∃ cls prop_id, contents st pdc = Some (ItClass cls) ∧ made (contents st) PDC_CONT (λ id, ItCont (ContInfoOf (Some name) id meta_id (ContPropOf cls prop_id PDC_PERSIST))) r (contents st')) ∧ session_ok st' ∧ se_servers st' = se_servers st.
Proof.
  intros Hst Hroom Ec. destruct (lookup_spec as_class st pdc _ cls Hst Ec eq_refl) as (ptr & El & _). destruct (enroll_spec st PDC_CONT_PROP (λ id, ItContProp (ContPropOf cls id PDC_PERSIST)) Hst (Hroom _)) as (st1 & q & E1 & _ & S1 & H1 & _ & Tq & N1 & C1); [done|].
  assert (contents st1 q = Some (ItContProp (ContPropOf cls q PDC_PERSIST))) as Eq by by rewrite C1, decide_True. destruct (lookup_spec as_cont_prop st1 q _ _ H1 Eq eq_refl) as (ptr1 & El1 & _).
  destruct (enroll_spec st1 PDC_CONT (λ id, ItCont (ContInfoOf (Some name) id meta_id (ContPropOf cls q PDC_PERSIST))) H1) as (st2 & r & E2 & _ & S2 & H2 & Hr & Tr & N2 & C2); [intros t; rewrite (enroll_other _ _ _ _ _ PDC_CONT E1) by done; apply Hroom|done|].
  assert (q ≠ r) as Hne by (intros ->; congruence). destruct (close_spec st2 q (ItContProp (ContPropOf cls q PDC_PERSIST)) H2) as (st3 & E3 & S3 & H3 & C3); [by rewrite C2, decide_False|done|].
  exists st3, r. split; [|split; [|split; [done|congruence]]].
  - unfold PDC_cont_create_local, PDCprop_create. rewrite El. cbn [must mjoin option_join mbind option_bind]. rewrite E1. cbn [mbind option_bind]. rewrite El1. cbn [must mjoin option_join mbind option_bind]. rewrite E2. cbn [mbind option_bind]. rewrite E3. done.
  - exists cls, q. split; [done|]. split; [done|]. split; [done|]. split; [rewrite C1 in N2; case_decide; [done|exact N2]|]. intros id. rewrite C3, C2, C1. repeat case_decide; subst; try done; congruence.
Qed.

Lemma operation_spec st o : session_ok st → rooms st → allowed (contents st) o →
  ∃ st' r, run st o = Some (st', r) ∧ meaning (contents st) o r (contents st') ∧ session_ok st' ∧ se_servers st' = se_servers st.
Proof.
  intros Hst Hroom Ha. destruct o as [type pdc|id|id what|id life|id|pdc name meta_id|n offset size|id]; cbn [run meaning allowed] in *.
  - destruct Ha as [cls Ec]. destruct (lookup_spec as_class st pdc _ cls Hst Ec eq_refl) as (ptr & El & _). unfold PDCprop_create. rewrite El. cbn [must mjoin option_join mbind option_bind].
    destruct type; [destruct (enroll_made st PDC_CONT_PROP (λ id, ItContProp (ContPropOf cls id PDC_PERSIST)) Hst (Hroom _) (λ _, conj eq_refl I)) as (st' & r & E & Hm & H)
                   |destruct (enroll_made st PDC_OBJ_PROP (λ id, ItObjProp (new_prop cls id)) Hst (Hroom _)) as (st' & r & E & Hm & H); [done|]]; exists st', r; rewrite E; eauto.
  - destruct Ha as [p Ep]. destruct (lookup_spec as_obj_prop st id _ p Hst Ep eq_refl) as (ptr & El & _). destruct (contents_registered _ _ _ Hst Ep) as (_ & _ & _ & _ & _ & [H1 H2]). unfold PDCprop_obj_dup. rewrite El. cbn [mbind option_bind]. rewrite copy_dims_all by done. cbn [mbind option_bind].
    destruct (enroll_made st PDC_OBJ_PROP (λ id, ItObjProp (dup_of p (pp_dims (pr_pub p)) id))) as (st' & r & E & Hm & H); [done|done|done|]. exists st', r. rewrite E. eauto.
  - destruct Ha as [[p Ep] Hw]. destruct (contents_registered _ _ _ Hst Ep) as (_ & _ & _ & _ & _ & Hp). destruct (changed_ok what p Hp Hw) as (p' & Ec & Hp' & Hch). destruct (lookup_spec as_obj_prop st id _ p Hst Ep eq_refl) as (ptr & El & Hput).
    unfold set_prop. rewrite El. cbn [mbind option_bind]. rewrite Ec. cbn [mbind option_bind]. destruct (Hput (ItObjProp p') eq_refl Hp') as [Hok Hc]. eexists _, _. split; [done|]. split; [|done]. by exists p, p'.
  - destruct Ha as [p Ep]. destruct (lookup_spec as_cont_prop st id _ p Hst Ep eq_refl) as (ptr & El & Hput). unfold PDCprop_set_cont_lifetime. rewrite El. cbn [mbind option_bind].
    destruct (Hput (ItContProp (ContPropOf (cp_pdc p) (cp_prop_id p) life)) eq_refl I) as [Hok Hc]. eexists _, _. split; [done|]. split; [|done]. by exists p.
  - destruct Ha as [k Ek]. destruct (lookup_spec as_cont st id _ k Hst Ek eq_refl) as (ptr & El & Hput). unfold PDCcont_persist. rewrite El. cbn [mbind option_bind].
    destruct (Hput (ItCont (ContInfoOf (ci_name k) (ci_local_id k) (ci_meta_id k) (ContPropOf (cp_pdc (ci_prop k)) (cp_prop_id (ci_prop k)) PDC_PERSIST))) eq_refl I) as [Hok Hc]. eexists _, _. split; [done|]. split; [|done]. by exists k.
  - destruct Ha as [cls Ec]. by apply (local_cont_spec st pdc name meta_id cls).
  - destruct Ha as [H1 H2]. unfold PDCregion_create. rewrite copy_dims_take by lia. cbn [mbind option_bind]. rewrite copy_dims_take by lia. cbn [mbind option_bind].
    destruct (enroll_made st PDC_REGION (λ id, ItRegion (RegionInfoOf n (take (Z.to_nat n) offset) (take (Z.to_nat n) size) id))) as (st' & r & E & Hm & H); [done|done|done|]. exists st', r. rewrite E. eauto.
  - destruct Ha as (i & Ei & Hcomp). destruct (close_spec st id i Hst Ei Hcomp) as (st' & E & Es & Hok & Hc). by exists st', SUCCEED.
Qed.
(** C34: a client is a map from identifiers to structures: each operation of a client on
    its properties, containers and regions, and each closing, with identifiers of structures
    of the right kind and arrays that are long enough, ends without fault, gives a new
    identifier to what it makes, changes the field of the structure that it is about and no
    other ([changes]: of the dimensions the first ones, and their number never gets less),
    and leaves what is at every other identifier as it was: no two of them share memory.
    Closing an object that the servers refused to create is a fault. *)
Theorem client_is_a_map st o : session_ok st → rooms st →
  (allowed (contents st) o → ∃ st' r, run st o = Some (st', r) ∧ meaning (contents st) o r (contents st') ∧ session_ok st' ∧ se_servers st' = se_servers st) ∧
  (∀ id i, o = CloseId id → contents st id = Some i → ¬ complete i → run st o = None).
Proof. intros Hst Hroom. split; [by apply operation_spec|]. intros id i -> Hi Hc. by apply (close_faults st id i). Qed.

End api.

(** * Objects that are shared *)

Section shared.
Context `{FM : !FreshMemory, TO : !TableOrder, NU : !Numbers, BK : !Bulk, MC : !Mercury, UA : !Unassigned}.
Context (old_memory : ∀ k, message k).
Implicit Types (st A B : session) (m : pdc_metadata_t) (p : object_prop).

(** ** On the servers *)

Lemma objects_identified srv id m : cluster_ok srv → d_objs (cluster_directory srv) !! id = Some m → obj_id m = id ∧ identified m.
Proof.
  intros Hok (i & s & Hi & E)%cluster_obj_some; [|done]. destruct (reachable_rep s (so_reachable _ _ _ (co_ok _ Hok i s Hi))) as ([H1 H2] & _). destruct (H2 id m E) as (Hid & head & Eh & Hm). split; [done|].
  destruct (H1 _ head Eh) as ((_ & _ & _ & _ & Hall) & _). by apply Hall.
Qed.
Lemma new_object_fields name cont_id (q : obj_prop) ds m : 0 ≤ op_ndim q ≤ 4 → lenZ (op_dims q) = op_ndim q → new_metadata (transfer_of (gen_obj_id_in_data (new_object name cont_id q ds))) (op_type q) = Some m →
  obj_name m = name ∧ time_step m = i32 (op_time_step q) ∧ data_type m = op_type q ∧ ndim m = op_ndim q ∧ length (dims m) = 4%nat ∧ take (Z.to_nat (op_ndim q)) (dims m) = op_dims q ∧ region_partition m = op_region_partition q ∧
  lenZ name < OBJ_NAME_MAX ∧ lenZ (default [] (op_app_name q)) < OBJ_NAME_MAX ∧ lenZ (default [] (op_tags q)) < TAG_LEN_MAX ∧ lenZ (default [] (op_data_loc q)) < ADDR_MAX.
Proof.
  intros Hn Hl. unfold new_metadata. cbn -[strcpy OBJ_NAME_MAX TAG_LEN_MAX ADDR_MAX take replicate u32 default]. destruct (strcpy OBJ_NAME_MAX name) as [s1|] eqn:E1; cbn [mbind option_bind]; [|done]. destruct (strcpy OBJ_NAME_MAX (default _ _)) as [s2|] eqn:E2; cbn [mbind option_bind]; [|done].
  destruct (strcpy TAG_LEN_MAX _) as [s3|] eqn:E3; cbn [mbind option_bind]; [|done]. destruct (strcpy ADDR_MAX _) as [s4|] eqn:E4; cbn [mbind option_bind]; [|done]. apply strcpy_Some in E1 as [-> L1], E2 as [-> L2], E3 as [-> L3], E4 as [-> L4]. intros [= <-].
  cbn -[take replicate u32 Z.to_nat default OBJ_NAME_MAX TAG_LEN_MAX ADDR_MAX dim_of]. assert (u32 (op_ndim q) = op_ndim q) as -> by (unfold u32, W32; rewrite Z.mod_small; lia). do 4 (split; [done|]). split.
  { rewrite length_app, length_take, length_replicate. cbn. lia. } split.
  - rewrite take_app_le by (rewrite length_take; cbn; lia). rewrite take_take, Nat.min_id. unfold dim_of. destruct q as [? ? ? ? n l ? ? ?]. cbn [op_ndim op_dims] in *. unfold lenZ in Hl.
    destruct l as [|x0 [|x1 [|x2 [|x3 [|x4 l]]]]]; cbn [length] in Hl; (assert (n = 0 ∨ n = 1 ∨ n = 2 ∨ n = 3 ∨ n = 4) as Hc by lia); destruct Hc as [->|[->|[->|[->| ->]]]]; try lia; done.
  - split; [done|]. split; [done|]. split; [by destruct (op_app_name q)|]. split; [by destruct (op_tags q)|by destruct (op_data_loc q)].
Qed.
Lemma send_result srv name cont_id (q : obj_prop) ds srv' ret id s : PDC_Client_send_name_recv_id old_memory srv name cont_id q ds = Some (srv', (ret, id, s)) →
  s = server_of_name name (i32 (op_time_step q)) (lenZ srv) ∧ lenZ srv' = lenZ srv.
Proof.
  unfold PDC_Client_send_name_recv_id, forward. cbv zeta. destruct (getZ srv _) as [x|]; cbn [mbind option_bind]; [|done]. destruct (rpc_call _ _ _ _ _ _) as [[y o]|]; cbn [mbind option_bind]; [|done].
  intros E. apply (inj Some) in E. injection E as <- E. case_decide; injection E as _ _ <-; (split; [done|]); unfold lenZ; by rewrite length_insert.
Qed.
Lemma object_made srv name cont_id (q : obj_prop) ds : cluster_ok srv → ids_left srv → let r := MakeObject name cont_id q ds in
  req_ok (cluster_directory srv) (request_of r) → client_fits (cluster_directory srv) r → (∀ m, ¬ named (cluster_directory srv) name (i32 (op_time_step q)) m) →
  ∃ srv' id m, PDC_Client_send_name_recv_id old_memory srv name cont_id q ds = Some (srv', (SUCCEED, id, server_of_name name (i32 (op_time_step q)) (lenZ srv))) ∧ id ≠ 0 ∧ cluster_ok srv' ∧ lenZ srv' = lenZ srv ∧
    new_metadata (transfer_of (gen_obj_id_in_data (new_object name cont_id q ds))) (op_type q) = Some m ∧ identified m ∧
    cluster_directory srv' = Dir (<[id := with_id m id]> (d_objs (cluster_directory srv))) (d_conts (cluster_directory srv)).
Proof.
  intros Hok Hleft r Hreq Hfit Hnone. destruct (client_step old_memory srv r Hok Hleft Hreq Hfit) as (srv' & out & E & Hstep & Hok'). destruct Hreq as (m & Em & Him & _).
  cbn [request_of dir_step r] in Hstep. destruct Hstep as (m0 & Em0 & Hstep). assert (m0 = m) as -> by congruence. exists srv', out, m.
  assert (obj_name m = name ∧ time_step m = i32 (op_time_step q)) as [En Et].
  { clear -Em. unfold new_metadata in Em. cbn -[strcpy OBJ_NAME_MAX TAG_LEN_MAX ADDR_MAX take replicate u32 default] in Em. destruct (strcpy OBJ_NAME_MAX name) as [s1|] eqn:E1; cbn [mbind option_bind] in Em; [|done]. apply strcpy_Some in E1 as [-> _].
    destruct (strcpy OBJ_NAME_MAX (default _ _)) as [s2|]; cbn [mbind option_bind] in Em; [|done]. destruct (strcpy TAG_LEN_MAX _) as [s3|]; cbn [mbind option_bind] in Em; [|done]. destruct (strcpy ADDR_MAX _) as [s4|]; cbn [mbind option_bind] in Em; [|done]. by injection Em as <-. }
  destruct Hstep as [((id & m' & E' & Hcmp) & _)|(_ & (Hne & _) & Ed)].
  { destruct (objects_identified srv id m' Hok E') as [Hid Hm']. destruct (identical_names m' m Hm' Him Hcmp) as [Hn Ht]. destruct (Hnone m'). split; [by rewrite Hid|]. by rewrite Hn, Ht. }
  cbn [client_run r] in E. destruct (PDC_Client_send_name_recv_id old_memory srv name cont_id q ds) as [[srv0 [[ret id0] s]]|] eqn:Es; cbn [mbind option_bind] in E; [|done].
  destruct (send_result _ _ _ _ _ _ _ _ _ Es) as [-> El]. unfold r in E. cbn [answer] in E. rewrite decide_False in E by done. injection E as -> -> ->. done.
Qed.

(** ** On the clients *)

Lemma enroll_again st ty (it : Z → item) (it' : Z → item) st1 id : enroll st ty it = Some (st1, id) → enroll st ty it' = Some (with_item st1 (PDC_malloc st) (it' id), id).
Proof.
  unfold enroll. destruct (PDC_id_register _ _ _ _) as [[id0 ids]|]; cbn [mbind option_bind]; [|done]. intros [= <- <-]. unfold with_item. cbn [se_ids se_heap se_servers]. by rewrite insert_insert_eq.
Qed.
Lemma no_identifier st i : session_ok st → contents st 0 = Some i → False.
Proof. intros Hst E. destruct (contents_registered st 0 i Hst E) as (_ & _ & _ & _ & Hk & _). pose proof (kind_type i). change (PDC_TYPE 0) with 0 in Hk. lia. Qed.
Lemma with_servers_ok st srv : session_ok st → session_ok (with_servers st srv).
Proof. intros []. by split. Qed.
Lemma object_copy_ok locus p : pub_ok (pr_pub p) → ∃ q, object_copy locus p = Some q ∧ pr_pub q = PropPub 0 (pp_ndim (pr_pub p)) (pp_dims (pr_pub p)) (pp_type (pr_pub p)) (pp_partition (pr_pub p)) (pp_consistency (pr_pub p)) ∧
  pr_app_name q = pr_app_name p ∧ pr_tags q = pr_tags p ∧ pr_data_loc q = pr_data_loc p ∧ pr_user_id q = pr_user_id p ∧ pr_time_step q = pr_time_step p.
Proof. intros [H1 H2]. unfold object_copy. rewrite copy_dims_all by done. cbn [mbind option_bind]. eexists. split; [done|]. done. Qed.
Lemma local_metadata_ok name id cont_id ds p : pub_ok (pr_pub p) → pp_ndim (pr_pub p) ≤ 4 → lenZ name < OBJ_NAME_MAX → lenZ (default [] (pr_app_name p)) < OBJ_NAME_MAX → lenZ (default [] (pr_tags p)) < TAG_LEN_MAX → lenZ (default [] (pr_data_loc p)) < ADDR_MAX →
  is_Some (local_metadata name id cont_id ds p).
Proof.
  intros [H1 H2] H3 L1 L2 L3 L4. unfold local_metadata, strcpy. rewrite (decide_True (P := lenZ (default [] (pr_app_name p)) < _)) by done. cbn [mbind option_bind]. rewrite (decide_True (P := lenZ name < _)) by done. cbn [mbind option_bind].
  rewrite (decide_True (P := lenZ (default [] (pr_tags p)) < _)) by done. cbn [mbind option_bind]. rewrite (decide_True (P := lenZ (default [] (pr_data_loc p)) < _)) by done. cbn [mbind option_bind]. rewrite copy_dims_all by done. cbn [mbind option_bind]. rewrite decide_False by lia. by eexists.
Qed.
(** What an object of the property [p] says of itself. *)
Definition describes p (name : string) (meta_id server : Z) (x : object_pub) : Prop :=
  ob_name x = Some name ∧ ob_meta_id x = meta_id ∧ ob_metadata_server_id x = server ∧
  ∃ b, ob_pt x = Some b ∧ pp_ndim b = pp_ndim (pr_pub p) ∧ pp_dims b = pp_dims (pr_pub p) ∧ pp_type b = pp_type (pr_pub p) ∧ pp_partition b = pp_partition (pr_pub p).
Lemma get_info_spec st id o : session_ok st → contents st id = Some (ItObj o) → complete (ItObj o) → ∃ x, PDCobj_get_info st id = Some (Some x) ∧ x = oi_pub o.
Proof.
  intros Hst E [[c Ec] [b Eb]]. destruct (lookup_spec as_obj st id _ o Hst E eq_refl) as (ptr & El & _). destruct (contents_registered _ _ _ Hst E) as (_ & _ & _ & _ & _ & Hq & Hb%(λ H, H b Eb)).
  unfold PDCobj_get_info, PDC_obj_get_info. rewrite El. cbn [mbind option_bind]. rewrite Eb. cbn [mbind option_bind]. rewrite (copy_pub_ok b Hb). cbn [mbind option_bind]. rewrite Ec. cbn [mbind option_bind]. rewrite (copy_pub_ok _ Hq). cbn [mbind option_bind]. eexists. split; [done|].
  cbn [oi_pub]. destruct o as [[] ? ? ? ? ?]. cbn in *. by subst.
Qed.

Lemma create_spec A locus ds cont name prop k p srv id s : session_ok A → room A PDC_OBJ → contents A cont = Some (ItCont k) → contents A prop = Some (ItObjProp p) →
  PDC_Client_send_name_recv_id old_memory (se_servers A) name (ci_meta_id k) (sent_prop p) ds = Some (srv, (SUCCEED, id, s)) → pp_ndim (pr_pub p) ≤ 4 → lenZ name < OBJ_NAME_MAX →
  lenZ (default [] (pr_app_name p)) < OBJ_NAME_MAX → lenZ (default [] (pr_tags p)) < TAG_LEN_MAX → lenZ (default [] (pr_data_loc p)) < ADDR_MAX →
  ∃ A' oid x, PDCobj_create old_memory A locus ds cont name prop = Some (A', oid) ∧ oid ≠ 0 ∧ session_ok A' ∧ se_servers A' = srv ∧ PDCobj_get_info A' oid = Some (Some x) ∧ describes p name id s x.
Proof.
  intros HA Hroom Ek Ep Hsend Hn L1 L2 L3 L4. destruct (contents_registered _ _ _ HA Ep) as (_ & _ & _ & _ & _ & Hp). destruct (object_copy_ok locus p Hp) as (q & Eq & Hq & Qa & Qt & Ql & _).
  assert (pub_ok (pr_pub q)) as Hqok by (rewrite Hq; exact Hp). destruct (local_metadata_ok name id (ci_meta_id k) (u32 ds) q) as [m Em]; [done|rewrite Hq; done|done|by rewrite Qa|by rewrite Qt|by rewrite Ql|].
  destruct (lookup_spec as_cont A cont _ k HA Ek eq_refl) as (pk & Elk & _). destruct (lookup_spec as_obj_prop A prop _ p HA Ep eq_refl) as (pp & Elp & _).
  set (new oid := ObjectInfo (ObjectPub (Some name) 0 oid 0 (junk_u32 102) None) (Some PDC_OBJ_GLOBAL) None (Some k) q 0). set (it oid := ItObj (assigned_obj (new oid) id s (Some m) (Some (pr_pub q)))).
  destruct (enroll_spec A PDC_OBJ it HA Hroom) as (A1 & oid & E1 & _ & _ & HA1 & Hne & _ & _ & Hc). { intros oid. split; [done|]. split; [exact Hqok|]. by intros b [= <-]. }
  pose proof (enroll_again A PDC_OBJ it (λ oid, ItObj (new oid)) A1 oid E1) as E2. pose proof (enroll_again A PDC_OBJ (λ oid, ItObj (new oid)) it _ oid E2) as E3. rewrite E1 in E3. injection E3 as E3.
  destruct (get_info_spec (with_servers A1 srv) oid (assigned_obj (new oid) id s (Some m) (Some (pr_pub q)))) as (x & Ex & Hx); [by apply with_servers_ok|change (contents A1 oid = Some (it oid)); by rewrite Hc, decide_True|split; by eexists|].
  exists (with_servers A1 srv), oid, x. split; [|split; [done|split; [by apply with_servers_ok|split; [done|split; [done|]]]]].
  - unfold PDCobj_create, PDC_obj_create. rewrite decide_False by (intros ->; by apply (no_identifier A _ HA Ek)). rewrite Elk. cbn [must mjoin option_join mbind option_bind]. rewrite Elp. cbn [must mjoin option_join mbind option_bind]. rewrite Eq. cbn [mbind option_bind].
    match goal with |- context [enroll A PDC_OBJ ?f] => change f with (λ oid, ItObj (new oid)) end. rewrite E2. cbn [mbind option_bind]. cbn [se_servers with_item]. assert (se_servers A1 = se_servers A) as ES by (unfold enroll in E1; destruct (PDC_id_register _ _ _ _) as [[]|]; cbn [mbind option_bind] in E1; [by injection E1 as <- _|done]).
    rewrite ES, Hsend. cbn [mbind option_bind]. rewrite decide_False by done. rewrite Em. cbn [mbind option_bind]. do 2 f_equal. rewrite E3 at 2. done.
  - rewrite Hx. split; [done|]. split; [done|]. split; [done|]. exists (pr_pub q). split; [done|]. by rewrite Hq.
Qed.

Lemma change_spec st id p what : session_ok st → contents st id = Some (ItObjProp p) → match what with Dims n dims => 0 ≤ n ≤ lenZ dims | _ => True end →
  ∃ st' p', set_prop st id (changed what) = Some (st', SUCCEED) ∧ session_ok st' ∧ se_ids st' = se_ids st ∧ se_servers st' = se_servers st ∧ contents st' id = Some (ItObjProp p').
Proof.
  intros Hst Ep Hw. destruct (contents_registered _ _ _ Hst Ep) as (_ & _ & _ & _ & _ & Hp). destruct (changed_ok what p Hp Hw) as (p' & Ec & Hp' & _). destruct (lookup_spec as_obj_prop st id _ p Hst Ep eq_refl) as (ptr & El & Hput).
  destruct (Hput (ItObjProp p') eq_refl Hp') as [Hok Hc]. exists (with_item st ptr (ItObjProp p')), p'. unfold set_prop. rewrite El. cbn [mbind option_bind]. rewrite Ec. cbn [mbind option_bind]. split; [done|]. split; [done|]. split; [done|]. split; [done|].
  by rewrite Hc, decide_True.
Qed.
Lemma take_dims (l : list Z) n : 0 ≤ n ≤ lenZ l → lenZ (take (Z.to_nat n) l) = n.
Proof. unfold lenZ. rewrite length_take. lia. Qed.
Lemma open_spec B name pdc cls m s : session_ok B → room B PDC_OBJ_PROP → room B PDC_OBJ → contents B pdc = Some (ItClass cls) → obj_name m ≠ [] →
  PDC_Client_query_metadata_name_timestep old_memory (se_servers B) name 0 = Some (se_servers B, (m, s)) → 0 ≤ ndim m ≤ lenZ (dims m) →
  ∃ B' oid x, PDCobj_open old_memory B name pdc = Some (B', oid) ∧ oid ≠ 0 ∧ session_ok B' ∧ se_servers B' = se_servers B ∧ PDCobj_get_info B' oid = Some (Some x) ∧
    ob_name x = Some (obj_name m) ∧ ob_meta_id x = obj_id m ∧ ob_metadata_server_id x = s ∧ ob_pt x = Some (PropPub 0 (ndim m) (take (Z.to_nat (ndim m)) (dims m)) (data_type m) (region_partition m) (consistency m)).
Proof.
  intros HB Rp Ro Ec Hname Eq Hn. destruct (lookup_spec as_class B pdc _ cls HB Ec eq_refl) as (ptr & El & _).
  destruct (enroll_spec B PDC_OBJ_PROP (λ id, ItObjProp (new_prop cls id)) HB Rp) as (B1 & pid & E1 & _ & S1 & HB1 & _ & _ & _ & C1); [done|]. assert (contents B1 pid = Some (ItObjProp (new_prop cls pid))) as P1 by by rewrite C1, decide_True.
  pose proof (enroll_other _ _ _ _ _ PDC_OBJ E1 ltac:(done)) as Other. destruct (change_spec B1 pid _ (Dims (ndim m) (dims m)) HB1 P1 Hn) as (B2 & p2 & E2 & HB2 & I2 & S2 & P2). destruct (change_spec B2 pid _ (VarType (data_type m)) HB2 P2 I) as (B3 & p3 & E3 & HB3 & I3 & S3 & _).
  set (prop := opened_prop m (take (Z.to_nat (ndim m)) (dims m))).
  set (it oid := ObjectInfo (ObjectPub (match obj_name m with [] => None | n => Some n end) (obj_id m) oid (junk_i32 104) s (Some (pr_pub prop))) None (Some m) (Some (opened_cont (cont_id m))) prop 0).
  assert (pub_ok (pr_pub prop)) as Hpub by (split; cbn; [lia|by apply take_dims]).
  destruct (enroll_spec B3 PDC_OBJ (λ oid, ItObj (it oid)) HB3) as (B4 & oid & E4 & _ & S4 & HB4 & Hne & _ & _ & C4). { intros t. rewrite I3, I2, Other. apply Ro. } { intros oid. split; [done|]. split; [exact Hpub|]. by intros b [= <-]. }
  destruct (get_info_spec B4 oid (it oid) HB4) as (x & Ex & ->); [by rewrite C4, decide_True|split; by eexists|]. exists B4, oid, (oi_pub (it oid)).
  split; [|split; [done|split; [done|split; [congruence|split; [done|]]]]].
  - unfold PDCobj_open. rewrite Eq. cbn [mbind option_bind]. unfold PDCprop_create. change (lookup_id as_class (with_servers B (se_servers B)) pdc) with (lookup_id as_class B pdc). rewrite El. cbn [must mjoin option_join mbind option_bind].
    replace (with_servers B (se_servers B)) with B by by destruct B. rewrite E1. cbn [mbind option_bind]. unfold PDCprop_set_obj_dims. rewrite E2. cbn [mbind option_bind]. unfold PDCprop_set_obj_type. rewrite E3. cbn [mbind option_bind]. rewrite copy_dims_take by done. cbn [mbind option_bind]. exact E4.
  - cbn [oi_pub it ob_name ob_meta_id ob_metadata_server_id ob_pt]. split; [by destruct (obj_name m)|done].
Qed.

(** An object that is made is the one of its name. *)
Lemma made_is_named srv name cont_id (q : obj_prop) ds : cluster_ok srv → ids_left srv → let r := MakeObject name cont_id q ds in
  req_ok (cluster_directory srv) (request_of r) → client_fits (cluster_directory srv) r → op_time_step q = 0 → 0 ≤ op_ndim q ≤ 4 → lenZ (op_dims q) = op_ndim q → (∀ m, ¬ named (cluster_directory srv) name 0 m) →
  ∃ srv' id m, PDC_Client_send_name_recv_id old_memory srv name cont_id q ds = Some (srv', (SUCCEED, id, server_of_name name 0 (lenZ srv))) ∧ id ≠ 0 ∧ cluster_ok srv' ∧
    new_metadata (transfer_of (gen_obj_id_in_data (new_object name cont_id q ds))) (op_type q) = Some m ∧ identified m ∧
    PDC_Client_query_metadata_name_timestep old_memory srv' name 0 = Some (srv', (with_kvtags (with_id m id) [], server_of_name name 0 (lenZ srv))).
Proof.
  intros Hok Hleft r Hreq Hfit Ets Hn Hl Hnone. destruct (object_made srv name cont_id q ds Hok Hleft Hreq Hfit) as (srv' & id & m & E & Hid & Hok' & Hlen & Em & Him & Ed); [by rewrite Ets|]. rewrite Ets in E. change (i32 0) with 0 in E.
  exists srv', id, m. split; [done|]. split; [done|]. split; [done|]. split; [done|]. split; [done|]. destruct (new_object_fields name cont_id q ds m Hn Hl Em) as (En & Et & _ & _ & _ & _ & _ & L & _). rewrite Ets in Et. change (i32 0) with 0 in Et.
  destruct Him as (_ & Hne & Hname). rewrite En in Hne, Hname. pose proof (query_metadata_spec old_memory srv' name 0 Hok' Hne Hname L ltac:(lia)) as H. rewrite Ed in H. destruct (PDC_Client_query_metadata_name_timestep old_memory srv' name 0) as [[S' [m' s]]|].
  - destruct H as (-> & -> & m2 & (E2 & N2 & T2) & ->). rewrite Hlen. cbn [d_objs] in E2. destruct (decide (obj_id m2 = id)) as [Eid|Hne2]; [rewrite Eid, lookup_insert_eq in E2; by injection E2 as <-|].
    rewrite lookup_insert_ne in E2 by done. destruct (Hnone m2). by split.
  - destruct (H (with_id m id)). split; [cbn [obj_id with_id d_objs]; by rewrite lookup_insert_eq|done].
Qed.

(** C18: an object that one client makes with a property of time step 0 and at most four
    dimensions is the object that another client opens by its name: when no object of the
    name and time step 0 is there, creating it gives it a new identifier on the metadata
    server of its name, and both clients are told the same name, identifier, metadata
    server, dimensions, type and partition, those of the property that it was made with.
    (Opening looks for time step 0 only.) *)
Theorem created_is_opened A B locus ds cont name prop k p pdc cls : session_ok A → session_ok B → room A PDC_OBJ → room B PDC_OBJ_PROP → room B PDC_OBJ →
  contents A cont = Some (ItCont k) → contents A prop = Some (ItObjProp p) → contents B pdc = Some (ItClass cls) →
  let srv := se_servers A in let r := MakeObject name (ci_meta_id k) (sent_prop p) ds in cluster_ok srv → ids_left srv → req_ok (cluster_directory srv) (request_of r) → client_fits (cluster_directory srv) r →
  pr_time_step p = 0 → pp_ndim (pr_pub p) ≤ 4 → (∀ m, ¬ named (cluster_directory srv) name 0 m) →
  ∃ A' a xa B' b xb meta, let server := server_of_name name 0 (lenZ srv) in
    PDCobj_create old_memory A locus ds cont name prop = Some (A', a) ∧ PDCobj_open old_memory (with_servers B (se_servers A')) name pdc = Some (B', b) ∧ a ≠ 0 ∧ b ≠ 0 ∧ meta ≠ 0 ∧
    PDCobj_get_info A' a = Some (Some xa) ∧ describes p name meta server xa ∧ PDCobj_get_info B' b = Some (Some xb) ∧ describes p name meta server xb ∧
    session_ok A' ∧ session_ok B' ∧ cluster_ok (se_servers A').
Proof.
  intros HA HB Ra Rp Rb Ek Ep Ec srv r Hok Hleft Hreq Hfit Ets Hn4 Hnone. destruct (contents_registered _ _ _ HA Ep) as (_ & _ & _ & _ & _ & Hpub). pose proof Hpub as [Hn0 Hl].
  destruct (made_is_named srv name (ci_meta_id k) (sent_prop p) ds Hok Hleft Hreq Hfit Ets (conj Hn0 Hn4) Hl Hnone) as (srv' & id & m & Es & Hid & Hok' & Em & Him & Eq).
  destruct (new_object_fields name _ (sent_prop p) ds m (conj Hn0 Hn4) Hl Em) as (N1 & _ & N2 & N3 & N4 & N5 & N6 & L1 & L2 & L3 & L4).
  destruct (create_spec A locus ds cont name prop k p srv' id _ HA Ra Ek Ep Es Hn4 L1 L2 L3 L4) as (A' & a & xa & EA & Ha & HA' & SA & IA & DA).
  destruct (open_spec (with_servers B srv') name pdc cls (with_kvtags (with_id m id) []) (server_of_name name 0 (lenZ srv)) (with_servers_ok B srv' HB) Rp Rb Ec) as (B' & b & xb & EB & Hb & HB' & _ & IB & X1 & X2 & X3 & X4); [cbn [obj_name with_kvtags with_id]; apply Him|exact Eq|cbn [ndim dims with_kvtags with_id]; unfold lenZ; rewrite N3, N4; cbn; lia|].
  exists A', a, xa, B', b, xb, id. cbn zeta. rewrite SA. do 6 (split; [done|]). split; [done|]. split; [done|]. split; [|done].
  split; [rewrite X1; cbn [obj_name with_kvtags with_id]; by rewrite N1|]. split; [rewrite X2; done|]. split; [done|]. eexists. split; [exact X4|]. cbn [pp_ndim pp_dims pp_type pp_partition ndim dims data_type region_partition with_kvtags with_id].
  rewrite N3, N2, N6. cbn [op_ndim op_type op_region_partition sent_prop]. split; [done|]. split; [|done]. exact N5.
Qed.
End shared.

(** * A client that starts *)

Definition empty_type (ty : Z) : id_type := IdType (Some ty) ty 1 0 0 [].
Definition first_id : Z := PDCID_MAKE PDC_CLASS 0.
Definition start_ids : list (Z * option id_type) :=
  (PDC_CLASS, Some (IdType (Some PDC_CLASS) PDC_CLASS 1 1 1 [IdInfo first_id 1 0])) :: ((λ ty, (ty, Some (empty_type ty))) <$> [PDC_CONT_PROP; PDC_OBJ_PROP; PDC_CONT; PDC_OBJ; PDC_REGION; PDC_TRANSFER_REQUEST]).
Definition started (name : string) (srv : list meta_server) : session := Session (list_to_map start_ids) {[0 := ItClass (PdcClass (Some name) first_id)]} srv.

Lemma init_started name srv : PDCinit name srv = Some (started name srv, first_id).
Proof. vm_compute. reflexivity. Qed.
Lemma start_ids_some ty e : (list_to_map start_ids : id_table) !! ty = Some e → (ty, e) ∈ start_ids.
Proof. apply elem_of_list_to_map_2. Qed.
Lemma start_registered id x : registered (list_to_map start_ids) id = Some x → id = first_id ∧ x = IdInfo first_id 1 0.
Proof.
  unfold registered. destruct (_ !! _) as [e|] eqn:E; [|done]. apply start_ids_some in E. unfold start_ids in E. cbn [fmap list_fmap] in E. repeat (apply elem_of_cons in E as [E|E]); [injection E as _ ->|injection E as _ ->..|by apply elem_of_nil in E]; [|done..].
  cbn [ty_ids empty_type list_find id_id]. case_decide as Hid; [|done]. cbn. by intros [= <-].
Qed.
Lemma init_spec name srv : session_ok (started name srv) ∧ rooms (started name srv) ∧ ∀ id, contents (started name srv) id = if decide (id = first_id) then Some (ItClass (PdcClass (Some name) first_id)) else None.
Proof.
  split; [split; cbn [se_ids se_heap started]|split].
  - intros ty e E%start_ids_some. unfold start_ids in E. cbn [fmap list_fmap] in E.
    repeat (apply elem_of_cons in E as [E|E]; [injection E as -> ->; split; [done|]; eexists; split; [done|]; split; cbn; [lia|done|done|done|by repeat constructor; intros ?%elem_of_nil|]; repeat constructor; try done; by exists 0|]). by apply elem_of_nil in E.
  - intros ty Hty. unfold PDC_next_type, PDC_NTYPES in Hty. assert (ty = 1 ∨ ty = 2 ∨ ty = 3 ∨ ty = 4 ∨ ty = 5 ∨ ty = 6 ∨ ty = 7) as H by lia. by destruct H as [->|[->|[->|[->|[->|[->| ->]]]]]]; eexists.
  - intros id x [-> ->]%start_registered. split; [done|]. by eexists.
  - intros id id' x x' [-> _]%start_registered [-> _]%start_registered. done.
  - intros ty t E%start_ids_some. unfold start_ids in E. cbn [fmap list_fmap] in E. repeat (apply elem_of_cons in E as [E|E]; [by injection E as _ ->|]). by apply elem_of_nil in E.
  - intros id. unfold contents. cbn [se_ids se_heap started]. destruct (registered _ id) as [x|] eqn:E; [apply start_registered in E as [-> ->]; by rewrite decide_True|]. rewrite decide_False; [done|]. intros ->. by vm_compute in E.
Qed.
(** The room is seen from the counts. *)
Definition rooms_seen (st : session) : bool := forallb (λ e, match e.2 with Some t => bool_decide (ty_nextid t < ID_MASK ∧ ty_id_count t + 1 < W32) | None => true end) (map_to_list (se_ids st)).
Lemma rooms_checked st : rooms_seen st = true → rooms st.
Proof. intros H ty t E. apply elem_of_map_to_list in E. unfold rooms_seen in H. rewrite forallb_forall in H. apply list_elem_of_In in E. specialize (H _ E). by apply bool_decide_eq_true in H. Qed.

(** * Two clients and two servers *)

Module Run.
Import LittleEndian MetadataClients.Run.
#[local] Existing Instance cleared_memory.
#[local] Existing Instance listed_order.
#[local] Existing Instance no_numbers.
#[local] Existing Instance zeros.

Definition after (st : session) (o : operation) : session := match run st o with Some (st', _) => st' | None => st end.
Lemma after_session_ok st o : session_ok st → rooms_seen st = true → allowed (contents st) o → session_ok (after st o).
Proof. intros H1 H2%rooms_checked H3. destruct (operation_spec st o H1 H2 H3) as (st' & r & E & _ & Hok & _). unfold after. by rewrite E. Qed.

Definition empty : session := started [112] two.
Definition container : Z := PDCID_MAKE PDC_CONT 0.
Definition property : Z := PDCID_MAKE PDC_OBJ_PROP 0.
Definition with_cont : session := after empty (LocalCont first_id [99] 5).
Definition with_prop : session := after with_cont (NewProp PDC_OBJ_CREATE first_id).
Definition with_dims : session := after with_prop (ChangeProp property (Dims 1 [4])).
Definition ready : session := after with_dims (ChangeProp property (VarType 2)).

Lemma empty_ok : session_ok empty.
Proof. apply init_spec. Qed.
Lemma with_cont_ok : session_ok with_cont.
Proof. apply after_session_ok; [exact empty_ok|by vm_compute|eexists; vm_compute; reflexivity]. Qed.
Lemma with_prop_ok : session_ok with_prop.
Proof. apply after_session_ok; [exact with_cont_ok|by vm_compute|eexists; vm_compute; reflexivity]. Qed.
Lemma with_dims_ok : session_ok with_dims.
Proof. apply after_session_ok; [exact with_prop_ok|by vm_compute|]. split; [eexists; vm_compute; reflexivity|done]. Qed.
Lemma ready_ok : session_ok ready.
Proof. apply after_session_ok; [exact with_dims_ok|by vm_compute|]. split; [eexists; vm_compute; reflexivity|done]. Qed.

Lemma client_is_a_map_witness : ∃ st' r, run with_prop (ChangeProp property (Dims 1 [4])) = Some (st', r) ∧ meaning (contents with_prop) (ChangeProp property (Dims 1 [4])) r (contents st') ∧ session_ok st' ∧ se_servers st' = se_servers with_prop.
Proof.
  apply (client_is_a_map with_prop (ChangeProp property (Dims 1 [4]))); [exact with_prop_ok|by apply rooms_checked|]. split; [eexists; vm_compute; reflexivity|done].
Defined.

Definition cls : pdc_class := PdcClass (Some [112]) first_id.
Definition the_prop : object_prop := ObjectProp (PropPub property 1 [4] 2 PDC_REGION_STATIC PDC_CONSISTENCY_EVENTUAL) cls 0 None 0 None None 0 CLIENT_MEMORY 0 no_transform.
Definition the_cont : cont_info := ContInfoOf (Some [99]) container 5 (ContPropOf cls (PDCID_MAKE PDC_CONT_PROP 0) PDC_PERSIST).
Lemma same_servers : se_servers ready = two.
Proof. reflexivity. Qed.
Lemma ready_create_ok : req_ok (cluster_directory two) (request_of (MakeObject [97] 5 (sent_prop the_prop) 0)).
Proof.
  rewrite two_directory. eexists. split; [reflexivity|]. split; [split; [by vm_compute|split; [done|by repeat constructor]]|]. split; [done|]. split; [done|]. by apply sharing_small.
Qed.
Lemma created_is_opened_witness : ∃ A' a xa B' b xb meta, let server := server_of_name [97] 0 (lenZ two) in
    PDCobj_create cleared ready CLIENT_MEMORY 0 container [97] property = Some (A', a) ∧ PDCobj_open cleared (with_servers empty (se_servers A')) [97] first_id = Some (B', b) ∧ a ≠ 0 ∧ b ≠ 0 ∧ meta ≠ 0 ∧
    PDCobj_get_info A' a = Some (Some xa) ∧ describes the_prop [97] meta server xa ∧ PDCobj_get_info B' b = Some (Some xb) ∧ describes the_prop [97] meta server xb ∧
    session_ok A' ∧ session_ok B' ∧ cluster_ok (se_servers A').
Proof.
  apply (created_is_opened cleared ready empty CLIENT_MEMORY 0 container [97] property the_cont the_prop first_id cls);
    [exact ready_ok|exact empty_ok|by apply rooms_checked|by apply rooms_checked|by apply rooms_checked|vm_compute; reflexivity|vm_compute; reflexivity|vm_compute; reflexivity|..].
  - rewrite same_servers. by apply start_cluster_ok.
  - rewrite same_servers. exact two_left.
  - rewrite same_servers. exact ready_create_ok.
  - repeat split; by repeat constructor.
  - done.
  - done.
  - intros m (E & _). rewrite same_servers, two_directory in E. done.
Defined.

(** Creating an object that is there leaves one without properties, at which closing fails. *)
Definition made_twice : option (session * Z) := '(st, _) ← PDCobj_create cleared ready CLIENT_MEMORY 0 container [97] property; PDCobj_create cleared st CLIENT_MEMORY 0 container [97] property.
Example refused_creation : snd <$> made_twice = Some 0.
Proof. vm_compute. reflexivity. Qed.
Example half_made_object : (id ← Some (PDCID_MAKE PDC_OBJ 1); '(st, _) ← made_twice; PDCobj_get_info st id) = None ∧ ('(st, _) ← made_twice; PDCclose st first_id) = None.
Proof. vm_compute. done. Qed.
Example close_ready : snd <$> PDCclose ready first_id = Some SUCCEED.
Proof. vm_compute. reflexivity. Qed.
(** Fewer dimensions: the number stays. *)
Example fewer_dims : pr_pub <$> (changed (Dims 2 [5; 6]) the_prop ≫= changed (Dims 1 [7])) = Some (PropPub property 2 [7; 6] 2 PDC_REGION_STATIC PDC_CONSISTENCY_EVENTUAL).
Proof. reflexivity. Qed.
(** Opening an object that is not there. *)
Example open_missing : PDCobj_open cleared empty [97] first_id = None.
Proof. vm_compute. reflexivity. Qed.
End Run.
